(* ===== verification/_CoqProject ===== *)
-Q . S2P
Prelude.v
Mbuf.v
MbufFacts.v
Mchain.v
MchainFacts.v
MchainTheorems.v
Chain.v
ChainMbuf.v
Fid.v
Ntstatus.v
Credits.v
Md4.v
Smb2Req.v
Smb2Rsp.v
Mc.v
McFacts.v
McExcess.v
McTrial.v
McTable.v
McReach.v
McParse.v
McParseTheorems.v
McNotify.v
McUpdate.v
Brl.v
BrlFacts.v
BrlServer.v
BrlMirror.v
BrlTheorems.v
BrlClose.v
BrlReach.v
Lease.v
LeaseTheorems.v
LeaseBreak.v
Parser.v
Create.v
CreateTheorems.v
CreateRound.v
Rw.v
RwWindow.v
RwTheorems.v
RwWrite.v
RwDemo.v
Quantum.v
Replies.v
ReplyTheorems.v
ReplyNames.v
Sign.v
SignTheorems.v
Seal.v
SealTheorems.v
Compress.v
CompressTheorems.v
Setup.v
SetupTheorems.v
Iod.v
IodTheorems.v
Outgoing.v
OutgoingTheorems.v
Acl.v
AclFacts.v
AclLayout.v
AclTheorems.v
AclDemo.v
Nbt.v
NbtTheorems.v
Negot.v
NegotTheorems.v
NegotRequest.v
NegotReply.v
NegotDemo.v
Dirlist.v
DirTheorems.v
DirListing.v
CreateReq.v
CreateReqTheorems.v
Convert.v
Paths.v
Streams.v
StreamTheorems.v
