(* ===== verification/Prelude.v ===== *)
(** * SMBClient: a verification development

    SMBClient is the SMB client of macOS: a kernel extension ([src/kernel]) that
    speaks SMB 1 to SMB 3 over TCP, a filesystem on top of it, a userland
    library ([src/lib]) and the tools that mount and query shares.  This library
    models the way of a message through the SMB 2/3 engine, from the fields of a
    request to the bytes on the socket and back, the tables the engine keeps, and
    the parts of the filesystem that have state of their own: locks, leases, reads
    and writes, security descriptors, listings of directories.

    ** The parts and how they interact

    A thread of the filesystem or of an ioctl allocates a request
    ([smb2_rq_alloc]), which takes credits and message IDs from its channel
    (the [struct smbiod]) and writes a 64-byte header into an mbuf chain; the
    body and the headers of compound requests follow.  The request enters the
    queue of the channel; its thread gives out the message IDs, signs, compresses
    and encrypts it, and sends it through the transport.  What comes in is cut
    into messages by the transport, decrypted, decompressed and matched with a
    request of the queue.  The owner of the request parses the header
    ([smb2_rq_parse_header]), which checks the signature, counts the granted
    credits, copies the identifiers and turns the NTSTATUS into an errno, and then
    the body of the command.  Negotiation and session setup feed every message
    into a hash that the keys for signing and encryption are derived from.  Open
    files are known to the upper layers by 64-bit FIDs, which a table per share
    maps to the 128-bit FIDs of the server.  A session may have several channels:
    the multichannel tables pair the NICs of client and server, decide which
    pairs to try and which connected channels stay active.  The filesystem keeps,
    for each node, the locks it holds at the server, the lease that says what may
    be cached, the files whose close is deferred, and the security descriptor.

    ** Files

    Foundations:
    - [Prelude]: machine integers, little- and big-endian bytes, splicing of
      lists, the state monad [M] (an undefined behaviour of C is [None]), the
      state and error monad [ME] (an errno is [inl]), the errno values, tactics.
    - [Mbuf], [MbufFacts]: the userland mbufs of [lib/smb/mbuf.c]
      over an explicit store; freeing removes an mbuf, so that a use after free
      is undefined.  What malloc returns is a parameter (class [Platform]).
    - [Mchain], [MchainFacts], [MchainTheorems]: [kernel/sys5/kern/subr_mchain.c]
      in its userland build, the chains that messages are built in and parsed
      from, with the representation predicates [mb_rep] and [md_rep].
    - [Chain], [ChainMbuf]: the interface between message code and chains as
      type classes ([Writer], [Reader] and their laws), and the proof that the
      chains of [Mchain] implement it.  The message code is proved against the
      interface only.
    - [Parser]: the reader monad that the replies of commands are parsed in.

    Messages:
    - [Smb2Req], [Smb2Rsp]: [kernel/netsmb/smb_rq_2.c], requests and replies.
      The checks of the signature and of decryption are parameters of the reply
      side; no law is assumed of them.
    - [Credits]: the crediting and the message IDs of the same file; what other
      threads do while a thread sleeps comes in as a list of events.
    - [Create], [CreateTheorems], [CreateRound]: the
      reply to a create with its contexts, of [kernel/netsmb/smb_smb_2.c].
    - [CreateReq], [CreateReqTheorems]: the request of a create
      with its contexts, and the exchange.
    - [Negot], [NegotTheorems], [NegotRequest], [NegotReply], [NegotDemo]: the
      negotiation of the same file: dialects, contexts and algorithms that are
      offered, and the answer; its validation in [smbfs_smb_2.c].
    - [Replies], [ReplyTheorems], [ReplyNames]: the replies of
      single commands of the same file (close, change notify, lease break, set
      info, flush, and the queries of files, filesystems and descriptors), and the
      exchange of a close.
    - [Rw], [RwWindow], [RwTheorems], [RwWrite], [RwDemo]: reads and
      writes of files, cut into requests that are in flight together; the
      channel and the server are the class [Net].
    - [Quantum]: the choice of the size of these requests.

    Protection of messages ([kernel/netsmb/smb_crypt.c]; MACs, ciphers, hashes
    and compressors are type classes with their laws):
    - [Sign], [SignTheorems]: signatures of requests and replies.
    - [Seal], [SealTheorems]: encryption, decryption and nonces.
    - [Compress], [CompressTheorems]: compression of writes, decompression.
    - [Setup], [SetupTheorems]: the hash of the exchange, the keys, and the check of
      the last session setup reply ([smb_iod.c], [smb_gss.c]).
    - [Outgoing], [OutgoingTheorems]: [smb_iod_rq_sign], which composes them.

    Channels:
    - [Iod], [IodTheorems]: [kernel/netsmb/smb_iod.c], the queue of
      requests of a channel; wake-ups and calls of other parts go into a log.
    - [Nbt], [NbtTheorems]: [kernel/netsmb/smb_trantcp.c], messages on a TCP
      stream and NetBIOS sessions, with [lib/smb/nb_name.c] for their names.
    - [Mc], [McFacts], [McExcess], [McTrial], [McTable], [McReach]:
      [kernel/netsmb/smb2_mc_support.c], the connection table of a session.  NICs
      and connections are objects of a store that the lists share, and what a
      freed or missing one would read as is left open; calls of the I/O threads
      are recorded as signals.
    - [McParse], [McParseTheorems], [McNotify], [McUpdate]: the
      parsing of the interfaces of client and server, their updates, and the
      tables that a session reaches.

    Tables and filesystem:
    - [Fid]: [kernel/netsmb/smb_fid.c], the FID table of a share.
    - [Ntstatus]: the error translation of [kernel/netsmb/smb_subr.c].
    - [Md4]: [kernel/netsmb/md4c.c].
    - [Brl], [BrlFacts], [BrlServer], [BrlMirror], [BrlTheorems], [BrlClose],
      [BrlReach]: byte-range locks and flocks of [kernel/smbfs/smbfs_node.c] and
      [smbfs_vnops.c]; the server is the class [Wire], and [BrlServer] is one.
    - [Lease], [LeaseTheorems], [LeaseBreak]: leases, lease breaks
      and deferred closes of [smbfs_node.c].
    - [Acl], [AclFacts], [AclLayout], [AclTheorems], [AclDemo]:
      [kernel/smbfs/smbfs_security.c], security descriptors, their cache and
      their translation; the directory service is the class [Kauth].
    - [Dirlist], [DirTheorems], [DirListing]: the listing of directories
      of [smb_smb_2.c], [smbfs_smb_2.c] and [smbfs_smb.c]: entries of replies,
      queries that are sent ahead and saved, what the filesystem gets.
    - [Convert]: [kernel/netsmb/smb_converter.c], the conversion of names and
      paths; the UTF-8 routines of the kernel are the class [Utf].
    - [Paths]: the paths of nodes in requests, of [smbfs_subr.c],
      [smbfs_subr_2.c] and [smbfs_node.c], with the locks and references that are
      held; vnodes, memory and the outcome of putting bytes on a chain, of which
      [Mchain] has the details, are the class [PathIo].
    - [Streams], [StreamTheorems]: the named streams of a file, of
      [smb_smb_2.c], [smbfs_smb_2.c] and [smbfs_smb.c].

    Each function of the source is a definition of the same name; a loop is a
    [Fixpoint] or a fold beside it.  Locks are held by the functions from entry
    to exit, so that a function is one step.  C integers are integers [Z] wrapped
    at their width where they can leave it.

    ** What is proved

    - Chains: [mb_put_mem] appends exactly the bytes given and [md_get_mem] reads
      exactly the bytes that are there, both without undefined behaviour on any
      well-formed chain; what is put field by field is read back.
    - Messages: a new request is the [MS-SMB2] header of its fields; compound
      padding and chaining patch exactly their fields; a reply with the
      [MS-SMB2] layout is parsed to its fields, and any bytes at all are parsed
      without leaving the chain, with the signature checked when it must be; a
      compound reply is walked command by command.  The same for create replies
      with their contexts and for the replies of single commands.  A server finds
      in the request of a create the fields and contexts that are asked for.
    - Negotiation: a server finds in the request what the client offers, its answer
      is read to its fields; signing is enforced (but for a server that picks the
      wildcard dialect); further channels agree with the first.
    - Reads and writes: every byte goes to its place and no other, in however
      many requests (for reads as long as credits do not shorten them); the quantum
      is positive and within its limits.
    - Credits: a request is let go only with enough credits and inside the send
      window, the wait ends, credits are conserved, granted credits are counted
      once, and the message IDs of different requests are disjoint.
    - Protection: a signed request is accepted by a peer with the key, a reply is
      accepted exactly with the right signature of the part that it covers, where
      there is a key; an encrypted message is accepted only with the right tag,
      which covers all of it if its length is the announced one; nonces
      repeat only after their period; what was compressed is decompressed to
      itself, and decompression stays in its buffers; the keys are derived from
      the hash of exactly the messages of the exchange; and a request, not a
      compound, that is signed, compressed and encrypted arrives as it was.
    - Channels: a reply reaches its request and no other; single replies to the
      parts of a compound request are collected, in any order once the server is
      known to send them, and wake the owner up with the last; no request stays
      overdue; the stream is cut into the messages that were sent, in whatever
      pieces it arrives, and receiving ends.
    - Multichannel: the table is the product of the NICs; a new connection takes
      its NICs; trials end and use distinct NICs; the active channels are the
      fastest; the channel limit is enforced; parsing interfaces stays in bounds;
      an update of the NICs reads no freed object; and the table keeps its shape
      whatever is called in whatever order, with the successful list exact as long
      as no trial fails beside a connected sibling.
    - Tables: the FID table refines a map from FIDs to stacks of server FIDs, the
      lease table one from keys to vnodes; the error translation yields success
      for no error status; the streaming MD4 is MD4 of the concatenation.
    - Filesystem: every byte-range lock a node records is held at the server, every
      flock as well if the server takes locks of the full length and nobody closes
      the file holding it, and a close releases all of them; a close forgets the
      FID if the server agreed; a file is cached only under the lease that is left
      after a break; a security descriptor is read as it was set, with the rights
      that there are, reading one stays in bounds, and a change of the modes keeps the entries; the listing of
      a directory gives every entry exactly once, and ends; a path is converted to
      the network and back to itself; the path of a file is made of the names of
      its ancestors, and the locks and references taken for it are given back; the
      streams of a file are listed, and any reply is parsed in bounds.
    - Defects: theorems that show where the code does not do what it means to,
      at the ends of the files of theorems and in the files named [...Demo].

    ** Fuel and bounds

    Loops over a chain carry fuel taken from the size of the store (the number
    of its mbufs for a walk, twice that and a few for a copy), and running out of
    it is undefined behaviour, so that the theorems, which show a result, also
    show that it is enough on every well-formed chain.  Loops of parsers run over
    the bytes that are left, each round takes at least one; where the code can
    loop without progress, a theorem says so.  The loops of the transport need a
    round for each byte and each outcome of a read that is still to come.  The
    wait for credits runs over the events it is given; it ends if within 60
    sleeps the window opens or the share goes away, and 60 timeouts in a row make
    it reconnect.  The trial loop of the connection table needs two rounds more than the
    caller's vector has entries.  The loops of reads and writes need a round for
    each byte.  Bounds on lengths in the hypotheses are those below which the size
    fields of the code do not wrap.

    ** Not modelled

    The threads of the channels, their events, reconnects and failover, and
    sockets, which are waits and system calls around the modelled queue; the
    upcalls to gssd, of which the outcome is an input; the marshalling of the other
    requests of [smb_smb_2.c] and the compound calls of [smbfs_smb_2.c] that are
    built from them; SMB 1 but for the paths and streams of files; the vnode
    operations, the life cycle of nodes and the attribute cache, which follow the
    interfaces of the kernel; the calls of the
    directory service, of the UTF-8 routines and of cryptography, which
    are classes; the userland library beyond mbufs and NetBIOS names; the tools. *)

From Stdlib Require Export ZArith Lia.
From stdpp Require Export base gmap list numbers option.

#[global] Open Scope Z_scope.

(** ** Machine integers *)

Definition u8 (x : Z) : Z := x `mod` 2 ^ 8.
Definition u16 (x : Z) : Z := x `mod` 2 ^ 16.
Definition u32 (x : Z) : Z := x `mod` 2 ^ 32.
Definition u64 (x : Z) : Z := x `mod` 2 ^ 64.

(** Two's complement reading of the low [w] bits. *)
Definition swrap (w : Z) (x : Z) : Z := (x + 2 ^ (w - 1)) `mod` 2 ^ w - 2 ^ (w - 1).
Definition i8 := swrap 8.
Definition i16 := swrap 16.
Definition i32 := swrap 32.
Definition i64 := swrap 64.

Definition is_byte (b : Z) : Prop := 0 <= b < 256.

(** A byte that is kept in a [char] keeps its value only below [0x80]; above it the value
    is negative. *)
Lemma i8_byte b : is_byte b -> i8 b = if b <? 0x80 then b else b - 256.
Proof.
  unfold is_byte, i8, swrap. intros Hb. change (2 ^ (8 - 1)) with 128. change (2 ^ 8) with 256.
  destruct (Z.ltb_spec b 0x80); [rewrite Z.mod_small; lia|].
  replace (b + 128) with (b - 128 + 1 * 256) by lia. rewrite Z.mod_add, Z.mod_small; lia.
Qed.

Lemma u64_small x : 0 <= x < 2 ^ 64 -> u64 x = x.
Proof. apply Z.mod_small. Qed.

Lemma u64_range x : 0 <= u64 x < 2 ^ 64.
Proof. apply Z.mod_pos_bound. lia. Qed.

Lemma u32_small x : 0 <= x < 2 ^ 32 -> u32 x = x.
Proof. apply Z.mod_small. Qed.

Lemma u32_range x : 0 <= u32 x < 2 ^ 32.
Proof. apply Z.mod_pos_bound. lia. Qed.

Lemma u16_small x : 0 <= x < 2 ^ 16 -> u16 x = x.
Proof. apply Z.mod_small. Qed.

Lemma u16_range x : 0 <= u16 x < 2 ^ 16.
Proof. apply Z.mod_pos_bound. lia. Qed.

Lemma u64_add_l a b : u64 (u64 a + b) = u64 (a + b).
Proof. apply Zplus_mod_idemp_l. Qed.

Lemma u64_add_r a b : u64 (a + u64 b) = u64 (a + b).
Proof. apply Zplus_mod_idemp_r. Qed.

Lemma u64_idem a : u64 (u64 a) = u64 a.
Proof. apply Zmod_mod. Qed.

Lemma u32_add_l a b : u32 (u32 a + b) = u32 (a + b).
Proof. apply Zplus_mod_idemp_l. Qed.

Lemma u32_add_r a b : u32 (a + u32 b) = u32 (a + b).
Proof. apply Zplus_mod_idemp_r. Qed.

Lemma swrap_small w x :
  0 < w -> - 2 ^ (w - 1) <= x < 2 ^ (w - 1) -> swrap w x = x.
Proof.
  intros Hw Hx. unfold swrap.
  assert (2 ^ w = 2 * 2 ^ (w - 1)) as E.
  { rewrite <- Z.pow_succ_r by lia. f_equal. lia. }
  rewrite Z.mod_small; lia.
Qed.

Lemma i32_small x : - 2 ^ 31 <= x < 2 ^ 31 -> i32 x = x.
Proof. intros ?. apply swrap_small; lia. Qed.

Lemma i32_range x : - 2 ^ 31 <= i32 x < 2 ^ 31.
Proof. unfold i32, swrap. pose proof (Z.mod_pos_bound (x + 2 ^ (32 - 1)) (2 ^ 32)). lia. Qed.

Create HintDb smb discriminated.
#[global] Create Rewrite HintDb wrap.
#[global] Create Rewrite HintDb len.
#[export] Hint Resolve u64_small u32_small u16_small : smb.
#[export] Hint Rewrite u64_add_l u64_add_r u64_idem u32_add_l u32_add_r : wrap.

(** ** Byte strings: little- and big-endian images of an integer *)

Fixpoint le_bytes (n : nat) (x : Z) : list Z :=
  match n with
  | O => []
  | S k => (x `mod` 256) :: le_bytes k (x `div` 256)
  end.

Fixpoint le_value (bs : list Z) : Z :=
  match bs with
  | [] => 0
  | b :: r => b + 256 * le_value r
  end.

Definition be_bytes (n : nat) (x : Z) : list Z := rev (le_bytes n x).
Definition be_value (bs : list Z) : Z := le_value (rev bs).

Lemma length_le_bytes n x : length (le_bytes n x) = n.
Proof. revert x. induction n as [|n IH]; intros x; simpl; [done|]. by rewrite IH. Qed.

Lemma length_be_bytes n x : length (be_bytes n x) = n.
Proof. unfold be_bytes. by rewrite length_rev, length_le_bytes. Qed.

Lemma le_bytes_byte n x : Forall is_byte (le_bytes n x).
Proof.
  revert x. induction n as [|n IH]; intros x; simpl; constructor; [|done].
  apply Z.mod_pos_bound. lia.
Qed.

Lemma le_value_bytes n x : le_value (le_bytes n x) = x `mod` 256 ^ Z.of_nat n.
Proof.
  revert x. induction n as [|n IH]; intros x; cbn [le_bytes le_value].
  { by rewrite Z.mod_1_r. }
  rewrite IH, Nat2Z.inj_succ, Z.pow_succ_r by lia.
  rewrite Z.rem_mul_r; lia.
Qed.

Lemma le_value_bound bs : Forall is_byte bs -> 0 <= le_value bs < 256 ^ Z.of_nat (length bs).
Proof.
  induction 1 as [|b r Hb _ IH]; cbn [le_value length]; [lia|].
  rewrite Nat2Z.inj_succ, Z.pow_succ_r by lia. unfold is_byte in Hb. lia.
Qed.

Lemma le_bytes_value bs :
  Forall is_byte bs -> le_bytes (length bs) (le_value bs) = bs.
Proof.
  induction 1 as [|b r Hb _ IH]; [done|]. cbn [length le_bytes le_value].
  unfold is_byte in Hb. rewrite (Z.mul_comm 256).
  rewrite Z.mod_add, Z.mod_small, Z.div_add, Z.div_small, Z.add_0_l by lia.
  by rewrite IH.
Qed.

Lemma le_bytes_app a b x :
  le_bytes (a + b) x = le_bytes a x ++ le_bytes b (x / 256 ^ Z.of_nat a).
Proof.
  revert x. induction a as [|a IH]; intros x; cbn [Nat.add le_bytes app].
  { by rewrite Z.div_1_r. }
  rewrite IH, Nat2Z.inj_succ, Z.pow_succ_r, Z.div_div by lia. done.
Qed.

Lemma le_bytes_mod n x : le_bytes n (x `mod` 256 ^ Z.of_nat n) = le_bytes n x.
Proof.
  rewrite <- le_value_bytes. rewrite <- (length_le_bytes n x) at 1.
  apply le_bytes_value, le_bytes_byte.
Qed.

Lemma be_value_bytes n x : be_value (be_bytes n x) = x `mod` 256 ^ Z.of_nat n.
Proof. unfold be_value, be_bytes. by rewrite rev_involutive, le_value_bytes. Qed.

#[export] Hint Rewrite length_le_bytes length_be_bytes : len.
#[export] Hint Resolve le_bytes_byte : smb.

(** ** Flags *)

(** C's [if (x & m)] and [x & ~m]. *)
Definition has (x m : Z) : bool := negb (Z.land x m =? 0).
Definition clear_bits (x m : Z) : Z := Z.land x (Z.lnot m).

Lemma has_lor x y m : has (Z.lor x y) m = has x m || has y m.
Proof.
  unfold has. rewrite Z.land_lor_distr_l. destruct (Z.eqb_spec (Z.land x m) 0) as [->|Hx].
  - by rewrite Z.lor_0_l.
  - cbn. destruct (Z.eqb_spec (Z.lor (Z.land x m) (Z.land y m)) 0) as [E|]; [|done].
    apply Z.lor_eq_0_iff in E as [E _]. done.
Qed.

Lemma has_lor_r x a b : has x (Z.lor a b) = has x a || has x b.
Proof.
  unfold has at 1. rewrite Z.land_comm. change (has (Z.lor a b) x = has x a || has x b).
  rewrite has_lor. unfold has. by rewrite (Z.land_comm a), (Z.land_comm b).
Qed.

Lemma has_clear x m n : Z.land m n = 0 -> has (clear_bits x m) n = has x n.
Proof.
  intros H. unfold has, clear_bits. do 2 f_equal. apply Z.bits_inj'. intros k Hk.
  rewrite !Z.land_spec, Z.lnot_spec by done. assert (Z.testbit m k && Z.testbit n k = false) as E.
  { by rewrite <- Z.land_spec, H, Z.bits_0. }
  destruct (Z.testbit x k), (Z.testbit m k), (Z.testbit n k); try done.
Qed.

Lemma has_clear_self x m : has (clear_bits x m) m = false.
Proof.
  unfold has, clear_bits. rewrite <- Z.land_assoc, (Z.land_comm (Z.lnot m)), Z.land_lnot_diag, Z.land_0_r. done.
Qed.

Lemma clear_lor x m : clear_bits (Z.lor x m) m = clear_bits x m.
Proof.
  unfold clear_bits. rewrite Z.land_lor_distr_l, Z.land_lnot_diag. by rewrite Z.lor_0_r.
Qed.

(** ** Lists: overwriting a slice *)

Section Splice.
Context {A : Type}.
Implicit Types l bs : list A.

(** [splice off bs l] is [l] with the elements from [off] on overwritten by
    [bs]; the length is unchanged when [bs] fits. *)
Definition splice (off : nat) (bs l : list A) : list A :=
  take off l ++ bs ++ drop (off + length bs) l.

Lemma length_splice off bs l :
  (off + length bs <= length l)%nat -> length (splice off bs l) = length l.
Proof. intros H. unfold splice. rewrite !length_app, length_take, length_drop. lia. Qed.

Lemma take_splice_end off bs l :
  (off + length bs <= length l)%nat ->
  take (off + length bs) (splice off bs l) = take off l ++ bs.
Proof.
  intros H. unfold splice. rewrite app_assoc. apply take_app_length'.
  rewrite length_app, length_take. lia.
Qed.

Lemma take_splice_prefix off bs l n :
  (n <= off)%nat -> (off <= length l)%nat -> take n (splice off bs l) = take n l.
Proof.
  intros Hn Hoff. unfold splice. rewrite take_app_le by (rewrite length_take; lia).
  rewrite take_take. f_equal. lia.
Qed.

Lemma splice_splice off a b l :
  (off + length a + length b <= length l)%nat ->
  splice (off + length a) b (splice off a l) = splice off (a ++ b) l.
Proof.
  intros Hl. unfold splice at 1. rewrite take_splice_end by lia.
  unfold splice. rewrite !length_app, <- !app_assoc. do 3 f_equal.
  rewrite app_assoc, drop_app_ge by (rewrite length_app, length_take; lia).
  rewrite length_app, length_take, drop_drop. f_equal. lia.
Qed.

Lemma take_splice_in off bs l n :
  (off + length bs <= n)%nat -> (n <= length l)%nat ->
  take n (splice off bs l) = splice off bs (take n l).
Proof.
  intros H1 H2. unfold splice. rewrite (take_take l off n), Nat.min_l by lia.
  rewrite app_assoc, take_app_ge by (rewrite length_app, length_take; lia).
  rewrite <- app_assoc. do 2 f_equal.
  rewrite length_app, length_take, take_drop_commute. do 2 f_equal. lia.
Qed.

Lemma splice_mid a b c xs k :
  (k + length xs <= length b)%nat ->
  splice (length a + k) xs (a ++ b ++ c) = a ++ splice k xs b ++ c.
Proof.
  intros H. unfold splice. rewrite take_app_ge by lia. rewrite take_app_le by lia.
  rewrite drop_app_ge by lia. rewrite drop_app_le by lia.
  rewrite <- !app_assoc. repeat f_equal; lia.
Qed.

Lemma splice_full a l : length a = length l -> splice 0 a l = a.
Proof.
  intros E. unfold splice. rewrite drop_ge by lia. by rewrite app_nil_r.
Qed.

Lemma splice_nil off l : splice off [] l = l.
Proof. unfold splice. simpl. rewrite Nat.add_0_r. apply take_drop. Qed.
End Splice.

Lemma lookup_splice {A} (off : nat) (bs l : list A) i : (off + length bs <= length l)%nat ->
  splice off bs l !! i = if decide (off <= i < off + length bs)%nat then bs !! (i - off)%nat else l !! i.
Proof.
  intros Hl. unfold splice. destruct (decide _) as [Hi|Hi].
  - rewrite lookup_app_r by (rewrite length_take; lia). rewrite length_take, Nat.min_l by lia.
    apply lookup_app_l. lia.
  - destruct (decide (i < off)%nat).
    + rewrite lookup_app_l by (rewrite length_take; lia). by rewrite lookup_take_lt by lia.
    + rewrite lookup_app_r by (rewrite length_take; lia). rewrite length_take, Nat.min_l by lia.
      rewrite lookup_app_r by lia. rewrite lookup_drop. f_equal. lia.
Qed.

(** ** Partial state computations

    [M S A] is a C function body over the state [S].  [None] is undefined
    behaviour: a NULL or dangling pointer dereference, or an access outside of
    the buffer an mbuf owns.  A theorem that a computation is [Some _] states
    that none of these happens. *)

Definition M (S A : Type) : Type := S -> option (A * S).

#[export] Instance M_ret {S} : MRet (M S) := fun A a s => Some (a, s).
#[export] Instance M_bind {S} : MBind (M S) :=
  fun A B f m s => match m s with Some (a, s') => f a s' | None => None end.

Definition getS {S} : M S S := fun s => Some (s, s).
Definition putS {S} (s : S) : M S unit := fun _ => Some (tt, s).
Definition undef {S A} : M S A := fun _ => None.

Lemma bind_some {S A B} (m : M S A) (f : A -> M S B) (s s' : S) (a : A) :
  m s = Some (a, s') -> (m ≫= f) s = f a s'.
Proof. intros E. unfold mbind, M_bind. by rewrite E. Qed.

Lemma getS_run {S} (s : S) : getS s = Some (s, s).
Proof. done. Qed.

Lemma mret_run {S A} (a : A) (s : S) : (mret a : M S A) s = Some (a, s).
Proof. done. Qed.

(** ** Computations that may fail with an errno

    The C idiom [error = f(..); if (error) goto bad;]: [inl e] leaves with the
    error [e], the state as it is by then. *)

Definition ME (T A : Type) : Type := T -> option ((Z + A) * T).

#[export] Instance ME_ret {T} : MRet (ME T) := fun A a t => Some (inr a, t).
#[export] Instance ME_bind {T} : MBind (ME T) :=
  fun A B f m t => match m t with
    | Some (inr a, t') => f a t'
    | Some (inl e, t') => Some (inl e, t')
    | None => None
    end.

Definition throw {T A} (e : Z) : ME T A := fun t => Some (inl e, t).
Definition ask {T} : ME T T := fun t => Some (inr t, t).
Definition update {T} (f : T -> T) : ME T unit := fun t => Some (inr tt, f t).

Lemma ME_bind_inr {T A B} (m : ME T A) (f : A -> ME T B) (t t' : T) (a : A) :
  m t = Some (inr a, t') -> (m ≫= f) t = f a t'.
Proof. intros E. unfold mbind, ME_bind. by rewrite E. Qed.

Lemma ME_bind_inl {T A B} (m : ME T A) (f : A -> ME T B) (t t' : T) (e : Z) :
  m t = Some (inl e, t') -> (m ≫= f) t = Some (inl e, t').
Proof. intros E. unfold mbind, ME_bind. by rewrite E. Qed.

(** ** errno values (Darwin) *)

Module Errno.
Definition EPERM := 1.
Definition ENOENT := 2.
Definition EIO := 5.
Definition ENXIO := 6.
Definition E2BIG := 7.
Definition EBADF := 9.
Definition ENOMEM := 12.
Definition EACCES := 13.
Definition EFAULT := 14.
Definition EBUSY := 16.
Definition EEXIST := 17.
Definition EXDEV := 18.
Definition ENODEV := 19.
Definition ENOTDIR := 20.
Definition EISDIR := 21.
Definition EINVAL := 22.
Definition EMFILE := 24.
Definition ENOSPC := 28.
Definition ESPIPE := 29.
Definition EROFS := 30.
Definition EMLINK := 31.
Definition EPIPE := 32.
Definition ERANGE := 34.
Definition EAGAIN := 35.
Definition EWOULDBLOCK := 35.
Definition EMSGSIZE := 40.
Definition ENOPROTOOPT := 42.
Definition ENOTSUP := 45.
Definition EADDRINUSE := 48.
Definition ENETDOWN := 50.
Definition ENETUNREACH := 51.
Definition ENETRESET := 52.
Definition ECONNABORTED := 53.
Definition ENOBUFS := 55.
Definition EISCONN := 56.
Definition ENOTCONN := 57.
Definition ESHUTDOWN := 58.
Definition ETIMEDOUT := 60.
Definition ECONNREFUSED := 61.
Definition ENAMETOOLONG := 63.
Definition EHOSTUNREACH := 65.
Definition ENOTEMPTY := 66.
Definition EUSERS := 68.
Definition EDQUOT := 69.
Definition EBADRPC := 72.
Definition ERPCMISMATCH := 73.
Definition EPROGMISMATCH := 75.
Definition ENOLCK := 77.
Definition ENOSYS := 78.
Definition EAUTH := 80.
Definition ECANCELED := 89.
Definition ENOATTR := 93.
Definition ENODATA := 96.
Definition EPROTO := 100.
Definition ETIME := 101.
End Errno.

(** ** Tactics *)

(** Case analysis on every boolean integer test of the goal. *)
Ltac zcases :=
  repeat match goal with
  | |- context [?a <? ?b] => destruct (Z.ltb_spec a b)
  | |- context [?a <=? ?b] => destruct (Z.leb_spec a b)
  | |- context [?a =? ?b] => destruct (Z.eqb_spec a b)
  end.

Ltac zcases_in H :=
  repeat match type of H with
  | context [?a <? ?b] => destruct (Z.ltb_spec a b)
  | context [?a <=? ?b] => destruct (Z.leb_spec a b)
  | context [?a =? ?b] => destruct (Z.eqb_spec a b)
  end.

(** Normalises lengths of list expressions, then calls [lia]. *)
Ltac len := repeat first [rewrite length_app | rewrite length_take
  | rewrite length_drop | rewrite length_le_bytes | rewrite length_be_bytes
  | rewrite length_replicate | progress simpl length]; try lia.
