(* ===== verification/Mbuf.v ===== *)
(** * Userland mbufs: [lib/smb/mbuf.c]

    The mbuf store of the library is a finite map from mbuf addresses to
    [struct smb_mbuf].  A [mbuf_t] is an [option loc] ([None] is NULL).  The
    bytes an mbuf owns are kept with it ([m_buf]); [m_data] is the address of
    the first one, so that pointer arithmetic on [mbuf_data] can be written as
    the code writes it.  Freed mbufs leave the map, so that a later access is
    undefined behaviour ([None] of the monad). *)

From S2P Require Import Prelude.
Import Errno.

(** What the C library and the machine provide. *)
Class Platform := {
  getpagesize : Z;
  (** address [malloc] returns for the data buffer of the mbuf at a location *)
  malloc_addr : nat -> Z;
  (** what fresh memory holds *)
  malloc_junk : nat -> nat -> Z;
  (** in fact 4096 or 16384 *)
  getpagesize_range : 64 <= getpagesize < 2 ^ 64;
  (** [malloc] never returns NULL for a success and aligns for any object *)
  malloc_addr_even : forall l, 0 < malloc_addr l /\ Z.even (malloc_addr l) = true;
  malloc_junk_byte : forall l i, is_byte (malloc_junk l i)
}.

Abbreviation loc := nat.

Definition MBUF_TYPE_FREE := 0.
Definition MBUF_TYPE_DATA := 1.
Definition MBUF_WAITOK := 0.
Definition MBUF_DONTWAIT := 1.

Definition M_EXT := 1.
Definition M_PKTHDR := 2.
Definition M_EOR := 4.

Record smb_mbuf := mk_mbuf {
  m_type : Z;
  m_flags : Z;
  m_maxlen : Z;
  m_len : Z;
  m_pkthdr_len : Z;
  m_data : Z;
  m_next : option loc;
  m_extfree : option Z;
  m_extarg : Z;
  m_buf : list Z
}.

(** [h_malloc] scripts the outcome of the next calls of [malloc]; once it is
    used up every call succeeds.  [h_extfreed] logs the calls of external free
    routines with their arguments. *)
Record heap := mk_heap {
  h_mem : gmap loc smb_mbuf;
  h_next : loc;
  h_malloc : list bool;
  h_extfreed : list (Z * Z * Z * Z)
}.

Abbreviation MH := (M heap).

Definition set_m_type (m : smb_mbuf) x := mk_mbuf x (m_flags m) (m_maxlen m) (m_len m)
  (m_pkthdr_len m) (m_data m) (m_next m) (m_extfree m) (m_extarg m) (m_buf m).
Definition set_m_flags (m : smb_mbuf) x := mk_mbuf (m_type m) x (m_maxlen m) (m_len m)
  (m_pkthdr_len m) (m_data m) (m_next m) (m_extfree m) (m_extarg m) (m_buf m).
Definition set_m_len (m : smb_mbuf) x := mk_mbuf (m_type m) (m_flags m) (m_maxlen m) x
  (m_pkthdr_len m) (m_data m) (m_next m) (m_extfree m) (m_extarg m) (m_buf m).
Definition set_m_pkthdr_len (m : smb_mbuf) x := mk_mbuf (m_type m) (m_flags m) (m_maxlen m)
  (m_len m) x (m_data m) (m_next m) (m_extfree m) (m_extarg m) (m_buf m).
Definition set_m_next (m : smb_mbuf) x := mk_mbuf (m_type m) (m_flags m) (m_maxlen m)
  (m_len m) (m_pkthdr_len m) (m_data m) x (m_extfree m) (m_extarg m) (m_buf m).
Definition set_m_buf (m : smb_mbuf) x := mk_mbuf (m_type m) (m_flags m) (m_maxlen m)
  (m_len m) (m_pkthdr_len m) (m_data m) (m_next m) (m_extfree m) (m_extarg m) x.

(** ** Raw access to the store *)

Definition deref (p : option loc) : MH smb_mbuf := fun h =>
  match p with
  | Some l => match h_mem h !! l with Some m => Some (m, h) | None => None end
  | None => None
  end.

Definition store (l : loc) (m : smb_mbuf) : MH unit := fun h =>
  Some (tt, mk_heap (<[l := m]> (h_mem h)) (h_next h) (h_malloc h) (h_extfreed h)).

Definition modify (p : option loc) (f : smb_mbuf -> smb_mbuf) : MH unit :=
  m ← deref p;
  match p with Some l => store l (f m) | None => undef end.

(** One call of [malloc]: does it succeed? *)
Definition malloc : MH bool := fun h =>
  match h_malloc h with
  | [] => Some (true, h)
  | b :: r => Some (b, mk_heap (h_mem h) (h_next h) r (h_extfreed h))
  end.

(** [bcopy(src, data + off, n)] into the buffer of an mbuf: undefined when the
    write leaves the buffer. *)
Definition write_bytes (p : option loc) (dst : Z) (bs : list Z) : MH unit :=
  m ← deref p;
  let off := dst - m_data m in
  if (0 <=? off) && (off + Z.of_nat (length bs) <=? Z.of_nat (length (m_buf m)))
  then modify p (fun m => set_m_buf m (splice (Z.to_nat off) bs (m_buf m)))
  else undef.

(** [bcopy(src, out, n)] out of the buffer of an mbuf. *)
Definition read_bytes (p : option loc) (src n : Z) : MH (list Z) :=
  m ← deref p;
  let off := src - m_data m in
  if (0 <=? off) && (0 <=? n) && (off + n <=? Z.of_nat (length (m_buf m)))
  then mret (take (Z.to_nat n) (drop (Z.to_nat off) (m_buf m)))
  else undef.

(** ** The operations of mbuf.c *)

Definition mbuf_free (mbuf : option loc) : MH (option loc) :=
  match mbuf with
  | None => mret None
  | Some l =>
      m ← deref mbuf;
      let next := m_next m in
      h ← getS;
      let log :=
        if Z.testbit (m_flags m) 0 then
          match m_extfree m with
          | Some f => [(f, m_extarg m, m_maxlen m, m_data m)]
          | None => []
          end
        else [] in
      putS (mk_heap (delete l (h_mem h)) (h_next h) (h_malloc h) (h_extfreed h ++ log));;
      mret next
  end.

Section WithPlatform.
Context `{Platform}.

Definition smb_mbuf_get (how type maxlen : Z) : MH (Z * option loc) :=
  if negb (type =? MBUF_TYPE_DATA) || negb (how =? MBUF_WAITOK) then mret (EINVAL, None)
  else
    ok ← malloc;
    if negb ok then mret (ENOMEM, None)
    else
      h ← getS;
      let l := h_next h in
      let m0 := mk_mbuf type 0 0 0 0 0 None None 0 [] in
      putS (mk_heap (<[l := m0]> (h_mem h)) (S l) (h_malloc h) (h_extfreed h));;
      if negb (maxlen =? 0) then
        okd ← malloc;
        if negb okd then mbuf_free (Some l);; mret (ENOMEM, None)
        else
          store l (mk_mbuf type 0 maxlen 0 0 (malloc_addr l) None None 0
                     (map (malloc_junk l) (seq 0 (Z.to_nat maxlen))));;
          mret (0, Some l)
      else mret (0, Some l).

(** [mbuf_freem] walks the chain; [fuel] bounds the walk and the number of
    mbufs is enough on an acyclic chain, since every step frees one. *)
Fixpoint mbuf_freem_loop (fuel : nat) (mbuf : option loc) : MH unit :=
  match mbuf with
  | None => mret tt
  | Some _ =>
      match fuel with
      | O => undef
      | S k => m ← mbuf_free mbuf; mbuf_freem_loop k m
      end
  end.

Definition mbuf_freem (mbuf : option loc) : MH unit :=
  h ← getS; mbuf_freem_loop (S (size (h_mem h))) mbuf.

Definition mbuf_gethdr (how type : Z) : MH (Z * option loc) :=
  r ← smb_mbuf_get how type getpagesize;
  let '(error, m) := r in
  if negb (error =? 0) then mret (error, m)
  else
    modify m (fun b => set_m_flags b (Z.lor (m_flags b) (Z.lor M_PKTHDR M_EOR)));;
    mret (0, m).

Definition mbuf_get (how type : Z) : MH (Z * option loc) :=
  smb_mbuf_get how type getpagesize.

(** [*mbuf] is an in/out parameter: an mbuf passed in is freed first. *)
Definition mbuf_getcluster (how type sz : Z) (mbuf : option loc) : MH (Z * option loc) :=
  (match mbuf with Some _ => mbuf_freem mbuf | None => mret tt end);;
  r ← smb_mbuf_get how type sz;
  let '(error, m) := r in
  match m with
  | Some _ =>
      if error =? 0 then
        modify m (fun b => set_m_flags b (Z.lor (m_flags b) (Z.lor M_PKTHDR M_EOR)));;
        mret (error, m)
      else mret (error, m)
  | None => mret (error, m)
  end.

(** [extbuf] is the address of the caller's buffer and [bytes] what it holds. *)
Definition mbuf_attachcluster (how type : Z) (mbuf : option loc) (extbuf : Z)
    (bytes : list Z) (extfree : option Z) (extsize extarg : Z) : MH (Z * option loc) :=
  r ← (if (extbuf =? 0) || (extsize =? 0) then mret (EINVAL, mbuf)
       else match mbuf with
            | None => smb_mbuf_get how type 0
            | Some _ =>
                (* free(m_data): only a buffer malloc returned may be freed *)
                b ← deref mbuf;
                if negb (m_data b =? 0) && Z.testbit (m_flags b) 0 then undef
                else mret (0, mbuf)
            end);
  let '(error, p) := r in
  if negb (error =? 0) then mret (error, p)
  else
    modify p (fun b => mk_mbuf (m_type b) (Z.lor M_EXT (Z.lor M_PKTHDR M_EOR)) extsize
                         (m_len b) (m_pkthdr_len b) extbuf (m_next b) extfree extarg bytes);;
    mret (0, p).

Definition mbuf_len (mbuf : option loc) : MH Z :=
  match mbuf with Some _ => m ← deref mbuf; mret (m_len m) | None => mret 0 end.

Definition mbuf_maxlen (mbuf : option loc) : MH Z :=
  match mbuf with Some _ => m ← deref mbuf; mret (m_maxlen m) | None => mret 0 end.

Definition mbuf_setlen (mbuf : option loc) (len : Z) : MH unit :=
  match mbuf with Some _ => modify mbuf (fun m => set_m_len m len) | None => mret tt end.

Definition mbuf_pkthdr_len (mbuf : option loc) : MH Z :=
  m ← deref mbuf; mret (m_pkthdr_len m).

Definition mbuf_pkthdr_setlen (mbuf : option loc) (len : Z) : MH unit :=
  modify mbuf (fun m => set_m_pkthdr_len m len).

Definition mbuf_pkthdr_adjustlen (mbuf : option loc) (amount : Z) : MH unit :=
  modify mbuf (fun m => set_m_pkthdr_len m (u64 (m_pkthdr_len m + amount))).

Definition mbuf_next (mbuf : option loc) : MH (option loc) :=
  match mbuf with Some _ => m ← deref mbuf; mret (m_next m) | None => mret None end.

Definition mbuf_setnext (mbuf next : option loc) : MH Z :=
  match next with
  | None => mret EINVAL
  | Some _ =>
      n ← deref next;
      if m_type n =? MBUF_TYPE_FREE then mret EINVAL
      else
        m ← deref mbuf;
        (if Z.testbit (m_flags m) 2 then
           modify mbuf (fun b => set_m_flags b (Z.ldiff (m_flags b) M_EOR));;
           modify next (fun b => set_m_flags b (Z.lor (m_flags b) M_EOR))
         else mret tt);;
        modify mbuf (fun b => set_m_next b next);;
        mret 0
  end.

Definition mbuf_data (mbuf : option loc) : MH Z :=
  match mbuf with Some _ => m ← deref mbuf; mret (m_data m) | None => mret 0 end.

Definition mbuf_trailingspace (mbuf : option loc) : MH Z :=
  m ← deref mbuf; mret (u64 (m_maxlen m - m_len m)).

(** [mbuf_copydata]: the first loop skips [offset] bytes, the second copies.
    The bytes copied to [out_data] are returned with the error. *)
Fixpoint copydata_skip (fuel : nat) (m : option loc) (offset : Z)
  : MH (option (option loc * Z)) :=
  if negb (0 <? offset) then mret (Some (m, offset))
  else match m with
  | None => mret None
  | Some _ =>
      b ← deref m;
      if offset <? m_len b then mret (Some (m, offset))
      else match fuel with
           | O => undef
           | S k => copydata_skip k (m_next b) (u64 (offset - m_len b))
           end
  end.

Fixpoint copydata_loop (fuel : nat) (m : option loc) (offset length : Z) (out : list Z)
  : MH (Z * list Z) :=
  if negb (0 <? length) then mret (0, out)
  else match m with
  | None => mret (EINVAL, out)
  | Some _ =>
      b ← deref m;
      let avail := u64 (m_len b - offset) in
      let count := if length <? avail then length else avail in
      bs ← read_bytes m (m_data b + offset) count;
      match fuel with
      | O => undef
      | S k => copydata_loop k (m_next b) 0 (u64 (length - count)) (out ++ bs)
      end
  end.

Definition mbuf_copydata (mbuf : option loc) (offset length : Z) : MH (Z * list Z) :=
  h ← getS;
  r ← copydata_skip (size (h_mem h)) mbuf offset;
  match r with
  | None => mret (EINVAL, [])
  | Some (m, off) => copydata_loop (S (size (h_mem h))) m off length []
  end.

End WithPlatform.

(** ** Chains of mbufs *)

Definition mbuf_bytes (m : smb_mbuf) : list Z := take (Z.to_nat (m_len m)) (m_buf m).

(** What every operation keeps true of a live mbuf: the length fits the buffer,
    and the buffer is as long as [m_maxlen] says. *)
Record mbuf_ok (m : smb_mbuf) : Prop := {
  ok_type : m_type m <> MBUF_TYPE_FREE;
  ok_len : 0 <= m_len m <= m_maxlen m;
  ok_max : m_maxlen m < 2 ^ 64;
  ok_buf : Z.of_nat (length (m_buf m)) = m_maxlen m
}.

Fixpoint chain (μ : gmap loc smb_mbuf) (p : option loc) (ls : list (loc * smb_mbuf)) : Prop :=
  match ls with
  | [] => p = None
  | (x, m) :: r => p = Some x /\ μ !! x = Some m /\ chain μ (m_next m) r
  end.

Definition chain_bytes (ls : list (loc * smb_mbuf)) : list Z :=
  concat (map (fun xm => mbuf_bytes xm.2) ls).

Abbreviation locs ls := (map fst ls).

Lemma chain_bytes_app l1 l2 : chain_bytes (l1 ++ l2) = chain_bytes l1 ++ chain_bytes l2.
Proof. unfold chain_bytes. by rewrite map_app, concat_app. Qed.

Lemma chain_bytes_one x m : chain_bytes [(x, m)] = mbuf_bytes m.
Proof. unfold chain_bytes. simpl. apply app_nil_r. Qed.

Lemma length_mbuf_bytes m : mbuf_ok m -> Z.of_nat (length (mbuf_bytes m)) = m_len m.
Proof. intros [_ ? ? ?]. unfold mbuf_bytes. rewrite length_take. lia. Qed.

(** A chain only depends on the mbufs it visits. *)
Lemma chain_frame μ μ' p ls :
  (forall x, x ∈ locs ls -> μ' !! x = μ !! x) -> chain μ p ls -> chain μ' p ls.
Proof.
  revert p. induction ls as [|[x m] r IH]; intros p Hf; simpl; [done|].
  intros (-> & Hx & Hr). split_and!; [done| |].
  - rewrite Hf; [done|]. left.
  - apply IH; [|done]. intros y Hy. apply Hf. by right.
Qed.

Lemma chain_insert_ne μ p ls x m :
  x ∉ locs ls -> chain μ p ls -> chain (<[x := m]> μ) p ls.
Proof.
  intros Hx. apply chain_frame. intros y Hy. apply lookup_insert_ne. by intros ->.
Qed.

Lemma chain_delete_ne μ p ls x :
  x ∉ locs ls -> chain μ p ls -> chain (delete x μ) p ls.
Proof.
  intros Hx. apply chain_frame. intros y Hy. apply lookup_delete_ne. by intros ->.
Qed.

Lemma chain_lookup μ p ls x m : chain μ p ls -> (x, m) ∈ ls -> μ !! x = Some m.
Proof.
  revert p. induction ls as [|[y n] r IH]; intros p; simpl.
  - intros _ Hin. by apply not_elem_of_nil in Hin.
  - intros (_ & Hy & Hr) [[= -> ->]|Hin]%elem_of_cons; eauto.
Qed.

Lemma chain_dom μ p ls x : chain μ p ls -> x ∈ locs ls -> is_Some (μ !! x).
Proof.
  intros Hc (xm & -> & Hin)%list_elem_of_fmap. destruct xm as [y m].
  exists m. by eapply chain_lookup.
Qed.

(** The last mbuf of a chain may be replaced; a new one hangs off its [m_next]. *)
Lemma chain_snoc_inv μ p ls x m :
  chain μ p (ls ++ [(x, m)]) -> μ !! x = Some m /\ m_next m = None.
Proof.
  revert p. induction ls as [|[y n] r IH]; intros p; simpl.
  - by intros (_ & ? & ?).
  - intros (_ & _ & Hr). eauto.
Qed.

Lemma chain_snoc_update μ p ls x m m' tail :
  NoDup (locs (ls ++ [(x, m)])) ->
  chain μ p (ls ++ [(x, m)]) ->
  (forall y, y ∈ locs tail -> y <> x) ->
  chain (<[x := m']> μ) (m_next m') tail ->
  chain (<[x := m']> μ) p (ls ++ (x, m') :: tail).
Proof.
  revert p. induction ls as [|[y n] r IH]; intros p Hnd Hc Htl Ht; simpl in *.
  - destruct Hc as (-> & _ & _). split_and!; [done| |done]. apply lookup_insert_eq.
  - destruct Hc as (-> & Hy & Hr). apply list.NoDup_cons in Hnd as [Hyn Hnd].
    split_and!; [done| |by apply IH].
    rewrite lookup_insert_ne; [done|]. intros ->. apply Hyn.
    rewrite map_app. simpl. apply elem_of_app. right. left.
Qed.

Lemma chain_det μ p l1 l2 : chain μ p l1 -> chain μ p l2 -> l1 = l2.
Proof.
  revert p l2. induction l1 as [|[x m] r IH]; intros p [|[y n] r2]; simpl.
  - done.
  - intros -> (? & _). done.
  - intros (-> & _) ?. done.
  - intros (-> & Hx & Hr) (Hp & Hy & Hr2). simplify_eq. f_equal. eauto.
Qed.

Lemma chain_length μ p ls :
  chain μ p ls -> NoDup (locs ls) -> (length ls <= size μ)%nat.
Proof.
  intros Hc Hnd.
  assert (list_to_set (locs ls) ⊆ dom μ) as Hs.
  { intros x Hx%elem_of_list_to_set. apply elem_of_dom. by eapply chain_dom. }
  apply subseteq_size in Hs. rewrite size_list_to_set, length_map, size_dom in Hs by done.
  done.
Qed.
