(* ===== verification/MbufFacts.v ===== *)
(** * Lemmas on the mbuf operations

    How each operation of [Mbuf.v] runs on a live mbuf, as rewriting facts the
    proofs on chains step through, and what allocation and linking do to the
    store. *)
From S2P Require Import Prelude Mbuf.
Import Errno.

(** The store with one mbuf replaced. *)
Definition upd (h : heap) (l : loc) (m : smb_mbuf) : heap :=
  mk_heap (<[l := m]> (h_mem h)) (h_next h) (h_malloc h) (h_extfreed h).

Create HintDb mrun discriminated.

Section Run.
Context (h : heap) (l : loc) (m : smb_mbuf) (Hl : h_mem h !! l = Some m).

Lemma deref_run : deref (Some l) h = Some (m, h).
Proof using Hl. unfold deref. by rewrite Hl. Qed.

Lemma modify_run f : modify (Some l) f h = Some (tt, upd h l (f m)).
Proof using Hl. unfold modify. by rewrite (bind_some _ _ _ _ _ deref_run). Qed.

Lemma mbuf_len_run : mbuf_len (Some l) h = Some (m_len m, h).
Proof using Hl. simpl. by rewrite (bind_some _ _ _ _ _ deref_run). Qed.

Lemma mbuf_maxlen_run : mbuf_maxlen (Some l) h = Some (m_maxlen m, h).
Proof using Hl. simpl. by rewrite (bind_some _ _ _ _ _ deref_run). Qed.

Lemma mbuf_next_run : mbuf_next (Some l) h = Some (m_next m, h).
Proof using Hl. simpl. by rewrite (bind_some _ _ _ _ _ deref_run). Qed.

Lemma mbuf_data_run : mbuf_data (Some l) h = Some (m_data m, h).
Proof using Hl. simpl. by rewrite (bind_some _ _ _ _ _ deref_run). Qed.

Lemma mbuf_setlen_run n : mbuf_setlen (Some l) n h = Some (tt, upd h l (set_m_len m n)).
Proof using Hl. apply modify_run. Qed.

Lemma mbuf_trailingspace_run :
  mbuf_ok m -> mbuf_trailingspace (Some l) h = Some (m_maxlen m - m_len m, h).
Proof using Hl.
  intros [_ ? ? _]. unfold mbuf_trailingspace. rewrite (bind_some _ _ _ _ _ deref_run).
  by rewrite u64_small by lia.
Qed.

Lemma write_bytes_run off bs :
  0 <= off -> off + Z.of_nat (length bs) <= Z.of_nat (length (m_buf m)) ->
  write_bytes (Some l) (m_data m + off) bs h =
    Some (tt, upd h l (set_m_buf m (splice (Z.to_nat off) bs (m_buf m)))).
Proof using Hl.
  intros H0 H1. unfold write_bytes. rewrite (bind_some _ _ _ _ _ deref_run).
  replace (m_data m + off - m_data m) with off by lia.
  destruct (Z.leb_spec 0 off); [|lia].
  destruct (Z.leb_spec (off + Z.of_nat (length bs)) (Z.of_nat (length (m_buf m)))); [|lia].
  apply modify_run.
Qed.

Lemma read_bytes_run off n :
  0 <= off -> 0 <= n -> off + n <= Z.of_nat (length (m_buf m)) ->
  read_bytes (Some l) (m_data m + off) n h =
    Some (take (Z.to_nat n) (drop (Z.to_nat off) (m_buf m)), h).
Proof using Hl.
  intros H0 H1 H2. unfold read_bytes. rewrite (bind_some _ _ _ _ _ deref_run).
  replace (m_data m + off - m_data m) with off by lia.
  destruct (Z.leb_spec 0 off); [|lia]. destruct (Z.leb_spec 0 n); [|lia].
  by destruct (Z.leb_spec (off + n) (Z.of_nat (length (m_buf m)))); [|lia].
Qed.
End Run.

#[export] Hint Resolve deref_run modify_run mbuf_len_run mbuf_maxlen_run mbuf_next_run
  mbuf_data_run mbuf_setlen_run mbuf_trailingspace_run write_bytes_run read_bytes_run
  getS_run mret_run : mrun.

(** Runs the first operation of the computation in the goal. *)
Ltac mstep := erewrite bind_some; [|solve [eauto with mrun]].

(** ** Allocation *)

(** Every mbuf of the store lies below [h_next], so that new ones are fresh. *)
Definition heap_ok (h : heap) : Prop := forall l, is_Some (h_mem h !! l) -> (l < h_next h)%nat.

(** Every coming [malloc] succeeds. *)
Definition mem_avail (h : heap) : Prop := Forall (fun b => b = true) (h_malloc h).

Lemma heap_ok_upd h l m : heap_ok h -> is_Some (h_mem h !! l) -> heap_ok (upd h l m).
Proof.
  intros Hh Hl y. simpl. destruct (decide (l = y)) as [->|Hne].
  - intros _. by apply Hh.
  - rewrite lookup_insert_ne by done. apply Hh.
Qed.

Lemma heap_ok_fresh h : heap_ok h -> h_mem h !! h_next h = None.
Proof.
  intros Hh. apply eq_None_not_Some. intros Hs. apply Hh in Hs. lia.
Qed.

Section Alloc.
Context `{Platform}.

Definition fresh_mbuf (l : loc) (n fl : Z) : smb_mbuf :=
  mk_mbuf MBUF_TYPE_DATA fl n 0 0 (malloc_addr l) None None 0
    (map (malloc_junk l) (seq 0 (Z.to_nat n))).

Lemma fresh_mbuf_ok l n fl : 0 <= n < 2 ^ 64 -> mbuf_ok (fresh_mbuf l n fl).
Proof. intros Hn. split; simpl; rewrite ?length_map, ?length_seq; try done; lia. Qed.

Lemma fresh_mbuf_bytes l n fl : mbuf_bytes (fresh_mbuf l n fl) = [].
Proof. done. Qed.

(** The heap after a successful allocation of [m] at [h_next h]. *)
Definition alloc_at (h h' : heap) (m : smb_mbuf) : Prop :=
  h_mem h' = <[h_next h := m]> (h_mem h) /\ h_next h' = S (h_next h) /\
  h_extfreed h' = h_extfreed h.

(** The heap after a failed allocation. *)
Definition alloc_failed (h h' : heap) : Prop :=
  h_mem h' = h_mem h /\ (h_next h <= h_next h')%nat /\ h_extfreed h' = h_extfreed h /\
  ~ mem_avail h.

Lemma malloc_run h : exists b h1, malloc h = Some (b, h1) /\ h_mem h1 = h_mem h /\
  h_next h1 = h_next h /\ h_extfreed h1 = h_extfreed h /\
  (mem_avail h -> b = true /\ mem_avail h1).
Proof.
  unfold malloc. destruct (h_malloc h) as [|b r] eqn:E.
  - exists true, h. split_and!; auto.
  - eexists b, _. split_and!; try done. unfold mem_avail. rewrite E.
    intros Ha. inversion Ha. by subst.
Qed.

Lemma smb_mbuf_get_run h n : heap_ok h -> 0 < n < 2 ^ 64 ->
  exists r h', smb_mbuf_get MBUF_WAITOK MBUF_TYPE_DATA n h = Some (r, h') /\
    (mem_avail h -> mem_avail h') /\
    ((r = (0, Some (h_next h)) /\ alloc_at h h' (fresh_mbuf (h_next h) n 0)) \/
     (r = (ENOMEM, None) /\ alloc_failed h h')).
Proof.
  intros Hok Hn. unfold smb_mbuf_get. simpl.
  destruct (malloc_run h) as (b1 & h1 & E1 & Em1 & En1 & Ex1 & Ha1).
  rewrite (bind_some _ _ _ _ _ E1). destruct b1; simpl.
  2:{ eexists _, h1. split; [done|]. split; [intros Ha; by destruct (Ha1 Ha)|]. right. split; [done|].
      split_and!; try congruence; [lia|]. intros Ha. by destruct (Ha1 Ha). }
  mstep. unfold putS. erewrite bind_some; [|done].
  destruct (Z.eqb_spec n 0); [lia|]. simpl.
  match goal with |- context [mk_heap ?a ?b ?c ?d] =>
    destruct (malloc_run (mk_heap a b c d)) as (b2 & h3 & E2 & Em2 & En2 & Ex2 & Ha2) end.
  rewrite (bind_some _ _ _ _ _ E2). simpl in Em2, En2, Ex2.
  rewrite En1, ?Em1, ?Ex1 in *.
  assert (mem_avail h -> b2 = true /\ mem_avail h3) as Hav.
  { intros Ha. apply Ha2. by destruct (Ha1 Ha). }
  destruct b2; simpl.
  - unfold store. erewrite bind_some; [|done]. eexists _, _. split; [done|].
    split; [intros Ha; by apply Hav|]. left. split; [done|].
    split_and!; simpl; [|done|done]. by rewrite Em2, insert_insert_eq.
  - erewrite bind_some.
    2:{ erewrite bind_some; [|by apply deref_run; rewrite Em2; apply lookup_insert_eq].
        mstep. unfold putS. by erewrite bind_some. }
    eexists _, _. split; [done|]. split; [intros Ha; by destruct (Hav Ha)|].
    right. split; [done|]. split_and!; simpl.
    + rewrite Em2, delete_insert_eq. by apply delete_id, heap_ok_fresh.
    + rewrite En2. lia.
    + by rewrite Ex2, app_nil_r.
    + intros Ha. by destruct (Hav Ha).
Qed.

Lemma alloc_at_ok h h' m : heap_ok h -> alloc_at h h' m -> heap_ok h'.
Proof.
  intros Hok (Em & En & _) y. rewrite Em, En.
  destruct (decide (h_next h = y)) as [->|Hne]; [lia|].
  rewrite lookup_insert_ne by done. intros Hy. apply Hok in Hy. lia.
Qed.

Lemma alloc_failed_ok h h' : heap_ok h -> alloc_failed h h' -> heap_ok h'.
Proof. intros Hok (Em & Hn & _) y. rewrite Em. intros Hy. apply Hok in Hy. lia. Qed.

Definition HDR_FLAGS := Z.lor M_PKTHDR M_EOR.

Lemma with_flags_run h l n (A := fun f b => set_m_flags b (Z.lor (m_flags b) f)) h' :
  alloc_at h h' (fresh_mbuf l n 0) -> l = h_next h ->
  exists h2, modify (Some l) (A HDR_FLAGS) h' = Some (tt, h2) /\
    h_malloc h2 = h_malloc h' /\ alloc_at h h2 (fresh_mbuf l n HDR_FLAGS).
Proof.
  intros (Em & En & Ex) ->. eexists. split.
  - apply modify_run. rewrite Em. apply lookup_insert_eq.
  - split; [done|]. split_and!; simpl; [|done|done]. by rewrite Em, insert_insert_eq.
Qed.

(** [mbuf_getcluster] of a fresh mbuf: a new empty mbuf with [n] bytes of room,
    or no change of the store. *)
Lemma mbuf_getcluster_run h n : heap_ok h -> 0 < n < 2 ^ 64 ->
  exists r h', mbuf_getcluster MBUF_WAITOK MBUF_TYPE_DATA n None h = Some (r, h') /\
    (mem_avail h -> mem_avail h') /\
    ((r = (0, Some (h_next h)) /\ alloc_at h h' (fresh_mbuf (h_next h) n HDR_FLAGS)) \/
     (r = (ENOMEM, None) /\ alloc_failed h h')).
Proof.
  intros Hok Hn. unfold mbuf_getcluster. erewrite bind_some; [|done].
  destruct (smb_mbuf_get_run h n Hok Hn) as (r & h1 & E & Ha & [[-> Hal]|[-> Hal]]);
    rewrite (bind_some _ _ _ _ _ E); simpl.
  - destruct (with_flags_run h _ n h1 Hal eq_refl) as (h2 & E2 & Em2 & Hal2).
    rewrite (bind_some _ _ _ _ _ E2). eexists _, h2. split; [done|].
    split; [|by left]. unfold mem_avail. by rewrite Em2.
  - eexists _, h1. split; [done|]. auto.
Qed.

Lemma mbuf_gethdr_run h : heap_ok h ->
  exists r h', mbuf_gethdr MBUF_WAITOK MBUF_TYPE_DATA h = Some (r, h') /\
    (mem_avail h -> mem_avail h') /\
    ((r = (0, Some (h_next h)) /\ alloc_at h h' (fresh_mbuf (h_next h) getpagesize HDR_FLAGS)) \/
     (r = (ENOMEM, None) /\ alloc_failed h h')).
Proof.
  intros Hok. unfold mbuf_gethdr. assert (0 < getpagesize < 2 ^ 64) as Hp by (pose proof getpagesize_range; lia).
  destruct (smb_mbuf_get_run h _ Hok Hp) as (r & h1 & E & Ha & [[-> Hal]|[-> Hal]]);
    rewrite (bind_some _ _ _ _ _ E); simpl.
  - destruct (with_flags_run h _ _ h1 Hal eq_refl) as (h2 & E2 & Em2 & Hal2).
    rewrite (bind_some _ _ _ _ _ E2). eexists _, h2. split; [done|].
    split; [|by left]. unfold mem_avail. by rewrite Em2.
  - eexists _, h1. split; [done|]. auto.
Qed.
End Alloc.

(** ** Linking *)

(** [mbuf_setnext] of two live mbufs changes only [m_next] and flags. *)
Lemma mbuf_setnext_run h x m l n :
  x <> l -> h_mem h !! x = Some m -> h_mem h !! l = Some n -> mbuf_ok n ->
  exists fx fl, mbuf_setnext (Some x) (Some l) h =
    Some (0, upd (upd h l (set_m_flags n fl)) x (set_m_next (set_m_flags m fx) (Some l))).
Proof.
  intros Hne Hx Hl [Hty _ _ _]. unfold mbuf_setnext. mstep.
  destruct (Z.eqb_spec (m_type n) MBUF_TYPE_FREE) as [?|_]; [done|].
  mstep. destruct (Z.testbit (m_flags m) 2).
  - erewrite bind_some.
    2:{ mstep. eapply modify_run. simpl. rewrite lookup_insert_ne by done. done. }
    erewrite bind_some.
    2:{ eapply modify_run. simpl. rewrite lookup_insert_ne by done. apply lookup_insert_eq. }
    exists (Z.ldiff (m_flags m) M_EOR), (Z.lor (m_flags n) M_EOR).
    rewrite mret_run. unfold upd. simpl.
    by rewrite (insert_insert_ne (h_mem h) l x), insert_insert_eq by done.
  - mstep. mstep. exists (m_flags m), (m_flags n). rewrite mret_run.
    replace (set_m_flags n (m_flags n)) with n by (by destruct n).
    replace (set_m_flags m (m_flags m)) with m by (by destruct m).
    unfold upd. simpl. by rewrite (insert_id (h_mem h) l n).
Qed.

(** * A concrete platform and store, for the examples *)

(** A concrete platform, for the witnesses: 16-byte aligned buffers. *)
#[export] Instance demo_platform : Platform.
Proof.
  refine {| getpagesize := 64; malloc_addr := fun l => 4096 * (Z.of_nat l + 1);
            malloc_junk := fun _ _ => 170 |}.
  - lia.
  - intros l. split; [lia|]. by rewrite Z.even_mul.
  - unfold is_byte. lia.
Defined.

Definition heap0 : heap := mk_heap ∅ 0%nat [] [].

Lemma heap0_ok : heap_ok heap0.
Proof. intros l [m Hm]. done. Qed.

Lemma heap0_avail : mem_avail heap0.
Proof. constructor. Qed.

#[export] Hint Resolve heap0_ok heap0_avail : smb.
