(* ===== verification/Mchain.v ===== *)
(** * Building and dissecting mbuf chains: [kernel/sys5/kern/subr_mchain.c]

    The functions of the userland build ([#ifndef KERNEL]) over the mbufs of
    [Mbuf.v].  A [struct mbchain] or [struct mdchain] is passed in and the
    updated one is returned beside the result of the C function. *)

From S2P Require Import Prelude Mbuf.
Import Errno.

Definition MB_MSYSTEM := 0.
Definition MB_MINLINE := 2.
Definition MB_MZERO := 3.

Record mbchain := mk_mbchain {
  mb_top : option loc;
  mb_cur : option loc;
  mb_mleft : Z;
  mb_count : Z;
  mb_len : Z
}.

(** [md_pos] is an address inside the buffer of [md_cur]. *)
Record mdchain := mk_mdchain {
  md_top : option loc;
  md_cur : option loc;
  md_pos : Z;
  md_len : Z
}.

Section WithPlatform.
Context `{Platform}.

(** ** Putting data into a chain *)

Fixpoint m_fixhdr_loop (fuel : nat) (m : option loc) (len : Z) : MH Z :=
  match m with
  | None => mret len
  | Some _ =>
      n ← mbuf_len m;
      nx ← mbuf_next m;
      match fuel with O => undef | S k => m_fixhdr_loop k nx (u64 (len + n)) end
  end.

Definition m_fixhdr (m0 : option loc) : MH Z :=
  h ← getS;
  len ← m_fixhdr_loop (size (h_mem h)) m0 0;
  mbuf_pkthdr_setlen m0 len;;
  mret len.

Definition mb_fixhdr (mbp : mbchain) : MH Z := m_fixhdr (mb_top mbp).

(** Walks to the last mbuf of a chain. *)
Fixpoint getm_tail (fuel : nat) (mtail : option loc) : MH (option loc) :=
  nx ← mbuf_next mtail;
  match nx with
  | None => mret mtail
  | Some _ => match fuel with O => undef | S k => getm_tail k nx end
  end.

(** The userland [smb_mbuf_getm] (lines 206-222). *)
Definition smb_mbuf_getm (mbuf : option loc) (sz how type : Z) : MH (option loc) :=
  r ← mbuf_getcluster how type sz None;
  let '(error, nm) := r in
  if negb (error =? 0) then mret None
  else match mbuf with
  | Some _ =>
      h ← getS;
      mtail ← getm_tail (size (h_mem h)) mbuf;
      mbuf_setnext mtail nm;;
      mret mbuf
  | None => mret nm
  end.

Definition mb_pullup (mbp : mbchain) : MH (Z * mbchain) :=
  nx ← mbuf_next (mb_top mbp);
  match nx with
  | None => mret (0, mbp)
  | Some _ =>
      sz ← mb_fixhdr mbp;
      r ← mbuf_getcluster MBUF_WAITOK MBUF_TYPE_DATA sz None;
      let '(error, nm) := r in
      if negb (error =? 0) then mret (error, mbp)
      else
        c ← mbuf_copydata (mb_top mbp) 0 sz;
        let '(error, bs) := c in
        d ← mbuf_data nm;
        write_bytes nm d bs;;
        if negb (error =? 0) then mbuf_freem nm;; mret (error, mbp)
        else
          mbuf_pkthdr_setlen nm sz;;
          mbuf_setlen nm sz;;
          mbuf_freem (mb_top mbp);;
          mret (0, mk_mbchain nm nm (mb_mleft mbp) (mb_count mbp) (mb_len mbp))
  end.

(** [mb_getbuffer]: NULL is [0].  Every round adds an mbuf of
    [mb_mleft + size] bytes, so the loop body runs at most once; one unit of
    fuel is enough and the second round would be reached only by wrap-around. *)
Fixpoint mb_getbuffer_loop (fuel : nat) (mbp : mbchain) (sz : Z) : MH (Z * mbchain) :=
  if mb_mleft mbp <? sz then
    match fuel with
    | O => undef
    | S k =>
        r ← mbuf_getcluster MBUF_WAITOK MBUF_TYPE_DATA (u64 (mb_mleft mbp + sz)) None;
        let '(error, nm) := r in
        if negb (error =? 0) then mret (0, mbp)
        else
          mbuf_setlen nm 0;;
          mbuf_setnext (mb_cur mbp) nm;;
          ts ← mbuf_trailingspace nm;
          mb_getbuffer_loop k
            (mk_mbchain (mb_top mbp) nm (u64 (mb_mleft mbp + ts)) (mb_count mbp) (mb_len mbp)) sz
    end
  else
    d ← mbuf_data (mb_cur mbp);
    n ← mbuf_len (mb_cur mbp);
    mret (d + n, mbp).

Definition mb_getbuffer (mbp : mbchain) (sz : Z) : MH (Z * mbchain) :=
  mb_getbuffer_loop 2 mbp sz.

Definition mb_consume (mbp : mbchain) (sz : Z) : MH mbchain :=
  n ← mbuf_len (mb_cur mbp);
  mbuf_setlen (mb_cur mbp) (u64 (n + sz));;
  mret (mk_mbchain (mb_top mbp) (mb_cur mbp) (u64 (mb_mleft mbp - sz))
          (u64 (mb_count mbp + sz)) (u64 (mb_len mbp + sz))).

Definition mb_initm (m : option loc) : MH mbchain :=
  ts ← mbuf_trailingspace m;
  mret (mk_mbchain m m ts 0 0).

(** Returns the error and, on success, the initialised chain. *)
Definition mb_init : MH (Z * option mbchain) :=
  r ← mbuf_gethdr MBUF_WAITOK MBUF_TYPE_DATA;
  let '(error, m) := r in
  if negb (error =? 0) then mret (ENOBUFS, None)
  else mb ← mb_initm m; mret (0, Some mb).

Definition mb_done (mbp : mbchain) : MH mbchain :=
  match mb_top mbp with
  | Some _ =>
      mbuf_freem (mb_top mbp);;
      mret (mk_mbchain None (mb_cur mbp) (mb_mleft mbp) (mb_count mbp) (mb_len mbp))
  | None => mret mbp
  end.

Definition mb_detach (mbp : mbchain) : option loc * mbchain :=
  match mb_top mbp with
  | None => (None, mbp)
  | Some _ => (mb_top mbp, mk_mbchain None None 0 0 0)
  end.

(** Returns the address of the reserved room, [None] (NULL) on failure. *)
Definition mb_reserve (mbp : mbchain) (sz : Z) : MH (option Z * mbchain) :=
  let finish (m : option loc) (mleft : Z) : MH (option Z * mbchain) :=
    d ← mbuf_data m;
    n ← mbuf_len m;
    mbuf_setlen m (u64 (n + sz));;
    mret (Some (d + n), mk_mbchain (mb_top mbp) m (u64 (mleft - sz))
                   (u64 (mb_count mbp + sz)) (u64 (mb_len mbp + sz))) in
  if mb_mleft mbp <? sz then
    r ← mbuf_get MBUF_WAITOK MBUF_TYPE_DATA;
    let '(error, nm) := r in
    if negb (error =? 0) then mret (None, mbp)
    else
      mx ← mbuf_maxlen nm;
      if mx <? sz then mbuf_freem nm;; mret (None, mbp)
      else
        mbuf_setnext (mb_cur mbp) nm;;
        mbuf_setlen nm 0;;
        ts ← mbuf_trailingspace nm;
        finish nm ts
  else finish (mb_cur mbp) (mb_mleft mbp).

(** What one round of [mb_put_mem] copies for each copy type. *)
Definition put_chunk (src : list Z) (type cplen : Z) : option (list Z) :=
  if (type =? MB_MINLINE) || (type =? MB_MSYSTEM) then
    if cplen <=? Z.of_nat (length src) then Some (take (Z.to_nat cplen) src) else None
  else if type =? MB_MZERO then Some (replicate (Z.to_nat cplen) 0)
  else Some [].

(** The loop of [mb_put_mem].  [src] is what is left of the source buffer (it
    is not read for [MB_MZERO]).  On [ENOBUFS] the counters of the rounds done
    so far are kept, but [mb_cur] and [mb_mleft] are not updated. *)
Fixpoint mb_put_mem_loop (fuel : nat) (mbp : mbchain) (m : option loc) (mleft : Z)
    (src : list Z) (sz type : Z) : MH (Z * mbchain) :=
  if negb (0 <? sz) then
    mret (0, mk_mbchain (mb_top mbp) m mleft (mb_count mbp) (mb_len mbp))
  else match fuel with
  | O => undef
  | S k =>
      if mleft =? 0 then
        nx ← mbuf_next m;
        m' ← (match nx with
              | None => smb_mbuf_getm m sz MBUF_WAITOK MBUF_TYPE_DATA
              | Some _ => mret m
              end);
        match m' with
        | None => mret (ENOBUFS, mbp)
        | Some _ =>
            m2 ← mbuf_next m';
            ts ← mbuf_trailingspace m2;
            mb_put_mem_loop k mbp m2 ts src sz type
        end
      else
        let cplen := if sz <? mleft then sz else mleft in
        d ← mbuf_data m;
        n ← mbuf_len m;
        match put_chunk src type cplen with
        | None => undef
        | Some bs =>
            write_bytes m (d + n) bs;;
            mbuf_setlen m (u64 (n + cplen));;
            mb_put_mem_loop k
              (mk_mbchain (mb_top mbp) (mb_cur mbp) (mb_mleft mbp)
                 (u64 (mb_count mbp + cplen)) (u64 (mb_len mbp + cplen)))
              m (u64 (mleft - cplen)) (drop (Z.to_nat cplen) src) (u64 (sz - cplen)) type
        end
  end.

(** Two rounds per mbuf of the store and three for an mbuf added at the end. *)
Definition mb_put_mem (mbp : mbchain) (source : list Z) (sz type : Z) : MH (Z * mbchain) :=
  h ← getS;
  mb_put_mem_loop (2 * size (h_mem h) + 4) mbp (mb_cur mbp) (mb_mleft mbp) source sz type.

Definition mb_put_padbyte (mbp : mbchain) : MH (Z * mbchain) :=
  d ← mbuf_data (mb_cur mbp);
  n ← mbuf_len (mb_cur mbp);
  if Z.odd (d + n) then mb_put_mem mbp [0] 1 MB_MSYSTEM else mret (0, mbp).

(** [htoles] and friends are the identity on the little-endian hosts, the
    [htobe] family swaps; the bytes in memory are those below. *)
Definition mb_put_uint8 (mbp : mbchain) (x : Z) := mb_put_mem mbp (le_bytes 1 x) 1 MB_MSYSTEM.
Definition mb_put_uint16be (mbp : mbchain) (x : Z) := mb_put_mem mbp (be_bytes 2 x) 2 MB_MSYSTEM.
Definition mb_put_uint16le (mbp : mbchain) (x : Z) := mb_put_mem mbp (le_bytes 2 x) 2 MB_MSYSTEM.
Definition mb_put_uint32be (mbp : mbchain) (x : Z) := mb_put_mem mbp (be_bytes 4 x) 4 MB_MSYSTEM.
Definition mb_put_uint32le (mbp : mbchain) (x : Z) := mb_put_mem mbp (le_bytes 4 x) 4 MB_MSYSTEM.
Definition mb_put_uint64be (mbp : mbchain) (x : Z) := mb_put_mem mbp (be_bytes 8 x) 8 MB_MSYSTEM.
Definition mb_put_uint64le (mbp : mbchain) (x : Z) := mb_put_mem mbp (le_bytes 8 x) 8 MB_MSYSTEM.

Fixpoint mb_put_mbuf_loop (fuel : nat) (mbp : mbchain) (m : option loc) : MH (option loc * mbchain) :=
  match m with
  | None => mret (None, mbp)
  | Some _ =>
      n ← mbuf_len m;
      let mbp' := mk_mbchain (mb_top mbp) (mb_cur mbp) (mb_mleft mbp)
                    (u64 (mb_count mbp + n)) (u64 (mb_len mbp + n)) in
      nx ← mbuf_next m;
      match nx with
      | None => mret (m, mbp')
      | Some _ => match fuel with O => undef | S k => mb_put_mbuf_loop k mbp' nx end
      end
  end.

Definition mb_put_mbuf (mbp : mbchain) (m : option loc) : MH (Z * mbchain) :=
  mbuf_setnext (mb_cur mbp) m;;
  h ← getS;
  r ← mb_put_mbuf_loop (size (h_mem h)) mbp m;
  let '(last, mbp') := r in
  ts ← mbuf_trailingspace last;
  mret (0, mk_mbchain (mb_top mbp') last ts (mb_count mbp') (mb_len mbp')).

(** ** Fetching data from a chain *)

Definition md_initm (m : option loc) : MH mdchain :=
  d ← mbuf_data m; mret (mk_mdchain m m d 0).

Definition md_init : MH (Z * option mdchain) :=
  r ← mbuf_gethdr MBUF_WAITOK MBUF_TYPE_DATA;
  let '(error, m) := r in
  if negb (error =? 0) then mret (ENOBUFS, None)
  else md ← md_initm m; mret (0, Some md).

Definition md_init_rcvsize (sz : Z) : MH (Z * option mdchain) :=
  r ← (if sz <=? getpagesize then mbuf_gethdr MBUF_WAITOK MBUF_TYPE_DATA
       else mbuf_getcluster MBUF_WAITOK MBUF_TYPE_DATA sz None);
  let '(error, m) := r in
  if negb (error =? 0) then mret (ENOBUFS, None)
  else md ← md_initm m; mret (0, Some md).

(** [md_len] of the shadow is left as it is. *)
Definition md_shadow_copy (mdp shadow : mdchain) : mdchain :=
  mk_mdchain (md_top mdp) (md_cur mdp) (md_pos mdp) (md_len shadow).

Definition md_done (mdp : mdchain) : MH mdchain :=
  match md_top mdp with
  | Some _ =>
      mbuf_freem (md_top mdp);;
      mret (mk_mdchain None (md_cur mdp) (md_pos mdp) (md_len mdp))
  | None => mret mdp
  end.

(** The loop of [md_get_mem].  [target] is the caller's buffer with the offset
    reached so far, [None] for NULL.  The updated chain is returned in the
    error case too. *)
Fixpoint md_get_mem_loop (fuel : nat) (mdp : mdchain) (m : option loc)
    (target : option (nat * list Z)) (sz type : Z) : MH (Z * mdchain * option (nat * list Z)) :=
  if negb (0 <? sz) then mret (0, mdp, target)
  else match m with
  | None => mret (EBADRPC, mdp, target)
  | Some _ =>
      match fuel with
      | O => undef
      | S k =>
          let s := md_pos mdp in
          d ← mbuf_data m;
          n ← mbuf_len m;
          let count := u64 (d + n - s) in
          if count =? 0 then
            nx ← mbuf_next m;
            pos ← (match nx with Some _ => mbuf_data nx | None => mret s end);
            md_get_mem_loop k (mk_mdchain (md_top mdp) nx pos (md_len mdp)) nx target sz type
          else
            let count := if sz <? count then sz else count in
            let mdp' := mk_mdchain (md_top mdp) (md_cur mdp) (s + count) (md_len mdp) in
            match target with
            | None => md_get_mem_loop k mdp' m None (u64 (sz - count)) type
            | Some (off, buf) =>
                if (type =? MB_MSYSTEM) || (type =? MB_MINLINE) then
                  bs ← read_bytes m s count;
                  if Z.of_nat off + count <=? Z.of_nat (length buf) then
                    md_get_mem_loop k mdp' m
                      (Some ((off + Z.to_nat count)%nat, splice off bs buf)) (u64 (sz - count)) type
                  else undef
                else
                  md_get_mem_loop k mdp' m
                    (Some ((off + Z.to_nat count)%nat, buf)) (u64 (sz - count)) type
            end
      end
  end.

(** Two rounds per mbuf of the store, and one to stop. *)
Definition md_get_mem (mdp : mdchain) (target : option (list Z)) (sz type : Z)
  : MH (Z * mdchain * option (list Z)) :=
  h ← getS;
  r ← md_get_mem_loop (2 * size (h_mem h) + 2) mdp (md_cur mdp) ((fun b => (O, b)) <$> target) sz type;
  let '(error, mdp', t) := r in
  let t' := snd <$> t in
  if negb (error =? 0) then mret (error, mdp', t')
  else mret (0, mk_mdchain (md_top mdp') (md_cur mdp') (md_pos mdp') (u64 (md_len mdp' + sz)), t').

(** The unconverted reads store straight into the caller's variable [x], of
    which the memory image is passed and returned. *)
Definition md_get_uint8 (mdp : mdchain) (x : option (list Z)) := md_get_mem mdp x 1 MB_MINLINE.
Definition md_get_uint16 (mdp : mdchain) (x : option (list Z)) := md_get_mem mdp x 2 MB_MINLINE.
Definition md_get_uint32 (mdp : mdchain) (x : option (list Z)) := md_get_mem mdp x 4 MB_MINLINE.
Definition md_get_uint64 (mdp : mdchain) (x : option (list Z)) := md_get_mem mdp x 8 MB_MINLINE.

(** The tail of the converting reads: the local [v] is decoded and stored
    through [x] only when there was no error. *)
Definition decoded (decode : list Z -> Z) (r : MH (Z * mdchain * option (list Z)))
  : MH (Z * mdchain * option Z) :=
  v ← r;
  let '(error, mdp', b) := v in
  mret (error, mdp', if error =? 0 then decode <$> b else None).

Definition md_get_uint16le (mdp : mdchain) := decoded le_value (md_get_uint16 mdp (Some (replicate 2 0))).
Definition md_get_uint16be (mdp : mdchain) := decoded be_value (md_get_uint16 mdp (Some (replicate 2 0))).
Definition md_get_uint32be (mdp : mdchain) := decoded be_value (md_get_uint32 mdp (Some (replicate 4 0))).
Definition md_get_uint32le (mdp : mdchain) := decoded le_value (md_get_uint32 mdp (Some (replicate 4 0))).
Definition md_get_uint64be (mdp : mdchain) := decoded be_value (md_get_uint64 mdp (Some (replicate 8 0))).
Definition md_get_uint64le (mdp : mdchain) := decoded le_value (md_get_uint64 mdp (Some (replicate 8 0))).

Fixpoint md_get_size_loop (fuel : nat) (m : option loc) (start_pos len : Z) : MH Z :=
  match m with
  | None => mret len
  | Some _ =>
      d ← mbuf_data m;
      n ← mbuf_len m;
      let len' := if negb (start_pos =? 0) then u64 (len + (d + n - start_pos))
                  else u64 (len + n) in
      nx ← mbuf_next m;
      match fuel with O => undef | S k => md_get_size_loop k nx 0 len' end
  end.

Definition md_get_size (mdp : mdchain) : MH Z :=
  h ← getS; md_get_size_loop (size (h_mem h)) (md_cur mdp) (md_pos mdp) 0.

(** [md_get_utf16_strlen]: the scan of one mbuf.  [scan] returns the number of
    bytes counted and whether the terminator was found. *)
Fixpoint utf16_scan (bs : list Z) (sz : Z) : Z * bool :=
  match bs with
  | b0 :: b1 :: r => if (b0 =? 0) && (b1 =? 0) then (sz, true) else utf16_scan r (u64 (sz + 2))
  | _ => (sz, false)
  end.

Fixpoint utf16_strlen_loop (fuel : nat) (m : option loc) (s sz : Z) : MH Z :=
  match m with
  | None => mret sz
  | Some _ =>
      d ← mbuf_data m;
      n ← mbuf_len m;
      let count := u64 (d + n - s) in
      bs ← read_bytes m s count;
      let '(sz', found) := utf16_scan bs sz in
      if found then mret sz'
      else
        nx ← mbuf_next m;
        match nx with
        | None => mret sz'
        | Some _ =>
            s' ← mbuf_data nx;
            match fuel with
            | O => undef
            | S k =>
                if Z.odd count then
                  b ← read_bytes nx s' 1;
                  if (default 1 (head (rev bs)) =? 0) && (default 1 (head b) =? 0) then mret sz'
                  else utf16_strlen_loop k nx (s' + 1) sz'
                else utf16_strlen_loop k nx s' sz'
            end
        end
  end.

Definition md_get_utf16_strlen (mdp : mdchain) : MH Z :=
  h ← getS; utf16_strlen_loop (size (h_mem h)) (md_cur mdp) (md_pos mdp) 0.

(** [md_get_mem_put_mem]: moves bytes from one chain to the end of another. *)
Fixpoint md_get_mem_put_mem_loop (fuel : nat) (mdp : mdchain) (m : option loc)
    (mbp : option mbchain) (sz type : Z) : MH (Z * mdchain * option mbchain) :=
  if negb (0 <? sz) then mret (0, mdp, mbp)
  else match m with
  | None => mret (EBADRPC, mdp, mbp)
  | Some _ =>
      match fuel with
      | O => undef
      | S k =>
          let s := md_pos mdp in
          d ← mbuf_data m;
          n ← mbuf_len m;
          let count := u64 (d + n - s) in
          if count =? 0 then
            nx ← mbuf_next m;
            pos ← (match nx with Some _ => mbuf_data nx | None => mret s end);
            md_get_mem_put_mem_loop k (mk_mdchain (md_top mdp) nx pos (md_len mdp)) nx mbp sz type
          else
            let count := if sz <? count then sz else count in
            let mdp' := mk_mdchain (md_top mdp) (md_cur mdp) (s + count) (md_len mdp) in
            match mbp with
            | None => md_get_mem_put_mem_loop k mdp' m None (u64 (sz - count)) type
            | Some mb =>
                if (type =? MB_MSYSTEM) || (type =? MB_MINLINE) then
                  bs ← read_bytes m s count;
                  r ← mb_put_mem mb bs count type;
                  let '(ret, mb') := r in
                  if negb (ret =? 0) then mret (ret, mdp', Some mb')
                  else md_get_mem_put_mem_loop k mdp' m (Some mb') (u64 (sz - count)) type
                else md_get_mem_put_mem_loop k mdp' m mbp (u64 (sz - count)) type
            end
      end
  end.

Definition md_get_mem_put_mem (mdp : mdchain) (mbp : option mbchain) (sz type : Z)
  : MH (Z * mdchain * option mbchain) :=
  h ← getS;
  r ← md_get_mem_put_mem_loop (2 * size (h_mem h) + 2) mdp (md_cur mdp) mbp sz type;
  let '(error, mdp', mb') := r in
  if negb (error =? 0) then mret (error, mdp', mb')
  else mret (0, mk_mdchain (md_top mdp') (md_cur mdp') (md_pos mdp') (u64 (md_len mdp' + sz)), mb').

End WithPlatform.
