(* ===== verification/MchainFacts.v ===== *)
(** * What the mbuf chain operations do: lemmas

    [mb_rep] ties a [struct mbchain] to the mbufs of its chain; its abstract
    contents are the bytes of these mbufs in order.  [md_rep] ties a
    [struct mdchain] to the bytes that are left to read. *)

From S2P Require Import Prelude Mbuf MbufFacts Mchain.
Import Errno.

(** ** Representation of a chain under construction *)

Record mb_rep (h : heap) (mb : mbchain) (ls : list (loc * smb_mbuf))
    (x : loc) (m : smb_mbuf) : Prop := {
  rep_chain : chain (h_mem h) (mb_top mb) (ls ++ [(x, m)]);
  rep_nodup : NoDup (locs (ls ++ [(x, m)]));
  rep_ok : Forall (fun xm => mbuf_ok xm.2) (ls ++ [(x, m)]);
  rep_cur : mb_cur mb = Some x;
  rep_mleft : mb_mleft mb = m_maxlen m - m_len m;
  rep_counts : u64 (mb_count mb) = mb_count mb /\ u64 (mb_len mb) = mb_len mb
}.

(** The chain [mb] of heap [h] is well formed and holds [bs]. *)
Definition mb_holds (h : heap) (mb : mbchain) (bs : list Z) : Prop :=
  exists ls x m, mb_rep h mb ls x m /\ chain_bytes (ls ++ [(x, m)]) = bs.

(** The mbufs of a chain, as a footprint. *)
Definition mb_foot (h : heap) (mb : mbchain) (ls : list (loc * smb_mbuf)) : Prop :=
  chain (h_mem h) (mb_top mb) ls.

Lemma rep_last h mb ls x m : mb_rep h mb ls x m -> h_mem h !! x = Some m /\ m_next m = None.
Proof. intros [Hc _ _ _ _ _]. by eapply chain_snoc_inv. Qed.

Lemma rep_last_ok h mb ls x m : mb_rep h mb ls x m -> mbuf_ok m.
Proof. intros [_ _ Hok _ _ _]. apply Forall_app in Hok as [_ Hok]. by inversion Hok. Qed.

(** Only the mbufs matter. *)
Lemma mb_holds_mem h h' mb bs : h_mem h' = h_mem h -> mb_holds h mb bs -> mb_holds h' mb bs.
Proof.
  intros E (ls & x & m & [] & Hb). exists ls, x, m. split; [|done]. split; try done. by rewrite E.
Qed.

(** [h'] agrees with [h] outside of the mbufs in [ls]. *)
Definition frame (h h' : heap) (ls : list (loc * smb_mbuf)) : Prop :=
  forall y, y ∉ locs ls -> is_Some (h_mem h !! y) -> h_mem h' !! y = h_mem h !! y.

(** Storing [m'] in place of the last mbuf, when only contents, length and
    flags differ. *)
Lemma rep_update_last h mb mb' ls x m m' :
  mb_rep h mb ls x m -> mbuf_ok m' -> m_next m' = None ->
  mb_top mb' = mb_top mb -> mb_cur mb' = Some x ->
  mb_mleft mb' = m_maxlen m' - m_len m' ->
  u64 (mb_count mb') = mb_count mb' /\ u64 (mb_len mb') = mb_len mb' ->
  mb_rep (upd h x m') mb' ls x m'.
Proof.
  intros [Hc Hnd Hok Hcur Hl _] Hok' Hn Ht Hcu Hml Hcnt. split; try done.
  - rewrite Ht. eapply chain_snoc_update; try done.
    intros y Hy. by apply not_elem_of_nil in Hy.
  - rewrite map_app in *. done.
  - apply Forall_app in Hok as [Hok _]. apply Forall_app. split; [done|]. by constructor.
Qed.

(** A new mbuf [n] at [l] hung off the last one. *)
Lemma rep_append h h' mb mb' ls x m fx l n :
  mb_rep h mb ls x m -> h_mem h !! l = None ->
  h_mem h' = <[x := set_m_next (set_m_flags m fx) (Some l)]> (<[l := n]> (h_mem h)) ->
  mbuf_ok n -> m_next n = None ->
  mb_top mb' = mb_top mb -> mb_cur mb' = Some l -> mb_mleft mb' = m_maxlen n - m_len n ->
  u64 (mb_count mb') = mb_count mb' /\ u64 (mb_len mb') = mb_len mb' ->
  mb_rep h' mb' (ls ++ [(x, set_m_next (set_m_flags m fx) (Some l))]) l n.
Proof.
  intros Hr Hfresh Em Hokn Hnn Ht Hcu Hml Hcnt. pose proof (rep_last _ _ _ _ _ Hr) as [Hx _].
  pose proof (rep_last_ok _ _ _ _ _ Hr) as Hokm.
  destruct Hr as [Hc Hnd Hok Hcur Hl _].
  assert (l ∉ locs (ls ++ [(x, m)])) as Hnew.
  { intros Hin. destruct (chain_dom _ _ _ _ Hc Hin) as [? ?]. congruence. }
  assert (x <> l) as Hxl by (intros ->; congruence).
  split; try done.
  - rewrite Em, Ht, <- app_assoc. simpl. eapply chain_snoc_update; [done| | |].
    + by apply chain_insert_ne.
    + intros y Hy%list_elem_of_singleton. simpl in Hy. congruence.
    + simpl. split_and!; [done| |done]. rewrite lookup_insert_ne by done. apply lookup_insert_eq.
  - rewrite map_app in Hnd, Hnew. rewrite !map_app. simpl in *.
    rewrite <- app_assoc. simpl.
    apply list.NoDup_app in Hnd as (Hnd & Hdis & _). apply list.NoDup_app.
    split_and!; [done| |].
    + intros y Hy [->|Hy2%list_elem_of_singleton]%elem_of_cons.
      * apply (Hdis x Hy). left.
      * subst y. apply Hnew. apply elem_of_app. by left.
    + apply NoDup_cons_2; [|apply NoDup_singleton]. by intros ?%list_elem_of_singleton.
  - rewrite <- app_assoc. apply Forall_app in Hok as [Hok _].
    apply Forall_app. split; [done|]. simpl. constructor; [|by constructor].
    destruct Hokm. by split.
Qed.

Lemma chain_bytes_link ls x m fx l r :
  chain_bytes (ls ++ (x, set_m_next (set_m_flags m fx) l) :: r) =
  chain_bytes (ls ++ (x, m) :: r).
Proof. unfold chain_bytes. by rewrite !map_app. Qed.

(** ** [mb_put_mem] *)

(** The bytes a call of [mb_put_mem] means to append. *)
Definition put_bytes (src : list Z) (sz type : Z) : list Z :=
  if type =? MB_MZERO then replicate (Z.to_nat sz) 0 else take (Z.to_nat sz) src.

(** The calls that are meant: a copy type, and a source as long as the size. *)
Definition put_args_ok (src : list Z) (sz type : Z) : Prop :=
  0 <= sz < 2 ^ 64 /\
  (type = MB_MZERO \/ ((type = MB_MSYSTEM \/ type = MB_MINLINE) /\ sz <= Z.of_nat (length src))).

Lemma length_put_bytes src sz type :
  put_args_ok src sz type -> Z.of_nat (length (put_bytes src sz type)) = sz.
Proof.
  intros [Hsz Hty]. unfold put_bytes.
  destruct Hty as [->|[[-> | ->] Hl]]; simpl; rewrite ?length_replicate, ?length_take; lia.
Qed.

Lemma put_chunk_ok src sz type c :
  put_args_ok src sz type -> 0 <= c <= sz ->
  put_chunk src type c = Some (put_bytes src c type).
Proof.
  intros [Hsz Hty] Hc. unfold put_chunk, put_bytes.
  destruct Hty as [->|[[-> | ->] Hl]]; simpl; [done| |];
    destruct (Z.leb_spec c (Z.of_nat (length src))); (done || lia).
Qed.

Lemma put_args_drop src sz type c :
  put_args_ok src sz type -> 0 <= c <= sz ->
  put_args_ok (drop (Z.to_nat c) src) (sz - c) type.
Proof.
  intros [Hsz Hty] Hc. split; [lia|]. destruct Hty as [->|[Ht Hl]]; [by left|right].
  split; [done|]. rewrite length_drop. lia.
Qed.

Lemma put_args_chunk src sz type c :
  put_args_ok src sz type -> 0 <= c <= sz -> put_args_ok src c type.
Proof. intros [Hsz Hty] Hc. split; [lia|]. destruct Hty as [?|[? ?]]; [by left|right]. split; [done|lia]. Qed.

Lemma put_bytes_split src sz type c :
  put_args_ok src sz type -> 0 <= c <= sz ->
  put_bytes src sz type =
    put_bytes src c type ++ put_bytes (drop (Z.to_nat c) src) (sz - c) type.
Proof.
  intros [Hsz Hty] Hc. unfold put_bytes.
  replace (Z.to_nat sz) with (Z.to_nat c + Z.to_nat (sz - c))%nat by lia.
  destruct (Z.eqb_spec type MB_MZERO).
  - apply replicate_add.
  - rewrite take_drop_commute, (Nat.add_comm (Z.to_nat c)).
    rewrite <- (take_drop (Z.to_nat c) (take _ src)) at 1. rewrite take_take.
    do 2 f_equal. lia.
Qed.

(** The last mbuf after [bs] has been copied to its end. *)
Definition filled (m : smb_mbuf) (bs : list Z) : smb_mbuf :=
  set_m_len (set_m_buf m (splice (Z.to_nat (m_len m)) bs (m_buf m)))
    (m_len m + Z.of_nat (length bs)).

Lemma filled_ok m bs :
  mbuf_ok m -> m_len m + Z.of_nat (length bs) <= m_maxlen m -> mbuf_ok (filled m bs).
Proof.
  intros [Hty Hl Hm Hb] Hfit. split; simpl; [done|lia|done|].
  rewrite length_splice; lia.
Qed.

Lemma filled_bytes m bs :
  mbuf_ok m -> m_len m + Z.of_nat (length bs) <= m_maxlen m ->
  mbuf_bytes (filled m bs) = mbuf_bytes m ++ bs.
Proof.
  intros [Hty Hl Hm Hb] Hfit. unfold mbuf_bytes, filled. simpl.
  replace (Z.to_nat (m_len m + Z.of_nat (length bs)))
    with (Z.to_nat (m_len m) + length bs)%nat by lia.
  apply take_splice_end. lia.
Qed.

Definition bump (mb : mbchain) (n : Z) : mbchain :=
  mk_mbchain (mb_top mb) (mb_cur mb) (mb_mleft mb) (u64 (mb_count mb + n)) (u64 (mb_len mb + n)).

Lemma bump_bump mb a b : bump (bump mb a) b = bump mb (a + b).
Proof. unfold bump. simpl. f_equal; rewrite u64_add_l; f_equal; lia. Qed.

Definition at_last (mb : mbchain) (x : loc) (mleft : Z) : mbchain :=
  mk_mbchain (mb_top mb) (Some x) mleft (mb_count mb) (mb_len mb).

Section Put.
Context `{Platform}.

(** A round that copies: the chunk fits the last mbuf. *)
Lemma put_loop_copy k mb h x m src sz type (c := Z.min sz (m_maxlen m - m_len m)) :
  h_mem h !! x = Some m -> mbuf_ok m -> put_args_ok src sz type ->
  0 < sz -> 0 < m_maxlen m - m_len m ->
  mb_put_mem_loop (S k) mb (Some x) (m_maxlen m - m_len m) src sz type h =
  mb_put_mem_loop k (bump mb c) (Some x) (m_maxlen m - m_len m - c)
    (drop (Z.to_nat c) src) (sz - c) type (upd h x (filled m (put_bytes src c type))).
Proof.
  intros Hx Hok Hargs Hsz Hroom. cbn [mb_put_mem_loop].
  destruct (Z.ltb_spec 0 sz); [simpl|lia].
  destruct (Z.eqb_spec (m_maxlen m - m_len m) 0); [lia|].
  assert ((if sz <? m_maxlen m - m_len m then sz else m_maxlen m - m_len m) = c) as ->.
  { subst c. destruct (Z.ltb_spec sz (m_maxlen m - m_len m)); lia. }
  assert (0 <= c <= sz) as Hc by lia.
  mstep. mstep. rewrite (put_chunk_ok _ _ _ _ Hargs Hc).
  pose proof (length_put_bytes _ _ _ (put_args_chunk _ _ _ _ Hargs Hc)) as Hlen.
  destruct Hok as [Hty Hl Hm Hb]. destruct Hargs as [Hszb _].
  erewrite bind_some by (apply write_bytes_run; [done|lia|lia]).
  erewrite bind_some by (apply mbuf_setlen_run; simpl; apply lookup_insert_eq).
  rewrite (u64_small (m_len m + c)), (u64_small (m_maxlen m - m_len m - c)),
    (u64_small (sz - c)) by lia. unfold bump, filled, upd. simpl.
  rewrite insert_insert_eq, Hlen. done.
Qed.

(** A fresh mbuf is hung off the last one of a chain. *)
Lemma link_fresh h h1 mb ls x m sz fl0 (l := h_next h) :
  heap_ok h -> mb_rep h mb ls x m -> alloc_at h h1 (fresh_mbuf l sz fl0) -> 0 <= sz < 2 ^ 64 ->
  exists fx fl h2, let n := set_m_flags (fresh_mbuf l sz fl0) fl in
    mbuf_setnext (Some x) (Some l) h1 = Some (0, h2) /\ h_malloc h2 = h_malloc h1 /\
    h_mem h2 = <[x := set_m_next (set_m_flags m fx) (Some l)]> (<[l := n]> (h_mem h)) /\
    heap_ok h2 /\ frame h h2 [(x, m)] /\ mbuf_ok n /\ h_mem h !! l = None /\ x <> l.
Proof.
  intros Hh Hr Hal Hsz. pose proof (rep_last _ _ _ _ _ Hr) as [Hx _].
  pose proof (alloc_at_ok _ _ _ Hh Hal) as Hh1.
  assert (h_mem h !! l = None) as Hfr by by apply heap_ok_fresh.
  destruct Hal as (Em & En & _). assert (x <> l) as Hxl by (intros ->; congruence).
  assert (h_mem h1 !! x = Some m) as Hx1 by by rewrite Em, lookup_insert_ne.
  assert (h_mem h1 !! l = Some (fresh_mbuf l sz fl0)) as Hl1 by by rewrite Em, lookup_insert_eq.
  assert (mbuf_ok (fresh_mbuf l sz fl0)) as Hokn by (apply fresh_mbuf_ok; lia).
  destruct (mbuf_setnext_run h1 x m l _ Hxl Hx1 Hl1 Hokn) as (fx & fl & Es).
  exists fx, fl. eexists. split; [exact Es|].
  assert (forall n, <[x:=set_m_next (set_m_flags m fx) (Some l)]> (<[l:=n]> (h_mem h1))
    = <[x:=set_m_next (set_m_flags m fx) (Some l)]> (<[l:=n]> (h_mem h))) as Em2.
  { intros n. by rewrite Em, insert_insert_eq. }
  split_and!; try done.
  - apply Em2.
  - apply heap_ok_upd; [apply heap_ok_upd; [done|by eexists]|].
    simpl. rewrite lookup_insert_ne by done. by eexists.
  - intros y Hy [v Hv]. cbn [h_mem upd]. rewrite Em2.
    rewrite lookup_insert_ne by (intros ->; apply Hy; left).
    rewrite lookup_insert_ne; [done|]. intros ->. congruence.
  - destruct Hokn; by split.
Qed.

(** A round that finds the last mbuf full and hangs a new one off it. *)
Lemma put_loop_grow k mb h x m ls src sz type :
  heap_ok h -> mb_rep h (at_last mb x (m_maxlen m - m_len m)) ls x m ->
  m_maxlen m = m_len m -> 0 < sz < 2 ^ 64 ->
  exists h', (mem_avail h -> mem_avail h') /\ heap_ok h' /\ frame h h' [(x, m)] /\
    ((exists l n fx,
        mb_put_mem_loop (S k) mb (Some x) (m_maxlen m - m_len m) src sz type h =
        mb_put_mem_loop k mb (Some l) (m_maxlen n - m_len n) src sz type h' /\
        mb_rep h' (at_last mb l (m_maxlen n - m_len n))
          (ls ++ [(x, set_m_next (set_m_flags m fx) (Some l))]) l n /\
        mbuf_bytes n = [] /\ m_len n = 0 /\ m_maxlen n = sz /\ h_mem h !! l = None /\
        h_mem h' !! x = Some (set_m_next (set_m_flags m fx) (Some l))) \/
     (mb_put_mem_loop (S k) mb (Some x) (m_maxlen m - m_len m) src sz type h =
        Some ((ENOBUFS, mb), h') /\ ~ mem_avail h /\ h_mem h' = h_mem h)).
Proof.
  intros Hh Hr Hfull Hsz. pose proof (rep_last _ _ _ _ _ Hr) as [Hx Hnx].
  cbn [mb_put_mem_loop]. destruct (Z.ltb_spec 0 sz); [simpl|lia].
  destruct (Z.eqb_spec (m_maxlen m - m_len m) 0); [|lia].
  erewrite bind_some by (by apply mbuf_next_run). rewrite Hnx. unfold smb_mbuf_getm.
  destruct (mbuf_getcluster_run h sz Hh ltac:(lia)) as (r & h1 & E & Hav & [[-> Hal]|[-> Hal]]).
  - destruct (link_fresh h h1 _ ls x m sz HDR_FLAGS Hh Hr Hal ltac:(lia))
      as (fx & fl & h2 & Es & Eml & Em2 & Hh2 & Hf & Hokn & Hfr & Hxl).
    set (l := h_next h) in *. set (n := set_m_flags (fresh_mbuf l sz HDR_FLAGS) fl) in *.
    assert (h_mem h1 !! x = Some m) as Hx1.
    { destruct Hal as (-> & _). by rewrite lookup_insert_ne. }
    exists h2. split_and!; [unfold mem_avail; by rewrite Eml|done|done|].
    left. exists l, n, fx. split_and!; try done; [| |rewrite Em2; apply lookup_insert_eq].
    + erewrite bind_some.
      2:{ rewrite (bind_some _ _ _ _ _ E). simpl. mstep.
          erewrite bind_some.
          2:{ destruct (size (h_mem h1)); simpl; mstep; rewrite Hnx; apply mret_run. }
          rewrite (bind_some _ _ _ _ _ Es). apply mret_run. }
      cbn beta iota. erewrite bind_some by (apply mbuf_next_run; rewrite Em2; apply lookup_insert_eq).
      simpl.
      erewrite bind_some by (eapply mbuf_trailingspace_run;
        [rewrite Em2, lookup_insert_ne by done; apply lookup_insert_eq|done]). done.
    + eapply rep_append; try done. by destruct Hr.
  - exists h1. pose proof (alloc_failed_ok _ _ Hh Hal) as Hh1.
    destruct Hal as (Em & _ & _ & Hna). split_and!; try done.
    + intros y _ _. by rewrite Em.
    + right. split_and!; try done.
      erewrite bind_some; [|rewrite (bind_some _ _ _ _ _ E); apply mret_run]. done.
Qed.

(** The rest fits the last mbuf: copied and done. *)
Lemma put_loop_fits k mb h x m ls src sz type :
  mb_rep h (at_last mb x (m_maxlen m - m_len m)) ls x m -> put_args_ok src sz type ->
  sz <= m_maxlen m - m_len m ->
  exists m', mb_put_mem_loop (S k) mb (Some x) (m_maxlen m - m_len m) src sz type h =
      Some ((0, at_last (bump mb sz) x (m_maxlen m' - m_len m')), upd h x m') /\
    mb_rep (upd h x m') (at_last (bump mb sz) x (m_maxlen m' - m_len m')) ls x m' /\
    mbuf_bytes m' = mbuf_bytes m ++ put_bytes src sz type /\
    m_data m' = m_data m /\ m_len m <= m_len m'.
Proof.
  intros Hr Hargs Hfit. pose proof (rep_last _ _ _ _ _ Hr) as [Hx Hnx].
  pose proof (rep_last_ok _ _ _ _ _ Hr) as Hok.
  pose proof (rep_counts _ _ _ _ _ Hr) as [Hc1 Hc2]. simpl in Hc1, Hc2.
  pose proof (length_put_bytes _ _ _ Hargs) as Hlen. destruct Hargs as [Hsz Hty].
  assert (u64 (u64 (mb_count mb + sz)) = u64 (mb_count mb + sz) /\
          u64 (u64 (mb_len mb + sz)) = u64 (mb_len mb + sz)) as Hcnt by (by rewrite !u64_idem).
  destruct (decide (sz = 0)) as [->|Hne].
  - exists m. assert (put_bytes src 0 type = []) as ->.
    { apply length_zero_iff_nil. lia. }
    assert (upd h x m = h) as ->. { destruct h. unfold upd. simpl in *. by rewrite insert_id. }
    assert (bump mb 0 = mb) as ->.
    { destruct mb. unfold bump. simpl in *. by rewrite !Z.add_0_r, Hc1, Hc2. }
    rewrite app_nil_r. split_and!; (done || lia).
  - exists (filled m (put_bytes src sz type)).
    rewrite put_loop_copy by (done || lia || by split).
    rewrite Z.min_l by lia. replace (sz - sz) with 0 by lia.
    destruct k as [|k]; simpl; rewrite Hlen; replace (m_maxlen m - (m_len m + sz))
      with (m_maxlen m - m_len m - sz) by lia; (split_and!; [done| | |done|simpl; lia]).
    all: try (eapply rep_update_last; [done|apply filled_ok; [done|lia]|done..| |done]).
    all: try (simpl; lia).
    all: apply filled_bytes; [done|lia].
Qed.

Definition extends (h h' : heap) (mb mb' : mbchain) (ls : list (loc * smb_mbuf))
    (sz : Z) (bs : list Z) : Prop :=
  exists ls' x' m', mb_rep h' mb' ls' x' m' /\
    chain_bytes (ls' ++ [(x', m')]) = chain_bytes ls ++ bs /\
    mb_top mb' = mb_top mb /\ mb_count mb' = u64 (mb_count mb + sz) /\
    mb_len mb' = u64 (mb_len mb + sz).

Lemma frame_upd h x m m' : h_mem h !! x = Some m -> frame h (upd h x m') [(x, m)].
Proof.
  intros Hx y Hy _. simpl. apply lookup_insert_ne. intros ->. apply Hy. left.
Qed.

Lemma frame_trans h1 h2 h3 ls1 ls2 :
  frame h1 h2 ls1 -> frame h2 h3 ls2 ->
  (forall y, y ∈ locs ls2 -> y ∈ locs ls1 \/ h_mem h1 !! y = None) -> frame h1 h3 ls1.
Proof.
  intros H12 H23 Hs y Hy Hsome. rewrite <- (H12 y Hy Hsome). apply H23.
  - intros Hin. destruct (Hs y Hin) as [?|E]; [done|]. destruct Hsome. congruence.
  - by rewrite (H12 y Hy Hsome).
Qed.

(** The mbuf [x] still is where it was and has lost no bytes: addresses handed
    out into it stay good. *)
Definition kept (h' : heap) (x : loc) (m : smb_mbuf) : Prop :=
  exists m', h_mem h' !! x = Some m' /\ m_data m' = m_data m /\ m_len m <= m_len m' /\ mbuf_ok m'.

Lemma kept_trans h' x m m1 :
  m_data m1 = m_data m -> m_len m <= m_len m1 -> kept h' x m1 -> kept h' x m.
Proof. intros Hd Hl (m' & ? & ? & ? & ?). exists m'. split_and!; [done|congruence|lia|done]. Qed.

(** What a run of the loop from the last mbuf [x] establishes. *)
Definition put_result (h : heap) (mb : mbchain) ls (x : loc) (m : smb_mbuf) (sz : Z)
    (bs : list Z) (res : option (Z * mbchain * heap)) : Prop :=
  exists e mb' h', res = Some ((e, mb'), h') /\
    heap_ok h' /\ (mem_avail h -> mem_avail h') /\ frame h h' [(x, m)] /\ kept h' x m /\
    ((e = 0 /\ extends h h' mb mb' (ls ++ [(x, m)]) sz bs) \/ (e = ENOBUFS /\ ~ mem_avail h)).

Lemma put_loop_fits_result k mb h x m ls src sz type :
  heap_ok h -> mb_rep h (at_last mb x (m_maxlen m - m_len m)) ls x m ->
  put_args_ok src sz type -> sz <= m_maxlen m - m_len m ->
  put_result h mb ls x m sz (put_bytes src sz type)
    (mb_put_mem_loop (S k) mb (Some x) (m_maxlen m - m_len m) src sz type h).
Proof.
  intros Hh Hr Hargs Hfit. pose proof (rep_last _ _ _ _ _ Hr) as [Hx _].
  destruct (put_loop_fits k mb h x m ls src sz type Hr Hargs Hfit) as (m' & E & Hr' & Hb & Hd & Hl).
  eexists _, _, _. split; [exact E|]. split_and!.
  - apply heap_ok_upd; [done|by eexists].
  - done.
  - by apply frame_upd.
  - exists m'. split_and!; try done; [apply lookup_insert_eq|by eapply rep_last_ok].
  - left. split; [done|]. exists ls, x, m'. split_and!; try done.
    rewrite !chain_bytes_app, !chain_bytes_one, Hb. by rewrite app_assoc.
Qed.

Lemma put_loop_full k mb h x m ls src sz type :
  heap_ok h -> mb_rep h (at_last mb x (m_maxlen m - m_len m)) ls x m ->
  m_maxlen m = m_len m -> put_args_ok src sz type -> 0 < sz ->
  put_result h mb ls x m sz (put_bytes src sz type)
    (mb_put_mem_loop (S (S k)) mb (Some x) (m_maxlen m - m_len m) src sz type h).
Proof.
  intros Hh Hr Hfull Hargs Hsz.
  destruct (put_loop_grow (S k) mb h x m ls src sz type Hh Hr Hfull) as (h1 & Hav & Hh1 & Hf & Hcase).
  { destruct Hargs. lia. }
  pose proof (rep_last _ _ _ _ _ Hr) as [Hx _]. pose proof (rep_last_ok _ _ _ _ _ Hr) as Hok.
  destruct Hcase as [(l & n & fx & E & Hr1 & Hb & Hl0 & Hmx & Hnew & Hx1)|(E & Hna & Em)].
  - destruct (put_loop_fits_result k mb h1 l n _ src sz type Hh1 Hr1 Hargs ltac:(lia))
      as (e & mb' & h' & E2 & Hh2 & Hav2 & Hf2 & _ & Hc).
    eexists e, mb', h'. split; [by rewrite E|]. split_and!; [done|auto| | |].
    + eapply frame_trans; [done..|]. intros y Hy%list_elem_of_singleton. right. by subst.
    + exists (set_m_next (set_m_flags m fx) (Some l)). split_and!; [|done|done|destruct Hok; by split].
      rewrite (Hf2 x), Hx1; [done| |by eexists].
      intros Hin%list_elem_of_singleton. simpl in Hin. congruence.
    + destruct Hc as [[-> Hxt]|[-> Hna]]; [left|right; auto]. split; [done|].
      destruct Hxt as (ls' & x' & m' & Hrep & Hbs & Hrest). exists ls', x', m'.
      destruct Hrest as (? & ? & ?). split_and!; try done. rewrite Hbs. f_equal.
      rewrite <- app_assoc. simpl. rewrite chain_bytes_link, !chain_bytes_app.
      unfold chain_bytes. simpl. by rewrite Hb.
  - eexists _, _, h1. split; [exact E|]. split_and!; try done; [|by right].
    exists m. by rewrite Em.
Qed.

(** The whole loop, from any state in which [m] is the last mbuf. *)
Lemma put_loop_run k mb h x m ls src sz type :
  heap_ok h -> mb_rep h (at_last mb x (m_maxlen m - m_len m)) ls x m ->
  put_args_ok src sz type ->
  put_result h mb ls x m sz (put_bytes src sz type)
    (mb_put_mem_loop (S (S (S k))) mb (Some x) (m_maxlen m - m_len m) src sz type h).
Proof.
  intros Hh Hr Hargs. pose proof (rep_last_ok _ _ _ _ _ Hr) as Hok.
  pose proof (rep_last _ _ _ _ _ Hr) as [Hx Hnx].
  destruct (Z.le_gt_cases sz (m_maxlen m - m_len m)) as [Hfit|Hbig].
  { by apply put_loop_fits_result. }
  destruct (Z.eq_dec (m_maxlen m) (m_len m)) as [Hfull|Hroom].
  { apply put_loop_full; try done. lia. }
  assert (0 < m_maxlen m - m_len m) by (destruct Hok; lia).
  rewrite put_loop_copy by (done || lia). rewrite Z.min_r by lia.
  set (c := m_maxlen m - m_len m) in *.
  assert (put_args_ok src c type) as Hac by (eapply put_args_chunk; [done|lia]).
  pose proof (length_put_bytes _ _ _ Hac) as Hlen.
  set (m1 := filled m (put_bytes src c type)).
  assert (mbuf_ok m1) as Hok1 by (apply filled_ok; [done|lia]).
  assert (c - c = m_maxlen m1 - m_len m1) as -> by (subst m1; simpl; lia).
  assert (mb_rep (upd h x m1) (at_last (bump mb c) x (m_maxlen m1 - m_len m1)) ls x m1) as Hr1.
  { eapply rep_update_last; try done. simpl. by rewrite !u64_idem. }
  destruct (put_loop_full k (bump mb c) (upd h x m1) x m1 ls (drop (Z.to_nat c) src) (sz - c) type)
    as (e & mb' & h' & E & Hh2 & Hav & Hf & Hk & Hcase); try done.
  { apply heap_ok_upd; [done|by eexists]. }
  { subst m1. simpl. lia. }
  { apply put_args_drop; [done|lia]. }
  { lia. }
  eexists e, mb', h'. split; [done|]. split_and!; [done|auto| | |].
  - eapply frame_trans; [by apply (frame_upd h x m m1)|done|]. intros y Hy. by left.
  - eapply kept_trans; [..|exact Hk]; subst m1; simpl; [done|lia].
  - destruct Hcase as [[-> Hext]|[-> Hna]]; [left|right; auto]. split; [done|].
    destruct Hext as (ls' & x' & m' & Hrep & Hbs & Ht & Hc1 & Hc2). exists ls', x', m'.
    simpl in Ht, Hc1, Hc2. rewrite u64_add_l in Hc1, Hc2.
    split_and!; [done| |done|rewrite Hc1; f_equal; lia|rewrite Hc2; f_equal; lia].
    rewrite Hbs, !chain_bytes_app, !chain_bytes_one. subst m1.
    rewrite filled_bytes by (done || lia). rewrite (put_bytes_split src sz type c) by (done || lia).
    by rewrite <- !app_assoc.
Qed.

Lemma at_last_self h mb ls x m :
  mb_rep h mb ls x m -> at_last mb x (m_maxlen m - m_len m) = mb.
Proof. intros [_ _ _ Hc Hm _]. destruct mb. unfold at_last. simpl in *. by subst. Qed.

Lemma mb_put_mem_run h mb ls x m src sz type :
  heap_ok h -> mb_rep h mb ls x m -> put_args_ok src sz type ->
  put_result h mb ls x m sz (put_bytes src sz type) (mb_put_mem mb src sz type h).
Proof.
  intros Hh Hr Hargs. unfold mb_put_mem. mstep.
  replace (2 * size (h_mem h) + 4)%nat with (S (S (S (2 * size (h_mem h) + 1)))) by lia.
  rewrite (rep_cur _ _ _ _ _ Hr), (rep_mleft _ _ _ _ _ Hr).
  apply put_loop_run; [done| |done]. by rewrite (at_last_self _ _ _ _ _ Hr).
Qed.
End Put.

(** ** Reading a chain *)

Definition md_rep (h : heap) (md : mdchain) (ls : list (loc * smb_mbuf)) (off : Z) : Prop :=
  chain (h_mem h) (md_cur md) ls /\ NoDup (locs ls) /\ Forall (fun xm => mbuf_ok xm.2) ls /\
  match ls with
  | [] => off = 0
  | (x, m) :: _ => md_pos md = m_data m + off /\ 0 <= off <= m_len m
  end.

(** The reader [md] of heap [h] is well formed and has [rest] still to read. *)
Definition md_holds (h : heap) (md : mdchain) (rest : list Z) : Prop :=
  exists ls off, md_rep h md ls off /\ drop (Z.to_nat off) (chain_bytes ls) = rest.

(** The caller's buffer: [bs] stored at the offset reached. *)
Definition tgt_write (t : option (nat * list Z)) (bs : list Z) : option (nat * list Z) :=
  match t with
  | None => None
  | Some (o, buf) => Some ((o + length bs)%nat, splice o bs buf)
  end.

Definition tgt_fits (t : option (nat * list Z)) (sz : Z) : Prop :=
  match t with None => True | Some (o, buf) => Z.of_nat o + sz <= Z.of_nat (length buf) end.

Definition get_type_ok (t : option (nat * list Z)) (type : Z) : Prop :=
  t = None \/ type = MB_MSYSTEM \/ type = MB_MINLINE.

Lemma tgt_write_nil t : tgt_write t [] = t.
Proof. destruct t as [[o b]|]; [|done]. simpl. by rewrite splice_nil, Nat.add_0_r. Qed.

Lemma tgt_write_app t a b :
  tgt_fits t (Z.of_nat (length a + length b)) ->
  tgt_write (tgt_write t a) b = tgt_write t (a ++ b).
Proof.
  destruct t as [[o buf]|]; [|done]. simpl. intros Hf.
  rewrite splice_splice, length_app by lia. do 2 f_equal. lia.
Qed.

Lemma tgt_fits_write t a sz :
  0 <= sz -> tgt_fits t (Z.of_nat (length a) + sz) -> tgt_fits (tgt_write t a) sz.
Proof.
  intros Hsz. destruct t as [[o buf]|]; [|done]. simpl. intros Hf.
  rewrite length_splice; lia.
Qed.

Lemma get_type_write t a type : get_type_ok t type -> get_type_ok (tgt_write t a) type.
Proof. intros [->|Ht]; [by left|by right]. Qed.

Definition md_at (md : mdchain) (cur : option loc) (pos : Z) : mdchain :=
  mk_mdchain (md_top md) cur pos (md_len md).

Section Get.
Context (h : heap).

(** A round that moves to the next mbuf. *)
Lemma get_loop_next k md x m r t sz type :
  h_mem h !! x = Some m -> mbuf_ok m -> 0 < sz -> md_pos md = m_data m + m_len m ->
  chain (h_mem h) (m_next m) r -> Forall (fun xm => mbuf_ok xm.2) r -> NoDup (locs r) ->
  exists md', md_rep h md' r 0 /\ md_top md' = md_top md /\ md_len md' = md_len md /\
    md_get_mem_loop (S k) md (Some x) t sz type h = md_get_mem_loop k md' (m_next m) t sz type h /\
    md_cur md' = m_next m.
Proof.
  intros Hx Hok Hsz Hpos Hc Hoks Hnd. cbn [md_get_mem_loop].
  destruct (Z.ltb_spec 0 sz); [simpl|lia].
  mstep. mstep. rewrite Hpos. replace (m_data m + m_len m - (m_data m + m_len m)) with 0 by lia.
  simpl. mstep. destruct r as [|[y n] r].
  - simpl in Hc. rewrite Hc. mstep. exists (md_at md None (m_data m + m_len m)).
    split_and!; done || constructor.
  - pose proof Hc as (Hn & Hy & _). rewrite Hn. mstep. exists (md_at md (Some y) (m_data n)).
    apply list.Forall_cons in Hoks as H1. destruct H1 as [[_ ? _ _] _].
    split_and!; try done. unfold md_rep. simpl in *.
    split_and!; try done; try lia; by destruct Hc as (_ & ? & ?).
Qed.

(** A round that copies out of the current mbuf. *)
Lemma get_loop_copy k md x m off t sz type (c := Z.min sz (m_len m - off)) :
  h_mem h !! x = Some m -> mbuf_ok m -> 0 < sz < 2 ^ 64 -> md_cur md = Some x ->
  md_pos md = m_data m + off -> 0 <= off < m_len m -> get_type_ok t type -> tgt_fits t sz ->
  md_get_mem_loop (S k) md (Some x) t sz type h =
  md_get_mem_loop k (md_at md (Some x) (m_data m + (off + c))) (Some x)
    (tgt_write t (take (Z.to_nat c) (drop (Z.to_nat off) (mbuf_bytes m)))) (sz - c) type h.
Proof.
  intros Hx Hok Hsz Hcur Hpos Hoff Hty Hfit. pose proof Hok as [_ Hl Hmx Hb].
  assert (0 < c <= sz /\ c <= m_len m - off) as [Hc1 Hc2] by lia.
  assert (take (Z.to_nat c) (drop (Z.to_nat off) (mbuf_bytes m)) =
          take (Z.to_nat c) (drop (Z.to_nat off) (m_buf m))) as ->.
  { unfold mbuf_bytes. rewrite !take_drop_commute, take_take. do 2 f_equal. lia. }
  cbn [md_get_mem_loop]. destruct (Z.ltb_spec 0 sz); [simpl|lia].
  mstep. mstep. rewrite Hpos. replace (m_data m + m_len m - (m_data m + off)) with (m_len m - off) by lia.
  rewrite u64_small by lia. destruct (Z.eqb_spec (m_len m - off) 0); [lia|].
  assert ((if sz <? m_len m - off then sz else m_len m - off) = c) as ->.
  { subst c. destruct (Z.ltb_spec sz (m_len m - off)); lia. }
  rewrite (u64_small (sz - c)) by lia.
  assert (length (take (Z.to_nat c) (drop (Z.to_nat off) (m_buf m))) = Z.to_nat c) as Hlen.
  { rewrite length_take, length_drop. lia. }
  assert (mk_mdchain (md_top md) (md_cur md) (m_data m + off + c) (md_len md) =
          md_at md (Some x) (m_data m + (off + c))) as ->.
  { unfold md_at. rewrite Hcur. f_equal. lia. }
  destruct t as [[o buf]|]; simpl; [|done]. simpl in Hfit.
  destruct Hty as [?|Hty]; [done|].
  assert ((type =? MB_MSYSTEM) || (type =? MB_MINLINE) = true) as ->.
  { destruct Hty as [-> | ->]; done. }
  erewrite bind_some by (apply read_bytes_run; [done|lia..]).
  destruct (Z.leb_spec (Z.of_nat o + c) (Z.of_nat (length buf))); [|lia].
  by rewrite Hlen.
Qed.

(** The whole loop: it copies what it can, and fails when the chain is too
    short. *)
Lemma get_loop_run ls : forall k md off t sz type (rest := drop (Z.to_nat off) (chain_bytes ls)),
  md_rep h md ls off -> (2 * length ls <= k)%nat -> 0 <= sz < 2 ^ 64 ->
  get_type_ok t type -> tgt_fits t sz ->
  exists md', md_get_mem_loop k md (md_cur md) t sz type h =
      Some ((if sz <=? Z.of_nat (length rest) then 0 else EBADRPC, md',
             tgt_write t (take (Z.to_nat sz) rest)), h) /\
    md_holds h md' (drop (Z.to_nat sz) rest) /\ md_top md' = md_top md /\ md_len md' = md_len md.
Proof.
  induction ls as [|[x m] r IH]; intros k md off t sz type rest Hrep Hk Hsz Hty Hfit.
  - destruct Hrep as (Hc & Hnd & Hoks & ->). simpl in Hc. subst rest. rewrite Hc. simpl.
    rewrite take_nil, tgt_write_nil, drop_nil. exists md. split; [|split; [|done]].
    + destruct k; simpl; zcases; (done || (simpl in *; lia)).
    + exists [], 0. split; [|done]. split_and!; done.
  - pose proof Hrep as (Hc & Hnd & Hoks & Hpos & Hoff). pose proof Hc as (Hcur & Hx & Hcr).
    pose proof Hoks as [Hok Hoks']%list.Forall_cons. pose proof Hnd as [_ Hnd']%list.NoDup_cons.
    simpl in Hok. pose proof (length_mbuf_bytes m Hok) as Hlb.
    assert (rest = drop (Z.to_nat off) (mbuf_bytes m) ++ chain_bytes r) as Hrest.
    { subst rest. unfold chain_bytes. simpl. rewrite drop_app_le by lia. done. }
    clearbody rest. subst rest. set (a := drop (Z.to_nat off) (mbuf_bytes m)) in *.
    assert (Z.of_nat (length a) = m_len m - off) as Ha by (subst a; rewrite length_drop; lia).
    rewrite Hcur. destruct (decide (sz = 0)) as [->|Hne].
    { exists md. split; [|split; [|done]].
      - destruct k; simpl; rewrite tgt_write_nil;
          destruct (Z.leb_spec 0 (Z.of_nat (length (a ++ chain_bytes r)))); (done || lia).
      - exists ((x, m) :: r), off. split; [done|]. unfold chain_bytes. simpl.
        by rewrite drop_app_le by lia. }
    destruct k as [|[|k]]; [simpl in Hk; lia..|]. simpl in Hk.
    (* from the end of this mbuf on, the rest of the chain is read *)
    assert (forall md1 t1 sz1 kk, (k <= kk)%nat -> 0 < sz1 < 2 ^ 64 -> md_pos md1 = m_data m + m_len m ->
      get_type_ok t1 type -> tgt_fits t1 sz1 ->
      exists md', md_get_mem_loop (S kk) md1 (Some x) t1 sz1 type h =
        Some ((if sz1 <=? Z.of_nat (length (chain_bytes r)) then 0 else EBADRPC, md',
               tgt_write t1 (take (Z.to_nat sz1) (chain_bytes r))), h) /\
        md_holds h md' (drop (Z.to_nat sz1) (chain_bytes r)) /\
        md_top md' = md_top md1 /\ md_len md' = md_len md1) as Hnext.
    { intros md1 t1 sz1 kk Hkk Hsz1 Hp1 Hty1 Hf1.
      destruct (get_loop_next kk md1 x m r t1 sz1 type) as (md2 & Hr2 & Ht2 & Hl2 & E2 & Hc2);
        try done; [lia|].
      rewrite E2, <- Hc2.
      destruct (IH kk md2 0 t1 sz1 type Hr2) as (md' & E' & Hh' & Ht' & Hl'); try done; [lia..|].
      rewrite drop_0 in E', Hh'. exists md'. split_and!; congruence. }
    destruct (decide (off = m_len m)) as [->|Hroom].
    { assert (a = []) as ->. { apply length_zero_iff_nil. lia. }
      apply Hnext; try done; lia. }
    rewrite (get_loop_copy _ _ x m off) by (done || lia).
    set (c := Z.min sz (m_len m - off)). fold a.
    destruct (Z.le_gt_cases sz (m_len m - off)) as [Hle|Hgt].
    + assert (c = sz) as -> by lia. replace (sz - sz) with 0 by lia.
      exists (md_at md (Some x) (m_data m + (off + sz))).
      split; [simpl; rewrite take_app_le by lia|split; [|done]].
      * destruct (Z.leb_spec sz (Z.of_nat (length (a ++ chain_bytes r)))) as [_|Hb];
          [done|rewrite length_app in Hb; lia].
      * exists ((x, m) :: r), (off + sz). split.
        -- split_and!; try done; simpl; lia.
        -- unfold chain_bytes. simpl. rewrite !drop_app_le by lia. f_equal.
           subst a. rewrite drop_drop. f_equal. lia.
    + assert (c = m_len m - off) as -> by lia.
      assert (take (Z.to_nat (m_len m - off)) a = a) as -> by (apply take_ge; lia).
      destruct (Hnext (md_at md (Some x) (m_data m + (off + (m_len m - off)))) (tgt_write t a)
        (sz - (m_len m - off)) k) as (md' & E' & Hh' & Ht' & Hl'); try done; try lia.
      { simpl. lia. }
      { by apply get_type_write. }
      { apply tgt_fits_write; [lia|]. by replace (Z.of_nat (length a) + (sz - (m_len m - off))) with sz by lia. }
      exists md'. rewrite E', length_app. split; [|split; [|done]].
      * do 3 f_equal.
        -- f_equal. destruct (Z.leb_spec (sz - (m_len m - off)) (Z.of_nat (length (chain_bytes r)))),
             (Z.leb_spec sz (Z.of_nat (length a + length (chain_bytes r)))); (done || lia).
        -- rewrite (take_app_ge a) by lia. rewrite tgt_write_app.
           ++ do 3 f_equal. lia.
           ++ destruct t as [[o buf]|]; [|done]. simpl in *. rewrite length_take. lia.
      * rewrite drop_app_ge by lia. by replace (Z.to_nat sz - length a)%nat
          with (Z.to_nat (sz - (m_len m - off))) by lia.
Qed.
End Get.

Lemma md_get_mem_run h md rest target sz type :
  md_holds h md rest -> 0 <= sz < 2 ^ 64 ->
  target = None \/ type = MB_MSYSTEM \/ type = MB_MINLINE ->
  (forall buf, target = Some buf -> sz <= Z.of_nat (length buf)) ->
  exists md', md_get_mem md target sz type h =
      Some ((if sz <=? Z.of_nat (length rest) then 0 else EBADRPC, md',
             splice 0 (take (Z.to_nat sz) rest) <$> target), h) /\
    md_holds h md' (drop (Z.to_nat sz) rest) /\ md_top md' = md_top md /\
    md_len md' = if sz <=? Z.of_nat (length rest) then u64 (md_len md + sz) else md_len md.
Proof.
  intros (ls & off & Hrep & <-) Hsz Hty Hfit. pose proof Hrep as (Hc & Hnd & _).
  pose proof (chain_length _ _ _ Hc Hnd) as Hln.
  unfold md_get_mem. mstep.
  destruct (get_loop_run h ls (2 * size (h_mem h) + 2) md off ((fun b => (O, b)) <$> target) sz type)
    as (md1 & E & Hh & Ht & Hl); try done.
  { lia. }
  { destruct target; [right|by left]. by destruct Hty. }
  { destruct target as [buf|]; [|done]. simpl. specialize (Hfit buf eq_refl). lia. }
  rewrite (bind_some _ _ _ _ _ E).
  assert (snd <$> tgt_write ((fun b => (O, b)) <$> target)
    (take (Z.to_nat sz) (drop (Z.to_nat off) (chain_bytes ls))) =
    splice 0 (take (Z.to_nat sz) (drop (Z.to_nat off) (chain_bytes ls))) <$> target) as Et
    by (by destruct target).
  destruct (Z.leb_spec sz (Z.of_nat (length (drop (Z.to_nat off) (chain_bytes ls)))));
    simpl; rewrite Et; [exists (mk_mdchain (md_top md1) (md_cur md1) (md_pos md1) (u64 (md_len md1 + sz)))
      | exists md1]; (split; [done|]); split_and!; try done.
  simpl. by rewrite Hl.
Qed.

(** A converting read of [n] bytes. *)
Lemma decoded_run h md rest n dec :
  md_holds h md rest -> (0 < n < 16)%nat ->
  exists md', decoded dec (md_get_mem md (Some (replicate n 0)) (Z.of_nat n) MB_MINLINE) h =
    (if Z.of_nat n <=? Z.of_nat (length rest)
     then Some ((0, md', Some (dec (take n rest))), h)
     else Some ((EBADRPC, md', None), h)) /\
    md_holds h md' (drop n rest) /\ md_top md' = md_top md /\
    md_len md' = if Z.of_nat n <=? Z.of_nat (length rest) then u64 (md_len md + Z.of_nat n) else md_len md.
Proof.
  intros Hh Hn.
  destruct (md_get_mem_run h md rest (Some (replicate n 0)) (Z.of_nat n) MB_MINLINE Hh)
    as (md' & E & Hh' & Ht & Hl); try done; [lia|by right; right| |].
  { intros buf [= <-]. rewrite length_replicate. lia. }
  exists md'. unfold decoded. rewrite (bind_some _ _ _ _ _ E). rewrite Nat2Z.id in *.
  split_and!; try done.
  destruct (Z.leb_spec (Z.of_nat n) (Z.of_nat (length rest))); simpl; [|done].
  rewrite splice_full; [done|]. rewrite length_take, length_replicate. lia.
Qed.

(** ** Starting to build and to read *)

Section Init.
Context `{Platform}.

Lemma mb_init_run h : heap_ok h ->
  exists h' , heap_ok h' /\ (mem_avail h -> mem_avail h') /\ frame h h' [] /\
    ((exists mb, mb_init h = Some ((0, Some mb), h') /\
        mb_holds h' mb [] /\ mb_count mb = 0 /\ mb_len mb = 0 /\ mb_top mb = Some (h_next h)) \/
     (mb_init h = Some ((ENOBUFS, None), h') /\ ~ mem_avail h)).
Proof.
  intros Hh. unfold mb_init. pose proof getpagesize_range as Hp.
  destruct (mbuf_gethdr_run h Hh) as (r & h1 & E & Hav & [[-> Hal]|[-> Hal]]);
    rewrite (bind_some _ _ _ _ _ E); simpl; exists h1.
  - assert (h_mem h !! h_next h = None) as Hfr by by apply heap_ok_fresh.
    pose proof (alloc_at_ok _ _ _ Hh Hal) as Hh1. destruct Hal as (Em & _ & _).
    set (m := fresh_mbuf (h_next h) getpagesize HDR_FLAGS) in *.
    assert (mbuf_ok m) as Hok by (apply fresh_mbuf_ok; lia).
    assert (h_mem h1 !! h_next h = Some m) as Hl by (by rewrite Em, lookup_insert_eq).
    split_and!; [done|done| |].
    + intros y _ [v Hv]. rewrite Em. apply lookup_insert_ne. intros <-. congruence.
    + left. unfold mb_initm. eexists.
      erewrite bind_some by (erewrite bind_some by (by apply mbuf_trailingspace_run); apply mret_run).
      split; [done|]. split; [|done]. exists [], (h_next h), m. split; [|done].
      split; try done; simpl; try by constructor. apply NoDup_singleton.
  - pose proof (alloc_failed_ok _ _ Hh Hal) as Hh1. destruct Hal as (Em & _ & _ & Hna).
    split_and!; try done; [|by right]. intros y _ _. by rewrite Em.
Qed.

Lemma md_initm_run h mb bs :
  mb_holds h mb bs ->
  exists md, md_initm (mb_top mb) h = Some (md, h) /\ md_holds h md bs /\
    md_top md = mb_top mb /\ md_len md = 0.
Proof.
  intros (ls & x & m & [Hc Hnd Hok _ _ _] & <-).
  assert (exists y n r, ls ++ [(x, m)] = (y, n) :: r) as (y & n & r & E).
  { destruct ls as [|[y n] r]; eauto. }
  rewrite E in *. pose proof Hc as (Ht & Hy & _). rewrite Ht.
  exists (mk_mdchain (Some y) (Some y) (m_data n) 0). unfold md_initm.
  mstep. split_and!; try done. exists ((y, n) :: r), 0. split; [|done].
  apply list.Forall_cons in Hok as Hok'. destruct Hok' as [[_ ? _ _] _].
  unfold md_rep. rewrite Ht in Hc. split_and!; try done; simpl in *; lia.
Qed.
End Init.

(** ** Buffers handed out to the caller *)

Section Room.
Context `{Platform}.

(** Writing past the end of the buffer of an mbuf is undefined. *)
Lemma write_bytes_overrun h l m off bs :
  h_mem h !! l = Some m -> Z.of_nat (length (m_buf m)) < off + Z.of_nat (length bs) ->
  write_bytes (Some l) (m_data m + off) bs h = None.
Proof.
  intros Hl Hb. unfold write_bytes. erewrite bind_some by (by apply deref_run).
  replace (m_data m + off - m_data m) with off by lia.
  destruct (Z.leb_spec (off + Z.of_nat (length bs)) (Z.of_nat (length (m_buf m)))); [lia|].
  by rewrite andb_false_r.
Qed.

(** [mb_put_mem] trusts [mb_mleft]: when it claims more room than there is, a
    put that uses the claimed room leaves the buffer. *)
Lemma put_overrun h mb l m src sz type :
  h_mem h !! l = Some m -> mb_cur mb = Some l -> mbuf_ok m ->
  m_maxlen m - m_len m < sz <= mb_mleft mb -> 0 < sz -> put_args_ok src sz type ->
  mb_put_mem mb src sz type h = None.
Proof.
  intros Hl Hcur [_ ? ? Hb] Hsz Hpos Hargs. unfold mb_put_mem. mstep. rewrite Hcur.
  replace (2 * size (h_mem h) + 4)%nat with (S (2 * size (h_mem h) + 3)) by lia.
  cbn [mb_put_mem_loop]. destruct (Z.ltb_spec 0 sz); [simpl|lia].
  destruct (Z.eqb_spec (mb_mleft mb) 0); [lia|].
  assert ((if sz <? mb_mleft mb then sz else mb_mleft mb) = sz) as ->.
  { destruct (Z.ltb_spec sz (mb_mleft mb)); lia. }
  mstep. mstep. rewrite (put_chunk_ok _ _ _ sz Hargs) by lia.
  pose proof (length_put_bytes _ _ _ Hargs) as Hlen.
  unfold mbind, M_bind. rewrite (write_bytes_overrun h l m); [done|done|]. lia.
Qed.

Lemma mbuf_getcluster_nomem h n r : h_malloc h = false :: r ->
  mbuf_getcluster MBUF_WAITOK MBUF_TYPE_DATA n None h =
    Some ((ENOMEM, None), mk_heap (h_mem h) (h_next h) r (h_extfreed h)).
Proof.
  intros E. unfold mbuf_getcluster, smb_mbuf_get, malloc, mbind, M_bind, mret, M_ret. simpl.
  by rewrite E.
Qed.

Lemma put_loop_nomem k mb h x m src sz type r :
  h_mem h !! x = Some m -> m_next m = None -> h_malloc h = false :: r -> 0 < sz ->
  mb_put_mem_loop (S k) mb (Some x) 0 src sz type h =
    Some ((ENOBUFS, mb), mk_heap (h_mem h) (h_next h) r (h_extfreed h)).
Proof.
  intros Hx Hn Hm Hsz. cbn [mb_put_mem_loop]. destruct (Z.ltb_spec 0 sz); [simpl|lia].
  erewrite bind_some by (by apply mbuf_next_run). rewrite Hn. unfold smb_mbuf_getm.
  erewrite bind_some by (erewrite bind_some by (by apply mbuf_getcluster_nomem); apply mret_run).
  done.
Qed.

(** [mb_getbuffer] when the current mbuf has too little room. *)
Lemma mb_getbuffer_grow h mb ls x m sz :
  heap_ok h -> mem_avail h -> mb_rep h mb ls x m ->
  mb_mleft mb < sz -> 2 * mb_mleft mb + sz < 2 ^ 64 ->
  exists p mb' h' l n, mb_getbuffer mb sz h = Some ((p, mb'), h') /\
    p = m_data n /\ mb_cur mb' = Some l /\ h_mem h' !! l = Some n /\ mbuf_ok n /\
    m_len n = 0 /\ m_maxlen n = mb_mleft mb + sz /\ mb_mleft mb' = 2 * mb_mleft mb + sz.
Proof.
  intros Hh Ha Hr Hsm Hb. pose proof (rep_last _ _ _ _ _ Hr) as [Hx _].
  pose proof (rep_last_ok _ _ _ _ _ Hr) as [_ Hl Hmx _].
  pose proof (rep_mleft _ _ _ _ _ Hr) as Hml.
  unfold mb_getbuffer. cbn [mb_getbuffer_loop].
  destruct (Z.ltb_spec (mb_mleft mb) sz); [|lia]. rewrite u64_small by lia.
  destruct (mbuf_getcluster_run h (mb_mleft mb + sz) Hh ltac:(lia))
    as (r & h1 & E & _ & [[-> Hal]|[_ (_ & _ & _ & ?)]]); [|done].
  rewrite (bind_some _ _ _ _ _ E). simpl. set (l := h_next h) in *.
  set (n := fresh_mbuf l (mb_mleft mb + sz) HDR_FLAGS) in *.
  assert (mbuf_ok n) as Hn by (apply fresh_mbuf_ok; lia).
  assert (h_mem h !! l = None) as Hfr by by apply heap_ok_fresh.
  destruct Hal as (Em & _ & _). assert (x <> l) as Hxl by (intros ->; congruence).
  assert (h_mem h1 !! l = Some n) as Hl1 by by rewrite Em, lookup_insert_eq.
  erewrite bind_some by (by apply modify_run).
  match goal with |- context [upd h1 l ?t] => change (upd h1 l t) with (upd h1 l n) end.
  assert (upd h1 l n = h1) as ->.
  { destruct h1. unfold upd. simpl in *. by rewrite insert_id. }
  rewrite (rep_cur _ _ _ _ _ Hr).
  assert (h_mem h1 !! x = Some m) as Hx1 by by rewrite Em, lookup_insert_ne.
  destruct (mbuf_setnext_run h1 x m l n Hxl Hx1 Hl1 Hn) as (fx & fl & Es).
  rewrite (bind_some _ _ _ _ _ Es). set (h2 := upd _ x _).
  assert (h_mem h2 !! l = Some (set_m_flags n fl)) as Hl2.
  { subst h2. simpl. rewrite lookup_insert_ne by done. apply lookup_insert_eq. }
  assert (mbuf_ok (set_m_flags n fl)) as Hn2 by (destruct Hn; by split).
  erewrite bind_some by (by apply mbuf_trailingspace_run).
  cbn [mb_getbuffer_loop mb_mleft]. simpl. rewrite Z.sub_0_r, u64_small by lia.
  destruct (Z.ltb_spec (mb_mleft mb + (mb_mleft mb + sz)) sz); [lia|].
  mstep. mstep. eexists _, _, h2, l, (set_m_flags n fl).
  split; [apply mret_run|]. simpl. split_and!; try done; lia.
Qed.
End Room.
