(* ===== verification/MchainTheorems.v ===== *)
(** * Correctness of the mbuf chains

    The put and get routines are shown memory safe and functionally correct
    against the abstract contents of a chain (a byte string), and inverse to
    each other.  The last section shows two ways in which the bookkeeping of
    [mb_mleft] gets out of step with the mbuf it describes. *)

From S2P Require Import Prelude Mbuf MbufFacts Mchain MchainFacts.
Import Errno.

Section Correct.
Context `{Platform}.

(** ** Round trip of integer fields *)

Inductive shape := U8 | U16le | U16be | U32le | U32be | U64le | U64be.

Definition shape_width (s : shape) : nat :=
  match s with U8 => 1 | U16le | U16be => 2 | U32le | U32be => 4 | U64le | U64be => 8 end.

Definition put_field (mb : mbchain) (f : shape * Z) : MH (Z * mbchain) :=
  let '(s, x) := f in
  match s with
  | U8 => mb_put_uint8 mb x
  | U16le => mb_put_uint16le mb x
  | U16be => mb_put_uint16be mb x
  | U32le => mb_put_uint32le mb x
  | U32be => mb_put_uint32be mb x
  | U64le => mb_put_uint64le mb x
  | U64be => mb_put_uint64be mb x
  end.

Definition get_field (md : mdchain) (s : shape) : MH (Z * mdchain * option Z) :=
  match s with
  | U8 => decoded le_value (md_get_uint8 md (Some (replicate 1 0)))
  | U16le => md_get_uint16le md
  | U16be => md_get_uint16be md
  | U32le => md_get_uint32le md
  | U32be => md_get_uint32be md
  | U64le => md_get_uint64le md
  | U64be => md_get_uint64be md
  end.

(** A packet builder: puts the fields in turn, stops at the first error. *)
Fixpoint put_fields (mb : mbchain) (fs : list (shape * Z)) : MH (Z * mbchain) :=
  match fs with
  | [] => mret (0, mb)
  | f :: r =>
      v ← put_field mb f;
      let '(e, mb') := v in
      if negb (e =? 0) then mret (e, mb') else put_fields mb' r
  end.

(** A packet parser: gets fields of the given shapes in turn. *)
Fixpoint get_fields (md : mdchain) (ss : list shape) : MH (Z * mdchain * list Z) :=
  match ss with
  | [] => mret (0, md, [])
  | s :: r =>
      v ← get_field md s;
      let '(e, md', x) := v in
      match x with
      | Some x => w ← get_fields md' r; let '(e', md2, xs) := w in mret (e', md2, x :: xs)
      | None => mret (e, md', [])
      end
  end.

Definition field_bytes (f : shape * Z) : list Z :=
  let '(s, x) := f in
  match s with
  | U8 | U16le | U32le | U64le => le_bytes (shape_width s) x
  | U16be | U32be | U64be => be_bytes (shape_width s) x
  end.

(** What a field of that width can carry. *)
Definition field_value (f : shape * Z) : Z := f.2 `mod` 256 ^ Z.of_nat (shape_width f.1).

(** ** Correctness of the put and get routines *)

(** C25: [mb_put_mem] appends.  On a well-formed chain, with any of the copy types and a
    source at least as long as the size, it never leaves a buffer or follows a
    bad pointer; when memory can be had it returns 0, the contents of the chain
    are extended by exactly the source bytes (zeros for [MB_MZERO]), the chain
    stays well formed and both byte counters advance by the size modulo 2^64;
    the only error is [ENOBUFS], and only when [malloc] fails.  Mbufs outside
    of the chain are untouched. *)
Theorem mb_put_mem_appends h mb bs src sz type :
  heap_ok h -> mb_holds h mb bs -> put_args_ok src sz type ->
  exists e mb' h', mb_put_mem mb src sz type h = Some ((e, mb'), h') /\
    heap_ok h' /\ (mem_avail h -> mem_avail h' /\ e = 0) /\
    (forall ls, chain (h_mem h) (mb_top mb) ls -> frame h h' ls) /\
    ((e = 0 /\ mb_holds h' mb' (bs ++ put_bytes src sz type) /\ mb_top mb' = mb_top mb /\
      mb_count mb' = u64 (mb_count mb + sz) /\ mb_len mb' = u64 (mb_len mb + sz)) \/
     (e = ENOBUFS /\ ~ mem_avail h)).
Proof.
  intros Hh (ls & x & m & Hr & <-) Hargs.
  destruct (mb_put_mem_run h mb ls x m src sz type Hh Hr Hargs)
    as (e & mb' & h' & E & Hh' & Hav & Hf & _ & Hcase).
  exists e, mb', h'. split; [done|]. split; [done|]. split; [|split].
  - intros Ha. split; [auto|]. by destruct Hcase as [[? _]|[_ ?]].
  - intros ls' Hc y Hy Hs. apply Hf; [|done]. intros Hin. apply Hy.
    rewrite (chain_det _ _ _ _ Hc (rep_chain _ _ _ _ _ Hr)), map_app.
    apply elem_of_app. by right.
  - destruct Hcase as [[-> Hx]|Hx]; [left|by right]. split; [done|].
    destruct Hx as (ls' & x' & m' & Hr' & Hb & Ht & Hc & Hl).
    split_and!; try done. by exists ls', x', m'.
Qed.

(** [md_get_mem] reads.  On a well-formed reader with [rest] left, it never
    reads outside of the valid bytes of an mbuf; it returns 0 and the first
    [size] bytes of [rest] when there are that many, and then [md_len] advances
    by [size]; otherwise it returns [EBADRPC], leaves [md_len] alone, and every
    byte that was left has been copied and consumed.  The reader stays well
    formed, at the remaining bytes, in both cases. *)
Theorem md_get_mem_reads h md rest buf sz type :
  md_holds h md rest -> 0 <= sz <= Z.of_nat (length buf) -> sz < 2 ^ 64 ->
  type = MB_MSYSTEM \/ type = MB_MINLINE ->
  exists md', md_get_mem md (Some buf) sz type h =
      Some ((if sz <=? Z.of_nat (length rest) then 0 else EBADRPC, md',
             Some (splice 0 (take (Z.to_nat sz) rest) buf)), h) /\
    md_holds h md' (drop (Z.to_nat sz) rest) /\ md_top md' = md_top md /\
    md_len md' = if sz <=? Z.of_nat (length rest) then u64 (md_len md + sz) else md_len md.
Proof.
  intros Hh Hsz Hb Hty.
  apply (md_get_mem_run h md rest (Some buf) sz type); try done; [lia|by right|].
  intros ? [= <-]. lia.
Qed.

Lemma length_field_bytes f : length (field_bytes f) = shape_width f.1.
Proof. destruct f as [[] x]; simpl; by rewrite ?length_le_bytes, ?length_be_bytes. Qed.

Lemma put_field_run h mb bs f : heap_ok h -> mem_avail h -> mb_holds h mb bs ->
  exists mb' h', put_field mb f h = Some ((0, mb'), h') /\ heap_ok h' /\ mem_avail h' /\
    mb_holds h' mb' (bs ++ field_bytes f) /\ mb_top mb' = mb_top mb.
Proof.
  intros Hh Ha (ls & x & m & Hr & <-).
  assert (put_field mb f = mb_put_mem mb (field_bytes f) (Z.of_nat (shape_width f.1)) MB_MSYSTEM) as ->
    by (by destruct f as [[] ?]).
  assert (put_args_ok (field_bytes f) (Z.of_nat (shape_width f.1)) MB_MSYSTEM) as Hargs.
  { split; [destruct f as [[] ?]; simpl; lia|right]. split; [by left|].
    rewrite length_field_bytes. lia. }
  destruct (mb_put_mem_run h mb ls x m _ _ _ Hh Hr Hargs)
    as (e & mb' & h' & E & Hh' & Hav & _ & _ & [[-> Hx]|[_ ?]]); [|done].
  destruct Hx as (ls' & x' & m' & Hr' & Hb & Ht & _).
  exists mb', h'. split_and!; auto. exists ls', x', m'. split; [done|].
  rewrite Hb. f_equal. unfold put_bytes. simpl. rewrite Nat2Z.id. apply take_ge.
  rewrite length_field_bytes. lia.
Qed.

Lemma put_fields_run fs : forall h mb bs, heap_ok h -> mem_avail h -> mb_holds h mb bs ->
  exists mb' h', put_fields mb fs h = Some ((0, mb'), h') /\ heap_ok h' /\ mem_avail h' /\
    mb_holds h' mb' (bs ++ concat (map field_bytes fs)) /\ mb_top mb' = mb_top mb.
Proof.
  induction fs as [|f r IH]; intros h mb bs Hh Ha Hm; simpl.
  - exists mb, h. by rewrite app_nil_r.
  - destruct (put_field_run h mb bs f Hh Ha Hm) as (mb1 & h1 & E & Hh1 & Ha1 & Hm1 & Ht1).
    rewrite (bind_some _ _ _ _ _ E). simpl.
    destruct (IH h1 mb1 _ Hh1 Ha1 Hm1) as (mb2 & h2 & E2 & ? & ? & Hm2 & Ht2).
    exists mb2, h2. rewrite app_assoc. split_and!; try done. congruence.
Qed.

Lemma get_field_run h md f rest : md_holds h md (field_bytes f ++ rest) ->
  exists md', get_field md f.1 h = Some ((0, md', Some (field_value f)), h) /\ md_holds h md' rest.
Proof.
  intros Hh. pose proof (length_field_bytes f) as Hl.
  set (dec := match f.1 with U16be | U32be | U64be => be_value | _ => le_value end).
  assert (get_field md f.1 = decoded dec
    (md_get_mem md (Some (replicate (shape_width f.1) 0)) (Z.of_nat (shape_width f.1)) MB_MINLINE)) as ->
    by (by destruct f as [[] ?]).
  destruct (decoded_run h md _ (shape_width f.1) dec Hh) as (md' & E & Hh' & _).
  { destruct f as [[] ?]; simpl; lia. }
  exists md'. rewrite E, length_app.
  destruct (Z.leb_spec (Z.of_nat (shape_width f.1)) (Z.of_nat (length (field_bytes f) + length rest))); [|lia].
  rewrite <- Hl, take_app_length. rewrite <- Hl, drop_app_length in Hh'. split; [|done].
  assert (dec (field_bytes f) = field_value f) as ->; [|done].
  subst dec. destruct f as [[] x]; (apply le_value_bytes || apply be_value_bytes).
Qed.

Lemma get_fields_run fs : forall h md rest,
  md_holds h md (concat (map field_bytes fs) ++ rest) ->
  exists md', get_fields md (map fst fs) h = Some ((0, md', map field_value fs), h) /\ md_holds h md' rest.
Proof.
  induction fs as [|f r IH]; intros h md rest Hh; simpl.
  - by exists md.
  - simpl in Hh. rewrite <- app_assoc in Hh.
    destruct (get_field_run h md f _ Hh) as (md1 & E & Hh1).
    rewrite (bind_some _ _ _ _ _ E). simpl.
    destruct (IH h md1 rest Hh1) as (md2 & E2 & Hh2).
    rewrite (bind_some _ _ _ _ _ E2). by exists md2.
Qed.

(** Build, then parse: on a fresh chain, putting any list of integer fields (8 to
    64 bits, either byte order) and reading fields of the same shapes back from
    the first mbuf gives the same values, reduced to the width of their field,
    leaves nothing unread, and neither run goes wrong. *)
Theorem put_get_roundtrip h fs : heap_ok h -> mem_avail h ->
  exists mb0 h0 mb h1 md md', mb_init h = Some ((0, Some mb0), h0) /\
    put_fields mb0 fs h0 = Some ((0, mb), h1) /\
    md_initm (mb_top mb) h1 = Some (md, h1) /\
    get_fields md (map fst fs) h1 = Some ((0, md', map field_value fs), h1) /\
    md_holds h1 md' [].
Proof.
  intros Hh Ha.
  destruct (mb_init_run h Hh) as (h0 & Hh0 & Hav & _ & [(mb0 & E0 & Hm0 & _)|[_ ?]]); [|done].
  destruct (put_fields_run fs h0 mb0 [] Hh0 (Hav Ha) Hm0) as (mb & h1 & E1 & Hh1 & Ha1 & Hm1 & _).
  destruct (md_initm_run h1 mb _ Hm1) as (md & E2 & Hmd & _).
  destruct (get_fields_run fs h1 md []) as (md' & E3 & Hmd').
  { by rewrite app_nil_r. }
  exists mb0, h0, mb, h1, md, md'. done.
Qed.

(** ** Where the bookkeeping breaks *)

(** [mb_getbuffer] (lines 258-271) overstates the room it makes.  When the
    current mbuf has some room left, but less than asked for, the new current
    mbuf has [mb_mleft + size] bytes of room, but [mb_mleft] is set to
    [2 * mb_mleft + size]; a caller that then puts as many bytes as [mb_mleft]
    admits writes behind the end of the buffer. *)
Theorem mb_getbuffer_overstates_room h mb bs sz src type :
  heap_ok h -> mem_avail h -> mb_holds h mb bs ->
  0 < mb_mleft mb < sz -> 2 * mb_mleft mb + sz < 2 ^ 64 ->
  put_args_ok src (2 * mb_mleft mb + sz) type ->
  exists p mb' h', mb_getbuffer mb sz h = Some ((p, mb'), h') /\
    mbuf_trailingspace (mb_cur mb') h' = Some (mb_mleft mb + sz, h') /\
    mb_mleft mb' = 2 * mb_mleft mb + sz /\
    mb_put_mem mb' src (mb_mleft mb') type h' = None.
Proof.
  intros Hh Ha (ls & x & m & Hr & _) Hml Hb Hargs.
  destruct (mb_getbuffer_grow h mb ls x m sz Hh Ha Hr) as (p & mb' & h' & l & n & E & Hp & Hc & Hl & Hok & Hl0 & Hmx & Hm);
    [lia..|].
  exists p, mb', h'. split_and!; try done.
  - rewrite Hc, (mbuf_trailingspace_run h' l n) by done. do 2 f_equal. lia.
  - rewrite Hm. apply (put_overrun h' mb' l n); try done; lia.
Qed.

(** A failed [mb_put_mem] must not be followed by another one.  When the data
    does not fit the current mbuf and no new one can be had, the routine has
    filled the current mbuf before it returns [ENOBUFS], but [mb_mleft] still
    counts the room that was filled: putting one more byte writes behind the
    end of the buffer. *)
Theorem mb_put_mem_after_enobufs h mb bs src sz :
  heap_ok h -> mb_holds h mb bs -> put_args_ok src sz MB_MSYSTEM ->
  0 < mb_mleft mb < sz -> head (h_malloc h) = Some false ->
  exists mb' h', mb_put_mem mb src sz MB_MSYSTEM h = Some ((ENOBUFS, mb'), h') /\
    mb_mleft mb' = mb_mleft mb /\
    mbuf_trailingspace (mb_cur mb') h' = Some (0, h') /\
    mb_put_uint8 mb' 0 h' = None.
Proof.
  intros Hh (ls & x & m & Hr & _) Hargs Hml Hm.
  pose proof (rep_last _ _ _ _ _ Hr) as [Hx Hnx]. pose proof (rep_last_ok _ _ _ _ _ Hr) as Hok.
  pose proof (rep_mleft _ _ _ _ _ Hr) as Hleft. pose proof (rep_cur _ _ _ _ _ Hr) as Hcur.
  destruct (h_malloc h) as [|b r] eqn:Em; [done|]. injection Hm as ->.
  unfold mb_put_mem. mstep. rewrite Hcur, Hleft.
  replace (2 * size (h_mem h) + 4)%nat with (S (S (2 * size (h_mem h) + 2))) by lia.
  rewrite put_loop_copy by (done || lia). rewrite Z.min_r by lia.
  set (c := m_maxlen m - m_len m) in *. replace (c - c) with 0 by lia.
  assert (put_args_ok src c MB_MSYSTEM) as Hc by (eapply put_args_chunk; [done|lia]).
  pose proof (length_put_bytes _ _ _ Hc) as Hlen.
  set (m1 := filled m _). assert (mbuf_ok m1) as Hok1 by (apply filled_ok; [done|lia]).
  assert (h_mem (upd h x m1) !! x = Some m1) as Hx1 by apply lookup_insert_eq.
  rewrite (put_loop_nomem _ _ (upd h x m1) x m1 _ _ _ r) by (done || lia).
  eexists _, _. split; [done|]. simpl. rewrite Hcur. split_and!; [lia| |].
  - erewrite mbuf_trailingspace_run by done. subst m1. simpl. do 2 f_equal. lia.
  - apply (put_overrun _ _ x m1); simpl; try done; [subst m1; simpl; lia|].
    split; [lia|right]. split; [by left|]. simpl. lia.
Qed.
End Correct.

(** A chain holding [1; 2; 3; 4; 5] in two mbufs, the second with room for 8. *)
Definition demo_mbuf (l : loc) (n : nat) (bs : list Z) (nx : option loc) : smb_mbuf :=
  mk_mbuf MBUF_TYPE_DATA 0 (Z.of_nat n) (Z.of_nat (length bs)) 0 (4096 * (Z.of_nat l + 1)) nx None 0
    (bs ++ replicate (n - length bs) 170).
Definition demo_heap : heap :=
  mk_heap {[ 0%nat := demo_mbuf 0 3 [1; 2; 3] (Some 1%nat); 1%nat := demo_mbuf 1 10 [4; 5] None ]} 2%nat [] [].
Definition demo_mb : mbchain := mk_mbchain (Some 0%nat) (Some 1%nat) 8 5 5.
Definition demo_md : mdchain := mk_mdchain (Some 0%nat) (Some 0%nat) 4097 0.

Lemma demo_heap_ok : heap_ok demo_heap.
Proof.
  intros l [m Hm]. unfold demo_heap in Hm. simpl in *.
  destruct (decide (l = 0%nat)) as [->|H0]; [lia|].
  destruct (decide (l = 1%nat)) as [->|H1]; [lia|].
  by rewrite lookup_insert_ne, lookup_singleton_ne in Hm by done.
Qed.

Lemma demo_chain_ok :
  NoDup [0%nat; 1%nat] /\
  Forall (fun xm : loc * smb_mbuf => mbuf_ok xm.2)
    [(0%nat, demo_mbuf 0 3 [1; 2; 3] (Some 1%nat)); (1%nat, demo_mbuf 1 10 [4; 5] None)].
Proof.
  split; [apply NoDup_cons_2; [by intros ?%list_elem_of_singleton|apply NoDup_singleton]|].
  constructor; [split; simpl; done || lia|].
  constructor; [split; simpl; done || lia|constructor].
Qed.

Lemma demo_mb_holds : mb_holds demo_heap demo_mb [1; 2; 3; 4; 5].
Proof.
  destruct demo_chain_ok as [Hnd Hok].
  exists [(0%nat, demo_mbuf 0 3 [1; 2; 3] (Some 1%nat))], 1%nat, (demo_mbuf 1 10 [4; 5] None).
  split; [|done]. by split.
Qed.

Lemma demo_md_holds : md_holds demo_heap demo_md [2; 3; 4; 5].
Proof.
  destruct demo_chain_ok as [Hnd Hok].
  exists [(0%nat, demo_mbuf 0 3 [1; 2; 3] (Some 1%nat)); (1%nat, demo_mbuf 1 10 [4; 5] None)], 1.
  split; [|done]. by split_and!.
Qed.

Lemma mb_put_mem_appends_witness :
  exists e mb' h', mb_put_mem demo_mb [9; 8; 7; 6; 5; 4; 3; 2; 1; 0; 255] 11 MB_MSYSTEM demo_heap
      = Some ((e, mb'), h') /\
    heap_ok h' /\ (mem_avail demo_heap -> mem_avail h' /\ e = 0) /\
    (forall ls, chain (h_mem demo_heap) (mb_top demo_mb) ls -> frame demo_heap h' ls) /\
    ((e = 0 /\ mb_holds h' mb' ([1; 2; 3; 4; 5] ++ [9; 8; 7; 6; 5; 4; 3; 2; 1; 0; 255]) /\
      mb_top mb' = Some 0%nat /\ mb_count mb' = 16 /\ mb_len mb' = 16) \/
     (e = ENOBUFS /\ ~ mem_avail demo_heap)).
Proof.
  apply (mb_put_mem_appends demo_heap demo_mb [1; 2; 3; 4; 5]
    [9; 8; 7; 6; 5; 4; 3; 2; 1; 0; 255] 11 MB_MSYSTEM).
  - apply demo_heap_ok.
  - apply demo_mb_holds.
  - split; [lia|]. right. split; [by left|]. simpl. lia.
Defined.

Lemma md_get_mem_reads_witness :
  exists md', md_get_mem demo_md (Some [0; 0; 0]) 3 MB_MSYSTEM demo_heap =
      Some ((0, md', Some [2; 3; 4]), demo_heap) /\
    md_holds demo_heap md' [5] /\ md_top md' = Some 0%nat /\ md_len md' = 3.
Proof.
  apply (md_get_mem_reads demo_heap demo_md [2; 3; 4; 5] [0; 0; 0] 3 MB_MSYSTEM).
  - apply demo_md_holds.
  - simpl. lia.
  - lia.
  - by left.
Defined.

Lemma mb_getbuffer_overstates_room_witness :
  exists p mb' h', mb_getbuffer demo_mb 20 demo_heap = Some ((p, mb'), h') /\
    mbuf_trailingspace (mb_cur mb') h' = Some (28, h') /\ mb_mleft mb' = 36 /\
    mb_put_mem mb' [] (mb_mleft mb') MB_MZERO h' = None.
Proof.
  apply (mb_getbuffer_overstates_room demo_heap demo_mb [1; 2; 3; 4; 5] 20 [] MB_MZERO).
  - apply demo_heap_ok.
  - constructor.
  - apply demo_mb_holds.
  - simpl. lia.
  - simpl. lia.
  - split; [simpl; lia|by left].
Defined.

Definition demo_heap_nomem : heap :=
  mk_heap (h_mem demo_heap) (h_next demo_heap) [false] [].

Lemma mb_put_mem_after_enobufs_witness :
  exists mb' h', mb_put_mem demo_mb [1; 2; 3; 4; 5; 6; 7; 8; 9] 9 MB_MSYSTEM demo_heap_nomem
      = Some ((ENOBUFS, mb'), h') /\
    mb_mleft mb' = 8 /\ mbuf_trailingspace (mb_cur mb') h' = Some (0, h') /\
    mb_put_uint8 mb' 0 h' = None.
Proof.
  apply (mb_put_mem_after_enobufs demo_heap_nomem demo_mb [1; 2; 3; 4; 5] [1; 2; 3; 4; 5; 6; 7; 8; 9] 9).
  - apply demo_heap_ok.
  - apply (mb_holds_mem demo_heap); [done|apply demo_mb_holds].
  - split; [lia|right]. split; [by left|]. simpl. lia.
  - simpl. lia.
  - done.
Defined.

Lemma put_get_roundtrip_witness :
  exists mb0 h0 mb h1 md md', mb_init heap0 = Some ((0, Some mb0), h0) /\
    put_fields mb0 [(U32le, 4276993775); (U16be, 70000)] h0 = Some ((0, mb), h1) /\
    md_initm (mb_top mb) h1 = Some (md, h1) /\
    get_fields md [U32le; U16be] h1 = Some ((0, md', [4276993775; 4464]), h1) /\ md_holds h1 md' [].
Proof.
  apply (put_get_roundtrip heap0 [(U32le, 4276993775); (U16be, 70000)]); auto with smb.
Defined.
