(* ===== verification/Chain.v ===== *)
(** * Message chains: the interface between the wire formats and the mbufs

    The code that builds and parses SMB messages sees an mbuf chain only
    through the [mb_*] and [md_*] calls.  In the kernel these run on the mbufs
    of the network stack, in userland on those of [lib/smb/mbuf.c].  [Writer]
    and [Reader] are the calls the message code makes, [WriterLaws] and
    [ReaderLaws] what it relies on; [ChainMbuf.v] shows that the userland chains
    keep the laws. *)

From S2P Require Import Prelude.
Import Errno.

(** ** Reading *)

(** [r_get d n] is [md_get_mem] of [n] bytes into a buffer (and, with the bytes
    decoded, [md_get_uint16le] and its kin); [r_skip] is [md_get_mem] with a
    NULL target; [r_len] is [md_len], [r_done] is [md_done] and [r_null] the
    zeroed struct; [r_shadow d] is [md_shadow_copy] of [d] to a zeroed struct.
    [r_holds s d bs]: the bytes [bs] are left
    to read. *)
Class Reader (S D : Type) := {
  r_null : D;
  r_done : D -> M S D;
  r_get : D -> nat -> M S (Z * D * list Z);
  r_skip : D -> Z -> M S (Z * D);
  r_shadow : D -> D;
  r_len : D -> Z;
  r_holds : S -> D -> list Z -> Prop
}.

Class ReaderLaws (S D : Type) {R : Reader S D} := {
  r_done_null : forall s, r_done r_null s = Some (r_null, s);
  r_shadow_ok : forall s d bs, r_holds s d bs -> r_holds s (r_shadow d) bs;
  r_get_ok : forall s d bs n, r_holds s d bs -> (0 < n <= length bs)%nat -> Z.of_nat n < 2 ^ 64 ->
    exists d', r_get d n s = Some ((0, d', take n bs), s) /\ r_holds s d' (drop n bs) /\
      r_len d' = u64 (r_len d + Z.of_nat n);
  r_get_short : forall s d bs n, r_holds s d bs -> (length bs < n)%nat -> Z.of_nat n < 2 ^ 64 ->
    exists d' xs, r_get d n s = Some ((EBADRPC, d', xs), s) /\ r_holds s d' [] /\ r_len d' = r_len d;
  r_skip_run : forall s d bs n, r_holds s d bs -> 0 <= n < 2 ^ 64 ->
    exists d', r_skip d n s = Some ((if n <=? Z.of_nat (length bs) then 0 else EBADRPC, d'), s) /\
      r_holds s d' (drop (Z.to_nat n) bs) /\
      r_len d' = if n <=? Z.of_nat (length bs) then u64 (r_len d + n) else r_len d
}.

(** ** Writing *)

(** [w_put] and [w_zero] are [mb_put_mem] with [MB_MSYSTEM] and [MB_MZERO],
    [w_reserve] is [mb_reserve] ([None] is NULL), [w_store] and [w_load] access
    the reserved room through the pointer; [w_null] is the zeroed struct.
    [w_ready s]: memory can be had.  [w_holds s w bs]: the chain holds [bs].
    [w_points s w p o n]: [p] is the address of the [n] bytes at offset [o]. *)
Class Writer (S W P : Type) := {
  w_null : W;
  w_done : W -> M S W;
  w_init : M S (Z * option W);
  w_put : W -> list Z -> M S (Z * W);
  w_zero : W -> Z -> M S (Z * W);
  w_reserve : W -> Z -> M S (option P * W);
  w_store : P -> list Z -> M S unit;
  w_load : P -> nat -> M S (list Z);
  w_len : W -> Z;
  w_count : W -> Z;
  w_set_count : W -> Z -> W;
  w_ready : S -> Prop;
  w_holds : S -> W -> list Z -> Prop;
  w_points : S -> W -> P -> nat -> nat -> Prop
}.

(** Bytes have been added to the chain: addresses handed out earlier stay good. *)
Definition w_grown {S W P} `{Writer S W P} (s s' : S) (w w' : W) : Prop :=
  forall p o n, w_points s w p o n -> w_points s' w' p o n.

(** Room of up to [RESERVE_MAX] bytes can be reserved in one piece: the smallest
    mbuf has more. *)
Definition RESERVE_MAX := 64.

Class WriterLaws (S W P : Type) {Wr : Writer S W P} := {
  w_done_null : forall s, w_done w_null s = Some (w_null, s);
  w_init_ok : forall s, w_ready s ->
    exists w s', w_init s = Some ((0, Some w), s') /\ w_ready s' /\ w_holds s' w [] /\ w_len w = 0;
  w_put_ok : forall s w bs xs, w_ready s -> w_holds s w bs -> Z.of_nat (length xs) < 2 ^ 64 ->
    exists w' s', w_put w xs s = Some ((0, w'), s') /\ w_ready s' /\ w_holds s' w' (bs ++ xs) /\
      w_len w' = u64 (w_len w + Z.of_nat (length xs)) /\ w_grown s s' w w';
  w_zero_ok : forall s w bs n, w_ready s -> w_holds s w bs -> 0 <= n < 2 ^ 64 ->
    exists w' s', w_zero w n s = Some ((0, w'), s') /\ w_ready s' /\
      w_holds s' w' (bs ++ replicate (Z.to_nat n) 0) /\
      w_len w' = u64 (w_len w + n) /\ w_grown s s' w w';
  w_reserve_ok : forall s w bs n, w_ready s -> w_holds s w bs -> 0 < n <= RESERVE_MAX ->
    exists p w' s' xs, w_reserve w n s = Some ((Some p, w'), s') /\ w_ready s' /\
      Z.of_nat (length xs) = n /\ w_holds s' w' (bs ++ xs) /\
      w_len w' = u64 (w_len w + n) /\ w_grown s s' w w' /\
      w_points s' w' p (length bs) (Z.to_nat n);
  w_store_ok : forall s w bs p o n xs, w_holds s w bs -> w_points s w p o n -> length xs = n ->
    exists s', w_store p xs s = Some (tt, s') /\ (w_ready s -> w_ready s') /\
      w_holds s' w (splice o xs bs) /\ w_grown s s' w w;
  w_load_ok : forall s w bs p o n, w_holds s w bs -> w_points s w p o n ->
    w_load p n s = Some (take n (drop o bs), s);
  w_points_in : forall s w bs p o n, w_holds s w bs -> w_points s w p o n ->
    (o + n <= length bs)%nat;
  w_count_frame : forall s w bs c, w_holds s w bs -> 0 <= c < 2 ^ 64 ->
    w_holds s (w_set_count w c) bs /\ w_len (w_set_count w c) = w_len w /\
    w_count (w_set_count w c) = c /\ w_grown s s w (w_set_count w c)
}.
