(* ===== verification/ChainMbuf.v ===== *)
(** * The userland mbuf chains implement the message chain interface *)

From S2P Require Import Prelude Mbuf MbufFacts Mchain MchainFacts Chain.
Import Errno.

(** ** Overwriting bytes of one mbuf of a chain *)

(** [m'] is [m] with other bytes in its buffer. *)
Definition same_shape (m m' : smb_mbuf) : Prop :=
  m_type m' = m_type m /\ m_maxlen m' = m_maxlen m /\ m_len m' = m_len m /\
  m_data m' = m_data m /\ m_next m' = m_next m /\ length (m_buf m') = length (m_buf m).

Definition repl1 (y : loc) (my' : smb_mbuf) (zm : loc * smb_mbuf) : loc * smb_mbuf :=
  if decide (zm.1 = y) then (y, my') else zm.

Abbreviation repl y my' ls := (map (repl1 y my') ls).

Lemma locs_repl y my' ls : locs (repl y my' ls) = locs ls.
Proof.
  rewrite map_map. apply map_ext. intros [z mz]. unfold repl1. simpl. by case_decide.
Qed.

Lemma repl_notin y my' ls : y ∉ locs ls -> repl y my' ls = ls.
Proof.
  induction ls as [|[z mz] r IH]; [done|]. intros Hy. simpl. rewrite IH.
  - unfold repl1. simpl. case_decide; [|done]. subst. exfalso. apply Hy. left.
  - intros Hin. apply Hy. by right.
Qed.

Lemma chain_repl μ p ls y my my' :
  μ !! y = Some my -> same_shape my my' -> chain μ p ls ->
  chain (<[y := my']> μ) p (repl y my' ls).
Proof.
  intros Hy Hs. revert p. induction ls as [|[z mz] r IH]; intros p; [done|].
  simpl. intros (-> & Hz & Hr). unfold repl1 at 1. simpl. case_decide as E; simpl.
  - subst z. assert (mz = my) as -> by congruence. destruct Hs as (_ & _ & _ & _ & En & _).
    split_and!; [done|apply lookup_insert_eq|]. rewrite En. by apply IH.
  - split_and!; [done|by rewrite lookup_insert_ne|by apply IH].
Qed.

Lemma same_shape_ok m m' : same_shape m m' -> mbuf_ok m -> mbuf_ok m'.
Proof. intros (E1 & E2 & E3 & E4 & E5 & E6) [? ? ? ?]. split; congruence. Qed.

Lemma repl_ok ls y my' :
  mbuf_ok my' -> Forall (fun xm => mbuf_ok xm.2) ls ->
  Forall (fun xm => mbuf_ok xm.2) (repl y my' ls).
Proof.
  intros Hy Hok. apply List.Forall_map. revert Hok. apply Forall_impl.
  intros [z mz]. unfold repl1. simpl. by case_decide.
Qed.

(** The representation of a chain after one of its mbufs has been overwritten. *)
Lemma rep_repl h mb ls x m y my my' :
  mb_rep h mb ls x m -> h_mem h !! y = Some my -> mbuf_ok my' -> same_shape my my' ->
  exists ls' m', ls' ++ [(x, m')] = repl y my' (ls ++ [(x, m)]) /\
    mb_rep (upd h y my') mb ls' x m'.
Proof.
  intros Hr Hy Hok Hs. pose proof (rep_last _ _ _ _ _ Hr) as [Hx _].
  exists (repl y my' ls), (repl1 y my' (x, m)).2.
  assert (repl y my' ls ++ [(x, (repl1 y my' (x, m)).2)] = repl y my' (ls ++ [(x, m)])) as E.
  { rewrite map_app. simpl. do 2 f_equal. unfold repl1. simpl. by case_decide; subst. }
  split; [done|]. destruct Hr as [Hc Hnd Hoks Hcur Hml Hcnt]. split; try done; rewrite ?E.
  - by eapply chain_repl.
  - by rewrite locs_repl.
  - by apply repl_ok.
  - rewrite Hml. unfold repl1. simpl. case_decide; simpl; [|done].
    destruct Hs as (_ & E2 & E3 & _). subst. simpl. congruence.
Qed.

(** ** [mb_reserve] *)

Section Reserve.
Context `{Platform}.

(** The last mbuf with [n] more of its bytes counted as valid. *)
Definition stretched (m : smb_mbuf) (n : Z) : smb_mbuf := set_m_len m (m_len m + n).

Lemma stretched_ok m n :
  mbuf_ok m -> 0 <= n <= m_maxlen m - m_len m -> mbuf_ok (stretched m n).
Proof. intros [? ? ? ?] Hn. split; simpl; try done. lia. Qed.

Lemma stretched_bytes m n :
  mbuf_ok m -> 0 <= n <= m_maxlen m - m_len m ->
  mbuf_bytes (stretched m n) = mbuf_bytes m ++ take (Z.to_nat n) (drop (Z.to_nat (m_len m)) (m_buf m)).
Proof.
  intros [? ? ? ?] Hn. unfold mbuf_bytes. simpl.
  replace (Z.to_nat (m_len m + n)) with (Z.to_nat (m_len m) + Z.to_nat n)%nat by lia.
  rewrite <- (take_drop (Z.to_nat (m_len m)) (take _ (m_buf m))), take_take, take_drop_commute.
  do 2 f_equal. lia.
Qed.

(** What reserving [n] bytes establishes. *)
Definition reserved (h : heap) (mb : mbchain) ls (x : loc) (m : smb_mbuf) (n : Z)
    (res : option (option Z * mbchain * heap)) : Prop :=
  exists mb' h' ls' x' m' xs,
    res = Some ((Some (m_data m' + (m_len m' - n)), mb'), h') /\
    heap_ok h' /\ (mem_avail h -> mem_avail h') /\ frame h h' [(x, m)] /\ kept h' x m /\
    mb_rep h' mb' ls' x' m' /\ n <= m_len m' /\ Z.of_nat (length xs) = n /\
    chain_bytes (ls' ++ [(x', m')]) = chain_bytes (ls ++ [(x, m)]) ++ xs /\
    mb_top mb' = mb_top mb /\ mb_len mb' = u64 (mb_len mb + n).

Definition reserve_finish (mbp : mbchain) (sz : Z) (m : option loc) (mleft : Z) : MH (option Z * mbchain) :=
  d ← mbuf_data m;
  n ← mbuf_len m;
  mbuf_setlen m (u64 (n + sz));;
  mret (Some (d + n), mk_mbchain (mb_top mbp) m (u64 (mleft - sz))
                 (u64 (mb_count mbp + sz)) (u64 (mb_len mbp + sz))).

Lemma reserve_fits h mb ls x m n :
  heap_ok h -> mb_rep h (at_last mb x (m_maxlen m - m_len m)) ls x m ->
  0 < n <= m_maxlen m - m_len m ->
  reserved h mb ls x m n (reserve_finish mb n (Some x) (m_maxlen m - m_len m) h).
Proof.
  intros Hh Hr Hn. pose proof (rep_last _ _ _ _ _ Hr) as [Hx Hnx].
  pose proof (rep_last_ok _ _ _ _ _ Hr) as Hok. pose proof Hok as [_ Hl Hm Hb].
  unfold reserve_finish. mstep. mstep. mstep. rewrite mret_run.
  rewrite (u64_small (m_len m + n)), (u64_small (m_maxlen m - m_len m - n)) by lia.
  eexists _, _, ls, x, (stretched m n), (take (Z.to_nat n) (drop (Z.to_nat (m_len m)) (m_buf m))).
  assert (mbuf_ok (stretched m n)) as Hok' by (apply stretched_ok; [done|lia]).
  split_and!.
  - simpl. do 4 f_equal. lia.
  - apply heap_ok_upd; [done|by eexists].
  - done.
  - by apply frame_upd.
  - exists (stretched m n). split_and!; [apply lookup_insert_eq|done|simpl; lia|done].
  - eapply rep_update_last; try done; simpl; [lia|]. by rewrite !u64_idem.
  - simpl. lia.
  - rewrite length_take, length_drop. lia.
  - rewrite !chain_bytes_app, !chain_bytes_one, stretched_bytes by (done || lia). by rewrite app_assoc.
  - done.
  - done.
Qed.

Lemma mb_reserve_run h mb ls x m n :
  heap_ok h -> mem_avail h -> mb_rep h mb ls x m -> 0 < n <= getpagesize ->
  reserved h mb ls x m n (mb_reserve mb n h).
Proof.
  intros Hh Ha Hr Hn. pose proof (rep_last _ _ _ _ _ Hr) as [Hx _].
  pose proof (rep_last_ok _ _ _ _ _ Hr) as Hok. assert (64 <= getpagesize < 2 ^ 64) as Hp by apply getpagesize_range.
  assert (0 < getpagesize < 2 ^ 64) as Hp' by lia. assert (0 <= getpagesize < 2 ^ 64) as Hp0 by lia.
  change (mb_reserve mb n h) with ((if mb_mleft mb <? n then
    r ← mbuf_get MBUF_WAITOK MBUF_TYPE_DATA;
    let '(error, nm) := r in
    if negb (error =? 0) then mret (None, mb)
    else mx ← mbuf_maxlen nm;
      if mx <? n then mbuf_freem nm;; mret (None, mb)
      else mbuf_setnext (mb_cur mb) nm;; mbuf_setlen nm 0;;
        ts ← mbuf_trailingspace nm; reserve_finish mb n nm ts
    else reserve_finish mb n (mb_cur mb) (mb_mleft mb)) h).
  rewrite (rep_cur _ _ _ _ _ Hr). pose proof (rep_mleft _ _ _ _ _ Hr) as Eml.
  destruct (Z.ltb_spec (mb_mleft mb) n) as [Hsmall|Hbig].
  2:{ rewrite Eml in *. apply reserve_fits; [done| |lia]. by rewrite (at_last_self _ _ _ _ _ Hr). }
  unfold mbuf_get.
  destruct (smb_mbuf_get_run h _ Hh Hp')
    as (r & h1 & E & Hav & [[-> Hal]|[_ (_ & _ & _ & ?)]]); [|done].
  rewrite (bind_some _ _ _ _ _ E). cbn [negb Z.eqb].
  destruct (link_fresh h h1 mb ls x m getpagesize 0 Hh Hr Hal Hp0)
    as (fx & fl & h2 & Es & Em1 & Em2 & Hh2 & Hf & Hokn & Hfr & Hxl).
  set (l := h_next h) in *. set (nn := set_m_flags (fresh_mbuf l getpagesize 0) fl) in *.
  assert (h_mem h1 !! l = Some (fresh_mbuf l getpagesize 0)) as Hl1.
  { destruct Hal as (-> & _). apply lookup_insert_eq. }
  erewrite bind_some by (by apply mbuf_maxlen_run). cbn [m_maxlen fresh_mbuf].
  destruct (Z.ltb_spec getpagesize n); [lia|].
  rewrite (bind_some _ _ _ _ _ Es).
  assert (h_mem h2 !! l = Some nn) as Hl2.
  { rewrite Em2, lookup_insert_ne by done. apply lookup_insert_eq. }
  erewrite bind_some by (by apply mbuf_setlen_run).
  assert (upd h2 l (set_m_len nn 0) = h2) as ->.
  { change (set_m_len nn 0) with nn. destruct h2. unfold upd. simpl in *. by rewrite insert_id. }
  erewrite bind_some by (by apply mbuf_trailingspace_run).
  assert (mb_rep h2 (at_last mb l (m_maxlen nn - m_len nn))
    (ls ++ [(x, set_m_next (set_m_flags m fx) (Some l))]) l nn) as Hr2.
  { eapply rep_append; try done. by destruct Hr. }
  destruct (reserve_fits h2 mb _ l nn n Hh2 Hr2) as (mb' & h' & ls' & x' & m' & xs & E' & Hh' & Hav' & Hf' & _ & Hrest).
  { simpl. lia. }
  destruct Hrest as (Hr' & Hl' & Hxs & Hb' & Ht' & Hlen').
  exists mb', h', ls', x', m', xs. split_and!; try done.
  - intros _. apply Hav'. unfold mem_avail. rewrite Em1. by apply Hav.
  - eapply frame_trans; [done..|]. intros y Hy%list_elem_of_singleton. right. by subst.
  - exists (set_m_next (set_m_flags m fx) (Some l)). split_and!; [|done|done|destruct Hok; by split].
    assert (h_mem h2 !! x = Some (set_m_next (set_m_flags m fx) (Some l))) as Hx2
      by (rewrite Em2; apply lookup_insert_eq).
    rewrite (Hf' x), Hx2; [done| |by eexists]. intros Hin%list_elem_of_singleton. done.
  - rewrite Hb'. f_equal. rewrite <- app_assoc. simpl. rewrite chain_bytes_link, !chain_bytes_app.
    unfold chain_bytes. done.
Qed.
End Reserve.

(** ** Addresses into a chain *)

(** [a] is the address of [n] valid bytes of the mbuf [x] that lie at offset [o]
    of the contents. *)
Definition points (h : heap) (mb : mbchain) (p : loc * Z) (o n : nat) : Prop :=
  let '(x, a) := p in
  exists ls m r, chain (h_mem h) (mb_top mb) (ls ++ (x, m) :: r) /\
    m_data m <= a /\ a - m_data m + Z.of_nat n <= m_len m /\
    Z.of_nat o = Z.of_nat (length (chain_bytes ls)) + (a - m_data m).

(** Following the same links leads to the same mbufs. *)
Lemma chain_prefix μ μ' ls : forall p x m r L m',
  chain μ p (ls ++ (x, m) :: r) -> (forall y, y ∈ locs ls -> μ' !! y = μ !! y) ->
  chain μ' p L -> μ' !! x = Some m' -> exists r', L = ls ++ (x, m') :: r'.
Proof.
  induction ls as [|[z mz] ls IH]; intros p x m r L m' Hc Hsame HL Hx.
  - destruct Hc as (-> & _). destruct L as [|[y my] L]; [done|].
    destruct HL as ([= <-] & Hy & _). exists L. simpl. congruence.
  - destruct Hc as (-> & Hz & Hc). destruct L as [|[y my] L]; [done|].
    destruct HL as ([= <-] & Hy & HL). rewrite Hsame in Hy by left.
    assert (my = mz) as -> by congruence.
    destruct (IH _ _ _ _ L m' Hc) as (r' & ->); try done; [|by exists r'].
    intros y Hy'. apply Hsame. by right.
Qed.

(** Splitting a chain whose last mbuf is known at any of its mbufs. *)
Lemma split_before_last {A} (l1 l2 ls : list A) (y x : A) :
  l1 ++ y :: l2 = ls ++ [x] -> (y = x /\ l1 = ls /\ l2 = []) \/ exists r, ls = l1 ++ y :: r.
Proof.
  intros E. induction l2 as [|z r _] using rev_ind.
  - left. apply app_inj_tail in E as [-> ->]. done.
  - right. exists r. rewrite app_comm_cons, app_assoc in E. apply app_inj_tail in E as [E _]. done.
Qed.

Lemma points_grown h h' mb mb' ls x m ls' x' m' :
  mb_rep h mb ls x m -> mb_rep h' mb' ls' x' m' -> mb_top mb' = mb_top mb ->
  frame h h' [(x, m)] -> kept h' x m ->
  forall p o n, points h mb p o n -> points h' mb' p o n.
Proof.
  intros Hr Hr' Ht Hf (mx & Hx' & Hd & Hl & _) [y a] o n (l1 & my & l2 & Hc & Ha & Hn & Ho).
  pose proof (rep_nodup _ _ _ _ _ Hr) as Hnd. rewrite map_app in Hnd.
  apply list.NoDup_app in Hnd as (_ & Hdis & _).
  assert (forall z, z ∈ locs ls -> h_mem h' !! z = h_mem h !! z) as Hsame.
  { intros z Hz. apply Hf; [intros Hin; by apply (Hdis z)|].
    eapply chain_dom; [apply Hr|]. rewrite map_app. apply elem_of_app. by left. }
  pose proof (chain_det _ _ _ _ Hc (rep_chain _ _ _ _ _ Hr)) as E.
  apply split_before_last in E as [([= -> ->] & -> & ->)|[r ->]].
  - destruct (chain_prefix _ (h_mem h') _ _ _ _ _ (ls' ++ [(x', m')]) mx Hc Hsame) as (r' & E); [|done|].
    { rewrite <- Ht. apply Hr'. }
    exists ls, mx, r'. rewrite <- E. split_and!; [apply Hr'|lia..].
  - assert (h_mem h' !! y = Some my) as Hy.
    { rewrite Hsame; [|rewrite map_app; apply elem_of_app; right; left].
      eapply chain_lookup; [exact Hc|]. apply elem_of_app. right. left. }
    destruct (chain_prefix _ (h_mem h') l1 _ _ _ _ (ls' ++ [(x', m')]) my Hc) as (r' & E); [| |done|].
    { intros z Hz. apply Hsame. rewrite map_app. apply elem_of_app. by left. }
    { rewrite <- Ht. apply Hr'. }
    exists l1, my, r'. rewrite <- E. split_and!; [apply Hr'|lia..].
Qed.

Lemma length_chain_bytes_repl ls y my my' :
  (forall m, (y, m) ∈ ls -> m = my) -> same_shape my my' ->
  length (chain_bytes (repl y my' ls)) = length (chain_bytes ls).
Proof.
  intros Hy Hs. induction ls as [|[z mz] r IH]; [done|].
  unfold chain_bytes in *. simpl. rewrite !length_app, IH by (intros m Hm; apply Hy; by right).
  f_equal. unfold repl1. simpl. case_decide; [|done]. subst z. assert (mz = my) as -> by (apply Hy; left).
  destruct Hs as (_ & _ & E3 & _ & _ & E6). unfold mbuf_bytes. simpl. by rewrite !length_take, E3, E6.
Qed.

(** Overwriting an mbuf moves nothing. *)
Lemma points_repl h mb y my my' :
  h_mem h !! y = Some my -> same_shape my my' ->
  forall p o n, points h mb p o n -> points (upd h y my') mb p o n.
Proof.
  intros Hy Hs [z a] o n (l1 & mz & l2 & Hc & Ha & Hn & Ho).
  pose proof (chain_repl _ _ _ _ _ _ Hy Hs Hc) as Hc'. rewrite map_app in Hc'. simpl in Hc'.
  assert (repl1 y my' (z, mz) = (z, (repl1 y my' (z, mz)).2)) as E1.
  { unfold repl1. simpl. by case_decide; subst. }
  rewrite E1 in Hc'. exists (repl y my' l1), (repl1 y my' (z, mz)).2, (repl y my' l2).
  assert (m_data (repl1 y my' (z, mz)).2 = m_data mz /\ m_len (repl1 y my' (z, mz)).2 = m_len mz) as [Ed El].
  { unfold repl1. simpl. case_decide; [|done]. subst z.
    assert (h_mem h !! y = Some mz) as Hz by (eapply chain_lookup; [exact Hc|apply elem_of_app; right; left]).
    assert (mz = my) as -> by congruence. by destruct Hs as (_ & _ & ? & ? & _). }
  rewrite Ed, El, (length_chain_bytes_repl _ _ my); [done| |done].
  intros m Hm. assert (h_mem h !! y = Some m); [|congruence].
  eapply chain_lookup; [exact Hc|]. apply elem_of_app. by left.
Qed.

(** Storing through an address. *)
Lemma store_run h mb bs y a o n xs :
  mb_holds h mb bs -> points h mb (y, a) o n -> length xs = n ->
  exists my my', h_mem h !! y = Some my /\ same_shape my my' /\
    write_bytes (Some y) a xs h = Some (tt, upd h y my') /\
    mb_holds (upd h y my') mb (splice o xs bs).
Proof.
  intros (ls & x & m & Hr & <-) (l1 & my & l2 & Hc & Ha & Hn & Ho) Hxs.
  assert (h_mem h !! y = Some my) as Hy by (eapply chain_lookup; [exact Hc|apply elem_of_app; right; left]).
  pose proof (chain_det _ _ _ _ Hc (rep_chain _ _ _ _ _ Hr)) as E.
  pose proof (rep_ok _ _ _ _ _ Hr) as Hoks. pose proof (rep_nodup _ _ _ _ _ Hr) as Hnd.
  rewrite <- E in Hoks, Hnd. rewrite map_app in Hnd. simpl in Hnd.
  apply list.NoDup_app in Hnd as (_ & Hd1 & [Hd2 _]%list.NoDup_cons).
  apply Forall_app in Hoks as [Hok1 [Hok _]%list.Forall_cons]. simpl in Hok.
  pose proof Hok as [Hty Hl Hm Hb]. set (k := Z.to_nat (a - m_data my)).
  set (my' := set_m_buf my (splice k xs (m_buf my))).
  assert (length (splice k xs (m_buf my)) = length (m_buf my)) as Els by (rewrite length_splice; lia).
  assert (same_shape my my') as Hs by (by split_and!).
  assert (mbuf_ok my') as Hok' by by eapply same_shape_ok.
  exists my, my'. split_and!; [done|done| |].
  - replace a with (m_data my + (a - m_data my)) by lia. apply write_bytes_run; [done|lia..].
  - destruct (rep_repl h mb ls x m y my my' Hr Hy Hok' Hs) as (ls' & m' & El & Hr').
    exists ls', x, m'. split; [done|]. rewrite El, <- E, map_app. simpl.
    rewrite !repl_notin by (intros Hin; (by apply Hd2) || (apply (Hd1 y Hin); left)).
    unfold repl1. simpl. rewrite decide_True by done.
    change (l1 ++ (y, my') :: l2) with (l1 ++ [(y, my')] ++ l2).
    change (l1 ++ (y, my) :: l2) with (l1 ++ [(y, my)] ++ l2).
    rewrite !chain_bytes_app, !chain_bytes_one.
    replace o with (length (chain_bytes l1) + k)%nat by lia.
    pose proof (length_mbuf_bytes my Hok) as Elb.
    rewrite splice_mid by lia. do 2 f_equal. unfold mbuf_bytes. simpl.
    apply take_splice_in; lia.
Qed.

Lemma load_run h mb bs y a o n :
  mb_holds h mb bs -> points h mb (y, a) o n ->
  read_bytes (Some y) a (Z.of_nat n) h = Some (take n (drop o bs), h) /\ (o + n <= length bs)%nat.
Proof.
  intros (ls & x & m & Hr & <-) (l1 & my & l2 & Hc & Ha & Hn & Ho).
  assert (h_mem h !! y = Some my) as Hy by (eapply chain_lookup; [exact Hc|apply elem_of_app; right; left]).
  pose proof (chain_det _ _ _ _ Hc (rep_chain _ _ _ _ _ Hr)) as E.
  pose proof (rep_ok _ _ _ _ _ Hr) as Hoks. rewrite <- E in Hoks |- *.
  apply Forall_app in Hoks as [_ [Hok _]%list.Forall_cons]. simpl in Hok.
  pose proof Hok as [Hty Hl Hm Hb]. pose proof (length_mbuf_bytes my Hok) as Elb.
  change (l1 ++ (y, my) :: l2) with (l1 ++ [(y, my)] ++ l2).
  rewrite !chain_bytes_app, !chain_bytes_one. split; [|rewrite !length_app; lia].
  replace a with (m_data my + (a - m_data my)) by lia.
  rewrite (read_bytes_run _ _ _ Hy) by lia. rewrite Nat2Z.id. do 2 f_equal.
  set (k := Z.to_nat (a - m_data my)). replace o with (length (chain_bytes l1) + k)%nat by lia.
  rewrite <- drop_drop, drop_app_length, drop_app_le, take_app_le by (rewrite ?length_drop; lia).
  unfold mbuf_bytes. rewrite !take_drop_commute, take_take.
  do 2 f_equal. lia.
Qed.

(** ** The instances *)

#[export] Instance mbuf_Reader : Reader heap mdchain := {|
  r_null := mk_mdchain None None 0 0;
  r_done := md_done;
  r_get d n := r ← md_get_mem d (Some (replicate n 0)) (Z.of_nat n) MB_MSYSTEM;
    let '(e, d', buf) := r in mret (e, d', default [] buf);
  r_skip d n := r ← md_get_mem d None n MB_MSYSTEM; let '(e, d', _) := r in mret (e, d');
  r_shadow d := md_shadow_copy d (mk_mdchain None None 0 0);
  r_len := md_len;
  r_holds := md_holds
|}.

#[export] Instance mbuf_ReaderLaws : ReaderLaws heap mdchain.
Proof.
  split; cbn [r_null r_done r_get r_skip r_shadow r_len r_holds mbuf_Reader].
  - done.
  - by intros s d bs (ls & off & Hr & Hb); exists ls, off.
  - intros s d bs n Hh Hn Hb.
    destruct (md_get_mem_run s d bs (Some (replicate n 0)) (Z.of_nat n) MB_MSYSTEM Hh)
      as (d' & E & Hh' & _ & Hl); [lia|by right; left|intros ? [= <-]; rewrite length_replicate; lia|].
    exists d'. rewrite (bind_some _ _ _ _ _ E). rewrite !Nat2Z.id in *.
    destruct (Z.leb_spec (Z.of_nat n) (Z.of_nat (length bs))); [|lia]. split_and!; try done.
    simpl. rewrite splice_full; [done|]. rewrite length_take, length_replicate. lia.
  - intros s d bs n Hh Hn Hb.
    destruct (md_get_mem_run s d bs (Some (replicate n 0)) (Z.of_nat n) MB_MSYSTEM Hh)
      as (d' & E & Hh' & _ & Hl); [lia|by right; left|intros ? [= <-]; rewrite length_replicate; lia|].
    exists d'. eexists. rewrite (bind_some _ _ _ _ _ E). rewrite !Nat2Z.id in *.
    destruct (Z.leb_spec (Z.of_nat n) (Z.of_nat (length bs))); [lia|]. split; [done|].
    rewrite drop_ge in Hh' by lia. done.
  - intros s d bs n Hh Hn.
    destruct (md_get_mem_run s d bs None n MB_MSYSTEM Hh) as (d' & E & Hh' & _ & Hl); [lia|by left|done|].
    exists d'. by rewrite (bind_some _ _ _ _ _ E).
Qed.

Section Writer.
Context `{Platform}.

Definition mb_set_count (mb : mbchain) (c : Z) : mbchain :=
  mk_mbchain (mb_top mb) (mb_cur mb) (mb_mleft mb) c (mb_len mb).

#[export] Instance mbuf_Writer : Writer heap mbchain (loc * Z) := {|
  w_null := mk_mbchain None None 0 0 0;
  w_done := mb_done;
  w_init := mb_init;
  w_put mb xs := mb_put_mem mb xs (Z.of_nat (length xs)) MB_MSYSTEM;
  w_zero mb n := mb_put_mem mb [] n MB_MZERO;
  w_reserve mb n := r ← mb_reserve mb n;
    let '(a, mb') := r in
    mret (match a, mb_cur mb' with Some a, Some x => Some (x, a) | _, _ => None end, mb');
  w_store p xs := write_bytes (Some p.1) p.2 xs;
  w_load p n := read_bytes (Some p.1) p.2 (Z.of_nat n);
  w_len := mb_len;
  w_count := mb_count;
  w_set_count := mb_set_count;
  w_ready h := heap_ok h /\ mem_avail h;
  w_holds := mb_holds;
  w_points := points
|}.

Lemma put_run h mb bs src sz type :
  heap_ok h /\ mem_avail h -> mb_holds h mb bs -> put_args_ok src sz type ->
  exists mb' h', mb_put_mem mb src sz type h = Some ((0, mb'), h') /\
    (heap_ok h' /\ mem_avail h') /\ mb_holds h' mb' (bs ++ put_bytes src sz type) /\
    mb_len mb' = u64 (mb_len mb + sz) /\
    (forall p o n, points h mb p o n -> points h' mb' p o n).
Proof.
  intros [Hh Ha] (ls & x & m & Hr & <-) Hargs.
  destruct (mb_put_mem_run h mb ls x m src sz type Hh Hr Hargs)
    as (e & mb' & h' & E & Hh' & Hav & Hf & Hk & [[-> Hx]|[_ ?]]); [|done].
  destruct Hx as (ls' & x' & m' & Hr' & Hb & Ht & _ & Hl).
  exists mb', h'. split_and!; auto; [by exists ls', x', m'|].
  by eapply points_grown.
Qed.

#[export] Instance mbuf_WriterLaws : WriterLaws heap mbchain (loc * Z).
Proof.
  split; cbn [w_null w_done w_init w_put w_zero w_reserve w_store w_load w_len w_count
    w_set_count w_ready w_holds w_points mbuf_Writer]; unfold w_grown; cbn [w_points mbuf_Writer].
  - done.
  - intros s [Hh Ha]. destruct (mb_init_run s Hh) as (s' & Hh' & Ha' & _ & [(mb & E & Hb & _ & Hl & _)|[_ ?]]); [|done].
    exists mb, s'. auto.
  - intros s w bs xs Hr Hw Hb.
    assert (put_args_ok xs (Z.of_nat (length xs)) MB_MSYSTEM) as Hargs.
    { split; [lia|]. right. split; [by left|lia]. }
    destruct (put_run s w bs _ _ _ Hr Hw Hargs) as (w' & s' & E & Hr' & Hh & Hl & Hp).
    exists w', s'. split_and!; try done; try apply Hr'.
    unfold put_bytes in Hh. simpl in Hh. by rewrite Nat2Z.id, take_ge in Hh.
  - intros s w bs n Hr Hw Hb.
    assert (put_args_ok [] n MB_MZERO) as Hargs by (split; [lia|by left]).
    destruct (put_run s w bs _ _ _ Hr Hw Hargs) as (w' & s' & E & Hr' & Hh & Hl & Hp).
    exists w', s'. split_and!; try done; apply Hr'.
  - intros s w bs n [Hh Ha] (ls & x & m & Hr & <-) Hn.
    assert (0 < n <= getpagesize) as Hp.
    { assert (64 <= getpagesize < 2 ^ 64) by apply getpagesize_range. unfold RESERVE_MAX in Hn. lia. }
    destruct (mb_reserve_run s w ls x m n Hh Ha Hr Hp)
      as (w' & s' & ls' & x' & m' & xs & E & Hh' & Ha' & Hf & Hk & Hr' & Hl' & Hxs & Hb & Ht & Hlen).
    exists (x', m_data m' + (m_len m' - n)), w', s', xs. rewrite (bind_some _ _ _ _ _ E).
    rewrite (rep_cur _ _ _ _ _ Hr'). split_and!; auto.
    + by exists ls', x', m'.
    + by eapply points_grown.
    + pose proof (rep_last_ok _ _ _ _ _ Hr') as Hok'. pose proof (length_mbuf_bytes m' Hok') as Hlm.
      exists ls', m', []. split_and!; [rewrite Ht; rewrite <- Ht; apply Hr'|lia|lia|].
      apply (f_equal length) in Hb. rewrite chain_bytes_app, chain_bytes_one, !length_app in Hb. lia.
  - intros s w bs [y a] o n xs Hw Hp Hx.
    destruct (store_run s w bs y a o n xs Hw Hp Hx) as (my & my' & Hy & Hs & E & Hh).
    exists (upd s y my'). split_and!; try done.
    + intros [Hh' Ha']. split; [|done]. apply heap_ok_upd; [done|by eexists].
    + by eapply points_repl.
  - intros s w bs [y a] o n Hw Hp. by eapply load_run.
  - intros s w bs [y a] o n Hw Hp. by eapply load_run.
  - intros s w bs c (ls & x & m & [? ? ? ? ? [_ Hl]] & Hb) Hc. split_and!; try done.
    exists ls, x, m. split; [|done]. split; try done. split; [by apply u64_small|done].
Qed.
End Writer.
