(* ===== verification/Fid.v ===== *)
(** * The FID table of a share: [kernel/netsmb/smb_fid.c]

    The filesystem passes 64-bit FIDs around; the table maps them to the
    two-part SMB 2/3 FIDs of the server.  Every function runs under
    [ss_fid_lock], so that each is one atomic step on the share. *)

From S2P Require Import Prelude.
Import Errno.

Record SMB2FID := mk_fid { fid_persistent : Z; fid_volatile : Z }.

#[export] Instance SMB2FID_eq_dec : EqDecision SMB2FID.
Proof. solve_decision. Defined.

Record fid_node := mk_node { fid : Z; smb2_fid : SMB2FID }.

Definition SMB_FID_TABLE_SIZE : nat := Z.to_nat 4096.
Definition SMB_FID_TABLE_MASK := 0xfff.

(** The part of [struct smb_share] the table uses. *)
Record smb_share := mk_share {
  ss_fid_collisions : Z;
  ss_fid_inserted : Z;
  ss_fid_max_iter : Z;
  ss_fid_table : list (list fid_node)
}.

Definition set_slot (s : smb_share) (i : nat) (l : list fid_node) : smb_share :=
  mk_share (ss_fid_collisions s) (ss_fid_inserted s) (ss_fid_max_iter s) (<[i := l]> (ss_fid_table s)).

Definition set_max_iter (s : smb_share) (iter : Z) : smb_share :=
  mk_share (ss_fid_collisions s) (ss_fid_inserted s)
    (if ss_fid_max_iter s <=? iter then iter else ss_fid_max_iter s) (ss_fid_table s).

Definition table_index (f : Z) : nat := Z.to_nat (Z.land f SMB_FID_TABLE_MASK).

(** [LIST_FOREACH] up to the first node with the FID: the nodes passed over,
    the node found and what follows it. *)
Fixpoint list_find_fid (f : Z) (l : list fid_node) : option (list fid_node * fid_node * list fid_node) :=
  match l with
  | [] => None
  | n :: r =>
      if fid n =? f then Some ([], n, r)
      else match list_find_fid f r with
           | Some (p, x, q) => Some (n :: p, x, q)
           | None => None
           end
  end.

Definition smb_fid_count_all (share : option smb_share) : Z :=
  match share with
  | None => 0
  | Some s => fold_left (fun count l => fold_left (fun c _ => u64 (c + 1)) l count) (ss_fid_table s) 0
  end.

Definition smb_fid_delete_all (share : option smb_share) : option smb_share :=
  match share with
  | None => None
  | Some s => Some (mk_share (ss_fid_collisions s) (ss_fid_inserted s) (ss_fid_max_iter s)
      (map (fun _ => []) (ss_fid_table s)))
  end.

Definition UINT64_MAX := 0xffffffffffffffff.

(** The result is the error, the SMB 2/3 FID stored through [smb2_fid] if any,
    and the share.  A NULL share is [None]. *)
Definition smb_fid_get_kernel_fid (share : option smb_share) (f : Z) (remove_fid : bool)
  : Z * option SMB2FID * option smb_share :=
  match share with
  | None => (EINVAL, None, None)
  | Some s =>
      if f =? UINT64_MAX then (0, Some (mk_fid UINT64_MAX UINT64_MAX), Some s)
      else
        let i := table_index f in
        match ss_fid_table s !! i with
        | None => (EINVAL, None, Some s)
        | Some l =>
            match list_find_fid f l with
            | Some (p, n, q) =>
                let s1 := if remove_fid then set_slot s i (p ++ q) else s in
                (0, Some (smb2_fid n), Some (set_max_iter s1 (Z.of_nat (length p))))
            | None => (EINVAL, None, Some (set_max_iter s (Z.of_nat (length l))))
            end
        end
  end.

(** Bob Jenkins' one-at-a-time hash on 32-bit words. *)
Definition hash_round (hash b : Z) : Z :=
  let h1 := u32 (hash + b) in
  let h2 := u32 (h1 + u32 (Z.shiftl h1 10)) in
  Z.lxor h2 (Z.shiftr h2 6).

Definition smb_fid_one_at_a_time (key : list Z) : Z :=
  let h := fold_left hash_round key 0 in
  let h1 := u32 (h + u32 (Z.shiftl h 3)) in
  let h2 := Z.lxor h1 (Z.shiftr h1 11) in
  u32 (h2 + u32 (Z.shiftl h2 15)).

Definition smb_fid_insert_new_node (s : smb_share) (n : fid_node) : smb_share :=
  let i := table_index (fid n) in
  match ss_fid_table s !! i with
  | None => s
  | Some l =>
      mk_share (if decide (l = []) then ss_fid_collisions s else u64 (ss_fid_collisions s + 1))
        (u64 (ss_fid_inserted s + 1)) (ss_fid_max_iter s) (<[i := n :: l]> (ss_fid_table s))
  end.

(** The FID handed to the caller for an SMB 2/3 FID. *)
Definition user_fid (sf : SMB2FID) : Z :=
  let val1 := smb_fid_one_at_a_time (le_bytes 8 (fid_persistent sf)) in
  let val2 := smb_fid_one_at_a_time (le_bytes 8 (fid_volatile sf)) in
  Z.lor (u64 (Z.shiftl val1 32)) val2.

#[global] Arguments user_fid : simpl never.
#[global] Strategy 1000 [user_fid smb_fid_one_at_a_time].
#[global] Arguments table_index : simpl never.

(** [alloc] is the outcome of the allocation of the node. *)
Definition smb_fid_get_user_fid (share : option smb_share) (sf : SMB2FID) (alloc : bool)
  : Z * option Z * option smb_share :=
  match share with
  | None => (EINVAL, None, None)
  | Some s =>
      if alloc then
        let f := user_fid sf in
        (0, Some f, Some (smb_fid_insert_new_node s (mk_node f sf)))
      else (ENOMEM, None, Some s)
  end.

Definition smb_fid_update_kernel_fid (share : option smb_share) (f : Z) (new_smb2_fid : SMB2FID)
  : Z * option smb_share :=
  match share with
  | None => (EINVAL, None)
  | Some s =>
      let i := table_index f in
      match ss_fid_table s !! i with
      | None => (EINVAL, Some s)
      | Some l =>
          match list_find_fid f l with
          | Some (p, n, q) =>
              (0, Some (set_max_iter (set_slot s i (p ++ mk_node (fid n) new_smb2_fid :: q))
                          (Z.of_nat (length p))))
          | None => (EINVAL, Some (set_max_iter s (Z.of_nat (length l))))
          end
      end
  end.

(** ** The abstract table

    A FID stands for a stack of SMB 2/3 FIDs: registering pushes, removing
    pops, lookups see the top. *)

Definition abs (s : smb_share) (f : Z) : list SMB2FID :=
  map smb2_fid (filter (fun n => fid n = f) (default [] (ss_fid_table s !! table_index f))).

(** The table has all its slots and every node sits in the slot of its FID. *)
Record table_ok (s : smb_share) : Prop := {
  ok_size : length (ss_fid_table s) = SMB_FID_TABLE_SIZE;
  ok_slot : forall i l n, ss_fid_table s !! i = Some l -> n ∈ l -> table_index (fid n) = i
}.

Definition empty_share : smb_share := mk_share 0 0 0 (replicate SMB_FID_TABLE_SIZE []).

(** ** Lemmas *)

Lemma table_index_lt f : (table_index f < SMB_FID_TABLE_SIZE)%nat.
Proof.
  unfold table_index, SMB_FID_TABLE_SIZE.
  change SMB_FID_TABLE_MASK with (Z.ones 12). rewrite Z.land_ones by lia.
  pose proof (Z.mod_pos_bound f (2 ^ 12) ltac:(lia)). apply Z2Nat.inj_lt; lia.
Qed.

Lemma slot_lookup s f : table_ok s -> exists l, ss_fid_table s !! table_index f = Some l.
Proof. intros [Hs _]. apply lookup_lt_is_Some. rewrite Hs. apply table_index_lt. Qed.

Lemma list_find_fid_Some f l p n q :
  list_find_fid f l = Some (p, n, q) ->
  l = p ++ n :: q /\ fid n = f /\ filter (fun x => fid x = f) p = [].
Proof.
  revert p. induction l as [|a l IH]; intros p; simpl; [done|].
  destruct (Z.eqb_spec (fid a) f) as [E|E].
  - intros [= <- <- <-]. done.
  - destruct (list_find_fid f l) as [[[p' x] q']|]; [|done].
    intros [= <- <- <-]. destruct (IH p' eq_refl) as (-> & ? & Hp).
    split_and!; try done. by rewrite filter_cons_False.
Qed.

Lemma list_find_fid_None f l :
  list_find_fid f l = None -> filter (fun x => fid x = f) l = [].
Proof.
  induction l as [|a l IH]; simpl; [done|].
  destruct (Z.eqb_spec (fid a) f) as [E|E]; [done|].
  destruct (list_find_fid f l) as [[[p' x] q']|]; [done|].
  intros _. rewrite filter_cons_False by done. by apply IH.
Qed.

(** A slot rewritten only at nodes of [f]: the abstract stack of [f] changes as
    given, all others stay. *)
Lemma abs_set_slot s f l l' st :
  table_ok s -> ss_fid_table s !! table_index f = Some l ->
  (forall n, n ∈ l' -> n ∈ l \/ fid n = f) ->
  map smb2_fid (filter (fun n => fid n = f) l') = st ->
  (forall g, g <> f -> filter (fun n => fid n = g) l' = filter (fun n => fid n = g) l) ->
  table_ok (set_slot s (table_index f) l') /\
  (forall g, abs (set_slot s (table_index f) l') g = if g =? f then st else abs s g).
Proof.
  intros [Hsz Hslot] Hl Hin Hst Hoth. pose proof (table_index_lt f) as Hlt. split.
  - split; simpl; [by rewrite length_insert|].
    intros i k n [(<- & <- & _)|(Hne & Hk)]%list_lookup_insert_Some Hn; [|by eapply Hslot].
    destruct (Hin n Hn) as [Hn'|<-]; [by eapply Hslot|done].
  - intros g. unfold abs. simpl. destruct (decide (table_index f = table_index g)) as [E|E].
    + rewrite <- E, list_lookup_insert_eq by (by rewrite Hsz). rewrite Hl. simpl.
      destruct (Z.eqb_spec g f) as [->|Hne]; [done|]. by rewrite Hoth.
    + rewrite list_lookup_insert_ne by done. destruct (Z.eqb_spec g f) as [->|]; done.
Qed.

Lemma abs_max_iter s k g : abs (set_max_iter s k) g = abs s g.
Proof. done. Qed.

Lemma ok_max_iter s k : table_ok s -> table_ok (set_max_iter s k).
Proof. intros [? ?]. by split. Qed.

Lemma filter_slot_remove f g p n q :
  fid n = f -> g <> f ->
  filter (fun x => fid x = g) (p ++ q) = filter (fun x => fid x = g) (p ++ n :: q).
Proof. intros <- Hne. by rewrite !list.filter_app, filter_cons_False. Qed.

Lemma empty_share_ok : table_ok empty_share.
Proof.
  split; [done|]. intros i l n Hl Hn. apply lookup_replicate in Hl as [-> _].
  by apply not_elem_of_nil in Hn.
Qed.

Lemma insert_abs s n : table_ok s ->
  table_ok (smb_fid_insert_new_node s n) /\
  (forall g, abs (smb_fid_insert_new_node s n) g =
     if g =? fid n then smb2_fid n :: abs s g else abs s g).
Proof.
  intros Hok. destruct (slot_lookup s (fid n) Hok) as [l Hl].
  unfold smb_fid_insert_new_node. rewrite Hl.
  destruct (abs_set_slot s (fid n) l (n :: l) (smb2_fid n :: abs s (fid n)) Hok Hl) as [[H1 H2] H3].
  - intros x [->|Hx]%elem_of_cons; auto.
  - rewrite filter_cons_True by done. unfold abs. by rewrite Hl.
  - intros g Hg. rewrite filter_cons_False; [done|]. congruence.
  - split; [by split|]. intros g. specialize (H3 g). unfold abs in *. simpl in *. rewrite H3.
    destruct (Z.eqb_spec g (fid n)) as [E|]; [by rewrite E|done].
Qed.

Lemma get_kernel_fid_abs s f remove : table_ok s -> f <> UINT64_MAX ->
  exists s', smb_fid_get_kernel_fid (Some s) f remove =
    match abs s f with
    | [] => (EINVAL, None, Some s')
    | sf :: _ => (0, Some sf, Some s')
    end /\ table_ok s' /\
    (forall g, abs s' g = if remove && (g =? f) then tail (abs s f) else abs s g).
Proof.
  intros Hok Hne. destruct (slot_lookup s f Hok) as [l Hl]. unfold smb_fid_get_kernel_fid.
  destruct (Z.eqb_spec f UINT64_MAX) as [?|_]; [done|]. rewrite Hl.
  destruct (list_find_fid f l) as [[[p n] q]|] eqn:E.
  - apply list_find_fid_Some in E as (-> & <- & Hp).
    assert (abs s (fid n) = smb2_fid n :: map smb2_fid (filter (fun x => fid x = fid n) q)) as Ha.
    { unfold abs. rewrite Hl. simpl. by rewrite list.filter_app, Hp, filter_cons_True. }
    rewrite Ha. eexists. split; [done|]. destruct remove; simpl.
    + destruct (abs_set_slot s (fid n) _ (p ++ q)
        (map smb2_fid (filter (fun x => fid x = fid n) q)) Hok Hl) as [H1 H2].
      * intros x Hx. left. apply elem_of_app. apply elem_of_app in Hx as [?|?]; [by left|by right; right].
      * by rewrite list.filter_app, Hp.
      * intros g Hg. by apply (filter_slot_remove (fid n)).
      * split; [by apply ok_max_iter|done].
    + split; [by apply ok_max_iter|done].
  - apply list_find_fid_None in E.
    assert (abs s f = []) as Ha. { unfold abs. by rewrite Hl; simpl; rewrite E. }
    rewrite Ha. eexists. split; [done|]. split; [by apply ok_max_iter|].
    intros g. rewrite abs_max_iter. destruct remove; simpl; [|done].
    by destruct (Z.eqb_spec g f) as [->|].
Qed.

Lemma update_kernel_fid_abs s f sf : table_ok s ->
  exists s', smb_fid_update_kernel_fid (Some s) f sf =
    (if decide (abs s f = []) then EINVAL else 0, Some s') /\ table_ok s' /\
    (forall g, abs s' g = if g =? f then match abs s f with [] => [] | _ :: r => sf :: r end else abs s g).
Proof.
  intros Hok. destruct (slot_lookup s f Hok) as [l Hl]. unfold smb_fid_update_kernel_fid. rewrite Hl.
  destruct (list_find_fid f l) as [[[p n] q]|] eqn:E.
  - apply list_find_fid_Some in E as (-> & <- & Hp).
    assert (abs s (fid n) = smb2_fid n :: map smb2_fid (filter (fun x => fid x = fid n) q)) as Ha.
    { unfold abs. rewrite Hl. simpl. by rewrite list.filter_app, Hp, filter_cons_True. }
    rewrite Ha. eexists. split; [done|].
    destruct (abs_set_slot s (fid n) _ (p ++ mk_node (fid n) sf :: q)
      (sf :: map smb2_fid (filter (fun x => fid x = fid n) q)) Hok Hl) as [H1 H2].
    + intros x [?|[->|?]%elem_of_cons]%elem_of_app; [left|by right|left]; apply elem_of_app;
        [by left|by right; right].
    + by rewrite list.filter_app, Hp, filter_cons_True.
    + intros g Hg. rewrite !list.filter_app, !filter_cons_False; [done|simpl; congruence..].
    + split; [by apply ok_max_iter|]. intros g. rewrite abs_max_iter. apply H2.
  - apply list_find_fid_None in E.
    assert (abs s f = []) as Ha. { unfold abs. by rewrite Hl; simpl; rewrite E. }
    rewrite Ha. eexists. split; [done|]. split; [by apply ok_max_iter|].
    intros g. rewrite abs_max_iter. by destruct (Z.eqb_spec g f) as [->|].
Qed.

(** ** Theorems *)

Lemma count_slot (l : list fid_node) c :
  fold_left (fun c _ => u64 (c + 1)) l (u64 c) = u64 (c + Z.of_nat (length l)).
Proof.
  revert c. induction l as [|n l IH]; intros c; cbn [fold_left length]; [by rewrite Z.add_0_r|].
  rewrite u64_add_l, IH. f_equal. lia.
Qed.

Lemma count_all_length s :
  smb_fid_count_all (Some s) = u64 (Z.of_nat (length (concat (ss_fid_table s)))).
Proof.
  enough (forall t c, fold_left (fun count l => fold_left (fun c _ => u64 (c + 1)) l count) t (u64 c)
    = u64 (c + Z.of_nat (length (concat t)))) as H by apply (H (ss_fid_table s) 0).
  intros t. induction t as [|l t IH]; intros c; cbn [fold_left concat length]; [by rewrite Z.add_0_r|].
  rewrite count_slot, IH, length_app. f_equal. lia.
Qed.

Lemma delete_all_abs s : table_ok s ->
  let s' := mk_share (ss_fid_collisions s) (ss_fid_inserted s) (ss_fid_max_iter s)
    (map (fun _ => []) (ss_fid_table s)) in
  table_ok s' /\ forall g, abs s' g = [].
Proof.
  intros [Hs _] s'. split.
  - split; cbn; [by rewrite length_map|].
    intros i l n Hl Hn. apply list_lookup_fmap_Some in Hl as (? & -> & _). by apply not_elem_of_nil in Hn.
  - intros g. unfold abs. cbn. rewrite list_lookup_fmap.
    by destruct (ss_fid_table s !! table_index g).
Qed.

(** Registering an SMB 2/3 FID and looking the returned FID up gives that SMB
    2/3 FID back, whatever the table held before; removing it restores every
    lookup.  (The all-ones FID stands for compound requests and is answered
    without the table.) *)
Theorem fid_roundtrip s sf : table_ok s -> user_fid sf <> UINT64_MAX ->
  exists s1 s2, smb_fid_get_user_fid (Some s) sf true = (0, Some (user_fid sf), Some s1) /\
    smb_fid_get_kernel_fid (Some s1) (user_fid sf) true = (0, Some sf, Some s2) /\
    table_ok s1 /\ table_ok s2 /\ (forall g, abs s2 g = abs s g).
Proof.
  intros Hok Hne. pose proof (insert_abs s (mk_node (user_fid sf) sf) Hok) as [Hok1 Ha1].
  cbn [fid smb2_fid] in Ha1.
  remember (smb_fid_insert_new_node s (mk_node (user_fid sf) sf)) as s1 eqn:Es1.
  destruct (get_kernel_fid_abs s1 (user_fid sf) true Hok1 Hne) as (s2 & E & Hok2 & Ha2).
  rewrite Ha1, Z.eqb_refl in E. exists s1, s2.
  split_and!; [unfold smb_fid_get_user_fid; rewrite Es1; reflexivity|exact E|exact Hok1|exact Hok2|].
  intros g. rewrite Ha2, !Ha1. cbn [andb].
  destruct (Z.eqb_spec g (user_fid sf)) as [->|]; [|done]. by rewrite Z.eqb_refl.
Qed.

(** C39: The table implements a map from FIDs to stacks of SMB 2/3 FIDs: on a
    well-formed table each operation keeps it well formed, answers as the
    abstract map does (the top of the stack, [EINVAL] for an empty one) and
    changes the abstract map only at its own FID: push, pop, replace the top,
    clear. *)
Theorem fid_table_refines s : table_ok s ->
  (forall sf, exists s', smb_fid_get_user_fid (Some s) sf true = (0, Some (user_fid sf), Some s') /\
     table_ok s' /\ forall g, abs s' g = if g =? user_fid sf then sf :: abs s g else abs s g) /\
  (forall f remove, f <> UINT64_MAX -> exists s',
     smb_fid_get_kernel_fid (Some s) f remove =
       match abs s f with [] => (EINVAL, None, Some s') | sf :: _ => (0, Some sf, Some s') end /\
     table_ok s' /\ forall g, abs s' g = if remove && (g =? f) then tail (abs s f) else abs s g) /\
  (forall f sf, exists s', smb_fid_update_kernel_fid (Some s) f sf =
       (if decide (abs s f = []) then EINVAL else 0, Some s') /\ table_ok s' /\
     forall g, abs s' g =
       if g =? f then match abs s f with [] => [] | _ :: r => sf :: r end else abs s g) /\
  (smb_fid_count_all (Some s) = u64 (Z.of_nat (length (concat (ss_fid_table s))))) /\
  (exists s', smb_fid_delete_all (Some s) = Some s' /\ table_ok s' /\ forall g, abs s' g = []).
Proof.
  intros Hok. split_and!.
  - intros sf. eexists. split; [done|]. apply insert_abs, Hok.
  - intros f r Hf. by apply get_kernel_fid_abs.
  - intros f sf. by apply update_kernel_fid_abs.
  - apply count_all_length.
  - eexists. split; [done|]. by apply delete_all_abs.
Qed.

(** What two registrations under one FID lead to. *)
Lemma shadowed_lookup s a b : table_ok s -> user_fid a = user_fid b -> user_fid a <> UINT64_MAX ->
  exists s', smb_fid_get_kernel_fid
    (Some (smb_fid_insert_new_node (smb_fid_insert_new_node s (mk_node (user_fid a) a))
       (mk_node (user_fid b) b))) (user_fid a) false = (0, Some b, Some s').
Proof.
  intros Hok E Hne.
  pose proof (insert_abs s (mk_node (user_fid a) a) Hok) as [Hok1 _].
  pose proof (insert_abs _ (mk_node (user_fid b) b) Hok1) as [Hok2 Ha2].
  destruct (get_kernel_fid_abs _ (user_fid a) false Hok2 Hne) as (s' & E' & _).
  exists s'. rewrite E', Ha2. cbn [fid smb2_fid]. by rewrite E, Z.eqb_refl.
Qed.

(** The hash is not collision free and nothing guards against collisions: two
    SMB 2/3 FIDs of one server that differ only in the volatile part (0x41 and
    0x813f) get the same FID, and after both have been registered the FID of the
    first one resolves to the second, so that requests on the first open file
    would be sent for the second. *)
Theorem fid_collision_misdirects :
  exists a b, a <> b /\ user_fid a = user_fid b /\
  forall s sa sb, table_ok s ->
    smb_fid_get_user_fid (Some s) a true = (0, Some (user_fid a), Some sa) ->
    smb_fid_get_user_fid (Some sa) b true = (0, Some (user_fid b), Some sb) ->
    exists s', smb_fid_get_kernel_fid (Some sb) (user_fid a) false = (0, Some b, Some s').
Proof.
  assert (user_fid (mk_fid 7 0x41) = user_fid (mk_fid 7 0x813f)) as E by (by vm_compute).
  assert (user_fid (mk_fid 7 0x41) <> UINT64_MAX) as Hne by (by vm_compute).
  exists (mk_fid 7 0x41), (mk_fid 7 0x813f). split_and!; [done|exact E|].
  revert E Hne. generalize (mk_fid 7 0x41) (mk_fid 7 0x813f). intros a b E Hne s sa sb Hok Ha Hb.
  injection Ha as <-. injection Hb as <-. by apply shadowed_lookup.
Qed.

Lemma fid_roundtrip_witness :
  exists s1 s2, smb_fid_get_user_fid (Some empty_share) (mk_fid 1 2) true
      = (0, Some (user_fid (mk_fid 1 2)), Some s1) /\
    smb_fid_get_kernel_fid (Some s1) (user_fid (mk_fid 1 2)) true = (0, Some (mk_fid 1 2), Some s2) /\
    table_ok s1 /\ table_ok s2 /\ (forall g, abs s2 g = abs empty_share g).
Proof. apply (fid_roundtrip empty_share (mk_fid 1 2)); [apply empty_share_ok|by vm_compute]. Defined.

Lemma fid_table_refines_witness :
  exists s', smb_fid_get_kernel_fid (Some empty_share) 5 true = (EINVAL, None, Some s').
Proof.
  destruct (fid_table_refines empty_share empty_share_ok) as (_ & H & _).
  destruct (H 5 true) as (s' & E & _); [done|]. exists s'. exact E.
Defined.
