(* ===== verification/Ntstatus.v ===== *)
(** * Error codes: [kernel/netsmb/smb_subr.c]

    The status codes of the servers (NTSTATUS, and the DOS, server and hardware
    error classes of SMB 1) and how the client turns them into errno values. *)

From S2P Require Import Prelude.
Import Errno.

(** ** Constants of [lib/smbclient/ntstatus.h] and [ntstatus.inc] *)

Module NT.
Definition STATUS_LOGON_TYPE_NOT_GRANTED := 0xc000015b.
Definition STATUS_NO_LOGON_SERVERS := 0xc000005e.
Definition STATUS_ACCESS_DENIED := 0xc0000022.
Definition STATUS_ACCESS_VIOLATION := 0xc0000005.
Definition STATUS_PRIVILEGE_NOT_HELD := 0xc0000061.
Definition STATUS_ACCOUNT_DISABLED := 0xc0000072.
Definition STATUS_ACCOUNT_RESTRICTION := 0xc000006e.
Definition STATUS_LOGIN_TIME_RESTRICTION := 0xc0000247.
Definition STATUS_ACCOUNT_LOCKED_OUT := 0xc0000234.
Definition STATUS_INVALID_ACCOUNT_NAME := 0xc0000062.
Definition STATUS_PWD_TOO_SHORT := 0xc000025a.
Definition STATUS_PWD_TOO_RECENT := 0xc000025b.
Definition STATUS_PWD_HISTORY_CONFLICT := 0xc000025c.
Definition STATUS_ACCOUNT_EXPIRED := 0xc0000193.
Definition STATUS_PASSWORD_EXPIRED := 0xc0000071.
Definition STATUS_PASSWORD_RESTRICTION := 0xc000006c.
Definition STATUS_PASSWORD_MUST_CHANGE := 0xc0000224.
Definition STATUS_INVALID_LOGON_HOURS := 0xc000006f.
Definition STATUS_ADDRESS_ALREADY_EXISTS := 0xc000020a.
Definition STATUS_BAD_NETWORK_NAME := 0xc00000cc.
Definition STATUS_NETWORK_NAME_DELETED := 0xc00000c9.
Definition STATUS_DUPLICATE_NAME := 0xc00000bd.
Definition STATUS_BAD_NETWORK_PATH := 0xc00000be.
Definition STATUS_BUFFER_TOO_SMALL := 0xc0000023.
Definition STATUS_INVALID_BUFFER_SIZE := 0xc0000206.
Definition STATUS_CONFLICTING_ADDRESSES := 0xc0000018.
Definition STATUS_CONNECTION_ABORTED := 0xc0000241.
Definition STATUS_CONNECTION_DISCONNECTED := 0xc000020c.
Definition STATUS_CONNECTION_REFUSED := 0xc0000236.
Definition STATUS_CONNECTION_RESET := 0xc000020d.
Definition STATUS_DEVICE_DOES_NOT_EXIST := 0xc00000c0.
Definition STATUS_DEVICE_PROTOCOL_ERROR := 0xc0000186.
Definition STATUS_DIRECTORY_NOT_EMPTY := 0xc0000101.
Definition STATUS_DISK_FULL := 0xc000007f.
Definition STATUS_DLL_NOT_FOUND := 0xc0000135.
Definition STATUS_END_OF_FILE := 0xc0000011.
Definition STATUS_FILE_IS_A_DIRECTORY := 0xc00000ba.
Definition STATUS_FILE_LOCK_CONFLICT := 0xc0000054.
Definition STATUS_LOCK_NOT_GRANTED := 0xc0000055.
Definition STATUS_FLOAT_INEXACT_RESULT := 0xc000008f.
Definition STATUS_FLOAT_OVERFLOW := 0xc0000091.
Definition STATUS_FLOAT_UNDERFLOW := 0xc0000093.
Definition STATUS_HOST_UNREACHABLE := 0xc000023d.
Definition STATUS_ILL_FORMED_PASSWORD := 0xc000006b.
Definition STATUS_INTEGER_OVERFLOW := 0xc0000095.
Definition STATUS_FILE_CLOSED := 0xc0000128.
Definition STATUS_INVALID_HANDLE := 0xc0000008.
Definition STATUS_INVALID_PARAMETER := 0xc000000d.
Definition STATUS_INVALID_PIPE_STATE := 0xc00000ad.
Definition STATUS_INVALID_WORKSTATION := 0xc0000070.
Definition STATUS_IN_PAGE_ERROR := 0xc0000006.
Definition STATUS_IO_TIMEOUT := 0xc00000b5.
Definition STATUS_IP_ADDRESS_CONFLICT1 := 0xc0000254.
Definition STATUS_IP_ADDRESS_CONFLICT2 := 0xc0000255.
Definition STATUS_LICENSE_QUOTA_EXCEEDED := 0xc0000259.
Definition STATUS_LOGON_FAILURE := 0xc000006d.
Definition STATUS_MEDIA_WRITE_PROTECTED := 0xc00000a2.
Definition STATUS_MEMORY_NOT_ALLOCATED := 0xc00000a0.
Definition STATUS_NAME_TOO_LONG := 0xc0000106.
Definition STATUS_NETWORK_ACCESS_DENIED := 0xc00000ca.
Definition STATUS_NETWORK_BUSY := 0xc00000bf.
Definition STATUS_NETWORK_UNREACHABLE := 0xc000023c.
Definition STATUS_NET_WRITE_FAULT := 0xc00000d2.
Definition STATUS_NONEXISTENT_SECTOR := 0xc0000015.
Definition STATUS_NOT_A_DIRECTORY := 0xc0000103.
Definition STATUS_NOT_FOUND := 0xc0000225.
Definition STATUS_NOT_IMPLEMENTED := 0xc0000002.
Definition STATUS_NOT_MAPPED_VIEW := 0xc0000019.
Definition STATUS_NOT_SUPPORTED := 0xc00000bb.
Definition STATUS_NO_MEDIA := 0xc0000178.
Definition STATUS_IO_DEVICE_ERROR := 0xc0000185.
Definition STATUS_NO_MEDIA_IN_DEVICE := 0xc0000013.
Definition STATUS_NO_MEMORY := 0xc0000017.
Definition STATUS_NO_SUCH_DEVICE := 0xc000000e.
Definition STATUS_NO_SUCH_FILE := 0xc000000f.
Definition STATUS_OBJECT_NAME_COLLISION := 0xc0000035.
Definition STATUS_OBJECT_NAME_NOT_FOUND := 0xc0000034.
Definition STATUS_OBJECT_PATH_INVALID := 0xc0000039.
Definition STATUS_OBJECT_PATH_NOT_FOUND := 0xc000003a.
Definition STATUS_PAGEFILE_QUOTA := 0xc0000007.
Definition STATUS_PATH_NOT_COVERED := 0xc0000257.
Definition STATUS_NOT_A_REPARSE_POINT := 0xc0000275.
Definition STATUS_IO_REPARSE_TAG_MISMATCH := 0xc0000277.
Definition STATUS_IO_REPARSE_DATA_INVALID := 0xc0000278.
Definition STATUS_IO_REPARSE_TAG_NOT_HANDLED := 0xc0000279.
Definition STATUS_REPARSE_POINT_NOT_RESOLVED := 0xc0000280.
Definition STATUS_PIPE_BROKEN := 0xc000014b.
Definition STATUS_PIPE_BUSY := 0xc00000ae.
Definition STATUS_PIPE_CONNECTED := 0xc00000b2.
Definition STATUS_PIPE_DISCONNECTED := 0xc00000b0.
Definition STATUS_SMB_BAD_TID := 0xc0002005.
Definition STATUS_INSUFFICIENT_RESOURCES := 0xc000009a.
Definition STATUS_INSUFF_SERVER_RESOURCES := 0xc0000205.
Definition STATUS_PIPE_NOT_AVAILABLE := 0xc00000ac.
Definition STATUS_PORT_CONNECTION_REFUSED := 0xc0000041.
Definition STATUS_PORT_MESSAGE_TOO_LONG := 0xc000002f.
Definition STATUS_PORT_UNREACHABLE := 0xc000023f.
Definition STATUS_PROTOCOL_UNREACHABLE := 0xc000023e.
Definition STATUS_QUOTA_EXCEEDED := 0xc0000044.
Definition STATUS_REGISTRY_QUOTA_LIMIT := 0xc0000256.
Definition STATUS_REMOTE_DISCONNECT := 0xc000013c.
Definition STATUS_REMOTE_NOT_LISTENING := 0xc00000bc.
Definition STATUS_REQUEST_NOT_ACCEPTED := 0xc00000d0.
Definition STATUS_RETRY := 0xc000022d.
Definition STATUS_SHARING_VIOLATION := 0xc0000043.
Definition STATUS_TIMER_NOT_CANCELED := 0xc000000c.
Definition STATUS_TOO_MANY_LINKS := 0xc0000265.
Definition STATUS_TOO_MANY_OPENED_FILES := 0xc000011f.
Definition STATUS_UNABLE_TO_FREE_VM := 0xc000001a.
Definition STATUS_UNSUCCESSFUL := 0xc0000001.
Definition STATUS_WRONG_PASSWORD := 0xc000006a.
Definition STATUS_DELETE_PENDING := 0xc0000056.
Definition STATUS_OBJECT_NAME_INVALID := 0xc0000033.
Definition STATUS_CANNOT_DELETE := 0xc0000121.
Definition STATUS_RANGE_NOT_LOCKED := 0xc000007e.
Definition STATUS_INVALID_LEVEL := 0xc0000148.
Definition STATUS_MORE_PROCESSING_REQUIRED := 0xc0000016.
Definition STATUS_CANCELLED := 0xc0000120.
Definition STATUS_INVALID_INFO_CLASS := 0xc0000003.
Definition STATUS_INFO_LENGTH_MISMATCH := 0xc0000004.
Definition STATUS_INVALID_DEVICE_REQUEST := 0xc0000010.
Definition STATUS_WRONG_VOLUME := 0xc0000012.
Definition STATUS_UNRECOGNIZED_MEDIA := 0xc0000014.
Definition STATUS_INVALID_SYSTEM_SERVICE := 0xc000001c.
Definition STATUS_INVALID_LOCK_SEQUENCE := 0xc000001e.
Definition STATUS_ALREADY_COMMITTED := 0xc0000021.
Definition STATUS_OBJECT_TYPE_MISMATCH := 0xc0000024.
Definition STATUS_NOT_LOCKED := 0xc000002a.
Definition STATUS_INVALID_PARAMETER_MIX := 0xc0000030.
Definition STATUS_PORT_DISCONNECTED := 0xc0000037.
Definition STATUS_INVALID_PORT_HANDLE := 0xc0000042.
Definition STATUS_OBJECT_PATH_SYNTAX_BAD := 0xc000003b.
Definition STATUS_EAS_NOT_SUPPORTED := 0xc000004f.
Definition STATUS_EA_TOO_LARGE := 0xc0000050.
Definition STATUS_NONEXISTENT_EA_ENTRY := 0xc0000051.
Definition STATUS_NO_EAS_ON_FILE := 0xc0000052.
Definition STATUS_NO_SUCH_LOGON_SESSION := 0xc000005f.
Definition STATUS_USER_EXISTS := 0xc0000063.
Definition STATUS_NO_SUCH_USER := 0xc0000064.
Definition STATUS_USER_SESSION_DELETED := 0xc0000203.
Definition STATUS_FILE_INVALID := 0xc0000098.
Definition STATUS_DFS_EXIT_PATH_FOUND := 0xc000009b.
Definition STATUS_DEVICE_DATA_ERROR := 0xc000009c.
Definition STATUS_DEVICE_NOT_READY := 0xc00000a3.
Definition STATUS_ILLEGAL_FUNCTION := 0xc00000af.
Definition STATUS_FILE_RENAMED := 0xc00000d5.
Definition STATUS_FILE_DELETED := 0xc0000123.
Definition STATUS_NO_TRUST_LSA_SECRET := 0xc000018a.
Definition STATUS_NO_TRUST_SAM_ACCOUNT := 0xc000018b.
Definition STATUS_TRUSTED_DOMAIN_FAILURE := 0xc000018c.
Definition STATUS_TRUSTED_RELATIONSHIP_FAILURE := 0xc000018d.
Definition STATUS_NOT_SAME_DEVICE := 0xc00000d4.
Definition STATUS_SMB_BAD_CLUSTER_DIALECT := 0xc05d0001.
Definition STATUS_DATA_ERROR := 0xc000003e.
Definition STATUS_NO_MORE_FILES := 0x80000006.
Definition STATUS_SMB_BAD_COMMAND := 0xc0002016.
Definition STATUS_TOO_MANY_NAMES := 0xc00000cd.
Definition STATUS_PIPE_CLOSING := 0xc00000b1.
Definition STATUS_NOTIFY_ENUM_DIR := 0x0000010c.
Definition STATUS_NETLOGON_NOT_STARTED := 0xc0000192.
Definition STATUS_BAD_DEVICE_TYPE := 0xc00000cb.
Definition STATUS_PRINT_QUEUE_FULL := 0xc00000c6.
Definition STATUS_NO_SPOOL_SPACE := 0xc00000c7.
Definition STATUS_PRINT_CANCELLED := 0xc00000c8.
Definition STATUS_UNEXPECTED_NETWORK_ERROR := 0xc00000c4.
Definition STATUS_TOO_MANY_SESSIONS := 0xc00000ce.
Definition STATUS_SMB_BAD_UID := 0x005b0002.
Definition STATUS_SMB_USE_STANDARD := 0xc00020fb.
Definition STATUS_INVALID_DEVICE_STATE := 0xc0000184.
Definition STATUS_DISK_CORRUPT_ERROR := 0xc0000032.
Definition STATUS_DEVICE_PAPER_EMPTY := 0x8000000e.
Definition STATUS_SUCCESS := 0x00000000.
Definition STATUS_NOTIFY_CLEANUP := 0x0000010b.
Definition STATUS_BUFFER_OVERFLOW := 0x80000005.
Definition STATUS_STOPPED_ON_SYMLINK := 0x8000002d.
Definition STATUS_NETWORK_SESSION_EXPIRED := 0xc000035c.
End NT.
Import NT.

Definition STATUS_SEVERITY_SUCCESS := 0x00000000.
Definition STATUS_SEVERITY_INFORMATIONAL := 0x40000000.
Definition STATUS_SEVERITY_WARNING := 0x80000000.
Definition STATUS_SEVERITY_ERROR := 0xc0000000.
Definition STATUS_SEVERITY_MASK := 0xc0000000.

(** The network filesystem errors of [kernel/netsmb/smb_dev.h]; they are
    negative, and the table stores them in a [uint32_t]. *)
Definition SMB_ENETFSACCOUNTRESTRICTED := u32 (-5042).
Definition SMB_ENETFSPWDNEEDSCHANGE := u32 (-5045).
Definition SMB_ENETFSPWDPOLICY := u32 (-5046).

Module ErrClass.
Definition SUCCESS_Class := 0x00.
Definition ERRDOS_Class := 0x01.
Definition ERRSRV_Class := 0x02.
Definition ERRHRD_Class := 0x03.
Definition ERRbadfunc := 0x0001.
Definition ERRbadfile := 0x0002.
Definition ERRbadpath := 0x0003.
Definition ERRnofids := 0x0004.
Definition ERRnoaccess := 0x0005.
Definition ERRbadfid := 0x0006.
Definition ERRbadmcb := 0x0007.
Definition ERRnomem := 0x0008.
Definition ERRbadmem := 0x0009.
Definition ERRbadenv := 0x000a.
Definition ERRbadformat := 0x000b.
Definition ERRbadaccess := 0x000c.
Definition ERRbaddata := 0x000d.
Definition ERRoutofmem := 0x000e.
Definition ERRbaddrive := 0x000f.
Definition ERRremcd := 0x0010.
Definition ERRdiffdevice := 0x0011.
Definition ERRnofiles := 0x0012.
Definition ERRwriteprotect := 0x0013.
Definition ERRnotready := 0x0015.
Definition ERRbadcmd := 0x0016.
Definition ERRcrc := 0x0017.
Definition ERRbadlength := 0x0018.
Definition ERRsectornotfound := 0x001b.
Definition ERRgeneral := 0x001f.
Definition ERRbadshare := 0x0020.
Definition ERRlock := 0x0021.
Definition ERRwrongdisk := 0x0022.
Definition ERReof := 0x0026.
Definition ERRunsup := 0x0032.
Definition ERRnoipc := 0x0042.
Definition ERRnosuchshare := 0x0043.
Definition ERRtoomanynames := 0x0044.
Definition ERRfilexists := 0x0050.
Definition ERRinvalidparam := 0x0057.
Definition ERRinvalidname := 0x007b.
Definition ERRunknownlevel := 0x007c.
Definition ERRdirnotempty := 0x0091.
Definition ERRnotlocked := 0x009e.
Definition ERRrename := 0x00b7.
Definition ERRbadpipe := 0x00e6.
Definition ERRpipebusy := 0x00e7.
Definition ERRpipeclosing := 0x00e8.
Definition ERRnotconnected := 0x00e9.
Definition ERRmoredata := 0x00ea.
Definition ERRbadealist := 0x00ff.
Definition ERReasunsupported := 0x011a.
Definition ERRnotifyenumdir := 0x03fe.
Definition ERRinvgroup := 0x0997.
Definition ERRerror := 0x0001.
Definition ERRbadpw := 0x0002.
Definition ERRaccess := 0x0004.
Definition ERRinvtid := 0x0005.
Definition ERRinvnetname := 0x0006.
Definition ERRinvdevice := 0x0007.
Definition ERRinvsess := 0x0010.
Definition ERRworking := 0x0011.
Definition ERRnotme := 0x0012.
Definition ERRqfull := 0x0031.
Definition ERRqtoobig := 0x0032.
Definition ERRqeof := 0x0033.
Definition ERRinvpfid := 0x0034.
Definition ERRsmbcmd := 0x0040.
Definition ERRsrverror := 0x0041.
Definition ERRfilespecs := 0x0043.
Definition ERRbadpermits := 0x0045.
Definition ERRsetattrmode := 0x0047.
Definition ERRtimeout := 0x0058.
Definition ERRnoresource := 0x0059.
Definition ERRtoomanyuids := 0x005a.
Definition ERRbaduid := 0x005b.
Definition ERRusempx := 0x00fa.
Definition ERRusestd := 0x00fb.
Definition ERRcontmpx := 0x00fc.
Definition ERRaccountExpired := 0x08bf.
Definition ERRbadClient := 0x08c0.
Definition ERRbadLogonTime := 0x08c1.
Definition ERRpasswordExpired := 0x08c2.
Definition ERRnosupport := 0xffff.
Definition ERRnowrite := 0x0013.
Definition ERRbadunit := 0x0014.
Definition ERRdata := 0x0017.
Definition ERRbadreq := 0x0018.
Definition ERRseek := 0x0019.
Definition ERRbadmedia := 0x001a.
Definition ERRbadsector := 0x001b.
Definition ERRnopaper := 0x001c.
Definition ERRwrite := 0x001d.
Definition ERRread := 0x001e.
Definition ERRFCBunavail := 0x0023.
Definition ERRsharebufexc := 0x0024.
Definition ERRdiskfull := 0x0027.
End ErrClass.
Import ErrClass.

(** The table [nt2errno], without its terminating [{0, 0}] row. *)
Definition nt2errno : list (Z * Z) := [
  (STATUS_LOGON_TYPE_NOT_GRANTED, EAUTH);
  (STATUS_NO_LOGON_SERVERS, EAUTH);
  (STATUS_ACCESS_DENIED, EACCES);
  (STATUS_ACCESS_VIOLATION, EACCES);
  (STATUS_PRIVILEGE_NOT_HELD, EACCES);
  (STATUS_ACCOUNT_DISABLED, SMB_ENETFSACCOUNTRESTRICTED);
  (STATUS_ACCOUNT_RESTRICTION, SMB_ENETFSACCOUNTRESTRICTED);
  (STATUS_LOGIN_TIME_RESTRICTION, SMB_ENETFSACCOUNTRESTRICTED);
  (STATUS_ACCOUNT_LOCKED_OUT, SMB_ENETFSACCOUNTRESTRICTED);
  (STATUS_INVALID_ACCOUNT_NAME, SMB_ENETFSACCOUNTRESTRICTED);
  (STATUS_PWD_TOO_SHORT, SMB_ENETFSPWDPOLICY);
  (STATUS_PWD_TOO_RECENT, SMB_ENETFSPWDPOLICY);
  (STATUS_PWD_HISTORY_CONFLICT, SMB_ENETFSPWDPOLICY);
  (STATUS_ACCOUNT_EXPIRED, SMB_ENETFSACCOUNTRESTRICTED);
  (STATUS_PASSWORD_EXPIRED, SMB_ENETFSPWDNEEDSCHANGE);
  (STATUS_PASSWORD_RESTRICTION, SMB_ENETFSPWDPOLICY);
  (STATUS_PASSWORD_MUST_CHANGE, SMB_ENETFSPWDNEEDSCHANGE);
  (STATUS_INVALID_LOGON_HOURS, SMB_ENETFSACCOUNTRESTRICTED);
  (STATUS_ADDRESS_ALREADY_EXISTS, EADDRINUSE);
  (STATUS_BAD_NETWORK_NAME, ENOENT);
  (STATUS_NETWORK_NAME_DELETED, ENOENT);
  (STATUS_DUPLICATE_NAME, ENOENT);
  (STATUS_BAD_NETWORK_PATH, ENOENT);
  (STATUS_BUFFER_TOO_SMALL, E2BIG);
  (STATUS_INVALID_BUFFER_SIZE, EIO);
  (STATUS_CONFLICTING_ADDRESSES, EADDRINUSE);
  (STATUS_CONNECTION_ABORTED, ECONNABORTED);
  (STATUS_CONNECTION_DISCONNECTED, ECONNABORTED);
  (STATUS_CONNECTION_REFUSED, ECONNREFUSED);
  (STATUS_CONNECTION_RESET, ENETRESET);
  (STATUS_DEVICE_DOES_NOT_EXIST, ENODEV);
  (STATUS_DEVICE_PROTOCOL_ERROR, EPROTO);
  (STATUS_DIRECTORY_NOT_EMPTY, ENOTEMPTY);
  (STATUS_DISK_FULL, ENOSPC);
  (STATUS_DLL_NOT_FOUND, ENOENT);
  (STATUS_END_OF_FILE, ENODATA);
  (STATUS_FILE_IS_A_DIRECTORY, EISDIR);
  (STATUS_FILE_LOCK_CONFLICT, EIO);
  (STATUS_LOCK_NOT_GRANTED, EACCES);
  (STATUS_FLOAT_INEXACT_RESULT, ERANGE);
  (STATUS_FLOAT_OVERFLOW, ERANGE);
  (STATUS_FLOAT_UNDERFLOW, ERANGE);
  (STATUS_HOST_UNREACHABLE, EHOSTUNREACH);
  (STATUS_ILL_FORMED_PASSWORD, EAUTH);
  (STATUS_INTEGER_OVERFLOW, ERANGE);
  (STATUS_FILE_CLOSED, EBADF);
  (STATUS_INVALID_HANDLE, EBADF);
  (STATUS_INVALID_PARAMETER, EINVAL);
  (STATUS_INVALID_PIPE_STATE, EPIPE);
  (STATUS_INVALID_WORKSTATION, EACCES);
  (STATUS_IN_PAGE_ERROR, EFAULT);
  (STATUS_IO_TIMEOUT, ETIMEDOUT);
  (STATUS_IP_ADDRESS_CONFLICT1, EADDRINUSE);
  (STATUS_IP_ADDRESS_CONFLICT2, EADDRINUSE);
  (STATUS_LICENSE_QUOTA_EXCEEDED, EDQUOT);
  (STATUS_LOGON_FAILURE, EAUTH);
  (STATUS_MEDIA_WRITE_PROTECTED, EROFS);
  (STATUS_MEMORY_NOT_ALLOCATED, EFAULT);
  (STATUS_NAME_TOO_LONG, ENAMETOOLONG);
  (STATUS_NETWORK_ACCESS_DENIED, EACCES);
  (STATUS_NETWORK_BUSY, EBUSY);
  (STATUS_NETWORK_UNREACHABLE, ENETUNREACH);
  (STATUS_NET_WRITE_FAULT, EIO);
  (STATUS_NONEXISTENT_SECTOR, ESPIPE);
  (STATUS_NOT_A_DIRECTORY, ENOTDIR);
  (STATUS_NOT_FOUND, ENOENT);
  (STATUS_NOT_IMPLEMENTED, ENOTSUP);
  (STATUS_NOT_MAPPED_VIEW, EINVAL);
  (STATUS_NOT_SUPPORTED, ENOTSUP);
  (STATUS_NO_MEDIA, EIO);
  (STATUS_IO_DEVICE_ERROR, EIO);
  (STATUS_NO_MEDIA_IN_DEVICE, EIO);
  (STATUS_NO_MEMORY, ENOMEM);
  (STATUS_NO_SUCH_DEVICE, ENODEV);
  (STATUS_NO_SUCH_FILE, ENOENT);
  (STATUS_OBJECT_NAME_COLLISION, EEXIST);
  (STATUS_OBJECT_NAME_NOT_FOUND, ENOENT);
  (STATUS_OBJECT_PATH_INVALID, ENOTDIR);
  (STATUS_OBJECT_PATH_NOT_FOUND, ENOENT);
  (STATUS_PAGEFILE_QUOTA, EDQUOT);
  (STATUS_PATH_NOT_COVERED, ENOENT);
  (STATUS_NOT_A_REPARSE_POINT, ENOENT);
  (STATUS_IO_REPARSE_TAG_MISMATCH, EIO);
  (STATUS_IO_REPARSE_DATA_INVALID, EIO);
  (STATUS_IO_REPARSE_TAG_NOT_HANDLED, EIO);
  (STATUS_REPARSE_POINT_NOT_RESOLVED, ENOENT);
  (STATUS_PIPE_BROKEN, EPIPE);
  (STATUS_PIPE_BUSY, EPIPE);
  (STATUS_PIPE_CONNECTED, EISCONN);
  (STATUS_PIPE_DISCONNECTED, EPIPE);
  (STATUS_SMB_BAD_TID, ENOENT);
  (STATUS_INSUFFICIENT_RESOURCES, EAGAIN);
  (STATUS_INSUFF_SERVER_RESOURCES, EAGAIN);
  (STATUS_PIPE_NOT_AVAILABLE, ENOSYS);
  (STATUS_PORT_CONNECTION_REFUSED, ECONNREFUSED);
  (STATUS_PORT_MESSAGE_TOO_LONG, EMSGSIZE);
  (STATUS_PORT_UNREACHABLE, EHOSTUNREACH);
  (STATUS_PROTOCOL_UNREACHABLE, ENOPROTOOPT);
  (STATUS_QUOTA_EXCEEDED, EDQUOT);
  (STATUS_REGISTRY_QUOTA_LIMIT, EDQUOT);
  (STATUS_REMOTE_DISCONNECT, ESHUTDOWN);
  (STATUS_REMOTE_NOT_LISTENING, ECONNREFUSED);
  (STATUS_REQUEST_NOT_ACCEPTED, EUSERS);
  (STATUS_RETRY, EAGAIN);
  (STATUS_SHARING_VIOLATION, EBUSY);
  (STATUS_TIMER_NOT_CANCELED, ETIME);
  (STATUS_TOO_MANY_LINKS, EMLINK);
  (STATUS_TOO_MANY_OPENED_FILES, EMFILE);
  (STATUS_UNABLE_TO_FREE_VM, EADDRINUSE);
  (STATUS_UNSUCCESSFUL, EINVAL);
  (STATUS_WRONG_PASSWORD, EAUTH);
  (STATUS_DELETE_PENDING, EACCES);
  (STATUS_OBJECT_NAME_INVALID, ENAMETOOLONG);
  (STATUS_CANNOT_DELETE, EPERM);
  (STATUS_RANGE_NOT_LOCKED, EAGAIN);
  (STATUS_INVALID_LEVEL, ENOTSUP);
  (STATUS_MORE_PROCESSING_REQUIRED, EAGAIN);
  (STATUS_CANCELLED, ECANCELED);
  (STATUS_INVALID_INFO_CLASS, EINVAL);
  (STATUS_INFO_LENGTH_MISMATCH, EINVAL);
  (STATUS_INVALID_DEVICE_REQUEST, EINVAL);
  (STATUS_WRONG_VOLUME, ENOENT);
  (STATUS_UNRECOGNIZED_MEDIA, EIO);
  (STATUS_INVALID_SYSTEM_SERVICE, EINVAL);
  (STATUS_INVALID_LOCK_SEQUENCE, EACCES);
  (STATUS_ALREADY_COMMITTED, EACCES);
  (STATUS_OBJECT_TYPE_MISMATCH, EBADF);
  (STATUS_NOT_LOCKED, ENOLCK);
  (STATUS_INVALID_PARAMETER_MIX, EINVAL);
  (STATUS_PORT_DISCONNECTED, EBADF);
  (STATUS_INVALID_PORT_HANDLE, EBADF);
  (STATUS_OBJECT_PATH_SYNTAX_BAD, ENOENT);
  (STATUS_EAS_NOT_SUPPORTED, ENOTSUP);
  (STATUS_EA_TOO_LARGE, ENOATTR);
  (STATUS_NONEXISTENT_EA_ENTRY, ENOATTR);
  (STATUS_NO_EAS_ON_FILE, ENOATTR);
  (STATUS_NO_SUCH_LOGON_SESSION, SMB_ENETFSACCOUNTRESTRICTED);
  (STATUS_USER_EXISTS, SMB_ENETFSACCOUNTRESTRICTED);
  (STATUS_NO_SUCH_USER, SMB_ENETFSACCOUNTRESTRICTED);
  (STATUS_USER_SESSION_DELETED, SMB_ENETFSACCOUNTRESTRICTED);
  (STATUS_FILE_INVALID, EIO);
  (STATUS_DFS_EXIT_PATH_FOUND, ENOENT);
  (STATUS_DEVICE_DATA_ERROR, EIO);
  (STATUS_DEVICE_NOT_READY, EAGAIN);
  (STATUS_ILLEGAL_FUNCTION, EINVAL);
  (STATUS_FILE_RENAMED, ENOENT);
  (STATUS_FILE_DELETED, ENOENT);
  (STATUS_NO_TRUST_LSA_SECRET, EAUTH);
  (STATUS_NO_TRUST_SAM_ACCOUNT, EAUTH);
  (STATUS_TRUSTED_DOMAIN_FAILURE, EAUTH);
  (STATUS_TRUSTED_RELATIONSHIP_FAILURE, EAUTH);
  (STATUS_NOT_SAME_DEVICE, EXDEV);
  (STATUS_SMB_BAD_CLUSTER_DIALECT, EPROGMISMATCH)].

(** A C [switch] whose cases all return. *)
Fixpoint switch (x : Z) (cases : list (Z * Z)) (dflt : Z) : Z :=
  match cases with
  | [] => dflt
  | (k, v) :: r => if x =? k then v else switch x r dflt
  end.

Definition smb_dos_class_err_to_ntstatus (dosErr : Z) : Z :=
  switch dosErr [
    (ERRbadfunc, STATUS_NOT_IMPLEMENTED);
    (ERRbadfile, STATUS_NO_SUCH_FILE);
    (ERRbadpath, STATUS_OBJECT_PATH_NOT_FOUND);
    (ERRnofids, STATUS_TOO_MANY_OPENED_FILES);
    (ERRnoaccess, STATUS_ACCESS_DENIED);
    (ERRbadfid, STATUS_INVALID_HANDLE);
    (ERRbadmcb, STATUS_INSUFF_SERVER_RESOURCES);
    (ERRnomem, STATUS_NO_MEMORY);
    (ERRbadmem, STATUS_NO_MEMORY);
    (ERRbadenv, STATUS_INVALID_PARAMETER);
    (ERRbadformat, STATUS_INVALID_PARAMETER);
    (ERRbadaccess, STATUS_ACCESS_DENIED);
    (ERRbaddata, STATUS_DATA_ERROR);
    (ERRoutofmem, STATUS_NO_MEMORY);
    (ERRbaddrive, STATUS_INSUFF_SERVER_RESOURCES);
    (ERRremcd, STATUS_DIRECTORY_NOT_EMPTY);
    (ERRdiffdevice, STATUS_NOT_SAME_DEVICE);
    (ERRnofiles, STATUS_NO_MORE_FILES);
    (ERRwriteprotect, STATUS_MEDIA_WRITE_PROTECTED);
    (ERRnotready, STATUS_DEVICE_NOT_READY);
    (ERRbadcmd, STATUS_SMB_BAD_COMMAND);
    (ERRcrc, STATUS_DATA_ERROR);
    (ERRbadlength, STATUS_INFO_LENGTH_MISMATCH);
    (ERRsectornotfound, STATUS_NONEXISTENT_SECTOR);
    (ERRgeneral, STATUS_UNSUCCESSFUL);
    (ERRbadshare, STATUS_SHARING_VIOLATION);
    (ERRlock, STATUS_FILE_LOCK_CONFLICT);
    (ERRwrongdisk, STATUS_WRONG_VOLUME);
    (ERReof, STATUS_END_OF_FILE);
    (ERRunsup, STATUS_NOT_SUPPORTED);
    (ERRnoipc, STATUS_BAD_NETWORK_NAME);
    (ERRnosuchshare, STATUS_BAD_NETWORK_NAME);
    (ERRtoomanynames, STATUS_TOO_MANY_NAMES);
    (ERRfilexists, STATUS_OBJECT_NAME_COLLISION);
    (ERRinvalidparam, STATUS_INVALID_PARAMETER);
    (ERRinvalidname, STATUS_OBJECT_NAME_INVALID);
    (ERRunknownlevel, STATUS_INVALID_LEVEL);
    (ERRdirnotempty, STATUS_DIRECTORY_NOT_EMPTY);
    (ERRnotlocked, STATUS_RANGE_NOT_LOCKED);
    (ERRrename, STATUS_OBJECT_NAME_COLLISION);
    (ERRbadpipe, STATUS_INVALID_PIPE_STATE);
    (ERRpipebusy, STATUS_PIPE_BUSY);
    (ERRpipeclosing, STATUS_PIPE_CLOSING);
    (ERRnotconnected, STATUS_PIPE_DISCONNECTED);
    (ERRmoredata, STATUS_MORE_PROCESSING_REQUIRED);
    (ERRbadealist, STATUS_EA_TOO_LARGE);
    (ERReasunsupported, STATUS_EAS_NOT_SUPPORTED);
    (ERRnotifyenumdir, STATUS_NOTIFY_ENUM_DIR);
    (ERRinvgroup, STATUS_NETLOGON_NOT_STARTED)] STATUS_UNSUCCESSFUL.

Definition smb_srv_class_err_to_ntstatus (srvErr : Z) : Z :=
  switch srvErr [
    (ERRerror, STATUS_INSUFFICIENT_RESOURCES);
    (ERRbadpw, STATUS_WRONG_PASSWORD);
    (ERRbadpath, STATUS_PATH_NOT_COVERED);
    (ERRaccess, STATUS_NETWORK_ACCESS_DENIED);
    (ERRinvtid, STATUS_SMB_BAD_TID);
    (ERRinvnetname, STATUS_BAD_NETWORK_NAME);
    (ERRinvdevice, STATUS_BAD_DEVICE_TYPE);
    (ERRinvsess, STATUS_UNSUCCESSFUL);
    (ERRworking, STATUS_UNSUCCESSFUL);
    (ERRnotme, STATUS_UNSUCCESSFUL);
    (ERRbadcmd, STATUS_SMB_BAD_COMMAND);
    (ERRqfull, STATUS_PRINT_QUEUE_FULL);
    (ERRqtoobig, STATUS_NO_SPOOL_SPACE);
    (ERRqeof, STATUS_UNSUCCESSFUL);
    (ERRinvpfid, STATUS_PRINT_CANCELLED);
    (ERRsmbcmd, STATUS_NOT_IMPLEMENTED);
    (ERRsrverror, STATUS_UNEXPECTED_NETWORK_ERROR);
    (ERRfilespecs, STATUS_INVALID_HANDLE);
    (ERRbadpermits, STATUS_NETWORK_ACCESS_DENIED);
    (ERRsetattrmode, STATUS_INVALID_PARAMETER);
    (ERRtimeout, STATUS_IO_TIMEOUT);
    (ERRnoresource, STATUS_REQUEST_NOT_ACCEPTED);
    (ERRtoomanyuids, STATUS_TOO_MANY_SESSIONS);
    (ERRbaduid, STATUS_SMB_BAD_UID);
    (ERRnotconnected, STATUS_PIPE_DISCONNECTED);
    (ERRusempx, STATUS_NOT_IMPLEMENTED);
    (ERRusestd, STATUS_SMB_USE_STANDARD);
    (ERRcontmpx, STATUS_NOT_IMPLEMENTED);
    (ERRaccountExpired, STATUS_ACCOUNT_EXPIRED);
    (ERRbadClient, STATUS_INVALID_WORKSTATION);
    (ERRbadLogonTime, STATUS_INVALID_LOGON_HOURS);
    (ERRpasswordExpired, STATUS_PASSWORD_EXPIRED);
    (ERRnosupport, STATUS_NOT_IMPLEMENTED)] STATUS_UNSUCCESSFUL.

Definition smb_hrd_class_err_to_ntstatus (hrdErr : Z) : Z :=
  switch hrdErr [
    (ERRnowrite, STATUS_MEDIA_WRITE_PROTECTED);
    (ERRbadunit, STATUS_UNSUCCESSFUL);
    (ERRnotready, STATUS_NO_MEDIA_IN_DEVICE);
    (ERRbadcmd, STATUS_INVALID_DEVICE_STATE);
    (ERRdata, STATUS_DATA_ERROR);
    (ERRbadreq, STATUS_DATA_ERROR);
    (ERRseek, STATUS_UNSUCCESSFUL);
    (ERRbadmedia, STATUS_DISK_CORRUPT_ERROR);
    (ERRbadsector, STATUS_NONEXISTENT_SECTOR);
    (ERRnopaper, STATUS_DEVICE_PAPER_EMPTY);
    (ERRwrite, STATUS_IO_DEVICE_ERROR);
    (ERRread, STATUS_IO_DEVICE_ERROR);
    (ERRgeneral, STATUS_UNSUCCESSFUL);
    (ERRbadshare, STATUS_SHARING_VIOLATION);
    (ERRlock, STATUS_FILE_LOCK_CONFLICT);
    (ERRwrongdisk, STATUS_WRONG_VOLUME);
    (ERRFCBunavail, STATUS_UNSUCCESSFUL);
    (ERRsharebufexc, STATUS_UNSUCCESSFUL);
    (ERRdiskfull, STATUS_DISK_FULL)] STATUS_UNSUCCESSFUL.

Definition smb_errClassCodes_to_ntstatus (errClass errCode : Z) : Z :=
  if errClass =? ERRDOS_Class then smb_dos_class_err_to_ntstatus errCode
  else if errClass =? ERRSRV_Class then smb_srv_class_err_to_ntstatus errCode
  else if errClass =? ERRHRD_Class then smb_hrd_class_err_to_ntstatus errCode
  else if errClass =? SUCCESS_Class then (if errCode =? 0 then 0 else STATUS_UNSUCCESSFUL)
  else STATUS_UNSUCCESSFUL.

(** The scan of the table stops at the first row whose errno is 0. *)
Fixpoint scan_nt2errno (ntstatus : Z) (rows : list (Z * Z)) : Z :=
  match rows with
  | [] => EIO
  | (nterr, e) :: r =>
      if e =? 0 then EIO else if nterr =? ntstatus then e else scan_nt2errno ntstatus r
  end.

Definition smb_ntstatus_error_to_errno (ntstatus : Z) : Z := scan_nt2errno ntstatus nt2errno.

Definition smb_ntstatus_warning_to_errno (ntstatus : Z) : Z :=
  if ntstatus =? STATUS_BUFFER_OVERFLOW then 0
  else if ntstatus =? STATUS_NO_MORE_FILES then ENOENT
  else if ntstatus =? STATUS_STOPPED_ON_SYMLINK then EIO
  else EIO.

Definition smb_ntstatus_to_errno (ntstatus : Z) : Z :=
  let sev := Z.land ntstatus STATUS_SEVERITY_MASK in
  if sev =? STATUS_SEVERITY_SUCCESS then 0
  else if sev =? STATUS_SEVERITY_INFORMATIONAL then 0
  else if sev =? STATUS_SEVERITY_WARNING then smb_ntstatus_warning_to_errno ntstatus
  else if sev =? STATUS_SEVERITY_ERROR then smb_ntstatus_error_to_errno ntstatus
  else EIO.

(** ** Lemmas *)

Lemma scan_nonzero ntstatus rows : scan_nt2errno ntstatus rows <> 0.
Proof.
  induction rows as [|[n e] r IH]; simpl; [done|].
  destruct (Z.eqb_spec e 0); [done|]. by destruct (Z.eqb_spec n ntstatus).
Qed.

Lemma warning_zero ntstatus :
  smb_ntstatus_warning_to_errno ntstatus = 0 <-> ntstatus = STATUS_BUFFER_OVERFLOW.
Proof.
  unfold smb_ntstatus_warning_to_errno.
  destruct (Z.eqb_spec ntstatus STATUS_BUFFER_OVERFLOW); [done|].
  by destruct (ntstatus =? STATUS_NO_MORE_FILES), (ntstatus =? STATUS_STOPPED_ON_SYMLINK).
Qed.

(** [switch] on the cases of a table that fails a test nowhere else. *)
Lemma switch_cases (P : Z -> Prop) x cases dflt :
  Forall (fun kv => x = kv.1 -> P kv.2) cases -> P dflt -> P (switch x cases dflt).
Proof.
  intros Hc Hd. induction Hc as [|[k v] r Hk _ IH]; simpl; [done|].
  destruct (Z.eqb_spec x k); [by apply Hk|done].
Qed.

(** The rows of a switch whose status maps to no error. *)
Definition silent_cases (cases : list (Z * Z)) : list (Z * Z) :=
  filter (fun kv => smb_ntstatus_to_errno kv.2 = 0) cases.

Lemma switch_silent x cases dflt :
  smb_ntstatus_to_errno dflt <> 0 -> smb_ntstatus_to_errno (switch x cases dflt) = 0 ->
  x ∈ map fst (silent_cases cases).
Proof.
  intros Hd. induction cases as [|[k v] r IH]; simpl; [done|].
  unfold silent_cases. destruct (Z.eqb_spec x k) as [->|Hne]; intros Hz.
  - rewrite filter_cons_True by done. left.
  - destruct (decide (smb_ntstatus_to_errno v = 0));
      [rewrite filter_cons_True by done; right|rewrite filter_cons_False by done]; by apply IH.
Qed.

(** ** Theorems *)

(** Which status codes count as success: exactly those of success and
    informational severity, and [STATUS_BUFFER_OVERFLOW].  In particular no
    code of error severity is ever turned into success, whether the table knows
    it or not. *)
Theorem ntstatus_to_errno_zero ntstatus :
  smb_ntstatus_to_errno ntstatus = 0 <->
  Z.land ntstatus STATUS_SEVERITY_MASK = STATUS_SEVERITY_SUCCESS \/
  Z.land ntstatus STATUS_SEVERITY_MASK = STATUS_SEVERITY_INFORMATIONAL \/
  ntstatus = STATUS_BUFFER_OVERFLOW.
Proof.
  unfold smb_ntstatus_to_errno.
  destruct (Z.eqb_spec (Z.land ntstatus STATUS_SEVERITY_MASK) STATUS_SEVERITY_SUCCESS) as [E1|E1]; [tauto|].
  destruct (Z.eqb_spec (Z.land ntstatus STATUS_SEVERITY_MASK) STATUS_SEVERITY_INFORMATIONAL) as [E2|E2]; [tauto|].
  destruct (Z.eqb_spec (Z.land ntstatus STATUS_SEVERITY_MASK) STATUS_SEVERITY_WARNING) as [E3|E3].
  { rewrite warning_zero. tauto. }
  assert (ntstatus <> STATUS_BUFFER_OVERFLOW) as Hbo by (by intros ->).
  destruct (Z.eqb_spec (Z.land ntstatus STATUS_SEVERITY_MASK) STATUS_SEVERITY_ERROR) as [E4|E4].
  - pose proof (scan_nonzero ntstatus nt2errno). unfold smb_ntstatus_error_to_errno. tauto.
  - split; [done|]. tauto.
Qed.

(** Every row of the table is effective: no status occurs twice, each has error
    severity and each is mapped to the errno of its row by
    [smb_ntstatus_to_errno]. *)
Theorem nt2errno_effective :
  NoDup (map fst nt2errno) /\
  Forall (fun row => smb_ntstatus_to_errno row.1 = row.2 /\ row.2 <> 0) nt2errno.
Proof.
  split.
  - apply (bool_decide_unpack _). by vm_compute.
  - apply (bool_decide_unpack _). by vm_compute.
Qed.

(** The SMB 1 error classes: a class/code pair other than success/0 ends up as
    errno 0 for exactly two codes.  One is meant ([ERRnotifyenumdir], "something
    changed").  The other is [ERRSRV]/[ERRbaduid]: [STATUS_SMB_BAD_UID] has the
    severity bits of a success, so that a reply telling that the user ID is bad
    is taken for a success. *)
Theorem errClassCodes_silent errClass errCode :
  smb_ntstatus_to_errno (smb_errClassCodes_to_ntstatus errClass errCode) = 0 <->
  (errClass = SUCCESS_Class /\ errCode = 0) \/
  (errClass = ERRDOS_Class /\ errCode = ERRnotifyenumdir) \/
  (errClass = ERRSRV_Class /\ errCode = ERRbaduid).
Proof.
  split.
  - unfold smb_errClassCodes_to_ntstatus.
    destruct (Z.eqb_spec errClass ERRDOS_Class) as [->|H1].
    { intros Hz. apply switch_silent in Hz; [|done]. apply list_elem_of_singleton in Hz. auto. }
    destruct (Z.eqb_spec errClass ERRSRV_Class) as [->|H2].
    { intros Hz. apply switch_silent in Hz; [|done]. apply list_elem_of_singleton in Hz. auto. }
    destruct (Z.eqb_spec errClass ERRHRD_Class) as [->|H3].
    { intros Hz. apply switch_silent in Hz; [|done]. by apply not_elem_of_nil in Hz. }
    destruct (Z.eqb_spec errClass SUCCESS_Class), (Z.eqb_spec errCode 0); try done. auto.
  - intros [[-> ->]|[[-> ->]|[-> ->]]]; by vm_compute.
Qed.
