(* ===== verification/Credits.v ===== *)
(** * SMB 2/3 crediting: [kernel/netsmb/smb_rq_2.c]

    A channel ([struct smbiod]) counts the credits the server has granted and
    hands out message IDs.  Every function below holds [iod_credits_lock] while
    it touches the counters, so that each is one step on the channel; the waits
    of [smb2_rq_credit_decrement] give the lock up, and what other threads do
    meanwhile comes in as events. *)

From S2P Require Import Prelude.
Import Errno.

Definition kCREDIT_REQUEST_AMT := 256.
Definition kCREDIT_LOW_WATER := 10.
Definition kCREDIT_MIN_AMT := 1.
Definition kCREDIT_MAX_AMT := 65535.
Definition UINT64_MAX := 2 ^ 64 - 1.

Definition SMB2_NEGOTIATE := 0x00.
Definition SMB2_SESSION_SETUP := 0x01.
Definition SMB2_LOGOFF := 0x02.
Definition SMB2_TREE_CONNECT := 0x03.
Definition SMB2_CANCEL := 0x0c.
Definition SMB2_ECHO := 0x0d.
Definition SMB2_OPLOCK_BREAK := 0x12.

(** The crediting fields of [struct smbiod]; [iod_woken] counts the calls of
    [wakeup(&iod->iod_credits_wait)]. *)
Record smbiod := mk_iod {
  iod_shutdown : bool;
  iod_message_id : Z;
  iod_credits_granted : Z;
  iod_credits_ss_granted : Z;
  iod_credits_max : Z;
  iod_credits_wait : Z;
  iod_req_pending : Z;
  iod_oldest_message_id : Z;
  iod_woken : nat
}.

(** The part of [struct smb_rq] crediting uses.  [sr_iod_context] says whether
    the context of the request is the one of the session's main channel, that
    is, whether this is a reconnect request; [sr_smb2] whether the session
    speaks SMB 2/3; [sr_no_block] is the flag [SMB2_REQ_NO_BLOCK]. *)
Record smb_rq := mk_rq {
  sr_command : Z;
  sr_creditcharge : Z;
  sr_creditsrequested : Z;
  sr_rspcreditsgranted : Z;
  sr_has_session : bool;
  sr_smb2 : bool;
  sr_iod_context : bool;
  sr_no_block : bool;
  sr_messageid : Z
}.

Definition set_charge (r : smb_rq) c := mk_rq (sr_command r) c (sr_creditsrequested r)
  (sr_rspcreditsgranted r) (sr_has_session r) (sr_smb2 r) (sr_iod_context r) (sr_no_block r) (sr_messageid r).
Definition set_requested (r : smb_rq) c := mk_rq (sr_command r) (sr_creditcharge r) c
  (sr_rspcreditsgranted r) (sr_has_session r) (sr_smb2 r) (sr_iod_context r) (sr_no_block r) (sr_messageid r).
Definition set_rspgranted (r : smb_rq) c := mk_rq (sr_command r) (sr_creditcharge r) (sr_creditsrequested r)
  c (sr_has_session r) (sr_smb2 r) (sr_iod_context r) (sr_no_block r) (sr_messageid r).
Definition set_messageid (r : smb_rq) c := mk_rq (sr_command r) (sr_creditcharge r) (sr_creditsrequested r)
  (sr_rspcreditsgranted r) (sr_has_session r) (sr_smb2 r) (sr_iod_context r) (sr_no_block r) c.

Definition set_granted (i : smbiod) c := mk_iod (iod_shutdown i) (iod_message_id i) c
  (iod_credits_ss_granted i) (iod_credits_max i) (iod_credits_wait i) (iod_req_pending i)
  (iod_oldest_message_id i) (iod_woken i).
Definition set_ss_granted (i : smbiod) c := mk_iod (iod_shutdown i) (iod_message_id i) (iod_credits_granted i)
  c (iod_credits_max i) (iod_credits_wait i) (iod_req_pending i)
  (iod_oldest_message_id i) (iod_woken i).
Definition set_max (i : smbiod) c := mk_iod (iod_shutdown i) (iod_message_id i) (iod_credits_granted i)
  (iod_credits_ss_granted i) c (iod_credits_wait i) (iod_req_pending i)
  (iod_oldest_message_id i) (iod_woken i).
Definition set_wait (i : smbiod) c := mk_iod (iod_shutdown i) (iod_message_id i) (iod_credits_granted i)
  (iod_credits_ss_granted i) (iod_credits_max i) c (iod_req_pending i)
  (iod_oldest_message_id i) (iod_woken i).
Definition set_message_id (i : smbiod) c := mk_iod (iod_shutdown i) c (iod_credits_granted i)
  (iod_credits_ss_granted i) (iod_credits_max i) (iod_credits_wait i) (iod_req_pending i)
  (iod_oldest_message_id i) (iod_woken i).

(** [if (iod->iod_credits_wait) { OSAddAtomic(-1, ..); wakeup(..); }] *)
Definition wake_waiter (i : smbiod) : smbiod :=
  if iod_credits_wait i =? 0 then i
  else mk_iod (iod_shutdown i) (iod_message_id i) (iod_credits_granted i)
    (iod_credits_ss_granted i) (iod_credits_max i) (i32 (iod_credits_wait i - 1)) (iod_req_pending i)
    (iod_oldest_message_id i) (S (iod_woken i)).

(** [OSAddAtomic(0, &iod->iod_credits_granted)]: the counter read as a signed int. *)
Definition curr_credits (i : smbiod) : Z := i32 (iod_credits_granted i).

Definition CREDIT_UNIT := 64 * 1024.

(** Returns the length allowed and the request with its credit charge. *)
Definition smb2_rq_credit_check (rqp : smb_rq) (iod : smbiod) (len : Z) : Z * smb_rq :=
  if len <=? CREDIT_UNIT then (len, rqp)
  else
    let curr := curr_credits iod in
    if curr <=? kCREDIT_LOW_WATER then (CREDIT_UNIT, rqp)
    else
      let credit_charge16 := i16 ((len - 1) `div` CREDIT_UNIT + 1) in
      let credit_charge32 := credit_charge16 in
      if curr <? credit_charge32 + kCREDIT_LOW_WATER then
        (u32 (i32 ((curr - kCREDIT_LOW_WATER) * CREDIT_UNIT)),
         set_charge rqp (u16 (i16 (curr - kCREDIT_LOW_WATER))))
      else (len, set_charge rqp (u16 credit_charge16)).

(** The distance of the next message ID to the oldest pending one (lines
    333-340 of the file: the two branches of the computation). *)
Definition message_id_diff (iod : smbiod) : Z :=
  if iod_oldest_message_id iod <? iod_message_id iod
  then iod_message_id iod - iod_oldest_message_id iod
  else u64 (UINT64_MAX - iod_oldest_message_id iod + iod_message_id iod).

(** The tests that let a request go out without waiting. *)
Definition send_window_open (iod : smbiod) : bool :=
  (kCREDIT_MIN_AMT <=? curr_credits iod) &&
  ((iod_req_pending iod =? 0) || (message_id_diff iod <=? u64 (curr_credits iod))).

(** One pass of the body of [for (;;)] up to the sleep: the result with which
    the loop ends, or [None] when the thread has to sleep.  [gone] is the answer
    of [ss_going_away] when the share has one. *)
Definition credit_gate (rqp : smb_rq) (iod : smbiod) (gone : bool) : option Z :=
  if send_window_open iod then Some 0
  else if (sr_command rqp =? SMB2_ECHO) || sr_no_block rqp then Some ENOBUFS
  else if gone then Some ENXIO
  else if iod_shutdown iod then Some ENXIO
  else None.

(** What happens while the lock is not held: [msleep] returns [ret] after the
    other threads have changed the channel, or [smb_session_force_reconnect]
    comes back.  Each carries the answer of [ss_going_away] afterwards. *)
Inductive event :=
| Slept (ret : Z) (others : smbiod -> smbiod) (gone : bool)
| Reconnected (others : smbiod -> smbiod) (gone : bool).

(** The sleep loop, [i] rounds of at most 60 left, then back to the gate.
    [None]: the events are used up and the thread still waits. *)
Fixpoint credit_sleep (rqp : smb_rq) (evs : list event) (i : nat) (iod : smbiod)
  : option (Z * smbiod) :=
  let iod1 := set_wait iod (i32 (iod_credits_wait iod + 1)) in
  let again (evs' : list event) (j : smbiod) (gone : bool) :=
    match credit_gate rqp j gone with
    | Some e => Some (e, j)
    | None => credit_sleep rqp evs' 60 j
    end in
  match evs with
  | Slept ret others gone :: evs' =>
      let iod2 := others iod1 in
      if ret =? EWOULDBLOCK then
        let iod3 := if iod_credits_wait iod2 =? 0 then iod2
                    else set_wait iod2 (i32 (iod_credits_wait iod2 - 1)) in
        if gone then Some (ENXIO, iod3)
        else if 0 <? curr_credits iod3 then again evs' iod3 gone
        else match i with
             | S (S k) => credit_sleep rqp evs' (S k) iod3
             | _ =>
                 match evs' with
                 | Reconnected g gone' :: evs'' => 
                     match credit_gate rqp (g iod3) gone' with
                     | Some e => Some (e, g iod3)
                     | None => credit_sleep rqp evs'' 60 (g iod3)
                     end
                 | _ => None
                 end
             end
      else again evs' iod2 gone
  | _ => None
  end.

Definition credit_wait (rqp : smb_rq) (evs : list event) (iod : smbiod) (gone : bool)
  : option (Z * smbiod) :=
  match credit_gate rqp iod gone with
  | Some e => Some (e, iod)
  | None => credit_sleep rqp evs 60 iod
  end.

(** Lines 460-490: the part after the wait. *)
Definition credit_take (rqp : smb_rq) (iod : smbiod) (rq_len : option Z) : smb_rq * smbiod * option Z :=
  let '(rqp1, len1) :=
    match rq_len with
    | Some l => let '(l', r') := smb2_rq_credit_check rqp iod l in (r', Some l')
    | None => (rqp, None)
    end in
  let iod1 := set_granted iod (u32 (iod_credits_granted iod - i16 (sr_creditcharge rqp1))) in
  let rqp2 := if curr_credits iod1 <? kCREDIT_MAX_AMT then set_requested rqp1 kCREDIT_REQUEST_AMT else rqp1 in
  (rqp2, iod1, len1).

(** [None]: the thread is still waiting for credits. *)
Definition smb2_rq_credit_decrement (rqp : smb_rq) (iod : smbiod) (rq_len : option Z)
    (evs : list event) (gone : bool) : option (Z * smb_rq * smbiod * option Z) :=
  let regular :=
    match credit_wait rqp evs iod gone with
    | None => None
    | Some (e, iod1) =>
        if negb (e =? 0) then Some (e, rqp, iod1, rq_len)
        else let '(r, j, l) := credit_take rqp iod1 rq_len in Some (0, r, j, l)
    end in
  if negb (sr_has_session rqp) then Some (ENOMEM, rqp, iod, rq_len)
  else if sr_command rqp =? SMB2_NEGOTIATE then
    Some (0, set_requested (set_charge rqp 0) 0,
          set_max (set_ss_granted (set_granted iod 0) 0) 0, rq_len)
  else if sr_command rqp =? SMB2_SESSION_SETUP then
    Some (0, set_requested rqp kCREDIT_REQUEST_AMT, iod, rq_len)
  else if sr_command rqp =? SMB2_TREE_CONNECT then
    Some (0, set_requested rqp kCREDIT_REQUEST_AMT, iod, rq_len)
  else if sr_command rqp =? SMB2_LOGOFF then Some (0, rqp, iod, rq_len)
  else if sr_command rqp =? SMB2_OPLOCK_BREAK then regular
  else if negb (sr_smb2 rqp) then Some (ERPCMISMATCH, rqp, iod, rq_len)
  else if sr_iod_context rqp then Some (0, rqp, iod, rq_len)
  else regular.

Definition smb2_rq_credit_increment (rqp : smb_rq) (iod : smbiod) : Z * smbiod :=
  let to_ss := set_ss_granted iod (u32 (iod_credits_ss_granted iod + sr_rspcreditsgranted rqp)) in
  let regular :=
    let iod1 := set_granted iod (u32 (iod_credits_granted iod + sr_rspcreditsgranted rqp)) in
    let curr := curr_credits iod1 in
    let iod2 := if (iod_credits_max iod1 <? u32 curr) && (curr <? kCREDIT_MAX_AMT)
                then set_max iod1 (u32 curr) else iod1 in
    wake_waiter iod2 in
  if sr_rspcreditsgranted rqp =? 0 then (0, iod)
  else if negb (sr_has_session rqp) then (ENOMEM, iod)
  else if (sr_command rqp =? SMB2_NEGOTIATE) || (sr_command rqp =? SMB2_LOGOFF) then (0, iod)
  else if sr_command rqp =? SMB2_SESSION_SETUP then (0, to_ss)
  else if sr_command rqp =? SMB2_TREE_CONNECT then
    (if sr_iod_context rqp then (0, to_ss) else (0, regular))
  else if sr_command rqp =? SMB2_OPLOCK_BREAK then (0, regular)
  else if sr_iod_context rqp then (0, iod)
  else (0, regular).

Definition smb2_rq_credit_start (iod : smbiod) (credits : Z) : smbiod :=
  let g := if credits =? 0 then u32 (iod_credits_granted iod + iod_credits_ss_granted iod)
           else u32 (iod_credits_granted iod + credits) in
  wake_waiter (mk_iod (iod_shutdown iod) (iod_message_id iod) g (iod_credits_ss_granted iod) g
    (iod_credits_wait iod) 0 0 (iod_woken iod)).

(** [OSAddAtomic64(n, &iod->iod_message_id)] returns the old value. *)
Definition take_message_id (iod : smbiod) (n : Z) : Z * smbiod :=
  (iod_message_id iod, set_message_id iod (u64 (iod_message_id iod + n))).

(** The requests of a compound chain get their IDs in turn. *)
Fixpoint assign_ids (rqs : list smb_rq) (iod : smbiod) : list smb_rq * smbiod :=
  match rqs with
  | [] => ([], iod)
  | r :: rest =>
      let '(id, iod1) := take_message_id iod (sr_creditcharge r) in
      let '(rest', iod2) := assign_ids rest iod1 in
      (set_messageid r id :: rest', iod2)
  end.

(** [rest] are the requests chained by [sr_next_rqp]; they are visited only when
    [compound], the flag [SMBR_COMPOUND_RQ]. *)
Definition smb2_rq_message_id_increment (rqp : smb_rq) (rest : list smb_rq) (compound : bool)
    (iod : smbiod) : Z * smb_rq * list smb_rq * smbiod :=
  if negb (sr_has_session rqp) then (ENOMEM, rqp, rest, iod)
  else if sr_command rqp =? SMB2_NEGOTIATE then
    let '(id, iod1) := take_message_id iod 1 in (0, set_messageid rqp id, rest, iod1)
  else if compound then
    let '(id, iod1) := take_message_id iod (sr_creditcharge rqp) in
    let '(rest', iod2) := assign_ids rest iod1 in
    (0, set_messageid rqp id, rest', iod2)
  else
    let '(id, iod1) := take_message_id iod (sr_creditcharge rqp) in
    (0, set_messageid rqp id, rest, iod1).

(** ** Invariants *)

(** The counters are in range and the credit count is not negative when read as
    a signed integer. *)
Record iod_ok (i : smbiod) : Prop := {
  ok_granted : 0 <= iod_credits_granted i < 2 ^ 31;
  ok_id : 0 <= iod_message_id i < 2 ^ 64;
  ok_oldest : 0 <= iod_oldest_message_id i < 2 ^ 64;
  ok_wait : - 2 ^ 31 <= iod_credits_wait i < 2 ^ 31
}.

(** A request as [smb2_rq_init_internal] sets it up. *)
Definition rq_fresh (r : smb_rq) : Prop := sr_creditcharge r = 1 /\ sr_has_session r = true.

(** The requests that go through the regular crediting code. *)
Definition regular (r : smb_rq) : Prop :=
  sr_command r = SMB2_OPLOCK_BREAK \/
  (sr_smb2 r = true /\ sr_iod_context r = false /\
   sr_command r <> SMB2_NEGOTIATE /\ sr_command r <> SMB2_SESSION_SETUP /\
   sr_command r <> SMB2_TREE_CONNECT /\ sr_command r <> SMB2_LOGOFF).

Definition keeps_ok (e : event) : Prop :=
  match e with Slept _ f _ | Reconnected f _ => forall i, iod_ok i -> iod_ok (f i) end.

(** The longest request whose charge fits the 16-bit charge. *)
Definition MAX_CREDIT_LEN := 32767 * CREDIT_UNIT.

(** ** Lemmas *)

Lemma i16_small x : - 2 ^ 15 <= x < 2 ^ 15 -> i16 x = x.
Proof. intros ?. apply swrap_small; lia. Qed.

Lemma curr_credits_ok i : iod_ok i -> curr_credits i = iod_credits_granted i.
Proof. intros [? _ _ _]. apply i32_small. lia. Qed.

Lemma set_wait_ok i c : iod_ok i -> - 2 ^ 31 <= c < 2 ^ 31 -> iod_ok (set_wait i c).
Proof. intros [? ? ? ?] ?. by split. Qed.

Lemma set_granted_ok i c : iod_ok i -> 0 <= c < 2 ^ 31 -> iod_ok (set_granted i c).
Proof. intros [? ? ? ?] ?. by split. Qed.

#[export] Hint Resolve set_wait_ok set_granted_ok i32_range : smb.

Lemma charge_bound len : CREDIT_UNIT < len <= MAX_CREDIT_LEN ->
  1 < (len - 1) `div` CREDIT_UNIT + 1 <= 32767 /\ len <= ((len - 1) `div` CREDIT_UNIT + 1) * CREDIT_UNIT.
Proof.
  change MAX_CREDIT_LEN with (32767 * 65536). change CREDIT_UNIT with 65536. intros Hl.
  pose proof (Z.div_mod (len - 1) 65536 ltac:(lia)) as E.
  pose proof (Z.mod_pos_bound (len - 1) 65536 ltac:(lia)). lia.
Qed.

(** What [smb2_rq_credit_check] decides. *)
Lemma credit_check_spec rqp iod len l' r' :
  iod_ok iod -> 1 <= iod_credits_granted iod -> sr_creditcharge rqp = 1 ->
  0 <= len <= MAX_CREDIT_LEN -> smb2_rq_credit_check rqp iod len = (l', r') ->
  l' <= len /\ (0 < len -> 0 < l') /\ l' <= sr_creditcharge r' * CREDIT_UNIT /\
  1 <= sr_creditcharge r' <= 32767 /\
  (sr_creditcharge r' = 1 \/ sr_creditcharge r' + kCREDIT_LOW_WATER <= iod_credits_granted iod) /\
  r' = set_charge rqp (sr_creditcharge r').
Proof.
  intros Hok Hc Hr Hlen. unfold smb2_rq_credit_check. rewrite curr_credits_ok by done.
  destruct (Z.leb_spec len CREDIT_UNIT) as [Hs|Hs].
  { intros [= <- <-]. rewrite Hr. split_and!; try lia. rewrite <- Hr. by destruct rqp. }
  destruct (Z.leb_spec (iod_credits_granted iod) kCREDIT_LOW_WATER) as [Hw|Hw].
  { intros [= <- <-]. rewrite Hr. unfold CREDIT_UNIT in *.
    split_and!; try lia. rewrite <- Hr. by destruct rqp. }
  destruct (charge_bound len) as [Hb Hb2]; [lia|].
  rewrite i16_small by lia. unfold kCREDIT_LOW_WATER in *.
  destruct (Z.ltb_spec (iod_credits_granted iod) ((len - 1) `div` CREDIT_UNIT + 1 + 10)) as [Hsh|Hsh];
    intros [= <- <-]; simpl.
  - change MAX_CREDIT_LEN with (32767 * 65536) in *. change CREDIT_UNIT with 65536 in *.
    rewrite i32_small, u32_small, i16_small, u16_small by lia.
    pose proof (Z.div_mod (len - 1) 65536 ltac:(lia)) as E.
    pose proof (Z.mod_pos_bound (len - 1) 65536 ltac:(lia)).
    split_and!; try done; lia.
  - rewrite u16_small by lia. split_and!; try done; lia.
Qed.

Lemma gate_zero rqp iod gone : credit_gate rqp iod gone = Some 0 -> send_window_open iod = true.
Proof.
  unfold credit_gate. destruct (send_window_open iod); [done|].
  destruct ((sr_command rqp =? SMB2_ECHO) || sr_no_block rqp); [done|]. destruct gone; [done|]. by destruct (iod_shutdown iod).
Qed.

Lemma gate_results rqp iod gone e :
  credit_gate rqp iod gone = Some e -> e = 0 \/ e = ENOBUFS \/ e = ENXIO.
Proof.
  unfold credit_gate. destruct (send_window_open iod); [by intros [= <-]; left|].
  destruct ((sr_command rqp =? SMB2_ECHO) || sr_no_block rqp); [by intros [= <-]; right; left|].
  destruct gone; [by intros [= <-]; right; right|].
  destruct (iod_shutdown iod); [by intros [= <-]; right; right|done].
Qed.

Lemma window_open_credits iod : iod_ok iod -> send_window_open iod = true -> 1 <= iod_credits_granted iod.
Proof.
  intros Hok Hw. unfold send_window_open in Hw. apply andb_prop in Hw as [Hw _].
  rewrite curr_credits_ok in Hw by done. by apply Z.leb_le in Hw.
Qed.

(** The wait hands back a good channel, and 0 only at an open window. *)
Definition wait_ok (res : option (Z * smbiod)) : Prop :=
  forall e j, res = Some (e, j) ->
    iod_ok j /\ (e = 0 -> send_window_open j = true) /\ (e = 0 \/ e = ENOBUFS \/ e = ENXIO).

Lemma gate_wait_ok rqp j gone k : iod_ok j -> wait_ok k ->
  wait_ok (match credit_gate rqp j gone with Some e => Some (e, j) | None => k end).
Proof.
  intros Hj Hk e j'. destruct (credit_gate rqp j gone) as [e'|] eqn:E; [|by apply Hk].
  intros [= <- <-]. split_and!; [done| |by eapply gate_results]. intros ->. by eapply gate_zero.
Qed.

Lemma credit_sleep_ok rqp evs : forall i iod,
  Forall keeps_ok evs -> iod_ok iod -> wait_ok (credit_sleep rqp evs i iod).
Proof.
  (* strong induction, since a reconnect uses up two events *)
  induction evs as [evs IH] using (induction_ltof1 _ (@length event)). unfold ltof in IH.
  intros i iod Hk Hok. destruct evs as [|[ret f gone|g gone] evs']; [done| |done].
  apply list.Forall_cons in Hk as [Hf Hk]. simpl in Hf.
  assert (iod_ok (f (set_wait iod (i32 (iod_credits_wait iod + 1))))) as H2 by auto with smb.
  cbn [credit_sleep]. set (iod2 := f _) in *.
  destruct (ret =? EWOULDBLOCK); [|apply gate_wait_ok; [done|apply IH; simpl; auto]].
  set (iod3 := if iod_credits_wait iod2 =? 0 then iod2
               else set_wait iod2 (i32 (iod_credits_wait iod2 - 1))).
  assert (iod_ok iod3) as H3 by (subst iod3; destruct (iod_credits_wait iod2 =? 0); auto with smb).
  destruct gone; [intros e j [= <- <-]; split_and!; try done; by right; right|].
  destruct (0 <? curr_credits iod3); [apply gate_wait_ok; [done|apply IH; simpl; auto]|].
  assert (wait_ok (match evs' with
    | Reconnected g gone' :: evs'' =>
        match credit_gate rqp (g iod3) gone' with
        | Some e => Some (e, g iod3)
        | None => credit_sleep rqp evs'' 60 (g iod3)
        end
    | _ => None end)) as Hrec.
  { destruct evs' as [|[?|g gone'] evs'']; [done|done|].
    apply list.Forall_cons in Hk as [Hg Hk]. simpl in Hg.
    apply gate_wait_ok; [auto|]. apply IH; simpl; auto. }
  destruct i as [|[|k]]; [done|done|]. apply IH; simpl; auto.
Qed.

Lemma credit_wait_ok rqp evs iod gone :
  Forall keeps_ok evs -> iod_ok iod -> wait_ok (credit_wait rqp evs iod gone).
Proof. intros Hk Hok. apply gate_wait_ok; [done|]. by apply credit_sleep_ok. Qed.

Lemma decrement_regular rqp iod rq_len evs gone :
  sr_has_session rqp = true -> regular rqp ->
  smb2_rq_credit_decrement rqp iod rq_len evs gone =
    match credit_wait rqp evs iod gone with
    | None => None
    | Some (e, iod1) =>
        if negb (e =? 0) then Some (e, rqp, iod1, rq_len)
        else let '(r, j, l) := credit_take rqp iod1 rq_len in Some (0, r, j, l)
    end.
Proof.
  intros Hs Hr. unfold smb2_rq_credit_decrement. rewrite Hs. simpl.
  destruct Hr as [->|(-> & -> & H1 & H2 & H3 & H4)]; [done|]. simpl.
  rewrite (proj2 (Z.eqb_neq _ _) H1), (proj2 (Z.eqb_neq _ _) H2),
    (proj2 (Z.eqb_neq _ _) H3), (proj2 (Z.eqb_neq _ _) H4).
  by destruct (sr_command rqp =? SMB2_OPLOCK_BREAK).
Qed.

(** The credits taken at an open window. *)
Lemma credit_take_spec rqp iod rq_len r j l :
  iod_ok iod -> send_window_open iod = true -> sr_creditcharge rqp = 1 ->
  (forall n, rq_len = Some n -> 0 <= n <= MAX_CREDIT_LEN) ->
  credit_take rqp iod rq_len = (r, j, l) ->
  iod_ok j /\ iod_credits_granted j = iod_credits_granted iod - sr_creditcharge r /\
  1 <= sr_creditcharge r /\
  (forall n, rq_len = Some n -> exists n', l = Some n' /\ n' <= n /\ (0 < n -> 0 < n') /\
     n' <= sr_creditcharge r * CREDIT_UNIT).
Proof.
  intros Hok Hw Hr Hlen. pose proof (window_open_credits iod Hok Hw) as Hc. unfold credit_take.
  destruct rq_len as [n|].
  - specialize (Hlen n eq_refl). destruct (smb2_rq_credit_check rqp iod n) as [l' r'] eqn:E.
    apply credit_check_spec in E as (H1 & H2 & H3 & H4 & H5 & _); try done.
    set (j1 := set_granted iod _). intros [= <- <- <-].
    assert (sr_creditcharge (if curr_credits j1 <? kCREDIT_MAX_AMT then set_requested r' kCREDIT_REQUEST_AMT else r')
      = sr_creditcharge r') as -> by (by destruct (_ <? _)).
    assert (iod_credits_granted j1 = iod_credits_granted iod - sr_creditcharge r') as Hg.
    { subst j1. simpl. unfold kCREDIT_LOW_WATER in H5. destruct Hok.
      rewrite i16_small, u32_small; lia. }
    unfold kCREDIT_LOW_WATER in H5. split_and!; try done; try lia.
    + subst j1. apply set_granted_ok; [done|]. simpl in Hg. rewrite Hg. destruct Hok. lia.
    + intros ? [= <-]. exists l'. auto.
  - set (j1 := set_granted iod _). intros [= <- <- <-].
    assert (sr_creditcharge (if curr_credits j1 <? kCREDIT_MAX_AMT then set_requested rqp kCREDIT_REQUEST_AMT else rqp)
      = 1) as -> by (by destruct (_ <? _)).
    assert (iod_credits_granted j1 = iod_credits_granted iod - 1) as Hg.
    { subst j1. simpl. rewrite Hr. destruct Hok. rewrite i16_small, u32_small; lia. }
    split_and!; try done; try lia.
    subst j1. apply set_granted_ok; [done|]. simpl in Hg. rewrite Hg. destruct Hok. lia.
Qed.

(** Taking credits changes only the charge and the credits asked for. *)
Lemma credit_take_rq rqp iod rq_len r j l :
  credit_take rqp iod rq_len = (r, j, l) ->
  sr_command r = sr_command rqp /\ sr_has_session r = sr_has_session rqp /\ (regular rqp -> regular r).
Proof.
  unfold credit_take. destruct rq_len as [n|].
  - destruct (smb2_rq_credit_check rqp iod n) as [l' r'] eqn:E. intros [= <- _ _].
    assert (r' = set_charge rqp (sr_creditcharge r')) as ->.
    { unfold smb2_rq_credit_check in E.
      repeat match type of E with context [if ?b then _ else _] => destruct b end;
        injection E as _ <-; by destruct rqp. }
    by destruct (_ <? _).
  - intros [= <- _ _]. by destruct (_ <? _).
Qed.

(** One operation of a channel in normal use: a request that takes credits
    without having to wait, or a reply that grants some. *)
Inductive credit_op :=
| OpSend (rqp : smb_rq) (rq_len : option Z)
| OpReply (rqp : smb_rq).

Definition op_valid (o : credit_op) : Prop :=
  match o with
  | OpSend r l => rq_fresh r /\ regular r /\ (forall n, l = Some n -> 0 <= n <= MAX_CREDIT_LEN)
  | OpReply r => sr_has_session r = true /\ regular r /\ 0 <= sr_rspcreditsgranted r < 2 ^ 16
  end.

(** Runs the operations; the totals of credits charged and granted. *)
Fixpoint run_ops (ops : list credit_op) (iod : smbiod) : option (smbiod * Z * Z) :=
  match ops with
  | [] => Some (iod, 0, 0)
  | OpSend r l :: rest =>
      match smb2_rq_credit_decrement r iod l [] false with
      | Some (0, r', iod1, _) =>
          match run_ops rest iod1 with
          | Some (j, c, g) => Some (j, sr_creditcharge r' + c, g)
          | None => None
          end
      | _ => None
      end
  | OpReply r :: rest =>
      match run_ops rest (smb2_rq_credit_increment r iod).2 with
      | Some (j, c, g) => Some (j, c, sr_rspcreditsgranted r + g)
      | None => None
      end
  end.

Definition op_grant (o : credit_op) : Z :=
  match o with OpSend _ _ => 0 | OpReply r => sr_rspcreditsgranted r end.

Definition total_granted (ops : list credit_op) : Z := foldr (fun o a => op_grant o + a) 0 ops.

Lemma wake_waiter_ok i : iod_ok i -> iod_ok (wake_waiter i) /\
  iod_credits_granted (wake_waiter i) = iod_credits_granted i.
Proof.
  intros Hok. unfold wake_waiter. destruct (_ =? 0); [done|]. split; [|done].
  destruct Hok. split; simpl; try done. apply i32_range.
Qed.

Lemma increment_regular r iod : iod_ok iod -> sr_has_session r = true -> regular r ->
  0 <= sr_rspcreditsgranted r -> iod_credits_granted iod + sr_rspcreditsgranted r < 2 ^ 31 ->
  iod_ok (smb2_rq_credit_increment r iod).2 /\
  iod_credits_granted (smb2_rq_credit_increment r iod).2 =
    iod_credits_granted iod + sr_rspcreditsgranted r.
Proof.
  intros Hok Hs Hr H0 Hb. unfold smb2_rq_credit_increment.
  destruct (Z.eqb_spec (sr_rspcreditsgranted r) 0) as [E|E].
  { rewrite E. simpl. split; [done|lia]. }
  rewrite Hs. simpl. set (j1 := set_granted iod _).
  assert (iod_credits_granted j1 = iod_credits_granted iod + sr_rspcreditsgranted r) as Hg.
  { subst j1. simpl. destruct Hok. apply u32_small. lia. }
  assert (iod_ok j1) as Hj1 by (split; rewrite ?Hg; destruct Hok; simpl; lia).
  set (j2 := if _ && _ then _ else j1).
  assert (iod_ok j2 /\ iod_credits_granted j2 = iod_credits_granted j1) as [Hj2 Hg2].
  { subst j2. destruct (_ && _); [|done]. split; [|done]. destruct Hj1. by split. }
  pose proof (wake_waiter_ok j2 Hj2) as [Hw1 Hw2].
  assert (iod_ok (wake_waiter j2) /\ iod_credits_granted (wake_waiter j2) =
    iod_credits_granted iod + sr_rspcreditsgranted r) as Hreg by (split; congruence).
  destruct Hr as [->|(_ & -> & H1 & H2 & H3 & H4)]; [done|].
  rewrite (proj2 (Z.eqb_neq _ _) H1), (proj2 (Z.eqb_neq _ _) H2),
    (proj2 (Z.eqb_neq _ _) H3), (proj2 (Z.eqb_neq _ _) H4). simpl.
  by destruct (sr_command r =? SMB2_OPLOCK_BREAK).
Qed.

Lemma total_granted_nonneg ops : Forall op_valid ops -> 0 <= total_granted ops.
Proof.
  induction 1 as [|o r Ho _ IH]; simpl; [done|]. destruct o; simpl in *; lia.
Qed.

Definition sum_charges (rqs : list smb_rq) : Z := foldr (fun r a => sr_creditcharge r + a) 0 rqs.

Lemma assign_ids_spec rqs : forall iod,
  Forall (fun r => 0 <= sr_creditcharge r) rqs -> 0 <= iod_message_id iod ->
  iod_message_id iod + sum_charges rqs < 2 ^ 64 ->
  iod_message_id (assign_ids rqs iod).2 = iod_message_id iod + sum_charges rqs /\
  map sr_creditcharge (assign_ids rqs iod).1 = map sr_creditcharge rqs /\
  forall i r, (assign_ids rqs iod).1 !! i = Some r ->
    sr_messageid r = iod_message_id iod + sum_charges (take i rqs).
Proof.
  induction rqs as [|r rest IH]; intros iod Hc H0 Hb.
  - simpl in *. split_and!; [lia|done|]. by intros [|i] r.
  - apply list.Forall_cons in Hc as [Hr Hc]. simpl in Hb.
    assert (0 <= sum_charges rest) as Hs.
    { clear -Hc. induction Hc; simpl; lia. }
    cbn [assign_ids take_message_id].
    specialize (IH (set_message_id iod (u64 (iod_message_id iod + sr_creditcharge r)))).
    simpl in IH. rewrite u64_small in IH |- * by lia.
    destruct IH as (I1 & I2 & I3); [done|lia|lia|].
    destruct (assign_ids rest _) as [rest' iod2] eqn:E. simpl in *.
    split_and!; [lia|by rewrite I2|].
    intros [|i] x; simpl; [intros [= <-]; simpl; lia|]. intros Hx. rewrite (I3 i x Hx). lia.
Qed.

Lemma sum_charges_nonneg rqs : Forall (fun r => 0 <= sr_creditcharge r) rqs -> 0 <= sum_charges rqs.
Proof. induction 1; simpl; lia. Qed.

Lemma sum_take_step rqs i j x :
  Forall (fun r => 0 <= sr_creditcharge r) rqs -> rqs !! i = Some x -> (i < j)%nat ->
  sum_charges (take i rqs) + sr_creditcharge x <= sum_charges (take j rqs).
Proof.
  intros Hf. revert i j. induction Hf as [|r rest Hr Hf IH]; intros i j; [done|].
  destruct j as [|j]; [lia|]. destruct i as [|i]; simpl.
  - intros [= ->] _. pose proof (sum_charges_nonneg _ (Forall_take _ j _ Hf)). lia.
  - intros Hx Hij. specialize (IH i j Hx ltac:(lia)). lia.
Qed.

(** ** Theorems *)

(** Each sleep lasts a second at most; after 60 of them the channel is reconnected.  The
    wait is over by then: within this time the send window opens, or the share goes away. *)
Definition slept (e : event) : Prop := match e with Slept _ _ _ => True | Reconnected _ _ => False end.
Definition ends_wait (e : event) : Prop :=
  match e with Slept _ f gone => gone = true \/ forall i, send_window_open (f i) = true | Reconnected _ _ => False end.
Definition ends_in_time (evs : list event) : Prop :=
  exists pre e post, evs = pre ++ e :: post /\ Forall slept pre /\ (length pre < 60)%nat /\ ends_wait e.

Lemma gate_some rqp iod gone : gone = true \/ send_window_open iod = true -> is_Some (credit_gate rqp iod gone).
Proof. unfold credit_gate. intros [-> | ->]; [|by eexists]. by repeat case_match; eexists. Qed.

Lemma credit_sleep_ends rqp pre e post i iod :
  Forall slept pre -> (length pre < i <= 60)%nat -> ends_wait e -> is_Some (credit_sleep rqp (pre ++ e :: post) i iod).
Proof.
  intros Hs Hi He. revert i iod Hi. assert (Hagain : forall j gone k, is_Some k ->
    is_Some (match credit_gate rqp j gone with Some e => Some (e, j) | None => k end)).
  { intros j gone k Hk. destruct (credit_gate rqp j gone); [by eexists|done]. }
  induction Hs as [|e0 pre H0 Hs IH]; intros i iod Hi; cbn [app length] in *.
  - destruct e as [ret f gone|]; [|done]. cbn [credit_sleep]. set (iod2 := f _).
    set (iod3 := if iod_credits_wait iod2 =? 0 then iod2 else _).
    assert (gone = true \/ send_window_open iod2 = true /\ send_window_open iod3 = true) as [->|[E2 E3]].
    { destruct He as [->|He]; [by left|right]. subst iod3. specialize (He (set_wait iod (i32 (iod_credits_wait iod + 1)))).
      fold iod2 in He. by destruct (_ =? 0). }
    + destruct (ret =? EWOULDBLOCK); [by eexists|]. destruct (gate_some rqp iod2 true) as [? ->]; [by left|by eexists].
    + destruct (ret =? EWOULDBLOCK); [|destruct (gate_some rqp iod2 gone) as [? ->]; [by right|by eexists]].
      destruct gone; [by eexists|]. assert (0 < curr_credits iod3) as ->%Z.ltb_lt.
      { unfold send_window_open, kCREDIT_MIN_AMT in E3. apply andb_prop in E3 as [E3 _]. apply Z.leb_le in E3. lia. }
      destruct (gate_some rqp iod3 false) as [? ->]; [by right|by eexists].
  - destruct e0 as [ret f gone|]; [|done]. cbn [credit_sleep].
    destruct (ret =? EWOULDBLOCK); [|apply Hagain, IH; lia]. destruct gone; [by eexists|].
    destruct (0 <? _); [apply Hagain, IH; lia|]. destruct i as [|[|k]]; [lia|lia|]. apply IH. lia.
Qed.

(** C29: A request that goes through the regular crediting code (not a negotiation, session
    setup, tree connect or log-off, and not one of a reconnect).  It is let go
    (result 0) only when the channel had at least one credit and its send window
    was open (no pending request, or the message IDs in flight span no more than
    the credits); it then takes exactly its charge, at least one credit and
    never more than there are, so that the credit count does not go negative;
    a length is cut to what the charge pays for (64K per credit) and never
    grows or becomes 0.  Otherwise the result is [ENOBUFS] or [ENXIO] and no
    credit is taken.  Whatever other threads do during the waits, as long as
    they keep the counters in range.  There is a result if there is no need to wait, or if
    within 60 sleeps the window opens or the share goes away. *)
Theorem credit_decrement_safe rqp iod rq_len evs gone :
  iod_ok iod -> rq_fresh rqp -> regular rqp -> Forall keeps_ok evs ->
  (forall n, rq_len = Some n -> 0 <= n <= MAX_CREDIT_LEN) ->
  (is_Some (credit_gate rqp iod gone) \/ ends_in_time evs -> is_Some (smb2_rq_credit_decrement rqp iod rq_len evs gone)) /\
  forall e rqp' iod' len', smb2_rq_credit_decrement rqp iod rq_len evs gone = Some (e, rqp', iod', len') ->
  exists iod1, credit_wait rqp evs iod gone = Some (e, iod1) /\ iod_ok iod1 /\ iod_ok iod' /\
  (e = 0 -> send_window_open iod1 = true /\ 1 <= sr_creditcharge rqp' /\
     iod_credits_granted iod' = iod_credits_granted iod1 - sr_creditcharge rqp' /\
     forall n, rq_len = Some n -> exists n', len' = Some n' /\ n' <= n /\ (0 < n -> 0 < n') /\
       n' <= sr_creditcharge rqp' * CREDIT_UNIT) /\
  (e <> 0 -> (e = ENOBUFS \/ e = ENXIO) /\ rqp' = rqp /\ iod' = iod1 /\ len' = rq_len).
Proof.
  intros Hok [Hch Hs] Hr Hk Hlen. rewrite decrement_regular by done. split.
  { intros HE. assert (is_Some (credit_wait rqp evs iod gone)) as [[e1 iod1] ->].
    - unfold credit_wait. destruct (credit_gate rqp iod gone) as [e1|]; [by eexists|].
      destruct HE as [[? ?]|(pre & e & post & -> & Hpre & Hl & He)]; [done|]. apply credit_sleep_ends; [done|lia|done].
    - destruct (negb _); [by eexists|]. destruct (credit_take rqp iod1 rq_len) as [[r j] l]. by eexists. }
  intros e rqp' iod' len'.
  pose proof (credit_wait_ok rqp evs iod gone Hk Hok) as Hw.
  destruct (credit_wait rqp evs iod gone) as [[e1 iod1]|]; [|done].
  destruct (Hw e1 iod1 eq_refl) as (Hok1 & Hopen & He).
  destruct (Z.eqb_spec e1 0) as [->|Hne]; simpl.
  - destruct (credit_take rqp iod1 rq_len) as [[r j] l] eqn:E. intros [= <- <- <- <-].
    apply credit_take_spec in E as (H1 & H2 & H3 & H4); auto.
    exists iod1. split_and!; try done. intros _. split_and!; auto.
  - intros [= <- <- <- <-]. exists iod1. split_and!; try done. intros _. split_and!; try done.
    by destruct He.
Qed.

(** The wait for credits ends.  A thread that sleeps through 60 timeouts in a
    row with no credit coming forces a reconnect of its channel; the outcome is
    then decided anew on the channel as the reconnect left it, and the waiter
    count is back at its old value. *)
Theorem credit_wait_times_out rqp iod g gone' evs :
  iod_ok iod -> iod_credits_granted iod = 0 -> 0 <= iod_credits_wait iod < 2 ^ 31 - 1 ->
  credit_gate rqp iod false = None ->
  credit_wait rqp (replicate 60 (Slept EWOULDBLOCK id false) ++ Reconnected g gone' :: evs) iod false =
    credit_wait rqp evs (g iod) gone'.
Proof.
  intros Hok Hz Hwt Hg. unfold credit_wait at 1. rewrite Hg.
  assert (set_wait (set_wait iod (i32 (iod_credits_wait iod + 1)))
    (i32 (iod_credits_wait (set_wait iod (i32 (iod_credits_wait iod + 1))) - 1)) = iod) as Eback.
  { simpl. rewrite (i32_small (iod_credits_wait iod + 1)) by lia.
    replace (iod_credits_wait iod + 1 - 1) with (iod_credits_wait iod) by lia.
    rewrite i32_small by lia. by destruct iod. }
  assert (forall k evs', credit_sleep rqp (Slept EWOULDBLOCK id false :: evs') (S k) iod =
    match k with
    | S k' => credit_sleep rqp evs' (S k') iod
    | O => match evs' with
           | Reconnected g gone' :: evs'' => credit_wait rqp evs'' (g iod) gone'
           | _ => None
           end
    end) as Hstep.
  { intros k evs'. cbn [credit_sleep]. unfold id. cbn [Z.eqb EWOULDBLOCK].
    destruct (Z.eqb_spec (iod_credits_wait (set_wait iod (i32 (iod_credits_wait iod + 1)))) 0) as [E0|_].
    { simpl in E0. rewrite i32_small in E0 by lia. lia. }
    rewrite Eback, curr_credits_ok, Hz by done. by destruct k. }
  assert (forall k, credit_sleep rqp (replicate (S k) (Slept EWOULDBLOCK id false) ++
    Reconnected g gone' :: evs) (S k) iod = credit_wait rqp evs (g iod) gone') as Hall.
  { induction k as [|k IH]; [apply Hstep|]. rewrite <- IH.
    change (replicate (S (S k)) (Slept EWOULDBLOCK id false) ++ Reconnected g gone' :: evs)
      with (Slept EWOULDBLOCK id false ::
            (replicate (S k) (Slept EWOULDBLOCK id false) ++ Reconnected g gone' :: evs)).
    by rewrite Hstep. }
  apply (Hall 59%nat).
Qed.

(** Credits are conserved.  Over any sequence of requests let go and replies
    received (with the server keeping the sum below 2^31), the credits charged
    plus those left are those at the start plus those granted; nothing leaks
    and nothing is counted twice. *)
Theorem credits_conserved ops : forall iod iod' charged granted,
  iod_ok iod -> Forall op_valid ops ->
  iod_credits_granted iod + total_granted ops < 2 ^ 31 ->
  run_ops ops iod = Some (iod', charged, granted) ->
  iod_ok iod' /\ 0 <= charged /\ granted = total_granted ops /\
  iod_credits_granted iod' + charged = iod_credits_granted iod + granted.
Proof.
  induction ops as [|o rest IH]; intros iod iod' charged granted Hok Hv Hb; simpl.
  { intros [= <- <- <-]. split_and!; try done; lia. }
  apply list.Forall_cons in Hv as [Ho Hv]. simpl in Hb.
  pose proof (total_granted_nonneg rest Hv) as Hn. destruct o as [r l|r]; simpl in *.
  - destruct Ho as (Hf & Hr & Hl).
    destruct (smb2_rq_credit_decrement r iod l [] false) as [[[[e r'] iod1] l']|] eqn:E; [|done].
    destruct e; [|done|done].
    rewrite decrement_regular in E by (done || apply Hf). unfold credit_wait in E.
    destruct (credit_gate r iod false) as [e0|] eqn:Eg; [|done].
    destruct (Z.eqb_spec e0 0) as [->|]; [simpl in E|simpl in E; congruence].
    destruct (credit_take r iod l) as [[r1 j1] l1] eqn:Et. injection E as -> -> ->.
    apply credit_take_spec in Et as (Hj & Hg & Hc & _); try done; [|by eapply gate_zero|apply Hf].
    destruct (run_ops rest iod1) as [[[j c] g]|] eqn:Er; [|done]. intros [= <- <- <-].
    destruct (IH iod1 j c g Hj Hv ltac:(lia) Er) as (? & ? & ? & ?). split_and!; try done; lia.
  - destruct Ho as (Hs & Hr & Hg).
    destruct (increment_regular r iod Hok Hs Hr) as [Hj Hgr]; [lia..|].
    destruct (run_ops rest _) as [[[j c] g]|] eqn:Er; [|done]. intros [= <- <- <-].
    destruct (IH _ j c g Hj Hv ltac:(lia) Er) as (? & ? & ? & ?). split_and!; try done; lia.
Qed.

(** Message IDs of a compound request: the requests of the chain get
    consecutive ranges of IDs, each as long as its credit charge, starting at
    the next ID of the channel, which moves on by the sum of the charges; the
    ranges of two requests never overlap. *)
Theorem message_ids_disjoint rqp rest iod :
  sr_has_session rqp = true -> sr_command rqp <> SMB2_NEGOTIATE ->
  Forall (fun r => 0 <= sr_creditcharge r) (rqp :: rest) -> 0 <= iod_message_id iod ->
  iod_message_id iod + sum_charges (rqp :: rest) < 2 ^ 64 ->
  exists r' rest' iod', smb2_rq_message_id_increment rqp rest true iod = (0, r', rest', iod') /\
    iod_message_id iod' = iod_message_id iod + sum_charges (rqp :: rest) /\
    sr_messageid r' = iod_message_id iod /\
    forall i j a b, (i < j)%nat -> (r' :: rest') !! i = Some a -> (r' :: rest') !! j = Some b ->
      sr_messageid a + sr_creditcharge a <= sr_messageid b.
Proof.
  intros Hs Hc Hch H0 Hb. unfold smb2_rq_message_id_increment. rewrite Hs. simpl negb. cbn iota.
  rewrite (proj2 (Z.eqb_neq _ _) Hc).
  destruct (assign_ids_spec (rqp :: rest) iod Hch H0 Hb) as (I1 & I2 & I3).
  cbn [assign_ids] in *. destruct (take_message_id iod (sr_creditcharge rqp)) as [id iod1].
  destruct (assign_ids rest iod1) as [rest' iod2]. simpl fst in *. simpl snd in *.
  eexists _, _, _. split; [done|]. split; [done|].
  split; [rewrite (I3 0%nat _ eq_refl); simpl; lia|].
  intros i j a b Hij Ha Hb'. rewrite (I3 i a Ha), (I3 j b Hb').
  assert (sr_creditcharge <$> (rqp :: rest) !! i = Some (sr_creditcharge a)) as E.
  { rewrite <- list_lookup_fmap. change (sr_creditcharge <$> rqp :: rest) with (map sr_creditcharge (rqp :: rest)).
    rewrite <- I2. rewrite list_lookup_fmap. by rewrite Ha. }
  destruct ((rqp :: rest) !! i) as [x|] eqn:Ex; [|done]. injection E as E.
  pose proof (sum_take_step (rqp :: rest) i j x Hch Ex Hij). lia.
Qed.

(** The distance the send window is measured by.  While the next message ID is
    ahead of the oldest pending one it is their difference; once the counter has
    wrapped around, the code comes out one short of the true distance modulo
    2^64, so that the window is one wider than the credits; and with equal IDs
    the distance is taken to be 2^64 - 1, which no number of credits covers. *)
Theorem message_id_diff_wrap iod : iod_ok iod ->
  (iod_oldest_message_id iod < iod_message_id iod ->
     message_id_diff iod = u64 (iod_message_id iod - iod_oldest_message_id iod)) /\
  (iod_message_id iod < iod_oldest_message_id iod ->
     message_id_diff iod = u64 (iod_message_id iod - iod_oldest_message_id iod) - 1) /\
  (iod_message_id iod = iod_oldest_message_id iod -> message_id_diff iod = UINT64_MAX).
Proof.
  intros [_ Hi Ho _]. unfold message_id_diff, UINT64_MAX.
  destruct (Z.ltb_spec (iod_oldest_message_id iod) (iod_message_id iod)); split_and!; intros ?; try lia.
  - rewrite u64_small; lia.
  - rewrite u64_small by lia. unfold u64.
    replace (iod_message_id iod - iod_oldest_message_id iod)
      with (iod_message_id iod - iod_oldest_message_id iod + 2 ^ 64 + -1 * 2 ^ 64) by lia.
    rewrite Z.mod_add, Z.mod_small by lia. lia.
  - rewrite u64_small; lia.
Qed.

(** ** Witnesses *)

Definition demo_iod : smbiod := mk_iod false 100 20 0 20 0 1 95 0.
Definition demo_rq (cmd : Z) : smb_rq := mk_rq cmd 1 1 30 true true false false 0.

Lemma demo_iod_ok : iod_ok demo_iod.
Proof. split; simpl; lia. Qed.

Lemma demo_regular : regular (demo_rq 8).
Proof. right. done. Qed.

Definition dry_iod : smbiod := mk_iod false 100 0 0 20 0 1 95 0.

Lemma credit_decrement_safe_witness :
  exists e r' i' l', smb2_rq_credit_decrement (demo_rq 8) dry_iod (Some 1048576)
      [Slept EWOULDBLOCK id false; Slept 0 (fun _ => demo_iod) false] false = Some (e, r', i', l') /\
    e = 0 /\ sr_creditcharge r' = 10 /\ l' = Some 655360 /\ iod_ok i'.
Proof.
  destruct (credit_decrement_safe (demo_rq 8) dry_iod (Some 1048576) [Slept EWOULDBLOCK id false; Slept 0 (fun _ => demo_iod) false]
    false) as [Hsome Hall].
  - split; simpl; lia.
  - done.
  - apply demo_regular.
  - constructor; [by intros i|constructor; [intros i _; apply demo_iod_ok|constructor]].
  - intros n [= <-]. by vm_compute.
  - destruct Hsome as [[[[e r'] i'] l'] E].
    { right. exists [Slept EWOULDBLOCK id false], (Slept 0 (fun _ => demo_iod) false), []. split_and!; [done|by repeat constructor|cbn; lia|by right]. }
    destruct (Hall e r' i' l' E) as (iod1 & _ & _ & Hok & _). exists e, r', i', l'. split; [exact E|].
    vm_compute in E. injection E as <- <- <- <-. split_and!; [reflexivity..|exact Hok].
Defined.

Lemma credit_wait_times_out_witness :
  credit_wait (demo_rq 8) (replicate 60 (Slept EWOULDBLOCK id false) ++
    [Reconnected (fun _ => demo_iod) false]) dry_iod false = Some (0, demo_iod).
Proof.
  rewrite (credit_wait_times_out (demo_rq 8) dry_iod (fun _ => demo_iod) false []).
  - by vm_compute.
  - split; simpl; lia.
  - done.
  - simpl. lia.
  - by vm_compute.
Defined.

Lemma credits_conserved_witness :
  exists j c g, run_ops [OpSend (demo_rq 8) (Some 131072); OpReply (demo_rq 8)] demo_iod = Some (j, c, g) /\
    iod_credits_granted j + c = 20 + g.
Proof.
  eexists _, _, _. split; [by vm_compute|].
  eapply (credits_conserved [OpSend (demo_rq 8) (Some 131072); OpReply (demo_rq 8)] demo_iod).
  - apply demo_iod_ok.
  - constructor; [|constructor; [|constructor]].
    + split_and!; [done|apply demo_regular|]. intros n [= <-]. by vm_compute.
    + split_and!; [done|apply demo_regular|done|done].
  - by vm_compute.
  - by vm_compute.
Defined.

Lemma message_ids_disjoint_witness :
  exists r' rest' iod', smb2_rq_message_id_increment (demo_rq 5) [demo_rq 8; demo_rq 6] true demo_iod
      = (0, r', rest', iod') /\
    iod_message_id iod' = 103 /\ sr_messageid r' = 100 /\
    forall i j a b, (i < j)%nat -> (r' :: rest') !! i = Some a -> (r' :: rest') !! j = Some b ->
      sr_messageid a + sr_creditcharge a <= sr_messageid b.
Proof.
  apply (message_ids_disjoint (demo_rq 5) [demo_rq 8; demo_rq 6] demo_iod).
  - done.
  - done.
  - by repeat (constructor; [done|]).
  - done.
  - simpl. lia.
Defined.

Lemma message_id_diff_wrap_witness :
  message_id_diff (mk_iod false 3 4 0 4 0 1 (2 ^ 64 - 2) 0) = 4.
Proof.
  destruct (message_id_diff_wrap (mk_iod false 3 4 0 4 0 1 (2 ^ 64 - 2) 0)) as (_ & H & _).
  - split; simpl; lia.
  - rewrite H by (simpl; lia). by vm_compute.
Defined.
