(* ===== verification/Md4.v ===== *)
(** * MD4: [kernel/netsmb/md4c.c]

    The digest of the NTLM password hash.  The streaming interface is shown to
    compute the digest of the concatenation of the chunks it is fed. *)

From S2P Require Import Prelude.

Definition S11 := 3.
Definition S12 := 7.
Definition S13 := 11.
Definition S14 := 19.
Definition S21 := 3.
Definition S22 := 5.
Definition S23 := 9.
Definition S24 := 13.
Definition S31 := 3.
Definition S32 := 9.
Definition S33 := 11.
Definition S34 := 15.

(** ** The macros, on 32-bit words *)

Definition not32 (x : Z) : Z := Z.lxor x 0xffffffff.
Definition F (x y z : Z) : Z := Z.lor (Z.land x y) (Z.land (not32 x) z).
Definition G (x y z : Z) : Z := Z.lor (Z.lor (Z.land x y) (Z.land x z)) (Z.land y z).
Definition H (x y z : Z) : Z := Z.lxor (Z.lxor x y) z.

Definition ROTATE_LEFT (x n : Z) : Z := Z.lor (u32 (Z.shiftl x n)) (Z.shiftr x (32 - n)).

Definition FF (a b c d x s : Z) : Z := ROTATE_LEFT (u32 (a + (F b c d + x))) s.
Definition GG (a b c d x s : Z) : Z := ROTATE_LEFT (u32 (a + (G b c d + x + 0x5a827999))) s.
Definition HH (a b c d x s : Z) : Z := ROTATE_LEFT (u32 (a + (H b c d + x + 0x6ed9eba1))) s.

(** The state: four words. *)
Definition words := (Z * Z * Z * Z)%type.

(** Four consecutive lines of [MD4Transform]: the macro is applied to (a,b,c,d),
    (d,a,b,c), (c,d,a,b) and (b,c,d,a) in turn. *)
Definition quad (f : Z -> Z -> Z -> Z -> Z -> Z -> Z) (s1 s2 s3 s4 x1 x2 x3 x4 : Z) (st : words) : words :=
  let '(a, b, c, d) := st in
  let a := f a b c d x1 s1 in
  let d := f d a b c x2 s2 in
  let c := f c d a b x3 s3 in
  let b := f b c d a x4 s4 in
  (a, b, c, d).

(** ** Encode, Decode *)

Fixpoint Encode (input : list Z) : list Z :=
  match input with
  | [] => []
  | w :: r =>
      Z.land w 0xff :: Z.land (Z.shiftr w 8) 0xff :: Z.land (Z.shiftr w 16) 0xff
        :: Z.land (Z.shiftr w 24) 0xff :: Encode r
  end.

Fixpoint Decode (input : list Z) : list Z :=
  match input with
  | b0 :: b1 :: b2 :: b3 :: r =>
      Z.lor (Z.lor (Z.lor b0 (Z.shiftl b1 8)) (Z.shiftl b2 16)) (Z.shiftl b3 24) :: Decode r
  | _ => []
  end.

Definition MD4Transform (state : words) (block : list Z) : words :=
  let x := Decode block in
  let X (i : nat) : Z := default 0 (x !! i) in
  let r f s1 s2 s3 s4 i1 i2 i3 i4 st := quad f s1 s2 s3 s4 (X i1) (X i2) (X i3) (X i4) st in
  let r1 := r FF S11 S12 S13 S14 in
  let r2 := r GG S21 S22 S23 S24 in
  let r3 := r HH S31 S32 S33 S34 in
  let st := state in
  let st := r1 0%nat 1%nat 2%nat 3%nat st in
  let st := r1 4%nat 5%nat 6%nat 7%nat st in
  let st := r1 8%nat 9%nat 10%nat 11%nat st in
  let st := r1 12%nat 13%nat 14%nat 15%nat st in
  let st := r2 0%nat 4%nat 8%nat 12%nat st in
  let st := r2 1%nat 5%nat 9%nat 13%nat st in
  let st := r2 2%nat 6%nat 10%nat 14%nat st in
  let st := r2 3%nat 7%nat 11%nat 15%nat st in
  let st := r3 0%nat 8%nat 4%nat 12%nat st in
  let st := r3 2%nat 10%nat 6%nat 14%nat st in
  let st := r3 1%nat 9%nat 5%nat 13%nat st in
  let st := r3 3%nat 11%nat 7%nat 15%nat st in
  let '(a0, b0, c0, d0) := state in
  let '(a, b, c, d) := st in
  (u32 (a0 + a), u32 (b0 + b), u32 (c0 + c), u32 (d0 + d)).

(** ** The context *)

Record MD4_CTX := mk_ctx {
  ctx_state : words;
  ctx_count0 : Z;
  ctx_count1 : Z;
  ctx_buffer : list Z
}.

(** [buf] is what the memory of the context holds in [buffer]. *)
Definition MD4Init (buf : list Z) : MD4_CTX :=
  mk_ctx (0x67452301, 0xefcdab89, 0x98badcfe, 0x10325476) 0 0 buf.

(** The loop [for (i = partLen; i + 63 < inputLen; i += 64)], whose counter is
    an unsigned int.  [None]: a block that is not wholly inside the input is
    read.  Returns the state and the final [i]. *)
Fixpoint transform_loop (fuel : nat) (state : words) (input : list Z) (i : Z) : option (words * Z) :=
  match fuel with
  | O => None
  | S k =>
      if u32 (i + 63) <? Z.of_nat (length input) then
        let block := take 64 (drop (Z.to_nat i) input) in
        if (length block =? 64)%nat
        then transform_loop k (MD4Transform state block) input (u32 (i + 64))
        else None
      else Some (state, i)
  end.

Definition MD4Update (ctx : MD4_CTX) (input : list Z) : option MD4_CTX :=
  let inputLen := Z.of_nat (length input) in
  let index := Z.land (Z.shiftr (ctx_count0 ctx) 3) 0x3f in
  let add := u32 (Z.shiftl inputLen 3) in
  let count0 := u32 (ctx_count0 ctx + add) in
  let count1 := if count0 <? add then u32 (ctx_count1 ctx + 1) else ctx_count1 ctx in
  let count1 := u32 (count1 + Z.shiftr inputLen 29) in
  let partLen := 64 - index in
  if partLen <=? inputLen then
    let buffer := splice (Z.to_nat index) (take (Z.to_nat partLen) input) (ctx_buffer ctx) in
    let state := MD4Transform (ctx_state ctx) buffer in
    '(state, i) ← transform_loop (S (length input)) state input partLen;
    Some (mk_ctx state count0 count1 (splice 0 (drop (Z.to_nat i) input) buffer))
  else
    Some (mk_ctx (ctx_state ctx) count0 count1 (splice (Z.to_nat index) input (ctx_buffer ctx))).

Definition PADDING : list Z := 0x80 :: replicate 63 0.

Definition MD4Pad (ctx : MD4_CTX) : option MD4_CTX :=
  let bits := Encode [ctx_count0 ctx; ctx_count1 ctx] in
  let index := Z.land (Z.shiftr (ctx_count0 ctx) 3) 0x3f in
  let padLen := if index <? 56 then 56 - index else 120 - index in
  ctx1 ← MD4Update ctx (take (Z.to_nat padLen) PADDING);
  MD4Update ctx1 bits.

(** The digest, and the context wiped. *)
Definition MD4Final (ctx : MD4_CTX) : option (list Z * MD4_CTX) :=
  ctx1 ← MD4Pad ctx;
  let '(a, b, c, d) := ctx_state ctx1 in
  Some (Encode [a; b; c; d], mk_ctx (0, 0, 0, 0) 0 0 (replicate 64 0)).

(** Feeding a message in pieces. *)
Fixpoint MD4Update_all (ctx : MD4_CTX) (chunks : list (list Z)) : option MD4_CTX :=
  match chunks with
  | [] => Some ctx
  | c :: r => ctx1 ← MD4Update ctx c; MD4Update_all ctx1 r
  end.

(** ** Reference: the digest of a whole message (RFC 1320, section 3)

    The message is followed by 0x80, zeros up to 56 modulo 64, and its length
    in bits as a 64-bit little-endian number; the blocks of the result are
    absorbed in order. *)

Definition md4_iv : words := (0x67452301, 0xefcdab89, 0x98badcfe, 0x10325476).

Fixpoint absorb (n : nat) (st : words) (msg : list Z) : words :=
  match n with
  | O => st
  | S k => absorb k (MD4Transform st (take 64 msg)) (drop 64 msg)
  end.

Definition md4_padded (msg : list Z) : list Z :=
  let index := (length msg mod 64)%nat in
  let zeros := if (index <? 56)%nat then (55 - index)%nat else (119 - index)%nat in
  msg ++ 0x80 :: replicate zeros 0 ++ le_bytes 8 (8 * Z.of_nat (length msg)).

Definition md4 (msg : list Z) : list Z :=
  let p := md4_padded msg in
  let '(a, b, c, d) := absorb (length p / 64) md4_iv p in
  concat (map (le_bytes 4) [a; b; c; d]).

(** ** Arithmetic of the bit counter *)

Lemma index_mod (n : Z) :
  0 <= n -> Z.land (Z.shiftr (u32 (8 * n)) 3) 0x3f = n `mod` 64.
Proof.
  intros Hn. change 0x3f with (Z.ones 6). rewrite Z.land_ones, Z.shiftr_div_pow2 by lia.
  unfold u32. change (2 ^ 3) with 8. change (2 ^ 6) with 64.
  change (2 ^ 32) with (8 * 2 ^ 29). rewrite Z.mul_mod_distr_l by lia.
  rewrite Z.mul_comm, Z.div_mul by lia.
  change (2 ^ 29) with (64 * 2 ^ 23). rewrite Z.rem_mul_r by lia.
  rewrite Z.mul_comm, Z.mod_add, Z.mod_mod by lia. done.
Qed.

Lemma count_low (n k : Z) : u32 (u32 (8 * n) + u32 (Z.shiftl k 3)) = u32 (8 * (n + k)).
Proof.
  rewrite Z.shiftl_mul_pow2 by lia. autorewrite with wrap. f_equal. lia.
Qed.

(** The carry of the low word and the high bits of the length together give the
    high word. *)
Lemma count_high (n k : Z) :
  0 <= n -> 0 <= k < 2 ^ 32 ->
  u32 ((if u32 (8 * (n + k)) <? u32 (Z.shiftl k 3)
        then u32 (u32 (8 * n / 2 ^ 32) + 1) else u32 (8 * n / 2 ^ 32)) + Z.shiftr k 29)
  = u32 (8 * (n + k) / 2 ^ 32).
Proof.
  intros Hn Hk. rewrite Z.shiftl_mul_pow2, Z.shiftr_div_pow2 by lia.
  assert (k / 2 ^ 29 = 8 * k / 2 ^ 32) as ->.
  { change (2 ^ 32) with (8 * 2 ^ 29). by rewrite Z.div_mul_cancel_l by lia. }
  rewrite (Z.mul_comm k). change (2 ^ 3) with 8.
  replace (8 * (n + k)) with (8 * n + 8 * k) by lia.
  set (a := 8 * n). set (b := 8 * k).
  pose proof (Z.div_mod a (2 ^ 32) ltac:(lia)) as Ea.
  pose proof (Z.div_mod b (2 ^ 32) ltac:(lia)) as Eb.
  pose proof (u32_range a) as Ra. pose proof (u32_range b) as Rb. unfold u32 in Ra, Rb.
  destruct (Z.ltb_spec (u32 (a + b)) (u32 b)) as [L|L];
    rewrite ?(u32_add_l (a / 2 ^ 32) 1); autorewrite with wrap; f_equal.
  - unfold u32 in L.
    assert (2 ^ 32 <= a `mod` 2 ^ 32 + b `mod` 2 ^ 32).
    { destruct (Z.le_gt_cases (2 ^ 32) (a `mod` 2 ^ 32 + b `mod` 2 ^ 32)); [done|].
      rewrite Z.add_mod, (Z.mod_small (a `mod` 2 ^ 32 + _)) in L by lia. lia. }
    apply Z.div_unique with (a `mod` 2 ^ 32 + b `mod` 2 ^ 32 - 2 ^ 32); lia.
  - unfold u32 in L.
    assert (a `mod` 2 ^ 32 + b `mod` 2 ^ 32 < 2 ^ 32).
    { destruct (Z.le_gt_cases (2 ^ 32) (a `mod` 2 ^ 32 + b `mod` 2 ^ 32)); [|done].
      rewrite Z.add_mod in L by lia.
      rewrite <- (Z.mod_unique (a `mod` 2 ^ 32 + b `mod` 2 ^ 32) (2 ^ 32) 1
        (a `mod` 2 ^ 32 + b `mod` 2 ^ 32 - 2 ^ 32)) in L by lia. lia. }
    apply Z.div_unique with (a `mod` 2 ^ 32 + b `mod` 2 ^ 32); lia.
Qed.

(** ** Absorbing blocks *)

Lemma absorb_add a b st m :
  absorb (a + b) st m = absorb b (absorb a st m) (drop (64 * a) m).
Proof.
  revert st m. induction a as [|a IH]; intros st m; [done|].
  cbn [Nat.add absorb]. rewrite IH, drop_drop. do 2 f_equal. lia.
Qed.

Lemma absorb_app n st m x :
  (64 * n <= length m)%nat -> absorb n st (m ++ x) = absorb n st m.
Proof.
  revert st m. induction n as [|n IH]; intros st m Hl; [done|]. cbn [absorb].
  rewrite take_app_le, drop_app_le by lia. apply IH. rewrite length_drop. lia.
Qed.

(** The loop absorbs the whole blocks that follow [i] and stops; its counter
    does not wrap while the input ends 64 bytes below 2^32. *)
Lemma transform_loop_absorbs fuel st input (i : nat) :
  (i <= length input)%nat -> Z.of_nat (length input) <= 2 ^ 32 - 64 ->
  (length input - i < fuel)%nat ->
  let n := ((length input - i) / 64)%nat in
  transform_loop fuel st input (Z.of_nat i)
  = Some (absorb n st (drop i input), Z.of_nat (i + 64 * n)).
Proof.
  intros Hi Hlen. revert st i Hi. induction fuel as [|k IH]; intros st i Hi Hf n; [lia|].
  cbn [transform_loop]. rewrite u32_small by lia.
  destruct (Z.ltb_spec (Z.of_nat i + 63) (Z.of_nat (length input))) as [L|L].
  - rewrite Nat2Z.id, length_take, length_drop.
    replace (64 `min` (length input - i))%nat with 64%nat by lia. cbn [Nat.eqb].
    rewrite u32_small by lia. replace (Z.of_nat i + 64) with (Z.of_nat (i + 64)) by lia.
    rewrite IH by lia.
    assert (n = S ((length input - (i + 64)) / 64)) as ->.
    { unfold n. replace (length input - i)%nat with (1 * 64 + (length input - (i + 64)))%nat by lia.
      by rewrite Nat.div_add_l by lia. }
    cbn [absorb]. rewrite drop_drop. do 2 f_equal. lia.
  - assert (n = 0%nat) as -> by (apply Nat.div_small; lia). do 2 f_equal. lia.
Qed.

(** ** The context represents the bytes fed so far *)

Record ctx_rep (ctx : MD4_CTX) (m : list Z) : Prop := {
  rep_state : ctx_state ctx = absorb (length m / 64) md4_iv m;
  rep_count0 : ctx_count0 ctx = u32 (8 * Z.of_nat (length m));
  rep_count1 : ctx_count1 ctx = u32 (8 * Z.of_nat (length m) / 2 ^ 32);
  rep_buffer : length (ctx_buffer ctx) = 64%nat;
  rep_tail : take (length m mod 64) (ctx_buffer ctx) = drop (64 * (length m / 64)) m
}.

Lemma MD4Init_rep buf : length buf = 64%nat -> ctx_rep (MD4Init buf) [].
Proof. by constructor. Qed.

Lemma divmod_split (n q r : nat) :
  n = (64 * q + r)%nat -> (r < 64)%nat -> (n / 64 = q /\ n mod 64 = r)%nat.
Proof.
  intros E Hr. split; symmetry; [eapply Nat.div_unique|eapply Nat.mod_unique]; eauto.
Qed.

Section Update.
Context (ctx : MD4_CTX) (m x : list Z).
Context (Hrep : ctx_rep ctx m) (Hx : Z.of_nat (length x) <= 2 ^ 32 - 64).

(** Whole blocks so far, and bytes pending in the buffer. *)
Let q := (length m / 64)%nat.
Let r := (length m mod 64)%nat.
Let T := drop (64 * q) m.

Lemma update_sizes : length m = (64 * q + r)%nat /\ (r < 64)%nat /\ length T = r.
Proof.
  pose proof (Nat.div_mod_eq (length m) 64). pose proof (Nat.mod_upper_bound (length m) 64).
  unfold T, q, r in *. rewrite length_drop. lia.
Qed.

Lemma update_index : Z.land (Z.shiftr (ctx_count0 ctx) 3) 0x3f = Z.of_nat r.
Proof.
  clear x Hx. rewrite (rep_count0 _ _ Hrep), index_mod by lia. unfold r.
  by rewrite Nat2Z.inj_mod.
Qed.

Lemma update_rest : drop (64 * q) (m ++ x) = T ++ x.
Proof. destruct update_sizes as (? & ? & ?). by rewrite drop_app_le by lia. Qed.

Lemma update_state : absorb q md4_iv (m ++ x) = ctx_state ctx.
Proof.
  destruct update_sizes as (? & ? & ?). rewrite absorb_app by lia.
  symmetry. apply Hrep.
Qed.

(** The input fits the buffer: nothing is transformed. *)
Lemma update_short :
  (r + length x < 64)%nat ->
  forall c0 c1, c0 = u32 (8 * Z.of_nat (length (m ++ x))) ->
  c1 = u32 (8 * Z.of_nat (length (m ++ x)) / 2 ^ 32) ->
  ctx_rep (mk_ctx (ctx_state ctx) c0 c1 (splice r x (ctx_buffer ctx))) (m ++ x).
Proof.
  intros Hs c0 c1 -> ->. destruct update_sizes as (Em & Hr & ET).
  pose proof (rep_buffer _ _ Hrep) as Eb.
  destruct (divmod_split (length (m ++ x)) q (r + length x)) as [Eq Er];
    [rewrite length_app; lia|done|].
  constructor; cbn [ctx_state ctx_count0 ctx_count1 ctx_buffer]; [|done|done| |].
  - by rewrite Eq, update_state.
  - rewrite length_splice; lia.
  - rewrite Eq, Er, take_splice_end, update_rest by lia. f_equal. apply Hrep.
Qed.

(** The input completes the pending block: it is transformed, then every whole
    block of what is left, and the rest is kept. *)
Lemma update_long :
  let p := (64 - r)%nat in let n := ((length x - p) / 64)%nat in
  (64 <= r + length x)%nat ->
  let buf := splice r (take p x) (ctx_buffer ctx) in
  forall c0 c1, c0 = u32 (8 * Z.of_nat (length (m ++ x))) ->
  c1 = u32 (8 * Z.of_nat (length (m ++ x)) / 2 ^ 32) ->
  ctx_rep (mk_ctx (absorb n (MD4Transform (ctx_state ctx) buf) (drop p x)) c0 c1
             (splice 0 (drop (p + 64 * n) x) buf)) (m ++ x).
Proof.
  intros p n Hs buf c0 c1 -> ->. destruct update_sizes as (Em & Hr & ET).
  pose proof (rep_buffer _ _ Hrep) as Eb.
  pose proof (Nat.div_mod_eq (length x - p) 64) as Ex. fold n in Ex.
  pose proof (Nat.mod_upper_bound (length x - p) 64 ltac:(lia)) as Hm.
  set (s := ((length x - p) mod 64)%nat) in *.
  destruct (divmod_split (length (m ++ x)) (q + S n) s) as [Eq Er];
    [rewrite length_app; lia|done|].
  assert (buf = T ++ take p x) as Ebuf.
  { unfold buf, splice. rewrite drop_ge, app_nil_r by len. f_equal. apply Hrep. }
  assert (length buf = 64%nat) as Lbuf by (rewrite Ebuf; len).
  constructor; cbn [ctx_state ctx_count0 ctx_count1 ctx_buffer]; [|done|done| |].
  - rewrite Eq, absorb_add, update_state, update_rest. cbn [absorb].
    rewrite take_app_ge, drop_app_ge by lia. rewrite ET. fold p. by rewrite Ebuf.
  - rewrite length_splice by len. done.
  - rewrite Eq, Er, Nat.mul_add_distr_l, <- (drop_drop (m ++ x)), update_rest.
    rewrite (drop_app_ge T) by lia.
    replace s with (0 + length (drop (p + 64 * n) x))%nat by len.
    rewrite take_splice_end by len. rewrite take_0, ET. cbn. f_equal. lia.
Qed.

Lemma MD4Update_rep : exists ctx', MD4Update ctx x = Some ctx' /\ ctx_rep ctx' (m ++ x).
Proof.
  destruct update_sizes as (Em & Hr & ET). unfold MD4Update. cbv zeta.
  rewrite update_index, (rep_count0 _ _ Hrep), (rep_count1 _ _ Hrep), count_low,
    count_high, <- Nat2Z.inj_add, <- length_app by lia.
  destruct (Z.leb_spec (64 - Z.of_nat r) (Z.of_nat (length x))) as [L|L].
  - replace (64 - Z.of_nat r) with (Z.of_nat (64 - r)) by lia.
    rewrite transform_loop_absorbs by lia. rewrite !Nat2Z.id. cbn [mbind option_bind].
    eexists. split; [done|]. rewrite Nat2Z.id. apply update_long; [lia|done|done].
  - rewrite Nat2Z.id. eexists. split; [done|]. apply update_short; [lia|done|done].
Qed.
End Update.

Definition chunk_ok (c : list Z) : Prop := Z.of_nat (length c) <= 2 ^ 32 - 64.

Lemma MD4Update_all_rep chunks ctx m :
  ctx_rep ctx m -> Forall chunk_ok chunks ->
  exists ctx', MD4Update_all ctx chunks = Some ctx' /\ ctx_rep ctx' (m ++ concat chunks).
Proof.
  intros Hr Hc. revert ctx m Hr. induction Hc as [|c r Hc _ IH]; intros ctx m Hr; cbn.
  { exists ctx. by rewrite app_nil_r. }
  destruct (MD4Update_rep ctx m c Hr Hc) as (ctx1 & -> & Hr1). cbn.
  destruct (IH _ _ Hr1) as (ctx2 & E & Hr2). exists ctx2. by rewrite <- app_assoc in Hr2.
Qed.

(** ** Padding and the digest *)

Lemma byte_at x k : 0 <= k -> Z.land (Z.shiftr x k) 0xff = (x / 2 ^ k) `mod` 256.
Proof.
  intros. change 0xff with (Z.ones 8). by rewrite Z.land_ones, Z.shiftr_div_pow2 by lia.
Qed.

Lemma Encode_le ws : Encode ws = concat (map (le_bytes 4) ws).
Proof.
  induction ws as [|w r IH]; [done|]. cbn [Encode map concat le_bytes app].
  rewrite !byte_at by lia. change (Z.land w 255) with (Z.land w (Z.ones 8)).
  rewrite Z.land_ones, IH, !Z.div_div by lia. done.
Qed.

(** The two counter words are the 64-bit little-endian bit count. *)
Lemma count_bytes n : Encode [u32 n; u32 (n / 2 ^ 32)] = le_bytes 8 n.
Proof.
  rewrite Encode_le. cbn [map concat]. rewrite app_nil_r.
  change 8%nat with (4 + 4)%nat. rewrite le_bytes_app.
  change (256 ^ Z.of_nat 4) with (2 ^ 32).
  rewrite <- (le_bytes_mod 4 n), <- (le_bytes_mod 4 (n / 2 ^ 32)). done.
Qed.

Lemma pad_bytes (m : list Z) :
  let index := (length m mod 64)%nat in
  let padLen := if Z.of_nat index <? 56 then 56 - Z.of_nat index else 120 - Z.of_nat index in
  md4_padded m = (m ++ take (Z.to_nat padLen) PADDING) ++ le_bytes 8 (8 * Z.of_nat (length m)).
Proof.
  intros index padLen. pose proof (Nat.mod_upper_bound (length m) 64 ltac:(lia)) as Hi.
  fold index in Hi. unfold md4_padded, PADDING. fold index. cbv zeta.
  rewrite <- app_assoc. f_equal. unfold padLen.
  destruct (Nat.ltb_spec index 56), (Z.ltb_spec (Z.of_nat index) 56); try lia.
  - replace (Z.to_nat (56 - Z.of_nat index)) with (S (55 - index)) by lia.
    cbn [take app]. rewrite take_replicate. do 3 f_equal. lia.
  - replace (Z.to_nat (120 - Z.of_nat index)) with (S (119 - index)) by lia.
    cbn [take app]. rewrite take_replicate. do 3 f_equal. lia.
Qed.

Lemma MD4Pad_rep ctx m :
  ctx_rep ctx m -> exists ctx', MD4Pad ctx = Some ctx' /\ ctx_rep ctx' (md4_padded m).
Proof.
  intros Hr. unfold MD4Pad. cbv zeta.
  rewrite (update_index ctx m Hr), (rep_count0 _ _ Hr), (rep_count1 _ _ Hr), count_bytes, pad_bytes.
  set (pad := take _ PADDING).
  assert (length pad <= 64)%nat by (unfold pad; rewrite length_take; cbn; lia).
  destruct (MD4Update_rep ctx m pad Hr ltac:(lia)) as (c1 & -> & H1). cbn.
  apply MD4Update_rep; [done|]. cbn [le_bytes length]. lia.
Qed.

Lemma length_md4_padded m : (length (md4_padded m) mod 64 = 0)%nat.
Proof.
  pose proof (Nat.div_mod_eq (length m) 64) as E.
  pose proof (Nat.mod_upper_bound (length m) 64 ltac:(lia)) as Hm.
  unfold md4_padded. cbv zeta. rewrite length_app. cbn [length].
  rewrite length_app, length_replicate, length_le_bytes.
  destruct (Nat.ltb_spec (length m mod 64) 56).
  - apply (divmod_split _ (S (length m / 64))); lia.
  - apply (divmod_split _ (S (S (length m / 64)))); lia.
Qed.

(** ** Properties *)

(** Feeding a message to the streaming interface in any pieces, each at most
    2^32 - 64 bytes, and finalizing gives the MD4 digest of the concatenation of
    the pieces: nothing reads outside of the input, whatever the context's
    buffer held at first and however the pieces straddle the 64-byte blocks and
    the 32-bit words of the bit counter; the context is wiped. *)
Theorem md4_streaming (buf : list Z) (chunks : list (list Z)) :
  length buf = 64%nat -> Forall chunk_ok chunks ->
  (ctx ← MD4Update_all (MD4Init buf) chunks; MD4Final ctx)
  = Some (md4 (concat chunks), mk_ctx (0, 0, 0, 0) 0 0 (replicate 64 0)).
Proof.
  intros Hb Hc. destruct (MD4Update_all_rep chunks _ [] (MD4Init_rep buf Hb) Hc) as (c1 & -> & H1).
  unfold MD4Final. destruct (MD4Pad_rep _ _ H1) as (c2 & E2 & H2). cbn [mbind option_bind].
  rewrite E2. cbn [mbind option_bind].
  rewrite (rep_state _ _ H2). unfold md4. cbn [app].
  destruct (absorb _ _ _) as [[[a b] c] d]. by rewrite Encode_le.
Qed.

Lemma md4_streaming_witness :
  (ctx ← MD4Update_all (MD4Init (replicate 64 7)) [[97]; [98; 99]]; MD4Final ctx)
  = Some (md4 [97; 98; 99], mk_ctx (0, 0, 0, 0) 0 0 (replicate 64 0)).
Proof.
  apply (md4_streaming (replicate 64 7) [[97]; [98; 99]]); [done|].
  repeat constructor; unfold chunk_ok; cbn; lia.
Defined.

Definition ascii_range (lo n : Z) : list Z := seqZ lo n.

(** The digests of RFC 1320, appendix A.5. *)
Theorem md4_test_vectors :
  let digest m := be_value (md4 m) in
  digest [] = 0x31d6cfe0d16ae931b73c59d7e0c089c0 /\
  digest [97] = 0xbde52cb31de33e46245e05fbdbd6fb24 /\
  digest [97; 98; 99] = 0xa448017aaf21d8525fc10ae87aa6729d /\
  digest (ascii_range 97 26) = 0xd79e1c308aa5bbcdeea8ed63df412da9 /\
  digest (ascii_range 65 26 ++ ascii_range 97 26 ++ ascii_range 48 10)
  = 0x043f8582f241db351ce627e153e7f0e4 /\
  digest (concat (replicate 8 (ascii_range 49 9 ++ [48])))
  = 0xe33b4ddc9c38f2199c3e7b164fcc0536.
Proof. vm_compute. repeat split. Qed.
