(* ===== verification/Smb2Req.v ===== *)
(** * Building SMB 2/3 requests: [kernel/netsmb/smb_rq_2.c]

    The 64-byte header of a request, the compound fields patched into it later,
    and the allocation of a request together with its credits.  The code is
    proved against the chain interface of [Chain.v]. *)

From S2P Require Import Prelude Mbuf MbufFacts Mchain MchainFacts Chain ChainMbuf Credits.
Import Errno.

Definition SMB2_SIGNATURE : list Z := [0xfe; 0x53; 0x4d; 0x42].
Definition SMB2_HDRLEN := 64.
Definition SMB2_FLAGS_ASYNC_COMMAND := 0x00000002.
Definition SMB2_FLAGS_RELATED_OPERATIONS := 0x00000004.
Definition SMB2_TID_UNKNOWN := 0xffffffff.
Definition SMB2_NO_BLOCK := 0x0080.

Definition SMBR_ALLOCED := 0x0001.
Definition SMBR_ASYNC := 0x0002.
Definition SMBR_RECONNECTED := 0x0010.
Definition SMBR_COMPOUND_RQ := 0x0100.

Definition SMB2_REQUEST := 0x0001.
Definition SMB2_REQ_SENT := 0x0004.
Definition SMB2_REQ_NO_BLOCK := 0x80000000.

Definition SMB2_CMPD_FIRST := 1.
Definition SMB2_CMPD_MIDDLE := 2.
Definition SMB2_CMPD_LAST := 4.

(** Is a flag bit set? *)
Definition flag (x bit : Z) : bool := negb (Z.land x bit =? 0).

Section Build.
Context {S W P : Type} `{Writer S W P}.

(** The pointers of [struct smb_rq] into the request; [None] is NULL. *)
Record hdr_ptrs := mk_ptrs {
  sr_creditchargep : option P;
  sr_creditreqp : option P;
  sr_flagsp : option P;
  sr_nextcmdp : option P;
  sr_messageidp : option P;
  sr_rqsig : option P
}.

(** The request side of [struct smb_rq]; [sr_cr] are the fields crediting uses. *)
Record smb2_rq := mk_srq {
  sr_cr : Credits.smb_rq;
  sr_flags : Z;
  sr_extflags : Z;
  sr_rqflags : Z;
  sr_nextcmd : Z;
  sr_rqtreeid : Z;
  sr_rqsessionid : Z;
  sr_ptrs : hdr_ptrs;
  sr_bcount : option P;
  sr_lcount : option P;
  sr_rq : W
}.

Definition set_sr_rq (r : smb2_rq) w := mk_srq (sr_cr r) (sr_flags r) (sr_extflags r) (sr_rqflags r)
  (sr_nextcmd r) (sr_rqtreeid r) (sr_rqsessionid r) (sr_ptrs r) (sr_bcount r) (sr_lcount r) w.
Definition set_sr_cr (r : smb2_rq) c := mk_srq c (sr_flags r) (sr_extflags r) (sr_rqflags r)
  (sr_nextcmd r) (sr_rqtreeid r) (sr_rqsessionid r) (sr_ptrs r) (sr_bcount r) (sr_lcount r) (sr_rq r).

(** A call of [mb_put_mem] (or of [mb_put_uint32le] and so on) whose return value
    is ignored. *)
Definition put_ (w : W) (xs : list Z) : M S W := r ← w_put w xs; mret r.2.

(** [p = mb_reserve(mbp, n); *p = x;]: a NULL pointer would be dereferenced. *)
Definition reserve_put (w : W) (xs : list Z) : M S (option P * W) :=
  r ← w_reserve w (Z.of_nat (length xs));
  let '(p, w') := r in
  match p with
  | Some q => w_store q xs;; mret (p, w')
  | None => undef
  end.

Definition smb2_rq_align8 (r : smb2_rq) : M S smb2_rq :=
  if negb (w_len (sr_rq r) `mod` 8 =? 0) then
    let pad_bytes := 8 - w_len (sr_rq r) `mod` 8 in
    z ← w_zero (sr_rq r) pad_bytes;
    mret (set_sr_rq r z.2)
  else mret r.

(** The sync header (lines 965-983). *)
Definition put_sync_header (r : smb2_rq) (w : W) : M S smb2_rq :=
  w ← put_ w SMB2_SIGNATURE;
  w ← put_ w (le_bytes 2 SMB2_HDRLEN);
  '(creditchargep, w) ← reserve_put w (le_bytes 2 (sr_creditcharge (sr_cr r)));
  w ← put_ w (le_bytes 4 0);
  w ← put_ w (le_bytes 2 (sr_command (sr_cr r)));
  '(creditreqp, w) ← reserve_put w (le_bytes 2 (sr_creditsrequested (sr_cr r)));
  '(flagsp, w) ← reserve_put w (le_bytes 4 (sr_rqflags r));
  '(nextcmdp, w) ← reserve_put w (le_bytes 4 (sr_nextcmd r));
  '(messageidp, w) ← reserve_put w (replicate 8 0);
  w ← put_ w (le_bytes 4 0xFEFF);
  w ← put_ w (le_bytes 4 (sr_rqtreeid r));
  w ← put_ w (le_bytes 8 (sr_rqsessionid r));
  '(rqsig, w) ← reserve_put w (replicate 16 0);
  mret (mk_srq (sr_cr r) (sr_flags r) (sr_extflags r) (sr_rqflags r) (sr_nextcmd r) (sr_rqtreeid r)
    (sr_rqsessionid r) (mk_ptrs creditchargep creditreqp flagsp nextcmdp messageidp rqsig)
    (sr_bcount r) (sr_lcount r) w).

(** The async header (lines 989-1007); it also sets the flag in [sr_rqflags]. *)
Definition put_async_header (r : smb2_rq) (w : W) : M S smb2_rq :=
  w ← put_ w SMB2_SIGNATURE;
  w ← put_ w (le_bytes 2 SMB2_HDRLEN);
  '(creditchargep, w) ← reserve_put w (le_bytes 2 (sr_creditcharge (sr_cr r)));
  w ← put_ w (le_bytes 4 0);
  w ← put_ w (le_bytes 2 (sr_command (sr_cr r)));
  '(creditreqp, w) ← reserve_put w (le_bytes 2 (sr_creditsrequested (sr_cr r)));
  let rqflags := Z.lor (sr_rqflags r) SMB2_FLAGS_ASYNC_COMMAND in
  '(flagsp, w) ← reserve_put w (le_bytes 4 rqflags);
  '(nextcmdp, w) ← reserve_put w (le_bytes 4 (sr_nextcmd r));
  '(messageidp, w) ← reserve_put w (replicate 8 0);
  w ← put_ w (le_bytes 8 0);
  w ← put_ w (le_bytes 8 (sr_rqsessionid r));
  '(rqsig, w) ← reserve_put w (replicate 16 0);
  mret (mk_srq (sr_cr r) (sr_flags r) (sr_extflags r) rqflags (sr_nextcmd r) (sr_rqtreeid r)
    (sr_rqsessionid r) (mk_ptrs creditchargep creditreqp flagsp nextcmdp messageidp rqsig)
    (sr_bcount r) (sr_lcount r) w).

(** [sr_rp] is the reply chain of the request. *)
Definition smb2_rq_new {D} `{Reader S D} (r : smb2_rq) (sr_rp : D) : M S (Z * smb2_rq * D) :=
  w ← w_done (sr_rq r);
  d ← r_done sr_rp;
  i ← w_init;
  match i with
  | (0, Some w) =>
      r' ← (if negb (flag (sr_flags r) SMBR_ASYNC) then put_sync_header r w else put_async_header r w);
      mret (0, r', d)
  | (error, _) => mret (error, set_sr_rq r w, d)
  end.

Definition smb2_rq_length (r : smb2_rq) : Z := u32 (w_len (sr_rq r)).

Definition smb2_rq_bstart (r : smb2_rq) (len_ptr : option P) : smb2_rq :=
  mk_srq (sr_cr r) (sr_flags r) (sr_extflags r) (sr_rqflags r) (sr_nextcmd r) (sr_rqtreeid r)
    (sr_rqsessionid r) (sr_ptrs r) len_ptr (sr_lcount r) (w_set_count (sr_rq r) 0).

Definition smb2_rq_bstart32 (r : smb2_rq) (len_ptr : option P) : smb2_rq :=
  mk_srq (sr_cr r) (sr_flags r) (sr_extflags r) (sr_rqflags r) (sr_nextcmd r) (sr_rqtreeid r)
    (sr_rqsessionid r) (sr_ptrs r) (sr_bcount r) len_ptr (w_set_count (sr_rq r) 0).

(** [large]: the session has the large read (write) capability and the command is
    a read (write) AndX. *)
Definition smb_rq_bend32 (r : smb2_rq) (large : bool) : M S unit :=
  match sr_lcount r with
  | None => mret tt
  | Some p =>
      let count := w_count (sr_rq r) in
      let bcnt :=
        if large then (if 0xffffffff <? count then 0 else u32 count)
        else if 0xffffffff <? count then 0xfffffff else u32 count in
      w_store p (le_bytes 4 bcnt)
  end.

(** [*rqp->sr_flagsp |= htolel(x)] *)
Definition or_le32 (p : P) (x : Z) : M S unit :=
  old ← w_load p 4; w_store p (le_bytes 4 (Z.lor (le_value old) x)).

Definition smb2_rq_update_cmpd_hdr (r : smb2_rq) (position_flag : Z) : M S Z :=
  match sr_nextcmdp (sr_ptrs r), sr_flagsp (sr_ptrs r) with
  | Some nextcmdp, Some flagsp =>
      if position_flag =? SMB2_CMPD_FIRST then
        w_store nextcmdp (le_bytes 4 (smb2_rq_length r));; mret 0
      else if position_flag =? SMB2_CMPD_MIDDLE then
        w_store nextcmdp (le_bytes 4 (smb2_rq_length r));;
        or_le32 flagsp SMB2_FLAGS_RELATED_OPERATIONS;; mret 0
      else if position_flag =? SMB2_CMPD_LAST then
        w_store nextcmdp (le_bytes 4 0);;
        or_le32 flagsp SMB2_FLAGS_RELATED_OPERATIONS;; mret 0
      else mret ENOMEM
  | _, _ => mret ENOMEM
  end.
End Build.

(** ** Allocating a request *)

(** What the connection objects of the request say: the results of
    [smb_rq_getenv] and [smb_session_access], the IDs of the session and of the
    share (if there is one), whether the session speaks SMB 2/3 and whether the
    context is the one of the session's main channel. *)
Record conn_env := mk_env {
  env_error : Z;
  access_error : Z;
  env_session_id : Z;
  env_tree_id : option Z;
  env_smb2 : bool;
  env_main_context : bool
}.

Section Alloc.
Context {S W P D : Type} `{Writer S W P} `{Reader S D}.

(** The struct after [bzero] and [sr_flags |= rq_flags]. *)
Definition rq_zero (rq_flags : Z) : smb2_rq (W:=W) (P:=P) :=
  mk_srq (mk_rq 0 0 0 0 false false false false 0) rq_flags 0 0 0 0 0
    (mk_ptrs None None None None None None) None None w_null.

(** [smb_rq_done] (lines 284-289 of smb_rq.c): a request that was never sent
    gives its credits back to its channel, [sr_iod]; with a NULL channel
    [smb2_rq_credit_increment] fails and nothing happens. *)
Definition recover_credits (r : smb2_rq (W:=W) (P:=P)) (sr_iod : option smbiod) : option smbiod :=
  if flag (sr_extflags r) SMB2_REQUEST then
    if negb (flag (sr_extflags r) SMB2_REQ_SENT) && negb (flag (sr_flags r) SMBR_RECONNECTED) then
      match sr_iod with
      | None => None
      | Some iod => Some (smb2_rq_credit_increment (set_rspgranted (sr_cr r) (sr_creditcharge (sr_cr r))) iod).2
      end
    else sr_iod
  else sr_iod.

(** The error exit: [sr_iod] is set to NULL before [smb_rq_done] is called, so
    that the channel is not touched; the chains are freed. *)
Definition init_failed (error : Z) (r : smb2_rq (W:=W) (P:=P)) (sr_rp : D) (iod : smbiod) (rq_len : option Z)
    : M S (Z * smb2_rq (W:=W) (P:=P) * smbiod * option Z) :=
  let sr_iod := None in
  match recover_credits r sr_iod with
  | Some _ => undef
  | None =>
      w ← w_done (sr_rq r);
      _ ← r_done sr_rp;
      mret (error, set_sr_rq r w, iod, rq_len)
  end.

(** [evs] and [gone] script the wait for credits; [None] also when they end and
    the thread still waits. *)
Definition smb2_rq_init_internal (env : conn_env) (cmd : Z) (rq_len : option Z) (rq_flags : Z)
    (iod : smbiod) (evs : list event) (gone : bool)
    : M S (Z * smb2_rq (W:=W) (P:=P) * smbiod * option Z) :=
  let r0 := rq_zero rq_flags in
  if negb (env_error env =? 0) then init_failed (env_error env) r0 r_null iod rq_len
  else if negb (access_error env =? 0) then init_failed (access_error env) r0 r_null iod rq_len
  else
    let noblock := flag cmd SMB2_NO_BLOCK in
    let cmd := if noblock then Z.ldiff cmd SMB2_NO_BLOCK else cmd in
    let extflags := Z.lor (if noblock then SMB2_REQ_NO_BLOCK else 0) SMB2_REQUEST in
    let cr := mk_rq cmd 1 1 0 true (env_smb2 env) (env_main_context env) noblock 0 in
    let r1 cr treeid sessionid := mk_srq cr rq_flags extflags 0 0 treeid sessionid
      (mk_ptrs None None None None None None) None None w_null in
    match smb2_rq_credit_decrement cr iod rq_len evs gone with
    | None => undef
    | Some (error, cr, iod, rq_len) =>
        if negb (error =? 0)
        then init_failed error (r1 (set_charge cr 0) 0 (env_session_id env)) r_null iod rq_len
        else
          let sessionid := if cmd =? SMB2_NEGOTIATE then 0 else env_session_id env in
          let treeid :=
            if (cmd =? SMB2_NEGOTIATE) || (cmd =? SMB2_SESSION_SETUP) || (cmd =? SMB2_LOGOFF)
               || (cmd =? SMB2_ECHO) || (cmd =? SMB2_CANCEL) || (cmd =? SMB2_TREE_CONNECT) then 0
            else default SMB2_TID_UNKNOWN (env_tree_id env) in
          n ← smb2_rq_new (r1 cr treeid sessionid) r_null;
          let '(error, r, sr_rp) := n in
          if negb (error =? 0) then init_failed error r sr_rp iod rq_len
          else mret (0, r, iod, rq_len)
    end.

(** [alloc]: does the allocation of the struct succeed?  The request is handed
    out only on success. *)
Definition smb2_rq_alloc (alloc : bool) (env : conn_env) (cmd : Z) (rq_len : option Z)
    (iod : smbiod) (evs : list event) (gone : bool)
    : M S (Z * option (smb2_rq (W:=W) (P:=P)) * smbiod * option Z) :=
  if negb alloc then mret (ENOMEM, None, iod, rq_len)
  else
    x ← smb2_rq_init_internal env cmd rq_len SMBR_ALLOCED iod evs gone;
    let '(error, r, iod, rq_len) := x in
    mret (error, if error =? 0 then Some r else None, iod, rq_len).
End Alloc.

(** ** The header as [MS-SMB2] 2.2.1 lays it out *)

(** The fields of a header, and its 64 bytes.  [h_id] is the process and tree ID
    of a sync header, or the async ID. *)
Record hdr := mk_hdr {
  h_charge : Z;
  h_status : Z;
  h_command : Z;
  h_credits : Z;
  h_flags : Z;
  h_next : Z;
  h_message_id : Z;
  h_id : Z;
  h_session_id : Z;
  h_signature : list Z
}.

Definition hdr_bytes (h : hdr) : list Z :=
  SMB2_SIGNATURE ++ le_bytes 2 64 ++ le_bytes 2 (h_charge h) ++ le_bytes 4 (h_status h) ++
  le_bytes 2 (h_command h) ++ le_bytes 2 (h_credits h) ++ le_bytes 4 (h_flags h) ++
  le_bytes 4 (h_next h) ++ le_bytes 8 (h_message_id h) ++ le_bytes 8 (h_id h) ++
  le_bytes 8 (h_session_id h) ++ h_signature h.

(** The process ID goes before the tree ID. *)
Definition sync_id (pid tid : Z) : Z := u32 pid + 2 ^ 32 * u32 tid.

Lemma le_bytes_sync pid tid : le_bytes 8 (sync_id pid tid) = le_bytes 4 pid ++ le_bytes 4 tid.
Proof.
  unfold sync_id, u32. change 8%nat with (4 + 4)%nat. rewrite le_bytes_app.
  change (256 ^ Z.of_nat 4) with (2 ^ 32). f_equal.
  - rewrite <- le_bytes_mod. change (256 ^ Z.of_nat 4) with (2 ^ 32).
    rewrite Z.mul_comm, Z.mod_add, Z.mod_mod by lia. apply (le_bytes_mod 4 pid).
  - rewrite Z.mul_comm, Z.div_add, Z.div_small, Z.add_0_l by (try apply Z.mod_pos_bound; lia).
    apply (le_bytes_mod 4 tid).
Qed.

(** ** Building step by step *)

Section Facts.
Context {S W P : Type} {Wr : Writer S W P} {WL : WriterLaws S W P}.

(** The chain [w] under construction holds [bs], counts them, and the addresses
    in [ps] are those of the given slices. *)
Definition built (s : S) (w : W) (bs : list Z) (ps : list (P * nat * nat)) : Prop :=
  w_ready s /\ w_holds s w bs /\ w_len w = Z.of_nat (length bs) /\
  Forall (fun q => w_points s w q.1.1 q.1.2 q.2) ps.

Lemma grown_ps (s s' : S) (w w' : W) ps :
  w_grown s s' w w' -> Forall (fun q => w_points s w q.1.1 q.1.2 q.2) ps ->
  Forall (fun q => w_points s' w' q.1.1 q.1.2 q.2) ps.
Proof. intros Hg. apply Forall_impl. intros [[p o] n]. apply Hg. Qed.

Lemma put_built s w bs ps xs :
  built s w bs ps -> Z.of_nat (length bs + length xs) < 2 ^ 64 ->
  exists w' s', put_ w xs s = Some (w', s') /\ built s' w' (bs ++ xs) ps.
Proof.
  intros (Hr & Hh & Hl & Hp) Hb.
  destruct (w_put_ok s w bs xs Hr Hh ltac:(lia)) as (w' & s' & E & Hr' & Hh' & Hl' & Hg).
  exists w', s'. unfold put_, mbind, M_bind. rewrite E. split; [done|]. split_and!; [done|done| |].
  - rewrite Hl', Hl, u64_small by lia. rewrite length_app. lia.
  - by eapply grown_ps.
Qed.

Lemma zero_built s w bs ps n :
  built s w bs ps -> 0 <= n -> Z.of_nat (length bs) + n < 2 ^ 64 ->
  exists w' s', w_zero w n s = Some ((0, w'), s') /\ built s' w' (bs ++ replicate (Z.to_nat n) 0) ps.
Proof.
  intros (Hr & Hh & Hl & Hp) Hn Hb.
  destruct (w_zero_ok s w bs n Hr Hh ltac:(lia)) as (w' & s' & E & Hr' & Hh' & Hl' & Hg).
  exists w', s'. split; [done|]. split_and!; [done|done| |by eapply grown_ps].
  rewrite Hl', Hl, u64_small by lia. rewrite length_app, length_replicate. lia.
Qed.

(** The store through an address of the list. *)
Lemma store_built s w bs ps p o n xs :
  built s w bs ps -> (p, o, n) ∈ ps -> length xs = n ->
  exists s', w_store p xs s = Some (tt, s') /\ built s' w (splice o xs bs) ps.
Proof.
  intros (Hr & Hh & Hl & Hp) Hin Hx.
  assert (w_points s w p o n) as Hpt by apply (proj1 (list.Forall_forall _ _) Hp _ Hin).
  pose proof (w_points_in s w bs p o n Hh Hpt) as Hb.
  destruct (w_store_ok s w bs p o n xs Hh Hpt Hx) as (s' & E & Hr' & Hh' & Hg).
  exists s'. split; [done|]. split_and!; [auto|done| |by eapply grown_ps].
  rewrite length_splice by lia. done.
Qed.

Lemma load_built s w bs ps p o n :
  built s w bs ps -> (p, o, n) ∈ ps -> w_load p n s = Some (take n (drop o bs), s).
Proof.
  intros (Hr & Hh & Hl & Hp) Hin. eapply w_load_ok; [done|].
  apply (proj1 (list.Forall_forall _ _) Hp _ Hin).
Qed.

Lemma reserve_built s w bs ps xs :
  built s w bs ps -> 0 < Z.of_nat (length xs) <= RESERVE_MAX ->
  Z.of_nat (length bs + length xs) < 2 ^ 64 ->
  exists p w' s', reserve_put w xs s = Some ((Some p, w'), s') /\
    built s' w' (bs ++ xs) ((p, length bs, length xs) :: ps).
Proof.
  intros (Hr & Hh & Hl & Hp) Hn Hb.
  destruct (w_reserve_ok s w bs _ Hr Hh Hn) as (p & w' & s1 & js & E & Hr1 & Hj & Hh1 & Hl1 & Hg & Hpt).
  rewrite Nat2Z.id in Hpt.
  assert (built s1 w' (bs ++ js) ((p, length bs, length xs) :: ps)) as Hb1.
  { split_and!; [done|done| |constructor; [done|by eapply grown_ps]].
    rewrite Hl1, Hl, u64_small by lia. rewrite length_app. lia. }
  destruct (store_built s1 w' _ _ p (length bs) (length xs) xs Hb1) as (s' & Es & Hb'); [left|done|].
  exists p, w', s'. unfold reserve_put, mbind, M_bind. rewrite E, Es. split; [done|].
  assert (splice (length bs) xs (bs ++ js) = bs ++ xs) as E'; [|by rewrite E' in Hb'].
  rewrite <- (app_nil_r js). replace (length bs) with (length bs + 0)%nat by lia.
  rewrite (splice_mid bs js [] xs 0) by lia. by rewrite splice_full, app_nil_r by lia.
Qed.

Lemma init_built s : w_ready s -> exists w s', w_init s = Some ((0, Some w), s') /\ built s' w [] [].
Proof.
  intros Hr. destruct (w_init_ok s Hr) as (w & s' & E & Hr' & Hh & Hl).
  exists w, s'. split; [done|]. by split_and!.
Qed.
End Facts.

(** Runs the next put or reservation of the goal, with what has been built so far
    as its hypothesis. *)
Ltac build_step Hb :=
  let w := fresh "w" in let s := fresh "s" in let p := fresh "p" in
  let E := fresh "E" in let Hb' := fresh "Hb" in
  let w0 := lazymatch type of Hb with built _ ?w0 _ _ => w0 end in
  let s0 := lazymatch type of Hb with built ?s0 _ _ _ => s0 end in
  lazymatch goal with
  | |- context [mbind _ (put_ w0 ?xs) s0] =>
      destruct (put_built _ _ _ _ xs Hb) as (w & s & E & Hb'); [cbn; lia|]
  | |- context [mbind _ (reserve_put w0 ?xs) s0] =>
      destruct (reserve_built _ _ _ _ xs Hb) as (p & w & s & E & Hb');
        [unfold RESERVE_MAX; cbn; lia|cbn; lia|]
  end;
  erewrite bind_some by exact E; clear E Hb; rename Hb' into Hb; cbv beta iota.

Section Header.
Context {S W P D : Type} {Wr : Writer S W P} {WL : WriterLaws S W P}.
Context {Rd : Reader S D} {RL : ReaderLaws S D}.
Implicit Types r : smb2_rq (W:=W) (P:=P).

(** The header a request asks for. *)
Definition rq_hdr r : hdr :=
  mk_hdr (sr_creditcharge (sr_cr r)) 0 (sr_command (sr_cr r)) (sr_creditsrequested (sr_cr r))
    (sr_rqflags r) (sr_nextcmd r) 0
    (if flag (sr_flags r) SMBR_ASYNC then 0 else sync_id 0xFEFF (sr_rqtreeid r))
    (sr_rqsessionid r) (replicate 16 0).

(** The request holds [bs] and its six pointers are the addresses of the fields
    at their offsets. *)
Definition rq_built (s : S) r (bs : list Z) : Prop :=
  exists p1 p2 p3 p4 p5 p6,
    sr_ptrs r = mk_ptrs (Some p1) (Some p2) (Some p3) (Some p4) (Some p5) (Some p6) /\
    built s (sr_rq r) bs
      [(p6, 48, 16); (p5, 24, 8); (p4, 20, 4); (p3, 16, 4); (p2, 14, 2); (p1, 6, 2)]%nat.

Lemma put_sync_header_run s r w :
  built s w [] [] -> flag (sr_flags r) SMBR_ASYNC = false ->
  exists r' s', put_sync_header r w s = Some (r', s') /\ rq_built s' r' (hdr_bytes (rq_hdr r')) /\
    sr_rqflags r' = sr_rqflags r /\ sr_cr r' = sr_cr r /\ sr_extflags r' = sr_extflags r /\ sr_flags r' = sr_flags r.
Proof.
  intros Hb Ha. unfold put_sync_header. do 13 build_step Hb.
  eexists _, _. split; [apply mret_run|]. split; [|done].
  eexists _, _, _, _, _, _. split; [done|]. cbn [sr_rq].
  unfold hdr_bytes, rq_hdr. cbn [h_charge h_status h_command h_credits h_flags h_next h_message_id
    h_id h_session_id h_signature sr_cr sr_flags sr_rqflags sr_nextcmd sr_rqsessionid sr_rqtreeid].
  rewrite Ha, le_bytes_sync. rewrite <- !app_assoc in Hb. rewrite <- !app_assoc. exact Hb.
Qed.

Lemma put_async_header_run s r w :
  built s w [] [] -> flag (sr_flags r) SMBR_ASYNC = true ->
  exists r' s', put_async_header r w s = Some (r', s') /\ rq_built s' r' (hdr_bytes (rq_hdr r')) /\
    sr_rqflags r' = Z.lor (sr_rqflags r) SMB2_FLAGS_ASYNC_COMMAND /\ sr_cr r' = sr_cr r /\
    sr_extflags r' = sr_extflags r /\ sr_flags r' = sr_flags r.
Proof.
  intros Hb Ha. unfold put_async_header. do 12 build_step Hb.
  eexists _, _. split; [apply mret_run|]. split; [|done].
  eexists _, _, _, _, _, _. split; [done|]. cbn [sr_rq].
  unfold hdr_bytes, rq_hdr. cbn [h_charge h_status h_command h_credits h_flags h_next h_message_id
    h_id h_session_id h_signature sr_cr sr_flags sr_rqflags sr_nextcmd sr_rqsessionid sr_rqtreeid].
  rewrite Ha. rewrite <- !app_assoc in Hb. exact Hb.
Qed.

Lemma length_hdr_bytes h : length (h_signature h) = 16%nat -> length (hdr_bytes h) = 64%nat.
Proof.
  intros E. unfold hdr_bytes. rewrite !length_app, !length_le_bytes, E. done.
Qed.

Lemma rq_new_run s r :
  w_ready s -> sr_rq r = w_null ->
  exists r' s', smb2_rq_new r (r_null (D:=D)) s = Some ((0, r', r_null), s') /\
    rq_built s' r' (hdr_bytes (rq_hdr r')) /\
    sr_rqflags r' = (if flag (sr_flags r) SMBR_ASYNC
                     then Z.lor (sr_rqflags r) SMB2_FLAGS_ASYNC_COMMAND else sr_rqflags r) /\
    sr_cr r' = sr_cr r /\ sr_extflags r' = sr_extflags r /\ sr_flags r' = sr_flags r.
Proof.
  intros Hr Er. unfold smb2_rq_new. rewrite Er.
  erewrite bind_some by apply w_done_null. erewrite bind_some by apply r_done_null.
  destruct (init_built s Hr) as (w & s1 & E & Hb). erewrite bind_some by exact E. cbv beta iota.
  destruct (flag (sr_flags r) SMBR_ASYNC) eqn:Ea; cbn [negb].
  - destruct (put_async_header_run s1 r w Hb Ea) as (r' & s' & E' & Hb' & Ef).
    erewrite bind_some by exact E'. by exists r', s'.
  - destruct (put_sync_header_run s1 r w Hb Ea) as (r' & s' & E' & Hb' & Ef).
    erewrite bind_some by exact E'. by exists r', s'.
Qed.

Lemma rq_new_nomem s s1 e r :
  w_init s = Some ((e, None), s1) -> e <> 0 -> sr_rq r = w_null ->
  smb2_rq_new r (r_null (D:=D)) s = Some ((e, set_sr_rq r w_null, r_null), s1).
Proof.
  intros E He Er. unfold smb2_rq_new. rewrite Er.
  erewrite bind_some by apply w_done_null. erewrite bind_some by apply r_done_null.
  erewrite bind_some by exact E. by destruct e.
Qed.

Lemma recover_credits_null r : recover_credits r None = None.
Proof.
  unfold recover_credits.
  by repeat match goal with |- context [if ?b then _ else _] => destruct b end.
Qed.

(** A request let go at an open window, up to the construction of its header. *)
Lemma init_internal_open env cmd rq_len rq_flags iod evs gone s
    (cr := mk_rq cmd 1 1 0 true (env_smb2 env) (env_main_context env) false 0) :
  env_error env = 0 -> access_error env = 0 -> flag cmd SMB2_NO_BLOCK = false ->
  iod_ok iod -> regular cr -> send_window_open iod = true ->
  (forall n, rq_len = Some n -> 0 <= n <= MAX_CREDIT_LEN) ->
  exists cr' iod' len' treeid sessionid,
    smb2_rq_init_internal (D:=D) env cmd rq_len rq_flags iod evs gone s =
      (n ← smb2_rq_new (mk_srq cr' rq_flags SMB2_REQUEST 0 0 treeid sessionid
             (mk_ptrs None None None None None None) None None w_null) r_null;
       let '(error, r, sr_rp) := n in
       if negb (error =? 0) then init_failed error r sr_rp iod' len' else mret (0, r, iod', len')) s /\
    iod_ok iod' /\ iod_credits_granted iod' = iod_credits_granted iod - sr_creditcharge cr' /\
    1 <= sr_creditcharge cr' /\ sr_command cr' = cmd /\ sr_has_session cr' = true /\ regular cr' /\
    (forall n, rq_len = Some n -> exists n', len' = Some n' /\ n' <= n /\ (0 < n -> 0 < n') /\
       n' <= sr_creditcharge cr' * CREDIT_UNIT).
Proof.
  intros He Ha Hnb Hok Hreg Hopen Hlen. unfold smb2_rq_init_internal.
  rewrite He, Ha, Hnb. cbn [negb Z.eqb]. fold cr.
  rewrite decrement_regular by done. unfold credit_wait, credit_gate. rewrite Hopen. cbn [negb Z.eqb].
  destruct (credit_take cr iod rq_len) as [[cr' iod'] len'] eqn:E.
  pose proof (credit_take_rq _ _ _ _ _ _ E) as (Ec & Es & Ereg).
  apply credit_take_spec in E as (H1 & H2 & H3 & H4); [|done..].
  eexists cr', iod', len', _, _. split; [reflexivity|]. split_and!; auto.
Qed.
End Header.

(** ** Patching the header *)

Definition with_next (h : hdr) (x : Z) : hdr :=
  mk_hdr (h_charge h) (h_status h) (h_command h) (h_credits h) (h_flags h) x (h_message_id h)
    (h_id h) (h_session_id h) (h_signature h).
Definition with_flags (h : hdr) (x : Z) : hdr :=
  mk_hdr (h_charge h) (h_status h) (h_command h) (h_credits h) x (h_next h) (h_message_id h)
    (h_id h) (h_session_id h) (h_signature h).

(** The header split before the flags and after the NextCommand field. *)
Definition hdr_front (h : hdr) : list Z :=
  SMB2_SIGNATURE ++ le_bytes 2 64 ++ le_bytes 2 (h_charge h) ++ le_bytes 4 (h_status h) ++
  le_bytes 2 (h_command h) ++ le_bytes 2 (h_credits h).
Definition hdr_back (h : hdr) : list Z :=
  le_bytes 8 (h_message_id h) ++ le_bytes 8 (h_id h) ++ le_bytes 8 (h_session_id h) ++ h_signature h.

Lemma length_hdr_front h : length (hdr_front h) = 16%nat.
Proof. unfold hdr_front. by rewrite !length_app, !length_le_bytes. Qed.

Lemma hdr_bytes_split h :
  hdr_bytes h = hdr_front h ++ le_bytes 4 (h_flags h) ++ le_bytes 4 (h_next h) ++ hdr_back h.
Proof. unfold hdr_bytes, hdr_front, hdr_back. by rewrite <- !app_assoc. Qed.

Lemma patch_next h body x :
  splice 20 (le_bytes 4 x) (hdr_bytes h ++ body) = hdr_bytes (with_next h x) ++ body.
Proof.
  rewrite !hdr_bytes_split. change (hdr_front (with_next h x)) with (hdr_front h).
  cbn [h_flags h_next with_next]. change (hdr_back (with_next h x)) with (hdr_back h).
  rewrite <- !app_assoc, !(app_assoc (hdr_front h)).
  set (a := hdr_front h ++ le_bytes 4 (h_flags h)).
  assert (20%nat = (length a + 0)%nat) as -> by (unfold a; rewrite length_app, length_hdr_front; done).
  rewrite splice_mid by (rewrite !length_le_bytes; lia). by rewrite splice_full.
Qed.

Lemma patch_flags h body x :
  splice 16 (le_bytes 4 x) (hdr_bytes h ++ body) = hdr_bytes (with_flags h x) ++ body.
Proof.
  rewrite !hdr_bytes_split. change (hdr_front (with_flags h x)) with (hdr_front h).
  cbn [h_flags h_next with_flags]. change (hdr_back (with_flags h x)) with (hdr_back h).
  rewrite <- !app_assoc.
  assert (16%nat = (length (hdr_front h) + 0)%nat) as -> by (by rewrite length_hdr_front).
  rewrite splice_mid by (rewrite !length_le_bytes; lia). by rewrite splice_full.
Qed.

Lemma load_flags h body : take 4 (drop 16 (hdr_bytes h ++ body)) = le_bytes 4 (h_flags h).
Proof.
  rewrite hdr_bytes_split, <- !app_assoc. rewrite <- (length_hdr_front h), drop_app_length.
  by rewrite take_app_le, take_ge by (rewrite length_le_bytes; lia).
Qed.

(** Membership in a list given by its elements. *)
Ltac in_list := repeat (apply elem_of_cons; first [by left | right]).

Section Compound.
Context {S W P D : Type} {Wr : Writer S W P} {WL : WriterLaws S W P}.
Context {Rd : Reader S D} {RL : ReaderLaws S D}.
Implicit Types r : smb2_rq (W:=W) (P:=P).

Lemma store_nextcmd s r h body x p :
  rq_built s r (hdr_bytes h ++ body) -> sr_nextcmdp (sr_ptrs r) = Some p ->
  exists s', w_store p (le_bytes 4 x) s = Some (tt, s') /\
    rq_built s' r (hdr_bytes (with_next h x) ++ body).
Proof.
  intros (p1 & p2 & p3 & p4 & p5 & p6 & Ep & Hb) E. rewrite Ep in E. injection E as <-.
  destruct (store_built s _ _ _ p4 20 4 (le_bytes 4 x) Hb) as (s' & E & Hb'); [in_list|done|].
  exists s'. split; [done|]. rewrite patch_next in Hb'. by exists p1, p2, p3, p4, p5, p6.
Qed.

Lemma or_flags s r h body x p :
  rq_built s r (hdr_bytes h ++ body) -> sr_flagsp (sr_ptrs r) = Some p -> 0 <= h_flags h < 2 ^ 32 ->
  exists s', or_le32 p x s = Some (tt, s') /\
    rq_built s' r (hdr_bytes (with_flags h (Z.lor (h_flags h) x)) ++ body).
Proof.
  intros (p1 & p2 & p3 & p4 & p5 & p6 & Ep & Hb) E Hf. rewrite Ep in E. injection E as <-.
  unfold or_le32.
  erewrite bind_some by (apply (load_built s _ _ _ p3 16 4 Hb); in_list).
  rewrite load_flags, le_value_bytes. change (256 ^ Z.of_nat 4) with (2 ^ 32).
  rewrite Z.mod_small by lia.
  destruct (store_built s _ _ _ p3 16 4 (le_bytes 4 (Z.lor (h_flags h) x)) Hb) as (s' & E & Hb');
    [in_list|done|].
  exists s'. split; [done|]. rewrite patch_flags in Hb'. by exists p1, p2, p3, p4, p5, p6.
Qed.

Lemma rq_built_len s r bs : rq_built s r bs -> w_len (sr_rq r) = Z.of_nat (length bs).
Proof. by intros (p1 & p2 & p3 & p4 & p5 & p6 & _ & _ & _ & ? & _). Qed.
End Compound.

(** ** Properties *)

Section Properties.
Context {S W P D : Type} {Wr : Writer S W P} {WL : WriterLaws S W P}.
Context {Rd : Reader S D} {RL : ReaderLaws S D}.
Implicit Types r : smb2_rq (W:=W) (P:=P).

(** A new request holds exactly the 64-byte header of its fields, laid out as
    the protocol wants it (sync or async), and the pointers kept for later are
    the addresses of the credit charge, credit request, flags, NextCommand,
    message ID and signature fields.  No NULL pointer is followed while memory
    can be had. *)
Theorem rq_new_header s r :
  w_ready s -> sr_rq r = w_null ->
  exists r' s', smb2_rq_new r (r_null (D:=D)) s = Some ((0, r', r_null), s') /\
    rq_built s' r' (hdr_bytes (rq_hdr r')) /\ length (hdr_bytes (rq_hdr r')) = 64%nat /\
    sr_rqflags r' = (if flag (sr_flags r) SMBR_ASYNC
                     then Z.lor (sr_rqflags r) SMB2_FLAGS_ASYNC_COMMAND else sr_rqflags r).
Proof.
  intros Hr Er. destruct (rq_new_run s r Hr Er) as (r' & s' & E & Hb & Ef & _).
  exists r', s'. split_and!; [done|done| |done]. by apply length_hdr_bytes.
Qed.

(** Padding for a compound request: the request grows by zeros, fewer than
    eight, to a multiple of eight bytes, and its header pointers stay good. *)
Theorem rq_align8_pads s r bs :
  rq_built s r bs -> Z.of_nat (length bs) < 2 ^ 63 ->
  exists r' s' n, smb2_rq_align8 r s = Some (r', s') /\
    rq_built s' r' (bs ++ replicate n 0) /\ (n < 8)%nat /\
    ((length bs + n) mod 8 = 0)%nat /\ w_len (sr_rq r') `mod` 8 = 0.
Proof.
  intros Hb Hl. pose proof (rq_built_len s r bs Hb) as El. unfold smb2_rq_align8. rewrite El.
  pose proof (Z.mod_pos_bound (Z.of_nat (length bs)) 8 ltac:(lia)) as Hm.
  destruct (Z.eqb_spec (Z.of_nat (length bs) `mod` 8) 0) as [E0|E0]; cbn [negb].
  - exists r, s, 0%nat. cbn [replicate]. rewrite app_nil_r, Nat.add_0_r, El.
    split_and!; try done; [lia|]. apply Nat2Z.inj. by rewrite Nat2Z.inj_mod.
  - destruct Hb as (p1 & p2 & p3 & p4 & p5 & p6 & Ep & Hb).
    destruct (zero_built s _ _ _ (8 - Z.of_nat (length bs) `mod` 8) Hb) as (w' & s' & E & Hb'); [lia..|].
    erewrite bind_some by exact E. set (n := Z.to_nat (8 - Z.of_nat (length bs) `mod` 8)) in *.
    assert (rq_built s' (set_sr_rq r w') (bs ++ replicate n 0)) as Hb2
      by (by exists p1, p2, p3, p4, p5, p6).
    exists (set_sr_rq r w'), s', n. rewrite (rq_built_len _ _ _ Hb2), length_app, length_replicate.
    assert (Z.of_nat (length bs + n) `mod` 8 = 0) as E8.
    { replace (Z.of_nat (length bs + n))
        with ((Z.of_nat (length bs) `div` 8 + 1) * 8) by (pose proof (Z.div_mod (Z.of_nat (length bs)) 8); lia).
      apply Z.mod_mul. lia. }
    split_and!; try done; [lia|]. apply Nat2Z.inj. rewrite Nat2Z.inj_mod. exact E8.
Qed.

(** The header of a request in a compound chain: the first one gets its length
    as NextCommand, those in the middle also the related-operations flag, the
    last one a NextCommand of 0 and the flag; every other byte of the request
    stays.  An unknown position is refused with [ENOMEM] and changes nothing. *)
Theorem update_cmpd_hdr_patches s r h body :
  rq_built s r (hdr_bytes h ++ body) -> length (h_signature h) = 16%nat ->
  Z.of_nat (64 + length body) < 2 ^ 32 -> 0 <= h_flags h < 2 ^ 32 ->
  let len := Z.of_nat (64 + length body) in
  let related := with_flags h (Z.lor (h_flags h) SMB2_FLAGS_RELATED_OPERATIONS) in
  (exists s', smb2_rq_update_cmpd_hdr r SMB2_CMPD_FIRST s = Some (0, s') /\
     rq_built s' r (hdr_bytes (with_next h len) ++ body)) /\
  (exists s', smb2_rq_update_cmpd_hdr r SMB2_CMPD_MIDDLE s = Some (0, s') /\
     rq_built s' r (hdr_bytes (with_next related len) ++ body)) /\
  (exists s', smb2_rq_update_cmpd_hdr r SMB2_CMPD_LAST s = Some (0, s') /\
     rq_built s' r (hdr_bytes (with_next related 0) ++ body)) /\
  (forall q, q <> SMB2_CMPD_FIRST -> q <> SMB2_CMPD_MIDDLE -> q <> SMB2_CMPD_LAST ->
     smb2_rq_update_cmpd_hdr r q s = Some (ENOMEM, s)).
Proof.
  intros Hb Hs Hl Hf len related. pose proof (rq_built_len s r _ Hb) as El.
  rewrite length_app, length_hdr_bytes in El by done. fold len in El.
  assert (smb2_rq_length r = len) as Elen by (unfold smb2_rq_length; rewrite El; apply u32_small; lia).
  assert (exists p q, sr_nextcmdp (sr_ptrs r) = Some p /\ sr_flagsp (sr_ptrs r) = Some q)
    as (p & q & Ep & Eq) by (destruct Hb as (? & ? & ? & ? & ? & ? & -> & _); eauto).
  unfold smb2_rq_update_cmpd_hdr. rewrite Ep, Eq, Elen. split_and!.
  - destruct (store_nextcmd s r h body len p Hb Ep) as (s' & E & Hb').
    change (SMB2_CMPD_FIRST =? SMB2_CMPD_FIRST) with true. cbv iota.
    exists s'. by rewrite (bind_some _ _ _ _ _ E).
  - destruct (store_nextcmd s r h body len p Hb Ep) as (s1 & E1 & Hb1).
    destruct (or_flags s1 r _ body SMB2_FLAGS_RELATED_OPERATIONS q Hb1 Eq Hf) as (s2 & E2 & Hb2).
    change (SMB2_CMPD_MIDDLE =? SMB2_CMPD_FIRST) with false.
    change (SMB2_CMPD_MIDDLE =? SMB2_CMPD_MIDDLE) with true. cbv iota.
    exists s2. rewrite (bind_some _ _ _ _ _ E1). by rewrite (bind_some _ _ _ _ _ E2).
  - destruct (store_nextcmd s r h body 0 p Hb Ep) as (s1 & E1 & Hb1).
    destruct (or_flags s1 r _ body SMB2_FLAGS_RELATED_OPERATIONS q Hb1 Eq Hf) as (s2 & E2 & Hb2).
    change (SMB2_CMPD_LAST =? SMB2_CMPD_FIRST) with false.
    change (SMB2_CMPD_LAST =? SMB2_CMPD_MIDDLE) with false.
    change (SMB2_CMPD_LAST =? SMB2_CMPD_LAST) with true. cbv iota.
    exists s2. rewrite (bind_some _ _ _ _ _ E1). by rewrite (bind_some _ _ _ _ _ E2).
  - intros k H1 H2 H3. rewrite !(proj2 (Z.eqb_neq _ _)) by done. done.
Qed.

(** A request that finds the send window open is allocated: its header is
    built, the credit charge in the header is what has been taken from the
    channel, at least one credit, and the length allowed is paid for by it. *)
Theorem rq_alloc_charges env cmd rq_len rq_flags iod evs gone s :
  env_error env = 0 -> access_error env = 0 -> flag cmd SMB2_NO_BLOCK = false ->
  iod_ok iod -> regular (mk_rq cmd 1 1 0 true (env_smb2 env) (env_main_context env) false 0) ->
  send_window_open iod = true -> (forall n, rq_len = Some n -> 0 <= n <= MAX_CREDIT_LEN) -> w_ready s ->
  exists r iod' len' s',
    smb2_rq_init_internal (D:=D) env cmd rq_len rq_flags iod evs gone s = Some ((0, r, iod', len'), s') /\
    rq_built s' r (hdr_bytes (rq_hdr r)) /\ h_command (rq_hdr r) = cmd /\ iod_ok iod' /\
    iod_credits_granted iod' = iod_credits_granted iod - h_charge (rq_hdr r) /\
    1 <= h_charge (rq_hdr r) /\
    (forall n, rq_len = Some n -> exists n', len' = Some n' /\ n' <= n /\ (0 < n -> 0 < n') /\
       n' <= h_charge (rq_hdr r) * CREDIT_UNIT).
Proof.
  intros He Ha Hnb Hok Hreg Hopen Hlen Hr.
  destruct (init_internal_open env cmd rq_len rq_flags iod evs gone s He Ha Hnb Hok Hreg Hopen Hlen)
    as (cr' & iod' & len' & treeid & sessionid & E & Hok' & Hg & Hc & Hcmd & _ & _ & Hl).
  rewrite E. edestruct (rq_new_run s) as (r & s' & E' & Hb & _ & Ecr & _); [done| |].
  2:{ erewrite bind_some by exact E'. cbn [negb Z.eqb]. exists r, iod', len', s'.
      cbn [h_command h_charge rq_hdr]. rewrite Ecr. cbn [sr_cr]. split_and!; auto. }
  done.
Qed.

(** Credits leak when the chain of a request cannot be allocated.  The credits
    have been taken by then, but the error exit clears [sr_iod] before it calls
    [smb_rq_done], whose attempt to return them then fails: the channel ends up
    poorer by the charge of a request that was never sent.  Were [sr_iod] still
    set, the credits would come back. *)
Theorem rq_alloc_nomem_leaks env cmd rq_len rq_flags iod evs gone s s1 e :
  env_error env = 0 -> access_error env = 0 -> flag cmd SMB2_NO_BLOCK = false ->
  flag rq_flags SMBR_RECONNECTED = false ->
  iod_ok iod -> regular (mk_rq cmd 1 1 0 true (env_smb2 env) (env_main_context env) false 0) ->
  send_window_open iod = true -> (forall n, rq_len = Some n -> 0 <= n <= MAX_CREDIT_LEN) ->
  w_init s = Some ((e, None), s1) -> e <> 0 ->
  exists r iod' len',
    smb2_rq_init_internal (D:=D) env cmd rq_len rq_flags iod evs gone s = Some ((e, r, iod', len'), s1) /\
    1 <= sr_creditcharge (sr_cr r) /\
    iod_credits_granted iod' = iod_credits_granted iod - sr_creditcharge (sr_cr r) /\
    (iod_credits_granted <$> recover_credits r (Some iod')) = Some (iod_credits_granted iod).
Proof.
  intros He Ha Hnb Hrc Hok Hreg Hopen Hlen Hi Hne.
  destruct (init_internal_open env cmd rq_len rq_flags iod evs gone s He Ha Hnb Hok Hreg Hopen Hlen)
    as (cr' & iod' & len' & treeid & sessionid & E & Hok' & Hg & Hc & Hcmd & Hses & Hreg' & _).
  rewrite E. erewrite bind_some by (by apply (rq_new_nomem s s1 e)).
  cbv beta iota. rewrite (proj2 (Z.eqb_neq _ _) Hne). cbn [negb]. unfold init_failed.
  rewrite recover_credits_null.
  erewrite bind_some by apply w_done_null. erewrite bind_some by apply r_done_null.
  eexists _, iod', len'. split; [apply mret_run|]. cbn [sr_cr set_sr_rq]. split_and!; [done|done|].
  unfold recover_credits. cbn [sr_extflags sr_flags set_sr_rq sr_cr]. rewrite Hrc.
  change (flag SMB2_REQUEST SMB2_REQUEST) with true.
  change (flag SMB2_REQUEST SMB2_REQ_SENT) with false.
  cbn [negb andb fmap option_fmap option_map]. f_equal. destruct (increment_regular (set_rspgranted cr' (sr_creditcharge cr')) iod') as [_ Ei];
    [done..|cbn; lia|cbn; destruct Hok; lia|]. rewrite Ei. cbn. lia.
Qed.
End Properties.

(** ** Examples, on the userland chains *)

Abbreviation demo_new r := (smb2_rq_new (S:=heap) (W:=mbchain) (P:=loc * Z) (D:=mdchain) r r_null).

Abbreviation demo_rq0 f := (rq_zero (S:=heap) (W:=mbchain) (P:=loc * Z) f).

Lemma heap0_ready : w_ready (S:=heap) (W:=mbchain) (P:=loc * Z) heap0.
Proof. split; [apply heap0_ok|apply heap0_avail]. Qed.

Lemma rq_new_header_witness :
  exists r' s', demo_new (demo_rq0 SMBR_ASYNC) heap0 = Some ((0, r', r_null), s') /\
    rq_built s' r' (hdr_bytes (rq_hdr r')) /\ sr_rqflags r' = SMB2_FLAGS_ASYNC_COMMAND.
Proof.
  destruct (rq_new_header (Wr:=mbuf_Writer) (Rd:=mbuf_Reader) heap0 (demo_rq0 SMBR_ASYNC))
    as (r' & s' & E & Hb & _ & Ef); [apply heap0_ready|done|].
  exists r', s'. split; [exact E|]. split; [exact Hb|exact Ef].
Defined.

Lemma rq_align8_pads_witness :
  exists (s : heap) (r : smb2_rq (W:=mbchain) (P:=loc * Z)) r' s' n,
    rq_built s r (hdr_bytes (rq_hdr r)) /\ smb2_rq_align8 r s = Some (r', s') /\
    rq_built s' r' (hdr_bytes (rq_hdr r) ++ replicate n 0).
Proof.
  destruct (rq_new_run (Wr:=mbuf_Writer) (Rd:=mbuf_Reader) heap0 (demo_rq0 0))
    as (r & s & _ & Hb & _); [apply heap0_ready|done|].
  destruct (rq_align8_pads s r (hdr_bytes (rq_hdr r)) Hb) as (r' & s' & n & E & Hb' & _).
  { rewrite length_hdr_bytes by done. lia. }
  exists s, r, r', s', n. split; [exact Hb|]. split; [exact E|exact Hb'].
Defined.

Lemma update_cmpd_hdr_patches_witness :
  exists (s : heap) (r : smb2_rq (W:=mbchain) (P:=loc * Z)) s',
    smb2_rq_update_cmpd_hdr r SMB2_CMPD_FIRST s = Some (0, s') /\
    rq_built s' r (hdr_bytes (with_next (rq_hdr r) 64) ++ []).
Proof.
  destruct (rq_new_run (Wr:=mbuf_Writer) (Rd:=mbuf_Reader) heap0 (demo_rq0 0))
    as (r & s & _ & Hb & Ef & _); [apply heap0_ready|done|].
  rewrite <- (app_nil_r (hdr_bytes _)) in Hb.
  destruct (update_cmpd_hdr_patches s r (rq_hdr r) [] Hb) as ((s' & E & Hb') & _).
  - done.
  - cbn. lia.
  - change (sr_rqflags r = 0) in Ef. cbn [h_flags rq_hdr]. rewrite Ef. lia.
  - exists s, r, s'. split; [exact E|exact Hb'].
Defined.

Definition demo_env : conn_env := mk_env 0 0 77 (Some 5) true false.

Lemma rq_alloc_charges_witness :
  exists r iod' len' s',
    smb2_rq_init_internal (S:=heap) (W:=mbchain) (P:=loc * Z) (D:=mdchain) demo_env 8 (Some 200000) 0
      demo_iod [] false heap0 = Some ((0, r, iod', len'), s') /\
    iod_credits_granted iod' = 20 - h_charge (rq_hdr r) /\ h_charge (rq_hdr r) >= 1.
Proof.
  destruct (rq_alloc_charges (Wr:=mbuf_Writer) (Rd:=mbuf_Reader) demo_env 8 (Some 200000) 0
    demo_iod [] false heap0) as (r & iod' & len' & s' & E & _ & _ & _ & Hg & Hc & _).
  - reflexivity.
  - reflexivity.
  - reflexivity.
  - apply demo_iod_ok.
  - right. by split_and!.
  - reflexivity.
  - intros n [= <-]. unfold MAX_CREDIT_LEN, CREDIT_UNIT. lia.
  - apply heap0_ready.
  - exists r, iod', len', s'. split; [exact E|].
    change (iod_credits_granted demo_iod) with 20 in Hg. lia.
Defined.

Definition heap_nomem : heap := mk_heap ∅ 0%nat [false] [].

Lemma rq_alloc_nomem_leaks_witness :
  exists r iod' len' s',
    smb2_rq_init_internal (S:=heap) (W:=mbchain) (P:=loc * Z) (D:=mdchain) demo_env 8 (Some 200000) 0
      demo_iod [] false heap_nomem = Some ((ENOBUFS, r, iod', len'), s') /\
    iod_credits_granted iod' < iod_credits_granted demo_iod.
Proof.
  destruct (rq_alloc_nomem_leaks (Wr:=mbuf_Writer) (Rd:=mbuf_Reader) demo_env 8 (Some 200000) 0
    demo_iod [] false heap_nomem heap0 ENOBUFS) as (r & iod' & len' & E & Hc & Hg & _).
  - reflexivity.
  - reflexivity.
  - reflexivity.
  - reflexivity.
  - apply demo_iod_ok.
  - right. by split_and!.
  - reflexivity.
  - intros n [= <-]. unfold MAX_CREDIT_LEN, CREDIT_UNIT. lia.
  - reflexivity.
  - done.
  - exists r, iod', len', heap0. split; [exact E|]. lia.
Defined.
