(* ===== verification/Smb2Rsp.v ===== *)
(** * Parsing SMB 2/3 replies: [kernel/netsmb/smb_rq_2.c]

    The header of a reply, the credits it grants, the check of its signature,
    and the walk from one command of a compound reply to the next.  The code is
    proved against the chain interface of [Chain.v]. *)

From S2P Require Import Prelude Mbuf MbufFacts Mchain MchainFacts Chain ChainMbuf Ntstatus Credits Smb2Req.
Import Errno NT.

Definition SMBR_SIGNED := 0x0400.
Definition SMBR_MOREDATA := 0x8000.
Definition SMB2_RESPONSE := 0x0002.
Definition SMB2_HDR_PREPARSED := 0x0040.

(** The reply side of [struct smb_rq]; [rp_cr] are the fields crediting uses. *)
Record rsp := mk_rsp {
  rp_cr : Credits.smb_rq;
  rp_flags : Z;
  rp_extflags : Z;
  sr_ntstatus : Z;
  sr_rspflags : Z;
  sr_rspnextcmd : Z;
  sr_rsppid : Z;
  sr_rsptreeid : Z;
  sr_rspasyncid : Z;
  sr_rspsessionid : Z
}.

Definition set_rp_cr (r : rsp) x := mk_rsp x (rp_flags r) (rp_extflags r) (sr_ntstatus r) (sr_rspflags r)
  (sr_rspnextcmd r) (sr_rsppid r) (sr_rsptreeid r) (sr_rspasyncid r) (sr_rspsessionid r).
Definition set_rp_flags (r : rsp) x := mk_rsp (rp_cr r) x (rp_extflags r) (sr_ntstatus r) (sr_rspflags r)
  (sr_rspnextcmd r) (sr_rsppid r) (sr_rsptreeid r) (sr_rspasyncid r) (sr_rspsessionid r).
Definition set_rp_extflags (r : rsp) x := mk_rsp (rp_cr r) (rp_flags r) x (sr_ntstatus r) (sr_rspflags r)
  (sr_rspnextcmd r) (sr_rsppid r) (sr_rsptreeid r) (sr_rspasyncid r) (sr_rspsessionid r).
Definition set_ntstatus (r : rsp) x := mk_rsp (rp_cr r) (rp_flags r) (rp_extflags r) x (sr_rspflags r)
  (sr_rspnextcmd r) (sr_rsppid r) (sr_rsptreeid r) (sr_rspasyncid r) (sr_rspsessionid r).
Definition set_rspflags (r : rsp) x := mk_rsp (rp_cr r) (rp_flags r) (rp_extflags r) (sr_ntstatus r) x
  (sr_rspnextcmd r) (sr_rsppid r) (sr_rsptreeid r) (sr_rspasyncid r) (sr_rspsessionid r).
Definition set_rspnextcmd (r : rsp) x := mk_rsp (rp_cr r) (rp_flags r) (rp_extflags r) (sr_ntstatus r) (sr_rspflags r)
  x (sr_rsppid r) (sr_rsptreeid r) (sr_rspasyncid r) (sr_rspsessionid r).
Definition set_rsppid (r : rsp) x := mk_rsp (rp_cr r) (rp_flags r) (rp_extflags r) (sr_ntstatus r) (sr_rspflags r)
  (sr_rspnextcmd r) x (sr_rsptreeid r) (sr_rspasyncid r) (sr_rspsessionid r).
Definition set_rsptreeid (r : rsp) x := mk_rsp (rp_cr r) (rp_flags r) (rp_extflags r) (sr_ntstatus r) (sr_rspflags r)
  (sr_rspnextcmd r) (sr_rsppid r) x (sr_rspasyncid r) (sr_rspsessionid r).
Definition set_rspsessionid (r : rsp) x := mk_rsp (rp_cr r) (rp_flags r) (rp_extflags r) (sr_ntstatus r) (sr_rspflags r)
  (sr_rspnextcmd r) (sr_rsppid r) (sr_rsptreeid r) (sr_rspasyncid r) x.

(** What a reply can set off: [smb_session_force_reconnect], or the [ss_dead]
    callback that unmounts the share. *)
Inductive effect := ForceReconnect | ShareDead.

#[export] Instance effect_eq_dec : EqDecision effect.
Proof. solve_decision. Defined.

Section Parse.
Context {S D : Type} `{Reader S D}.

(** What the code reads of the session, the share and the channel: SMB 3 or
    later, session encryption, the share with its encryption flag and whether
    it has an [ss_dead] callback, session signing, and of the channel whether
    it is an alternate one and whether the context is its own ([None]: no
    channel).  [env_verify] is the result of [smb2_rq_verify] on the chain as it
    was before the header was read, and on the signature. *)
Record rsp_env := mk_renv {
  env_smb3 : bool;
  env_encrypt : bool;
  env_share : option (bool * bool);
  env_sign : bool;
  env_chan : option (bool * bool);
  env_verify : S -> D -> list Z -> Z
}.

Record pst := mk_pst {
  p_mem : S;
  p_md : D;
  p_rq : rsp;
  p_iod : option smbiod;
  p_fx : list effect
}.

Definition get (n : nat) : ME pst (list Z) := fun t =>
  match r_get (p_md t) n (p_mem t) with
  | None => None
  | Some ((e, d, xs), s) =>
      Some (if e =? 0 then inr xs else inl e, mk_pst s d (p_rq t) (p_iod t) (p_fx t))
  end.

(** [md_get_uint16le] and so on. *)
Definition get_le (n : nat) : ME pst Z := xs ← get n; mret (le_value xs).

Definition on_rq (f : rsp -> rsp) : ME pst unit :=
  update (fun t => mk_pst (p_mem t) (p_md t) (f (p_rq t)) (p_iod t) (p_fx t)).

(** [smb2_rq_credit_increment(rqp)]; with a NULL channel it only fails. *)
Definition credit_increment : ME pst unit :=
  update (fun t => mk_pst (p_mem t) (p_md t) (p_rq t)
    ((fun iod => (smb2_rq_credit_increment (rp_cr (p_rq t)) iod).2) <$> p_iod t) (p_fx t)).

(** Up to the credits granted (lines 1059-1106). *)
Definition parse_credits : ME pst unit :=
  _ ← get_le 4;
  length ← get_le 2;
  if negb (length =? 64) then throw EBADRPC else
  _ ← get_le 2;
  status ← get_le 4;
  on_rq (fun r => set_ntstatus r status);;
  _ ← get_le 2;
  granted ← get_le 2;
  on_rq (fun r => set_rp_cr r (set_rspgranted (rp_cr r) granted));;
  t ← ask;
  if negb (granted =? 0) && negb (flag (rp_extflags (p_rq t)) SMB2_HDR_PREPARSED)
  then credit_increment else mret tt.

(** The process and tree ID of a sync header; the async ID of an async one must
    be the one announced (lines 1131-1165). *)
Definition parse_ids (flags : Z) : ME pst unit :=
  if negb (flag flags SMB2_FLAGS_ASYNC_COMMAND) then
    pid ← get_le 4;
    on_rq (fun r => set_rsppid r pid);;
    tid ← get_le 4;
    on_rq (fun r => set_rsptreeid r tid)
  else
    async_id ← get_le 8;
    t ← ask;
    if negb (async_id =? sr_rspasyncid (p_rq t)) then throw EBADRPC else mret tt.

(** The rest of the header (lines 1113-1177); returns the signature. *)
Definition parse_fields : ME pst (list Z) :=
  flags ← get_le 4;
  on_rq (fun r => set_rspflags r flags);;
  next ← get_le 4;
  on_rq (fun r => set_rspnextcmd r next);;
  _ ← get_le 8;
  parse_ids flags;;
  sid ← get_le 8;
  on_rq (fun r => set_rspsessionid r sid);;
  get 16.

(** Lines 1180-1197. *)
Definition encryption_on (env : rsp_env) (command : Z) : bool :=
  if env_smb3 env then
    if env_encrypt env then negb (command =? SMB2_NEGOTIATE)
    else match env_share env with
      | Some (encrypted, _) =>
          negb (command =? SMB2_NEGOTIATE) && negb (command =? SMB2_SESSION_SETUP)
          && negb (command =? SMB2_TREE_CONNECT) && encrypted
      | None => false
      end
  else false.

Definition must_verify (env : rsp_env) (r : rsp) : bool :=
  negb (encryption_on env (sr_command (rp_cr r))) && (env_sign env || flag (rp_flags r) SMBR_SIGNED).

(** What the status means for the session (lines 1215-1308): the errno, and
    whether a reconnect is forced. *)
Definition reply_error (env : rsp_env) (r : rsp) : Z * list effect :=
  let rperror := smb_ntstatus_to_errno (sr_ntstatus r) in
  if (sr_ntstatus r =? STATUS_NETWORK_SESSION_EXPIRED) || (sr_ntstatus r =? STATUS_USER_SESSION_DELETED) then
    match env_chan env with
    | None => (rperror, [])
    | Some (alternate, own_context) =>
        if alternate then (rperror, if own_context then [] else [ForceReconnect])
        else if sr_iod_context (rp_cr r) then (ENETRESET, []) else (rperror, [ForceReconnect])
    end
  else (rperror, []).

(** Lines 1214-1325. *)
Definition parse_status (env : rsp_env) : ME pst Z :=
  t ← ask;
  let '(rperror, fx) := reply_error env (p_rq t) in
  let dead := match env_share env with
    | Some (_, has_dead) => if (rperror =? ENETRESET) && has_dead then [ShareDead] else []
    | None => []
    end in
  update (fun t => mk_pst (p_mem t) (p_md t) (p_rq t) (p_iod t) (p_fx t ++ fx ++ dead));;
  on_rq (fun r => set_rp_flags r
    (if negb (rperror =? 0) && (sr_ntstatus r =? STATUS_BUFFER_TOO_SMALL)
     then Z.lor (rp_flags r) SMBR_MOREDATA else Z.ldiff (rp_flags r) SMBR_MOREDATA));;
  mret rperror.

Definition parse_body (env : rsp_env) (parse_for_credits : bool) : ME pst Z :=
  md_sign ← ask;
  parse_credits;;
  if parse_for_credits then mret 0 else
  signature ← parse_fields;
  t ← ask;
  let error := if must_verify env (p_rq t) then env_verify env (p_mem t) (p_md md_sign) signature else 0 in
  if negb (error =? 0) then throw error else parse_status env.

(** [return error ? error : rperror]; [sr_rp] is the reply chain of the request
    itself, which takes the place of the caller's chain when the reply is in
    the request. *)
Definition smb2_rq_parse_header (env : rsp_env) (sr_rp : D) (parse_for_credits : bool) : M pst Z := fun t =>
  let own := flag (rp_extflags (p_rq t)) SMB2_RESPONSE && negb parse_for_credits in
  let t := if own then mk_pst (p_mem t) sr_rp (p_rq t) (p_iod t) (p_fx t) else t in
  match parse_body env parse_for_credits t with
  | None => None
  | Some (inl e, t') => Some (e, t')
  | Some (inr rperror, t') => Some (rperror, t')
  end.

(** The state carries the request's own chain in [p_md]; only the credits, the
    parsed fields and the flag change, the shadow chain is dropped. *)
Definition smb2_rq_credit_preprocess_reply (env : rsp_env) : M pst unit := fun t =>
  if negb (flag (rp_extflags (p_rq t)) SMB2_RESPONSE) then Some (tt, t)
  else if flag (rp_flags (p_rq t)) SMBR_COMPOUND_RQ then Some (tt, t)
  else
    let t0 := mk_pst (p_mem t) (r_shadow (p_md t)) (p_rq t) (p_iod t) (p_fx t) in
    match smb2_rq_parse_header env (p_md t) true t0 with
    | None => None
    | Some (error, t1) =>
        let r := if negb (error =? 0) then p_rq t1
                 else set_rp_extflags (p_rq t1) (Z.lor (rp_extflags (p_rq t1)) SMB2_HDR_PREPARSED) in
        Some (tt, mk_pst (p_mem t1) (p_md t) r (p_iod t1) (p_fx t1))
    end.

(** [pad_bytes] is signed: a NextCommand that points back skips nothing. *)
Definition smb2_rq_next_command (r : rsp) (next_cmd_offset : Z) (md : D) : M S (Z * Z * D) :=
  let next_cmd_offset := u64 (next_cmd_offset + sr_rspnextcmd r) in
  let pad_bytes := i64 (u64 (next_cmd_offset - r_len md)) in
  if 0 <? pad_bytes then
    x ← r_skip md pad_bytes;
    mret (x.1, next_cmd_offset, x.2)
  else mret (0, next_cmd_offset, md).
End Parse.

(** ** Running the parser *)

(** The [n]-byte little-endian field at offset [k]. *)
Definition field (bs : list Z) (k n : nat) : Z := le_value (take n (drop k bs)).

Section Facts.
Context {S D : Type} {Rd : Reader S D} {RL : ReaderLaws S D}.

Lemma get_at s d r iod fx bs k n :
  r_holds s d (drop k bs) -> (0 < n)%nat -> (k + n <= length bs)%nat -> Z.of_nat n < 2 ^ 64 ->
  exists d', get n (mk_pst s d r iod fx) = Some (inr (take n (drop k bs)), mk_pst s d' r iod fx) /\
    r_holds s d' (drop (k + n) bs) /\ r_len d' = u64 (r_len d + Z.of_nat n).
Proof.
  intros Hh Hn Hk Hb.
  destruct (r_get_ok s d (drop k bs) n Hh) as (d' & E & Hh' & Hl); [rewrite length_drop; lia|done|].
  exists d'. unfold get. cbn [p_md p_mem]. rewrite E. rewrite drop_drop in Hh'. done.
Qed.

Lemma get_le_at s d r iod fx bs k n :
  r_holds s d (drop k bs) -> (0 < n)%nat -> (k + n <= length bs)%nat -> Z.of_nat n < 2 ^ 64 ->
  exists d', get_le n (mk_pst s d r iod fx) = Some (inr (field bs k n), mk_pst s d' r iod fx) /\
    r_holds s d' (drop (k + n) bs) /\ r_len d' = u64 (r_len d + Z.of_nat n).
Proof.
  intros Hh Hn Hk Hb. destruct (get_at s d r iod fx bs k n Hh Hn Hk Hb) as (d' & E & Hh' & Hl).
  exists d'. split; [|done]. unfold get_le. by rewrite (ME_bind_inr _ _ _ _ _ E).
Qed.

(** Runs the next field read; [Hh] says where the reader is. *)
Ltac pget Hh Hl :=
  let d := fresh "d" in let E := fresh "E" in let Hh' := fresh "Hh" in let Hl' := fresh "Hl" in
  lazymatch type of Hh with
  | r_holds ?s ?d0 (drop ?k ?bs) =>
      lazymatch goal with
      | |- context [mbind _ (get_le ?n) (mk_pst s d0 ?r ?i ?fx)] =>
          destruct (get_le_at s d0 r i fx bs k n Hh) as (d & E & Hh' & Hl'); [lia|lia|lia|]
      end
  end;
  rewrite (ME_bind_inr _ _ _ _ _ E); clear E Hh; rename Hh' into Hh;
  rewrite Hl, u64_add_l in Hl'; clear Hl; rename Hl' into Hl; cbn [Nat.add] in Hh.

Ltac pupd := erewrite ME_bind_inr by reflexivity; cbn [p_mem p_md p_rq p_iod p_fx].

(** The reply fields after the header [bs], up to the credits. *)
Definition credited (r : rsp) (bs : list Z) : rsp :=
  set_rp_cr (set_ntstatus r (field bs 8 4)) (set_rspgranted (rp_cr r) (field bs 14 2)).

Definition credited_iod (r : rsp) (iod : option smbiod) (bs : list Z) : option smbiod :=
  if negb (field bs 14 2 =? 0) && negb (flag (rp_extflags r) SMB2_HDR_PREPARSED)
  then (fun i => (smb2_rq_credit_increment (rp_cr (credited r bs)) i).2) <$> iod else iod.

Lemma parse_credits_run s d r iod fx bs :
  r_holds s d bs -> (16 <= length bs)%nat -> field bs 4 2 = 64 ->
  exists d', parse_credits (mk_pst s d r iod fx) =
      Some (inr tt, mk_pst s d' (credited r bs) (credited_iod r iod bs) fx) /\
    r_holds s d' (drop 16 bs) /\ r_len d' = u64 (r_len d + 16).
Proof.
  intros Hh Hn H64. rewrite <- (drop_0 bs) in Hh. unfold parse_credits.
  assert (r_len d = r_len d + 0) as Hl by lia.
  destruct (get_le_at s d r iod fx bs 0 4 Hh) as (d1 & E & Hh1 & Hl1); [lia..|].
  rewrite (ME_bind_inr _ _ _ _ _ E). clear E Hh Hl. cbn [Nat.add] in Hh1.
  pget Hh1 Hl1. rewrite H64. change (negb (64 =? 64)) with false. cbv iota.
  pget Hh1 Hl1. pget Hh1 Hl1. pupd. pget Hh1 Hl1. pget Hh1 Hl1. pupd. pupd.
  eexists. split; [|split; [exact Hh1|rewrite Hl1; f_equal; lia]].
  unfold credited_iod. cbn [rp_extflags set_rp_cr set_ntstatus].
  by destruct (negb (field bs 14 2 =? 0) && _).
Qed.

(** Is the header a sync one, or an async one with the announced ID? *)
Definition ids_match (r : rsp) (bs : list Z) : bool :=
  negb (flag (field bs 16 4) SMB2_FLAGS_ASYNC_COMMAND) || (field bs 32 8 =? sr_rspasyncid r).

Definition with_ids (r : rsp) (bs : list Z) : rsp :=
  if negb (flag (field bs 16 4) SMB2_FLAGS_ASYNC_COMMAND)
  then set_rsptreeid (set_rsppid r (field bs 32 4)) (field bs 36 4) else r.

Lemma parse_ids_run s d r iod fx bs :
  r_holds s d (drop 32 bs) -> (40 <= length bs)%nat ->
  exists d', parse_ids (field bs 16 4) (mk_pst s d r iod fx) =
      Some (if ids_match r bs then inr tt else inl EBADRPC, mk_pst s d' (with_ids r bs) iod fx) /\
    r_holds s d' (drop 40 bs) /\ r_len d' = u64 (r_len d + 8).
Proof.
  intros Hh Hn. unfold parse_ids, ids_match, with_ids.
  destruct (negb (flag (field bs 16 4) SMB2_FLAGS_ASYNC_COMMAND)); cbn [orb].
  - destruct (get_le_at s d r iod fx bs 32 4 Hh) as (d1 & E & Hh1 & Hl1); [lia..|].
    rewrite (ME_bind_inr _ _ _ _ _ E). clear E. cbn [Nat.add] in Hh1. pupd. pget Hh1 Hl1.
    eexists. split; [reflexivity|]. split; [exact Hh1|]. cbn [p_md]. rewrite Hl1. f_equal. lia.
  - destruct (get_le_at s d r iod fx bs 32 8 Hh) as (d1 & E & Hh1 & Hl1); [lia..|].
    rewrite (ME_bind_inr _ _ _ _ _ E). clear E. cbn [Nat.add] in Hh1. pupd.
    exists d1. split; [|done]. by destruct (field bs 32 8 =? sr_rspasyncid r).
Qed.

Definition fielded (r : rsp) (bs : list Z) : rsp :=
  set_rspsessionid
    (with_ids (set_rspnextcmd (set_rspflags r (field bs 16 4)) (field bs 20 4)) bs) (field bs 40 8).

Lemma parse_fields_run s d r iod fx bs :
  r_holds s d (drop 16 bs) -> (64 <= length bs)%nat ->
  exists d' r', parse_fields (mk_pst s d r iod fx) =
      Some (if ids_match r bs then inr (take 16 (drop 48 bs)) else inl EBADRPC, mk_pst s d' r' iod fx) /\
    (ids_match r bs = true -> r' = fielded r bs /\ r_holds s d' (drop 64 bs) /\ r_len d' = u64 (r_len d + 48)).
Proof.
  intros Hh Hn. unfold parse_fields.
  destruct (get_le_at s d r iod fx bs 16 4 Hh) as (d1 & E & Hh1 & Hl1); [lia..|].
  rewrite (ME_bind_inr _ _ _ _ _ E). clear E. cbn [Nat.add] in Hh1.
  pupd. pget Hh1 Hl1. pupd. pget Hh1 Hl1.
  set (r1 := set_rspnextcmd (set_rspflags r (field bs 16 4)) (field bs 20 4)).
  destruct (parse_ids_run s _ r1 iod fx bs Hh1) as (d3 & E & Hh3 & Hl3); [lia|].
  change (ids_match r1 bs) with (ids_match r bs) in E.
  destruct (ids_match r bs) eqn:Eid.
  2:{ rewrite (ME_bind_inl _ _ _ _ _ E). eexists _, _. split; [reflexivity|done]. }
  rewrite (ME_bind_inr _ _ _ _ _ E). clear E. rewrite Hl1, u64_add_l in Hl3.
  pget Hh3 Hl3. pupd.
  destruct (get_at s _ (fielded r bs) iod fx bs 48 16 Hh3) as (d5 & E & Hh5 & Hl5); [lia..|].
  exists d5, (fielded r bs). split; [exact E|].
  intros _. split; [done|]. split; [exact Hh5|]. rewrite Hl5, Hl3, u64_add_l. f_equal. lia.
Qed.

(** ** Whatever the server sends

    [reads n m]: on any reply the computation returns; it succeeds only after
    consuming exactly [n] bytes, fails only with [EBADRPC], and sets nothing
    off. *)
Definition readable (t : pst) (bs : list Z) : Prop := r_holds (p_mem t) (p_md t) bs.

Definition reads {A} (n : nat) (m : ME pst A) : Prop := forall t bs, readable t bs ->
  exists res t', m t = Some (res, t') /\ p_mem t' = p_mem t /\ p_fx t' = p_fx t /\
    rp_flags (p_rq t') = rp_flags (p_rq t) /\
    sr_command (rp_cr (p_rq t')) = sr_command (rp_cr (p_rq t)) /\
    match res with
    | inr _ => (n <= length bs)%nat /\ readable t' (drop n bs)
    | inl e => e = EBADRPC
    end.

Lemma reads_bind {A B} n k (m : ME pst A) (f : A -> ME pst B) :
  reads n m -> (forall x, reads k (f x)) -> reads (n + k) (m ≫= f).
Proof.
  intros Hm Hf t bs Ht. destruct (Hm t bs Ht) as ([e|a] & t1 & E & Em & Ef & Eg & Ec & Hr).
  - exists (inl e), t1. by rewrite (ME_bind_inl _ _ _ _ _ E).
  - destruct Hr as [Hn Hr]. rewrite (ME_bind_inr _ _ _ _ _ E).
    destruct (Hf a t1 _ Hr) as (res & t2 & E2 & Em2 & Ef2 & Eg2 & Ec2 & Hr2).
    exists res, t2. split_and!; [done|congruence..|]. destruct res; [done|].
    rewrite length_drop in Hr2. rewrite drop_drop in Hr2. destruct Hr2. split; [lia|done].
Qed.

Lemma reads_ret {A} (a : A) : reads 0 (mret a).
Proof. intros t bs Ht. exists (inr a), t. rewrite drop_0. split_and!; (done || lia). Qed.

Lemma reads_throw {A} n : reads n (throw (A:=A) EBADRPC).
Proof. intros t bs Ht. by exists (inl EBADRPC), t. Qed.

Lemma reads_ask : reads 0 (ask (T:=pst)).
Proof. intros t bs Ht. exists (inr t), t. rewrite drop_0. split_and!; (done || lia). Qed.

Lemma reads_get n : (0 < n)%nat -> Z.of_nat n < 2 ^ 64 -> reads n (get n).
Proof.
  intros Hn Hb t bs Ht. unfold get. destruct (decide (n <= length bs)%nat) as [Hl|Hl].
  - destruct (r_get_ok _ _ _ n Ht) as (d' & E & Hh & _); [lia|done|]. rewrite E.
    eexists (inr _), _. by split_and!.
  - destruct (r_get_short _ _ _ n Ht) as (d' & xs & E & Hh & _); [lia|done|]. rewrite E.
    eexists (inl _), _. by split_and!.
Qed.

Lemma reads_get_le n : (0 < n)%nat -> Z.of_nat n < 2 ^ 64 -> reads n (get_le n).
Proof.
  intros Hn Hb. rewrite <- (Nat.add_0_r n) at 1.
  apply reads_bind; [by apply reads_get|]. intros x. apply reads_ret.
Qed.

Lemma reads_on_rq f :
  (forall r, rp_flags (f r) = rp_flags r) ->
  (forall r, sr_command (rp_cr (f r)) = sr_command (rp_cr r)) -> reads 0 (on_rq f).
Proof.
  intros Hf Hc t bs Ht. eexists (inr tt), _. split; [reflexivity|]. rewrite drop_0. cbn. split_and!; (done || lia || auto).
Qed.

Lemma reads_credit_increment : reads 0 credit_increment.
Proof.
  intros t bs Ht. eexists (inr tt), _. split; [reflexivity|]. rewrite drop_0. cbn. split_and!; (done || lia).
Qed.

(** Decomposes a parser along its binds. *)
Ltac reads_tac :=
  repeat first
    [ apply reads_ret | apply reads_ask | apply reads_throw | apply reads_credit_increment
    | apply reads_on_rq; done | apply reads_get_le; lia | apply reads_get; lia
    | match goal with |- reads _ (if ?b then _ else _) => destruct b end ].

Ltac reads_seq n := apply (reads_bind n); [reads_tac|intros ?].

Lemma reads_parse_credits : reads 16 parse_credits.
Proof.
  unfold parse_credits. reads_seq 4%nat. reads_seq 2%nat.
  match goal with |- context [if ?b then _ else _] => destruct b end; [apply reads_throw|].
  reads_seq 2%nat. reads_seq 4%nat. reads_seq 0%nat. reads_seq 2%nat. reads_seq 2%nat.
  reads_seq 0%nat. reads_seq 0%nat. reads_tac.
Qed.

Lemma reads_parse_ids flags : reads 8 (parse_ids flags).
Proof.
  unfold parse_ids. match goal with |- context [if ?b then _ else _] => destruct b end.
  - reads_seq 4%nat. reads_seq 0%nat. reads_seq 4%nat. reads_tac.
  - reads_seq 8%nat. reads_seq 0%nat. reads_tac.
Qed.

Lemma reads_parse_fields : reads 48 parse_fields.
Proof.
  unfold parse_fields. reads_seq 4%nat. reads_seq 0%nat. reads_seq 4%nat. reads_seq 0%nat. reads_seq 8%nat.
  apply (reads_bind 8); [apply reads_parse_ids|intros ?]. reads_seq 8%nat. reads_seq 0%nat. reads_tac.
Qed.

Lemma parse_credits_size s d r iod fx bs t' :
  r_holds s d bs -> parse_credits (mk_pst s d r iod fx) = Some (inr tt, t') -> field bs 4 2 = 64.
Proof.
  intros Hh E. destruct (reads_parse_credits (mk_pst s d r iod fx) bs Hh) as (res & t1 & E1 & _ & _ & _ & _ & Hr).
  rewrite E in E1. injection E1 as <- <-. destruct Hr as [Hn _].
  destruct (decide (field bs 4 2 = 64)) as [?|Hne]; [done|]. exfalso. revert E.
  rewrite <- (drop_0 bs) in Hh. unfold parse_credits.
  destruct (get_le_at s d r iod fx bs 0 4 Hh) as (d1 & E & Hh1 & Hl1); [lia..|].
  rewrite (ME_bind_inr _ _ _ _ _ E). clear E Hh. cbn [Nat.add] in Hh1.
  pget Hh1 Hl1. rewrite (proj2 (Z.eqb_neq _ _) Hne). done.
Qed.
End Facts.

(** ** The fields of a header laid out by [hdr_bytes] *)

Section Fields.
Context (h : hdr) (body : list Z).
Let bs := hdr_bytes h ++ body.

Lemma field_size : field bs 4 2 = 64.
Proof. reflexivity. Qed.

Lemma field_status : field bs 8 4 = u32 (h_status h).
Proof. exact (le_value_bytes 4 (h_status h)). Qed.

Lemma field_credits : field bs 14 2 = u16 (h_credits h).
Proof. exact (le_value_bytes 2 (h_credits h)). Qed.

Lemma field_flags : field bs 16 4 = u32 (h_flags h).
Proof. exact (le_value_bytes 4 (h_flags h)). Qed.

Lemma field_next : field bs 20 4 = u32 (h_next h).
Proof. exact (le_value_bytes 4 (h_next h)). Qed.

Lemma field_async : field bs 32 8 = u64 (h_id h).
Proof. exact (le_value_bytes 8 (h_id h)). Qed.

Lemma field_pid : field bs 32 4 = u32 (h_id h).
Proof. exact (le_value_bytes 4 (h_id h)). Qed.

Lemma field_tid : field bs 36 4 = u32 (h_id h / 2 ^ 32).
Proof.
  transitivity (le_value (drop 4 (le_bytes 4 (h_id h) ++ le_bytes 4 (h_id h / 256 ^ Z.of_nat 4)))).
  { by rewrite <- (le_bytes_app 4 4). }
  exact (le_value_bytes 4 (h_id h / 2 ^ 32)).
Qed.

Lemma field_session : field bs 40 8 = u64 (h_session_id h).
Proof. exact (le_value_bytes 8 (h_session_id h)). Qed.

Lemma field_signature : length (h_signature h) = 16%nat -> take 16 (drop 48 bs) = h_signature h.
Proof.
  intros E. change (drop 48 bs) with (h_signature h ++ body). rewrite <- E. apply take_app_length.
Qed.

Lemma field_body : length (h_signature h) = 16%nat -> drop 64 bs = body.
Proof.
  intros E. rewrite <- (length_hdr_bytes h E). apply drop_app_length.
Qed.
End Fields.

(** ** Properties *)

Section Properties.
Context {S D : Type} {Rd : Reader S D} {RL : ReaderLaws S D}.
Implicit Types t : pst (S:=S) (D:=D).

(** The chain the parser works on. *)
Definition reader t (sr_rp : D) (parse_for_credits : bool) : D :=
  if flag (rp_extflags (p_rq t)) SMB2_RESPONSE && negb parse_for_credits then sr_rp else p_md t.

Lemma parse_header_reader env sr_rp pfc t :
  smb2_rq_parse_header env sr_rp pfc t =
  match parse_body env pfc (mk_pst (p_mem t) (reader t sr_rp pfc) (p_rq t) (p_iod t) (p_fx t)) with
  | None => None
  | Some (inl e, t') => Some (e, t')
  | Some (inr rperror, t') => Some (rperror, t')
  end.
Proof.
  unfold smb2_rq_parse_header, reader. destruct t as [s d r iod fx].
  by destruct (flag (rp_extflags r) SMB2_RESPONSE && negb pfc) eqn:E; cbn; rewrite E.
Qed.

(** What a parsed status sets off. *)
Definition status_effects (env : rsp_env (S:=S) (D:=D)) (r : rsp) : list effect :=
  let '(rperror, fx) := reply_error env r in
  fx ++ match env_share env with
    | Some (_, has_dead) => if (rperror =? ENETRESET) && has_dead then [ShareDead] else []
    | None => []
    end.

Lemma parse_status_run env s d r iod fx :
  exists f, parse_status env (mk_pst s d r iod fx) =
    Some (inr (reply_error env r).1, mk_pst s d (set_rp_flags r f) iod (fx ++ status_effects env r)).
Proof.
  unfold parse_status, status_effects. erewrite ME_bind_inr by reflexivity. cbn [p_rq].
  destruct (reply_error env r) as [e l]. cbn [fst]. eexists.
  erewrite ME_bind_inr by reflexivity. erewrite ME_bind_inr by reflexivity. reflexivity.
Qed.

Lemma verify_env_same env r r' :
  rp_flags r' = rp_flags r -> sr_command (rp_cr r') = sr_command (rp_cr r) ->
  must_verify (S:=S) (D:=D) env r' = must_verify env r.
Proof. intros Ef Ec. unfold must_verify. by rewrite Ef, Ec. Qed.

Lemma fielded_same r bs :
  rp_flags (fielded (credited r bs) bs) = rp_flags r /\
  sr_command (rp_cr (fielded (credited r bs) bs)) = sr_command (rp_cr r).
Proof. unfold fielded, with_ids. by destruct (negb _). Qed.

(** A complete header that passes every check. *)
Lemma parse_complete env s d r iod fx bs :
  r_holds s d bs -> (64 <= length bs)%nat -> field bs 4 2 = 64 -> ids_match r bs = true ->
  (must_verify env r = true -> env_verify env s d (take 16 (drop 48 bs)) = 0) ->
  let r' := fielded (credited r bs) bs in
  exists d' f, parse_body env false (mk_pst s d r iod fx) =
      Some (inr (reply_error env r').1,
        mk_pst s d' (set_rp_flags r' f) (credited_iod r iod bs) (fx ++ status_effects env r')) /\
    r_holds s d' (drop 64 bs) /\ r_len d' = u64 (r_len d + 64).
Proof.
  intros Hh Hn H64 Hid Hv r'. unfold parse_body. erewrite ME_bind_inr by reflexivity.
  destruct (parse_credits_run s d r iod fx bs Hh ltac:(lia) H64) as (d1 & E1 & Hh1 & Hl1).
  rewrite (ME_bind_inr _ _ _ _ _ E1). cbv iota.
  destruct (parse_fields_run s d1 (credited r bs) (credited_iod r iod bs) fx bs Hh1 Hn)
    as (d2 & r2 & E2 & Hok).
  change (ids_match (credited r bs) bs) with (ids_match r bs) in *. rewrite Hid in *.
  destruct (Hok eq_refl) as (-> & Hh2 & Hl2).
  rewrite (ME_bind_inr _ _ _ _ _ E2). erewrite ME_bind_inr by reflexivity. cbn [p_rq p_mem p_md].
  destruct (fielded_same r bs) as [Ef Ec]. rewrite (verify_env_same env r) by done.
  assert ((if must_verify env r then env_verify env s d (take 16 (drop 48 bs)) else 0) = 0) as ->
    by (destruct (must_verify env r); auto).
  change (negb (0 =? 0)) with false. cbv iota.
  destruct (parse_status_run env s d2 r' (credited_iod r iod bs) fx) as (f & E3).
  exists d2, f. split; [exact E3|]. split; [done|]. rewrite Hl2, Hl1, u64_add_l. f_equal. lia.
Qed.

(** C2: A reply whose header has the layout of [MS-SMB2] is parsed to exactly its
    fields: status, credits, flags, NextCommand, session ID and, for a sync
    header, process and tree ID, each at its width; the reader is left at the
    body, 64 bytes on; the result is the errno of the status, unless the session
    has expired. *)
Theorem parse_header_roundtrip env sr_rp t h body (d := reader t sr_rp false) :
  r_holds (p_mem t) d (hdr_bytes h ++ body) -> length (h_signature h) = 16%nat ->
  (flag (u32 (h_flags h)) SMB2_FLAGS_ASYNC_COMMAND = true -> u64 (h_id h) = sr_rspasyncid (p_rq t)) ->
  (must_verify env (p_rq t) = true -> env_verify env (p_mem t) d (h_signature h) = 0) ->
  exists d' r' iod', smb2_rq_parse_header env sr_rp false t =
      Some ((reply_error env r').1, mk_pst (p_mem t) d' r' iod' (p_fx t ++ status_effects env r')) /\
    r_holds (p_mem t) d' body /\ r_len d' = u64 (r_len d + 64) /\
    sr_ntstatus r' = u32 (h_status h) /\ sr_rspcreditsgranted (rp_cr r') = u16 (h_credits h) /\
    sr_rspflags r' = u32 (h_flags h) /\ sr_rspnextcmd r' = u32 (h_next h) /\
    sr_rspsessionid r' = u64 (h_session_id h) /\
    (flag (u32 (h_flags h)) SMB2_FLAGS_ASYNC_COMMAND = false ->
       sr_rsppid r' = u32 (h_id h) /\ sr_rsptreeid r' = u32 (h_id h / 2 ^ 32)) /\
    (u32 (h_status h) <> STATUS_NETWORK_SESSION_EXPIRED -> u32 (h_status h) <> STATUS_USER_SESSION_DELETED ->
       (reply_error env r').1 = smb_ntstatus_to_errno (u32 (h_status h))).
Proof.
  intros Hh Hs Ha Hv. rewrite parse_header_reader. fold d.
  set (bs := hdr_bytes h ++ body) in *.
  assert (ids_match (p_rq t) bs = true) as Hid.
  { unfold ids_match, bs. rewrite field_flags, field_async. destruct (flag _ _); [|done].
    cbn. apply Z.eqb_eq. auto. }
  destruct (parse_complete env (p_mem t) d (p_rq t) (p_iod t) (p_fx t) bs Hh)
    as (d' & f & E & Hh' & Hl').
  { unfold bs. rewrite length_app, length_hdr_bytes by done. lia. }
  { apply field_size. }
  { done. }
  { unfold bs. by rewrite field_signature. }
  unfold bs in Hh'. rewrite field_body in Hh' by done. rewrite E.
  exists d', (set_rp_flags (fielded (credited (p_rq t) bs) bs) f), (credited_iod (p_rq t) (p_iod t) bs).
  split; [reflexivity|]. split; [done|]. split; [done|].
  assert (forall n, sr_ntstatus (set_rp_flags (fielded (credited (p_rq t) bs) bs) n) = u32 (h_status h)) as Est.
  { intros n. rewrite <- (field_status h body). unfold fielded, with_ids. by destruct (negb _). }
  split_and!.
  - apply Est.
  - rewrite <- (field_credits h body). unfold fielded, with_ids. by destruct (negb _).
  - rewrite <- (field_flags h body). unfold fielded, with_ids. by destruct (negb _).
  - rewrite <- (field_next h body). unfold fielded, with_ids. by destruct (negb _).
  - by rewrite <- (field_session h body).
  - rewrite <- (field_flags h body), <- (field_pid h body), <- (field_tid h body). intros Ef.
    unfold fielded, with_ids. fold bs in Ef |- *. by rewrite Ef.
  - intros H1 H2. unfold reply_error. rewrite Est.
    by rewrite (proj2 (Z.eqb_neq _ _) H1), (proj2 (Z.eqb_neq _ _) H2).
Qed.

(** C1: Whatever bytes the server sends, parsing a header returns and reads nothing
    outside of the reply.  Success, a forced reconnect and an unmount come only
    from a reply that has a whole header of the right size, answers the
    announced async ID and, when signing is required, has passed the check of
    its signature. *)
Theorem parse_header_guarded env sr_rp t bs (d := reader t sr_rp false) :
  r_holds (p_mem t) d bs ->
  exists code t', smb2_rq_parse_header env sr_rp false t = Some (code, t') /\
    p_mem t' = p_mem t /\
    (code = 0 \/ p_fx t' <> p_fx t ->
       (64 <= length bs)%nat /\ field bs 4 2 = 64 /\ ids_match (p_rq t) bs = true /\
       (must_verify env (p_rq t) = true -> env_verify env (p_mem t) d (take 16 (drop 48 bs)) = 0)).
Proof.
  intros Hh. rewrite parse_header_reader. fold d. unfold parse_body. erewrite ME_bind_inr by reflexivity.
  cbn [p_md p_mem]. set (t0 := mk_pst (p_mem t) d (p_rq t) (p_iod t) (p_fx t)).
  destruct (reads_parse_credits t0 bs Hh) as ([e|[]] & t1 & E1 & Em1 & Ef1 & Eg1 & Ec1 & Hr1).
  { rewrite (ME_bind_inl _ _ _ _ _ E1). exists e, t1. split_and!; [done|done|]. subst e. by intros [?|?]. }
  rewrite (ME_bind_inr _ _ _ _ _ E1). cbv iota.
  pose proof (parse_credits_size _ _ _ _ _ _ _ Hh E1) as H64.
  destruct Hr1 as [H16 Hr1].
  destruct (parse_credits_run (p_mem t) d (p_rq t) (p_iod t) (p_fx t) bs Hh H16 H64) as (d1 & E1' & Hh1 & _).
  fold t0 in E1'. rewrite E1 in E1'. injection E1' as ->.
  destruct (reads_parse_fields _ _ Hr1) as ([e|sg] & t2 & E2 & Em2 & Ef2 & Eg2 & Ec2 & Hr2).
  { rewrite (ME_bind_inl _ _ _ _ _ E2). exists e, t2. split_and!; [done|done|].
    subst e. intros [?|Hne]; [done|]. destruct Hne. exact Ef2. }
  destruct Hr2 as [Hn _]. rewrite length_drop in Hn.
  destruct (parse_fields_run _ _ (credited (p_rq t) bs) (credited_iod (p_rq t) (p_iod t) bs) (p_fx t) bs Hh1)
    as (d2 & r2 & E2' & _); [lia|].
  rewrite E2 in E2'. change (ids_match (credited (p_rq t) bs) bs) with (ids_match (p_rq t) bs) in E2'.
  destruct (ids_match (p_rq t) bs) eqn:Hid; [|done]. injection E2' as -> ->.
  rewrite (ME_bind_inr _ _ _ _ _ E2). erewrite ME_bind_inr by reflexivity. cbn [p_rq p_mem p_md].
  cbn in Eg2, Ec2. rewrite (verify_env_same env (p_rq t)) by done.
  set (err := if must_verify env (p_rq t) then _ else 0).
  destruct (Z.eqb_spec err 0) as [E0|Hne]; cbn [negb].
  - destruct (parse_status_run env (p_mem t) d2 r2 (credited_iod (p_rq t) (p_iod t) bs) (p_fx t)) as (f & ->).
    eexists _, _. split; [reflexivity|]. split; [done|]. intros _. split_and!; [lia|done|done|].
    intros Hv. unfold err in E0. by rewrite Hv in E0.
  - eexists _, _. split; [reflexivity|]. split; [done|]. intros [?|?]; done.
Qed.

(** Credits are counted once.  When the reply of a request that is not part of a
    compound is looked at early for its credits and parsed in full later, the
    channel is credited by the early look and not again; a grant of 0 changes
    nothing. *)
Theorem credits_counted_once env t iod bs :
  r_holds (p_mem t) (p_md t) bs -> (64 <= length bs)%nat -> field bs 4 2 = 64 ->
  ids_match (p_rq t) bs = true -> p_iod t = Some iod ->
  (forall d sg, env_verify env (p_mem t) d sg = 0) ->
  flag (rp_extflags (p_rq t)) SMB2_RESPONSE = true ->
  flag (rp_flags (p_rq t)) SMBR_COMPOUND_RQ = false ->
  flag (rp_extflags (p_rq t)) SMB2_HDR_PREPARSED = false ->
  exists t1 code t2,
    smb2_rq_credit_preprocess_reply env t = Some (tt, t1) /\
    smb2_rq_parse_header env (p_md t1) false t1 = Some (code, t2) /\
    p_iod t2 = p_iod t1 /\
    p_iod t1 = Some (if field bs 14 2 =? 0 then iod else
      (smb2_rq_credit_increment (set_rspgranted (rp_cr (p_rq t)) (field bs 14 2)) iod).2).
Proof.
  intros Hh Hn H64 Hid Hi Hv Hr Hc Hp. unfold smb2_rq_credit_preprocess_reply. rewrite Hr, Hc. cbn [negb].
  rewrite parse_header_reader. unfold reader. cbn [p_rq p_mem p_iod p_fx p_md negb].
  rewrite andb_false_r. unfold parse_body. erewrite ME_bind_inr by reflexivity.
  destruct (parse_credits_run (p_mem t) (r_shadow (p_md t)) (p_rq t) (p_iod t) (p_fx t) bs
    (r_shadow_ok _ _ _ Hh) ltac:(lia) H64) as (d1 & E1 & _).
  rewrite (ME_bind_inr _ _ _ _ _ E1). cbv iota.
  change ((mret 0 : ME _ _) ?x) with (Some (inr 0 : Z + Z, x)). cbv iota.
  change (negb (0 =? 0)) with false. cbv iota. cbn [p_rq p_iod p_fx p_mem p_md].
  set (r1 := set_rp_extflags _ _).
  assert (rp_extflags r1 = Z.lor (rp_extflags (p_rq t)) SMB2_HDR_PREPARSED) as Er1 by done.
  assert (flag (rp_extflags r1) SMB2_RESPONSE = true) as Hr1.
  { rewrite Er1. unfold flag in Hr |- *. rewrite Z.land_lor_distr_l.
    change (Z.land SMB2_HDR_PREPARSED SMB2_RESPONSE) with 0. by rewrite Z.lor_0_r. }
  assert (flag (rp_extflags r1) SMB2_HDR_PREPARSED = true) as Hp1.
  { rewrite Er1. unfold flag in Hp |- *. rewrite Z.land_lor_distr_l.
    apply negb_false_iff, Z.eqb_eq in Hp. by rewrite Hp. }
  eexists _. edestruct (parse_complete env (p_mem t) (p_md t) r1) as (d2 & f & E2 & _);
    [done|done|done| |intros _; apply Hv|].
  2:{ eexists _, _. split; [reflexivity|]. split.
      - rewrite parse_header_reader. unfold reader. cbn [p_rq p_md p_mem p_iod p_fx negb].
        rewrite Hr1. cbn [andb]. rewrite E2. reflexivity.
      - cbn [p_iod]. unfold credited_iod. rewrite Hp1, Hp, Hi, andb_false_r, andb_true_r.
        split; [done|]. by destruct (field bs 14 2 =? 0). }
  done.
Qed.

(** The next command of a compound reply. *)
Lemma next_command_run s d bs r off :
  r_holds s d bs -> 0 <= r_len d < 2 ^ 62 -> 0 <= off + sr_rspnextcmd r < 2 ^ 62 ->
  let pad := off + sr_rspnextcmd r - r_len d in
  exists d', smb2_rq_next_command r off d s =
      Some ((if pad <=? Z.of_nat (length bs) then 0 else EBADRPC, off + sr_rspnextcmd r, d'), s) /\
    r_holds s d' (drop (Z.to_nat pad) bs) /\
    (0 <= pad <= Z.of_nat (length bs) -> r_len d' = off + sr_rspnextcmd r) /\
    (pad < 0 -> d' = d).
Proof.
  intros Hh Hl Ht pad. unfold smb2_rq_next_command. cbv zeta.
  rewrite (u64_small (off + sr_rspnextcmd r)) by lia. fold pad.
  assert (i64 (u64 pad) = pad) as ->.
  { unfold i64, swrap, u64. rewrite Zplus_mod_idemp_l. apply swrap_small; lia. }
  destruct (Z.ltb_spec 0 pad) as [Hp|Hp].
  - destruct (r_skip_run s d bs pad Hh) as (d' & E & Hh' & Hl'); [lia|].
    rewrite (bind_some _ _ _ _ _ E). cbn [fst snd]. exists d'. split; [done|]. split; [done|]. split; [|lia].
    intros [_ Hb]. rewrite Hl'. destruct (Z.leb_spec pad (Z.of_nat (length bs))); [|lia].
    rewrite u64_small; lia.
  - exists d. destruct (Z.leb_spec pad (Z.of_nat (length bs))); [|lia].
    split; [done|]. replace (Z.to_nat pad) with 0%nat by lia. rewrite drop_0.
    split; [done|]. split; [lia|done].
Qed.

(** Walking a compound reply.  At the start of a command whose NextCommand is its
    length, parsing the header, reading any part of the body and asking for the
    next command leaves the reader at the first byte of the next command, with
    the running offset and the count of bytes read at its position again. *)
Theorem compound_step env sr_rp t h body rest c off (d := reader t sr_rp false) :
  r_holds (p_mem t) d (hdr_bytes h ++ body ++ rest) -> length (h_signature h) = 16%nat ->
  (flag (u32 (h_flags h)) SMB2_FLAGS_ASYNC_COMMAND = true -> u64 (h_id h) = sr_rspasyncid (p_rq t)) ->
  (must_verify env (p_rq t) = true -> env_verify env (p_mem t) d (h_signature h) = 0) ->
  h_next h = Z.of_nat (64 + length body) -> h_next h < 2 ^ 32 -> (c <= length body)%nat ->
  r_len d = off -> 0 <= off < 2 ^ 61 ->
  exists code t' d1 d2,
    smb2_rq_parse_header env sr_rp false t = Some (code, t') /\
    r_skip (p_md t') (Z.of_nat c) (p_mem t') = Some ((0, d1), p_mem t') /\
    smb2_rq_next_command (p_rq t') off d1 (p_mem t') = Some ((0, off + h_next h, d2), p_mem t') /\
    r_holds (p_mem t') d2 rest /\ r_len d2 = off + h_next h.
Proof.
  intros Hh Hs Ha Hv Hnx Hb Hc Hl Ho. rewrite parse_header_reader. fold d.
  set (bs := hdr_bytes h ++ body ++ rest) in *.
  assert (ids_match (p_rq t) bs = true) as Hid.
  { unfold ids_match, bs. rewrite field_flags, field_async. destruct (flag _ _); [|done].
    cbn. apply Z.eqb_eq. auto. }
  destruct (parse_complete env (p_mem t) d (p_rq t) (p_iod t) (p_fx t) bs Hh)
    as (d' & f & E & Hh' & Hl').
  { unfold bs. rewrite length_app, length_hdr_bytes by done. lia. }
  { apply field_size. }
  { done. }
  { unfold bs. by rewrite field_signature. }
  unfold bs in Hh'. rewrite field_body in Hh' by done. rewrite E, Hl, u64_small in * by lia.
  destruct (r_skip_run (p_mem t) d' (body ++ rest) (Z.of_nat c) Hh') as (d1 & E1 & Hh1 & Hl1); [lia|].
  rewrite length_app in *. destruct (Z.leb_spec (Z.of_nat c) (Z.of_nat (length body + length rest))); [|lia].
  rewrite Nat2Z.id, drop_app_le in Hh1 by lia. rewrite Hl', u64_small in Hl1 by lia.
  set (r' := set_rp_flags (fielded (credited (p_rq t) bs) bs) f).
  assert (sr_rspnextcmd r' = h_next h) as Hnc.
  { rewrite <- (u32_small (h_next h)) by lia. rewrite <- (field_next h (body ++ rest)).
    unfold r', fielded, with_ids. by destruct (negb _). }
  destruct (next_command_run (p_mem t) d1 (drop c body ++ rest) r' off Hh1) as (d2 & E2 & Hh2 & Hl2 & _); [lia..|].
  rewrite Hnc, length_app, length_drop in *.
  destruct (Z.leb_spec (off + h_next h - r_len d1) (Z.of_nat (length body - c + length rest))); [|lia].
  eexists _, _, d1, d2. split; [reflexivity|]. split; [exact E1|]. split; [exact E2|].
  split; [|apply Hl2; lia]. replace (Z.to_nat (off + h_next h - r_len d1)) with (length (drop c body)) in Hh2
    by (rewrite length_drop; lia).
  by rewrite drop_app_length in Hh2.
Qed.
End Properties.

(** ** Examples, on the userland chains *)

Lemma demo_reply (bs : list Z) : Z.of_nat (length bs) < 2 ^ 64 ->
  exists (s : heap) (d : mdchain), r_holds s d bs /\ r_len d = 0.
Proof.
  intros Hb. destruct (w_init_ok heap0 heap0_ready) as (w & s1 & _ & Hr & Hh & _).
  destruct (w_put_ok s1 w [] bs Hr Hh Hb) as (w' & s2 & _ & _ & Hh' & _).
  destruct (md_initm_run s2 w' bs Hh') as (d & _ & Hd & _ & Hl). by exists s2, d.
Qed.

Definition demo_hdr : hdr := mk_hdr 1 0xc0000022 8 32 1 72 5 (sync_id 0xFEFF 3) 77 (replicate 16 9).
Definition demo_rsp : rsp :=
  mk_rsp (mk_rq 8 1 1 0 true true false false 5) 0 SMB2_RESPONSE 0 0 0 0 0 0 0.
Definition demo_renv : rsp_env (S:=heap) (D:=mdchain) :=
  mk_renv true false (Some (false, true)) true (Some (false, false)) (fun _ _ sg => default 0 (head sg) - 9).

Definition demo_pst (s : heap) (d : mdchain) : pst := mk_pst s d demo_rsp (Some demo_iod) [].

Lemma parse_header_roundtrip_witness :
  exists s d t', smb2_rq_parse_header demo_renv d false (demo_pst s d) = Some (EACCES, t') /\
    r_holds (p_mem t') (p_md t') [1; 2; 3; 4; 5; 6; 7; 8] /\ sr_rsptreeid (p_rq t') = 3.
Proof.
  destruct (demo_reply (hdr_bytes demo_hdr ++ [1; 2; 3; 4; 5; 6; 7; 8])) as (s & d & Hd & _); [done|].
  destruct (parse_header_roundtrip demo_renv d (demo_pst s d) demo_hdr [1; 2; 3; 4; 5; 6; 7; 8])
    as (d' & r' & iod' & E & Hb & _ & _ & _ & _ & _ & _ & Ht & Hc).
  - exact Hd.
  - reflexivity.
  - discriminate.
  - reflexivity.
  - rewrite Hc in E by done. eexists s, d, _. split; [exact E|]. split; [exact Hb|].
    destruct (Ht eq_refl) as [_ Et]. cbn [p_rq]. rewrite Et. reflexivity.
Defined.

(** A reply with a bad signature. *)
Definition forged_hdr : hdr := mk_hdr 1 0xc0000203 8 32 1 72 5 (sync_id 0xFEFF 3) 77 (replicate 16 1).

Lemma parse_header_guarded_witness :
  exists s d code t', smb2_rq_parse_header demo_renv d false (demo_pst s d) = Some (code, t') /\
    code <> 0 /\ p_fx t' = [].
Proof.
  destruct (demo_reply (hdr_bytes forged_hdr)) as (s & d & Hd & _); [done|].
  destruct (parse_header_guarded demo_renv d (demo_pst s d) (hdr_bytes forged_hdr))
    as (code & t' & E & _ & Hg); [exact Hd|].
  assert (code <> 0 /\ (p_fx t' <> [] -> False)) as [Hc Hf].
  { split; intros Hx; destruct (Hg ltac:(by (left + right))) as (_ & _ & _ & Hv); by specialize (Hv eq_refl). }
  exists s, d, code, t'. split; [exact E|]. split; [exact Hc|]. destruct (p_fx t'); [done|]. by destruct Hf.
Defined.

Lemma credits_counted_once_witness :
  exists s d t1 code t2,
    smb2_rq_credit_preprocess_reply (mk_renv false false None false None (fun _ _ _ => 0)) (demo_pst s d) = Some (tt, t1) /\
    smb2_rq_parse_header (mk_renv false false None false None (fun _ _ _ => 0)) (p_md t1) false t1 = Some (code, t2) /\
    (iod_credits_granted <$> p_iod t2) = Some 52.
Proof.
  destruct (demo_reply (hdr_bytes demo_hdr)) as (s & d & Hd & _); [done|].
  destruct (credits_counted_once (mk_renv false false None false None (fun _ _ _ => 0)) (demo_pst s d) demo_iod
    (hdr_bytes demo_hdr)) as (t1 & code & t2 & E1 & E2 & Ei & Ec).
  - exact Hd.
  - cbn. lia.
  - reflexivity.
  - reflexivity.
  - reflexivity.
  - reflexivity.
  - reflexivity.
  - reflexivity.
  - reflexivity.
  - exists s, d, t1, code, t2. split; [exact E1|]. split; [exact E2|]. rewrite Ei, Ec. reflexivity.
Defined.

Lemma compound_step_witness :
  exists s d code t' d1 d2, smb2_rq_parse_header demo_renv d false (demo_pst s d) = Some (code, t') /\
    r_skip (p_md t') 2 (p_mem t') = Some ((0, d1), p_mem t') /\
    smb2_rq_next_command (p_rq t') 0 d1 (p_mem t') = Some ((0, 72, d2), p_mem t') /\
    r_holds (p_mem t') d2 [42].
Proof.
  destruct (demo_reply (hdr_bytes demo_hdr ++ [1; 2; 3; 4; 5; 6; 7; 8] ++ [42])) as (s & d & Hd & Hl); [done|].
  destruct (compound_step demo_renv d (demo_pst s d) demo_hdr [1; 2; 3; 4; 5; 6; 7; 8] [42] 2 0)
    as (code & t' & d1 & d2 & E1 & E2 & E3 & Hr & _).
  - exact Hd.
  - reflexivity.
  - discriminate.
  - reflexivity.
  - reflexivity.
  - cbn. lia.
  - cbn. lia.
  - exact Hl.
  - lia.
  - exists s, d, code, t', d1, d2. split; [exact E1|]. split; [exact E2|]. split; [exact E3|exact Hr].
Defined.
