(* ===== verification/Mc.v ===== *)
(** * Multichannel: the connection table of a session
      ([kernel/netsmb/smb2_mc_support.c], [smb2_mc.h])

    A session keeps the client's and the server's network interfaces (NICs)
    and one [session_con_entry] for every pair of them.  NICs and connections
    are heap objects that several lists share, so that a pointer is a key of
    the maps [nic_heap] and [con_heap] of the table, and the tail queues are lists of
    pointers.  Every exported function holds [interface_table_lck] from entry
    to exit and is one atomic step.  What the functions do to the I/O threads
    ([smb_iod_active], [smb_iod_inactive], the abort flag) is recorded in
    [signals], newest first.  A counter that is bounded by the length of a list
    is not wrapped; the two that outlive a call are.  Logging is left out. *)

From S2P Require Import Prelude.
From stdpp Require Import gmap.
Import Errno.
Local Open Scope Z_scope.

Inductive con_state :=
  | STATE_POTENTIAL | STATE_NO_POTENTIAL | STATE_IN_TRIAL | STATE_FAILED_TO_CONNECT
  | STATE_CONNECTED | STATE_SURPLUS | STATE_IN_REMOVAL.

Inductive con_active_state := FUNC_ACTIVE | FUNC_INACTIVE | FUNC_INACTIVE_REDUNDANT.

Inductive nic_state_t := NIC_IDLE | NIC_ON_TRIAL | NIC_USED | NIC_DISCONNECTED.

#[export] Instance con_state_eq_dec : EqDecision con_state.
Proof. solve_decision. Defined.

#[export] Instance con_active_state_eq_dec : EqDecision con_active_state.
Proof. solve_decision. Defined.

#[export] Instance nic_state_eq_dec : EqDecision nic_state_t.
Proof. solve_decision. Defined.

Abbreviation ptr := positive.

Record con := mk_con {
  state : con_state;
  active_state : con_active_state;
  con_speed : Z;
  con_iod : option ptr;
  con_client_nic : ptr;
  con_server_nic : ptr
}.

Record nic := mk_nic {
  nic_index : Z;
  nic_link_speed : Z;
  nic_type : Z;
  nic_ip_types : Z;
  nic_flags : Z;
  nic_state : nic_state_t;
  possible_connections : list ptr
}.

(** What is asked of an I/O thread; the pointer is the thread's, NULL if the
    connection has none. *)
Inductive signal := IodActive (iod : option ptr) | IodInactive (iod : option ptr) | IodAbortConnect (iod : ptr).

Record table := mk_table {
  pause_trials : Z;
  client_nic_count : Z;
  client_nic_info_list : list ptr;
  server_nic_count : Z;
  server_nic_info_list : list ptr;
  max_channels : Z;
  prefer_wired : bool;
  session_con_list : list ptr;
  active_on_trial_connections : Z;
  successful_con_list : list ptr;
  con_heap : gmap ptr con;
  nic_heap : gmap ptr nic;
  signals : list signal
}.

Definition IFM_ETHER := 0x20.
Definition SMB2_MC_NIC_IN_IGNORELIST := 1.
Definition SMB2_IF_INDEX_MASK := 0xFFFFFFFF.
Definition SMB2_MC_TRIAL_PASSED := 1.
Definition SMB2_MC_TRIAL_FAILED := 2.

(** ** Reading and writing through pointers

    Reading a connection or a NIC that has been freed, or never was, gives some value or
    other: [stale_con] and [stale_nic] are arbitrary, and every theorem holds for all
    of them.  [McUpdate] shows of the update that frees objects that its result does not
    depend on them, so that no such read decides anything; on a well-formed table the
    pointers of all lists lead to objects. *)

Section Table.
Context {stale_con : Inhabited con} {stale_nic : Inhabited nic}.

Definition conp (t : table) (p : ptr) : con := con_heap t !!! p.
Definition nicp (t : table) (p : ptr) : nic := nic_heap t !!! p.
Definition client_nic (t : table) (p : ptr) : nic := nicp t (con_client_nic (conp t p)).
Definition server_nic (t : table) (p : ptr) : nic := nicp t (con_server_nic (conp t p)).

Definition with_heap (t : table) (cs : gmap ptr con) (ns : gmap ptr nic) (sg : list signal) : table :=
  mk_table (pause_trials t) (client_nic_count t) (client_nic_info_list t) (server_nic_count t)
    (server_nic_info_list t) (max_channels t) (prefer_wired t) (session_con_list t)
    (active_on_trial_connections t) (successful_con_list t) cs ns sg.

Definition with_lists (t : table) (sl ul : list ptr) : table :=
  mk_table (pause_trials t) (client_nic_count t) (client_nic_info_list t) (server_nic_count t)
    (server_nic_info_list t) (max_channels t) (prefer_wired t) sl
    (active_on_trial_connections t) ul (con_heap t) (nic_heap t) (signals t).

Definition with_trials (t : table) (pause trials : Z) : table :=
  mk_table pause (client_nic_count t) (client_nic_info_list t) (server_nic_count t)
    (server_nic_info_list t) (max_channels t) (prefer_wired t) (session_con_list t)
    trials (successful_con_list t) (con_heap t) (nic_heap t) (signals t).

Definition upd_con (f : con -> con) (p : ptr) (t : table) : table :=
  with_heap t (alter f p (con_heap t)) (nic_heap t) (signals t).

Definition upd_nic (f : nic -> nic) (p : ptr) (t : table) : table :=
  with_heap t (con_heap t) (alter f p (nic_heap t)) (signals t).

Definition emit (s : signal) (t : table) : table :=
  with_heap t (con_heap t) (nic_heap t) (s :: signals t).

Definition set_state (s : con_state) (c : con) : con :=
  mk_con s (active_state c) (con_speed c) (con_iod c) (con_client_nic c) (con_server_nic c).

Definition set_active (a : con_active_state) (c : con) : con :=
  mk_con (state c) a (con_speed c) (con_iod c) (con_client_nic c) (con_server_nic c).

Definition set_speed (s : Z) (c : con) : con :=
  mk_con (state c) (active_state c) s (con_iod c) (con_client_nic c) (con_server_nic c).

Definition set_iod (i : option ptr) (c : con) : con :=
  mk_con (state c) (active_state c) (con_speed c) i (con_client_nic c) (con_server_nic c).

Definition set_nic_state (s : nic_state_t) (n : nic) : nic :=
  mk_nic (nic_index n) (nic_link_speed n) (nic_type n) (nic_ip_types n) (nic_flags n) s
    (possible_connections n).

Definition add_possible (p : ptr) (n : nic) : nic :=
  mk_nic (nic_index n) (nic_link_speed n) (nic_type n) (nic_ip_types n) (nic_flags n) (nic_state n)
    (possible_connections n ++ [p]).

(** [MIN] of the link speeds of the two NICs of a connection. *)
Definition link_speed (t : table) (p : ptr) : Z :=
  Z.min (nic_link_speed (client_nic t p)) (nic_link_speed (server_nic t p)).

(** [con->con_speed = MIN(...)] *)
Definition refresh_speed (p : ptr) (t : table) : table := upd_con (set_speed (link_speed t p)) p t.

Definition set_nics_state (s : nic_state_t) (p : ptr) (t : table) : table :=
  let cn := con_client_nic (conp t p) in
  let sn := con_server_nic (conp t p) in
  upd_nic (set_nic_state s) sn (upd_nic (set_nic_state s) cn t).

Definition is_state (s : con_state) (t : table) (p : ptr) : bool := bool_decide (state (conp t p) = s).
Definition is_active (a : con_active_state) (t : table) (p : ptr) : bool :=
  bool_decide (active_state (conp t p) = a).
Definition nic_is (s : nic_state_t) (n : nic) : bool := bool_decide (nic_state n = s).
Definition is_wired (t : table) (p : ptr) : bool := nic_type (client_nic t p) =? IFM_ETHER.

(** The table [smb2_mc_init] leaves; its ignore list and RSS limits are not
    used by the operations here. *)
Definition smb2_mc_init (max_ch : Z) (wired : bool) : table :=
  mk_table 0 0 [] 0 [] (if max_ch =? 0 then 17 else max_ch) wired [] 0 [] ∅ ∅ [].

(** ** Counting the connections *)

Record conn_states_results := mk_results {
  active_cnt : Z;
  inactive_cnt : Z;
  wired_inactive_cnt : Z;
  max_active_speed : Z;
  max_inactive_speed : Z;
  max_potential_speed : Z;
  max_potential_wired_speed : Z;
  potential_con_with_max_speed : option ptr;
  potential_wired_con_with_max_speed : option ptr;
  fastest_inactive : option ptr
}.

Definition results0 : conn_states_results := mk_results 0 0 0 0 0 0 0 None None None.

Definition count_active (sp : Z) (r : conn_states_results) : conn_states_results :=
  mk_results (active_cnt r + 1) (inactive_cnt r) (wired_inactive_cnt r)
    (if max_active_speed r <? sp then sp else max_active_speed r)
    (max_inactive_speed r) (max_potential_speed r) (max_potential_wired_speed r)
    (potential_con_with_max_speed r) (potential_wired_con_with_max_speed r) (fastest_inactive r).

Definition count_inactive (sp : Z) (p : ptr) (wired : bool) (r : conn_states_results) : conn_states_results :=
  let faster := max_inactive_speed r <? sp in
  mk_results (active_cnt r) (inactive_cnt r + 1)
    (if wired then wired_inactive_cnt r + 1 else wired_inactive_cnt r)
    (max_active_speed r) (if faster then sp else max_inactive_speed r)
    (max_potential_speed r) (max_potential_wired_speed r)
    (potential_con_with_max_speed r) (potential_wired_con_with_max_speed r)
    (if faster then Some p else fastest_inactive r).

(** [wired]: the session prefers wired channels and the client NIC is one. *)
Definition count_potential (sp : Z) (p : ptr) (wired : bool) (r : conn_states_results) : conn_states_results :=
  let faster := max_potential_speed r <? sp in
  let faster_wired := wired && (max_potential_wired_speed r <? sp) in
  mk_results (active_cnt r) (inactive_cnt r) (wired_inactive_cnt r)
    (max_active_speed r) (max_inactive_speed r)
    (if faster then sp else max_potential_speed r)
    (if faster_wired then sp else max_potential_wired_speed r)
    (if faster then Some p else potential_con_with_max_speed r)
    (if faster_wired then Some p else potential_wired_con_with_max_speed r)
    (fastest_inactive r).

(** The body of the first loop. *)
Definition count_con (tr : table * conn_states_results) (p : ptr) : table * conn_states_results :=
  let '(t, r) := tr in
  if is_state STATE_CONNECTED t p then
    if is_active FUNC_ACTIVE t p then (t, count_active (con_speed (conp t p)) r)
    else if is_active FUNC_INACTIVE t p
         then (t, count_inactive (con_speed (conp t p)) p (is_wired t p) r)
         else (t, r)
  else if is_state STATE_POTENTIAL t p && nic_is NIC_IDLE (client_nic t p) && nic_is NIC_IDLE (server_nic t p)
       then (refresh_speed p t,
             count_potential (link_speed t p) p (prefer_wired t && is_wired t p) r)
       else (t, r).

(** The second loop: the first surplus or potential connection with one NIC
    in use and one idle that is faster than the active connections. *)
Fixpoint faster_rss (active_speed : Z) (l : list ptr) (t : table) : table * option ptr :=
  match l with
  | [] => (t, None)
  | p :: rest =>
      if is_state STATE_SURPLUS t p || is_state STATE_POTENTIAL t p then
        let check_speed :=
          (nic_is NIC_USED (client_nic t p) && nic_is NIC_IDLE (server_nic t p))
          || (nic_is NIC_IDLE (client_nic t p) && nic_is NIC_USED (server_nic t p)) in
        if negb check_speed then faster_rss active_speed rest t
        else
          let t1 := refresh_speed p t in
          if prefer_wired t1 && negb (is_wired t1 p) then faster_rss active_speed rest t1
          else if (active_speed <? con_speed (conp t1 p)) && negb (nic_is NIC_ON_TRIAL (server_nic t1 p))
               then (upd_con (set_state STATE_POTENTIAL) p t1, Some p)
               else faster_rss active_speed rest t1
      else faster_rss active_speed rest t
  end.

(** The callers have dereferenced [session_table] already; the [EINVAL] of a
    NULL one is not reached. *)
Definition smb2_mc_count_connection_stats (t : table) : table * conn_states_results :=
  let '(t1, r) := fold_left count_con (session_con_list t) (t, results0) in
  let potential := if prefer_wired t1 then potential_wired_con_with_max_speed r
                   else potential_con_with_max_speed r in
  let check_for_faster_rss := (0 <? active_cnt r) && bool_decide (potential = None) in
  if check_for_faster_rss then
    match faster_rss (max_active_speed r) (session_con_list t1) t1 with
    | (t2, None) => (t2, r)
    | (t2, Some p) =>
        let sp := con_speed (conp t2 p) in
        (t2, mk_results (active_cnt r) (inactive_cnt r) (wired_inactive_cnt r)
               (max_active_speed r) (max_inactive_speed r) sp sp (Some p) (Some p) (fastest_inactive r))
    end
  else (t1, r).

Definition con_client_or_server_on_active (t : table) (cn sn : ptr) : bool :=
  existsb (fun p => is_active FUNC_ACTIVE t p &&
                    ((con_client_nic (conp t p) =? cn)%positive || (con_server_nic (conp t p) =? sn)%positive))
    (session_con_list t).

(** ** Removing what is in excess *)

(** The first loop of [smb2_mc_return_excess_connections]: the fastest
    connection and, if wired ones are preferred, the fastest wired one. *)
Definition max_speeds (t : table) : Z * Z :=
  fold_left (fun '(wired, all) p =>
      let sp := con_speed (conp t p) in
      (if prefer_wired t && is_wired t p && (wired <? sp) then sp else wired,
       if all <? sp then sp else all))
    (successful_con_list t) (0, 0).

(** What the second loop carries besides the table. *)
Record sorting := mk_sorting {
  num_of_actives : Z;
  num_of_inactives : Z;
  best_speed : Z;
  best_wired_speed : Z;
  best_inactive : option ptr;
  best_wired_inactive : option ptr
}.

(** Sets the active state of a connection and tells its thread if it changes. *)
Definition classify (max_speed max_wired : Z) (p : ptr) (t : table) : table :=
  if (con_speed (conp t p) =? max_speed) && ((max_wired =? 0) || is_wired t p) then
    if is_active FUNC_ACTIVE t p then t
    else emit (IodActive (con_iod (conp t p))) (upd_con (set_active FUNC_ACTIVE) p t)
  else
    if is_active FUNC_INACTIVE t p then t
    else emit (IodInactive (con_iod (conp t p))) (upd_con (set_active FUNC_INACTIVE) p t).

Definition note_inactive (t : table) (p : ptr) (s : sorting) : sorting :=
  let sp := con_speed (conp t p) in
  let free := negb (con_client_or_server_on_active t (con_client_nic (conp t p)) (con_server_nic (conp t p))) in
  let better := (best_speed s <? sp) && free in
  let better_wired := prefer_wired t && is_wired t p && (best_wired_speed s <? sp) && free in
  mk_sorting (num_of_actives s) (num_of_inactives s + 1)
    (if better then sp else best_speed s)
    (if better_wired then sp else best_wired_speed s)
    (if better then Some p else best_inactive s)
    (if better_wired then Some p else best_wired_inactive s).

Definition sort_con (max_speed max_wired : Z) (ts : table * sorting) (p : ptr) : table * sorting :=
  let '(t, s) := ts in
  let t1 := classify max_speed max_wired p t in
  let s1 := if is_active FUNC_ACTIVE t1 p
            then mk_sorting (num_of_actives s + 1) (num_of_inactives s) (best_speed s)
                   (best_wired_speed s) (best_inactive s) (best_wired_inactive s)
            else s in
  (t1, if is_active FUNC_INACTIVE t1 p then note_inactive t1 p s1 else s1).

(** The loop that marks the inactive connections other than [keep] redundant,
    until one inactive connection is left. *)
Fixpoint mark_redundant (keep : option ptr) (n : Z) (l : list ptr) (t : table) : table :=
  match l with
  | [] => t
  | p :: rest =>
      if bool_decide (Some p <> keep) && is_active FUNC_INACTIVE t p then
        let t1 := upd_con (set_active FUNC_INACTIVE_REDUNDANT) p t in
        if n - 1 =? 1 then t1 else mark_redundant keep (n - 1) rest t1
      else mark_redundant keep n rest t
  end.

(** The loop that picks the connections to remove; the result lists what is
    written to [removal_vector]. *)
Fixpoint remove_excess (inactive active max_out_len : Z) (l : list ptr) (t : table) : table * list ptr :=
  match l with
  | [] => (t, [])
  | p :: rest =>
      if is_state STATE_IN_REMOVAL t p then remove_excess inactive active max_out_len rest t
      else
        let excess := (max_channels t <? inactive + active) && is_active FUNC_ACTIVE t p in
        if excess || is_active FUNC_INACTIVE_REDUNDANT t p then
          let active1 := if excess then active - 1 else active in
          let t1 := upd_con (set_state STATE_IN_REMOVAL) p t in
          if max_out_len - 1 =? 0 then (t1, [p])
          else let '(t2, out) := remove_excess inactive active1 (max_out_len - 1) rest t1 in (t2, p :: out)
        else remove_excess inactive active max_out_len rest t
  end.

(** The table, the connections to remove, [*num_activep] and
    [*connected_speedp]. *)
Definition smb2_mc_return_excess_connections (max_out_len : Z) (t : table) : table * list ptr * Z * Z :=
  let '(wired, all) := max_speeds t in
  let max_connected_speed := if wired =? 0 then all else wired in
  let '(t1, s) := fold_left (sort_con max_connected_speed wired) (successful_con_list t)
                    (t, mk_sorting 0 0 0 0 None None) in
  let keep := match best_wired_inactive s with Some p => Some p | None => best_inactive s end in
  let t2 := if 1 <? num_of_inactives s
            then mark_redundant keep (num_of_inactives s) (successful_con_list t1) t1 else t1 in
  let '(t3, r) := smb2_mc_count_connection_stats t2 in
  let '(t4, out) := remove_excess (inactive_cnt r) (active_cnt r) max_out_len (successful_con_list t3) t3 in
  (t4, out, num_of_actives s, max_connected_speed).

(** ** Choosing the connections to try *)

(** The candidate of one round: the connection, its speed and whether it may
    only become an inactive channel. *)
Definition candidate (t : table) (r : conn_states_results) : option ptr * Z * bool :=
  if prefer_wired t then
    match potential_wired_con_with_max_speed r with
    | Some p => (Some p, max_potential_wired_speed r, false)
    | None => if inactive_cnt r =? 0
              then (potential_con_with_max_speed r, max_potential_speed r, true)
              else (None, 0, false)
    end
  else (potential_con_with_max_speed r, max_potential_speed r, false).

(** The connection to add with its active state. *)
Definition con_to_add (t : table) (r : conn_states_results) (added : bool) : option (ptr * con_active_state) :=
  match candidate t r with
  | (None, _, _) => None
  | (Some p, sp, dont_test_for_active) =>
      if (max_active_speed r <=? sp) && negb dont_test_for_active then Some (p, FUNC_ACTIVE)
      else if (max_inactive_speed r <? sp)
              || (negb added && ((inactive_cnt r =? 0) || (prefer_wired t && (wired_inactive_cnt r =? 0))))
           then Some (p, FUNC_INACTIVE)
           else None
  end.

(** Puts a connection and its NICs on trial. *)
Definition put_on_trial (p : ptr) (a : con_active_state) (t : table) : table :=
  let t1 := refresh_speed p (set_nics_state NIC_ON_TRIAL p
              (upd_con (set_state STATE_IN_TRIAL) p (upd_con (set_active a) p t))) in
  with_trials t1 (pause_trials t1) (u32 (active_on_trial_connections t1 + 1)).

(** The inactive connection that replaces the lost active ones, with its
    thread. *)
Definition lost_actives (t : table) (r : conn_states_results) : option (ptr * ptr) :=
  if (active_cnt r =? 0) && negb (inactive_cnt r =? 0) then
    match fastest_inactive r with
    | Some p => match con_iod (conp t p) with Some i => Some (p, i) | None => None end
    | None => None
    end
  else None.

(** The [while] loop; [None] when the fuel runs out.  [continue] does not
    decrement [max_out_len]. *)
Fixpoint trial_loop (fuel : nat) (max_out_len : Z) (added : bool) (t : table) : option (table * list ptr) :=
  match fuel with
  | O => None
  | S fuel1 =>
      if max_out_len =? 0 then Some (t, [])
      else
        let '(t1, r) := smb2_mc_count_connection_stats t in
        match lost_actives t1 r with
        | Some (p, i) =>
            trial_loop fuel1 max_out_len added (emit (IodActive (Some i)) (upd_con (set_active FUNC_ACTIVE) p t1))
        | None =>
            if (max_channels t1 <=? inactive_cnt r + active_cnt r)
               && (max_potential_speed r <=? max_active_speed r)
               && (max_inactive_speed r <? max_active_speed r)
            then Some (t1, [])
            else
              match con_to_add t1 r added with
              | None => Some (t1, [])
              | Some (p, a) =>
                  let added1 := match a with FUNC_ACTIVE => added | _ => true end in
                  match trial_loop fuel1 (max_out_len - 1) added1 (put_on_trial p a t1) with
                  | None => None
                  | Some (t2, out) => Some (t2, p :: out)
                  end
              end
        end
  end.

Definition smb2_mc_ask_for_new_connection_trial (fuel : nat) (max_out_len : Z) (t : table)
  : option (table * list ptr) :=
  if negb (pause_trials t =? 0) then Some (t, [])
  else if max_channels t <? active_on_trial_connections t then Some (t, [])
  else trial_loop fuel max_out_len false t.

Definition smb2_mc_pause_trials (t : table) : table :=
  with_trials t (u32 (pause_trials t + 1)) (active_on_trial_connections t).

Definition smb2_mc_resume_trials (t : table) : table :=
  if pause_trials t =? 0 then t
  else with_trials t (u32 (pause_trials t - 1)) (active_on_trial_connections t).

Definition smb2_mc_abort_trials (t : table) : table :=
  if pause_trials t =? 0 then t
  else fold_left (fun t p => if is_state STATE_IN_TRIAL t p
                             then match con_iod (conp t p) with
                                  | Some i => emit (IodAbortConnect i) t
                                  | None => t
                                  end
                             else t) (session_con_list t) t.

(** The release build stops at the first one. *)
Definition smb2_mc_check_for_active_trials (t : table) : Z :=
  if existsb (is_state STATE_IN_TRIAL t) (session_con_list t) then 1 else 0.

(** ** Maintaining the table *)

Definition find_con_by_nics (t : table) (cn sn : ptr) : option ptr :=
  List.find (fun p => (con_client_nic (conp t p) =? cn)%positive && (con_server_nic (conp t p) =? sn)%positive)
    (session_con_list t).

Definition smb2_mc_get_nic_by_index (t : table) (l : list ptr) (index : Z) : option ptr :=
  List.find (fun p => nic_index (nicp t p) =? index) l.

(** The state of a new connection. *)
Definition new_con_state (t : table) (cn sn : ptr) : con_state :=
  if (Z.land (nic_ip_types (nicp t cn)) (nic_ip_types (nicp t sn)) =? 0)
     || negb (Z.land (nic_flags (nicp t cn)) SMB2_MC_NIC_IN_IGNORELIST =? 0)
  then STATE_NO_POTENTIAL
  else if nic_is NIC_USED (nicp t sn) then STATE_SURPLUS
  else STATE_POTENTIAL.

(** A zeroed connection at a fresh address, linked into the table and into
    its client NIC. *)
Definition new_con (t : table) (cn sn : ptr) : table :=
  let p := fresh (dom (con_heap t)) in
  let c := mk_con (new_con_state t cn sn) FUNC_ACTIVE 0 None cn sn in
  let t1 := with_heap t (<[p := c]> (con_heap t)) (alter (add_possible p) cn (nic_heap t)) (signals t) in
  with_lists t1 (session_con_list t1 ++ [p]) (successful_con_list t1).

(** The body of the inner loop for one pair of NICs.  [budget] is how many
    allocations still succeed. *)
Definition update_pair (t : table) (budget : nat) (cn sn : ptr) : Z * table * nat :=
  match find_con_by_nics t cn sn with
  | None =>
      match budget with
      | O => (ENOMEM, t, O)
      | S b => (0, new_con t cn sn, b)
      end
  | Some p =>
      if nic_is NIC_IDLE (nicp t cn) && nic_is NIC_IDLE (nicp t sn) && is_state STATE_SURPLUS t p
      then (0, upd_con (set_state STATE_POTENTIAL) p t, budget)
      else (0, t, budget)
  end.

Fixpoint update_pairs (t : table) (budget : nat) (l : list (ptr * ptr)) : Z * table * nat :=
  match l with
  | [] => (0, t, budget)
  | (cn, sn) :: rest =>
      let '(e, t1, b) := update_pair t budget cn sn in
      if e =? 0 then update_pairs t1 b rest else (e, t1, b)
  end.

(** The two nested loops run over the pairs of the product. *)
Definition smb2_mc_update_con_list (budget : nat) (t : table) : Z * table :=
  let '(e, t1, _) := update_pairs t budget
                       (list_prod (client_nic_info_list t) (server_nic_info_list t)) in
  (e, t1).

(** [TAILQ_INSERT_BEFORE] the first NIC that is not faster, or at the tail. *)
Fixpoint insert_by_speed (t : table) (n : ptr) (l : list ptr) : list ptr :=
  match l with
  | [] => [n]
  | p :: rest =>
      if nic_link_speed (nicp t p) <=? nic_link_speed (nicp t n) then n :: p :: rest
      else p :: insert_by_speed t n rest
  end.

Definition smb2_mc_insert_new_nic_by_speed (client : bool) (n : ptr) (t : table) : table :=
  if client then
    mk_table (pause_trials t) (u32 (client_nic_count t + 1)) (insert_by_speed t n (client_nic_info_list t))
      (server_nic_count t) (server_nic_info_list t) (max_channels t) (prefer_wired t) (session_con_list t)
      (active_on_trial_connections t) (successful_con_list t) (con_heap t) (nic_heap t) (signals t)
  else
    mk_table (pause_trials t) (client_nic_count t) (client_nic_info_list t)
      (u32 (server_nic_count t + 1)) (insert_by_speed t n (server_nic_info_list t)) (max_channels t)
      (prefer_wired t) (session_con_list t)
      (active_on_trial_connections t) (successful_con_list t) (con_heap t) (nic_heap t) (signals t).

(** Is this a connection of the NIC on the given side? *)
Definition of_nic (t : table) (client : bool) (n p : ptr) : bool :=
  if client then (con_client_nic (conp t p) =? n)%positive else (con_server_nic (conp t p) =? n)%positive.

Definition reset_con (client : bool) (n : ptr) (t : table) (p : ptr) : table :=
  if of_nic t client n p && (Z.land (nic_flags (nicp t n)) SMB2_MC_NIC_IN_IGNORELIST =? 0) then
    if is_state STATE_FAILED_TO_CONNECT t p || is_state STATE_NO_POTENTIAL t p
    then upd_con (set_state STATE_POTENTIAL) p t
    else refresh_speed p t
  else t.

Definition smb2_mc_reset_con_status (n : ptr) (client : bool) (t : table) : table :=
  fold_left (reset_con client n) (session_con_list t) t.

Definition smb2_mc_reset_nic_list (t : table) : table :=
  fold_left (fun t n => smb2_mc_reset_con_status n true t) (client_nic_info_list t) t.

(** The loop that restores the NIC states from the connection states. *)
Definition restore_con (t : table) (p : ptr) : table :=
  match state (conp t p) with
  | STATE_CONNECTED => set_nics_state NIC_USED p t
  | STATE_IN_TRIAL => set_nics_state NIC_ON_TRIAL p t
  | _ => t
  end.

Definition restore_nic_states (t : table) : table := fold_left restore_con (session_con_list t) t.

(** [TAILQ_REMOVE] of a pointer. *)
Definition tailq_remove (p : ptr) (l : list ptr) : list ptr := List.remove Pos.eq_dec p l.

Definition smb2_mc_inform_connection_disconnected (budget : nat) (con_entry : option ptr) (t : table) : Z * table :=
  match con_entry with
  | None => (EINVAL, t)
  | Some p =>
      let t1 :=
        if is_state STATE_CONNECTED t p || is_state STATE_IN_REMOVAL t p then
          upd_con (set_state STATE_POTENTIAL) p
            (with_lists t (session_con_list t) (tailq_remove p (successful_con_list t)))
        else if negb (is_state STATE_FAILED_TO_CONNECT t p) && negb (is_state STATE_NO_POTENTIAL t p)
             then upd_con (set_state STATE_POTENTIAL) p t
             else t in
      let t2 := upd_con (set_iod None) p (set_nics_state NIC_IDLE p t1) in
      smb2_mc_update_con_list budget (restore_nic_states t2)
  end.

Definition smb2_mc_inform_connection_active_state_change (con_entry : option ptr) (active : bool) (t : table)
  : Z * table :=
  match con_entry with
  | None => (EINVAL, t)
  | Some p => (0, upd_con (set_active (if active then FUNC_ACTIVE else FUNC_INACTIVE)) p t)
  end.

(** The first loop of [smb2_mc_update_new_connection], over the connections
    of the client NIC.  The second component is [*con_entry_p]. *)
Definition connect_con (server_idx : Z) (iod : option ptr) (te : table * option ptr) (p : ptr) : table * option ptr :=
  let '(t, e) := te in
  if nic_index (server_nic t p) =? server_idx then
    let t1 := match iod with Some _ => upd_con (set_iod iod) p t | None => t end in
    let t2 := refresh_speed p (set_nics_state NIC_USED p (upd_con (set_state STATE_CONNECTED) p t1)) in
    (with_lists t2 (session_con_list t2) (successful_con_list t2 ++ [p]), Some p)
  else if is_state STATE_POTENTIAL t p then (upd_con (set_state STATE_SURPLUS) p t, e)
  else (t, e).

Definition surplus_con (server_idx : Z) (t : table) (p : ptr) : table :=
  if (nic_index (server_nic t p) =? server_idx) && is_state STATE_POTENTIAL t p
  then upd_con (set_state STATE_SURPLUS) p t else t.

Definition smb2_mc_update_new_connection (client_idx server_idx : Z) (iod : option ptr) (t : table)
  : Z * table * option ptr :=
  match smb2_mc_get_nic_by_index t (client_nic_info_list t) client_idx,
        smb2_mc_get_nic_by_index t (server_nic_info_list t) server_idx with
  | Some cn, Some _ =>
      let '(t1, e) := fold_left (connect_con server_idx iod) (possible_connections (nicp t cn)) (t, None) in
      (0, fold_left (surplus_con server_idx) (session_con_list t1) t1, e)
  | _, _ => (EINVAL, t, None)
  end.

(** The loop that cleans up after a failed trial. *)
Definition fail_con (client_idx server_idx : Z) (t : table) (p : ptr) : table :=
  let mask x := Z.land x SMB2_IF_INDEX_MASK in
  let reopen := if is_state STATE_SURPLUS t p then upd_con (set_state STATE_POTENTIAL) p t else t in
  if mask (nic_index (client_nic t p)) =? mask client_idx then
    if mask (nic_index (server_nic t p)) =? mask server_idx
    then upd_con (set_state STATE_FAILED_TO_CONNECT) p t
    else reopen
  else if nic_index (server_nic t p) =? server_idx then reopen
  else t.

Definition trial_failed (p : ptr) (t : table) : table :=
  let t1 := upd_con (set_iod None) p (set_nics_state NIC_IDLE p t) in
  fold_left (fail_con (nic_index (client_nic t p)) (nic_index (server_nic t p))) (session_con_list t1) t1.

Definition smb2_mc_report_connection_trial_results (budget : nat) (status : Z) (con_entry : option ptr) (t : table)
  : Z * table :=
  match con_entry with
  | None => (EINVAL, t)
  | Some p =>
      let t0 := with_trials t (pause_trials t) (u32 (active_on_trial_connections t - 1)) in
      let '(e, t1) :=
        if negb (Z.land status SMB2_MC_TRIAL_PASSED =? 0) then
          let '(e, t1, _) := smb2_mc_update_new_connection (nic_index (client_nic t0 p))
                               (nic_index (server_nic t0 p)) None t0 in (e, t1)
        else (0, trial_failed p t0) in
      let t2 := restore_nic_states t1 in
      if e =? 0 then smb2_mc_update_con_list budget t2 else (e, t2)
  end.
End Table.
