(* ===== verification/McFacts.v ===== *)
(** * The connection table: invariant, framing, and what each loop does

    [frame P Q] relates two tables with the same lists whose connections are
    pointwise related by [P] and whose NICs are by [Q]; the loops of [Mc] are
    described by such frames, and [wf] is preserved by every frame that keeps
    the links of a connection. *)
From S2P Require Import Prelude Mc.
From stdpp Require Import gmap.
Import Errno.
Local Open Scope Z_scope.

Section Facts.
Context {stale_con : Inhabited con} {stale_nic : Inhabited nic}.

(** In [successful_con_list]. *)
Definition linked (c : con) : bool :=
  match state c with STATE_CONNECTED | STATE_IN_REMOVAL => true | _ => false end.

Record wf (t : table) : Prop := {
  wf_nodup : NoDup (session_con_list t);
  wf_succ_nodup : NoDup (successful_con_list t);
  wf_dom : forall p, p ∈ session_con_list t -> is_Some (con_heap t !! p);
  wf_client : forall p, p ∈ session_con_list t -> con_client_nic (conp t p) ∈ client_nic_info_list t;
  wf_server : forall p, p ∈ session_con_list t -> con_server_nic (conp t p) ∈ server_nic_info_list t;
  wf_pair : forall p q, p ∈ session_con_list t -> q ∈ session_con_list t ->
    con_client_nic (conp t p) = con_client_nic (conp t q) ->
    con_server_nic (conp t p) = con_server_nic (conp t q) -> p = q;
  wf_nics : forall n, n ∈ client_nic_info_list t \/ n ∈ server_nic_info_list t -> is_Some (nic_heap t !! n);
  wf_succ : forall p, p ∈ successful_con_list t <-> p ∈ session_con_list t /\ linked (conp t p) = true;
  wf_poss : forall n p, n ∈ client_nic_info_list t ->
    (p ∈ possible_connections (nicp t n) <-> p ∈ session_con_list t /\ con_client_nic (conp t p) = n);
  wf_poss_nodup : forall n, n ∈ client_nic_info_list t -> NoDup (possible_connections (nicp t n))
}.

(** ** Pointer updates *)

Lemma conp_upd f p q t :
  is_Some (con_heap t !! p) -> conp (upd_con f p t) q = if bool_decide (q = p) then f (conp t p) else conp t q.
Proof.
  intros [c Hc]. unfold conp, upd_con, with_heap. cbn. case_bool_decide; [subst q|].
  - by rewrite !lookup_total_alt, lookup_alter_eq, Hc.
  - by rewrite !lookup_total_alt, lookup_alter_ne.
Qed.

Lemma conp_upd_eq f p t : is_Some (con_heap t !! p) -> conp (upd_con f p t) p = f (conp t p).
Proof. intros H. rewrite conp_upd by done. by rewrite bool_decide_true. Qed.

Lemma conp_upd_ne f p q t : q <> p -> conp (upd_con f p t) q = conp t q.
Proof. intros H. unfold conp, upd_con, with_heap. cbn. by rewrite !lookup_total_alt, lookup_alter_ne. Qed.

Lemma nicp_upd f p q t :
  is_Some (nic_heap t !! p) -> nicp (upd_nic f p t) q = if bool_decide (q = p) then f (nicp t p) else nicp t q.
Proof.
  intros [c Hc]. unfold nicp, upd_nic, with_heap. cbn. case_bool_decide; [subst q|].
  - by rewrite !lookup_total_alt, lookup_alter_eq, Hc.
  - by rewrite !lookup_total_alt, lookup_alter_ne.
Qed.

(** ** Taking a pointer off a list *)

Lemma elem_of_tailq_remove (p q : ptr) l : q ∈ tailq_remove p l <-> q ∈ l /\ q <> p.
Proof.
  rewrite !list_elem_of_In. unfold tailq_remove. split.
  - intros H. apply in_remove in H. tauto.
  - intros []. by apply in_in_remove.
Qed.

Lemma tailq_remove_NoDup (p : ptr) l : NoDup l -> NoDup (tailq_remove p l).
Proof.
  intros H. apply (sublist_NoDup _ l); [done|]. unfold tailq_remove. clear.
  induction l as [|q l IH]; cbn; [done|]. destruct (Pos.eq_dec p q); [by apply sublist_cons|by apply sublist_skip].
Qed.

(** ** Frames *)

Record frame (P : con -> con -> Prop) (Q : nic -> nic -> Prop) (t t' : table) : Prop := {
  fr_clients : client_nic_info_list t' = client_nic_info_list t;
  fr_servers : server_nic_info_list t' = server_nic_info_list t;
  fr_max : max_channels t' = max_channels t;
  fr_wired : prefer_wired t' = prefer_wired t;
  fr_session : session_con_list t' = session_con_list t;
  fr_succ : successful_con_list t' = successful_con_list t;
  fr_dom : forall p, is_Some (con_heap t' !! p) <-> is_Some (con_heap t !! p);
  fr_cons : forall p, P (conp t p) (conp t' p);
  fr_ndom : forall n, is_Some (nic_heap t' !! n) <-> is_Some (nic_heap t !! n);
  fr_nics : forall n, Q (nicp t n) (nicp t' n)
}.

#[export] Instance frame_refl P Q `{!Reflexive P, !Reflexive Q} : Reflexive (frame P Q).
Proof. intros t. split; done. Qed.

#[export] Instance frame_trans P Q `{!Transitive P, !Transitive Q} : Transitive (frame P Q).
Proof.
  intros t u v [] []. split; try (by etransitivity); try congruence;
    intros p; try (etransitivity; eauto); firstorder.
Qed.

Lemma frame_mono (P P' : con -> con -> Prop) (Q Q' : nic -> nic -> Prop) t t' :
  (forall c c', P c c' -> P' c c') -> (forall n n', Q n n' -> Q' n n') -> frame P Q t t' -> frame P' Q' t t'.
Proof. intros HP HQ []. split; auto. Qed.

Lemma frame_upd_con (P : con -> con -> Prop) (Q : nic -> nic -> Prop) `{!Reflexive P, !Reflexive Q} f p t :
  P (conp t p) (f (conp t p)) -> frame P Q t (upd_con f p t).
Proof.
  intros H. split; try done; intros q.
  - cbn. destruct (decide (q = p)) as [->|]; [|by rewrite lookup_alter_ne].
    rewrite lookup_alter_eq. apply fmap_is_Some.
  - destruct (decide (q = p)) as [->|]; [|by rewrite conp_upd_ne].
    destruct (con_heap t !! p) eqn:E; [by rewrite conp_upd_eq by eauto|].
    unfold conp in *. cbn. by rewrite !lookup_total_alt, lookup_alter_eq, E.
Qed.

Lemma frame_upd_nic (P : con -> con -> Prop) (Q : nic -> nic -> Prop) `{!Reflexive P, !Reflexive Q} f p t :
  Q (nicp t p) (f (nicp t p)) -> frame P Q t (upd_nic f p t).
Proof.
  intros H. split; try done; intros q.
  - cbn. destruct (decide (q = p)) as [->|]; [|by rewrite lookup_alter_ne].
    rewrite lookup_alter_eq. apply fmap_is_Some.
  - destruct (nic_heap t !! p) eqn:E.
    + rewrite nicp_upd by eauto. by case_bool_decide; [subst|].
    + unfold nicp in *. cbn. destruct (decide (q = p)) as [->|].
      * by rewrite !lookup_total_alt, lookup_alter_eq, E.
      * by rewrite !lookup_total_alt, lookup_alter_ne.
Qed.

Lemma frame_emit P Q `{!Reflexive P, !Reflexive Q} s t : frame P Q t (emit s t).
Proof. split; done. Qed.

Lemma frame_trials P Q `{!Reflexive P, !Reflexive Q} a b t : frame P Q t (with_trials t a b).
Proof. split; done. Qed.

Lemma frame_fold P Q `{!Reflexive P, !Reflexive Q, !Transitive P, !Transitive Q} (f : table -> ptr -> table) l t :
  (forall t p, frame P Q t (f t p)) -> frame P Q t (fold_left f l t).
Proof. intros H. revert t. induction l as [|p l IH]; intros t; cbn; [reflexivity|]. etransitivity; eauto. Qed.

(** The links of a connection, and what a NIC never loses. *)
Definition same_links (c c' : con) : Prop :=
  con_client_nic c' = con_client_nic c /\ con_server_nic c' = con_server_nic c /\ linked c' = linked c.

Definition same_nic (n n' : nic) : Prop := set_nic_state NIC_IDLE n' = set_nic_state NIC_IDLE n.

#[export] Instance same_links_pre : PreOrder same_links.
Proof. split; [done|]. intros ??? [? []] [? []]. repeat split; congruence. Qed.

#[export] Instance same_nic_pre : PreOrder same_nic.
Proof. split; [done|]. intros ???. unfold same_nic. congruence. Qed.

Lemma same_nic_fields n n' : same_nic n n' ->
  nic_index n' = nic_index n /\ nic_link_speed n' = nic_link_speed n /\ nic_type n' = nic_type n
  /\ nic_flags n' = nic_flags n /\ nic_ip_types n' = nic_ip_types n
  /\ possible_connections n' = possible_connections n.
Proof. unfold same_nic, set_nic_state. intros [= -> -> -> -> -> ->]. done. Qed.

(** Of a NIC the invariant needs the list of its connections only. *)
Definition same_poss (n n' : nic) : Prop := possible_connections n' = possible_connections n.

#[export] Instance same_poss_pre : PreOrder same_poss.
Proof. split; [done|]. intros ???. unfold same_poss. congruence. Qed.

Lemma wf_frame_poss t t' : frame same_links same_poss t t' -> wf t -> wf t'.
Proof.
  intros F W.
  assert (HC : forall p, same_links (conp t p) (conp t' p)) by apply F.
  assert (HN : forall n, possible_connections (nicp t' n) = possible_connections (nicp t n))
    by (intros n; apply (fr_nics _ _ _ _ F)).
  destruct F as [Ec Es _ _ El Eu Hd _ Hn _].
  split; rewrite ?Ec, ?Es, ?El, ?Eu; try apply W.
  - intros p Hp. apply Hd, W, Hp.
  - intros p Hp. destruct (HC p) as [-> _]. by apply W.
  - intros p Hp. destruct (HC p) as [_ [-> _]]. by apply W.
  - intros p q Hp Hq. destruct (HC p) as [-> [-> _]], (HC q) as [-> [-> _]]. by apply W.
  - intros n H. apply Hn, W, H.
  - intros p. destruct (HC p) as [_ [_ ->]]. apply W.
  - intros n p H. destruct (HC p) as [-> _]. rewrite HN. by apply W.
  - intros n H. rewrite HN. by apply W.
Qed.

Lemma wf_frame t t' : frame same_links same_nic t t' -> wf t -> wf t'.
Proof.
  intros F. apply wf_frame_poss. eapply frame_mono; [| |exact F]; [done|].
  intros n n' H. unfold same_poss. by destruct (same_nic_fields _ _ H) as (_ & _ & _ & _ & _ & ->).
Qed.

Lemma wf_frame_eq (P : con -> con -> Prop) t t' :
  (forall c c', P c c' -> same_links c c') -> frame P eq t t' -> wf t -> wf t'.
Proof. intros HP F. apply wf_frame. eapply frame_mono; [exact HP| |exact F]. by intros ?? ->. Qed.

(** ** Counting changes potential and surplus connections only *)

Definition stats_con (c c' : con) : Prop :=
  con_client_nic c' = con_client_nic c /\ con_server_nic c' = con_server_nic c
  /\ active_state c' = active_state c /\ con_iod c' = con_iod c
  /\ (state c' = state c \/ (state c = STATE_SURPLUS /\ state c' = STATE_POTENTIAL))
  /\ (linked c = true -> con_speed c' = con_speed c).

Lemma stats_con_linked c c' : stats_con c c' -> linked c' = linked c.
Proof. unfold stats_con, linked. intros (_ & _ & _ & _ & [-> | [-> ->]] & _); done. Qed.

#[export] Instance stats_con_pre : PreOrder stats_con.
Proof.
  split; [intros c; repeat split; auto|]. intros a b c H1 H2.
  pose proof (stats_con_linked _ _ H1) as HL.
  destruct H1 as (?&?&?&?&S1&P1), H2 as (?&?&?&?&S2&P2). repeat split; try congruence.
  - destruct S1 as [S1|[S1 T1]], S2 as [S2|[S2 T2]]; [left|right|right|right]; try split; congruence.
  - intros L. rewrite P2, P1; congruence.
Qed.

Lemma stats_con_same_links c c' : stats_con c c' -> same_links c c'.
Proof. intros H. pose proof (stats_con_linked _ _ H). destruct H as (?&?&_). by repeat split. Qed.

#[local] Hint Resolve stats_con_same_links : core.

Lemma refresh_frame p t : linked (conp t p) = false -> frame stats_con eq t (refresh_speed p t).
Proof. intros H. apply frame_upd_con; [apply _ ..|]. repeat split; auto. rewrite H. done. Qed.

(** Which connections count as channels. *)
Definition channel (a : con_active_state) (t : table) (p : ptr) : bool :=
  is_state STATE_CONNECTED t p && is_active a t p.

Lemma channel_ext a t t' p : conp t' p = conp t p -> channel a t' p = channel a t p.
Proof. unfold channel, is_state, is_active. by intros ->. Qed.

Lemma channel_frame a t t' p : frame stats_con eq t t' -> channel a t' p = channel a t p.
Proof.
  intros F. destruct (fr_cons _ _ _ _ F p) as (_&_&HA&_&HS&_).
  unfold channel, is_state, is_active. rewrite HA. f_equal. apply bool_decide_ext.
  destruct HS as [->|[-> ->]]; [done|]. split; done.
Qed.

Definition count (f : ptr -> bool) (l : list ptr) : Z := Z.of_nat (length (List.filter f l)).

Lemma count_cons f p l : count f (p :: l) = (if f p then 1 else 0) + count f l.
Proof. unfold count. cbn. destruct (f p); cbn [length]; lia. Qed.

Lemma count_ext f g l : (forall p, p ∈ l -> f p = g p) -> count f l = count g l.
Proof.
  intros H. unfold count. f_equal. f_equal. apply List.filter_ext_in.
  intros p Hp. by apply H, list_elem_of_In.
Qed.

Lemma count_nonneg f l : 0 <= count f l.
Proof. unfold count. lia. Qed.

(** A connection that may be put on trial. *)
Definition may_try (t : table) (p : ptr) : Prop :=
  p ∈ session_con_list t /\ state (conp t p) = STATE_POTENTIAL
  /\ nic_state (client_nic t p) <> NIC_ON_TRIAL /\ nic_state (server_nic t p) <> NIC_ON_TRIAL.

Definition counted (t : table) (r : conn_states_results) : Prop :=
  (forall p, potential_con_with_max_speed r = Some p -> may_try t p)
  /\ (forall p, potential_wired_con_with_max_speed r = Some p -> may_try t p)
  /\ (forall p, fastest_inactive r = Some p -> p ∈ session_con_list t /\ channel FUNC_INACTIVE t p = true).

Lemma may_try_frame t t' p : frame stats_con eq t t' -> may_try t p -> may_try t' p.
Proof.
  intros F (H1 & H2 & H3). pose proof (fr_nics _ _ _ _ F) as HN.
  destruct (fr_cons _ _ _ _ F p) as (EC&ES&_&_&HS&_).
  unfold may_try, client_nic, server_nic in *. rewrite (fr_session _ _ _ _ F), EC, ES, <- !HN.
  split_and!; try tauto. destruct HS as [->|[_ ->]]; done.
Qed.

Lemma counted_frame t t' r : frame stats_con eq t t' -> counted t r -> counted t' r.
Proof.
  intros F (H1 & H2 & H3). split_and!; intros p Hp.
  - eapply may_try_frame; eauto.
  - eapply may_try_frame; eauto.
  - rewrite (fr_session _ _ _ _ F), (channel_frame _ _ _ _ F). auto.
Qed.

Lemma count_con_frame t r p : frame stats_con eq t (fst (count_con (t, r) p)).
Proof.
  unfold count_con. repeat case_match; cbn; try reflexivity.
  apply refresh_frame. unfold linked, is_state in *.
  destruct (state (conp t p)); done.
Qed.

(** One round of the first loop. *)
Lemma count_con_spec t r p :
  p ∈ session_con_list t -> counted t r ->
  let '(t', r') := count_con (t, r) p in
  counted t' r'
  /\ active_cnt r' = active_cnt r + (if channel FUNC_ACTIVE t p then 1 else 0)
  /\ inactive_cnt r' = inactive_cnt r + (if channel FUNC_INACTIVE t p then 1 else 0).
Proof.
  intros Hp HC. pose proof (count_con_frame t r p) as F. revert F.
  unfold count_con, channel. destruct (is_state STATE_CONNECTED t p) eqn:ES; cbn [andb].
  - destruct (is_active FUNC_ACTIVE t p) eqn:EA; [|destruct (is_active FUNC_INACTIVE t p) eqn:EI];
      cbn; intros _; split_and!; try lia; try exact HC.
    + unfold is_active in *. rewrite bool_decide_eq_true in EA. rewrite EA, bool_decide_false by done. lia.
    + destruct HC as (H1&H2&H3). split_and!; try done. cbn. intros q.
      destruct (_ <? _); [|by auto]. intros [= <-]. unfold channel. by rewrite ES, EI.
  - destruct (is_state STATE_POTENTIAL t p && nic_is NIC_IDLE (client_nic t p)
              && nic_is NIC_IDLE (server_nic t p)) eqn:EP; cbn; intros F; [|split_and!; try lia; exact HC].
    rewrite !andb_true_iff in EP. destruct EP as [[E1 E2] E3].
    unfold is_state, nic_is in E1, E2, E3. rewrite bool_decide_eq_true in E1, E2, E3.
    assert (HT : may_try (refresh_speed p t) p).
    { eapply may_try_frame; [exact F|]. split_and!; congruence. }
    apply (counted_frame _ _ _ F) in HC. destruct HC as (H1&H2&H3).
    split; [split_and!|split; lia]; [| |exact H3]; intros q; cbn;
      (case_match; [intros [= <-]; exact HT|]); [apply H1|apply H2].
Qed.

Lemma count_fold_spec l t r :
  (forall p, p ∈ l -> p ∈ session_con_list t) -> counted t r ->
  let '(t', r') := fold_left count_con l (t, r) in
  frame stats_con eq t t' /\ counted t' r'
  /\ active_cnt r' = active_cnt r + count (channel FUNC_ACTIVE t) l
  /\ inactive_cnt r' = inactive_cnt r + count (channel FUNC_INACTIVE t) l.
Proof.
  revert t r. induction l as [|p l IH]; intros t r HL HC; cbn [fold_left].
  { unfold count. cbn. split_and!; try reflexivity; try lia; apply HC. }
  pose proof (count_con_frame t r p) as F.
  pose proof (count_con_spec t r p (HL _ (list_elem_of_here _ _)) HC) as HS.
  destruct (count_con (t, r) p) as [t1 r1]. cbn [fst] in F. destruct HS as (HC1 & A1 & I1).
  specialize (IH t1 r1). destruct (fold_left count_con l (t1, r1)) as [t2 r2].
  destruct IH as (F2 & HC2 & A2 & I2); [|done|].
  { intros q Hq. rewrite (fr_session _ _ _ _ F). by apply HL, list_elem_of_further. }
  rewrite !count_cons. split_and!; [by etransitivity|apply HC2 ..| |].
  - rewrite A2, A1, (count_ext (channel FUNC_ACTIVE t1) (channel FUNC_ACTIVE t)); [lia|].
    intros q _. by apply channel_frame.
  - rewrite I2, I1, (count_ext (channel FUNC_INACTIVE t1) (channel FUNC_INACTIVE t)); [lia|].
    intros q _. by apply channel_frame.
Qed.

Lemma faster_rss_spec s l t :
  (forall p, p ∈ l -> p ∈ session_con_list t /\ is_Some (con_heap t !! p)) ->
  let '(t', o) := faster_rss s l t in
  frame stats_con eq t t' /\ (forall p, o = Some p -> may_try t' p).
Proof.
  revert t. induction l as [|p l IH]; intros t HL; cbn [faster_rss]; [split; [reflexivity|done]|].
  assert (HL' : forall q, q ∈ l -> q ∈ session_con_list t /\ is_Some (con_heap t !! q))
    by (intros; by apply HL, list_elem_of_further).
  destruct (is_state STATE_SURPLUS t p || is_state STATE_POTENTIAL t p) eqn:ES; [|by apply IH].
  match goal with |- context [negb ?b] => destruct b eqn:EC end; cbn [negb]; [|by apply IH].
  assert (F : frame stats_con eq t (refresh_speed p t)).
  { apply refresh_frame. unfold linked, is_state in *. by destruct (state (conp t p)). }
  assert (IH' : let '(t', o) := faster_rss s l (refresh_speed p t) in
                frame stats_con eq t t' /\ (forall q, o = Some q -> may_try t' q)).
  { specialize (IH (refresh_speed p t)). destruct (faster_rss s l _) as [t' o]. destruct IH as [F' H'].
    - intros q Hq. rewrite (fr_session _ _ _ _ F), (fr_dom _ _ _ _ F). auto.
    - split; [by etransitivity|done]. }
  destruct (prefer_wired _ && _); [exact IH'|]. destruct ((_ <? _) && _); [|exact IH'].
  destruct (HL p (list_elem_of_here _ _)) as [HP HD].
  assert (F2 : frame stats_con eq t (upd_con (set_state STATE_POTENTIAL) p (refresh_speed p t))).
  { etransitivity; [exact F|]. apply frame_upd_con; [apply _ ..|].
    destruct (fr_cons _ _ _ _ F p) as (_&_&_&_&HS&_). unfold is_state in ES. rewrite orb_true_iff, !bool_decide_eq_true in ES.
    unfold stats_con. cbn. split_and!; auto.
    destruct HS as [HS|[_ HS]]; rewrite HS; intuition congruence. }
  split; [done|]. intros q [= <-].
  pose proof (fr_nics _ _ _ _ F2) as HN. destruct (fr_cons _ _ _ _ F2 p) as (CN&SN&_).
  unfold may_try, client_nic, server_nic. rewrite (fr_session _ _ _ _ F2), CN, SN, <- !HN.
  unfold nic_is, client_nic, server_nic in EC. rewrite conp_upd_eq by (by rewrite (fr_dom _ _ _ _ F)).
  rewrite orb_true_iff, !andb_true_iff, !bool_decide_eq_true in EC.
  split_and!; try done; intros HT; rewrite HT in EC; by destruct EC as [[]|[]].
Qed.

(** The counters, the candidates, and what counting leaves alone. *)
Lemma stats_spec t :
  wf t ->
  let '(t', r) := smb2_mc_count_connection_stats t in
  frame stats_con eq t t' /\ counted t' r
  /\ active_cnt r = count (channel FUNC_ACTIVE t) (session_con_list t)
  /\ inactive_cnt r = count (channel FUNC_INACTIVE t) (session_con_list t).
Proof.
  intros W. unfold smb2_mc_count_connection_stats.
  pose proof (count_fold_spec (session_con_list t) t results0) as H1.
  destruct (fold_left _ _ _) as [t1 r]. destruct H1 as (F1 & C1 & A1 & I1); [done| |].
  { split_and!; done. }
  cbn in A1, I1. destruct (_ && _); [|by split_and!].
  pose proof (faster_rss_spec (max_active_speed r) (session_con_list t1) t1) as H2.
  destruct (faster_rss _ _ _) as [t2 o]. destruct H2 as [F2 H2].
  { intros p. rewrite (fr_session _ _ _ _ F1), (fr_dom _ _ _ _ F1). split; [done|]. by apply W. }
  apply (counted_frame _ _ _ F2) in C1. assert (F : frame stats_con eq t t2) by (by etransitivity).
  destruct o as [p|]; [|by split_and!]. split_and!; [done| |done|done].
  unfold counted. split_and!; [| |apply C1]; intros q [= <-]; by apply H2.
Qed.

(** ** Checking the invariant of a concrete table *)

Definition wf_check (t : table) : Prop :=
  NoDup (session_con_list t) /\ NoDup (successful_con_list t)
  /\ Forall (fun p => is_Some (con_heap t !! p) /\ con_client_nic (conp t p) ∈ client_nic_info_list t
                      /\ con_server_nic (conp t p) ∈ server_nic_info_list t
                      /\ (linked (conp t p) = true -> p ∈ successful_con_list t)
                      /\ Forall (fun q => con_client_nic (conp t p) = con_client_nic (conp t q) ->
                           con_server_nic (conp t p) = con_server_nic (conp t q) -> p = q) (session_con_list t))
       (session_con_list t)
  /\ Forall (fun p => p ∈ session_con_list t /\ linked (conp t p) = true) (successful_con_list t)
  /\ Forall (fun n => is_Some (nic_heap t !! n)) (client_nic_info_list t)
  /\ Forall (fun n => is_Some (nic_heap t !! n)) (server_nic_info_list t)
  /\ Forall (fun n => Forall (fun p => p ∈ session_con_list t /\ con_client_nic (conp t p) = n)
                             (possible_connections (nicp t n))
                      /\ Forall (fun p => con_client_nic (conp t p) = n -> p ∈ possible_connections (nicp t n))
                           (session_con_list t)
                      /\ NoDup (possible_connections (nicp t n))) (client_nic_info_list t).

#[export] Instance wf_check_dec t : Decision (wf_check t).
Proof. unfold wf_check. apply _. Defined.

Lemma wf_of_check t : bool_decide (wf_check t) = true -> wf t.
Proof.
  rewrite bool_decide_eq_true. intros (H1 & H2 & H3 & H4 & H5 & H6 & H7).
  rewrite !Forall_forall in *. split; try done.
  - intros p Hp. by apply H3.
  - intros p Hp. by apply H3.
  - intros p Hp. by apply H3.
  - intros p q Hp Hq. destruct (H3 p Hp) as (_&_&_&_&H). rewrite Forall_forall in H. by apply H.
  - intros n [Hn|Hn]; auto.
  - intros p. split; [apply H4|]. intros [Hp HL]. by apply H3.
  - intros n p Hn. destruct (H7 n Hn) as (Ha & Hb & _). rewrite Forall_forall in Ha, Hb. split; [apply Ha|].
    intros []. by apply Hb.
  - intros n Hn. by apply H7.
Qed.

(** Counting opens no trial. *)
Lemma stats_trials t :
  active_on_trial_connections (fst (smb2_mc_count_connection_stats t)) = active_on_trial_connections t.
Proof.
  assert (H1 : forall l t r, active_on_trial_connections (fst (fold_left count_con l (t, r))) = active_on_trial_connections t).
  { induction l as [|p l IH]; intros u r; cbn [fold_left]; [done|].
    destruct (count_con (u, r) p) as [u1 r1] eqn:E. rewrite IH. unfold count_con in E.
    repeat case_match; by simplify_eq. }
  assert (H2 : forall s l t, active_on_trial_connections (fst (faster_rss s l t)) = active_on_trial_connections t).
  { intros s. induction l as [|p l IH]; intros u; cbn [faster_rss]; [done|].
    repeat case_match; rewrite ?IH; done. }
  unfold smb2_mc_count_connection_stats. specialize (H1 (session_con_list t) t results0).
  destruct (fold_left _ _ _) as [t1 r]. cbn in H1. rewrite <- H1. case_match; [|done].
  rewrite <- (H2 (max_active_speed r) (session_con_list t1) t1). by destruct (faster_rss _ _ _) as [t2 [p|]].
Qed.

End Facts.

#[export] Hint Resolve stats_con_same_links : core.

(** * A concrete connection table *)

(** What a missing object reads as in the examples. *)
Definition demo_stale_con : Inhabited con := populate (mk_con STATE_NO_POTENTIAL FUNC_ACTIVE 0 None 1 1).
Definition demo_stale_nic : Inhabited nic := populate (mk_nic 0 0 0 0 0 NIC_IDLE []).

Definition demo_nic (index speed type : Z) (st : nic_state_t) (poss : list ptr) : nic :=
  mk_nic index speed type 1 0 st poss.

(** NIC 1 is wired and NIC 2 wireless, NICs 3 and 4 are the server's; the
    connections 10 to 13 are the pairs in order. *)
Definition demo_nics (s1 s2 s3 s4 : nic_state_t) : gmap ptr nic :=
  <[1%positive := demo_nic 1 1000 IFM_ETHER s1 [10; 11]%positive]>
  (<[2%positive := demo_nic 2 500 0x80 s2 [12; 13]%positive]>
  (<[3%positive := demo_nic 7 1000 IFM_ETHER s3 []]>
  (<[4%positive := demo_nic 8 1000 IFM_ETHER s4 []]> ∅))).

Definition demo_cons (c10 c11 c12 c13 : con_state) : gmap ptr con :=
  <[10%positive := mk_con c10 FUNC_ACTIVE 1000 (Some 21%positive) 1 3]>
  (<[11%positive := mk_con c11 FUNC_ACTIVE 1000 (Some 22%positive) 1 4]>
  (<[12%positive := mk_con c12 FUNC_ACTIVE 500 (Some 23%positive) 2 3]>
  (<[13%positive := mk_con c13 FUNC_ACTIVE 500 (Some 24%positive) 2 4]> ∅))).

Definition demo_table (max : Z) (succ : list ptr) (cs : gmap ptr con) (ns : gmap ptr nic) : table :=
  mk_table 0 2 [1; 2]%positive 2 [3; 4]%positive max true [10; 11; 12; 13]%positive 0 succ cs ns [].

(** Every pair is connected and the limit is one channel. *)
Definition demo_full : table :=
  demo_table 1 [10; 11; 12; 13]%positive
    (demo_cons STATE_CONNECTED STATE_CONNECTED STATE_CONNECTED STATE_CONNECTED)
    (demo_nics NIC_USED NIC_USED NIC_USED NIC_USED).

(** Nothing is connected yet. *)
Definition demo_idle : table :=
  demo_table 4 []
    (demo_cons STATE_POTENTIAL STATE_POTENTIAL STATE_POTENTIAL STATE_POTENTIAL)
    (demo_nics NIC_IDLE NIC_IDLE NIC_IDLE NIC_IDLE).

(** The NICs are known, no pair has been made yet. *)
Definition demo_fresh : table :=
  mk_table 0 2 [1; 2]%positive 2 [3; 4]%positive 4 true [] 0 [] ∅
    (<[1%positive := demo_nic 1 1000 IFM_ETHER NIC_IDLE []]>
     (<[2%positive := demo_nic 2 500 0x80 NIC_IDLE []]>
      (<[3%positive := demo_nic 7 1000 IFM_ETHER NIC_IDLE []]>
       (<[4%positive := demo_nic 8 1000 IFM_ETHER NIC_USED []]> ∅)))) [].
