(* ===== verification/McExcess.v ===== *)
(** * [smb2_mc_return_excess_connections]: which channels stay

    The loops of the function one by one, then the two properties: the active
    channels are exactly the fastest ones, and the number of connected channels
    is brought down to the limit of the session. *)

From S2P Require Import Prelude Mc McFacts.
From stdpp Require Import gmap.
Local Open Scope Z_scope.

Section Excess.
Context {stale_con : Inhabited con} {stale_nic : Inhabited nic}.

(** ** Sorting into active and inactive *)

Definition active_con (c c' : con) : Prop := set_active FUNC_ACTIVE c' = set_active FUNC_ACTIVE c.

#[export] Instance active_con_pre : PreOrder active_con.
Proof. split; [done|]. intros ???. unfold active_con. congruence. Qed.

Lemma active_con_fields c c' : active_con c c' ->
  state c' = state c /\ con_speed c' = con_speed c /\ con_iod c' = con_iod c
  /\ con_client_nic c' = con_client_nic c /\ con_server_nic c' = con_server_nic c.
Proof. unfold active_con, set_active. by intros [= -> -> -> -> ->]. Qed.

Lemma active_con_same_links c c' : active_con c c' -> same_links c c'.
Proof. intros H. destruct (active_con_fields _ _ H) as (E&_&_&?&?). unfold same_links, linked. by rewrite E. Qed.

(** A channel at the speed of the active ones. *)
Definition fast (max_speed max_wired : Z) (t : table) (p : ptr) : bool :=
  (con_speed (conp t p) =? max_speed) && ((max_wired =? 0) || is_wired t p).

Lemma active_frame_keeps t t' p : frame active_con eq t t' ->
  is_wired t' p = is_wired t p /\ (forall a b, fast a b t' p = fast a b t p).
Proof.
  intros F. destruct (active_con_fields _ _ (fr_cons _ _ _ _ F p)) as (_&E2&_&E4&_).
  assert (EW : is_wired t' p = is_wired t p).
  { unfold is_wired, client_nic. rewrite E4. by rewrite (fr_nics _ _ _ _ F). }
  split; [done|]. intros a b. unfold fast. by rewrite E2, EW.
Qed.

Lemma frame_set_active a p t : frame active_con eq t (upd_con (set_active a) p t).
Proof. by apply frame_upd_con; [apply _ ..|]. Qed.

Definition wanted (ms mw : Z) (t : table) (p : ptr) : con_active_state :=
  if fast ms mw t p then FUNC_ACTIVE else FUNC_INACTIVE.

Lemma classify_spec ms mw p t :
  is_Some (con_heap t !! p) ->
  frame active_con eq t (classify ms mw p t)
  /\ active_state (conp (classify ms mw p t) p) = wanted ms mw t p
  /\ (forall q, q <> p -> conp (classify ms mw p t) q = conp t q).
Proof.
  intros HD. unfold classify, wanted. fold (fast ms mw t p). unfold is_active.
  destruct (fast ms mw t p); case_bool_decide as E.
  1, 3: split_and!; [reflexivity|exact E|done].
  all: split_and!; [etransitivity; [apply frame_set_active|apply frame_emit; apply _]| |].
  1, 3: change (conp (emit ?s ?u)) with (conp u); by rewrite conp_upd_eq.
  all: intros q Hq; change (conp (emit ?s ?u)) with (conp u); by apply conp_upd_ne.
Qed.

Lemma sort_con_spec ms mw t s p :
  is_Some (con_heap t !! p) ->
  let '(t', s') := sort_con ms mw (t, s) p in
  t' = classify ms mw p t
  /\ num_of_actives s' = num_of_actives s + (if fast ms mw t p then 1 else 0)
  /\ num_of_inactives s' = num_of_inactives s + (if fast ms mw t p then 0 else 1).
Proof.
  intros HD. destruct (classify_spec ms mw p t HD) as (_ & EA & _). unfold sort_con, is_active.
  rewrite EA. unfold wanted. destruct (fast ms mw t p).
  - rewrite (bool_decide_true (FUNC_ACTIVE = FUNC_ACTIVE)), (bool_decide_false (FUNC_ACTIVE = FUNC_INACTIVE)) by done.
    cbn. split_and!; [done|lia ..].
  - rewrite (bool_decide_true (FUNC_INACTIVE = FUNC_INACTIVE)), (bool_decide_false (FUNC_INACTIVE = FUNC_ACTIVE)) by done.
    cbn. split_and!; [done|lia ..].
Qed.

Lemma sort_fold_spec ms mw l t s :
  (forall p, p ∈ l -> is_Some (con_heap t !! p)) ->
  let '(t', s') := fold_left (sort_con ms mw) l (t, s) in
  frame active_con eq t t'
  /\ (forall p, p ∈ l -> active_state (conp t' p) = wanted ms mw t p)
  /\ (forall p, p ∉ l -> conp t' p = conp t p)
  /\ num_of_actives s' = num_of_actives s + count (fast ms mw t) l
  /\ num_of_inactives s' = num_of_inactives s + count (fun p => negb (fast ms mw t p)) l.
Proof.
  revert t s. induction l as [|p l IH]; intros t s HD; cbn [fold_left].
  { unfold count. cbn. split_and!; try lia; try done. intros p Hp. by apply not_elem_of_nil in Hp. }
  assert (Hp : is_Some (con_heap t !! p)) by (apply HD, list_elem_of_here).
  pose proof (sort_con_spec ms mw t s p Hp) as HS. destruct (sort_con ms mw (t, s) p) as [t1 s1].
  destruct HS as (-> & A1 & I1). destruct (classify_spec ms mw p t Hp) as (F1 & W1 & K1).
  set (t1 := classify ms mw p t) in *.
  specialize (IH t1 s1). destruct (fold_left _ _ _) as [t2 s2].
  destruct IH as (F2 & W2 & K2 & A2 & I2).
  { intros q Hq. rewrite (fr_dom _ _ _ _ F1). by apply HD, list_elem_of_further. }
  assert (HF : forall q, fast ms mw t1 q = fast ms mw t q) by (intros q; by apply active_frame_keeps).
  rewrite !count_cons, A2, A1, I2, I1.
  rewrite (count_ext _ (fast ms mw t) l (fun q _ => HF q)).
  rewrite (count_ext _ (fun q => negb (fast ms mw t q)) l (fun q _ => f_equal negb (HF q))).
  split_and!; [by etransitivity| | |lia|destruct (fast ms mw t p); cbn; lia].
  - intros q Hq. destruct (decide (q ∈ l)) as [Hl|Hl].
    + rewrite W2 by done. unfold wanted. by rewrite HF.
    + apply elem_of_cons in Hq as [->|]; [|done]. by rewrite K2.
  - intros q Hq. rewrite elem_of_cons in Hq. rewrite K2 by tauto. apply K1. tauto.
Qed.

(** ** Marking the redundant ones *)

(** Some inactive connections of the list became redundant. *)
Definition redundant_in (l : list ptr) (t t' : table) : Prop :=
  forall p, conp t' p = conp t p \/
    (p ∈ l /\ active_state (conp t p) = FUNC_INACTIVE
     /\ conp t' p = set_active FUNC_INACTIVE_REDUNDANT (conp t p)).

Lemma redundant_in_cons p l t t' : redundant_in l t t' -> redundant_in (p :: l) t t'.
Proof.
  intros H q. destruct (H q) as [|(?&?&?)]; [by left|right].
  split_and!; [by apply list_elem_of_further|done|done].
Qed.

Lemma redundant_in_notin l t t' p : redundant_in l t t' -> p ∉ l -> conp t' p = conp t p.
Proof. intros H Hp. by destruct (H p) as [|[? _]]. Qed.

Lemma redundant_in_count p l t t' a :
  redundant_in l t t' -> p ∉ l ->
  count (is_active a t') (p :: l) = (if is_active a t p then 1 else 0) + count (is_active a t') l.
Proof.
  intros H Hp. rewrite count_cons. unfold is_active at 1 3.
  by rewrite (redundant_in_notin _ _ _ _ H Hp).
Qed.

(** Marking the head of the list. *)
Lemma mark_one p l t :
  p ∉ l -> is_Some (con_heap t !! p) -> is_active FUNC_INACTIVE t p = true ->
  let t1 := upd_con (set_active FUNC_INACTIVE_REDUNDANT) p t in
  redundant_in [p] t t1 /\ is_active FUNC_INACTIVE t1 p = false
  /\ count (is_active FUNC_INACTIVE t1) l = count (is_active FUNC_INACTIVE t) l.
Proof.
  intros Hp HD HI t1.
  assert (Ep : conp t1 p = set_active FUNC_INACTIVE_REDUNDANT (conp t p)) by (by apply conp_upd_eq).
  assert (Eq : forall q, q <> p -> conp t1 q = conp t q) by (intros; by apply conp_upd_ne).
  unfold is_active in *. rewrite bool_decide_eq_true in HI. split_and!.
  - intros q. destruct (decide (q = p)) as [->|]; [right|left; auto]. by rewrite list_elem_of_singleton.
  - by rewrite Ep.
  - apply count_ext. intros q Hq. rewrite Eq; [done|]. by intros ->.
Qed.

Lemma redundant_in_step p l t t1 t2 :
  p ∉ l -> redundant_in [p] t t1 -> redundant_in l t1 t2 -> redundant_in (p :: l) t t2.
Proof.
  intros Hp H1 H2 q. destruct (decide (q = p)) as [->|Hq].
  - rewrite (redundant_in_notin _ _ _ _ H2 Hp).
    destruct (H1 p) as [->|(_&?&->)]; [by left|right]. split; [apply list_elem_of_here|done].
  - assert (E : conp t1 q = conp t q)
      by (apply (redundant_in_notin _ _ _ _ H1); by rewrite list_elem_of_singleton).
    destruct (H2 q) as [->|(?&?&->)]; [by left|right]. rewrite E in *.
    split_and!; [by apply list_elem_of_further|done|done].
Qed.

(** [k] inactive connections were passed over before the list: none, or the
    one to keep. *)
Lemma mark_redundant_spec keep n k l t :
  NoDup l -> (forall p, p ∈ l -> is_Some (con_heap t !! p)) ->
  2 <= n -> n = k + count (is_active FUNC_INACTIVE t) l ->
  k = 0 \/ (k = 1 /\ forall p, keep = Some p -> p ∉ l) ->
  let t' := mark_redundant keep n l t in
  frame active_con eq t t' /\ redundant_in l t t' /\ k + count (is_active FUNC_INACTIVE t') l = 1.
Proof.
  revert n k t. induction l as [|p l IH]; intros n k t HN HD Hn En Hk; cbn [mark_redundant].
  { unfold count in En. cbn in En. lia. }
  apply NoDup_cons in HN as [Hp HN]. rewrite count_cons in En.
  assert (HD' : forall q, q ∈ l -> is_Some (con_heap t !! q)) by (intros; by apply HD, list_elem_of_further).
  assert (HDp : is_Some (con_heap t !! p)) by (apply HD, list_elem_of_here).
  assert (Hk1 : k = 1 -> forall q, keep = Some q -> q <> p /\ q ∉ l).
  { intros -> q Hq. destruct Hk as [|[_ Hk]]; [lia|]. specialize (Hk q Hq). rewrite elem_of_cons in Hk. tauto. }
  assert (Hk2 : k = 0 \/ (k = 1 /\ forall q, keep = Some q -> q ∉ l)).
  { destruct Hk as [|[E _]]; [by left|right]. split; [done|]. intros q Hq. by apply Hk1. }
  destruct (is_active FUNC_INACTIVE t p) eqn:EI; [case_bool_decide as EK|]; rewrite ?andb_false_r; cbn [andb].
  - destruct (mark_one p l t Hp HDp EI) as (R1 & EI1 & EC).
    set (t1 := upd_con (set_active FUNC_INACTIVE_REDUNDANT) p t) in *.
    assert (F1 : frame active_con eq t t1) by apply frame_set_active.
    destruct (Z.eqb_spec (n - 1) 1).
    + rewrite count_cons, EI1, EC. split_and!; [done| |lia].
      apply (redundant_in_step p l t t1 t1); [done|done|by left].
    + destruct (IH (n - 1) k t1) as (F2 & R2 & C2); [done| |lia|lia|done|].
      { intros q Hq. rewrite (fr_dom _ _ _ _ F1). auto. }
      rewrite (redundant_in_count _ _ _ _ _ R2 Hp), EI1.
      split_and!; [by etransitivity|by eapply redundant_in_step|lia].
  - assert (k = 0) as -> by (destruct Hk as [|[E _]]; [done|]; by destruct (Hk1 E p)).
    destruct (IH n 1 t) as (F2 & R2 & C2); [done|done|done|lia| |].
    { right. split; [done|]. intros q Hq. assert (q = p) as -> by congruence. done. }
    rewrite (redundant_in_count _ _ _ _ _ R2 Hp), EI.
    split_and!; [done|by apply redundant_in_cons|lia].
  - destruct (IH n k t) as (F2 & R2 & C2); [done|done|done|lia|done|].
    rewrite (redundant_in_count _ _ _ _ _ R2 Hp), EI.
    split_and!; [done|by apply redundant_in_cons|lia].
Qed.

(** ** Removing *)

Definition removal_con (c c' : con) : Prop :=
  c' = c \/ (linked c = true /\ c' = set_state STATE_IN_REMOVAL c).

#[export] Instance removal_con_pre : PreOrder removal_con.
Proof.
  split; [by left|]. intros a b c [->|[? ->]] [->|[? ->]]; unfold removal_con; auto.
Qed.

Lemma removal_con_same_links c c' : removal_con c c' -> same_links c c'.
Proof. intros [->|[H ->]]; [done|]. unfold same_links. by rewrite H. Qed.

(** What the removal loop does to the connections of [l]; [a0] active channels
    were passed over before. *)
Record removes (i a0 m : Z) (l : list ptr) (t t' : table) (out : list ptr) : Prop := {
  rm_frame : frame removal_con eq t t';
  rm_sub : out `sublist_of` l;
  rm_in : forall p, p ∈ out -> state (conp t p) = STATE_CONNECTED /\ active_state (conp t p) <> FUNC_INACTIVE
                     /\ conp t' p = set_state STATE_IN_REMOVAL (conp t p);
  rm_out : forall p, p ∉ out -> conp t' p = conp t p;
  rm_len : Z.of_nat (length out) <= m;
  rm_redundant : Z.of_nat (length out) < m -> forall p, p ∈ l -> channel FUNC_INACTIVE_REDUNDANT t' p = false;
  rm_limit : Z.of_nat (length out) < m ->
    i + a0 + count (channel FUNC_ACTIVE t') l <= max_channels t \/ count (channel FUNC_ACTIVE t') l = 0
}.

Lemma removes_skip i a0 a1 m p l t t' out :
  p ∉ l -> removes i a1 m l t t' out -> channel FUNC_INACTIVE_REDUNDANT t p = false ->
  (channel FUNC_ACTIVE t p = false /\ a1 = a0)
  \/ (a1 = a0 + 1 /\ i + a0 + 1 <= max_channels t) ->
  removes i a0 m (p :: l) t t' out.
Proof.
  intros Hp [F S HI HO HL HR HM] HNR HA.
  assert (E : conp t' p = conp t p) by (apply HO; intros H; eapply Hp, elem_of_sublist; eauto).
  split; try done; [by apply sublist_cons| |].
  - intros Hm q. rewrite elem_of_cons. intros [->|]; [by rewrite (channel_ext _ t)|by apply HR].
  - intros Hm. rewrite count_cons, (channel_ext _ t t' p E). specialize (HM Hm).
    destruct HA as [[-> ->]|[-> HA]]; [lia|]. destruct (channel FUNC_ACTIVE t p); lia.
Qed.

Lemma removes_take i a0 m p l t t' out :
  p ∉ l -> is_Some (con_heap t !! p) -> state (conp t p) = STATE_CONNECTED ->
  active_state (conp t p) <> FUNC_INACTIVE ->
  removes i a0 (m - 1) l (upd_con (set_state STATE_IN_REMOVAL) p t) t' out ->
  removes i a0 m (p :: l) t t' (p :: out).
Proof.
  intros Hp HD HS HA [F S HI HO HL HR HM]. set (t1 := upd_con (set_state STATE_IN_REMOVAL) p t) in *.
  assert (Hpo : p ∉ out) by (intros H; eapply Hp, elem_of_sublist; eauto).
  assert (Eq : forall q, q <> p -> conp t1 q = conp t q) by (intros; by apply conp_upd_ne).
  assert (Ep : conp t' p = set_state STATE_IN_REMOVAL (conp t p)) by (rewrite HO by done; by apply conp_upd_eq).
  assert (NC : forall a, channel a t' p = false) by (intros a; unfold channel, is_state; by rewrite Ep).
  split; cbn [length].
  - etransitivity; [|exact F]. apply frame_upd_con; [apply _ ..|]. right. unfold linked. by rewrite HS.
  - by apply sublist_skip.
  - intros q. rewrite elem_of_cons. intros [->|Hq]; [done|].
    assert (q <> p) by (by intros ->). rewrite <- (Eq q) by done. by apply HI.
  - intros q. rewrite not_elem_of_cons. intros [Hq Ho]. rewrite HO by done. auto.
  - lia.
  - intros Hm q. rewrite elem_of_cons. intros [->|Hq]; [done|]. apply HR; [lia|done].
  - intros Hm. rewrite count_cons, NC. apply HM. lia.
Qed.

Lemma removes_stop i a0 l t : removes i a0 0 l t t [].
Proof.
  split; cbn; try lia; try done; [apply sublist_nil_l|]. intros p Hp. by apply not_elem_of_nil in Hp.
Qed.

Lemma remove_excess_spec i a0 m l t :
  NoDup l -> (forall p, p ∈ l -> is_Some (con_heap t !! p) /\ linked (conp t p) = true) -> 1 <= m -> 0 <= a0 ->
  let '(t', out) := remove_excess i (a0 + count (channel FUNC_ACTIVE t) l) m l t in
  removes i a0 m l t t' out.
Proof.
  revert a0 m t. induction l as [|p l IH]; intros a0 m t HN HD Hm Ha0; cbn [remove_excess].
  { split; cbn; try lia; try done.
    - intros p Hp. by apply not_elem_of_nil in Hp.
    - intros _ p Hp. by apply not_elem_of_nil in Hp.
    - intros _. by right. }
  apply NoDup_cons in HN as [Hp HN]. destruct (HD p (list_elem_of_here _ _)) as [HDp HLp].
  assert (HD' : forall q, q ∈ l -> is_Some (con_heap t !! q) /\ linked (conp t q) = true)
    by (intros; by apply HD, list_elem_of_further).
  rewrite count_cons. pose proof (count_nonneg (channel FUNC_ACTIVE t) l) as Hc.
  destruct (is_state STATE_IN_REMOVAL t p) eqn:ER; unfold is_state in ER.
  { rewrite bool_decide_eq_true in ER.
    assert (NC : forall a, channel a t p = false) by (intros a; unfold channel, is_state; by rewrite ER).
    rewrite NC, Z.add_0_l. specialize (IH a0 m t HN HD' Hm Ha0). destruct (remove_excess _ _ _ _ _) as [t' out].
    eapply removes_skip; eauto. }
  rewrite bool_decide_eq_false in ER.
  assert (HS : state (conp t p) = STATE_CONNECTED) by (unfold linked in HLp; by destruct (state (conp t p))).
  assert (EA : forall a, channel a t p = is_active a t p) by (intros a; unfold channel, is_state; by rewrite HS).
  rewrite EA. set (E := max_channels t <? _).
  destruct (E && is_active FUNC_ACTIVE t p || is_active FUNC_INACTIVE_REDUNDANT t p) eqn:ET.
  - assert (HA : active_state (conp t p) <> FUNC_INACTIVE).
    { intros HA. unfold is_active in ET. by rewrite HA, andb_false_r in ET. }
    set (t1 := upd_con _ p t).
    assert (EC : count (channel FUNC_ACTIVE t1) l = count (channel FUNC_ACTIVE t) l).
    { apply count_ext. intros q Hq. apply channel_ext, conp_upd_ne. by intros ->. }
    replace (if E && is_active FUNC_ACTIVE t p then _ else _) with (a0 + count (channel FUNC_ACTIVE t1) l).
    2: { rewrite EC. destruct (is_active FUNC_ACTIVE t p) eqn:HA1; rewrite ?andb_false_r in *; [|lia].
         unfold is_active in ET, HA1. rewrite bool_decide_eq_true in HA1. rewrite HA1, andb_true_r in ET.
         rewrite orb_false_r in ET. rewrite ET. cbn. lia. }
    specialize (IH a0 (m - 1) t1 HN). destruct (Z.eqb_spec (m - 1) 0).
    + apply removes_take; try done. replace (m - 1) with 0 by lia. apply removes_stop.
    + destruct (remove_excess _ _ _ _ _) as [t' out]. apply removes_take; try done. apply IH; [|lia|lia].
      intros q Hq. assert (q <> p) by (by intros ->). unfold t1. rewrite conp_upd_ne by done.
      split; [|by apply HD']. apply lookup_alter_is_Some, HD', Hq.
  - apply orb_false_iff in ET as [ET1 ET2]. destruct (is_active FUNC_ACTIVE t p) eqn:HA1; unfold E in *.
    + specialize (IH (a0 + 1) m t HN HD' Hm). rewrite andb_true_r, Z.ltb_ge in ET1.
      rewrite Z.add_assoc. destruct (remove_excess _ _ _ _ _) as [t' out].
      eapply removes_skip; [done|apply IH; lia|by rewrite EA|right; lia].
    + specialize (IH a0 m t HN HD' Hm Ha0). rewrite Z.add_0_l. destruct (remove_excess _ _ _ _ _) as [t' out].
      eapply removes_skip; [done|exact IH|by rewrite EA|left; by rewrite EA].
Qed.

(** ** The whole function *)

(** When wired channels are preferred and there is one, the others do not
    compete. *)
Definition eligible (t : table) (p : ptr) : bool :=
  negb (prefer_wired t && existsb (fun q => is_wired t q && (0 <? con_speed (conp t q))) (successful_con_list t))
  || is_wired t p.

Definition speeds_ok (t : table) : Prop := forall p, p ∈ successful_con_list t -> 0 <= con_speed (conp t p).

(** The running maximum of the speeds selected by a predicate. *)
Definition best (f : ptr -> bool) (sp : ptr -> Z) (l : list ptr) (a : Z) : Z :=
  fold_left (fun a p => if f p && (a <? sp p) then sp p else a) l a.

Lemma best_spec f sp l a :
  a <= best f sp l a /\ (forall p, p ∈ l -> f p = true -> sp p <= best f sp l a)
  /\ (best f sp l a = a \/ exists p, p ∈ l /\ f p = true /\ sp p = best f sp l a).
Proof.
  unfold best. revert a. induction l as [|q l IH]; intros a; cbn [fold_left].
  { split_and!; [lia| |by left]. intros p Hp. by apply not_elem_of_nil in Hp. }
  destruct (IH (if f q && (a <? sp q) then sp q else a)) as (H1 & H2 & H3).
  set (b := fold_left _ _ _) in *. split_and!.
  - destruct (f q && (a <? sp q)) eqn:E; [|lia]. rewrite andb_true_iff, Z.ltb_lt in E. lia.
  - intros p Hp Hf. apply elem_of_cons in Hp as [->|Hp]; [|by apply H2].
    rewrite Hf in H1. cbn in H1. destruct (Z.ltb_spec a (sp q)); lia.
  - destruct H3 as [H3|(p&?&?&?)]; [|right; exists p; split_and!; try done; by apply list_elem_of_further].
    destruct (f q && (a <? sp q)) eqn:E; [|by left]. right. exists q. rewrite andb_true_iff in E.
    split_and!; [apply list_elem_of_here|tauto|lia].
Qed.

Lemma max_speeds_best t :
  max_speeds t = (best (fun p => prefer_wired t && is_wired t p) (fun p => con_speed (conp t p)) (successful_con_list t) 0,
                  best (fun _ => true) (fun p => con_speed (conp t p)) (successful_con_list t) 0).
Proof.
  unfold max_speeds, best. generalize 0 at 1 3. generalize 0.
  induction (successful_con_list t) as [|p l IH]; intros a b; cbn [fold_left]; [done|]. apply IH.
Qed.

(** The speed test of the code picks the fastest eligible channels. *)
Lemma fast_best t p :
  speeds_ok t -> p ∈ successful_con_list t ->
  let '(wired, all) := max_speeds t in
  fast (if wired =? 0 then all else wired) wired t p = true <->
  eligible t p = true /\
  forall q, q ∈ successful_con_list t -> eligible t q = true -> con_speed (conp t q) <= con_speed (conp t p).
Proof.
  intros HS Hp. rewrite max_speeds_best. set (l := successful_con_list t) in *.
  set (sp := fun p => con_speed (conp t p)) in *.
  destruct (best_spec (fun p => prefer_wired t && is_wired t p) sp l 0) as (W1 & W2 & W3).
  destruct (best_spec (fun _ => true) sp l 0) as (A1 & A2 & A3).
  set (w := best (fun p => _ && _) _ _ _) in *. set (a := best _ _ _ _) in *.
  unfold fast, eligible. fold l. destruct (Z.eqb_spec w 0) as [Ew|Ew].
  - assert (EX : prefer_wired t && existsb (fun q => is_wired t q && (0 <? con_speed (conp t q))) l = false).
    { apply not_true_is_false. rewrite andb_true_iff, existsb_exists. intros [Hw (q & Hq & HW)].
      rewrite andb_true_iff, Z.ltb_lt in HW. specialize (W2 q). rewrite Hw in W2. cbn in W2.
      assert (sp q <= w) by (apply W2; [by apply list_elem_of_In|tauto]). unfold sp in *. lia. }
    rewrite EX. cbn. rewrite andb_true_r, Z.eqb_eq. split.
    + intros E. split; [done|]. intros q Hq _. rewrite E. by apply A2.
    + intros [_ H]. specialize (A2 p Hp eq_refl). specialize (HS p Hp). unfold sp in *.
      destruct A3 as [A3|(q & Hq & _ & A3)]; [|specialize (H q Hq eq_refl)]; lia.
  - destruct W3 as [|(q & Hq & W3 & W4)]; [done|]. rewrite andb_true_iff in W3. destruct W3 as [HP HW].
    assert (EX : existsb (fun q => is_wired t q && (0 <? con_speed (conp t q))) l = true).
    { apply existsb_exists. exists q. split; [by apply list_elem_of_In|]. rewrite HW. apply Z.ltb_lt. unfold sp in *. lia. }
    rewrite HP, EX in *. cbn in *. rewrite andb_true_iff, Z.eqb_eq. split.
    + intros [E Hw]. split; [done|]. intros r Hr Hwr. rewrite E. by apply W2.
    + intros [Hw H]. split; [|done]. specialize (W2 p Hp Hw). specialize (H q Hq HW). unfold sp in *. lia.
Qed.

(** Counting in either list. *)
Lemma count_succ a t :
  wf t -> count (channel a t) (session_con_list t) = count (channel a t) (successful_con_list t).
Proof.
  intros W. unfold count. f_equal. apply Permutation_length, NoDup_Permutation.
  1, 2: apply NoDup_ListNoDup, List.NoDup_filter, NoDup_ListNoDup, W.
  intros p. rewrite !list_elem_of_In, !List.filter_In, <- !list_elem_of_In, (wf_succ t W).
  unfold channel, linked, is_state. split; [|tauto]. intros [H1 H2]. split_and!; try done.
  rewrite andb_true_iff, bool_decide_eq_true in H2. destruct H2 as [-> _]. done.
Qed.

(** The sorted table before anything is removed: at most one connection is
    merely inactive. *)
Definition sorted_by (ms mw : Z) (t t2 : table) : Prop :=
  frame active_con eq t t2
  /\ (forall p, p ∈ successful_con_list t ->
        (active_state (conp t2 p) = FUNC_ACTIVE <-> fast ms mw t p = true))
  /\ count (is_active FUNC_INACTIVE t2) (successful_con_list t) <= 1.

Lemma sort_and_mark ms mw keep t t1 s :
  wf t -> fold_left (sort_con ms mw) (successful_con_list t) (t, mk_sorting 0 0 0 0 None None) = (t1, s) ->
  num_of_actives s = count (fast ms mw t) (successful_con_list t)
  /\ sorted_by ms mw t
       (if 1 <? num_of_inactives s then mark_redundant keep (num_of_inactives s) (successful_con_list t1) t1 else t1).
Proof.
  intros W E. set (l := successful_con_list t) in *.
  assert (HD : forall p, p ∈ l -> is_Some (con_heap t !! p)).
  { intros p Hp. apply (wf_dom t W). by apply (wf_succ t W). }
  pose proof (sort_fold_spec ms mw l t (mk_sorting 0 0 0 0 None None) HD) as HS.
  rewrite E in HS. destruct HS as (F & HW & HK & HA & HI). cbn in HA, HI.
  rewrite (fr_succ _ _ _ _ F). fold l. split; [lia|].
  assert (EI : count (is_active FUNC_INACTIVE t1) l = num_of_inactives s).
  { rewrite HI, Z.add_0_l. apply count_ext. intros p Hp. unfold is_active. rewrite HW by done.
    unfold wanted. by destruct (fast ms mw t p). }
  assert (HA1 : forall p, p ∈ l -> active_state (conp t1 p) = FUNC_ACTIVE <-> fast ms mw t p = true).
  { intros p Hp. rewrite HW by done. unfold wanted. by destruct (fast ms mw t p). }
  destruct (Z.ltb_spec 1 (num_of_inactives s)); [|split_and!; [done|done|fold l; lia]].
  destruct (mark_redundant_spec keep (num_of_inactives s) 0 l t1) as (F2 & R2 & C2);
    [apply W| |lia|lia|by left|].
  { intros p Hp. rewrite (fr_dom _ _ _ _ F). auto. }
  split_and!; [by etransitivity| |fold l; lia].
  intros p Hp. rewrite <- HA1 by done. destruct (R2 p) as [->|(_&->&->)]; done.
Qed.

(** The function is sorting, counting and removing. *)
Lemma excess_run m t :
  wf t -> 1 <= m ->
  let '(wired, all) := max_speeds t in
  let ms := if wired =? 0 then all else wired in
  let '(t', out, n, sp) := smb2_mc_return_excess_connections m t in
  n = count (fast ms wired t) (successful_con_list t) /\ sp = ms /\
  exists t2 t3, sorted_by ms wired t t2 /\ wf t2 /\ frame stats_con eq t2 t3
    /\ removes (count (channel FUNC_INACTIVE t2) (successful_con_list t)) 0 m (successful_con_list t) t3 t' out.
Proof.
  intros W Hm. unfold smb2_mc_return_excess_connections. destruct (max_speeds t) as [wired all].
  set (ms := if wired =? 0 then all else wired).
  destruct (fold_left _ _ _) as [t1 s] eqn:ES.
  set (keep := match best_wired_inactive s with Some p => Some p | None => best_inactive s end).
  destruct (sort_and_mark ms wired keep t t1 s W ES) as [HA HB].
  set (t2 := if 1 <? num_of_inactives s then _ else _) in *.
  assert (W2 : wf t2).
  { eapply wf_frame_eq; [apply active_con_same_links|apply HB|exact W]. }
  pose proof (stats_spec t2 W2) as H3. destruct (smb2_mc_count_connection_stats t2) as [t3 r].
  destruct H3 as (F3 & _ & A3 & I3).
  assert (EL : successful_con_list t3 = successful_con_list t).
  { rewrite (fr_succ _ _ _ _ F3). apply HB. }
  assert (W3 : wf t3).
  { eapply wf_frame_eq; [apply stats_con_same_links|exact F3|exact W2]. }
  rewrite A3, I3, !count_succ, (fr_succ _ _ _ _ (proj1 HB)), EL by done.
  rewrite <- (count_ext (channel FUNC_ACTIVE t3) (channel FUNC_ACTIVE t2)) by (intros; by apply channel_frame).
  pose proof (remove_excess_spec (count (channel FUNC_INACTIVE t2) (successful_con_list t)) 0 m
                (successful_con_list t) t3) as HR.
  rewrite Z.add_0_l in HR. destruct (remove_excess _ _ _ _ _) as [t4 out].
  split_and!; [done|done|]. exists t2, t3. split_and!; try apply HB; [done|done|]. apply HR; [apply W| |done|lia].
  intros p Hp. rewrite <- EL in Hp. split; [|by apply (wf_succ t3 W3)].
  apply (wf_dom t3 W3). by apply (wf_succ t3 W3).
Qed.

(** What is left of the active state and the speed of a channel after
    counting and removing. *)
Lemma linked_kept m i t2 t3 t' l out p :
  linked (conp t2 p) = true -> frame stats_con eq t2 t3 -> removes i 0 m l t3 t' out ->
  active_state (conp t' p) = active_state (conp t2 p).
Proof.
  intros HL F R. destruct (fr_cons _ _ _ _ F p) as (_&_&<-&_).
  destruct (fr_cons _ _ _ _ (rm_frame _ _ _ _ _ _ _ R) p) as [->|[_ ->]]; done.
Qed.

(** When the excess is returned, the active channels of the session are
    exactly its fastest eligible ones: a connected channel is active afterwards
    if and only if it may compete (it is wired, or wired channels are not
    preferred or there are none) and no competing channel is faster.  The
    reported count is the number of active channels, and at most one channel
    stays inactive without being redundant. *)
Theorem excess_actives_are_fastest m t :
  wf t -> speeds_ok t -> 1 <= m ->
  let '(t', out, n, sp) := smb2_mc_return_excess_connections m t in
  (forall p, p ∈ successful_con_list t ->
     active_state (conp t' p) = FUNC_ACTIVE <->
     eligible t p = true /\
     forall q, q ∈ successful_con_list t -> eligible t q = true -> con_speed (conp t q) <= con_speed (conp t p))
  /\ n = count (is_active FUNC_ACTIVE t') (successful_con_list t)
  /\ count (is_active FUNC_INACTIVE t') (successful_con_list t) <= 1.
Proof.
  intros W HS Hm. pose proof (excess_run m t W Hm) as HR.
  pose proof (fun p => fast_best t p HS) as HF. destruct (max_speeds t) as [wired all].
  destruct (smb2_mc_return_excess_connections m t) as [[[t' out] n] sp].
  destruct HR as (-> & _ & t2 & t3 & (F2 & HA & HC) & W2 & F3 & R).
  assert (HK : forall p, p ∈ successful_con_list t -> active_state (conp t' p) = active_state (conp t2 p)).
  { intros p Hp. eapply linked_kept; [|exact F3|exact R].
    rewrite <- (fr_succ _ _ _ _ F2) in Hp. by apply (wf_succ t2 W2). }
  split_and!.
  - intros p Hp. rewrite HK, HA by done. by apply HF.
  - apply count_ext. intros p Hp. unfold is_active. rewrite HK by done.
    apply eq_true_iff_eq. rewrite bool_decide_eq_true, HA by done. done.
  - rewrite (count_ext _ (is_active FUNC_INACTIVE t2)); [done|].
    intros p Hp. unfold is_active. by rewrite HK.
Qed.

Lemma connected_count t l :
  count (is_state STATE_CONNECTED t) l =
  count (channel FUNC_ACTIVE t) l + count (channel FUNC_INACTIVE t) l + count (channel FUNC_INACTIVE_REDUNDANT t) l.
Proof.
  induction l as [|p l IH]; [done|]. rewrite !count_cons, IH.
  generalize (count (channel FUNC_ACTIVE t) l) (count (channel FUNC_INACTIVE t) l)
    (count (channel FUNC_INACTIVE_REDUNDANT t) l). intros a b c. unfold channel, is_active.
  destruct (is_state STATE_CONNECTED t p), (active_state (conp t p)); repeat case_bool_decide; try done; cbn [andb]; lia.
Qed.

Lemma channel_count_le a t l : count (channel a t) l <= count (is_active a t) l.
Proof.
  induction l as [|p l IH]; [done|]. rewrite !count_cons. unfold channel at 1.
  destruct (is_state STATE_CONNECTED t p), (is_active a t p); cbn [andb]; lia.
Qed.

Lemma connected_succ t :
  wf t -> count (is_state STATE_CONNECTED t) (session_con_list t) = count (is_state STATE_CONNECTED t) (successful_con_list t).
Proof. intros W. by rewrite !connected_count, !count_succ. Qed.

Lemma count_none f l : (forall p, p ∈ l -> f p = false) -> count f l = 0.
Proof.
  intros H. induction l as [|p l IH]; [done|]. rewrite count_cons, H, IH; [done| |apply list_elem_of_here].
  intros q Hq. by apply H, list_elem_of_further.
Qed.

(** Returning the excess enforces the channel limit.  The removal vector
    never holds more than the [max_out_len] entries of the caller's array, its
    entries are distinct, were connected channels and are in removal
    afterwards; every other channel keeps its connection state; and unless the
    vector is full, at most [max_channels] channels stay connected.  The table
    stays well formed. *)
Theorem excess_enforces_limit m t :
  wf t -> 1 <= m -> 1 <= max_channels t ->
  let '(t', out, n, sp) := smb2_mc_return_excess_connections m t in
  wf t' /\ NoDup out /\ Z.of_nat (length out) <= m
  /\ (forall p, p ∈ out -> state (conp t p) = STATE_CONNECTED /\ state (conp t' p) = STATE_IN_REMOVAL)
  /\ (forall p, p ∈ successful_con_list t -> p ∉ out -> state (conp t' p) = state (conp t p))
  /\ (Z.of_nat (length out) < m -> count (is_state STATE_CONNECTED t') (session_con_list t') <= max_channels t).
Proof.
  intros W Hm Hmax. pose proof (excess_run m t W Hm) as HR. destruct (max_speeds t) as [wired all].
  destruct (smb2_mc_return_excess_connections m t) as [[[t' out] n] sp].
  destruct HR as (_ & _ & t2 & t3 & (F2 & HA & HC) & W2 & F3 & R).
  pose proof R as [FR S HI HO HL HD HM].
  assert (HSt : forall p, p ∈ successful_con_list t -> state (conp t3 p) = state (conp t p)).
  { intros p Hp. destruct (fr_cons _ _ _ _ F3 p) as (_&_&_&_&E3&_).
    destruct (active_con_fields _ _ (fr_cons _ _ _ _ F2 p)) as [E2 _]. rewrite <- E2.
    apply (wf_succ t W) in Hp as [_ HL2]. unfold linked in HL2. rewrite <- E2 in HL2.
    destruct E3 as [|[E3 _]]; [done|]. by rewrite E3 in HL2. }
  assert (W3 : wf t3).
  { eapply wf_frame_eq; [apply stats_con_same_links|exact F3|exact W2]. }
  assert (W' : wf t').
  { eapply wf_frame_eq; [apply removal_con_same_links|exact FR|exact W3]. }
  assert (EL : successful_con_list t' = successful_con_list t).
  { by rewrite (fr_succ _ _ _ _ FR), (fr_succ _ _ _ _ F3), (fr_succ _ _ _ _ F2). }
  assert (EM : max_channels t3 = max_channels t) by (by rewrite (fr_max _ _ _ _ F3), (fr_max _ _ _ _ F2)).
  assert (HOut : forall p, p ∈ out -> p ∈ successful_con_list t) by (intros; by eapply elem_of_sublist).
  split_and!; [done|eapply sublist_NoDup; [apply (wf_succ_nodup t W)|exact S]|done| | |].
  - intros p Hp. destruct (HI p Hp) as (E & _ & ->). split; [|done]. rewrite <- HSt; auto.
  - intros p Hp Ho. rewrite HO by done. auto.
  - intros Hlt. rewrite connected_succ, EL, connected_count by done.
    rewrite (count_none (channel FUNC_INACTIVE_REDUNDANT t')) by auto.
    assert (EI : count (channel FUNC_INACTIVE t') (successful_con_list t)
                 = count (channel FUNC_INACTIVE t2) (successful_con_list t)).
    { apply count_ext. intros p _. rewrite <- (channel_frame _ _ _ _ F3).
      destruct (decide (p ∈ out)) as [Hp|Hp]; [|by apply channel_ext, HO].
      destruct (HI p Hp) as (_ & E & E'). unfold channel, is_active. rewrite E'. cbn [active_state set_state].
      by rewrite (bool_decide_false _ E), !andb_false_r. }
    pose proof (channel_count_le FUNC_INACTIVE t2 (successful_con_list t)).
    specialize (HM Hlt). lia.
Qed.

End Excess.

#[local] Existing Instances demo_stale_con demo_stale_nic.

Lemma demo_full_wf : wf demo_full.
Proof. apply wf_of_check. vm_compute. reflexivity. Qed.

Lemma demo_full_speeds : speeds_ok demo_full.
Proof.
  refine (proj1 (Forall_forall (fun p => 0 <= con_speed (conp demo_full p)) (successful_con_list demo_full)) _).
  apply (bool_decide_eq_true_1 _). vm_compute. reflexivity.
Qed.

Lemma excess_actives_are_fastest_witness :
  let '(t', out, n, sp) := smb2_mc_return_excess_connections 16 demo_full in
  n = 2 /\ sp = 1000 /\ n = count (is_active FUNC_ACTIVE t') (successful_con_list demo_full).
Proof.
  pose proof (excess_actives_are_fastest 16 demo_full demo_full_wf demo_full_speeds ltac:(lia)) as H.
  assert (E : let '(t', out, n, sp) := smb2_mc_return_excess_connections 16 demo_full in n = 2 /\ sp = 1000)
    by (vm_compute; split; reflexivity).
  destruct (smb2_mc_return_excess_connections 16 demo_full) as [[[t' out] n] sp].
  destruct H as (_ & H & _). destruct E as [E1 E2]. split; [exact E1|]. split; [exact E2|exact H].
Defined.

Lemma excess_enforces_limit_witness :
  let '(t', out, n, sp) := smb2_mc_return_excess_connections 16 demo_full in
  out = [10; 11; 12]%positive /\ count (is_state STATE_CONNECTED t') (session_con_list t') <= 1.
Proof.
  pose proof (excess_enforces_limit 16 demo_full demo_full_wf ltac:(lia) ltac:(vm_compute; congruence)) as H.
  assert (E : let '(t', out, n, sp) := smb2_mc_return_excess_connections 16 demo_full in out = [10; 11; 12]%positive)
    by (vm_compute; reflexivity).
  destruct (smb2_mc_return_excess_connections 16 demo_full) as [[[t' out] n] sp].
  destruct H as (_ & _ & _ & _ & _ & H). rewrite E in *. split; [reflexivity|]. apply H. cbn. lia.
Defined.
