(* ===== verification/McTrial.v ===== *)
(** * [smb2_mc_ask_for_new_connection_trial]: which connections are tried

    The loop ends, and the connections it puts on trial use each NIC once. *)

From S2P Require Import Prelude Mc McFacts.
From stdpp Require Import gmap.
Local Open Scope Z_scope.

Section Trial.
Context {stale_con : Inhabited con} {stale_nic : Inhabited nic}.

(** ** What a round may change *)

Definition trial_con (c c' : con) : Prop :=
  same_links c c' /\ (state c = STATE_IN_TRIAL -> state c' = STATE_IN_TRIAL)
  /\ (state c' = STATE_POTENTIAL -> state c = STATE_POTENTIAL \/ state c = STATE_SURPLUS)
  /\ (state c' = STATE_SURPLUS -> state c = STATE_SURPLUS).

Definition trial_nic (n n' : nic) : Prop :=
  same_nic n n' /\ (nic_state n = NIC_ON_TRIAL -> nic_state n' = NIC_ON_TRIAL).

#[export] Instance trial_con_pre : PreOrder trial_con.
Proof.
  split; [intros c; split; [reflexivity|]; tauto|]. intros a b c (L1&T1&P1&S1) (L2&T2&P2&S2).
  split; [by etransitivity|]. split_and!; [tauto| |tauto]. intros H. destruct (P2 H); auto.
Qed.

#[export] Instance trial_nic_pre : PreOrder trial_nic.
Proof. split; [by intros n|]. intros a b c [] []. split; [by etransitivity|]. tauto. Qed.

Lemma stats_trial c c' : stats_con c c' -> trial_con c c'.
Proof.
  intros H. split; [by apply stats_con_same_links|]. destruct H as (_&_&_&_&[->|[-> ->]]&_); [tauto|].
  split_and!; [done|by right|done].
Qed.

Lemma frame_stats_trial t t' : frame stats_con eq t t' -> frame trial_con trial_nic t t'.
Proof. apply frame_mono; [exact stats_trial|]. by intros ?? ->. Qed.

Lemma frame_trial_active a p t : frame trial_con trial_nic t (upd_con (set_active a) p t).
Proof. apply frame_upd_con; [apply _ ..|]. split; [done|]. cbn. tauto. Qed.

Lemma wf_trial t t' : frame trial_con trial_nic t t' -> wf t -> wf t'.
Proof. intros F. apply wf_frame. eapply frame_mono; [| |exact F]; [by intros ?? []|by intros ?? []]. Qed.

(** ** Setting the NICs of a connection *)

Lemma client_some t p : wf t -> p ∈ session_con_list t -> is_Some (nic_heap t !! con_client_nic (conp t p)).
Proof. intros W Hp. apply (wf_nics t W). left. by apply (wf_client t W). Qed.

Lemma server_some t p : wf t -> p ∈ session_con_list t -> is_Some (nic_heap t !! con_server_nic (conp t p)).
Proof. intros W Hp. apply (wf_nics t W). right. by apply (wf_server t W). Qed.

Lemma nicp_set_nics s p t n :
  is_Some (nic_heap t !! con_client_nic (conp t p)) -> is_Some (nic_heap t !! con_server_nic (conp t p)) ->
  nicp (set_nics_state s p t) n =
  if bool_decide (n = con_client_nic (conp t p) \/ n = con_server_nic (conp t p))
  then set_nic_state s (nicp t n) else nicp t n.
Proof.
  intros HC HS. unfold set_nics_state. rewrite nicp_upd, !nicp_upd; try done.
  2: { cbn. by apply lookup_alter_is_Some. }
  destruct (decide (n = con_server_nic (conp t p))) as [->|H1].
  - rewrite (bool_decide_true (_ \/ _)) by (by right). rewrite bool_decide_true by done.
    case_bool_decide as E; [by rewrite <- E|done].
  - rewrite bool_decide_false by done. repeat case_bool_decide; try tauto. by subst.
Qed.

(** The NICs of the connection are in the state. *)
Lemma set_nics_state_set s p t :
  is_Some (nic_heap t !! con_client_nic (conp t p)) -> is_Some (nic_heap t !! con_server_nic (conp t p)) ->
  nic_state (nicp (set_nics_state s p t) (con_client_nic (conp t p))) = s
  /\ nic_state (nicp (set_nics_state s p t) (con_server_nic (conp t p))) = s.
Proof. intros HC HS. rewrite !nicp_set_nics by done. rewrite !bool_decide_true by auto. done. Qed.

Lemma frame_set_nics (P : con -> con -> Prop) (Q : nic -> nic -> Prop)
  `{!Reflexive P, !Reflexive Q, !Transitive P, !Transitive Q} s p t :
  (forall n, Q n (set_nic_state s n)) -> frame P Q t (set_nics_state s p t).
Proof.
  intros H. unfold set_nics_state. etransitivity; [|apply frame_upd_nic; [done|done|apply H]].
  apply frame_upd_nic; [done|done|apply H].
Qed.

(** ** Putting one connection on trial *)

Lemma put_on_trial_spec p a t :
  wf t -> may_try t p ->
  let t' := put_on_trial p a t in
  frame trial_con trial_nic t t' /\ state (conp t' p) = STATE_IN_TRIAL
  /\ nic_state (client_nic t' p) = NIC_ON_TRIAL /\ nic_state (server_nic t' p) = NIC_ON_TRIAL
  /\ (forall q, q <> p -> conp t' q = conp t q)
  /\ active_on_trial_connections t' = u32 (active_on_trial_connections t + 1).
Proof.
  intros W (Hp & HS & HC & HSv) t'.
  pose proof (wf_dom t W p Hp) as HD.
  set (ta := upd_con (set_active a) p t). set (tb := upd_con (set_state STATE_IN_TRIAL) p ta).
  set (tc := set_nics_state NIC_ON_TRIAL p tb). set (td := refresh_speed p tc).
  assert (Fa : frame trial_con trial_nic t ta) by apply frame_trial_active.
  assert (Ea : conp ta p = set_active a (conp t p)) by (by apply conp_upd_eq).
  assert (Fb : frame trial_con trial_nic ta tb).
  { apply frame_upd_con; [apply _ ..|]. rewrite Ea. unfold trial_con, same_links, linked. cbn. rewrite HS.
    split_and!; done. }
  assert (Da : is_Some (con_heap ta !! p)) by (by apply (fr_dom _ _ _ _ Fa)).
  assert (Eb : conp tb p = set_state STATE_IN_TRIAL (set_active a (conp t p)))
    by (rewrite <- Ea; by apply conp_upd_eq).
  assert (Wb : wf tb) by (eapply wf_trial; [exact Fb|]; by eapply wf_trial).
  assert (Fc : frame trial_con trial_nic tb tc) by (apply frame_set_nics; try apply _; by intros n).
  assert (Fd : frame trial_con trial_nic tc td).
  { apply frame_upd_con; [apply _ ..|]. split; [done|]. cbn. tauto. }
  assert (Ed : conp td p = set_speed (link_speed tc p) (conp tb p)).
  { change (conp tb p) with (conp tc p). apply conp_upd_eq. by apply (fr_dom _ _ _ _ Fc), (fr_dom _ _ _ _ Fb). }
  change t' with (with_trials td (pause_trials td) (u32 (active_on_trial_connections t + 1))).
  destruct (set_nics_state_set NIC_ON_TRIAL p tb) as [NC NS]; [by apply client_some|by apply server_some|].
  split_and!; try done.
  - do 3 (etransitivity; [eassumption|]). etransitivity; [exact Fd|]. by apply frame_trials; apply _.
  - change (state (conp td p) = STATE_IN_TRIAL). by rewrite Ed, Eb.
  - change (nic_state (nicp td (con_client_nic (conp td p))) = NIC_ON_TRIAL).
    rewrite Ed. exact NC.
  - change (nic_state (nicp td (con_server_nic (conp td p))) = NIC_ON_TRIAL).
    rewrite Ed. exact NS.
  - intros q Hq. change (conp td q = conp t q). unfold td, refresh_speed. rewrite conp_upd_ne by done.
    change (conp tb q = conp t q). unfold tb, ta. by rewrite !conp_upd_ne.
Qed.

Lemma con_to_add_may_try t r added p a : counted t r -> con_to_add t r added = Some (p, a) -> may_try t p.
Proof.
  intros (H1 & H2 & _). unfold con_to_add, candidate. repeat case_match; intros; simplify_eq; auto.
Qed.

Lemma lost_actives_some t r p i :
  counted t r -> lost_actives t r = Some (p, i) ->
  active_cnt r = 0 /\ p ∈ session_con_list t /\ channel FUNC_INACTIVE t p = true.
Proof.
  intros (_ & _ & H). unfold lost_actives. destruct (Z.eqb_spec (active_cnt r) 0); cbn; [|done].
  repeat case_match; intros; simplify_eq. split; [done|]. by apply H.
Qed.

(** ** The loop *)

(** The connections [out] were put on trial between [t] and [t']. *)
Record tried (t t' : table) (out : list ptr) : Prop := {
  tr_frame : frame trial_con trial_nic t t';
  tr_out : forall p, p ∈ out ->
    p ∈ session_con_list t /\ (state (conp t p) = STATE_POTENTIAL \/ state (conp t p) = STATE_SURPLUS)
    /\ nic_state (client_nic t p) <> NIC_ON_TRIAL /\ nic_state (server_nic t p) <> NIC_ON_TRIAL
    /\ state (conp t' p) = STATE_IN_TRIAL
    /\ nic_state (client_nic t' p) = NIC_ON_TRIAL /\ nic_state (server_nic t' p) = NIC_ON_TRIAL;
  tr_clients : NoDup (map (fun p => con_client_nic (conp t p)) out);
  tr_servers : NoDup (map (fun p => con_server_nic (conp t p)) out);
  tr_count : u32 (active_on_trial_connections t') = u32 (active_on_trial_connections t + Z.of_nat (length out))
}.

Lemma tried_nil t t' :
  frame trial_con trial_nic t t' -> active_on_trial_connections t' = active_on_trial_connections t -> tried t t' [].
Proof.
  intros F E. split; try done; try apply NoDup_nil_2.
  - intros p Hp. by apply not_elem_of_nil in Hp.
  - rewrite E. cbn. f_equal. lia.
Qed.

Lemma frame_client t t' p : frame trial_con trial_nic t t' ->
  con_client_nic (conp t' p) = con_client_nic (conp t p) /\ con_server_nic (conp t' p) = con_server_nic (conp t p).
Proof. intros F. destruct (fr_cons _ _ _ _ F p) as [[? []] _]. done. Qed.

Lemma frame_on_trial t t' p : frame trial_con trial_nic t t' ->
  (nic_state (client_nic t p) = NIC_ON_TRIAL -> nic_state (client_nic t' p) = NIC_ON_TRIAL)
  /\ (nic_state (server_nic t p) = NIC_ON_TRIAL -> nic_state (server_nic t' p) = NIC_ON_TRIAL).
Proof.
  intros F. destruct (frame_client _ _ p F) as [EC ES]. unfold client_nic, server_nic. rewrite EC, ES.
  split; apply (fr_nics _ _ _ _ F).
Qed.

(** A frame before a batch of trials. *)
Lemma tried_frame t t1 t' out :
  frame trial_con trial_nic t t1 -> active_on_trial_connections t1 = active_on_trial_connections t ->
  tried t1 t' out -> tried t t' out.
Proof.
  intros F E [F1 HO HC HS HN].
  assert (EC : forall p, con_client_nic (conp t1 p) = con_client_nic (conp t p)) by (intros; by apply frame_client).
  assert (ES : forall p, con_server_nic (conp t1 p) = con_server_nic (conp t p)) by (intros; by apply frame_client).
  split; [by etransitivity| | | |by rewrite HN, E].
  - intros p Hp. destruct (HO p Hp) as (H1&H2&H3&H4&H5). destruct (frame_on_trial _ _ p F) as [T1 T2].
    rewrite (fr_session _ _ _ _ F) in H1. destruct (fr_cons _ _ _ _ F p) as (_&_&P1&P2).
    tauto.
  - rewrite (map_ext _ _ (fun q => eq_sym (EC q))). exact HC.
  - rewrite (map_ext _ _ (fun q => eq_sym (ES q))). exact HS.
Qed.

Lemma tried_cons p a t t' out :
  wf t -> may_try t p -> tried (put_on_trial p a t) t' out -> tried t t' (p :: out).
Proof.
  intros W HM HT. destruct (put_on_trial_spec p a t W HM) as (F & HS & HC & HV & _ & HN).
  set (t1 := put_on_trial p a t) in *.
  assert (EC : forall q, con_client_nic (conp t1 q) = con_client_nic (conp t q)) by (intros; by apply frame_client).
  assert (ES : forall q, con_server_nic (conp t1 q) = con_server_nic (conp t q)) by (intros; by apply frame_client).
  pose proof HT as [F1 HO TC TS TN]. split.
  - by etransitivity.
  - intros q Hq. apply elem_of_cons in Hq as [->|Hq].
    + destruct HM as (M1&M2&M3&M4), (frame_on_trial _ _ p F1) as [T1 T2].
      destruct (fr_cons _ _ _ _ F1 p) as (_&I1&_). split_and!; auto.
    + destruct (HO q Hq) as (H1&H2&H3&H4&H5). destruct (frame_on_trial _ _ q F) as [T1 T2].
      rewrite (fr_session _ _ _ _ F) in H1. destruct (fr_cons _ _ _ _ F q) as (_&_&P1&P2).
      tauto.
  - apply NoDup_cons_2; [|rewrite (map_ext _ _ (fun q => eq_sym (EC q))); exact TC].
    intros (q & E & Hq%list_elem_of_In)%list_elem_of_In%in_map_iff. destruct (HO q Hq) as (_&_&H&_).
    apply H. unfold client_nic in *. rewrite EC, E, <- EC. exact HC.
  - apply NoDup_cons_2; [|rewrite (map_ext _ _ (fun q => eq_sym (ES q))); exact TS].
    intros (q & E & Hq%list_elem_of_In)%list_elem_of_In%in_map_iff. destruct (HO q Hq) as (_&_&_&H&_).
    apply H. unfold server_nic in *. rewrite ES, E, <- ES. exact HV.
  - rewrite TN, HN, u32_add_l. f_equal. cbn [length]. lia.
Qed.

Lemma count_pos f l p : p ∈ l -> f p = true -> 0 < count f l.
Proof.
  intros Hp Hf. induction l as [|q l IH]; [by apply not_elem_of_nil in Hp|]. rewrite count_cons.
  pose proof (count_nonneg f l). apply elem_of_cons in Hp as [->|Hp]; [rewrite Hf; lia|].
  specialize (IH Hp). destruct (f q); lia.
Qed.

(** How many rounds may still convert an inactive channel: one, if there is
    no active channel. *)
Definition conversions (t : table) : Z :=
  if 0 <? count (channel FUNC_ACTIVE t) (session_con_list t) then 0 else 1.

Lemma conversions_stats t t' : frame stats_con eq t t' -> conversions t' = conversions t.
Proof.
  intros F. unfold conversions. rewrite (fr_session _ _ _ _ F).
  rewrite (count_ext _ (channel FUNC_ACTIVE t)); [done|]. intros; by apply channel_frame.
Qed.

Lemma conversions_trial p a t : wf t -> may_try t p -> conversions (put_on_trial p a t) = conversions t.
Proof.
  intros W HM. destruct (put_on_trial_spec p a t W HM) as (F & HS & _ & _ & HK & _).
  unfold conversions. rewrite (fr_session _ _ _ _ F).
  rewrite (count_ext _ (channel FUNC_ACTIVE t)); [done|]. intros q _.
  destruct (decide (q = p)) as [->|]; [|by apply channel_ext, HK].
  unfold channel, is_state. rewrite HS. destruct HM as (_ & -> & _). done.
Qed.

Lemma conversions_done p s t :
  wf t -> p ∈ session_con_list t -> channel FUNC_INACTIVE t p = true ->
  conversions (emit s (upd_con (set_active FUNC_ACTIVE) p t)) = 0.
Proof.
  intros W Hp HC. unfold conversions. set (t' := emit s _).
  assert (0 < count (channel FUNC_ACTIVE t') (session_con_list t')) as H%Z.ltb_lt; [|by rewrite H].
  apply (count_pos _ _ p Hp). unfold channel, is_state, is_active in *.
  change (conp t' p) with (conp (upd_con (set_active FUNC_ACTIVE) p t) p). rewrite conp_upd_eq by (by apply W).
  rewrite andb_true_iff in *. split; [apply HC|]. by apply bool_decide_eq_true.
Qed.

Lemma lost_actives_conversions t r :
  active_cnt r = count (channel FUNC_ACTIVE t) (session_con_list t) -> active_cnt r = 0 -> conversions t = 1.
Proof. intros E1 E2. unfold conversions. rewrite <- E1, E2. done. Qed.

(** Enough fuel: one round per entry of the vector, one for a conversion and
    one to stop. *)
Lemma trial_loop_spec fuel m added t :
  wf t -> 0 <= m -> m + conversions t < Z.of_nat fuel ->
  exists t' out, trial_loop fuel m added t = Some (t', out) /\ tried t t' out /\ Z.of_nat (length out) <= m.
Proof.
  revert m added t. induction fuel as [|fuel IH]; intros m added t W Hm Hf.
  { unfold conversions in Hf. destruct (_ <? _); lia. }
  cbn [trial_loop]. destruct (Z.eqb_spec m 0).
  { exists t, []. split_and!; [done|by apply tried_nil|cbn; lia]. }
  pose proof (stats_spec t W) as HS. pose proof (stats_trials t) as HT.
  destruct (smb2_mc_count_connection_stats t) as [t1 r]. cbn in HT. destruct HS as (F & HC & EA & _).
  pose proof (frame_stats_trial _ _ F) as FT. pose proof (wf_trial _ _ FT W) as W1.
  rewrite <- (conversions_stats _ _ F) in Hf.
  assert (HN : tried t t1 []) by (by apply tried_nil).
  destruct (lost_actives t1 r) as [[p i]|] eqn:EL.
  - destruct (lost_actives_some _ _ _ _ HC EL) as (E0 & Hp & HI).
    set (t2 := emit _ _).
    assert (F2 : frame trial_con trial_nic t1 t2)
      by (etransitivity; [apply frame_trial_active|apply frame_emit; apply _]).
    destruct (IH m added t2) as (t' & out & E & HR & HL); [by eapply wf_trial|done| |].
    { unfold t2. rewrite conversions_done by done. rewrite (conversions_stats _ _ F) in Hf.
      rewrite (lost_actives_conversions t r) in Hf by done. lia. }
    exists t', out. split_and!; [done| |done]. eapply (tried_frame t t2); [|exact HT|exact HR].
    by etransitivity.
  - destruct (_ && _ && _); [exists t1, []; split_and!; [done|done|cbn; lia]|].
    destruct (con_to_add t1 r added) as [[p a]|] eqn:EC; [|exists t1, []; split_and!; [done|done|cbn; lia]].
    pose proof (con_to_add_may_try _ _ _ _ _ HC EC) as HM.
    destruct (put_on_trial_spec p a t1 W1 HM) as (F2 & _).
    destruct (IH (m - 1) (match a with FUNC_ACTIVE => added | _ => true end) (put_on_trial p a t1))
      as (t' & out & E & HR & HL); [by eapply wf_trial|lia|rewrite conversions_trial by done; lia|].
    rewrite E. exists t', (p :: out). split_and!; [done| |cbn [length]; lia].
    eapply tried_frame; [exact FT|done|]. by eapply tried_cons.
Qed.

(** Asking for new connections to try ends after at most two rounds more
    than the caller's vector has entries (the [continue] that turns an inactive
    channel into an active one is taken at most once).  It returns at most
    [max_out_len] connections; each was a potential or surplus pair none of
    whose NICs was on trial, and is in trial afterwards with both NICs on trial;
    no client NIC and no server NIC is used twice; the counter of open trials
    grows by their number; and the table stays well formed. *)
Theorem new_trials_use_distinct_nics fuel m t :
  wf t -> 0 <= m -> m + 1 < Z.of_nat fuel ->
  exists t' out, smb2_mc_ask_for_new_connection_trial fuel m t = Some (t', out)
    /\ wf t' /\ Z.of_nat (length out) <= m
    /\ (forall p, p ∈ out ->
          p ∈ session_con_list t /\ (state (conp t p) = STATE_POTENTIAL \/ state (conp t p) = STATE_SURPLUS)
          /\ nic_state (client_nic t p) <> NIC_ON_TRIAL /\ nic_state (server_nic t p) <> NIC_ON_TRIAL
          /\ state (conp t' p) = STATE_IN_TRIAL
          /\ nic_state (client_nic t' p) = NIC_ON_TRIAL /\ nic_state (server_nic t' p) = NIC_ON_TRIAL)
    /\ NoDup (map (fun p => con_client_nic (conp t p)) out)
    /\ NoDup (map (fun p => con_server_nic (conp t p)) out)
    /\ u32 (active_on_trial_connections t') = u32 (active_on_trial_connections t + Z.of_nat (length out)).
Proof.
  intros W Hm Hf.
  assert (exists t' out, smb2_mc_ask_for_new_connection_trial fuel m t = Some (t', out)
            /\ tried t t' out /\ Z.of_nat (length out) <= m) as (t' & out & E & [] & HL).
  { unfold smb2_mc_ask_for_new_connection_trial.
    destruct (negb _); [|destruct (_ <? _)]; [exists t, []; split_and!; [done|by apply tried_nil|cbn; lia] ..|].
    apply trial_loop_spec; [done|done|]. unfold conversions. destruct (_ <? _); lia. }
  exists t', out. split_and!; try done. by eapply wf_trial.
Qed.

End Trial.

#[local] Existing Instances demo_stale_con demo_stale_nic.

Lemma demo_idle_wf : wf demo_idle.
Proof. apply wf_of_check. vm_compute. reflexivity. Qed.

Lemma new_trials_use_distinct_nics_witness :
  exists t' out, smb2_mc_ask_for_new_connection_trial 18 16 demo_idle = Some (t', out)
    /\ out = [10; 13]%positive /\ wf t'.
Proof.
  destruct (new_trials_use_distinct_nics 18 16 demo_idle demo_idle_wf ltac:(lia) ltac:(lia))
    as (t' & out & E & W & _).
  exists t', out. split; [exact E|]. split; [|exact W].
  assert (E2 : option_map snd (smb2_mc_ask_for_new_connection_trial 18 16 demo_idle) = Some [10; 13]%positive)
    by (vm_compute; reflexivity).
  rewrite E in E2. cbn in E2. congruence.
Defined.
