(* ===== verification/McTable.v ===== *)
(** * Maintaining the connection table

    The table of pairs is complete, a new connection takes its NICs, and the
    invariant holds in every table the operations reach. *)

From S2P Require Import Prelude Mc McFacts McExcess McTrial.
From stdpp Require Import gmap.
Import Errno.
Local Open Scope Z_scope.

Section Maintain.
Context {stale_con : Inhabited con} {stale_nic : Inhabited nic}.

(** ** The pairs of NICs *)

Lemma find_con_spec t cn sn :
  match find_con_by_nics t cn sn with
  | Some p => p ∈ session_con_list t /\ con_client_nic (conp t p) = cn /\ con_server_nic (conp t p) = sn
  | None => forall p, p ∈ session_con_list t -> con_client_nic (conp t p) = cn -> con_server_nic (conp t p) <> sn
  end.
Proof.
  unfold find_con_by_nics. destruct (List.find _ _) as [p|] eqn:E.
  - apply find_some in E as [H1 H2]. rewrite andb_true_iff, !Pos.eqb_eq in H2. by rewrite list_elem_of_In.
  - intros p Hp H1 H2. rewrite list_elem_of_In in Hp. eapply find_none in E; [|exact Hp]. cbn in E.
    rewrite H1, H2, !Pos.eqb_refl in E. done.
Qed.

Definition new_ptr (t : table) : ptr := fresh (dom (con_heap t)).

Lemma new_ptr_none t : con_heap t !! new_ptr t = None.
Proof. apply (not_elem_of_dom (D := gset ptr)). unfold new_ptr. apply is_fresh. Qed.

Lemma conp_new t cn sn q :
  conp (new_con t cn sn) q =
  if bool_decide (q = new_ptr t) then mk_con (new_con_state t cn sn) FUNC_ACTIVE 0 None cn sn else conp t q.
Proof.
  unfold new_con, conp, new_ptr. cbn. case_bool_decide as E; [subst q|].
  - by rewrite lookup_total_insert_eq.
  - by rewrite lookup_total_insert_ne.
Qed.

Lemma conp_new_old t cn sn q : is_Some (con_heap t !! q) -> conp (new_con t cn sn) q = conp t q.
Proof.
  intros [c E]. rewrite conp_new. case_bool_decide as H; [|done]. subst q. by rewrite new_ptr_none in E.
Qed.

Lemma nicp_new t cn sn n :
  is_Some (nic_heap t !! cn) ->
  nicp (new_con t cn sn) n = if bool_decide (n = cn) then add_possible (new_ptr t) (nicp t n) else nicp t n.
Proof.
  intros H. pose proof (nicp_upd (add_possible (new_ptr t)) cn n t H) as E.
  change (nicp (new_con t cn sn) n) with (nicp (upd_nic (add_possible (new_ptr t)) cn t) n).
  rewrite E. case_bool_decide; by subst.
Qed.

(** A new pair keeps the invariant. *)
Lemma new_con_wf t cn sn :
  wf t -> cn ∈ client_nic_info_list t -> sn ∈ server_nic_info_list t ->
  find_con_by_nics t cn sn = None -> wf (new_con t cn sn).
Proof.
  intros W Hc Hs HF. pose proof (find_con_spec t cn sn) as HN. rewrite HF in HN.
  assert (HP : new_ptr t ∉ session_con_list t).
  { intros H. apply (wf_dom t W) in H as [c H]. by rewrite new_ptr_none in H. }
  assert (EO : forall p, p ∈ session_con_list t -> conp (new_con t cn sn) p = conp t p)
    by (intros; by apply conp_new_old, W).
  assert (EN : conp (new_con t cn sn) (new_ptr t) = mk_con (new_con_state t cn sn) FUNC_ACTIVE 0 None cn sn)
    by (rewrite conp_new; by rewrite bool_decide_true).
  assert (EL : linked (mk_con (new_con_state t cn sn) FUNC_ACTIVE 0 None cn sn) = false)
    by (unfold linked, new_con_state; cbn; by repeat case_match).
  assert (ES : forall p, p ∈ session_con_list (new_con t cn sn) <-> p ∈ session_con_list t \/ p = new_ptr t).
  { intros p. cbn. by rewrite elem_of_app, list_elem_of_singleton. }
  split.
  - cbn. apply list.NoDup_app. split_and!; [apply W| |apply NoDup_singleton].
    intros p Hp. rewrite list_elem_of_singleton. by intros ->.
  - apply W.
  - intros p [Hp| ->]%ES; cbn; [|by rewrite lookup_insert_eq].
    rewrite lookup_insert_ne; [by apply W|]. by intros <-.
  - intros p [Hp| ->]%ES; [rewrite EO by done; by apply W|by rewrite EN].
  - intros p [Hp| ->]%ES; [rewrite EO by done; by apply W|by rewrite EN].
  - intros p q [Hp| ->]%ES [Hq| ->]%ES; rewrite ?EN, ?EO by done; cbn; try done.
    + by apply W.
    + intros H1 H2. by destruct (HN p).
    + intros H1 H2. by destruct (HN q).
  - intros n Hn. cbn. apply lookup_alter_is_Some, W. exact Hn.
  - intros p. rewrite ES. cbn. rewrite (wf_succ t W). split.
    + intros [H1 H2]. rewrite EO by done. auto.
    + intros [[H| ->] H2]; [rewrite EO in H2 by done; done|]. rewrite EN, EL in H2. done.
  - intros n p Hn. rewrite nicp_new by (apply W; auto). rewrite ES.
    destruct (decide (p = new_ptr t)) as [->|Hpn].
    + rewrite EN. cbn. case_bool_decide; subst; cbn.
      * rewrite elem_of_app, list_elem_of_singleton. tauto.
      * rewrite (wf_poss t W) by done. intuition congruence.
    + assert (EE : conp (new_con t cn sn) p = conp t p) by (rewrite conp_new; by rewrite bool_decide_false).
      rewrite EE. case_bool_decide; cbn; rewrite ?elem_of_app, ?list_elem_of_singleton, (wf_poss t W) by done; tauto.
  - intros n Hn. rewrite nicp_new by (apply W; auto). case_bool_decide; [|by apply W]. cbn.
    apply list.NoDup_app. split_and!; [by apply W| |apply NoDup_singleton].
    intros p Hp. apply (wf_poss t W) in Hp as [Hp _]; [|exact Hn]. rewrite list_elem_of_singleton. by intros ->.
Qed.

(** The table has grown: new pairs at the end, and some surplus connections
    are potential again. *)
Record grows (t t' : table) : Prop := {
  gr_session : exists k, session_con_list t' = session_con_list t ++ k;
  gr_clients : client_nic_info_list t' = client_nic_info_list t;
  gr_servers : server_nic_info_list t' = server_nic_info_list t;
  gr_succ : successful_con_list t' = successful_con_list t;
  gr_index : forall n, nic_index (nicp t' n) = nic_index (nicp t n);
  gr_cons : forall p, p ∈ session_con_list t -> conp t' p = conp t p \/
    (state (conp t p) = STATE_SURPLUS /\ conp t' p = set_state STATE_POTENTIAL (conp t p))
}.

#[export] Instance grows_pre : PreOrder grows.
Proof.
  split.
  - intros t. split; try done; [exists []; by rewrite app_nil_r|by left].
  - intros a b c [[k1 S1] C1 V1 U1 I1 P1] [[k2 S2] C2 V2 U2 I2 P2]. split; try congruence.
    + exists (k1 ++ k2). by rewrite S2, S1, app_assoc.
    + intros p Hp. destruct (P2 p) as [->|[E2 ->]]; [rewrite S1; by apply elem_of_app; left|by auto|].
      destruct (P1 p Hp) as [E1|[E1 E1']]; [rewrite E1 in *; auto|]. by rewrite E1' in E2.
Qed.

Definition reopen_con (c c' : con) : Prop :=
  c' = c \/ (state c = STATE_SURPLUS /\ c' = set_state STATE_POTENTIAL c).

#[export] Instance reopen_con_refl : Reflexive reopen_con.
Proof. by left. Qed.

Lemma reopen_same_links c c' : reopen_con c c' -> same_links c c'.
Proof. intros [->|[H ->]]; [done|]. unfold same_links, linked. by rewrite H. Qed.

Lemma grows_frame t t' : frame reopen_con eq t t' -> grows t t'.
Proof.
  intros F. split; try apply F; [exists []; rewrite app_nil_r; apply F| |].
  - intros n. by rewrite (fr_nics _ _ _ _ F n).
  - intros p _. apply (fr_cons _ _ _ _ F).
Qed.

Lemma update_pair_spec t b cn sn :
  wf t -> cn ∈ client_nic_info_list t -> sn ∈ server_nic_info_list t ->
  let '(e, t', b') := update_pair t b cn sn in
  wf t' /\ grows t t' /\ (e = 0 \/ (e = ENOMEM /\ b = O)) /\ (b <= S b')%nat
  /\ (e = 0 -> exists p, p ∈ session_con_list t' /\ con_client_nic (conp t' p) = cn /\ con_server_nic (conp t' p) = sn).
Proof.
  intros W Hc Hs. unfold update_pair. pose proof (find_con_spec t cn sn) as HF.
  destruct (find_con_by_nics t cn sn) as [p|] eqn:EF.
  - destruct HF as (Hp & E1 & E2). destruct (_ && _ && _) eqn:ES.
    + assert (F : frame reopen_con eq t (upd_con (set_state STATE_POTENTIAL) p t)).
      { apply frame_upd_con; [apply _ ..|]. right. split; [|done].
        apply andb_true_iff in ES as [_ ES]. unfold is_state in ES. by rewrite bool_decide_eq_true in ES. }
      split_and!; [eapply wf_frame_eq; [apply reopen_same_links|exact F|exact W]|by apply grows_frame|by left|lia|].
      intros _. exists p. by rewrite conp_upd_eq by (by apply W).
    + split_and!; [done|reflexivity|by left|lia|]. intros _. by exists p.
  - destruct b as [|b]; [split_and!; [done|reflexivity|by right|lia|done]|].
    pose proof (new_con_wf t cn sn W Hc Hs EF) as W'.
    split_and!; [done| |by left|lia|].
    + split; try done; [by exists [new_ptr t]| |intros q Hq; left; by apply conp_new_old, W].
      intros n. rewrite nicp_new by (apply W; auto). by case_bool_decide.
    + intros _. exists (new_ptr t). rewrite conp_new, bool_decide_true by done.
      split; [|done]. cbn. apply elem_of_app. right. by apply list_elem_of_singleton.
Qed.

Lemma grows_keeps t t' p : wf t -> grows t t' -> p ∈ session_con_list t ->
  p ∈ session_con_list t' /\ con_client_nic (conp t' p) = con_client_nic (conp t p)
  /\ con_server_nic (conp t' p) = con_server_nic (conp t p) /\ linked (conp t' p) = linked (conp t p).
Proof.
  intros W [[k E] _ _ _ _ H] Hp. split; [rewrite E; by apply elem_of_app; left|].
  destruct (reopen_same_links (conp t p) (conp t' p)) as (?&?&?); [by apply H|done].
Qed.

Lemma update_pairs_spec l t b :
  wf t -> (forall cn sn, (cn, sn) ∈ l -> cn ∈ client_nic_info_list t /\ sn ∈ server_nic_info_list t) ->
  let '(e, t', _) := update_pairs t b l in
  wf t' /\ grows t t' /\ (e = 0 \/ (e = ENOMEM /\ (b < length l)%nat))
  /\ (e = 0 -> forall cn sn, (cn, sn) ∈ l -> exists p, p ∈ session_con_list t'
        /\ con_client_nic (conp t' p) = cn /\ con_server_nic (conp t' p) = sn).
Proof.
  revert t b. induction l as [|[cn sn] l IH]; intros t b W HL; cbn [update_pairs].
  { split_and!; [done|reflexivity|by left|]. intros _ cn sn H. by apply not_elem_of_nil in H. }
  destruct (HL cn sn (list_elem_of_here _ _)) as [Hc Hs].
  pose proof (update_pair_spec t b cn sn W Hc Hs) as H1. destruct (update_pair t b cn sn) as [[e1 t1] b1].
  destruct H1 as (W1 & G1 & E1 & B1 & P1). destruct (Z.eqb_spec e1 0) as [->|Hne].
  - specialize (IH t1 b1 W1). destruct (update_pairs t1 b1 l) as [[e t'] b']. destruct IH as (W' & G & E & P).
    { intros c s H. rewrite (gr_clients _ _ G1), (gr_servers _ _ G1). by apply HL, list_elem_of_further. }
    split_and!; [done|by etransitivity|cbn [length]; destruct E as [|[]]; [by left|right; split; [done|lia]]|].
    intros -> c s [E0|H]%elem_of_cons; [|by apply P]. injection E0 as -> ->.
    destruct (P1 eq_refl) as (p & Hp & Ec & Es). exists p.
    destruct (grows_keeps t1 t' p W1 G Hp) as (?&->&->&_). done.
  - split_and!; [done|done| |done]. destruct E1 as [|[-> ->]]; [done|]. right. cbn [length]. split; [done|lia].
Qed.

Lemma update_con_list_spec b t :
  wf t ->
  let '(e, t') := smb2_mc_update_con_list b t in
  wf t' /\ grows t t'
  /\ (e = 0 \/ (e = ENOMEM /\ (b < length (client_nic_info_list t) * length (server_nic_info_list t))%nat))
  /\ (e = 0 -> forall cn sn, cn ∈ client_nic_info_list t -> sn ∈ server_nic_info_list t ->
        exists p, p ∈ session_con_list t' /\ con_client_nic (conp t' p) = cn /\ con_server_nic (conp t' p) = sn).
Proof.
  intros W. unfold smb2_mc_update_con_list.
  pose proof (update_pairs_spec (list_prod (client_nic_info_list t) (server_nic_info_list t)) t b W) as H.
  destruct (update_pairs _ _ _) as [[e t'] b']. rewrite length_prod in H. destruct H as (W' & G & E & P).
  { intros cn sn [? ?]%list_elem_of_In%in_prod_iff. by rewrite !list_elem_of_In. }
  split_and!; try done. intros He cn sn Hc Hs. apply P; [done|].
  apply list_elem_of_In, in_prod_iff. by rewrite <- !list_elem_of_In.
Qed.

Lemma NoDup_list_prod {A B} (l : list A) (k : list B) : NoDup l -> NoDup k -> NoDup (list_prod l k).
Proof.
  intros Hl Hk. induction Hl as [|a l Ha Hl IH]; cbn; [apply NoDup_nil_2|].
  apply list.NoDup_app. split_and!; [|by intros [x y] (z & [= -> ->] & _)%list_elem_of_In%in_map_iff
    [H _]%list_elem_of_In%in_prod_iff; apply Ha, list_elem_of_In|done].
  by apply (list.NoDup_fmap_2 (pair a)).
Qed.

(** Updating the connection table makes it the full product of the
    client's and the server's NICs, as the comment on the table says: when it
    succeeds every pair has exactly one connection and the table has
    [client_nic_count * server_nic_count] entries.  It only fails with [ENOMEM],
    and not while an allocation per pair succeeds; existing connections keep
    their place, NICs and thread, and the only state that changes is surplus to
    potential.  The invariant is kept even when it fails. *)
Theorem con_list_is_product b t :
  wf t -> NoDup (client_nic_info_list t) -> NoDup (server_nic_info_list t) ->
  let '(e, t') := smb2_mc_update_con_list b t in
  wf t' /\ grows t t'
  /\ (e = 0 \/ (e = ENOMEM /\ (b < length (client_nic_info_list t) * length (server_nic_info_list t))%nat))
  /\ (e = 0 ->
       map (fun p => (con_client_nic (conp t' p), con_server_nic (conp t' p))) (session_con_list t')
         ≡ₚ list_prod (client_nic_info_list t) (server_nic_info_list t)).
Proof.
  intros W NC NS. pose proof (update_con_list_spec b t W) as H.
  destruct (smb2_mc_update_con_list b t) as [e t']. destruct H as (W' & G & E & P).
  split_and!; try done. intros He. apply NoDup_Permutation.
  - apply NoDup_ListNoDup, NoDup_map_NoDup_ForallPairs, NoDup_ListNoDup, W'.
    intros p q Hp Hq [= E1 E2]. apply (wf_pair t' W'); by rewrite ?list_elem_of_In.
  - by apply NoDup_list_prod.
  - intros [cn sn]. rewrite !list_elem_of_In, in_map_iff, in_prod_iff, <- !list_elem_of_In. split.
    + intros (p & [= <- <-] & Hp%list_elem_of_In). rewrite <- (gr_clients _ _ G), <- (gr_servers _ _ G).
      split; [by apply (wf_client t' W')|by apply (wf_server t' W')].
    + intros [Hc Hs]. destruct (P He cn sn Hc Hs) as (p & Hp & <- & <-). exists p.
      by rewrite <- list_elem_of_In.
Qed.

(** ** A new connection *)

Definition demote (c : con) : con :=
  if bool_decide (state c = STATE_POTENTIAL) then set_state STATE_SURPLUS c else c.

Definition demote_con (c c' : con) : Prop := c' = c \/ c' = demote c.

Lemma demote_idem c : demote (demote c) = demote c.
Proof. unfold demote at 2 3. case_bool_decide; [done|]. unfold demote. by rewrite bool_decide_false. Qed.

#[export] Instance demote_con_pre : PreOrder demote_con.
Proof. split; [by left|]. intros a b c [->| ->] [->| ->]; unfold demote_con; rewrite ?demote_idem; auto. Qed.

Lemma demote_same_links c c' : demote_con c c' -> same_links c c'.
Proof.
  intros [->| ->]; [done|]. unfold demote, same_links, linked. case_bool_decide as E; [|done]. cbn. by rewrite E.
Qed.

Definition demote_at (q : ptr) (t : table) : table :=
  if is_state STATE_POTENTIAL t q then upd_con (set_state STATE_SURPLUS) q t else t.

Lemma demote_at_spec q t :
  is_Some (con_heap t !! q) ->
  frame demote_con eq t (demote_at q t)
  /\ forall r, conp (demote_at q t) r = if bool_decide (r = q) then demote (conp t q) else conp t r.
Proof.
  intros HD. unfold demote_at, demote, is_state. case_bool_decide as E.
  - split; [apply frame_upd_con; [apply _ ..|]; right; unfold demote; by rewrite bool_decide_true|].
    intros r. by rewrite conp_upd.
  - split; [reflexivity|]. intros r. case_bool_decide; by subst.
Qed.

(** Demoting the connections of a list that a predicate selects. *)
Definition demote_all (g : ptr -> bool) (l : list ptr) (t : table) : table :=
  fold_left (fun t q => if g q then demote_at q t else t) l t.

Lemma demote_all_spec g l t :
  (forall q, q ∈ l -> is_Some (con_heap t !! q)) ->
  frame demote_con eq t (demote_all g l t)
  /\ forall r, conp (demote_all g l t) r = if bool_decide (r ∈ l) && g r then demote (conp t r) else conp t r.
Proof.
  unfold demote_all. revert t. induction l as [|q l IH]; intros t HD; cbn [fold_left].
  { split; [reflexivity|]. intros r. rewrite bool_decide_false; [done|apply not_elem_of_nil]. }
  destruct (demote_at_spec q t (HD q (list_elem_of_here _ _))) as [F1 E1].
  set (t1 := if g q then demote_at q t else t).
  assert (F : frame demote_con eq t t1) by (unfold t1; destruct (g q); [done|reflexivity]).
  assert (E : forall r, conp t1 r = if bool_decide (r = q) && g r then demote (conp t r) else conp t r).
  { intros r. unfold t1. destruct (g q) eqn:Eg; [rewrite E1|]; case_bool_decide; subst; rewrite ?Eg; done. }
  destruct (IH t1) as [F2 E2].
  { intros r Hr. rewrite (fr_dom _ _ _ _ F). by apply HD, list_elem_of_further. }
  split; [by etransitivity|]. intros r. rewrite E2, E.
  assert (EB : bool_decide (r ∈ q :: l) = bool_decide (r = q) || bool_decide (r ∈ l)).
  { rewrite <- bool_decide_or. apply bool_decide_ext. apply elem_of_cons. }
  rewrite EB. destruct (bool_decide (r = q)), (bool_decide (r ∈ l)), (g r); cbn; by rewrite ?demote_idem.
Qed.

Lemma server_index_frame (P : con -> con -> Prop) (Q : nic -> nic -> Prop) t t' q :
  (forall c c', P c c' -> con_server_nic c' = con_server_nic c) -> (forall n n', Q n n' -> nic_index n' = nic_index n) ->
  frame P Q t t' -> nic_index (server_nic t' q) = nic_index (server_nic t q).
Proof.
  intros HP HQ F. unfold server_nic. rewrite (HP _ _ (fr_cons _ _ _ _ F q)). apply HQ, (fr_nics _ _ _ _ F).
Qed.

Lemma demote_server_index t t' q :
  frame demote_con eq t t' -> nic_index (server_nic t' q) = nic_index (server_nic t q).
Proof.
  apply server_index_frame; [|by intros ?? ->]. intros c c' H. by apply demote_same_links in H as (_&?&_).
Qed.

(** The first loop where no connection has the server NIC. *)
Lemma connect_fold_other si iod l t e :
  (forall q, q ∈ l -> is_Some (con_heap t !! q) /\ nic_index (server_nic t q) <> si) ->
  fold_left (connect_con si iod) l (t, e) = (demote_all (fun _ => true) l t, e).
Proof.
  unfold demote_all. revert t. induction l as [|q l IH]; intros t H; [done|]. cbn [fold_left].
  destruct (H q (list_elem_of_here _ _)) as [HD HN].
  assert (connect_con si iod (t, e) q = (demote_at q t, e)) as ->.
  { unfold connect_con, demote_at. destruct (Z.eqb_spec (nic_index (server_nic t q)) si); [done|]. by case_match. }
  destruct (demote_at_spec q t HD) as [F _]. apply IH. intros r Hr.
  rewrite (demote_server_index _ _ r F), (fr_dom _ _ _ _ F). by apply H, list_elem_of_further.
Qed.

(** The second loop. *)
Lemma surplus_fold t0 si l t :
  (forall q, q ∈ l -> is_Some (con_heap t !! q)) ->
  (forall q, nic_index (server_nic t q) = nic_index (server_nic t0 q)) ->
  fold_left (surplus_con si) l t = demote_all (fun q => nic_index (server_nic t0 q) =? si) l t.
Proof.
  unfold demote_all. revert t. induction l as [|q l IH]; intros t HD HI; [done|]. cbn [fold_left].
  assert (surplus_con si t q = if nic_index (server_nic t0 q) =? si then demote_at q t else t) as ->.
  { unfold surplus_con, demote_at. rewrite HI. by destruct (_ =? _), (is_state STATE_POTENTIAL t q). }
  destruct (demote_at_spec q t (HD q (list_elem_of_here _ _))) as [F _].
  apply IH; intros r; destruct (_ =? _); rewrite ?(demote_server_index _ _ r F), ?(fr_dom _ _ _ _ F); auto;
    intros; by apply HD, list_elem_of_further.
Qed.

(** The connection as it is when it is used. *)
Definition connected_con (t : table) (iod : option ptr) (p : ptr) : con :=
  mk_con STATE_CONNECTED (active_state (conp t p)) (link_speed t p)
    (match iod with Some i => Some i | None => con_iod (conp t p) end)
    (con_client_nic (conp t p)) (con_server_nic (conp t p)).

Record connects (t t' : table) (iod : option ptr) (p : ptr) : Prop := {
  cn_con : conp t' p = connected_con t iod p;
  cn_other : forall q, q <> p -> conp t' q = conp t q;
  cn_nics : forall n, same_nic (nicp t n) (nicp t' n);
  cn_used : nic_state (client_nic t' p) = NIC_USED /\ nic_state (server_nic t' p) = NIC_USED;
  cn_clients : client_nic_info_list t' = client_nic_info_list t;
  cn_servers : server_nic_info_list t' = server_nic_info_list t;
  cn_session : session_con_list t' = session_con_list t;
  cn_succ : successful_con_list t' = successful_con_list t ++ [p];
  cn_wf : wf t'
}.

Lemma wf_link t p :
  wf t -> p ∈ session_con_list t -> linked (conp t p) = false ->
  forall c, con_client_nic c = con_client_nic (conp t p) -> con_server_nic c = con_server_nic (conp t p) ->
  linked c = true ->
  wf (with_lists (upd_con (fun _ => c) p t) (session_con_list t) (successful_con_list t ++ [p])).
Proof.
  intros W Hp HL c Ec Es Hc. pose proof (wf_dom t W p Hp) as HD.
  set (t' := with_lists _ _ _).
  assert (EP : conp t' p = c) by (by apply (conp_upd_eq (fun _ => c))).
  assert (EO : forall q, q <> p -> conp t' q = conp t q) by (intros; by apply (conp_upd_ne (fun _ => c))).
  assert (EC : forall q, con_client_nic (conp t' q) = con_client_nic (conp t q)).
  { intros q. destruct (decide (q = p)) as [->|]; [by rewrite EP|by rewrite EO]. }
  assert (ES : forall q, con_server_nic (conp t' q) = con_server_nic (conp t q)).
  { intros q. destruct (decide (q = p)) as [->|]; [by rewrite EP|by rewrite EO]. }
  assert (HS : p ∉ successful_con_list t).
  { rewrite (wf_succ t W). intros [_ H]. congruence. }
  split; try apply W; cbn [t' session_con_list successful_con_list with_lists con_heap upd_con with_heap].
  - apply list.NoDup_app. split_and!; [apply W| |apply NoDup_singleton].
    intros q Hq. rewrite list_elem_of_singleton. by intros ->.
  - intros q Hq. apply lookup_alter_is_Some. by apply W.
  - intros q Hq. rewrite EC. by apply W.
  - intros q Hq. rewrite ES. by apply W.
  - intros q r Hq Hr. rewrite !EC, !ES. by apply W.
  - intros q. rewrite elem_of_app, list_elem_of_singleton, (wf_succ t W).
    destruct (decide (q = p)) as [->|Hq]; [rewrite EP; tauto|]. rewrite EO by done. tauto.
  - intros n q Hn. rewrite EC. by apply (wf_poss t W).
Qed.

Definition same_ends (c c' : con) : Prop :=
  con_client_nic c' = con_client_nic c /\ con_server_nic c' = con_server_nic c.

#[export] Instance same_ends_pre : PreOrder same_ends.
Proof. split; [done|]. intros ??? [] []. split; congruence. Qed.

Lemma link_speed_frame t t' p : frame same_ends same_nic t t' -> link_speed t' p = link_speed t p.
Proof.
  intros F. destruct (fr_cons _ _ _ _ F p) as [E1 E2]. unfold link_speed, client_nic, server_nic. rewrite E1, E2.
  by destruct (same_nic_fields _ _ (fr_nics _ _ _ _ F (con_client_nic (conp t p)))) as (_&->&_),
     (same_nic_fields _ _ (fr_nics _ _ _ _ F (con_server_nic (conp t p)))) as (_&->&_).
Qed.

Lemma connect_con_spec iod t e p :
  wf t -> p ∈ session_con_list t -> linked (conp t p) = false ->
  exists t', connect_con (nic_index (server_nic t p)) iod (t, e) p = (t', Some p) /\ connects t t' iod p.
Proof.
  intros W Hp HL. unfold connect_con. rewrite Z.eqb_refl. pose proof (wf_dom t W p Hp) as HD.
  eexists. split; [reflexivity|]. set (ti := match iod with Some _ => _ | None => t end).
  set (ts := upd_con (set_state STATE_CONNECTED) p ti). set (tn := set_nics_state NIC_USED p ts).
  set (tr := refresh_speed p tn).
  assert (Fi : frame same_ends same_nic t ti) by (unfold ti; destruct iod; [by apply frame_upd_con; [apply _ ..|]|reflexivity]).
  assert (Fs : frame same_ends same_nic ti ts) by (by apply frame_upd_con; [apply _ ..|]).
  assert (Fn : frame same_ends same_nic ts tn) by (by apply frame_set_nics; try apply _).
  assert (Fr : frame same_ends same_nic tn tr) by (by apply frame_upd_con; [apply _ ..|]).
  assert (F3 : frame same_ends same_nic t tn) by (etransitivity; [exact Fi|]; by etransitivity).
  assert (F : frame same_ends same_nic t tr) by (by etransitivity).
  assert (Dn : is_Some (con_heap tn !! p)) by (by apply (fr_dom _ _ _ _ F3)).
  assert (Di : is_Some (con_heap ti !! p)) by (by apply (fr_dom _ _ _ _ Fi)).
  assert (EP : conp tr p = connected_con t iod p).
  { unfold tr, refresh_speed. rewrite conp_upd_eq, (link_speed_frame _ _ p F3) by done.
    change (conp tn p) with (conp ts p). unfold ts. rewrite conp_upd_eq by done. unfold ti, connected_con.
    destruct iod; [by rewrite conp_upd_eq|done]. }
  assert (EO : forall q, q <> p -> conp tr q = conp t q).
  { intros q Hq. unfold tr, refresh_speed. rewrite conp_upd_ne by done. change (conp tn q) with (conp ts q).
    unfold ts. rewrite conp_upd_ne by done. unfold ti. destruct iod; [by rewrite conp_upd_ne|done]. }
  assert (EL : session_con_list tr = session_con_list t /\ successful_con_list tr = successful_con_list t)
    by (split; apply F). destruct EL as [EL1 EL2].
  destruct (set_nics_state_set NIC_USED p ts) as [NC NS].
  { apply (fr_ndom _ _ _ _ Fi). rewrite (proj1 (fr_cons _ _ _ _ Fs p)), (proj1 (fr_cons _ _ _ _ Fi p)). by apply client_some. }
  { apply (fr_ndom _ _ _ _ Fi). rewrite (proj2 (fr_cons _ _ _ _ Fs p)), (proj2 (fr_cons _ _ _ _ Fi p)). by apply server_some. }
  split; try done; [apply F| |apply F|apply F|change (successful_con_list tr ++ [p] = successful_con_list t ++ [p]); by rewrite EL2|].
  - split; [rewrite <- NC|rewrite <- NS]; unfold client_nic, server_nic; f_equal; f_equal;
      apply (fr_cons _ _ _ _ Fr).
  - eapply wf_frame; [|apply (wf_link t p W Hp HL (connected_con t iod p)); done].
    split; cbn [with_lists client_nic_info_list server_nic_info_list max_channels prefer_wired session_con_list
      successful_con_list con_heap nic_heap]; try apply F; try by rewrite ?EL1, ?EL2.
    + intros q. etransitivity; [apply (fr_dom _ _ _ _ F)|]. symmetry. apply lookup_alter_is_Some.
    + intros q. change (same_links (conp (upd_con (fun _ => connected_con t iod p) p t) q) (conp tr q)).
      destruct (decide (q = p)) as [->|]; [by rewrite conp_upd_eq, EP|by rewrite conp_upd_ne, EO].
Qed.

(** The indices tell the NICs apart. *)
Definition unique_index (t : table) : Prop :=
  (forall m n, m ∈ client_nic_info_list t -> n ∈ client_nic_info_list t ->
     nic_index (nicp t m) = nic_index (nicp t n) -> m = n)
  /\ (forall m n, m ∈ server_nic_info_list t -> n ∈ server_nic_info_list t ->
     nic_index (nicp t m) = nic_index (nicp t n) -> m = n).

Lemma get_nic_spec t l n :
  n ∈ l -> (forall m, m ∈ l -> nic_index (nicp t m) = nic_index (nicp t n) -> m = n) ->
  smb2_mc_get_nic_by_index t l (nic_index (nicp t n)) = Some n.
Proof.
  intros Hn HU. unfold smb2_mc_get_nic_by_index. destruct (List.find _ _) as [m|] eqn:E.
  - apply find_some in E as [Hm E]. apply Z.eqb_eq in E. f_equal. apply HU; [by apply list_elem_of_In|done].
  - rewrite list_elem_of_In in Hn. eapply find_none in E; [|exact Hn]. cbn in E. by rewrite Z.eqb_refl in E.
Qed.

(** What the first loop leaves: [p] connected, the other connections of its
    client NIC demoted. *)
Lemma connect_fold_spec iod t p :
  wf t -> p ∈ session_con_list t -> linked (conp t p) = false -> unique_index t ->
  exists t1 t2 t3 l2, fold_left (connect_con (nic_index (server_nic t p)) iod)
      (possible_connections (client_nic t p)) (t, None) = (t3, Some p)
    /\ frame demote_con eq t t1 /\ conp t1 p = conp t p /\ connects t1 t2 iod p
    /\ t3 = demote_all (fun _ => true) l2 t2 /\ frame demote_con eq t2 t3
    /\ forall q, q <> p -> conp t3 q =
         if bool_decide (q ∈ session_con_list t /\ con_client_nic (conp t q) = con_client_nic (conp t p))
         then demote (conp t q) else conp t q.
Proof.
  intros W Hp HL [_ HU]. set (cn := con_client_nic (conp t p)). set (si := nic_index (server_nic t p)).
  assert (Hcn : cn ∈ client_nic_info_list t) by (by apply W).
  change (client_nic t p) with (nicp t cn).
  assert (HP : forall q, q ∈ possible_connections (nicp t cn) <-> q ∈ session_con_list t /\ con_client_nic (conp t q) = cn)
    by (intros; by apply (wf_poss t W)).
  pose proof (wf_poss_nodup t W cn Hcn) as ND.
  destruct (list_elem_of_split (possible_connections (nicp t cn)) p) as (l1 & l2 & EL); [by apply HP|].
  rewrite EL in *. apply list.NoDup_app in ND as (_ & N1 & N2). apply list.NoDup_cons in N2 as [N2 _].
  assert (H1 : p ∉ l1) by (intros H; by apply (N1 p H), list_elem_of_here).
  assert (HO : forall q, q ∈ l1 \/ q ∈ l2 -> is_Some (con_heap t !! q) /\ nic_index (server_nic t q) <> si).
  { intros q Hq. assert (q ∈ l1 ++ p :: l2) as [Hs Hc]%HP by (rewrite elem_of_app, elem_of_cons; tauto).
    split; [by apply W|]. intros E. apply HU in E; [|by apply W ..]. assert (q = p) as -> by (by apply (wf_pair t W)).
    tauto. }
  rewrite fold_left_app, connect_fold_other by auto.
  set (t1 := demote_all (fun _ => true) l1 t).
  destruct (demote_all_spec (fun _ => true) l1 t) as [F1 E1]; [intros; by apply HO; left|]. fold t1 in F1, E1.
  assert (Ep : conp t1 p = conp t p) by (by rewrite E1, bool_decide_false).
  assert (W1 : wf t1) by (eapply wf_frame_eq; [apply demote_same_links|exact F1|exact W]).
  destruct (connect_con_spec iod t1 None p W1) as (t2 & E2 & C2);
    [by rewrite (fr_session _ _ _ _ F1)|by rewrite Ep|].
  rewrite (demote_server_index _ _ p F1) in E2. fold si in E2. cbn [fold_left]. rewrite E2.
  assert (HD2 : forall q, q ∈ l2 -> is_Some (con_heap t2 !! q) /\ nic_index (server_nic t2 q) <> si).
  { intros q Hq. assert (q <> p) by (by intros ->).
    assert (Hs : q ∈ session_con_list t).
    { apply HP. rewrite elem_of_app, elem_of_cons. tauto. }
    split; [apply (cn_wf _ _ _ _ C2); by rewrite (cn_session _ _ _ _ C2), (fr_session _ _ _ _ F1)|].
    unfold server_nic. rewrite (cn_other _ _ _ _ C2) by done.
    destruct (same_nic_fields _ _ (cn_nics _ _ _ _ C2 (con_server_nic (conp t1 q)))) as [-> _].
    change (nic_index (server_nic t1 q) <> si). rewrite (demote_server_index _ _ q F1). apply HO; auto. }
  rewrite connect_fold_other by done.
  destruct (demote_all_spec (fun _ => true) l2 t2) as [F3 E3]; [intros; by apply HD2|].
  exists t1, t2, (demote_all (fun _ => true) l2 t2), l2. split_and!; try done.
  intros q Hq. rewrite E3, (cn_other _ _ _ _ C2), E1, !andb_true_r by done.
  rewrite (bool_decide_ext (_ /\ _) (q ∈ l1 \/ q ∈ l2)).
  2: { rewrite <- HP, elem_of_app, elem_of_cons. tauto. }
  rewrite bool_decide_or. destruct (bool_decide (q ∈ l1)), (bool_decide (q ∈ l2)); cbn; by rewrite ?demote_idem.
Qed.

Lemma connects_server_index t t' iod p q :
  connects t t' iod p -> nic_index (server_nic t' q) = nic_index (server_nic t q).
Proof.
  intros C. unfold server_nic. assert (con_server_nic (conp t' q) = con_server_nic (conp t q)) as ->.
  { destruct (decide (q = p)) as [->|]; [by rewrite (cn_con _ _ _ _ C)|by rewrite (cn_other _ _ _ _ C)]. }
  by destruct (same_nic_fields _ _ (cn_nics _ _ _ _ C (con_server_nic (conp t q)))).
Qed.

Lemma demote_nics t t' q :
  frame demote_con eq t t' -> client_nic t' q = client_nic t q /\ server_nic t' q = server_nic t q.
Proof.
  intros F. destruct (demote_same_links _ _ (fr_cons _ _ _ _ F q)) as (EC & ES & _).
  unfold client_nic, server_nic. rewrite EC, ES. by rewrite <- !(fr_nics _ _ _ _ F).
Qed.

Lemma demote_link_speed t t' q : frame demote_con eq t t' -> link_speed t' q = link_speed t q.
Proof. intros F. unfold link_speed. by destruct (demote_nics t t' q F) as [-> ->]. Qed.

(** The NICs and their indices are the same. *)
Definition static (t t' : table) : Prop :=
  client_nic_info_list t' = client_nic_info_list t /\ server_nic_info_list t' = server_nic_info_list t
  /\ forall n, nic_index (nicp t' n) = nic_index (nicp t n).

#[export] Instance static_pre : PreOrder static.
Proof. split; [done|]. intros a b c (?&?&H1) (?&?&H2). split_and!; [congruence ..|]. intros n. by rewrite H2. Qed.

Lemma static_frame P (Q : nic -> nic -> Prop) t t' :
  (forall n n', Q n n' -> nic_index n' = nic_index n) -> frame P Q t t' -> static t t'.
Proof. intros HQ F. split_and!; [apply F ..|]. intros n. apply HQ, (fr_nics _ _ _ _ F). Qed.

Lemma static_eq P t t' : frame P eq t t' -> static t t'.
Proof. apply static_frame. by intros ?? ->. Qed.

Lemma static_connects t t' iod p : connects t t' iod p -> static t t'.
Proof. intros C. split_and!; [apply C ..|]. intros n. by apply same_nic_fields, (cn_nics _ _ _ _ C). Qed.

Lemma static_unique t t' : static t t' -> unique_index t -> unique_index t'.
Proof. intros (E1 & E2 & H) [U1 U2]. split; intros m n; rewrite ?E1, ?E2, !H; auto. Qed.

Lemma update_new_connection_spec iod t p :
  wf t -> p ∈ session_con_list t -> linked (conp t p) = false -> unique_index t ->
  exists t',
    smb2_mc_update_new_connection (nic_index (client_nic t p)) (nic_index (server_nic t p)) iod t = (0, t', Some p)
    /\ wf t' /\ static t t' /\ session_con_list t' = session_con_list t
    /\ successful_con_list t' = successful_con_list t ++ [p]
    /\ conp t' p = connected_con t iod p
    /\ nic_state (client_nic t' p) = NIC_USED /\ nic_state (server_nic t' p) = NIC_USED
    /\ forall q, q ∈ session_con_list t -> q <> p ->
         conp t' q = if bool_decide (con_client_nic (conp t q) = con_client_nic (conp t p)
                                     \/ con_server_nic (conp t q) = con_server_nic (conp t p))
                     then demote (conp t q) else conp t q.
Proof.
  intros W Hp HL HU. unfold smb2_mc_update_new_connection.
  destruct (HU) as [UC US]. change (client_nic t p) with (nicp t (con_client_nic (conp t p))).
  rewrite (get_nic_spec t _ (con_client_nic (conp t p)))
    by (try (by apply (wf_client t W)); intros m Hm; by apply UC, (wf_client t W)).
  change (server_nic t p) with (nicp t (con_server_nic (conp t p))) at 1.
  rewrite (get_nic_spec t _ (con_server_nic (conp t p)))
    by (try (by apply (wf_server t W)); intros m Hm; by apply US, (wf_server t W)).
  destruct (connect_fold_spec iod t p W Hp HL HU) as (t1 & t2 & t3 & l2 & E & F1 & Ep & C & _ & F3 & H3).
  unfold client_nic in E. rewrite E.
  assert (W3 : wf t3) by (eapply wf_frame_eq; [apply demote_same_links|exact F3|apply C]).
  assert (ES : session_con_list t3 = session_con_list t)
    by (by rewrite (fr_session _ _ _ _ F3), (cn_session _ _ _ _ C), (fr_session _ _ _ _ F1)).
  rewrite ES, (surplus_fold t).
  2: { intros q Hq. apply (wf_dom t3 W3). by rewrite ES. }
  2: { intros q. by rewrite (demote_server_index _ _ q F3), (connects_server_index _ _ _ _ q C), (demote_server_index _ _ q F1). }
  set (g := fun q => nic_index (server_nic t q) =? nic_index (server_nic t p)).
  destruct (demote_all_spec g (session_con_list t) t3) as [F4 E4].
  { intros q Hq. apply (wf_dom t3 W3). by rewrite ES. }
  set (t4 := demote_all g (session_con_list t) t3) in *.
  assert (F : frame demote_con eq t2 t4) by (by etransitivity).
  assert (EC : conp t2 p = connected_con t iod p).
  { rewrite (cn_con _ _ _ _ C). unfold connected_con. by rewrite Ep, (demote_link_speed _ _ p F1). }
  exists t4. split_and!; [done| | |by rewrite (fr_session _ _ _ _ F4)| | | | |].
  - eapply wf_frame_eq; [apply demote_same_links|exact F4|exact W3].
  - etransitivity; [eapply static_eq, F1|]. etransitivity; [eapply static_connects, C|eapply static_eq, F].
  - by rewrite (fr_succ _ _ _ _ F), (cn_succ _ _ _ _ C), (fr_succ _ _ _ _ F1).
  - destruct (fr_cons _ _ _ _ F p) as [->| ->]; rewrite EC; done.
  - rewrite (proj1 (demote_nics _ _ p F)). apply C.
  - rewrite (proj2 (demote_nics _ _ p F)). apply C.
  - intros q Hq Hne. rewrite E4, H3, bool_decide_or by done.
    rewrite (bool_decide_true (q ∈ session_con_list t)) by done.
    rewrite (bool_decide_ext (_ /\ _) (con_client_nic (conp t q) = con_client_nic (conp t p))) by tauto.
    assert (g q = bool_decide (con_server_nic (conp t q) = con_server_nic (conp t p))) as ->.
    { unfold g. case_bool_decide as EE; [unfold server_nic; rewrite EE; apply Z.eqb_refl|]. apply Z.eqb_neq.
      intros EI. by apply EE, US; [apply (wf_server t W)|apply (wf_server t W)|]. }
    destruct (bool_decide _), (bool_decide _); cbn; by rewrite ?demote_idem.
Qed.

(** A new connection takes its two NICs.  The pair's connection, and no
    other, becomes connected at the speed of its slower NIC and is appended to
    the successful connections; both NICs are in use; and every potential
    connection that shares one of the two NICs becomes surplus while all other
    connections are left as they are.  The table stays well formed. *)
Theorem new_connection_takes_nics iod t p :
  wf t -> p ∈ session_con_list t -> linked (conp t p) = false -> unique_index t ->
  exists t',
    smb2_mc_update_new_connection (nic_index (client_nic t p)) (nic_index (server_nic t p)) iod t = (0, t', Some p)
    /\ wf t' /\ session_con_list t' = session_con_list t
    /\ successful_con_list t' = successful_con_list t ++ [p]
    /\ conp t' p = connected_con t iod p
    /\ nic_state (client_nic t' p) = NIC_USED /\ nic_state (server_nic t' p) = NIC_USED
    /\ forall q, q ∈ session_con_list t -> q <> p ->
         conp t' q = if bool_decide (con_client_nic (conp t q) = con_client_nic (conp t p)
                                     \/ con_server_nic (conp t q) = con_server_nic (conp t p))
                     then demote (conp t q) else conp t q.
Proof.
  intros W Hp HL HU. destruct (update_new_connection_spec iod t p W Hp HL HU) as (t' & E & W' & _ & H).
  exists t'. by split_and!; try apply H.
Qed.

End Maintain.

#[local] Existing Instances demo_stale_con demo_stale_nic.

Lemma con_list_is_product_witness :
  let '(e, t') := smb2_mc_update_con_list 4 demo_fresh in
  e = 0 /\ map (fun p => (con_client_nic (conp t' p), con_server_nic (conp t' p))) (session_con_list t')
           ≡ₚ [(1, 3); (1, 4); (2, 3); (2, 4)]%positive.
Proof.
  assert (W : wf demo_fresh) by (apply wf_of_check; vm_compute; reflexivity).
  assert (NC : NoDup (client_nic_info_list demo_fresh)) by (apply (bool_decide_eq_true_1 _); vm_compute; reflexivity).
  assert (NS : NoDup (server_nic_info_list demo_fresh)) by (apply (bool_decide_eq_true_1 _); vm_compute; reflexivity).
  pose proof (con_list_is_product 4 demo_fresh W NC NS) as H.
  assert (E : (smb2_mc_update_con_list 4 demo_fresh).1 = 0) by (vm_compute; reflexivity).
  destruct (smb2_mc_update_con_list 4 demo_fresh) as [e t']. cbn in E.
  destruct H as (_ & _ & _ & H). split; [exact E|]. exact (H E).
Defined.

Lemma new_connection_takes_nics_witness :
  exists t', smb2_mc_update_new_connection 1 7 (Some 21%positive) demo_idle = (0, t', Some 10%positive)
    /\ wf t' /\ successful_con_list t' = [10%positive] /\ conp t' 11 = demote (conp demo_idle 11).
Proof.
  assert (W : wf demo_idle) by (apply wf_of_check; vm_compute; reflexivity).
  assert (Hp : 10%positive ∈ session_con_list demo_idle) by apply list_elem_of_here.
  assert (Hq : 11%positive ∈ session_con_list demo_idle) by (apply list_elem_of_further, list_elem_of_here).
  assert (U : unique_index demo_idle).
  { split; intros m n Hm Hn; cbn in Hm, Hn; rewrite !elem_of_cons in Hm, Hn;
      repeat match goal with H : _ \/ _ |- _ => destruct H as [->|H] | H : _ ∈ [] |- _ => by apply not_elem_of_nil in H end;
      vm_compute; congruence. }
  destruct (new_connection_takes_nics (Some 21%positive) demo_idle 10 W Hp eq_refl U)
    as (t' & E & W' & _ & ES & _ & _ & _ & H).
  exists t'. split; [exact E|]. split; [exact W'|]. split; [exact ES|]. exact (H 11%positive Hq ltac:(congruence)).
Defined.
