(* ===== verification/McReach.v ===== *)
(** * The life of the connection table

    Every exported operation as a step between tables.  What links connections and NICs to
    each other, the shape of the table, is kept by every step.  That
    [successful_con_list] holds exactly the connected entries is kept as long as no
    trial fails beside a connected channel of the same two interfaces; the theorem
    [failed_trial_strands_sibling] shows what happens when one does. *)

From S2P Require Import Prelude Mc McFacts McExcess McTrial McTable.
From stdpp Require Import gmap sorting.
Import Errno.
Local Open Scope Z_scope.

Section Reach.
Context {stale_con : Inhabited con} {stale_nic : Inhabited nic}.

(** ** The shape of a table *)

(** What does not depend on [successful_con_list]: the connections are live objects that
    link a client NIC and a server NIC, each pair at most once, and the client NICs list
    their own connections. *)
Record shaped (t : table) : Prop := {
  sh_nodup : NoDup (session_con_list t);
  sh_dom : forall p, p ∈ session_con_list t -> is_Some (con_heap t !! p);
  sh_client : forall p, p ∈ session_con_list t -> con_client_nic (conp t p) ∈ client_nic_info_list t;
  sh_server : forall p, p ∈ session_con_list t -> con_server_nic (conp t p) ∈ server_nic_info_list t;
  sh_pair : forall p q, p ∈ session_con_list t -> q ∈ session_con_list t ->
    con_client_nic (conp t p) = con_client_nic (conp t q) ->
    con_server_nic (conp t p) = con_server_nic (conp t q) -> p = q;
  sh_nics : forall n, n ∈ client_nic_info_list t \/ n ∈ server_nic_info_list t -> is_Some (nic_heap t !! n);
  sh_poss : forall n p, n ∈ client_nic_info_list t ->
    (p ∈ possible_connections (nicp t n) <-> p ∈ session_con_list t /\ con_client_nic (conp t p) = n);
  sh_poss_nodup : forall n, n ∈ client_nic_info_list t -> NoDup (possible_connections (nicp t n))
}.

(** [successful_con_list] holds exactly the connections that are connected or in removal. *)
Definition succ_ok (t : table) : Prop :=
  NoDup (successful_con_list t) /\
  forall p, p ∈ successful_con_list t <-> p ∈ session_con_list t /\ linked (conp t p) = true.

Lemma wf_iff t : wf t <-> shaped t /\ succ_ok t.
Proof. split; [intros []; split; [by split|by split]|intros [[] []]; by split]. Qed.

Definition with_succ (t : table) (l : list ptr) : table := with_lists t (session_con_list t) l.

(** A table of the right shape is well formed up to its successful list. *)
Lemma shaped_fix t : shaped t -> wf (with_succ t (List.filter (fun p => linked (conp t p)) (session_con_list t))).
Proof.
  intros S. apply wf_iff. split; [destruct S; by split|]. split; cbn.
  - apply NoDup_ListNoDup, List.NoDup_filter, NoDup_ListNoDup, S.
  - intros p. rewrite !list_elem_of_In. apply filter_In.
Qed.

(** Steps that do not read the successful list can be taken on such a table. *)
Lemma shaped_by t t' : shaped t -> (forall l, wf (with_succ t l) -> wf (with_succ t' l)) -> shaped t'.
Proof. intros S H. by destruct (proj1 (wf_iff _) (H _ (shaped_fix t S))) as [[] _]. Qed.

(** What an update of a NIC keeps. *)
Definition params_nic (n n' : nic) : Prop := same_poss n n' /\ nic_index n' = nic_index n.

#[export] Instance params_nic_pre : PreOrder params_nic.
Proof. split; [done|]. intros ??? [] []. split; [by etransitivity|congruence]. Qed.

Lemma same_nic_params n n' : same_nic n n' -> params_nic n n'.
Proof. intros H%same_nic_fields. unfold params_nic, same_poss. tauto. Qed.

(** The same lists, but for the successful one, of connections with the same ends. *)
Record same_shape (t t' : table) : Prop := {
  rs_clients : client_nic_info_list t' = client_nic_info_list t;
  rs_servers : server_nic_info_list t' = server_nic_info_list t;
  rs_session : session_con_list t' = session_con_list t;
  rs_dom : forall p, is_Some (con_heap t' !! p) <-> is_Some (con_heap t !! p);
  rs_cons : forall p, same_ends (conp t p) (conp t' p);
  rs_ndom : forall n, is_Some (nic_heap t' !! n) <-> is_Some (nic_heap t !! n);
  rs_nics : forall n, params_nic (nicp t n) (nicp t' n)
}.

#[export] Instance reshape_pre : PreOrder same_shape.
Proof.
  split; [by split|]. intros t u v [] []. split; try congruence; try (intros x; by etransitivity; eauto); firstorder.
Qed.

Lemma reshape_shaped t t' : same_shape t t' -> shaped t -> shaped t'.
Proof.
  intros [Ec Es El Hd HC Hn HN] S.
  assert (HP : forall n, possible_connections (nicp t' n) = possible_connections (nicp t n)) by (intros n; apply HN).
  split; rewrite ?Ec, ?Es, ?El; try apply S.
  - intros p Hp. apply Hd, S, Hp.
  - intros p Hp. destruct (HC p) as [-> _]. by apply S.
  - intros p Hp. destruct (HC p) as [_ ->]. by apply S.
  - intros p q Hp Hq. destruct (HC p) as [-> ->], (HC q) as [-> ->]. by apply S.
  - intros n H. apply Hn, S, H.
  - intros n p H. destruct (HC p) as [-> _]. rewrite HP. by apply S.
  - intros n H. rewrite HP. by apply S.
Qed.

Lemma reshape_static t t' : same_shape t t' -> static t t'.
Proof. intros R. split_and!; [apply R..|]. intros n. apply R. Qed.

Lemma reshape_frame (P : con -> con -> Prop) (Q : nic -> nic -> Prop) t t' :
  (forall c c', P c c' -> same_ends c c') -> (forall n n', Q n n' -> params_nic n n') -> frame P Q t t' -> same_shape t t'.
Proof. intros HP HQ []. split; auto. Qed.

Lemma reshape_upd t u f p : same_shape t u -> (forall c, same_ends c (f c)) -> same_shape t (upd_con f p u).
Proof.
  intros R H. etransitivity; [exact R|]. eapply (reshape_frame same_ends eq); [done|by intros ?? ->|].
  apply frame_upd_con; [apply _..|]. apply H.
Qed.

Lemma reshape_nic t u f p : same_shape t u -> (forall n, params_nic n (f n)) -> same_shape t (upd_nic f p u).
Proof.
  intros R H. etransitivity; [exact R|]. eapply (reshape_frame eq params_nic); [by intros ?? ->|done|].
  apply frame_upd_nic; [apply _..|]. apply H.
Qed.

Lemma reshape_links (Q : nic -> nic -> Prop) t t' :
  (forall n n', Q n n' -> params_nic n n') -> frame same_links Q t t' -> same_shape t t'.
Proof. intros HQ. apply reshape_frame; [|done]. by intros ?? (?&?&_). Qed.

Lemma reshape_trans_r t u v : same_shape u v -> same_shape t u -> same_shape t v.
Proof. intros H1 H2. by etransitivity. Qed.

Lemma reshape_emit t u x : same_shape t u -> same_shape t (emit x u).
Proof. apply reshape_trans_r. by split. Qed.

Lemma reshape_counts t u a b : same_shape t u -> same_shape t (with_trials u a b).
Proof. apply reshape_trans_r. by split. Qed.

Lemma reshape_succ t u l : same_shape t u -> same_shape t (with_lists u (session_con_list u) l).
Proof. apply reshape_trans_r. by split. Qed.

(** Peels the writes of a step off, from the last one on. *)
Ltac keep_shape :=
  repeat first
    [ reflexivity | assumption | progress cbn [fst] | progress case_match
    | apply reshape_upd; [|done] | apply reshape_nic; [|done]
    | lazymatch goal with
      | |- same_shape _ (emit _ _) => apply reshape_emit
      | |- same_shape _ (with_trials _ _ _) => apply reshape_counts
      | |- same_shape _ (with_lists ?u (session_con_list ?u) _) => apply reshape_succ
      | |- same_shape _ (set_nics_state _ _ _) => unfold set_nics_state
      | |- same_shape _ (refresh_speed _ _) => unfold refresh_speed
      end ].

Lemma reshape_fold {X} (g : X -> table) (f : X -> ptr -> X) l x :
  (forall x p, same_shape (g x) (g (f x p))) -> same_shape (g x) (g (fold_left f l x)).
Proof. intros H. revert x. induction l as [|p l IH]; intros x; cbn; [reflexivity|]. etransitivity; [apply H|apply IH]. Qed.

Lemma reshape_stats t : same_shape t (smb2_mc_count_connection_stats t).1.
Proof.
  unfold smb2_mc_count_connection_stats.
  assert (H1 : same_shape t (fold_left count_con (session_con_list t) (t, results0)).1).
  { apply (reshape_fold fst _ _ (t, results0)). intros [u r] p. eapply (reshape_frame stats_con eq).
    - by intros ?? (?&?&_).
    - by intros ?? ->.
    - apply count_con_frame. }
  destruct (fold_left _ _ _) as [t1 r]. cbn [fst] in H1. destruct (_ && _); [|done].
  assert (H2 : forall l u, same_shape u (faster_rss (max_active_speed r) l u).1).
  { induction l as [|p l IH]; intros u; cbn [faster_rss]; [reflexivity|].
    assert (same_shape u (faster_rss (max_active_speed r) l (refresh_speed p u)).1) by (eapply reshape_trans_r; [apply IH|]; keep_shape).
    repeat case_match; try done; cbn [fst]; keep_shape. }
  specialize (H2 (session_con_list t1) t1). destruct (faster_rss _ _ _) as [t2 [p|]]; cbn [fst] in *; exact (reshape_trans_r _ _ _ H2 H1).
Qed.

(** ** The invariant *)

(** The shape of the table, NICs that are told apart by their index, and, as long as all
    was [orderly], the successful list. *)
Definition inv (orderly : bool) (t : table) : Prop :=
  shaped t /\ unique_index t /\ (orderly = true -> succ_ok t).

Lemma inv_wf t : inv true t <-> wf t /\ unique_index t.
Proof. unfold inv. rewrite wf_iff. tauto. Qed.

Lemma inv_by o t t' : same_shape t t' -> (wf t -> unique_index t -> wf t') -> inv o t -> inv o t'.
Proof.
  intros R HW (S & U & HS). split; [by eapply reshape_shaped|].
  split; [exact (static_unique _ _ (reshape_static _ _ R) U)|].
  intros Ho. assert (wf t') as W by (apply HW; [apply wf_iff; auto|done]). apply wf_iff in W. tauto.
Qed.

Lemma same_nic_index n n' : same_nic n n' -> nic_index n' = nic_index n.
Proof. intros H. by apply same_nic_fields in H as [-> _]. Qed.

Lemma inv_frame o t t' : frame same_links same_nic t t' -> inv o t -> inv o t'.
Proof.
  intros F. apply inv_by; [by eapply reshape_links; [apply same_nic_params|]|]. intros W _. by eapply wf_frame.
Qed.

Lemma inv_frame_eq o (P : con -> con -> Prop) t t' :
  (forall c c', P c c' -> same_links c c') -> frame P eq t t' -> inv o t -> inv o t'.
Proof. intros HP F. apply inv_frame. eapply frame_mono; [exact HP| |exact F]. by intros ?? ->. Qed.

(** New pairs do not look at the successful list. *)
Lemma update_pair_with_succ k t b cn sn :
  update_pair (with_succ t k) b cn sn = let '(e, t', b') := update_pair t b cn sn in (e, with_succ t' k, b').
Proof.
  unfold update_pair. change (find_con_by_nics (with_succ t k) cn sn) with (find_con_by_nics t cn sn).
  destruct (find_con_by_nics t cn sn) as [p|]; [|by destruct b].
  change (nicp (with_succ t k)) with (nicp t). change (is_state STATE_SURPLUS (with_succ t k) p) with (is_state STATE_SURPLUS t p).
  by destruct (_ && _ && _).
Qed.

Lemma update_pairs_with_succ l k t b :
  update_pairs (with_succ t k) b l = let '(e, t', b') := update_pairs t b l in (e, with_succ t' k, b').
Proof.
  revert t b. induction l as [|[cn sn] l IH]; intros t b; cbn [update_pairs]; [done|]. rewrite update_pair_with_succ.
  destruct (update_pair t b cn sn) as [[e t1] b1]. destruct (e =? 0); [apply IH|done].
Qed.

Lemma update_pair_shaped t b cn sn :
  shaped t -> cn ∈ client_nic_info_list t -> sn ∈ server_nic_info_list t -> shaped (update_pair t b cn sn).1.2.
Proof.
  intros S Hc Hs. apply (shaped_by t); [done|]. intros k W. pose proof (update_pair_spec _ b cn sn W Hc Hs) as H.
  rewrite update_pair_with_succ in H. destruct (update_pair t b cn sn) as [[e t'] b']. by destruct H.
Qed.

Lemma inv_update_con_list o b t : inv o t -> inv o (smb2_mc_update_con_list b t).2.
Proof.
  intros (S & U & HS).
  assert (HW : forall u, wf u -> wf (smb2_mc_update_con_list b u).2 /\ static u (smb2_mc_update_con_list b u).2).
  { intros u W. pose proof (update_con_list_spec b u W) as H. destruct (smb2_mc_update_con_list b u) as [e t'].
    destruct H as (W' & [] & _). split; [done|by split_and!]. }
  assert (HK : forall k, (smb2_mc_update_con_list b (with_succ t k)).2 = with_succ (smb2_mc_update_con_list b t).2 k).
  { intros k. unfold smb2_mc_update_con_list.
    change (list_prod (client_nic_info_list (with_succ t k)) _) with (list_prod (client_nic_info_list t) (server_nic_info_list t)).
    rewrite update_pairs_with_succ. by destruct (update_pairs _ _ _) as [[e t'] b']. }
  split; [|split].
  - apply (shaped_by t); [done|]. intros k W. rewrite <- HK. by apply HW.
  - eapply static_unique; [|exact U]. pose proof (HW _ (shaped_fix t S)) as [_ (E1 & E2 & E3)]. rewrite HK in E1, E2, E3.
    by split_and!.
  - intros Ho. assert (W : wf t) by (apply wf_iff; auto). destruct (HW t W) as [[_ ?]%wf_iff _]. done.
Qed.

(** ** The operations *)

Lemma reshape_excess m t : same_shape t (smb2_mc_return_excess_connections m t).1.1.1.
Proof.
  unfold smb2_mc_return_excess_connections. destruct (max_speeds t) as [wired all].
  set (z := mk_sorting 0 0 0 0 None None).
  assert (H1 : same_shape t (fold_left (sort_con (if wired =? 0 then all else wired) wired) (successful_con_list t) (t, z)).1).
  { apply (reshape_fold fst _ _ (t, z)). intros [u r] p. unfold sort_con, classify. cbn [fst]. keep_shape. }
  destruct (fold_left _ _ _) as [t1 s]. cbn [fst] in H1.
  assert (H2 : forall keep l n u, same_shape u (mark_redundant keep n l u)).
  { intros keep. induction l as [|p l IH]; intros n u; cbn [mark_redundant]; [reflexivity|].
    repeat case_match; try done; [keep_shape|]. eapply reshape_trans_r; [apply IH|]. keep_shape. }
  set (t2 := if 1 <? num_of_inactives s then _ else t1).
  assert (H3 : same_shape t t2) by (unfold t2; case_match; [|done]; eapply reshape_trans_r; [apply H2|done]).
  pose proof (reshape_stats t2) as H4. destruct (smb2_mc_count_connection_stats t2) as [t3 r]. cbn [fst] in H4.
  assert (H5 : forall i l a m u, same_shape u (remove_excess i a m l u).1).
  { intros i. induction l as [|p l IH]; intros a n u; cbn [remove_excess]; [reflexivity|].
    destruct (is_state STATE_IN_REMOVAL u p); [apply IH|]. destruct (_ || _); [|apply IH].
    set (u1 := upd_con _ p u). assert (R : same_shape u u1) by (unfold u1; keep_shape). destruct (n - 1 =? 0); [done|].
    specialize (IH (if (max_channels u <? i + a) && is_active FUNC_ACTIVE u p then a - 1 else a) (n - 1) u1).
    destruct (remove_excess _ _ _ _ _). by eapply reshape_trans_r. }
  specialize (H5 (inactive_cnt r) (successful_con_list t3) (active_cnt r) m t3). destruct (remove_excess _ _ _ _ _) as [t4 out].
  cbn [fst] in *. eapply reshape_trans_r; [exact H5|]. by eapply reshape_trans_r.
Qed.

Lemma inv_excess o m t : inv o t -> 1 <= m -> inv o (smb2_mc_return_excess_connections m t).1.1.1.
Proof.
  intros I Hm. apply (inv_by o t); [apply reshape_excess| |done]. intros W _.
  pose proof (excess_run m t W Hm) as HR. destruct (max_speeds t) as [wired all].
  destruct (smb2_mc_return_excess_connections m t) as [[[t' out] n] sp].
  destruct HR as (_ & _ & t2 & t3 & (F2 & _) & _ & F3 & R). cbn.
  eapply wf_frame_eq; [apply removal_con_same_links|apply R|].
  eapply wf_frame_eq; [apply stats_con_same_links|exact F3|].
  eapply wf_frame_eq; [apply active_con_same_links|exact F2|done].
Qed.

Lemma reshape_trials fuel m b t t' out : trial_loop fuel m b t = Some (t', out) -> same_shape t t'.
Proof.
  revert m b t t' out. induction fuel as [|fuel IH]; intros m b t t' out; cbn [trial_loop]; [done|].
  destruct (m =? 0); [by intros [= <- _]|]. pose proof (reshape_stats t) as H1.
  destruct (smb2_mc_count_connection_stats t) as [t1 r]. cbn [fst] in H1.
  destruct (lost_actives t1 r) as [[p i]|].
  { intros E. eapply reshape_trans_r; [by eapply IH|]. keep_shape. }
  destruct (_ && _ && _); [by intros [= <- _]|]. destruct (con_to_add t1 r b) as [[p a]|]; [|by intros [= <- _]].
  destruct (trial_loop fuel _ _ _) as [[t2 o2]|] eqn:E; [|done]. intros [= <- _].
  eapply reshape_trans_r; [by eapply IH|]. unfold put_on_trial. keep_shape.
Qed.

Lemma inv_ask o fuel m t t' out :
  inv o t -> 0 <= m -> m + 1 < Z.of_nat fuel ->
  smb2_mc_ask_for_new_connection_trial fuel m t = Some (t', out) -> inv o t'.
Proof.
  intros I Hm Hf. unfold smb2_mc_ask_for_new_connection_trial.
  destruct (negb _); [by intros [= <- _]|]. destruct (_ <? _); [by intros [= <- _]|]. intros E.
  apply (inv_by o t); [by eapply reshape_trials| |done]. intros W _.
  destruct (trial_loop_spec fuel m false t W Hm) as (t1 & out1 & E1 & HT & _).
  { unfold conversions. destruct (_ <? _); lia. }
  rewrite E1 in E. injection E as -> ->. eapply wf_frame; [|exact W].
  eapply frame_mono; [| |apply HT]; [by intros ?? []|by intros ?? []].
Qed.

Lemma restore_frame t : frame same_links same_nic t (restore_nic_states t).
Proof.
  unfold restore_nic_states. apply frame_fold; try apply _. intros u p. unfold restore_con.
  case_match; try reflexivity; apply frame_set_nics; try apply _; done.
Qed.

Lemma reset_con_frame client n t p : frame same_links eq t (reset_con client n t p).
Proof.
  unfold reset_con. case_match; [|reflexivity]. case_match eqn:E; apply frame_upd_con; try apply _; [|done].
  unfold is_state in E. rewrite orb_true_iff, !bool_decide_eq_true in E.
  unfold same_links, linked. cbn. by destruct E as [-> | ->].
Qed.

Lemma reset_frame n client t : frame same_links eq t (smb2_mc_reset_con_status n client t).
Proof. unfold smb2_mc_reset_con_status. apply frame_fold; try apply _. intros. apply reset_con_frame. Qed.

Lemma abort_frame t : frame same_links eq t (smb2_mc_abort_trials t).
Proof.
  unfold smb2_mc_abort_trials. case_match; [reflexivity|]. apply frame_fold; try apply _. intros u p.
  repeat case_match; try reflexivity. apply frame_emit; apply _.
Qed.

(** No connection between the interfaces of [p] is connected, RSS siblings
    included. *)
Definition no_sibling_connected (t : table) (p : ptr) : Prop :=
  forall q, q ∈ session_con_list t ->
    Z.land (nic_index (client_nic t q)) SMB2_IF_INDEX_MASK = Z.land (nic_index (client_nic t p)) SMB2_IF_INDEX_MASK ->
    Z.land (nic_index (server_nic t q)) SMB2_IF_INDEX_MASK = Z.land (nic_index (server_nic t p)) SMB2_IF_INDEX_MASK ->
    linked (conp t q) = false.

Lemma links_index t t' q : frame same_links same_nic t t' ->
  nic_index (client_nic t' q) = nic_index (client_nic t q)
  /\ nic_index (server_nic t' q) = nic_index (server_nic t q) /\ linked (conp t' q) = linked (conp t q).
Proof.
  intros F. destruct (fr_cons _ _ _ _ F q) as (E1 & E2 & E3). unfold client_nic, server_nic. rewrite E1, E2.
  split_and!; [apply same_nic_index, (fr_nics _ _ _ _ F) ..|done].
Qed.

Lemma fail_con_frame ci si t q :
  (Z.land (nic_index (client_nic t q)) SMB2_IF_INDEX_MASK = Z.land ci SMB2_IF_INDEX_MASK ->
   Z.land (nic_index (server_nic t q)) SMB2_IF_INDEX_MASK = Z.land si SMB2_IF_INDEX_MASK -> linked (conp t q) = false) ->
  frame same_links same_nic t (fail_con ci si t q).
Proof.
  intros H. unfold fail_con.
  assert (HR : frame same_links same_nic t
    (if is_state STATE_SURPLUS t q then upd_con (set_state STATE_POTENTIAL) q t else t)).
  { unfold is_state. case_bool_decide as E; [|reflexivity]. apply frame_upd_con; try apply _.
    unfold same_links, linked. cbn. by rewrite E. }
  destruct (Z.eqb_spec (Z.land (nic_index (client_nic t q)) SMB2_IF_INDEX_MASK) (Z.land ci SMB2_IF_INDEX_MASK)).
  - destruct (Z.eqb_spec (Z.land (nic_index (server_nic t q)) SMB2_IF_INDEX_MASK) (Z.land si SMB2_IF_INDEX_MASK));
      [|exact HR]. apply frame_upd_con; try apply _. unfold same_links. rewrite H by done. done.
  - destruct (_ =? si); [exact HR|reflexivity].
Qed.

Lemma fail_fold_frame ci si l t :
  (forall q, q ∈ l ->
     Z.land (nic_index (client_nic t q)) SMB2_IF_INDEX_MASK = Z.land ci SMB2_IF_INDEX_MASK ->
     Z.land (nic_index (server_nic t q)) SMB2_IF_INDEX_MASK = Z.land si SMB2_IF_INDEX_MASK -> linked (conp t q) = false) ->
  frame same_links same_nic t (fold_left (fail_con ci si) l t).
Proof.
  revert t. induction l as [|q l IH]; intros t H; cbn [fold_left]; [reflexivity|].
  assert (F : frame same_links same_nic t (fail_con ci si t q)) by (by apply fail_con_frame, H, list_elem_of_here).
  etransitivity; [exact F|]. apply IH. intros r Hr. destruct (links_index _ _ r F) as (-> & -> & ->).
  by apply H, list_elem_of_further.
Qed.

Lemma trial_failed_frame t p : no_sibling_connected t p -> frame same_links same_nic t (trial_failed p t).
Proof.
  intros H. unfold trial_failed. set (t1 := upd_con (set_iod None) p (set_nics_state NIC_IDLE p t)).
  assert (F : frame same_links same_nic t t1).
  { etransitivity; [apply (frame_set_nics same_links same_nic NIC_IDLE p); done|].
    by apply frame_upd_con; try apply _. }
  etransitivity; [exact F|]. apply fail_fold_frame. intros q. rewrite (fr_session _ _ _ _ F).
  destruct (links_index _ _ q F) as (-> & -> & ->). apply H.
Qed.

(** Taking a connection off the successful ones. *)
Lemma wf_unlink t p :
  wf t -> p ∈ session_con_list t ->
  wf (upd_con (set_state STATE_POTENTIAL) p
        (with_lists t (session_con_list t) (tailq_remove p (successful_con_list t)))).
Proof.
  intros W Hp. set (t' := upd_con _ p _).
  assert (EP : conp t' p = set_state STATE_POTENTIAL (conp t p)).
  { unfold t'. rewrite conp_upd_eq; [done|]. by apply W. }
  assert (EO : forall q, q <> p -> conp t' q = conp t q) by (intros; unfold t'; by rewrite conp_upd_ne).
  assert (EC : forall q, con_client_nic (conp t' q) = con_client_nic (conp t q)).
  { intros q. destruct (decide (q = p)) as [->|]; [by rewrite EP|by rewrite EO]. }
  assert (ES : forall q, con_server_nic (conp t' q) = con_server_nic (conp t q)).
  { intros q. destruct (decide (q = p)) as [->|]; [by rewrite EP|by rewrite EO]. }
  split; try apply W; cbn [t' session_con_list successful_con_list with_lists con_heap upd_con with_heap].
  - by apply tailq_remove_NoDup, W.
  - intros q Hq. apply lookup_alter_is_Some. by apply W.
  - intros q Hq. rewrite EC. by apply W.
  - intros q Hq. rewrite ES. by apply W.
  - intros q r Hq Hr. rewrite !EC, !ES. by apply W.
  - intros q. rewrite elem_of_tailq_remove, (wf_succ t W).
    destruct (decide (q = p)) as [->|Hq]; [rewrite EP; cbn; intuition congruence|]. rewrite EO by done. tauto.
  - intros n q Hn. rewrite EC. by apply (wf_poss t W).
Qed.

Lemma inv_disconnected o b p t :
  inv o t -> p ∈ session_con_list t -> inv o (smb2_mc_inform_connection_disconnected b (Some p) t).2.
Proof.
  intros I Hp. unfold smb2_mc_inform_connection_disconnected. apply inv_update_con_list.
  eapply inv_frame; [apply restore_frame|]. set (t1 := if _ || _ then _ else _).
  assert (I1 : inv o t1).
  { apply (inv_by o t); [unfold t1; keep_shape| |done]. intros W _. unfold t1.
    destruct (_ || _) eqn:E; [by apply wf_unlink|destruct (negb _ && negb _) eqn:E2; [|done]].
    eapply (wf_frame t); [|done]. apply frame_upd_con; try apply _. unfold is_state in E.
    rewrite orb_false_iff, !bool_decide_eq_false in E. unfold same_links, linked. cbn.
    by destruct (state (conp t p)), E. }
  eapply inv_frame; [|exact I1]. etransitivity; [apply (frame_set_nics same_links same_nic NIC_IDLE p); done|].
  by apply frame_upd_con; try apply _.
Qed.

Lemma inv_trials o a b t : inv o t -> inv o (with_trials t a b).
Proof. apply inv_frame, frame_trials; apply _. Qed.

Lemma reshape_connect_con si iod u e q : same_shape u (connect_con si iod (u, e) q).1.
Proof. unfold connect_con. cbn [fst]. keep_shape. Qed.

Lemma reshape_connect ci si iod t : same_shape t (smb2_mc_update_new_connection ci si iod t).1.2.
Proof.
  unfold smb2_mc_update_new_connection. do 2 (case_match; [|reflexivity]).
  match goal with |- context [fold_left (connect_con si iod) ?l (t, None)] =>
    assert (HF : same_shape t (fold_left (connect_con si iod) l (t, None)).1)
      by (apply (reshape_fold fst _ _ (t, None)); intros [u e] q; apply reshape_connect_con);
    destruct (fold_left (connect_con si iod) l (t, None)) as [t1 e] end.
  eapply reshape_trans_r; [|exact HF]. apply (reshape_fold (fun u => u)). intros u q. unfold surplus_con. keep_shape.
Qed.

Lemma inv_new_connection o iod p t :
  inv o t -> p ∈ session_con_list t -> linked (conp t p) = false ->
  inv o (smb2_mc_update_new_connection (nic_index (client_nic t p)) (nic_index (server_nic t p)) iod t).1.2.
Proof.
  intros I Hp HL. apply (inv_by o t); [apply reshape_connect| |done]. intros W U.
  destruct (update_new_connection_spec iod t p W Hp HL U) as (t' & -> & W' & _). done.
Qed.

Lemma reshape_failed t p : same_shape t (trial_failed p t).
Proof.
  unfold trial_failed. eapply reshape_trans_r; [apply (reshape_fold (fun u => u)); intros u q; unfold fail_con; keep_shape|]. keep_shape.
Qed.

Lemma inv_report o b status p t :
  inv o t -> p ∈ session_con_list t -> linked (conp t p) = false ->
  (o = true -> Z.land status SMB2_MC_TRIAL_PASSED = 0 -> no_sibling_connected t p) ->
  inv o (smb2_mc_report_connection_trial_results b status (Some p) t).2.
Proof.
  intros I Hp HL HN. unfold smb2_mc_report_connection_trial_results. set (t0 := with_trials t _ _).
  assert (I0 : inv o t0) by (by apply inv_trials). destruct (Z.eqb_spec (Z.land status SMB2_MC_TRIAL_PASSED) 0) as [E|E]; cbn [negb].
  - cbn [Z.eqb]. apply inv_update_con_list. eapply inv_frame; [apply restore_frame|].
    destruct I0 as (S & U & HS). split; [by eapply reshape_shaped; [apply reshape_failed|]|].
    split; [eapply static_unique; [apply reshape_static, reshape_failed|done]|].
    intros Ho. assert (W : wf t0) by (apply wf_iff; auto).
    assert (wf (trial_failed p t0)) as W' by (eapply wf_frame; [apply trial_failed_frame; by apply HN|done]).
    apply wf_iff in W'. tauto.
  - pose proof (inv_new_connection o None p t0 I0 Hp HL) as I1. destruct (smb2_mc_update_new_connection _ _ _ _) as [[e t1] x].
    assert (inv o (restore_nic_states t1)) by (eapply inv_frame; [apply restore_frame|exact I1]).
    destruct (e =? 0); [by apply inv_update_con_list|done].
Qed.

(** ** A new NIC *)

Lemma insert_by_speed_perm t n l : insert_by_speed t n l ≡ₚ n :: l.
Proof.
  induction l as [|p l IH]; cbn; [done|]. case_match; [done|]. rewrite IH. apply Permutation_swap.
Qed.

(** The NIC lists are kept fastest first. *)
Definition by_speed (t : table) : list ptr -> Prop :=
  Sorted (fun a b => nic_link_speed (nicp t b) <= nic_link_speed (nicp t a)).

(** A new NIC is inserted into its list exactly once, and a list that is
    ordered from the fastest to the slowest NIC stays so. *)
Theorem new_nic_keeps_speed_order t n l :
  by_speed t l -> insert_by_speed t n l ≡ₚ n :: l /\ by_speed t (insert_by_speed t n l).
Proof.
  intros H. split; [apply insert_by_speed_perm|]. unfold by_speed in *. induction H as [|p l H IH HR]; cbn; [by repeat constructor|].
  destruct (Z.leb_spec (nic_link_speed (nicp t p)) (nic_link_speed (nicp t n))); [by repeat constructor|].
  constructor; [done|]. destruct l as [|q l]; cbn; [constructor; lia|]. case_match; constructor; [lia|]. by inversion HR.
Qed.

Definition nic_list (t : table) (client : bool) : list ptr :=
  if client then client_nic_info_list t else server_nic_info_list t.

(** A NIC that may be added: allocated, on neither list, with no connections
    and an index of its own. *)
Definition new_nic (t : table) (client : bool) (n : ptr) : Prop :=
  is_Some (nic_heap t !! n) /\ possible_connections (nicp t n) = []
  /\ (n ∉ nic_list t client) /\ forall m, m ∈ nic_list t client -> nic_index (nicp t m) <> nic_index (nicp t n).

Lemma elem_of_insert t n l m : m ∈ insert_by_speed t n l <-> m = n \/ m ∈ l.
Proof. rewrite (insert_by_speed_perm t n l), elem_of_cons. done. Qed.

Lemma wf_insert_nic client n t :
  wf t /\ unique_index t -> new_nic t client n ->
  let t' := smb2_mc_insert_new_nic_by_speed client n t in wf t' /\ unique_index t'.
Proof.
  intros [W [U1 U2]] (HD & HP & HN & HI). cbv zeta. set (t' := smb2_mc_insert_new_nic_by_speed client n t).
  assert (EC : client_nic_info_list t' = if client then insert_by_speed t n (client_nic_info_list t) else client_nic_info_list t)
    by (by unfold t'; destruct client).
  assert (ES : server_nic_info_list t' = if client then server_nic_info_list t else insert_by_speed t n (server_nic_info_list t))
    by (by unfold t'; destruct client).
  assert (HC : forall m, m ∈ client_nic_info_list t' <-> m ∈ client_nic_info_list t \/ (client = true /\ m = n))
    by (intros m; rewrite EC; destruct client; rewrite ?elem_of_insert; intuition congruence).
  assert (HS : forall m, m ∈ server_nic_info_list t' <-> m ∈ server_nic_info_list t \/ (client = false /\ m = n))
    by (intros m; rewrite ES; destruct client; rewrite ?elem_of_insert; intuition congruence).
  assert (EN : forall m, nicp t' m = nicp t m) by (by unfold t'; destruct client).
  assert (EP : forall p, conp t' p = conp t p) by (by unfold t'; destruct client).
  assert (EL : session_con_list t' = session_con_list t) by (by unfold t'; destruct client).
  assert (EU : successful_con_list t' = successful_con_list t) by (by unfold t'; destruct client).
  assert (EH : con_heap t' = con_heap t /\ nic_heap t' = nic_heap t) by (by unfold t'; destruct client).
  destruct EH as [EH1 EH2]. clearbody t'. split.
  - split; rewrite ?EL, ?EU, ?EH1, ?EH2; try apply W.
    + intros p Hp. rewrite HC, EP. left. by apply W.
    + intros p Hp. rewrite HS, EP. left. by apply W.
    + intros p q. rewrite !EP. apply W.
    + intros m. rewrite HC, HS. intros [[?|[_ ->]]|[?|[_ ->]]]; [|done| |done]; apply W; auto.
    + intros p. rewrite EP. apply W.
    + intros m p. rewrite HC, EN, EP. intros [Hm|[-> ->]]; [by apply W|]. rewrite HP. split; [by intros ?%not_elem_of_nil|].
      intros [Hp <-]. destruct HN. by apply W.
    + intros m. rewrite HC, EN. intros [Hm|[-> ->]]; [by apply W|]. rewrite HP. apply NoDup_nil_2.
  - split; intros a b; rewrite ?HC, ?HS, !EN; intros [Ha|[-> ->]] [Hb|[Ec ->]] E; auto; subst; cbn in *;
      exfalso; [by apply (HI a)|by apply (HI b)|by apply (HI a)|by apply (HI b)].
Qed.

(** Lifts a step that keeps well-formed tables so and does not look at the successful
    list. *)
Lemma inv_lift o t t' :
  inv o t -> (forall k, wf (with_succ t k) /\ unique_index t -> wf (with_succ t' k) /\ unique_index t') ->
  successful_con_list t' = successful_con_list t -> inv o t'.
Proof.
  intros (S & U & HS) H E. split; [|split].
  - apply (shaped_by t); [done|]. intros k W. by apply H.
  - by apply (H _ (conj (shaped_fix t S) U)).
  - intros Ho. assert (W : wf (with_succ t (successful_con_list t))).
    { assert (W0 : wf t) by (apply wf_iff; auto). destruct W0; by split. }
    destruct (H _ (conj W U)) as [W' _]. rewrite <- E in W'. apply wf_iff in W' as [_ [? ?]]. by split.
Qed.

Lemma insert_by_speed_succ t k n l : insert_by_speed (with_succ t k) n l = insert_by_speed t n l.
Proof.
  induction l as [|p l IH]; cbn; [done|]. rewrite IH. done.
Qed.

Lemma inv_insert_nic o client n t :
  inv o t -> new_nic t client n -> inv o (smb2_mc_insert_new_nic_by_speed client n t).
Proof.
  intros I HN. apply (inv_lift o t); [done| |by destruct client]. intros k WU.
  destruct (wf_insert_nic client n (with_succ t k) WU) as [W' U']; [by destruct client|].
  assert (E : smb2_mc_insert_new_nic_by_speed client n (with_succ t k)
              = with_succ (smb2_mc_insert_new_nic_by_speed client n t) k).
  { unfold smb2_mc_insert_new_nic_by_speed. rewrite !insert_by_speed_succ. by destruct client. }
  rewrite E in W', U'. by destruct client.
Qed.

(** ** Steps *)

(** A NIC is allocated and filled in before it is put on a list. *)
Definition alloc_nic (n : ptr) (x : nic) (t : table) : table :=
  with_heap t (con_heap t) (<[n := x]> (nic_heap t)) (signals t).

Lemma inv_alloc_nic o n x t : inv o t -> nic_heap t !! n = None -> inv o (alloc_nic n x t).
Proof.
  intros I HN. apply (inv_lift o t); [done| |done]. intros k [W [U1 U2]].
  assert (EN : forall m, m ∈ client_nic_info_list t \/ m ∈ server_nic_info_list t -> nicp (alloc_nic n x t) m = nicp t m).
  { intros m [y Hm]%(wf_nics _ W). unfold nicp. cbn. rewrite lookup_total_insert_ne; [done|]. intros ->. cbn in Hm. congruence. }
  split; [split; try apply W|].
  - intros m Hm. cbn. destruct (decide (m = n)) as [->|]; [by rewrite lookup_insert_eq|].
    rewrite lookup_insert_ne by done. by apply (wf_nics _ W).
  - intros m p Hm. change (nicp (with_succ (alloc_nic n x t) k) m) with (nicp (alloc_nic n x t) m).
    rewrite EN by auto. by apply (wf_poss _ W).
  - intros m Hm. change (nicp (with_succ (alloc_nic n x t) k) m) with (nicp (alloc_nic n x t) m).
    rewrite EN by auto. by apply (wf_poss_nodup _ W).
  - split; intros a b Ha Hb; rewrite !EN by auto; [by apply U1|by apply U2].
Qed.

(** A call of an exported operation, but for the update of the NICs.  A connection reported
    or disconnected is one of the table, a reported one is not connected yet.  A call that
    is [orderly] is not the report of a failed trial beside a connected sibling. *)
Inductive mc_call (orderly : bool) : table -> table -> Prop :=
  | call_excess m t : 1 <= m -> mc_call orderly t (smb2_mc_return_excess_connections m t).1.1.1
  | call_ask fuel m t t' out : 0 <= m -> m + 1 < Z.of_nat fuel ->
      smb2_mc_ask_for_new_connection_trial fuel m t = Some (t', out) -> mc_call orderly t t'
  | call_report b status p t : p ∈ session_con_list t -> linked (conp t p) = false ->
      (orderly = true -> Z.land status SMB2_MC_TRIAL_PASSED = 0 -> no_sibling_connected t p) ->
      mc_call orderly t (smb2_mc_report_connection_trial_results b status (Some p) t).2
  | call_main p iod t : p ∈ session_con_list t -> linked (conp t p) = false ->
      mc_call orderly t
        (smb2_mc_update_new_connection (nic_index (client_nic t p)) (nic_index (server_nic t p)) iod t).1.2
  | call_disconnected b p t : p ∈ session_con_list t ->
      mc_call orderly t (smb2_mc_inform_connection_disconnected b (Some p) t).2
  | call_active p a t : mc_call orderly t (smb2_mc_inform_connection_active_state_change p a t).2
  | call_reset t : mc_call orderly t (smb2_mc_reset_nic_list t)
  | call_pause t : mc_call orderly t (smb2_mc_pause_trials t)
  | call_resume t : mc_call orderly t (smb2_mc_resume_trials t)
  | call_abort t : mc_call orderly t (smb2_mc_abort_trials t).

(** The calls, and the parts of the update of the NICs that add them. *)
Inductive mc_step : table -> table -> Prop :=
  | step_call t t' : mc_call true t t' -> mc_step t t'
  | step_new_nic client n t : new_nic t client n -> mc_step t (smb2_mc_insert_new_nic_by_speed client n t)
  | step_alloc_nic n x t : nic_heap t !! n = None -> possible_connections x = [] -> mc_step t (alloc_nic n x t)
  | step_update b t : mc_step t (smb2_mc_update_con_list b t).2.

Lemma inv_call o t t' : inv o t -> mc_call o t t' -> inv o t'.
Proof.
  intros I H. destruct H.
  - by apply inv_excess.
  - by eapply inv_ask.
  - by apply inv_report.
  - by apply inv_new_connection.
  - by apply inv_disconnected.
  - destruct p as [p|]; cbn; [|done]. eapply inv_frame; [|done]. by apply frame_upd_con; try apply _.
  - unfold smb2_mc_reset_nic_list. eapply inv_frame_eq; [| |exact I]; [by intros ?? H; exact H|].
    apply frame_fold; try apply _. intros. apply reset_frame.
  - by apply inv_trials.
  - unfold smb2_mc_resume_trials. case_match; [done|]. by apply inv_trials.
  - eapply inv_frame_eq; [| |exact I]; [by intros ?? H; exact H|apply abort_frame].
Qed.

Lemma update_pair_lists t b cn sn : let t' := (update_pair t b cn sn).1.2 in
  client_nic_info_list t' = client_nic_info_list t /\ server_nic_info_list t' = server_nic_info_list t.
Proof. unfold update_pair. destruct (find_con_by_nics t cn sn); [by destruct (_ && _ && _)|by destruct b]. Qed.

Lemma update_con_list_lists b t : let t' := (smb2_mc_update_con_list b t).2 in
  client_nic_info_list t' = client_nic_info_list t /\ server_nic_info_list t' = server_nic_info_list t.
Proof.
  unfold smb2_mc_update_con_list. generalize (list_prod (client_nic_info_list t) (server_nic_info_list t)). intros l.
  revert t b. induction l as [|[cn sn] l IH]; intros t b; cbn [update_pairs]; [done|].
  pose proof (update_pair_lists t b cn sn) as H.
  destruct (update_pair t b cn sn) as [[e t1] b1]. destruct H as [E1 E2]. destruct (e =? 0); [|done].
  specialize (IH t1 b1). destruct (update_pairs t1 b1 l) as [[e' t'] b']. cbn [fst snd] in *. by rewrite <- E1, <- E2.
Qed.

(** The calls keep the NICs. *)
Definition same_nics (t t' : table) : Prop :=
  client_nic_info_list t' = client_nic_info_list t /\ server_nic_info_list t' = server_nic_info_list t.

Lemma reshape_nics t t' : same_shape t t' -> same_nics t t'.
Proof. intros []. by split. Qed.

Lemma settled_nics b t u : same_shape t u -> same_nics t (smb2_mc_update_con_list b (restore_nic_states u)).2.
Proof.
  intros R. pose proof (update_con_list_lists b (restore_nic_states u)) as [E1 E2]. pose proof (restore_frame u) as F.
  unfold same_nics. rewrite E1, E2, (fr_clients _ _ _ _ F), (fr_servers _ _ _ _ F). split; apply R.
Qed.

Lemma call_nics o t t' : mc_call o t t' -> same_nics t t'.
Proof.
  intros H. destruct H.
  - apply reshape_nics, reshape_excess.
  - unfold smb2_mc_ask_for_new_connection_trial in *. repeat case_match; simplify_eq; [done..|].
    by eapply reshape_nics, reshape_trials.
  - unfold smb2_mc_report_connection_trial_results. set (t0 := with_trials t _ _).
    assert (R0 : same_shape t t0) by (unfold t0; by apply reshape_counts).
    destruct (negb _).
    + pose proof (reshape_connect (nic_index (client_nic t0 p)) (nic_index (server_nic t0 p)) None t0) as R1.
      destruct (smb2_mc_update_new_connection _ _ _ _) as [[e t1] x]. cbn [fst snd] in R1.
      assert (R : same_shape t t1) by (by etransitivity). destruct (e =? 0); [by apply settled_nics|].
      pose proof (restore_frame t1) as F. split; cbn [snd]; [rewrite (fr_clients _ _ _ _ F)|rewrite (fr_servers _ _ _ _ F)]; apply R.
    + cbn [Z.eqb]. apply settled_nics. eapply reshape_trans_r; [apply reshape_failed|done].
  - apply reshape_nics, reshape_connect.
  - unfold smb2_mc_inform_connection_disconnected. apply settled_nics. keep_shape.
  - by destruct p.
  - unfold smb2_mc_reset_nic_list. apply reshape_nics, (reshape_fold (fun u => u)). intros u n.
    apply (reshape_links eq); [by intros ?? ->|apply reset_frame].
  - done.
  - unfold smb2_mc_resume_trials. by case_match.
  - apply reshape_nics, (reshape_links eq); [by intros ?? ->|apply abort_frame].
Qed.

Lemma inv_init o max_ch wired : inv o (smb2_mc_init max_ch wired).
Proof.
  assert (W : wf (smb2_mc_init max_ch wired)) by (apply wf_of_check; vm_compute; reflexivity).
  apply wf_iff in W as [? ?]. split; [done|]. split; [|done]. split; intros m n Hm; by apply not_elem_of_nil in Hm.
Qed.

(** ** A failed trial beside a connected sibling *)

(** Whatever the table, updating the pairs keeps the successful list and
    every connection that is not surplus. *)
Lemma update_pairs_keeps l t b q :
  is_Some (con_heap t !! q) -> state (conp t q) <> STATE_SURPLUS ->
  let '(_, t', _) := update_pairs t b l in
  successful_con_list t' = successful_con_list t /\ is_Some (con_heap t' !! q) /\ conp t' q = conp t q.
Proof.
  revert t b. induction l as [|[cn sn] l IH]; intros t b HD HS; cbn [update_pairs]; [done|].
  assert (H1 : let '(_, t', _) := update_pair t b cn sn in
    successful_con_list t' = successful_con_list t /\ is_Some (con_heap t' !! q) /\ conp t' q = conp t q).
  { unfold update_pair. destruct (find_con_by_nics t cn sn) as [p|]; [destruct (_ && _ && _) eqn:E|destruct b]; try done.
    - apply andb_true_iff in E as [_ E]. unfold is_state in E. rewrite bool_decide_eq_true in E.
      assert (q <> p) by congruence. cbv beta iota. split_and!; [done|by apply lookup_alter_is_Some|by apply conp_upd_ne].
    - cbv beta iota. split_and!; [done| |by apply conp_new_old]. cbn. destruct HD as [c HD].
      rewrite lookup_insert_ne; [by exists c|]. intros E. rewrite <- E in HD.
      fold (new_ptr t) in HD. by rewrite new_ptr_none in HD. }
  destruct (update_pair t b cn sn) as [[e1 t1] b1]. destruct H1 as (E1 & D1 & C1). destruct (e1 =? 0); [|done].
  specialize (IH t1 b1 D1). destruct (update_pairs t1 b1 l) as [[e t'] b']. rewrite C1 in IH.
  destruct (IH HS) as (-> & ? & ->). done.
Qed.

Lemma update_con_list_keeps t b q :
  is_Some (con_heap t !! q) -> state (conp t q) <> STATE_SURPLUS ->
  let t' := (smb2_mc_update_con_list b t).2 in
  successful_con_list t' = successful_con_list t /\ is_Some (con_heap t' !! q) /\ conp t' q = conp t q.
Proof.
  intros HD HS. unfold smb2_mc_update_con_list.
  pose proof (update_pairs_keeps (list_prod (client_nic_info_list t) (server_nic_info_list t)) t b q HD HS) as H.
  destruct (update_pairs _ _ _) as [[e t'] b']. done.
Qed.

Definition siblings (t : table) (p q : ptr) : Prop :=
  Z.land (nic_index (client_nic t q)) SMB2_IF_INDEX_MASK = Z.land (nic_index (client_nic t p)) SMB2_IF_INDEX_MASK
  /\ Z.land (nic_index (server_nic t q)) SMB2_IF_INDEX_MASK = Z.land (nic_index (server_nic t p)) SMB2_IF_INDEX_MASK.

Lemma fail_fold_sibling ci si l t q :
  is_Some (con_heap t !! q) -> (q ∈ l \/ state (conp t q) = STATE_FAILED_TO_CONNECT) ->
  Z.land (nic_index (client_nic t q)) SMB2_IF_INDEX_MASK = Z.land ci SMB2_IF_INDEX_MASK ->
  Z.land (nic_index (server_nic t q)) SMB2_IF_INDEX_MASK = Z.land si SMB2_IF_INDEX_MASK ->
  let t' := fold_left (fail_con ci si) l t in
  state (conp t' q) = STATE_FAILED_TO_CONNECT /\ is_Some (con_heap t' !! q)
  /\ successful_con_list t' = successful_con_list t.
Proof.
  revert t. induction l as [|r l IH]; intros t HD HQ HC HS; cbn [fold_left].
  { destruct HQ as [HQ|]; [by apply not_elem_of_nil in HQ|done]. }
  set (t1 := fail_con ci si t r).
  assert (F : frame same_ends eq t t1).
  { unfold t1, fail_con. repeat case_match; try reflexivity; by apply frame_upd_con; try apply _. }
  assert (EC : client_nic t1 q = client_nic t q /\ server_nic t1 q = server_nic t q).
  { destruct (fr_cons _ _ _ _ F q) as [E1 E2]. unfold client_nic, server_nic. rewrite E1, E2.
    by rewrite <- !(fr_nics _ _ _ _ F). }
  destruct EC as [EC ES]. rewrite <- (fr_succ _ _ _ _ F). apply IH; [by apply (fr_dom _ _ _ _ F)| |by rewrite EC|by rewrite ES].
  destruct (decide (r = q)) as [->|Hne].
  - right. unfold t1, fail_con. rewrite HC, HS, !Z.eqb_refl, conp_upd_eq by done. done.
  - destruct HQ as [[?|?]%elem_of_cons|HQ]; [congruence|by left|right].
    unfold t1, fail_con. repeat case_match; rewrite ?conp_upd_ne by done; done.
Qed.

Lemma conp_restore t q : conp (restore_nic_states t) q = conp t q.
Proof.
  unfold restore_nic_states. generalize (session_con_list t). intros l. revert t.
  induction l as [|p l IH]; intros t; cbn [fold_left]; [done|]. rewrite IH. unfold restore_con. by case_match.
Qed.

Lemma trial_failed_sibling t p q :
  is_Some (con_heap t !! q) -> q ∈ session_con_list t -> siblings t p q ->
  state (conp (trial_failed p t) q) = STATE_FAILED_TO_CONNECT /\ is_Some (con_heap (trial_failed p t) !! q)
  /\ successful_con_list (trial_failed p t) = successful_con_list t.
Proof.
  intros HD Hs [SC SS]. unfold trial_failed. set (t1 := upd_con (set_iod None) p (set_nics_state NIC_IDLE p t)).
  assert (F : frame same_links same_nic t t1).
  { etransitivity; [apply (frame_set_nics same_links same_nic NIC_IDLE p); done|].
    by apply frame_upd_con; try apply _. }
  destruct (links_index _ _ q F) as (IC & IS & _). rewrite (fr_session _ _ _ _ F), <- (fr_succ _ _ _ _ F).
  apply fail_fold_sibling; [by apply (fr_dom _ _ _ _ F)|by left|by rewrite IC|by rewrite IS].
Qed.

(** Restoring the NIC states and updating the pairs. *)
Lemma settle_keeps b t q :
  is_Some (con_heap t !! q) -> state (conp t q) <> STATE_SURPLUS ->
  let t' := (smb2_mc_update_con_list b (restore_nic_states t)).2 in
  successful_con_list t' = successful_con_list t /\ is_Some (con_heap t' !! q) /\ conp t' q = conp t q.
Proof.
  intros HD HS. pose proof (restore_frame t) as F. rewrite <- (conp_restore t q), <- (fr_succ _ _ _ _ F).
  apply update_con_list_keeps; [by apply (fr_dom _ _ _ _ F)|by rewrite conp_restore].
Qed.

(** A failed trial strands a connected RSS sibling.  When the trial of
    one pair of RSS queues fails, every connection between the same two
    interfaces is marked as failed, even one that is connected: it stays in
    [successful_con_list] although its state says otherwise, and when its
    thread later reports the disconnection the entry is still not removed, but
    left there without a thread, for [smb2_mc_return_excess_connections] to
    signal through a NULL pointer. *)
Theorem failed_trial_strands_sibling b t p q :
  wf t -> p ∈ session_con_list t -> q ∈ successful_con_list t -> siblings t p q ->
  let t1 := (smb2_mc_report_connection_trial_results b SMB2_MC_TRIAL_FAILED (Some p) t).2 in
  let t2 := (smb2_mc_inform_connection_disconnected b (Some q) t1).2 in
  q ∈ successful_con_list t1 /\ linked (conp t1 q) = false
  /\ q ∈ successful_con_list t2 /\ con_iod (conp t2 q) = None.
Proof.
  intros W Hp Hq HS. pose proof (proj1 (proj1 (wf_succ t W q) Hq)) as Hs.
  set (tf := trial_failed p (with_trials t (pause_trials t) (u32 (active_on_trial_connections t - 1)))).
  assert (HF : state (conp tf q) = STATE_FAILED_TO_CONNECT /\ is_Some (con_heap tf !! q)
               /\ successful_con_list tf = successful_con_list t).
  { exact (trial_failed_sibling (with_trials t _ _) p q (wf_dom t W q Hs) Hs HS). }
  destruct HF as (F1 & F2 & F3).
  destruct (settle_keeps b tf q F2) as (A1 & A2 & A3); [congruence|].
  intros t1. change t1 with (smb2_mc_update_con_list b (restore_nic_states tf)).2. clearbody tf. clear t1.
  set (t1 := (smb2_mc_update_con_list b (restore_nic_states tf)).2) in *.
  assert (ES : state (conp t1 q) = STATE_FAILED_TO_CONNECT) by (by rewrite A3).
  set (td := upd_con (set_iod None) q (set_nics_state NIC_IDLE q t1)).
  assert (ED : conp td q = set_iod None (conp t1 q)) by exact (conp_upd_eq _ q (set_nics_state NIC_IDLE q t1) A2).
  destruct (settle_keeps b td q) as (B1 & B2 & B3); [by apply lookup_alter_is_Some|by rewrite ED; cbn; rewrite ES|].
  intros t2. assert (E2 : t2 = (smb2_mc_update_con_list b (restore_nic_states td)).2).
  { unfold t2, smb2_mc_inform_connection_disconnected, is_state. rewrite ES. done. }
  rewrite E2, B3, B1, ED. split_and!; [by rewrite A1, F3|by unfold linked; rewrite ES| |done].
  change (successful_con_list td) with (successful_con_list t1). by rewrite A1, F3.
Qed.

End Reach.

(** ** Examples *)

#[local] Existing Instances demo_stale_con demo_stale_nic.

Lemma new_nic_keeps_speed_order_witness : by_speed demo_idle (insert_by_speed demo_idle 3%positive [1; 2]%positive).
Proof.
  apply (new_nic_keeps_speed_order demo_idle 3%positive [1; 2]%positive).
  repeat constructor. vm_compute. congruence.
Defined.

(** An RSS client and server: connection 10 between the first queues is
    connected, connection 11 between the second ones is on trial. *)
Definition rss_demo : table :=
  mk_table 0 2 [1; 2]%positive 2 [3; 4]%positive 4 false [10; 11]%positive 1 [10]%positive
    (<[10%positive := mk_con STATE_CONNECTED FUNC_ACTIVE 1000 (Some 21%positive) 1 3]>
     (<[11%positive := mk_con STATE_IN_TRIAL FUNC_ACTIVE 1000 (Some 22%positive) 2 4]> ∅))
    (<[1%positive := demo_nic 1 1000 IFM_ETHER NIC_USED [10]%positive]>
     (<[2%positive := demo_nic 0x100000001 1000 IFM_ETHER NIC_ON_TRIAL [11]%positive]>
      (<[3%positive := demo_nic 7 1000 IFM_ETHER NIC_USED []]>
       (<[4%positive := demo_nic 0x100000007 1000 IFM_ETHER NIC_ON_TRIAL []]> ∅)))) [].

Lemma failed_trial_strands_sibling_witness :
  let t1 := (smb2_mc_report_connection_trial_results 4 SMB2_MC_TRIAL_FAILED (Some 11%positive) rss_demo).2 in
  let t2 := (smb2_mc_inform_connection_disconnected 4 (Some 10%positive) t1).2 in
  10%positive ∈ successful_con_list t2 /\ con_iod (conp t2 10) = None.
Proof.
  assert (W : wf rss_demo) by (apply wf_of_check; vm_compute; reflexivity).
  assert (Hp : 11%positive ∈ session_con_list rss_demo) by (apply list_elem_of_further, list_elem_of_here).
  assert (Hq : 10%positive ∈ successful_con_list rss_demo) by apply list_elem_of_here.
  assert (HS : siblings rss_demo 11 10) by (split; vm_compute; reflexivity).
  apply (failed_trial_strands_sibling 4 rss_demo 11 10 W Hp Hq HS).
Defined.

(** ** The inactive channel that is kept *)

(** Adds a new NIC. *)
Definition add_nic (client : bool) (n : ptr) (index speed : Z) (t : table) : table :=
  smb2_mc_insert_new_nic_by_speed client n (alloc_nic n (demo_nic index speed IFM_ETHER NIC_IDLE []) t).

(** Connects a pair of NICs, given by their indices, with a thread. *)
Definition connect (ci si : Z) (iod : ptr) (t : table) : table :=
  (smb2_mc_update_new_connection ci si (Some iod) t).1.2.

(** Three client NICs of different speeds, each connected to a server NIC of
    its own. *)
Definition three_nics : table :=
  add_nic false 6 9 1000 (add_nic false 5 8 1000 (add_nic false 4 7 1000
    (add_nic true 3 3 300 (add_nic true 2 2 500 (add_nic true 1 1 1000 (smb2_mc_init 0 false)))))).

Definition three_pairs : table := (smb2_mc_update_con_list 9 three_nics).2.

Definition three_channels : table := connect 3 9 23 (connect 2 8 22 (connect 1 7 21 three_pairs)).

(** What it takes to add a NIC, as a check. *)
Definition addable (t : table) (client : bool) (n : ptr) (index : Z) : bool :=
  bool_decide (nic_heap t !! n = None) && bool_decide (n ∉ nic_list t client)
  && forallb (fun m => negb (nic_index (nicp t m) =? index) && negb (m =? n)%positive) (nic_list t client).

Lemma reach_add_nic t0 t client n index speed :
  rtc mc_step t0 t -> addable t client n index = true -> rtc mc_step t0 (add_nic client n index speed t).
Proof.
  intros H HA. unfold addable in HA. rewrite !andb_true_iff, !bool_decide_eq_true, forallb_forall in HA.
  destruct HA as [[H1 H2] H3]. unfold add_nic.
  remember (demo_nic index speed IFM_ETHER NIC_IDLE []) as x eqn:Ex.
  assert (EN : nicp (alloc_nic n x t) n = x) by (unfold nicp; cbn; by rewrite lookup_total_insert_eq).
  assert (EL : nic_list (alloc_nic n x t) client = nic_list t client) by (by destruct client).
  eapply rtc_r; [eapply rtc_r; [exact H|]|].
  - apply (step_alloc_nic n x); [done|by subst x].
  - apply step_new_nic. split; [|split; [|split]].
    + cbn. rewrite lookup_insert_eq. by eexists.
    + rewrite EN. by subst x.
    + by rewrite EL.
    + intros m Hm. rewrite EL in Hm. specialize (H3 m (proj1 (list_elem_of_In _ _) Hm)).
      rewrite andb_true_iff, !negb_true_iff, Z.eqb_neq, Pos.eqb_neq in H3. destruct H3 as [H3 H4]. rewrite EN, Ex.
      unfold nicp. cbn. rewrite lookup_total_insert_ne by done. exact H3.
Qed.

Lemma reach_connect t0 t p ci si iod :
  rtc mc_step t0 t -> p ∈ session_con_list t -> linked (conp t p) = false ->
  nic_index (client_nic t p) = ci -> nic_index (server_nic t p) = si -> rtc mc_step t0 (connect ci si iod t).
Proof. intros H Hp HL <- <-. eapply rtc_r; [exact H|]. by apply step_call, call_main. Qed.

Lemma three_channels_reachable : rtc mc_step (smb2_mc_init 0 false) three_channels.
Proof.
  assert (H : rtc mc_step (smb2_mc_init 0 false) three_nics).
  { unfold three_nics. do 6 (apply reach_add_nic; [|vm_compute; reflexivity]). apply rtc_refl. }
  assert (H1 : rtc mc_step (smb2_mc_init 0 false) three_pairs) by (eapply rtc_r; [exact H|apply step_update]).
  unfold three_channels.
  apply (reach_connect _ _ 7); [|apply (bool_decide_eq_true_1 _); vm_compute; reflexivity|vm_compute; reflexivity ..].
  apply (reach_connect _ _ 5); [|apply (bool_decide_eq_true_1 _); vm_compute; reflexivity|vm_compute; reflexivity ..].
  apply (reach_connect _ _ 3); [exact H1|apply (bool_decide_eq_true_1 _); vm_compute; reflexivity|vm_compute; reflexivity ..].
Qed.

(** The inactive channel that is kept need not be the fastest.  The
    comments of the function say that of the inactive channels the fastest one
    without a NIC of an active channel stays, but
    [con_client_or_server_on_active] takes every pair of the table whose
    [active_state] is still the initial 0 for an active channel, connected or
    not.  In a reachable table with three channels of speed 1000, 500 and 300 on
    six different NICs the channel of speed 500 is removed and the one of speed
    300 is kept as the spare. *)
Theorem excess_keeps_slower_inactive :
  exists t p q, rtc mc_step (smb2_mc_init 0 false) t
    /\ let '(t', out, _, _) := smb2_mc_return_excess_connections 16 t in
       p ∈ out /\ state (conp t' q) = STATE_CONNECTED /\ active_state (conp t' q) = FUNC_INACTIVE
       /\ con_speed (conp t' q) < con_speed (conp t' p)
       /\ Forall (fun r => r <> p -> con_client_nic (conp t' r) <> con_client_nic (conp t' p)
                                    /\ con_server_nic (conp t' r) <> con_server_nic (conp t' p))
            (successful_con_list t').
Proof.
  exists three_channels, 5%positive, 7%positive. split; [apply three_channels_reachable|].
  assert (E : let '(t', out, _, _) := smb2_mc_return_excess_connections 16 three_channels in
    bool_decide (5%positive ∈ out /\ state (conp t' 7) = STATE_CONNECTED /\ active_state (conp t' 7) = FUNC_INACTIVE
       /\ con_speed (conp t' 7) < con_speed (conp t' 5)
       /\ Forall (fun r => r <> 5%positive -> con_client_nic (conp t' r) <> con_client_nic (conp t' 5)
                                    /\ con_server_nic (conp t' r) <> con_server_nic (conp t' 5))
            (successful_con_list t')) = true) by (vm_compute; reflexivity).
  destruct (smb2_mc_return_excess_connections 16 three_channels) as [[[t' out] n] sp].
  by apply bool_decide_eq_true in E.
Qed.
