(* ===== verification/McParse.v ===== *)
(** Multichannel: reading the interfaces of the server and of the client
    ([kernel/netsmb/smb2_mc_support.c]).

    The server answers a query with a buffer of interface records, the client's
    interfaces come from user space as an array of [struct network_nic_info].
    Both are turned into a list of NICs with their addresses, ordered by speed.

    Buffers are lists of bytes and a pointer into one is an offset; a load outside
    of a buffer is undefined behaviour, [None] in the monad [M].  A socket address
    is the bytes of the object that holds it.  The state of a parse is the list of
    NICs built so far and the number of allocations that still succeed. *)
From S2P Require Import Prelude.
Import Errno.

(** ** Data *)

Definition AF_INET := 2.
Definition AF_INET6 := 30.
Definition AF_NETBIOS := 33.
Definition SMB2_MC_IPV4 := 1.
Definition SMB2_MC_IPV6 := 2.
Definition SMB2_IF_CAP_RSS_CAPABLE := 1.
Definition SMB2_MC_IPV4_LEN := 0x10.
Definition SMB2_MC_IPV6_LEN := 0x1C.
Definition SMB2_QUERY_NETWORK_RESPONSE_IPV4_FAMILY := 0x0002.
Definition SMB2_QUERY_NETWORK_RESPONSE_IPV6_FAMILY := 0x0017.
Definition SMB2_MC_NIC_IN_IGNORELIST := 1.
Definition CLIENT_RSS_FORCE_ON := 1.

(** [struct network_nic_info]; [addr] are the 128 bytes of the union. *)
Record network_nic_info := Info {
  next_offset : Z;
  i_nic_index : Z;
  i_nic_caps : Z;
  i_nic_link_speed : Z;
  i_nic_type : Z;
  i_addr : list Z
}.

(** [struct complete_nic_info_entry], without the links into the connection table. *)
Record nic_entry := NicEntry {
  e_index : Z;
  e_link_speed : Z;
  e_caps : Z;
  e_type : Z;
  e_ip_types : Z;
  e_flags : Z;
  addr_list : list (list Z)
}.

Record parse := Parse { budget : nat; nics : list nic_entry }.

Definition malloc : M parse bool := fun s =>
  match budget s with
  | O => Some (false, s)
  | S k => Some (true, Parse k (nics s))
  end.

(** ** Loads *)

Definition load (k off : nat) (bs : list Z) : option (list Z) :=
  if (off + k <=? length bs)%nat then Some (take k (drop off bs)) else None.

Definition loadM {S} (k off : nat) (bs : list Z) : M S (list Z) :=
  fun s => match load k off bs with Some v => Some (v, s) | None => None end.

(** ** Addresses *)

(** [sa_len] and [sa_family] are the first two bytes. *)
Definition sa_len (a : list Z) : Z := nth 0 a 0.
Definition sa_family (a : list Z) : Z := nth 1 a 0.

(** Where the IP address is in a socket address, and how long it is. *)
Definition smb2_extract_ip_and_len (a : list Z) : option (nat * nat) :=
  if sa_family a =? AF_INET then Some (4, 4)%nat
  else if sa_family a =? AF_NETBIOS then Some (8, 4)%nat
  else if sa_family a =? AF_INET6 then Some (8, 16)%nat
  else None.

Definition smb2_mc_sockaddr_cmp (x y : list Z) : M parse bool :=
  match smb2_extract_ip_and_len x, smb2_extract_ip_and_len y with
  | Some (xo, xl), Some (yo, yl) =>
      if negb (Nat.eqb xl yl) then mret false
      else
        bx ← loadM xl xo x;
        by' ← loadM yl yo y;
        mret (bool_decide (bx = by'))
  | _, _ => mret false
  end.

Fixpoint smb2_mc_does_ip_belong_to_interface (l : list (list Z)) (ip : list Z) : M parse bool :=
  match l with
  | [] => mret false
  | a :: r =>
      b ← smb2_mc_sockaddr_cmp a ip;
      if (b : bool) then mret true else smb2_mc_does_ip_belong_to_interface r ip
  end.

(** [addr] is the object the address is copied from: [sa_len] bytes of it.  The
    result is an errno and the NIC. *)
Definition smb2_mc_update_info_with_ip (n : nic_entry) (addr : list Z) : M parse (Z * nic_entry) :=
  b ← smb2_mc_does_ip_belong_to_interface (addr_list n) addr;
  if (b : bool) then mret (0, n)
  else
    a1 ← malloc;
    if negb (a1 : bool) then mret (ENOMEM, n)
    else
      a2 ← malloc;
      if negb (a2 : bool) then mret (ENOMEM, n)
      else
        copy ← loadM (Z.to_nat (sa_len addr)) 0 addr;
        let t := if sa_family addr =? AF_INET then SMB2_MC_IPV4 else SMB2_MC_IPV6 in
        mret (0, NicEntry (e_index n) (e_link_speed n) (e_caps n) (e_type n)
                   (Z.lor (e_ip_types n) t) (e_flags n) (addr_list n ++ [copy])).

(** ** The list of NICs *)

Fixpoint insert_by_speed (n : nic_entry) (l : list nic_entry) : list nic_entry :=
  match l with
  | [] => [n]
  | p :: r => if e_link_speed p <=? e_link_speed n then n :: p :: r else p :: insert_by_speed n r
  end.

Definition smb2_mc_get_nic_by_index (l : list nic_entry) (index : Z) : option nat :=
  fst <$> list_find (fun n => e_index n = index) l.

(** "Update with the most recent data". *)
Definition refresh_nic (info : network_nic_info) (index : Z) (ignore : bool) (n : nic_entry) : nic_entry :=
  NicEntry index (i_nic_link_speed info) (i_nic_caps info) (i_nic_type info) (e_ip_types n)
    (if ignore then Z.lor (e_flags n) SMB2_MC_NIC_IN_IGNORELIST else e_flags n) (addr_list n).

Definition nics_put (l : list nic_entry) : M parse unit := fun s => Some (tt, Parse (budget s) l).

Definition smb2_mc_add_new_interface_info_to_list (info : network_nic_info) (rss_val : Z) (ignore : bool)
  : M parse Z :=
  s ← getS;
  let nic_index := Z.lor (Z.shiftl rss_val 32) (i_nic_index info) in
  match smb2_mc_get_nic_by_index (nics s) nic_index with
  | Some i =>
      let n := refresh_nic info nic_index ignore (nth i (nics s) (NicEntry 0 0 0 0 0 0 [])) in
      nics_put (<[i := n]> (nics s));;
      '(e, n') ← smb2_mc_update_info_with_ip n (i_addr info);
      nics_put (<[i := n']> (nics s));;
      mret e
  | None =>
      a ← malloc;
      if negb (a : bool) then mret ENOMEM
      else
        '(e, n') ← smb2_mc_update_info_with_ip
                     (refresh_nic info nic_index ignore (NicEntry 0 0 0 0 0 0 [])) (i_addr info);
        if e =? 0 then (nics_put (insert_by_speed n' (nics s));; mret 0) else mret e
  end.

(** ** The server's interfaces *)

(** The getters: [None] inside is the result false, and the offset advances. *)
Definition smb2_mc_safe_buffer_get_and_advance (k : nat) (bs : list Z) (buff : nat)
  : M parse (option (list Z * nat)) :=
  if u32 (Z.of_nat (length bs) - Z.of_nat buff) <? Z.of_nat k then mret None
  else v ← loadM k buff bs; mret (Some (v, (buff + k)%nat)).

Definition get_and {A} (k : nat) (bs : list Z) (buff : nat)
    (f : list Z -> nat -> M parse (option A)) : M parse (option A) :=
  r ← smb2_mc_safe_buffer_get_and_advance k bs buff;
  match r with
  | None => mret None                                   (* goto bad_offset *)
  | Some (v, buff') => f v buff'
  end.

Definition smb2_mc_protocol_family_to_inet (family : Z) : Z :=
  if family =? SMB2_QUERY_NETWORK_RESPONSE_IPV4_FAMILY then AF_INET
  else if family =? SMB2_QUERY_NETWORK_RESPONSE_IPV6_FAMILY then AF_INET6
  else 0.

(** One record at [buff]: the offset of the next, the info as it is after the
    record, and whether it has an address that is used.  [info] is the object all
    records are read into. *)
Definition parse_record (bs : list Z) (buff : nat) (info : network_nic_info)
  : M parse (option (Z * network_nic_info * bool)) :=
  get_and 4 bs buff (fun next b1 =>
  get_and 4 bs b1 (fun index b2 =>
  get_and 4 bs b2 (fun caps b3 =>
  get_and 4 bs b3 (fun _ b4 =>
  get_and 8 bs b4 (fun speed b5 =>
  get_and 2 bs b5 (fun fam b6 =>
    let family := le_value fam in
    let mk a := Info (next_offset info) (le_value index) (le_value caps) (le_value speed)
                  (i_nic_type info) a in
    let a0 := splice 1 [smb2_mc_protocol_family_to_inet family] (i_addr info) in
    if family =? SMB2_QUERY_NETWORK_RESPONSE_IPV4_FAMILY then
      let a1 := splice 0 [SMB2_MC_IPV4_LEN] a0 in
      get_and 2 bs b6 (fun port b7 =>
      get_and 4 bs b7 (fun ip _ =>
        mret (Some (le_value next, mk (splice 4 ip (splice 2 port a1)), true))))
    else if family =? SMB2_QUERY_NETWORK_RESPONSE_IPV6_FAMILY then
      let a1 := splice 0 [SMB2_MC_IPV6_LEN] a0 in
      get_and 2 bs b6 (fun port b7 =>
      get_and 4 bs b7 (fun _ b8 =>
      get_and 16 bs b8 (fun ip b9 =>
      get_and 4 bs b9 (fun _ _ =>
        mret (Some (le_value next, mk (splice 8 ip (splice 2 port a1)), true))))))
    else mret (Some (le_value next, mk a0, false)))))))).

(** The copies of an RSS NIC, [rss_nic_index] from [i] on, [k] of them: the errno of
    the last add, or [inl] when an allocation of the copy fails. *)
Fixpoint add_rss (k : nat) (i : Z) (info : network_nic_info) (ignore : bool) (e : Z)
  : M parse (Z + Z) :=
  match k with
  | O => mret (inr e)
  | S k' =>
      a ← malloc;
      if negb (a : bool) then mret (inl ENOMEM)
      else
        e1 ← smb2_mc_add_new_interface_info_to_list info i ignore;
        if e1 =? 0 then add_rss k' (i + 1) info ignore 0 else mret (inr e1)
  end.

(** How the loop ends: at an allocation failure of an RSS copy ([inl], to [done]),
    at a bad offset, or with the list that the update goes on with. *)
Inductive outcome := Done (e : Z) | BadOffset | Finished.

(** The do-while loop.  The state of the iteration is the offset of the record and
    the info; [fuel] bounds the records. *)
Fixpoint parse_loop (fuel : nat) (bs : list Z) (buff : Z) (info : network_nic_info) (rss : Z)
  : M parse outcome :=
  match fuel with
  | O => undef
  | S k =>
      if Z.of_nat (length bs) <? buff then mret BadOffset
      else
        r ← parse_record bs (Z.to_nat buff) info;
        match r with
        | None => mret BadOffset
        | Some (next, info', used) =>
            let continue := if next =? 0 then mret Finished
                            else parse_loop k bs (buff + next) info' rss in
            if negb used then continue
            else
              e ← smb2_mc_add_new_interface_info_to_list info' 0 false;
              if negb (e =? 0) then mret Finished             (* break *)
              else if Z.land (i_nic_caps info') SMB2_IF_CAP_RSS_CAPABLE =? 0 then continue
              else
                x ← add_rss (Z.to_nat (rss - 1)) 1 info' false 0;
                match x with
                | inl er => mret (Done er)
                | inr _ => continue
                end
        end
  end.

Definition zero_info : network_nic_info := Info 0 0 0 0 0 (replicate 128 0).

(** The parsing part of [smb2_mc_query_info_response_event]: the list handed to the
    update of the session, or the errno.  [new_info] is allocated first. *)
Definition parse_server_interfaces (rss : Z) (bs : list Z) (mem : nat)
  : option (Z + list nic_entry) :=
  match malloc (Parse mem []) with
  | Some (true, s) =>
      '(o, s') ← parse_loop (S (length bs)) bs 0 zero_info rss s;
      Some (match o with
            | Done e => inl e
            | BadOffset => inl EINVAL
            | Finished => inr (nics s')
            end)
  | _ => Some (inl ENOMEM)
  end.

(** ** The client's interfaces *)

(** Layout of [struct network_nic_info] on the 64-bit systems it is built for. *)
Definition sizeof_nic_info : Z := 160.
Definition offsetof_addr : Z := 32.
Definition offsetof_sa_data : Z := 34.

Definition field (k off : nat) (bs : list Z) : M parse Z := v ← loadM k off bs; mret (le_value v).

(** The fields of the entry at [off]; the address is what follows in the array. *)
Definition entry_at (bs : list Z) (off : nat) : M parse network_nic_info :=
  next ← field 4 off bs;
  index ← field 4 (off + 4) bs;
  caps ← field 4 (off + 8) bs;
  speed ← field 8 (off + 16) bs;
  type ← field 4 (off + 24) bs;
  mret (Info next index caps speed type (drop (off + 32) bs)).

Definition force_rss (flags : Z) (info : network_nic_info) : network_nic_info :=
  if Z.land flags CLIENT_RSS_FORCE_ON =? 0 then info
  else Info (next_offset info) (i_nic_index info) (Z.lor (i_nic_caps info) SMB2_IF_CAP_RSS_CAPABLE)
         (i_nic_link_speed info) (i_nic_type info) (i_addr info).

(** The copy of the entry that an RSS NIC is added from: the structure only. *)
Definition copy_info (info : network_nic_info) : network_nic_info :=
  Info (next_offset info) (i_nic_index info) (i_nic_caps info) (i_nic_link_speed info)
    (i_nic_type info) (take 128 (i_addr info)).

Fixpoint client_loop (count : nat) (bs : list Z) (off : Z) (flags rss : Z) (ignorelist : list Z) (e : Z)
  : M parse Z :=
  match count with
  | O => mret e
  | S k =>
      if Z.of_nat (length bs) <? off + sizeof_nic_info then mret EINVAL
      else
        info0 ← entry_at bs (Z.to_nat off);
        if Z.of_nat (length bs) <? off + offsetof_sa_data + sa_len (i_addr info0) then mret EINVAL
        else
          let ignore := bool_decide (i_nic_index info0 ∈ ignorelist) in
          let info := force_rss flags info0 in
          e1 ← smb2_mc_add_new_interface_info_to_list info 0 ignore;
          if negb (e1 =? 0) then (nics_put [];; mret e1)      (* release the list, break *)
          else
            x ← (if negb ignore && negb (Z.land (i_nic_caps info) SMB2_IF_CAP_RSS_CAPABLE =? 0)
                 then add_rss (Z.to_nat (rss - 1)) 1 (copy_info info) ignore e1
                 else mret (inr e1));
            match x with
            | inl er => mret er
            | inr e2 =>
                if next_offset info <? sizeof_nic_info then mret EINVAL
                else client_loop k bs (off + next_offset info) flags rss ignorelist e2
            end
  end.

(** [copyin] is the bytes that were copied in, or its errno. *)
Definition smb2_mc_parse_client_interface_array (copyin : Z + list Z) (count : nat) (flags rss : Z)
    (ignorelist : list Z) : M parse Z :=
  a ← malloc;
  if negb (a : bool) then mret ENOMEM
  else match copyin with
    | inl e => mret e
    | inr bs => client_loop count bs 0 flags rss ignorelist 0
    end.
