(* ===== verification/McParseTheorems.v ===== *)
(** * Multichannel: what the parsers of interfaces read, and what they build *)
From S2P Require Import Prelude McParse.
Import Errno.

(** ** Addresses that hold their IP *)

Definition ip_fits (a : list Z) : Prop :=
  match smb2_extract_ip_and_len a with Some (o, l) => (o + l <= length a)%nat | None => True end.


Lemma load_in k off bs : (off + k <= length bs)%nat -> load k off bs = Some (take k (drop off bs)).
Proof. intros Hk. unfold load. by rewrite (proj2 (Nat.leb_le _ _) Hk). Qed.

Lemma loadM_in {S} k off bs (s : S) :
  (off + k <= length bs)%nat -> loadM k off bs s = Some (take k (drop off bs), s).
Proof. intros Hk. unfold loadM. by rewrite load_in. Qed.

Lemma cmp_defined x y s : ip_fits x -> ip_fits y -> exists b, smb2_mc_sockaddr_cmp x y s = Some (b, s).
Proof.
  unfold ip_fits, smb2_mc_sockaddr_cmp. intros Hx Hy.
  destruct (smb2_extract_ip_and_len x) as [[xo xl]|]; [|by eexists].
  destruct (smb2_extract_ip_and_len y) as [[yo yl]|]; [|by eexists].
  destruct (negb (Nat.eqb xl yl)); [by eexists|].
  unfold mbind, M_bind. rewrite loadM_in by done. rewrite loadM_in by done. by eexists.
Qed.

Section Stored.
(** What is known of the addresses in the list; they hold their IP. *)
Context (Q : list Z -> Prop) (Q_fits : forall a, Q a -> ip_fits a).

(** An object an address can be copied from. *)
Definition addr_src (a : list Z) : Prop :=
  ip_fits a /\ 0 <= sa_len a <= Z.of_nat (length a) /\ Q (take (Z.to_nat (sa_len a)) a).

Definition nic_fits (n : nic_entry) : Prop := Forall Q (addr_list n).
Definition nics_fit (s : parse) : Prop := Forall nic_fits (nics s).

Lemma belongs_defined l ip s : Forall Q l -> ip_fits ip ->
  exists b, smb2_mc_does_ip_belong_to_interface l ip s = Some (b, s).
Proof.
  intros Hl Hip. induction Hl as [|a r Ha _ IH]; [by eexists|]. cbn.
  destruct (cmp_defined a ip s (Q_fits a Ha) Hip) as [b Hb]. unfold mbind, M_bind. rewrite Hb.
  destruct b; [by eexists|done].
Qed.

Lemma malloc_cases s : malloc s = Some (false, s) \/
  exists k, budget s = S k /\ malloc s = Some (true, Parse k (nics s)).
Proof. unfold malloc. destruct (budget s); [by left|right; eauto]. Qed.

(** The NIC of an update that ends has fitting addresses; the list is not touched. *)
Lemma update_ip_defined n addr s : nic_fits n -> addr_src addr ->
  exists e n' s', smb2_mc_update_info_with_ip n addr s = Some ((e, n'), s') /\
    nics s' = nics s /\ nic_fits n' /\ e_index n' = e_index n /\ e_link_speed n' = e_link_speed n.
Proof.
  intros Hn (Hip & Hlen & Hcopy). unfold smb2_mc_update_info_with_ip.
  destruct (belongs_defined (addr_list n) addr s Hn Hip) as [b Hb].
  rewrite (bind_some _ _ _ _ _ Hb). destruct b; [by eexists _, _, _|].
  destruct (malloc_cases s) as [Hm|(k & _ & Hm)]; rewrite (bind_some _ _ _ _ _ Hm); cbn [negb];
    [by eexists _, _, _|].
  set (s1 := Parse k (nics s)).
  destruct (malloc_cases s1) as [Hm1|(k1 & _ & Hm1)]; rewrite (bind_some _ _ _ _ _ Hm1); cbn [negb];
    [by eexists _, _, _|].
  erewrite bind_some by (apply loadM_in; cbn; lia).
  eexists _, _, _. split; [done|]. cbn. split; [done|]. split; [|done].
  apply list.Forall_app_2; [done|]. constructor; [|constructor]. by rewrite drop_0.
Qed.

Lemma insert_entry_perm n l : insert_by_speed n l ≡ₚ n :: l.
Proof.
  induction l as [|p r IH]; [done|]. cbn. destruct (_ <=? _); [done|]. rewrite IH. apply Permutation_swap.
Qed.

Lemma refresh_fits info index ig n : nic_fits n -> nic_fits (refresh_nic info index ig n).
Proof. done. Qed.

Lemma add_defined info rss ig s : nics_fit s -> addr_src (i_addr info) ->
  exists e s', smb2_mc_add_new_interface_info_to_list info rss ig s = Some (e, s') /\ nics_fit s'.
Proof.
  intros Hs Ha. unfold smb2_mc_add_new_interface_info_to_list.
  rewrite (bind_some _ _ _ _ _ (getS_run s)).
  set (idx := Z.lor _ _). unfold smb2_mc_get_nic_by_index.
  destruct (list_find (fun n => e_index n = idx) (nics s)) as [[i n0]|] eqn:Ef; cbn [fmap option_fmap option_map fst].
  - apply list_find_Some in Ef as (Hi & _ & _).
    set (n := refresh_nic info idx ig _).
    assert (nic_fits n) as Hn.
    { apply refresh_fits. rewrite (nth_lookup_Some _ _ _ _ Hi).
      eapply Forall_lookup_1; [exact Hs|exact Hi]. }
    unfold mbind, M_bind, nics_put.
    destruct (update_ip_defined n (i_addr info) (Parse (budget s) (<[i:=n]> (nics s))) Hn Ha)
      as (e & n' & s' & E & _ & Hn' & _).
    rewrite E. eexists _, _. split; [done|]. unfold nics_fit. cbn. by apply Forall_insert.
  - destruct (malloc_cases s) as [Hm|(k & _ & Hm)]; unfold mbind at 1, M_bind at 1; rewrite Hm; cbn [negb];
      [by eexists _, _|].
    destruct (update_ip_defined (refresh_nic info idx ig (NicEntry 0 0 0 0 0 0 [])) (i_addr info)
      (Parse k (nics s))) as (e & n' & s' & E & En & Hn' & _); [constructor|done|].
    rewrite (bind_some _ _ _ _ _ E).
    destruct (e =? 0); [|eexists _, _; split; [done|]; unfold nics_fit; by rewrite En].
    eexists _, _. split; [done|]. unfold nics_fit. cbn. rewrite insert_entry_perm.
    by constructor.
Qed.

Lemma add_rss_defined k i info ig e s : nics_fit s -> addr_src (i_addr info) ->
  exists r s', add_rss k i info ig e s = Some (r, s') /\ nics_fit s'.
Proof.
  intros Hs Ha. revert i e s Hs. induction k as [|k IH]; intros i e s Hs; cbn [add_rss]; [by eexists _, _|].
  destruct (malloc_cases s) as [Hm|(b & _ & Hm)]; rewrite (bind_some _ _ _ _ _ Hm); cbn [negb];
    [by eexists _, _|].
  destruct (add_defined info i ig (Parse b (nics s)) Hs Ha) as (e1 & s1 & E & Hs1).
  rewrite (bind_some _ _ _ _ _ E). destruct (e1 =? 0); [by apply IH|by eexists _, _].
Qed.
End Stored.

(** ** Records of the server *)

Lemma nth_splice_before i off bs l (d : Z) :
  (i < off)%nat -> (off <= length l)%nat -> nth i (splice off bs l) d = nth i l d.
Proof.
  intros Hi Ho. unfold splice. rewrite app_nth1 by (rewrite length_take; lia).
  rewrite <- (take_drop off l) at 2. by rewrite app_nth1 by (rewrite length_take; lia).
Qed.

Lemma nth_splice_at off x l (d : Z) : (off < length l)%nat -> nth off (splice off [x] l) d = x.
Proof.
  intros Ho. unfold splice. rewrite app_nth2 by (rewrite length_take; lia).
  rewrite length_take. replace (off - off `min` length l)%nat with 0%nat by lia. done.
Qed.

Lemma nth_splice_after i off bs l (d : Z) :
  (off + length bs <= i)%nat -> (off + length bs <= length l)%nat ->
  nth i (splice off bs l) d = nth i l d.
Proof.
  intros Hi Ho. rewrite !nth_lookup. f_equal. unfold splice.
  rewrite lookup_app_r by (rewrite length_take; lia).
  rewrite lookup_app_r by (rewrite length_take; lia). rewrite length_take, lookup_drop.
  f_equal. lia.
Qed.

Lemma take_nth_0 k (l : list Z) (d : Z) i : (i < k)%nat -> nth i (take k l) d = nth i l d.
Proof.
  intros Hi. destruct (decide (i < length l)%nat) as [Hl|Hl].
  - rewrite <- (take_drop k l) at 2. rewrite app_nth1; [done|]. rewrite length_take. lia.
  - rewrite !nth_overflow; [done|lia|rewrite length_take; lia].
Qed.

(** The header bytes that a record writes. *)
Lemma spliced_addr a fam len port ip off :
  length a = 128%nat -> length port = 2%nat -> (4 <= off)%nat -> (off + length ip <= 128)%nat ->
  let x := splice off ip (splice 2 port (splice 0 [len] (splice 1 [fam] a))) in
  length x = 128%nat /\ sa_len x = len /\ sa_family x = fam.
Proof.
  intros Ha Hp Ho Hi x. unfold x, sa_len, sa_family.
  assert (length (splice 1 [fam] a) = 128%nat) as H1 by (rewrite length_splice; cbn; lia).
  assert (length (splice 0 [len] (splice 1 [fam] a)) = 128%nat) as H2
    by (rewrite length_splice; cbn; lia).
  assert (length (splice 2 port (splice 0 [len] (splice 1 [fam] a))) = 128%nat) as H3
    by (rewrite length_splice; lia).
  rewrite length_splice by lia. split_and!; [done| |].
  - rewrite nth_splice_before by lia. rewrite nth_splice_before by lia. by apply nth_splice_at; lia.
  - rewrite nth_splice_before by lia. rewrite nth_splice_before by lia.
    rewrite nth_splice_after by (cbn; lia). apply nth_splice_at. lia.
Qed.

(** A stored address of the server: IPv4 or IPv6 with its length. *)
Definition inet_ok (a : list Z) : Prop :=
  (sa_family a = AF_INET /\ sa_len a = 16) \/ (sa_family a = AF_INET6 /\ sa_len a = 28).

(** What is stored of it: as many bytes as its length says. *)
Definition stored_ok (a : list Z) : Prop :=
  (sa_family a = AF_INET /\ length a = 16%nat) \/ (sa_family a = AF_INET6 /\ length a = 28%nat).

Lemma stored_fits a : stored_ok a -> ip_fits a.
Proof.
  unfold ip_fits, smb2_extract_ip_and_len. intros [[-> ->]|[-> ->]]; cbn; lia.
Qed.

Lemma inet_ok_src a : length a = 128%nat -> inet_ok a -> addr_src stored_ok a.
Proof.
  intros Hl Hok. unfold addr_src, ip_fits, smb2_extract_ip_and_len, stored_ok.
  assert (sa_family (take (Z.to_nat (sa_len a)) a) = sa_family a) as Ef.
  { unfold sa_family. apply take_nth_0. destruct Hok as [[_ ->]|[_ ->]]; lia. }
  rewrite Ef, length_take, Hl. destruct Hok as [[-> ->]|[-> ->]]; cbn; split_and!; try lia; auto.
Qed.

Lemma get_and_defined {A} k bs buff f s (P : option A -> Prop) :
  Z.of_nat (length bs) < 2 ^ 32 -> (buff <= length bs)%nat -> P None ->
  ((buff + k <= length bs)%nat ->
   exists r, f (take k (drop buff bs)) (buff + k)%nat s = Some (r, s) /\ P r) ->
  exists r, get_and k bs buff f s = Some (r, s) /\ P r.
Proof.
  intros Hl Hb HN Hf. unfold get_and, smb2_mc_safe_buffer_get_and_advance.
  rewrite u32_small by lia.
  destruct (Z.ltb_spec (Z.of_nat (length bs) - Z.of_nat buff) (Z.of_nat k)) as [Hlt|Hge].
  - exists None. done.
  - unfold mbind, M_bind. rewrite loadM_in by lia. apply Hf. lia.
Qed.

Lemma le_value_nonneg bs : Forall is_byte bs -> 0 <= le_value bs.
Proof. intros H. by apply le_value_bound in H as [? _]. Qed.

Lemma parse_record_defined bs buff info s :
  Forall is_byte bs -> Z.of_nat (length bs) < 2 ^ 32 -> (buff <= length bs)%nat ->
  length (i_addr info) = 128%nat ->
  exists r, parse_record bs buff info s = Some (r, s) /\
    match r with
    | None => True
    | Some (next, info', used) =>
        0 <= next /\ length (i_addr info') = 128%nat /\ (buff + 24 <= length bs)%nat /\
        (used = true -> inet_ok (i_addr info'))
    end.
Proof.
  intros Hby Hl Hb Ha. unfold parse_record.
  assert (0 <= le_value (take 4 (drop buff bs))) as Hnext
    by (apply le_value_nonneg, list.Forall_take, list.Forall_drop, Hby).
  do 6 (apply get_and_defined; [done|lia|done|intros ?]).
  set (fam := le_value (take 2 (drop (buff + 4 + 4 + 4 + 4 + 8) bs))).
  destruct (Z.eqb_spec fam SMB2_QUERY_NETWORK_RESPONSE_IPV4_FAMILY) as [E4|_].
  - do 2 (apply get_and_defined; [done|lia|done|intros ?]). eexists. split; [done|]. cbn [i_addr].
    rewrite E4. change (smb2_mc_protocol_family_to_inet _) with AF_INET.
    destruct (spliced_addr (i_addr info) AF_INET SMB2_MC_IPV4_LEN
      (take 2 (drop (buff + 4 + 4 + 4 + 4 + 8 + 2) bs))
      (take 4 (drop (buff + 4 + 4 + 4 + 4 + 8 + 2 + 2) bs)) 4) as (E1 & E2 & E3);
      [done|rewrite length_take, length_drop; lia|lia|rewrite length_take, length_drop; lia|].
    split_and!; [done|done|lia|]. intros _. by left.
  - destruct (Z.eqb_spec fam SMB2_QUERY_NETWORK_RESPONSE_IPV6_FAMILY) as [E6|_].
    + do 4 (apply get_and_defined; [done|lia|done|intros ?]). eexists. split; [done|]. cbn [i_addr].
      rewrite E6. change (smb2_mc_protocol_family_to_inet _) with AF_INET6.
      destruct (spliced_addr (i_addr info) AF_INET6 SMB2_MC_IPV6_LEN
        (take 2 (drop (buff + 4 + 4 + 4 + 4 + 8 + 2) bs))
        (take 16 (drop (buff + 4 + 4 + 4 + 4 + 8 + 2 + 2 + 4) bs)) 8) as (E1 & E2 & E3);
        [done|rewrite length_take, length_drop; lia|lia|rewrite length_take, length_drop; lia|].
      split_and!; [done|done|lia|]. intros _. by right.
    + eexists. split; [done|]. cbn [i_addr]. split_and!; [done|rewrite length_splice; cbn; lia|lia|done].
Qed.

(** * Multichannel: the theorems about the parsers of interfaces. *)

(** ** The server's buffer *)

Lemma parse_loop_defined fuel bs buff info rss s :
  Forall is_byte bs -> Z.of_nat (length bs) < 2 ^ 32 -> length (i_addr info) = 128%nat ->
  0 <= buff -> (1 <= fuel)%nat -> Z.of_nat (length bs) - buff < Z.of_nat fuel ->
  nics_fit stored_ok s ->
  exists o s', parse_loop fuel bs buff info rss s = Some (o, s') /\ nics_fit stored_ok s'.
Proof.
  intros Hby Hl. revert buff info s.
  induction fuel as [|k IH]; intros buff info s Ha Hb H1 Hfuel Hs; [lia|]. cbn [parse_loop].
  destruct (Z.ltb_spec (Z.of_nat (length bs)) buff) as [|Hle]; [by eexists _, _|].
  destruct (parse_record_defined bs (Z.to_nat buff) info s Hby Hl ltac:(lia) Ha) as (r & Er & Hr).
  rewrite (bind_some _ _ _ _ _ Er). destruct r as [[[next info'] used]|]; [|by eexists _, _].
  destruct Hr as (Hnext & Ha' & H24 & Hok).
  assert (forall s1, nics_fit stored_ok s1 ->
    exists o s', (if next =? 0 then mret Finished
                  else parse_loop k bs (buff + next) info' rss) s1 = Some (o, s') /\
                 nics_fit stored_ok s') as Hcont.
  { intros s1 Hs1. destruct (Z.eqb_spec next 0); [by eexists _, _|]. apply IH; try done; lia. }
  destruct used; cbn [negb]; [|by apply Hcont].
  pose proof (inet_ok_src _ Ha' (Hok eq_refl)) as Hsrc.
  destruct (add_defined stored_ok stored_fits info' 0 false s Hs Hsrc) as (e & s1 & Ee & Hs1).
  rewrite (bind_some _ _ _ _ _ Ee). destruct (negb (e =? 0)); [by eexists _, _|].
  destruct (Z.land (i_nic_caps info') _ =? 0); [by apply Hcont|].
  destruct (add_rss_defined stored_ok stored_fits (Z.to_nat (rss - 1)) 1 info' false 0 s1 Hs1 Hsrc)
    as (x & s2 & Ex & Hs2).
  rewrite (bind_some _ _ _ _ _ Ex). destruct x; [by eexists _, _|by apply Hcont].
Qed.

(** Whatever bytes the server sends as its interfaces, reading them ends and
    reads nothing outside of the buffer or of a stored address. *)
Theorem server_interfaces_in_bounds rss bs mem :
  Forall is_byte bs -> Z.of_nat (length bs) < 2 ^ 32 ->
  is_Some (parse_server_interfaces rss bs mem).
Proof.
  intros Hby Hl. unfold parse_server_interfaces.
  destruct (malloc_cases (Parse mem [])) as [->|(k & _ & ->)]; [done|]. cbn [nics].
  destruct (parse_loop_defined (S (length bs)) bs 0 zero_info rss (Parse k []))
    as (o & s' & E & _); [done|done|done|lia|lia|lia|constructor|]. rewrite E. by eexists.
Qed.

Lemma server_interfaces_in_bounds_witness :
  is_Some (parse_server_interfaces 4 (replicate 40 255) 10).
Proof.
  apply (server_interfaces_in_bounds 4 (replicate 40 255) 10);
    [apply (bool_decide_eq_true_1 _); vm_compute; reflexivity|vm_compute; reflexivity].
Defined.

(** C40: every address in the list built from the server's bytes is a socket address
    of its type: IPv4 of 16 bytes or IPv6 of 28, so that its IP lies inside of it. *)
Theorem server_addresses_typed rss bs mem l :
  Forall is_byte bs -> Z.of_nat (length bs) < 2 ^ 32 ->
  parse_server_interfaces rss bs mem = Some (inr l) ->
  Forall (fun n => Forall (fun a => stored_ok a /\ ip_fits a) (addr_list n)) l.
Proof.
  intros Hby Hl. unfold parse_server_interfaces.
  destruct (malloc_cases (Parse mem [])) as [->|(k & _ & ->)]; [done|]. cbn [nics].
  destruct (parse_loop_defined (S (length bs)) bs 0 zero_info rss (Parse k []))
    as (o & s' & E & Hs); [done|done|done|lia|lia|lia|constructor|]. rewrite E.
  cbn. destruct o; intros [= <-]. eapply list.Forall_impl; [exact Hs|].
  intros n Hn. eapply list.Forall_impl; [exact Hn|]. intros a Ha. split; [done|by apply stored_fits].
Qed.

(** An IPv4 and an IPv6 interface. *)
Definition demo_buffer : list Z :=
  le_bytes 4 152 ++ le_bytes 4 7 ++ le_bytes 4 0 ++ le_bytes 4 0 ++ le_bytes 8 1000 ++
  le_bytes 2 2 ++ [1; 2] ++ [10; 0; 0; 1] ++ replicate 120 0 ++
  le_bytes 4 0 ++ le_bytes 4 8 ++ le_bytes 4 0 ++ le_bytes 4 0 ++ le_bytes 8 5000 ++
  le_bytes 2 0x17 ++ [1; 2] ++ le_bytes 4 0 ++ replicate 16 9 ++ le_bytes 4 0.

Definition demo_nics : list nic_entry :=
  [NicEntry 8 5000 0 0 2 0 [[28; 30; 1; 2; 10; 0; 0; 1] ++ replicate 16 9 ++ replicate 4 0];
   NicEntry 7 1000 0 0 1 0 [[16; 2; 1; 2; 10; 0; 0; 1] ++ replicate 8 0]].

Lemma server_addresses_typed_witness :
  Forall (fun n => Forall (fun a => stored_ok a /\ ip_fits a) (addr_list n)) demo_nics.
Proof.
  apply (server_addresses_typed 4 demo_buffer 100 demo_nics);
    [apply (bool_decide_eq_true_1 _); vm_compute; reflexivity|vm_compute; reflexivity
    |vm_compute; reflexivity].
Defined.

(** The record of an IPv6 interface has a flow label and a scope, which are read but
    not stored: the address keeps the bytes of the record before it there. *)
Lemma ipv6_flowinfo_is_stale :
  parse_server_interfaces 4 demo_buffer 100 = Some (inr demo_nics) /\
  take 4 (drop 4 (nth 0 (addr_list (nth 0 demo_nics (NicEntry 0 0 0 0 0 0 []))) [])) = [10; 0; 0; 1].
Proof. vm_compute. split; reflexivity. Qed.

(** ** The client's array *)

Lemma field_in k off bs s : (off + k <= length bs)%nat ->
  field k off bs s = Some (le_value (take k (drop off bs)), s).
Proof. intros Hk. unfold field. by rewrite (bind_some _ _ _ _ _ (loadM_in k off bs s Hk)). Qed.

Definition info_at (bs : list Z) (off : nat) : network_nic_info :=
  Info (le_value (take 4 (drop off bs))) (le_value (take 4 (drop (off + 4) bs)))
    (le_value (take 4 (drop (off + 8) bs))) (le_value (take 8 (drop (off + 16) bs)))
    (le_value (take 4 (drop (off + 24) bs))) (drop (off + 32) bs).

Lemma entry_at_in bs off s : (off + 160 <= length bs)%nat -> entry_at bs off s = Some (info_at bs off, s).
Proof.
  intros Hl. unfold entry_at. repeat (erewrite bind_some by (apply field_in; lia)). done.
Qed.

(** Each entry that the loop comes to holds an IPv4 or an IPv6 address of its
    length. *)
Fixpoint entries_ok (count : nat) (bs : list Z) (off : Z) : Prop :=
  match count with
  | O => True
  | S k => off + 160 <= Z.of_nat (length bs) ->
           inet_ok (drop (Z.to_nat off + 32) bs) /\
           entries_ok k bs (off + next_offset (info_at bs (Z.to_nat off)))
  end.

Lemma inet_ok_take a : (28 <= length a)%nat -> inet_ok a -> inet_ok (take 128 a).
Proof. unfold inet_ok, sa_family, sa_len. rewrite !take_nth_0 by lia. done. Qed.

Lemma inet_ok_src' a : (28 <= length a)%nat -> inet_ok a -> addr_src stored_ok a.
Proof.
  intros Hl Hok. unfold addr_src, ip_fits, smb2_extract_ip_and_len, stored_ok.
  assert (sa_family (take (Z.to_nat (sa_len a)) a) = sa_family a) as Ef.
  { unfold sa_family. apply take_nth_0. destruct Hok as [[_ ->]|[_ ->]]; lia. }
  rewrite Ef, length_take. destruct Hok as [[-> ->]|[-> ->]]; cbn; split_and!; try lia.
Qed.

Lemma force_rss_addr flags info : i_addr (force_rss flags info) = i_addr info /\
  next_offset (force_rss flags info) = next_offset info.
Proof. unfold force_rss. by destruct (_ =? 0). Qed.

Lemma client_loop_defined count bs off flags rss ign e s :
  Forall is_byte bs -> 0 <= off -> entries_ok count bs off -> nics_fit stored_ok s ->
  is_Some (client_loop count bs off flags rss ign e s).
Proof.
  intros Hby. revert off e s. induction count as [|k IH]; intros off e s Hoff Hok Hs; [by eexists|].
  cbn [client_loop]. unfold sizeof_nic_info, offsetof_sa_data.
  destruct (Z.ltb_spec (Z.of_nat (length bs)) (off + 160)) as [|Hle]; [by eexists|].
  destruct (Hok Hle) as [Hin Hrest].
  rewrite (bind_some _ _ _ _ _ (entry_at_in bs (Z.to_nat off) s ltac:(lia))).
  set (info0 := info_at bs (Z.to_nat off)) in *.
  destruct (Z.ltb_spec (Z.of_nat (length bs)) (off + 34 + sa_len (i_addr info0))) as [|_]; [by eexists|].
  set (ig := bool_decide _). set (info := force_rss flags info0).
  destruct (force_rss_addr flags info0) as [Ea En]. fold info in Ea, En.
  assert (28 <= length (i_addr info0))%nat as Hl28 by (cbn; rewrite length_drop; lia).
  assert (addr_src stored_ok (i_addr info)) as Hsrc by (rewrite Ea; by apply inet_ok_src').
  assert (addr_src stored_ok (i_addr (copy_info info))) as Hsrc2.
  { cbn. rewrite Ea. apply inet_ok_src'; [rewrite length_take; lia|by apply inet_ok_take]. }
  destruct (add_defined stored_ok stored_fits info 0 ig s Hs Hsrc) as (e1 & s1 & E1 & Hs1).
  rewrite (bind_some _ _ _ _ _ E1). destruct (negb (e1 =? 0)); [by eexists|].
  assert (exists x s2, (if negb ig && negb (Z.land (i_nic_caps info) SMB2_IF_CAP_RSS_CAPABLE =? 0)
     then add_rss (Z.to_nat (rss - 1)) 1 (copy_info info) ig e1 else mret (inr e1)) s1 = Some (x, s2) /\
     nics_fit stored_ok s2) as (x & s2 & Ex & Hs2).
  { destruct (_ && _); [|by eexists _, _].
    by apply (add_rss_defined stored_ok stored_fits). }
  rewrite (bind_some _ _ _ _ _ Ex). destruct x as [er|e2]; [by eexists|].
  rewrite En. destruct (Z.ltb_spec (next_offset info0) 160); [by eexists|].
  apply IH; [lia|done|done].
Qed.

(** An array of client interfaces whose entries hold IPv4 and IPv6 addresses of the
    right length is read within its bounds, however its offsets and counts are. *)
Theorem client_interfaces_in_bounds bs count flags rss ign mem :
  Forall is_byte bs -> entries_ok count bs 0 ->
  is_Some (smb2_mc_parse_client_interface_array (inr bs) count flags rss ign (Parse mem [])).
Proof.
  intros Hby Hok. unfold smb2_mc_parse_client_interface_array.
  destruct (malloc_cases (Parse mem [])) as [E|(k & _ & E)]; rewrite (bind_some _ _ _ _ _ E); cbn [negb];
    [by eexists|].
  apply client_loop_defined; [done|lia|done|constructor].
Qed.

(** One entry: an IPv4 address with the given length byte, RSS-capable. *)
Definition demo_entry (salen : Z) (room : nat) : list Z :=
  le_bytes 4 160 ++ le_bytes 4 7 ++ le_bytes 4 1 ++ le_bytes 4 0 ++ le_bytes 8 1000 ++
  le_bytes 4 6 ++ le_bytes 4 0 ++ [salen; 2; 0; 0; 10; 0; 0; 1] ++ replicate room 0.

Lemma client_interfaces_in_bounds_witness :
  is_Some (smb2_mc_parse_client_interface_array (inr (demo_entry 16 200)) 2 0 3 [] (Parse 50 [])).
Proof.
  apply (client_interfaces_in_bounds (demo_entry 16 200) 2 0 3 [] 50).
  - apply (bool_decide_eq_true_1 _). vm_compute. reflexivity.
  - intros _. split; [left; split; reflexivity|]. intros H. vm_compute in H. destruct (H eq_refl).
Defined.

(** The length byte of a client address is checked against the whole array only: a
    length of more than the 128 bytes of the structure passes, and the copies made
    for an RSS-capable NIC are then read past their end. *)
Theorem client_rss_copy_overreads :
  smb2_mc_parse_client_interface_array (inr (demo_entry 200 400)) 1 0 2 [] (Parse 50 []) = None.
Proof. vm_compute. reflexivity. Qed.

(** A length byte that is too short for the family leaves an address whose IP is
    outside of it; the next entry of the same NIC is compared with it. *)
Lemma client_short_address_overreads :
  smb2_mc_parse_client_interface_array (inr (demo_entry 2 120 ++ demo_entry 16 120)) 2 0 1 []
    (Parse 50 []) = None.
Proof. vm_compute. reflexivity. Qed.
