(* ===== verification/McNotify.v ===== *)
(** * Multichannel: updating the NICs of a session
    ([smb2_mc_update_nic_list_from_notifier] and what it calls).

    The NICs of an update, parsed by [McParse], are merged into the table of [Mc]:
    known ones are updated in place, new ones are inserted and paired, and NICs
    that are no longer of use are removed.  The addresses of the table's NICs are
    the map [addrs]; [mem] is the number of allocations that succeed. *)
From S2P Require Import Prelude Mc McFacts McExcess McTrial McTable McReach.
From S2P Require McParse.
From stdpp Require Import gmap.
Import Errno.
Local Open Scope Z_scope.

Record session := Session {
  tb : table;
  addrs : gmap ptr (list (list Z));
  mem : nat
}.

(** ** Addresses *)

Section Notify.
Context {stale_con : Inhabited con} {stale_nic : Inhabited nic}.

Fixpoint any_equal (a : list Z) (l : list (list Z)) (found : bool) : M McParse.parse bool :=
  match l with
  | [] => mret found
  | b :: r => c ← McParse.smb2_mc_sockaddr_cmp b a; any_equal a r (found || c)
  end.

(** The addresses that are among the new ones. *)
Fixpoint keep_addrs (old new : list (list Z)) : M McParse.parse (list (list Z)) :=
  match old with
  | [] => mret []
  | a :: r =>
      b ← any_equal a new false;
      r' ← keep_addrs r new;
      mret (if (b : bool) then a :: r' else r')
  end.

Fixpoint add_addrs (n : McParse.nic_entry) (new : list (list Z)) (changed : bool)
  : M McParse.parse (bool * McParse.nic_entry) :=
  match new with
  | [] => mret (changed, n)
  | a :: r =>
      '(e, n') ← McParse.smb2_mc_update_info_with_ip n a;
      add_addrs n' r (changed ||
        negb (Nat.eqb (length (McParse.addr_list n')) (length (McParse.addr_list n))))
  end.

Definition with_addrs (n : McParse.nic_entry) (l : list (list Z)) : McParse.nic_entry :=
  McParse.NicEntry (McParse.e_index n) (McParse.e_link_speed n) (McParse.e_caps n) (McParse.e_type n)
    (McParse.e_ip_types n) (McParse.e_flags n) l.

Definition smb2_mc_update_ip_list (ex : McParse.nic_entry) (new : list (list Z))
  : M McParse.parse (bool * McParse.nic_entry) :=
  k ← keep_addrs (McParse.addr_list ex) new;
  add_addrs (with_addrs ex k) new
    (negb (Nat.eqb (length k) (length (McParse.addr_list ex)))).

(** ** Merging an update *)

Definition set_ip_types (x : Z) (n : nic) : nic :=
  mk_nic (nic_index n) (nic_link_speed n) (nic_type n) x (nic_flags n) (nic_state n)
    (possible_connections n).

Definition set_params (speed type : Z) (n : nic) : nic :=
  mk_nic (nic_index n) speed type (nic_ip_types n) (nic_flags n) (nic_state n)
    (possible_connections n).

Definition entry_of (s : session) (n : ptr) : McParse.nic_entry :=
  let x := nicp (tb s) n in
  McParse.NicEntry (nic_index x) (nic_link_speed x) 0 (nic_type x) (nic_ip_types x) (nic_flags x)
    (addrs s !!! n).

(** A NIC of the table and the update for it. *)
Definition update_nic (client : bool) (n : ptr) (e : McParse.nic_entry) (s : session) : option session :=
  '((ip_change, n'), ps) ← smb2_mc_update_ip_list (entry_of s n) (McParse.addr_list e)
                             (McParse.Parse (mem s) []);
  let x := nicp (tb s) n in
  let params_change := negb (nic_link_speed x =? McParse.e_link_speed e)
                       || negb (nic_type x =? McParse.e_type e) in
  let t1 := upd_nic (set_ip_types (McParse.e_ip_types n')) n (tb s) in
  let t2 := if ip_change || params_change
            then smb2_mc_reset_con_status n client
                   (upd_nic (set_params (McParse.e_link_speed e) (McParse.e_type e)) n t1)
            else if client then smb2_mc_reset_con_status n client t1
            else t1 in
  Some (Session t2 (<[n := McParse.addr_list n']> (addrs s)) (McParse.budget ps)).

(** A new NIC, at the address [p] it was allocated at. *)
Definition insert_nic (client : bool) (p : ptr) (e : McParse.nic_entry) (s : session) : session :=
  let x := mk_nic (McParse.e_index e) (McParse.e_link_speed e) (McParse.e_type e)
             (McParse.e_ip_types e) (McParse.e_flags e) NIC_IDLE [] in
  Session (smb2_mc_insert_new_nic_by_speed client p (alloc_nic p x (tb s)))
    (<[p := McParse.addr_list e]> (addrs s)) (mem s).

(** The first loop.  The second result is whether a NIC was added, the third the
    list of updates as it is afterwards: a NIC of it is moved to the table or
    released. *)
Fixpoint merge_updates (client : bool) (todo waiting : list (ptr * McParse.nic_entry)) (need : bool) (s : session)
  : option (session * bool * list (ptr * McParse.nic_entry)) :=
  match todo with
  | [] => Some (s, need, waiting)
  | (p, e) :: r =>
      let waiting' := List.filter (fun q => negb (q.1 =? p)%positive) waiting in
      match smb2_mc_get_nic_by_index (tb s) (nic_list (tb s) client) (McParse.e_index e) with
      | Some n => s' ← update_nic client n e s; merge_updates client r waiting' need s'
      | None => merge_updates client r waiting' true (insert_nic client p e s)
      end
  end.

(** ** Removing NICs *)

(** A connection is taken off the lists of its client NIC and of the session, and
    freed. *)
Definition remove_con (t : table) (p : ptr) : table :=
  let cn := con_client_nic (conp t p) in
  let t1 := upd_nic (fun n => mk_nic (nic_index n) (nic_link_speed n) (nic_type n) (nic_ip_types n)
                       (nic_flags n) (nic_state n) (tailq_remove p (possible_connections n))) cn t in
  let t2 := with_lists t1 (tailq_remove p (session_con_list t1)) (successful_con_list t1) in
  with_heap t2 (delete p (con_heap t2)) (nic_heap t2) (signals t2).

Definition smb2_mc_release_interface (client : bool) (n : ptr) (t : table) : table :=
  mk_table (pause_trials t)
    (if client then u32 (client_nic_count t - 1) else client_nic_count t)
    (if client then tailq_remove n (client_nic_info_list t) else client_nic_info_list t)
    (if client then server_nic_count t else u32 (server_nic_count t - 1))
    (if client then server_nic_info_list t else tailq_remove n (server_nic_info_list t))
    (max_channels t) (prefer_wired t) (session_con_list t) (active_on_trial_connections t)
    (successful_con_list t) (con_heap t) (delete n (nic_heap t)) (signals t).

(** A connection that does not keep its NIC in the table. *)
Definition useless (t : table) (n p : ptr) : bool :=
  (Z.land (nic_flags (nicp t n)) SMB2_MC_NIC_IN_IGNORELIST =? 0)
  && (is_state STATE_FAILED_TO_CONNECT t p || is_state STATE_NO_POTENTIAL t p).

(** [None]: the first address of a NIC without addresses is read. *)
Definition smb2_mc_remove_nic_if_unused (client : bool) (n : ptr) (s : session) : option session :=
  let t := tb s in
  let cons := List.filter (of_nic t client n) (session_con_list t) in
  if bool_decide (cons <> []) && forallb (useless t n) cons then
    match addrs s !!! n with
    | [] => None
    | _ => Some (Session (smb2_mc_release_interface client n (fold_left remove_con cons t))
                   (delete n (addrs s)) (mem s))
    end
  else Some s.

(** The last loop, over the NICs of the table; [waiting] are the updates that are left. *)
Fixpoint prune (client : bool) (l : list ptr) (waiting : list (ptr * McParse.nic_entry)) (s : session)
  : option session :=
  match l with
  | [] => Some s
  | n :: r =>
      let exists_ := existsb (fun q => McParse.e_index q.2 =? nic_index (nicp (tb s) n)) waiting in
      s' ← (if exists_ then Some s else smb2_mc_remove_nic_if_unused client n s);
      prune client r waiting s'
  end.

(** The result of the insertion is the error of the call.  Nothing is allocated after
    the connections are made. *)
Definition smb2_mc_update_nic_list_from_notifier (client : bool) (upd : list (ptr * McParse.nic_entry))
    (s : session) : option (Z * session) :=
  '(s1, need, waiting) ← merge_updates client upd upd false s;
  let '(e, t2) := if (need : bool) then smb2_mc_update_con_list (mem s1) (tb s1) else (0, tb s1) in
  let s2 := Session t2 (addrs s1) (mem s1) in
  s3 ← prune client (nic_list t2 client) waiting s2;
  Some (e, s3).
End Notify.
