(* ===== verification/McUpdate.v ===== *)
(** * Multichannel: an update of the NICs keeps the table well formed

    The call of [McNotify] ends and keeps the invariant of the table: only connections
    that are not in use are freed.  Together with the calls of [McReach] this gives the
    invariant of every table that is reached from the empty one.  What a freed or missing
    object would read as does not matter for the result of the update. *)
From S2P Require Import Prelude Mc McFacts McExcess McTrial McTable McReach McNotify.
From S2P Require McParse McParseTheorems.
From stdpp Require Import gmap.
Import Errno.
Local Open Scope Z_scope.

Section Update.
Context {stale_con : Inhabited con} {stale_nic : Inhabited nic}.

(** ** Addresses *)

(** A stored address, [sa_len] bytes long. *)
Definition addr_ok (a : list Z) : Prop :=
  McParseTheorems.stored_ok a /\ McParse.sa_len a = Z.of_nat (length a).

Lemma addr_ok_fits a : addr_ok a -> McParseTheorems.ip_fits a.
Proof. intros [H _]. by apply McParseTheorems.stored_fits. Qed.

Lemma addr_ok_src a : addr_ok a -> McParseTheorems.addr_src addr_ok a.
Proof.
  intros H. split; [by apply addr_ok_fits|]. pose proof H as [_ E]. rewrite E. split; [lia|].
  by rewrite Nat2Z.id, firstn_all.
Qed.

Lemma any_equal_defined a l b s : addr_ok a -> Forall addr_ok l ->
  exists c, any_equal a l b s = Some (c, s).
Proof.
  intros Ha Hl. revert b. induction Hl as [|x r Hx _ IH]; intros b; [by eexists|]. cbn.
  destruct (McParseTheorems.cmp_defined x a s) as [c Hc]; [by apply addr_ok_fits..|].
  rewrite (bind_some _ _ _ _ _ Hc). apply IH.
Qed.

Lemma keep_addrs_defined old new s : Forall addr_ok old -> Forall addr_ok new ->
  exists l, keep_addrs old new s = Some (l, s) /\ Forall addr_ok l.
Proof.
  intros Ho Hn. induction Ho as [|a r Ha _ (l & E & IH)]; [by eexists|]. cbn.
  destruct (any_equal_defined a new false s Ha Hn) as [c Hc].
  rewrite (bind_some _ _ _ _ _ Hc), (bind_some _ _ _ _ _ E). eexists. split; [done|].
  destruct c; [by constructor|done].
Qed.

(** With memory for it, an address is on the list afterwards. *)
Lemma update_ip_adds n a m : Forall addr_ok (McParse.addr_list n) -> addr_ok a -> (2 <= m)%nat ->
  exists e n' m', McParse.smb2_mc_update_info_with_ip n a (McParse.Parse m []) =
      Some ((e, n'), McParse.Parse m' []) /\
    (m <= m' + 2)%nat /\ Forall addr_ok (McParse.addr_list n') /\ McParse.addr_list n' <> [].
Proof.
  intros Hn Ha Hm. destruct (addr_ok_src a Ha) as (Hip & Hlen & Hq).
  unfold McParse.smb2_mc_update_info_with_ip.
  destruct (McParseTheorems.belongs_defined addr_ok addr_ok_fits (McParse.addr_list n) a
              (McParse.Parse m []) Hn Hip) as [b Hb].
  rewrite (bind_some _ _ _ _ _ Hb). destruct b.
  - eexists _, _, _. split; [done|]. split; [lia|]. split; [done|]. intros E. by rewrite E in Hb.
  - destruct m as [|[|k]]; [lia..|].
    erewrite bind_some by done. cbn [negb]. erewrite bind_some by done. cbn [negb].
    erewrite bind_some by (apply McParseTheorems.loadM_in; cbn; lia).
    eexists _, _, _. split; [done|]. split; [cbn; lia|]. rewrite drop_0. cbn [McParse.addr_list].
    split; [apply list.Forall_app_2; [done|by constructor]|by destruct (McParse.addr_list n)].
Qed.

Lemma add_addrs_defined new n m ch :
  Forall addr_ok (McParse.addr_list n) -> Forall addr_ok new -> (2 * length new <= m)%nat ->
  exists ch' n' m', add_addrs n new ch (McParse.Parse m []) = Some ((ch', n'), McParse.Parse m' []) /\
    (m <= m' + 2 * length new)%nat /\ Forall addr_ok (McParse.addr_list n') /\
    (new <> [] \/ McParse.addr_list n <> [] -> McParse.addr_list n' <> []).
Proof.
  intros Hn Hnew. revert n m ch Hn.
  induction Hnew as [|a r Ha _ IH]; intros n m ch Hn Hm; cbn [length] in Hm.
  - eexists _, _, _. split; [done|]. split; [lia|]. split; [done|]. intros [?|?]; done.
  - cbn [add_addrs]. destruct (update_ip_adds n a m Hn Ha) as (e & n1 & m1 & E & H1 & H2 & H3); [lia|].
    rewrite (bind_some _ _ _ _ _ E). edestruct (IH n1 m1) as (c & n2 & m2 & E2 & G1 & G2 & G3); [done|lia|].
    eexists _, _, _. split; [exact E2|]. split; [cbn [length]; lia|]. auto.
Qed.

Lemma update_ip_list_defined n new m :
  Forall addr_ok (McParse.addr_list n) -> Forall addr_ok new -> new <> [] -> (2 * length new <= m)%nat ->
  exists ch n' m', smb2_mc_update_ip_list n new (McParse.Parse m []) =
      Some ((ch, n'), McParse.Parse m' []) /\
    (m <= m' + 2 * length new)%nat /\ Forall addr_ok (McParse.addr_list n') /\ McParse.addr_list n' <> [].
Proof.
  intros Hn Hnew Hne Hm. unfold smb2_mc_update_ip_list.
  destruct (keep_addrs_defined (McParse.addr_list n) new (McParse.Parse m []) Hn Hnew) as (l & E & Hl).
  rewrite (bind_some _ _ _ _ _ E).
  edestruct (add_addrs_defined new (with_addrs n l) m) as (c & n' & m' & E' & H1 & H2 & H3); [done..|].
  eexists _, _, _. split; [exact E'|]. auto.
Qed.

(** ** The invariant of a session *)

Definition nic_addrs_ok (l : list (list Z)) : Prop := l <> [] /\ Forall addr_ok l.

(** The invariant of the table, with the flag of [inv]; no NIC is listed twice, and every
    NIC has addresses. *)
Record good (orderly : bool) (s : session) : Prop := {
  good_inv : inv orderly (tb s);
  good_nodup : forall client, NoDup (nic_list (tb s) client);
  good_sides : forall n, n ∈ client_nic_info_list (tb s) -> n ∉ server_nic_info_list (tb s);
  good_addrs : forall client n, n ∈ nic_list (tb s) client -> nic_addrs_ok (addrs s !!! n)
}.

Lemma inv_frame_params o t t' : frame same_links params_nic t t' -> inv o t -> inv o t'.
Proof.
  intros F. apply inv_by; [by apply (reshape_links params_nic)|]. intros W _.
  eapply wf_frame_poss; [|exact W]. eapply frame_mono; [| |exact F]; [done|]. by intros ?? [].
Qed.

Lemma frame_lists P Q t t' client : frame P Q t t' -> nic_list t' client = nic_list t client.
Proof. intros []. by destruct client. Qed.

Lemma reset_params n client t : frame same_links params_nic t (smb2_mc_reset_con_status n client t).
Proof. eapply frame_mono; [| |apply reset_frame]; [done|]. by intros ?? ->. Qed.

Lemma good_table o s t' : frame same_links params_nic (tb s) t' -> good o s ->
  good o (Session t' (addrs s) (mem s)).
Proof.
  intros F [I N D A]. split; cbn [tb addrs].
  - by eapply inv_frame_params.
  - intros client. by rewrite (frame_lists _ _ _ _ client F).
  - rewrite (fr_clients _ _ _ _ F), (fr_servers _ _ _ _ F). exact D.
  - intros client n. rewrite (frame_lists _ _ _ _ client F). apply A.
Qed.

Lemma good_set_addrs o s n l m : nic_addrs_ok l -> good o s ->
  good o (Session (tb s) (<[n := l]> (addrs s)) m).
Proof.
  intros Hl [I N D A]. split; [done..|]. cbn [tb addrs]. intros client q Hq.
  destruct (decide (q = n)) as [->|]; [by rewrite lookup_total_insert_eq|].
  rewrite lookup_total_insert_ne by done. by eapply A.
Qed.

(** ** Merging *)

(** A NIC of an update: its addresses, and the memory they take. *)
Definition entry_ok (e : McParse.nic_entry) : Prop := nic_addrs_ok (McParse.addr_list e).
Definition entry_mem (e : McParse.nic_entry) : nat := 2 * length (McParse.addr_list e).

Lemma update_nic_good o client n e s :
  good o s -> n ∈ nic_list (tb s) client -> entry_ok e -> (entry_mem e <= mem s)%nat ->
  exists s', update_nic client n e s = Some s' /\ good o s' /\
    (mem s <= mem s' + entry_mem e)%nat /\ dom (nic_heap (tb s')) = dom (nic_heap (tb s)).
Proof.
  intros G Hn [He1 He2] Hm. unfold update_nic.
  destruct (good_addrs _ _ G client n Hn) as [_ Ha].
  destruct (update_ip_list_defined (entry_of s n) (McParse.addr_list e) (mem s))
    as (ch & n' & m' & E & Hm' & Ha' & Hne); [done..|].
  rewrite E. cbn [mbind option_bind McParse.budget].
  set (t1 := upd_nic (set_ip_types _) n (tb s)).
  assert (F1 : frame same_links params_nic (tb s) t1) by (by apply frame_upd_nic; try apply _).
  set (t2 := if ch || _ then _ else _).
  assert (F2 : frame same_links params_nic t1 t2).
  { unfold t2. destruct (ch || _).
    - etransitivity; [|apply reset_params]. by apply frame_upd_nic; try apply _.
    - destruct client; [apply reset_params|reflexivity]. }
  assert (F : frame same_links params_nic (tb s) t2) by (by etransitivity).
  eexists. split; [done|]. split; [|split; [done|]].
  - by apply (good_set_addrs o (Session t2 (addrs s) (mem s))), good_table.
  - cbn [tb]. apply set_eq. intros q. rewrite !elem_of_dom. apply F.
Qed.

Lemma get_nic_found t l i n : smb2_mc_get_nic_by_index t l i = Some n ->
  n ∈ l /\ nic_index (nicp t n) = i.
Proof.
  unfold smb2_mc_get_nic_by_index. intros H%List.find_some. rewrite list_elem_of_In.
  by rewrite <- Z.eqb_eq.
Qed.

Lemma get_nic_missing t l i m : smb2_mc_get_nic_by_index t l i = None -> m ∈ l -> nic_index (nicp t m) <> i.
Proof.
  unfold smb2_mc_get_nic_by_index. intros H Hm. rewrite list_elem_of_In in Hm.
  eapply find_none in H; [|exact Hm]. by apply Z.eqb_neq.
Qed.

Lemma insert_nic_good o client p e s :
  good o s -> nic_heap (tb s) !! p = None -> entry_ok e ->
  smb2_mc_get_nic_by_index (tb s) (nic_list (tb s) client) (McParse.e_index e) = None ->
  good o (insert_nic client p e s) /\
  dom (nic_heap (tb (insert_nic client p e s))) = ({[p]} ∪ dom (nic_heap (tb s)) : gset ptr).
Proof.
  intros [I N D A] Hp He Hg. unfold insert_nic. set (x := mk_nic _ _ _ _ _ _ _).
  assert (Hc : p ∉ client_nic_info_list (tb s)).
  { intros H. destruct (sh_nics _ (proj1 I) p (or_introl H)). congruence. }
  assert (Hs : p ∉ server_nic_info_list (tb s)).
  { intros H. destruct (sh_nics _ (proj1 I) p (or_intror H)). congruence. }
  assert (HN : p ∉ nic_list (tb s) client) by (by destruct client).
  assert (EX : nicp (alloc_nic p x (tb s)) p = x) by (unfold nicp; cbn; by rewrite lookup_total_insert_eq).
  split; [|by destruct client; cbn; rewrite dom_insert_L].
  split; cbn [tb addrs].
  - apply inv_insert_nic; [by apply inv_alloc_nic|]. split; [cbn; by rewrite lookup_insert_eq|].
    rewrite EX. split; [done|]. split; [by destruct client|]. intros m Hm.
    assert (m ∈ nic_list (tb s) client) as Hm' by (by destruct client).
    assert (nicp (alloc_nic p x (tb s)) m = nicp (tb s) m) as ->.
    { unfold nicp. cbn. rewrite lookup_total_insert_ne; [done|]. by intros ->. }
    by eapply get_nic_missing.
  - intros side. specialize (N side). destruct client, side; cbn in N |- *; try done;
      rewrite insert_by_speed_perm; by apply NoDup_cons_2.
  - intros m. destruct client; cbn; rewrite elem_of_insert; [intros [->|Hm]|intros Hm [->|Hm2]]; auto.
    by eapply D.
  - intros side m Hm. destruct (decide (m = p)) as [->|Hne]; [by rewrite lookup_total_insert_eq|].
    rewrite lookup_total_insert_ne by done. apply (A side). destruct client, side; cbn in Hm |- *;
      rewrite ?elem_of_insert in Hm; tauto.
Qed.

Definition entries_mem (upd : list (ptr * McParse.nic_entry)) : nat := sum_list_with (fun q => entry_mem q.2) upd.

(** The updates are freshly allocated NICs. *)
Record update_ok (s : session) (upd : list (ptr * McParse.nic_entry)) : Prop := {
  upd_nodup : NoDup upd.*1;
  upd_fresh : Forall (fun q => nic_heap (tb s) !! q.1 = None) upd;
  upd_entries : Forall (fun q => entry_ok q.2) upd;
  upd_mem : (entries_mem upd <= mem s)%nat
}.

(** Every update is taken off the list. *)
Lemma merge_waiting client todo waiting need s s' need' w :
  merge_updates client todo waiting need s = Some (s', need', w) ->
  w = List.filter (fun q => bool_decide (q.1 ∉ todo.*1)) waiting.
Proof.
  revert waiting need s. induction todo as [|[p e] r IH]; intros waiting need s; cbn [merge_updates].
  - intros [= _ _ <-]. induction waiting as [|q l IHl]; [done|]. cbn.
    rewrite bool_decide_true by apply not_elem_of_nil. by f_equal.
  - assert (HF : List.filter (fun q => bool_decide (q.1 ∉ r.*1))
        (List.filter (fun q => negb (q.1 =? p)%positive) waiting) =
        List.filter (fun q : ptr * McParse.nic_entry => bool_decide (q.1 ∉ ((p, e) :: r).*1)) waiting).
    { clear. induction waiting as [|q l IHl]; [done|]. cbn.
      destruct (Pos.eqb_spec q.1 p) as [Eq|Eq]; cbn.
      - rewrite bool_decide_false; [done|]. rewrite elem_of_cons. tauto.
      - cbn in IHl. rewrite <- IHl. assert (q.1 ∉ r.*1 <-> q.1 ∉ p :: r.*1) as HE by (rewrite elem_of_cons; tauto).
        by rewrite (bool_decide_ext _ _ HE). }
    rewrite <- HF. destruct (smb2_mc_get_nic_by_index _ _ _) as [n|]; [|apply IH].
    destruct (update_nic client n e s); [apply IH|done].
Qed.

(** What is left of the updates can be merged after the first one. *)
Lemma merge_cons o client p e r s : good o s -> update_ok s ((p, e) :: r) ->
  let found := smb2_mc_get_nic_by_index (tb s) (nic_list (tb s) client) (McParse.e_index e) in
  (forall n s', found = Some n -> update_nic client n e s = Some s' -> good o s' /\ update_ok s' r) /\
  (found = None -> good o (insert_nic client p e s) /\ update_ok (insert_nic client p e s) r) /\
  (forall n, found = Some n -> is_Some (update_nic client n e s)).
Proof.
  intros G [U1 U2 U3 U4]. cbv zeta.
  apply list.NoDup_cons in U1 as [U1a U1]. apply list.Forall_cons in U2 as [U2a U2], U3 as [U3a U3].
  assert (U4' : (entry_mem e + entries_mem r <= mem s)%nat) by exact U4. clear U4. cbn in U2a, U3a, U1a.
  assert (HU : forall n, smb2_mc_get_nic_by_index (tb s) (nic_list (tb s) client) (McParse.e_index e) = Some n ->
    exists s', update_nic client n e s = Some s' /\ good o s' /\ update_ok s' r).
  { intros n [Hn _]%get_nic_found.
    destruct (update_nic_good o client n e s G Hn U3a) as (s1 & E1 & G1 & Hm & Hd); [lia|].
    exists s1. split; [done|]. split; [done|]. split; [done| |done|lia].
    eapply list.Forall_impl; [exact U2|]. intros q Hq. by rewrite <- not_elem_of_dom, Hd, not_elem_of_dom. }
  split; [|split].
  - intros n s' Hf E. destruct (HU n Hf) as (s1 & E1 & H). rewrite E1 in E. by injection E as <-.
  - intros E. destruct (insert_nic_good o client p e s G U2a U3a E) as [G1 Hd]. split; [done|].
    split; [done| |done|cbn [insert_nic mem]; lia].
    apply list.Forall_forall. intros q Hq. rewrite <- not_elem_of_dom, Hd, elem_of_union, elem_of_singleton.
    rewrite list.Forall_forall in U2. intros [E2|E2]; [|by apply not_elem_of_dom in E2; [|apply U2]].
    destruct U1a. rewrite <- E2. by apply list_elem_of_fmap_2.
  - intros n Hf. destruct (HU n Hf) as (s1 & -> & _). by eexists.
Qed.

Lemma merge_good o client todo waiting need s :
  good o s -> update_ok s todo ->
  exists s' need' w, merge_updates client todo waiting need s = Some (s', need', w) /\ good o s'.
Proof.
  revert waiting need s. induction todo as [|[p e] r IH]; intros waiting need s G U; cbn [merge_updates].
  - by eexists _, _, _.
  - destruct (merge_cons o client p e r s G U) as (H1 & H2 & H3).
    destruct (smb2_mc_get_nic_by_index _ _ _) as [n|].
    + destruct (H3 n eq_refl) as [s1 E1]. rewrite E1. cbn [mbind option_bind]. destruct (H1 n s1 eq_refl E1). by apply IH.
    + destruct (H2 eq_refl). by apply IH.
Qed.

(** ** Removing NICs *)

Lemma conp_remove_con t p q : q <> p -> conp (remove_con t p) q = conp t q.
Proof. intros H. unfold conp. cbn. by rewrite lookup_total_delete_ne. Qed.

Lemma wf_remove_con t p :
  wf t -> p ∈ session_con_list t -> linked (conp t p) = false -> wf (remove_con t p).
Proof.
  intros W Hp Hl. set (t' := remove_con t p). set (cn := con_client_nic (conp t p)).
  assert (EL : session_con_list t' = tailq_remove p (session_con_list t)) by done.
  assert (HL : forall q, q ∈ session_con_list t' <-> q ∈ session_con_list t /\ q <> p)
    by (intros q; rewrite EL; apply elem_of_tailq_remove).
  assert (EC : forall q, q <> p -> conp t' q = conp t q) by (intros; by apply conp_remove_con).
  assert (HS : forall q, q ∈ successful_con_list t -> q <> p).
  { intros q [_ Hq]%(wf_succ t W) ->. congruence. }
  assert (EN : forall n, is_Some (nic_heap t !! n) -> possible_connections (nicp t' n) =
    if bool_decide (n = cn) then tailq_remove p (possible_connections (nicp t n))
    else possible_connections (nicp t n)).
  { intros n [x Hx]. unfold nicp. cbn. fold cn. case_bool_decide as Hc.
    - subst n. by rewrite !lookup_total_alt, lookup_alter_eq, Hx.
    - by rewrite !lookup_total_alt, lookup_alter_ne. }
  split.
  - rewrite EL. by apply tailq_remove_NoDup, W.
  - apply W.
  - intros q [Hq Hne]%HL. cbn. rewrite lookup_delete_ne by done. by apply W.
  - intros q [Hq Hne]%HL. rewrite EC by done. by apply W.
  - intros q [Hq Hne]%HL. rewrite EC by done. by apply W.
  - intros q r [Hq Hne]%HL [Hr Hnr]%HL. rewrite !EC by done. by apply W.
  - intros n Hn. cbn. apply lookup_alter_is_Some. by apply W.
  - intros q. change (successful_con_list t') with (successful_con_list t). rewrite HL. split.
    + intros Hq. pose proof (HS q Hq) as Hne. rewrite EC by done. apply (wf_succ t W) in Hq. tauto.
    + intros [[Hq Hne] HE]. rewrite EC in HE by done. by apply (wf_succ t W).
  - intros n q Hn. change (n ∈ client_nic_info_list t) in Hn.
    rewrite HL, EN by (apply (wf_nics t W); auto).
    pose proof (wf_poss t W n q Hn) as HP. destruct (decide (q = p)) as [->|Hne].
    + case_bool_decide as Hc; [rewrite elem_of_tailq_remove; tauto|]. rewrite HP. unfold cn in Hc. intuition congruence.
    + rewrite EC by done. case_bool_decide; rewrite ?elem_of_tailq_remove, HP; tauto.
  - intros n Hn. change (n ∈ client_nic_info_list t) in Hn. rewrite EN by (apply (wf_nics t W); auto).
    case_bool_decide; [apply tailq_remove_NoDup|]; by apply W.
Qed.

Lemma remove_con_static t p : static t (remove_con t p).
Proof.
  split; [done|]. split; [done|]. intros n. unfold nicp. cbn.
  destruct (decide (n = con_client_nic (conp t p))) as [->|]; [|by rewrite !lookup_total_alt, lookup_alter_ne].
  rewrite !lookup_total_alt, lookup_alter_eq. by destruct (nic_heap t !! _).
Qed.

(** The connections of a NIC that is removed are gone, the others are as before. *)
Lemma remove_con_inv o t p :
  inv o t -> p ∈ session_con_list t -> linked (conp t p) = false -> inv o (remove_con t p).
Proof.
  intros I Hp Hl. apply (inv_lift o t); [done| |done]. intros k [W U].
  split; [|eapply static_unique; [apply remove_con_static|exact U]].
  by apply (wf_remove_con (with_succ t k)).
Qed.

Lemma remove_cons_spec o l t :
  inv o t -> NoDup l -> Forall (fun p => p ∈ session_con_list t /\ linked (conp t p) = false) l ->
  let t' := fold_left remove_con l t in
  inv o t' /\ static t t' /\
  (forall q, q ∈ session_con_list t' <-> q ∈ session_con_list t /\ q ∉ l) /\
  (forall q, q ∉ l -> conp t' q = conp t q).
Proof.
  revert t. induction l as [|p l IH]; intros t I ND HF; cbn [fold_left].
  - cbn. split; [done|]. split; [reflexivity|]. split; [|done]. intros q. rewrite elem_of_nil. tauto.
  - apply list.NoDup_cons in ND as [Hp ND]. apply list.Forall_cons in HF as [[Hin Hl] HF].
    assert (I1 : inv o (remove_con t p)) by (by apply remove_con_inv).
    assert (HE : forall q, q ∈ session_con_list (remove_con t p) <-> q ∈ session_con_list t /\ q <> p)
      by (intros; apply elem_of_tailq_remove).
    destruct (IH (remove_con t p) I1 ND) as (I2 & S2 & H2 & C2).
    { apply list.Forall_forall. intros q Hq. rewrite list.Forall_forall in HF.
      assert (q <> p) by (by intros ->). rewrite HE, conp_remove_con by done. by destruct (HF q Hq). }
    split; [done|]. split; [by etransitivity; [apply remove_con_static|]|]. split.
    + intros q. rewrite H2, HE, elem_of_cons. tauto.
    + intros q Hq. rewrite elem_of_cons in Hq. rewrite C2 by tauto. apply conp_remove_con. tauto.
Qed.

(** A NIC without connections can be released. *)
Lemma wf_release client n t :
  wf t /\ unique_index t -> (forall m, m ∈ client_nic_info_list t -> m ∉ server_nic_info_list t) -> n ∈ nic_list t client ->
  (forall p, p ∈ session_con_list t -> of_nic t client n p = false) ->
  let t' := smb2_mc_release_interface client n t in wf t' /\ unique_index t'.
Proof.
  intros [W [U1 U2]] HD Hn HC. cbv zeta. set (t' := smb2_mc_release_interface client n t).
  assert (H1 : forall m, m ∈ client_nic_info_list t' <-> m ∈ client_nic_info_list t /\ m <> n).
  { intros m. unfold t'. destruct client; cbn; [apply elem_of_tailq_remove|]. cbn in Hn. split; [|tauto].
    intros Hm. split; [done|]. intros ->. by apply (HD n). }
  assert (H2 : forall m, m ∈ server_nic_info_list t' <-> m ∈ server_nic_info_list t /\ m <> n).
  { intros m. unfold t'. destruct client; cbn; [|apply elem_of_tailq_remove]. cbn in Hn. split; [|tauto].
    intros Hm. split; [done|]. intros ->. by apply (HD n). }
  assert (EN : forall m, m <> n -> nicp t' m = nicp t m)
    by (intros m Hm; unfold nicp; cbn; by rewrite lookup_total_delete_ne).
  assert (EC : forall p, p ∈ session_con_list t -> con_client_nic (conp t p) <> n /\ con_server_nic (conp t p) <> n).
  { intros p Hp. specialize (HC p Hp). unfold of_nic in HC. pose proof (wf_client t W p Hp). pose proof (wf_server t W p Hp).
    destruct client; cbn in Hn; apply Pos.eqb_neq in HC; split; try done; intros E; rewrite E in *; by apply (HD n). }
  split.
  - split; try apply W.
    + intros p Hp. apply H1. split; [by apply (wf_client t W)|by apply EC].
    + intros p Hp. apply H2. split; [by apply (wf_server t W)|by apply EC].
    + intros m. rewrite H1, H2. intros Hm. cbn. rewrite lookup_delete_ne by (intros ->; tauto). apply (wf_nics t W). tauto.
    + intros m p [Hm Hne]%H1. rewrite EN by done. by apply (wf_poss t W).
    + intros m [Hm Hne]%H1. rewrite EN by done. by apply (wf_poss_nodup t W).
  - split; intros a b; rewrite ?H1, ?H2; intros [Ha Hna] [Hb Hnb]; rewrite !EN by done; auto.
Qed.

Lemma inv_release o client n t :
  inv o t -> (forall m, m ∈ client_nic_info_list t -> m ∉ server_nic_info_list t) -> n ∈ nic_list t client ->
  (forall p, p ∈ session_con_list t -> of_nic t client n p = false) ->
  inv o (smb2_mc_release_interface client n t).
Proof.
  intros I HD Hn HC. apply (inv_lift o t); [done| |done]. intros k WU.
  by apply (wf_release client n (with_succ t k)).
Qed.

Lemma useless_unlinked t n p : useless t n p = true -> linked (conp t p) = false.
Proof.
  unfold useless, is_state, linked. rewrite andb_true_iff, orb_true_iff, !bool_decide_eq_true.
  by intros [_ [-> | ->]].
Qed.

Lemma release_lists client n t m :
  m ∈ nic_list (smb2_mc_release_interface client n t) client <-> m ∈ nic_list t client /\ m <> n.
Proof. destruct client; apply elem_of_tailq_remove. Qed.

Lemma release_sides client n t m :
  (m ∈ client_nic_info_list (smb2_mc_release_interface client n t) -> m ∈ client_nic_info_list t) /\
  (m ∈ server_nic_info_list (smb2_mc_release_interface client n t) -> m ∈ server_nic_info_list t).
Proof. destruct client; cbn; split; intros H; try done; apply elem_of_tailq_remove in H; tauto. Qed.

Lemma remove_nic_good o client n s :
  good o s -> exists s', smb2_mc_remove_nic_if_unused client n s = Some s' /\ good o s'.
Proof.
  intros [I N D A]. unfold smb2_mc_remove_nic_if_unused. set (cons_ := List.filter _ _).
  destruct (bool_decide (cons_ <> []) && forallb (useless (tb s) n) cons_) eqn:E; [|by eexists].
  apply andb_true_iff in E as [E1%bool_decide_eq_true E2]. rewrite forallb_forall in E2.
  assert (HC : forall p, p ∈ cons_ <-> p ∈ session_con_list (tb s) /\ of_nic (tb s) client n p = true).
  { intros p. rewrite !list_elem_of_In. apply filter_In. }
  assert (HN : n ∈ nic_list (tb s) client).
  { destruct cons_ as [|p r]; [done|]. destruct (proj1 (HC p)) as [Hp Ho]; [apply list_elem_of_here|].
    destruct I as [W _]. unfold of_nic in Ho. destruct client; apply Pos.eqb_eq in Ho; subst n; by apply W. }
  destruct (A client n HN) as [Hne _]. destruct (addrs s !!! n) as [|a l] eqn:Ea; [done|].
  eexists. split; [done|].
  destruct (remove_cons_spec o cons_ (tb s)) as (I2 & (S1 & S2 & S3) & HS & HP); [done| | |].
  { apply NoDup_ListNoDup, List.NoDup_filter, NoDup_ListNoDup, I. }
  { apply list.Forall_forall. intros p Hp. split; [by apply HC|]. apply (useless_unlinked _ n).
    by apply E2, list_elem_of_In. }
  set (t' := fold_left remove_con cons_ (tb s)) in *.
  assert (S4 : nic_list t' client = nic_list (tb s) client) by (by destruct client).
  split; cbn [tb addrs].
  - apply inv_release; [done|by rewrite S1, S2|by rewrite S4|].
    intros p [Hp Hnot]%HS. unfold of_nic. rewrite HP by done.
    apply not_true_iff_false. intros Ho. by apply Hnot, HC.
  - intros side. specialize (N side). destruct side, client; cbn in N |- *; rewrite ?S1, ?S2; try done; by apply tailq_remove_NoDup.
  - intros m Hm Hm2. apply release_sides in Hm, Hm2. rewrite S1 in Hm. rewrite S2 in Hm2. by apply (D m).
  - intros side m Hm.
    assert (m ∈ nic_list (tb s) side /\ m <> n) as [Hm' Hmn].
    { destruct (decide (side = client)) as [->|Hside]; [by rewrite <- S4; apply release_lists|].
      assert (m ∈ nic_list (tb s) side) as Hm'.
      { assert (nic_list t' side = nic_list (tb s) side) as <- by (by destruct side).
        destruct side; by apply release_sides in Hm. }
      split; [done|]. intros ->. destruct side, client; try done; by eapply D. }
    rewrite lookup_total_delete_ne by done. by eapply A.
Qed.

(** Only the NIC itself is taken off its list. *)
Lemma remove_nic_lists client n s s' : smb2_mc_remove_nic_if_unused client n s = Some s' ->
  forall m, m ∈ nic_list (tb s) client -> m <> n -> m ∈ nic_list (tb s') client.
Proof.
  unfold smb2_mc_remove_nic_if_unused. destruct (_ && _); [|by intros [= <-]].
  destruct (addrs s !!! n) as [|x xs]; [done|]. intros [= <-] m Hm Hne. cbn [tb]. apply release_lists. split; [|done].
  set (l := List.filter _ _). clearbody l. revert Hm. generalize (tb s).
  induction l as [|p l IH]; intros t Hm; cbn [fold_left]; [done|]. apply IH. by destruct client.
Qed.

(** The pairs with the new NICs. *)
Lemma connected_good o (need : bool) s : good o s ->
  let r := if need then smb2_mc_update_con_list (mem s) (tb s) else (0, tb s) in
  good o (Session r.2 (addrs s) (mem s)).
Proof.
  intros G. destruct need; [|by destruct s]. destruct G as [I1 N1 D1 A1].
  pose proof (inv_update_con_list o (mem s) (tb s) I1) as I2.
  pose proof (update_con_list_lists (mem s) (tb s)) as [E1 E2].
  destruct (smb2_mc_update_con_list (mem s) (tb s)) as [e t2]. cbn [snd] in *.
  assert (EL : forall side, nic_list t2 side = nic_list (tb s) side) by (by intros []).
  split; cbn [tb addrs]; [done|intros side; by rewrite EL|by rewrite E1, E2|]. intros side n. rewrite EL. apply A1.
Qed.

Lemma prune_good o client l waiting s : good o s -> exists s', prune client l waiting s = Some s' /\ good o s'.
Proof.
  revert s. induction l as [|n r IH]; intros s G; cbn [prune]; [by eexists|].
  destruct (existsb _ _); cbn [mbind option_bind]; [by apply IH|].
  destruct (remove_nic_good o client n s G) as (s1 & -> & G1). by apply IH.
Qed.

Lemma update_good o client upd s :
  good o s -> update_ok s upd ->
  exists e s', smb2_mc_update_nic_list_from_notifier client upd s = Some (e, s') /\ good o s'.
Proof.
  intros G U. unfold smb2_mc_update_nic_list_from_notifier.
  destruct (merge_good o client upd upd false s G U) as (s1 & need & w & -> & G1). cbn [mbind option_bind].
  pose proof (connected_good o need s1 G1) as G2. set (r := if need then _ else _) in *.
  destruct r as [e t2]. destruct (prune_good o client (nic_list t2 client) w _ G2) as (s3 & E3 & G3).
  cbn [snd] in E3. rewrite E3. by eexists _, _.
Qed.

(** ** Reads of live objects only

    With another pair of values for what a missing object reads as, the update is the
    same. *)

Section Stale.
Variables (a : con) (b : nic).

Abbreviation conp' := (@conp (populate a)).
Abbreviation nicp' := (@nicp (populate b)).

Lemma conp_live t p : is_Some (con_heap t !! p) -> conp' t p = conp t p.
Proof. intros [c E]. unfold conp. by rewrite !lookup_total_alt, E. Qed.

Lemma nicp_live t n : is_Some (nic_heap t !! n) -> nicp' t n = nicp t n.
Proof. intros [x E]. unfold nicp. by rewrite !lookup_total_alt, E. Qed.

Lemma find_live {A} (f g : A -> bool) l : (forall x, x ∈ l -> f x = g x) -> List.find f l = List.find g l.
Proof.
  induction l as [|x l IH]; intros H; cbn; [done|]. rewrite (H x) by apply list_elem_of_here.
  destruct (g x); [done|]. apply IH. intros y Hy. by apply H, list_elem_of_further.
Qed.

Lemma get_nic_live t l i : (forall n, n ∈ l -> is_Some (nic_heap t !! n)) ->
  @smb2_mc_get_nic_by_index (populate b) t l i = smb2_mc_get_nic_by_index t l i.
Proof. intros H. apply find_live. intros n Hn. by rewrite nicp_live by auto. Qed.

(** The NICs of a connection of the table. *)
Lemma ends_live t p : shaped t -> p ∈ session_con_list t ->
  conp' t p = conp t p /\ @client_nic (populate a) (populate b) t p = client_nic t p /\
  @server_nic (populate a) (populate b) t p = server_nic t p.
Proof.
  intros S Hp. pose proof (conp_live t p (sh_dom t S p Hp)) as E. unfold client_nic, server_nic. rewrite E.
  split; [done|]. split; apply nicp_live, S; [left|right]; by apply S.
Qed.

Lemma reset_con_live client n t p : shaped t -> p ∈ session_con_list t -> is_Some (nic_heap t !! n) ->
  @reset_con (populate a) (populate b) client n t p = reset_con client n t p.
Proof.
  intros S Hp Hn. destruct (ends_live t p S Hp) as (E1 & E2 & E3).
  unfold reset_con, of_nic, is_state, refresh_speed, link_speed. by rewrite E1, E2, E3, nicp_live.
Qed.

Lemma reset_live client n t : shaped t -> is_Some (nic_heap t !! n) ->
  @smb2_mc_reset_con_status (populate a) (populate b) n client t = smb2_mc_reset_con_status n client t.
Proof.
  intros S Hn. unfold smb2_mc_reset_con_status.
  assert (HL : forall p, p ∈ session_con_list t -> p ∈ session_con_list t) by done. revert HL.
  generalize (session_con_list t) at 1 3 4. intros l. revert t S Hn. induction l as [|p l IH]; intros t S Hn HL; [done|].
  cbn [fold_left]. rewrite reset_con_live by (done || by apply HL, list_elem_of_here).
  pose proof (reset_con_frame client n t p) as F. apply IH.
  - eapply reshape_shaped; [|exact S]. eapply (reshape_links eq); [by intros ?? ->|done].
  - by apply (fr_ndom _ _ _ _ F).
  - intros q Hq. rewrite (fr_session _ _ _ _ F). by apply HL, list_elem_of_further.
Qed.

Lemma update_nic_live o client n e s : good o s -> n ∈ nic_list (tb s) client ->
  @update_nic (populate a) (populate b) client n e s = update_nic client n e s.
Proof.
  intros G Hn. assert (HL : is_Some (nic_heap (tb s) !! n)).
  { apply (sh_nics _ (proj1 (good_inv _ _ G))). destruct client; [by left|by right]. }
  unfold update_nic, entry_of. rewrite nicp_live by done.
  destruct (smb2_mc_update_ip_list _ _ _) as [[[ch n'] ps]|]; cbn [mbind option_bind]; [|done].
  set (t1 := upd_nic _ n (tb s)). do 2 f_equal.
  assert (H1 : forall t2, frame same_links params_nic t1 t2 -> shaped t2 /\ is_Some (nic_heap t2 !! n)).
  { intros t2 F2. assert (F : frame same_links params_nic (tb s) t2).
    { etransitivity; [|exact F2]. by apply frame_upd_nic; try apply _. }
    split; [|by apply (fr_ndom _ _ _ _ F)]. eapply reshape_shaped; [|apply (good_inv _ _ G)]. by apply (reshape_links params_nic). }
  destruct (ch || _).
  - apply reset_live; apply H1; by apply frame_upd_nic; try apply _.
  - destruct client; [apply reset_live; by apply H1|done].
Qed.

Lemma insert_live t n l : (forall m, m ∈ l -> is_Some (nic_heap t !! m)) -> is_Some (nic_heap t !! n) ->
  @insert_by_speed (populate b) t n l = insert_by_speed t n l.
Proof.
  intros HL Hn. induction l as [|m l IH]; cbn; [done|].
  rewrite !nicp_live by (done || by apply HL, list_elem_of_here). rewrite IH; [done|]. intros q Hq. by apply HL, list_elem_of_further.
Qed.

Lemma insert_nic_live o client p e s : good o s -> nic_heap (tb s) !! p = None ->
  @insert_nic (populate b) client p e s = insert_nic client p e s.
Proof.
  intros G Hp. unfold insert_nic, smb2_mc_insert_new_nic_by_speed. set (x := mk_nic _ _ _ _ _ _ _).
  assert (HN : is_Some (nic_heap (alloc_nic p x (tb s)) !! p)) by (cbn; by rewrite lookup_insert_eq).
  assert (HL : forall m, m ∈ client_nic_info_list (tb s) \/ m ∈ server_nic_info_list (tb s) ->
                         is_Some (nic_heap (alloc_nic p x (tb s)) !! m)).
  { intros m [y Hm]%(sh_nics _ (proj1 (good_inv _ _ G))). cbn. rewrite lookup_insert_ne; [by eexists|]. congruence. }
  destruct client; rewrite insert_live; try done; intros m Hm; apply HL; [by left|by right].
Qed.

Lemma merge_live o client todo waiting need s : good o s -> update_ok s todo ->
  @merge_updates (populate a) (populate b) client todo waiting need s = merge_updates client todo waiting need s.
Proof.
  revert waiting need s. induction todo as [|[p e] r IH]; intros waiting need s G U; cbn [merge_updates]; [done|].
  rewrite get_nic_live.
  2: { intros n Hn. apply (sh_nics _ (proj1 (good_inv _ _ G))). destruct client; [by left|by right]. }
  destruct (merge_cons o client p e r s G U) as (H1 & H2 & _). destruct (smb2_mc_get_nic_by_index _ _ _) as [n|] eqn:E.
  - rewrite (update_nic_live o) by (done || by eapply get_nic_found).
    destruct (update_nic client n e s) as [s'|] eqn:Eu; cbn [mbind option_bind]; [|done].
    destruct (H1 n s' eq_refl Eu). by apply IH.
  - rewrite (insert_nic_live o) by (done || exact (List.Forall_inv (upd_fresh _ _ U))). destruct (H2 eq_refl). by apply IH.
Qed.

Lemma update_pair_live t m cn sn :
  shaped t -> cn ∈ client_nic_info_list t -> sn ∈ server_nic_info_list t ->
  @update_pair (populate a) (populate b) t m cn sn = update_pair t m cn sn.
Proof.
  intros S Hc Hs. unfold update_pair, new_con, new_con_state.
  assert (EF : @find_con_by_nics (populate a) t cn sn = find_con_by_nics t cn sn).
  { apply find_live. intros p Hp. by rewrite conp_live by (by apply S). }
  rewrite EF, !nicp_live by (apply S; auto). clear EF. pose proof (find_con_spec t cn sn) as HF.
  destruct (find_con_by_nics t cn sn) as [p|]; [|done]. destruct HF as (Hp & _). unfold is_state. by rewrite conp_live by (by apply S).
Qed.

Lemma update_con_list_live m t : shaped t ->
  @smb2_mc_update_con_list (populate a) (populate b) m t = smb2_mc_update_con_list m t.
Proof.
  intros S. unfold smb2_mc_update_con_list. set (l := list_prod _ _).
  assert (HL : forall cn sn, (cn, sn) ∈ l -> cn ∈ client_nic_info_list t /\ sn ∈ server_nic_info_list t).
  { intros cn sn [? ?]%list_elem_of_In%in_prod_iff. by rewrite !list_elem_of_In. }
  clearbody l. assert (E : @update_pairs (populate a) (populate b) t m l = update_pairs t m l); [|by rewrite E].
  revert t m S HL. induction l as [|[cn sn] l IH]; intros t m S HL; cbn [update_pairs]; [done|].
  destruct (HL cn sn (list_elem_of_here _ _)) as [Hc Hs]. rewrite update_pair_live by done.
  pose proof (update_pair_shaped t m cn sn S Hc Hs) as S1. pose proof (update_pair_lists t m cn sn) as EL.
  destruct (update_pair t m cn sn) as [[e t1] m1]. cbn [fst snd] in *. destruct EL as [E1 E2]. destruct (e =? 0); [|done].
  apply IH; [done|]. rewrite E1, E2. intros c k Hk. by apply HL, list_elem_of_further.
Qed.

Lemma remove_nic_live o client n s : good o s -> n ∈ nic_list (tb s) client ->
  @smb2_mc_remove_nic_if_unused (populate a) (populate b) client n s = smb2_mc_remove_nic_if_unused client n s.
Proof.
  intros G Hn. pose proof (proj1 (good_inv _ _ G)) as S. unfold smb2_mc_remove_nic_if_unused.
  assert (EF : List.filter (@of_nic (populate a) (tb s) client n) (session_con_list (tb s))
               = List.filter (of_nic (tb s) client n) (session_con_list (tb s))).
  { apply filter_ext_in. intros p Hp%list_elem_of_In. unfold of_nic. by rewrite conp_live by (by apply S). }
  rewrite EF. set (cs := List.filter _ _).
  assert (HC : forall p, p ∈ cs -> p ∈ session_con_list (tb s)).
  { intros p. rewrite !list_elem_of_In. unfold cs. rewrite filter_In. tauto. }
  assert (ND : NoDup cs) by (apply NoDup_ListNoDup, List.NoDup_filter, NoDup_ListNoDup, S). clearbody cs.
  assert (EU : forallb (@useless (populate a) (populate b) (tb s) n) cs = forallb (useless (tb s) n) cs).
  { clear ND EF. induction cs as [|p l IH]; cbn; [done|]. rewrite IH by (intros q Hq; by apply HC, list_elem_of_further).
    unfold useless at 1 3, is_state. rewrite conp_live by (apply S, HC, list_elem_of_here).
    rewrite nicp_live; [done|]. apply S. destruct client; [by left|by right]. }
  rewrite EU. destruct (_ && _); [|done]. destruct (addrs s !!! n) as [|x xs]; [done|]. do 3 f_equal.
  assert (HD : forall p, p ∈ cs -> is_Some (con_heap (tb s) !! p)) by (intros; by apply S, HC).
  clear EF EU HC Hn S G. revert HD. generalize (tb s). induction ND as [|p l Hp ND IH]; intros t HD; cbn [fold_left]; [done|].
  assert (ER : @remove_con (populate a) t p = remove_con t p).
  { unfold remove_con. by rewrite conp_live by (apply HD, list_elem_of_here). }
  rewrite ER. apply IH. intros q Hq. cbn. rewrite lookup_delete_ne by (by intros ->). by apply HD, list_elem_of_further.
Qed.

Lemma prune_live o client l waiting s : good o s -> NoDup l -> (forall n, n ∈ l -> n ∈ nic_list (tb s) client) ->
  @prune (populate a) (populate b) client l waiting s = prune client l waiting s.
Proof.
  intros G ND. revert s G. induction ND as [|n r Hn ND IH]; intros s G HL; cbn [prune]; [done|].
  assert (Hin : n ∈ nic_list (tb s) client) by (by apply HL, list_elem_of_here).
  rewrite nicp_live by (apply (good_inv _ _ G); destruct client; [by left|by right]).
  destruct (existsb _ _); cbn [mbind option_bind].
  { apply IH; [done|]. intros q Hq. by apply HL, list_elem_of_further. }
  rewrite (remove_nic_live o) by done. destruct (remove_nic_good o client n s G) as (s1 & E1 & G1). rewrite E1. apply IH; [done|].
  intros q Hq. pose proof (remove_nic_lists client n s s1 E1 q) as HQ. apply HQ; [by apply HL, list_elem_of_further|]. by intros ->.
Qed.

Lemma update_live o client upd s : good o s -> update_ok s upd ->
  @smb2_mc_update_nic_list_from_notifier (populate a) (populate b) client upd s =
  smb2_mc_update_nic_list_from_notifier client upd s.
Proof.
  intros G U. unfold smb2_mc_update_nic_list_from_notifier. rewrite (merge_live o) by done.
  destruct (merge_good o client upd upd false s G U) as (s1 & need & w & -> & G1). cbn [mbind option_bind].
  rewrite update_con_list_live by apply (good_inv _ _ G1). pose proof (connected_good o need s1 G1) as G2.
  destruct (if need then _ else _) as [e t2]. rewrite (prune_live o); [done|done|apply (good_nodup _ _ G2)|done].
Qed.
End Stale.

(** C35: an update of the NICs of a session, each with addresses of their type and with
    memory for them, on a table that is well formed returns, and leaves a well-formed
    table: the lists of connections and NICs agree and lead to objects, the NICs of a side
    are told apart by their index, and every NIC has an address.  The result is the same
    whatever [sc] and [sn] a freed or missing connection or NIC would read as, so that the
    update reads none.  [orderly]: the successful list is exact before, and then it is
    after. *)
Theorem notifier_update_keeps_table orderly client upd s :
  good orderly s -> update_ok s upd ->
  exists e s', (forall sc sn, @smb2_mc_update_nic_list_from_notifier sc sn client upd s = Some (e, s')) /\ good orderly s'.
Proof.
  intros G U. destruct (update_good orderly client upd s G U) as (e & s' & E & G'). exists e, s'. split; [|done].
  intros [a] [b]. by rewrite (update_live a b orderly).
Qed.

(** ** Reachable tables *)





(** ** Checking the invariant *)

Definition unique_check (t : table) (l : list ptr) : Prop :=
  Forall (fun m => Forall (fun n => nic_index (nicp t m) = nic_index (nicp t n) -> m = n) l) l.

Definition good_check (s : session) : Prop :=
  wf_check (tb s) /\ unique_check (tb s) (client_nic_info_list (tb s)) /\
  unique_check (tb s) (server_nic_info_list (tb s)) /\
  NoDup (client_nic_info_list (tb s)) /\ NoDup (server_nic_info_list (tb s)) /\
  Forall (fun n => n ∉ server_nic_info_list (tb s)) (client_nic_info_list (tb s)) /\
  Forall (fun n => nic_addrs_ok (addrs s !!! n)) (client_nic_info_list (tb s) ++ server_nic_info_list (tb s)).

#[export] Instance addr_ok_dec a : Decision (addr_ok a).
Proof. unfold addr_ok, McParseTheorems.stored_ok. apply _. Defined.

#[export] Instance good_check_dec s : Decision (good_check s).
Proof. unfold good_check, unique_check, nic_addrs_ok. apply _. Defined.

Lemma good_of_check o s : bool_decide (good_check s) = true -> good o s.
Proof.
  intros (H1 & H2 & H3 & N1 & N2 & H4 & H5)%bool_decide_eq_true.
  unfold unique_check in *. rewrite !list.Forall_forall in *.
  assert (W : wf (tb s)) by (by apply wf_of_check, bool_decide_eq_true). apply wf_iff in W as [S HS]. split; [|by intros []|done|].
  - split; [done|]. split; [|done].
    split; intros m n Hm Hn; [specialize (H2 m Hm)|specialize (H3 m Hm)]; rewrite list.Forall_forall in *; auto.
  - intros side n Hn. apply H5. rewrite elem_of_app. destruct side; auto.
Qed.

(** The updates are taken off their list as they are merged, so that none is left when
    the NICs that were not reported are looked for. *)
Lemma merge_leaves_none client upd s s' need w :
  merge_updates client upd upd false s = Some (s', need, w) -> w = [].
Proof.
  intros ->%merge_waiting. assert (H : forall l, l ⊆ upd ->
    List.filter (fun q => bool_decide (q.1 ∉ upd.*1)) l = []); [|by apply H].
  induction l as [|q l IH]; intros Hl; [done|]. cbn. rewrite bool_decide_false.
  - apply IH. set_solver.
  - intros Hq. apply Hq, list_elem_of_fmap_2, Hl, list_elem_of_here.
Qed.

End Update.

#[local] Existing Instances demo_stale_con demo_stale_nic.

Definition demo_addr (k : Z) : list Z := [16; 2; 0; 0; 10; 0; 0; k] ++ replicate 8 0.

(** No connection to the server's first NIC could be made. *)
Definition demo_session : session :=
  Session (demo_table 4 []
    (demo_cons STATE_FAILED_TO_CONNECT STATE_POTENTIAL STATE_FAILED_TO_CONNECT STATE_POTENTIAL)
    (demo_nics NIC_IDLE NIC_IDLE NIC_IDLE NIC_IDLE))
    (<[1%positive := [demo_addr 1]]> (<[2%positive := [demo_addr 2]]>
       (<[3%positive := [demo_addr 3]]> (<[4%positive := [demo_addr 4]]> ∅)))) 20.

(** The server reports a NIC as it is, and one that is new. *)
Definition demo_update : list (ptr * McParse.nic_entry) :=
  [(30%positive, McParse.NicEntry 7 1000 0 IFM_ETHER 1 0 [demo_addr 3]);
   (31%positive, McParse.NicEntry 9 2000 0 IFM_ETHER 1 0 [demo_addr 5])].

Lemma notifier_update_keeps_table_witness :
  exists e s', (forall sc sn, @smb2_mc_update_nic_list_from_notifier sc sn false demo_update demo_session = Some (e, s')) /\
    good true s'.
Proof.
  apply (notifier_update_keeps_table true false demo_update demo_session);
    [apply good_of_check; vm_compute; reflexivity|].
  split; [| | |cbn; lia]; apply (bool_decide_eq_true_1 _); vm_compute; reflexivity.
Defined.

(** A NIC that the server reports, unchanged, is nevertheless removed from the table
    with its connections, when none of these is in use: it is looked for in a list from
    which the update has already been removed. *)
Theorem reported_nic_removed :
  3%positive ∈ server_nic_info_list (tb demo_session) /\
  option_map (fun r => (server_nic_info_list (tb r.2), session_con_list (tb r.2),
                        nic_index <$> nic_heap (tb r.2) !! 3%positive))
    (smb2_mc_update_nic_list_from_notifier false demo_update demo_session)
  = Some ([31; 4]%positive, [11; 13; 14; 15]%positive, None).
Proof. split; [apply list_elem_of_here|]. vm_compute. reflexivity. Qed.

(** ** A life of a session *)





