(* ===== verification/Brl.v ===== *)
(** Byte-range locks and flock of a file node.

    [kernel/smbfs/smbfs_node.c] from [AddRemoveByteRangeLockEntry] to
    [smbfs_get_lockEntry], the byte-range lock command of [smbfs_vnop_ioctl] and
    [smbfs_vnop_advlock] of [kernel/smbfs/smbfs_vnops.c].

    A regular file has one FID for opens with deny modes ([lockFID]) and one for
    all other opens ([sharedFID]).  The shared FID is closed and opened again when
    its access changes, and a close drops the locks of a FID, so that locks of the
    shared opens live on FIDs of their own: one of three lock entries, by access
    mode.  A pointer to a lock entry is its index 0, 1 or 2; the pointer to the
    other kind of entry, always [&np->f_lockFID], is a bool (not NULL).

    The SMB calls (lock, close, create, the update of the vnode's lease) are the
    class [Wire]: their answers are arbitrary, and the theorems that need a server
    to behave state so in [LockServer].  What the ioctl and advlock are told by
    the VFS ([file_flags], [vnode_isdir], [smbfsIsCacheable]) and the answer of
    [smbfs_smb_reopen_file] are arguments. *)
From S2P Require Import Prelude.
Import Errno.

(** ** Data *)

Definition kAccessRead := 0x01.
Definition kAccessWrite := 0x02.
Definition FREAD := 0x0001.
Definition FWRITE := 0x0002.
Definition SMB_LOCK_EXCL := 0.
Definition SMB_LOCK_RELEASE := 2.
Definition N_ISRSRCFRK := 0x00004.
Definition NISMAPPED := 0x00008.
Definition NNEEDS_UBC_INVALIDATE := 0x04000.
Definition NNEEDS_UBC_PUSHDIRTY := 0x08000.

Record ByteRangeLockEntry := BRL {
  brl_offset : Z;
  brl_length : Z;
  brl_lck_pid : Z;
  brl_p_pid : Z
}.

Record smb2_durable_handle := Dur {
  dur_flags : Z;
  dur_fid : Z;
  dur_timeout : Z;
  dur_create_guid : list Z
}.

Record fileRefEntryBRL := Entry {
  refcnt : Z;
  fid : Z;
  accessMode : Z;
  rights : Z;
  lockList : list ByteRangeLockEntry;
  dur_handle : smb2_durable_handle
}.

Record smbfs_flock := Flock {
  fl_type : Z;
  fl_refcnt : Z;
  fl_lck_pid : Z;
  fl_start : Z;
  fl_len : Z;
  access_mode : Z
}.

(** The fields of [struct smbnode] that the locks use. *)
Record smbnode := Node {
  f_sharedFID_refcnt : Z;
  f_sharedFID_fid : Z;
  f_sharedFID_accessMode : Z;
  f_sharedFID_lockEntries : list fileRefEntryBRL;
  f_lockFID_refcnt : Z;
  f_lockFID_fid : Z;
  f_lockFID_accessMode : Z;
  f_lockFID_lockList : list ByteRangeLockEntry;
  f_smbflock : option smbfs_flock;
  f_smbflock_pid : Z;
  f_hasBRLs : Z;
  n_size : Z;
  n_flag : Z
}.

Definition dur_zero : smb2_durable_handle := Dur 0 0 0 (replicate 16 0).
#[export] Instance Entry_inhabited : Inhabited fileRefEntryBRL :=
  populate (Entry 0 0 0 0 [] dur_zero).

Definition with_lockList (ll : list ByteRangeLockEntry) (e : fileRefEntryBRL) : fileRefEntryBRL :=
  Entry (refcnt e) (fid e) (accessMode e) (rights e) ll (dur_handle e).

Definition with_lockEntries (es : list fileRefEntryBRL) (n : smbnode) : smbnode :=
  Node (f_sharedFID_refcnt n) (f_sharedFID_fid n) (f_sharedFID_accessMode n) es
       (f_lockFID_refcnt n) (f_lockFID_fid n) (f_lockFID_accessMode n) (f_lockFID_lockList n)
       (f_smbflock n) (f_smbflock_pid n) (f_hasBRLs n) (n_size n) (n_flag n).

Definition with_lockFID_lockList (ll : list ByteRangeLockEntry) (n : smbnode) : smbnode :=
  Node (f_sharedFID_refcnt n) (f_sharedFID_fid n) (f_sharedFID_accessMode n)
       (f_sharedFID_lockEntries n)
       (f_lockFID_refcnt n) (f_lockFID_fid n) (f_lockFID_accessMode n) ll
       (f_smbflock n) (f_smbflock_pid n) (f_hasBRLs n) (n_size n) (n_flag n).

Definition with_flock (fl : option smbfs_flock) (pid : Z) (n : smbnode) : smbnode :=
  Node (f_sharedFID_refcnt n) (f_sharedFID_fid n) (f_sharedFID_accessMode n)
       (f_sharedFID_lockEntries n)
       (f_lockFID_refcnt n) (f_lockFID_fid n) (f_lockFID_accessMode n) (f_lockFID_lockList n)
       fl pid (f_hasBRLs n) (n_size n) (n_flag n).

Definition with_cache_flags (brls flag : Z) (n : smbnode) : smbnode :=
  Node (f_sharedFID_refcnt n) (f_sharedFID_fid n) (f_sharedFID_accessMode n)
       (f_sharedFID_lockEntries n)
       (f_lockFID_refcnt n) (f_lockFID_fid n) (f_lockFID_accessMode n) (f_lockFID_lockList n)
       (f_smbflock n) (f_smbflock_pid n) brls (n_size n) flag.

(** The lock entry at an index, and its replacement. *)
Definition ent (n : smbnode) (i : nat) : fileRefEntryBRL := f_sharedFID_lockEntries n !!! i.
Definition set_ent (i : nat) (e : fileRefEntryBRL) (n : smbnode) : smbnode :=
  with_lockEntries (<[i := e]> (f_sharedFID_lockEntries n)) n.

(** ** The lists of locks *)

(** Removal of the first entry with this offset and this length. *)
Fixpoint remove_range (off len : Z) (ll : list ByteRangeLockEntry) : list ByteRangeLockEntry :=
  match ll with
  | [] => []
  | c :: r => if (brl_offset c =? off) && (brl_length c =? len) then r
              else c :: remove_range off len r
  end.

Definition add_remove (off len unLock lpid pid : Z) (ll : list ByteRangeLockEntry)
  : list ByteRangeLockEntry :=
  if unLock =? 0 then ll ++ [BRL off len lpid pid] else remove_range off len ll.

Definition AddRemoveByteRangeLockEntry (fileEntry : bool) (fileBRLEntry : option nat)
    (off len unLock lpid : Z) (context : option Z) (n : smbnode) : smbnode :=
  match context with
  | None => n
  | Some pid =>
      if fileEntry then
        with_lockFID_lockList (add_remove off len unLock lpid pid (f_lockFID_lockList n)) n
      else match fileBRLEntry with
        | None => n
        | Some i =>
            set_ent i (with_lockList (add_remove off len unLock lpid pid (lockList (ent n i)))
                                     (ent n i)) n
        end
  end.

(** The walk of [CheckByteRangeLockEntry]: the lock holder if one is found, and
    the list, which the exact match overwrites as it goes. *)
Fixpoint check_list (off len exact_match : Z) (ll : list ByteRangeLockEntry)
  : option Z * list ByteRangeLockEntry :=
  match ll with
  | [] => (None, [])
  | c :: r =>
      let next (c' : ByteRangeLockEntry) :=
        let '(h, r') := check_list off len exact_match r in (h, c' :: r') in
      if exact_match =? 0 then
        let cend := i64 (brl_offset c + brl_length c) in
        if (off <=? brl_offset c) && (brl_offset c <? i64 (off + len)) then
          (Some (brl_p_pid c), ll)
        else if (off <? cend) && (cend <=? i64 (off + len)) then
          (Some (brl_p_pid c), ll)
        else next c
      else
        let c1 := BRL off (brl_length c) (brl_lck_pid c) (brl_p_pid c) in
        if off =? 0 then next c1
        else
          let c2 := BRL off len (brl_lck_pid c) (brl_p_pid c) in
          if len =? 0 then next c2 else (Some (brl_p_pid c), c2 :: r)
  end.

Definition CheckByteRangeLockEntry (fileEntry : bool) (fileBRLEntry : option nat)
    (off len exact_match : Z) (n : smbnode) : option Z * smbnode :=
  if fileEntry then
    let '(h, ll) := check_list off len exact_match (f_lockFID_lockList n) in
    (h, with_lockFID_lockList ll n)
  else match fileBRLEntry with
    | None => (None, n)
    | Some i =>
        let '(h, ll) := check_list off len exact_match (lockList (ent n i)) in
        (h, set_ent i (with_lockList ll (ent n i)) n)
    end.

Definition same_lock (off len pid : Z) (c : ByteRangeLockEntry) : bool :=
  (brl_offset c =? off) && (brl_length c =? len) && (brl_p_pid c =? pid).

Definition FindByteRangeLockEntry (fileEntry : bool) (fileBRLEntry : option nat)
    (off len : Z) (context : option Z) (n : smbnode) : bool :=
  match context with
  | None => false
  | Some pid =>
      if fileEntry then existsb (same_lock off len pid) (f_lockFID_lockList n)
      else match fileBRLEntry with
        | None => false
        | Some i => existsb (same_lock off len pid) (lockList (ent n i))
        end
  end.

(** ** The lock entries of the shared FID *)

Definition smbfs_find_lockEntry (mode : Z) : option nat :=
  if mode =? Z.lor kAccessRead kAccessWrite then Some 0%nat
  else if mode =? kAccessRead then Some 1%nat
  else if mode =? kAccessWrite then Some 2%nat
  else None.

(** All fields but [rights] are reset. *)
Definition cleared (e : fileRefEntryBRL) : fileRefEntryBRL :=
  Entry 0 0 0 (rights e) [] dur_zero.

Definition smbfs_clear_lockEntries (fileBRLEntry : option nat) (n : smbnode) : smbnode :=
  match fileBRLEntry with
  | None => with_lockEntries (cleared <$> f_sharedFID_lockEntries n) n
  | Some i => set_ent i (cleared (ent n i)) n
  end.

(** ** Which FID may do an I/O *)

(** The loop over the lock entries: [Some (i, pid)] is the first entry in use with
    a lock in the range, and the holder. *)
Fixpoint check_entries (off len : Z) (idx : list nat) (n : smbnode) : option (nat * Z) * smbnode :=
  match idx with
  | [] => (None, n)
  | i :: r =>
      if 0 <? refcnt (ent n i) then
        let '(h, n1) := CheckByteRangeLockEntry false (Some i) off len 0 n in
        match h with
        | Some pid => (Some (i, pid), n1)
        | None => check_entries off len r n1
        end
      else check_entries off len r n
  end.

(** The part after the search of the locks: any FID with the access. *)
Definition find_any_fid (mode : Z) (n : smbnode) : Z + Z :=
  if (0 <? f_sharedFID_refcnt n) && has (f_sharedFID_accessMode n) mode then
    inr (f_sharedFID_fid n)
  else if (0 <? f_lockFID_refcnt n) && has (f_lockFID_accessMode n) mode then
    inr (f_lockFID_fid n)
  else inl EBADF.

(** The search of the locks of [f_lockFID]. *)
Definition find_in_lockFID (in_pid mode off len : Z) (n : smbnode) : (Z + Z) * smbnode :=
  if 0 <? f_lockFID_refcnt n then
    let '(h, n1) := CheckByteRangeLockEntry true None off len 0 n in
    match h with
    | Some pid => (if in_pid =? pid then inr (f_lockFID_fid n1) else inl EACCES, n1)
    | None => (find_any_fid mode n1, n1)
    end
  else (find_any_fid mode n, n).

Definition FindFileRef (p : option Z) (mode off len : Z) (n : smbnode) : (Z + Z) * smbnode :=
  if (f_sharedFID_refcnt n =? 0) && (f_lockFID_refcnt n =? 0) then (inl EBADF, n)
  else
    let flocked :=
      match f_smbflock n with
      | Some fl => if (0 <? f_sharedFID_refcnt n) && has mode (access_mode fl) then Some fl else None
      | None => None
      end in
    match flocked with
    | Some fl =>
        (match smbfs_find_lockEntry (access_mode fl) with
         | None => inl EBADF
         | Some i => if refcnt (ent n i) <=? 0 then inl EBADF else inr (fid (ent n i))
         end, n)
    | None =>
        match p with
        | None => (find_any_fid mode n, n)
        | Some in_pid =>
            let '(h, n1) :=
              if 0 <? f_sharedFID_refcnt n then check_entries off len [0; 1; 2]%nat n
              else (None, n) in
            match h with
            | Some (i, pid) => (if in_pid =? pid then inr (fid (ent n1 i)) else inl EACCES, n1)
            | None => find_in_lockFID in_pid mode off len n1
            end
        end
    end.

(** ** The SMB calls *)

(** What a create that succeeded brings back. *)
Record opened := Opened {
  o_fid : Z;
  o_lease_flags : Z;
  o_dur_flags : Z;
  o_dur_timeout : Z;
  o_dur_create_guid : list Z
}.

(** [world] is the server, the connection and the vnode's lease; an errno of 0 is
    success.  [FWASLOCKED] is a constant of the operating system. *)
Class Wire := {
  world : Type;
  FWASLOCKED : Z;
  smbfs_smb_lock : forall (flags fid lck_pid off len timo : Z), world -> Z * world;
  smbfs_smb_close : forall (fid : Z), world -> Z * world;
  smbfs_smb_ntcreatex :
    forall (rights shareMode disp : Z) (do_create : bool) (req_lease_state : Z),
    world -> (Z + opened) * world;
  smbfs_add_update_lease : opened -> world -> Z * world
}.

Definition SMB2_FILE_READ_DATA := 0x1.
Definition SMB2_FILE_WRITE_DATA := 0x2.
Definition SMB2_FILE_APPEND_DATA := 0x4.
Definition NTCREATEX_SHARE_ACCESS_ALL := 7.
Definition FILE_OPEN := 1.
Definition FILE_OPEN_IF := 3.
Definition SMB2_LEASE_READ_CACHING := 0x1.
Definition SMB2_LEASE_HANDLE_CACHING := 0x2.
Definition SMB2_LEASE_WRITE_CACHING := 0x4.
Definition SMB2_LEASE_GRANTED := 0x8.
Definition SMB2_DURABLE_HANDLE_GRANTED := 0x4.
Definition SMB2_PERSISTENT_HANDLE_GRANTED := 0x20.

Definition smbfs_get_req_lease_state (access_rights : Z) : Z :=
  let r := SMB2_LEASE_HANDLE_CACHING in
  let r := if has access_rights SMB2_FILE_READ_DATA then Z.lor r SMB2_LEASE_READ_CACHING else r in
  if has access_rights SMB2_FILE_WRITE_DATA then Z.lor r SMB2_LEASE_WRITE_CACHING else r.

(** [if (openMode & FREAD) ..; if (openMode & FWRITE) ..] *)
Definition access_of_open (openMode : Z) : Z :=
  let a := if has openMode FREAD then kAccessRead else 0 in
  if has openMode FWRITE then Z.lor a kAccessWrite else a.

Section Operations.
Context `{Wire}.

(** ** Opening and closing a lock entry *)

Definition entry_rights (mode : Z) : Z :=
  let r := if has mode kAccessRead then SMB2_FILE_READ_DATA else 0 in
  if has mode kAccessWrite
  then Z.lor r (Z.lor SMB2_FILE_APPEND_DATA SMB2_FILE_WRITE_DATA) else r.

(** The entry after a successful create. *)
Definition opened_entry (mode : Z) (o : opened) (e : fileRefEntryBRL) : fileRefEntryBRL :=
  let d := if has (o_dur_flags o)
                  (Z.lor SMB2_DURABLE_HANDLE_GRANTED SMB2_PERSISTENT_HANDLE_GRANTED)
           then Dur (o_dur_flags o) (o_fid o) (o_dur_timeout o) (o_dur_create_guid o)
           else dur_handle e in
  Entry (i32 (refcnt e + 1)) (o_fid o) mode (entry_rights mode) (lockList e) d.

(** [fap] is the result of the allocation of the attributes: false is NULL. *)
Definition smbfs_get_lockEntry (fap : bool) (mode : Z) (s : smbnode * world)
  : (Z + nat) * (smbnode * world) :=
  let '(n, w) := s in
  if f_sharedFID_refcnt n <=? 0 then (inl EBADF, s)
  else match smbfs_find_lockEntry mode with
  | None => (inl EBADF, s)
  | Some i =>
      if 0 <? refcnt (ent n i) then (inr i, s)
      else if negb fap then (inl ENOMEM, s)
      else
        let disp := if has (n_flag n) N_ISRSRCFRK then FILE_OPEN_IF else FILE_OPEN in
        let do_create := has (n_flag n) N_ISRSRCFRK in
        let r := entry_rights mode in
        let '(res, w1) := smbfs_smb_ntcreatex r NTCREATEX_SHARE_ACCESS_ALL disp do_create
                            (smbfs_get_req_lease_state r) w in
        match res with
        | inl e => (inl e, (n, w1))
        | inr o =>
            let w2 := if has (o_lease_flags o) SMB2_LEASE_GRANTED
                      then (smbfs_add_update_lease o w1).2 else w1 in
            (inr i, (set_ent i (opened_entry mode o (ent n i)) n, w2))
        end
  end.

(** "Can we close and clear out this lockEntry?" at the end of the operations. *)
Definition close_if_unused (fileBRLEntry : option nat) (s : smbnode * world) : smbnode * world :=
  match fileBRLEntry with
  | None => s
  | Some i =>
      let '(n, w) := s in
      if bool_decide (lockList (ent n i) = []) && negb (fid (ent n i) =? 0) then
        (smbfs_clear_lockEntries (Some i) n, (smbfs_smb_close (fid (ent n i)) w).2)
      else s
  end.

(** ** Unlocking at close *)

(** The first part: a flock of the closing process is released and dropped.  The
    second result is [fileBRLEntry] as the rest of the function finds it. *)
Definition unlock_flock (mode pid : Z) (s : smbnode * world) : option nat * (smbnode * world) :=
  let '(n, w) := s in
  match f_smbflock n with
  | Some fl =>
      if f_smbflock_pid n =? pid then
        let unusable (b : option nat) :=
          match b with None => true | Some i => refcnt (ent n i) <=? 0 end in
        let b1 := smbfs_find_lockEntry mode in
        let b2 := if unusable b1 && negb (has mode kAccessWrite)
                  then smbfs_find_lockEntry (Z.lor mode kAccessWrite) else b1 in
        let w1 := match b2 with
                  | Some i => if unusable b2 then w
                              else (smbfs_smb_lock SMB_LOCK_RELEASE (fid (ent n i)) 1 0 (fl_len fl) 0 w).2
                  | None => w
                  end in
        (b2, (with_flock None (f_smbflock_pid n) n, w1))
      else (None, s)
  | None => (None, s)
  end.

(** The list the loop works on, and the FID of its locks. *)
Definition locks_of (fileEntry : bool) (fileBRLEntry : option nat) (n : smbnode)
  : list ByteRangeLockEntry :=
  if fileEntry then f_lockFID_lockList n
  else match fileBRLEntry with Some i => lockList (ent n i) | None => [] end.

Definition fid_of (fileEntry : bool) (fileBRLEntry : option nat) (n : smbnode) : Z :=
  if fileEntry then f_lockFID_fid n
  else match fileBRLEntry with Some i => fid (ent n i) | None => 0 end.

(** The do-while loop: one lock of the process per round. *)
Fixpoint unlock_loop (fuel : nat) (fe : bool) (fb : option nat) (pid : Z) (s : smbnode * world)
  : option (smbnode * world) :=
  match fuel with
  | O => None
  | S k =>
      let '(n, w) := s in
      match List.find (fun c => brl_p_pid c =? pid) (locks_of fe fb n) with
      | None => Some s
      | Some c =>
          let w1 := (smbfs_smb_lock SMB_LOCK_RELEASE (fid_of fe fb n) (brl_lck_pid c)
                       (brl_offset c) (u64 (brl_length c)) 0 w).2 in
          unlock_loop k fe fb pid
            (AddRemoveByteRangeLockEntry fe fb (brl_offset c) (brl_length c) 1 (brl_lck_pid c)
               (Some pid) n, w1)
      end
  end.

(** [None]: the loop runs out of the fuel of one round per lock and one more. *)
Definition smbfs_free_locks_on_close (openMode : Z) (context : option Z) (s : smbnode * world)
  : option (Z * (smbnode * world)) :=
  let mode := access_of_open openMode in
  match context with
  | None => Some (EINVAL, s)
  | Some pid =>
      let '(b, (n1, w1)) := unlock_flock mode pid s in
      if has openMode FWASLOCKED then
        if f_lockFID_refcnt n1 <=? 0 then Some (0, (n1, w1))
        else
          s2 ← unlock_loop (S (length (f_lockFID_lockList n1))) true b pid (n1, w1);
          Some (0, close_if_unused b s2)
      else if f_sharedFID_refcnt n1 <=? 0 then Some (EBADF, (n1, w1))
      else match smbfs_find_lockEntry mode with
        | None => Some (EBADF, (n1, w1))
        | Some i =>
            s2 ← unlock_loop (S (length (lockList (ent n1 i)))) false (Some i) pid (n1, w1);
            Some (0, close_if_unused (Some i) s2)
        end
  end.

(** ** The byte-range lock command of ioctl *)

Record ByteRangeLockPB2 := PB2 {
  pb_offset : Z;
  pb_length : Z;
  retRangeStart : Z;
  unLockFlag : Z;
  startEndFlag : Z
}.

(** The caches of a cacheable file are flushed and dropped before the first lock. *)
Definition drop_caches (n : smbnode) : smbnode :=
  with_cache_flags (if f_hasBRLs n =? 0 then 1 else f_hasBRLs n)
    (clear_bits (clear_bits (n_flag n) NNEEDS_UBC_PUSHDIRTY) NNEEDS_UBC_INVALIDATE) n.

(** [pb->offset += fileSize] for a range given relative to the end. *)
Definition rebase (size : Z) (pb : ByteRangeLockPB2) : ByteRangeLockPB2 :=
  if startEndFlag pb =? 0 then pb
  else PB2 (i64 (pb_offset pb + size)) (pb_length pb) (retRangeStart pb) (unLockFlag pb) 0.

(** Lock or unlock on one FID, once it is known which: the preflight of an unlock,
    the call and the bookkeeping.  The bool says that the code left by [goto exit],
    before the lock entry is looked at for closing. *)
Definition brl_on (fe : bool) (fb : option nat) (pb : ByteRangeLockPB2) (pid : Z)
    (s : smbnode * world) : bool * Z * ByteRangeLockPB2 * (smbnode * world) :=
  let '(n, w) := s in
  let '(refused, n1) :=
    if unLockFlag pb =? 1 then
      let '(h, n1) := CheckByteRangeLockEntry fe fb (pb_offset pb) (pb_length pb) 0 n in
      (match h with Some p => negb (p =? pid) | None => true end, n1)
    else (false, n) in
  if refused then (true, EAGAIN, pb, (n1, w))
  else
    let flags := if unLockFlag pb =? 0 then SMB_LOCK_EXCL else SMB_LOCK_RELEASE in
    let '(error, w1) := smbfs_smb_lock flags (fid_of fe fb n1) 1 (pb_offset pb)
                          (u64 (pb_length pb)) 0 w in
    if error =? 0 then
      (false, 0, PB2 (pb_offset pb) (pb_length pb) (u64 (pb_offset pb)) (unLockFlag pb) (startEndFlag pb),
       (AddRemoveByteRangeLockEntry fe fb (pb_offset pb) (pb_length pb) (unLockFlag pb) 1 (Some pid) n1, w1))
    else if (unLockFlag pb =? 0) && (error =? EACCES) &&
            FindByteRangeLockEntry fe fb (pb_offset pb) (pb_length pb) (Some pid) n1 then
      (false, EAGAIN, pb, (n1, w1))
    else (false, error, pb, (n1, w1)).

(** [reopen_error] is what [smbfs_smb_reopen_file] returned, [openMode] what
    [file_flags] returned for the descriptor ([inl] an errno); [brl2] tells the
    supported command from the old one. *)
Definition smbfs_ioctl_brl (isdir cacheable brl2 fap : bool) (reopen_error : Z) (openMode : Z + Z)
    (pid : Z) (pb0 : ByteRangeLockPB2) (s : smbnode * world)
  : Z * ByteRangeLockPB2 * (smbnode * world) :=
  if isdir then (EISDIR, pb0, s)
  else if negb (reopen_error =? 0) then (reopen_error, pb0, s)
  else
    let '(n0, w) := s in
    let n := if cacheable then drop_caches n0 else n0 in
    if negb brl2 then (ENOTSUP, pb0, (n, w))
    else
      let pb := rebase (n_size n) pb0 in
      match openMode with
      | inl e => (e, pb, (n, w))
      | inr om =>
          match f_smbflock n with
          | Some _ => (EINVAL, pb, (n, w))
          | None =>
              if has om FWASLOCKED then
                if f_lockFID_refcnt n <=? 0 then (EBADF, pb, (n, w))
                else let '(_, e, pb1, s1) := brl_on true None pb pid (n, w) in (e, pb1, s1)
              else
                let '(r, s1) := smbfs_get_lockEntry fap (access_of_open om) (n, w) in
                match r with
                | inl e => (e, pb, s1)
                | inr i =>
                    let '(out, e, pb1, s2) := brl_on false (Some i) pb pid s1 in
                    if out then (e, pb1, s2) else (e, pb1, close_if_unused (Some i) s2)
                end
          end
      end.

(** ** flock *)

Definition F_SETLK := 8.
Definition F_UNLCK := 2.
Definition F_WRLCK := 3.
Definition F_WAIT := 0x010.
Definition F_FLOCK := 0x020.
Definition F_POSIX := 0x040.
Definition altMaxLen := 0x0fffffffffffffff.

(** The switch of [smbfs_vnop_advlock] once the lock entry [i] is known: the error
    and the state.  [l_type] is that of the request. *)
Definition advlock_op (op l_type timo pid mode : Z) (i : nat) (s : smbnode * world)
  : Z * (smbnode * world) :=
  let '(n, w) := s in
  let f := fid (ent n i) in
  let max := u64 (-1) in
  if op =? F_SETLK then
    match f_smbflock n with
    | None =>
        let '(e1, w1) := smbfs_smb_lock SMB_LOCK_EXCL f 1 0 max timo w in
        let '(e, len, w2) :=
          if e1 =? 0 then (e1, max, w1)
          else let '(e2, w2) := smbfs_smb_lock SMB_LOCK_EXCL f 1 0 altMaxLen timo w1 in
               (e2, altMaxLen, w2) in
        if negb (e =? 0) then (e, (n, w2))
        else
          let n1 := AddRemoveByteRangeLockEntry false (Some i) 0 (i64 len) 0 1 (Some pid) n in
          (0, (with_flock (Some (Flock l_type 1 1 0 len mode)) pid n1, w2))
    | Some fl =>
        if f_smbflock_pid n =? pid then
          if (fl_refcnt fl =? 1) && negb (fl_type fl =? l_type) then
            (0, (with_flock (Some (Flock l_type (fl_refcnt fl) (fl_lck_pid fl) (fl_start fl)
                                     (fl_len fl) (access_mode fl))) (f_smbflock_pid n) n, w))
          else if negb (fl_type fl =? l_type) then (ENOTSUP, s)
          else if negb (fl_type fl =? F_WRLCK) then (0, s)
          else
            (0, (with_flock (Some (Flock (fl_type fl) (i32 (fl_refcnt fl + 1)) (fl_lck_pid fl)
                                     (fl_start fl) (fl_len fl) (access_mode fl)))
                   (f_smbflock_pid n) n, w))
        else (EWOULDBLOCK, s)
    end
  else if op =? F_UNLCK then
    match f_smbflock n with
    | None => (0, s)
    | Some fl =>
        let fl1 := Flock (fl_type fl) (i32 (fl_refcnt fl - 1)) (fl_lck_pid fl) (fl_start fl)
                         (fl_len fl) (access_mode fl) in
        let n1 := with_flock (Some fl1) (f_smbflock_pid n) n in
        if fl_refcnt fl1 <=? 0 then
          let '(e, w1) := smbfs_smb_lock SMB_LOCK_RELEASE f 1 0 (fl_len fl) timo w in
          if e =? 0 then
            let n2 := AddRemoveByteRangeLockEntry false (Some i) 0 (i64 max) 1 1 (Some pid) n1 in
            (0, (with_flock None (f_smbflock_pid n) n2, w1))
          else (e, (n1, w1))
        else (0, (n1, w))
    end
  else (EINVAL, s).

(** [posix] is the capability [CIFS_UNIX_FCNTL_LOCKS_CAP] of the share;
    [err_advlock] the answer of the VFS default, [lock_error] that of
    [smbnode_lock]. *)
Definition smbfs_vnop_advlock (isreg isdir posix fap : bool) (err_advlock lock_error reopen_error : Z)
    (flags op l_type pid : Z) (s : smbnode * world) : Z * (smbnode * world) :=
  let '(n, w) := s in
  if negb isreg then (if isdir then EISDIR else EPERM, s)
  else if has flags F_POSIX && negb posix then (err_advlock, s)
  else if negb (has flags (Z.lor F_FLOCK F_POSIX)) then (err_advlock, s)
  else if negb (lock_error =? 0) then (lock_error, s)
  else if 0 <? f_lockFID_refcnt n then (0, s)
  else if negb (reopen_error =? 0) then (reopen_error, s)
  else if f_sharedFID_refcnt n <=? 0 then (EBADF, s)
  else
    let timo := if has flags F_WAIT then u32 (-1) else 0 in
    let mode := f_sharedFID_accessMode n in
    let '(r, s1) := smbfs_get_lockEntry fap mode s in
    match r with
    | inl e => (e, s1)
    | inr i =>
        let '(e, s2) := advlock_op op l_type timo pid mode i s1 in
        (e, close_if_unused (Some i) s2)
    end.

End Operations.
