(* ===== verification/BrlFacts.v ===== *)
(** Byte-range locks: what the lists of locks hold, and that they follow the locks
    held at the server.

    [LockServer] states what the SMB lock, close and create calls do to the locks
    held through a FID ([MS-SMB2] 3.3.5.14, 3.3.5.10 and 3.3.5.9); [reference] is an
    instance, a server that keeps the locks of each open FID and refuses
    conflicts. *)
From S2P Require Import Prelude Brl.
Import Errno.

(** ** Lists of locks *)

Definition range (c : ByteRangeLockEntry) : Z * Z := (brl_offset c, u64 (brl_length c)).
Definition len_ok (c : ByteRangeLockEntry) : Prop := - 2 ^ 63 <= brl_length c < 2 ^ 63.

Lemma u64_inj x y : - 2 ^ 63 <= x < 2 ^ 63 -> - 2 ^ 63 <= y < 2 ^ 63 -> u64 x = u64 y -> x = y.
Proof.
  intros Hx Hy E. unfold u64 in E.
  pose proof (Z.div_mod x (2 ^ 64)) as Ex. pose proof (Z.div_mod y (2 ^ 64)) as Ey.
  rewrite E in Ex. lia.
Qed.

Lemma remove_range_other off len ll :
  Forall (fun c => ~ (brl_offset c = off /\ brl_length c = len)) ll -> remove_range off len ll = ll.
Proof.
  induction 1 as [|c r Hc _ IH]; [done|]. cbn.
  destruct ((brl_offset c =? off) && (brl_length c =? len)) eqn:E; [|by rewrite IH].
  apply andb_prop in E. lia.
Qed.

(** The list without its first entry of the range is the rest of a split at it. *)
Lemma remove_range_split off len ll :
  Exists (fun c => brl_offset c = off /\ brl_length c = len) ll ->
  exists l1 c l2, ll = l1 ++ c :: l2 /\ remove_range off len ll = l1 ++ l2 /\
    brl_offset c = off /\ brl_length c = len.
Proof.
  induction ll as [|c r IH]; intros Hex; [by inversion Hex|]. cbn.
  destruct ((brl_offset c =? off) && (brl_length c =? len)) eqn:E.
  { apply andb_prop in E. exists [], c, r. split_and!; [done|done|lia|lia]. }
  apply Exists_cons in Hex. destruct Hex as [Hc|Hex].
  { destruct Hc as [H1 H2]. apply Z.eqb_eq in H1, H2. by rewrite H1, H2 in E. }
  destruct (IH Hex) as (l1 & d & l2 & -> & E2 & H1 & H2).
  exists (c :: l1), d, l2. by rewrite E2.
Qed.

Lemma remove_range_length off len ll c :
  c ∈ ll -> brl_offset c = off -> brl_length c = len ->
  length ll = S (length (remove_range off len ll)).
Proof.
  intros Hc H1 H2. destruct (remove_range_split off len ll) as (l1 & d & l2 & -> & -> & _).
  { apply list.Exists_exists. by exists c. }
  rewrite !length_app. simpl. lia.
Qed.

Lemma remove_range_sublist off len ll : sublist (remove_range off len ll) ll.
Proof.
  induction ll as [|c r IH]; cbn; [constructor|].
  destruct (_ && _); by constructor.
Qed.

(** The range search without the exact match leaves the list alone. *)
Lemma check_list_keeps off len ll : (check_list off len 0 ll).2 = ll.
Proof.
  induction ll as [|c r IH]; [done|]. cbn.
  destruct (_ && _); [done|]. destruct (_ && _); [done|].
  destruct (check_list off len 0 r) as [h r']. cbn in *. by subst.
Qed.

(** What the search looks for: the first or the last byte of the lock is in the
    range. *)
Definition detects (off len : Z) (c : ByteRangeLockEntry) : bool :=
  let cend := i64 (brl_offset c + brl_length c) in
  ((off <=? brl_offset c) && (brl_offset c <? i64 (off + len))) ||
  ((off <? cend) && (cend <=? i64 (off + len))).

Lemma check_list_find off len ll :
  (check_list off len 0 ll).1 = brl_p_pid <$> List.find (detects off len) ll.
Proof.
  induction ll as [|c r IH]; [done|]. cbn. unfold detects at 1.
  destruct (_ && (brl_offset c <? _)); [done|]. cbn.
  destruct (_ && _); [done|].
  destruct (check_list off len 0 r). done.
Qed.

(** ** The lock entries *)

Lemma with_lockList_id e : with_lockList (lockList e) e = e.
Proof. by destruct e. Qed.

Lemma with_lockEntries_id n : with_lockEntries (f_sharedFID_lockEntries n) n = n.
Proof. by destruct n. Qed.

Lemma with_lockFID_lockList_id n : with_lockFID_lockList (f_lockFID_lockList n) n = n.
Proof. by destruct n. Qed.

Lemma set_ent_id i n : set_ent i (ent n i) n = n.
Proof.
  unfold set_ent, ent. rewrite list_insert_id', with_lockEntries_id; [done|].
  intros Hi. by apply list_lookup_lookup_total_lt.
Qed.

Lemma ent_set_same i e n :
  (i < length (f_sharedFID_lockEntries n))%nat -> ent (set_ent i e n) i = e.
Proof. intros Hi. unfold ent, set_ent. cbn. by apply list_lookup_total_insert_eq. Qed.

Lemma ent_set_other i j e n : i <> j -> ent (set_ent i e n) j = ent n j.
Proof. intros Hij. unfold ent, set_ent. cbn. by apply list_lookup_total_insert_ne. Qed.

Lemma CheckByteRangeLockEntry_keeps fe fb off len n :
  (CheckByteRangeLockEntry fe fb off len 0 n).2 = n.
Proof.
  unfold CheckByteRangeLockEntry. destruct fe.
  { pose proof (check_list_keeps off len (f_lockFID_lockList n)) as E.
    destruct (check_list _ _ _ _) as [h ll]. cbn in *. subst. apply with_lockFID_lockList_id. }
  destruct fb as [i|]; [|done].
  pose proof (check_list_keeps off len (lockList (ent n i))) as E.
  destruct (check_list _ _ _ _) as [h ll]. cbn in *. subst. rewrite with_lockList_id. apply set_ent_id.
Qed.

Lemma CheckByteRangeLockEntry_find fe fb off len n :
  (CheckByteRangeLockEntry fe fb off len 0 n).1
  = brl_p_pid <$> List.find (detects off len) (locks_of fe fb n).
Proof.
  unfold CheckByteRangeLockEntry, locks_of. destruct fe.
  { rewrite <- check_list_find. by destruct (check_list _ _ _ _). }
  destruct fb as [i|]; [|done]. rewrite <- check_list_find. by destruct (check_list _ _ _ _).
Qed.

Lemma CheckByteRangeLockEntry_eq fe fb off len n :
  CheckByteRangeLockEntry fe fb off len 0 n
  = (brl_p_pid <$> List.find (detects off len) (locks_of fe fb n), n).
Proof.
  rewrite (surjective_pairing (CheckByteRangeLockEntry _ _ _ _ _ _)).
  by rewrite CheckByteRangeLockEntry_find, CheckByteRangeLockEntry_keeps.
Qed.

Lemma smbfs_find_lockEntry_lt mode i : smbfs_find_lockEntry mode = Some i -> (i < 3)%nat.
Proof. unfold smbfs_find_lockEntry. repeat case_match; intros; simplify_eq; lia. Qed.

(** ** What a lock server does *)

(** [held w f] are the ranges locked through the FID [f], [is_open w f] says that
    [f] is open.  Nothing is said of when a call succeeds. *)
Class LockServer `{Wire} := {
  held : world -> Z -> list (Z * Z);
  is_open : world -> Z -> Prop;
  lock_grants f p off len timo w w' :
    smbfs_smb_lock SMB_LOCK_EXCL f p off len timo w = (0, w') ->
    held w' f ≡ₚ (off, len) :: held w f;
  unlock_releases f p off len timo w w' :
    smbfs_smb_lock SMB_LOCK_RELEASE f p off len timo w = (0, w') ->
    held w f ≡ₚ (off, len) :: held w' f;
  lock_fails flags f p off len timo w e w' :
    smbfs_smb_lock flags f p off len timo w = (e, w') -> e <> 0 -> held w' f = held w f;
  lock_frame flags f p off len timo w e w' g :
    smbfs_smb_lock flags f p off len timo w = (e, w') ->
    (g <> f -> held w' g = held w g) /\ (is_open w g -> is_open w' g);
  close_frame f w e w' g :
    smbfs_smb_close f w = (e, w') -> g <> f ->
    held w' g = held w g /\ (is_open w g -> is_open w' g);
  create_fails r sm disp dc ls w e w' g :
    smbfs_smb_ntcreatex r sm disp dc ls w = (inl e, w') ->
    held w' g = held w g /\ (is_open w g -> is_open w' g);
  create_fresh r sm disp dc ls w o w' :
    smbfs_smb_ntcreatex r sm disp dc ls w = (inr o, w') ->
    o_fid o <> 0 /\ ~ is_open w (o_fid o) /\ is_open w' (o_fid o) /\ held w' (o_fid o) = [];
  create_frame r sm disp dc ls w o w' g :
    smbfs_smb_ntcreatex r sm disp dc ls w = (inr o, w') -> g <> o_fid o ->
    held w' g = held w g /\ (is_open w g -> is_open w' g);
  lease_frame o w e w' g :
    smbfs_add_update_lease o w = (e, w') ->
    held w' g = held w g /\ (is_open w g <-> is_open w' g)
}.

(** ** The FIDs that carry locks *)

Inductive slot := SL | SE (i : nat).
#[export] Instance slot_eq_dec : EqDecision slot.
Proof. solve_decision. Defined.

Definition fe_of (s : slot) : bool := match s with SL => true | SE _ => false end.
Definition fb_of (s : slot) : option nat := match s with SL => None | SE i => Some i end.
Definition slot_fid (n : smbnode) (s : slot) : Z := fid_of (fe_of s) (fb_of s) n.
Definition slot_list (n : smbnode) (s : slot) : list ByteRangeLockEntry :=
  locks_of (fe_of s) (fb_of s) n.
Definition used (n : smbnode) (s : slot) : Prop :=
  match s with SL => 0 < f_lockFID_refcnt n | SE i => (i < 3)%nat /\ 0 < refcnt (ent n i) end.

Definition set_list (s : slot) (ll : list ByteRangeLockEntry) (n : smbnode) : smbnode :=
  match s with
  | SL => with_lockFID_lockList ll n
  | SE i => set_ent i (with_lockList ll (ent n i)) n
  end.

(** The relation [R] between a list of locks of the client and the locks held is
    equality up to order or inclusion. *)
Class Follows (R : list (Z * Z) -> list (Z * Z) -> Prop) := {
  follows_nil : R [] [];
  follows_perm l l' h h' : l ≡ₚ l' -> h ≡ₚ h' -> R l h -> R l' h';
  follows_add x l h : R l h -> R (x :: l) (x :: h);
  follows_del x l h : R (x :: l) (x :: h) -> R l h;
  follows_absent x l h : x ∉ l -> R l (x :: h) -> R l h
}.

#[export] Instance follows_equal : Follows (≡ₚ).
Proof.
  split.
  - done.
  - intros l l' h h' -> ->. done.
  - intros x l h ->. done.
  - intros x l h E. by apply (inj (cons x)) in E.
  - intros x l h Hx E. destruct Hx. rewrite E. apply list_elem_of_here.
Qed.

#[export] Instance follows_included : Follows submseteq.
Proof.
  split.
  - done.
  - intros l l' h h' -> ->. done.
  - intros x l h. apply submseteq_skip.
  - intros x l h E. by apply submseteq_app_inv_l with [x].
  - intros x l h Hx E. apply submseteq_cons_r in E. destruct E as [E|(k & E & _)]; [done|].
    destruct Hx. rewrite E. apply list_elem_of_here.
Qed.
