(* ===== verification/BrlServer.v ===== *)
(** A lock server that satisfies [LockServer], and nodes to try the operations on.

    The server keeps the locks of each open FID, refuses a lock that conflicts with
    a lock held and a release of a range that is not held; a lock as long as a
    flock's is one on the whole file, which conflicts with any other.  With
    [refuses_full] it is one of the third-party servers that fail a lock of length
    2^64 - 1. *)
From S2P Require Import Prelude Brl BrlFacts.
Import Errno.

Record server := Server {
  locks : gmap Z (list (Z * Z));
  next_fid : Z
}.

Definition overlaps (a b : Z * Z) : bool := (a.1 <? b.1 + b.2) && (b.1 <? a.1 + a.2).

Definition conflicts (r : Z * Z) (m : gmap Z (list (Z * Z))) : bool :=
  existsb (fun p => existsb (fun q => (altMaxLen <=? r.2) || overlaps r q) p.2) (map_to_list m).

Fixpoint take_out (r : Z * Z) (l : list (Z * Z)) : option (list (Z * Z)) :=
  match l with
  | [] => None
  | x :: t => if bool_decide (x = r) then Some t else (cons x) <$> take_out r t
  end.

Definition serve_lock (refuses_full : bool) (flags f off len : Z) (w : server) : Z * server :=
  match locks w !! f with
  | None => (EBADF, w)
  | Some l =>
      if flags =? SMB_LOCK_RELEASE then
        match take_out (off, len) l with
        | None => (EAGAIN, w)
        | Some l' => (0, Server (<[f := l']> (locks w)) (next_fid w))
        end
      else if refuses_full && (len =? u64 (-1)) then (EINVAL, w)
      else if conflicts (off, len) (locks w) then (EACCES, w)
      else (0, Server (<[f := (off, len) :: l]> (locks w)) (next_fid w))
  end.

Definition serve_create (w : server) : (Z + opened) * server :=
  let f := next_fid w in
  if (f <=? 0) || bool_decide (is_Some (locks w !! f)) then (inl EMFILE, w)
  else (inr (Opened f SMB2_LEASE_GRANTED SMB2_DURABLE_HANDLE_GRANTED 30 (replicate 16 7)),
        Server (<[f := []]> (locks w)) (f + 1)).

Definition wire_of (refuses_full : bool) : Wire := {|
  world := server;
  FWASLOCKED := 0x4000;
  smbfs_smb_lock flags f _ off len _ w := serve_lock refuses_full flags f off len w;
  smbfs_smb_close f w := (0, Server (delete f (locks w)) (next_fid w));
  smbfs_smb_ntcreatex _ _ _ _ _ w := serve_create w;
  smbfs_add_update_lease _ w := (0, w)
|}.

Definition held_at (w : server) (f : Z) : list (Z * Z) := default [] (locks w !! f).

Lemma take_out_perm r l l' : take_out r l = Some l' -> l ≡ₚ r :: l'.
Proof.
  revert l'. induction l as [|x t IH]; intros l'; cbn; [done|].
  case_bool_decide as E; [intros; by simplify_eq|].
  destruct (take_out r t) as [t'|]; [|done]. intros [= <-].
  rewrite (IH t' eq_refl). apply Permutation_swap.
Qed.

Lemma serve_lock_cases rf flags f off len w e w' :
  serve_lock rf flags f off len w = (e, w') ->
  (e <> 0 /\ w' = w) \/
  exists l l', e = 0 /\ locks w !! f = Some l /\ locks w' = <[f := l']> (locks w) /\
    (if flags =? SMB_LOCK_RELEASE then l ≡ₚ (off, len) :: l' else l' = (off, len) :: l).
Proof.
  unfold serve_lock. destruct (locks w !! f) as [l|] eqn:El; [|intros; simplify_eq; by left].
  destruct (flags =? SMB_LOCK_RELEASE).
  - destruct (take_out (off, len) l) as [l'|] eqn:Et; intros; simplify_eq; [|by left].
    right. exists l, l'. split_and!; try done. by apply take_out_perm.
  - destruct (_ && _); [intros; simplify_eq; by left|].
    destruct (conflicts _ _); intros; simplify_eq; [by left|]. right. by exists l, ((off, len) :: l).
Qed.

Definition server_of (refuses_full : bool) : @LockServer (wire_of refuses_full).
Proof.
  refine (@Build_LockServer (wire_of refuses_full) held_at (fun w f => is_Some (locks w !! f))
            _ _ _ _ _ _ _ _ _); unfold held_at; cbn.
  - intros f _ off len _ w w' Hw. apply serve_lock_cases in Hw as [[? _]|(l & l' & _ & E & -> & El)]; [done|].
    rewrite lookup_insert_eq, E. cbn in *. by rewrite El.
  - intros f _ off len _ w w' Hw. apply serve_lock_cases in Hw as [[? _]|(l & l' & _ & E & -> & El)]; [done|].
    rewrite lookup_insert_eq, E. done.
  - intros flags f _ off len _ w e w' Hw He.
    by apply serve_lock_cases in Hw as [[_ ->]|(l & l' & -> & _)].
  - intros flags f _ off len _ w e w' g Hw.
    apply serve_lock_cases in Hw as [[_ ->]|(l & l' & _ & E & -> & _)]; [done|].
    split; [intros; by rewrite lookup_insert_ne|]. destruct (decide (g = f)) as [->|].
    + by rewrite lookup_insert_eq.
    + by rewrite lookup_insert_ne.
  - intros f w e w' g [= _ <-] Hg. cbn. by rewrite lookup_delete_ne.
  - unfold serve_create. intros _ _ _ _ _ w e w' g. destruct (_ || _); intros; by simplify_eq.
  - unfold serve_create. intros _ _ _ _ _ w o w'.
    destruct (Z.leb_spec (next_fid w) 0); [done|].
    case_bool_decide as Hs; cbn; intros; simplify_eq. cbn. rewrite lookup_insert_eq.
    split_and!; [lia|done|done|done].
  - unfold serve_create. intros _ _ _ _ _ w o w' g.
    destruct (_ || _); intros Hw Hg; simplify_eq. cbn in *. by rewrite lookup_insert_ne.
  - intros o w e w' g [= _ <-]. done.
Defined.

(** The well-behaved server. *)
#[export] Instance reference_wire : Wire := wire_of false.
#[export] Instance reference : LockServer := server_of false.

(** A file opened for reading and writing, no locks yet. *)
Definition idle_entry : fileRefEntryBRL := Entry 0 0 0 0 [] dur_zero.
Definition demo_node : smbnode :=
  Node 1 100 3 (replicate 3 idle_entry) 0 0 0 [] None 0 0 5000 0.
Definition demo_server : server := Server (<[100 := []]> ∅) 200.

(** A lock entry with two locks of process 7 and one of process 8. *)
Definition busy_entry : fileRefEntryBRL :=
  Entry 1 200 3 7 [BRL 0 10 1 7; BRL 10 10 1 8; BRL 100 50 1 7] dur_zero.
Definition busy_node : smbnode := set_ent 0 busy_entry demo_node.
Definition busy_server : @world reference_wire :=
  Server (<[200 := [(0, 10); (10, 10); (100, 50)]]> (<[100 := []]> ∅)) 201.
