(* ===== verification/BrlMirror.v ===== *)
(** Byte-range locks: the lists of the client follow the locks at the server.

    [mirrors R] is the invariant of a node and the server: each FID in use has a
    list that stands in the relation [R] (equality up to order, or inclusion) to
    the locks held through it.  Every operation on the locks keeps it. *)
From S2P Require Import Prelude Brl BrlFacts.
Import Errno.

Section Mirror.
Context `{LockServer} (R : list (Z * Z) -> list (Z * Z) -> Prop) `{!Follows R}.

Record mirrors (s : smbnode * world) : Prop := Mirrors {
  mir_len : length (f_sharedFID_lockEntries s.1) = 3%nat;
  mir_used x : used s.1 x ->
    is_open s.2 (slot_fid s.1 x) /\ Forall len_ok (slot_list s.1 x) /\
    R (range <$> slot_list s.1 x) (held s.2 (slot_fid s.1 x));
  mir_idle i : (i < 3)%nat -> refcnt (ent s.1 i) <= 0 ->
    refcnt (ent s.1 i) = 0 /\ lockList (ent s.1 i) = [] /\ fid (ent s.1 i) = 0;
  mir_distinct x y : used s.1 x -> used s.1 y -> slot_fid s.1 x = slot_fid s.1 y -> x = y
}.

(** ** Frames *)

Lemma mirrors_ext n n' w :
  f_sharedFID_lockEntries n' = f_sharedFID_lockEntries n ->
  f_lockFID_refcnt n' = f_lockFID_refcnt n -> f_lockFID_fid n' = f_lockFID_fid n ->
  f_lockFID_lockList n' = f_lockFID_lockList n ->
  mirrors (n, w) -> mirrors (n', w).
Proof.
  intros E1 E2 E3 E4 [H1 H2 H3 H4]. cbn in *.
  assert (forall i, ent n' i = ent n i) as Ei by (intros i; unfold ent; by rewrite E1).
  assert (forall x, used n' x <-> used n x) as Eu
    by (intros [|i]; cbn; rewrite ?E2, ?Ei; done).
  assert (forall x, slot_fid n' x = slot_fid n x) as Ef
    by (intros [|i]; unfold slot_fid; cbn; rewrite ?E3, ?Ei; done).
  assert (forall x, slot_list n' x = slot_list n x) as El
    by (intros [|i]; unfold slot_list; cbn; rewrite ?E4, ?Ei; done).
  split; cbn.
  - by rewrite E1.
  - intros x. rewrite Eu, Ef, El. apply H2.
  - intros i. rewrite Ei. apply H3.
  - intros x y. rewrite !Eu, !Ef. apply H4.
Qed.

Lemma mirrors_world n w w' :
  (forall g, held w' g = held w g /\ (is_open w g -> is_open w' g)) ->
  mirrors (n, w) -> mirrors (n, w').
Proof.
  intros Hw [H1 H2 H3 H4]. split; cbn in *; [done| |done|done].
  intros x Hx. destruct (H2 x Hx) as (Ho & Hl & HR). destruct (Hw (slot_fid n x)) as [E Ho'].
  rewrite E. auto.
Qed.

Lemma set_list_used x ll n y : length (f_sharedFID_lockEntries n) = 3%nat ->
  used (set_list x ll n) y <-> used n y.
Proof.
  intros H3. destruct x as [|i], y as [|j]; cbn; try done.
  destruct (decide (i = j)) as [<-|Hij]; [|by rewrite ent_set_other].
  split; intros [Hi Hr]; (split; [done|]); rewrite ent_set_same in * by (rewrite H3; lia); done.
Qed.

Lemma set_list_fid x ll n y : length (f_sharedFID_lockEntries n) = 3%nat ->
  used n y -> slot_fid (set_list x ll n) y = slot_fid n y.
Proof.
  intros H3 Hu. destruct x as [|i], y as [|j]; try done. unfold slot_fid; cbn.
  destruct (decide (i = j)) as [<-|Hij]; [|by rewrite ent_set_other].
  destruct Hu. by rewrite ent_set_same by lia.
Qed.

Lemma set_list_list x ll n y : length (f_sharedFID_lockEntries n) = 3%nat -> used n y ->
  slot_list (set_list x ll n) y = if decide (x = y) then ll else slot_list n y.
Proof.
  intros H3 Hu. unfold slot_list. destruct x as [|i], y as [|j]; try done; cbn.
  destruct Hu. destruct (decide (i = j)) as [<-|Hij].
  - rewrite ent_set_same by lia. by rewrite decide_True.
  - rewrite ent_set_other by done. rewrite decide_False by congruence. done.
Qed.

Lemma mirrors_set_list n w w' x ll :
  mirrors (n, w) -> used n x ->
  (forall g, (g <> slot_fid n x -> held w' g = held w g) /\ (is_open w g -> is_open w' g)) ->
  Forall len_ok ll -> R (range <$> ll) (held w' (slot_fid n x)) ->
  mirrors (set_list x ll n, w').
Proof.
  intros [H1 H2 H3 H4] Hx Hw Hll HR. cbn in *. split; cbn.
  - destruct x as [|i]; [done|]. cbn. by rewrite length_insert.
  - intros y Hy. rewrite set_list_used in Hy by done.
    rewrite set_list_fid, set_list_list by done.
    destruct (H2 y Hy) as (Ho & Hl & HRy). destruct (Hw (slot_fid n y)) as [Eh Ho'].
    split; [auto|]. destruct (decide (x = y)) as [<-|Hxy]; [done|]. split; [done|].
    rewrite Eh; [done|]. intros E. destruct Hxy. symmetry. by apply H4.
  - intros i Hi. destruct x as [|j]; cbn; [by apply H3|].
    destruct (decide (j = i)) as [<-|Hij]; [|rewrite ent_set_other by done; by apply H3].
    rewrite ent_set_same by lia. cbn. destruct Hx. lia.
  - intros y z Hy Hz. rewrite set_list_used in Hy, Hz by done.
    rewrite !set_list_fid by done. by apply H4.
Qed.

Lemma mirrors_clear n w w' i :
  mirrors (n, w) -> (i < 3)%nat -> fid (ent n i) <> 0 ->
  (forall g, g <> fid (ent n i) -> held w' g = held w g /\ (is_open w g -> is_open w' g)) ->
  mirrors (smbfs_clear_lockEntries (Some i) n, w').
Proof.
  intros [H1 H2 H3 H4] Hi Hf Hw. cbn in *.
  assert (used n (SE i)) as Hu.
  { split; [done|]. destruct (decide (refcnt (ent n i) <= 0)) as [Hr|]; [|lia].
    destruct (H3 i Hi Hr) as (_ & _ & E). done. }
  assert (forall y, used (set_ent i (cleared (ent n i)) n) y <-> used n y /\ y <> SE i) as Eu.
  { intros [|j]; cbn; [intuition congruence|]. destruct (decide (i = j)) as [<-|Hij].
    - rewrite ent_set_same by lia. cbn. split; [lia|intros [_ []]; done].
    - rewrite ent_set_other by done. intuition congruence. }
  assert (forall y, y <> SE i -> slot_fid (set_ent i (cleared (ent n i)) n) y = slot_fid n y) as Ef.
  { intros [|j] Hy; [done|]. unfold slot_fid. cbn. rewrite ent_set_other; congruence. }
  assert (forall y, y <> SE i -> slot_list (set_ent i (cleared (ent n i)) n) y = slot_list n y) as El.
  { intros [|j] Hy; [done|]. unfold slot_list. cbn. rewrite ent_set_other; congruence. }
  split; cbn.
  - by rewrite length_insert.
  - intros y Hy. apply Eu in Hy as [Hy Hne]. rewrite Ef, El by done.
    destruct (H2 y Hy) as (Ho & Hl & HR). destruct (Hw (slot_fid n y)) as [Eh Ho'].
    { intros E. apply Hne. by apply H4. }
    rewrite Eh. auto.
  - intros j Hj. destruct (decide (i = j)) as [<-|Hij]; [by rewrite ent_set_same by lia|].
    rewrite ent_set_other by done. by apply H3.
  - intros y z Hy Hz. apply Eu in Hy as [Hy ?], Hz as [Hz ?]. rewrite !Ef by done. by apply H4.
Qed.

Lemma mirrors_open n w w' i mode o :
  mirrors (n, w) -> (i < 3)%nat -> refcnt (ent n i) <= 0 ->
  o_fid o <> 0 -> ~ is_open w (o_fid o) -> is_open w' (o_fid o) -> held w' (o_fid o) = [] ->
  (forall g, g <> o_fid o -> held w' g = held w g /\ (is_open w g -> is_open w' g)) ->
  mirrors (set_ent i (opened_entry mode o (ent n i)) n, w').
Proof.
  intros [H1 H2 H3 H4] Hi Hr Hf Hno Ho Eh Hw. cbn in *.
  destruct (H3 i Hi Hr) as (E0 & El0 & _).
  set (n' := set_ent i (opened_entry mode o (ent n i)) n).
  assert (ent n' i = opened_entry mode o (ent n i)) as Ei by (apply ent_set_same; lia).
  assert (refcnt (ent n' i) = 1) as Er by (rewrite Ei; cbn; by rewrite E0).
  assert (forall y, y <> SE i -> used n' y <-> used n y) as Eu.
  { intros [|j] Hy; cbn; [done|]. unfold n'. rewrite ent_set_other by congruence. done. }
  assert (forall y, y <> SE i -> slot_fid n' y = slot_fid n y) as Ef.
  { intros [|j] Hy; [done|]. unfold slot_fid, n'. cbn. rewrite ent_set_other; congruence. }
  assert (forall y, y <> SE i -> slot_list n' y = slot_list n y) as El.
  { intros [|j] Hy; [done|]. unfold slot_list, n'. cbn. rewrite ent_set_other; congruence. }
  assert (slot_fid n' (SE i) = o_fid o) as Efi by (unfold slot_fid; cbn; by rewrite Ei).
  assert (forall y, y <> SE i -> used n' y -> slot_fid n' y <> o_fid o) as Hne.
  { intros y Hy Hu E. apply Hno. rewrite <- E, Ef by done. apply H2. by apply Eu. }
  split; cbn.
  - unfold n'. cbn. by rewrite length_insert.
  - intros y Hy. destruct (decide (y = SE i)) as [->|Hyi].
    + rewrite Efi, Eh. unfold slot_list. cbn. rewrite Ei. cbn. rewrite El0.
      split_and!; [done|constructor|apply follows_nil].
    + pose proof (Hne y Hyi Hy) as Hny. apply Eu in Hy; [|done]. rewrite Ef in * by done.
      rewrite El by done. destruct (H2 y Hy) as (Ho1 & Hl & HR). destruct (Hw _ Hny) as [E Ho'].
      rewrite E. auto.
  - intros j Hj. destruct (decide (i = j)) as [<-|Hij]; [lia|].
    unfold n'. rewrite ent_set_other by done. by apply H3.
  - intros y z Hy Hz E. destruct (decide (y = SE i)) as [->|Hyi], (decide (z = SE i)) as [->|Hzi].
    + done.
    + rewrite Efi in E. by destruct (Hne z Hzi Hz).
    + rewrite Efi in E. by destruct (Hne y Hyi Hy).
    + rewrite Ef, Ef in E by done. apply Eu in Hy, Hz; [|done..]. by apply H4.
Qed.

(** ** The steps of the operations *)

Lemma follows_add_entry off len lpid pid ll h h' :
  R (range <$> ll) h -> h' ≡ₚ (off, u64 len) :: h ->
  R (range <$> ll ++ [BRL off len lpid pid]) h'.
Proof.
  intros HR E. rewrite fmap_app. cbn.
  apply (follows_perm ((off, u64 len) :: (range <$> ll)) _ ((off, u64 len) :: h)); [|done|].
  - apply Permutation_cons_append.
  - by apply follows_add.
Qed.

Lemma follows_remove_range off len ll h h' :
  Forall len_ok ll -> - 2 ^ 63 <= len < 2 ^ 63 ->
  R (range <$> ll) h -> h ≡ₚ (off, u64 len) :: h' ->
  R (range <$> remove_range off len ll) h'.
Proof.
  intros Hok Hlen HR E.
  destruct (decide (Exists (fun c => brl_offset c = off /\ brl_length c = len) ll)) as [Hex|Hex].
  - apply remove_range_split in Hex as (l1 & c & l2 & -> & -> & <- & <-).
    apply (follows_del (range c)). eapply follows_perm, HR; [|done].
    rewrite !fmap_app. cbn. by rewrite Permutation_middle.
  - apply not_Exists_Forall in Hex; [|apply _].
    rewrite remove_range_other by done.
    apply (follows_absent (off, u64 len)); [|by eapply follows_perm, HR].
    intros Hin. apply list_elem_of_fmap in Hin as (c & Ec & Hc).
    rewrite list.Forall_forall in Hok, Hex. apply (Hex c Hc).
    unfold range in Ec. injection Ec as E1 E2. split; [done|].
    symmetry. apply u64_inj; [done| |done]. by apply Hok.
Qed.

Lemma AddRemove_set_list x off len un lpid pid n :
  AddRemoveByteRangeLockEntry (fe_of x) (fb_of x) off len un lpid (Some pid) n
  = set_list x (add_remove off len un lpid pid (slot_list n x)) n.
Proof. by destruct x. Qed.

Lemma remove_range_len_ok off len ll : Forall len_ok ll -> Forall len_ok (remove_range off len ll).
Proof.
  rewrite !list.Forall_forall. intros Hl c Hc. apply Hl.
  eapply elem_of_sublist, remove_range_sublist. done.
Qed.

Lemma mirrors_lock n w w' x p off len timo lpid pid :
  mirrors (n, w) -> used n x -> - 2 ^ 63 <= len < 2 ^ 63 ->
  smbfs_smb_lock SMB_LOCK_EXCL (slot_fid n x) p off (u64 len) timo w = (0, w') ->
  mirrors (AddRemoveByteRangeLockEntry (fe_of x) (fb_of x) off len 0 lpid (Some pid) n, w').
Proof.
  intros Hm Hx Hlen Hw. rewrite AddRemove_set_list. unfold add_remove. cbn.
  destruct (mir_used _ Hm x Hx) as (Ho & Hl & HR). cbn in *.
  eapply mirrors_set_list; eauto using lock_frame.
  - apply list.Forall_app_2; [done|]. by constructor.
  - eapply follows_add_entry, lock_grants; [done|exact Hw].
Qed.

Lemma mirrors_unlock n w w' x p off len timo un lpid pid :
  mirrors (n, w) -> used n x -> - 2 ^ 63 <= len < 2 ^ 63 -> un <> 0 ->
  smbfs_smb_lock SMB_LOCK_RELEASE (slot_fid n x) p off (u64 len) timo w = (0, w') ->
  mirrors (AddRemoveByteRangeLockEntry (fe_of x) (fb_of x) off len un lpid (Some pid) n, w').
Proof.
  intros Hm Hx Hlen Hun Hw. rewrite AddRemove_set_list. unfold add_remove.
  destruct (Z.eqb_spec un 0) as [|_]; [done|].
  destruct (mir_used _ Hm x Hx) as (Ho & Hl & HR). cbn in *.
  eapply mirrors_set_list; eauto using lock_frame, remove_range_len_ok.
  eapply follows_remove_range, unlock_releases; [done|done|exact HR|exact Hw].
Qed.

Lemma mirrors_lock_fails n w w' flags f p off len timo e :
  mirrors (n, w) -> smbfs_smb_lock flags f p off len timo w = (e, w') -> e <> 0 ->
  mirrors (n, w').
Proof.
  intros Hm Hw He. eapply mirrors_world, Hm. intros g.
  destruct (decide (g = f)) as [->|Hg].
  - split; [by eapply lock_fails|by eapply lock_frame].
  - split; [|by eapply lock_frame]. by eapply lock_frame in Hw as [-> _].
Qed.

Lemma mirrors_close i s : mirrors s -> (i < 3)%nat -> mirrors (close_if_unused (Some i) s).
Proof.
  destruct s as [n w]. intros Hm Hi. unfold close_if_unused.
  destruct (bool_decide _ && _) eqn:E; [|done].
  apply andb_prop in E as [_ E]. apply negb_true_iff, Z.eqb_neq in E.
  eapply mirrors_clear; [exact Hm|done|done|]. intros g Hg.
  destruct (smbfs_smb_close (fid (ent n i)) w) as [e w'] eqn:Ew. by eapply close_frame.
Qed.

Lemma mirrors_get_lockEntry fap mode s r s' :
  mirrors s -> smbfs_get_lockEntry fap mode s = (r, s') ->
  mirrors s' /\ f_smbflock s'.1 = f_smbflock s.1 /\ f_smbflock_pid s'.1 = f_smbflock_pid s.1 /\
  match r with inr i => (i < 3)%nat /\ used s'.1 (SE i) | inl _ => True end.
Proof.
  destruct s as [n w]. intros Hm. unfold smbfs_get_lockEntry.
  destruct (_ <=? 0); [intros; by simplify_eq|].
  destruct (smbfs_find_lockEntry mode) as [i|] eqn:Ei; [|intros; by simplify_eq].
  apply smbfs_find_lockEntry_lt in Ei.
  destruct (Z.ltb_spec 0 (refcnt (ent n i))) as [Hr|Hr]; [intros; by simplify_eq|].
  destruct (negb fap); [intros; by simplify_eq|].
  destruct (smbfs_smb_ntcreatex _ _ _ _ _ w) as [[e|o] w1] eqn:Ec; intros; simplify_eq; cbn.
  { split; [|done]. eapply mirrors_world, Hm. intros g. by eapply create_fails. }
  destruct (create_fresh _ _ _ _ _ _ _ _ Ec) as (H1 & H2 & H3 & H4).
  assert (mirrors (set_ent i (opened_entry mode o (ent n i)) n, w1)) as Hm1.
  { eapply mirrors_open; eauto. intros g Hg. by eapply create_frame. }
  split_and!; try done.
  - destruct (has (o_lease_flags o) _); [|done]. eapply mirrors_world, Hm1. intros g.
    destruct (smbfs_add_update_lease o w1) as [e w2] eqn:El.
    eapply lease_frame in El as [E ?]. cbn. split; [exact E|tauto].
  - pose proof (mir_idle _ Hm i Ei Hr) as (E0 & _). cbn in E0.
    rewrite ent_set_same by (pose proof (mir_len _ Hm); cbn in *; lia). cbn. by rewrite E0.
Qed.
End Mirror.
