(* ===== verification/BrlTheorems.v ===== *)
(** Byte-range locks: the theorems about the operations. *)
From S2P Require Import Prelude Brl BrlFacts BrlMirror.
Import Errno.

(** ** Locks of the client and locks at the server *)

Section Preserve.
Context `{LockServer} (R : list (Z * Z) -> list (Z * Z) -> Prop) `{!Follows R}.

Definition pb_ok (pb : ByteRangeLockPB2) : Prop := - 2 ^ 63 <= pb_length pb < 2 ^ 63.

Lemma brl_on_mirrors x pb pid s out e pb' s' :
  mirrors R s -> used s.1 x -> pb_ok pb ->
  brl_on (fe_of x) (fb_of x) pb pid s = (out, e, pb', s') -> mirrors R s'.
Proof.
  destruct s as [n w]. intros Hm Hx Hlen. unfold brl_on.
  rewrite CheckByteRangeLockEntry_eq.
  set (pre := if unLockFlag pb =? 1 then _ else _).
  assert (pre.2 = n) as Epre by (unfold pre; by destruct (_ =? 1)).
  destruct pre as [refused n1]. cbn in Epre. subst n1.
  destruct refused; [intros; by simplify_eq|].
  set (flags := if unLockFlag pb =? 0 then _ else _).
  destruct (smbfs_smb_lock flags _ _ _ _ _ w) as [err w1] eqn:Ew.
  destruct (Z.eqb_spec err 0) as [->|He].
  - intros; simplify_eq. unfold flags in Ew.
    destruct (Z.eqb_spec (unLockFlag pb) 0) as [E0|E0].
    + rewrite E0. eapply mirrors_lock; eauto.
    + eapply mirrors_unlock; eauto.
  - intros Hr. assert (s' = (n, w1)) as -> by (destruct (_ && _); by simplify_eq).
    eapply mirrors_lock_fails; eauto.
Qed.

Lemma brl_on_flock fe fb pb pid s out e pb' s' :
  brl_on fe fb pb pid s = (out, e, pb', s') -> f_smbflock s'.1 = f_smbflock s.1.
Proof.
  destruct s as [n w]. unfold brl_on. rewrite CheckByteRangeLockEntry_eq.
  set (pre := if unLockFlag pb =? 1 then _ else _).
  assert (pre.2 = n) as Epre by (unfold pre; by destruct (_ =? 1)).
  destruct pre as [[] n1]; cbn in Epre; subst n1; [intros; by simplify_eq|].
  destruct (smbfs_smb_lock _ _ _ _ _ _ w) as [err w1].
  destruct (err =? 0); [|destruct (_ && _)]; intros; simplify_eq; [|done..].
  destruct fe; [done|]. by destruct fb.
Qed.

Lemma drop_caches_mirrors n w : mirrors R (n, w) -> mirrors R (drop_caches n, w).
Proof. by apply mirrors_ext. Qed.

Lemma rebase_ok size pb : pb_ok pb -> pb_ok (rebase size pb).
Proof. unfold rebase. by destruct (_ =? 0). Qed.

Lemma ioctl_keeps_mirrors isdir ca b2 fap re om pid pb s e pb' s' :
  mirrors R s -> pb_ok pb ->
  smbfs_ioctl_brl isdir ca b2 fap re om pid pb s = (e, pb', s') -> mirrors R s'.
Proof.
  destruct s as [n0 w]. intros Hm Hpb. unfold smbfs_ioctl_brl.
  destruct isdir; [intros; by simplify_eq|].
  destruct (negb (re =? 0)); [intros; by simplify_eq|].
  set (n := if ca then drop_caches n0 else n0).
  assert (mirrors R (n, w)) as Hn by (unfold n; destruct ca; [by apply drop_caches_mirrors|done]).
  apply (rebase_ok (n_size n)) in Hpb.
  destruct b2; cbn [negb]; [|intros; by simplify_eq].
  destruct om as [er|om]; [intros; by simplify_eq|].
  destruct (f_smbflock n); [intros; by simplify_eq|].
  destruct (has om FWASLOCKED).
  - destruct (Z.leb_spec (f_lockFID_refcnt n) 0); [intros; by simplify_eq|].
    destruct (brl_on _ _ _ _ _) as [[[out er] pb1] s1] eqn:Eb. intros; simplify_eq.
    by eapply (brl_on_mirrors SL) in Eb.
  - destruct (smbfs_get_lockEntry _ _ _) as [r s1] eqn:Eg.
    apply (mirrors_get_lockEntry R) in Eg as (Hm1 & _ & _ & Hr); [|done].
    destruct r as [er|i]; [intros; by simplify_eq|]. destruct Hr as [Hi Hu].
    destruct (brl_on _ _ _ _ _) as [[[out er] pb1] s2] eqn:Eb.
    eapply (brl_on_mirrors (SE i)) in Eb; [|done..].
    destruct out; intros; simplify_eq; [done|]. by apply mirrors_close.
Qed.

Lemma get_lockEntry_flock fap mode s r s' :
  smbfs_get_lockEntry fap mode s = (r, s') -> f_smbflock s'.1 = f_smbflock s.1.
Proof.
  destruct s as [n w]. unfold smbfs_get_lockEntry.
  destruct (_ <=? 0); [intros; by simplify_eq|].
  destruct (smbfs_find_lockEntry mode); [|intros; by simplify_eq].
  destruct (0 <? _); [intros; by simplify_eq|].
  destruct (negb fap); [intros; by simplify_eq|].
  destruct (smbfs_smb_ntcreatex _ _ _ _ _ w) as [[?|?] ?]; intros; by simplify_eq.
Qed.

Lemma close_if_unused_flock b s : f_smbflock (close_if_unused b s).1 = f_smbflock s.1.
Proof. destruct s as [n w], b as [i|]; [|done]. cbn. by destruct (_ && _). Qed.

Lemma ioctl_flock isdir ca b2 fap re om pid pb s e pb' s' :
  smbfs_ioctl_brl isdir ca b2 fap re om pid pb s = (e, pb', s') ->
  f_smbflock s'.1 = f_smbflock s.1.
Proof.
  destruct s as [n0 w]. unfold smbfs_ioctl_brl.
  destruct isdir; [intros; by simplify_eq|].
  destruct (negb (re =? 0)); [intros; by simplify_eq|].
  set (n := if ca then drop_caches n0 else n0).
  assert (f_smbflock n = f_smbflock n0) as En by (unfold n; by destruct ca).
  destruct b2; cbn [negb fst]; [|intros; by simplify_eq].
  destruct om as [er|om]; [intros; by simplify_eq|].
  destruct (f_smbflock n) eqn:Efl; [intros; simplify_eq; cbn; congruence|].
  destruct (has om FWASLOCKED).
  - destruct (_ <=? 0); [intros; simplify_eq; cbn; congruence|].
    destruct (brl_on _ _ _ _ _) as [[[out er] pb1] s1] eqn:Eb. intros; simplify_eq.
    apply brl_on_flock in Eb. cbn in Eb. congruence.
  - destruct (smbfs_get_lockEntry _ _ _) as [r s1] eqn:Eg. apply get_lockEntry_flock in Eg.
    cbn in Eg. destruct r as [er|i]; [intros; simplify_eq; congruence|].
    destruct (brl_on _ _ _ _ _) as [[[out er] pb1] s2] eqn:Eb. apply brl_on_flock in Eb.
    destruct out; intros; simplify_eq; rewrite ?close_if_unused_flock; congruence.
Qed.

(** flock with a server that takes the full length if it takes any. *)
Definition full_length_server : Prop :=
  forall f p timo w e w', smbfs_smb_lock SMB_LOCK_EXCL f p 0 (u64 (-1)) timo w = (e, w') ->
  e <> 0 -> (smbfs_smb_lock SMB_LOCK_EXCL f p 0 altMaxLen timo w').1 <> 0.

Definition flock_full (n : smbnode) : Prop :=
  forall fl, f_smbflock n = Some fl -> fl_len fl = u64 (-1).

Lemma with_flock_mirrors fl p n w : mirrors R (n, w) -> mirrors R (with_flock fl p n, w).
Proof. by apply mirrors_ext. Qed.

Lemma setlk_mirrors i l_type timo pid mode s e s' :
  full_length_server -> mirrors R s -> flock_full s.1 -> used s.1 (SE i) ->
  advlock_op F_SETLK l_type timo pid mode i s = (e, s') -> mirrors R s' /\ flock_full s'.1.
Proof.
  destruct s as [n w]. intros Hserver Hm Hf Hu. unfold advlock_op. rewrite Z.eqb_refl.
  destruct (f_smbflock n) as [fl|] eqn:Efl.
  - assert (fl_len fl = u64 (-1)) as El by by apply Hf.
    repeat case_match; intros; simplify_eq; (split; [by try apply with_flock_mirrors|]);
      try done; intros ? [= <-]; done.
  - destruct (smbfs_smb_lock SMB_LOCK_EXCL _ _ _ (u64 (-1)) _ w) as [e1 w1] eqn:E1.
    destruct (Z.eqb_spec e1 0) as [->|He1]; cbn [negb].
    + rewrite Z.eqb_refl. cbn [negb]. intros; simplify_eq. split; [|by intros ? [= <-]].
      apply with_flock_mirrors. change (i64 (u64 (-1))) with (-1).
      eapply (mirrors_lock R n w w1 (SE i)); [done|done|lia|exact E1].
    + destruct (smbfs_smb_lock SMB_LOCK_EXCL _ _ _ altMaxLen _ w1) as [e2 w2] eqn:E2.
      pose proof (Hserver _ _ _ _ _ _ E1 He1) as He2. rewrite E2 in He2. cbn in He2.
      destruct (Z.eqb_spec e2 0) as [|_]; [done|]. cbn. intros; simplify_eq. split; [|done].
      eapply mirrors_lock_fails; [|exact E2|done]. eapply mirrors_lock_fails; eauto.
Qed.

Lemma unlck_mirrors i l_type timo pid mode s e s' :
  mirrors R s -> flock_full s.1 -> used s.1 (SE i) ->
  advlock_op F_UNLCK l_type timo pid mode i s = (e, s') -> mirrors R s' /\ flock_full s'.1.
Proof.
  destruct s as [n w]. intros Hm Hf Hu. unfold advlock_op. change (F_UNLCK =? F_SETLK) with false.
  rewrite Z.eqb_refl. cbn [andb].
  destruct (f_smbflock n) as [fl|] eqn:Efl; [|intros; by simplify_eq].
  assert (fl_len fl = u64 (-1)) as El by by apply Hf.
  assert (forall r, flock_full (with_flock (Some (Flock (fl_type fl) r (fl_lck_pid fl)
    (fl_start fl) (fl_len fl) (access_mode fl))) (f_smbflock_pid n) n)) as Hfull
    by (intros r ? [= <-]; done).
  destruct (_ <=? 0); [|intros; simplify_eq; split; [by apply with_flock_mirrors|apply Hfull]].
  destruct (smbfs_smb_lock SMB_LOCK_RELEASE _ _ _ _ _ w) as [e1 w1] eqn:E1.
  destruct (Z.eqb_spec e1 0) as [->|He1]; intros; simplify_eq.
  - split; [|done]. apply with_flock_mirrors. change (i64 (u64 (-1))) with (-1).
    eapply (mirrors_unlock R _ w w1 (SE i)); [by apply with_flock_mirrors|done|lia|done|].
    rewrite El in E1. exact E1.
  - split; [|apply Hfull]. apply with_flock_mirrors. eapply mirrors_lock_fails; eauto.
Qed.

(** What the switch keeps the whole call keeps; [K] speaks of the flock. *)
Lemma advlock_by (K : option smbfs_flock -> Prop) isreg isdir posix fap er le re flags op l_type pid s e s' :
  (forall i timo mode s1 e1 s2, mirrors R s1 -> K (f_smbflock s1.1) -> used s1.1 (SE i) ->
     advlock_op op l_type timo pid mode i s1 = (e1, s2) -> mirrors R s2 /\ K (f_smbflock s2.1)) ->
  mirrors R s -> K (f_smbflock s.1) ->
  smbfs_vnop_advlock isreg isdir posix fap er le re flags op l_type pid s = (e, s') ->
  mirrors R s' /\ K (f_smbflock s'.1).
Proof.
  destruct s as [n w]. intros Hop Hm Hf. unfold smbfs_vnop_advlock.
  destruct (negb isreg); [intros; by simplify_eq|].
  destruct (_ && negb posix); [intros; by simplify_eq|].
  destruct (negb (has flags _)); [intros; by simplify_eq|].
  destruct (negb (le =? 0)); [intros; by simplify_eq|].
  destruct (0 <? _); [intros; by simplify_eq|].
  destruct (negb (re =? 0)); [intros; by simplify_eq|].
  destruct (_ <=? 0); [intros; by simplify_eq|].
  destruct (smbfs_get_lockEntry _ _ _) as [r s1] eqn:Eg.
  apply (mirrors_get_lockEntry R) in Eg as (Hm1 & Efl & _ & Hr); [|done].
  assert (K (f_smbflock s1.1)) as Hf1 by (rewrite Efl; exact Hf).
  destruct r as [er1|i]; [intros; by simplify_eq|]. destruct Hr as [Hi Hu].
  destruct (advlock_op _ _ _ _ _ _ _) as [e2 s2] eqn:Ea.
  destruct (Hop _ _ _ _ _ _ Hm1 Hf1 Hu Ea) as [Hm2 Hf2].
  intros; simplify_eq. split; [by apply mirrors_close|]. by rewrite close_if_unused_flock.
Qed.

Lemma advlock_keeps_mirrors isreg isdir posix fap er le re flags op l_type pid s e s' :
  full_length_server -> mirrors R s -> flock_full s.1 ->
  smbfs_vnop_advlock isreg isdir posix fap er le re flags op l_type pid s = (e, s') ->
  mirrors R s' /\ flock_full s'.1.
Proof.
  intros Hserver. apply (advlock_by (fun o => forall fl, o = Some fl -> fl_len fl = u64 (-1))).
  intros i timo mode s1 e1 s2 Hm Hf Hu Ea.
  destruct (Z.eqb_spec op F_SETLK) as [->|H1]; [by eapply setlk_mirrors|].
  destruct (Z.eqb_spec op F_UNLCK) as [->|H2]; [by eapply unlck_mirrors|].
  unfold advlock_op in Ea. destruct s1 as [n1 w1].
  apply Z.eqb_neq in H1, H2. rewrite H1, H2 in Ea. by simplify_eq.
Qed.
End Preserve.

(** ** Unlocking at close *)

Section Close.
Context `{Wire}.

(** The entry pointers of the loop and the FID they stand for. *)
Definition points (fe : bool) (fb : option nat) (x : slot) : Prop :=
  match x with SL => fe = true | SE i => fe = false /\ fb = Some i /\ (i < 3)%nat end.

Lemma points_list fe fb x n : points fe fb x -> locks_of fe fb n = slot_list n x.
Proof. destruct x; cbn; [intros ->|intros (-> & -> & _)]; done. Qed.

Lemma points_fid fe fb x n : points fe fb x -> fid_of fe fb n = slot_fid n x.
Proof. destruct x; cbn; [intros ->|intros (-> & -> & _)]; done. Qed.

Lemma points_remove fe fb x off len lpid pid n : points fe fb x ->
  AddRemoveByteRangeLockEntry fe fb off len 1 lpid (Some pid) n
  = set_list x (remove_range off len (slot_list n x)) n.
Proof. destruct x; cbn; [intros ->|intros (-> & -> & _)]; done. Qed.

Lemma set_list_len x ll n : length (f_sharedFID_lockEntries (set_list x ll n))
  = length (f_sharedFID_lockEntries n).
Proof. destruct x; cbn; [done|]. by rewrite length_insert. Qed.

Lemma set_list_same fe fb x ll n : points fe fb x -> length (f_sharedFID_lockEntries n) = 3%nat ->
  slot_list (set_list x ll n) x = ll.
Proof.
  destruct x as [|i]; intros Hp H3; [done|]. destruct Hp as (_ & _ & Hi).
  unfold slot_list. cbn. by rewrite ent_set_same by lia.
Qed.

(** The loop ends within a round per lock: every property that a round keeps holds
    at the end, and no lock of the process is left. *)
Lemma unlock_loop_ends (P : smbnode * world -> Prop) fe fb x pid fuel s :
  points fe fb x -> length (f_sharedFID_lockEntries s.1) = 3%nat ->
  (length (slot_list s.1 x) < fuel)%nat -> P s ->
  (forall n w c e w', P (n, w) -> length (f_sharedFID_lockEntries n) = 3%nat ->
     c ∈ slot_list n x -> brl_p_pid c = pid ->
     smbfs_smb_lock SMB_LOCK_RELEASE (slot_fid n x) (brl_lck_pid c) (brl_offset c)
       (u64 (brl_length c)) 0 w = (e, w') ->
     P (set_list x (remove_range (brl_offset c) (brl_length c) (slot_list n x)) n, w')) ->
  exists s', unlock_loop fuel fe fb pid s = Some s' /\ P s' /\
    length (f_sharedFID_lockEntries s'.1) = 3%nat /\
    Forall (fun c => brl_p_pid c <> pid) (slot_list s'.1 x).
Proof.
  intros Hp H3 Hfuel HP Hround. revert s H3 Hfuel HP.
  induction fuel as [|k IH]; intros [n w] H3 Hfuel HP; [lia|]. cbn [unlock_loop].
  rewrite (points_list _ _ _ _ Hp), (points_fid _ _ _ _ Hp). cbn [fst] in *.
  destruct (List.find _ _) as [c|] eqn:Ec.
  - apply find_some in Ec as [Hc Epid]. apply list_elem_of_In in Hc. apply Z.eqb_eq in Epid.
    rewrite (points_remove _ _ _ _ _ _ _ _ Hp).
    destruct (smbfs_smb_lock _ _ _ _ _ _ w) as [e w1] eqn:Ew.
    apply IH; cbn.
    + by rewrite set_list_len.
    + rewrite (set_list_same _ _ _ _ _ Hp H3).
      pose proof (remove_range_length _ _ _ _ Hc eq_refl eq_refl). lia.
    + by eapply Hround.
  - exists (n, w). split_and!; [done|done|done|]. apply list.Forall_forall. intros c Hc.
    apply list_elem_of_In in Hc. by apply Z.eqb_neq, (find_none _ _ Ec c Hc).
Qed.
End Close.
