(* ===== verification/BrlClose.v ===== *)
(** Byte-range locks: closing a file and choosing the FID of an I/O. *)
From S2P Require Import Prelude Brl BrlFacts BrlServer BrlMirror BrlTheorems.
Import Errno.

Section Closing.
Context `{Wire}.

Lemma unlock_flock_frame mode pid n w b n1 w1 :
  unlock_flock mode pid (n, w) = (b, (n1, w1)) ->
  f_sharedFID_lockEntries n1 = f_sharedFID_lockEntries n /\
  f_lockFID_refcnt n1 = f_lockFID_refcnt n /\ f_lockFID_fid n1 = f_lockFID_fid n /\
  f_lockFID_lockList n1 = f_lockFID_lockList n /\ f_sharedFID_refcnt n1 = f_sharedFID_refcnt n /\
  match b with Some i => (i < 3)%nat | None => True end.
Proof.
  unfold unlock_flock. destruct (f_smbflock n) as [fl|]; [|intros; by simplify_eq].
  destruct (_ =? pid); [|intros; by simplify_eq].
  set (b2 := if _ && _ then _ else _).
  assert (match b2 with Some i => (i < 3)%nat | None => True end) as Hb.
  { destruct b2 as [i|] eqn:E; [|done]. unfold b2 in E.
    destruct (_ && _) in E; by apply smbfs_find_lockEntry_lt in E. }
  clearbody b2. intros; by simplify_eq.
Qed.

(** The list of locks that a close with this mode is about. *)
Definition closes (openMode : Z) (n : smbnode) (x : slot) : Prop :=
  if has openMode FWASLOCKED then x = SL /\ 0 < f_lockFID_refcnt n
  else exists i, smbfs_find_lockEntry (access_of_open openMode) = Some i /\ x = SE i.

Lemma closes_unique openMode n x y : closes openMode n x -> closes openMode n y -> x = y.
Proof.
  unfold closes. destruct (has _ _); [intros [-> _] [-> _]; done|].
  intros (i & Ei & ->) (j & Ej & ->). congruence.
Qed.

Lemma close_if_unused_list b x s : length (f_sharedFID_lockEntries s.1) = 3%nat ->
  match b with Some i => (i < 3)%nat | None => True end ->
  slot_list (close_if_unused b s).1 x = slot_list s.1 x.
Proof.
  destruct s as [n w], b as [i|]; [|done]. intros H3 Hi. cbn in *.
  destruct (bool_decide_reflect (lockList (ent n i) = [])) as [El|]; [|done].
  destruct (negb _); [|done]. cbn. destruct x as [|j]; [done|]. unfold slot_list. cbn.
  destruct (decide (i = j)) as [<-|Hij]; [|by rewrite ent_set_other].
  by rewrite ent_set_same by lia.
Qed.

(** The shape of a close: the flock is dropped, the loop runs on the list that the
    close is about, and an unused lock entry is closed. *)
Lemma free_locks_shape openMode pid n w (P : slot -> smbnode * world -> Prop) :
  length (f_sharedFID_lockEntries n) = 3%nat ->
  (forall b n1 w1 x, unlock_flock (access_of_open openMode) pid (n, w) = (b, (n1, w1)) ->
     closes openMode n x -> P x (n1, w1)) ->
  (forall x n1 w1 c e w', P x (n1, w1) -> length (f_sharedFID_lockEntries n1) = 3%nat ->
     c ∈ slot_list n1 x -> brl_p_pid c = pid ->
     smbfs_smb_lock SMB_LOCK_RELEASE (slot_fid n1 x) (brl_lck_pid c) (brl_offset c)
       (u64 (brl_length c)) 0 w1 = (e, w') ->
     P x (set_list x (remove_range (brl_offset c) (brl_length c) (slot_list n1 x)) n1, w')) ->
  exists e s', smbfs_free_locks_on_close openMode (Some pid) (n, w) = Some (e, s') /\
    ((e = 0 /\ ~ (exists x, closes openMode n x) \/ e = EBADF) /\
        s' = (unlock_flock (access_of_open openMode) pid (n, w)).2 \/
     exists x b s2, e = 0 /\ closes openMode n x /\ P x s2 /\ s' = close_if_unused b s2 /\
       length (f_sharedFID_lockEntries s2.1) = 3%nat /\
       match b with Some i => (i < 3)%nat | None => True end /\
       Forall (fun c => brl_p_pid c <> pid) (slot_list s2.1 x)).
Proof.
  intros H3 Hstart Hround. unfold smbfs_free_locks_on_close.
  destruct (unlock_flock _ _ _) as [b [n1 w1]] eqn:Eu.
  destruct (unlock_flock_frame _ _ _ _ _ _ _ Eu) as (E1 & E2 & _ & E4 & E5 & Hb).
  specialize (Hstart b n1 w1). specialize (fun x => Hstart x eq_refl).
  unfold closes in *. destruct (has openMode FWASLOCKED).
  - rewrite E2. destruct (Z.leb_spec (f_lockFID_refcnt n) 0) as [Hr|Hr].
    { eexists _, _. split; [done|]. left. split; [left|done].
      split; [done|]. intros (x & _ & ?). lia. }
    destruct (unlock_loop_ends (P SL) true b SL pid (S (length (f_lockFID_lockList n1))) (n1, w1))
      as (s2 & Es & HP & Hl & Hno); [done|cbn; by rewrite E1|cbn; lia|by apply Hstart|by apply Hround|].
    rewrite Es. eexists _, _. split; [done|]. right. exists SL, b, s2. done.
  - rewrite E5. destruct (_ <=? 0); [eexists _, _; split; [done|]; left; split; [by right|done]|].
    destruct (smbfs_find_lockEntry _) as [i|] eqn:Ei;
      [|eexists _, _; split; [done|]; left; split; [by right|done]].
    pose proof (smbfs_find_lockEntry_lt _ _ Ei) as Hi.
    destruct (unlock_loop_ends (P (SE i)) false (Some i) (SE i) pid
      (S (length (lockList (ent n1 i)))) (n1, w1)) as (s2 & Es & HP & Hl & Hno);
      [done|cbn; by rewrite E1|cbn; lia|by apply Hstart; eauto|by apply Hround|].
    rewrite Es. eexists _, _. split; [done|]. right. exists (SE i), (Some i), s2.
    split_and!; try done. by exists i.
Qed.

(** Ranges as the list compares them. *)
Definition key (c : ByteRangeLockEntry) : Z * Z := (brl_offset c, brl_length c).

Lemma NoDup_key_inj l c d : NoDup (key <$> l) -> c ∈ l -> d ∈ l -> key c = key d -> c = d.
Proof.
  intros Hnd Hc Hd E. apply list_elem_of_lookup in Hc as [i Hi], Hd as [j Hj].
  assert (i = j) as ->; [|congruence].
  eapply list.NoDup_lookup; [exact Hnd|by rewrite list_lookup_fmap, Hi|].
  by rewrite list_lookup_fmap, Hj, E.
Qed.

Lemma filter_remove_range (P : ByteRangeLockEntry -> Prop) `{forall x, Decision (P x)} c l :
  NoDup (key <$> l) -> c ∈ l -> ~ P c ->
  filter P (remove_range (brl_offset c) (brl_length c) l) = filter P l.
Proof.
  intros Hnd Hc HP.
  destruct (remove_range_split (brl_offset c) (brl_length c) l) as (l1 & d & l2 & -> & -> & E1 & E2).
  { apply list.Exists_exists. by exists c. }
  assert (d = c) as ->.
  { eapply NoDup_key_inj; [exact Hnd| |done|]; [|unfold key; congruence].
    apply elem_of_app. right. apply list_elem_of_here. }
  by rewrite !list.filter_app, filter_cons_False.
Qed.

Lemma list_filter_all (P : ByteRangeLockEntry -> Prop) `{forall x, Decision (P x)} l :
  Forall P l -> filter P l = l.
Proof.
  induction 1 as [|c r Hc _ IH]; [done|]. by rewrite filter_cons_True, IH.
Qed.

Lemma NoDup_remove_range off len l : NoDup (key <$> l) -> NoDup (key <$> remove_range off len l).
Proof. intros Hnd. eapply sublist_NoDup; [exact Hnd|]. apply fmap_sublist, remove_range_sublist. Qed.
End Closing.

(** ** Closing *)

(** C38: closing a file ends, whatever the server answers to the unlocks, and if it
    succeeds no lock of the closing process is left on the FID that the close is
    about. *)
Theorem close_releases_every_lock `{Wire} openMode pid n w :
  length (f_sharedFID_lockEntries n) = 3%nat ->
  exists e n' w', smbfs_free_locks_on_close openMode (Some pid) (n, w) = Some (e, (n', w')) /\
    (e = 0 -> forall x, closes openMode n x ->
       Forall (fun c => brl_p_pid c <> pid) (slot_list n' x)).
Proof.
  intros H3.
  destruct (free_locks_shape openMode pid n w (fun _ _ => True)) as (e & [n' w'] & E & Hcases); try done.
  exists e, n', w'. split; [done|]. intros -> x Hx.
  destruct Hcases as [[[[_ Hno]|?] _]|(y & b & s2 & _ & Hy & _ & Es & Hl & Hb & Hno)];
    [destruct Hno; by exists x|done|].
  rewrite (closes_unique _ _ _ _ Hx Hy).
  change n' with (n', w').1. rewrite Es, close_if_unused_list by done. done.
Qed.

Lemma close_releases_every_lock_witness :
  exists e n' w', smbfs_free_locks_on_close 3 (Some 7) (busy_node, busy_server) = Some (e, (n', w')) /\
    (e = 0 -> forall x, closes 3 busy_node x ->
       Forall (fun c => brl_p_pid c <> 7) (slot_list n' x)).
Proof. apply (close_releases_every_lock 3 7 busy_node busy_server). reflexivity. Defined.

(** If no two locks on the FID have the same range, as is the case for the
    exclusive locks a server grants, a close removes the locks of the closing
    process and no others, on this FID and on all others. *)
Theorem close_keeps_other_locks `{Wire} openMode pid n w x n' w' :
  length (f_sharedFID_lockEntries n) = 3%nat ->
  closes openMode n x -> NoDup (key <$> slot_list n x) ->
  smbfs_free_locks_on_close openMode (Some pid) (n, w) = Some (0, (n', w')) ->
  slot_list n' x = filter (fun c => brl_p_pid c <> pid) (slot_list n x) /\
  (forall y, y <> x -> slot_list n' y = slot_list n y).
Proof.
  intros H3 Hx Hnd E.
  set (Inv := fun (y : slot) (s : smbnode * world) => NoDup (key <$> slot_list s.1 x) /\
    filter (fun c => brl_p_pid c <> pid) (slot_list s.1 x)
      = filter (fun c => brl_p_pid c <> pid) (slot_list n x) /\ y = x /\
    forall y, y <> x -> slot_list s.1 y = slot_list n y).
  destruct (free_locks_shape openMode pid n w Inv H3) as (e & s' & E' & Hcases).
  - intros b n1 w1 y Hu Hy. apply unlock_flock_frame in Hu as (E1 & _ & _ & E4 & _).
    assert (forall y, slot_list n1 y = slot_list n y) as El
      by (intros [|i]; unfold slot_list; cbn; unfold ent; by rewrite ?E1, ?E4).
    unfold Inv. cbn. rewrite !El. split_and!; try done. by eapply closes_unique.
  - intros y n1 w1 c er w2 (Hn & Hf & -> & Ho) Hl Hc Hpid _. unfold Inv. cbn in *.
    assert (slot_list (set_list x (remove_range (brl_offset c) (brl_length c) (slot_list n1 x)) n1) x
            = remove_range (brl_offset c) (brl_length c) (slot_list n1 x)) as ->.
    { destruct x as [|i]; [done|]. unfold closes in Hx. destruct (has _ _); [by destruct Hx|].
      destruct Hx as (j & Ej & [= ->]). apply smbfs_find_lockEntry_lt in Ej.
      unfold slot_list. cbn. by rewrite ent_set_same by lia. }
    split_and!; [by apply NoDup_remove_range|rewrite filter_remove_range by (try done; lia); done|done|].
    intros y Hy. rewrite <- Ho by done. destruct x as [|i], y as [|j]; try done.
    unfold slot_list. cbn. by rewrite ent_set_other by congruence.
  - rewrite E in E'. injection E' as <- <-.
    destruct Hcases as [[[[_ Hno]|?] _]|(y & b & s2 & _ & Hy & (_ & Hf & -> & Ho) & Es & Hl & Hb & Hno)];
      [destruct Hno; by exists x|done|].
    change n' with (n', w').1. rewrite Es. split.
    + rewrite close_if_unused_list by done. rewrite <- Hf. symmetry. by apply list_filter_all.
    + intros z Hz. rewrite close_if_unused_list by done. by apply Ho.
Qed.

Lemma close_keeps_other_locks_witness :
  slot_list (set_ent 0 (with_lockList [BRL 10 10 1 8] busy_entry) demo_node) (SE 0)
  = filter (fun c => brl_p_pid c <> 7) (slot_list busy_node (SE 0)).
Proof.
  refine (proj1 (close_keeps_other_locks 3 7 busy_node busy_server (SE 0)
    (set_ent 0 (with_lockList [BRL 10 10 1 8] busy_entry) demo_node)
    (Server (<[200 := [(10, 10)]]> (<[100 := []]> ∅)) 201) _ _ _ _)).
  - reflexivity.
  - exists 0%nat. split; reflexivity.
  - apply (bool_decide_eq_true_1 _). vm_compute. reflexivity.
  - vm_compute. reflexivity.
Defined.

(** ** Choosing the FID of an I/O *)

(** The FIDs whose locks are searched, in the order of the search. *)
Definition in_use (n : smbnode) : list slot :=
  (if 0 <? f_sharedFID_refcnt n
   then SE <$> List.filter (fun i => 0 <? refcnt (ent n i)) [0; 1; 2]%nat else []) ++
  (if 0 <? f_lockFID_refcnt n then [SL] else []).

(** The first lock of the node that the search detects, with its FID. *)
Definition first_lock (off len : Z) (n : smbnode) : option (slot * ByteRangeLockEntry) :=
  List.find (fun p => detects off len p.2) (in_use n ≫= fun x => (fun c => (x, c)) <$> slot_list n x).

Lemma find_app {A} (f : A -> bool) l k :
  List.find f (l ++ k) = match List.find f l with Some x => Some x | None => List.find f k end.
Proof. induction l as [|x l IH]; [done|]. cbn. by destruct (f x). Qed.

Lemma find_pairs off len (x : slot) l :
  List.find (fun p : slot * ByteRangeLockEntry => detects off len p.2) ((fun c => (x, c)) <$> l)
  = (fun c => (x, c)) <$> List.find (detects off len) l.
Proof. induction l as [|c l IH]; [done|]. cbn. destruct (detects off len c); [done|]. apply IH. Qed.

Lemma check_entries_eq off len idx n :
  check_entries off len idx n =
  (match List.find (fun p : slot * ByteRangeLockEntry => detects off len p.2)
     ((SE <$> List.filter (fun i => 0 <? refcnt (ent n i)) idx)
        ≫= fun x => (fun c => (x, c)) <$> slot_list n x) with
   | Some (SE i, c) => Some (i, brl_p_pid c)
   | _ => None
   end, n).
Proof.
  induction idx as [|i idx IH]; [done|]. cbn [check_entries List.filter].
  destruct (0 <? refcnt (ent n i)); [|exact IH].
  rewrite CheckByteRangeLockEntry_eq, fmap_cons, bind_cons, find_app, find_pairs.
  change (slot_list n (SE i)) with (locks_of false (Some i) n).
  destruct (List.find (detects off len) (locks_of false (Some i) n)) as [c|]; [done|]. exact IH.
Qed.

Lemma FindFileRef_spec_helper pid mode off len n :
  f_smbflock n = None ->
  FindFileRef (Some pid) mode off len n =
  (match first_lock off len n with
   | Some (x, c) => if pid =? brl_p_pid c then inr (slot_fid n x) else inl EACCES
   | None => find_any_fid mode n
   end, n).
Proof.
  intros Hfl. unfold FindFileRef. rewrite Hfl.
  destruct ((f_sharedFID_refcnt n =? 0) && (f_lockFID_refcnt n =? 0)) eqn:E0.
  { apply andb_prop in E0 as [Es%Z.eqb_eq El%Z.eqb_eq].
    unfold first_lock, in_use, find_any_fid. by rewrite Es, El. }
  unfold first_lock, in_use. rewrite bind_app, find_app.
  set (sh := if 0 <? f_sharedFID_refcnt n then _ else _).
  set (fs := if 0 <? f_sharedFID_refcnt n then SE <$> _ else []).
  assert (sh = (match List.find (fun p : slot * ByteRangeLockEntry => detects off len p.2)
            (fs ≫= fun x => (fun c => (x, c)) <$> slot_list n x) with
            | Some (SE i, c) => Some (i, brl_p_pid c) | _ => None end, n)) as ->.
  { unfold sh, fs. destruct (0 <? f_sharedFID_refcnt n); [apply check_entries_eq|done]. }
  destruct (List.find _ (fs ≫= _)) as [[[|i] c]|] eqn:Ef.
  - exfalso. apply find_some in Ef as [Hin _]. apply list_elem_of_In in Hin. unfold fs in Hin.
    destruct (0 <? f_sharedFID_refcnt n); [|by apply elem_of_nil in Hin].
    apply list_elem_of_bind in Hin as (x & Hin & Hx).
    apply list_elem_of_fmap in Hin as (d & [= <- _] & _), Hx as (j & ? & _). done.
  - done.
  - unfold find_in_lockFID. rewrite CheckByteRangeLockEntry_eq.
    destruct (0 <? f_lockFID_refcnt n); [|done].
    rewrite bind_singleton, find_pairs. change (slot_list n SL) with (locks_of true None n).
    by destruct (List.find (detects off len) (locks_of true None n)).
Qed.

(** On a file that is not flocked, the FID of an I/O of a process is decided by
    the first lock the search detects: the lock's FID if the process holds it, and
    EACCES otherwise; with no such lock any FID with the access is taken.  The
    node is not changed. *)
Theorem FindFileRef_spec pid mode off len n :
  f_smbflock n = None ->
  FindFileRef (Some pid) mode off len n =
  (match first_lock off len n with
   | Some (x, c) => if pid =? brl_p_pid c then inr (slot_fid n x) else inl EACCES
   | None => find_any_fid mode n
   end, n).
Proof. apply FindFileRef_spec_helper. Qed.

Lemma FindFileRef_spec_witness :
  FindFileRef (Some 8) kAccessRead 95 10 busy_node = (inl EACCES, busy_node).
Proof.
  rewrite (FindFileRef_spec 8 kAccessRead 95 10 busy_node eq_refl). vm_compute. reflexivity.
Defined.

(** Ranges that do not leave the 63-bit offsets of a file. *)
Definition range_ok (off len : Z) : Prop := 0 <= off /\ 0 < len /\ off + len < 2 ^ 63.
Definition lock_overlaps (off len : Z) (c : ByteRangeLockEntry) : Prop :=
  brl_offset c < off + len /\ off < brl_offset c + brl_length c.
(** The lock covers a byte on either side of the range. *)
Definition lock_encloses (off len : Z) (c : ByteRangeLockEntry) : Prop :=
  brl_offset c < off /\ off + len < brl_offset c + brl_length c.

Lemma detects_spec off len c :
  range_ok off len -> range_ok (brl_offset c) (brl_length c) ->
  detects off len c = true <-> lock_overlaps off len c /\ ~ lock_encloses off len c.
Proof.
  intros (Ho & Hl & Hb) (Hco & Hcl & Hcb). unfold detects, lock_overlaps, lock_encloses.
  unfold i64. rewrite !(swrap_small 64) by lia.
  rewrite orb_true_iff, !andb_true_iff, !Z.leb_le, !Z.ltb_lt. lia.
Qed.

(** The search detects exactly the locks that overlap the range and do not
    enclose it strictly. *)
Theorem detects_overlap_not_enclosing off len c :
  range_ok off len -> range_ok (brl_offset c) (brl_length c) ->
  detects off len c = true <-> lock_overlaps off len c /\ ~ lock_encloses off len c.
Proof. apply detects_spec. Qed.

Lemma detects_overlap_not_enclosing_witness :
  detects 5 10 (BRL 0 10 1 7) = true <->
  lock_overlaps 5 10 (BRL 0 10 1 7) /\ ~ lock_encloses 5 10 (BRL 0 10 1 7).
Proof.
  apply (detects_overlap_not_enclosing 5 10 (BRL 0 10 1 7)); unfold range_ok; cbn; lia.
Defined.

(** An I/O that lies strictly inside the locks of other processes is not refused:
    the search misses every lock that encloses the range, and the I/O gets any FID
    with the access. *)
Theorem io_inside_foreign_lock_allowed pid mode off len n :
  f_smbflock n = None -> range_ok off len ->
  (forall x c, x ∈ in_use n -> c ∈ slot_list n x ->
     range_ok (brl_offset c) (brl_length c) /\ lock_encloses off len c) ->
  FindFileRef (Some pid) mode off len n = (find_any_fid mode n, n).
Proof.
  intros Hfl Hr Hall. rewrite FindFileRef_spec_helper by done. unfold first_lock.
  destruct (List.find _ _) as [[x c]|] eqn:Ef; [|done]. exfalso.
  apply find_some in Ef as [Hin Hd]. apply list_elem_of_In, list_elem_of_bind in Hin as (y & Hc & Hy).
  apply list_elem_of_fmap in Hc as (d & [= -> ->] & Hc).
  destruct (Hall y d Hy Hc) as [Hcr He]. cbn in Hd.
  apply detects_spec in Hd; [|done..]. by destruct Hd.
Qed.

Lemma io_inside_foreign_lock_allowed_witness :
  FindFileRef (Some 9) kAccessWrite 110 10
    (set_ent 0 (with_lockList [BRL 100 50 1 7] busy_entry) demo_node)
  = (inr 100, set_ent 0 (with_lockList [BRL 100 50 1 7] busy_entry) demo_node).
Proof.
  rewrite (io_inside_foreign_lock_allowed 9 kAccessWrite 110 10
    (set_ent 0 (with_lockList [BRL 100 50 1 7] busy_entry) demo_node)); [reflexivity|reflexivity| |].
  - unfold range_ok. lia.
  - intros x c Hx Hc. vm_compute in Hx. apply list_elem_of_singleton in Hx as ->.
    vm_compute in Hc. apply list_elem_of_singleton in Hc as ->.
    unfold range_ok, lock_encloses; cbn; lia.
Defined.

(** The exact match of [CheckByteRangeLockEntry] assigns where it means to
    compare: with an offset and a length other than 0 it answers the holder of the
    first lock, whatever that lock is, and overwrites the lock with the range. *)
Theorem check_exact_overwrites off len c r :
  off <> 0 -> len <> 0 ->
  check_list off len 1 (c :: r) =
  (Some (brl_p_pid c), BRL off len (brl_lck_pid c) (brl_p_pid c) :: r).
Proof. intros H1%Z.eqb_neq H2%Z.eqb_neq. cbn. by rewrite H1, H2. Qed.

Lemma check_exact_overwrites_witness :
  check_list 500 4 1 [BRL 0 10 1 7] = (Some 7, [BRL 500 4 1 7]).
Proof. apply (check_exact_overwrites 500 4 (BRL 0 10 1 7) []); discriminate. Defined.
