(* ===== verification/BrlReach.v ===== *)
(** Byte-range locks: sequences of lock operations.

    Whatever the server and whoever closes, the byte-range locks of the lists are held.
    That the lock of a flock is held too needs a server that takes the full length, and
    that the process with the flock does not close the file before it unlocks: two cases
    in which the list keeps a lock that the server has released. *)
From S2P Require Import Prelude Brl BrlFacts BrlServer BrlMirror BrlTheorems BrlClose.
Import Errno.

Section Reach.
Context `{LockServer}.

(** The ranges that a flock asks for. *)
Definition flock_range (r : Z * Z) : Prop := r.1 = 0 /\ (r.2 = u64 (-1) \/ r.2 = altMaxLen).

#[export] Instance flock_range_dec r : Decision (flock_range r).
Proof. unfold flock_range. apply _. Defined.

(** The other ranges of a list. *)
Definition others (l : list (Z * Z)) : list (Z * Z) := filter (fun r => ~ flock_range r) l.

(** Every range of the list but those of flocks is held. *)
Definition covers (l h : list (Z * Z)) : Prop := others l ⊆+ others h.

#[export] Instance follows_covers : Follows covers.
Proof.
  unfold covers, others. split.
  - done.
  - intros l l' h h' El Eh HR. by rewrite <- El, <- Eh.
  - intros x l h HR. rewrite !filter_cons. case_decide; [by apply submseteq_skip|done].
  - intros x l h HR. rewrite !filter_cons in HR. case_decide; [|done]. by apply (follows_del (R := submseteq) x).
  - intros x l h Hx HR. rewrite (filter_cons _ x) in HR. case_decide as Hd; [|done].
    apply (follows_absent (R := submseteq) x); [|done]. rewrite list_elem_of_filter. tauto.
Qed.

(** Losing a recorded lock keeps the relation. *)
Class Drops (R : list (Z * Z) -> list (Z * Z) -> Prop) := drops x l h : R (x :: l) h -> R l h.

#[export] Instance drops_included : Drops submseteq.
Proof. intros x l h E. etrans; [|exact E]. by apply submseteq_cons. Qed.

#[export] Instance drops_covers : Drops covers.
Proof.
  intros x l h E. unfold covers, others in *. etrans; [|exact E]. rewrite (filter_cons _ x).
  case_decide; [by apply submseteq_cons|done].
Qed.

Section Closing.
Context (R : list (Z * Z) -> list (Z * Z) -> Prop) `{!Follows R, !Drops R}.

Lemma mirrors_round n w c x e w' :
  mirrors R (n, w) -> used n x -> c ∈ slot_list n x ->
  smbfs_smb_lock SMB_LOCK_RELEASE (slot_fid n x) (brl_lck_pid c) (brl_offset c)
    (u64 (brl_length c)) 0 w = (e, w') ->
  mirrors R
    (set_list x (remove_range (brl_offset c) (brl_length c) (slot_list n x)) n, w').
Proof.
  intros Hm Hu Hc Hw. destruct (mir_used _ _ Hm x Hu) as (Ho & Hl & HR). cbn in *.
  assert (len_ok c) as Hlen by by (rewrite list.Forall_forall in Hl; apply Hl).
  destruct (decide (e = 0)) as [->|He].
  - pose proof (mirrors_unlock R n w w' x (brl_lck_pid c) _ _ 0 1 0 0 Hm Hu Hlen
      ltac:(done) Hw) as Hm'.
    by rewrite AddRemove_set_list in Hm'.
  - eapply mirrors_set_list; eauto using lock_frame, remove_range_len_ok.
    erewrite lock_fails by eauto.
    destruct (remove_range_split (brl_offset c) (brl_length c) (slot_list n x))
      as (l1 & d & l2 & E & -> & _ & _); [apply list.Exists_exists; by exists c|].
    rewrite E, fmap_app, fmap_cons in HR. apply (drops (range d)).
    eapply follows_perm; [|done|exact HR]. rewrite fmap_app. by rewrite Permutation_middle.
Qed.

Lemma close_by openMode pid n w e s' :
  (forall b n1 w1, unlock_flock (access_of_open openMode) pid (n, w) = (b, (n1, w1)) -> mirrors R (n1, w1)) ->
  length (f_sharedFID_lockEntries n) = 3%nat ->
  smbfs_free_locks_on_close openMode (Some pid) (n, w) = Some (e, s') ->
  mirrors R s' /\ f_smbflock s'.1 = f_smbflock (unlock_flock (access_of_open openMode) pid (n, w)).2.1.
Proof.
  intros Hfl H3 E. set (fl := f_smbflock (unlock_flock (access_of_open openMode) pid (n, w)).2.1).
  set (Inv := fun (x : slot) (s : smbnode * world) => mirrors R s /\
    f_smbflock s.1 = fl /\ (slot_list s.1 x = [] \/ used s.1 x)).
  destruct (free_locks_shape openMode pid n w Inv H3) as (er & s1 & E1 & Hcases).
  - intros b n1 w1 x Hu Hx. pose proof (Hfl _ _ _ Hu) as Hm. split; [done|]. split; [unfold fl; by rewrite Hu|].
    destruct (unlock_flock_frame _ _ _ _ _ _ _ Hu) as (_ & Er & _).
    unfold closes in Hx. destruct (has _ _); [destruct Hx as [-> ?]; right; cbn; lia|].
    destruct Hx as (i & Ei & ->). apply smbfs_find_lockEntry_lt in Ei.
    destruct (decide (refcnt (ent n1 i) <= 0)) as [Hr|]; [|right; cbn; split; [done|lia]].
    left. by apply (mir_idle _ _ Hm i).
  - intros x n1 w1 c er w' (Hm1 & Hf & Hu) Hl3 Hc _ Hw. cbn in *.
    destruct Hu as [El|Hu]; [rewrite El in Hc; by apply elem_of_nil in Hc|].
    split_and!; [by eapply mirrors_round|by destruct x|]. right. by apply set_list_used.
  - rewrite E in E1. simplify_eq.
    destruct Hcases as [[_ ->]|(x & b & s2 & _ & _ & (Hm2 & Hf & _) & -> & _ & Hb & _)].
    { split; [|done]. destruct (unlock_flock _ _ _) as [b [n1 w1]]. by eapply Hfl. }
    split; [|by rewrite close_if_unused_flock].
    destruct b as [i|]; [by apply mirrors_close|done].
Qed.
End Closing.

Lemma close_keeps_mirrors openMode pid n w e s' :
  mirrors submseteq (n, w) ->
  (f_smbflock n = None \/ f_smbflock_pid n <> pid) ->
  smbfs_free_locks_on_close openMode (Some pid) (n, w) = Some (e, s') ->
  mirrors submseteq s' /\ f_smbflock s'.1 = f_smbflock n.
Proof.
  intros Hm Hfl E.
  assert (unlock_flock (access_of_open openMode) pid (n, w) = (None, (n, w))) as Eu.
  { unfold unlock_flock. destruct (f_smbflock n); [|done]. destruct Hfl as [|Hp]; [done|].
    apply Z.eqb_neq in Hp. by rewrite Hp. }
  apply (close_by submseteq) in E; [by rewrite Eu in E| |apply (mir_len _ _ Hm)].
  rewrite Eu. intros b n1 w1 [= _ <- <-]. done.
Qed.

(** ** Flocks with any server *)

(** The length of the flock that the node holds. *)
Definition flock_known (n : smbnode) : Prop :=
  forall fl, f_smbflock n = Some fl -> flock_range (0, fl_len fl).

Lemma covers_list n w x ll :
  mirrors covers (n, w) -> used n x -> Forall len_ok ll -> others (range <$> ll) = others (range <$> slot_list n x) ->
  mirrors covers (set_list x ll n, w).
Proof.
  intros Hm Hx Hl E. destruct (mir_used _ _ Hm x Hx) as (_ & _ & HR). cbn in HR.
  eapply mirrors_set_list; eauto. unfold covers in *. by rewrite E.
Qed.

(** Releasing a flock at the server alone. *)
Lemma covers_release f len timo n w e w' :
  mirrors covers (n, w) -> flock_range (0, len) ->
  smbfs_smb_lock SMB_LOCK_RELEASE f 1 0 len timo w = (e, w') -> mirrors covers (n, w').
Proof.
  intros Hm Hr Hw. destruct (decide (e = 0)) as [->|He]; [|by eapply mirrors_lock_fails].
  destruct Hm as [H1 H2 H3 H4]. split; [done| |done|done]. intros x Hx. cbn in *. destruct (H2 x Hx) as (Ho & Hl & HR).
  destruct (lock_frame _ _ _ _ _ _ _ _ _ (slot_fid n x) Hw) as [Eg Ho']. split; [auto|]. split; [done|].
  destruct (decide (slot_fid n x = f)) as [E|Hne]; [|by rewrite Eg].
  rewrite E in *. pose proof (unlock_releases _ _ _ _ _ _ _ Hw) as Eh. unfold covers, others in *.
  rewrite Eh, (filter_cons _ (0, len)) in HR. case_decide as Hd; [by destruct Hd|done].
Qed.

Lemma remove_flock_others ll :
  Forall len_ok ll -> others (range <$> remove_range 0 (-1) ll) = others (range <$> ll).
Proof.
  intros Hok. destruct (decide (Exists (fun c => brl_offset c = 0 /\ brl_length c = -1) ll)) as [Hex|Hex].
  - apply remove_range_split in Hex as (l1 & c & l2 & -> & -> & E1 & E2).
    unfold others. rewrite !fmap_app, !list.filter_app, fmap_cons, filter_cons. case_decide as Hd; [|done].
    destruct Hd. unfold range. rewrite E1, E2. split; [done|by left].
  - apply not_Exists_Forall in Hex; [|apply _]. by rewrite remove_range_other.
Qed.

Lemma advlock_op_covers op i l_type timo pid mode s e s' :
  mirrors covers s -> flock_known s.1 -> used s.1 (SE i) ->
  advlock_op op l_type timo pid mode i s = (e, s') -> mirrors covers s' /\ flock_known s'.1.
Proof.
  destruct s as [n w]. intros Hm Hf Hu. unfold advlock_op.
  assert (forall fl fl' p, f_smbflock n = Some fl -> fl_len fl' = fl_len fl ->
            flock_known (with_flock (Some fl') p n)) as HK.
  { intros fl fl' p E El ? [= <-]. rewrite El. by apply Hf. }
  destruct (_ =? F_SETLK).
  - destruct (f_smbflock n) as [fl|] eqn:Efl.
    + repeat case_match; intros; simplify_eq; (split; [by try apply with_flock_mirrors|]); try done; by eapply HK.
    + assert (forall len w0 w2, - 2 ^ 63 <= i64 len < 2 ^ 63 -> u64 (i64 len) = len -> flock_range (0, len) ->
        mirrors covers (n, w0) -> smbfs_smb_lock SMB_LOCK_EXCL (fid (ent n i)) 1 0 len timo w0 = (0, w2) ->
        mirrors covers (with_flock (Some (Flock l_type 1 1 0 len mode)) pid
          (AddRemoveByteRangeLockEntry false (Some i) 0 (i64 len) 0 1 (Some pid) n), w2)
        /\ flock_known (with_flock (Some (Flock l_type 1 1 0 len mode)) pid
          (AddRemoveByteRangeLockEntry false (Some i) 0 (i64 len) 0 1 (Some pid) n))) as HL.
      { intros len w0 w2 Hlen El Hr Hm0 Hw. split; [|by intros ? [= <-]]. apply with_flock_mirrors.
        eapply (mirrors_lock covers n w0 w2 (SE i)); [done|done|done|]. rewrite El. exact Hw. }
      destruct (smbfs_smb_lock SMB_LOCK_EXCL _ _ _ (u64 (-1)) _ w) as [e1 w1] eqn:E1.
      destruct (Z.eqb_spec e1 0) as [->|He1]; cbn [negb].
      * cbn [Z.eqb negb]. intros; simplify_eq. eapply HL; [by vm_compute|by vm_compute|split; [done|by left]|done|exact E1].
      * assert (mirrors covers (n, w1)) as Hm1 by (by eapply mirrors_lock_fails).
        destruct (smbfs_smb_lock SMB_LOCK_EXCL _ _ _ altMaxLen _ w1) as [e2 w2] eqn:E2.
        destruct (Z.eqb_spec e2 0) as [->|He2]; cbn [negb]; intros; simplify_eq.
        -- eapply HL; [by vm_compute|by vm_compute|split; [done|by right]|done|exact E2].
        -- split; [by eapply mirrors_lock_fails|done].
  - destruct (_ =? F_UNLCK); [|intros; by simplify_eq].
    destruct (f_smbflock n) as [fl|] eqn:Efl; [|intros; by simplify_eq].
    destruct (_ <=? 0); [|intros; simplify_eq; split; [by apply with_flock_mirrors|by eapply HK]].
    destruct (smbfs_smb_lock SMB_LOCK_RELEASE _ _ _ _ _ w) as [e1 w1] eqn:E1.
    assert (mirrors covers (n, w1)) as Hm1 by (eapply covers_release; [done|by apply Hf|exact E1]).
    destruct (e1 =? 0); intros; simplify_eq; [|split; [by apply with_flock_mirrors|by eapply HK]].
    split; [|done]. apply with_flock_mirrors. change (i64 (u64 (-1))) with (-1).
    rewrite (AddRemove_set_list (SE i)). unfold add_remove. cbn [Z.eqb].
    destruct (mir_used _ _ Hm (SE i) Hu) as (_ & Hl & _).
    apply covers_list; [by apply with_flock_mirrors|done|by apply remove_range_len_ok|by apply remove_flock_others].
Qed.

Lemma close_covers openMode pid n w e s' :
  mirrors covers (n, w) -> flock_known n ->
  smbfs_free_locks_on_close openMode (Some pid) (n, w) = Some (e, s') ->
  mirrors covers s' /\ flock_known s'.1.
Proof.
  intros Hm Hf E.
  assert (HU : forall b n1 w1, unlock_flock (access_of_open openMode) pid (n, w) = (b, (n1, w1)) ->
            mirrors covers (n1, w1) /\ flock_known n1).
  { intros b n1 w1. unfold unlock_flock. destruct (f_smbflock n) as [fl|] eqn:Efl; [|intros; by simplify_eq].
    destruct (_ =? pid); [|intros; by simplify_eq]. set (b2 := if _ && _ then _ else _). clearbody b2.
    intros [= <- <- <-]. split; [|done]. apply with_flock_mirrors. destruct b2 as [i|]; [|done]. destruct (_ <=? 0); [done|].
    destruct (smbfs_smb_lock _ _ _ _ _ _ w) as [e1 w1] eqn:E1. eapply covers_release; [done|by apply Hf|exact E1]. }
  apply (close_by covers) in E as [Hm' Ef]; [|intros b n1 w1 Hu; by eapply HU|apply (mir_len _ _ Hm)].
  split; [done|]. unfold flock_known. rewrite Ef. destruct (unlock_flock _ _ _) as [b [n1 w1]]. by eapply HU.
Qed.

(** A node and the server move by a byte-range lock or unlock, a flock or unlock, the
    close of an open file by any process, and by opens and closes that change the shared
    FID and the size and flags of the node.  An [orderly] process with a flock unlocks it
    before it closes. *)
Inductive brl_step (orderly : bool) : smbnode * world -> smbnode * world -> Prop :=
| step_ioctl isdir ca b2 fap re om pid pb s e pb' s' :
    pb_ok pb -> smbfs_ioctl_brl isdir ca b2 fap re om pid pb s = (e, pb', s') -> brl_step orderly s s'
| step_advlock isreg isdir posix fap er le re flags op l_type pid s e s' :
    smbfs_vnop_advlock isreg isdir posix fap er le re flags op l_type pid s = (e, s') ->
    brl_step orderly s s'
| step_close openMode pid n w e s' :
    (orderly = true -> f_smbflock n = None \/ f_smbflock_pid n <> pid) ->
    smbfs_free_locks_on_close openMode (Some pid) (n, w) = Some (e, s') -> brl_step orderly (n, w) s'
| step_open n w cnt f am sz fl brls :
    brl_step orderly (n, w)
      (Node cnt f am (f_sharedFID_lockEntries n) (f_lockFID_refcnt n) (f_lockFID_fid n)
         (f_lockFID_accessMode n) (f_lockFID_lockList n) (f_smbflock n) (f_smbflock_pid n)
         brls sz fl, w).

(** A node as it is allocated, possibly with an open with deny modes. *)
Definition fresh_node (s : smbnode * world) : Prop :=
  f_sharedFID_lockEntries s.1 = replicate 3 idle_entry /\ f_lockFID_lockList s.1 = [] /\
  f_smbflock s.1 = None /\
  (0 < f_lockFID_refcnt s.1 ->
   is_open s.2 (f_lockFID_fid s.1) /\ held s.2 (f_lockFID_fid s.1) = []).

Lemma fresh_mirrors R `{!Follows R} s : fresh_node s -> mirrors R s.
Proof.
  destruct s as [n w]. intros (E1 & E2 & E3 & Hl). cbn in *.
  assert (forall i, (i < 3)%nat -> ent n i = idle_entry) as Ei.
  { intros i Hi. unfold ent. rewrite E1. do 3 (destruct i as [|i]; [done|]). lia. }
  assert (forall x, used n x -> x = SL) as Hu.
  { intros [|i]; [done|]. intros [Hi Hr]. by rewrite Ei in Hr. }
  split; cbn.
  - by rewrite E1.
  - intros x Hx. pose proof (Hu x Hx) as ->. unfold slot_list, slot_fid. cbn.
    destruct (Hl Hx) as [Ho Eh]. rewrite E2, Eh. split_and!; [done|constructor|apply follows_nil].
  - intros i Hi _. by rewrite Ei.
  - intros x y Hx Hy _. by rewrite (Hu x Hx), (Hu y Hy).
Qed.

Lemma step_keeps s s' : full_length_server ->
  brl_step true s s' -> mirrors submseteq s /\ flock_full s.1 -> mirrors submseteq s' /\ flock_full s'.1.
Proof.
  intros Hserver Hstep [Hm Hf]. destruct Hstep as [????????? e pb' s' Hpb E|?????????????? E|?????? Hfl E|].
  - split; [by eapply (ioctl_keeps_mirrors submseteq); eauto|]. unfold flock_full.
    by rewrite (ioctl_flock _ _ _ _ _ _ _ _ _ _ _ _ E).
  - eapply (advlock_keeps_mirrors submseteq); eauto.
  - eapply close_keeps_mirrors in E as [Hm' E']; [|by auto..]. split; [done|].
    unfold flock_full. by rewrite E'.
  - split; [|done]. by eapply mirrors_ext, Hm.
Qed.

Lemma step_covers o s s' :
  brl_step o s s' -> mirrors covers s /\ flock_known s.1 -> mirrors covers s' /\ flock_known s'.1.
Proof.
  intros Hstep [Hm Hf]. destruct Hstep as [????????? e pb' s' Hpb E|?????????????? E|?????? Hfl E|].
  - split; [by eapply (ioctl_keeps_mirrors covers); eauto|]. unfold flock_known.
    by rewrite (ioctl_flock _ _ _ _ _ _ _ _ _ _ _ _ E).
  - eapply (advlock_by covers (fun o => forall fl, o = Some fl -> flock_range (0, fl_len fl))); [|done|done|exact E].
    intros i timo mode s1 e1 s2 H1 H2 H3 E1. by eapply advlock_op_covers.
  - by eapply close_covers.
  - split; [|done]. by eapply mirrors_ext, Hm.
Qed.
End Reach.

(** ** The claims *)

Lemma reference_full_length : full_length_server (H := reference_wire).
Proof.
  intros f p timo w e w' E He. cbn in *. unfold serve_lock in *. cbn in *.
  destruct (locks w !! f) as [l|] eqn:El; [|simplify_eq; by rewrite El].
  assert (conflicts (0, u64 (-1)) (locks w) = conflicts (0, altMaxLen) (locks w)) as Ec by done.
  rewrite Ec in E. destruct (conflicts (0, altMaxLen) (locks w)) eqn:Ec'; [|by simplify_eq].
  injection E as _ <-. by rewrite El, Ec'.
Qed.

(** C8: whatever byte-range locks and unlocks, flocks, closes and opens happen to a new
    node, in any order and with any server, the FIDs in use are open, and every byte-range
    lock in the list of such a FID (of a range that a flock does not take) is held at the
    server through it.  If the server takes a lock of the full length whenever it takes a
    flock at all, and no process closes the file while it has the flock, then all locks of
    the lists are held. *)
Theorem reachable_locks_are_held `{LockServer} orderly s s' x :
  fresh_node s -> rtc (brl_step orderly) s s' -> used s'.1 x ->
  let recorded := range <$> slot_list s'.1 x in
  let at_server := held s'.2 (slot_fid s'.1 x) in
  is_open s'.2 (slot_fid s'.1 x) /\
  filter (fun r => ~ flock_range r) recorded ⊆+ at_server /\
  (orderly = true -> full_length_server -> recorded ⊆+ at_server).
Proof.
  intros Hfresh Hsteps Hx.
  assert (Hfl : f_smbflock s.1 = None) by (by destruct Hfresh as (_ & _ & E & _)).
  assert (mirrors covers s' /\ flock_known s'.1) as [Hc _].
  { assert (mirrors covers s /\ flock_known s.1) as Hs
      by (split; [by apply fresh_mirrors; [apply _|]|intros fl; by rewrite Hfl]).
    clear x Hx Hfresh Hfl. induction Hsteps as [a|a b c Hab _ IH]; [done|]. apply IH. by eapply step_covers. }
  destruct (mir_used _ _ Hc x Hx) as (Ho & _ & HC). cbv zeta. split; [done|]. split.
  { etrans; [exact HC|]. apply sublist_submseteq, sublist_filter. }
  intros -> Hserver. assert (mirrors submseteq s' /\ flock_full s'.1) as [Hm _].
  { assert (mirrors submseteq s /\ flock_full s.1) as Hs
      by (split; [by apply fresh_mirrors; [apply _|]|intros fl; by rewrite Hfl]).
    clear x Hx Hfresh Hfl Ho HC Hc. induction Hsteps as [a|a b c Hab _ IH]; [done|]. apply IH. by eapply step_keeps. }
  by destruct (mir_used _ _ Hm x Hx) as (_ & _ & HR).
Qed.

Definition lock_pb (off len : Z) : ByteRangeLockPB2 := PB2 off len 0 0 0.
Definition locked_node : smbnode :=
  (smbfs_ioctl_brl false false true true 0 (inr 3) 7 (lock_pb 40 8) (demo_node, demo_server)).2.1.
Definition locked_server : server :=
  (smbfs_ioctl_brl false false true true 0 (inr 3) 7 (lock_pb 40 8) (demo_node, demo_server)).2.2.

Lemma reachable_locks_are_held_witness :
  is_open locked_server 200 /\ [(40, 8)] ⊆+ held locked_server 200.
Proof.
  destruct (@reachable_locks_are_held reference_wire _ true (demo_node, demo_server) (locked_node, locked_server) (SE 0))
    as (H1 & _ & H2).
  - split; [reflexivity|]. split; [reflexivity|]. split; [reflexivity|].
    intros Hr. vm_compute in Hr. discriminate Hr.
  - apply rtc_once.
    refine (step_ioctl true false false true true 0 (inr 3) 7 (lock_pb 40 8) _ _ _ _ _ _).
    + unfold pb_ok. cbn. lia.
    + vm_compute. reflexivity.
  - split; [apply le_n_S, Nat.le_0_l|]. vm_compute. reflexivity.
  - split; [exact H1|]. exact (H2 eq_refl reference_full_length).
Defined.

(** The byte-range lock ioctl keeps the lists of the client equal, up to order, to
    the locks held at the server, in every case: lock, unlock, refused, failed. *)
Theorem brl_ioctl_mirrors `{LockServer} isdir ca b2 fap re om pid pb s e pb' s' :
  mirrors (≡ₚ) s -> pb_ok pb ->
  smbfs_ioctl_brl isdir ca b2 fap re om pid pb s = (e, pb', s') -> mirrors (≡ₚ) s'.
Proof. by apply (ioctl_keeps_mirrors (≡ₚ)). Qed.

Lemma busy_mirrors : mirrors (≡ₚ) (busy_node, busy_server).
Proof.
  assert (forall x, used busy_node x -> x = SE 0) as Hu.
  { intros [|i]; [by intros ?|]. intros [Hi Hr].
    destruct i as [|[|[|i]]]; [done|by vm_compute in Hr|by vm_compute in Hr|lia]. }
  split.
  - done.
  - intros x Hx. rewrite (Hu x Hx). split; [by eexists|]. split; [|done].
    change (Forall len_ok (lockList busy_entry)). repeat constructor; unfold len_ok; cbn; lia.
  - intros [|[|[|i]]] Hi Hr; cbn in *; [by vm_compute in Hr|done|done|lia].
  - intros x y Hx Hy _. by rewrite (Hu x Hx), (Hu y Hy).
Qed.

Lemma brl_ioctl_mirrors_witness :
  mirrors (≡ₚ) (smbfs_ioctl_brl false false true true 0 (inr 3) 8 (PB2 10 10 0 1 0)
                  (busy_node, busy_server)).2.
Proof.
  refine (brl_ioctl_mirrors false false true true 0 (inr 3) 8 (PB2 10 10 0 1 0)
            (busy_node, busy_server) 0 (PB2 10 10 10 1 0) _ busy_mirrors _ _).
  - unfold pb_ok. cbn. lia.
  - vm_compute. reflexivity.
Defined.

Lemma ent_with_flock fl p n i : ent (with_flock fl p n) i = ent n i.
Proof. done. Qed.

(** A flock on a server that refuses the length 2^64 - 1 is taken with the shorter
    length, but the unlock takes the full length off the list: the flock is gone at
    the server and from the node, and its lock stays in the list of the lock entry. *)
Theorem flock_short_length_left_behind `{Wire} i l_type timo pid mode n w e1 w1 w2 w3 :
  (i < 3)%nat -> length (f_sharedFID_lockEntries n) = 3%nat -> f_smbflock n = None ->
  Forall (fun c => brl_length c <> -1) (lockList (ent n i)) ->
  smbfs_smb_lock SMB_LOCK_EXCL (fid (ent n i)) 1 0 (u64 (-1)) timo w = (e1, w1) -> e1 <> 0 ->
  smbfs_smb_lock SMB_LOCK_EXCL (fid (ent n i)) 1 0 altMaxLen timo w1 = (0, w2) ->
  smbfs_smb_lock SMB_LOCK_RELEASE (fid (ent n i)) 1 0 altMaxLen timo w2 = (0, w3) ->
  exists n', advlock_op F_UNLCK l_type timo pid mode i
      (advlock_op F_SETLK l_type timo pid mode i (n, w)).2 = (0, (n', w3)) /\
    f_smbflock n' = None /\
    lockList (ent n' i) = lockList (ent n i) ++ [BRL 0 altMaxLen 1 pid].
Proof.
  intros Hi H3 Hfl Hno E1 He1 E2 E3. unfold advlock_op at 2. rewrite Z.eqb_refl, Hfl, E1.
  apply Z.eqb_neq in He1. rewrite He1, E2. cbn [Z.eqb negb snd].
  unfold advlock_op. change (F_UNLCK =? F_SETLK) with false. rewrite Z.eqb_refl. cbn [f_smbflock with_flock].
  change (i32 (fl_refcnt (Flock l_type 1 1 0 altMaxLen mode) - 1)) with 0. cbn [fl_refcnt fl_len].
  set (n1 := AddRemoveByteRangeLockEntry false (Some i) 0 (i64 altMaxLen) 0 1 (Some pid) n).
  assert (ent n1 i = with_lockList (lockList (ent n i) ++ [BRL 0 altMaxLen 1 pid]) (ent n i)) as Ei
    by (apply ent_set_same; lia).
  rewrite ent_with_flock, Ei. cbn [fid with_lockList]. rewrite E3. cbn [Z.eqb Z.leb Z.compare].
  eexists. split; [done|]. split; [done|]. change (i64 (u64 (-1))) with (-1).
  rewrite ent_with_flock. cbn [AddRemoveByteRangeLockEntry]. rewrite ent_set_same by (cbn; rewrite length_insert; lia).
  rewrite !ent_with_flock, Ei. cbn [lockList with_lockList]. unfold add_remove. cbn [Z.eqb].
  apply remove_range_other. apply list.Forall_app_2.
  - eapply list.Forall_impl; [exact Hno|]. cbn. lia.
  - constructor; [cbn; unfold altMaxLen; lia|constructor].
Qed.

Definition flock_node : smbnode := set_ent 0 (with_lockList [] busy_entry) demo_node.
Definition flock_server : @world (wire_of true) := Server (<[200 := []]> (<[100 := []]> ∅)) 201.

(** The lock that is left refuses the first bytes of the file to other processes. *)
Lemma left_behind_refuses_others :
  (FindFileRef (Some 9) kAccessRead 0 4
     (set_ent 0 (with_lockList [BRL 0 altMaxLen 1 7] busy_entry) demo_node)).1 = inl EACCES.
Proof. vm_compute. reflexivity. Qed.

Lemma flock_short_length_left_behind_witness :
  exists n' w', @advlock_op (wire_of true) F_UNLCK F_WRLCK 0 7 3 0
      (@advlock_op (wire_of true) F_SETLK F_WRLCK 0 7 3 0 (flock_node, flock_server)).2
    = (0, (n', w')) /\ f_smbflock n' = None /\ lockList (ent n' 0) = [BRL 0 altMaxLen 1 7].
Proof.
  destruct (@flock_short_length_left_behind (wire_of true) 0 F_WRLCK 0 7 3 flock_node flock_server
    EINVAL flock_server (Server (<[200 := [(0, altMaxLen)]]> (<[100 := []]> ∅)) 201) flock_server)
    as (n' & E & H1 & H2);
    [apply le_n_S, Nat.le_0_l|reflexivity|reflexivity|constructor|reflexivity|discriminate|
     reflexivity|reflexivity|].
  exists n', flock_server. split; [exact E|]. split; [exact H1|exact H2].
Defined.
