(* ===== verification/Lease.v ===== *)
(** Leases of files and directories.

    The lease part of [kernel/smbfs/smbfs_node.c]: the lease of a vnode, the global
    table from lease keys to vnodes, the update of a lease from a create reply, and
    the lease breaks of the server.

    A vnode is a key of [nodes]; [vnode_getwithvid] succeeds when the vnode is
    there with the same [vid].  The cache operations, closes and acknowledgements
    that a function causes are recorded as events, in order.  The answers of the
    SMB calls, the session's capabilities and what other threads do to the table
    while its lock is given up are arguments. *)
From S2P Require Import Prelude Brl.
Import Errno.

Definition EALREADY := 37.

Definition SMB2_LEASE_NONE := 0x0.
Definition SMB2_NEW_LEASE_KEY := 0x1.
Definition SMB2_LEASE_V2 := 0x10.
Definition SMB2_LEASE_BROKEN := 0x20.
Definition SMB2_DEFERRED_CLOSE := 0x40.
Definition SMBFS_LEASE_ADD := 0x1.
Definition SMBFS_LEASE_REMOVE := 0x2.
Definition SMBFS_LEASE_UPDATE := 0x4.
Definition SMBFS_IN_RECONNECT := 0x8.
Definition N_WRITE_IMMEDIATELY := 0x20000.
Definition ACK_REQUIRED := 0x1.
Definition kNeedRevoke := 0x1.
Definition k_def_close_timeout := 30.

(** ** Data *)

Record smb2_lease := Lease {
  l_flags : Z;
  req_lease_state : Z;
  lease_state : Z;
  lease_key_hi : Z;
  lease_key_low : Z;
  par_lease_key_hi : Z;
  par_lease_key_low : Z;
  epoch : Z;
  handle_reuse_cnt : Z;
  def_close_timer : Z;
  pending_break : Z
}.

Definition set_l_flags (f : Z) (l : smb2_lease) : smb2_lease :=
  Lease f (req_lease_state l) (lease_state l) (lease_key_hi l) (lease_key_low l)
    (par_lease_key_hi l) (par_lease_key_low l) (epoch l) (handle_reuse_cnt l)
    (def_close_timer l) (pending_break l).
Definition set_l_state (s e : Z) (l : smb2_lease) : smb2_lease :=
  Lease (l_flags l) (req_lease_state l) s (lease_key_hi l) (lease_key_low l)
    (par_lease_key_hi l) (par_lease_key_low l) e (handle_reuse_cnt l)
    (def_close_timer l) (pending_break l).
Definition set_l_timers (reuse timer pend : Z) (l : smb2_lease) : smb2_lease :=
  Lease (l_flags l) (req_lease_state l) (lease_state l) (lease_key_hi l) (lease_key_low l)
    (par_lease_key_hi l) (par_lease_key_low l) (epoch l) reuse timer pend.

(** The open FID of one kind: [f_lockFID] or [f_sharedFID]. *)
Record fileRef := FileRef { fr_fid : Z; fr_accessMode : Z; fr_dur : smb2_durable_handle }.

Record lnode := LNode {
  ln_vid : Z;
  ln_isdir : bool;
  n_lease : smb2_lease;
  ln_flag : Z;
  ln_hasBRLs : Z;
  nocache : bool;                 (* vnode_isnocache *)
  attribute_cache_timer : Z;
  lockFID : fileRef;
  sharedFID : fileRef;
  f_openState : Z;
  d_changecnt : Z
}.

Definition upd_lease (f : smb2_lease -> smb2_lease) (n : lnode) : lnode :=
  LNode (ln_vid n) (ln_isdir n) (f (n_lease n)) (ln_flag n) (ln_hasBRLs n) (nocache n)
    (attribute_cache_timer n) (lockFID n) (sharedFID n) (f_openState n) (d_changecnt n).
Definition set_ln_flag (x : Z) (n : lnode) : lnode :=
  LNode (ln_vid n) (ln_isdir n) (n_lease n) x (ln_hasBRLs n) (nocache n)
    (attribute_cache_timer n) (lockFID n) (sharedFID n) (f_openState n) (d_changecnt n).
Definition set_nocache (b : bool) (n : lnode) : lnode :=
  LNode (ln_vid n) (ln_isdir n) (n_lease n) (ln_flag n) (ln_hasBRLs n) b
    (attribute_cache_timer n) (lockFID n) (sharedFID n) (f_openState n) (d_changecnt n).
Definition drop_attrs (n : lnode) : lnode :=
  LNode (ln_vid n) (ln_isdir n) (n_lease n) (ln_flag n) (ln_hasBRLs n) (nocache n)
    0 (lockFID n) (sharedFID n) (f_openState n) (d_changecnt n).
Definition set_fids (lk sh : fileRef) (n : lnode) : lnode :=
  LNode (ln_vid n) (ln_isdir n) (n_lease n) (ln_flag n) (ln_hasBRLs n) (nocache n)
    (attribute_cache_timer n) lk sh (f_openState n) (d_changecnt n).
Definition bump_changecnt (n : lnode) : lnode :=
  LNode (ln_vid n) (ln_isdir n) (n_lease n) (ln_flag n) (ln_hasBRLs n) (nocache n)
    (attribute_cache_timer n) (lockFID n) (sharedFID n) (f_openState n) (u32 (d_changecnt n + 1)).

(** An entry of the global table. *)
Record smb_lease := HashEntry {
  h_key_hi : Z;
  h_key_low : Z;
  h_vnode : positive;
  h_vid : Z
}.

(** What a function does to the caches and on the wire. *)
Inductive event :=
| PushDirty (vp : positive)            (* ubc_msync(UBC_PUSHDIRTY | UBC_SYNC) *)
| Invalidate (vp : positive)           (* ubc_msync(UBC_INVALIDATE) *)
| CachePurge (vp : positive)           (* cache_purge of a directory *)
| CloseFid (fid : Z)
| CloseDir (vp : positive)             (* smbfs_closedirlookup *)
| Ack (hi low state : Z).              (* smb2_smb_lease_break_ack_queue *)

Record lstate := LState {
  g_lease_hash : list (list smb_lease);
  nodes : gmap positive lnode;
  ss_curr_def_close_cnt : Z;
  events : list event
}.

Definition set_hash (h : list (list smb_lease)) (s : lstate) : lstate :=
  LState h (nodes s) (ss_curr_def_close_cnt s) (events s).
Definition upd_node (vp : positive) (f : lnode -> lnode) (s : lstate) : lstate :=
  LState (g_lease_hash s) (alter f vp (nodes s)) (ss_curr_def_close_cnt s) (events s).
Definition emit (e : event) (s : lstate) : lstate :=
  LState (g_lease_hash s) (nodes s) (ss_curr_def_close_cnt s) (events s ++ [e]).
Definition add_def_close (d : Z) (s : lstate) : lstate :=
  LState (g_lease_hash s) (nodes s) (i32 (ss_curr_def_close_cnt s + d)) (events s).

(** ** The global table *)

(** [hashinit] makes a power of two of buckets; the mask is one less. *)
Definition SMBFS_LEASE_HASH (h : list (list smb_lease)) (hval : Z) : nat :=
  Z.to_nat (Z.land hval (Z.of_nat (length h) - 1)).

Definition bucket_of (h : list (list smb_lease)) (hi low : Z) : nat :=
  SMBFS_LEASE_HASH h (Z.lxor hi low).

Definition smbfs_lease_hash_add (vp : positive) (vid hi low : Z) (h : list (list smb_lease))
  : list (list smb_lease) :=
  let b := bucket_of h hi low in
  <[b := HashEntry hi low vp vid :: h !!! b]> h.

Definition same_key (hi low : Z) (e : smb_lease) : bool :=
  negb (negb (h_key_hi e =? hi) || negb (h_key_low e =? low)).

Definition smbfs_lease_hash_get (hi low : Z) (h : list (list smb_lease)) : option smb_lease :=
  List.find (same_key hi low) (h !!! bucket_of h hi low).

(** Removal of the entry that [smbfs_lease_hash_get] returned: the first of its key
    in its bucket. *)
Fixpoint drop_first (hi low : Z) (l : list smb_lease) : list smb_lease :=
  match l with
  | [] => []
  | e :: r => if same_key hi low e then r else e :: drop_first hi low r
  end.

Definition smbfs_lease_hash_remove (in_leasep : option smb_lease) (hi low : Z)
    (h : list (list smb_lease)) : list (list smb_lease) :=
  let leasep := match in_leasep with Some l => Some l | None => smbfs_lease_hash_get hi low h end in
  match leasep with
  | None => h
  | Some l =>
      let b := bucket_of h (h_key_hi l) (h_key_low l) in
      <[b := drop_first (h_key_hi l) (h_key_low l) (h !!! b)]> h
  end.

(** ** Lease epochs *)

Definition smbfs_get_epoch_delta (server_epoch file_epoch : Z) : Z :=
  if server_epoch =? file_epoch then 0
  else if file_epoch <? server_epoch then i16 (server_epoch - file_epoch)
  else if 32767 <? file_epoch - server_epoch then i16 (file_epoch - server_epoch)
  else -1.

(** ** Updating a lease from a create reply *)

Definition R := 0x1.
Definition RH := 0x3.
Definition RW := 0x5.
Definition RWH := 0x7.

(** What the two nested switches decide: an error, whether the lease is replaced and
    whether the cache is purged. *)
Record verdict := Verdict { v_error : Z; v_upgrade : bool; v_purge : bool }.
Definition ignore_it := Verdict 0 false false.
Definition bad_state := Verdict EINVAL false false.

Definition lease_verdict (cur new delta_epoch : Z) : verdict :=
  let newer := Verdict 0 true (negb (delta_epoch =? 1)) in
  if cur =? SMB2_LEASE_NONE then
    if (new =? R) || (new =? RW) || (new =? RH) || (new =? RWH) then Verdict 0 true false
    else if new =? SMB2_LEASE_NONE then ignore_it else bad_state
  else if cur =? R then
    if new =? R then Verdict 0 false true
    else if (new =? RW) || (new =? RH) || (new =? RWH) then newer
    else if new =? SMB2_LEASE_NONE then Verdict 0 false true else bad_state
  else if cur =? RW then
    if (new =? R) || (new =? RH) then bad_state
    else if new =? RWH then Verdict 0 true false
    else if new =? RW then Verdict 0 true false
    else if new =? SMB2_LEASE_NONE then Verdict 0 false true else bad_state
  else if cur =? RH then
    if (new =? R) || (new =? RW) then bad_state
    else if new =? RH then Verdict 0 false true
    else if new =? RWH then newer
    else if new =? SMB2_LEASE_NONE then Verdict 0 false true else bad_state
  else if cur =? RWH then
    if (new =? R) || (new =? RW) || (new =? RH) then bad_state
    else if new =? RWH then ignore_it
    else if new =? SMB2_LEASE_NONE then Verdict 0 false true else bad_state
  else bad_state.

(** The vnode's lease takes over the state, epoch, request, flags and key. *)
Definition replace_lease (inl l : smb2_lease) : smb2_lease :=
  Lease (l_flags inl) (req_lease_state inl) (lease_state inl) (lease_key_hi inl) (lease_key_low inl)
    (par_lease_key_hi l) (par_lease_key_low l) (epoch inl) (handle_reuse_cnt l)
    0 (pending_break l).

(** [MS-SMB2] 3.2.1.5: with write caching writes may stay in the cache, with read
    caching alone they are sent at once. *)
Definition set_write_through (n : lnode) : lnode :=
  let st := lease_state (n_lease n) in
  if has st (Z.lor SMB2_LEASE_READ_CACHING SMB2_LEASE_WRITE_CACHING) then
    if has st SMB2_LEASE_WRITE_CACHING
    then set_ln_flag (clear_bits (ln_flag n) N_WRITE_IMMEDIATELY) n
    else set_ln_flag (Z.lor (ln_flag n) N_WRITE_IMMEDIATELY) n
  else n.

Definition allows_caching (l : smb2_lease) : bool :=
  has (lease_state l) (Z.lor SMB2_LEASE_READ_CACHING SMB2_LEASE_WRITE_CACHING).

(** The caching of a file after an update. *)
Definition update_ubc (vp : positive) (n : lnode) (purge in_reconnect : bool) (s : lstate) : lstate :=
  let allow := allows_caching (n_lease n) in
  if ln_isdir n then s
  else if nocache n then
    if allow && (ln_hasBRLs n =? 0) then upd_node vp (set_nocache false) s else s
  else
    let s1 :=
      if purge then
        if in_reconnect
        then upd_node vp (fun n => set_ln_flag (Z.lor (ln_flag n) NNEEDS_UBC_INVALIDATE) n) s
        else emit (Invalidate vp)
               (upd_node vp (fun n => set_ln_flag (clear_bits (ln_flag n) NNEEDS_UBC_INVALIDATE) n) s)
      else s in
    if allow then s1 else upd_node vp (set_nocache true) s1.

(** The second half of [smbfs_add_update_lease]: the vnode's lease is updated. *)
Definition update_lease (vp : positive) (inl : smb2_lease) (flags : Z) (s : lstate) : Z * lstate :=
  match nodes s !! vp with
  | None => (0, s)
  | Some n =>
      let delta := if has (l_flags inl) SMB2_LEASE_V2
                   then smbfs_get_epoch_delta (epoch inl) (epoch (n_lease n)) else 1 in
      let v := if 0 <? delta then lease_verdict (lease_state (n_lease n)) (lease_state inl) delta
               else ignore_it in
      let n1 := if v_upgrade v then upd_lease (replace_lease inl) n else n in
      let n2 := set_write_through n1 in
      (v_error v,
       update_ubc vp n2 (v_purge v) (has flags SMBFS_IN_RECONNECT)
         (upd_node vp (fun _ => n2) s))
  end.

(** [in_leasep]: NULL, the vnode's own lease, or a lease of the caller. *)
Inductive lease_arg := InNull | InNode | InTemp (l : smb2_lease).

(** [in_leasep] is reset when its table entry is removed. *)
Definition reset_lease (l : smb2_lease) : smb2_lease := set_l_state 0 0 (set_l_flags 0 l).

(** [leasing]: [share] is NULL or its session has the leasing capability.  The
    result holds the caller's lease as the function leaves it.  Callers hold the
    vnode, so that it is one of [nodes]. *)
Definition smbfs_add_update_lease (leasing : bool) (vp : positive) (arg : lease_arg) (flags : Z)
    (s : lstate) : Z * lease_arg * lstate :=
  match arg, nodes s !! vp with
  | InNull, _ => (EINVAL, arg, s)
  | _, None => (EINVAL, arg, s)
  | _, Some n =>
      let inl := match arg with InTemp l => l | _ => n_lease n end in
      if negb leasing then (0, arg, s)
      else
        let check := Z.land flags (Z.lor SMBFS_LEASE_ADD (Z.lor SMBFS_LEASE_REMOVE SMBFS_LEASE_UPDATE)) in
        if negb (check =? SMBFS_LEASE_ADD) && negb (check =? SMBFS_LEASE_REMOVE)
           && negb (check =? SMBFS_LEASE_UPDATE) then (EINVAL, arg, s)
        else
          match smbfs_lease_hash_get (lease_key_hi inl) (lease_key_low inl) (g_lease_hash s) with
          | Some leasep =>
              if has flags SMBFS_LEASE_ADD then (EALREADY, arg, s)
              else if has flags SMBFS_LEASE_REMOVE then
                let s1 := set_hash (smbfs_lease_hash_remove (Some leasep) 0 0 (g_lease_hash s)) s in
                match arg with
                | InTemp l => (0, InTemp (reset_lease l), s1)
                | _ => (0, arg, upd_node vp (upd_lease reset_lease) s1)
                end
              else if has (l_flags inl) SMB2_LEASE_GRANTED then
                match arg with
                | InTemp l => let '(e, s1) := update_lease vp l flags s in (e, arg, s1)
                | _ => (EINVAL, arg, s)
                end
              else (0, arg, s)
          | None =>
              if has flags SMBFS_LEASE_ADD then
                (0, arg, set_hash (smbfs_lease_hash_add vp (ln_vid n) (lease_key_hi inl)
                                     (lease_key_low inl) (g_lease_hash s)) s)
              else (ENOENT, arg, s)
          end
  end.

(** ** Lease breaks *)

Record lease_rq := LeaseRq {
  server_epoch : Z;
  rq_flags : Z;
  rq_key_hi : Z;
  rq_key_low : Z;
  curr_lease_state : Z;
  new_lease_state : Z;
  need_close_dir : bool
}.

(** The start of both handlers: the vnode of the key.  The lock of the table is
    given up while the vnode is taken, and [interfere] is what happens to the table
    meanwhile. *)
Definition find_lease_vnode (interfere : list (list smb_lease) -> list (list smb_lease))
    (rq : lease_rq) (s : lstate) : (Z + positive) * lstate :=
  match smbfs_lease_hash_get (rq_key_hi rq) (rq_key_low rq) (g_lease_hash s) with
  | None => (inl ENOENT, s)
  | Some l =>
      let s1 := set_hash (interfere (g_lease_hash s)) s in
      match nodes s !! h_vnode l with
      | None => (inl ENOENT, s1)
      | Some n =>
          if negb (ln_vid n =? h_vid l) then (inl ENOENT, s1)
          else match smbfs_lease_hash_get (rq_key_hi rq) (rq_key_low rq) (g_lease_hash s1) with
            | None => (inl ENOENT, s1)
            | Some l2 => if bool_decide (h_vnode l2 = h_vnode l) then (inr (h_vnode l), s1)
                         else (inl ENOENT, s1)
            end
      end
  end.

Definition smbfs_handle_dir_lease_break (interfere : list (list smb_lease) -> list (list smb_lease))
    (rq : lease_rq) (s : lstate) : Z * lease_rq * lstate :=
  match find_lease_vnode interfere rq s with
  | (inl e, s1) => (e, rq, s1)
  | (inr vp, s1) =>
      match nodes s1 !! vp with
      | None => (0, rq, s1)
      | Some n =>
          if ln_isdir n && (lease_key_hi (n_lease n) =? rq_key_hi rq)
             && (lease_key_low (n_lease n) =? rq_key_low rq) then
            let brk (l : smb2_lease) :=
              set_l_state (new_lease_state rq) (server_epoch rq)
                (set_l_flags (clear_bits (Z.lor (l_flags l) SMB2_LEASE_BROKEN) SMB2_LEASE_GRANTED) l) in
            (0, LeaseRq (server_epoch rq) (rq_flags rq) (rq_key_hi rq) (rq_key_low rq)
                  (curr_lease_state rq) (new_lease_state rq) true,
             emit (CachePurge vp) (upd_node vp (fun n => upd_lease brk (bump_changecnt n)) s1))
          else (0, rq, s1)
      end
  end.

(** The decisions of a file lease break, taken under the lease lock. *)
Record plan := Plan {
  flush_cache : bool;
  purge_cache : bool;
  need_close_files : bool
}.

Definition lost (bit : Z) (l : smb2_lease) (rq : lease_rq) : bool :=
  has (lease_state l) bit && negb (has (new_lease_state rq) bit).

Definition break_plan (smb3 : bool) (rq : lease_rq) (l : smb2_lease) : plan :=
  let closing := lost SMB2_LEASE_HANDLE_CACHING l rq && has (l_flags l) SMB2_DEFERRED_CLOSE in
  let missed :=
    smb3 && (1 <? smbfs_get_epoch_delta (server_epoch rq) (epoch l))
    && (lease_state l =? new_lease_state rq) in
  Plan (lost SMB2_LEASE_WRITE_CACHING l rq
        || (missed && negb (lease_state l =? curr_lease_state rq)))
       (lost SMB2_LEASE_READ_CACHING l rq || missed)
       closing.

(** The lease after the break. *)
Definition broken_lease (smb3 : bool) (rq : lease_rq) (l : smb2_lease) : smb2_lease :=
  let l1 := if need_close_files (break_plan smb3 rq l)
            then set_l_timers (handle_reuse_cnt l) 0 1
                   (set_l_flags (clear_bits (l_flags l) (Z.lor SMB2_LEASE_GRANTED SMB2_DEFERRED_CLOSE)) l)
            else l in
  let l2 := if smb3 then
              if 0 <? smbfs_get_epoch_delta (server_epoch rq) (epoch l)
              then set_l_state (new_lease_state rq) (server_epoch rq) l1 else l1
            else set_l_state (new_lease_state rq) (epoch l1) l1 in
  if lease_state l2 =? SMB2_LEASE_NONE
  then set_l_flags (clear_bits (Z.lor (l_flags l2) SMB2_LEASE_BROKEN) SMB2_LEASE_GRANTED) l2
  else l2.

(** The caches of a file after a break; [allow] was computed before the lease was
    removed. *)
Definition break_ubc (vp : positive) (allow : bool) (p : plan) (s : lstate) : lstate :=
  match nodes s !! vp with
  | None => s
  | Some n =>
      if nocache n then
        if allow && (ln_hasBRLs n =? 0) then upd_node vp (set_nocache false) s else s
      else
        let s1 := if flush_cache p then
            emit (PushDirty vp) (upd_node vp (fun n =>
              drop_attrs (set_ln_flag (clear_bits (ln_flag n) NNEEDS_UBC_PUSHDIRTY) n)) s)
          else s in
        let s2 := if purge_cache p then
            emit (Invalidate vp) (upd_node vp (fun n =>
              drop_attrs (set_ln_flag (clear_bits (ln_flag n) NNEEDS_UBC_INVALIDATE) n)) s1)
          else s1 in
        if negb allow && negb (need_close_files p) then upd_node vp (set_nocache true) s2 else s2
  end.

Definition closed_ref : fileRef := FileRef 0 0 dur_zero.

(** Close of the FID whose close was deferred: the errno and whether a close was
    sent and succeeded, which acknowledges the break. *)
Definition close_deferred (vp : positive) (close_error : Z) (s : lstate) : Z * bool * lstate :=
  match nodes s !! vp with
  | None => (EBADF, false, s)
  | Some n =>
      if negb (fr_fid (lockFID n) =? 0) then
        (close_error, close_error =? 0,
         emit (CloseFid (fr_fid (lockFID n))) (upd_node vp (set_fids closed_ref (sharedFID n)) s))
      else if negb (fr_fid (sharedFID n) =? 0) then
        (close_error, close_error =? 0,
         emit (CloseFid (fr_fid (sharedFID n))) (upd_node vp (set_fids (lockFID n) closed_ref) s))
      else (EBADF, false, s)
  end.

Definition clear_pending_break (vp : positive) (s : lstate) : lstate :=
  upd_node vp (upd_lease (fun l => set_l_timers (handle_reuse_cnt l) (def_close_timer l) 0 l)) s.

Record answers := Answers {
  have_share : bool;          (* smb_get_share_with_reference *)
  have_session : bool;
  session_smb3 : bool;        (* SMBV_SMB3_OR_LATER *)
  session_leasing : bool;     (* SMB2_GLOBAL_CAP_LEASING *)
  close_answer : Z;           (* smbfs_smb_close_attr *)
  trylock_answer : Z;         (* smbnode_trylock *)
  ack_answer : Z              (* smb2_smb_lease_break_ack_queue *)
}.

(** The file part: error, whether the break is acknowledged by a close, state. *)
Definition break_file (a : answers) (rq : lease_rq) (vp : positive) (n : lnode) (s : lstate)
  : Z * bool * lstate :=
  let p := break_plan (session_smb3 a) rq (n_lease n) in
  let s1 := if need_close_files p then add_def_close (-1) s else s in
  let n1 := set_write_through (upd_lease (broken_lease (session_smb3 a) rq) n) in
  let s2 := upd_node vp (fun _ => n1) s1 in
  let s3 := if (lease_state (n_lease n1) =? SMB2_LEASE_NONE) || need_close_files p
            then (smbfs_add_update_lease (session_leasing a) vp InNode SMBFS_LEASE_REMOVE s2).2
            else s2 in
  let s4 := break_ubc vp (allows_caching (n_lease n1)) p s3 in
  if need_close_files p then close_deferred vp (close_answer a) s4 else (0, false, s4).

(** The directory part of the lease thread. *)
Definition break_dir (a : answers) (rq : lease_rq) (vp : positive) (s : lstate) : bool * lstate :=
  if need_close_dir rq && (trylock_answer a =? 0) then
    (true, emit (CloseDir vp)
             (smbfs_add_update_lease (session_leasing a) vp InNode SMBFS_LEASE_REMOVE s).2)
  else (false, s).

Definition smbfs_handle_lease_break (a : answers)
    (interfere : list (list smb_lease) -> list (list smb_lease)) (rq : lease_rq) (s : lstate)
  : Z * lstate :=
  match find_lease_vnode interfere rq s with
  | (inl e, s1) => (e, s1)
  | (inr vp, s1) =>
      if negb (have_share a) || negb (have_session a) then (ENOENT, s1)
      else match nodes s1 !! vp with
      | None => (ENOENT, s1)
      | Some n =>
          let pending := negb (ln_isdir n)
                         && need_close_files (break_plan (session_smb3 a) rq (n_lease n)) in
          let '(e, skip1, s2) := if ln_isdir n then (0, false, s1) else break_file a rq vp n s1 in
          let '(skip2, s3) := break_dir a rq vp s2 in
          let '(e1, s4) :=
            if negb (skip1 || skip2) && has (rq_flags rq) ACK_REQUIRED
            then (ack_answer a, emit (Ack (rq_key_hi rq) (rq_key_low rq) (new_lease_state rq)) s3)
            else (e, s3) in
          (e1, if pending then clear_pending_break vp s4 else s4)
      end
  end.

(** ** Deferred closes *)

(** [now] is the uptime in seconds, read only when [check_time] is set. *)
Definition CloseDeferredFileRefs (have_share leasing : bool) (check_time : bool) (now close_error : Z)
    (vp : positive) (s : lstate) : lstate :=
  match nodes s !! vp with
  | None => s
  | Some n =>
      let l := n_lease n in
      if negb have_share || ln_isdir n || negb leasing then s
      else
        let revoked := has (f_openState n) kNeedRevoke in
        let deferred := has (l_flags l) SMB2_DEFERRED_CLOSE in
        let expired :=
          has (l_flags l) SMB2_LEASE_GRANTED && has (lease_state l) SMB2_LEASE_HANDLE_CACHING
          && deferred && (negb check_time || (k_def_close_timeout <? now - def_close_timer l)) in
        if expired || (deferred && revoked) then
          let s1 := add_def_close (-1) (upd_node vp (upd_lease (fun l =>
            set_l_timers 0 0 (pending_break l)
              (set_l_flags (clear_bits (Z.lor (l_flags l) SMB2_LEASE_BROKEN)
                              (Z.lor SMB2_LEASE_GRANTED SMB2_DEFERRED_CLOSE)) l))) s) in
          let s2 := if revoked then s1 else (close_deferred vp close_error s1).2 in
          match nodes s2 !! vp with
          | Some n2 => if negb (l_flags (n_lease n2) =? 0)
                       then (smbfs_add_update_lease leasing vp InNode SMBFS_LEASE_REMOVE s2).2
                       else s2
          | None => s2
          end
        else s
  end.

(** ** A new lease *)

(** A 64-bit load from a buffer; outside of it undefined. *)
Definition load64 (bs : list Z) (off : nat) : option Z :=
  if (off + 8 <=? length bs)%nat then Some (le_value (take 8 (drop off bs))) else None.

(** What [smb2_lease_init] reads of a node: its lease key and its epoch. *)
Record key_source := KeySource { k_hi : Z; k_low : Z; k_epoch : Z; k_is_stream : bool }.

(** [supported]: SMB 2.1 or later with leasing.  [parent] is the parent directory
    that the lookups find: of the file of a stream, else of the node.  [uuid] is
    what [uuid_generate] wrote; [None] is an access outside of it. *)
Definition smb2_lease_init (supported : bool) (dnp np parent : option key_source) (flags : Z)
    (uuid : list Z) (pend : Z) : option (Z * smb2_lease) :=
  let l0 := Lease 0 0 0 0 0 0 0 0 0 0 pend in
  match np, dnp with
  | None, None => Some (EINVAL, l0)
  | _, _ =>
      if negb supported then Some (0, l0)
      else
        let key_of (o : option key_source) :=
          match o with Some k => (k_hi k, k_low k) | None => (0, 0) end in
        let par := match np with
                   | Some k => if k_is_stream k then key_of parent
                               else match dnp with Some d => key_of (Some d) | None => key_of parent end
                   | None => key_of dnp
                   end in
        let ep := match np with Some k => k_epoch k | None => 0 end in
        let mk hi low := Lease 0 0 0 hi low par.1 par.2 ep 0 0 pend in
        if has flags SMB2_NEW_LEASE_KEY then
          hi ← load64 uuid 15;
          low ← load64 uuid 7;
          Some (0, mk hi low)
        else match np with
          | Some k => Some (0, mk (k_hi k) (k_low k))
          | None => Some (EINVAL, mk 0 0)
          end
  end.

(** [supported] as above with the request flag; [persistent]: the server and the
    share support persistent handles. *)
Definition SMB2_DURABLE_HANDLE_REQUEST := 0x1.
Definition SMB2_PERSISTENT_HANDLE_REQUEST := 0x8.

Definition smb2_dur_handle_init (args_ok supported persistent : bool) (flags : Z) (guid : list Z)
    (d : smb2_durable_handle) : Z * smb2_durable_handle :=
  if negb args_ok then (EINVAL, d)
  else if supported && has flags SMB2_DURABLE_HANDLE_REQUEST then
    (ENOTSUP, Dur (if persistent then Z.lor SMB2_DURABLE_HANDLE_REQUEST SMB2_PERSISTENT_HANDLE_REQUEST
                   else SMB2_DURABLE_HANDLE_REQUEST) 0 0 guid)
  else (ENOTSUP, dur_zero).
