(* ===== verification/LeaseTheorems.v ===== *)
(** * Leases: the table of lease keys, the epochs, and the updates of a lease *)
From S2P Require Import Prelude Brl Lease.
Import Errno.

(** ** The table of leases is a map *)

Section Table.
Implicit Types h : list (list smb_lease).

(** The buckets are a power of two, an entry is in the bucket of its key, and no
    bucket has two entries of a key. *)
Record table_ok h : Prop := {
  ok_size : exists k, 0 <= k /\ Z.of_nat (length h) = 2 ^ k;
  ok_bucket b e : (b < length h)%nat -> e ∈ h !!! b -> b = bucket_of h (h_key_hi e) (h_key_low e);
  ok_nodup b : (b < length h)%nat -> NoDup ((fun e => (h_key_hi e, h_key_low e)) <$> h !!! b)
}.

Lemma same_key_iff hi low e : same_key hi low e = true <-> (h_key_hi e, h_key_low e) = (hi, low).
Proof.
  unfold same_key. rewrite negb_true_iff, orb_false_iff, !negb_false_iff, !Z.eqb_eq.
  split; [intros [-> ->]; done|by intros [= -> ->]].
Qed.

Lemma bucket_lt h hi low : table_ok h -> (bucket_of h hi low < length h)%nat.
Proof.
  intros [(k & Hk & E) _ _]. unfold bucket_of, SMBFS_LEASE_HASH. rewrite E.
  change (2 ^ k - 1) with (Z.pred (2 ^ k)). rewrite <- Z.ones_equiv, Z.land_ones by done.
  pose proof (Z.mod_pos_bound (Z.lxor hi low) (2 ^ k)). lia.
Qed.

Lemma bucket_insert h b l hi low : bucket_of (<[b := l]> h) hi low = bucket_of h hi low.
Proof. unfold bucket_of, SMBFS_LEASE_HASH. by rewrite length_insert. Qed.

Lemma find_key_spec hi low l e :
  NoDup ((fun e => (h_key_hi e, h_key_low e)) <$> l) ->
  List.find (same_key hi low) l = Some e <-> e ∈ l /\ (h_key_hi e, h_key_low e) = (hi, low).
Proof.
  intros Hnd. split.
  - intros Hf. apply find_some in Hf as [Hin Hk]. apply list_elem_of_In in Hin.
    by apply same_key_iff in Hk.
  - intros [Hin Hk]. destruct (List.find (same_key hi low) l) as [d|] eqn:Ed.
    + apply find_some in Ed as [Hd Hkd]. apply list_elem_of_In in Hd. apply same_key_iff in Hkd.
      f_equal. apply list_elem_of_lookup in Hin as [i Hi], Hd as [j Hj].
      assert (i = j) as ->; [|congruence].
      eapply list.NoDup_lookup; [exact Hnd|by rewrite list_lookup_fmap, Hi|].
      rewrite list_lookup_fmap, Hj. cbn. congruence.
    + apply list_elem_of_In in Hin. pose proof (find_none _ _ Ed e Hin) as Hn.
      apply same_key_iff in Hk. congruence.
Qed.

(** The entry of a key is the one in the table. *)
Lemma hash_get_spec h hi low e : table_ok h ->
  smbfs_lease_hash_get hi low h = Some e <->
  (h_key_hi e, h_key_low e) = (hi, low) /\ exists b, (b < length h)%nat /\ e ∈ h !!! b.
Proof.
  intros Hok. unfold smbfs_lease_hash_get. pose proof (bucket_lt h hi low Hok) as Hb.
  rewrite find_key_spec by by apply ok_nodup. split.
  - intros [Hin Hk]. split; [done|]. by exists (bucket_of h hi low).
  - intros [Hk (b & Hlt & Hin)]. split; [|done].
    rewrite (ok_bucket h Hok b e Hlt Hin) in Hin. injection Hk as E1 E2. by rewrite E1, E2 in Hin.
Qed.

Lemma drop_first_notin hi low l :
  Forall (fun e => (h_key_hi e, h_key_low e) <> (hi, low)) l -> drop_first hi low l = l.
Proof.
  induction 1 as [|e r He _ IH]; [done|]. cbn.
  destruct (same_key hi low e) eqn:Ek; [by apply same_key_iff in Ek|]. by rewrite IH.
Qed.

Lemma drop_first_elem hi low l e :
  NoDup ((fun e => (h_key_hi e, h_key_low e)) <$> l) ->
  e ∈ drop_first hi low l <-> e ∈ l /\ (h_key_hi e, h_key_low e) <> (hi, low).
Proof.
  induction l as [|d r IH]; intros Hnd; cbn; [by split; [intros ?%elem_of_nil|intros [?%elem_of_nil _]]|].
  rewrite fmap_cons in Hnd. apply list.NoDup_cons in Hnd as [Hd Hnd].
  destruct (same_key hi low d) eqn:Ek.
  - apply same_key_iff in Ek. rewrite elem_of_cons. split.
    + intros He. split; [by right|]. intros E. apply Hd. rewrite Ek, <- E.
      apply list_elem_of_fmap. by exists e.
    + intros [[->|He] Hne]; [done|done].
  - assert ((h_key_hi d, h_key_low d) <> (hi, low)) as Hne
      by (intros E; apply same_key_iff in E; congruence).
    rewrite !elem_of_cons, IH by done. split; [intros [->|[]]; auto|intros [[->|]]; auto].
Qed.

Lemma drop_first_sublist hi low l : sublist (drop_first hi low l) l.
Proof. induction l as [|e r IH]; cbn; [constructor|]. destruct (same_key hi low e); by constructor. Qed.

(** [refines h m]: the table holds the map [m] from keys to entries. *)
Definition refines h (m : gmap (Z * Z) smb_lease) : Prop :=
  table_ok h /\ forall hi low, smbfs_lease_hash_get hi low h = m !! (hi, low).

Lemma insert_bucket_elem h b l c e : (b < length h)%nat ->
  e ∈ <[b := l]> h !!! c <-> (c = b /\ e ∈ l) \/ (c <> b /\ e ∈ h !!! c).
Proof.
  intros Hb. destruct (decide (b = c)) as [<-|Hbc].
  - rewrite list_lookup_total_insert_eq by done. intuition.
  - rewrite list_lookup_total_insert_ne by done. intuition congruence.
Qed.

Lemma add_ok h vp vid hi low : table_ok h -> smbfs_lease_hash_get hi low h = None ->
  table_ok (smbfs_lease_hash_add vp vid hi low h).
Proof.
  intros Hok Hnone. pose proof (bucket_lt h hi low Hok) as Hb. unfold smbfs_lease_hash_add. split.
  - rewrite length_insert. apply Hok.
  - intros b e. rewrite length_insert, bucket_insert. intros Hlt.
    rewrite insert_bucket_elem by done. rewrite elem_of_cons.
    intros [[-> [->|He]]|[_ He]]; [done| |]; by apply (ok_bucket h Hok).
  - intros b. rewrite length_insert. intros Hlt.
    destruct (decide (bucket_of h hi low = b)) as [<-|Hne].
    + rewrite list_lookup_total_insert_eq by done. rewrite fmap_cons. apply list.NoDup_cons.
      split; [|by apply ok_nodup]. intros Hin. apply list_elem_of_fmap in Hin as (d & Ed & Hd).
      assert (smbfs_lease_hash_get hi low h = Some d) as E; [|congruence].
      apply hash_get_spec; [done|]. split; [done|]. by exists (bucket_of h hi low).
    + rewrite list_lookup_total_insert_ne by done. by apply ok_nodup.
Qed.

Lemma remove_ok h hi low :
  table_ok h -> let b := bucket_of h hi low in table_ok (<[b := drop_first hi low (h !!! b)]> h).
Proof.
  intros Hok b. pose proof (bucket_lt h hi low Hok) as Hb. split.
  - rewrite length_insert. apply Hok.
  - intros c e. rewrite length_insert, bucket_insert. intros Hlt. rewrite insert_bucket_elem by done.
    intros [[-> He]|[_ He]]; apply (ok_bucket h Hok); try done.
    eapply elem_of_sublist, drop_first_sublist. exact He.
  - intros c. rewrite length_insert. intros Hlt. destruct (decide (b = c)) as [<-|Hne].
    + rewrite list_lookup_total_insert_eq by done.
      eapply sublist_NoDup; [by apply (ok_nodup h Hok b)|]. apply fmap_sublist, drop_first_sublist.
    + rewrite list_lookup_total_insert_ne by done. by apply ok_nodup.
Qed.

(** Two results of lookups agree if they agree on what they find. *)
Lemma option_ext {A} (o p : option A) : (forall a, o = Some a <-> p = Some a) -> o = p.
Proof.
  intros Hop. destruct o as [a|]; [symmetry; by apply Hop|]. destruct p as [a|]; [|done].
  by apply Hop.
Qed.

Lemma refines_add h m vp vid hi low :
  refines h m -> m !! (hi, low) = None ->
  refines (smbfs_lease_hash_add vp vid hi low h) (<[(hi, low) := HashEntry hi low vp vid]> m).
Proof.
  intros [Hok Hm] Hnone.
  assert (table_ok (smbfs_lease_hash_add vp vid hi low h)) as Hok'
    by (apply add_ok; [done|by rewrite Hm]).
  split; [done|]. intros hi' low'. apply option_ext. intros e.
  rewrite hash_get_spec by done. unfold smbfs_lease_hash_add. rewrite length_insert.
  pose proof (bucket_lt h hi low Hok) as Hb.
  setoid_rewrite insert_bucket_elem; [|done].
  destruct (decide ((hi, low) = (hi', low'))) as [[= <- <-]|Hne].
  - rewrite lookup_insert_eq. split.
    + intros [Hk (b & Hlt & [[-> He]|[_ He]])].
      * apply elem_of_cons in He as [->|He]; [done|]. exfalso.
        assert (smbfs_lease_hash_get hi low h = Some e) as E by (apply hash_get_spec; eauto).
        rewrite Hm in E. congruence.
      * exfalso. assert (smbfs_lease_hash_get hi low h = Some e) as E by (apply hash_get_spec; eauto).
        rewrite Hm in E. congruence.
    + intros [= <-]. split; [done|]. exists (bucket_of h hi low).
      split; [done|]. left. split; [done|]. apply list_elem_of_here.
  - rewrite lookup_insert_ne by done. rewrite <- Hm, hash_get_spec by done.
    split; intros [Hk (b & Hlt & He)]; (split; [done|]); exists b; (split; [done|]).
    + destruct He as [[-> He]|[_ He]]; [|done]. apply elem_of_cons in He as [->|He]; [|done].
      cbn in Hk. congruence.
    + destruct (decide (b = bucket_of h hi low)) as [->|]; [left|by right].
      split; [done|]. by apply list_elem_of_further.
Qed.

Lemma refines_drop h m hi low :
  refines h m -> let b := bucket_of h hi low in
  refines (<[b := drop_first hi low (h !!! b)]> h) (delete (hi, low) m).
Proof.
  intros [Hok Hm] b. pose proof (remove_ok h hi low Hok) as Hok'. split; [done|].
  intros hi' low'. apply option_ext. intros e.
  pose proof (bucket_lt h hi low Hok) as Hb. fold b in Hb.
  rewrite hash_get_spec by done. rewrite length_insert.
  setoid_rewrite insert_bucket_elem; [|done].
  rewrite lookup_delete_Some, <- Hm, hash_get_spec by done.
  split.
  - intros [Hk (c & Hlt & [[-> He]|[Hc He]])].
    + apply drop_first_elem in He as [He Hne]; [|by apply ok_nodup].
      split; [congruence|]. eauto.
    + split; [|eauto]. intros E. apply Hc. rewrite (ok_bucket h Hok c e Hlt He).
      injection Hk as E1 E2. injection E as E3 E4.
      unfold b. congruence.
  - intros [Hne [Hk (c & Hlt & He)]]. split; [done|]. exists c. split; [done|].
    destruct (decide (c = b)) as [->|]; [left|by right]. split; [done|].
    apply drop_first_elem; [by apply ok_nodup|]. split; [done|]. congruence.
Qed.
End Table.

(** * Leases: the theorems. *)

(** ** The table *)

(** The hash table of leases implements a map from lease keys to vnodes: a lookup
    is a lookup in the map, adding a key that is not there and removing a key, by
    entry or by key, are the operations of the map. *)
Theorem lease_table_refines h m hi low :
  refines h m ->
  smbfs_lease_hash_get hi low h = m !! (hi, low) /\
  (forall vp vid, m !! (hi, low) = None ->
     refines (smbfs_lease_hash_add vp vid hi low h) (<[(hi, low) := HashEntry hi low vp vid]> m)) /\
  (forall l, m !! (hi, low) = Some l ->
     refines (smbfs_lease_hash_remove (Some l) 0 0 h) (delete (hi, low) m)) /\
  refines (smbfs_lease_hash_remove None hi low h) (delete (hi, low) m).
Proof.
  intros Href. pose proof Href as [Hok Hm].
  assert (forall l, m !! (hi, low) = Some l ->
     refines (smbfs_lease_hash_remove (Some l) 0 0 h) (delete (hi, low) m)) as Hdel.
  { intros l Hl. rewrite <- Hm in Hl. apply hash_get_spec in Hl as [[= E1 E2] _]; [|done].
    unfold smbfs_lease_hash_remove. rewrite E1, E2. by apply refines_drop. }
  split_and!; [done| |done|].
  - intros vp vid. by apply refines_add.
  - unfold smbfs_lease_hash_remove at 1. destruct (smbfs_lease_hash_get hi low h) as [l|] eqn:El.
    + rewrite Hm in El. exact (Hdel l El).
    + rewrite Hm in El. by rewrite delete_id.
Qed.

Lemma empty_refines k : refines (replicate (2 ^ k) []) ∅.
Proof.
  assert (forall b, (replicate (2 ^ k) [] : list (list smb_lease)) !!! b = []) as E.
  { intros b. destruct (decide (b < 2 ^ k)%nat).
    - by apply lookup_total_replicate_2.
    - rewrite list_lookup_total_alt, lookup_ge_None_2; [done|]. rewrite length_replicate. lia. }
  split; [split|].
  - exists (Z.of_nat k). rewrite length_replicate, Nat2Z.inj_pow. lia.
  - intros b e _. rewrite E. by intros ?%elem_of_nil.
  - intros b _. rewrite E. constructor.
  - intros hi low. unfold smbfs_lease_hash_get. by rewrite E.
Qed.

Lemma lease_table_refines_witness :
  refines (smbfs_lease_hash_add 5 1 77 10 (replicate 4 [])) (<[(77, 10) := HashEntry 77 10 5 1]> ∅).
Proof.
  apply (lease_table_refines (replicate 4 []) ∅ 77 10 (empty_refines 2)). reflexivity.
Defined.

(** ** Epochs *)

(** The server counts changes of a lease modulo 2^16: it is ahead of the client by
    [ahead], and newer when that is less than half of the range. *)
Definition ahead (server file : Z) : Z := u16 (server - file).
Definition newer (server file : Z) : Prop := 0 < ahead server file < 2 ^ 15.
Definition is_u16 (x : Z) : Prop := 0 <= x < 2 ^ 16.

Lemma i16_pos x : 0 < x < 2 ^ 15 -> i16 x = x.
Proof. intros Hx. apply swrap_small; lia. Qed.

Lemma i16_neg x : 2 ^ 15 <= x < 2 ^ 16 -> i16 x = x - 2 ^ 16.
Proof.
  intros Hx. unfold i16, swrap. change (16 - 1) with 15.
  rewrite <- (Z.mod_unique (x + 2 ^ 15) (2 ^ 16) 1 (x - 2 ^ 15)); lia.
Qed.

(** As long as the server's counter has not wrapped around since the client's
    value, the delta is positive exactly when the server is newer, and then it is
    the number of changes that the client has not seen. *)
Theorem epoch_delta_serial s f :
  is_u16 s -> is_u16 f -> f <= s \/ f - s < 2 ^ 15 ->
  (0 < smbfs_get_epoch_delta s f <-> newer s f) /\
  (newer s f -> smbfs_get_epoch_delta s f = ahead s f).
Proof.
  intros Hs Hf Hw. unfold smbfs_get_epoch_delta, newer, ahead, u16, is_u16 in *.
  destruct (Z.eqb_spec s f) as [->|Hne].
  { rewrite Z.sub_diag, Zmod_0_l. lia. }
  destruct (Z.ltb_spec f s) as [Hlt|Hge].
  - rewrite Z.mod_small by lia. destruct (decide (s - f < 2 ^ 15)).
    + rewrite i16_pos by lia. lia.
    + rewrite i16_neg by lia. lia.
  - destruct (Z.ltb_spec 32767 (f - s)) as [Hw'|_]; [lia|].
    rewrite <- (Z.mod_unique (s - f) (2 ^ 16) (-1) (s - f + 2 ^ 16)) by lia. lia.
Qed.

Lemma epoch_delta_serial_witness :
  (0 < smbfs_get_epoch_delta 9 7 <-> newer 9 7) /\ (newer 9 7 -> smbfs_get_epoch_delta 9 7 = ahead 9 7).
Proof. apply (epoch_delta_serial 9 7); unfold is_u16; lia. Defined.

Lemma epoch_delta_wrapped s f :
  is_u16 s -> is_u16 f -> 2 ^ 15 < f - s ->
  newer s f /\ smbfs_get_epoch_delta s f = - ahead s f.
Proof.
  intros Hs Hf Hw. unfold newer, ahead, is_u16, u16 in *.
  rewrite <- (Z.mod_unique (s - f) (2 ^ 16) (-1) (s - f + 2 ^ 16)) by lia.
  unfold smbfs_get_epoch_delta.
  destruct (Z.eqb_spec s f) as [|_]; [lia|]. destruct (Z.ltb_spec f s) as [|_]; [lia|].
  destruct (Z.ltb_spec 32767 (f - s)) as [_|]; [|lia]. rewrite i16_neg by lia. lia.
Qed.

(** Once the server's counter has wrapped around, a newer lease state is taken
    for an old one: the delta is the negative of the true distance. *)
Theorem epoch_delta_negative_after_wrap s f :
  is_u16 s -> is_u16 f -> 2 ^ 15 < f - s ->
  newer s f /\ smbfs_get_epoch_delta s f < 0.
Proof.
  intros Hs Hf Hw. destruct (epoch_delta_wrapped s f Hs Hf Hw) as [Hn ->].
  split; [done|]. unfold newer in Hn. lia.
Qed.

Lemma epoch_delta_negative_after_wrap_witness : newer 0 65535 /\ smbfs_get_epoch_delta 0 65535 < 0.
Proof. apply (epoch_delta_negative_after_wrap 0 65535); unfold is_u16; lia. Defined.

(** Initialising a lease with a new key reads 8 bytes from the last byte of the
    16-byte UUID on, outside of it. *)
Theorem new_lease_key_overreads dnp np parent flags uuid pend :
  length uuid = 16%nat -> (np <> None \/ dnp <> None) -> has flags SMB2_NEW_LEASE_KEY = true ->
  smb2_lease_init true dnp np parent flags uuid pend = None.
Proof.
  intros Hl Hn Hf. unfold smb2_lease_init, load64. rewrite Hf, Hl.
  destruct np, dnp; [done|done|done|]. by destruct Hn.
Qed.

Lemma new_lease_key_overreads_witness :
  smb2_lease_init true (Some (KeySource 1 2 0 false)) None None SMB2_NEW_LEASE_KEY
    (replicate 16 0) 0 = None.
Proof.
  apply (new_lease_key_overreads (Some (KeySource 1 2 0 false)) None None SMB2_NEW_LEASE_KEY
           (replicate 16 0) 0); [reflexivity|right; discriminate|reflexivity].
Defined.
