(* ===== verification/LeaseBreak.v ===== *)
(** Leases: updates from create replies and lease breaks. *)
From S2P Require Import Prelude Brl Lease LeaseTheorems.
Import Errno.

(** ** Flags *)

(** ** What a cached file needs *)

(** A file whose pages may be cached has a lease with read or write caching, and
    writes stay in the cache only with write caching. *)
Definition coherent (n : lnode) : Prop :=
  ln_isdir n = true \/ nocache n = true \/
  (allows_caching (n_lease n) = true /\
   (has (lease_state (n_lease n)) SMB2_LEASE_WRITE_CACHING = true \/
    has (ln_flag n) N_WRITE_IMMEDIATELY = true)).

Lemma write_through_lease n : n_lease (set_write_through n) = n_lease n.
Proof. unfold set_write_through. destruct (has _ _); [destruct (has _ _)|]; done. Qed.

Lemma write_through_fields n :
  ln_isdir (set_write_through n) = ln_isdir n /\ nocache (set_write_through n) = nocache n /\
  ln_hasBRLs (set_write_through n) = ln_hasBRLs n /\ lockFID (set_write_through n) = lockFID n /\
  sharedFID (set_write_through n) = sharedFID n.
Proof. unfold set_write_through. destruct (has _ _); [destruct (has _ _)|]; done. Qed.

Lemma write_through_flag n :
  allows_caching (n_lease n) = true ->
  has (lease_state (n_lease n)) SMB2_LEASE_WRITE_CACHING = true \/
  has (ln_flag (set_write_through n)) N_WRITE_IMMEDIATELY = true.
Proof.
  unfold allows_caching, set_write_through. intros ->.
  destruct (has (lease_state (n_lease n)) SMB2_LEASE_WRITE_CACHING); [by left|right].
  unfold set_ln_flag. cbn [ln_flag]. rewrite has_lor. apply orb_true_r.
Qed.

(** A node whose write-through flag and cacheability follow from its lease. *)
Lemma coherent_intro n n1 :
  n_lease n1 = n_lease n -> ln_isdir n1 = ln_isdir n ->
  (has (ln_flag (set_write_through n)) N_WRITE_IMMEDIATELY = true ->
   has (ln_flag n1) N_WRITE_IMMEDIATELY = true) ->
  (nocache n1 = false -> allows_caching (n_lease n) = true) -> coherent n1.
Proof.
  intros El Ed Hflag Hc. unfold coherent. destruct (nocache n1) eqn:En; [by right; left|].
  right; right. rewrite El. split; [by apply Hc|].
  destruct (write_through_flag n (Hc eq_refl)) as [?|?]; [by left|right; by apply Hflag].
Qed.

(** ** Updates *)

Lemma verdict_upgrade cur new d : v_upgrade (lease_verdict cur new d) = true -> Z.land cur new = cur.
Proof.
  unfold lease_verdict, SMB2_LEASE_NONE.
  repeat match goal with
  | |- context [?x =? ?c] =>
      lazymatch x with
      | cur => destruct (Z.eqb_spec cur c) as [->|?]
      | new => destruct (Z.eqb_spec new c) as [->|?]
      | d => generalize (d =? c); intros ?
      end
  end; cbn; done.
Qed.

Lemma verdict_error cur new d : v_error (lease_verdict cur new d) <> 0 ->
  v_upgrade (lease_verdict cur new d) = false.
Proof. unfold lease_verdict. repeat case_match; done. Qed.

Lemma lookup_upd_same vp f s n : nodes s !! vp = Some n -> nodes (upd_node vp f s) !! vp = Some (f n).
Proof. intros E. cbn. by rewrite lookup_alter_eq, E. Qed.

Lemma update_ubc_node vp n n2 purge rc s :
  n2 = set_write_through n -> nodes s !! vp = Some n2 ->
  exists n', nodes (update_ubc vp n2 purge rc s) !! vp = Some n' /\ n_lease n' = n_lease n /\ coherent n'.
Proof.
  intros -> Hs. pose proof (write_through_lease n) as El.
  destruct (write_through_fields n) as (Ed & Ec & Eb & _).
  assert (exists n1 s1,
    (if purge then
      if rc
      then upd_node vp (fun n => set_ln_flag (Z.lor (ln_flag n) NNEEDS_UBC_INVALIDATE) n) s
      else emit (Invalidate vp)
             (upd_node vp (fun n => set_ln_flag (clear_bits (ln_flag n) NNEEDS_UBC_INVALIDATE) n) s)
     else s) = s1 /\ nodes s1 !! vp = Some n1 /\ n_lease n1 = n_lease n /\ ln_isdir n1 = ln_isdir n /\
    nocache n1 = nocache n /\
    (has (ln_flag (set_write_through n)) N_WRITE_IMMEDIATELY = true ->
     has (ln_flag n1) N_WRITE_IMMEDIATELY = true)) as (n1 & s1 & Es & Hn1 & E1 & E2 & E3 & Hf).
  { destruct purge; [destruct rc|]; eexists _, _; (split; [reflexivity|]).
    - split; [by apply lookup_upd_same|]. cbn. split_and!; try done. intros Hw. rewrite has_lor. apply orb_true_intro. by left.
    - split; [cbn; by rewrite lookup_alter_eq, Hs|]. cbn. split_and!; try done.
      by rewrite has_clear.
    - split_and!; done. }
  unfold update_ubc. rewrite Es, El, Ed, Ec, Eb.
  destruct (ln_isdir n) eqn:Edir.
  { exists (set_write_through n). split_and!; try done. by left. }
  destruct (nocache n) eqn:Enc.
  - destruct (allows_caching (n_lease n) && (ln_hasBRLs n =? 0)) eqn:Ea.
    + apply andb_prop in Ea as [Ea _]. eexists. split; [by apply lookup_upd_same|].
      cbn. split; [done|]. apply (coherent_intro n); cbn; try done; congruence.
    + exists (set_write_through n). split_and!; try done. right; left. by rewrite Ec.
  - destruct (allows_caching (n_lease n)) eqn:Ea.
    + exists n1. split_and!; try done. apply (coherent_intro n); [done|congruence|done|done].
    + eexists. split; [by apply lookup_upd_same|]. cbn. split; [done|]. by right; left.
Qed.

(** A create reply with a granted lease never takes caching away from the vnode's
    lease, changes it only when it is accepted, and leaves the file coherent: cached
    only under a lease, written back only under write caching. *)
Theorem lease_update_coherent vp l flags s n e a s' hl :
  nodes s !! vp = Some n ->
  Z.land flags (Z.lor SMBFS_LEASE_ADD (Z.lor SMBFS_LEASE_REMOVE SMBFS_LEASE_UPDATE)) = SMBFS_LEASE_UPDATE ->
  has (l_flags l) SMB2_LEASE_GRANTED = true ->
  smbfs_lease_hash_get (lease_key_hi l) (lease_key_low l) (g_lease_hash s) = Some hl ->
  smbfs_add_update_lease true vp (InTemp l) flags s = (e, a, s') ->
  exists n', nodes s' !! vp = Some n' /\ coherent n' /\
    Z.land (lease_state (n_lease n)) (lease_state (n_lease n')) = lease_state (n_lease n) /\
    (e <> 0 -> n_lease n' = n_lease n).
Proof.
  intros Hn Hflags Hg Hh. unfold smbfs_add_update_lease. rewrite Hn. cbn [negb].
  rewrite Hflags, Hh. cbn [Z.eqb negb andb Pos.eqb].
  assert (has flags SMBFS_LEASE_ADD = false /\ has flags SMBFS_LEASE_REMOVE = false) as [-> ->].
  { unfold has. split; apply negb_false_iff, Z.eqb_eq.
    - change SMBFS_LEASE_ADD with (Z.land 7 1). rewrite Z.land_assoc.
      change 7 with (Z.lor SMBFS_LEASE_ADD (Z.lor SMBFS_LEASE_REMOVE SMBFS_LEASE_UPDATE)).
      by rewrite Hflags.
    - change SMBFS_LEASE_REMOVE with (Z.land 7 2). rewrite Z.land_assoc.
      change 7 with (Z.lor SMBFS_LEASE_ADD (Z.lor SMBFS_LEASE_REMOVE SMBFS_LEASE_UPDATE)).
      by rewrite Hflags. }
  rewrite Hg. cbn [negb]. unfold update_lease. rewrite Hn.
  set (delta := if has (l_flags l) SMB2_LEASE_V2 then _ else 1).
  set (v := if 0 <? delta then _ else ignore_it).
  set (n1 := if v_upgrade v then _ else n). intros [= <- _ <-].
  destruct (update_ubc_node vp n1 (set_write_through n1) (v_purge v) (has flags SMBFS_IN_RECONNECT)
    (upd_node vp (fun _ => set_write_through n1) s)) as (n' & Hn' & El & Hc);
    [done|by apply (lookup_upd_same vp (fun _ => set_write_through n1) s n)|].
  exists n'. split_and!; [done|done| |].
  - rewrite El. unfold n1. destruct (v_upgrade v) eqn:Ev; [|by rewrite Z.land_diag].
    cbn. unfold v in Ev. destruct (0 <? delta); [|done]. by apply verdict_upgrade in Ev.
  - intros He. rewrite El. unfold n1. assert (v_upgrade v = false) as ->; [|done].
    unfold v in *. destruct (0 <? delta); [by apply verdict_error|done].
Qed.

(** A file with a lease, its entry in the table, and a reply. *)
Definition demo_lease (state ep flags : Z) : smb2_lease := Lease flags state state 77 10 0 0 ep 0 0 0.
Definition demo_lnode (l : smb2_lease) : lnode :=
  LNode 1 false l 0 0 false 9 closed_ref (FileRef 42 3 dur_zero) 0 0.
Definition demo_lstate (l : smb2_lease) : lstate :=
  LState (smbfs_lease_hash_add 5 1 77 10 (replicate 4 [])) {[ 5%positive := demo_lnode l ]} 0 [].

Lemma lease_update_coherent_witness :
  exists n', nodes (smbfs_add_update_lease true 5 (InTemp (demo_lease RWH 3 0x18)) SMBFS_LEASE_UPDATE
                      (demo_lstate (demo_lease RH 2 0x18))).2 !! 5%positive = Some n' /\ coherent n' /\
    Z.land RH (lease_state (n_lease n')) = RH.
Proof.
  destruct (lease_update_coherent 5 (demo_lease RWH 3 0x18) SMBFS_LEASE_UPDATE
    (demo_lstate (demo_lease RH 2 0x18)) (demo_lnode (demo_lease RH 2 0x18)) 0
    (InTemp (demo_lease RWH 3 0x18))
    (smbfs_add_update_lease true 5 (InTemp (demo_lease RWH 3 0x18)) SMBFS_LEASE_UPDATE
       (demo_lstate (demo_lease RH 2 0x18))).2 (HashEntry 77 10 5 1))
    as (n' & H1 & H2 & H3 & _);
    [vm_compute; reflexivity|vm_compute; reflexivity|vm_compute; reflexivity
    |vm_compute; reflexivity|vm_compute; reflexivity|].
  exists n'. split; [exact H1|]. split; [exact H2|exact H3].
Defined.

(** ** Breaks *)

Definition cache_events (vp : positive) (n : lnode) (p : plan) : list event :=
  if nocache n then []
  else (if flush_cache p then [PushDirty vp] else []) ++ (if purge_cache p then [Invalidate vp] else []).

(** The FID whose close is deferred. *)
Definition deferred_fid (n : lnode) : Z :=
  if fr_fid (lockFID n) =? 0 then fr_fid (sharedFID n) else fr_fid (lockFID n).

Definition close_events (n : lnode) (p : plan) : list event :=
  if need_close_files p && negb (deferred_fid n =? 0) then [CloseFid (deferred_fid n)] else [].

(** A close that succeeds is the acknowledgement. *)
Definition closed (a : answers) (n : lnode) (p : plan) : bool :=
  need_close_files p && negb (deferred_fid n =? 0) && (close_answer a =? 0).

Definition ack_events (a : answers) (rq : lease_rq) (n : lnode) (p : plan) : list event :=
  if has (rq_flags rq) ACK_REQUIRED && negb (closed a n p)
  then [Ack (rq_key_hi rq) (rq_key_low rq) (new_lease_state rq)] else [].

(** What of a node a removal of its lease leaves alone. *)
Definition same_file (n n' : lnode) : Prop :=
  ln_isdir n' = ln_isdir n /\ nocache n' = nocache n /\ ln_hasBRLs n' = ln_hasBRLs n /\
  lockFID n' = lockFID n /\ sharedFID n' = sharedFID n /\ ln_flag n' = ln_flag n.

Lemma remove_lease_node leasing vp s n :
  nodes s !! vp = Some n ->
  exists n', nodes (smbfs_add_update_lease leasing vp InNode SMBFS_LEASE_REMOVE s).2 !! vp = Some n' /\
    events (smbfs_add_update_lease leasing vp InNode SMBFS_LEASE_REMOVE s).2 = events s /\
    same_file n n' /\
    (n_lease n' = n_lease n \/ n_lease n' = reset_lease (n_lease n)).
Proof.
  intros Hn. unfold smbfs_add_update_lease. rewrite Hn.
  destruct leasing; cbn [negb]; [|exists n; split_and!; auto; done].
  cbn [Z.land Z.lor Pos.land Pos.lor Z.eqb Pos.eqb negb andb].
  change (has SMBFS_LEASE_REMOVE SMBFS_LEASE_ADD) with false.
  change (has SMBFS_LEASE_REMOVE SMBFS_LEASE_REMOVE) with true. cbn.
  destruct (smbfs_lease_hash_get _ _ _) as [l|]; cbn [snd].
  - eexists. split; [apply lookup_upd_same; exact Hn|]. split_and!; try done. by right.
  - exists n. split_and!; try done. by left.
Qed.

Lemma break_ubc_node vp allow p s n :
  nodes s !! vp = Some n ->
  events (break_ubc vp allow p s) = events s ++ cache_events vp n p /\
  exists n', nodes (break_ubc vp allow p s) !! vp = Some n' /\ n_lease n' = n_lease n /\
    ln_isdir n' = ln_isdir n /\ lockFID n' = lockFID n /\ sharedFID n' = sharedFID n /\
    has (ln_flag n') N_WRITE_IMMEDIATELY = has (ln_flag n) N_WRITE_IMMEDIATELY /\
    (nocache n' = false -> allow = true \/ need_close_files p = true).
Proof.
  intros Hn. unfold break_ubc, cache_events. rewrite Hn.
  destruct (nocache n) eqn:Enc.
  { rewrite app_nil_r. destruct (allow && _) eqn:Ea.
    - split; [done|]. eexists. split; [by apply lookup_upd_same|]. cbn. split_and!; try done.
      intros _. apply andb_prop in Ea as [-> _]. by left.
    - split; [done|]. exists n. split_and!; try done. congruence. }
  assert (exists n2 s2,
    (let s1 := if flush_cache p then
        emit (PushDirty vp) (upd_node vp (fun n =>
          drop_attrs (set_ln_flag (clear_bits (ln_flag n) NNEEDS_UBC_PUSHDIRTY) n)) s)
      else s in
     if purge_cache p then
        emit (Invalidate vp) (upd_node vp (fun n =>
          drop_attrs (set_ln_flag (clear_bits (ln_flag n) NNEEDS_UBC_INVALIDATE) n)) s1)
      else s1) = s2 /\ nodes s2 !! vp = Some n2 /\
    events s2 = events s ++ (if flush_cache p then [PushDirty vp] else [])
                         ++ (if purge_cache p then [Invalidate vp] else []) /\
    n_lease n2 = n_lease n /\ ln_isdir n2 = ln_isdir n /\ lockFID n2 = lockFID n /\
    sharedFID n2 = sharedFID n /\
    has (ln_flag n2) N_WRITE_IMMEDIATELY = has (ln_flag n) N_WRITE_IMMEDIATELY)
    as (n2 & s2 & Es & Hn2 & Ee & E1 & E2 & E3 & E4 & E5).
  { destruct (flush_cache p), (purge_cache p); eexists _, _; (split; [reflexivity|]); cbn;
      rewrite ?lookup_alter_eq, ?Hn; cbn; (split; [reflexivity|]); cbn;
      rewrite ?has_clear, ?app_nil_r by done; (split; [by rewrite <- ?app_assoc|]); done. }
  cbv zeta in Es. rewrite Es. destruct (negb allow && negb (need_close_files p)) eqn:Eb.
  - split; [done|]. eexists. split; [by apply lookup_upd_same|]. cbn. split_and!; try done.
  - split; [done|]. exists n2. split_and!; try done. intros _.
    destruct allow; [by left|]. right. by destruct (need_close_files p).
Qed.

Lemma close_deferred_node vp ce s n :
  nodes s !! vp = Some n ->
  let '(e, skip, s') := close_deferred vp ce s in
  events s' = events s ++ (if negb (deferred_fid n =? 0) then [CloseFid (deferred_fid n)] else []) /\
  skip = (negb (deferred_fid n =? 0) && (ce =? 0)) /\
  exists n', nodes s' !! vp = Some n'.
Proof.
  intros Hn. unfold close_deferred, deferred_fid. rewrite Hn.
  destruct (Z.eqb_spec (fr_fid (lockFID n)) 0) as [E|E]; cbn [negb].
  - destruct (Z.eqb_spec (fr_fid (sharedFID n)) 0); cbn [negb].
    + rewrite app_nil_r. split_and!; eauto.
    + split_and!; try done. eexists. by apply lookup_upd_same.
  - apply Z.eqb_neq in E. rewrite E. split_and!; try done. eexists. by apply lookup_upd_same.
Qed.

Lemma allows_not_none l : allows_caching l = true -> (lease_state l =? SMB2_LEASE_NONE) = false.
Proof.
  unfold allows_caching. destruct (Z.eqb_spec (lease_state l) SMB2_LEASE_NONE) as [E|]; [|done].
  by rewrite E.
Qed.

Lemma break_file_node a rq vp n s :
  nodes s !! vp = Some n -> ln_isdir n = false ->
  let p := break_plan (session_smb3 a) rq (n_lease n) in
  let '(e, skip, s') := break_file a rq vp n s in
  events s' = events s ++ cache_events vp n p ++ close_events n p /\
  skip = closed a n p /\
  exists n', nodes s' !! vp = Some n' /\
    (need_close_files p = false -> coherent n' /\
       lease_state (n_lease n') = lease_state (broken_lease (session_smb3 a) rq (n_lease n))).
Proof.
  intros Hn Hd p. unfold break_file. fold p.
  set (nb := upd_lease (broken_lease (session_smb3 a) rq) n).
  set (n1 := set_write_through nb).
  assert (n_lease n1 = broken_lease (session_smb3 a) rq (n_lease n)) as El
    by (unfold n1; by rewrite write_through_lease).
  destruct (write_through_fields nb) as (Ed & Ec & Eb & Elk & Esh). fold n1 in Ed, Ec, Eb, Elk, Esh.
  set (s1 := if need_close_files p then add_def_close (-1) s else s).
  assert (nodes s1 !! vp = Some n /\ events s1 = events s) as [Hn1 Ee1]
    by (unfold s1; by destruct (need_close_files p)).
  set (s2 := upd_node vp (fun _ => n1) s1).
  assert (nodes s2 !! vp = Some n1) as Hn2 by by apply (lookup_upd_same vp (fun _ => n1) s1 n).
  set (removes := (lease_state (n_lease n1) =? SMB2_LEASE_NONE) || need_close_files p).
  set (s3 := if removes then _ else s2).
  assert (exists n3, nodes s3 !! vp = Some n3 /\ events s3 = events s /\ same_file n1 n3 /\
    lease_state (n_lease n3) = (if removes then lease_state (n_lease n3) else lease_state (n_lease n1)) /\
    (n_lease n3 = n_lease n1 \/ removes = true /\ n_lease n3 = reset_lease (n_lease n1)))
    as (n3 & Hn3 & Ee3 & Hsame & _ & Hl3).
  { unfold s3. destruct removes eqn:Er.
    - destruct (remove_lease_node (session_leasing a) vp s2 n1 Hn2) as (n3 & H1 & H2 & H3 & H4).
      exists n3. split_and!; auto. by rewrite H2. destruct H4; auto.
    - exists n1. split_and!; auto. done. }
  destruct Hsame as (Sd & Sc & Sb & Slk & Ssh & Sf).
  destruct (break_ubc_node vp (allows_caching (n_lease n1)) p s3 n3 Hn3)
    as (Ee4 & n4 & Hn4 & E1 & E2 & E3 & E4 & E5 & Hnc).
  assert (cache_events vp n3 p = cache_events vp n p) as Ece
    by (unfold cache_events; by rewrite Sc, Ec).
  assert (deferred_fid n4 = deferred_fid n) as Edf
    by (unfold deferred_fid; by rewrite E3, E4, Slk, Ssh, Elk, Esh).
  rewrite Ee3, Ece in Ee4. unfold close_events, closed.
  destruct (need_close_files p) eqn:Ep.
  - pose proof (close_deferred_node vp (close_answer a) _ n4 Hn4) as Hcd.
    destruct (close_deferred vp (close_answer a) _) as [[e skip] s5].
    destruct Hcd as (Ee5 & -> & n5 & Hn5). rewrite Edf in *. cbn [andb].
    split_and!; [by rewrite Ee5, Ee4, <- app_assoc|done|]. exists n5. by split.
  - cbn [andb]. rewrite app_nil_r. split_and!; [done|done|]. exists n4. split; [done|]. intros _.
    assert (lease_state (n_lease n3) = lease_state (n_lease n1)) as Est.
    { destruct Hl3 as [->|[Hr ->]]; [done|]. unfold removes in Hr. rewrite orb_false_r in Hr.
      apply Z.eqb_eq in Hr. by rewrite Hr. }
    split; [|rewrite E1; congruence].
    unfold coherent. destruct (nocache n4) eqn:En4; [by right; left|]. right; right.
    destruct (Hnc eq_refl) as [Ha|?]; [|congruence].
    assert (n_lease n3 = n_lease n1) as Eln.
    { destruct Hl3 as [->|[Hr _]]; [done|]. unfold removes in Hr.
      by rewrite (allows_not_none _ Ha) in Hr. }
    rewrite E1, Eln. split; [done|]. rewrite E5, Sf.
    unfold n1 in Ha |- *. rewrite write_through_lease in *. by apply write_through_flag.
Qed.

(** A lease break for a file that the client finds. *)
Record file_break (a : answers) interfere (rq : lease_rq) (s : lstate) (vp : positive) (n : lnode)
  : Prop := FileBreak {
  fb_found : (find_lease_vnode interfere rq s).1 = inr vp;
  fb_node : nodes s !! vp = Some n;
  fb_file : ln_isdir n = false;
  fb_share : have_share a = true;
  fb_session : have_session a = true;
  fb_dir : need_close_dir rq = false
}.

Lemma find_lease_vnode_frame interfere rq s r s1 :
  find_lease_vnode interfere rq s = (r, s1) -> nodes s1 = nodes s /\ events s1 = events s.
Proof.
  unfold find_lease_vnode. intros E.
  repeat (case_match; simplify_eq; try done).
Qed.

Lemma lookup_clear_pending vp s n : nodes s !! vp = Some n ->
  exists n', nodes (clear_pending_break vp s) !! vp = Some n' /\
    (coherent n -> coherent n') /\ lease_state (n_lease n') = lease_state (n_lease n).
Proof. intros Hn. eexists. split; [by apply lookup_upd_same|]. split; done. Qed.

Lemma handle_break_spec a interfere rq s vp n :
  file_break a interfere rq s vp n ->
  let p := break_plan (session_smb3 a) rq (n_lease n) in
  let s' := (smbfs_handle_lease_break a interfere rq s).2 in
  events s' = events s ++ cache_events vp n p ++ close_events n p ++ ack_events a rq n p /\
  exists n', nodes s' !! vp = Some n' /\
    (need_close_files p = false -> coherent n' /\
       lease_state (n_lease n') = lease_state (broken_lease (session_smb3 a) rq (n_lease n))).
Proof.
  intros [Hf Hn Hd Hsh Hse Hdir] p s'. unfold s', smbfs_handle_lease_break.
  destruct (find_lease_vnode interfere rq s) as [r s1] eqn:Ef. cbn in Hf. subst r.
  apply find_lease_vnode_frame in Ef as [En Ee]. rewrite Hsh, Hse, En, Hn, Hd. cbn [negb orb andb].
  fold p. rewrite <- En in Hn. pose proof (break_file_node a rq vp n s1 Hn Hd) as Hb.
  cbv zeta in Hb. fold p in Hb.
  destruct (break_file a rq vp n s1) as [[e skip] s2]. destruct Hb as (Ee2 & -> & n2 & Hn2 & Hc).
  unfold break_dir. rewrite Hdir. cbn [andb]. rewrite orb_false_r, (andb_comm (negb _)).
  set (acked := has (rq_flags rq) ACK_REQUIRED && negb (closed a n p)).
  set (s4 := if acked then emit (Ack (rq_key_hi rq) (rq_key_low rq) (new_lease_state rq)) s2 else s2).
  assert (events s4 = events s ++ cache_events vp n p ++ close_events n p ++ ack_events a rq n p /\
          nodes s4 !! vp = Some n2) as [E4 Hn4].
  { unfold s4, ack_events. fold acked. destruct acked; cbn.
    - rewrite Ee2, Ee, <- !app_assoc. done.
    - rewrite Ee2, Ee, app_nil_r. done. }
  assert ((let '(e1, s5) := if acked
     then (ack_answer a, emit (Ack (rq_key_hi rq) (rq_key_low rq) (new_lease_state rq)) s2)
     else (e, s2) in (e1, if need_close_files p then clear_pending_break vp s5 else s5)).2
     = if need_close_files p then clear_pending_break vp s4 else s4) as ->
    by (unfold s4; by destruct acked).
  destruct (need_close_files p) eqn:Ep.
  - split; [done|]. destruct (lookup_clear_pending vp s4 n2 Hn4) as (n' & Hn' & _).
    exists n'. split; [exact Hn'|]. done.
  - split; [done|]. exists n2. split; [done|]. exact Hc.
Qed.

(** For a file lease break the client first pushes dirty pages when write caching
    is lost, then drops pages when read caching is lost, then closes a FID whose
    close was deferred when handle caching is lost, and last acknowledges, unless
    the close did; nothing else is sent. *)
Theorem lease_break_events a interfere rq s vp n :
  file_break a interfere rq s vp n ->
  let p := break_plan (session_smb3 a) rq (n_lease n) in
  events (smbfs_handle_lease_break a interfere rq s).2
  = events s ++ cache_events vp n p ++ close_events n p ++ ack_events a rq n p.
Proof. intros Hb. apply (handle_break_spec a interfere rq s vp n Hb). Qed.

Definition demo_answers : answers := Answers true true true true 0 0 0.
Definition demo_rq (ep new : Z) : lease_rq := LeaseRq ep ACK_REQUIRED 77 10 RWH new false.

Lemma demo_break ep new l :
  file_break demo_answers id (demo_rq ep new) (demo_lstate l) 5 (demo_lnode l).
Proof. split; reflexivity. Qed.

Lemma lease_break_events_witness :
  events (smbfs_handle_lease_break demo_answers id (demo_rq 3 R) (demo_lstate (demo_lease RWH 2 0x58))).2
  = [PushDirty 5; CloseFid 42].
Proof.
  rewrite (lease_break_events demo_answers id (demo_rq 3 R) (demo_lstate (demo_lease RWH 2 0x58)) 5
             (demo_lnode (demo_lease RWH 2 0x58)) (demo_break 3 R (demo_lease RWH 2 0x58))).
  vm_compute. reflexivity.
Defined.

(** C28: after a break without deferred close the file is coherent, cached only under
    the lease that the client keeps and written back only under write caching.  With SMB 2
    this lease is that of the break.  With SMB 3 it is if the epoch of the server is larger by less
    than 2^15 than that of the client, and the lease stays what it was if the epoch is the
    same or smaller by less than 2^15.  (A server whose counter has wrapped around is taken
    for an old one.) *)
Theorem lease_break_coherent a interfere rq s vp n :
  file_break a interfere rq s vp n ->
  need_close_files (break_plan (session_smb3 a) rq (n_lease n)) = false ->
  is_u16 (server_epoch rq) -> is_u16 (epoch (n_lease n)) ->
  exists n', nodes (smbfs_handle_lease_break a interfere rq s).2 !! vp = Some n' /\ coherent n' /\
    (session_smb3 a = false -> lease_state (n_lease n') = new_lease_state rq) /\
    (session_smb3 a = true ->
     (0 < server_epoch rq - epoch (n_lease n) < 2 ^ 15 -> lease_state (n_lease n') = new_lease_state rq) /\
     (0 <= epoch (n_lease n) - server_epoch rq < 2 ^ 15 -> lease_state (n_lease n') = lease_state (n_lease n))).
Proof.
  intros Hb Hp Hs Hf. destruct (handle_break_spec a interfere rq s vp n Hb) as (_ & n' & Hn' & Hc).
  destruct (Hc Hp) as [Hco Hst]. exists n'. split; [done|]. split; [done|]. rewrite Hst. unfold broken_lease.
  split; [intros E3|intros E3; split; intros He]; rewrite Hp, E3.
  - cbn. by destruct (new_lease_state rq =? SMB2_LEASE_NONE).
  - rewrite (proj2 (Z.ltb_lt _ _)); [cbn; by destruct (new_lease_state rq =? SMB2_LEASE_NONE)|].
    apply (epoch_delta_serial _ _ Hs Hf); [lia|]. unfold newer, ahead. rewrite u16_small by (unfold is_u16 in *; lia). lia.
  - rewrite (proj2 (Z.ltb_ge _ _)); [by destruct (lease_state (n_lease n) =? SMB2_LEASE_NONE)|].
    unfold smbfs_get_epoch_delta. repeat case_match; lia.
Qed.

Lemma lease_break_coherent_witness :
  exists n', nodes (smbfs_handle_lease_break demo_answers id (demo_rq 3 R)
                      (demo_lstate (demo_lease RWH 2 0x18))).2 !! 5%positive = Some n' /\
    coherent n' /\ lease_state (n_lease n') = R.
Proof.
  destruct (lease_break_coherent demo_answers id (demo_rq 3 R) (demo_lstate (demo_lease RWH 2 0x18)) 5
    (demo_lnode (demo_lease RWH 2 0x18)) (demo_break 3 R (demo_lease RWH 2 0x18)))
    as (n' & H1 & H2 & _ & H3); [vm_compute; reflexivity|split; cbn; lia|split; cbn; lia|].
  exists n'. split; [exact H1|]. split; [exact H2|]. apply (H3 eq_refl). cbn. lia.
Defined.

(** When the server's epoch has wrapped around, a break is not applied although
    it is acknowledged: the file keeps the lease state it had, and the server is
    told that the new one is in force. *)
Theorem break_ignored_after_wrap a interfere rq s vp n :
  file_break a interfere rq s vp n -> session_smb3 a = true ->
  is_u16 (server_epoch rq) -> is_u16 (epoch (n_lease n)) ->
  2 ^ 15 < epoch (n_lease n) - server_epoch rq ->
  has (l_flags (n_lease n)) SMB2_DEFERRED_CLOSE = false ->
  has (rq_flags rq) ACK_REQUIRED = true ->
  newer (server_epoch rq) (epoch (n_lease n)) /\
  exists n' evs, nodes (smbfs_handle_lease_break a interfere rq s).2 !! vp = Some n' /\
    lease_state (n_lease n') = lease_state (n_lease n) /\
    events (smbfs_handle_lease_break a interfere rq s).2
    = evs ++ [Ack (rq_key_hi rq) (rq_key_low rq) (new_lease_state rq)].
Proof.
  intros Hb H3 Hs Hf Hw Hdc Hack. destruct (epoch_delta_wrapped _ _ Hs Hf Hw) as [Hn Ed].
  split; [done|]. destruct (handle_break_spec a interfere rq s vp n Hb) as (Ee & n' & Hn' & Hc).
  assert (need_close_files (break_plan (session_smb3 a) rq (n_lease n)) = false) as Hp
    by (cbn; by rewrite Hdc, andb_false_r).
  destruct (Hc Hp) as [_ Hst]. exists n'. eexists. split; [done|]. split.
  - rewrite Hst. unfold broken_lease. rewrite Hp, H3, Ed.
    destruct (Z.ltb_spec 0 (- ahead (server_epoch rq) (epoch (n_lease n)))) as [Hlt|_];
      [unfold newer in Hn; lia|]. by destruct (lease_state (n_lease n) =? SMB2_LEASE_NONE).
  - rewrite Ee. unfold ack_events, closed. rewrite Hack, Hp. cbn [andb negb].
    by rewrite !app_assoc.
Qed.

Lemma break_ignored_after_wrap_witness :
  newer 0 65535 /\
  exists n' evs, nodes (smbfs_handle_lease_break demo_answers id (demo_rq 0 R)
                          (demo_lstate (demo_lease RW 65535 0x18))).2 !! 5%positive = Some n' /\
    lease_state (n_lease n') = RW /\
    events (smbfs_handle_lease_break demo_answers id (demo_rq 0 R)
              (demo_lstate (demo_lease RW 65535 0x18))).2 = evs ++ [Ack 77 10 R].
Proof.
  apply (break_ignored_after_wrap demo_answers id (demo_rq 0 R) (demo_lstate (demo_lease RW 65535 0x18))
    5 (demo_lnode (demo_lease RW 65535 0x18)) (demo_break 0 R (demo_lease RW 65535 0x18)));
    [reflexivity|unfold is_u16; cbn; lia|unfold is_u16; cbn; lia|cbn; lia|reflexivity|reflexivity].
Defined.
