(* ===== verification/Parser.v ===== *)
(** * Parsers of replies

    The functions that parse the body of a reply read the chain through the [md_*]
    calls of [subr_mchain.c], leave with [goto bad] at the first error, and fill in
    structs as they go.  Here such a function is a term of [parser X], whose
    constructors are these calls and an access to the structs [X].  [run] executes a
    term on the chains of a [Reader]; [eval] is its meaning on the bytes that are left.
    [run_eval] says once and for all that they agree on every chain that keeps the laws
    of the interface, so that no parser reads outside of its chain. *)
From S2P Require Import Prelude Chain.
Import Errno.

(** ** Syntax *)

Inductive parser (X A : Type) : Type :=
  | Ret (a : A)
  | Throw (e : Z)                                          (* error = e; goto bad *)
  | Undef                                                  (* undefined behaviour *)
  | Get (n : nat) (k : list Z -> parser X A)               (* md_get_mem of n bytes *)
  | Skip (n : Z) (k : parser X A)                          (* md_get_mem with a NULL target *)
  | Shadow (B : Type) (p : parser X B) (k : B -> parser X A)  (* p on an md_shadow_copy *)
  | Try (B : Type) (p : parser X B) (k : Z + B -> parser X A)  (* the error of p is looked at *)
  | State (f : X -> X) (k : X -> parser X A).              (* the structs, before and after *)

Arguments Ret {X A} a.
Arguments Throw {X A} e.
Arguments Undef {X A}.
Arguments Get {X A} n k.
Arguments Skip {X A} n k.
Arguments Shadow {X A B} p k.
Arguments Try {X A B} p k.
Arguments State {X A} f k.

Fixpoint pbind {X A B} (f : A -> parser X B) (p : parser X A) : parser X B :=
  match p with
  | Ret a => f a
  | Throw e => Throw e
  | Undef => Undef
  | Get n k => Get n (fun xs => pbind f (k xs))
  | Skip n k => Skip n (pbind f k)
  | Shadow q k => Shadow q (fun b => pbind f (k b))
  | Try q k => Try q (fun b => pbind f (k b))
  | State g k => State g (fun x => pbind f (k x))
  end.

#[export] Instance parser_ret {X} : MRet (parser X) := fun A a => Ret a.
#[export] Instance parser_bind {X} : MBind (parser X) := fun A B f p => pbind f p.

Section Calls.
Context {X : Type}.

Definition get_mem (n : nat) : parser X (list Z) := Get n Ret.
(** [md_get_uint8], [md_get_uint16le] and so on: [n] bytes. *)
Definition get_le (n : nat) : parser X Z := Get n (fun xs => Ret (le_value xs)).
Definition get_be (n : nat) : parser X Z := Get n (fun xs => Ret (be_value xs)).
Definition skip (n : Z) : parser X unit := Skip n (Ret tt).
Definition shadow {A} (p : parser X A) : parser X A := Shadow p Ret.
Definition attempt {A} (p : parser X A) : parser X (Z + A) := Try p Ret.
Definition look : parser X X := State id Ret.
Definition change (f : X -> X) : parser X unit := State f (fun _ => Ret tt).
Definition fail {A} (e : Z) : parser X A := Throw e.
(** "Check structure size". *)
Definition check_size (n : Z) : parser X unit :=
  length ← get_le 2; if negb (length =? n) then fail EBADRPC else mret tt.
End Calls.

(** The result of a run: an errno or a value, the rest of the bytes, the structs. *)
Definition result (X A : Type) : Type := (Z + A) * list Z * X.

Fixpoint eval {X A} (p : parser X A) (bs : list Z) (x : X) : option (result X A) :=
  match p with
  | Ret a => Some (inr a, bs, x)
  | Throw e => Some (inl e, bs, x)
  | Undef => None
  | Get n k => if (n <=? length bs)%nat then eval (k (take n bs)) (drop n bs) x
               else Some (inl EBADRPC, [], x)
  | Skip n k => if n <=? Z.of_nat (length bs) then eval k (drop (Z.to_nat n) bs) x
                else Some (inl EBADRPC, [], x)
  | Shadow q k =>
      match eval q bs x with
      | Some (inr b, _, x') => eval (k b) bs x'
      | Some (inl e, _, x') => Some (inl e, bs, x')
      | None => None
      end
  | Try q k =>
      match eval q bs x with
      | Some (r, bs', x') => eval (k r) bs' x'
      | None => None
      end
  | State f k => eval (k x) bs (f x)
  end.

Lemma eval_bytes {X A} (p : parser X A) bs x :
  Forall is_byte bs -> match eval p bs x with Some (_, bs', _) => Forall is_byte bs' | None => True end.
Proof.
  revert bs x. induction p as [A a|A e|A|A n k IH|A n k IH|A B q IHq k IH|A B q IHq k IH|A f k IH];
    intros bs x Hb; cbn [eval]; try done; try (by apply IH).
  - destruct (_ <=? _)%nat; [by apply IH, list.Forall_drop|constructor].
  - destruct (_ <=? _); [by apply IH, list.Forall_drop|constructor].
  - destruct (eval q bs x) as [[[[e|b] ?] ?]|]; [done|by apply IH|done].
  - specialize (IHq bs x Hb). destruct (eval q bs x) as [[[r bs1] x1]|]; [by apply IH|done].
Qed.

(** What is left is not more than there was. *)
Lemma eval_shorter {X A} (p : parser X A) bs x r bs' x' :
  eval p bs x = Some (r, bs', x') -> (length bs' <= length bs)%nat.
Proof.
  revert bs x r bs' x'. induction p as [A a|A e|A|A n k IH|A n k IH|A B q IHq k IH|A B q IHq k IH|A f k IH];
    intros bs x r bs' x'; cbn [eval]; try done; try (by intros [= <- <- <-]); try (by apply IH).
  - destruct (_ <=? _)%nat; [intros E%IH; rewrite length_drop in E; lia|intros [= <- <- <-]; cbn; lia].
  - destruct (_ <=? _); [intros E%IH; rewrite length_drop in E; lia|intros [= <- <- <-]; cbn; lia].
  - destruct (eval q bs x) as [[[[e|b] ?] ?]|]; [by intros [= <- <- <-]|by intros E%IH|done].
  - destruct (eval q bs x) as [[[b ?] ?]|] eqn:E1; [|done]. apply IHq in E1. intros E%IH. lia.
Qed.

(** The values a parser can yield, whatever bytes are read. *)
Fixpoint may {X A} (p : parser X A) (a : A) : Prop :=
  match p with
  | Ret b => a = b
  | Throw _ | Undef => False
  | Get n k => exists xs, length xs = n /\ Forall is_byte xs /\ may (k xs) a
  | Skip _ k => may k a
  | Shadow q k => exists b, may q b /\ may (k b) a
  | Try q k => (exists b, may q b /\ may (k (inr b)) a) \/ exists e, may (k (inl e)) a
  | State _ k => exists x, may (k x) a
  end.

Lemma eval_may {X A} (p : parser X A) bs x a bs' x' :
  Forall is_byte bs -> eval p bs x = Some (inr a, bs', x') -> may p a.
Proof.
  revert bs x a bs' x'. induction p as [A b|A e|A|A n k IH|A n k IH|A B q IHq k IH|A B q IHq k IH|A f k IH];
    intros bs x a bs' x' Hb; cbn [eval may]; try done.
  - by intros [= <- _ _].
  - destruct (Nat.leb_spec n (length bs)) as [Hl|]; [|done]. intros E.
    exists (take n bs). split; [rewrite length_take; lia|]. split; [by apply list.Forall_take|].
    eapply IH; [|exact E]. by apply list.Forall_drop.
  - destruct (_ <=? _); [|done]. apply IH. by apply list.Forall_drop.
  - destruct (eval q bs x) as [[[[e|b] bs1] x1]|] eqn:E; [done| |done].
    intros E2. exists b. split; [exact (IHq _ _ _ _ _ Hb E)|exact (IH _ _ _ _ _ _ Hb E2)].
  - pose proof (eval_bytes q bs x Hb) as Hb1.
    destruct (eval q bs x) as [[[[e|b] bs1] x1]|] eqn:E; intros E2; [right|left|done].
    + exists e. exact (IH _ _ _ _ _ _ Hb1 E2).
    + exists b. split; [exact (IHq _ _ _ _ _ Hb E)|exact (IH _ _ _ _ _ _ Hb1 E2)].
  - intros E. exists x. exact (IH _ _ _ _ _ _ Hb E).
Qed.

(** Sizes that are passed to [md_get_mem] fit a [size_t], whatever bytes are read. *)
Fixpoint sized {X A} (p : parser X A) : Prop :=
  match p with
  | Ret _ | Throw _ | Undef => True
  | Get n k => Z.of_nat n < 2 ^ 64 /\ forall xs, length xs = n -> Forall is_byte xs -> sized (k xs)
  | Skip n k => 0 <= n < 2 ^ 64 /\ sized k
  | Shadow q k => sized q /\ forall b, may q b -> sized (k b)
  | Try q k => sized q /\ (forall b, may q b -> sized (k (inr b))) /\ forall e, sized (k (inl e))
  | State _ k => forall x, sized (k x)
  end.

Section Run.
Context {St D : Type} `{Reader St D} {X : Type}.

Fixpoint run {A} (p : parser X A) (s : St) (d : D) (x : X) : option ((Z + A) * St * D * X) :=
  match p with
  | Ret a => Some (inr a, s, d, x)
  | Throw e => Some (inl e, s, d, x)
  | Undef => None
  | Get O k =>
      match r_skip d 0 s with
      | Some ((e, d'), s') => if e =? 0 then run (k []) s' d' x else Some (inl e, s', d', x)
      | None => None
      end
  | Get n k =>
      match r_get d n s with
      | Some ((e, d', xs), s') => if e =? 0 then run (k xs) s' d' x else Some (inl e, s', d', x)
      | None => None
      end
  | Skip n k =>
      match r_skip d n s with
      | Some ((e, d'), s') => if e =? 0 then run k s' d' x else Some (inl e, s', d', x)
      | None => None
      end
  | Shadow q k =>
      match run q s (r_shadow d) x with
      | Some (inr b, s', _, x') => run (k b) s' d x'
      | Some (inl e, s', _, x') => Some (inl e, s', d, x')
      | None => None
      end
  | Try q k =>
      match run q s d x with
      | Some (r, s', d', x') => run (k r) s' d' x'
      | None => None
      end
  | State f k => run (k x) s d (f x)
  end.

(** A parser run on a chain does what it does on the bytes that the chain holds: the
    same result, the same structs, and the chain holds the rest.  It never reads
    outside of the chain. *)
Theorem run_eval `{!ReaderLaws St D} {A} (p : parser X A) s d bs x :
  sized p -> Forall is_byte bs -> r_holds s d bs ->
  match eval p bs x with
  | Some (r, bs', x') => exists d', run p s d x = Some (r, s, d', x') /\ r_holds s d' bs'
  | None => run p s d x = None
  end.
Proof.
  revert d bs x. induction p as [A a|A e|A|A n k IH|A n k IH|A B q IHq k IH|A B q IHq k IH|A f k IH];
    intros d bs x Hsz Hby Hh; cbn [eval run sized] in *; try (by eexists); try done.
  - destruct Hsz as [Hn Hk]. destruct n as [|n].
    + destruct (r_skip_run s d bs 0 Hh) as (d' & E & Hh' & _); [lia|].
      rewrite (proj2 (Z.leb_le 0 _)) in E by lia. rewrite E. cbn. rewrite drop_0 in Hh'.
      apply IH; [|done..]. apply Hk; [done|constructor].
    + destruct (Nat.leb_spec (S n) (length bs)) as [Hl|Hl].
      * destruct (r_get_ok s d bs (S n) Hh) as (d' & -> & Hh' & _); [lia|done|].
        apply IH; [|by apply list.Forall_drop|done]. apply Hk; [rewrite length_take; lia|by apply list.Forall_take].
      * destruct (r_get_short s d bs (S n) Hh Hl Hn) as (d' & xs & -> & Hh' & _). by eexists.
  - destruct Hsz as [Hn Hk]. destruct (r_skip_run s d bs n Hh Hn) as (d' & E & Hh' & _).
    destruct (Z.leb_spec n (Z.of_nat (length bs))); rewrite E; [apply IH; [done|by apply list.Forall_drop|done]|].
    cbn. eexists. split; [done|]. rewrite drop_ge in Hh' by lia. done.
  - destruct Hsz as [Hq Hk]. specialize (IHq (r_shadow d) bs x Hq Hby (r_shadow_ok _ _ _ Hh)).
    destruct (eval q bs x) as [[[[e|b] bs1] x1]|] eqn:E; [..|by rewrite IHq].
    + destruct IHq as (d' & -> & _). by eexists.
    + destruct IHq as (d' & -> & _). apply IH; [|done..]. apply Hk. exact (eval_may _ _ _ _ _ _ Hby E).
  - destruct Hsz as (Hq & Hk & Hk2). specialize (IHq d bs x Hq Hby Hh).
    pose proof (eval_bytes q bs x Hby) as Hb.
    destruct (eval q bs x) as [[[r bs1] x1]|] eqn:E; [|by rewrite IHq].
    destruct IHq as (d' & -> & Hh'). apply IH; [|done..].
    destruct r; [done|]. apply Hk. exact (eval_may _ _ _ _ _ _ Hby E).
  - by apply IH.
Qed.
End Run.

(** ** Meaning of the combinators *)

Section Eval.
Context {X : Type}.

Lemma eval_bind {A B} (p : parser X A) (f : A -> parser X B) bs x :
  eval (p ≫= f) bs x =
  match eval p bs x with
  | Some (inr a, bs', x') => eval (f a) bs' x'
  | Some (inl e, bs', x') => Some (inl e, bs', x')
  | None => None
  end.
Proof.
  unfold mbind, parser_bind. revert bs x. induction p as [A a|A e|A|A n k IH|A n k IH|A C q _ k IH|A C q _ k IH|A g k IH];
    intros bs x; cbn [pbind eval]; try done.
  - destruct (_ <=? _)%nat; [apply IH|done].
  - destruct (_ <=? _); [apply IH|done].
  - destruct (eval q bs x) as [[[[e|b] ?] ?]|]; [done|apply IH|done].
  - destruct (eval q bs x) as [[[r ?] ?]|]; [apply IH|done].
Qed.

Lemma may_bind {A B} (p : parser X A) (f : A -> parser X B) c :
  may (p ≫= f) c -> exists a, may p a /\ may (f a) c.
Proof.
  unfold mbind, parser_bind.
  induction p as [A b|A e|A|A n k IH|A n k IH|A D q _ k IH|A D q _ k IH|A g k IH]; cbn [pbind may]; try done.
  - by exists b.
  - intros (xs & Hl & Hb & (a & Ha & Hc)%IH). exists a. split; [by exists xs|done].
  - apply IH.
  - intros (b & Hb & (a & Ha & Hc)%IH). exists a. split; [by exists b|done].
  - intros [(b & Hb & (a & Ha & Hc)%IH)|(e & (a & Ha & Hc)%IH)]; exists a; (split; [|done]); [left|right]; eauto.
  - intros (y & (a & Ha & Hc)%IH). exists a. split; [by exists y|done].
Qed.

Lemma may_get_le n v : may (get_le n : parser X Z) v -> 0 <= v < 256 ^ Z.of_nat n.
Proof. intros (xs & <- & Hb & ->). by apply le_value_bound. Qed.

Lemma sized_bind {A B} (p : parser X A) (f : A -> parser X B) :
  sized p -> (forall a, may p a -> sized (f a)) -> sized (p ≫= f).
Proof.
  unfold mbind, parser_bind. intros Hp Hf.
  induction p as [A b|A e|A|A n k IH|A n k IH|A D q _ k IH|A D q _ k IH|A g k IH]; cbn [pbind sized may] in *; try done.
  - by apply Hf.
  - destruct Hp as [Hn Hk]. split; [done|]. intros xs Hl Hb. apply IH; eauto.
  - destruct Hp as [Hn Hk]. split; [done|]. apply IH; eauto.
  - destruct Hp as [Hq Hk]. split; [done|]. intros b Hb. apply IH; eauto.
  - destruct Hp as (Hq & Hk & Hk2). split; [done|]. split; intros b; [intros Hb|]; apply IH; eauto.
  - intros y. apply IH; eauto.
Qed.

(** The value of a field is bounded. *)
Lemma sized_get_le {B} n (f : Z -> parser X B) :
  Z.of_nat n < 2 ^ 64 -> (forall v, 0 <= v < 256 ^ Z.of_nat n -> sized (f v)) -> sized (get_le n ≫= f).
Proof.
  intros Hn Hf. split; [done|]. intros xs Hl Hb. apply Hf. rewrite <- Hl. by apply le_value_bound.
Qed.
End Eval.

(** Decomposes a parser along its binds. *)
Ltac sized_step :=
  first
  [ done
  | match goal with
    | |- sized (get_le _ ≫= _) => apply sized_get_le; [lia|intros ? ?]
    | |- sized (_ ≫= _) => apply sized_bind; [|intros ? _]
    | |- sized (if ?b then _ else _) => destruct b eqn:?
    | |- sized (match ?b with _ => _ end) => destruct b
    | |- sized (get_le _) => split; [lia|intros; exact I]
    | |- sized (get_be _) => split; [lia|intros; exact I]
    | |- sized (get_mem _) => split; [lia|intros; exact I]
    | |- sized (skip _) => split; [lia|exact I]
    | |- sized (attempt _) => split; [|split; intros; exact I]
    end ].

(** ** Reasoning on the bytes

    [wp p Q bs x]: on the bytes [bs] and the structs [x] the parser [p] is defined and
    its outcome satisfies [Q]. *)

Section Wp.
Context {X : Type}.

Definition wp {A} (p : parser X A) (Q : Z + A -> list Z -> X -> Prop) (bs : list Z) (x : X) : Prop :=
  match eval p bs x with Some (r, bs', x') => Q r bs' x' | None => False end.

(** The error goes through, a value goes on. *)
Definition on_value {A B} (k : A -> list Z -> X -> Prop) (Q : Z + B -> list Z -> X -> Prop)
    (r : Z + A) (bs : list Z) (x : X) : Prop :=
  match r with inl e => Q (inl e) bs x | inr a => k a bs x end.

Lemma wp_eval {A} (p : parser X A) Q bs x r bs' x' :
  wp p Q bs x -> eval p bs x = Some (r, bs', x') -> Q r bs' x'.
Proof. unfold wp. intros H E. by rewrite E in H. Qed.

Lemma wp_defined {A} (p : parser X A) Q bs x : wp p Q bs x -> is_Some (eval p bs x).
Proof. unfold wp. by destruct (eval p bs x). Qed.

Lemma wp_mono {A} (p : parser X A) (Q Q' : Z + A -> list Z -> X -> Prop) bs x :
  (forall r bs' x', Q r bs' x' -> Q' r bs' x') -> wp p Q bs x -> wp p Q' bs x.
Proof. unfold wp. intros H. destruct (eval p bs x) as [[[r bs'] x']|]; [apply H|done]. Qed.

Lemma wp_bind {A B} (p : parser X A) (f : A -> parser X B) Q bs x :
  wp p (on_value (fun a => wp (f a) Q) Q) bs x -> wp (p ≫= f) Q bs x.
Proof.
  unfold wp. rewrite eval_bind. by destruct (eval p bs x) as [[[[e|a] bs'] x']|].
Qed.

Lemma wp_ret {A} (a : A) (Q : Z + A -> list Z -> X -> Prop) bs x : Q (inr a) bs x -> wp (mret a) Q bs x.
Proof. done. Qed.

Lemma wp_fail {A} e (Q : Z + A -> list Z -> X -> Prop) bs x : Q (inl e) bs x -> wp (fail e) Q bs x.
Proof. done. Qed.

Lemma wp_look (Q : Z + X -> list Z -> X -> Prop) bs x : Q (inr x) bs x -> wp look Q bs x.
Proof. done. Qed.

Lemma wp_change f (Q : Z + unit -> list Z -> X -> Prop) bs x : Q (inr tt) bs (f x) -> wp (change f) Q bs x.
Proof. done. Qed.

Lemma wp_get_mem n (Q : Z + list Z -> list Z -> X -> Prop) bs x :
  ((n <= length bs)%nat -> Q (inr (take n bs)) (drop n bs) x) ->
  ((length bs < n)%nat -> Q (inl EBADRPC) [] x) -> wp (get_mem n) Q bs x.
Proof. intros H1 H2. unfold wp, get_mem. cbn [eval]. destruct (Nat.leb_spec n (length bs)); auto. Qed.

Lemma wp_get_le n (Q : Z + Z -> list Z -> X -> Prop) bs x :
  ((n <= length bs)%nat -> Q (inr (le_value (take n bs))) (drop n bs) x) ->
  ((length bs < n)%nat -> Q (inl EBADRPC) [] x) -> wp (get_le n) Q bs x.
Proof. intros H1 H2. unfold wp, get_le. cbn [eval]. destruct (Nat.leb_spec n (length bs)); auto. Qed.

Lemma wp_get_be n (Q : Z + Z -> list Z -> X -> Prop) bs x :
  ((n <= length bs)%nat -> Q (inr (be_value (take n bs))) (drop n bs) x) ->
  ((length bs < n)%nat -> Q (inl EBADRPC) [] x) -> wp (get_be n) Q bs x.
Proof. intros H1 H2. unfold wp, get_be. cbn [eval]. destruct (Nat.leb_spec n (length bs)); auto. Qed.

Lemma wp_skip n (Q : Z + unit -> list Z -> X -> Prop) bs x :
  (n <= Z.of_nat (length bs) -> Q (inr tt) (drop (Z.to_nat n) bs) x) ->
  (Z.of_nat (length bs) < n -> Q (inl EBADRPC) [] x) -> wp (skip n) Q bs x.
Proof. intros H1 H2. unfold wp, skip. cbn [eval]. destruct (Z.leb_spec n (Z.of_nat (length bs))); auto. Qed.

Lemma wp_shadow {A} (p : parser X A) Q bs x :
  wp p (fun r _ x' => Q r bs x') bs x -> wp (shadow p) Q bs x.
Proof. unfold wp, shadow. cbn [eval]. by destruct (eval p bs x) as [[[[e|a] ?] ?]|]. Qed.

Lemma wp_attempt {A} (p : parser X A) Q bs x :
  wp p (fun r bs' x' => Q (inr r) bs' x') bs x -> wp (attempt p) Q bs x.
Proof. unfold wp, attempt. cbn [eval]. by destruct (eval p bs x) as [[[r ?] ?]|]. Qed.
End Wp.

(** One step along the binds of a parser; a conditional is split. *)
Ltac wp_step :=
  first
  [ progress cbn [on_value]
  | match goal with
    | |- wp (_ ≫= _) _ _ _ => apply wp_bind
    | |- wp (mret _) _ _ _ => apply wp_ret
    | |- wp (fail _) _ _ _ => apply wp_fail
    | |- wp look _ _ _ => apply wp_look
    | |- wp (change _) _ _ _ => apply wp_change
    | |- wp (get_le _) _ _ _ => apply wp_get_le; intros ?
    | |- wp (get_be _) _ _ _ => apply wp_get_be; intros ?
    | |- wp (get_mem _) _ _ _ => apply wp_get_mem; intros ?
    | |- wp (skip _) _ _ _ => apply wp_skip; intros ?
    | |- wp (shadow _) _ _ _ => apply wp_shadow
    | |- wp (attempt _) _ _ _ => apply wp_attempt
    | |- wp (if ?b then _ else _) _ _ _ => let E := fresh "E" in destruct b eqn:E
    end ].

(** ** Reading what was laid out *)

(** [v] fits [n] bytes. *)
Definition fits (n : nat) (v : Z) : Prop := 0 <= v < 256 ^ Z.of_nat n.

Section Layout.
Context {X : Type}.

Lemma le_value_fits n v : fits n v -> le_value (le_bytes n v) = v.
Proof. intros Hv. rewrite le_value_bytes. by apply Z.mod_small. Qed.

Lemma eval_get_mem xs bs (x : X) n : length xs = n -> eval (get_mem n) (xs ++ bs) x = Some (inr xs, bs, x).
Proof.
  intros <-. unfold get_mem. cbn [eval]. rewrite (proj2 (Nat.leb_le _ _)) by (rewrite length_app; lia).
  by rewrite take_app_length, drop_app_length.
Qed.

Lemma eval_get_le n v bs (x : X) : fits n v -> eval (get_le n) (le_bytes n v ++ bs) x = Some (inr v, bs, x).
Proof.
  intros Hv. unfold get_le. cbn [eval].
  rewrite (proj2 (Nat.leb_le _ _)) by (rewrite length_app, length_le_bytes; lia).
  rewrite take_app_length', drop_app_length' by (by rewrite length_le_bytes). by rewrite le_value_fits.
Qed.

Lemma eval_get_be n v bs (x : X) : fits n v -> eval (get_be n) (be_bytes n v ++ bs) x = Some (inr v, bs, x).
Proof.
  intros Hv. unfold get_be. cbn [eval].
  rewrite (proj2 (Nat.leb_le _ _)) by (rewrite length_app, length_be_bytes; lia).
  rewrite take_app_length', drop_app_length' by (by rewrite length_be_bytes).
  rewrite be_value_bytes. by rewrite Z.mod_small.
Qed.

Lemma eval_skip n xs bs (x : X) : Z.of_nat (length xs) = n -> eval (skip n) (xs ++ bs) x = Some (inr tt, bs, x).
Proof.
  intros <-. unfold skip. cbn [eval]. rewrite (proj2 (Z.leb_le _ _)) by (rewrite length_app; lia).
  by rewrite Nat2Z.id, drop_app_length.
Qed.

Lemma eval_change f bs (x : X) : eval (change f) bs x = Some (inr tt, bs, f x).
Proof. done. Qed.

Lemma eval_attempt {A} (p : parser X A) bs x :
  eval (attempt p) bs x = match eval p bs x with Some (r, bs', x') => Some (inr r, bs', x') | None => None end.
Proof. done. Qed.

Lemma eval_check_size n bs (x : X) : fits 2 n -> eval (check_size n) (le_bytes 2 n ++ bs) x = Some (inr tt, bs, x).
Proof.
  intros Hn. unfold check_size. rewrite eval_bind, eval_get_le by done. by rewrite Z.eqb_refl.
Qed.
End Layout.

(** Evaluates the next read of a laid out field. *)
Ltac eval_step :=
  rewrite eval_bind;
  first [ rewrite eval_get_le by assumption | rewrite eval_get_be by assumption
        | rewrite eval_get_mem by assumption ]; cbv beta iota.

(** ** Parsers that are always defined, and whose errors are not 0 *)

Fixpoint safe {X A} (p : parser X A) : Prop :=
  match p with
  | Ret _ => True
  | Throw e => e <> 0
  | Undef => False
  | Get _ k => forall xs, safe (k xs)
  | Skip _ k => safe k
  | Shadow q k => safe q /\ forall b, safe (k b)
  | Try q k => safe q /\ forall b, safe (k b)
  | State _ k => forall x, safe (k x)
  end.

Lemma safe_eval {X A} (p : parser X A) bs x : safe p ->
  exists r bs' x', eval p bs x = Some (r, bs', x') /\ r <> inl 0.
Proof.
  revert bs x. induction p as [A a|A e|A|A n k IH|A n k IH|A B q IHq k IH|A B q IHq k IH|A f k IH];
    intros bs x Hp; cbn [eval safe] in *; try done; try (by apply IH).
  - by eexists _, _, _.
  - eexists _, _, _. split; [done|congruence].
  - destruct (_ <=? _)%nat; [by apply IH|by eexists _, _, _].
  - destruct (_ <=? _); [by apply IH|by eexists _, _, _].
  - destruct Hp as [Hq Hk]. destruct (IHq bs x Hq) as ([e|b] & ? & ? & -> & Hr); [|by apply IH].
    eexists _, _, _. split; [done|congruence].
  - destruct Hp as [Hq Hk]. destruct (IHq bs x Hq) as (r & ? & ? & -> & _). by apply IH.
Qed.

Lemma safe_bind {X A B} (p : parser X A) (f : A -> parser X B) :
  safe p -> (forall a, safe (f a)) -> safe (p ≫= f).
Proof.
  unfold mbind, parser_bind. intros Hp Hf.
  induction p as [A b|A e|A|A n k IH|A n k IH|A D q _ k IH|A D q _ k IH|A g k IH]; cbn [pbind safe] in *; try done;
    try (by auto); try (destruct Hp; by auto).
Qed.

Ltac defined_step :=
  first
  [ done
  | match goal with
    | |- safe (fail _) => discriminate
    | H : negb (?e =? 0) = true |- safe (fail ?e) => by intros ->
    | |- safe (_ ≫= _) => apply safe_bind; [|intros ?]
    | |- safe (if ?b then _ else _) => destruct b eqn:?
    | |- safe (match ?b with _ => _ end) => destruct b
    | |- safe (shadow _) => split; [|intros ?]
    | |- safe (get_le _) => intros ?
    | |- safe (get_mem _) => intros ?
    | |- safe look => intros ?
    end ].

Lemma run_defined {St D X A} `{Reader St D, !ReaderLaws St D} (p : parser X A) s d bs x :
  sized p -> safe p -> Forall is_byte bs -> r_holds s d bs ->
  exists r d' bs' x', run p s d x = Some (r, s, d', x') /\ r_holds s d' bs'.
Proof.
  intros Hz Hu Hb Hh. pose proof (run_eval p s d bs x Hz Hb Hh) as Hr.
  destruct (safe_eval p bs x Hu) as (r & bs' & x' & E & _). rewrite E in Hr.
  destruct Hr as (d' & -> & Hh'). by eexists _, _, _, _.
Qed.

(** ** A reference reader

    A chain as the count of the bytes read and the list of those left. *)

Definition list_reader : Reader unit (Z * list Z) := {|
  r_null := (0, []);
  r_done := fun _ => mret (0, []);
  r_get := fun d n =>
    if (n <=? length d.2)%nat then mret (0, (u64 (d.1 + Z.of_nat n), drop n d.2), take n d.2)
    else mret (EBADRPC, (d.1, []), []);
  r_skip := fun d n =>
    if n <=? Z.of_nat (length d.2) then mret (0, (u64 (d.1 + n), drop (Z.to_nat n) d.2))
    else mret (EBADRPC, (d.1, []));
  r_shadow := fun d => d;
  r_len := fst;
  r_holds := fun _ d bs => d.2 = bs
|}.

Lemma list_reader_laws : @ReaderLaws unit (Z * list Z) list_reader.
Proof.
  split; cbn; try done.
  - intros s [c d] bs n Hd Hn _. cbn in Hd. subst d. cbn.
    rewrite (proj2 (Nat.leb_le _ _)) by lia. by eexists.
  - intros s [c d] bs n Hd Hn _. cbn in Hd. subst d. cbn.
    destruct (Nat.leb_spec n (length bs)); [lia|]. by eexists _, _.
  - intros s [c d] bs n Hd Hn. cbn in Hd. subst d. cbn.
    destruct (Z.leb_spec n (Z.of_nat (length bs))); eexists; (split; [done|]); (split; [|done]); cbn; [done|].
    by rewrite drop_ge by lia.
Qed.
