(* ===== verification/Create.v ===== *)
(** * The reply to an SMB 2/3 create: [smb2_smb_parse_create] of [kernel/netsmb/smb_smb_2.c]

    A create reply fills in the request, brings a list of create contexts (maximal
    access, leases, durable handles, Apple extensions), and registers the FID of the
    server in the table of the share.  The structs a reply changes are [cstate]: the
    share with its FIDs ([Fid]), the request with the lease and the durable handle it
    points to ([Lease], [Brl]), and fields of the session. *)
From S2P Require Import Prelude Chain Parser Ntstatus Brl Lease.
From S2P Require Fid.
Import Errno.
Local Open Scope Z_scope.

Definition SMB2_CREATE_DURABLE_HANDLE_REQUEST := 0x44486e51.      (* DHnQ *)
Definition SMB2_CREATE_DURABLE_HANDLE_RECONNECT := 0x44486e43.    (* DHnC *)
Definition SMB2_CREATE_QUERY_MAXIMAL_ACCESS := 0x4d784163.        (* MxAc *)
Definition SMB2_CREATE_QUERY_ON_DISK_ID := 0x51466964.            (* QFid *)
Definition SMB2_CREATE_REQUEST_LEASE := 0x52714c73.               (* RqLs *)
Definition SMB2_CREATE_DURABLE_HANDLE_REQUEST_V2 := 0x44483251.   (* DH2Q *)
Definition SMB2_CREATE_DURABLE_HANDLE_RECONNECT_V2 := 0x44483243. (* DH2C *)
Definition SMB2_CREATE_AAPL := 0x4141504c.
Definition SMB2_DHANDLE_FLAG_PERSISTENT := 0x2.
Definition SMB2_LEASE_FLAG_PARENT_LEASE_KEY_SET := 0x4.
Definition SMB2_LEASE_PARENT_LEASE_KEY_SET := 0x2.
Definition SMB2_LEASE_FAIL := 0x80.
Definition SMB2_DURABLE_HANDLE_RECONNECT := 0x2.
Definition SMB2_PERSISTENT_HANDLE_RECONNECT := 0x10.
Definition SMB2_DURABLE_HANDLE_V2 := 0x40.
Definition SMB2_DURABLE_HANDLE_FAIL := 0x100.
Definition SMB2_CREATE_AAPL_QUERY := 0x10.
Definition SMB2_CREATE_DUR_HANDLE_RECONNECT := 0x80.
Definition SMB2_CREATE_ASSUME_DELETE := 0x100.
Definition SMB2_CREATE_HANDLE_RECONNECT := 0x200.
Definition SMB2_DELETE := 0x00010000.
Definition SA_RIGHT_FILE_ALL_ACCESS := 0x000001FF.
Definition STD_RIGHT_ALL_ACCESS := 0x001F0000.
Definition kAAPL_SERVER_QUERY := 1.
Definition kAAPL_RESOLVE_ID := 2.
Definition kAAPL_SERVER_CAPS := 0x01.
Definition kAAPL_VOLUME_CAPS := 0x02.
Definition kAAPL_MODEL_INFO := 0x04.
Definition kAAPL_SUPPORTS_OSX_COPYFILE := 0x02.
Definition kAAPL_UNIX_BASED := 0x04.
Definition kAAPL_SUPPORTS_HIFI := 0x20.
Definition SMBV_OSX_SERVER := 0x40.
Definition SMBV_OTHER_SERVER := 0x80.
Definition SMBV_HAS_COPYCHUNK := 0x800.
Definition SMBV_MNT_HIGH_FIDELITY := 0x00100000.
Definition SMBV_SFS_ACCESS := 0x08000000.
Definition SMB_CAP_UNIX := 0x00800000.
Definition SMB2_HDRLEN := 64.
Definition SMB_MAXFNAMELEN := 255.
Definition MAXPATHLEN := 1024.

(** ** Data *)

(** [create_contextp] is a [void *]: NULL, a [struct smb2_dur_hndl_and_lease] or a
    [struct smb2_create_ctx_resolve_id].  Reading one through a pointer to the other is
    undefined. *)
Inductive create_ctx :=
  | CtxNull
  | CtxDur (leasep : option smb2_lease) (dur_handlep : option smb2_durable_handle)
  | CtxResolve (ret_error : Z) (ret_path : option (list Z)).

Record smb2_create_rq := CreateRq {
  cr_flags : Z;
  create_contextp : create_ctx;
  ret_oplock_level : Z;
  ret_create_action : Z;
  ret_create_time : Z;
  ret_access_time : Z;
  ret_write_time : Z;
  ret_change_time : Z;
  ret_alloc_size : Z;
  ret_eof : Z;
  ret_attributes : Z;
  ret_fid : Z;
  ret_max_access : Z;
  ret_disk_file_id : Z;
  ret_volume_id : Z
}.
Definition set_cr_flags (x : Z) (r : smb2_create_rq) : smb2_create_rq :=
  CreateRq x (create_contextp r) (ret_oplock_level r) (ret_create_action r) (ret_create_time r)
    (ret_access_time r) (ret_write_time r) (ret_change_time r) (ret_alloc_size r) (ret_eof r)
    (ret_attributes r) (ret_fid r) (ret_max_access r) (ret_disk_file_id r) (ret_volume_id r).
Definition set_create_contextp (x : create_ctx) (r : smb2_create_rq) : smb2_create_rq :=
  CreateRq (cr_flags r) x (ret_oplock_level r) (ret_create_action r) (ret_create_time r)
    (ret_access_time r) (ret_write_time r) (ret_change_time r) (ret_alloc_size r) (ret_eof r)
    (ret_attributes r) (ret_fid r) (ret_max_access r) (ret_disk_file_id r) (ret_volume_id r).
Definition set_ret_oplock_level (x : Z) (r : smb2_create_rq) : smb2_create_rq :=
  CreateRq (cr_flags r) (create_contextp r) x (ret_create_action r) (ret_create_time r)
    (ret_access_time r) (ret_write_time r) (ret_change_time r) (ret_alloc_size r) (ret_eof r)
    (ret_attributes r) (ret_fid r) (ret_max_access r) (ret_disk_file_id r) (ret_volume_id r).
Definition set_ret_create_action (x : Z) (r : smb2_create_rq) : smb2_create_rq :=
  CreateRq (cr_flags r) (create_contextp r) (ret_oplock_level r) x (ret_create_time r)
    (ret_access_time r) (ret_write_time r) (ret_change_time r) (ret_alloc_size r) (ret_eof r)
    (ret_attributes r) (ret_fid r) (ret_max_access r) (ret_disk_file_id r) (ret_volume_id r).
Definition set_ret_create_time (x : Z) (r : smb2_create_rq) : smb2_create_rq :=
  CreateRq (cr_flags r) (create_contextp r) (ret_oplock_level r) (ret_create_action r) x
    (ret_access_time r) (ret_write_time r) (ret_change_time r) (ret_alloc_size r) (ret_eof r)
    (ret_attributes r) (ret_fid r) (ret_max_access r) (ret_disk_file_id r) (ret_volume_id r).
Definition set_ret_access_time (x : Z) (r : smb2_create_rq) : smb2_create_rq :=
  CreateRq (cr_flags r) (create_contextp r) (ret_oplock_level r) (ret_create_action r)
    (ret_create_time r) x (ret_write_time r) (ret_change_time r) (ret_alloc_size r) (ret_eof r)
    (ret_attributes r) (ret_fid r) (ret_max_access r) (ret_disk_file_id r) (ret_volume_id r).
Definition set_ret_write_time (x : Z) (r : smb2_create_rq) : smb2_create_rq :=
  CreateRq (cr_flags r) (create_contextp r) (ret_oplock_level r) (ret_create_action r)
    (ret_create_time r) (ret_access_time r) x (ret_change_time r) (ret_alloc_size r) (ret_eof r)
    (ret_attributes r) (ret_fid r) (ret_max_access r) (ret_disk_file_id r) (ret_volume_id r).
Definition set_ret_change_time (x : Z) (r : smb2_create_rq) : smb2_create_rq :=
  CreateRq (cr_flags r) (create_contextp r) (ret_oplock_level r) (ret_create_action r)
    (ret_create_time r) (ret_access_time r) (ret_write_time r) x (ret_alloc_size r) (ret_eof r)
    (ret_attributes r) (ret_fid r) (ret_max_access r) (ret_disk_file_id r) (ret_volume_id r).
Definition set_ret_alloc_size (x : Z) (r : smb2_create_rq) : smb2_create_rq :=
  CreateRq (cr_flags r) (create_contextp r) (ret_oplock_level r) (ret_create_action r)
    (ret_create_time r) (ret_access_time r) (ret_write_time r) (ret_change_time r) x (ret_eof r)
    (ret_attributes r) (ret_fid r) (ret_max_access r) (ret_disk_file_id r) (ret_volume_id r).
Definition set_ret_eof (x : Z) (r : smb2_create_rq) : smb2_create_rq :=
  CreateRq (cr_flags r) (create_contextp r) (ret_oplock_level r) (ret_create_action r)
    (ret_create_time r) (ret_access_time r) (ret_write_time r) (ret_change_time r) (ret_alloc_size
    r) x (ret_attributes r) (ret_fid r) (ret_max_access r) (ret_disk_file_id r) (ret_volume_id r).
Definition set_ret_attributes (x : Z) (r : smb2_create_rq) : smb2_create_rq :=
  CreateRq (cr_flags r) (create_contextp r) (ret_oplock_level r) (ret_create_action r)
    (ret_create_time r) (ret_access_time r) (ret_write_time r) (ret_change_time r) (ret_alloc_size
    r) (ret_eof r) x (ret_fid r) (ret_max_access r) (ret_disk_file_id r) (ret_volume_id r).
Definition set_ret_fid (x : Z) (r : smb2_create_rq) : smb2_create_rq :=
  CreateRq (cr_flags r) (create_contextp r) (ret_oplock_level r) (ret_create_action r)
    (ret_create_time r) (ret_access_time r) (ret_write_time r) (ret_change_time r) (ret_alloc_size
    r) (ret_eof r) (ret_attributes r) x (ret_max_access r) (ret_disk_file_id r) (ret_volume_id r).
Definition set_ret_max_access (x : Z) (r : smb2_create_rq) : smb2_create_rq :=
  CreateRq (cr_flags r) (create_contextp r) (ret_oplock_level r) (ret_create_action r)
    (ret_create_time r) (ret_access_time r) (ret_write_time r) (ret_change_time r) (ret_alloc_size
    r) (ret_eof r) (ret_attributes r) (ret_fid r) x (ret_disk_file_id r) (ret_volume_id r).
Definition set_ret_disk_file_id (x : Z) (r : smb2_create_rq) : smb2_create_rq :=
  CreateRq (cr_flags r) (create_contextp r) (ret_oplock_level r) (ret_create_action r)
    (ret_create_time r) (ret_access_time r) (ret_write_time r) (ret_change_time r) (ret_alloc_size
    r) (ret_eof r) (ret_attributes r) (ret_fid r) (ret_max_access r) x (ret_volume_id r).
Definition set_ret_volume_id (x : Z) (r : smb2_create_rq) : smb2_create_rq :=
  CreateRq (cr_flags r) (create_contextp r) (ret_oplock_level r) (ret_create_action r)
    (ret_create_time r) (ret_access_time r) (ret_write_time r) (ret_change_time r) (ret_alloc_size
    r) (ret_eof r) (ret_attributes r) (ret_fid r) (ret_max_access r) (ret_disk_file_id r) x.

Record session := Ses {
  session_flags : Z;
  session_misc_flags : Z;
  session_server_caps : Z;
  session_volume_caps : Z;
  sv_caps : Z;  (* SESSION_CAPS *)
  session_model_info : list Z
}.
Definition set_session_flags (x : Z) (r : session) : session :=
  Ses x (session_misc_flags r) (session_server_caps r) (session_volume_caps r) (sv_caps r)
    (session_model_info r).
Definition set_session_misc_flags (x : Z) (r : session) : session :=
  Ses (session_flags r) x (session_server_caps r) (session_volume_caps r) (sv_caps r)
    (session_model_info r).
Definition set_session_server_caps (x : Z) (r : session) : session :=
  Ses (session_flags r) (session_misc_flags r) x (session_volume_caps r) (sv_caps r)
    (session_model_info r).
Definition set_session_volume_caps (x : Z) (r : session) : session :=
  Ses (session_flags r) (session_misc_flags r) (session_server_caps r) x (sv_caps r)
    (session_model_info r).
Definition set_sv_caps (x : Z) (r : session) : session :=
  Ses (session_flags r) (session_misc_flags r) (session_server_caps r) (session_volume_caps r) x
    (session_model_info r).
Definition set_session_model_info (x : list Z) (r : session) : session :=
  Ses (session_flags r) (session_misc_flags r) (session_server_caps r) (session_volume_caps r)
    (sv_caps r) x.


Record cstate := CState { c_share : Fid.smb_share; c_rq : smb2_create_rq; c_ses : session }.

Definition on_rq (f : smb2_create_rq -> smb2_create_rq) (x : cstate) : cstate :=
  CState (c_share x) (f (c_rq x)) (c_ses x).
Definition on_ses (f : session -> session) (x : cstate) : cstate :=
  CState (c_share x) (c_rq x) (f (c_ses x)).
Definition on_ctx (f : create_ctx -> create_ctx) : cstate -> cstate :=
  on_rq (fun r => set_create_contextp (f (create_contextp r)) r).
Definition on_lease (f : smb2_lease -> smb2_lease) : cstate -> cstate :=
  on_ctx (fun c => match c with CtxDur l d => CtxDur (f <$> l) d | _ => c end).
Definition on_dur (f : smb2_durable_handle -> smb2_durable_handle) : cstate -> cstate :=
  on_ctx (fun c => match c with CtxDur l d => CtxDur l (f <$> d) | _ => c end).

Definition lease_flags (set : Z) (l : smb2_lease) : smb2_lease := set_l_flags (Z.lor (l_flags l) set) l.

(** [flags |= set; flags &= ~clear] of a durable handle. *)
Definition dur_flags_to (set clear : Z) (d : smb2_durable_handle) : smb2_durable_handle :=
  Dur (clear_bits (Z.lor (dur_flags d) set) clear) (dur_fid d) (dur_timeout d) (dur_create_guid d).
Definition set_dur_timeout (t : Z) (d : smb2_durable_handle) : smb2_durable_handle :=
  Dur (dur_flags d) (dur_fid d) t (dur_create_guid d).

(** What the kernel provides: the conversions of names from UTF-16 and the outcome of
    allocations. *)
Class Kernel := {
  smbfs_ntwrkname_tolocal : list Z -> option (list Z);
  smb_convert_network_to_path : list Z -> Z + list Z;
  malloc_ok : Z -> bool;
  malloc_fid_node : bool
}.

Section Create.
Context `{Kernel}.

(** [dur_hndl_leasep = createp->create_contextp]. *)
Definition dur_hndl_leasep : parser cstate (option smb2_lease * option smb2_durable_handle) :=
  x ← look;
  match create_contextp (c_rq x) with
  | CtxNull => fail EBADRPC
  | CtxDur l d => mret (l, d)
  | CtxResolve _ _ => Undef
  end.

Definition the_lease : parser cstate smb2_lease :=
  '(l, _) ← dur_hndl_leasep; match l with Some l => mret l | None => fail EBADRPC end.
Definition the_dur_handle : parser cstate smb2_durable_handle :=
  '(_, d) ← dur_hndl_leasep; match d with Some d => mret d | None => fail EBADRPC end.

(** ** Strings *)

(** The error and what is stored through [ret_str], if anything. *)
Definition smb2_smb_parse_create_str (is_path : bool) : parser cstate (Z * option (option (list Z))) :=
  r ← attempt (
    str_len ← get_le 4;
    let max_len := if is_path then MAXPATHLEN * 2 else SMB_MAXFNAMELEN * 2 in
    if str_len =? 0 then mret (0, Some None)
    else if max_len <? str_len then fail EBADRPC
    else if negb (malloc_ok str_len) then fail ENOMEM
    else
      network_str ← get_mem (Z.to_nat str_len);
      mret (if is_path then
              if malloc_ok (str_len * 9 + 1) then
                match smb_convert_network_to_path network_str with
                | inl e => (e, Some None)
                | inr s => (0, Some (Some s))
                end
              else (ENOMEM, Some None)
            else
              match smbfs_ntwrkname_tolocal network_str with
              | None => (EBADRPC, Some None)
              | Some s => (0, Some (Some s))
              end));
  mret (match r with inl e => (e, None) | inr v => v end).

(** ** The contexts *)

Definition ctx_query_on_disk_id (data_len : Z) : parser cstate unit :=
  if negb (data_len =? 32) then fail EBADRPC else
  id ← get_le 8;
  change (on_rq (set_ret_disk_file_id id));;
  vol ← get_le 8;
  change (on_rq (set_ret_volume_id vol));;
  _ ← get_le 8;
  _ ← get_le 8;
  mret tt.

Definition ctx_max_access (data_len : Z) : parser cstate unit :=
  if negb (data_len =? 8) then fail EBADRPC else
  max_access_status ← get_le 4;
  if negb (max_access_status =? 0) then mret tt else
  max_access ← get_le 4;
  change (on_rq (fun r => set_ret_max_access
    (if has (cr_flags r) SMB2_CREATE_ASSUME_DELETE then Z.lor max_access SMB2_DELETE else max_access) r)).

(** A reconnected handle is granted with its lease. *)
Definition grant_reconnect (d : smb2_durable_handle) : smb2_durable_handle :=
  if has (dur_flags d) SMB2_PERSISTENT_HANDLE_RECONNECT
  then dur_flags_to SMB2_PERSISTENT_HANDLE_GRANTED SMB2_PERSISTENT_HANDLE_RECONNECT d
  else if has (dur_flags d) SMB2_DURABLE_HANDLE_RECONNECT
  then dur_flags_to SMB2_DURABLE_HANDLE_GRANTED SMB2_DURABLE_HANDLE_RECONNECT d
  else d.

(** The answer is of version [v2], the request may have been of the other one. *)
Definition check_lease_version (v2 : bool) (l : smb2_lease) : smb2_lease :=
  if Bool.eqb (has (l_flags l) SMB2_LEASE_V2) v2 then l else lease_flags SMB2_LEASE_FAIL l.

Definition ctx_lease (data_len : Z) : parser cstate unit :=
  l ← the_lease;
  if negb (data_len =? 32) && negb (data_len =? 52) then fail EBADRPC else
  hi ← get_le 8;
  low ← get_le 8;
  if negb (hi =? lease_key_hi l) || negb (low =? lease_key_low l) then fail EBADRPC else
  new_lease_state ← get_le 4;
  flags ← get_le 4;
  change (on_lease (fun l => if has flags SMB2_LEASE_FLAG_PARENT_LEASE_KEY_SET
                             then lease_flags SMB2_LEASE_PARENT_LEASE_KEY_SET l else l));;
  _ ← get_le 8;
  (if data_len =? 52 then
     _ ← get_le 8;
     _ ← get_le 8;
     server_epoch ← get_le 2;
     change (on_lease (set_l_state new_lease_state server_epoch));;
     _ ← get_le 2;
     change (on_lease (check_lease_version true))
   else
     change (on_lease (fun l => check_lease_version false (set_l_state new_lease_state (epoch l) l))));;
  change (on_dur grant_reconnect);;
  change (on_lease (lease_flags SMB2_LEASE_GRANTED)).

Definition ctx_dur_handle (data_len : Z) : parser cstate unit :=
  _ ← the_dur_handle;
  if negb (data_len =? 8) then fail EBADRPC else
  _ ← get_le 8;
  change (on_dur (fun d =>
    dur_flags_to (Z.lor SMB2_DURABLE_HANDLE_GRANTED
                    (if has (dur_flags d) SMB2_DURABLE_HANDLE_V2 then SMB2_DURABLE_HANDLE_FAIL else 0))
      SMB2_DURABLE_HANDLE_REQUEST d)).

(** What is granted for a version 2 request. *)
Definition grant_v2 (flags : Z) (d : smb2_durable_handle) : smb2_durable_handle :=
  let d1 := if has (dur_flags d) SMB2_DURABLE_HANDLE_V2 then d
            else dur_flags_to SMB2_DURABLE_HANDLE_FAIL 0 d in
  if has (dur_flags d1) SMB2_PERSISTENT_HANDLE_REQUEST then
    if has flags SMB2_DHANDLE_FLAG_PERSISTENT
    then dur_flags_to SMB2_PERSISTENT_HANDLE_GRANTED SMB2_PERSISTENT_HANDLE_REQUEST d1
    else dur_flags_to SMB2_DURABLE_HANDLE_GRANTED SMB2_DURABLE_HANDLE_REQUEST d1
  else if has flags SMB2_DHANDLE_FLAG_PERSISTENT then d1
  else dur_flags_to SMB2_DURABLE_HANDLE_GRANTED SMB2_DURABLE_HANDLE_REQUEST d1.

Definition ctx_dur_handle_v2 (data_len : Z) : parser cstate unit :=
  _ ← the_dur_handle;
  if negb (data_len =? 8) then fail EBADRPC else
  timeout ← get_le 4;
  change (on_dur (set_dur_timeout timeout));;
  flags ← get_le 4;
  change (on_dur (grant_v2 flags)).

(** The capabilities of an OS X server are taken over. *)
Definition note_server_caps (s : session) : session :=
  let caps := session_server_caps s in
  let s1 := if has caps kAAPL_UNIX_BASED then set_sv_caps (Z.lor (sv_caps s) SMB_CAP_UNIX) s else s in
  let s2 := if has caps kAAPL_SUPPORTS_OSX_COPYFILE
            then set_session_misc_flags (Z.lor (session_misc_flags s1) SMBV_HAS_COPYCHUNK) s1 else s1 in
  if has caps kAAPL_SUPPORTS_HIFI && has (session_flags s2) SMBV_SFS_ACCESS
  then set_session_misc_flags (Z.lor (session_misc_flags s2) SMBV_MNT_HIGH_FIDELITY) s2 else s2.

(** A C string, up to its NUL. *)
Fixpoint cstr (s : list Z) : list Z :=
  match s with [] => [] | c :: r => if c =? 0 then [] else c :: cstr r end.

(** [strlcpy] into [session_model_info\[80\]]. *)
Definition model_info (s : option (list Z)) : list Z :=
  match s with None => [] | Some s => take 79 (cstr s) end.

Definition aapl_server_query (data_len : Z) : parser cstate unit :=
  if data_len <? 16 then fail EBADRPC else
  server_bitmap ← get_le 8;
  let opt bit := if has server_bitmap bit then 8 else 0 in
  if data_len <? 16 + opt kAAPL_SERVER_CAPS + opt kAAPL_VOLUME_CAPS + opt kAAPL_MODEL_INFO
  then fail EBADRPC else
  (if has server_bitmap kAAPL_SERVER_CAPS then
     caps ← get_le 8; change (on_ses (set_session_server_caps caps))
   else mret tt);;
  change (on_ses note_server_caps);;
  (if has server_bitmap kAAPL_VOLUME_CAPS then
     caps ← get_le 8; change (on_ses (set_session_volume_caps caps))
   else mret tt);;
  (if has server_bitmap kAAPL_MODEL_INFO then
     _ ← get_le 4;
     '(_, str) ← smb2_smb_parse_create_str false;
     change (on_ses (set_session_model_info (model_info (default None str))))
   else mret tt);;
  change (on_ses (fun s => set_session_misc_flags (Z.lor (session_misc_flags s) SMBV_OSX_SERVER) s)).

Definition aapl_resolve_id (data_len : Z) : parser cstate unit :=
  x ← look;
  match create_contextp (c_rq x) with
  | CtxNull => fail EBADRPC
  | CtxDur _ _ => Undef
  | CtxResolve _ _ =>
      if data_len <? 16 then fail EBADRPC else
      ntstatus ← get_le 4;
      change (on_ctx (fun c => match c with
        | CtxResolve _ p => CtxResolve (smb_ntstatus_to_errno ntstatus) p | _ => c end));;
      '(_, str) ← smb2_smb_parse_create_str true;
      change (on_ctx (fun c => match c with
        | CtxResolve e p => CtxResolve e (default p str) | _ => c end))
  end.

Definition ctx_aapl (data_len : Z) : parser cstate unit :=
  if data_len <? 8 then fail EBADRPC else
  sub_command ← get_le 4;
  _ ← get_le 4;
  if sub_command =? kAAPL_SERVER_QUERY then aapl_server_query data_len
  else if sub_command =? kAAPL_RESOLVE_ID then aapl_resolve_id data_len
  else fail EBADRPC.

(** The switch over the name of a context. *)
Definition ctx_body (name data_len : Z) : parser cstate unit :=
  if name =? SMB2_CREATE_QUERY_ON_DISK_ID then ctx_query_on_disk_id data_len
  else if name =? SMB2_CREATE_QUERY_MAXIMAL_ACCESS then ctx_max_access data_len
  else if name =? SMB2_CREATE_REQUEST_LEASE then ctx_lease data_len
  else if name =? SMB2_CREATE_DURABLE_HANDLE_REQUEST then ctx_dur_handle data_len
  else if name =? SMB2_CREATE_DURABLE_HANDLE_REQUEST_V2 then ctx_dur_handle_v2 data_len
  else if name =? SMB2_CREATE_DURABLE_HANDLE_RECONNECT then mret tt
  else if name =? SMB2_CREATE_DURABLE_HANDLE_RECONNECT_V2 then mret tt
  else if name =? SMB2_CREATE_AAPL then ctx_aapl data_len
  else fail EBADRPC.

(** One context, read from a shadow of the chain: the distance to the next. *)
Definition create_context : parser cstate Z :=
  next ← get_le 4;
  _ ← get_le 2;
  name_len ← get_le 2;
  if negb (name_len =? 4) then fail EBADRPC else
  _ ← get_le 2;
  _ ← get_le 2;
  data_len ← get_le 4;
  name ← get_be 4;
  _ ← get_le 4;
  ctx_body name data_len;;
  mret next.

Fixpoint contexts_loop (fuel : nat) : parser cstate unit :=
  match fuel with
  | O => Undef
  | S k =>
      next ← shadow create_context;
      if next =? 0 then mret tt else skip next;; contexts_loop k
  end.

Definition smb2_smb_parse_create_contexts (fuel : nat) (ret_context_offset : Z) : parser cstate unit :=
  (if 0 <? ret_context_offset then skip (u32 (u32 (ret_context_offset - SMB2_HDRLEN) - 88)) else mret tt);;
  contexts_loop fuel.

(** ** The reply *)

Definition register_fid (sf : Fid.SMB2FID) : parser cstate unit :=
  x ← look;
  if has (cr_flags (c_rq x)) (Z.lor SMB2_CREATE_DUR_HANDLE_RECONNECT SMB2_CREATE_HANDLE_RECONNECT) then
    d ← the_dur_handle;
    let '(e, share) := Fid.smb_fid_update_kernel_fid (Some (c_share x)) (dur_fid d) sf in
    change (fun x => CState (default (c_share x) share) (c_rq x) (c_ses x));;
    if e =? 0 then change (on_rq (set_ret_fid (dur_fid d))) else fail e
  else
    let '(e, f, share) := Fid.smb_fid_get_user_fid (Some (c_share x)) sf malloc_fid_node in
    change (fun x => CState (default (c_share x) share)
                       (match f with Some f => set_ret_fid f (c_rq x) | None => c_rq x end) (c_ses x));;
    if e =? 0 then mret tt else fail e.

(** "Did we try to see if this is an OS X server and fail?" *)
Definition note_other_server (x : cstate) : cstate :=
  if has (cr_flags (c_rq x)) SMB2_CREATE_AAPL_QUERY && negb (has (session_misc_flags (c_ses x)) SMBV_OSX_SERVER)
  then on_ses (fun s => set_session_misc_flags (Z.lor (session_misc_flags s) SMBV_OTHER_SERVER) s) x
  else x.

(** The fields of the reply up to the contexts: the FID, and the offset and length of the
    contexts. *)
Definition create_fixed : parser cstate (Fid.SMB2FID * Z * Z) :=
  check_size 89;;
  v ← get_le 1; change (on_rq (set_ret_oplock_level v));;
  _ ← get_le 1;
  v ← get_le 4; change (on_rq (set_ret_create_action v));;
  v ← get_le 8; change (on_rq (set_ret_create_time v));;
  v ← get_le 8; change (on_rq (set_ret_access_time v));;
  v ← get_le 8; change (on_rq (set_ret_write_time v));;
  v ← get_le 8; change (on_rq (set_ret_change_time v));;
  v ← get_le 8; change (on_rq (set_ret_alloc_size v));;
  v ← get_le 8; change (on_rq (set_ret_eof v));;
  v ← get_le 4; change (on_rq (set_ret_attributes v));;
  _ ← get_le 4;
  persistent ← get_le 8;
  volatile ← get_le 8;
  ret_context_offset ← get_le 4;
  ret_context_length ← get_le 4;
  mret (Fid.mk_fid persistent volatile, ret_context_offset, ret_context_length).

Definition smb2_smb_parse_create (fuel : nat) : parser cstate unit :=
  '(sf, ret_context_offset, ret_context_length) ← create_fixed;
  change (on_rq (set_ret_max_access (Z.lor SA_RIGHT_FILE_ALL_ACCESS STD_RIGHT_ALL_ACCESS)));;
  (if 0 <? ret_context_length then smb2_smb_parse_create_contexts fuel ret_context_offset else mret tt);;
  change note_other_server;;
  register_fid sf.
End Create.
