(* ===== verification/CreateTheorems.v ===== *)
(** * The reply to a create: theorems

    When parsing the reply is defined, what it keeps of the state, and what it finds. *)
From S2P Require Import Prelude Chain Ntstatus Brl Lease Parser Create.
From S2P Require Fid.
Import Errno.
Local Open Scope Z_scope.

(** ** The kind of the context the request points to *)

Inductive ctx_kind := KNull | KDur | KResolve.

Definition kind_of (c : create_ctx) : ctx_kind :=
  match c with CtxNull => KNull | CtxDur _ _ => KDur | CtxResolve _ _ => KResolve end.
Definition kind (x : cstate) : ctx_kind := kind_of (create_contextp (c_rq x)).

(** What parsing the contexts leaves alone. *)
Definition kept (x : cstate) : ctx_kind * Z * Fid.smb_share := (kind x, cr_flags (c_rq x), c_share x).

Lemma kept_on_ctx f x : (forall c, kind_of (f c) = kind_of c) -> kept (on_ctx f x) = kept x.
Proof. intros Hf. unfold kept, kind. cbn. by rewrite Hf. Qed.

Lemma kept_on_lease f x : kept (on_lease f x) = kept x.
Proof. apply kept_on_ctx. by intros []. Qed.

Lemma kept_on_dur f x : kept (on_dur f x) = kept x.
Proof. apply kept_on_ctx. by intros []. Qed.

(** The contexts of a reply that read [create_contextp] as the other struct. *)
Definition confusing (k : ctx_kind) (name sub_command : Z) : Prop :=
  match k with
  | KNull => False
  | KDur => name = SMB2_CREATE_AAPL /\ sub_command = kAAPL_RESOLVE_ID
  | KResolve => name = SMB2_CREATE_REQUEST_LEASE \/ name = SMB2_CREATE_DURABLE_HANDLE_REQUEST
                \/ name = SMB2_CREATE_DURABLE_HANDLE_REQUEST_V2
  end.

Section Defined.
Context `{Kernel}.

Lemma wp_dur_hndl Q bs x : kind x <> KResolve ->
  (forall l d, create_contextp (c_rq x) = CtxDur l d -> Q (inr (l, d)) bs x) ->
  Q (inl EBADRPC) bs x -> wp dur_hndl_leasep Q bs x.
Proof.
  unfold dur_hndl_leasep, kind. intros Hk H1 H2. repeat wp_step.
  destruct (create_contextp (c_rq x)); by repeat wp_step; auto.
Qed.

Lemma wp_the_lease Q bs x : kind x <> KResolve ->
  (forall l d, create_contextp (c_rq x) = CtxDur (Some l) d -> Q (inr l) bs x) ->
  Q (inl EBADRPC) bs x -> wp the_lease Q bs x.
Proof.
  intros Hk H1 H2. unfold the_lease. apply wp_bind, wp_dur_hndl; [done| |done].
  intros [l|] d E; [by eapply H1|done].
Qed.

Lemma wp_the_dur Q bs x : kind x <> KResolve ->
  (forall l d, create_contextp (c_rq x) = CtxDur l (Some d) -> Q (inr d) bs x) ->
  Q (inl EBADRPC) bs x -> wp the_dur_handle Q bs x.
Proof.
  intros Hk H1 H2. unfold the_dur_handle. apply wp_bind, wp_dur_hndl; [done| |done].
  intros l [d|] E; [by eapply H1|done].
Qed.

Lemma wp_create_str b Q bs x : (forall v bs', Q (inr v) bs' x) -> wp (smb2_smb_parse_create_str b) Q bs x.
Proof.
  intros HQ. unfold smb2_smb_parse_create_str. repeat wp_step; apply HQ.
Qed.

Definition same {A} (x : cstate) (_ : Z + A) (_ : list Z) (x' : cstate) : Prop := kept x' = kept x.

Lemma body_defined name len bs x :
  ~ confusing (kind x) name (le_value (take 4 bs)) -> wp (ctx_body name len) (same x) bs x.
Proof.
  intros HC. unfold ctx_body.
  destruct (Z.eqb_spec name SMB2_CREATE_QUERY_ON_DISK_ID) as [->|_].
  { unfold ctx_query_on_disk_id. repeat wp_step; done. }
  destruct (Z.eqb_spec name SMB2_CREATE_QUERY_MAXIMAL_ACCESS) as [->|_].
  { unfold ctx_max_access. repeat wp_step; done. }
  destruct (Z.eqb_spec name SMB2_CREATE_REQUEST_LEASE) as [->|_].
  { unfold ctx_lease. apply wp_bind, wp_the_lease; [intros E; apply HC; rewrite E; by left| |done].
    intros l d E. repeat wp_step; unfold same; rewrite ?kept_on_lease, ?kept_on_dur, ?kept_on_lease; done. }
  destruct (Z.eqb_spec name SMB2_CREATE_DURABLE_HANDLE_REQUEST) as [->|_].
  { unfold ctx_dur_handle. apply wp_bind, wp_the_dur; [intros E; apply HC; rewrite E; by right; left| |done].
    intros l d E. repeat wp_step; unfold same; rewrite ?kept_on_dur; done. }
  destruct (Z.eqb_spec name SMB2_CREATE_DURABLE_HANDLE_REQUEST_V2) as [->|_].
  { unfold ctx_dur_handle_v2. apply wp_bind, wp_the_dur; [intros E; apply HC; rewrite E; by right; right| |done].
    intros l d E. repeat wp_step; unfold same; rewrite ?kept_on_dur; done. }
  destruct (name =? SMB2_CREATE_DURABLE_HANDLE_RECONNECT); [by wp_step|].
  destruct (name =? SMB2_CREATE_DURABLE_HANDLE_RECONNECT_V2); [by wp_step|].
  destruct (Z.eqb_spec name SMB2_CREATE_AAPL) as [->|_]; [|by wp_step].
  unfold ctx_aapl. repeat wp_step; try done.
  - unfold aapl_server_query. repeat wp_step; try done; apply wp_create_str; intros [? ?] ?; by repeat wp_step.
  - unfold aapl_resolve_id. repeat wp_step.
    destruct (create_contextp (c_rq x)) eqn:Ec; [by wp_step| |].
    + destruct HC. unfold kind. rewrite Ec. split; [done|]. by apply Z.eqb_eq.
    + repeat wp_step; try done.
      apply wp_create_str. intros [e' str] bs'. repeat wp_step.
      unfold same. rewrite kept_on_ctx by (by intros []). by apply kept_on_ctx; intros [].
Qed.

(** No context of the reply, wherever it starts, reads the request as the other
    struct. *)
Definition reply_fits (k : ctx_kind) (bs : list Z) : Prop :=
  forall i, ~ confusing k (be_value (take 4 (drop (i + 16) bs))) (le_value (take 4 (drop (i + 24) bs))).

Lemma reply_fits_drop k n bs : reply_fits k bs -> reply_fits k (drop n bs).
Proof.
  intros HF i. rewrite !drop_drop. specialize (HF (n + i)%nat).
  by rewrite <- !Nat.add_assoc in HF.
Qed.

Lemma create_context_defined bs x :
  reply_fits (kind x) bs ->
  wp create_context (fun r _ x' => kept x' = kept x /\ forall v, r = inr v -> v = le_value (take 4 bs)) bs x.
Proof.
  intros HF. unfold create_context. repeat wp_step; try done.
  eapply wp_mono; [|apply body_defined].
  - intros [e|[]] bs' x' Hk; [done|]. repeat wp_step. split; [done|]. by intros v [= <-].
  - rewrite !drop_drop. apply (HF 0%nat).
Qed.

Lemma contexts_loop_defined fuel bs x :
  Forall is_byte bs -> reply_fits (kind x) bs -> (length bs < fuel)%nat ->
  wp (contexts_loop fuel) (same x) bs x.
Proof.
  revert bs x. induction fuel as [|k IH]; intros bs x Hb HF Hl; [lia|]. cbn [contexts_loop].
  apply wp_bind, wp_shadow. eapply wp_mono; [|by apply create_context_defined].
  intros [e|next] bs1 x1 [Hk Hv]; [done|]. wp_step. specialize (Hv next eq_refl).
  destruct (Z.eqb_spec next 0) as [|Hn]; [by wp_step|]. repeat wp_step; try done.
  assert (0 <= next) by (rewrite Hv; by apply le_value_bound, list.Forall_take).
  eapply wp_mono; [|apply IH].
  - intros r bs2 x2 E. unfold same in *. congruence.
  - by apply list.Forall_drop.
  - injection Hk as -> _ _. by apply reply_fits_drop.
  - rewrite length_drop. lia.
Qed.

(** A reconnect is asked for with a durable handle. *)
Definition request_ok (x : cstate) : Prop :=
  has (cr_flags (c_rq x)) (Z.lor SMB2_CREATE_DUR_HANDLE_RECONNECT SMB2_CREATE_HANDLE_RECONNECT) = true ->
  kind x <> KResolve.

Lemma register_defined sf bs x : request_ok x -> wp (register_fid sf) (fun _ _ _ => True) bs x.
Proof.
  intros HR. unfold register_fid. repeat wp_step.
  - apply wp_the_dur; [by apply HR| |done]. intros l d Ed. wp_step.
    destruct (Fid.smb_fid_update_kernel_fid _ _ _) as [e share]. by repeat wp_step.
  - destruct (Fid.smb_fid_get_user_fid _ _ _) as [[e f] share]. by repeat wp_step.
Qed.

(** The FID of the server in a reply. *)
Definition reply_fid (bs : list Z) : Fid.SMB2FID :=
  Fid.mk_fid (le_value (take 8 (drop 64 bs))) (le_value (take 8 (drop 72 bs))).

(** The fixed part of the reply, before the contexts. *)
Lemma create_fixed_spec bs x :
  wp create_fixed (fun r bs' x' => kept x' = kept x /\ create_contextp (c_rq x') = create_contextp (c_rq x) /\
      c_ses x' = c_ses x /\ (exists n, bs' = drop n bs) /\
      match r with inr (sf, _, _) => sf = reply_fid bs | inl e => e <> 0 end) bs x.
Proof.
  unfold create_fixed, check_size.
  repeat wp_step; (split; [done|]); (split; [done|]); (split; [done|]);
    rewrite ?drop_drop; (split; [|done]); try (by eexists); by exists (length bs); rewrite drop_all.
Qed.
End Defined.

(** * The reply to a create: theorems *)

Section Sized.
Context `{Kernel}.

Lemma sized_str b {B} (f : Z * option (option (list Z)) -> parser cstate B) :
  (forall v, sized (f v)) -> sized (smb2_smb_parse_create_str b ≫= f).
Proof.
  intros Hf. unfold smb2_smb_parse_create_str. apply sized_bind; [|by intros].
  split; [|by split].  apply sized_get_le; [lia|]. intros v Hv.
  change (256 ^ Z.of_nat 4) with (2 ^ 32) in Hv.
  repeat match goal with |- sized (if ?b then _ else _) => destruct b end; try done.
  split; [|intros; exact I]. rewrite Z2Nat.id by lia. lia.
Qed.

Ltac sized_tac :=
  repeat first
  [ match goal with |- sized (smb2_smb_parse_create_str _ ≫= _) => apply sized_str; intros [? ?] end
  | sized_step ].

Lemma sized_body name len : sized (ctx_body name len).
Proof.
  unfold ctx_body, ctx_query_on_disk_id, ctx_max_access, ctx_lease, ctx_dur_handle, ctx_dur_handle_v2,
    ctx_aapl, aapl_server_query, aapl_resolve_id, the_lease, the_dur_handle, dur_hndl_leasep.
  sized_tac.
Qed.

Lemma may_context v : may create_context v -> 0 <= v < 2 ^ 32.
Proof.
  unfold create_context. intros (next & Hn & Hv)%may_bind.
  apply may_get_le in Hn. change (256 ^ Z.of_nat 4) with (2 ^ 32) in Hn.
  repeat first [apply may_bind in Hv as (? & _ & Hv) | destruct (negb _) in Hv]; [done|].
  by rewrite Hv.
Qed.

Lemma sized_context : sized create_context.
Proof. unfold create_context. sized_tac. apply sized_body. Qed.

Lemma sized_contexts_loop fuel : sized (contexts_loop fuel).
Proof.
  induction fuel as [|k IH]; cbn [contexts_loop]; [done|]. apply sized_bind; [by split; [apply sized_context|]|].
  intros v (w & Hw & Ew). cbn in Ew. subst v. apply may_context in Hw. destruct (w =? 0); [done|].
  apply sized_bind; [split; [lia|done]|by intros].
Qed.

Lemma sized_create fuel : sized (smb2_smb_parse_create fuel).
Proof.
  unfold smb2_smb_parse_create. apply sized_bind; [unfold create_fixed, check_size; sized_tac|].
  intros [[sf off] len] _. apply sized_bind; [done|]. intros _ _. apply sized_bind.
  - destruct (0 <? len); [|done]. unfold smb2_smb_parse_create_contexts. apply sized_bind.
    + destruct (0 <? off); [|done]. split; [|done]. pose proof (u32_range (u32 (off - SMB2_HDRLEN) - 88)). lia.
    + intros _ _. apply sized_contexts_loop.
  - intros _ _. unfold register_fid, the_dur_handle, dur_hndl_leasep. sized_tac;
      destruct (Fid.smb_fid_update_kernel_fid _ _ _) as [? ?] || destruct (Fid.smb_fid_get_user_fid _ _ _) as [[? ?] ?];
      sized_tac.
Qed.
End Sized.

(** ** Parsing a reply is defined *)

Section Safe.
Context `{Kernel} {St D : Type} `{Reader St D} `{!ReaderLaws St D}.

(** The reply is parsed up to the registration of its FID. *)
Lemma create_wp fuel Q bs x :
  Forall is_byte bs -> reply_fits (kind x) bs -> (length bs < fuel)%nat ->
  (forall e bs' x', kept x' = kept x -> Q (inl e) bs' x') ->
  (forall bs' x', kept x' = kept x -> wp (register_fid (reply_fid bs)) Q bs' x') ->
  wp (smb2_smb_parse_create fuel) Q bs x.
Proof.
  intros Hb HF Hl HE HG. unfold smb2_smb_parse_create. apply wp_bind.
  eapply wp_mono; [|apply create_fixed_spec]. intros r bs1 x1 (Hk & _ & _ & (n & ->) & Hr).
  destruct r as [e|[[sf off] len]]; [by apply HE|]. subst sf. cbn [on_value]. apply wp_bind, wp_change. cbn [on_value].
  set (x2 := on_rq _ x1). assert (Hk2 : kept x2 = kept x) by exact Hk. clearbody x2.
  assert (HC : forall bs' x', kept x' = kept x ->
    wp (change note_other_server;; register_fid (reply_fid bs)) Q bs' x').
  { intros bs' x' Hk'. apply wp_bind, wp_change. cbn [on_value]. apply HG.
    rewrite <- Hk'. unfold note_other_server. by destruct (_ && _). }
  apply wp_bind. destruct (0 <? len); [|wp_step; by apply HC].
  unfold smb2_smb_parse_create_contexts. apply wp_bind.
  assert (HL : forall m, wp (contexts_loop fuel)
     (on_value (fun _ => wp (change note_other_server;; register_fid (reply_fid bs)) Q) Q)
     (drop m bs) x2).
  { intros m. eapply wp_mono; [|apply contexts_loop_defined].
    - intros [e|[]] bs2 x3 E; cbn [on_value]; [apply HE|apply HC]; unfold same in E; congruence.
    - by apply list.Forall_drop.
    - injection Hk2 as -> _ _. by apply reply_fits_drop.
    - rewrite length_drop. lia. }
  destruct (0 <? off); repeat wp_step; try (by apply HE); rewrite ?drop_drop; apply HL.
Qed.

Lemma request_ok_kept x x' : kept x' = kept x -> request_ok x -> request_ok x'.
Proof. intros E. injection E as E1 E2 _. unfold request_ok. by rewrite E1, E2. Qed.

(** C31: whatever bytes a server sends as the reply to a create, parsing them ends and
    reads nothing outside of the reply, unless a context of the reply makes the code
    read the context of the request as the wrong struct. *)
Theorem create_reply_defined fuel s d bs x :
  r_holds s d bs -> Forall is_byte bs -> request_ok x -> reply_fits (kind x) bs -> (length bs < fuel)%nat ->
  exists r d' x' bs', run (smb2_smb_parse_create fuel) s d x = Some (r, s, d', x') /\ r_holds s d' bs'.
Proof.
  intros Hh Hb HR HF Hl.
  assert (wp (smb2_smb_parse_create fuel) (fun _ _ _ => True) bs x) as [[[r bs'] x'] E]%wp_defined.
  { apply create_wp; try done. intros bs' x' Hk. by apply register_defined, (request_ok_kept x). }
  pose proof (run_eval (smb2_smb_parse_create fuel) s d bs x (sized_create fuel) Hb Hh) as HR2.
  rewrite E in HR2. destruct HR2 as (d' & ER & Hh'). by exists r, d', x', bs'.
Qed.

(** What a reply does to the FIDs of the share. *)
Definition is_reconnect (r : smb2_create_rq) : bool :=
  has (cr_flags r) (Z.lor SMB2_CREATE_DUR_HANDLE_RECONNECT SMB2_CREATE_HANDLE_RECONNECT).

Definition fids_after (x : cstate) (sf : Fid.SMB2FID) (r : Z + unit) (x' : cstate) : Prop :=
  let old := Fid.abs (c_share x) in
  let new := Fid.abs (c_share x') in
  let f := ret_fid (c_rq x') in
  match r with
  | inl _ => forall g, new g = old g
  | inr _ =>
      if is_reconnect (c_rq x)
      then exists l d top rest, create_contextp (c_rq x') = CtxDur l (Some d) /\ f = dur_fid d /\
             old f = top :: rest /\ forall g, new g = if g =? f then sf :: rest else old g
      else f = Fid.user_fid sf /\ forall g, new g = if g =? f then sf :: old g else old g
  end.

Lemma register_spec sf bs x : Fid.table_ok (c_share x) -> request_ok x ->
  wp (register_fid sf) (fun r _ x' => Fid.table_ok (c_share x') /\ fids_after x sf r x') bs x.
Proof.
  intros Hok HR. unfold register_fid, fids_after. apply wp_bind, wp_look. cbn [on_value].
  fold (is_reconnect (c_rq x)). destruct (is_reconnect (c_rq x)) eqn:Er.
  - apply wp_bind, wp_the_dur; [by apply HR| |done]. intros l d Ed. cbn [on_value].
    destruct (Fid.update_kernel_fid_abs (c_share x) (dur_fid d) sf Hok) as (s' & -> & Hok' & Ha).
    apply wp_bind, wp_change. cbn [on_value]. destruct (decide _) as [Hn|Hn].
    + apply wp_fail. split; [done|]. intros g. cbn. rewrite Ha. rewrite Hn. by destruct (Z.eqb_spec g (dur_fid d)) as [->|].
    + apply wp_change. split; [done|]. cbn. destruct (Fid.abs (c_share x) (dur_fid d)) as [|top rest] eqn:E; [done|].
      by exists l, d, top, rest.
  - unfold Fid.smb_fid_get_user_fid. destruct malloc_fid_node; apply wp_bind, wp_change; cbn [on_value Z.eqb].
    + apply wp_ret. destruct (Fid.insert_abs (c_share x) (Fid.mk_node (Fid.user_fid sf) sf) Hok). by split.
    + by apply wp_fail.
Qed.

(** A create reply registers exactly its FID: a reply that fails to parse leaves the
    table of FIDs as it was; a reply to a plain create pushes the FID of the server
    under the FID that is returned; a reply to a reconnect replaces the FID of the
    server under the FID that the client already has.  No other FID is touched. *)
Theorem create_registers_fid fuel bs x :
  Fid.table_ok (c_share x) -> Forall is_byte bs -> request_ok x -> reply_fits (kind x) bs -> (length bs < fuel)%nat ->
  exists r bs' x', eval (smb2_smb_parse_create fuel) bs x = Some (r, bs', x') /\
    Fid.table_ok (c_share x') /\ fids_after x (reply_fid bs) r x'.
Proof.
  intros Hok Hb HR HF Hl.
  assert (HW : wp (smb2_smb_parse_create fuel)
    (fun r _ x' => Fid.table_ok (c_share x') /\ fids_after x (reply_fid bs) r x') bs x).
  { apply create_wp; try done.
    - intros e bs' x' E. injection E as _ _ Es. rewrite Es. split; [done|]. cbn. by rewrite Es.
    - intros bs' x' E. pose proof (request_ok_kept _ _ E HR) as HR'. injection E as _ E2 E3.
      rewrite <- E3 in Hok. eapply wp_mono; [|exact (register_spec _ _ _ Hok HR')].
      intros r bs2 x2. unfold fids_after, is_reconnect. by rewrite E2, E3. }
  unfold wp in HW. destruct (eval _ bs x) as [[[r bs'] x']|]; [|done]. by exists r, bs', x'.
Qed.
End Safe.
