(* ===== verification/CreateRound.v ===== *)
(** * The reply to a create: what is laid out is parsed

    A create reply as [MS-SMB2] 2.2.14 lays it out, with its contexts, is parsed to its
    fields; the FID of the server is registered. *)
From S2P Require Import Prelude Chain Ntstatus Brl Lease Parser Create CreateTheorems.
From S2P Require Fid.
Import Errno.
Local Open Scope Z_scope.

(** ** Layout *)

(** The contexts of a reply that the code knows. *)
Inductive rctx :=
  | RMaxAccess (status access : Z)
  | RDiskId (id vol : Z)
  | RLease (hi low state flags : Z)
  | RLeaseV2 (hi low state flags par_hi par_low ep : Z)
  | RDurable
  | RDurableV2 (timeout flags : Z).

Definition rctx_name (c : rctx) : Z :=
  match c with
  | RMaxAccess _ _ => SMB2_CREATE_QUERY_MAXIMAL_ACCESS
  | RDiskId _ _ => SMB2_CREATE_QUERY_ON_DISK_ID
  | RLease _ _ _ _ | RLeaseV2 _ _ _ _ _ _ _ => SMB2_CREATE_REQUEST_LEASE
  | RDurable => SMB2_CREATE_DURABLE_HANDLE_REQUEST
  | RDurableV2 _ _ => SMB2_CREATE_DURABLE_HANDLE_REQUEST_V2
  end.

Definition rctx_data (c : rctx) : list Z :=
  match c with
  | RMaxAccess status access => le_bytes 4 status ++ le_bytes 4 access
  | RDiskId id vol => le_bytes 8 id ++ le_bytes 8 vol ++ le_bytes 8 0 ++ le_bytes 8 0
  | RLease hi low state flags => le_bytes 8 hi ++ le_bytes 8 low ++ le_bytes 4 state ++ le_bytes 4 flags ++ le_bytes 8 0
  | RLeaseV2 hi low state flags ph pl ep =>
      le_bytes 8 hi ++ le_bytes 8 low ++ le_bytes 4 state ++ le_bytes 4 flags ++ le_bytes 8 0 ++
      le_bytes 8 ph ++ le_bytes 8 pl ++ le_bytes 2 ep ++ le_bytes 2 0
  | RDurable => le_bytes 8 0
  | RDurableV2 timeout flags => le_bytes 4 timeout ++ le_bytes 4 flags
  end.

Definition rctx_fits (c : rctx) : Prop :=
  match c with
  | RMaxAccess status access => fits 4 status /\ fits 4 access
  | RDiskId id vol => fits 8 id /\ fits 8 vol
  | RLease hi low state flags => fits 8 hi /\ fits 8 low /\ fits 4 state /\ fits 4 flags
  | RLeaseV2 hi low state flags ph pl ep =>
      fits 8 hi /\ fits 8 low /\ fits 4 state /\ fits 4 flags /\ fits 8 ph /\ fits 8 pl /\ fits 2 ep
  | RDurable => True
  | RDurableV2 timeout flags => fits 4 timeout /\ fits 4 flags
  end.

(** What the client needs to have asked for. *)
Definition rctx_asked (c : rctx) (x : cstate) : Prop :=
  match c with
  | RMaxAccess _ _ | RDiskId _ _ => True
  | RLease hi low _ _ | RLeaseV2 hi low _ _ _ _ _ =>
      exists l d, create_contextp (c_rq x) = CtxDur (Some l) d /\ lease_key_hi l = hi /\ lease_key_low l = low
  | RDurable | RDurableV2 _ _ => exists l d, create_contextp (c_rq x) = CtxDur l (Some d)
  end.

(** What it does to the structs. *)
Definition take_lease (flags : Z) (f : smb2_lease -> smb2_lease) (x : cstate) : cstate :=
  on_lease (lease_flags SMB2_LEASE_GRANTED) (on_dur grant_reconnect (on_lease f
    (on_lease (fun l => if has flags SMB2_LEASE_FLAG_PARENT_LEASE_KEY_SET
                        then lease_flags SMB2_LEASE_PARENT_LEASE_KEY_SET l else l) x))).

Definition rctx_apply (c : rctx) (x : cstate) : cstate :=
  match c with
  | RMaxAccess status access =>
      if status =? 0 then on_rq (fun r => set_ret_max_access
        (if has (cr_flags r) SMB2_CREATE_ASSUME_DELETE then Z.lor access SMB2_DELETE else access) r) x
      else x
  | RDiskId id vol => on_rq (set_ret_volume_id vol) (on_rq (set_ret_disk_file_id id) x)
  | RLease _ _ state flags =>
      take_lease flags (fun l => check_lease_version false (set_l_state state (epoch l) l)) x
  | RLeaseV2 _ _ state flags _ _ ep =>
      on_lease (lease_flags SMB2_LEASE_GRANTED) (on_dur grant_reconnect
        (on_lease (check_lease_version true) (on_lease (set_l_state state ep)
          (on_lease (fun l => if has flags SMB2_LEASE_FLAG_PARENT_LEASE_KEY_SET
                              then lease_flags SMB2_LEASE_PARENT_LEASE_KEY_SET l else l) x))))
  | RDurable => on_dur (fun d =>
      dur_flags_to (Z.lor SMB2_DURABLE_HANDLE_GRANTED
                      (if has (dur_flags d) SMB2_DURABLE_HANDLE_V2 then SMB2_DURABLE_HANDLE_FAIL else 0))
        SMB2_DURABLE_HANDLE_REQUEST d) x
  | RDurableV2 timeout flags => on_dur (grant_v2 flags) (on_dur (set_dur_timeout timeout) x)
  end.

Section Round.
Context `{Kernel}.

Ltac zero_fits := match goal with |- fits _ 0 => unfold fits; cbn; lia | _ => assumption end.
Ltac field := rewrite eval_bind; rewrite eval_get_le by zero_fits; cbv beta iota.
Ltac chg := match goal with |- context [eval (change _ ≫= _)] => idtac end; rewrite eval_bind; cbn [eval change]; cbv beta iota.

Lemma eval_the_lease l d bs x : create_contextp (c_rq x) = CtxDur (Some l) d ->
  eval the_lease bs x = Some (inr l, bs, x).
Proof. intros E. unfold the_lease, dur_hndl_leasep. by rewrite !eval_bind; cbn; rewrite E. Qed.

Lemma eval_the_dur l d bs x : create_contextp (c_rq x) = CtxDur l (Some d) ->
  eval the_dur_handle bs x = Some (inr d, bs, x).
Proof. intros E. unfold the_dur_handle, dur_hndl_leasep. by rewrite !eval_bind; cbn; rewrite E. Qed.

Lemma ctx_body_run c rest x : rctx_fits c -> rctx_asked c x ->
  exists bs', eval (ctx_body (rctx_name c) (Z.of_nat (length (rctx_data c)))) (rctx_data c ++ rest) x =
    Some (inr tt, bs', rctx_apply c x).
Proof.
  destruct c as [status access|id vol|hi low state flags|hi low state flags ph pl ep| |timeout flags];
    cbn [rctx_fits rctx_asked rctx_data rctx_name rctx_apply].
  - intros [? ?] _. change (ctx_body _ _) with (ctx_max_access 8). unfold ctx_max_access. cbn [negb Z.eqb Pos.eqb].
    rewrite <- !app_assoc. field. destruct (status =? 0); cbn [negb]; [|by eexists]. field. by eexists.
  - intros [? ?] _. change (ctx_body _ _) with (ctx_query_on_disk_id 32). unfold ctx_query_on_disk_id.
    cbn [negb Z.eqb Pos.eqb]. rewrite <- !app_assoc. field. chg. field. chg. field. field. by eexists.
  - intros (? & ? & ? & ?) (l & d & Ex & <- & <-). change (ctx_body _ _) with (ctx_lease 32).
    unfold ctx_lease. rewrite eval_bind, (eval_the_lease l d) by done. cbv beta iota. cbn [negb andb Z.eqb Pos.eqb].
    rewrite <- !app_assoc. field. field. rewrite !Z.eqb_refl. cbn [negb orb]. field. field. chg. field. by eexists.
  - intros (? & ? & ? & ? & ? & ? & ?) (l & d & Ex & <- & <-). change (ctx_body _ _) with (ctx_lease 52).
    unfold ctx_lease. rewrite eval_bind, (eval_the_lease l d) by done. cbv beta iota. cbn [negb andb Z.eqb Pos.eqb].
    rewrite <- !app_assoc. field. field. rewrite !Z.eqb_refl. cbn [negb orb]. field. field. chg. field.
    rewrite eval_bind. field. field. field. chg. field. by eexists.
  - intros _ (l & d & Ex). change (ctx_body _ _) with (ctx_dur_handle 8). unfold ctx_dur_handle.
    rewrite eval_bind, (eval_the_dur l d) by done. cbv beta iota. cbn [negb Z.eqb Pos.eqb]. field. by eexists.
  - intros [? ?] (l & d & Ex). change (ctx_body _ _) with (ctx_dur_handle_v2 8). unfold ctx_dur_handle_v2.
    rewrite eval_bind, (eval_the_dur l d) by done. cbv beta iota. cbn [negb Z.eqb Pos.eqb].
    rewrite <- !app_assoc. field. chg. field. by eexists.
Qed.

(** ** The list of contexts *)

(** Data is padded to a multiple of eight. *)
Definition pad8 (xs : list Z) : list Z := xs ++ replicate (Z.to_nat ((- Z.of_nat (length xs)) `mod` 8)) 0.

Definition rctx_bytes (next : Z) (c : rctx) : list Z :=
  le_bytes 4 next ++ le_bytes 2 16 ++ le_bytes 2 4 ++ le_bytes 2 0 ++ le_bytes 2 24 ++
  le_bytes 4 (Z.of_nat (length (rctx_data c))) ++ be_bytes 4 (rctx_name c) ++ le_bytes 4 0 ++ pad8 (rctx_data c).

Definition rctx_size (c : rctx) : Z := 24 + Z.of_nat (length (pad8 (rctx_data c))).

Fixpoint rctxs_bytes (cs : list rctx) : list Z :=
  match cs with
  | [] => []
  | [c] => rctx_bytes 0 c
  | c :: r => rctx_bytes (rctx_size c) c ++ rctxs_bytes r
  end.

Definition rctxs_apply (cs : list rctx) (x : cstate) : cstate := fold_left (fun x c => rctx_apply c x) cs x.

(** Each context was asked for when it is met. *)
Fixpoint rctxs_asked (cs : list rctx) (x : cstate) : Prop :=
  match cs with [] => True | c :: r => rctx_fits c /\ rctx_asked c x /\ rctxs_asked r (rctx_apply c x) end.

Lemma rctx_data_len c : (length (rctx_data c) <= 52)%nat.
Proof. destruct c; cbn [rctx_data]; len. Qed.

Lemma rctx_size_fits c : fits 4 (rctx_size c) /\ 0 < rctx_size c.
Proof.
  unfold rctx_size, pad8, fits. rewrite length_app, length_replicate. pose proof (rctx_data_len c).
  pose proof (Z.mod_pos_bound (- Z.of_nat (length (rctx_data c))) 8 ltac:(lia)). change (256 ^ Z.of_nat 4) with (2 ^ 32). lia.
Qed.

Lemma length_rctx_bytes next c : Z.of_nat (length (rctx_bytes next c)) = rctx_size c.
Proof. unfold rctx_bytes, rctx_size. rewrite !length_app, !length_le_bytes, length_be_bytes. lia. Qed.

Lemma context_run next c rest x : fits 4 next -> rctx_fits c -> rctx_asked c x ->
  exists bs', eval create_context (rctx_bytes next c ++ rest) x = Some (inr next, bs', rctx_apply c x).
Proof.
  intros Hn Hf Ha. unfold create_context, rctx_bytes. rewrite <- !app_assoc.
  assert (fits 2 16 /\ fits 2 4 /\ fits 2 24) as (? & ? & ?) by (unfold fits; cbn; lia).
  assert (fits 4 (Z.of_nat (length (rctx_data c)))).
  { pose proof (rctx_data_len c). unfold fits. change (256 ^ Z.of_nat 4) with (2 ^ 32). lia. }
  assert (fits 4 (rctx_name c)) by (destruct c; vm_compute; split; congruence).
  field. field. field. cbn [negb Z.eqb Pos.eqb]. field. field. field.
  rewrite eval_bind, eval_get_be by done. cbv beta iota. field.
  unfold pad8. rewrite <- app_assoc. rewrite eval_bind.
  set (pad := replicate _ 0). destruct (ctx_body_run c (pad ++ rest) x Hf Ha) as (bs' & ->). by eexists.
Qed.

Lemma contexts_run fuel cs c x : (length (c :: cs) <= fuel)%nat -> rctxs_asked (c :: cs) x ->
  exists bs', eval (contexts_loop fuel) (rctxs_bytes (c :: cs)) x = Some (inr tt, bs', rctxs_apply (c :: cs) x).
Proof.
  revert fuel c x. induction cs as [|c2 cs IH]; intros [|k] c x Hl (Hf & Ha & Hr); cbn [length] in Hl; try lia;
    cbn [contexts_loop rctxs_apply fold_left]; rewrite eval_bind; unfold shadow; cbn [eval].
  - destruct (context_run 0 c [] x) as (bs' & E); [unfold fits; cbn; lia|done..|].
    rewrite app_nil_r in E. change (rctxs_bytes [c]) with (rctx_bytes 0 c). rewrite E. by eexists.
  - destruct (rctx_size_fits c) as [Hs Hp].
    destruct (context_run (rctx_size c) c (rctxs_bytes (c2 :: cs)) x Hs Hf Ha) as (bs' & E).
    change (rctxs_bytes (c :: c2 :: cs)) with (rctx_bytes (rctx_size c) c ++ rctxs_bytes (c2 :: cs)).
    rewrite E. rewrite (proj2 (Z.eqb_neq (rctx_size c) 0)) by lia.
    rewrite eval_bind, eval_skip by apply length_rctx_bytes. apply IH; [cbn [length]; lia|done].
Qed.

(** ** The reply *)

Record fields := Fields {
  f_oplock : Z; f_action : Z; f_crtime : Z; f_atime : Z; f_wtime : Z; f_chtime : Z;
  f_alloc : Z; f_eof : Z; f_attr : Z; f_persistent : Z; f_volatile : Z
}.

Definition fields_fit (f : fields) : Prop :=
  fits 1 (f_oplock f) /\ fits 4 (f_action f) /\ fits 8 (f_crtime f) /\ fits 8 (f_atime f) /\ fits 8 (f_wtime f) /\
  fits 8 (f_chtime f) /\ fits 8 (f_alloc f) /\ fits 8 (f_eof f) /\ fits 4 (f_attr f) /\
  fits 8 (f_persistent f) /\ fits 8 (f_volatile f).


(** The fixed part of the reply. *)
Definition fixed_bytes (f : fields) (offset len : Z) : list Z :=
  le_bytes 2 89 ++ le_bytes 1 (f_oplock f) ++ le_bytes 1 0 ++ le_bytes 4 (f_action f) ++
  le_bytes 8 (f_crtime f) ++ le_bytes 8 (f_atime f) ++ le_bytes 8 (f_wtime f) ++ le_bytes 8 (f_chtime f) ++
  le_bytes 8 (f_alloc f) ++ le_bytes 8 (f_eof f) ++ le_bytes 4 (f_attr f) ++ le_bytes 4 0 ++
  le_bytes 8 (f_persistent f) ++ le_bytes 8 (f_volatile f) ++ le_bytes 4 offset ++ le_bytes 4 len.

(** The contexts follow the 88 bytes of the fixed part at once. *)
Definition reply_bytes (f : fields) (cs : list rctx) : list Z :=
  fixed_bytes f (match cs with [] => 0 | _ => 152 end) (Z.of_nat (length (rctxs_bytes cs))) ++ rctxs_bytes cs.

Definition the_fid (f : fields) : Fid.SMB2FID := Fid.mk_fid (f_persistent f) (f_volatile f).

(** The request with the fields of the reply. *)
Definition filled (f : fields) : cstate -> cstate :=
  on_rq (fun r => CreateRq (cr_flags r) (create_contextp r) (f_oplock f) (f_action f) (f_crtime f) (f_atime f)
    (f_wtime f) (f_chtime f) (f_alloc f) (f_eof f) (f_attr f) (ret_fid r)
    (Z.lor SA_RIGHT_FILE_ALL_ACCESS STD_RIGHT_ALL_ACCESS) (ret_disk_file_id r) (ret_volume_id r)).

Definition registered (sf : Fid.SMB2FID) (x : cstate) : cstate :=
  CState (Fid.smb_fid_insert_new_node (c_share x) (Fid.mk_node (Fid.user_fid sf) sf))
    (set_ret_fid (Fid.user_fid sf) (c_rq x)) (c_ses x).

Lemma kept_apply c x : kept (rctx_apply c x) = kept x.
Proof.
  destruct c; cbn [rctx_apply]; unfold take_lease; rewrite ?kept_on_lease, ?kept_on_dur, ?kept_on_lease, ?kept_on_dur; try done.
  by destruct (_ =? 0).
Qed.

Lemma kept_applies cs x : kept (rctxs_apply cs x) = kept x.
Proof.
  revert x. induction cs as [|c cs IH]; intros x; [done|]. cbn [rctxs_apply fold_left].
  etransitivity; [apply IH|apply kept_apply].
Qed.

Lemma register_run sf bs x : malloc_fid_node = true ->
  has (cr_flags (c_rq x)) (Z.lor SMB2_CREATE_DUR_HANDLE_RECONNECT SMB2_CREATE_HANDLE_RECONNECT) = false ->
  eval (register_fid sf) bs x = Some (inr tt, bs, registered sf x).
Proof.
  intros Hm Hf. unfold register_fid. rewrite eval_bind. cbn [eval look]. cbv beta iota. rewrite Hf.
  unfold Fid.smb_fid_get_user_fid. rewrite Hm. done.
Qed.

Lemma note_other_flags x : cr_flags (c_rq (note_other_server x)) = cr_flags (c_rq x).
Proof. unfold note_other_server. by destruct (_ && _). Qed.

Lemma length_rctxs_bytes cs : (length cs <= 1000)%nat -> fits 4 (Z.of_nat (length (rctxs_bytes cs))).
Proof.
  assert (H1 : Z.of_nat (length (rctxs_bytes cs)) <= 100 * Z.of_nat (length cs)).
  { induction cs as [|c cs IH]; [cbn; lia|]. pose proof (rctx_data_len c).
    assert (rctx_size c <= 100).
    { unfold rctx_size, pad8. rewrite length_app, length_replicate.
      pose proof (Z.mod_pos_bound (- Z.of_nat (length (rctx_data c))) 8 ltac:(lia)). lia. }
    destruct cs as [|c2 cs].
    - change (rctxs_bytes [c]) with (rctx_bytes 0 c). rewrite length_rctx_bytes. cbn [length]. lia.
    - change (rctxs_bytes (c :: c2 :: cs)) with (rctx_bytes (rctx_size c) c ++ rctxs_bytes (c2 :: cs)).
      rewrite length_app. pose proof (length_rctx_bytes (rctx_size c) c). cbn [length] in *. lia. }
  intros Hl. unfold fits. change (256 ^ Z.of_nat 4) with (2 ^ 32). lia.
Qed.

Lemma fixed_run f offset len rest x : fields_fit f -> fits 4 offset -> fits 4 len ->
  exists x', eval create_fixed (fixed_bytes f offset len ++ rest) x = Some (inr (the_fid f, offset, len), rest, x') /\
    on_rq (set_ret_max_access (Z.lor SA_RIGHT_FILE_ALL_ACCESS STD_RIGHT_ALL_ACCESS)) x' = filled f x.
Proof.
  intros (? & ? & ? & ? & ? & ? & ? & ? & ? & ? & ?) ? ?. assert (fits 2 89) by (unfold fits; cbn; lia).
  unfold create_fixed, check_size, fixed_bytes. rewrite <- !app_assoc. rewrite eval_bind. field.
  cbn [negb Z.eqb Pos.eqb eval mret parser_ret]. do 15 (field; try chg).
  eexists. split; [done|]. by destruct x as [? [] ?].
Qed.

(** C37: a create reply with the layout of [MS-SMB2], whose contexts were asked for, is
    parsed to exactly its fields: the request is filled in, every context takes its
    effect, and the FID of the server is registered under the FID that is returned. *)
Theorem create_reply_roundtrip f cs fuel x :
  fields_fit f -> (length cs <= fuel)%nat -> (length cs <= 1000)%nat -> malloc_fid_node = true ->
  has (cr_flags (c_rq x)) (Z.lor SMB2_CREATE_DUR_HANDLE_RECONNECT SMB2_CREATE_HANDLE_RECONNECT) = false ->
  rctxs_asked cs (filled f x) ->
  exists bs', eval (smb2_smb_parse_create fuel) (reply_bytes f cs) x =
    Some (inr tt, bs', registered (the_fid f) (note_other_server (rctxs_apply cs (filled f x)))).
Proof.
  intros Hf Hl H1000 Hm Hfl Ha. pose proof (length_rctxs_bytes cs H1000) as Hlen.
  unfold smb2_smb_parse_create, reply_bytes. rewrite eval_bind.
  destruct (fixed_run f (match cs with [] => 0 | _ => 152 end) (Z.of_nat (length (rctxs_bytes cs))) (rctxs_bytes cs) x)
    as (x' & -> & Ex); [done|by destruct cs; unfold fits; cbn; lia|done|].
  cbv beta iota. chg. rewrite Ex.
  assert (HR : forall bs, eval (change note_other_server;; register_fid (the_fid f)) bs (rctxs_apply cs (filled f x)) =
    Some (inr tt, bs, registered (the_fid f) (note_other_server (rctxs_apply cs (filled f x))))).
  { intros bs. chg. apply register_run; [done|]. rewrite note_other_flags.
    pose proof (kept_applies cs (filled f x)) as E. injection E as _ -> _. exact Hfl. }
  rewrite eval_bind. destruct cs as [|c cs].
  { cbn [length Z.of_nat Z.ltb Z.compare rctxs_bytes eval mret parser_ret]. eexists. apply HR. }
  assert (0 < Z.of_nat (length (rctxs_bytes (c :: cs)))) as Hp.
  { destruct (rctx_size_fits c) as [_ Hs]. cbn [rctxs_bytes].
    destruct cs; rewrite ?length_app; match goal with |- context [rctx_bytes ?n c] => pose proof (length_rctx_bytes n c) end; lia. }
  rewrite (proj2 (Z.ltb_lt _ _)) by lia. unfold smb2_smb_parse_create_contexts. rewrite eval_bind.
  change (u32 (u32 (152 - SMB2_HDRLEN) - 88)) with 0. change (0 <? 152) with true. cbv iota.
  rewrite (eval_skip 0 [] (rctxs_bytes (c :: cs))) by done.
  destruct (contexts_run fuel cs c (filled f x) Hl Ha) as (bs' & ->). eexists. apply HR.
Qed.
End Round.

(** * The reply to a create: concrete replies *)

#[export] Instance confusing_dec k name sub : Decision (confusing k name sub).
Proof. destruct k; apply _. Defined.

(** Past the end of the reply nothing is read. *)
Lemma reply_fits_check k bs :
  Forall (fun i => ~ confusing k (be_value (take 4 (drop (i + 16) bs))) (le_value (take 4 (drop (i + 24) bs))))
    (seq 0 (length bs)) -> reply_fits k bs.
Proof.
  intros HF i. destruct (decide (i < length bs)%nat) as [Hi|Hi].
  - rewrite list.Forall_forall in HF. apply HF. apply elem_of_seq. lia.
  - rewrite !(drop_ge bs) by lia. destruct k; cbn; intuition discriminate.
Qed.

(** Names are not converted, no allocation fails. *)
Definition demo_kernel : Kernel := {|
  smbfs_ntwrkname_tolocal := Some;
  smb_convert_network_to_path := inr;
  malloc_ok := fun _ => true;
  malloc_fid_node := true
|}.

Definition demo_lease : smb2_lease := Lease 0 0 0 1 2 0 0 0 0 0 0.
Definition demo_dur : smb2_durable_handle := Dur (Z.lor SMB2_DURABLE_HANDLE_REQUEST SMB2_DURABLE_HANDLE_V2) 0 0 [].

Definition demo_rq (ctx : create_ctx) : smb2_create_rq := CreateRq 0 ctx 0 0 0 0 0 0 0 0 0 0 0 0 0.
Definition demo_state (ctx : create_ctx) : cstate :=
  CState Fid.empty_share (demo_rq ctx) (Ses 0 0 0 0 0 []).

Definition demo_fields : fields := Fields 0xff 1 10 20 30 40 4096 100 0x80 0x1234 0x5678.
Definition demo_ctxs : list rctx := [RMaxAccess 0 0x1f01ff; RLease 1 2 7 0; RDurableV2 60000 0].

Definition demo_asked : cstate := demo_state (CtxDur (Some demo_lease) (Some demo_dur)).
Definition demo_reply : list Z := reply_bytes demo_fields demo_ctxs.

Lemma demo_bytes : Forall is_byte demo_reply.
Proof. apply (bool_decide_eq_true_1 _). vm_compute. reflexivity. Qed.

Lemma demo_fits : reply_fits KDur demo_reply.
Proof. apply reply_fits_check, (bool_decide_eq_true_1 _). vm_compute. reflexivity. Qed.

Lemma create_reply_defined_witness :
  exists r d' x' bs', @run _ _ list_reader _ _ (@smb2_smb_parse_create demo_kernel 300) tt (0, demo_reply) demo_asked
    = Some (r, tt, d', x') /\ @r_holds _ _ list_reader tt d' bs'.
Proof.
  apply (@create_reply_defined demo_kernel _ _ list_reader list_reader_laws 300 tt (0, demo_reply) demo_reply demo_asked).
  - reflexivity.
  - exact demo_bytes.
  - intros E. discriminate E.
  - exact demo_fits.
  - apply Nat.ltb_lt. vm_compute. reflexivity.
Defined.

Lemma create_registers_fid_witness :
  exists r bs' x', eval (@smb2_smb_parse_create demo_kernel 300) demo_reply demo_asked = Some (r, bs', x') /\
    Fid.table_ok (c_share x') /\ fids_after demo_asked (reply_fid demo_reply) r x'.
Proof.
  apply (@create_registers_fid demo_kernel 300 demo_reply demo_asked).
  - exact Fid.empty_share_ok.
  - exact demo_bytes.
  - intros E. discriminate E.
  - exact demo_fits.
  - apply Nat.ltb_lt. vm_compute. reflexivity.
Defined.

Lemma create_reply_roundtrip_witness :
  exists bs', eval (@smb2_smb_parse_create demo_kernel 3) demo_reply demo_asked =
    Some (inr tt, bs', registered (the_fid demo_fields)
      (note_other_server (rctxs_apply demo_ctxs (filled demo_fields demo_asked)))).
Proof.
  apply (@create_reply_roundtrip demo_kernel demo_fields demo_ctxs 3 demo_asked).
  - unfold fields_fit, fits. cbn. lia.
  - cbn. lia.
  - cbn. lia.
  - reflexivity.
  - reflexivity.
  - unfold demo_ctxs. cbn [rctxs_asked rctx_fits rctx_asked]. unfold fits. split_and!; try (cbn; lia); try exact I.
    + by eexists _, _.
    + by eexists _, _.
Defined.

(** ** Replies that are handled badly *)

(** An [AAPL] context: a resolve-ID reply of status 0 with a string of the given length. *)
Definition aapl_resolve (str_len : Z) (str : list Z) : list Z :=
  le_bytes 4 0 ++ le_bytes 2 16 ++ le_bytes 2 4 ++ le_bytes 2 0 ++ le_bytes 2 24 ++ le_bytes 4 16 ++
  be_bytes 4 SMB2_CREATE_AAPL ++ le_bytes 4 0 ++
  le_bytes 4 kAAPL_RESOLVE_ID ++ le_bytes 4 0 ++ le_bytes 4 0 ++ le_bytes 4 str_len ++ str.

Definition resolve_reply (str_len : Z) (str : list Z) : list Z :=
  fixed_bytes demo_fields 152 (Z.of_nat (length (aapl_resolve str_len str))) ++ aapl_resolve str_len str.

(** A server that answers a create that asked for a durable handle with a resolve-ID
    context makes the client read the struct of the handle as the struct of a resolve
    ID, and write the error through a pointer of it; so does a lease context in the
    answer to a resolve ID. *)
Theorem create_reply_confuses_structs :
  eval (@smb2_smb_parse_create demo_kernel 300) (resolve_reply 4 [97; 0; 98; 0]) demo_asked = None /\
  eval (@smb2_smb_parse_create demo_kernel 300) (reply_bytes demo_fields [RLease 1 2 7 0])
    (demo_state (CtxResolve 0 None)) = None.
Proof. split; vm_compute; reflexivity. Qed.

(** The error of parsing the path is dropped: a path that is longer than the reply is
    no error, the resolve ID succeeds without a path. *)
Theorem resolve_path_error_dropped :
  exists bs' x', eval (@smb2_smb_parse_create demo_kernel 300) (resolve_reply 40 [97; 0]) (demo_state (CtxResolve 5 None))
    = Some (inr tt, bs', x') /\ create_contextp (c_rq x') = CtxResolve 0 None.
Proof. eexists _, _. split; [vm_compute; reflexivity|reflexivity]. Qed.
