(* ===== verification/Rw.v ===== *)
(** * Reads and writes of files: [smb2_smb_read], [smb2_smb_write] of [kernel/netsmb/smb_smb_2.c]

    A read or a write of any length is cut into requests of at most one quantum; a window
    of them is kept in flight ([smb2_smb_read_write_async]).  Each reply is copied to its
    place in the caller's buffer, a short read is asked for again, a slot of the window
    whose reply has come is filled again, and a reconnect starts everything over.

    A [uio] is a place in the buffer of the caller, an offset in the file and a count;
    the buffer is one list of bytes that the caller's uio and all its duplicates share.
    Below this code are credits, I/O threads and the server: class [Net]. *)
From S2P Require Import Prelude Chain Parser Brl.
From S2P Require Fid.
Import Errno.
Local Open Scope Z_scope.

Definition SMB2_CMD_NO_BLOCK := 0x80000000.
Definition SMB2_SYNC_IO := 0x01.
Definition kMaxSingleIO := 1048576.
Definition kSmallMTUMaxNumber := 16.
Definition SMB2_READFLAG_REQUEST_COMPRESSED := 0x02.
Definition SMB2_HDRLEN := 64.

(** ** Data *)

Record uio := Uio { uio_pos : Z; uio_offset : Z; uio_resid : Z }.

(** [uio_update] within the buffer. *)
Definition uio_advance (n : Z) (u : uio) : uio := Uio (uio_pos u + n) (uio_offset u + n) (uio_resid u - n).
Definition uio_setresid (n : Z) (u : uio) : uio := Uio (uio_pos u) (uio_offset u) n.

(** [smbfs_uio_update]: stops at the end of the buffer; the length is unsigned. *)
Definition smbfs_uio_update (length : Z) (u : uio) : uio := uio_advance (Z.min (u64 length) (uio_resid u)) u.

Record smb2_rw_rq := RwRq {
  rw_flags : Z;
  rw_remaining : Z;
  rw_write_flags : Z;
  rw_fid : Z;
  auio : uio;
  io_len : Z;
  mc_replay : bool;  (* mc_flags & SMB2_MC_REPLAY_FLAG *)
  rw_ret_ntstatus : Z;
  rw_ret_len : Z
}.
Definition set_rw_flags (x : Z) (r : smb2_rw_rq) : smb2_rw_rq :=
  RwRq x (rw_remaining r) (rw_write_flags r) (rw_fid r) (auio r) (io_len r) (mc_replay r)
    (rw_ret_ntstatus r) (rw_ret_len r).
Definition set_rw_remaining (x : Z) (r : smb2_rw_rq) : smb2_rw_rq :=
  RwRq (rw_flags r) x (rw_write_flags r) (rw_fid r) (auio r) (io_len r) (mc_replay r) (rw_ret_ntstatus
    r) (rw_ret_len r).
Definition set_rw_write_flags (x : Z) (r : smb2_rw_rq) : smb2_rw_rq :=
  RwRq (rw_flags r) (rw_remaining r) x (rw_fid r) (auio r) (io_len r) (mc_replay r) (rw_ret_ntstatus
    r) (rw_ret_len r).
Definition set_rw_fid (x : Z) (r : smb2_rw_rq) : smb2_rw_rq :=
  RwRq (rw_flags r) (rw_remaining r) (rw_write_flags r) x (auio r) (io_len r) (mc_replay r)
    (rw_ret_ntstatus r) (rw_ret_len r).
Definition set_auio (x : uio) (r : smb2_rw_rq) : smb2_rw_rq :=
  RwRq (rw_flags r) (rw_remaining r) (rw_write_flags r) (rw_fid r) x (io_len r) (mc_replay r)
    (rw_ret_ntstatus r) (rw_ret_len r).
Definition set_io_len (x : Z) (r : smb2_rw_rq) : smb2_rw_rq :=
  RwRq (rw_flags r) (rw_remaining r) (rw_write_flags r) (rw_fid r) (auio r) x (mc_replay r)
    (rw_ret_ntstatus r) (rw_ret_len r).
Definition set_mc_replay (x : bool) (r : smb2_rw_rq) : smb2_rw_rq :=
  RwRq (rw_flags r) (rw_remaining r) (rw_write_flags r) (rw_fid r) (auio r) (io_len r) x
    (rw_ret_ntstatus r) (rw_ret_len r).
Definition set_rw_ret_ntstatus (x : Z) (r : smb2_rw_rq) : smb2_rw_rq :=
  RwRq (rw_flags r) (rw_remaining r) (rw_write_flags r) (rw_fid r) (auio r) (io_len r) (mc_replay r) x
    (rw_ret_len r).
Definition set_rw_ret_len (x : Z) (r : smb2_rw_rq) : smb2_rw_rq :=
  RwRq (rw_flags r) (rw_remaining r) (rw_write_flags r) (rw_fid r) (auio r) (io_len r) (mc_replay r)
    (rw_ret_ntstatus r) x.

(** The fields of a read or write request. *)
Record rw_request := RwRequest {
  q_read : bool;
  q_fid : Fid.SMB2FID;
  q_offset : Z;
  q_len : Z;
  q_remaining : Z;
  q_flags : Z;          (* flags of a read, write flags of a write *)
  q_data : list Z;      (* of a write *)
  q_replay : bool;      (* SMB2_FLAGS_REPLAY_OPERATIONS *)
  q_no_compress : bool  (* SMB2_NO_COMPRESS_WRITE *)
}.

(** The body that is put into the chain. *)
Definition rw_body (q : rw_request) : list Z :=
  if q_read q then
    le_bytes 2 49 ++ le_bytes 1 0 ++ le_bytes 1 (q_flags q) ++ le_bytes 4 (q_len q) ++ le_bytes 8 (q_offset q) ++
    le_bytes 8 (Fid.fid_persistent (q_fid q)) ++ le_bytes 8 (Fid.fid_volatile (q_fid q)) ++ le_bytes 4 1 ++
    le_bytes 4 0 ++ le_bytes 4 (q_remaining q) ++ le_bytes 4 0 ++ le_bytes 1 0
  else
    le_bytes 2 49 ++ le_bytes 2 (SMB2_HDRLEN + 48) ++ le_bytes 4 (q_len q) ++ le_bytes 8 (q_offset q) ++
    le_bytes 8 (Fid.fid_persistent (q_fid q)) ++ le_bytes 8 (Fid.fid_volatile (q_fid q)) ++
    le_bytes 4 0 ++ le_bytes 4 (q_remaining q) ++ le_bytes 4 0 ++ le_bytes 4 (q_flags q) ++ q_data q.

(** What comes of a request: the error, and of the request and its reply what is looked
    at. *)
Record rw_reply := RwReply {
  r_error : Z;
  r_reconnected : bool;     (* SMBR_RECONNECTED *)
  r_alt_ch_discon : bool;   (* SMBR_ALT_CH_DISCON *)
  r_ntstatus : Z;
  r_failed_compress : bool; (* SMB2_FAILED_COMPRESS_WRITE *)
  r_bytes : list Z
}.

(** The session and the share, as far as they are constant here. *)
Record rw_session := RwSession {
  session_rxmax : Z;
  session_wxmax : Z;
  smb3_or_later : bool;
  server_compression_map : Z;
  compression_io_threshold : Z;
  compression_max_fail_cnt : Z;
  ipc_share : bool  (* the share is IPC$ *)
}.

(** What lies below: [net_alloc] takes an I/O thread and allocates a request
    ([smb_iod_get_any_iod], [smb2_rq_alloc]), which may fail or shorten the length for
    want of credits; [net_enqueue] is [smb_iod_rq_enqueue], [net_proxy] the helper
    threads' [smb_rw_proxy], [net_reply] waits for the reply of a request sent by either,
    [net_simple] sends and waits ([smb_rq_simple]); [net_quanta] is
    the choice of the single thread model (from signing and sealing) and of the size and number
    of quanta ([Quantum] models [smb2_smb_get_quantum_sizes], whose result depends on measured
    times): it is left open, and the theorems hold for every choice of a positive number of quanta
    of a positive size;
    [net_malloc] is the outcome of an allocation. *)
Class Net (W : Type) := {
  net_alloc : bool -> bool -> Z -> W -> (Z + Z) * W;
  net_enqueue : rw_request -> W -> Z * W;
  net_proxy : rw_request -> W -> unit * W;
  net_reply : rw_request -> W -> rw_reply * W;
  net_simple : rw_request -> W -> rw_reply * W;
  net_quanta : bool -> Z -> W -> (bool * Z * Z) * W;
  net_malloc : W -> bool * W
}.

(** The state: what lies below, the buffer, the FIDs of the share and
    [*allow_compressionp]. *)
Record rw_state (W : Type) := RwState { s_net : W; s_mem : list Z; s_share : Fid.smb_share; s_allow : Z }.
Arguments RwState {W}.
Arguments s_net {W}.
Arguments s_mem {W}.
Arguments s_share {W}.
Arguments s_allow {W}.

(** ** Replies *)

(** [md_get_uio] of [size] bytes: the loop ends at the end of the uio as well. *)
Definition md_get_uio (bs : list Z) (u : uio) (size : Z) (mem : list Z) : Z * uio * list Z :=
  let size := i32 size in
  if (size <=? 0) || (uio_resid u =? 0) then (0, u, mem)
  else
    let want := Z.min size (uio_resid u) in
    let got := Z.min want (Z.of_nat (length bs)) in
    (if got <? want then EBADRPC else 0, uio_advance got u,
     splice (Z.to_nat (uio_pos u)) (take (Z.to_nat got) bs) mem).

(** The structs of a parser: [ret_len]. *)
Definition read_header : parser Z Z :=
  check_size 17;;
  data_offset ← get_le 1;
  _ ← get_le 1;
  ret_len ← get_le 4;
  change (fun _ => ret_len);;
  _ ← get_le 4;
  _ ← get_le 4;
  (if 0 <? data_offset then skip (u8 (u8 (data_offset - SMB2_HDRLEN) - 16)) else mret tt);;
  mret ret_len.

(** The error, [*rresid], the request and the buffer. *)
Definition smb2_smb_parse_read_one (bs : list Z) (rresid : Z) (readp : smb2_rw_rq) (mem : list Z)
  : option (Z * Z * smb2_rw_rq * list Z) :=
  match eval read_header bs (rw_ret_len readp) with
  | None => None
  | Some (inl e, _, ret_len) => Some (e, rresid, set_rw_ret_len ret_len readp, mem)
  | Some (inr _, rest, ret_len) =>
      let readp := set_rw_ret_len ret_len readp in
      if ret_len =? 0 then Some (0, 0, readp, mem)
      else
        let '(e, u, mem') := md_get_uio rest (auio readp) ret_len mem in
        Some (e, if e =? 0 then ret_len else rresid, set_auio u readp, mem')
  end.

Definition write_reply : parser Z unit :=
  check_size 17;;
  _ ← get_le 2;
  ret_len ← get_le 4;
  change (fun _ => ret_len);;
  _ ← get_le 4;
  _ ← get_le 4;
  mret tt.

Definition smb2_smb_parse_write_one (bs : list Z) (rresid : Z) (writep : smb2_rw_rq)
  : option (Z * Z * smb2_rw_rq) :=
  match eval write_reply bs (rw_ret_len writep) with
  | None => None
  | Some (r, _, ret_len) =>
      Some (match r with inl e => (e, rresid) | inr _ => (0, ret_len) end, set_rw_ret_len ret_len writep)
  end.

Section Rw.
Context {W : Type} `{Net W} (se : rw_session).

Definition net {A} (f : W -> A * W) : M (rw_state W) A :=
  fun s => let '(a, w) := f (s_net s) in Some (a, RwState w (s_mem s) (s_share s) (s_allow s)).
Definition set_mem (mem : list Z) : M (rw_state W) unit :=
  fun s => Some (tt, RwState (s_net s) mem (s_share s) (s_allow s)).
Definition set_allow (a : Z) : M (rw_state W) unit :=
  fun s => Some (tt, RwState (s_net s) (s_mem s) (s_share s) a).

(** [smb_fid_get_kernel_fid] without removal. *)
Definition kernel_fid (fid : Z) : M (rw_state W) (Z * option Fid.SMB2FID) := fun s =>
  let '(e, sf, share) := Fid.smb_fid_get_kernel_fid (Some (s_share s)) fid false in
  Some ((e, sf), RwState (s_net s) (s_mem s) (default (s_share s) share) (s_allow s)).

(** A parse function that is given the buffer. *)
Definition parse_read (bs : list Z) (rresid : Z) (readp : smb2_rw_rq) : M (rw_state W) (Z * Z * smb2_rw_rq) :=
  fun s => match smb2_smb_parse_read_one bs rresid readp (s_mem s) with
           | Some (e, n, rp, mem) => Some ((e, n, rp), RwState (s_net s) mem (s_share s) (s_allow s))
           | None => None
           end.
Definition parse_write (bs : list Z) (rresid : Z) (writep : smb2_rw_rq) : M (rw_state W) (Z * Z * smb2_rw_rq) :=
  fun s => match smb2_smb_parse_write_one bs rresid writep with Some r => Some (r, s) | None => None end.

(** What the functions for one request return: the error, [*len], [*rresid], the
    request struct and, when only a request is built, the request. *)
Record one_result := One {
  o_error : Z; o_len : Z; o_rresid : Z; o_rq : smb2_rw_rq; o_rqp : option rw_request
}.

(** ** One read *)

Definition remaining_after (remaining len32 : Z) : Z := if len32 <? remaining then remaining - len32 else 0.

(** From the label [resend] on; [short] is [short_read_len] of a short read. *)
Fixpoint read_one_loop (fuel : nat) (compound no_block : bool) (len rresid len32 remaining : Z) (short : option Z)
    (readp : smb2_rw_rq) : M (rw_state W) one_result :=
  match fuel with
  | O => undef
  | S k =>
      a ← net (net_alloc true no_block len32);
      match a with
      | inl e => mret (One e len rresid readp None)
      | inr len32 =>
          if match short with Some n => negb (len32 =? n) | None => false end
          then mret (One EIO len rresid readp None)
          else
            let len := match short with Some _ => len | None => len32 end in
            let remaining := match short with Some _ => 0 | None => remaining_after remaining len32 end in
            allow ← (fun s => Some (s_allow s, s));
            '(e, sf) ← kernel_fid (rw_fid readp);
            match sf with
            | None => mret (One e len rresid readp None)
            | Some sf =>
                let flags := if smb3_or_later se && negb (server_compression_map se =? 0) && (allow =? 1)
                                && (compression_io_threshold se <? len32)
                             then SMB2_READFLAG_REQUEST_COMPRESSED else 0 in
                let rq := RwRequest true sf (uio_offset (auio readp)) len32 remaining flags [] (mc_replay readp) false in
                if compound then mret (One 0 len rresid readp (Some rq))
                else
                  r ← net (net_simple rq);
                  let readp := set_rw_ret_ntstatus (r_ntstatus r) readp in
                  if negb (r_error r =? 0) then
                    if r_reconnected r then
                      read_one_loop k compound no_block len rresid len32 (u32 (remaining + len32)) short
                        (if r_alt_ch_discon r then set_mc_replay true readp else readp)
                    else mret (One (r_error r) len rresid readp None)
                  else
                    '(e, tmp_resid, readp) ← parse_read (r_bytes r) 0 readp;
                    if negb (e =? 0) then mret (One e len rresid readp None)
                    else if (tmp_resid <? len32) && negb (ipc_share se) then
                      read_one_loop k compound no_block len (rresid + tmp_resid) (len32 - tmp_resid) remaining
                        (Some (len32 - tmp_resid)) readp
                    else mret (One 0 len (rresid + tmp_resid) readp None)
            end
      end
  end.

Definition smb2_smb_read_one (fuel : nat) (compound : bool) (len rresid : Z) (readp : smb2_rw_rq) : M (rw_state W) one_result :=
  let no_block := has (rw_flags readp) SMB2_CMD_NO_BLOCK in
  let readp := if no_block then set_rw_flags (clear_bits (rw_flags readp) SMB2_CMD_NO_BLOCK) readp else readp in
  read_one_loop fuel compound no_block len rresid (u32 (Z.min (session_rxmax se) len)) (u32 len) None readp.

(** ** One write *)

(** [mb_put_uio] of [size] bytes: what is in the buffer there. *)
Definition mb_put_uio (u : uio) (size : Z) (mem : list Z) : list Z :=
  take (Z.to_nat (Z.min size (uio_resid u))) (drop (Z.to_nat (uio_pos u)) mem).

Fixpoint write_one_loop (fuel : nat) (compound : bool) (len rresid len32 remaining : Z) (writep : smb2_rw_rq)
    : M (rw_state W) one_result :=
  match fuel with
  | O => undef
  | S k =>
      a ← net (net_alloc false false len32);
      match a with
      | inl e => mret (One e len rresid writep None)
      | inr len32 =>
          let len := len32 in
          let remaining := remaining_after remaining len32 in
          dup ← net net_malloc;
          if negb dup then mret (One ENOMEM len rresid writep None)
          else
            '(e, sf) ← kernel_fid (rw_fid writep);
            match sf with
            | None => mret (One e len rresid writep None)
            | Some sf =>
                put ← net net_malloc;
                if negb put then mret (One ENOBUFS len rresid writep None)
                else
                  s ← getS;
                  let rq := RwRequest false sf (uio_offset (auio writep)) len remaining (rw_write_flags writep)
                              (mb_put_uio (auio writep) len (s_mem s)) (mc_replay writep) (s_allow s =? 0) in
                  if compound then
                    mret (One 0 len rresid (set_auio (smbfs_uio_update len (auio writep)) writep) (Some rq))
                  else
                    r ← net (net_simple rq);
                    let writep := set_rw_ret_ntstatus (r_ntstatus r) writep in
                    if negb (r_error r =? 0) then
                      if r_reconnected r then
                        write_one_loop k compound len rresid len32 (u32 (remaining + len32))
                          (if r_alt_ch_discon r then set_mc_replay true writep else writep)
                      else mret (One (r_error r) len rresid writep None)
                    else
                      let writep := set_auio (smbfs_uio_update len (auio writep)) writep in
                      '(e, n, writep) ← parse_write (r_bytes r) rresid writep;
                      mret (One e len n writep None)
            end
      end
  end.

Definition smb2_smb_write_one (fuel : nat) (compound : bool) (len rresid : Z) (writep : smb2_rw_rq) : M (rw_state W) one_result :=
  write_one_loop fuel compound len rresid (u32 (Z.min (session_wxmax se) len)) (u32 len) writep.

(** ** Filling a slot of the window *)

(** A slot ([struct smb_rw_arg]): the flag [SMB_RW_IN_USE], the request struct, the
    request. *)
Record slot := Slot { in_use : bool; sl_rw : smb2_rw_rq; sl_rqp : option rw_request }.

(** [bzero] of a new request struct. *)
Definition zero_rw : smb2_rw_rq := RwRq 0 0 0 0 (Uio 0 0 0) 0 false 0 0.

(** The error, the uio of the master, and the slot.  Building one request takes one
    round of the functions above. *)
Definition smb2_smb_read_write_fill (do_read : bool) (quantum_size : Z) (master : smb2_rw_rq) (sl : slot)
    : M (rw_state W) (Z * smb2_rw_rq * slot) :=
  let len := Z.min quantum_size (uio_resid (auio master)) in
  dup ← net net_malloc;
  let rw := RwRq (rw_flags (sl_rw sl)) (rw_remaining master) (rw_write_flags master) (rw_fid master) (auio master)
              (io_len (sl_rw sl)) (mc_replay (sl_rw sl)) 0 0 in
  if negb dup then
    mret (ENOMEM, master, Slot (in_use sl)
      (RwRq (rw_flags (sl_rw sl)) (rw_remaining master) (rw_write_flags master) (rw_fid master) (Uio 0 0 0)
         (io_len (sl_rw sl)) (mc_replay (sl_rw sl)) (rw_ret_ntstatus (sl_rw sl)) (rw_ret_len (sl_rw sl))) None)
  else
    o ← (if do_read then smb2_smb_read_one 1 true len 0 rw else smb2_smb_write_one 1 true len 0 rw);
    match o_rqp o with
    | None => mret (o_error o, master, Slot (in_use sl) (o_rq o) None)
    | Some rq =>
        mret (if o_len o =? len then 0 else ENOBUFS,
              set_auio (smbfs_uio_update (o_len o) (auio master)) master,
              Slot (in_use sl) (set_io_len (o_len o) (o_rq o)) (Some rq))
    end.

(** ** The window *)

(** The locals that outlive a slot: [tmp_read_write], [*rresid], the count of failed
    compressions, [error] and [reconnect]. *)
Record window := Win { w_master : smb2_rw_rq; w_rresid : Z; w_fails : Z; w_error : Z; w_reconnect : bool }.

Definition with_error (e : Z) (w : window) : window := Win (w_master w) (w_rresid w) (w_fails w) e (w_reconnect w).

(** "Fill in initial requests": the error, the master and the slots filled in. *)
Fixpoint fill_window (n : nat) (do_read single_thread : bool) (quantum_size : Z) (master : smb2_rw_rq)
    (filled : list slot) : M (rw_state W) (Z * smb2_rw_rq * list slot) :=
  match n with
  | O => mret (0, master, filled)
  | S k =>
      ok ← net net_malloc;
      if negb ok then mret (ENOMEM, master, filled)
      else
        '(e, master, sl) ← smb2_smb_read_write_fill do_read quantum_size master (Slot false zero_rw None);
        match sl_rqp sl with
        | None => mret (e, master, filled ++ [sl])
        | Some rq =>
            if negb (e =? 0) && negb (e =? ENOBUFS) then mret (e, master, filled ++ [sl])
            else
              (if single_thread then mret tt else net (net_proxy rq));;
              let filled := filled ++ [Slot (negb single_thread) (sl_rw sl) (sl_rqp sl)] in
              if (uio_resid (auio master) =? 0) || (e =? ENOBUFS) then mret (0, master, filled)
              else fill_window k do_read single_thread quantum_size master filled
        end
  end.

(** Sends a request; [smb_iod_rq_enqueue] of NULL is undefined. *)
Definition send_slot (sl : slot) : M (rw_state W) (Z * slot) :=
  match sl_rqp sl with
  | None => undef
  | Some rq => e ← net (net_enqueue rq); mret (e, Slot (e =? 0) (sl_rw sl) (sl_rqp sl))
  end.

(** "Send initial requests" *)
Fixpoint send_window (sls : list slot) : M (rw_state W) (Z * list slot) :=
  match sls with
  | [] => mret (0, [])
  | sl :: r =>
      '(e, sl) ← send_slot sl;
      if negb (e =? 0) then mret (e, sl :: r) else '(e, r) ← send_window r; mret (e, sl :: r)
  end.

(** The reply of a slot is parsed; a write whose compression failed is counted. *)
Definition parse_slot (do_read : bool) (r : rw_reply) (fails : Z) (rw : smb2_rw_rq)
    : M (rw_state W) (Z * (Z * Z * smb2_rw_rq)) :=
  if do_read then p ← parse_read (r_bytes r) 0 rw; mret (fails, p)
  else
    s ← getS;
    let counted := negb (s_allow s =? 0) && r_failed_compress r in
    let fails := if counted then fails + 1 else fails in
    (if counted && (compression_max_fail_cnt se <? fails) then set_allow 0 else mret tt);;
    p ← parse_write (r_bytes r) 0 rw; mret (fails, p).

(** The request for the bytes a short read did not bring. *)
Definition short_read_rq (rw : smb2_rw_rq) (n : Z) : smb2_rw_rq :=
  RwRq (rw_flags rw) (rw_remaining rw) (rw_write_flags rw) (rw_fid rw) (uio_setresid (io_len rw - n) (auio rw))
    (io_len rw) false 0 0.

(** The body of the loop over the slots.  The results are whether the slot was sent
    again ([done = 0]) or the loop is left ([goto bad]). *)
Inductive verdict := VIdle | VAgain | VBad.

Definition resend_slot (single_thread : bool) (w : window) (e : Z) (sl : slot) : M (rw_state W) (verdict * window * slot) :=
  if negb (e =? 0) && negb (e =? ENOBUFS) then mret (VBad, with_error e w, sl)
  else if single_thread then
    '(e, sl) ← send_slot sl;
    mret (if e =? 0 then VAgain else VBad, with_error e w, sl)
  else
    match sl_rqp sl with
    | None => undef
    | Some rq => net (net_proxy rq);; mret (VAgain, with_error e w, Slot true (sl_rw sl) (sl_rqp sl))
    end.

Definition wait_slot (do_read single_thread : bool) (quantum_size : Z) (w : window) (sl : slot)
    : M (rw_state W) (verdict * window * slot) :=
  if negb (in_use sl) then mret (VIdle, w, sl)
  else
    match sl_rqp sl with
    | None => undef
    | Some rq =>
        r ← net (net_reply rq);
        let sl := Slot false (sl_rw sl) (sl_rqp sl) in
        if negb (r_error r =? 0) then
          mret (VBad, Win (w_master w) (w_rresid w) (w_fails w) (r_error r) (w_reconnect w || r_reconnected r), sl)
        else
          let m0 := w_master w in
          let m1 := if rw_ret_ntstatus m0 =? 0 then set_rw_ret_ntstatus (r_ntstatus r) m0 else m0 in
          '(fails, (e, n, rw)) ← parse_slot do_read r (w_fails w) (sl_rw sl);
          let sl := Slot false rw (sl_rqp sl) in
          if negb (e =? 0) then mret (VBad, Win m1 (w_rresid w) fails e (w_reconnect w), sl)
          else
            let m2 := set_rw_ret_len (u32 (rw_ret_len m1 + n)) m1 in
            let w2 := Win m2 (w_rresid w + n) fails e (w_reconnect w) in
            if do_read && (n <? io_len rw) && negb (ipc_share se) then
              dup ← net net_malloc;
              if negb dup then undef
              else
                '(e, _, sl) ← smb2_smb_read_write_fill do_read quantum_size (short_read_rq rw n) sl;
                resend_slot single_thread w2 e sl
            else if negb (uio_resid (auio m2) =? 0) then
              '(e, m3, sl) ← smb2_smb_read_write_fill do_read quantum_size m2 sl;
              resend_slot single_thread (Win m3 (w_rresid w2) fails (w_error w2) (w_reconnect w)) e sl
            else mret (VIdle, w2, sl)
    end.

(** One pass over the slots: whether one was sent again, or the pass was left. *)
Fixpoint wait_round (do_read single_thread : bool) (quantum_size : Z) (w : window) (sls : list slot)
    : M (rw_state W) (verdict * window * list slot) :=
  match sls with
  | [] => mret (VIdle, w, [])
  | sl :: r =>
      '(v, w, sl) ← wait_slot do_read single_thread quantum_size w sl;
      match v with
      | VBad => mret (VBad, w, sl :: r)
      | _ =>
          '(v', w, r) ← wait_round do_read single_thread quantum_size w r;
          mret (match v, v' with VAgain, VIdle => VAgain | _, _ => v' end, w, sl :: r)
      end
  end.

(** "Wait for replies and refill requests as needed" *)
Fixpoint wait_window (fuel : nat) (do_read single_thread : bool) (quantum_size : Z) (w : window) (sls : list slot)
    : M (rw_state W) (window * list slot) :=
  match fuel with
  | O => undef
  | S k =>
      '(v, w, sls) ← wait_round do_read single_thread quantum_size w sls;
      match v with
      | VAgain => wait_window k do_read single_thread quantum_size w sls
      | _ => mret (w, sls)
      end
  end.

(** After the label [bad]: what is in flight is waited for. *)
Fixpoint drain_window (e : Z) (sls : list slot) : M (rw_state W) Z :=
  match sls with
  | [] => mret e
  | sl :: r =>
      if in_use sl then
        match sl_rqp sl with
        | None => undef
        | Some rq => rep ← net (net_reply rq); drain_window (r_error rep) r
        end
      else drain_window e r
  end.

(** [tmp_read_write] *)
Definition master_of (rw : smb2_rw_rq) : smb2_rw_rq :=
  RwRq 0 (rw_remaining rw) (rw_write_flags rw) (rw_fid rw) (auio rw) (io_len rw) false 0 0.

(** One attempt, from [resend] to the end of the clean-up. *)
Definition attempt_window (fuel : nat) (do_read single_thread : bool) (quantum_size : Z) (quantum_nbr : nat)
    (rresid fails : Z) (master : smb2_rw_rq) : M (rw_state W) window :=
  '(e, master, sls) ← fill_window quantum_nbr do_read single_thread quantum_size master [];
  '(w, sls) ← (
    let w := Win master rresid fails e false in
    if negb (e =? 0) then mret (w, sls)
    else
      '(e, sls) ← (if single_thread then send_window sls else mret (0, sls));
      if negb (e =? 0) then mret (with_error e w, sls)
      else wait_window fuel do_read single_thread quantum_size (with_error e w) sls);
  e ← drain_window (w_error w) sls;
  mret (with_error e w).

(** The attempts: a reconnect restores the saved values and starts over; the failed
    compressions stay counted. *)
Fixpoint window_loop (fuel : nat) (do_read single_thread : bool) (quantum_size : Z) (quantum_nbr : nat)
    (len rresid fails : Z) (rw : smb2_rw_rq) : M (rw_state W) one_result :=
  match fuel with
  | O => undef
  | S k =>
      dup ← net net_malloc;
      if negb dup then mret (One ENOMEM len rresid rw None)
      else
        w ← attempt_window k do_read single_thread quantum_size quantum_nbr rresid fails (master_of rw);
        if w_reconnect w then window_loop k do_read single_thread quantum_size quantum_nbr len rresid (w_fails w) rw
        else
          let e := w_error w in
          let rw1 := set_rw_ret_ntstatus (rw_ret_ntstatus (w_master w)) rw in
          let rw2 := if (e =? 0) || ((e =? ENODATA) && do_read && negb (w_rresid w =? 0))
                     then RwRq (rw_flags rw1) (rw_remaining (w_master w)) (rw_write_flags rw1) (rw_fid rw1)
                            (smbfs_uio_update (w_rresid w) (auio rw1)) (io_len (w_master w)) (mc_replay rw1)
                            (rw_ret_ntstatus rw1) (rw_ret_len (w_master w))
                     else rw1 in
          mret (One e len (w_rresid w) rw2 None)
  end.

Definition smb2_session_max_io_size (do_read : bool) : Z :=
  Z.min (if do_read then session_rxmax se else session_wxmax se) kMaxSingleIO.

Definition smb2_smb_read_write_async (fuel : nat) (do_read : bool) (len rresid : Z) (rw : smb2_rw_rq)
    : M (rw_state W) one_result :=
  if (len <=? smb2_session_max_io_size do_read) || has (rw_flags rw) SMB2_SYNC_IO then
    if do_read then smb2_smb_read_one fuel false len rresid rw else smb2_smb_write_one fuel false len rresid rw
  else
    '(single_thread, quantum_size, quantum_nbr) ← net (net_quanta do_read len);
    ok ← net net_malloc;
    if negb ok then mret (One ENOMEM len rresid rw None)
    else window_loop fuel do_read single_thread quantum_size (Z.to_nat quantum_nbr) len rresid 0 rw.

(** ** Reads and writes of any length *)

Fixpoint read_loop (rounds fuel : nat) (total_size resid : Z) (readp : smb2_rw_rq) : M (rw_state W) (Z * smb2_rw_rq) :=
  if total_size <=? 0 then mret (0, readp)
  else
    match rounds with
    | O => undef
    | S k =>
        o ← smb2_smb_read_write_async fuel true total_size resid readp;
        if negb (o_error o =? 0) then mret (o_error o, o_rq o)
        else if o_rresid o =? 0 then mret (0, o_rq o)
        else if o_rresid o <? o_len o then mret (0, o_rq o)
        else read_loop k fuel (total_size - o_rresid o) (o_rresid o) (o_rq o)
    end.

Definition smb2_smb_read (rounds fuel : nat) (readp : smb2_rw_rq) : M (rw_state W) (Z * smb2_rw_rq) :=
  '(e, readp) ← read_loop rounds fuel (uio_resid (auio readp)) 0 readp;
  mret (if e =? ENODATA then 0 else e, readp).

Fixpoint write_loop (rounds fuel : nat) (total_size resid : Z) (writep : smb2_rw_rq) : M (rw_state W) (Z * smb2_rw_rq) :=
  if total_size <=? 0 then mret (0, writep)
  else
    match rounds with
    | O => undef
    | S k =>
        o ← smb2_smb_read_write_async fuel false total_size resid writep;
        if negb (o_error o =? 0) then mret (o_error o, o_rq o)
        else if o_rresid o <? o_len o then mret (EIO, o_rq o)
        else write_loop k fuel (total_size - o_rresid o) (o_rresid o) (o_rq o)
    end.

(** After an error the uio is as before the call. *)
Definition smb2_smb_write (rounds fuel : nat) (writep : smb2_rw_rq) : M (rw_state W) (Z * smb2_rw_rq) :=
  let u := auio writep in
  '(e, writep) ← write_loop rounds fuel (uio_resid u) 0 writep;
  mret (e, if negb (e =? 0)
           then set_auio (Uio (uio_pos (auio writep)) (uio_offset u) (uio_resid u)) writep else writep).

(** The uio after a read, and the error. *)
Definition smb2_smb_read_uio (rounds fuel : nat) (fid : Z) (u : uio) : M (rw_state W) (Z * uio) :=
  ok ← net net_malloc;
  if negb ok then mret (ENOMEM, u)
  else '(e, readp) ← smb2_smb_read rounds fuel (RwRq 0 0 0 fid u 0 false 0 0); mret (e, auio readp).

(** A write works on a duplicate and moves the uio by what was written.  The write mode is
    0, so that the branch for servers that dislike write through is not taken. *)
Definition smb2_smb_write_uio (rounds fuel : nat) (fid : Z) (u : uio) : M (rw_state W) (Z * uio) :=
  dup ← net net_malloc;
  if negb dup then mret (ENOMEM, u)
  else
    ok ← net net_malloc;
    if negb ok then mret (ENOMEM, u)
    else
      '(e, writep) ← smb2_smb_write rounds fuel (RwRq 0 0 0 fid u 0 false 0 0);
      mret (e, smbfs_uio_update (uio_resid u - uio_resid (auio writep)) u).
End Rw.
