(* ===== verification/RwWindow.v ===== *)
(** * Reads and writes of files: the window delivers every byte

    The proof is the same for reads and writes.  Its parameters are what is delivered
    ([deliv]) and that one exchange with the server delivers the start of the range it
    is for ([Exchange]). *)
From S2P Require Import Prelude Chain Brl Parser Rw.
From S2P Require Fid.
Import Errno.
Local Open Scope Z_scope.

(** ** Bytes of a buffer *)

(** The bytes from [off] on, [n] of them. *)
Definition slice (l : list Z) (off n : Z) : list Z := take (Z.to_nat n) (drop (Z.to_nat off) l).

Lemma length_slice l off n : 0 <= off -> 0 <= n -> off + n <= Z.of_nat (length l) ->
  length (slice l off n) = Z.to_nat n.
Proof. intros. unfold slice. rewrite length_take, length_drop. lia. Qed.

Lemma lookup_slice l off n i : 0 <= off -> (i < Z.to_nat n)%nat ->
  slice l off n !! i = l !! (Z.to_nat off + i)%nat.
Proof. intros. unfold slice. rewrite lookup_take_lt by lia. apply lookup_drop. Qed.

(** ** The replies of a server *)

Definition read_reply_bytes (data : list Z) : list Z :=
  le_bytes 2 17 ++ le_bytes 1 80 ++ le_bytes 1 0 ++ le_bytes 4 (Z.of_nat (length data)) ++
  le_bytes 4 0 ++ le_bytes 4 0 ++ data.

Definition write_reply_bytes (n : Z) : list Z :=
  le_bytes 2 17 ++ le_bytes 2 0 ++ le_bytes 4 n ++ le_bytes 4 0 ++ le_bytes 4 0.

Ltac fits_tac := unfold fits; cbn; lia.

Lemma read_header_run data x : Z.of_nat (length data) < 2 ^ 31 ->
  eval read_header (read_reply_bytes data) x = Some (inr (Z.of_nat (length data)), data, Z.of_nat (length data)).
Proof.
  intros Hl. unfold read_header, read_reply_bytes, check_size.
  assert (fits 4 (Z.of_nat (length data))) by fits_tac.
  rewrite !eval_bind, eval_get_le by fits_tac. cbv beta iota. cbn [Z.eqb Pos.eqb negb eval mret parser_ret].
  do 3 (rewrite eval_bind, eval_get_le by (done || fits_tac); cbv beta iota).
  rewrite eval_bind. cbn [eval change]. cbv beta iota.
  do 2 (rewrite eval_bind, eval_get_le by (done || fits_tac); cbv beta iota).
  rewrite eval_bind. change (0 <? 80) with true. cbv iota.
  change (u8 (u8 (80 - SMB2_HDRLEN) - 16)) with 0. by rewrite (eval_skip 0 [] data) by done.
Qed.

Lemma write_reply_run n x : 0 <= n < 2 ^ 32 ->
  eval write_reply (write_reply_bytes n) x = Some (inr tt, [], n).
Proof.
  intros Hn. unfold write_reply, write_reply_bytes, check_size.
  assert (fits 4 n) by fits_tac.
  rewrite !eval_bind, eval_get_le by fits_tac. cbv beta iota. cbn [Z.eqb Pos.eqb negb eval mret parser_ret].
  do 2 (rewrite eval_bind, eval_get_le by (done || fits_tac); cbv beta iota).
  rewrite eval_bind. cbn [eval change]. cbv beta iota.
  rewrite eval_bind, eval_get_le by fits_tac. cbv beta iota.
  rewrite <- (app_nil_r (le_bytes 4 0)). by rewrite eval_bind, eval_get_le by fits_tac.
Qed.

Lemma md_get_uio_run data u mem : 0 < Z.of_nat (length data) < 2 ^ 31 -> Z.of_nat (length data) <= uio_resid u ->
  md_get_uio data u (Z.of_nat (length data)) mem =
    (0, uio_advance (Z.of_nat (length data)) u, splice (Z.to_nat (uio_pos u)) data mem).
Proof.
  intros Hl Hr. unfold md_get_uio. rewrite i32_small by lia.
  rewrite (proj2 (Z.leb_gt _ _)), (proj2 (Z.eqb_neq _ _)) by lia. cbn [orb].
  rewrite (Z.min_l (Z.of_nat _) (uio_resid u)) by lia. rewrite Z.min_id, Z.ltb_irrefl.
  by rewrite Nat2Z.id, firstn_all.
Qed.

(** A full reply is parsed: its bytes are at their place of the buffer. *)
Lemma parse_read_one_run data r0 rw mem : 0 < Z.of_nat (length data) < 2 ^ 31 ->
  Z.of_nat (length data) <= uio_resid (auio rw) ->
  smb2_smb_parse_read_one (read_reply_bytes data) r0 rw mem =
    Some (0, Z.of_nat (length data),
      set_auio (uio_advance (Z.of_nat (length data)) (auio rw)) (set_rw_ret_len (Z.of_nat (length data)) rw),
      splice (Z.to_nat (uio_pos (auio rw))) data mem).
Proof.
  intros Hl Hr. unfold smb2_smb_parse_read_one. rewrite read_header_run by lia.
  rewrite (proj2 (Z.eqb_neq _ _)) by lia. change (auio (set_rw_ret_len _ rw)) with (auio rw).
  by rewrite md_get_uio_run.
Qed.

Lemma parse_write_one_run n r0 rw : 0 <= n < 2 ^ 32 ->
  smb2_smb_parse_write_one (write_reply_bytes n) r0 rw = Some ((0, n), set_rw_ret_len n rw).
Proof. intros Hn. unfold smb2_smb_parse_write_one. by rewrite write_reply_run. Qed.

(** The parse functions in the state monad. *)
Lemma parse_read_run {W} data r0 rw (s : rw_state W) : 0 < Z.of_nat (length data) < 2 ^ 31 ->
  Z.of_nat (length data) <= uio_resid (auio rw) ->
  parse_read (read_reply_bytes data) r0 rw s =
    Some ((0, Z.of_nat (length data),
      set_auio (uio_advance (Z.of_nat (length data)) (auio rw)) (set_rw_ret_len (Z.of_nat (length data)) rw)),
      RwState (s_net s) (splice (Z.to_nat (uio_pos (auio rw))) data (s_mem s)) (s_share s) (s_allow s)).
Proof. intros Hl Hr. unfold parse_read. by rewrite parse_read_one_run. Qed.

Lemma parse_write_run {W} n r0 rw (s : rw_state W) : 0 <= n < 2 ^ 32 ->
  parse_write (write_reply_bytes n) r0 rw s = Some ((0, n, set_rw_ret_len n rw), s).
Proof. intros Hn. unfold parse_write. by rewrite parse_write_one_run. Qed.

(** * Reads and writes of files: the window delivers every byte *)

(** What the code counts on from below when nothing fails: requests are allocated,
    possibly shorter, and sent; [view] is the file on the server as far as it has been
    answered for. *)
Class GoodNet (W : Type) `{Net W} (good : W -> Prop) (view : W -> list Z) := {
  alloc_good rd nb l w : good w -> 0 < l ->
    exists g w', net_alloc rd nb l w = (inr g, w') /\ good w' /\ view w' = view w /\ 0 < g <= l;
  enqueue_good q w : good w -> exists w', net_enqueue q w = (0, w') /\ good w' /\ view w' = view w;
  proxy_good q w : good w -> exists w', net_proxy q w = (tt, w') /\ good w' /\ view w' = view w;
  malloc_good w : good w -> exists w', net_malloc w = (true, w') /\ good w' /\ view w' = view w;
  quanta_good rd l w : good w -> exists st qs qn w', net_quanta rd l w = ((st, qs, qn), w') /\
    good w' /\ view w' = view w /\ 0 < qs < 2 ^ 31 /\ 0 < qn
}.

(** Credits never shorten a request. *)
Definition full_alloc (W : Type) `{Net W} (good : W -> Prop) : Prop :=
  forall rd nb l w, good w -> 0 < l -> exists w', net_alloc rd nb l w = (inr l, w').

Lemma bool_cases (b : bool) : b = true \/ b = false.
Proof. destruct b; auto. Qed.

Section Window.
Context {W : Type} `{Net W} (good : W -> Prop) (view : W -> list Z) `{!GoodNet W good view}.
Context (se : rw_session) (do_read single : bool) (fid : Z).
(** The transfer: [L] bytes at the place [P] of the buffer, the offset [O] of the file. *)
Context (P O L : Z) (src : list Z).
Context (extra : list Z -> list Z -> Prop) (deliv : list Z -> list Z -> Z -> Prop).
Context (max : Z) (Hmax : max = if do_read then session_rxmax se else session_wxmax se).
Context (Hmax_pos : 0 < max < 2 ^ 31) (Hbase : 0 <= P /\ 0 <= O /\ 0 <= L).
Context (qs : Z) (Hqs : 0 < qs < 2 ^ 31).
Context (Hsrc : forall v mem, do_read = false -> extra v mem -> mem = src).

Implicit Types s : rw_state W.

Definition fid_ok (sh : Fid.smb_share) : Prop :=
  Fid.table_ok sh /\ fid <> Fid.UINT64_MAX /\ Fid.abs sh fid <> [].

Definition SI s : Prop := good (s_net s) /\ fid_ok (s_share s) /\ extra (view (s_net s)) (s_mem s).
Definition delivered s (i : Z) : Prop := deliv (view (s_net s)) (s_mem s) i.

(** Steps that change neither the file nor the buffer. *)
Definition quiet s s' : Prop :=
  SI s' /\ view (s_net s') = view (s_net s) /\ s_mem s' = s_mem s.

Lemma quiet_delivered s s' i : quiet s s' -> delivered s i -> delivered s' i.
Proof. intros (_ & E1 & E2). unfold delivered. by rewrite E1, E2. Qed.

Lemma quiet_refl s : SI s -> quiet s s.
Proof. by split. Qed.

Lemma quiet_trans s1 s2 s3 : quiet s1 s2 -> quiet s2 s3 -> quiet s1 s3.
Proof. intros (_ & E1 & E2) (? & E3 & E4). split; [done|]. split; congruence. Qed.

Lemma net_quiet {A} (f : W -> A * W) s a w' : SI s -> f (s_net s) = (a, w') -> good w' -> view w' = view (s_net s) ->
  exists s', net f s = Some (a, s') /\ quiet s s'.
Proof.
  intros (Hg & Hf & Hx) E Hg' Hv. unfold net. rewrite E. eexists. split; [done|].
  split; [|done]. unfold SI. cbn. by rewrite Hv.
Qed.

Lemma net_malloc_run s : SI s -> exists s', net net_malloc s = Some (true, s') /\ quiet s s'.
Proof. intros HS. destruct (malloc_good (s_net s)) as (w' & E & ? & ?); [apply HS|]. by eapply net_quiet. Qed.

Lemma kernel_fid_run s : SI s -> exists sf s', kernel_fid fid s = Some ((0, Some sf), s') /\ quiet s s'.
Proof.
  intros (Hg & (Ht & Hne & Ha) & Hx). unfold kernel_fid.
  destruct (Fid.get_kernel_fid_abs (s_share s) fid false Ht Hne) as (sh & E & Ht' & Ha'). rewrite E.
  destruct (Fid.abs (s_share s) fid) as [|sf r] eqn:Eabs; [done|]. eexists sf, _. split; [done|].
  split; [|done]. split; [done|]. split; [|done]. split; [done|]. split; [done|]. cbn.
  rewrite Ha'. cbn [andb]. by rewrite Eabs.
Qed.

(** ** A slot and its range *)

(** The request [q] and the struct [rw] are for the [l] bytes at [a] of the transfer. *)
Definition slot_for (a l : Z) (q : rw_request) (rw : smb2_rw_rq) : Prop :=
  q_read q = do_read /\ q_offset q = O + a /\ q_len q = l /\ io_len rw = l /\ rw_fid rw = fid /\
  0 <= a /\ 0 < l <= Z.min max qs /\ a + l <= L /\
  (if do_read then exists res, auio rw = Uio (P + a) (O + a) res /\ l <= res
   else q_data q = slice src (P + a) l).

Definition slot_req (sl : slot) (r : Z * Z) : Prop :=
  exists q, sl_rqp sl = Some q /\ slot_for r.1 r.2 q (sl_rw sl).

(** The result of building a request of [l] bytes. *)
Definition built (o : one_result) (q : rw_request) (u : uio) (mem : list Z) (len : Z) : Prop :=
  o_error o = 0 /\ o_rqp o = Some q /\ 0 < o_len o <= Z.min max len /\
  (full_alloc W good -> o_len o = Z.min max len) /\ rw_fid (o_rq o) = fid /\
  q_read q = do_read /\ q_offset q = uio_offset u /\ q_len q = o_len o /\
  (if do_read then auio (o_rq o) = u else q_data q = slice mem (uio_pos u) (o_len o)).

Lemma alloc_run s nb l : SI s -> 0 < l -> exists g s', net (net_alloc do_read nb l) s = Some (inr g, s') /\ quiet s s' /\
  0 < g <= l /\ (full_alloc W good -> g = l).
Proof.
  intros HS Hl. destruct (alloc_good do_read nb l (s_net s)) as (g & w' & E & Hg & Hv & Hgl); [apply HS|done|].
  destruct (net_quiet _ s _ _ HS E Hg Hv) as (s' & E' & Hq). exists g, s'. split; [done|]. split; [done|].
  split; [done|]. intros HF. destruct (HF do_read nb l (s_net s)) as (w2 & E2); [apply HS|done|]. congruence.
Qed.

Lemma len32_eq len : 0 < len < 2 ^ 31 -> u32 (Z.min max len) = Z.min max len.
Proof. intros Hl. apply u32_small. lia. Qed.

Lemma read_build s len rw : do_read = true -> SI s -> rw_fid rw = fid -> 0 < len < 2 ^ 31 ->
  exists o q s', smb2_smb_read_one se 1 true len 0 rw s = Some (o, s') /\ quiet s s' /\
    built o q (auio rw) (s_mem s) len.
Proof.
  intros Ed HS Hf Hl. unfold smb2_smb_read_one. set (nb := has _ _).
  set (rw1 := if nb then _ else _). assert (rw_fid rw1 = fid /\ auio rw1 = auio rw) as [Hf1 Hu1] by (unfold rw1; by destruct nb).
  clearbody rw1 nb. cbn [read_one_loop]. unfold built. rewrite Ed in *. rewrite <- Hmax.
  rewrite len32_eq by done.
  destruct (alloc_run s nb (Z.min max len)) as (g & s1 & E1 & Q1 & Hg & HF); [done|lia|].
  rewrite Ed in E1. rewrite (bind_some _ _ _ _ _ E1). cbv beta iota.
  rewrite (bind_some _ _ _ s1 (s_allow s1)) by done. rewrite Hf1.
  destruct (kernel_fid_run s1) as (sf & s2 & E2 & Q2); [apply Q1|]. rewrite (bind_some _ _ _ _ _ E2). cbv beta iota.
  eexists _, _, s2. split; [done|]. split; [by eapply quiet_trans|]. cbn [o_error o_rqp o_len o_rq q_read q_offset q_len]. rewrite Hu1. split_and!; try done; lia.
Qed.

Lemma write_build s len rw : do_read = false -> SI s -> rw_fid rw = fid -> 0 < len < 2 ^ 31 -> len <= uio_resid (auio rw) ->
  exists o q s', smb2_smb_write_one se 1 true len 0 rw s = Some (o, s') /\ quiet s s' /\
    built o q (auio rw) (s_mem s) len.
Proof.
  intros Ed HS Hf Hl Hr. unfold smb2_smb_write_one, built. cbn [write_one_loop]. rewrite Ed in *. rewrite <- Hmax.
  rewrite len32_eq by done.
  destruct (alloc_run s false (Z.min max len)) as (g & s1 & E1 & Q1 & Hg & HF); [done|lia|].
  rewrite Ed in E1. rewrite (bind_some _ _ _ _ _ E1). cbv beta iota.
  destruct (net_malloc_run s1) as (s2 & E2 & Q2); [apply Q1|]. rewrite (bind_some _ _ _ _ _ E2). cbn [negb]. rewrite Hf.
  destruct (kernel_fid_run s2) as (sf & s3 & E3 & Q3); [apply Q2|]. rewrite (bind_some _ _ _ _ _ E3). cbv beta iota.
  destruct (net_malloc_run s3) as (s4 & E4 & Q4); [apply Q3|]. rewrite (bind_some _ _ _ _ _ E4). cbn [negb].
  rewrite (bind_some _ _ _ _ _ (getS_run s4)).
  assert (Q : quiet s s4) by eauto using quiet_trans.
  eexists _, _, s4. split; [done|]. split; [done|]. cbn [o_error o_rqp o_len o_rq q_read q_offset q_len q_data rw_fid set_auio]. split_and!; try done; [lia..|].
  destruct Q as (_ & _ & ->). unfold mb_put_uio, slice. by rewrite Z.min_l by lia.
Qed.

(** Filling a slot requests the next bytes of the master. *)
Lemma fill_run s master sl a res : SI s -> rw_fid master = fid -> auio master = Uio (P + a) (O + a) res ->
  0 <= a -> 0 < res -> a + res <= L ->
  exists e l sl' s', smb2_smb_read_write_fill se do_read qs master sl s =
    Some ((e, set_auio (Uio (P + (a + l)) (O + (a + l)) (res - l)) master, sl'), s') /\ quiet s s' /\
    (e = 0 \/ e = ENOBUFS) /\ in_use sl' = in_use sl /\ slot_req sl' (a, l) /\ 0 < l <= res /\
    (full_alloc W good -> l = Z.min (Z.min max qs) res).
Proof.
  intros HS Hf Hu Ha Hres HL. unfold smb2_smb_read_write_fill. rewrite Hu. cbn [uio_resid].
  destruct (net_malloc_run s HS) as (s1 & E1 & Q1). rewrite (bind_some _ _ _ _ _ E1). cbn [negb].
  set (rw := RwRq _ _ _ _ _ _ _ _ _). set (len := Z.min qs res).
  assert (exists o q s2, (if do_read then smb2_smb_read_one se 1 true len 0 rw else smb2_smb_write_one se 1 true len 0 rw) s1 =
    Some (o, s2) /\ quiet s1 s2 /\ built o q (auio rw) (s_mem s1) len) as (o & q & s2 & E2 & Q2 & HB).
  { assert (HS1 : SI s1) by apply Q1. assert (0 < len < 2 ^ 31 /\ len <= res) as [Hl Hr] by lia.
    destruct (bool_cases do_read) as [Ed|Ed].
    - destruct (read_build s1 len rw Ed HS1 Hf Hl) as (o & q & s2 & E). exists o, q, s2. split; [rewrite Ed; apply E|apply E].
    - destruct (write_build s1 len rw Ed HS1 Hf Hl Hr) as (o & q & s2 & E). exists o, q, s2. split; [rewrite Ed; apply E|apply E]. }
  rewrite (bind_some _ _ _ _ _ E2). destruct HB as (Ee & Eq & Hl & HF & Hrf & Hqr & Hqo & Hql & Hd). rewrite Eq.
  assert (o_len o <= res /\ o_len o <= Z.min max qs) as [Hres1 Hcap] by (unfold len in Hl; lia).
  eexists _, (o_len o), _, s2. split; [|split; [by eapply quiet_trans|]].
  { rewrite mret_run. do 3 f_equal. unfold smbfs_uio_update, uio_advance. cbn [uio_pos uio_offset uio_resid].
    rewrite u64_small by lia. rewrite Z.min_l by lia. by rewrite !Z.add_assoc. }
  split; [destruct (_ =? _); auto|]. split; [done|].
  split; [|split; [lia|intros HA; specialize (HF HA); unfold len in HF; lia]].
  exists q. split; [done|]. cbn [fst snd sl_rw]. unfold slot_for. cbn in Hqo.
  split_and!; try done; try lia. destruct (bool_cases do_read) as [Ed|Ed]; rewrite Ed in Hd |- *.
  - cbn. rewrite Hd. eexists. split; [done|]. lia.
  - rewrite Hd. cbn. f_equal. apply (Hsrc (view (s_net s1))); [done|]. apply Q1.
Qed.

(** ** The invariant of the window *)

(** One exchange delivers the first [n] bytes of its range.  A short one is a read, of a
    share that is not [IPC$], and credits do not shorten the request for the rest. *)
Definition exchange : Prop := forall s fails rw q a l, SI s -> slot_for a l q rw ->
  exists r s1 s2 n rw' fails', net (net_reply q) s = Some (r, s1) /\ r_error r = 0 /\
    parse_slot se do_read r fails rw s1 = Some ((fails', (0, n, rw')), s2) /\ SI s2 /\
    0 < n <= l /\ io_len rw' = l /\ rw_fid rw' = fid /\
    (forall i, delivered s i -> delivered s2 i) /\ (forall i, a <= i < a + n -> delivered s2 i) /\
    (n < l -> do_read = true /\ ipc_share se = false /\ full_alloc W good /\
       exists res, auio rw' = Uio (P + (a + n)) (O + (a + n)) res).

Context (Hx : exchange).

Definition covered (T : list (Z * Z)) (i : Z) : Prop := exists r, r ∈ T /\ r.1 <= i < r.1 + r.2.
Definition total (T : list (Z * Z)) : Z := foldr (fun r n => r.2 + n) 0 T.

Lemma total_app T U : total (T ++ U) = total T + total U.
Proof. induction T as [|r T IH]; [done|]. cbn [app]. change (r.2 + total (T ++ U) = r.2 + total T + total U). lia. Qed.

(** The ranges [T] are in flight, the master is at [m], the rest is delivered; [r0] is
    the count at the start. *)
Definition winv (r0 : Z) s (w : window) (m : Z) (T : list (Z * Z)) : Prop :=
  SI s /\ 0 <= m <= L /\ auio (w_master w) = Uio (P + m) (O + m) (L - m) /\ rw_fid (w_master w) = fid /\
  w_reconnect w = false /\ w_rresid w + total T = r0 + m /\
  (forall i, 0 <= i < L -> m <= i \/ covered T i \/ delivered s i).

Definition slot_ok (sl : slot) (t : list (Z * Z)) : Prop :=
  if in_use sl then exists r, t = [r] /\ slot_req sl r else t = [].

Lemma send_run s sl r : SI s -> slot_req sl r ->
  exists s' sl', send_slot sl s = Some ((0, sl'), s') /\ quiet s s' /\ slot_ok sl' [r] /\ in_use sl' = true.
Proof.
  intros HS (q & Eq & Hq). unfold send_slot. rewrite Eq.
  destruct (enqueue_good q (s_net s)) as (w' & E & Hg & Hv); [apply HS|].
  destruct (net_quiet _ s _ _ HS E Hg Hv) as (s' & E' & Q). rewrite (bind_some _ _ _ _ _ E').
  eexists s', _. split; [done|]. split; [done|]. split; [|done]. exists r. split; [done|]. by exists q.
Qed.

Lemma resend_run s w e sl r : SI s -> slot_req sl r -> e = 0 \/ e = ENOBUFS ->
  exists e' s' sl', resend_slot single w e sl s = Some ((VAgain, with_error e' w, sl'), s') /\ quiet s s' /\
    slot_ok sl' [r] /\ in_use sl' = true.
Proof.
  intros HS Hr He. unfold resend_slot.
  assert (negb (e =? 0) && negb (e =? ENOBUFS) = false) as -> by (by destruct He as [->| ->]).
  destruct single.
  - destruct (send_run s sl r HS Hr) as (s' & sl' & E & Q & Hok). rewrite (bind_some _ _ _ _ _ E).
    by exists 0, s', sl'.
  - destruct Hr as (q & Eq & Hq). rewrite Eq. destruct (proxy_good q (s_net s)) as (w' & E & Hg & Hv); [apply HS|].
    destruct (net_quiet _ s _ _ HS E Hg Hv) as (s' & E' & Q). rewrite (bind_some _ _ _ _ _ E').
    eexists e, s', _. split; [done|]. split; [done|]. split; [|done]. exists r. split; [done|]. by exists q.
Qed.

Definition with_master (m : smb2_rw_rq) (w : window) : window :=
  Win m (w_rresid w) (w_fails w) (w_error w) (w_reconnect w).

Lemma winv_quiet r0 s s' w m T : winv r0 s w m T -> quiet s s' -> winv r0 s' w m T.
Proof.
  intros (? & ? & ? & ? & ? & ? & Hcov) Q. unfold winv. split_and!; try (done || lia || apply Q).
  intros i Hi. destruct (Hcov i Hi) as [?|[?|?]]; eauto using quiet_delivered.
Qed.

(** A fill puts the next range in flight. *)
Lemma winv_fill r0 s w m T l master' : winv r0 s w m T -> 0 < l <= L - m ->
  master' = set_auio (Uio (P + (m + l)) (O + (m + l)) (L - m - l)) (w_master w) ->
  winv r0 s (with_master master' w) (m + l) (T ++ [(m, l)]).
Proof.
  intros (? & ? & ? & ? & ? & Hsum & Hcov) Hl ->. unfold winv. cbn [with_master w_master w_rresid w_reconnect set_auio auio rw_fid].
  rewrite total_app. change (total [(m, l)]) with (l + 0). split_and!; try (done || lia); [f_equal; lia|].
  intros i Hi. destruct (Hcov i Hi) as [?|[(r & Hin & Hr)|?]]; [|right; left|by right; right].
  - destruct (decide (i < m + l)); [right; left|left; lia]. exists (m, l). split; [|cbn; lia].
    apply elem_of_app. right. by left.
  - exists r. split; [|done]. apply elem_of_app. by left.
Qed.

#[local] Instance total_proper : Proper ((≡ₚ) ==> (=)) total.
Proof. intros T U HP. unfold total. apply foldr_permutation; [apply _..|intros; lia|done]. Qed.

Lemma winv_perm r0 s w m T U : T ≡ₚ U -> winv r0 s w m T -> winv r0 s w m U.
Proof.
  intros HP (? & ? & ? & ? & ? & Hsum & Hcov). unfold winv. rewrite HP in Hsum. split_and!; try (done || lia).
  intros i Hi. destruct (Hcov i Hi) as [?|[(r & Hin & Hr)|?]]; auto. right; left. exists r. by rewrite <- HP.
Qed.

(** The first [n] bytes of a range have been delivered. *)
Lemma cover_step s s2 m a l n T : (forall i, 0 <= i < L -> m <= i \/ covered ((a, l) :: T) i \/ delivered s i) ->
  (forall i, delivered s i -> delivered s2 i) -> (forall i, a <= i < a + n -> delivered s2 i) ->
  forall i, 0 <= i < L -> m <= i \/ covered ((a + n, l - n) :: T) i \/ delivered s2 i.
Proof.
  intros Hcov Hmono Hnew i Hi. destruct (Hcov i Hi) as [?|[([b k] & Hin & Hb)|?]]; [by left| |by right; right; apply Hmono].
  cbn in Hb. apply elem_of_cons in Hin as [[= -> ->]|Hin].
  - right. destruct (decide (i < a + n)); [right; apply Hnew; lia|left].
    exists (a + n, l - n). split; [by left|]. cbn. lia.
  - right; left. exists (b, k). split; [by right|done].
Qed.

(** A range that is delivered in full is gone. *)
Lemma winv_done r0 s w m a l T : winv r0 s w m ((a + l, l - l) :: T) -> winv r0 s w m T.
Proof.
  intros (? & ? & ? & ? & ? & Hsum & Hcov). change (total (_ :: T)) with (l - l + total T) in Hsum.
  unfold winv. split_and!; try (done || lia). intros i Hi.
  destruct (Hcov i Hi) as [?|[([b k] & [[= -> ->]|Hin]%elem_of_cons & Hb)|?]]; auto; [cbn in Hb; lia|].
  right; left. by exists (b, k).
Qed.

(** A slot is filled and sent. *)
Lemma requeue_run s master sl a res (f : smb2_rw_rq -> window) : SI s -> rw_fid master = fid ->
  auio master = Uio (P + a) (O + a) res -> 0 <= a -> 0 < res -> a + res <= L ->
  exists e' l sl' s', ('(e, m3, sl) ← smb2_smb_read_write_fill se do_read qs master sl; resend_slot single (f m3) e sl) s =
      Some ((VAgain, with_error e' (f (set_auio (Uio (P + (a + l)) (O + (a + l)) (res - l)) master)), sl'), s') /\
    quiet s s' /\ slot_ok sl' [(a, l)] /\ 0 < l <= res /\ (full_alloc W good -> l = Z.min (Z.min max qs) res).
Proof.
  intros HS Hf Hu Ha Hr HL.
  destruct (fill_run s master sl a res HS Hf Hu Ha Hr HL) as (e & l & sl1 & s1 & E1 & Q1 & He & _ & Hr1 & Hl & HF).
  rewrite (bind_some _ _ _ _ _ E1).
  destruct (resend_run s1 (f (set_auio (Uio (P + (a + l)) (O + (a + l)) (res - l)) master)) e sl1 (a, l))
    as (e' & s2 & sl2 & E2 & Q2 & Hok & _); [apply Q1|done..|].
  exists e', l, sl2, s2. split; [exact E2|]. split; [by eapply quiet_trans|done].
Qed.

(** What one slot does: its range is replaced by what is in flight then. *)
Definition slot_step (w w' : window) (m m' : Z) (t t' : list (Z * Z)) (v : verdict) : Prop :=
  m <= m' /\ w_rresid w <= w_rresid w' /\ (t <> [] -> w_rresid w < w_rresid w') /\
  match v with
  | VIdle => t' = [] /\ if decide (t = []) then w_error w' = w_error w else w_error w' = 0 /\ m' = L
  | VAgain => t' <> []
  | VBad => False
  end.

Lemma wait_slot_run r0 s w m sl t T : winv r0 s w m (t ++ T) -> slot_ok sl t ->
  exists v w' sl' s' m' t', wait_slot se do_read single qs w sl s = Some ((v, w', sl'), s') /\
    winv r0 s' w' m' (t' ++ T) /\ slot_ok sl' t' /\ slot_step w w' m m' t t' v.
Proof.
  intros (HS & Hm & Hu & Hfid & Hre & Hsum & Hcov) Hok. unfold wait_slot, slot_ok in *.
  destruct (in_use sl) eqn:Ein; cbn [negb].
  2:{ subst t. eexists _, _, _, _, m, []. split; [done|]. split; [unfold winv; split_and!; (done || lia)|]. split; [by rewrite Ein|].
      unfold slot_step. split_and!; try done; lia. }
  destruct Hok as ([a l] & -> & q & Eq & Hq). rewrite Eq. cbn [fst snd] in Hq.
  destruct (Hx s (w_fails w) (sl_rw sl) q a l HS Hq)
    as (r & s1 & s2 & n & rw' & fails' & E1 & He & E2 & HS2 & Hn & Hio & Hrf & Hmono & Hnew & Hshort).
  rewrite (bind_some _ _ _ _ _ E1). rewrite He. cbn [Z.eqb negb]. cbn [sl_rw].
  rewrite (bind_some _ _ _ _ _ E2). cbn [Z.eqb negb].
  set (m1 := if rw_ret_ntstatus (w_master w) =? 0 then _ else _).
  set (m2 := set_rw_ret_len _ m1).
  assert (auio m2 = auio (w_master w) /\ rw_fid m2 = rw_fid (w_master w)) as [Em2 Ef2].
  { unfold m2, m1. by destruct (_ =? 0). }
  clearbody m2. clear m1. rewrite Hio.
  destruct Hq as (_ & _ & _ & _ & _ & Ha & Hl & HaL & _).
  pose proof (cover_step s s2 m a l n T Hcov Hmono Hnew) as Hdel.
  change (total ([(a, l)] ++ T)) with (l + total T) in Hsum.
  assert (winv r0 s2 (Win m2 (w_rresid w + n) fails' 0 (w_reconnect w)) m ((a + n, l - n) :: T)) as Hw2.
  { unfold winv. cbn [w_master w_rresid w_reconnect]. rewrite Em2, Ef2. change (total (_ :: T)) with (l - n + total T).
    split_and!; (done || lia). }
  destruct (do_read && (n <? l) && negb (ipc_share se)) eqn:Esh.
  { apply andb_prop in Esh as [[_ Hlt%Z.ltb_lt]%andb_prop _].
    destruct (Hshort Hlt) as (_ & _ & HF & res & Eu).
    destruct (net_malloc_run s2 HS2) as (s3 & E3 & Q3). rewrite (bind_some _ _ _ _ _ E3). cbn [negb].
    destruct (requeue_run s3 (short_read_rq rw' n) (Slot false rw' (Some q)) (a + n) (l - n)
      (fun _ => Win m2 (w_rresid w + n) fails' 0 (w_reconnect w))) as (e' & l' & sl4 & s4 & E4 & Q4 & Hok4 & Hl4 & HF4);
      [apply Q3|done|unfold short_read_rq; cbn; by rewrite Eu, Hio|lia..|].
    assert (l' = l - n) as -> by (specialize (HF4 HF); lia).
    eexists _, _, _, s4, m, [(a + n, l - n)]. split; [exact E4|].
    split; [exact (winv_quiet _ _ _ _ _ _ Hw2 (quiet_trans _ _ _ Q3 Q4))|].
    split; [exact Hok4|unfold slot_step; cbn; split_and!; (done || lia)]. }
  assert (n = l) as ->.
  { destruct (decide (n < l)) as [Hlt|]; [|lia]. destruct (Hshort Hlt) as (Ed & Ei & _).
    rewrite Ed, Ei, (proj2 (Z.ltb_lt _ _) Hlt) in Esh. done. }
  apply winv_done in Hw2. rewrite Em2, Hu. cbn [uio_resid]. destruct (Z.eqb_spec (L - m) 0) as [Hz|Hz]; cbn [negb].
  { eexists _, _, _, s2, m, []. split; [done|]. split; [exact Hw2|]. split; [done|].
    unfold slot_step. cbn [w_rresid w_error]. split_and!; try (done || lia). destruct (decide _); [done|]. split; [done|lia]. }
  destruct (requeue_run s2 m2 (Slot false rw' (Some q)) m (L - m)
    (fun m3 => Win m3 (w_rresid w + l) fails' 0 (w_reconnect w))) as (e' & l' & sl4 & s4 & E4 & Q4 & Hok4 & Hl4 & _);
    [done|congruence|congruence|lia..|].
  eexists _, _, _, s4, (m + l'), [(m, l')]. split; [exact E4|].
  split; [|split; [exact Hok4|unfold slot_step; cbn; split_and!; (done || lia)]].
  eapply winv_perm; [symmetry; apply Permutation_cons_append|].
  exact (winv_fill _ _ _ _ _ l' _ (winv_quiet _ _ _ _ _ _ Hw2 Q4) Hl4 eq_refl).
Qed.

(** ** Passes over the window *)

Lemma wait_round_run r0 s w m sls ts T : winv r0 s w m (concat ts ++ T) -> Forall2 slot_ok sls ts ->
  exists v w' sls' s' m' ts', wait_round se do_read single qs w sls s = Some ((v, w', sls'), s') /\
    winv r0 s' w' m' (concat ts' ++ T) /\ Forall2 slot_ok sls' ts' /\
    slot_step w w' m m' (concat ts) (concat ts') v.
Proof.
  intros Hw HF. revert s w m T Hw. induction HF as [|sl t sls ts Hsl HF IH]; intros s w m T Hw; cbn [wait_round].
  { eexists _, _, _, s, m, []. split; [done|]. split; [done|]. split; [done|].
    unfold slot_step. cbn. split_and!; (done || lia). }
  cbn [concat] in Hw. rewrite <- app_assoc in Hw.
  destruct (wait_slot_run _ _ _ _ _ _ _ Hw Hsl) as (v & w1 & sl1 & s1 & m1 & t1 & E1 & Hw1 & Hsl1 & Hst).
  rewrite (bind_some _ _ _ _ _ E1).
  assert (winv r0 s1 w1 m1 (concat ts ++ t1 ++ T)) as Hw1'.
  { eapply winv_perm; [|exact Hw1]. rewrite !app_assoc. by rewrite (Permutation_app_comm t1). }
  destruct (IH _ _ _ _ Hw1') as (v2 & w2 & sls2 & s2 & m2 & ts2 & E2 & Hw2 & Hsls2 & Hst2).
  assert (winv r0 s2 w2 m2 (concat (t1 :: ts2) ++ T)) as Hw2'.
  { eapply winv_perm; [|exact Hw2]. cbn [concat]. rewrite !app_assoc. by rewrite (Permutation_app_comm t1). }
  destruct Hst as (? & ? & Hpos & Hv). destruct Hst2 as (? & ? & Hpos2 & Hv2).
  assert (concat (t :: ts) <> [] -> w_rresid w < w_rresid w2) as Hp.
  { intros Hne. destruct (decide (t = [])) as [->|Ht]; [specialize (Hpos2 Hne); lia|specialize (Hpos Ht); lia]. }
  exists (match v, v2 with VAgain, VIdle => VAgain | _, _ => v2 end), w2, (sl1 :: sls2), s2, m2, (t1 :: ts2).
  split; [destruct v; [| |done]; by rewrite (bind_some _ _ _ _ _ E2)|]. split; [done|]. split; [by constructor|].
  unfold slot_step. cbn [concat]. split_and!; try (done || lia).
  destruct Hw2 as (_ & Hm2 & _).
  destruct v; [|destruct v2|done].
  - destruct v2; [|destruct Hv as [-> _]; done|done]. destruct Hv as [-> Hv], Hv2 as [-> Hv2]. split; [done|].
    destruct (decide (concat ts = [])) as [E|E].
    + rewrite E, app_nil_r. destruct (decide (t = [])); [congruence|]. destruct Hv as [? ->]. split; [congruence|lia].
    + destruct (decide (t ++ concat ts = [])) as [Ea|_]; [|done]. by apply app_eq_nil in Ea as [_ ?].
  - intros [? ?]%app_eq_nil. done.
  - intros [? ?]%app_eq_nil. done.
  - done.
Qed.

(** The loop ends with every byte delivered. *)
Lemma wait_window_run r0 fuel s w m sls ts : winv r0 s w m (concat ts) -> Forall2 slot_ok sls ts -> concat ts <> [] ->
  (Z.to_nat (r0 + L - w_rresid w) < fuel)%nat ->
  exists w' sls' s', wait_window se fuel do_read single qs w sls s = Some ((w', sls'), s') /\
    winv r0 s' w' L [] /\ w_error w' = 0 /\ Forall (fun sl => in_use sl = false) sls'.
Proof.
  revert s w m sls ts. induction fuel as [|k IH]; intros s w m sls ts Hw HF Hne Hk; [lia|]. cbn [wait_window].
  rewrite <- (app_nil_r (concat ts)) in Hw.
  destruct (wait_round_run _ _ _ _ _ _ _ Hw HF) as (v & w1 & sls1 & s1 & m1 & ts1 & E1 & Hw1 & HF1 & Hm & Hle & Hpos & Hv).
  rewrite (bind_some _ _ _ _ _ E1). rewrite app_nil_r in Hw1. destruct v; [| |done].
  - destruct Hv as [Ht Hv]. destruct (decide _) as [|_]; [done|]. destruct Hv as [He ->]. rewrite Ht in Hw1.
    exists w1, sls1, s1. split; [done|]. split; [done|]. split; [done|].
    clear -Ht HF1. revert ts1 Ht HF1. induction sls1 as [|sl sls1 IH]; intros ts1 Ht HF1; [constructor|].
    inversion HF1 as [|? t ? ts2 Hsl HF2]; subst. apply app_eq_nil in Ht as [-> Ht]. constructor; [|by eapply IH].
    unfold slot_ok in Hsl. destruct (in_use sl); [|done]. by destruct Hsl as (? & ? & _).
  - apply (IH _ _ _ _ _ Hw1 HF1 Hv). specialize (Hpos Hne).
    assert (total (concat ts1) >= 0) as Ht.
    { clear -HF1. induction HF1 as [|sl t sls ts Hsl HF IH]; [cbn; lia|]. cbn [concat]. rewrite total_app.
      unfold slot_ok in Hsl. destruct (in_use sl); [|subst; cbn; lia].
      destruct Hsl as ([a l] & -> & q & _ & (_ & _ & _ & _ & _ & _ & Hl & _)). cbn in *. lia. }
    destruct Hw1 as (_ & ? & _ & _ & _ & Hsum & _). lia.
Qed.

Lemma drain_run e sls s : Forall (fun sl => in_use sl = false) sls -> drain_window e sls s = Some (e, s).
Proof. induction 1 as [|sl sls Hsl _ IH]; [done|]. cbn [drain_window]. by rewrite Hsl. Qed.

(** ** Filling and sending the window *)

Definition filled_for (sl : slot) (r : Z * Z) : Prop := slot_req sl r /\ in_use sl = negb single.

Lemma fill_window_run r0 n s w m T filled : winv r0 s w m T -> Forall2 filled_for filled T -> m < L ->
  (n <> 0%nat \/ T <> []) ->
  exists master' sls' s' m' T', fill_window se n do_read single qs (w_master w) filled s = Some ((0, master', sls'), s') /\
    winv r0 s' (with_master master' w) m' T' /\ Forall2 filled_for sls' T' /\ T' <> [].
Proof.
  revert s w m T filled. induction n as [|k IH]; intros s w m T filled Hw HF Hm Hn.
  { destruct Hn as [?|Hne]; [done|]. eexists _, _, s, m, T. split; [done|]. by destruct w. }
  cbn [fill_window]. pose proof Hw as (HS & Hm0 & Hu & Hfid & _).
  destruct (net_malloc_run s HS) as (s1 & E1 & Q1). rewrite (bind_some _ _ _ _ _ E1). cbn [negb].
  destruct (fill_run s1 (w_master w) (Slot false zero_rw None) m (L - m))
    as (e & l & sl & s2 & E2 & Q2 & He & Hin & Hr & Hl & _); [apply Q1|done..|lia|lia|lia|].
  rewrite (bind_some _ _ _ _ _ E2). pose proof Hr as (q & Eq & Hq). rewrite Eq.
  assert (negb (e =? 0) && negb (e =? ENOBUFS) = false) as -> by (by destruct He as [->| ->]).
  assert (exists s3, (if single then mret tt else net (net_proxy q)) s2 = Some (tt, s3) /\ quiet s2 s3) as (s3 & E3 & Q3).
  { destruct single; [exists s2; split; [done|apply quiet_refl, Q2]|].
    destruct (proxy_good q (s_net s2)) as (w' & E & Hg & Hv); [apply Q2|]. eapply net_quiet; [apply Q2|done..]. }
  rewrite (bind_some _ _ _ _ _ E3). cbn [auio set_auio uio_resid].
  set (mst := set_auio _ _). set (sls := filled ++ _).
  assert (winv r0 s3 (with_master mst w) (m + l) (T ++ [(m, l)])) as Hw3.
  { eapply winv_quiet; [eapply winv_fill; [exact Hw|done|]|]; [|eauto using quiet_trans].
    unfold mst. reflexivity. }
  assert (Forall2 filled_for sls (T ++ [(m, l)])) as HF3.
  { apply Forall2_app; [done|]. constructor; [|done]. split; [|done]. exists q. by split. }
  assert (T ++ [(m, l)] <> []) as Hne by (by destruct T).
  destruct ((L - m - l =? 0) || (e =? ENOBUFS)) eqn:Eend.
  { rewrite mret_run. by eexists _, _, s3, (m + l), _. }
  apply orb_false_elim in Eend as [Ez%Z.eqb_neq _].
  destruct (IH s3 (with_master mst w) (m + l) _ sls Hw3 HF3) as (mst' & sls' & s' & m' & T' & E' & Hw' & HF' & Hne');
    [lia|by right|]. by exists mst', sls', s', m', T'.
Qed.

Lemma send_window_run s sls T : SI s -> Forall2 filled_for sls T ->
  exists sls' s', send_window sls s = Some ((0, sls'), s') /\ quiet s s' /\
    Forall2 slot_ok sls' (map (fun r => [r]) T).
Proof.
  intros HS HF. revert s HS. induction HF as [|sl r sls T [Hr _] HF IH]; intros s HS; cbn [send_window].
  { eexists _, s. split; [done|]. split; [by apply quiet_refl|constructor]. }
  destruct (send_run s sl r HS Hr) as (s1 & sl1 & E1 & Q1 & Hok & _). rewrite (bind_some _ _ _ _ _ E1). cbn [Z.eqb negb].
  destruct (IH s1 ltac:(apply Q1)) as (sls' & s2 & E2 & Q2 & HF2). rewrite (bind_some _ _ _ _ _ E2).
  eexists _, s2. split; [done|]. split; [by eapply quiet_trans|]. by constructor.
Qed.

Lemma concat_singles (T : list (Z * Z)) : concat (map (fun r => [r]) T) = T.
Proof. induction T as [|r T IH]; [done|]. cbn. by rewrite IH. Qed.

(** An attempt delivers the whole transfer. *)
Lemma attempt_run r0 fails fuel nbr s rw : SI s -> rw_fid rw = fid -> auio rw = Uio P O L -> 0 < L ->
  nbr <> 0%nat -> (Z.to_nat L < fuel)%nat ->
  exists w s', attempt_window se fuel do_read single qs nbr r0 fails (master_of rw) s = Some (w, s') /\
    winv r0 s' w L [] /\ w_error w = 0.
Proof.
  intros HS Hf Hu HL Hn Hk. unfold attempt_window.
  set (w0 := Win (master_of rw) r0 fails 0 false).
  assert (winv r0 s w0 0 []) as Hw0.
  { unfold winv. cbn. rewrite Hu. split_and!; try (done || lia || (f_equal; lia)). }
  destruct (fill_window_run r0 nbr s w0 0 [] [] Hw0) as (mst & sls & s1 & m & T & E1 & Hw1 & HF1 & Hne); [done|done|by left|].
  change (w_master w0) with (master_of rw) in E1.
  rewrite (bind_some _ _ _ _ _ E1). cbn [Z.eqb negb].
  set (w1 := Win mst r0 fails 0 false). change (winv r0 s1 w1 m T) in Hw1.
  assert (exists sls2 s2, (if single then send_window sls else mret (0, sls)) s1 = Some ((0, sls2), s2) /\ quiet s1 s2 /\
    Forall2 slot_ok sls2 (map (fun r => [r]) T)) as (sls2 & s2 & E2 & Q2 & HF2).
  { destruct (bool_cases single) as [Es|Es].
    - destruct (send_window_run s1 sls T ltac:(apply Hw1) HF1) as (sls2 & s2 & E2 & ?). exists sls2, s2. rewrite Es. by split.
    - exists sls, s1. rewrite Es. split; [done|]. split; [apply quiet_refl, Hw1|].
      clear -HF1 Es. induction HF1 as [|sl r sls T [Hr Hin] HF IH]; [constructor|]. constructor; [|done].
      unfold slot_ok. rewrite Hin, Es. by exists r. }
  destruct (wait_window_run r0 fuel s2 w1 m sls2 (map (fun r => [r]) T)) as (w3 & sls3 & s3 & E3 & Hw3 & He3 & Hd).
  { rewrite concat_singles. by eapply winv_quiet. }
  { done. }
  { by rewrite concat_singles. }
  { cbn. lia. }
  exists (with_error 0 w3), s3. split; [|split; [by destruct w3; cbn in He3; subst|done]].
  assert (forall (f : window * list slot -> M (rw_state W) window),
    ((let w := w1 in '(e, sls0) ← (if single then send_window sls else mret (0, sls));
      if negb (e =? 0) then mret (with_error e w, sls0)
      else wait_window se fuel do_read single qs (with_error e w) sls0) ≫= f) s1 = f (w3, sls3) s3) as HB.
  { intros f. apply bind_some. cbv zeta. rewrite (bind_some _ _ _ _ _ E2). cbn [Z.eqb negb]. exact E3. }
  rewrite HB. rewrite (bind_some _ _ _ _ _ (drain_run _ _ _ Hd)). by rewrite He3.
Qed.

Lemma window_run len r0 fails fuel nbr s rw : SI s -> rw_fid rw = fid -> auio rw = Uio P O L -> 0 < L ->
  nbr <> 0%nat -> (Z.to_nat L < fuel)%nat ->
  exists rw' s', window_loop se (S fuel) do_read single qs nbr len r0 fails rw s = Some (One 0 len (r0 + L) rw' None, s') /\
    SI s' /\ (forall i, 0 <= i < L -> delivered s' i) /\
    auio rw' = smbfs_uio_update (r0 + L) (auio rw) /\ rw_fid rw' = fid.
Proof.
  intros HS Hf Hu HL Hn Hk. cbn [window_loop].
  destruct (net_malloc_run s HS) as (s1 & E1 & Q1). rewrite (bind_some _ _ _ _ _ E1). cbn [negb].
  destruct (attempt_run r0 fails fuel nbr s1 rw) as (w & s2 & E2 & Hw & He); [apply Q1|done..|].
  rewrite (bind_some _ _ _ _ _ E2). destruct Hw as (HS2 & _ & _ & _ & Hre & Hsum & Hcov).
  change (total []) with 0 in Hsum. rewrite Hre, He. cbn [Z.eqb orb]. rewrite mret_run.
  eexists _, s2. split; [repeat f_equal; lia|]. split; [done|]. split; [|cbn; split; [f_equal; lia|done]].
  intros i Hi. destruct (Hcov i Hi) as [?|[(r & Hin & _)|?]]; [lia| |done]. by apply elem_of_nil in Hin.
Qed.
End Window.
