(* ===== verification/RwTheorems.v ===== *)
(** * Reads and writes of files: what arrives *)
From S2P Require Import Prelude Chain Parser Brl Rw RwWindow.
From S2P Require Fid.
Import Errno.
Local Open Scope Z_scope.

(** ** Reads *)

(** A server that answers reads inside of the file with bytes of the file, at least one
    and at most what was asked for. *)
Class ReadServer (W : Type) `{Net W} (good : W -> Prop) (view : W -> list Z) := {
  reply_read q w : good w -> q_read q = true -> 0 <= q_offset q -> 0 < q_len q ->
    q_offset q + q_len q <= Z.of_nat (length (view w)) ->
    exists n r w', net_reply q w = (r, w') /\ good w' /\ view w' = view w /\ r_error r = 0 /\
      0 < n <= q_len q /\ r_bytes r = read_reply_bytes (slice (view w) (q_offset q) n);
  simple_read q w : good w -> q_read q = true -> 0 <= q_offset q -> 0 < q_len q ->
    q_offset q + q_len q <= Z.of_nat (length (view w)) ->
    exists n r w', net_simple q w = (r, w') /\ good w' /\ view w' = view w /\ r_error r = 0 /\
      0 < n <= q_len q /\ r_bytes r = read_reply_bytes (slice (view w) (q_offset q) n)
}.

(** Reads are answered in full. *)
Definition full_replies (W : Type) `{Net W} (good : W -> Prop) (view : W -> list Z) : Prop :=
  forall q w r w', good w -> q_read q = true -> 0 <= q_offset q -> 0 < q_len q < 2 ^ 31 ->
    q_offset q + q_len q <= Z.of_nat (length (view w)) -> net_reply q w = (r, w') ->
    r_bytes r = read_reply_bytes (slice (view w) (q_offset q) (q_len q)).

Section Read.
Context {W : Type} `{Net W} (good : W -> Prop) (view : W -> list Z) `{!GoodNet W good view} `{!ReadServer W good view}.
Context (se : rw_session) (fid : Z) (Hrx : 0 < session_rxmax se < 2 ^ 31).
Context (F mem0 : list Z) (P O L : Z).
Context (Hin : 0 <= P /\ 0 <= O /\ 0 <= L /\ P + L <= Z.of_nat (length mem0) /\ O + L <= Z.of_nat (length F)).
Implicit Types s : rw_state W.

(** Outside of its place the buffer is as it was, and so is the file. *)
Definition read_extra (v mem : list Z) : Prop :=
  v = F /\ length mem = length mem0 /\
  forall i, ~ (Z.to_nat P <= i < Z.to_nat (P + L))%nat -> mem !! i = mem0 !! i.
Definition read_deliv (v mem : list Z) (i : Z) : Prop := mem !! Z.to_nat (P + i) = F !! Z.to_nat (O + i).

(** Bytes of the file are copied to their place. *)
Lemma read_copy v mem a n : read_extra v mem -> 0 <= a -> 0 <= n -> a + n <= L ->
  let mem' := splice (Z.to_nat (P + a)) (slice F (O + a) n) mem in
  read_extra v mem' /\ (forall i, read_deliv v mem i -> 0 <= i -> read_deliv v mem' i) /\
  (forall i, a <= i < a + n -> read_deliv v mem' i).
Proof.
  intros (-> & Hl & Hout) Ha Hn HaL mem'. assert (length (slice F (O + a) n) = Z.to_nat n) as Els by (apply length_slice; lia).
  assert (forall i, mem' !! i = if decide (Z.to_nat (P + a) <= i < Z.to_nat (P + a) + Z.to_nat n)%nat
    then slice F (O + a) n !! (i - Z.to_nat (P + a))%nat else mem !! i) as Hlk.
  { intros i. unfold mem'. rewrite lookup_splice by lia. by rewrite Els. }
  assert (forall i, a <= i < a + n -> read_deliv F mem' i) as Hnew.
  { intros i Hi. unfold read_deliv. rewrite Hlk, decide_True by lia. rewrite lookup_slice by lia. f_equal. lia. }
  split; [split; [done|split]|split; [|done]].
  - unfold mem'. rewrite length_splice; lia.
  - intros i Hi. rewrite Hlk, decide_False by lia. by apply Hout.
  - intros i Hd Hi. destruct (decide (a <= i < a + n)); [by apply Hnew|]. unfold read_deliv. rewrite Hlk, decide_False by lia. done.
Qed.

Lemma exchange_read qs : 0 < qs < 2 ^ 31 ->
  (full_alloc W good /\ ipc_share se = false) \/ full_replies W good view ->
  exchange good view se true fid P O L [] read_extra (fun v mem i => 0 <= i /\ read_deliv v mem i) (session_rxmax se) qs.
Proof.
  intros Hqs Hfull s fails rw q a l (Hg & Hfid & Hex) (Hr & Hoff & Hlen & Hio & Hrf & Ha & Hl & HaL & res & Hu & Hres).
  pose proof Hex as (Ev & Hml & _).
  destruct (reply_read q (s_net s)) as (n & r & w' & E & Hg' & Hv & He & Hn & Hb); [done|done|lia|lia|rewrite Ev; lia|].
  unfold net. rewrite E. eexists r, _.
  set (data := slice (view (s_net s)) (q_offset q) n) in *.
  assert (Z.of_nat (length data) = n) as Hd by (unfold data; rewrite length_slice; rewrite ?Ev; lia).
  destruct (read_copy _ _ a n Hex) as (Hex' & Hmono & Hnew); [lia..|].
  set (s1 := RwState w' (s_mem s) (s_share s) (s_allow s)).
  eexists _, n, _, fails. split; [done|]. split; [done|]. split.
  { unfold parse_slot. rewrite Hb. rewrite (bind_some _ _ _ _ _ (parse_read_run data 0 rw s1 ltac:(lia) ltac:(rewrite Hu; cbn; lia))).
    rewrite mret_run, Hd, Hu. reflexivity. }
  assert (data = slice F (O + a) n) as Ed by (unfold data; by rewrite Ev, Hoff).
  cbn [uio_pos] in *. unfold SI, delivered. cbn [s_net s_mem s_share s1]. rewrite Ed, Hv.
  split; [by split_and!|]. split; [lia|]. split; [done|]. split; [done|].
  split; [intros i [? ?]; split; [done|by apply Hmono]|]. split; [intros i Hi; split; [lia|by apply Hnew]|].
  intros Hlt. destruct Hfull as [[HF Hipc]|HF].
  - split_and!; try done. exists (res - n). cbn. unfold uio_advance. cbn. f_equal; lia.
  - exfalso. assert (q_offset q + q_len q <= Z.of_nat (length (view (s_net s)))) as Hq by (rewrite Ev; lia).
    specialize (HF q _ _ _ Hg Hr ltac:(lia) ltac:(lia) Hq E). rewrite Hb in HF.
    assert (length (read_reply_bytes data) = length (read_reply_bytes (slice (view (s_net s)) (q_offset q) (q_len q)))) as EL by (by rewrite HF).
    unfold read_reply_bytes in EL. rewrite !length_app, !length_le_bytes in EL.
    rewrite (length_slice _ _ (q_len q)) in EL by (rewrite ?Ev; lia). lia.
Qed.

(** ** Reads through the window *)

Abbreviation RSI := (SI good view fid read_extra).
Abbreviation got s a := (forall i, 0 <= i < a -> read_deliv (view (s_net s)) (s_mem s) i).

Lemma async_window fuel s rw : RSI s -> rw_fid rw = fid -> auio rw = Uio P O L -> has (rw_flags rw) SMB2_SYNC_IO = false ->
  smb2_session_max_io_size se true < L < 2 ^ 63 -> (Z.to_nat L + 1 < fuel)%nat ->
  (full_alloc W good /\ ipc_share se = false) \/ full_replies W good view ->
  exists rw' s', smb2_smb_read_write_async se fuel true L 0 rw s = Some (One 0 L L rw' None, s') /\
    RSI s' /\ got s' L /\ auio rw' = Uio (P + L) (O + L) 0.
Proof.
  intros HS Hf Hu Hsync Hmax Hk Hfull. unfold smb2_smb_read_write_async.
  rewrite (proj2 (Z.leb_gt _ _)), Hsync by lia. cbn [orb].
  destruct (quanta_good true L (s_net s)) as (st & qs & qn & w' & E & Hg & Hv & Hqs & Hqn); [apply HS|].
  destruct (net_quiet good view fid read_extra _ s _ _ HS E Hg Hv) as (s1 & E1 & Q1). rewrite (bind_some _ _ _ _ _ E1).
  cbv beta iota. destruct (net_malloc_run good view fid read_extra s1) as (s2 & E2 & Q2); [apply Q1|].
  rewrite (bind_some _ _ _ _ _ E2). cbn [negb]. destruct fuel as [|fuel]; [lia|].
  assert (0 < L) by (unfold smb2_session_max_io_size, kMaxSingleIO in Hmax; lia).
  destruct (window_run good view se true st fid P O L [] read_extra (fun v mem i => 0 <= i /\ read_deliv v mem i)
    (session_rxmax se) eq_refl Hrx ltac:(lia) qs Hqs ltac:(done) (exchange_read qs Hqs Hfull) L 0 0 fuel (Z.to_nat qn) s2 rw)
    as (rw' & s' & E' & HS' & Hd & Hu' & Hf'); [apply Q2|done..|lia|lia|].
  exists rw', s'. split; [exact E'|]. split; [done|]. split; [intros i Hi; by apply Hd|].
  rewrite Hu', Hu. unfold smbfs_uio_update, uio_advance. cbn [uio_pos uio_offset uio_resid].
  rewrite u64_small by lia. f_equal; lia.
Qed.

(** ** One read *)

Context (Hfa : full_alloc W good) (Hipc : ipc_share se = false) (Hone : L <= session_rxmax se).

(** From any point on the rest is asked for until it is all there. *)
Lemma read_one_run fuel s rw a nb len rr remaining short : RSI s -> got s a -> 0 <= a < L -> rw_fid rw = fid ->
  auio rw = Uio (P + a) (O + a) (L - a) -> (short = None \/ short = Some (L - a)) -> (Z.to_nat (L - a) < fuel)%nat ->
  exists rw' s', read_one_loop se fuel false nb len rr (L - a) remaining short rw s =
    Some (One 0 (match short with None => L - a | _ => len end) (rr + (L - a)) rw' None, s') /\
    RSI s' /\ got s' L /\ auio rw' = Uio (P + L) (O + L) 0 /\ rw_fid rw' = fid.
Proof.
  revert s rw a len rr remaining short. induction fuel as [|k IH]; intros s rw a len rr remaining short HS Hgot Ha Hf Hu Hsh Hk; [lia|].
  cbn [read_one_loop].
  destruct (alloc_run good view true fid read_extra s nb (L - a) HS) as (g & s1 & E1 & Q1 & Hg & HF); [lia|].
  rewrite (bind_some _ _ _ _ _ E1). rewrite (HF Hfa). clear g E1 Hg HF.
  assert (match short with Some n => negb (L - a =? n) | None => false end = false) as ->.
  { destruct Hsh as [->| ->]; [done|]. by rewrite Z.eqb_refl. }
  rewrite (bind_some _ _ _ s1 (s_allow s1)) by done. rewrite Hf.
  destruct (kernel_fid_run good view fid read_extra s1) as (sf & s2 & E2 & Q2); [apply Q1|].
  rewrite (bind_some _ _ _ _ _ E2). cbv beta iota zeta.
  assert (Q : quiet good view fid read_extra s s2) by (eapply quiet_trans; eassumption). clear E2 Q1 Q2.
  destruct Q as ((Hgd & Hfid & Hex) & Ev2 & Em2).
  set (q := RwRequest _ _ _ _ _ _ _ _ _). pose proof Hex as (EF & Hml & _).
  destruct (simple_read q (s_net s2)) as (n & r & w' & E & Hg' & Hv & He & Hn & Hb);
    [done|done|cbn; rewrite Hu; cbn; lia|cbn; lia|cbn; rewrite Hu, EF; cbn; lia|]. change (q_len q) with (L - a) in Hn.
  set (s3 := RwState w' (s_mem s2) (s_share s2) (s_allow s2)).
  rewrite (bind_some _ _ s2 s3 r) by (unfold net; by rewrite E). rewrite He. cbn [Z.eqb negb].
  set (rw1 := set_rw_ret_ntstatus _ rw). change (auio rw) with (auio rw1) in Hu.
  assert (r_bytes r = read_reply_bytes (slice F (O + a) n)) as Eb.
  { rewrite Hb. unfold q. cbn [q_offset]. change (auio rw) with (auio rw1). by rewrite Hu, EF. }
  assert (Z.of_nat (length (slice F (O + a) n)) = n) as Hd by (rewrite length_slice; lia).
  rewrite Eb. rewrite (bind_some _ _ _ _ _ (parse_read_run (slice F (O + a) n) 0 rw1 s3 ltac:(lia) ltac:(rewrite Hu; cbn; lia))).
  cbn [Z.eqb negb]. rewrite Hd, Hu, Hipc. cbn [negb uio_pos]. rewrite andb_true_r.
  destruct (read_copy _ _ a n Hex) as (Hex' & Hmono & Hnew); [lia..|].
  set (s4 := RwState (s_net s3) (splice (Z.to_nat (P + a)) (slice F (O + a) n) (s_mem s3)) (s_share s3) (s_allow s3)).
  assert (RSI s4) as HS4 by (unfold SI; cbn; rewrite Hv; by split_and!).
  assert (got s4 (a + n)) as Hgot4.
  { intros i Hi. change (read_deliv (view w') (s_mem s4) i). rewrite Hv. destruct (decide (i < a)); [|apply Hnew; lia].
    apply Hmono; [|lia]. rewrite Ev2, Em2. apply Hgot. lia. }
  set (rw2 := set_auio _ _).
  assert (auio rw2 = Uio (P + (a + n)) (O + (a + n)) (L - (a + n))) as Hu2 by (unfold rw2, uio_advance; cbn; f_equal; lia).
  destruct (Z.ltb_spec n (L - a)).
  - replace (L - a - n) with (L - (a + n)) by lia.
    destruct (IH s4 rw2 (a + n) (match short with None => L - a | _ => len end) (rr + n)
      (match short with Some _ => 0 | None => remaining_after remaining (L - a) end) (Some (L - (a + n))) HS4 Hgot4)
      as (rw' & s' & E' & HS' & Hgot' & Hu' & Hf'); [lia|done|done|by right|lia|].
    exists rw', s'. split; [|done]. etransitivity; [exact E'|]. do 3 f_equal; lia.
  - assert (n = L - a) as -> by lia. replace (a + (L - a)) with L in * by lia.
    exists rw2, s4. split; [|split; [done|split; [done|split; [|done]]]].
    + rewrite mret_run. repeat f_equal.
    + rewrite Hu2. f_equal; lia.
Qed.
End Read.

(** ** Reads of any length *)

Lemma splice_eq (off : nat) (bs l m : list Z) : (off + length bs <= length l)%nat -> length m = length l ->
  (forall i, (i < length bs)%nat -> m !! (off + i)%nat = bs !! i) ->
  (forall i, ~ (off <= i < off + length bs)%nat -> m !! i = l !! i) -> m = splice off bs l.
Proof.
  intros Hl Hm Hin Hout. apply list_eq. intros i. rewrite lookup_splice by done. destruct (decide _) as [Hi|Hi]; [|by apply Hout].
  rewrite <- Hin by lia. f_equal. lia.
Qed.

Section Reads.
Context {W : Type} `{Net W} (good : W -> Prop) (view : W -> list Z) `{!GoodNet W good view} `{!ReadServer W good view}.
Context (se : rw_session) (fid : Z) (Hrx : 0 < session_rxmax se < 2 ^ 31).
Implicit Types s : rw_state W.

(** The transfer is inside of the buffer and of the file. *)
Definition in_file (u : uio) (mem file : list Z) : Prop :=
  0 <= uio_pos u /\ 0 <= uio_offset u /\ 0 <= uio_resid u < 2 ^ 63 /\ uio_pos u + uio_resid u <= Z.of_nat (length mem) /\
  uio_offset u + uio_resid u <= Z.of_nat (length file).

(** The buffer with the bytes of the file in their place. *)
Definition read_into (u : uio) (file mem : list Z) : list Z :=
  splice (Z.to_nat (uio_pos u)) (slice file (uio_offset u) (uio_resid u)) mem.

Lemma read_all F mem0 P O L s : read_extra F mem0 P L (view (s_net s)) (s_mem s) ->
  0 <= P /\ 0 <= O /\ 0 <= L /\ P + L <= Z.of_nat (length mem0) /\ O + L <= Z.of_nat (length F) ->
  (forall i, 0 <= i < L -> read_deliv F P O (view (s_net s)) (s_mem s) i) ->
  view (s_net s) = F /\ s_mem s = read_into (Uio P O L) F mem0.
Proof.
  intros (-> & Hl & Hout) Hin Hd. split; [done|]. unfold read_into. cbn [uio_pos uio_offset uio_resid].
  assert (length (slice F O L) = Z.to_nat L) as Els by (apply length_slice; lia).
  apply splice_eq; rewrite ?Els; [lia|done| |intros i Hi; apply Hout; lia].
  intros i Hi. rewrite lookup_slice by lia. specialize (Hd (Z.of_nat i) ltac:(lia)). unfold read_deliv in Hd.
  rewrite !Z2Nat.inj_add, Nat2Z.id in Hd by lia. done.
Qed.

(** A read that is cut into a window of requests brings the bytes of the file to their
    places also when credits shorten the requests, provided the replies are in full. *)
Theorem window_read_correct fuel rw s :
  good (s_net s) -> fid_ok fid (s_share s) -> in_file (auio rw) (s_mem s) (view (s_net s)) -> rw_fid rw = fid ->
  has (rw_flags rw) SMB2_SYNC_IO = false -> smb2_session_max_io_size se true < uio_resid (auio rw) ->
  (full_alloc W good /\ ipc_share se = false) \/ full_replies W good view ->
  (Z.to_nat (uio_resid (auio rw)) + 1 < fuel)%nat ->
  exists rw' s', smb2_smb_read_write_async se fuel true (uio_resid (auio rw)) 0 rw s =
      Some (One 0 (uio_resid (auio rw)) (uio_resid (auio rw)) rw' None, s') /\
    auio rw' = uio_advance (uio_resid (auio rw)) (auio rw) /\
    view (s_net s') = view (s_net s) /\ s_mem s' = read_into (auio rw) (view (s_net s)) (s_mem s).
Proof.
  intros Hg Hf Hin Hfid Hsync Hmax Hfull Hk. destruct (auio rw) as [P O L] eqn:Hu. unfold in_file in Hin.
  cbn [uio_pos uio_offset uio_resid] in *. set (F := view (s_net s)) in *. set (mem0 := s_mem s) in *.
  assert (HS : SI good view fid (read_extra F mem0 P L) s) by (by split_and!).
  destruct (async_window good view se fid Hrx F mem0 P O L ltac:(lia) fuel s rw) as (rw' & s' & E & HS' & Hd & Hu'); try done; [lia|].
  destruct (read_all F mem0 P O L s') as [Ev Em]; [apply HS'|lia|done|].
  exists rw', s'. split; [done|]. split; [|done]. rewrite Hu'. unfold uio_advance. cbn. f_equal; lia.
Qed.

(** C26: a read that is inside of the file fills its place of the buffer with the bytes of
    the file, in however many requests it is cut, in whatever order of the window they
    are sent again, and however short the server's answers are: the result is success, the
    uio is advanced over all of it, and nothing else of the buffer changes.  This needs
    that credits do not shorten the requests. *)
Theorem read_uio_correct rounds fuel u s :
  good (s_net s) -> fid_ok fid (s_share s) -> in_file u (s_mem s) (view (s_net s)) ->
  full_alloc W good -> ipc_share se = false -> (Z.to_nat (uio_resid u) + 2 < fuel)%nat ->
  exists s', smb2_smb_read_uio se (S rounds) fuel fid u s =
      Some ((0, Uio (uio_pos u + uio_resid u) (uio_offset u + uio_resid u) 0), s') /\
    view (s_net s') = view (s_net s) /\ s_mem s' = read_into u (view (s_net s)) (s_mem s).
Proof.
  intros Hg Hf Hin Hfa Hipc Hk. destruct u as [P O L]. unfold in_file in Hin. cbn [uio_pos uio_offset uio_resid] in *.
  set (F := view (s_net s)) in *. set (mem0 := s_mem s) in *.
  assert (HS : SI good view fid (read_extra F mem0 P L) s) by (by split_and!).
  unfold smb2_smb_read_uio.
  destruct (net_malloc_run good view fid (read_extra F mem0 P L) s HS) as (s1 & E1 & Q1). rewrite (bind_some _ _ _ _ _ E1). cbn [negb].
  unfold smb2_smb_read. cbn [auio uio_resid read_loop]. set (rw := RwRq _ _ _ _ _ _ _ _ _).
  destruct (Z.leb_spec L 0) as [HL|HL].
  { assert (L = 0) as -> by lia. exists s1. rewrite !Z.add_0_r. split; [done|]. destruct Q1 as (_ & -> & ->). split; [done|].
    symmetry. apply splice_nil. }
  assert (exists rw' s', smb2_smb_read_write_async se fuel true L 0 rw s1 = Some (One 0 L L rw' None, s') /\
    SI good view fid (read_extra F mem0 P L) s' /\
    (forall i, 0 <= i < L -> read_deliv F P O (view (s_net s')) (s_mem s') i) /\ auio rw' = Uio (P + L) (O + L) 0)
    as (rw' & s' & E' & HS' & Hd & Hu').
  { destruct (decide (L <= smb2_session_max_io_size se true)) as [Hs|Hs].
    - unfold smb2_smb_read_write_async. rewrite (proj2 (Z.leb_le _ _)) by done. cbn [orb]. unfold smb2_smb_read_one.
      cbn [rw_flags rw]. change (has 0 SMB2_CMD_NO_BLOCK) with false. cbv iota zeta.
      assert (L <= session_rxmax se) as Hone by (unfold smb2_session_max_io_size in Hs; lia).
      rewrite Z.min_r, !u32_small by lia.
      destruct (read_one_run good view se fid Hrx F mem0 P O L ltac:(lia) Hfa Hipc Hone fuel s1 rw 0 false L 0 L None)
        as (rw' & s' & E' & HS' & Hd & Hu' & _); [apply Q1|lia|lia|done|unfold rw; cbn; f_equal; lia|by left|lia|].
      exists rw', s'. rewrite Z.sub_0_r in E'. by split.
    - apply async_window; try done; try lia; [apply Q1|]. by left. }
  destruct (read_all F mem0 P O L s') as [Ev Em]; [apply HS'|lia|done|].
  exists s'. split; [|done].
  rewrite (bind_some _ _ s1 s' (0, rw')); [by rewrite mret_run, Hu'|].
  rewrite (bind_some _ _ s1 s' (0, rw')); [done|].
  rewrite (bind_some _ _ _ _ _ E'). cbn [o_error o_rresid o_len o_rq Z.eqb negb].
  rewrite (proj2 (Z.eqb_neq _ _)), Z.ltb_irrefl, Z.sub_diag by lia. by destruct rounds.
Qed.
End Reads.
