(* ===== verification/RwWrite.v ===== *)
(** * Reads and writes of files: what is written *)
From S2P Require Import Prelude Chain Parser Brl Rw RwWindow.
From S2P Require Fid.
Import Errno.
Local Open Scope Z_scope.

(** The file after a write, extended by zeros up to it. *)
Definition write_at (off : Z) (data file : list Z) : list Z :=
  splice (Z.to_nat off) data (file ++ replicate (Z.to_nat off + length data - length file) 0).

Lemma lookup_write_at off data file i : 
  write_at off data file !! i =
    if decide (Z.to_nat off <= i < Z.to_nat off + length data)%nat then data !! (i - Z.to_nat off)%nat
    else (file ++ replicate (Z.to_nat off + length data - length file) 0) !! i.
Proof. apply lookup_splice. rewrite length_app, length_replicate. lia. Qed.

Lemma length_write_at off data file :
  length (write_at off data file) = Nat.max (length file) (Z.to_nat off + length data).
Proof. unfold write_at. rewrite length_splice; rewrite length_app, length_replicate; lia. Qed.

(** A server that does what it is told to write. *)
Class WriteServer (W : Type) `{Net W} (good : W -> Prop) (view : W -> list Z) := {
  reply_write q w : good w -> q_read q = false -> exists r w', net_reply q w = (r, w') /\ good w' /\
    view w' = write_at (q_offset q) (q_data q) (view w) /\ r_error r = 0 /\ r_bytes r = write_reply_bytes (q_len q);
  simple_write q w : good w -> q_read q = false -> exists r w', net_simple q w = (r, w') /\ good w' /\
    view w' = write_at (q_offset q) (q_data q) (view w) /\ r_error r = 0 /\ r_bytes r = write_reply_bytes (q_len q)
}.

Section Write.
Context {W : Type} `{Net W} (good : W -> Prop) (view : W -> list Z) `{!GoodNet W good view} `{!WriteServer W good view}.
Context (se : rw_session) (fid : Z) (Hwx : 0 < session_wxmax se < 2 ^ 31).
Context (F mem0 : list Z) (P O L : Z).
Context (Hin : 0 <= P /\ 0 <= O /\ 0 <= L < 2 ^ 63 /\ P + L <= Z.of_nat (length mem0)).
Implicit Types s : rw_state W.

(** The buffer is only read; outside of the range the file is as it was. *)
Definition write_extra (v mem : list Z) : Prop :=
  mem = mem0 /\ (length F <= length v <= Nat.max (length F) (Z.to_nat (O + L)))%nat /\
  forall i, (i < length F)%nat -> ~ (Z.to_nat O <= i < Z.to_nat (O + L))%nat -> v !! i = F !! i.
Definition write_deliv (v mem : list Z) (i : Z) : Prop := 0 <= i < L /\ v !! Z.to_nat (O + i) = mem0 !! Z.to_nat (P + i).

Lemma write_copy v mem a n : write_extra v mem -> 0 <= a -> 0 <= n -> a + n <= L ->
  let v' := write_at (O + a) (slice mem0 (P + a) n) v in
  write_extra v' mem /\ (forall i, write_deliv v mem i -> write_deliv v' mem i) /\
  (forall i, a <= i < a + n -> write_deliv v' mem i).
Proof.
  intros (-> & Hl & Hout) Ha Hn HaL v'. assert (length (slice mem0 (P + a) n) = Z.to_nat n) as Els by (apply length_slice; lia).
  assert (forall i, v' !! i = if decide (Z.to_nat (O + a) <= i < Z.to_nat (O + a) + Z.to_nat n)%nat
    then slice mem0 (P + a) n !! (i - Z.to_nat (O + a))%nat
    else (v ++ replicate (Z.to_nat (O + a) + Z.to_nat n - length v) 0) !! i) as Hlk.
  { intros i. unfold v'. by rewrite lookup_write_at, Els. }
  assert (forall i, a <= i < a + n -> write_deliv v' mem0 i) as Hnew.
  { intros i Hi. split; [lia|]. rewrite Hlk, decide_True by lia. rewrite lookup_slice by lia. f_equal. lia. }
  split; [split; [done|split]|split; [|done]].
  - unfold v'. rewrite length_write_at, Els. lia.
  - intros i Hi Hno. rewrite Hlk, decide_False by lia. rewrite lookup_app_l by lia. by apply Hout.
  - intros i [Hi Hd]. destruct (decide (a <= i < a + n)); [by apply Hnew|]. split; [done|].
    rewrite Hlk, decide_False by lia. rewrite lookup_app_l; [done|].
    apply lookup_lt_is_Some. rewrite Hd. apply lookup_lt_is_Some. lia.
Qed.

Abbreviation WSI := (SI good view fid write_extra).

Lemma exchange_write qs : 0 < qs < 2 ^ 31 ->
  exchange good view se false fid P O L mem0 write_extra write_deliv (session_wxmax se) qs.
Proof.
  intros Hqs s fails rw q a l (Hg & Hfid & Hex) (Hr & Hoff & Hlen & Hio & Hrf & Ha & Hl & HaL & Hdata).
  destruct (reply_write q (s_net s)) as (r & w' & E & Hg' & Hv & He & Hb); [done|done|].
  unfold net. rewrite E. rewrite Hoff, Hdata in Hv.
  destruct (write_copy _ _ a l Hex) as (Hex' & Hmono & Hnew); [lia..|]. rewrite <- Hv in Hex', Hmono, Hnew.
  set (s1 := RwState w' (s_mem s) (s_share s) (s_allow s)).
  set (counted := negb (s_allow s =? 0) && r_failed_compress r).
  set (fails' := if counted then fails + 1 else fails).
  set (s2 := if counted && (compression_max_fail_cnt se <? fails') then RwState w' (s_mem s) (s_share s) 0 else s1).
  assert (s_net s2 = w' /\ s_mem s2 = s_mem s /\ s_share s2 = s_share s) as (En & Em & Es) by (unfold s2; destruct (counted && _); by split_and!).
  exists r, s1, s2, l, (set_rw_ret_len l rw), fails'. split; [done|]. split; [done|]. split.
  { unfold parse_slot. rewrite (bind_some _ _ _ _ _ (getS_run s1)). cbn [s_allow s1]. fold counted fails'.
    rewrite (bind_some _ _ s1 s2 tt) by (unfold s2; by destruct (counted && _)).
    rewrite Hb, Hlen. by rewrite (bind_some _ _ _ _ _ (parse_write_run l 0 rw s2 ltac:(lia))). }
  unfold SI, delivered. rewrite En, Em, Es. split; [by split_and!|]. split; [lia|]. split; [done|]. split; [done|].
  split; [done|]. split; [done|]. lia.
Qed.

(** ** One write *)

(** What one request does from [a] on: [l] bytes are written. *)
Lemma write_one_run fuel s rw a rr : WSI s -> 0 <= a < L -> rw_fid rw = fid ->
  auio rw = Uio (P + a) (O + a) (L - a) -> L - a < 2 ^ 31 -> fuel <> 0%nat ->
  exists l rw' s', smb2_smb_write_one se fuel false (L - a) rr rw s = Some (One 0 l l rw' None, s') /\ WSI s' /\
    0 < l <= L - a /\ (forall i, write_deliv (view (s_net s)) (s_mem s) i -> write_deliv (view (s_net s')) (s_mem s') i) /\
    (forall i, a <= i < a + l -> write_deliv (view (s_net s')) (s_mem s') i) /\
    auio rw' = Uio (P + (a + l)) (O + (a + l)) (L - (a + l)) /\ rw_fid rw' = fid /\ rw_flags rw' = rw_flags rw.
Proof.
  intros HS Ha Hf Hu Hlen Hk. destruct fuel as [|k]; [done|]. unfold smb2_smb_write_one. cbn [write_one_loop].
  rewrite (u32_small (Z.min _ _)) by lia.
  destruct (alloc_run good view false fid write_extra s false (Z.min (session_wxmax se) (L - a)) HS)
    as (l & s1 & E1 & Q1 & Hl & _); [lia|]. rewrite (bind_some _ _ _ _ _ E1). cbv beta iota.
  destruct (net_malloc_run good view fid write_extra s1) as (s2 & E2 & Q2); [apply Q1|]. rewrite (bind_some _ _ _ _ _ E2). cbn [negb]. rewrite Hf.
  destruct (kernel_fid_run good view fid write_extra s2) as (sf & s3 & E3 & Q3); [apply Q2|]. rewrite (bind_some _ _ _ _ _ E3). cbv beta iota.
  destruct (net_malloc_run good view fid write_extra s3) as (s4 & E4 & Q4); [apply Q3|]. rewrite (bind_some _ _ _ _ _ E4). cbn [negb].
  rewrite (bind_some _ _ _ _ _ (getS_run s4)).
  assert (quiet good view fid write_extra s s4) as ((Hgd & Hfid & Hex) & Ev & Em) by eauto using quiet_trans.
  set (q := RwRequest _ _ _ _ _ _ _ _ _).
  destruct (simple_write q (s_net s4)) as (r & w' & E & Hg' & Hv & He & Hb); [done|done|].
  set (s5 := RwState w' (s_mem s4) (s_share s4) (s_allow s4)).
  rewrite (bind_some _ _ s4 s5 r) by (unfold net; by rewrite E). rewrite He. cbn [Z.eqb negb].
  rewrite Hb. change (q_len q) with l. rewrite (bind_some _ _ _ _ _ (parse_write_run l rr _ s5 ltac:(lia))).
  assert (q_offset q = O + a /\ q_data q = slice mem0 (P + a) l) as [Eo Ed].
  { unfold q. cbn [q_offset q_data]. rewrite Hu. split; [done|]. unfold mb_put_uio, slice. cbn [uio_pos uio_resid].
    destruct Hex as (-> & _). by rewrite Z.min_l by lia. }
  rewrite Eo, Ed in Hv. destruct (write_copy _ _ a l Hex) as (Hex' & Hmono & Hnew); [lia..|].
  rewrite <- Hv in Hex', Hmono, Hnew.
  eexists l, _, s5. split; [done|]. unfold SI. cbn [s_net s_mem s_share s5]. split; [by split_and!|]. split; [lia|].
  split; [intros i Hi; apply Hmono; by rewrite Ev, Em|]. split; [done|]. split; [|done].
  cbn [set_rw_ret_len set_auio auio set_rw_ret_ntstatus]. rewrite Hu. unfold smbfs_uio_update, uio_advance. cbn [uio_pos uio_offset uio_resid].
  rewrite u64_small, Z.min_l by lia. f_equal; lia.
Qed.

Abbreviation put s a := (forall i, 0 <= i < a -> write_deliv (view (s_net s)) (s_mem s) i).

(** Small writes: request after request until nothing is left. *)
Lemma write_small_run rounds fuel s rw a resid : WSI s -> put s a -> 0 <= a <= L -> rw_fid rw = fid ->
  auio rw = Uio (P + a) (O + a) (L - a) -> L - a <= smb2_session_max_io_size se false ->
  fuel <> 0%nat -> (Z.to_nat (L - a) < rounds)%nat ->
  exists rw' s', write_loop se rounds fuel (L - a) resid rw s = Some ((0, rw'), s') /\ WSI s' /\ put s' L /\
    auio rw' = Uio (P + L) (O + L) 0.
Proof.
  revert s rw a resid. induction rounds as [|k IH]; intros s rw a resid HS Hp Ha Hf Hu Hsm Hk Hr; [lia|].
  cbn [write_loop]. destruct (Z.leb_spec (L - a) 0).
  { assert (a = L) as -> by lia. exists rw, s. split; [done|]. split; [done|]. split; [done|]. rewrite Hu. f_equal; lia. }
  unfold smb2_smb_read_write_async. rewrite (proj2 (Z.leb_le _ _)) by done. cbn [orb].
  assert (L - a < 2 ^ 31) by (unfold smb2_session_max_io_size in Hsm; lia).
  destruct (write_one_run fuel s rw a resid HS) as (l & rw1 & s1 & E1 & HS1 & Hl & Hm & Hn & Hu1 & Hf1 & _); [lia|done..|].
  rewrite (bind_some _ _ _ _ _ E1). cbn [o_error o_rresid o_len o_rq Z.eqb negb]. rewrite Z.ltb_irrefl.
  replace (L - a - l) with (L - (a + l)) by lia. apply IH; try done; try lia.
  intros i Hi. destruct (decide (i < a)); [apply Hm, Hp; lia|apply Hn; lia].
Qed.

Lemma write_run rounds fuel s rw : WSI s -> rw_fid rw = fid -> auio rw = Uio P O L -> rw_flags rw = 0 ->
  (Z.to_nat L + 1 < fuel)%nat -> (Z.to_nat L < rounds)%nat ->
  exists rw' s', write_loop se rounds fuel L 0 rw s = Some ((0, rw'), s') /\ WSI s' /\ put s' L /\
    auio rw' = Uio (P + L) (O + L) 0.
Proof.
  intros HS Hf Hu Hfl Hk Hr. destruct (decide (L <= smb2_session_max_io_size se false)) as [Hs|Hs].
  { destruct (write_small_run rounds fuel s rw 0 0 HS) as (rw' & s' & E & ?); try done; try lia.
    - rewrite Hu. f_equal; lia.
    - exists rw', s'. rewrite Z.sub_0_r in E. by split. }
  assert (0 < L) by (unfold smb2_session_max_io_size, kMaxSingleIO in Hs; lia).
  destruct rounds as [|k]; [lia|]. cbn [write_loop]. rewrite (proj2 (Z.leb_gt _ _)) by lia.
  unfold smb2_smb_read_write_async. rewrite (proj2 (Z.leb_gt _ _)), Hfl by lia. change (has 0 SMB2_SYNC_IO) with false. cbn [orb].
  destruct (quanta_good false L (s_net s)) as (st & qs & qn & w' & E & Hg & Hv & Hqs & Hqn); [apply HS|].
  destruct (net_quiet good view fid write_extra _ s _ _ HS E Hg Hv) as (s1 & E1 & Q1).
  destruct (net_malloc_run good view fid write_extra s1) as (s2 & E2 & Q2); [apply Q1|].
  destruct fuel as [|fuel]; [lia|].
  destruct (window_run good view se false st fid P O L mem0 write_extra write_deliv (session_wxmax se) eq_refl Hwx ltac:(lia) qs Hqs)
    with (len := L) (r0 := 0) (fails := 0) (fuel := fuel) (nbr := Z.to_nat qn) (s := s2) (rw := rw)
    as (rw' & s' & E' & HS' & Hd & Hu' & Hf'); [by intros v mem _ [? _]|by apply exchange_write|apply Q2|done..|lia|lia|].
  exists rw', s'. split; [|split; [done|split; [done|]]].
  - rewrite (bind_some _ _ s s' (One 0 L L rw' None)).
    + cbn [o_error o_rresid o_len o_rq Z.eqb negb]. rewrite Z.ltb_irrefl, Z.sub_diag. by destruct k.
    + rewrite (bind_some _ _ _ _ _ E1). cbv beta iota. rewrite (bind_some _ _ _ _ _ E2). exact E'.
  - rewrite Hu', Hu. unfold smbfs_uio_update, uio_advance. cbn [uio_pos uio_offset uio_resid].
    rewrite u64_small by lia. f_equal; lia.
Qed.
End Write.

Section Writes.
Context {W : Type} `{Net W} (good : W -> Prop) (view : W -> list Z) `{!GoodNet W good view} `{!WriteServer W good view}.
Context (se : rw_session) (fid : Z) (Hwx : 0 < session_wxmax se < 2 ^ 31).
Implicit Types s : rw_state W.

(** The bytes of the buffer are in the file, the rest of the file is as it was. *)
Definition written (u : uio) (mem old new : list Z) : Prop :=
  (forall i, 0 <= i < uio_resid u -> new !! Z.to_nat (uio_offset u + i) = mem !! Z.to_nat (uio_pos u + i)) /\
  (forall i, (i < length old)%nat -> ~ (Z.to_nat (uio_offset u) <= i < Z.to_nat (uio_offset u + uio_resid u))%nat ->
     new !! i = old !! i) /\
  (length old <= length new <= Nat.max (length old) (Z.to_nat (uio_offset u + uio_resid u)))%nat.

(** C27: a write brings every byte of its buffer to its offset of the file and changes no
    other byte of the file or of the buffer, in however many requests it is cut and even
    when credits shorten them; the result is success and the uio is advanced over all
    of it. *)
Theorem write_uio_correct rounds fuel u s :
  good (s_net s) -> fid_ok fid (s_share s) -> 0 <= uio_pos u -> 0 <= uio_offset u -> 0 <= uio_resid u < 2 ^ 63 ->
  uio_pos u + uio_resid u <= Z.of_nat (length (s_mem s)) ->
  (Z.to_nat (uio_resid u) + 1 < fuel)%nat -> (Z.to_nat (uio_resid u) < rounds)%nat ->
  exists s', smb2_smb_write_uio se rounds fuel fid u s =
      Some ((0, Uio (uio_pos u + uio_resid u) (uio_offset u + uio_resid u) 0), s') /\
    s_mem s' = s_mem s /\ written u (s_mem s) (view (s_net s)) (view (s_net s')).
Proof.
  intros Hg Hf HP HO HL Hmem Hk Hr. destruct u as [P O L]. cbn [uio_pos uio_offset uio_resid] in *.
  set (F := view (s_net s)). set (mem0 := s_mem s) in *.
  assert (HS : SI good view fid (write_extra F mem0 O L) s).
  { split_and!; try done. split; [done|]. split; [unfold F; lia|done]. }
  unfold smb2_smb_write_uio.
  destruct (net_malloc_run good view fid (write_extra F mem0 O L) s HS) as (s1 & E1 & Q1). rewrite (bind_some _ _ _ _ _ E1). cbn [negb].
  destruct (net_malloc_run good view fid (write_extra F mem0 O L) s1) as (s2 & E2 & Q2); [apply Q1|]. rewrite (bind_some _ _ _ _ _ E2). cbn [negb].
  set (rw := RwRq _ _ _ _ _ _ _ _ _).
  destruct (write_run good view se fid Hwx F mem0 P O L ltac:(lia) rounds fuel s2 rw) as (rw' & s' & E' & HS' & Hd & Hu');
    [apply Q2|done..|].
  exists s'. split.
  - rewrite (bind_some _ _ s2 s' (0, rw')).
    + rewrite mret_run, Hu'. unfold smbfs_uio_update, uio_advance. cbn [uio_pos uio_offset uio_resid].
      rewrite Z.sub_0_r, u64_small, Z.min_id by lia. by rewrite Z.sub_diag.
    + unfold smb2_smb_write. change (uio_resid (auio rw)) with L. by rewrite (bind_some _ _ _ _ _ E').
  - destruct HS' as (_ & _ & Em & Hlen & Hout). split; [done|]. unfold written. cbn [uio_pos uio_offset uio_resid].
    split; [|done]. intros i Hi. by apply Hd.
Qed.
End Writes.
