(* ===== verification/RwDemo.v ===== *)
(** * Reads and writes of files: a reference server

    A server over a file: it answers reads with at most [fn_max] bytes, its client's
    credits allow [fn_credits] bytes per request ([None]: any), and requests at the offsets of
    [fn_fail] fail.  It implements the interfaces, the theorems hold of it, and it shows
    what the code does when a request fails, is shortened or comes back short. *)
From S2P Require Import Prelude Chain Parser Brl Rw RwWindow RwTheorems RwWrite.
From S2P Require Fid.
Import Errno.
Local Open Scope Z_scope.

Record file_net := FileNet { fn_file : list Z; fn_max : Z; fn_credits : option Z; fn_fail : list (Z * Z) }.

Definition ok_reply (bs : list Z) : rw_reply := RwReply 0 false false 0 false bs.
Definition err_reply (e : Z) : rw_reply := RwReply e false false 0 false [].

Definition serve (q : rw_request) (w : file_net) : rw_reply * file_net :=
  match find (fun p => p.1 =? q_offset q) (fn_fail w) with
  | Some (_, e) => (err_reply e, w)
  | None =>
      if q_read q then
        if Z.of_nat (length (fn_file w)) <=? q_offset q then (err_reply ENODATA, w)
        else (ok_reply (read_reply_bytes (slice (fn_file w) (q_offset q) (Z.min (fn_max w) (q_len q)))), w)
      else (ok_reply (write_reply_bytes (q_len q)),
            FileNet (write_at (q_offset q) (q_data q) (fn_file w)) (fn_max w) (fn_credits w) (fn_fail w))
  end.

#[export] Instance file_net_ops : Net file_net := {|
  net_alloc := fun _ _ l w => (inr (match fn_credits w with None => l | Some c => Z.min l c end), w);
  net_enqueue := fun _ w => (0, w);
  net_proxy := fun _ w => (tt, w);
  net_reply := serve;
  net_simple := serve;
  net_quanta := fun _ _ w => ((true, 10, 3), w);
  net_malloc := fun w => (true, w)
|}.

(** Nothing fails, and each request and reply has at least a byte. *)
Definition fn_good (max : Z) (credits : option Z) (w : file_net) : Prop := fn_max w = max /\ fn_credits w = credits /\ fn_fail w = [].

#[export] Instance file_net_good max credits :
  match credits with None => True | Some c => 0 < c end -> GoodNet file_net (fn_good max credits) fn_file.
Proof.
  intros Hc. split; cbn.
  - intros _ _ l w (? & Ec & ?) Hl. eexists _, w. split; [done|]. split; [done|]. split; [done|]. rewrite Ec.
    destruct credits; lia.
  - intros q w Hg. by exists w.
  - intros q w Hg. by exists w.
  - intros w Hg. by exists w.
  - intros _ _ w Hg. exists true, 10, 3, w. split_and!; (done || lia).
Qed.

Lemma file_net_full max : full_alloc file_net (fn_good max None).
Proof. intros rd nb l w (_ & Ec & _) _. exists w. cbn. by rewrite Ec. Qed.

#[export] Instance file_net_reads max credits : 0 < max -> ReadServer file_net (fn_good max credits) fn_file.
Proof.
  intros Hmax. split; cbn; intros q w (Hm & Ec & Ef) Hr Ho Hl Hin; unfold serve; rewrite Ef, Hr; cbn [find];
    rewrite (proj2 (Z.leb_gt _ _)) by lia; (eexists (Z.min (fn_max w) (q_len q)), _, w; split; [done|]);
    split_and!; (done || lia).
Qed.

#[export] Instance file_net_writes max credits : WriteServer file_net (fn_good max credits) fn_file.
Proof.
  split; cbn; intros q w (Hm & Ec & Ef) Hr; unfold serve; rewrite Ef, Hr; cbn [find]; eexists _, _; (split; [done|]);
    split_and!; done.
Qed.

(** A share with one file open under the FID 7. *)
Definition demo_share : Fid.smb_share :=
  Fid.smb_fid_insert_new_node Fid.empty_share (Fid.mk_node 7 (Fid.mk_fid 1 2)).
Definition demo_session : rw_session := RwSession 20 20 false 0 0 0 false.
Definition demo_file : list Z := map Z.of_nat (seq 1 60).
Definition demo_rw (w : file_net) : rw_state file_net := RwState w (replicate 60 0) demo_share 0.

Lemma demo_fid_ok : fid_ok 7 demo_share.
Proof.
  destruct (Fid.insert_abs Fid.empty_share (Fid.mk_node 7 (Fid.mk_fid 1 2)) Fid.empty_share_ok) as [Hok Ha].
  split; [done|]. split; [vm_compute; congruence|]. unfold demo_share. rewrite Ha. done.
Qed.

(** 50 bytes in quanta of 10, each answered with 4 bytes at most. *)
Lemma read_uio_correct_witness :
  exists s', smb2_smb_read_uio demo_session 1 60 7 (Uio 5 2 50) (demo_rw (FileNet demo_file 4 None [])) =
      Some ((0, Uio 55 52 0), s') /\ fn_file (s_net s') = demo_file /\
    s_mem s' = read_into (Uio 5 2 50) demo_file (replicate 60 0).
Proof.
  apply (@read_uio_correct file_net file_net_ops (fn_good 4 None) fn_file (file_net_good 4 None I) (file_net_reads 4 None eq_refl)
    demo_session 7 ltac:(cbn; lia) 0 60 (Uio 5 2 50) (demo_rw (FileNet demo_file 4 None []))).
  - split_and!; reflexivity.
  - exact demo_fid_ok.
  - unfold in_file. vm_compute. split_and!; congruence.
  - exact (file_net_full 4).
  - reflexivity.
  - apply Nat.ltb_lt. vm_compute. reflexivity.
Defined.

(** 50 bytes, of which a request may ask for 6, answered in full. *)
Lemma window_read_correct_witness :
  exists rw' s', smb2_smb_read_write_async demo_session 60 true 50 0 (RwRq 0 0 0 7 (Uio 5 2 50) 0 false 0 0)
      (demo_rw (FileNet demo_file (2 ^ 31) (Some 6) [])) = Some (One 0 50 50 rw' None, s') /\
    auio rw' = uio_advance 50 (Uio 5 2 50) /\ fn_file (s_net s') = demo_file /\
    s_mem s' = read_into (Uio 5 2 50) demo_file (replicate 60 0).
Proof.
  apply (@window_read_correct file_net file_net_ops (fn_good (2 ^ 31) (Some 6)) fn_file (file_net_good (2 ^ 31) (Some 6) eq_refl)
    (file_net_reads (2 ^ 31) (Some 6) eq_refl) demo_session 7 ltac:(cbn; lia) 60 (RwRq 0 0 0 7 (Uio 5 2 50) 0 false 0 0)
    (demo_rw (FileNet demo_file (2 ^ 31) (Some 6) []))).
  - split_and!; reflexivity.
  - exact demo_fid_ok.
  - unfold in_file. vm_compute. split_and!; congruence.
  - reflexivity.
  - reflexivity.
  - vm_compute. reflexivity.
  - right. intros q w r w' (Em & Ec & Ef) Hr Ho Hl Hin. cbn. unfold serve. rewrite Ef, Hr, Em. cbn [find].
    rewrite (proj2 (Z.leb_gt _ _)), Z.min_r by lia. intros [= <- _]. reflexivity.
  - apply Nat.ltb_lt. vm_compute. reflexivity.
Defined.

(** 50 bytes, shortened to 6 by credits. *)
Lemma write_uio_correct_witness :
  exists s', smb2_smb_write_uio demo_session 60 60 7 (Uio 5 2 50) (demo_rw (FileNet demo_file 4 (Some 6) [])) =
      Some ((0, Uio 55 52 0), s') /\ s_mem s' = replicate 60 0 /\
    written (Uio 5 2 50) (replicate 60 0) demo_file (fn_file (s_net s')).
Proof.
  apply (@write_uio_correct file_net file_net_ops (fn_good 4 (Some 6)) fn_file (file_net_good 4 (Some 6) eq_refl) (file_net_writes 4 (Some 6))
    demo_session 7 ltac:(cbn; lia) 60 60 (Uio 5 2 50) (demo_rw (FileNet demo_file 4 (Some 6) []))).
  - split_and!; reflexivity.
  - exact demo_fid_ok.
  - cbn. lia.
  - cbn. lia.
  - cbn. lia.
  - vm_compute. congruence.
  - apply Nat.ltb_lt. vm_compute. reflexivity.
  - apply Nat.ltb_lt. vm_compute. reflexivity.
Defined.

(** ** What the code gets wrong *)

(** The outcome of a read: the error, the bytes counted as read and the buffer. *)
Definition read_outcome (n : Z) (w : file_net) : option (Z * Z * list Z) :=
  match smb2_smb_read_uio demo_session 10 100 7 (Uio 0 0 n) (demo_rw w) with
  | Some ((e, u), s) => Some (e, n - uio_resid u, take (Z.to_nat (n - uio_resid u)) (s_mem s))
  | None => None
  end.

(** The count of the bytes read is never reset between the rounds of [smb2_smb_read],
    so that each round subtracts what the rounds before have read again: of 18 bytes that
    credits cut into three requests only two are read, and the read succeeds. *)
Theorem read_rounds_counted_twice :
  read_outcome 18 (FileNet demo_file 100 (Some 6) []) = Some (0, 12, take 12 demo_file).
Proof. vm_compute. reflexivity. Qed.

(** The error of a failed request is overwritten by the outcome of the requests that are
    waited for after it: the second of the requests fails with EIO, the third does not,
    and the read succeeds. *)
Theorem read_error_masked :
  read_outcome 50 (FileNet demo_file 100 None [(10, EIO)]) = Some (0, 10, take 10 demo_file).
Proof. vm_compute. reflexivity. Qed.

(** The bytes of a failed read are counted as if they were the first: the first two
    requests come back with 4 bytes each and the third fails; the read is said to have
    read 8 bytes, of which the last 4 were never written. *)
Theorem failed_read_leaves_hole :
  read_outcome 50 (FileNet demo_file 4 None [(20, EIO)]) = Some (0, 8, [1; 2; 3; 4; 0; 0; 0; 0]).
Proof. vm_compute. reflexivity. Qed.

(** A success without bytes. *)
Definition no_bytes (q : rw_request) (w : file_net) : rw_reply * file_net :=
  (ok_reply (read_reply_bytes []), w).

(** A server that answers every read with success and no bytes. *)
Definition idle_net : Net file_net := {|
  net_alloc := fun _ _ l w => (inr l, w);
  net_enqueue := fun _ w => (0, w);
  net_proxy := fun _ w => (tt, w);
  net_reply := no_bytes;
  net_simple := no_bytes;
  net_quanta := fun _ _ w => ((true, 10, 3), w);
  net_malloc := fun w => (true, w)
|}.

Lemma empty_loop fuel len rr remaining short rw (s : rw_state file_net) : fid_ok (rw_fid rw) (s_share s) ->
  (short = None \/ short = Some 10) ->
  @read_one_loop file_net idle_net demo_session fuel false false len rr 10 remaining short rw s = None.
Proof.
  revert len rr remaining short rw s. induction fuel as [|k IH]; intros len rr remaining short rw s Hf Hsh; [done|].
  cbn [read_one_loop]. rewrite (bind_some _ _ s s (inr 10)) by (by destruct s).
  assert (match short with Some n => negb (10 =? n) | None => false end = false) as -> by (by destruct Hsh as [->| ->]).
  rewrite (bind_some _ _ s s (s_allow s)) by done.
  destruct (kernel_fid_run (fun _ => True) fn_file (rw_fid rw) (fun _ _ => True) s) as (sf & s2 & E2 & Q2); [by split|].
  rewrite (bind_some _ _ _ _ _ E2). cbv beta iota zeta.
  rewrite (bind_some _ _ s2 s2 (ok_reply (read_reply_bytes []))) by (by destruct s2). cbn [r_error ok_reply Z.eqb negb r_bytes].
  rewrite (bind_some _ _ s2 s2 (0, 0, set_rw_ret_len 0 (set_rw_ret_ntstatus 0 rw))) by (destruct s2, rw; reflexivity).
  apply IH; [apply Q2|by right].
Qed.

(** Such a server keeps the client in the loop of a read for ever. *)
Theorem empty_replies_never_end fuel :
  @smb2_smb_read_one file_net idle_net demo_session fuel false 10 0 (RwRq 0 0 0 7 (Uio 0 0 10) 0 false 0 0)
    (demo_rw (FileNet demo_file 100 None [])) = None.
Proof. apply empty_loop; [exact demo_fid_ok|by left]. Qed.

(** A reply that claims 2 GB or more is taken as read in full though no byte is copied: the
    length is a negative [int32_t] for [md_get_uio]. *)
Theorem huge_reply_counted mem rw :
  smb2_smb_parse_read_one (le_bytes 2 17 ++ le_bytes 1 80 ++ le_bytes 1 0 ++ le_bytes 4 (2 ^ 31) ++ le_bytes 4 0 ++ le_bytes 4 0)
    0 rw mem = Some (0, 2 ^ 31, set_rw_ret_len (2 ^ 31) rw, mem).
Proof. destruct rw. reflexivity. Qed.
