(* ===== verification/Quantum.v ===== *)
(** * Quantum sizes: [smb2_smb_get_quantum_sizes], [smb2_smb_adjust_quantum_sizes]

    Reads and writes that go through the window are cut into quanta ([Rw]).  A session
    tries three sizes, measures the bytes per second of each and keeps the fastest; the
    sizes are limited by what server and socket take ([smb2_session_maxread],
    [smb2_session_maxwrite]) and may be set by the mount. *)
From S2P Require Import Prelude.
Local Open Scope Z_scope.

Definition kSmallQuantumSize := 262144.
Definition kMediumQuantumSize := 524288.
Definition kLargeQuantumSize := 1048576.
Definition kQuantumNumber := 8.  (* kQuantumMaxNumber, kQuantumMedNumber, kQuantumMinNumber *)
Definition kQuantumRecheckTimeOut := 60.
Definition kCREDIT_QUANTUM_RESERVE := 32.
Definition kDefaultMaxIOSize := 8388608.

(** ** Data *)

(** An array of three: minimal, medium, maximal size. *)
Record three := T3 { t0 : Z; t1 : Z; t2 : Z }.
Inductive size_class := Min | Med | Max.

Definition get (c : size_class) (t : three) : Z := match c with Min => t0 t | Med => t1 t | Max => t2 t end.
Definition set (c : size_class) (x : Z) (t : three) : three :=
  match c with Min => T3 x (t1 t) (t2 t) | Med => T3 (t0 t) x (t2 t) | Max => T3 (t0 t) (t1 t) x end.

(** What a session keeps for one direction. *)
Record speeds := Speeds {
  sizes : three;
  counts : three;
  byte_per_sec : three;
  total_time : three;   (* microseconds, 32 bits *)
  total_bytes : three;
  quantum_size : Z;     (* the one in use *)
  quantum_number : Z
}.

Record timeval := Tv { tv_sec : Z; tv_usec : Z }.

Definition timersub (a b : timeval) : timeval :=
  let s := tv_sec a - tv_sec b in
  let u := tv_usec a - tv_usec b in
  if u <? 0 then Tv (s - 1) (u + 1000000) else Tv s u.

Record qsession := Qs {
  q_read : speeds;
  q_write : speeds;
  last_recheck_time : timeval;
  rw_max_check_time : Z;
  rw_gb_threshold : Z;
  active_channel_speed : Z;
  active_channel_count : Z;
  session_rxmax : Z;
  session_wxmax : Z
}.

Definition dir (doing_read : bool) (s : qsession) : speeds := if doing_read then q_read s else q_write s.
Definition set_dir (doing_read : bool) (d : speeds) (s : qsession) : qsession :=
  Qs (if doing_read then d else q_read s) (if doing_read then q_write s else d) (last_recheck_time s)
    (rw_max_check_time s) (rw_gb_threshold s) (active_channel_speed s) (active_channel_count s)
    (session_rxmax s) (session_wxmax s).
Definition set_recheck_time (t : timeval) (s : qsession) : qsession :=
  Qs (q_read s) (q_write s) t (rw_max_check_time s) (rw_gb_threshold s) (active_channel_speed s)
    (active_channel_count s) (session_rxmax s) (session_wxmax s).
Definition set_max (for_read : bool) (x : Z) (s : qsession) : qsession :=
  Qs (q_read s) (q_write s) (last_recheck_time s) (rw_max_check_time s) (rw_gb_threshold s)
    (active_channel_speed s) (active_channel_count s) (if for_read then x else session_rxmax s)
    (if for_read then session_wxmax s else x).

(** [smb_session_create] *)
Definition initial_speeds : speeds :=
  Speeds (T3 kSmallQuantumSize kMediumQuantumSize kLargeQuantumSize) (T3 kQuantumNumber kQuantumNumber kQuantumNumber)
    (T3 0 0 0) (T3 0 0 0) (T3 0 0 0) kMediumQuantumSize kQuantumNumber.
Definition initial_session (rxmax wxmax : Z) : qsession :=
  Qs initial_speeds initial_speeds (Tv 0 0) 150000 0 0 0 rxmax wxmax.

(** ** The choice of a quantum *)

(** The measurements start over. *)
Definition forget (d : speeds) : speeds :=
  Speeds (sizes d) (counts d) (T3 0 0 0) (T3 0 0 0) (T3 0 0 0) (quantum_size d) (quantum_number d).

(** The class to measure next: the largest that has not been measured for long enough. *)
Definition to_check (limit : Z) (d : speeds) : option size_class :=
  if t2 (total_time d) <? limit then Some Max
  else if t1 (total_time d) <? limit then Some Med
  else if t0 (total_time d) <? limit then Some Min
  else None.

(** The size, the number, [*recheck] and the session.  [now] and [later] are the times
    read at the start and when a check is noted, [max_seg] is [smb_maxsegreadsize] or
    [smb_maxsegwritesize]. *)
Definition smb2_smb_get_quantum_sizes (s : qsession) (len : Z) (doing_read : bool) (now later : timeval) (max_seg : Z)
  : Z * Z * bool * qsession :=
  let more n := if kQuantumNumber <? active_channel_count s then u32 (n + active_channel_count s - kQuantumNumber) else n in
  if negb (rw_gb_threshold s =? 0) && (rw_gb_threshold s <? active_channel_speed s / 1000000000) then
    (t1 (sizes (dir doing_read s)), more (t1 (counts (dir doing_read s))), false, s)
  else
    let s1 := if kQuantumRecheckTimeOut <? tv_sec (timersub now (last_recheck_time s))
              then set_dir true (forget (q_read s)) (set_dir false (forget (q_write s)) s) else s in
    let d := dir doing_read s1 in
    if len <? max_seg then (quantum_size d, more (quantum_number d), false, s1)
    else
      match to_check (rw_max_check_time s1) d with
      | Some c => (get c (sizes d), more (get c (counts d)), true, set_recheck_time later s1)
      | None => (quantum_size d, more (quantum_number d), false, s1)
      end.

(** ** The measurement *)

(** The class a size belongs to: the first that matches. *)
Definition class_of (size : Z) (d : speeds) : option size_class :=
  if size =? t2 (sizes d) then Some Max
  else if size =? t1 (sizes d) then Some Med
  else if size =? t0 (sizes d) then Some Min
  else None.

(** Adds to the time and the bytes of a class; a division by zero is undefined. *)
Definition measure (limit : Z) (c : size_class) (time bytes : Z) (d : speeds) : option speeds :=
  let t := u32 (get c (total_time d) + time) in
  let b := u64 (get c (total_bytes d) + bytes) in
  if t =? 0 then None
  else
    let rate := u64 (b * 1000000) / t in
    Some (Speeds (sizes d) (counts d) (if limit <=? t then set c rate (byte_per_sec d) else byte_per_sec d)
            (set c t (total_time d)) (set c b (total_bytes d)) (quantum_size d) (quantum_number d)).

(** The fastest class, once all three are known. *)
Definition fastest (d : speeds) : option size_class :=
  let r := byte_per_sec d in
  if negb (t0 r =? 0) && negb (t1 r =? 0) && negb (t2 r =? 0) then
    Some (if (t0 r <? t2 r) && (t1 r <? t2 r) then Max
          else if (t2 r <? t0 r) && (t1 r <? t0 r) then Min
          else Med)
  else None.

(** A larger quantum needs credits; [credits_max] is [iod_credits_max]. *)
Definition throttled (credits_max size number : Z) : bool :=
  let estimated := u32 (size * number) / 65536 in
  (credits_max <? estimated) || (credits_max - estimated <? kCREDIT_QUANTUM_RESERVE).

Definition use_class (c : size_class) (d : speeds) : speeds :=
  Speeds (sizes d) (counts d) (byte_per_sec d) (total_time d) (total_bytes d) (get c (sizes d)) (get c (counts d)).

(** [main_iod] is the maximum of credits of the main I/O thread, if there is one. *)
Definition smb2_smb_adjust_quantum_sizes (s : qsession) (doing_read : bool) (in_size : Z) (elapsed : timeval)
    (total_len : Z) (main_iod : option Z) : option qsession :=
  match main_iod with
  | None => Some s
  | Some credits_max =>
      if (tv_sec elapsed =? 0) && (tv_usec elapsed =? 0) || (total_len =? 0) then Some s
      else
        let time := u64 (tv_sec elapsed * 1000000 + tv_usec elapsed) in
        if time =? 0 then Some s
        else if u64 (total_len * 1000000) / time =? 0 then Some s
        else
          match class_of in_size (dir doing_read s) with
          | None => Some s
          | Some c =>
              match measure (rw_max_check_time s) c time total_len (dir doing_read s) with
              | None => None
              | Some d =>
                  let s1 := set_dir doing_read d s in
                  match fastest d with
                  | None => Some s1
                  | Some f =>
                      let size := get f (sizes d) in
                      let number := get f (counts d) in
                      if size =? quantum_size d then Some s1
                      else if (quantum_size d <? size) && throttled credits_max size number then Some s1
                      else Some (set_dir doing_read (use_class f d) s1)
                  end
              end
          end
  end.

(** ** The limits *)

Definition max_msg_size (srvr_max socksize page max : Z) : Z :=
  let m := Z.min srvr_max socksize in
  let m := if page <? m then m / page * page else m in
  if max <? m then max else m.

Definition limit_to (m : Z) (d : speeds) : speeds :=
  let lim x := if m <? x then m else x in
  Speeds (T3 (lim (t0 (sizes d))) (lim (t1 (sizes d))) (lim (t2 (sizes d)))) (counts d) (byte_per_sec d) (total_time d)
    (total_bytes d) (lim (quantum_size d)) (quantum_number d).

(** The limit and the session; [srvr_max] is [sv_maxread] or [sv_maxwrite], [socksize]
    what the transport tells. *)
Definition smb2_session_maxread (s : qsession) (srvr_max socksize page max_read : Z) : Z * qsession :=
  let m := max_msg_size srvr_max socksize page max_read in (m, set_dir true (limit_to m (q_read s)) s).
Definition smb2_session_maxwrite (s : qsession) (srvr_max socksize page max_write : Z) : Z * qsession :=
  let m := max_msg_size srvr_max socksize page max_write in (m, set_dir false (limit_to m (q_write s)) s).

(** ** The options of a mount *)

Definition set_size (c : size_class) (x : Z) (d : speeds) : speeds :=
  Speeds (set c x (sizes d)) (counts d) (byte_per_sec d) (total_time d) (total_bytes d) (quantum_size d) (quantum_number d).
Definition set_count (c : size_class) (x : Z) (d : speeds) : speeds :=
  Speeds (sizes d) (set c x (counts d)) (byte_per_sec d) (total_time d) (total_bytes d) (quantum_size d) (quantum_number d).

Section Mount.
Context (sv_maxread sv_maxwrite rcvsz sndsz page : Z).

(** A size given for reads; the limits are checked again. *)
Definition mount_read_size (c : size_class) (x : Z) (s : qsession) : qsession :=
  if x =? 0 then s
  else let '(m, s1) := smb2_session_maxread (set_dir true (set_size c x (q_read s)) s) sv_maxread rcvsz page kDefaultMaxIOSize in
       set_max true m s1.

(** A size given for writes: the limit is stored in [session_rxmax]. *)
Definition mount_write_size (c : size_class) (x : Z) (s : qsession) : qsession :=
  if x =? 0 then s
  else let '(m, s1) := smb2_session_maxwrite (set_dir false (set_size c x (q_write s)) s) sv_maxwrite sndsz page kDefaultMaxIOSize in
       set_max true m s1.

Definition mount_count (doing_read : bool) (c : size_class) (x : Z) (s : qsession) : qsession :=
  if x =? 0 then s else set_dir doing_read (set_count c x (dir doing_read s)) s.

Definition mount_quanta (read_size read_count write_size write_count : three) (s : qsession) : qsession :=
  let each f (t : three) s := f Max (t2 t) (f Med (t1 t) (f Min (t0 t) s)) in
  each (mount_count false) write_count (each mount_write_size write_size
    (each (mount_count true) read_count (each mount_read_size read_size s))).
End Mount.

(** ** The sizes stay within the limits *)

(** Every size is positive and at most [lim], every number is positive. *)
Definition within (lim : Z) (d : speeds) : Prop :=
  (forall c, 0 < get c (sizes d) <= lim) /\ (forall c, 0 < get c (counts d)) /\
  0 < quantum_size d <= lim /\ 0 < quantum_number d.

Lemma within_forget lim d : within lim d -> within lim (forget d).
Proof. done. Qed.

Lemma within_dir lim b b' d s : within lim d -> within lim (dir b s) -> within lim (dir b (set_dir b' d s)).
Proof. by destruct b, b'. Qed.

Lemma measure_shape limit c time bytes d d' : measure limit c time bytes d = Some d' ->
  sizes d' = sizes d /\ counts d' = counts d /\ quantum_size d' = quantum_size d /\ quantum_number d' = quantum_number d.
Proof. unfold measure. destruct (_ =? 0); [done|]. by intros [= <-]. Qed.

Lemma within_adjust lim b b' s s' size t len iod : within lim (dir b' s) ->
  smb2_smb_adjust_quantum_sizes s b size t len iod = Some s' -> within lim (dir b' s').
Proof.
  intros Hb. unfold smb2_smb_adjust_quantum_sizes.
  destruct iod as [cm|]; [|by intros [= <-]]. destruct (_ || _); [by intros [= <-]|].
  destruct (_ =? 0); [by intros [= <-]|]. destruct (_ =? 0); [by intros [= <-]|].
  destruct (class_of _ _) as [c|]; [|by intros [= <-]]. destruct (measure _ _ _ _ _) as [d|] eqn:Em; [|done].
  apply measure_shape in Em as (E1 & E2 & E3 & E4).
  assert (within lim (dir b s) -> within lim d) as Hd by (unfold within; by rewrite E1, E2, E3, E4).
  assert (forall f, within lim d -> within lim (use_class f d)) as Hd2.
  { intros f (H1 & H2 & _). split_and!; [done|done|apply H1..|apply H2]. }
  destruct (fastest d) as [f|].
  - destruct (_ =? _); [|destruct (_ && _)]; intros [= <-]; destruct b, b'; cbn in *; auto.
  - intros [= <-]. destruct b, b'; cbn in *; auto.
Qed.

(** What happens to a session after its limits are set. *)
Inductive qstep : qsession -> qsession -> Prop :=
  | StepGet s len b now later seg size nbr re s' :
      smb2_smb_get_quantum_sizes s len b now later seg = (size, nbr, re, s') -> qstep s s'
  | StepAdjust s b size t len iod s' :
      smb2_smb_adjust_quantum_sizes s b size t len iod = Some s' -> qstep s s'.

Lemma get_session s len b now later seg : exists s1, (s1 = s \/ s1 = set_dir true (forget (q_read s)) (set_dir false (forget (q_write s)) s)) /\
  exists size nbr re, smb2_smb_get_quantum_sizes s len b now later seg = (size, nbr, re, if re : bool then set_recheck_time later s1 else s1) /\
    ((exists c, size = get c (sizes (dir b s))) \/ size = quantum_size (dir b s)).
Proof.
  unfold smb2_smb_get_quantum_sizes.
  destruct (_ && _); [exists s; split; [by left|]; eexists _, _, false; split; [done|]; left; by exists Med|].
  set (s1 := if _ <? _ then _ else s).
  exists s1. split; [unfold s1; destruct (_ <? _); auto|].
  assert (sizes (dir b s1) = sizes (dir b s) /\ quantum_size (dir b s1) = quantum_size (dir b s)) as [E1 E2].
  { unfold s1. by destruct (_ <? _), b. }
  clearbody s1. destruct (len <? seg); [eexists _, _, false; split; [done|by right]|].
  destruct (to_check _ _) as [c|]; [|eexists _, _, false; split; [done|by right]].
  eexists _, _, true. split; [done|]. left. exists c. by rewrite E1.
Qed.

Lemma qstep_within lim b s s' : qstep s s' -> within lim (dir b s) -> within lim (dir b s').
Proof.
  destruct 1 as [s len b' now later seg size nbr re s' E|s b' size t len iod s' E]; intros Hw; [|by eapply within_adjust].
  destruct (get_session s len b' now later seg) as (s1 & Hs1 & size1 & nbr1 & re1 & E1 & _). rewrite E in E1.
  injection E1 as _ _ _ ->. destruct Hs1 as [->| ->], re1, b; done.
Qed.

(** The smaller of the limits on the messages of a session. *)
Lemma max_msg_size_bounds srv sock page max : 0 < srv -> 0 < sock -> 0 < page -> 0 < max ->
  0 < max_msg_size srv sock page max <= max /\ max_msg_size srv sock page max <= Z.min srv sock.
Proof.
  intros H1 H2 H3 H4. unfold max_msg_size. set (m := Z.min srv sock).
  assert (0 < (if page <? m then m / page * page else m) <= m) as Hm.
  { destruct (Z.ltb_spec page m); [|lia]. pose proof (Z.mul_div_le m page H3).
    assert (1 <= m / page) by (apply Z.div_le_lower_bound; lia). nia. }
  set (k := if page <? m then _ else m) in *. destruct (Z.ltb_spec max k); lia.
Qed.

Lemma limit_within m d : 0 < m -> (forall c, 0 < get c (sizes d)) -> (forall c, 0 < get c (counts d)) ->
  0 < quantum_size d -> 0 < quantum_number d -> within m (limit_to m d).
Proof.
  intros Hm Hs Hc Hq Hn. assert (forall x, 0 < x -> 0 < (if m <? x then m else x) <= m) as Hl.
  { intros x Hx. destruct (Z.ltb_spec m x); lia. }
  split_and!; [|done|by apply Hl..|done].
  intros []; cbn; apply Hl; [apply (Hs Min)|apply (Hs Med)|apply (Hs Max)].
Qed.

(** Once the limit of reads or writes is set, every quantum that is chosen is positive
    and at most the limit, which is at most what the server and the socket take,
    whatever choices and measurements have come before. *)
Theorem quantum_within_limits srv sock page max s0 lim s1 s len b now later seg size nbr re s' :
  0 < srv -> 0 < sock -> 0 < page -> 0 < max -> within (2 ^ 32) (dir b s0) ->
  (if b then smb2_session_maxread s0 srv sock page max else smb2_session_maxwrite s0 srv sock page max) = (lim, s1) ->
  rtc qstep s1 s -> smb2_smb_get_quantum_sizes s len b now later seg = (size, nbr, re, s') ->
  0 < size <= lim /\ lim <= Z.min srv sock.
Proof.
  intros H1 H2 H3 H4 Hw0 Es Hsteps Eg. destruct (max_msg_size_bounds srv sock page max H1 H2 H3 H4) as [Hm1 Hm2].
  assert (lim = max_msg_size srv sock page max /\ within lim (dir b s1)) as [-> Hw1].
  { destruct Hw0 as (Hs & ? & Hq & ?). destruct b; injection Es as <- <-; (split; [done|]);
      (apply limit_within; [lia|intros c; apply (Hs c)|done|apply Hq|done]). }
  clear Es. assert (within (max_msg_size srv sock page max) (dir b s)) as Hw.
  { clear Eg. revert Hw1. induction Hsteps as [|x y z Hst _ IH]; [done|]. intros Hx. apply IH. by eapply qstep_within. }
  destruct (get_session s len b now later seg) as (s2 & _ & size2 & nbr2 & re2 & E2 & Hsize). rewrite Eg in E2.
  injection E2 as <- _ _ _. destruct Hw as (Hsz & _ & Hq & _). split; [|done].
  destruct Hsize as [[c ->]| ->]; [apply Hsz|done].
Qed.

Lemma quantum_within_limits_witness : 0 < 65536 <= 65536 /\ 65536 <= Z.min 65536 1000000.
Proof.
  apply (quantum_within_limits 65536 1000000 4096 kDefaultMaxIOSize (initial_session 0 0) 65536
    (set_dir true (limit_to 65536 initial_speeds) (initial_session 0 0))
    (set_dir true (limit_to 65536 initial_speeds) (initial_session 0 0)) 20000000 true (Tv 10 0) (Tv 10 5) 16777216
    65536 8 true (set_recheck_time (Tv 10 5) (set_dir true (limit_to 65536 initial_speeds) (initial_session 0 0)))).
  - lia.
  - lia.
  - lia.
  - reflexivity.
  - split_and!; [intros []; vm_compute; split; congruence|intros []; reflexivity|vm_compute; congruence..].
  - reflexivity.
  - apply rtc_refl.
  - vm_compute. reflexivity.
Defined.

(** ** The fastest size is kept *)

Definition rate (c : size_class) (d : speeds) : Z := get c (byte_per_sec d).

Lemma fastest_known d f : fastest d = Some f -> (forall c, rate c d <> 0) /\
  (rate Min d <> rate Max d -> forall c, rate c d <= rate f d).
Proof.
  unfold fastest, rate. cbn [get]. destruct (byte_per_sec d) as [a b c]. cbn [t0 t1 t2].
  destruct (Z.eqb_spec a 0), (Z.eqb_spec b 0), (Z.eqb_spec c 0); try done. intros [= <-].
  split; [by intros []|]. intros Hne.
  destruct (Z.ltb_spec a c), (Z.ltb_spec b c), (Z.ltb_spec c a), (Z.ltb_spec b a); cbn; intros []; cbn; lia.
Qed.

(** When the smallest and the largest size are equally fast, the medium size is kept though
    it is slower. *)
Lemma tie_keeps_slowest : fastest (Speeds (T3 1 2 3) (T3 8 8 8) (T3 10 5 10) (T3 0 0 0) (T3 0 0 0) 2 8) = Some Med.
Proof. reflexivity. Qed.

(** One measurement: what is known of the rates after it. *)
Lemma measure_rates limit c time bytes d d' c' : measure limit c time bytes d = Some d' ->
  (c' <> c -> rate c' d' = rate c' d /\ get c' (total_time d') = get c' (total_time d)) /\
  get c (total_time d') = u32 (get c (total_time d) + time).
Proof.
  unfold measure. destruct (_ =? 0); [done|]. intros [= <-]. unfold rate. cbn.
  destruct (_ <=? _), c, c'; cbn; split; try done; intros; congruence.
Qed.

(** A measurement changes the quantum in use only when all three sizes have been
    measured, and then to the fastest of them (unless the smallest and the largest are
    equally fast); an increase is made only when the credits of the main channel cover it. *)
Theorem adjust_keeps_fastest s b size t len cm s' :
  smb2_smb_adjust_quantum_sizes s b size t len (Some cm) = Some s' ->
  let d := dir b s in let d' := dir b s' in
  quantum_size d' <> quantum_size d ->
  exists f, quantum_size d' = get f (sizes d') /\ quantum_number d' = get f (counts d') /\
    (forall c, rate c d' <> 0) /\ (rate Min d' <> rate Max d' -> forall c, rate c d' <= rate f d') /\
    (quantum_size d < quantum_size d' -> throttled cm (quantum_size d') (quantum_number d') = false).
Proof.
  unfold smb2_smb_adjust_quantum_sizes. cbv zeta.
  destruct (_ || _); [by intros [= <-]|]. destruct (_ =? 0); [by intros [= <-]|]. destruct (_ =? 0); [by intros [= <-]|].
  destruct (class_of _ _) as [c|]; [|by intros [= <-]]. destruct (measure _ _ _ _ _) as [d|] eqn:Em; [|done].
  apply measure_shape in Em as (_ & _ & E3 & _).
  assert (forall e s, dir b (set_dir b e s) = e) as Hdir by (by destruct b).
  destruct (fastest d) as [f|] eqn:Ef; [|intros [= <-]; by rewrite Hdir].
  destruct (_ =? _); [intros [= <-]; by rewrite Hdir|].
  destruct ((_ <? _) && _) eqn:Et; intros [= <-]; rewrite Hdir; [done|]. intros _.
  apply fastest_known in Ef as [Hk Hf]. exists f. cbn. split_and!; try done.
  intros Hlt. rewrite <- E3 in Hlt. by rewrite (proj2 (Z.ltb_lt _ _) Hlt) in Et.
Qed.

(** ** Measuring comes to an end, or not *)

Definition distinct (d : speeds) : Prop :=
  t0 (sizes d) <> t1 (sizes d) /\ t0 (sizes d) <> t2 (sizes d) /\ t1 (sizes d) <> t2 (sizes d).

Lemma class_of_distinct d c : distinct d -> class_of (get c (sizes d)) d = Some c.
Proof.
  intros (H1 & H2 & H3). unfold class_of. destruct c; cbn.
  - by rewrite (proj2 (Z.eqb_neq _ _) H2), (proj2 (Z.eqb_neq _ _) H1), Z.eqb_refl.
  - by rewrite (proj2 (Z.eqb_neq _ _) H3), Z.eqb_refl.
  - by rewrite Z.eqb_refl.
Qed.

(** What is left to check: one class less after each long enough transfer. *)
Definition unchecked (limit : Z) (d : speeds) (c : size_class) : Prop := get c (total_time d) < limit.

Lemma to_check_unchecked limit d c : to_check limit d = Some c -> unchecked limit d c.
Proof.
  unfold to_check, unchecked. destruct (Z.ltb_spec (t2 (total_time d)) limit); [by intros [= <-]|].
  destruct (Z.ltb_spec (t1 (total_time d)) limit); [by intros [= <-]|].
  by destruct (Z.ltb_spec (t0 (total_time d)) limit); [intros [= <-]|].
Qed.

Lemma to_check_none limit d : to_check limit d = None <-> forall c, ~ unchecked limit d c.
Proof.
  unfold to_check, unchecked. split.
  - destruct (Z.ltb_spec (t2 (total_time d)) limit); [done|]. destruct (Z.ltb_spec (t1 (total_time d)) limit); [done|].
    destruct (Z.ltb_spec (t0 (total_time d)) limit); [done|]. intros _ []; cbn; lia.
  - intros Hn. pose proof (Hn Min). pose proof (Hn Med). pose proof (Hn Max). cbn in *.
    by repeat (rewrite (proj2 (Z.ltb_ge _ _)) by lia).
Qed.

(** With three different sizes, each large transfer that takes long enough settles the
    speed of one size: the size that is chosen for it is one not measured yet, its
    measurement ends in a speed, and the measurements of the other sizes stay.  After
    three such transfers all speeds are known. *)
Theorem check_settles_one_size s b len now later seg size nbr s1 t cm :
  smb2_smb_get_quantum_sizes s len b now later seg = (size, nbr, true, s1) ->
  let d := dir b s1 in let time := tv_sec t * 1000000 + tv_usec t in
  distinct d -> 0 < rw_max_check_time s1 <= time -> (forall c, 0 <= get c (total_time d) /\ get c (total_time d) + time < 2 ^ 32) ->
  (forall c, 0 <= get c (total_bytes d) /\ (get c (total_bytes d) + len) * 1000000 < 2 ^ 64) ->
  0 < len -> 2 ^ 32 <= len * 1000000 ->
  exists c s2, size = get c (sizes d) /\ unchecked (rw_max_check_time s1) d c /\
    smb2_smb_adjust_quantum_sizes s1 b size t len (Some cm) = Some s2 /\
    ~ unchecked (rw_max_check_time s1) (dir b s2) c /\ rate c (dir b s2) <> 0 /\
    forall c', c' <> c -> rate c' (dir b s2) = rate c' d /\ get c' (total_time (dir b s2)) = get c' (total_time d).
Proof.
  intros Eg d time Hd Hlim Ht Hb Hlen Hbig.
  assert (exists c, to_check (rw_max_check_time s1) d = Some c /\ size = get c (sizes d)) as (c & Ec & ->).
  { revert Eg. unfold smb2_smb_get_quantum_sizes. destruct (_ && _); [done|]. set (s0 := if _ <? _ then _ else s).
    destruct (len <? seg); [done|]. destruct (to_check _ (dir b s0)) as [c|] eqn:Ec; [|done].
    intros [= <- _ <-]. exists c. unfold d. by destruct b. }
  pose proof (Ht c) as [Ht1 Ht2]. pose proof (Hb c) as [Hb1 Hb2].
  assert (0 < time < 2 ^ 32) as Htime by lia.
  set (tt' := get c (total_time d) + time) in *. set (bb := get c (total_bytes d) + len) in *.
  assert (measure (rw_max_check_time s1) c time len d = Some
    (Speeds (sizes d) (counts d) (set c (bb * 1000000 / tt') (byte_per_sec d)) (set c tt' (total_time d)) (set c bb (total_bytes d))
       (quantum_size d) (quantum_number d))) as Em.
  { unfold measure. fold tt' bb. rewrite (u32_small tt'), (u64_small bb), (u64_small (bb * 1000000)) by lia.
    rewrite (proj2 (Z.eqb_neq tt' 0)), (proj2 (Z.leb_le _ tt')) by lia. done. }
  set (d2 := Speeds _ _ _ _ _ _ _) in Em.
  assert (1 <= bb * 1000000 / tt') as Hrate by (apply Z.div_le_lower_bound; lia).
  assert (rate c d2 <> 0 /\ get c (total_time d2) = tt' /\
    forall c', c' <> c -> rate c' d2 = rate c' d /\ get c' (total_time d2) = get c' (total_time d)) as (Hr2 & Ht3 & Ho2).
  { unfold rate, d2. cbn. destruct c; cbn; split_and!; try lia; intros []; done. }
  assert (exists s2, smb2_smb_adjust_quantum_sizes s1 b (get c (sizes d)) t len (Some cm) = Some s2 /\
    byte_per_sec (dir b s2) = byte_per_sec d2 /\ total_time (dir b s2) = total_time d2) as (s2 & Ea & Er & Ett).
  { unfold smb2_smb_adjust_quantum_sizes. fold d time.
    assert ((tv_sec t =? 0) && (tv_usec t =? 0) = false) as ->.
    { destruct (Z.eqb_spec (tv_sec t) 0) as [E1|], (Z.eqb_spec (tv_usec t) 0) as [E2|]; try done.
      unfold time in Htime. rewrite E1, E2 in Htime. lia. }
    rewrite (proj2 (Z.eqb_neq len 0)) by lia. cbn [orb]. rewrite (u64_small time) by lia.
    assert ((0 <= get c (total_bytes d)) /\ len * 1000000 < 2 ^ 64) as [_ Hl64] by lia.
    rewrite (proj2 (Z.eqb_neq time 0)), (u64_small (len * 1000000)) by lia.
    assert (1 <= len * 1000000 / time) by (apply Z.div_le_lower_bound; lia).
    rewrite (proj2 (Z.eqb_neq (len * 1000000 / time) 0)) by lia.
    rewrite (class_of_distinct d c Hd), Em.
    assert (forall e x, dir b (set_dir b e x) = e) as Hdir by (by destruct b).
    destruct (fastest d2) as [f|]; [|eexists; split; [done|]; by rewrite Hdir].
    destruct (_ =? _); [|destruct (_ && _)]; (eexists; split; [done|]; by rewrite Hdir). }
  exists c, s2. split; [done|]. split; [by apply to_check_unchecked|]. split; [done|].
  unfold unchecked, rate in *. rewrite Er, Ett, Ht3. split; [lia|]. split; [done|]. exact Ho2.
Qed.

Lemma check_settles_one_size_witness : exists c s2, kLargeQuantumSize = get c (sizes initial_speeds) /\
  unchecked 150000 initial_speeds c /\
  smb2_smb_adjust_quantum_sizes (set_recheck_time (Tv 10 5) (initial_session 0 0)) true kLargeQuantumSize (Tv 0 200000) 16777216 (Some 512)
    = Some s2 /\ ~ unchecked 150000 (dir true s2) c /\ rate c (dir true s2) <> 0 /\
  forall c', c' <> c -> rate c' (dir true s2) = rate c' initial_speeds /\
    get c' (total_time (dir true s2)) = get c' (total_time initial_speeds).
Proof.
  apply (check_settles_one_size (initial_session 0 0) true 16777216 (Tv 10 0) (Tv 10 5) 16777216 kLargeQuantumSize 8
    (set_recheck_time (Tv 10 5) (initial_session 0 0)) (Tv 0 200000) 512).
  - vm_compute. reflexivity.
  - split_and!; vm_compute; congruence.
  - vm_compute. split; congruence.
  - intros []; vm_compute; split; congruence.
  - intros []; vm_compute; split; congruence.
  - lia.
  - vm_compute. congruence.
Defined.

(** The medium and the largest size are the same. *)
Definition stuck (d : speeds) : Prop := t1 (sizes d) = t2 (sizes d) /\ rate Med d = 0.

Lemma stuck_not_med d size : stuck d -> class_of size d <> Some Med.
Proof.
  intros [E _]. unfold class_of. destruct (Z.eqb_spec size (t2 (sizes d))) as [|Hn]; [done|].
  rewrite E. rewrite (proj2 (Z.eqb_neq _ _) Hn). by destruct (_ =? _).
Qed.

Lemma stuck_step b s s' : qstep s s' -> stuck (dir b s) ->
  stuck (dir b s') /\ quantum_size (dir b s') = quantum_size (dir b s).
Proof.
  destruct 1 as [s len b' now later seg size nbr re s' E|s b' size t len iod s' E]; intros Hs.
  { destruct (get_session s len b' now later seg) as (s1 & Hs1 & size1 & nbr1 & re1 & E1 & _). rewrite E in E1.
    injection E1 as _ _ _ ->. destruct Hs as [Hs1' Hs2']. destruct Hs1 as [->| ->], re1, b; by split. }
  revert E. unfold smb2_smb_adjust_quantum_sizes.
  destruct iod as [cm|]; [|by intros [= <-]]. destruct (_ || _); [by intros [= <-]|].
  destruct (_ =? 0); [by intros [= <-]|]. destruct (_ =? 0); [by intros [= <-]|].
  destruct (class_of _ _) as [c|] eqn:Ec; [|by intros [= <-]]. destruct (measure _ _ _ _ _) as [d|] eqn:Em; [|done].
  destruct (decide (b = b')) as [->|Hne].
  2:{ assert (forall e x, dir b (set_dir b' e x) = dir b x) as Hdir by (by destruct b, b').
      destruct (fastest d); [destruct (_ =? _); [|destruct (_ && _)]|]; intros [= <-]; rewrite !Hdir; by split. }
  assert (c <> Med) as Hc by (intros ->; exact (stuck_not_med _ _ Hs Ec)).
  pose proof (measure_shape _ _ _ _ _ _ Em) as (E1 & _ & E3 & _).
  destruct (measure_rates _ _ _ _ _ _ Med Em) as [Hm _]. destruct (Hm (not_eq_sym Hc)) as [Hr _].
  assert (stuck d) as Hd by (destruct Hs; split; congruence).
  assert (fastest d = None) as ->.
  { destruct (fastest d) as [f|] eqn:Ef; [|done]. apply fastest_known in Ef as [Hk _]. by destruct (Hk Med); apply Hd. }
  intros [= <-]. assert (forall e x, dir b' (set_dir b' e x) = e) as -> by (by destruct b'). done.
Qed.

(** When the limits make the medium and the largest size the same, the speed of the
    medium size is never known, and the quantum in use never changes, however many
    transfers are measured: their measurements are all counted for the largest size. *)
Theorem equal_sizes_never_settle b s s' : t1 (sizes (dir b s)) = t2 (sizes (dir b s)) -> rate Med (dir b s) = 0 ->
  rtc qstep s s' -> rate Med (dir b s') = 0 /\ quantum_size (dir b s') = quantum_size (dir b s).
Proof.
  intros H1 H2 Hst. assert (stuck (dir b s)) as Hs by done. clear H1 H2.
  induction Hst as [s|s s1 s' Hst _ IH]; [split; [apply Hs|done]|].
  destruct (stuck_step b _ _ Hst Hs) as [Hs1 E1]. destruct (IH Hs1) as [Hr E2]. split; [done|congruence].
Qed.

(** A server that takes reads of at most 512 KB. *)
Lemma equal_sizes_never_settle_witness :
  let s := snd (smb2_session_maxread (initial_session 0 0) 524288 1000000 4096 kDefaultMaxIOSize) in
  rate Med (dir true s) = 0 /\ quantum_size (dir true s) = quantum_size (dir true s).
Proof.
  intros s. apply (equal_sizes_never_settle true s s); [reflexivity|reflexivity|apply rtc_refl].
Defined.

(** The options of a mount for writes set the limit of reads. *)
Theorem mount_write_size_limits_reads :
  let s := mount_quanta 1048576 65536 1000000 1000000 4096 (T3 0 0 0) (T3 0 0 0) (T3 32768 0 0) (T3 0 0 0)
             (initial_session 1048576 65536) in
  session_rxmax s = 65536 /\ session_wxmax s = 65536.
Proof. split; reflexivity. Qed.
