(* ===== verification/Replies.v ===== *)
(** * Replies of single commands of [kernel/netsmb/smb_smb_2.c]

    Close, change notify, lease breaks, set info, flush, and query info with the file and
    filesystem information it brings.  Each is a [parser] over the structs it fills in. *)
From S2P Require Import Prelude Chain Parser Brl Lease Create.
From S2P Require Fid.
Import Errno.
Local Open Scope Z_scope.

(** ** Times: [smbfs_subr.c] *)

Definition HUNDRED_NSEC_PER_SEC := 10000000.
Definition DIFF1970TO1601 := 11644473600.

Record timespec := Ts { ts_sec : Z; ts_nsec : Z }.

(** The 64-bit difference is read as a signed [long]. *)
Definition smb_time_NT2local (nsec : Z) : timespec :=
  Ts (i64 (u64 (nsec / HUNDRED_NSEC_PER_SEC - DIFF1970TO1601))) (100 * (nsec `mod` HUNDRED_NSEC_PER_SEC)).

Definition smb_time_local2NT (t : timespec) (fat_fstype : bool) : Z :=
  if fat_fstype then u64 (u64 (Z.land (u64 (ts_sec t)) (Z.lnot 1) + DIFF1970TO1601) * HUNDRED_NSEC_PER_SEC)
  else u64 (u64 (u64 (ts_sec t) + DIFF1970TO1601) * HUNDRED_NSEC_PER_SEC + ts_nsec t / 100).

(** ** Close *)

Definition SMB2_CLOSE_FLAG_POSTQUERY_ATTRIB := 0x1.

Record smb2_close_rq := CloseRq {
  cl_fid : Z;
  cl_ret_flags : Z;
  cl_create_time : Z;
  cl_access_time : Z;
  cl_write_time : Z;
  cl_change_time : Z;
  cl_alloc_size : Z;
  cl_eof : Z;
  cl_attributes : Z
}.
Definition set_cl_fid (x : Z) (r : smb2_close_rq) : smb2_close_rq :=
  CloseRq x (cl_ret_flags r) (cl_create_time r) (cl_access_time r) (cl_write_time r) (cl_change_time
    r) (cl_alloc_size r) (cl_eof r) (cl_attributes r).
Definition set_cl_ret_flags (x : Z) (r : smb2_close_rq) : smb2_close_rq :=
  CloseRq (cl_fid r) x (cl_create_time r) (cl_access_time r) (cl_write_time r) (cl_change_time r)
    (cl_alloc_size r) (cl_eof r) (cl_attributes r).
Definition set_cl_create_time (x : Z) (r : smb2_close_rq) : smb2_close_rq :=
  CloseRq (cl_fid r) (cl_ret_flags r) x (cl_access_time r) (cl_write_time r) (cl_change_time r)
    (cl_alloc_size r) (cl_eof r) (cl_attributes r).
Definition set_cl_access_time (x : Z) (r : smb2_close_rq) : smb2_close_rq :=
  CloseRq (cl_fid r) (cl_ret_flags r) (cl_create_time r) x (cl_write_time r) (cl_change_time r)
    (cl_alloc_size r) (cl_eof r) (cl_attributes r).
Definition set_cl_write_time (x : Z) (r : smb2_close_rq) : smb2_close_rq :=
  CloseRq (cl_fid r) (cl_ret_flags r) (cl_create_time r) (cl_access_time r) x (cl_change_time r)
    (cl_alloc_size r) (cl_eof r) (cl_attributes r).
Definition set_cl_change_time (x : Z) (r : smb2_close_rq) : smb2_close_rq :=
  CloseRq (cl_fid r) (cl_ret_flags r) (cl_create_time r) (cl_access_time r) (cl_write_time r) x
    (cl_alloc_size r) (cl_eof r) (cl_attributes r).
Definition set_cl_alloc_size (x : Z) (r : smb2_close_rq) : smb2_close_rq :=
  CloseRq (cl_fid r) (cl_ret_flags r) (cl_create_time r) (cl_access_time r) (cl_write_time r)
    (cl_change_time r) x (cl_eof r) (cl_attributes r).
Definition set_cl_eof (x : Z) (r : smb2_close_rq) : smb2_close_rq :=
  CloseRq (cl_fid r) (cl_ret_flags r) (cl_create_time r) (cl_access_time r) (cl_write_time r)
    (cl_change_time r) (cl_alloc_size r) x (cl_attributes r).
Definition set_cl_attributes (x : Z) (r : smb2_close_rq) : smb2_close_rq :=
  CloseRq (cl_fid r) (cl_ret_flags r) (cl_create_time r) (cl_access_time r) (cl_write_time r)
    (cl_change_time r) (cl_alloc_size r) (cl_eof r) x.

(** The structs: the share and the request. *)
Definition close_state : Type := Fid.smb_share * smb2_close_rq.
Definition on_close (f : smb2_close_rq -> smb2_close_rq) (x : close_state) : close_state := (x.1, f x.2).

(** "Assume all the close attrs are invalid" *)
Definition no_attrs (r : smb2_close_rq) : smb2_close_rq :=
  set_cl_ret_flags (clear_bits (cl_ret_flags r) SMB2_CLOSE_FLAG_POSTQUERY_ATTRIB) r.

(** A time of 0 makes the attributes invalid. *)
Definition close_time (set : Z -> smb2_close_rq -> smb2_close_rq) (checked : smb2_close_rq -> Z) : parser close_state unit :=
  v ← get_le 8;
  change (on_close (fun r => let r := set v r in if checked r =? 0 then no_attrs r else r)).

Definition close_body : parser close_state unit :=
  check_size 60;;
  flags ← get_le 2;
  change (on_close (set_cl_ret_flags flags));;
  if negb (has flags SMB2_CLOSE_FLAG_POSTQUERY_ATTRIB) then mret tt
  else
    _ ← get_le 4;
    close_time set_cl_create_time cl_create_time;;
    close_time set_cl_access_time cl_access_time;;
    close_time set_cl_write_time cl_write_time;;
    close_time set_cl_change_time cl_create_time;;
    v ← get_le 8; change (on_close (set_cl_alloc_size v));;
    v ← get_le 8; change (on_close (set_cl_eof v));;
    v ← get_le 4; change (on_close (set_cl_attributes v)).

(** The FID is removed whatever the body of the reply is. *)
Definition forget_fid (x : close_state) : close_state :=
  let '(_, _, share) := Fid.smb_fid_get_kernel_fid (Some x.1) (cl_fid x.2) true in (default x.1 share, x.2).

Definition smb2_smb_parse_close : parser close_state unit :=
  r ← attempt close_body;
  change forget_fid;;
  match r with inl e => fail e | inr _ => mret tt end.

(** One round of [smb2_smb_close]: the errors of getting a channel, of the request and of [smb_rq_simple], the flags of the
    request afterwards, its status and the reply. *)
Record close_try := CloseTry {
  ct_iod : Z; ct_alloc : Z; ct_simple : Z; ct_reconnected : bool; ct_alt_discon : bool; ct_ntstatus : Z; ct_reply : list Z
}.

(** What is sent: the body, and whether it is marked as replayed and not to wait for credits. *)
Record close_sent := CloseSent { cs_body : list Z; cs_replay : bool; cs_no_block : bool }.

Definition SMB2_CMD_NO_BLOCK := 0x80000000.

Definition close_request (flags : Z) (f : Fid.SMB2FID) : list Z :=
  le_bytes 2 24 ++ le_bytes 2 (u16 flags) ++ le_bytes 4 0 ++ le_bytes 8 (Fid.fid_persistent f) ++ le_bytes 8 (Fid.fid_volatile f).

(** [resend:].  The error, what was sent, [ret_ntstatus] and the structs; [None]: the request is still waited for.
    [replay] is [SMB2_MC_REPLAY_FLAG] of [mc_flags].  For a compound request the request is only built; with its header it
    has 88 bytes, so that [smb2_rq_align8] adds none. *)
Fixpoint close_resend (compound : bool) (flags : Z) (no_block replay : bool) (tries : list close_try) (status : Z) (x : close_state) :
    option (Z * list close_sent * Z * close_state) :=
  match tries with
  | [] => None
  | t :: rest =>
      if negb (ct_iod t =? 0) then Some (ct_iod t, [], status, x)
      else if negb (ct_alloc t =? 0) then Some (ct_alloc t, [], status, x)
      else
        let '(error, f, share) := Fid.smb_fid_get_kernel_fid (Some x.1) (cl_fid x.2) false in
        let x := (default x.1 share, x.2) in
        match f with
        | None => Some (error, [], status, x)
        | Some f =>
            let rq := CloseSent (close_request flags f) replay no_block in
            if compound then Some (0, [rq], status, x) else
            let status := ct_ntstatus t in
            if negb (ct_simple t =? 0) then
              if ct_reconnected t then
                r ← close_resend compound flags no_block (replay || ct_alt_discon t) rest status x;
                let '(e, rqs, st, x) := r : Z * list close_sent * Z * close_state in Some (e, rq :: rqs, st, x)
              else Some (ct_simple t, [rq], status, x)
            else
              r ← eval smb2_smb_parse_close (ct_reply t) x;
              let '(v, _, x) := r : (Z + unit) * list Z * close_state in
              Some (match v with inl e => e | inr _ => 0 end, [rq], status, x)
        end
  end.

Definition smb2_smb_close (compound : bool) (flags : Z) (replay : bool) (tries : list close_try) (x : close_state) :
    option (Z * list close_sent * Z * close_state) :=
  close_resend compound (clear_bits flags SMB2_CMD_NO_BLOCK) (has flags SMB2_CMD_NO_BLOCK) replay tries 0 x.

(** ** Set info and flush *)

Definition smb2_smb_parse_set_info {X} : parser X unit := check_size 2.
Definition smb2_smb_parse_flush {X} : parser X unit := check_size 4;; _ ← get_le 2; mret tt.

(** ** Lease breaks: what is queued for the lease thread *)

Definition parse_lease_break {X} : parser X lease_rq :=
  check_size 44;;
  server_epoch ← get_le 2;
  flags ← get_le 4;
  lease_key_hi ← get_le 8;
  lease_key_low ← get_le 8;
  curr_lease_state ← get_le 4;
  new_lease_state ← get_le 4;
  _ ← get_le 4;
  _ ← get_le 4;
  _ ← get_le 4;
  mret (LeaseRq server_epoch flags lease_key_hi lease_key_low curr_lease_state new_lease_state false).

(** ** Change notify *)

(** The events of a vnode. *)
Inductive vnode_event :=
  | EvAttrib | EvWrite | EvRename | EvFileCreated | EvDirCreated | EvFileRemoved | EvDirRemoved.

#[export] Instance vnode_event_eq_dec : EqDecision vnode_event.
Proof. solve_decision. Defined.

(** The events of an action; none is known for others. *)
Definition action_events (action : Z) : option (list vnode_event) :=
  if action =? 1 then Some [EvFileCreated; EvDirCreated]
  else if action =? 2 then Some [EvFileRemoved; EvDirRemoved]
  else if action =? 3 then Some [EvAttrib]
  else if (action =? 4) || (action =? 5) then Some [EvRename]
  else if (action =? 6) || (action =? 7) || (action =? 8) then Some [EvAttrib]
  else None.

(** "since we already moved pass next offset don't count it" *)
Definition less4 (n : Z) : Z := if 4 <=? n then n - 4 else n.

(** The loop from [do] on; the result is [error] after the last entry. *)
Fixpoint notify_loop (fuel : nat) (next_entry_offset : Z) : parser (list vnode_event) Z :=
  match fuel with
  | O => Undef
  | S k =>
      action ← get_le 4;
      let rest := less4 (less4 next_entry_offset) in
      next ← (if rest =? 0 then mret 0 else skip rest;; get_le 4);
      change (fun events => events ++ default [] (action_events action));;
      let error := match action_events action with None => ENOTSUP | Some _ => 0 end in
      if next =? 0 then mret error else notify_loop k next
  end.

(** "the server doesn't have to return any data, so no next offset field is not an error" *)
Definition notify_entries (fuel : nat) : parser (list vnode_event) (Z + Z) :=
  first ← attempt (get_le 4);
  match first with inl _ => mret (inr 0) | inr next => attempt (notify_loop fuel next) end.

(** The error is that of a read, or the one the last entry left. *)
Definition report_events (r : Z + Z) : parser (list vnode_event) unit :=
  let error := match r with inl e => e | inr e => e end in
  change (fun events => if negb (error =? 0) || bool_decide (events = []) then [EvAttrib; EvWrite] else events);;
  if error =? 0 then mret tt else fail error.

(** The reply, after it has come; [*events] is 0 at the start. *)
Definition smb2_smb_parse_change_notify (fuel : nat) : parser (list vnode_event) unit :=
  change (fun _ => []);;
  check_size 9;;
  output_buffer_offset ← get_le 2;
  output_buffer_len ← get_le 4;
  (if 0 <? output_buffer_offset then skip (u16 (u16 (output_buffer_offset - SMB2_HDRLEN) - 8)) else mret tt);;
  r ← (if output_buffer_len =? 0 then mret (inr 0) else notify_entries fuel);
  report_events r.

(** ** Query info: all information of a file *)

Definition SMB_EFA_DIRECTORY := 0x10.
Definition FA_VTYPE_VALID := 0x1.
Definition SMBV_HAS_FILEIDS := 0x10.
Definition SMB_MAXPATHLEN := 32760.

Record smbfattr := Fattr {
  fa_crtime : timespec;
  fa_atime : timespec;
  fa_mtime : timespec;
  fa_chtime : timespec;
  fa_attr : Z;
  fa_valid_mask : Z;
  fa_is_dir : bool;  (* fa_vtype: VDIR or VREG *)
  fa_data_alloc : Z;
  fa_size : Z;
  fa_ino : Z
}.
Definition set_fa_crtime (x : timespec) (r : smbfattr) : smbfattr :=
  Fattr x (fa_atime r) (fa_mtime r) (fa_chtime r) (fa_attr r) (fa_valid_mask r) (fa_is_dir r)
    (fa_data_alloc r) (fa_size r) (fa_ino r).
Definition set_fa_atime (x : timespec) (r : smbfattr) : smbfattr :=
  Fattr (fa_crtime r) x (fa_mtime r) (fa_chtime r) (fa_attr r) (fa_valid_mask r) (fa_is_dir r)
    (fa_data_alloc r) (fa_size r) (fa_ino r).
Definition set_fa_mtime (x : timespec) (r : smbfattr) : smbfattr :=
  Fattr (fa_crtime r) (fa_atime r) x (fa_chtime r) (fa_attr r) (fa_valid_mask r) (fa_is_dir r)
    (fa_data_alloc r) (fa_size r) (fa_ino r).
Definition set_fa_chtime (x : timespec) (r : smbfattr) : smbfattr :=
  Fattr (fa_crtime r) (fa_atime r) (fa_mtime r) x (fa_attr r) (fa_valid_mask r) (fa_is_dir r)
    (fa_data_alloc r) (fa_size r) (fa_ino r).
Definition set_fa_attr (x : Z) (r : smbfattr) : smbfattr :=
  Fattr (fa_crtime r) (fa_atime r) (fa_mtime r) (fa_chtime r) x (fa_valid_mask r) (fa_is_dir r)
    (fa_data_alloc r) (fa_size r) (fa_ino r).
Definition set_fa_valid_mask (x : Z) (r : smbfattr) : smbfattr :=
  Fattr (fa_crtime r) (fa_atime r) (fa_mtime r) (fa_chtime r) (fa_attr r) x (fa_is_dir r)
    (fa_data_alloc r) (fa_size r) (fa_ino r).
Definition set_fa_is_dir (x : bool) (r : smbfattr) : smbfattr :=
  Fattr (fa_crtime r) (fa_atime r) (fa_mtime r) (fa_chtime r) (fa_attr r) (fa_valid_mask r) x
    (fa_data_alloc r) (fa_size r) (fa_ino r).
Definition set_fa_data_alloc (x : Z) (r : smbfattr) : smbfattr :=
  Fattr (fa_crtime r) (fa_atime r) (fa_mtime r) (fa_chtime r) (fa_attr r) (fa_valid_mask r) (fa_is_dir
    r) x (fa_size r) (fa_ino r).
Definition set_fa_size (x : Z) (r : smbfattr) : smbfattr :=
  Fattr (fa_crtime r) (fa_atime r) (fa_mtime r) (fa_chtime r) (fa_attr r) (fa_valid_mask r) (fa_is_dir
    r) (fa_data_alloc r) x (fa_ino r).
Definition set_fa_ino (x : Z) (r : smbfattr) : smbfattr :=
  Fattr (fa_crtime r) (fa_atime r) (fa_mtime r) (fa_chtime r) (fa_attr r) (fa_valid_mask r) (fa_is_dir
    r) (fa_data_alloc r) (fa_size r) x.

(** [struct FILE_ALL_INFORMATION]: the attributes, the flags of the session, and the name
    that is returned with its length. *)
Record all_information := AllInfo {
  ai_fap : smbfattr;
  ai_misc_flags : Z;  (* session_misc_flags *)
  ai_name : option (list Z)  (* *namep *)
}.
Definition set_ai_fap (x : smbfattr) (r : all_information) : all_information :=
  AllInfo x (ai_misc_flags r) (ai_name r).
Definition set_ai_misc_flags (x : Z) (r : all_information) : all_information :=
  AllInfo (ai_fap r) x (ai_name r).
Definition set_ai_name (x : option (list Z)) (r : all_information) : all_information :=
  AllInfo (ai_fap r) (ai_misc_flags r) x.

Definition on_fap (f : smbfattr -> smbfattr) (x : all_information) : all_information := set_ai_fap (f (ai_fap x)) x.

(** [smb2fs_smb_file_id_check] of a file without a name. *)
Definition file_id_check (ino misc_flags : Z) : Z :=
  if has misc_flags SMBV_HAS_FILEIDS && (ino =? 0) then clear_bits misc_flags SMBV_HAS_FILEIDS else misc_flags.

(** "Don't count any trailing nulls in the name." *)
Definition name_len (name : list Z) : Z :=
  let n := Z.of_nat (length name) in
  if (1 <? n) && (nth (Z.to_nat (n - 1)) name 1 =? 0) && (nth (Z.to_nat (n - 2)) name 1 =? 0) then n - 2 else n.

(** A read of the buffer; outside of it is undefined. *)
Definition byte_at (buf : list Z) (i : Z) : option Z := if i <? 0 then None else buf !! Z.to_nat i.

(** [*filename == 0x5c && *(filename + 1) == 0]: a back slash in UTF-16. *)
Definition slash_at (buf : list Z) (i : Z) : option bool :=
  b ← byte_at buf i;
  if b =? 0x5c then c ← byte_at buf (i + 1); Some (c =? 0) else Some false.

(** "Work backwards until we reach the begining or find a back slash" *)
Fixpoint slash_back (fuel : nat) (buf : list Z) (i : Z) : option Z :=
  match fuel with
  | O => None
  | S k => if i <=? 0 then Some i else b ← slash_at buf i; if b : bool then Some i else slash_back k buf (i - 2)
  end.

(** The last component of a path: where it starts and how long it is. *)
Definition last_component (buf : list Z) : option (list Z) :=
  let nmlen := name_len buf in
  i ← slash_back (S (length buf)) buf (if 1 <? nmlen then nmlen - 2 else 0);
  b ← slash_at buf i;
  let start := if b : bool then i + 2 else i in
  if (start <? 0) || (nmlen <? start) then None
  else Some (take (Z.to_nat (nmlen - start)) (drop (Z.to_nat start) buf)).

(** [smb_get_utf8_char_count] of a string. *)
Definition smb_get_utf8_char_count (s : list Z) : Z :=
  Z.of_nat (length (filter (fun b => Z.land b 0xc0 <> 0x80) (cstr s))).

Section QueryInfo.
Context `{Kernel}.
(** The inode of the node and [smbfs_getino] of a name under it; whether the caller wants
    the name and its length; whether the session has Unicode. *)
Context (n_ino : Z) (smbfs_getino : list Z -> Z) (want_name want_len unicode : bool).

Definition nt_time (set : timespec -> smbfattr -> smbfattr) : parser all_information unit :=
  llint ← get_le 8;
  change (fun x => if llint =? 0 then x else on_fap (set (smb_time_NT2local llint)) x).

(** The fields before the name. *)
Definition all_info_fields : parser all_information unit :=
  nt_time set_fa_crtime;;
  nt_time set_fa_atime;;
  nt_time set_fa_mtime;;
  nt_time set_fa_chtime;;
  attr ← get_le 4;
  change (on_fap (fun f => set_fa_is_dir (has attr SMB_EFA_DIRECTORY)
    (let f := set_fa_attr attr f in
     if has attr SMB_EFA_DIRECTORY then set_fa_valid_mask (Z.lor (fa_valid_mask f) FA_VTYPE_VALID) f else f)));;
  _ ← get_le 4;
  v ← get_le 8; change (on_fap (set_fa_data_alloc v));;
  v ← get_le 8; change (on_fap (set_fa_size v));;
  _ ← get_le 4;
  _ ← get_le 1;
  _ ← get_le 1;
  _ ← get_le 2;
  v ← get_le 8;
  change (fun x => set_ai_misc_flags (file_id_check v (ai_misc_flags x)) (on_fap (set_fa_ino v) x));;
  _ ← get_le 4;
  _ ← get_le 4;
  _ ← get_le 8;
  _ ← get_le 4;
  _ ← get_le 4;
  change (fun x => if has (ai_misc_flags x) SMBV_HAS_FILEIDS then x else on_fap (set_fa_ino n_ino) x).

(** The name is returned, and numbers the file when the server has no file IDs. *)
Definition return_name (name : list Z) (x : all_information) : all_information :=
  let x := set_ai_name (Some name) x in
  if negb (has (ai_misc_flags x) SMBV_HAS_FILEIDS) && want_len then on_fap (set_fa_ino (smbfs_getino name)) x else x.

Definition all_info_name : parser all_information unit :=
  size ← get_le 4;
  if size =? 0 then mret tt
  else if SMB_MAXPATHLEN * 2 <=? size then fail EINVAL
  else if negb (malloc_ok size) then fail ENOMEM
  else
    ntwrkname ← get_mem (Z.to_nat size);
    if negb unicode then mret tt
    else
      match last_component ntwrkname with
      | None => Undef
      | Some c =>
          match smbfs_ntwrkname_tolocal c with
          | None => mret tt
          | Some name =>
              if (SMB_MAXFNAMELEN <? Z.of_nat (length name)) && (SMB_MAXFNAMELEN <? smb_get_utf8_char_count name)
              then fail EINVAL
              else change (return_name name)
          end
      end.

Definition smb2_smb_parse_file_all_info : parser all_information unit :=
  all_info_fields;; if want_name then all_info_name else mret tt.
End QueryInfo.

(** ** Query info: filesystems *)

Record fs_attribute_information := FsAttr {
  file_system_attrs : Z; max_component_name_len : Z; file_system_name_len : Z; file_system_namep : option (list Z)
}.
Record fs_size_information := FsSize {
  total_alloc_units : Z; avail_alloc_units : Z; sectors_per_alloc_unit : Z; bytes_per_sector : Z
}.

Section Fs.
Context `{Kernel}.

(** "Make sure max_component_name_len is something reasonable" *)
Definition component_len (n : Z) : Z := if SMB_MAXFNAMELEN * 2 <? n then SMB_MAXFNAMELEN * 2 else n.

Definition smb2_smb_parse_fs_attr : parser fs_attribute_information unit :=
  v ← get_le 4;
  change (fun x => FsAttr v (max_component_name_len x) (file_system_name_len x) (file_system_namep x));;
  v ← get_le 4;
  change (fun x => FsAttr (file_system_attrs x) (component_len v) (file_system_name_len x) (file_system_namep x));;
  v ← get_le 4;
  change (fun x => FsAttr (file_system_attrs x) (max_component_name_len x) v (file_system_namep x));;
  if (0 <? v) && (v <? 1024) then
    if malloc_ok v then
      name ← get_mem (Z.to_nat v);
      change (fun x => FsAttr (file_system_attrs x) (max_component_name_len x) v (Some name))
    else fail ENOMEM
  else mret tt.

Definition smb2_smb_parse_fs_size : parser fs_size_information unit :=
  v ← get_le 8; change (fun x => FsSize v (avail_alloc_units x) (sectors_per_alloc_unit x) (bytes_per_sector x));;
  v ← get_le 8; change (fun x => FsSize (total_alloc_units x) v (sectors_per_alloc_unit x) (bytes_per_sector x));;
  v ← get_le 4; change (fun x => FsSize (total_alloc_units x) (avail_alloc_units x) v (bytes_per_sector x));;
  v ← get_le 4; change (fun x => FsSize (total_alloc_units x) (avail_alloc_units x) (sectors_per_alloc_unit x) v).

(** The security descriptor, of at least its 20 bytes. *)
Definition smb2_smb_parse_security {X} (ret_buffer_len : Z) : parser X (list Z) :=
  if 20 <=? ret_buffer_len then
    if malloc_ok ret_buffer_len then get_mem (Z.to_nat ret_buffer_len) else fail ENOMEM
  else fail EBADRPC.

(** [smb2_smb_get_alloc_size]: the allocation of a size in blocks of [f_bsize]; no mount is
    [None]. *)
Definition smb2_smb_get_alloc_size (f_bsize : option Z) (logical_size : Z) : Z :=
  if logical_size =? 0 then 0
  else match f_bsize with
       | Some b => if b =? 0 then 0 else u64 (u64 (logical_size / b * b) + b)
       | None => 0
       end.
End Fs.
