(* ===== verification/ReplyTheorems.v ===== *)
(** * Replies of single commands: theorems *)
From S2P Require Import Prelude Chain Brl Lease Parser Create Replies.
From S2P Require Fid.
Import Errno.
Local Open Scope Z_scope.

(** ** Times *)

(** A time of the client that has an NT time. *)
Definition nt_representable (t : timespec) : Prop :=
  0 <= ts_sec t + DIFF1970TO1601 < 1844674407370 /\ 0 <= ts_nsec t < 1000000000.

(** A time that is sent to the server and comes back is the same time, cut to a
    multiple of 100 nanoseconds. *)
Theorem time_roundtrip t : nt_representable t ->
  smb_time_NT2local (smb_time_local2NT t false) = Ts (ts_sec t) (ts_nsec t / 100 * 100).
Proof.
  destruct t as [s n]. unfold nt_representable, smb_time_NT2local, smb_time_local2NT,
    HUNDRED_NSEC_PER_SEC, DIFF1970TO1601. cbn [ts_sec ts_nsec]. intros [Hs Hn].
  assert (0 <= n / 100 < 10000000) as Hq
    by (split; [apply Z.div_pos; lia|apply Z.div_lt_upper_bound; lia]).
  replace (u64 (u64 s + 11644473600)) with (s + 11644473600)
    by (rewrite u64_add_l, u64_small; lia).
  rewrite (u64_small ((s + 11644473600) * 10000000 + n / 100)) by lia.
  replace ((s + 11644473600) * 10000000 + n / 100) with (n / 100 + (s + 11644473600) * 10000000) by lia.
  rewrite Z.div_add, Z.mod_add by lia. rewrite (Z.div_small (n / 100)), (Z.mod_small (n / 100)) by lia.
  f_equal; [|lia]. replace (0 + (s + 11644473600) - 11644473600) with s by lia.
  unfold i64, swrap, u64. rewrite Zplus_mod_idemp_l.
  rewrite Z.mod_small by lia. lia.
Qed.

Lemma time_roundtrip_witness :
  nt_representable (Ts (-5) 123456789) /\
  smb_time_NT2local (smb_time_local2NT (Ts (-5) 123456789) false) = Ts (-5) 123456700.
Proof.
  assert (nt_representable (Ts (-5) 123456789)) as H
    by (unfold nt_representable, DIFF1970TO1601; cbn; lia).
  split; [exact H|]. exact (time_roundtrip (Ts (-5) 123456789) H).
Defined.

(** ** Close *)

Definition attrs_valid (r : smb2_close_rq) : bool := has (cl_ret_flags r) SMB2_CLOSE_FLAG_POSTQUERY_ATTRIB.

Lemma no_attrs_invalid r : attrs_valid (no_attrs r) = false.
Proof.
  unfold attrs_valid, no_attrs, has, clear_bits. cbn [cl_ret_flags set_cl_ret_flags].
  rewrite <- Z.land_assoc. change (Z.land (Z.lnot _) _) with 0. by rewrite Z.land_0_r.
Qed.

(** The attributes are valid only with these times. *)
Definition times_checked (fs : list (smb2_close_rq -> Z)) (r : smb2_close_rq) : Prop :=
  attrs_valid r = true -> Forall (fun t => t <> 0) (map (fun f => f r) fs).

(** The struct but for what [close_time] checks. *)
Definition closing (fs : list (smb2_close_rq -> Z)) (x0 x : close_state) : Prop :=
  x.1 = x0.1 /\ cl_fid x.2 = cl_fid x0.2 /\ times_checked fs x.2.

Lemma close_time_step set checked fs (k : parser close_state unit) Q bs x0 x :
  closing fs x0 x ->
  (forall v r, cl_fid (set v r) = cl_fid r /\ attrs_valid (set v r) = attrs_valid r /\
     Forall (fun f => f (no_attrs r) = f r /\ f (set v r) = f r) fs) ->
  (forall e bs' x', e <> 0 -> closing fs x0 x' -> Q (inl e) bs' x') ->
  (forall bs' x', closing (checked :: fs) x0 x' -> wp k Q bs' x') ->
  wp (close_time set checked;; k) Q bs x.
Proof.
  intros (H1 & H2 & H3) Hset HE HQ. unfold close_time. repeat wp_step; [|by apply HE].
  apply HQ. destruct (Hset (le_value (take 8 bs)) x.2) as (Hf & Hv & Hk).
  split; [done|]. cbn [on_close snd]. set (r := set _ _) in *. clearbody r.
  destruct (Z.eqb_spec (checked r) 0) as [E|E].
  - split; [change (cl_fid r = cl_fid x0.2); congruence|]. intros HV. by rewrite no_attrs_invalid in HV.
  - split; [congruence|]. intros HV. constructor; [done|]. rewrite Hv in HV.
    specialize (H3 HV). clear -H3 Hk. induction Hk as [|f fs [_ E] _ IH]; constructor; inversion_clear H3; [congruence|auto].
Qed.

Lemma close_body_wp Q bs x :
  (forall fs r bs' x', closing fs x x' -> r <> inl 0 ->
     (r = inr tt -> attrs_valid x'.2 = true ->
        fs = [cl_create_time; cl_write_time; cl_access_time; cl_create_time]) -> Q r bs' x') ->
  wp close_body Q bs x.
Proof.
  intros HQ.
  assert (HE : forall fs e bs' x', e <> 0 -> closing fs x x' -> Q (inl e) bs' x') by (intros; eapply HQ; [done|congruence|done]).
  assert (HX : closing [] x x) by (split; [done|split; [done|by constructor]]).
  assert (HF : forall v, closing [] x (on_close (set_cl_ret_flags v) x))
    by (intros v; split; [done|split; [done|by constructor]]).
  unfold close_body, check_size. repeat wp_step; try (by eapply HE).
  { apply (HQ []); [apply HF|done|]. intros _ HV. unfold attrs_valid in HV. cbn in HV. by rewrite HV in *. }
  apply (close_time_step _ _ [] _ _ _ x); [apply HF|by repeat constructor|by apply HE|]. clear HX HF. intros ? ? HX.
  do 3 (eapply close_time_step; [exact HX|by repeat constructor|by apply HE|]; clear HX; intros ? ? HX).
  repeat wp_step; try (by eapply HE); 
    by apply (HQ [cl_create_time; cl_write_time; cl_access_time; cl_create_time]); [exact HX|..].
Qed.

Lemma forget_fid_abs x : Fid.table_ok x.1 -> cl_fid x.2 <> Fid.UINT64_MAX ->
  Fid.table_ok (forget_fid x).1 /\ (forget_fid x).2 = x.2 /\
  forall g, Fid.abs (forget_fid x).1 g = if g =? cl_fid x.2 then tail (Fid.abs x.1 g) else Fid.abs x.1 g.
Proof.
  intros Hok Hne. unfold forget_fid.
  destruct (Fid.get_kernel_fid_abs x.1 (cl_fid x.2) true Hok Hne) as (s' & -> & Hok' & HA).
  destruct (Fid.abs x.1 (cl_fid x.2)) eqn:E; cbn; (split; [done|]); (split; [done|]); intros g;
    rewrite HA; cbn; destruct (Z.eqb_spec g (cl_fid x.2)) as [->|]; by rewrite ?E.
Qed.

(** Parsing a reply that says success removes the FID, whatever else is in it. *)
Lemma parse_close_forgets bs x :
  Fid.table_ok x.1 -> cl_fid x.2 <> Fid.UINT64_MAX ->
  exists r bs' x', eval smb2_smb_parse_close bs x = Some (r, bs', x') /\ Fid.table_ok x'.1 /\
    (forall g, Fid.abs x'.1 g = if g =? cl_fid x.2 then tail (Fid.abs x.1 g) else Fid.abs x.1 g) /\
    (r = inr tt -> attrs_valid x'.2 = true ->
       cl_create_time x'.2 <> 0 /\ cl_access_time x'.2 <> 0 /\ cl_write_time x'.2 <> 0) /\
    cl_fid x'.2 = cl_fid x.2 /\ r <> inl 0.
Proof.
  intros Hok Hne.
  enough (wp smb2_smb_parse_close (fun r _ x' => Fid.table_ok x'.1 /\
    (forall g, Fid.abs x'.1 g = if g =? cl_fid x.2 then tail (Fid.abs x.1 g) else Fid.abs x.1 g) /\
    (r = inr tt -> attrs_valid x'.2 = true ->
       cl_create_time x'.2 <> 0 /\ cl_access_time x'.2 <> 0 /\ cl_write_time x'.2 <> 0) /\
    cl_fid x'.2 = cl_fid x.2 /\ r <> inl 0) bs x) as HW.
  { destruct (wp_defined _ _ _ _ HW) as [[[r bs'] x'] E]. exists r, bs', x'. split; [done|].
    exact (wp_eval _ _ _ _ _ _ _ HW E). }
  unfold smb2_smb_parse_close. apply wp_bind, wp_attempt, close_body_wp.
  intros fs r bs' x' (H1 & H2 & H3) H0 HF. cbn [on_value]. apply wp_bind, wp_change. cbn [on_value].
  destruct (forget_fid_abs x') as (Ht & H4 & HA); [congruence..|].
  assert (HA' : forall g, Fid.abs (forget_fid x').1 g =
    if g =? cl_fid x.2 then tail (Fid.abs x.1 g) else Fid.abs x.1 g) by (intros g; by rewrite HA, H1, H2).
  destruct r as [e|[]]; [apply wp_fail; split_and!; try done; by rewrite ?H4|]. apply wp_ret.
  split; [done|]. split; [done|]. split; [|split; [by rewrite H4|done]]. intros _. rewrite H4. intros HV. rewrite (HF eq_refl HV) in H3. specialize (H3 HV).
  cbn [map] in H3. rewrite !list.Forall_cons in H3. tauto.
Qed.

(** A request that is sent anew, and one that was answered with success. *)
Definition resent (t : close_try) : bool := (ct_iod t =? 0) && (ct_alloc t =? 0) && negb (ct_simple t =? 0) && ct_reconnected t.
Definition accepted (t : close_try) : bool := (ct_iod t =? 0) && (ct_alloc t =? 0) && (ct_simple t =? 0).

(** From [x] a close came to [x'] with the error [e]; [ok]: the server answered with success. *)
Definition close_done (ok : bool) (x x' : close_state) (e : Z) : Prop :=
  Fid.table_ok x'.1 /\ cl_fid x'.2 = cl_fid x.2 /\
  (forall g, Fid.abs x'.1 g = if ok && (g =? cl_fid x.2) then tail (Fid.abs x.1 g) else Fid.abs x.1 g) /\
  (ok = false -> e <> 0) /\
  (ok = true -> e = 0 -> attrs_valid x'.2 = true ->
     cl_create_time x'.2 <> 0 /\ cl_access_time x'.2 <> 0 /\ cl_write_time x'.2 <> 0).

Lemma close_last flags nb replay t rest status x : Fid.table_ok x.1 -> cl_fid x.2 <> Fid.UINT64_MAX -> resent t = false ->
  exists e rqs st x', close_resend false flags nb replay (t :: rest) status x = Some (e, rqs, st, x') /\ close_done (accepted t) x x' e /\
    Forall (fun q => exists f, head (Fid.abs x.1 (cl_fid x.2)) = Some f /\ cs_body q = close_request flags f) rqs.
Proof.
  intros Hok Hne Hr. unfold resent, accepted in *. unfold close_done. cbn [close_resend].
  destruct (Z.eqb_spec (ct_iod t) 0) as [Ei|Ei]; cbn [negb andb] in *;
    [|eexists _, _, _, _; split; [reflexivity|]; split; [by split_and!|constructor]].
  destruct (Z.eqb_spec (ct_alloc t) 0) as [Ea|Ea]; cbn [negb andb] in *;
    [|eexists _, _, _, _; split; [reflexivity|]; split; [by split_and!|constructor]].
  destruct (Fid.get_kernel_fid_abs x.1 (cl_fid x.2) false Hok Hne) as (s' & Eg & Hok' & HA). rewrite Eg.
  cbn [andb] in HA. destruct (Fid.abs x.1 (cl_fid x.2)) as [|f fs] eqn:Ef; change (default x.1 (Some s')) with s'.
  { eexists _, _, _, _. split; [reflexivity|]. split; [|constructor]. split_and!; try done.
    intros g. cbn [fst]. rewrite HA. destruct (Z.eqb_spec g (cl_fid x.2)) as [->|]; [rewrite Ef|]; by destruct (ct_simple t =? 0). }
  assert (Forall (fun q => exists f0, head (f :: fs) = Some f0 /\ cs_body q = close_request flags f0)
    [CloseSent (close_request flags f) replay nb]) as HF by (constructor; [by exists f|constructor]).
  destruct (Z.eqb_spec (ct_simple t) 0) as [Es|Es]; cbn [negb andb] in *.
  - destruct (parse_close_forgets (ct_reply t) (s', x.2) Hok' Hne) as (v & bs' & x' & E & Ht & HA' & Hv & Hfid & H0).
    rewrite E. cbn [mbind option_bind]. eexists _, _, _, _. split; [reflexivity|]. split; [|exact HF].
    split_and!; [done|done| |done|].
    + intros g. rewrite HA'. cbn [fst snd]. by rewrite HA.
    + intros _ He. apply Hv. destruct v as [e|[]]; [by subst e|done].
  - rewrite Hr. eexists _, _, _, _. split; [reflexivity|]. by split_and!.
Qed.

Lemma close_done_again ok x1 x x' e : (forall g, Fid.abs x1.1 g = Fid.abs x.1 g) -> cl_fid x1.2 = cl_fid x.2 ->
  close_done ok x1 x' e -> close_done ok x x' e.
Proof.
  intros HA Hf (H1 & H2 & H3 & H4). unfold close_done. split_and!; [done|congruence| |apply H4..]. intros g. by rewrite H3, HA, Hf.
Qed.

(** C36: a close (not one of a compound request) ends with the first request that is not interrupted by a reconnect,
    however many were.  If the server answers with success, exactly the FID that is closed is removed from the table of the
    share, whatever else is in the answer; if not, the table stays as it is and an error is returned.  Each request has the
    FID of the server; when attributes are marked as valid after a success, the times of creation, access and writing are
    there.  (The FID of all ones, which stands for that of a compound request, is not in the table.) *)
Theorem close_forgets_fid flags replay pre t post x :
  Fid.table_ok x.1 -> cl_fid x.2 <> Fid.UINT64_MAX -> Forall (fun t => resent t = true) pre -> resent t = false ->
  exists e rqs st x', smb2_smb_close false flags replay (pre ++ t :: post) x = Some (e, rqs, st, x') /\ close_done (accepted t) x x' e /\
    Forall (fun q => exists f, head (Fid.abs x.1 (cl_fid x.2)) = Some f /\
      cs_body q = close_request (clear_bits flags SMB2_CMD_NO_BLOCK) f) rqs.
Proof.
  intros Hok Hne Hpre Ht. unfold smb2_smb_close. generalize (clear_bits flags SMB2_CMD_NO_BLOCK), (has flags SMB2_CMD_NO_BLOCK), 0.
  intros fl nb status. revert replay status x Hok Hne.
  induction Hpre as [|t0 pre H0 _ IH]; intros replay status x Hok Hne; [by apply close_last|]. cbn [app close_resend].
  unfold resent in H0. rewrite !andb_true_iff, negb_true_iff, !Z.eqb_eq in H0. destruct H0 as (((Ei & Ea) & Es) & Er).
  rewrite Ei, Ea. cbn [Z.eqb negb].
  destruct (Fid.get_kernel_fid_abs x.1 (cl_fid x.2) false Hok Hne) as (s' & Eg & Hok' & HA). rewrite Eg. cbn [andb] in HA.
  destruct (Fid.abs x.1 (cl_fid x.2)) as [|f fs] eqn:Ef; change (default x.1 (Some s')) with s'.
  - eexists _, _, _, _. split; [reflexivity|]. split; [|constructor]. unfold close_done. split_and!; try done. intros g. cbn [fst]. rewrite HA.
    destruct (Z.eqb_spec g (cl_fid x.2)) as [->|]; [rewrite Ef|]; by destruct (accepted t).
  - rewrite Es, Er. cbn [negb].
    destruct (IH (replay || ct_alt_discon t0) (ct_ntstatus t0) (s', x.2) Hok' Hne) as (e & rqs & st & x' & E & HD & HF).
    rewrite E. cbn [mbind option_bind]. eexists _, _, _, _. split; [reflexivity|].
    split; [by eapply close_done_again; [| |exact HD]|]. cbn [fst snd] in HF. rewrite HA, Ef in HF.
    constructor; [by exists f|done].
Qed.

(** A close of a FID of the table, whose first channel goes down. *)
Definition demo_close : close_state :=
  (Fid.smb_fid_insert_new_node Fid.empty_share (Fid.mk_node 5 (Fid.mk_fid 7 8)), CloseRq 5 0 0 0 0 0 0 0 0).
Definition demo_tries : list close_try :=
  [CloseTry 0 0 ETIMEDOUT true true 0 []; CloseTry 0 0 0 false false 0 (le_bytes 2 60 ++ le_bytes 2 0)].

Lemma close_forgets_fid_witness : exists e rqs st x',
  smb2_smb_close false SMB2_CMD_NO_BLOCK false demo_tries demo_close = Some (e, rqs, st, x') /\
  Fid.abs demo_close.1 5 = [Fid.mk_fid 7 8] /\ Fid.abs x'.1 5 = [] /\ e = 0 /\ map cs_replay rqs = [false; true].
Proof.
  destruct (close_forgets_fid SMB2_CMD_NO_BLOCK false (take 1 demo_tries) (CloseTry 0 0 0 false false 0 (le_bytes 2 60 ++ le_bytes 2 0)) []
    demo_close) as (e & rqs & st & x' & E & (_ & _ & HA & _) & _).
  - apply Fid.insert_abs, Fid.empty_share_ok.
  - done.
  - by repeat constructor.
  - done.
  - exists e, rqs, st, x'. split; [exact E|]. split; [by vm_compute|]. specialize (HA 5). vm_compute in E. injection E as <- <- <- <-.
    split; [rewrite HA; by vm_compute|]. by split.
Defined.

(** The check of the change time looks at the creation time: attributes whose change time
    is 0 stay valid. *)
Theorem close_zero_change_time_valid :
  exists bs bs' x', eval close_body bs demo_close = Some (inr tt, bs', x') /\
    attrs_valid x'.2 = true /\ cl_change_time x'.2 = 0.
Proof.
  exists (le_bytes 2 60 ++ le_bytes 2 1 ++ le_bytes 4 0 ++ le_bytes 8 7 ++ le_bytes 8 7 ++ le_bytes 8 7
    ++ le_bytes 8 0 ++ le_bytes 8 0 ++ le_bytes 8 0 ++ le_bytes 4 0).
  eexists _, _. split; [|split]; reflexivity.
Qed.

(** * The reply to a change notify: theorems *)

(** ** Any reply *)

Lemma notify_loop_wp fuel next bs x :
  Forall is_byte bs -> (length bs < fuel)%nat -> wp (notify_loop fuel next) (fun _ _ _ => True) bs x.
Proof.
  revert next bs x. induction fuel as [|k IH]; intros next bs x Hb Hl; [lia|]. cbn [notify_loop].
  repeat wp_step; try done; apply IH; repeat apply list.Forall_drop; rewrite ?length_drop; try done; lia.
Qed.

Lemma report_events_wp r bs x : wp (report_events r) (fun r _ events => r = inr tt -> events <> []) bs x.
Proof.
  unfold report_events. repeat wp_step; intros E0; [|done]. cbn [negb orb].
  by destruct x; rewrite ?bool_decide_eq_true_2, ?bool_decide_eq_false_2 by done.
Qed.

Lemma change_notify_wp_events fuel bs x : Forall is_byte bs -> (length bs < fuel)%nat ->
  wp (smb2_smb_parse_change_notify fuel) (fun r _ events => r = inr tt -> events <> []) bs x.
Proof.
  intros Hb Hl.
  unfold smb2_smb_parse_change_notify, check_size, notify_entries.
  repeat wp_step; try done; try apply report_events_wp;
    (eapply wp_mono; [intros; cbn [on_value]; apply report_events_wp|]; apply notify_loop_wp;
      [by repeat apply list.Forall_drop|rewrite ?length_drop; lia]).
Qed.

Lemma change_notify_wp fuel bs x : Forall is_byte bs -> (length bs < fuel)%nat ->
  wp (smb2_smb_parse_change_notify fuel) (fun _ _ _ => True) bs x.
Proof. intros Hb Hl. eapply wp_mono; [|by apply change_notify_wp_events]. done. Qed.

(** Whatever the server replies to a change notify, parsing it ends, and a reply that
    is accepted reports at least one event. *)
Theorem change_notify_reports fuel bs x :
  Forall is_byte bs -> (length bs < fuel)%nat ->
  exists r bs' events, eval (smb2_smb_parse_change_notify fuel) bs x = Some (r, bs', events) /\
    (r = inr tt -> events <> []).
Proof.
  intros Hb Hl.
  pose proof (change_notify_wp_events fuel bs x Hb Hl) as HW.
  destruct (wp_defined _ _ _ _ HW) as [[[r bs'] x'] E]. exists r, bs', x'. split; [done|].
  exact (wp_eval _ _ _ _ _ _ _ HW E).
Qed.

Lemma change_notify_reports_witness :
  exists r bs' events, eval (smb2_smb_parse_change_notify 10) [9; 0; 72; 0; 4; 0; 0; 0] [] = Some (r, bs', events).
Proof.
  destruct (change_notify_reports 10 [9; 0; 72; 0; 4; 0; 0; 0] []) as (r & bs' & ev & E & _);
    [by repeat (constructor; [split; done|])|cbn; lia|]. exists r, bs', ev. exact E.
Defined.

(** ** A well-formed reply *)

(** An entry: its action, and what follows up to the next one (the length of the name, the
    name and padding). *)
Record notify_entry := NotifyEntry { ne_action : Z; ne_events : list vnode_event; ne_name : list Z }.

Definition entry_ok (e : notify_entry) : Prop :=
  action_events (ne_action e) = Some (ne_events e) /\ fits 4 (ne_action e) /\
  ne_name e <> [] /\ Z.of_nat (length (ne_name e)) < 2 ^ 31.

(** The distance from an entry to the next one, 0 for the last. *)
Definition next_offset (e : notify_entry) (es : list notify_entry) : Z :=
  match es with [] => 0 | _ => 8 + Z.of_nat (length (ne_name e)) end.

Fixpoint notify_bytes (e : notify_entry) (es : list notify_entry) : list Z :=
  le_bytes 4 (next_offset e es) ++ le_bytes 4 (ne_action e) ++ ne_name e ++
  match es with [] => [] | e2 :: r => notify_bytes e2 r end.

(** The entries that the loop looks at: it ends when the offset after an entry, which is
    that of the following entry, is 0. *)
Fixpoint entries_seen (e : notify_entry) (es : list notify_entry) : list notify_entry :=
  match es with [] => [e] | [_] => [e] | e2 :: r => e :: entries_seen e2 r end.

Definition all_events (es : list notify_entry) : list vnode_event := concat (map ne_events es).

Lemma next_offset_fits e es : entry_ok e -> fits 4 (next_offset e es).
Proof.
  intros (_ & _ & _ & Hl). unfold fits, next_offset. change (256 ^ Z.of_nat 4) with (2 ^ 32).
  destruct es; lia.
Qed.

Lemma notify_bytes_split e es :
  notify_bytes e es = le_bytes 4 (next_offset e es) ++ drop 4 (notify_bytes e es).
Proof. destruct es; cbn [notify_bytes]; by rewrite drop_app_length' by (symmetry; apply length_le_bytes). Qed.

Lemma notify_loop_entries fuel e es x :
  entry_ok e -> Forall entry_ok es -> (length es < fuel)%nat ->
  exists bs', eval (notify_loop fuel (next_offset e es)) (drop 4 (notify_bytes e es)) x
    = Some (inr 0, bs', x ++ all_events (entries_seen e es)).
Proof.
  revert e x fuel. induction es as [|e2 es IH]; intros e x [|k] He Hes Hl; try (cbn in Hl; lia);
    pose proof He as (Ha & Hf & Hne & _); cbn [notify_loop notify_bytes];
    rewrite drop_app_length' by (symmetry; apply length_le_bytes); eval_step.
  - cbn [next_offset]. rewrite eval_bind. cbn. rewrite Ha. cbn. eexists. unfold all_events. cbn. by rewrite !app_nil_r.
  - apply list.Forall_cons in Hes as [He2 Hes].
    assert (less4 (less4 (next_offset e (e2 :: es))) = Z.of_nat (length (ne_name e))) as ->.
    { unfold less4, next_offset. repeat case_match; lia. }
    destruct (Z.eqb_spec (Z.of_nat (length (ne_name e))) 0) as [E|_]; [by destruct (ne_name e)|].
    rewrite eval_bind, eval_bind, eval_skip by done. cbv beta iota.
    rewrite notify_bytes_split.
    rewrite eval_get_le by (by apply next_offset_fits). cbv beta iota. rewrite eval_bind. cbn [eval change].
    cbn [eval]. rewrite Ha. cbn [default from_option id].
    destruct es as [|e3 es].
    + cbn. eexists. unfold all_events. cbn. by rewrite !app_nil_r.
    + destruct (Z.eqb_spec (next_offset e2 (e3 :: es)) 0) as [E|_]; [unfold next_offset in E; lia|].
      destruct (IH e2 (x ++ ne_events e) k He2 Hes) as [bs' E]; [cbn in *; lia|].
      exists bs'. rewrite E. cbn [entries_seen]. unfold all_events. cbn [map concat]. by rewrite <- app_assoc.
Qed.

(** The reply: the buffer starts after [pad]. *)
Definition notify_reply (pad : list Z) (len : Z) (e : notify_entry) (es : list notify_entry) : list Z :=
  le_bytes 2 9 ++ le_bytes 2 (72 + Z.of_nat (length pad)) ++ le_bytes 4 len ++ pad ++ notify_bytes e es.

Lemma entries_seen_events e es :
  entry_ok e -> Forall entry_ok es -> Forall entry_ok (entries_seen e es).
Proof.
  revert e. induction es as [|e2 [|e3 es] IH]; intros e He Hes; cbn; try (by constructor).
  constructor; [done|]. apply list.Forall_cons in Hes as [? ?]. by apply IH.
Qed.

Lemma action_events_some a evs : action_events a = Some evs -> evs <> [].
Proof. unfold action_events. repeat case_match; by intros [= <-]. Qed.

(** An array of notifications of known actions reports the events of all its entries
    but the last one, which is left out unless it is the only one. *)
Theorem change_notify_events fuel pad len e es x :
  entry_ok e -> Forall entry_ok es -> (length es < fuel)%nat ->
  Z.of_nat (length pad) < 1000 -> fits 4 len -> len <> 0 ->
  exists bs', eval (smb2_smb_parse_change_notify fuel) (notify_reply pad len e es) x
    = Some (inr tt, bs', all_events (entries_seen e es)).
Proof.
  intros He Hes Hl Hp Hlen Hlen0. unfold smb2_smb_parse_change_notify, notify_reply.
  assert (fits 2 (72 + Z.of_nat (length pad))) as Hf
    by (unfold fits; change (256 ^ Z.of_nat 2) with (2 ^ 16); lia).
  assert (fits 2 9) by done.
  rewrite eval_bind, eval_change. cbv beta iota. rewrite eval_bind, eval_check_size by done. cbv beta iota.
  do 2 eval_step. rewrite (proj2 (Z.ltb_lt _ _)) by lia. rewrite eval_bind, eval_skip.
  2: { unfold SMB2_HDRLEN. rewrite (u16_small (72 + _ - 64)) by lia. rewrite u16_small by lia. lia. }
  cbv beta iota. rewrite (proj2 (Z.eqb_neq len 0)) by done. rewrite eval_bind. unfold notify_entries.
  rewrite eval_bind, notify_bytes_split, eval_attempt, eval_get_le by (by apply next_offset_fits).
  cbv beta iota. rewrite eval_attempt.
  destruct (notify_loop_entries fuel e es [] He Hes Hl) as [bs' ->]. cbv beta iota. exists bs'.
  unfold report_events. rewrite eval_bind, eval_change. cbn. rewrite bool_decide_eq_false_2; [done|].
  destruct es as [|e2 [|e3 es]]; cbn; intros E; apply app_eq_nil in E as [E _];
    destruct He as [Ha _]; by apply action_events_some in Ha.
Qed.

Definition demo_entry (a : Z) (evs : list vnode_event) : notify_entry := NotifyEntry a evs [2; 0; 0; 0; 65; 0].

Lemma change_notify_events_witness :
  exists bs', eval (smb2_smb_parse_change_notify 5)
    (notify_reply [] 30 (demo_entry 3 [EvAttrib]) [demo_entry 2 [EvFileRemoved; EvDirRemoved]]) []
    = Some (inr tt, bs', [EvAttrib]).
Proof.
  apply (change_notify_events 5 [] 30 (demo_entry 3 [EvAttrib]) [demo_entry 2 [EvFileRemoved; EvDirRemoved]] []);
    try done; [|cbn; lia]. constructor; [|constructor]. by split_and!.
Defined.

(** An action that is not known is an error only in the last entry that is looked at: the
    reads of the next one reset it. *)
Theorem unknown_action_forgotten :
  exists bs bs' ev, eval (smb2_smb_parse_change_notify 5) bs [] = Some (inr tt, bs', ev) /\
    bs = notify_reply [] 48 (demo_entry 99 []) [demo_entry 3 []; demo_entry 3 []].
Proof. eexists _, _, _. split; [|reflexivity]. vm_compute. reflexivity. Qed.
