(* ===== verification/ReplyNames.v ===== *)
(** * Query info of a file: the name, and that any reply is parsed inside its chain *)
From S2P Require Import Prelude Chain Parser Brl Lease Create Replies ReplyTheorems.
From S2P Require Fid.
Import Errno.
Local Open Scope Z_scope.

(** ** Names in UTF-16 *)

Definition units (ws : list Z) : list Z := concat (map (le_bytes 2) ws).

(** One trailing null is not counted. *)
Definition trim (ws : list Z) : list Z :=
  match rev ws with w :: r => if w =? 0 then rev r else ws | [] => [] end.

Definition BACKSLASH := 0x5c.

Lemma units_app a b : units (a ++ b) = units a ++ units b.
Proof. unfold units. by rewrite map_app, concat_app. Qed.

Lemma length_units ws : length (units ws) = (2 * length ws)%nat.
Proof. induction ws as [|w ws IH]; [done|]. unfold units in *. cbn [map concat]. rewrite length_app, IH. cbn. lia. Qed.

Lemma units_lookup ws j w : ws !! j = Some w ->
  units ws !! (2 * j)%nat = Some (w `mod` 256) /\ units ws !! (2 * j + 1)%nat = Some ((w `div` 256) `mod` 256).
Proof.
  revert j. induction ws as [|v ws IH]; intros [|j] Hj; [done..| |].
  - injection Hj as ->. done.
  - replace (2 * S j)%nat with (S (S (2 * j))) by lia. by apply IH.
Qed.

Lemma units_drop j ws : drop (2 * j) (units ws) = units (drop j ws).
Proof.
  revert ws. induction j as [|j IH]; intros [|w ws]; [done..|].
  replace (2 * S j)%nat with (S (S (2 * j))) by lia. exact (IH ws).
Qed.

(** A unit is two zero bytes only when it is 0, and the back slash only when it is that. *)
Lemma unit_bytes w : fits 2 w ->
  (w `mod` 256 =? 0) && ((w `div` 256) `mod` 256 =? 0) = (w =? 0) /\
  (if w `mod` 256 =? 0x5c then (w `div` 256) `mod` 256 =? 0 else false) = (w =? BACKSLASH).
Proof.
  unfold fits, BACKSLASH. change (256 ^ Z.of_nat 2) with 65536. intros Hw.
  pose proof (Z.div_mod w 256 ltac:(lia)) as HD. pose proof (Z.mod_pos_bound w 256 ltac:(lia)).
  rewrite (Z.mod_small (w / 256)) by (split; [apply Z.div_pos|apply Z.div_lt_upper_bound]; lia).
  set (q := w / 256) in *. set (r := w mod 256) in *. clearbody q r.
  destruct (Z.eqb_spec r 0), (Z.eqb_spec r 0x5c), (Z.eqb_spec q 0), (Z.eqb_spec w 0), (Z.eqb_spec w 0x5c);
    cbn; split; done || lia.
Qed.

Section Path.
Context (ws rest : list Z) (Hws : Forall (fits 2) ws).

Lemma slash_at_unit j w : ws !! j = Some w ->
  slash_at (units ws ++ rest) (2 * Z.of_nat j) = Some (w =? BACKSLASH).
Proof.
  intros Hj. destruct (units_lookup _ _ _ Hj) as [E1 E2].
  assert (Hw : fits 2 w) by (rewrite list.Forall_lookup in Hws; eauto).
  destruct (unit_bytes w Hw) as [_ Hb]. unfold slash_at, byte_at.
  rewrite !(proj2 (Z.ltb_ge _ _)) by lia.
  replace (Z.to_nat (2 * Z.of_nat j)) with (2 * j)%nat by lia.
  replace (Z.to_nat (2 * Z.of_nat j + 1)) with (2 * j + 1)%nat by lia.
  rewrite !lookup_app_l by (eapply lookup_lt_Some; eassumption). rewrite E1, E2. cbn -[Z.eqb Z.div Z.modulo].
  rewrite <- Hb. by destruct (_ =? 0x5c).
Qed.

Lemma slash_back_unit fuel k : (k < length ws)%nat -> (k < fuel)%nat ->
  exists j w, slash_back fuel (units ws ++ rest) (2 * Z.of_nat k) = Some (2 * Z.of_nat j) /\
    ws !! j = Some w /\ (j <= k)%nat /\ (j = 0%nat \/ w = BACKSLASH) /\
    forall m v, (j < m <= k)%nat -> ws !! m = Some v -> v <> BACKSLASH.
Proof.
  revert k. induction fuel as [|f IH]; intros k Hk Hf; [lia|]. cbn [slash_back].
  destruct (lookup_lt_is_Some_2 ws k Hk) as [w Hw].
  destruct (Z.leb_spec (2 * Z.of_nat k) 0) as [Hz|Hz].
  { exists k, w. split_and!; [done..|lia|left; lia|intros; lia]. }
  rewrite (slash_at_unit k w Hw). cbn -[Z.eqb Z.mul].
  destruct (Z.eqb_spec w BACKSLASH) as [->|Hne].
  { exists k, BACKSLASH. split_and!; [done..|lia|by right|intros; lia]. }
  destruct (IH (k - 1)%nat) as (j & v & E & Hj & Hle & Ho & Hno); [lia..|].
  replace (2 * Z.of_nat k - 2) with (2 * Z.of_nat (k - 1)) by lia. exists j, v.
  split_and!; [done..|lia|done|]. intros m u Hm Hu.
  destruct (decide (m = k)) as [->|]; [congruence|]. apply (Hno m u); [lia|done].
Qed.
End Path.

Lemma trim_split ws : Forall (fits 2) ws -> ws <> [] ->
  exists rest, units ws = units (trim ws) ++ rest /\ (trim ws = [] -> rest = [0; 0]) /\
    name_len (units ws) = 2 * Z.of_nat (length (trim ws)).
Proof.
  intros Hws Hne. destruct (exists_last Hne) as (init & w & ->).
  apply list.Forall_app in Hws as [_ Hw]. apply list.Forall_cons in Hw as [Hw _].
  destruct (unit_bytes w Hw) as [Hb _].
  unfold name_len. rewrite length_units, units_app, length_app. change (length [w]) with 1%nat.
  rewrite (proj2 (Z.ltb_lt _ _)) by lia. cbn [andb].
  assert (Hl : length (units init) = (2 * length init)%nat) by apply length_units.
  replace (Z.to_nat _) with (S (length (units init))) by lia.
  replace (Z.to_nat (_ - 2)) with (length (units init)) by lia.
  rewrite !app_nth2 by lia. rewrite Nat.sub_diag. replace (S _ - _)%nat with 1%nat by lia.
  change (nth 1 (units [w]) 1) with ((w `div` 256) `mod` 256). change (nth 0 (units [w]) 1) with (w `mod` 256).
  rewrite andb_comm, Hb. unfold trim. rewrite rev_app_distr. cbn [rev app].
  destruct (Z.eqb_spec w 0) as [->|].
  - exists [0; 0]. rewrite rev_involutive. split_and!; [done..|lia].
  - exists []. rewrite app_nil_r, units_app, length_app. split_and!; [done|by destruct init|cbn; lia].
Qed.

Lemma last_component_path ws :
  Forall (fits 2) ws -> ws <> [] ->
  exists dir name, trim ws = dir ++ name /\ (BACKSLASH ∉ name) /\
    (dir = [] \/ exists d, dir = d ++ [BACKSLASH]) /\ last_component (units ws) = Some (units name).
Proof.
  intros Hws Hne. destruct (trim_split ws Hws Hne) as (rest & Eu & Hr & En).
  assert (Ht : Forall (fits 2) (trim ws)).
  { unfold trim. destruct (rev ws) as [|w r] eqn:E; [done|]. destruct (w =? 0); [|done].
    assert (ws = rev r ++ [w]) as -> by (rewrite <- (rev_involutive ws), E; done).
    by apply list.Forall_app in Hws as [? _]. }
  unfold last_component. rewrite En. set (path := trim ws) in *. clearbody path.
  assert (Hfin : forall j, (j <= length path)%nat ->
    (if (2 * Z.of_nat j <? 0) || (2 * Z.of_nat (length path) <? 2 * Z.of_nat j) then None
     else Some (take (Z.to_nat (2 * Z.of_nat (length path) - 2 * Z.of_nat j)) (drop (Z.to_nat (2 * Z.of_nat j)) (units ws))))
    = Some (units (drop j path))).
  { intros j Hj. rewrite !(proj2 (Z.ltb_ge _ _)) by lia. cbn [orb]. f_equal.
    replace (Z.to_nat (2 * Z.of_nat j)) with (2 * j)%nat by lia.
    rewrite Eu, drop_app_le, units_drop by (rewrite length_units; lia).
    apply take_app_length'. rewrite length_units, length_drop. lia. }
  rewrite Eu. destruct path as [|p0 path'].
  { rewrite (Hr eq_refl). exists [], []. split_and!; [done|apply not_elem_of_nil|by left|done]. }
  set (path := p0 :: path') in *. rewrite (proj2 (Z.ltb_lt _ _)) by (cbn [length path]; lia).
  replace (2 * Z.of_nat (length path) - 2) with (2 * Z.of_nat (length path')) by (cbn [length path]; lia).
  destruct (slash_back_unit path rest Ht (S (length (units path ++ rest))) (length path')) as (j & w & Es & Hj & Hle & Ho & Hno).
  { cbn. lia. } { rewrite length_app, length_units. cbn. lia. }
  rewrite Es. cbn -[Z.mul Z.ltb Z.eqb path take drop]. rewrite (slash_at_unit path rest Ht j w Hj). cbn -[Z.mul Z.ltb Z.eqb path take drop].
  rewrite <- Eu.
  assert (Hjl : (j < length path)%nat) by (by eapply lookup_lt_Some).
  destruct (Z.eqb_spec w BACKSLASH) as [->|Hnw].
  - replace (2 * Z.of_nat j + 2) with (2 * Z.of_nat (S j)) by lia. rewrite Hfin by lia.
    exists (take (S j) path), (drop (S j) path). split_and!; [by rewrite take_drop| | |done].
    + intros (m & Hm)%list_elem_of_lookup. rewrite lookup_drop in Hm.
      apply (Hno (S j + m)%nat BACKSLASH); [|done..]. apply lookup_lt_Some in Hm. cbn in Hm. lia.
    + right. exists (take j path). by apply take_S_r.
  - destruct Ho as [->|]; [|done]. rewrite Hfin by lia.
    exists [], path. split_and!; [done| |by left|done].
    intros (m & Hm)%list_elem_of_lookup. destruct m as [|m]; [congruence|].
    apply (Hno (S m) BACKSLASH); [|done..]. apply lookup_lt_Some in Hm. cbn in Hm. lia.
Qed.

Lemma last_component_defined ws : Forall (fits 2) ws -> ws <> [] -> is_Some (last_component (units ws)).
Proof. intros Hws Hne. destruct (last_component_path ws Hws Hne) as (dir & name & _ & _ & _ & ->). by eexists. Qed.

(** The name that a query returns is the last component of the path in the reply: it
    has no back slash, and is all of the path or follows one. *)
Theorem last_component_of_path ws :
  Forall (fits 2) ws -> ws <> [] ->
  exists dir name, trim ws = dir ++ name /\ (BACKSLASH ∉ name) /\
    (dir = [] \/ exists d, dir = d ++ [BACKSLASH]) /\ last_component (units ws) = Some (units name).
Proof. apply last_component_path. Qed.

Lemma last_component_of_path_witness :
  exists dir name, [65; 0x5c; 66] = dir ++ name /\ last_component (units [65; 0x5c; 66; 0]) = Some (units name).
Proof.
  destruct (last_component_of_path [65; 0x5c; 66; 0]) as (dir & name & E & _ & _ & EL);
    [by repeat constructor|done|]. exists dir, name. split; [exact E|exact EL].
Defined.

(** ** Any reply *)

Lemma bytes_units bs : Forall is_byte bs -> Nat.Even (length bs) -> exists ws, Forall (fits 2) ws /\ bs = units ws.
Proof.
  intros Hb [n Hn]. revert bs Hb Hn. induction n as [|n IH]; intros bs Hb Hn.
  { destruct bs; [|done]. by exists []. }
  destruct bs as [|b [|c bs]]; [cbn in Hn; lia..|].
  apply list.Forall_cons in Hb as [Hb1 Hb]. apply list.Forall_cons in Hb as [Hb2 Hb].
  destruct (IH bs Hb) as (ws & Hws & ->); [cbn in Hn; lia|]. unfold is_byte in *.
  exists (b + 256 * c :: ws). split.
  - constructor; [|done]. unfold fits. change (256 ^ Z.of_nat 2) with 65536. lia.
  - change (units (b + 256 * c :: ws)) with (le_bytes 2 (b + 256 * c) ++ units ws). cbn [le_bytes app].
    rewrite (Z.mul_comm 256 c), Z.mod_add, Z.div_add, (Z.mod_small b), (Z.div_small b) by lia.
    rewrite Z.add_0_l, Z.mod_small by lia. done.
Qed.

(** Where the size of the name is in a reply. *)
Definition even_name (bs : list Z) : Prop := Z.Even (le_value (take 4 (drop 96 bs))).

Section Safe.
Context `{Kernel} (n_ino : Z) (smbfs_getino : list Z -> Z) (want_name want_len unicode : bool).

Lemma all_info_name_wp bs x : Forall is_byte bs -> Z.Even (le_value (take 4 bs)) ->
  wp (all_info_name smbfs_getino want_len unicode) (fun _ _ _ => True) bs x.
Proof.
  intros Hb He. unfold all_info_name. repeat wp_step; try done.
  assert (0 <= le_value (take 4 bs)) by (by apply le_value_bound, list.Forall_take).
  destruct (bytes_units (take (Z.to_nat (le_value (take 4 bs))) (drop 4 bs))) as (ws & Hws & Eu).
  { by apply list.Forall_take, list.Forall_drop. }
  { rewrite length_take_le by done. destruct He as [k Hk]. exists (Z.to_nat k). lia. }
  rewrite Eu. destruct (last_component_defined ws Hws) as [c ->].
  { intros ->. apply (f_equal length) in Eu. rewrite length_take_le in Eu by done. cbn in Eu. lia. }
  destruct (smbfs_ntwrkname_tolocal c); by repeat wp_step.
Qed.

Lemma all_info_fields_wp bs x :
  wp (all_info_fields n_ino) (fun r bs' _ => r = inr tt -> bs' = drop 96 bs) bs x.
Proof.
  unfold all_info_fields, nt_time. repeat wp_step; try done. intros _. by rewrite !drop_drop.
Qed.

Lemma sized_all_info : sized (smb2_smb_parse_file_all_info n_ino smbfs_getino want_name want_len unicode).
Proof.
  unfold smb2_smb_parse_file_all_info, all_info_fields, nt_time, all_info_name, SMB_MAXPATHLEN. repeat sized_step.
Qed.

(** A parser that ends on any bytes of a chain and stays inside of it. *)
Definition safe {X A} (p : parser X A) (good : list Z -> Prop) : Prop :=
  forall St D (R : Reader St D) (L : ReaderLaws St D) (s : St) (d : D) bs x,
    r_holds s d bs -> Forall is_byte bs -> good bs ->
    exists r d' x' bs', run p s d x = Some (r, s, d', x') /\ r_holds s d' bs'.

Lemma wp_safe {X A} (p : parser X A) (good : list Z -> Prop) :
  sized p -> (forall bs x, Forall is_byte bs -> good bs -> wp p (fun _ _ _ => True) bs x) -> safe p good.
Proof.
  intros Hs Hw St D R L s d bs x Hh Hb Hg.
  destruct (wp_defined _ _ _ _ (Hw bs x Hb Hg)) as [[[r bs'] x'] E].
  pose proof (run_eval p s d bs x Hs Hb Hh) as HR. rewrite E in HR. destruct HR as (d' & ER & Hh').
  by exists r, d', x', bs'.
Qed.

(** Whatever a server replies to a query of all information of a file, parsing it ends
    and reads nothing outside of the reply or of the name, if the size of the name is even. *)
Theorem file_all_info_defined :
  safe (smb2_smb_parse_file_all_info n_ino smbfs_getino want_name want_len unicode) even_name.
Proof.
  apply wp_safe; [apply sized_all_info|]. intros bs x Hb He. unfold smb2_smb_parse_file_all_info.
  apply wp_bind. eapply wp_mono; [|apply all_info_fields_wp]. intros [e|[]] bs' x' HE; [done|]. cbn [on_value].
  rewrite (HE eq_refl). destruct want_name; [|done]. apply all_info_name_wp; [by apply list.Forall_drop|done].
Qed.
End Safe.

Lemma less4_range n : 0 <= n < 2 ^ 32 -> 0 <= less4 n < 2 ^ 32.
Proof. unfold less4. destruct (Z.leb_spec 4 n); lia. Qed.

Lemma sized_notify_loop fuel n : 0 <= n < 2 ^ 32 -> sized (notify_loop fuel n).
Proof.
  revert n. induction fuel as [|k IH]; intros n Hn; cbn [notify_loop]; [done|].
  apply sized_get_le; [lia|]. intros a _. apply sized_bind.
  - pose proof (less4_range _ (less4_range _ Hn)). repeat sized_step.
  - intros v Hv. assert (0 <= v < 2 ^ 32).
    { destruct (less4 (less4 n) =? 0); [cbn in Hv; lia|]. apply may_bind in Hv as (? & _ & Hv).
      by apply may_get_le in Hv. }
    repeat sized_step. by apply IH.
Qed.

Lemma sized_change_notify fuel : sized (smb2_smb_parse_change_notify fuel).
Proof.
  unfold smb2_smb_parse_change_notify, check_size, report_events. repeat sized_step.
  - match goal with |- sized (skip (u16 ?e)) => pose proof (u16_range e) end. repeat sized_step.
  - unfold notify_entries. apply sized_bind; [repeat sized_step|]. intros [e|n] Hn; [done|].
    split; [|done]. apply sized_notify_loop. destruct Hn as [(m & Hm & Em)|(e & Em)]; [|done].
    injection Em as ->. by apply may_get_le in Hm.
Qed.

(** The replies to a close, a change notify, a lease break, a set info, a flush and the
    queries of filesystems and of security descriptors are parsed inside their chains,
    whatever the server sent. *)
Theorem small_replies_defined `{Kernel} {X} fuel len (Hlen : 0 <= len < 2 ^ 32) :
  safe smb2_smb_parse_close (fun _ => True) /\
  safe (smb2_smb_parse_change_notify fuel) (fun bs => (length bs < fuel)%nat) /\
  safe (parse_lease_break (X := X)) (fun _ => True) /\
  safe (smb2_smb_parse_set_info (X := X)) (fun _ => True) /\
  safe (smb2_smb_parse_flush (X := X)) (fun _ => True) /\
  safe smb2_smb_parse_fs_attr (fun _ => True) /\
  safe smb2_smb_parse_fs_size (fun _ => True) /\
  safe (smb2_smb_parse_security (X := X) len) (fun _ => True).
Proof.
  assert (H4 : 256 ^ Z.of_nat 4 = 2 ^ 32) by done.
  split_and!; apply wp_safe.
  - unfold smb2_smb_parse_close, close_body, close_time, check_size. repeat sized_step.
  - intros bs x _ _. unfold smb2_smb_parse_close. apply wp_bind, wp_attempt.
    unfold close_body, close_time, check_size. by repeat wp_step.
  - apply sized_change_notify.
  - intros bs x Hb Hl. by apply change_notify_wp.
  - unfold parse_lease_break, check_size. repeat sized_step.
  - intros bs x _ _. unfold parse_lease_break, check_size. by repeat wp_step.
  - unfold smb2_smb_parse_set_info, check_size. repeat sized_step.
  - intros bs x _ _. unfold smb2_smb_parse_set_info, check_size. by repeat wp_step.
  - unfold smb2_smb_parse_flush, check_size. repeat sized_step.
  - intros bs x _ _. unfold smb2_smb_parse_flush, check_size. by repeat wp_step.
  - unfold smb2_smb_parse_fs_attr. repeat sized_step.
  - intros bs x _ _. unfold smb2_smb_parse_fs_attr. by repeat wp_step.
  - unfold smb2_smb_parse_fs_size. repeat sized_step.
  - intros bs x _ _. unfold smb2_smb_parse_fs_size. by repeat wp_step.
  - unfold smb2_smb_parse_security. repeat sized_step.
  - intros bs x _ _. unfold smb2_smb_parse_security. by repeat wp_step.
Qed.

(** An allocation for every size; names are not converted. *)
Definition plain_kernel : Kernel := {|
  smbfs_ntwrkname_tolocal := fun name => Some name;
  smb_convert_network_to_path := inr;
  malloc_ok := fun _ => true;
  malloc_fid_node := true
|}.

Lemma small_replies_defined_witness :
  exists r d' x' bs', @run _ _ list_reader _ _ (smb2_smb_parse_flush (X := unit)) tt (0, [4; 0; 9]) tt
    = Some (r, tt, d', x') /\ @r_holds _ _ list_reader tt d' bs'.
Proof.
  destruct (@small_replies_defined plain_kernel unit 10 20) as (_ & _ & _ & _ & H & _); [lia|].
  apply (H unit (Z * list Z)%type list_reader list_reader_laws tt (0, [4; 0; 9]) [4; 0; 9] tt);
    [reflexivity|by repeat (constructor; [split; done|])|exact I].
Defined.

(** A name of an odd length without a back slash makes the search for one run off the front
    of the buffer. *)
Theorem odd_name_underruns :
  eval (@smb2_smb_parse_file_all_info plain_kernel 2 (fun _ => 3) true true true)
    (replicate 96 0 ++ le_bytes 4 3 ++ [65; 0; 66])
    (AllInfo (Fattr (Ts 0 0) (Ts 0 0) (Ts 0 0) (Ts 0 0) 0 0 false 0 0 0) 0 None) = None.
Proof. reflexivity. Qed.

(** The allocation that is made up for a size: whole blocks, more than the size by at most
    one. *)
Theorem alloc_size_covers b n : 0 < b -> 0 < n -> n + b < 2 ^ 64 ->
  let a := smb2_smb_get_alloc_size (Some b) n in n < a <= n + b /\ (b | a).
Proof.
  intros Hb Hn Hlt. unfold smb2_smb_get_alloc_size.
  rewrite !(proj2 (Z.eqb_neq _ _)) by lia. pose proof (Z.div_mod n b ltac:(lia)).
  pose proof (Z.mod_pos_bound n b Hb). assert (0 <= n / b) by (apply Z.div_pos; lia).
  set (q := n / b) in *. clearbody q. assert (0 <= q * b <= n) by (split; [nia|lia]).
  rewrite (u64_small (q * b)) by lia. rewrite u64_small by lia.
  split; [lia|]. exists (q + 1). lia.
Qed.

Lemma file_all_info_defined_witness :
  even_name (replicate 96 0 ++ le_bytes 4 2 ++ [65; 0]) /\
  exists r d' x' bs', @run _ _ list_reader _ _
    (@smb2_smb_parse_file_all_info plain_kernel 2 (fun _ => 3) true true true)
    tt (0, replicate 96 0 ++ le_bytes 4 2 ++ [65; 0])
    (AllInfo (Fattr (Ts 0 0) (Ts 0 0) (Ts 0 0) (Ts 0 0) 0 0 false 0 0 0) 0 None)
    = Some (r, tt, d', x') /\ @r_holds _ _ list_reader tt d' bs'.
Proof.
  assert (even_name (replicate 96 0 ++ le_bytes 4 2 ++ [65; 0])) as He by (exists 1; reflexivity).
  split; [exact He|].
  apply (@file_all_info_defined plain_kernel 2 (fun _ => 3) true true true unit (Z * list Z)%type list_reader
    list_reader_laws tt _ (replicate 96 0 ++ le_bytes 4 2 ++ [65; 0]));
    [reflexivity|by cbn; repeat (constructor; [split; done|])|exact He].
Defined.
