(* ===== verification/Sign.v ===== *)
(** * Signing: the SMB 2/3 signatures of [kernel/netsmb/smb_crypt.c]

    Requests are signed before they are sent and replies are checked before they are
    believed.  A kernel mbuf chain is the list of the data of its mbufs; a reply starts
    somewhere in the middle of an mbuf, so that the first element is what [md_cur] holds
    from [md_pos] on.

    The MACs of corecrypto are the class [Mac].  A streaming MAC is fed piece by piece;
    its context is the concatenation of what it was fed. *)
From S2P Require Import Prelude.
Import Errno.
Local Open Scope Z_scope.

Definition SMB2SIGLEN : nat := 16.
Definition SMB2SIGOFF : nat := 48.
Definition SMB2_HDRLEN : nat := 64.
Definition SMB3_KEY_LEN := 16.
Definition FLAGSOFF : nat := 16.
Definition SMB2_FLAGS_SIGNED := 0x8.
Definition SMB2_SIGNING_AES_CMAC := 1.
Definition SMB2_SIGNING_AES_GMAC := 2.
Definition SMB2_GMAC_IV_IS_RESPONSE := 0x1.
Definition SMB2_GMAC_IV_IS_CANCEL := 0x2.
Definition SMB2_NEGOTIATE := 0x0.
Definition SMB2_SESSION_SETUP := 0x1.
Definition SMB2_CANCEL := 0xc.
Definition SMB2_OPLOCK_BREAK := 0x12.

Definition chain := list (list Z).

(** The MACs, of a key, for GMAC an initialisation vector, and the data.  [mac_init] is
    the error of the call that sets the key. *)
Class Mac := {
  hmac_sha256 : list Z -> list Z -> list Z;
  aes_cmac : list Z -> list Z -> list Z;
  aes_gmac : list Z -> list Z -> list Z -> list Z;
  mac_init : Z -> list Z -> Z
}.

(** [cc_cmp_safe]: 0 when the bytes are equal. *)
Definition cc_cmp_safe (n : nat) (a b : list Z) : Z := if bool_decide (take n a = take n b) then 0 else 1.

(** A signing key with the length that goes with it. *)
Record key := Key { key_bytes : list Z; key_len : Z }.

(** What is used of a channel: its own key, once session setup has succeeded. *)
Record channel := Channel { use_channel_keys : bool; iod_smb3_signing_key : key }.

(** What is used of a session. *)
Record session := Session {
  smb3_or_later : bool;               (* SMBV_SMB3_OR_LATER *)
  signing_on : bool;                  (* SMB_FLAGS2_SECURITY_SIGNATURE *)
  anonymous : bool;                   (* SMBV_ANONYMOUS_ACCESS *)
  session_mackey : option (list Z);   (* None: NULL *)
  session_smb3_signing_key : key;
  session_smb3_signing_algorithm : Z
}.

(** What is used of a request. *)
Record rq := Rq {
  sr_command : Z;
  sr_messageid : Z;
  sr_signed : bool;                   (* SMBR_SIGNED *)
  sr_rspnextcmd : Z;
  sr_iod : option channel
}.

Section Signing.
Context `{Mac}.

(** ** Walking over mbufs *)

(** One of the loops of [smb2_verify] over [n] bytes: the bytes it went over, and what is
    left of the current mbuf and of those after it; [None] when there is no next mbuf. *)
Fixpoint walk (n : nat) (cur : list Z) (rest : chain) : option (list Z * (list Z * chain)) :=
  if (n <=? length cur)%nat then Some (take n cur, (drop n cur, rest))
  else match rest with
       | [] => None
       | mb :: rest' =>
           match walk (n - length cur) mb rest' with
           | Some (xs, after) => Some (cur ++ xs, after)
           | None => None
           end
       end.

(** The length of a reply that is the last of its chain. *)
Definition total_len (cur : list Z) (rest : chain) : nat := length (cur ++ concat rest).

Definition reply_len (next_cmd_offset : Z) (cur : list Z) (rest : chain) : nat :=
  if next_cmd_offset =? 0 then total_len cur rest else Z.to_nat next_cmd_offset.

(** ** SMB 2: HMAC-SHA256 *)

(** The MAC is taken of the reply with zeros in place of its signature. *)
Definition smb2_verify (mackey : list Z) (cur : list Z) (rest : chain) (next_cmd_offset : Z) (signature : list Z) : Z :=
  let remaining := reply_len next_cmd_offset cur rest in
  if (remaining <? SMB2_HDRLEN)%nat then EBADRPC
  else
    match walk SMB2SIGOFF cur rest with
    | None => EBADRPC
    | Some (head, (cur1, rest1)) =>
        match walk SMB2SIGLEN cur1 rest1 with
        | None => EBADRPC
        | Some (_, (cur2, rest2)) =>
            match walk (remaining - SMB2_HDRLEN) cur2 rest2 with
            | None => EBADRPC
            | Some (body, _) =>
                cc_cmp_safe SMB2SIGLEN signature (hmac_sha256 mackey (head ++ replicate SMB2SIGLEN 0 ++ body))
            end
        end
    end.

(** ** SMB 3: AES-CMAC and AES-GMAC *)

(** The flags of the struct are 0 before. *)
Definition smb3_init_gmac_iv (message_id command : Z) (is_response : bool) : list Z :=
  le_bytes 8 message_id ++
  le_bytes 4 (Z.lor (if is_response then SMB2_GMAC_IV_IS_RESPONSE else 0)
                    (if command =? SMB2_CANCEL then SMB2_GMAC_IV_IS_CANCEL else 0)).

Definition smb3_get_signature_one_shot (algorithm : Z) (k block : list Z) (message_id command : Z) (is_response : bool)
  : Z + list Z :=
  if algorithm =? SMB2_SIGNING_AES_CMAC then
    let e := mac_init algorithm k in if e =? 0 then inr (aes_cmac k block) else inl e
  else if algorithm =? SMB2_SIGNING_AES_GMAC then
    let e := mac_init algorithm k in
    if e =? 0 then inr (aes_gmac k (smb3_init_gmac_iv message_id command is_response) block) else inl e
  else inl EINVAL.

(** What the MAC is fed of a reply: mbuf by mbuf, until [packet_len] bytes are reached. *)
Fixpoint fed_reply (packet_len : nat) (c : chain) : list Z :=
  match c with
  | [] => []
  | mb :: c' =>
      let piece := if ((0 <? packet_len) && (packet_len <? length mb))%nat then take packet_len mb else mb in
      let togo := (if 0 <? packet_len then packet_len - length piece else packet_len)%nat in
      if ((0 <? packet_len) && (togo =? 0))%nat then piece else piece ++ fed_reply togo c'
  end.

(** A request is fed as a whole, a reply up to its length. *)
Definition smb3_get_signature_blocks (r : rq) (algorithm : Z) (k : list Z) (c : chain) (is_response : bool)
    (packet_len : nat) : Z + list Z :=
  let data := if is_response then fed_reply packet_len c else concat c in
  smb3_get_signature_one_shot algorithm k data (sr_messageid r) (sr_command r) is_response.

(** The signature stays all zeros when it cannot be computed.  [malloc_size] is 0. *)
Definition smb3_get_signature (r : rq) (algorithm : Z) (k : key) (c : chain) (is_response : bool) (packet_len : nat)
  : list Z :=
  if key_len k <? SMB3_KEY_LEN then replicate SMB2SIGLEN 0
  else
    let mac := if (packet_len =? 0)%nat
               then smb3_get_signature_one_shot algorithm (key_bytes k) [] (sr_messageid r) (sr_command r) is_response
               else smb3_get_signature_blocks r algorithm (key_bytes k) c is_response packet_len in
    match mac with inl _ => replicate SMB2SIGLEN 0 | inr m => take SMB2SIGLEN m end.

(** The mbuf where the signature starts: those before it, the offset in it, and those
    from it on. *)
Fixpoint find_sig (off : nat) (c : chain) : option (chain * nat * chain) :=
  match c with
  | [] => None
  | mb :: c' =>
      if (off <? length mb)%nat then Some ([], off, c)
      else match find_sig (off - length mb) c' with
           | Some (before, o, from) => Some (mb :: before, o, from)
           | None => None
           end
  end.

(** Zeroes [n] bytes from offset [off] of the first mbuf on; returns how many are left. *)
Fixpoint zero_sig (n off : nat) (c : chain) : nat * chain :=
  match c with
  | [] => (n, [])
  | mb :: c' =>
      if (n =? 0)%nat then (0%nat, c)
      else
        let k := Nat.min n (length mb - off) in
        let '(togo, c2) := zero_sig (n - k) 0 c' in
        (togo, (take off mb ++ replicate k 0 ++ drop (off + k) mb) :: c2)
  end.

(** For an alternate channel all messages from the last session setup reply on are
    signed with its own key. *)
Definition signing_key (s : session) (r : rq) : key :=
  match sr_iod r with
  | Some ch => if use_channel_keys ch then iod_smb3_signing_key ch else session_smb3_signing_key s
  | None => session_smb3_signing_key s
  end.

(** The result and the chain, whose signature has been zeroed. *)
Definition smb3_verify (s : session) (r : rq) (cur : list Z) (rest : chain) (next_cmd_offset : Z) (signature : list Z)
  : Z * chain :=
  if key_len (session_smb3_signing_key s) <? SMB3_KEY_LEN then (EAUTH, cur :: rest)
  else
    match find_sig SMB2SIGOFF (cur :: rest) with
    | None => (EBADRPC, cur :: rest)
    | Some (before, off, from) =>
        let '(togo, from') := zero_sig SMB2SIGLEN off from in
        let c := before ++ from' in
        if (0 <? togo)%nat then (EBADRPC, c)
        else (cc_cmp_safe SMB2SIGLEN signature
                (smb3_get_signature r (session_smb3_signing_algorithm s) (signing_key s r) c true
                   (reply_len next_cmd_offset cur rest)), c)
    end.

(** ** The check of a reply *)

(** Replies that are not checked. *)
Definition not_checked (s : session) (r : rq) : bool :=
  (negb (signing_on s) && negb (sr_signed r))
  || bool_decide (session_mackey s = None)
  || (sr_command r =? SMB2_OPLOCK_BREAK) || (sr_command r =? SMB2_NEGOTIATE) || (sr_command r =? SMB2_SESSION_SETUP)
  || anonymous s.

Definition smb2_rq_verify (s : session) (r : rq) (cur : list Z) (rest : chain) (signature : list Z) : Z * chain :=
  if not_checked s r then (0, cur :: rest)
  else
    let '(err, c) :=
      if smb3_or_later s then smb3_verify s r cur rest (sr_rspnextcmd r) signature
      else (smb2_verify (default [] (session_mackey s)) cur rest (sr_rspnextcmd r) signature, cur :: rest) in
    (if err =? 0 then 0 else EAUTH, c).

(** The last reply of a session setup; [reply] is its copy. *)
Definition smb3_verify_session_setup (s : session) (ch : channel) (message_id : Z) (reply : list Z) : Z :=
  if (length reply <? SMB2SIGOFF + SMB2SIGLEN + 1)%nat then EAUTH
  else
    let k := if use_channel_keys ch then iod_smb3_signing_key ch else session_smb3_signing_key s in
    if key_len k <? SMB3_KEY_LEN then EAUTH
    else
      let signature := take SMB2SIGLEN (drop SMB2SIGOFF reply) in
      let zeroed := take SMB2SIGOFF reply ++ replicate SMB2SIGLEN 0 ++ drop (SMB2SIGOFF + SMB2SIGLEN) reply in
      match smb3_get_signature_one_shot (session_smb3_signing_algorithm s) (key_bytes k) zeroed message_id
              SMB2_SESSION_SETUP true with
      | inl _ => EAUTH
      | inr mac => if cc_cmp_safe SMB2SIGLEN signature mac =? 0 then 0 else EAUTH
      end.

(** ** Signing a request *)

(** Writes [xs] at offset [o] of the first mbuf, which holds the header. *)
Definition patch (o : nat) (xs : list Z) (c : chain) : chain :=
  match c with mb :: c' => splice o xs mb :: c' | [] => [] end.

(** [*rqp->sr_flagsp |= htolel(SMB2_FLAGS_SIGNED)], with a zero signature. *)
Definition prepare (c : chain) : chain :=
  let flags := le_value (take 4 (drop FLAGSOFF (concat c))) in
  patch FLAGSOFF (le_bytes 4 (Z.lor flags SMB2_FLAGS_SIGNED)) (patch SMB2SIGOFF (replicate SMB2SIGLEN 0) c).

(** [has_sig]: [sr_rqsig] is not NULL; [mac_mem]: the buffer for the MAC can be had. *)
Definition smb2_sign (s : session) (has_sig mac_mem : bool) (c : chain) : chain :=
  if negb has_sig || negb mac_mem then c
  else
    let c1 := prepare c in
    patch SMB2SIGOFF (take SMB2SIGLEN (hmac_sha256 (default [] (session_mackey s)) (concat c1))) c1.

Definition smb3_sign (s : session) (r : rq) (has_sig : bool) (c : chain) : chain :=
  if negb has_sig || (key_len (session_smb3_signing_key s) <? SMB3_KEY_LEN) then c
  else
    let c1 := prepare c in
    patch SMB2SIGOFF
      (smb3_get_signature r (session_smb3_signing_algorithm s) (signing_key s r) c1 false (length (concat c1))) c1.

(** A request or a compound chain of requests. *)
Definition smb2_rq_sign (s : session) (mac_mem : bool) (rqs : list (rq * bool * chain)) : Z * list chain :=
  if bool_decide (session_mackey s = None) then (EINVAL, map snd rqs)
  else (0, map (fun '(r, has_sig, c) =>
                  if smb3_or_later s then smb3_sign s r has_sig c else smb2_sign s has_sig mac_mem c) rqs).
End Signing.
