(* ===== verification/SignTheorems.v ===== *)
(** * Signing: theorems *)
From S2P Require Import Prelude Sign.
Import Errno.
Local Open Scope Z_scope.

(** A reply with zeros in place of its signature. *)
Definition blank (bs : list Z) : list Z := splice SMB2SIGOFF (replicate SMB2SIGLEN 0) bs.

Lemma length_blank bs : (SMB2_HDRLEN <= length bs)%nat -> length (blank bs) = length bs.
Proof. intros Hl. apply length_splice. rewrite length_replicate. unfold SMB2_HDRLEN, SMB2SIGOFF, SMB2SIGLEN in *. lia. Qed.

Lemma take_blank n bs : (SMB2_HDRLEN <= n <= length bs)%nat ->
  take n (blank bs) = take SMB2SIGOFF bs ++ replicate SMB2SIGLEN 0 ++ take (n - SMB2_HDRLEN) (drop SMB2_HDRLEN bs).
Proof.
  intros Hn. unfold blank. rewrite take_splice_in; [|rewrite length_replicate; unfold SMB2_HDRLEN, SMB2SIGOFF, SMB2SIGLEN in *; lia|lia].
  unfold splice. rewrite length_replicate, take_take, Nat.min_l by (unfold SMB2_HDRLEN, SMB2SIGOFF in *; lia).
  do 2 f_equal. rewrite skipn_firstn_comm. f_equal.
Qed.

(** ** Walks *)

Lemma walk_spec n cur rest :
  match walk n cur rest with
  | Some (xs, (cur', rest')) =>
      (n <= length (cur ++ concat rest))%nat /\ xs = take n (cur ++ concat rest) /\
      cur' ++ concat rest' = drop n (cur ++ concat rest)
  | None => (length (cur ++ concat rest) < n)%nat
  end.
Proof.
  revert n cur. induction rest as [|mb rest IH]; intros n cur; cbn [walk concat].
  - rewrite app_nil_r. destruct (Nat.leb_spec n (length cur)); [by rewrite app_nil_r|done].
  - destruct (Nat.leb_spec n (length cur)) as [Hl|Hl].
    + rewrite length_app, take_app_le, drop_app_le by lia. split; [lia|done].
    + specialize (IH (n - length cur)%nat mb). destruct (walk _ mb rest) as [[xs [cur' rest']]|].
      * destruct IH as (Hn & -> & ->). rewrite length_app, (take_app_ge cur), (drop_app_ge cur) by lia. split; [lia|done].
      * rewrite length_app. lia.
Qed.

Lemma fed_reply_spec n c : (0 < n)%nat -> fed_reply n c = take n (concat c).
Proof.
  revert n. induction c as [|mb c IH]; intros n Hn; cbn [fed_reply concat]; [by rewrite take_nil|].
  rewrite (proj2 (Nat.ltb_lt 0 n)) by done. cbn [andb].
  destruct (Nat.ltb_spec n (length mb)) as [Hl|Hl].
  - rewrite length_take, Nat.min_l, Nat.sub_diag by lia. cbn. by rewrite take_app_le by lia.
  - destruct (Nat.eqb_spec (n - length mb) 0) as [E|E].
    + assert (n = length mb) as -> by lia. by rewrite take_app_length.
    + rewrite IH by lia. by rewrite take_app_ge by lia.
Qed.

Lemma zero_sig_spec n off c : (off + n <= length (concat c))%nat -> (c <> [] -> off <= length (hd [] c))%nat ->
  (zero_sig n off c).1 = 0%nat /\ concat (zero_sig n off c).2 = splice off (replicate n 0) (concat c).
Proof.
  revert n off. induction c as [|mb c IH]; intros n off Hl Ho; cbn [zero_sig concat] in *.
  { cbn in Hl. assert (n = 0%nat /\ off = 0%nat) as [-> ->] by lia. done. }
  specialize (Ho ltac:(done)). cbn in Ho. rewrite length_app in Hl.
  destruct (Nat.eqb_spec n 0) as [->|Hn].
  { split; [done|]. unfold splice. cbn [replicate app length snd concat]. rewrite Nat.add_0_r. by rewrite take_drop. }
  destruct (IH (n - Nat.min n (length mb - off))%nat 0%nat) as [E1 E2]; [lia|lia|].
  destruct (zero_sig _ 0 c) as [togo c2]. cbn [fst snd concat] in *. split; [done|]. rewrite E2. unfold splice.
  rewrite !length_replicate, take_0. cbn [app Nat.add].
  rewrite (take_app_le mb) by lia. rewrite <- !app_assoc. f_equal.
  destruct (Nat.le_gt_cases n (length mb - off)) as [Hk|Hk].
  - rewrite Nat.min_l, Nat.sub_diag by lia. cbn [replicate app]. by rewrite drop_0, drop_app_le by lia.
  - rewrite Nat.min_r by lia. replace n with ((length mb - off) + (n - (length mb - off)))%nat at 3 4 by lia.
    rewrite replicate_add, <- app_assoc. rewrite (drop_ge mb) by lia. cbn [app]. rewrite drop_app_ge by lia.
    do 3 f_equal. lia.
Qed.

Lemma zero_sig_short n off c : (length (concat c) < off + n)%nat -> (off <= length (hd [] c))%nat ->
  (0 < (zero_sig n off c).1)%nat.
Proof.
  revert n off. induction c as [|mb c IH]; intros n off Hl Ho; cbn [zero_sig concat hd] in *; [cbn in *; lia|].
  rewrite length_app in Hl. destruct (Nat.eqb_spec n 0) as [->|Hn]; [lia|].
  assert (0 < (zero_sig (n - Nat.min n (length mb - off)) 0 c).1)%nat as E by (apply IH; lia).
  by destruct (zero_sig _ 0 c).
Qed.

Lemma find_sig_spec off c :
  match find_sig off c with
  | Some (before, o, from) => c = before ++ from /\ off = (length (concat before) + o)%nat /\ (o < length (hd [] from))%nat
  | None => (length (concat c) <= off)%nat
  end.
Proof.
  revert off. induction c as [|mb c IH]; intros off; cbn [find_sig]; [cbn; lia|].
  destruct (Nat.ltb_spec off (length mb)) as [Hl|Hl]; [by cbn|].
  specialize (IH (off - length mb)%nat). destruct (find_sig _ c) as [[[before o] from]|].
  - destruct IH as (-> & Ho & Hf). cbn [concat app]. rewrite length_app. split_and!; [done|lia|done].
  - cbn [concat]. rewrite length_app. lia.
Qed.

(** The signature field of a reply, wherever the mbufs are cut, is zeroed. *)
Lemma blank_chain c :
  match find_sig SMB2SIGOFF c with
  | Some (before, o, from) =>
      let '(togo, from') := zero_sig SMB2SIGLEN o from in
      ((SMB2_HDRLEN <= length (concat c))%nat -> togo = 0%nat /\ concat (before ++ from') = blank (concat c)) /\
      ((length (concat c) < SMB2_HDRLEN)%nat -> (0 < togo)%nat)
  | None => (length (concat c) < SMB2_HDRLEN)%nat
  end.
Proof.
  pose proof (find_sig_spec SMB2SIGOFF c) as HF. destruct (find_sig SMB2SIGOFF c) as [[[before o] from]|];
    [|unfold SMB2SIGOFF, SMB2_HDRLEN in *; lia].
  destruct HF as (-> & Ho & Hf). rewrite concat_app, length_app.
  pose proof (zero_sig_spec SMB2SIGLEN o from) as HZ. pose proof (zero_sig_short SMB2SIGLEN o from) as HS.
  destruct (zero_sig SMB2SIGLEN o from) as [togo from']. cbn [fst snd] in *.
  split; intros Hl.
  - destruct HZ as [-> E]; [unfold SMB2SIGOFF, SMB2SIGLEN, SMB2_HDRLEN in *; lia|lia|]. split; [done|].
    rewrite concat_app, E. unfold blank. rewrite Ho. unfold splice.
    rewrite take_app_ge, drop_app_ge by lia. rewrite <- app_assoc. do 3 f_equal; [lia|].
    f_equal. lia.
  - apply HS; [|lia]. unfold SMB2SIGOFF, SMB2SIGLEN, SMB2_HDRLEN in *. lia.
Qed.

(** ** The signature a reply must have *)

Section Spec.
Context `{Mac}.

(** The SMB 3 signature of [data]. *)
Definition smb3_signature (s : session) (r : rq) (is_response : bool) (data : list Z) : list Z :=
  if key_len (signing_key s r) <? SMB3_KEY_LEN then replicate SMB2SIGLEN 0
  else match smb3_get_signature_one_shot (session_smb3_signing_algorithm s) (key_bytes (signing_key s r)) data
               (sr_messageid r) (sr_command r) is_response with
       | inl _ => replicate SMB2SIGLEN 0
       | inr m => take SMB2SIGLEN m
       end.

(** The bytes of the reply that is checked: up to the next command. *)
Definition covered (r : rq) (bs : list Z) : nat :=
  if sr_rspnextcmd r =? 0 then length bs else Z.to_nat (sr_rspnextcmd r).

(** [None]: no signature is accepted. *)
Definition expected (s : session) (r : rq) (bs : list Z) : option (list Z) :=
  if smb3_or_later s then
    if (key_len (session_smb3_signing_key s) <? SMB3_KEY_LEN) || (length bs <? SMB2_HDRLEN)%nat then None
    else Some (smb3_signature s r true (take (covered r bs) (blank bs)))
  else
    if (covered r bs <? SMB2_HDRLEN)%nat || (length bs <? covered r bs)%nat then None
    else Some (take SMB2SIGLEN (hmac_sha256 (default [] (session_mackey s)) (take (covered r bs) (blank bs)))).

Lemma get_signature_spec s r c (n : nat) is_response : (0 < n)%nat -> (is_response = false -> n = length (concat c)) ->
  smb3_get_signature r (session_smb3_signing_algorithm s) (signing_key s r) c is_response n
  = smb3_signature s r is_response (take n (concat c)).
Proof.
  intros Hn Hr. unfold smb3_get_signature, smb3_signature, smb3_get_signature_blocks.
  destruct (key_len _ <? _); [done|]. destruct (Nat.eqb_spec n 0) as [|_]; [lia|].
  destruct is_response; [by rewrite fed_reply_spec|]. by rewrite Hr, firstn_all.
Qed.

Lemma reply_len_covered r cur rest :
  reply_len (sr_rspnextcmd r) cur rest = covered r (cur ++ concat rest).
Proof. done. Qed.

Lemma length_smb3_signature s r b data : (length (smb3_signature s r b data) <= SMB2SIGLEN)%nat.
Proof.
  unfold smb3_signature. repeat case_match; rewrite ?length_replicate, ?length_take; lia.
Qed.

Lemma cmp_zero a b : cc_cmp_safe SMB2SIGLEN a b = 0 <-> take SMB2SIGLEN a = take SMB2SIGLEN b.
Proof. unfold cc_cmp_safe. case_bool_decide; split; done. Qed.

Lemma smb2_verify_spec mackey cur rest r sg (bs := cur ++ concat rest) :
  smb2_verify mackey cur rest (sr_rspnextcmd r) sg = 0 <->
  (SMB2_HDRLEN <= covered r bs <= length bs)%nat /\
  take SMB2SIGLEN sg = take SMB2SIGLEN (hmac_sha256 mackey (take (covered r bs) (blank bs))).
Proof.
  unfold smb2_verify. rewrite reply_len_covered. fold bs. set (n := covered r bs). clearbody n.
  destruct (Nat.ltb_spec n SMB2_HDRLEN) as [Hs|Hs]; [split; [done|lia]|].
  pose proof (walk_spec SMB2SIGOFF cur rest) as W1. fold bs in W1.
  destruct (walk SMB2SIGOFF cur rest) as [[xs1 [cur1 rest1]]|]; [|split; [done|unfold SMB2SIGOFF, SMB2_HDRLEN in *; lia]].
  destruct W1 as (_ & -> & E1).
  pose proof (walk_spec SMB2SIGLEN cur1 rest1) as W2. rewrite E1 in W2.
  destruct (walk SMB2SIGLEN cur1 rest1) as [[xs2 [cur2 rest2]]|];
    [|rewrite length_drop in W2; split; [done|unfold SMB2SIGOFF, SMB2SIGLEN, SMB2_HDRLEN in *; lia]].
  destruct W2 as (Hl2 & _ & E2). rewrite length_drop in Hl2. rewrite drop_drop in E2. change (SMB2SIGOFF + SMB2SIGLEN)%nat with SMB2_HDRLEN in E2.
  pose proof (walk_spec (n - SMB2_HDRLEN) cur2 rest2) as W3. rewrite E2, length_drop in W3.
  destruct (walk (n - SMB2_HDRLEN) cur2 rest2) as [[xs3 ?]|]; [|split; [done|lia]].
  destruct p as [cur3 rest3]. destruct W3 as (Hn & -> & _).
  assert (n <= length bs)%nat by (unfold SMB2SIGOFF, SMB2SIGLEN, SMB2_HDRLEN in *; lia).
  rewrite cmp_zero, take_blank by lia. split; [|tauto]. intros E. split; [lia|done].
Qed.

Lemma smb3_verify_spec s r cur rest sg (bs := cur ++ concat rest) :
  0 <= sr_rspnextcmd r ->
  ((smb3_verify s r cur rest (sr_rspnextcmd r) sg).1 = 0 <->
   SMB3_KEY_LEN <= key_len (session_smb3_signing_key s) /\ (SMB2_HDRLEN <= length bs)%nat /\
   take SMB2SIGLEN sg = smb3_signature s r true (take (covered r bs) (blank bs))).
Proof.
  intros Hnext. unfold smb3_verify. destruct (Z.ltb_spec (key_len (session_smb3_signing_key s)) SMB3_KEY_LEN) as [Hk|Hk];
    [split; [done|lia]|].
  pose proof (blank_chain (cur :: rest)) as HB. cbn [concat] in HB. fold bs in HB.
  destruct (find_sig SMB2SIGOFF (cur :: rest)) as [[[before o] from]|]; [|split; [done|lia]].
  destruct (zero_sig SMB2SIGLEN o from) as [togo from']. destruct HB as [HB1 HB2].
  destruct (Nat.le_gt_cases SMB2_HDRLEN (length bs)) as [Hl|Hl].
  - destruct (HB1 Hl) as [-> E]. cbn [fst Nat.ltb Nat.leb]. rewrite cmp_zero, reply_len_covered. fold bs.
    assert (0 < covered r bs)%nat.
    { unfold covered. destruct (Z.eqb_spec (sr_rspnextcmd r) 0); unfold SMB2_HDRLEN in *; lia. }
    rewrite get_signature_spec, E by done.
    rewrite (take_ge (smb3_signature _ _ _ _)) by apply length_smb3_signature. tauto.
  - rewrite (proj2 (Nat.ltb_lt 0 togo)) by auto. split; [done|lia].
Qed.

Lemma rq_verify_spec s r cur rest sg (bs := cur ++ concat rest) :
  not_checked s r = false -> 0 <= sr_rspnextcmd r ->
  (smb2_rq_verify s r cur rest sg).1 = if bool_decide (Some (take SMB2SIGLEN sg) = expected s r bs) then 0 else EAUTH.
Proof.
  intros Hn Hnext. unfold smb2_rq_verify. rewrite Hn. unfold expected.
  destruct (smb3_or_later s).
  - pose proof (smb3_verify_spec s r cur rest sg Hnext) as HV. fold bs in HV.
    destruct (smb3_verify s r cur rest (sr_rspnextcmd r) sg) as [err c]. cbn [fst] in *.
    destruct (Z.ltb_spec (key_len (session_smb3_signing_key s)) SMB3_KEY_LEN);
      destruct (Nat.ltb_spec (length bs) SMB2_HDRLEN); cbn [orb];
      destruct (Z.eqb_spec err 0) as [E|E]; case_bool_decide as EB; try done.
    all: try (apply HV in E as (? & ? & ?); lia || congruence).
    exfalso. apply E, HV. injection EB as EB. done.
  - cbn [fst]. pose proof (smb2_verify_spec (default [] (session_mackey s)) cur rest r sg) as HV. fold bs in HV.
    set (err := smb2_verify _ _ _ _ _) in *. clearbody err.
    destruct (Nat.ltb_spec (covered r bs) SMB2_HDRLEN); destruct (Nat.ltb_spec (length bs) (covered r bs)); cbn [orb];
      destruct (Z.eqb_spec err 0) as [E|E]; case_bool_decide as EB; try done.
    all: try (apply HV in E as (? & ?); lia || congruence).
    exfalso. apply E, HV. injection EB as EB. split; [lia|done].
Qed.

(** The MAC of [data] as [MS-SMB2] 3.1.4.1 has it: HMAC-SHA256 under the session key; on
    SMB 3 AES-CMAC under the signing key, or AES-GMAC, whose nonce is the message ID and
    the bits for a reply and for CANCEL. *)
Definition reply_mac (s : session) (r : rq) (data : list Z) : list Z :=
  if smb3_or_later s then
    let k := key_bytes (signing_key s r) in
    if session_smb3_signing_algorithm s =? SMB2_SIGNING_AES_CMAC then aes_cmac k data
    else aes_gmac k (le_bytes 8 (sr_messageid r) ++ le_bytes 4 (if sr_command r =? SMB2_CANCEL then 3 else 1)) data
  else hmac_sha256 (default [] (session_mackey s)) data.

(** The keys are there and of the right length, and the MAC can be set up. *)
Definition can_mac (s : session) (r : rq) : Prop :=
  let algorithm := session_smb3_signing_algorithm s in
  smb3_or_later s = true ->
  SMB3_KEY_LEN <= key_len (session_smb3_signing_key s) /\ SMB3_KEY_LEN <= key_len (signing_key s r) /\
  (algorithm = SMB2_SIGNING_AES_CMAC \/ algorithm = SMB2_SIGNING_AES_GMAC) /\
  mac_init algorithm (key_bytes (signing_key s r)) = 0.

Lemma smb3_signature_mac s r data : can_mac s r -> smb3_or_later s = true ->
  smb3_signature s r true data = take SMB2SIGLEN (reply_mac s r data).
Proof.
  intros Hm H3. destruct (Hm H3) as (_ & Hk & Ha & Hi). unfold smb3_signature, reply_mac, smb3_get_signature_one_shot. rewrite H3, Hi.
  rewrite (proj2 (Z.ltb_ge _ _)) by done. destruct Ha as [-> | ->]; cbn; [done|].
  unfold smb3_init_gmac_iv. by destruct (_ =? SMB2_CANCEL).
Qed.

(** C6: a reply that must be checked, with the keys for it, passes exactly when it holds a
    whole header and its signature is the MAC, under the key of the session or of its
    channel, of its bytes with a zeroed signature, up to the next command that it
    announces, or all of them; otherwise the result is EAUTH.  It does not matter how the
    reply is cut into mbufs.  An SMB 2 reply must also hold the announced length. *)
Theorem reply_signature_checked s r cur rest sg (bs := cur ++ concat rest) (n := covered r bs) :
  not_checked s r = false -> 0 <= sr_rspnextcmd r -> can_mac s r ->
  let err := (smb2_rq_verify s r cur rest sg).1 in
  (err = 0 \/ err = EAUTH) /\
  (err = 0 <->
   (SMB2_HDRLEN <= length bs)%nat /\ (smb3_or_later s = false -> (SMB2_HDRLEN <= n <= length bs)%nat) /\
   take SMB2SIGLEN sg = take SMB2SIGLEN (reply_mac s r (take n (blank bs)))).
Proof.
  intros Hn Hx Hm err. unfold err. rewrite rq_verify_spec by done. fold bs. unfold expected. fold n.
  split; [case_bool_decide; auto|].
  assert (HE : forall x y : list Z, (if bool_decide (Some x = Some y) then 0 else EAUTH) = 0 <-> x = y).
  { intros x y. case_bool_decide as EB; split; intros; congruence || done. }
  destruct (smb3_or_later s) eqn:H3.
  - destruct (Hm H3) as (Hk & _). rewrite (proj2 (Z.ltb_ge _ _)) by done. cbn [orb].
    destruct (Nat.ltb_spec (length bs) SMB2_HDRLEN); [split; [done|lia]|].
    rewrite HE, smb3_signature_mac by done. split; [|tauto]. by intros ->.
  - unfold reply_mac. rewrite H3.
    destruct (Nat.ltb_spec n SMB2_HDRLEN); [split; [done|intros (_ & F & _); specialize (F eq_refl); lia]|].
    destruct (Nat.ltb_spec (length bs) n); [split; [done|intros (_ & F & _); specialize (F eq_refl); lia]|].
    cbn [orb]. rewrite HE. split; [intros ->; split_and!; [lia|intros _; lia|done]|tauto].
Qed.
End Spec.

(** ** Signed requests *)

Section Splices.
Context {A : Type}.
Implicit Types l xs ys : list A.

Lemma splice_app_l o xs l r : (o + length xs <= length l)%nat -> splice o xs (l ++ r) = splice o xs l ++ r.
Proof. intros Hl. unfold splice. rewrite take_app_le, drop_app_le by lia. by rewrite <- !app_assoc. Qed.

Lemma splice_idem o xs ys l : length xs = length ys -> (o + length xs <= length l)%nat ->
  splice o ys (splice o xs l) = splice o ys l.
Proof.
  intros Hx Hl. apply list_eq. intros i. rewrite !lookup_splice by (rewrite ?length_splice; lia).
  rewrite Hx. by repeat case_decide.
Qed.

Lemma splice_comm o p xs ys l : (o + length xs <= p)%nat -> (p + length ys <= length l)%nat ->
  splice o xs (splice p ys l) = splice p ys (splice o xs l).
Proof.
  intros Ho Hp. apply list_eq. intros i. rewrite !lookup_splice by (rewrite ?length_splice; lia).
  repeat case_decide; try done; lia.
Qed.

Lemma take_drop_splice o xs l : (o + length xs <= length l)%nat -> take (length xs) (drop o (splice o xs l)) = xs.
Proof.
  intros Hl. unfold splice. rewrite drop_app_ge, length_take by (rewrite length_take; lia).
  replace (o - _)%nat with 0%nat by lia. by rewrite drop_0, take_app_length.
Qed.
End Splices.

Section Round.
Context `{Mac}.

(** MACs have their length. *)
Class MacLaws : Prop := {
  hmac_length : forall k data, length (hmac_sha256 k data) = 32%nat;
  cmac_length : forall k data, length (aes_cmac k data) = 16%nat;
  gmac_length : forall k iv data, length (aes_gmac k iv data) = 16%nat
}.
Context `{!MacLaws}.

Lemma smb3_signature_length s r b data : length (smb3_signature s r b data) = SMB2SIGLEN.
Proof.
  unfold smb3_signature, smb3_get_signature_one_shot.
  repeat case_match; simplify_eq; rewrite ?length_take, ?cmac_length, ?gmac_length, ?length_replicate; done.
Qed.

(** What signing makes of the bytes of a request. *)
Definition flagged (bs : list Z) : list Z :=
  splice FLAGSOFF (le_bytes 4 (Z.lor (le_value (take 4 (drop FLAGSOFF bs))) SMB2_FLAGS_SIGNED)) (blank bs).

Lemma prepare_spec mb c : (SMB2_HDRLEN <= length mb)%nat ->
  exists mb', prepare (mb :: c) = mb' :: c /\ length mb' = length mb /\ mb' ++ concat c = flagged (mb ++ concat c).
Proof.
  intros Hl. unfold prepare. cbn [concat patch]. eexists. split; [done|].
  assert (length (splice SMB2SIGOFF (replicate SMB2SIGLEN 0) mb) = length mb) as E1.
  { apply length_splice. rewrite length_replicate. unfold SMB2SIGOFF, SMB2SIGLEN, SMB2_HDRLEN in *. lia. }
  split.
  { rewrite length_splice; [done|]. rewrite length_le_bytes, E1. unfold FLAGSOFF, SMB2_HDRLEN in *. lia. }
  set (fl := le_bytes _ _).
  assert (length fl = 4%nat) as Hf by apply length_le_bytes.
  rewrite <- splice_app_l by (rewrite Hf, E1; unfold FLAGSOFF, SMB2_HDRLEN in *; lia).
  rewrite <- splice_app_l; [done|]. rewrite length_replicate. unfold SMB2SIGOFF, SMB2SIGLEN, SMB2_HDRLEN in *. lia.
Qed.

Lemma blank_flagged bs : (SMB2_HDRLEN <= length bs)%nat -> blank (flagged bs) = flagged bs /\ length (flagged bs) = length bs.
Proof.
  intros Hl. unfold flagged. set (fl := le_bytes _ _). assert (length fl = 4%nat) as Hf by apply length_le_bytes.
  pose proof (length_blank bs Hl) as Hb. unfold SMB2_HDRLEN in Hl. split.
  - unfold blank at 1. rewrite <- splice_comm.
    + f_equal. unfold blank. apply splice_idem; [done|]. rewrite length_replicate. unfold SMB2SIGOFF, SMB2SIGLEN. lia.
    + rewrite Hf. unfold FLAGSOFF, SMB2SIGOFF. lia.
    + rewrite length_replicate, Hb. unfold SMB2SIGOFF, SMB2SIGLEN. lia.
  - rewrite length_splice; [done|]. rewrite Hf, Hb. unfold FLAGSOFF. lia.
Qed.

(** The request that goes out, as bytes. *)
Definition signed_bytes (s : session) (r : rq) (bs : list Z) : list Z :=
  splice SMB2SIGOFF
    (if smb3_or_later s then smb3_signature s r false (flagged bs)
     else take SMB2SIGLEN (hmac_sha256 (default [] (session_mackey s)) (flagged bs))) (flagged bs).

Lemma sign_spec s r mb c :
  session_mackey s <> None -> (SMB2_HDRLEN <= length mb)%nat ->
  (smb3_or_later s = true -> SMB3_KEY_LEN <= key_len (session_smb3_signing_key s)) ->
  exists c', smb2_rq_sign s true [(r, true, mb :: c)] = (0, [c']) /\
    concat c' = signed_bytes s r (mb ++ concat c).
Proof.
  intros Hm Hl Hk. unfold smb2_rq_sign. rewrite bool_decide_eq_false_2 by done. cbn [map].
  destruct (prepare_spec mb c Hl) as (mb' & Ep & Hl' & Ec).
  eexists. split; [done|]. unfold signed_bytes, smb3_sign, smb2_sign. cbn [negb orb].
  assert (Hc : forall sg, length sg = SMB2SIGLEN -> concat (patch SMB2SIGOFF sg (mb' :: c)) = splice SMB2SIGOFF sg (flagged (mb ++ concat c))).
  { intros sg Hsg. cbn [patch concat]. rewrite <- splice_app_l, Ec; [done|]. rewrite Hsg, Hl'.
    unfold SMB2SIGOFF, SMB2SIGLEN, SMB2_HDRLEN in *. lia. }
  destruct (smb3_or_later s).
  - rewrite (proj2 (Z.ltb_ge _ _)) by (by apply Hk). rewrite Ep.
    assert (length (concat (mb' :: c)) <> 0%nat).
    { cbn [concat]. rewrite length_app. unfold SMB2_HDRLEN in *. lia. }
    rewrite get_signature_spec by (done || lia). rewrite firstn_all, Hc by apply smb3_signature_length.
    cbn [concat]. by rewrite Ec.
  - rewrite Ep, Hc by (rewrite length_take, hmac_length; done). cbn [concat]. by rewrite Ec.
Qed.

Lemma signed_verifies s r mb c c' cur rest :
  smb2_rq_sign s true [(r, true, mb :: c)] = (0, [c']) ->
  not_checked s r = false -> sr_rspnextcmd r = 0 -> (SMB2_HDRLEN <= length mb)%nat ->
  (smb3_or_later s = true -> SMB3_KEY_LEN <= key_len (session_smb3_signing_key s)) ->
  session_smb3_signing_algorithm s <> SMB2_SIGNING_AES_GMAC ->
  cur ++ concat rest = concat c' ->
  (smb2_rq_verify s r cur rest (take SMB2SIGLEN (drop SMB2SIGOFF (concat c')))).1 = 0 /\
  exists sg, length sg = SMB2SIGLEN /\ concat c' = splice SMB2SIGOFF sg (flagged (mb ++ concat c)).
Proof.
  intros Es Hn Hx Hl Hk Hg Hc.
  assert (Hm : session_mackey s <> None).
  { intros E. unfold not_checked in Hn. rewrite E, bool_decide_eq_true_2 in Hn by done.
    by rewrite !orb_true_r in Hn. }
  destruct (sign_spec s r mb c Hm Hl Hk) as (c2 & E2 & Eb). rewrite Es in E2. injection E2 as <-.
  assert (Hbl : (SMB2_HDRLEN <= length (mb ++ concat c))%nat) by (rewrite length_app; lia).
  destruct (blank_flagged _ Hbl) as [Ebl Hfl].
  unfold signed_bytes in Eb. set (sg := if smb3_or_later s then _ else _) in Eb.
  assert (Hsg : length sg = SMB2SIGLEN).
  { unfold sg. destruct (smb3_or_later s); [apply smb3_signature_length|]. by rewrite length_take, hmac_length. }
  assert (Hfit : (SMB2SIGOFF + length sg <= length (flagged (mb ++ concat c)))%nat).
  { rewrite Hsg, Hfl. unfold SMB2SIGOFF, SMB2SIGLEN, SMB2_HDRLEN in *. lia. }
  split; [|by exists sg].
  rewrite rq_verify_spec by (done || lia). rewrite Hc, Eb.
  pose proof (take_drop_splice _ _ _ Hfit) as ET. rewrite Hsg in ET. rewrite ET.
  rewrite bool_decide_eq_true_2; [done|]. rewrite take_ge by lia.
  assert (EB : blank (splice SMB2SIGOFF sg (flagged (mb ++ concat c))) = flagged (mb ++ concat c)).
  { unfold blank. rewrite splice_idem; [exact Ebl| |done]. by rewrite length_replicate. }
  assert (EL : length (splice SMB2SIGOFF sg (flagged (mb ++ concat c))) = length (mb ++ concat c))
    by (by rewrite length_splice).
  unfold expected, covered. rewrite Hx, EB, EL. cbn [Z.eqb].
  rewrite (take_ge (flagged _)) by (rewrite Hfl; done). rewrite !(proj2 (Nat.ltb_ge _ _)) by (done || lia).
  unfold sg. destruct (smb3_or_later s); cbn [orb]; [|done].
  rewrite (proj2 (Z.ltb_ge _ _)) by (by apply Hk). cbn [orb]. f_equal.
  unfold smb3_signature, smb3_get_signature_one_shot.
  by rewrite (proj2 (Z.eqb_neq _ SMB2_SIGNING_AES_GMAC)) by done.
Qed.

(** A request that has been signed passes the check of a peer with the same keys, no
    matter how it is cut into mbufs; signing sets the flag and the signature and leaves all
    other bytes alone. *)
Theorem signed_request_verifies s r mb c c' cur rest :
  smb2_rq_sign s true [(r, true, mb :: c)] = (0, [c']) ->
  not_checked s r = false -> sr_rspnextcmd r = 0 -> (SMB2_HDRLEN <= length mb)%nat ->
  (smb3_or_later s = true -> SMB3_KEY_LEN <= key_len (session_smb3_signing_key s)) ->
  session_smb3_signing_algorithm s <> SMB2_SIGNING_AES_GMAC ->
  cur ++ concat rest = concat c' ->
  (smb2_rq_verify s r cur rest (take SMB2SIGLEN (drop SMB2SIGOFF (concat c')))).1 = 0 /\
  exists sg, length sg = SMB2SIGLEN /\ concat c' = splice SMB2SIGOFF sg (flagged (mb ++ concat c)).
Proof. apply signed_verifies. Qed.
End Round.

(** ** Replies whose signature cannot be computed *)

Section Open.
Context `{Mac}.

(** The signature that is computed stays zero when the key of the channel is not there, and
    is compared all the same: a reply whose signature is zero passes. *)
Theorem missing_channel_key_accepts_zeros s r ch cur rest :
  not_checked s r = false -> 0 <= sr_rspnextcmd r -> smb3_or_later s = true ->
  SMB3_KEY_LEN <= key_len (session_smb3_signing_key s) ->
  sr_iod r = Some ch -> use_channel_keys ch = true -> key_len (iod_smb3_signing_key ch) < SMB3_KEY_LEN ->
  (SMB2_HDRLEN <= length (cur ++ concat rest))%nat ->
  (smb2_rq_verify s r cur rest (replicate SMB2SIGLEN 0)).1 = 0.
Proof.
  intros Hn Hx H3 Hk Hi Hu Hc Hl. rewrite rq_verify_spec by done. unfold expected. rewrite H3.
  rewrite (proj2 (Z.ltb_ge _ _)), (proj2 (Nat.ltb_ge _ _)) by done. cbn [orb].
  unfold smb3_signature, signing_key. rewrite Hi, Hu, (proj2 (Z.ltb_lt _ _)) by done. done.
Qed.
End Open.

(** ** Witnesses *)

(** A MAC of no strength, for the examples: a sum of all bytes. *)
Definition sum_mac (n : nat) (k data : list Z) : list Z :=
  le_bytes n (fold_left (fun a b => 31 * a + b + 1) (k ++ data) 7).

#[export] Instance demo_mac : Mac := {|
  hmac_sha256 := sum_mac 32;
  aes_cmac := sum_mac 16;
  aes_gmac := fun k iv => sum_mac 16 (k ++ iv);
  mac_init := fun _ _ => 0
|}.

#[export] Instance demo_mac_laws : MacLaws.
Proof. split; intros; apply length_le_bytes. Qed.

Definition demo_session : session :=
  Session true true false (Some [1; 2; 3]) (Key (replicate 16 5) 16) SMB2_SIGNING_AES_CMAC.
Definition demo_rq : rq := Rq 8 77 true 0 None.
Definition demo_msg : list Z := replicate 70 9.
Definition demo_signed : list Z := signed_bytes demo_session demo_rq demo_msg.

Lemma signed_request_verifies_witness :
  (smb2_rq_verify demo_session demo_rq (take 50 demo_signed) [drop 50 demo_signed]
     (take SMB2SIGLEN (drop SMB2SIGOFF demo_signed))).1 = 0.
Proof.
  apply (signed_request_verifies demo_session demo_rq demo_msg [] [demo_signed] (take 50 demo_signed)
    [drop 50 demo_signed]); vm_compute; reflexivity || (intros; discriminate) || lia.
Defined.

(** The MAC of a reply that is cut in its signature field; another signature is refused. *)
Definition demo_reply_sig : list Z := take SMB2SIGLEN (reply_mac demo_session demo_rq (blank demo_msg)).

Lemma reply_signature_checked_witness :
  (smb2_rq_verify demo_session demo_rq (take 50 demo_msg) [drop 50 demo_msg] demo_reply_sig).1 = 0 /\
  (smb2_rq_verify demo_session demo_rq (take 50 demo_msg) [drop 50 demo_msg] (replicate 16 9)).1 <> 0.
Proof.
  assert (Hm : can_mac demo_session demo_rq) by (intros _; vm_compute; intuition congruence).
  split.
  - apply (reply_signature_checked demo_session demo_rq (take 50 demo_msg) [drop 50 demo_msg] demo_reply_sig); [done|done|exact Hm|].
    split_and!; [apply (bool_decide_unpack _); by vm_compute|done|by vm_compute].
  - intros E.
    apply (reply_signature_checked demo_session demo_rq (take 50 demo_msg) [drop 50 demo_msg] (replicate 16 9)) in E as (_ & _ & E);
      [by vm_compute in E|done|done|exact Hm].
Defined.
