(* ===== verification/Seal.v ===== *)
(** * Encryption: [smb3_rq_encrypt] and [smb3_msg_decrypt] of [kernel/netsmb/smb_crypt.c]

    A message that is encrypted gets a transform header of 52 bytes before it.  AES-CCM
    and AES-GCM of corecrypto are the class [Aead]: both xor the data with a key stream and
    make a tag of the header and the encrypted data.  Messages of more than 64 KB are
    decrypted in a buffer that the session keeps. *)
From S2P Require Import Prelude Sign.
Import Errno.
Local Open Scope Z_scope.

Definition SMB2_ENCRYPTION_AES_128_CCM := 1.
Definition SMB2_ENCRYPTION_AES_128_GCM := 2.
Definition SMB2_ENCRYPTION_AES_256_CCM := 3.
Definition SMB2_ENCRYPTION_AES_256_GCM := 4.
Definition SMB3_AES_TF_HDR_LEN : nat := 52.
Definition SMB3_AES_TF_SIG_LEN : nat := 16.
Definition SMB3_AES_TF_SIG_OFF : nat := 4.
Definition SMB3_AES_AUTHDATA_OFF : nat := 20.
Definition SMB3_AES_AUTHDATA_LEN : nat := 32.
Definition SMB3_AES_TF_NONCE_OFF : nat := 20.
Definition SMB3_CCM_NONCE_LEN : nat := 11.
Definition SMB3_GCM_NONCE_LEN : nat := 12.
Definition TF_PROTO : list Z := [0xfd; 0x53; 0x4d; 0x42].
Definition kDefaultMaxIOSize := 8388608.
Definition SMB2_WRITE := 0x9.

(** The ciphers, with a key and a nonce: the byte of the key stream at a position, and the
    tag of the authenticated header and the encrypted data; CCM is told the length of the
    data beforehand. *)
Class Aead := {
  gcm_stream : list Z -> list Z -> nat -> Z;
  gcm_tag : list Z -> list Z -> list Z -> list Z -> list Z;
  ccm_stream : list Z -> list Z -> nat -> Z;
  ccm_tag : list Z -> list Z -> list Z -> Z -> list Z -> list Z
}.

(** What is used of a session.  The buffer has the length [decrypt_buf_len]. *)
Record seal_session := SealSession {
  encrypt_ciper : Z;
  encrypt_key : list Z;       (* of session_smb3_encrypt_key_len bytes *)
  decrypt_key : list Z;
  nonce_high : Z;
  nonce_low : Z;
  smb311 : bool;
  session_id : Z;
  decrypt_buffer : option (list Z)
}.
Definition set_ciper (x : Z) (s : seal_session) : seal_session :=
  SealSession x (encrypt_key s) (decrypt_key s) (nonce_high s) (nonce_low s) (smb311 s) (session_id s) (decrypt_buffer s).
Definition set_nonce (h l : Z) (s : seal_session) : seal_session :=
  SealSession (encrypt_ciper s) (encrypt_key s) (decrypt_key s) h l (smb311 s) (session_id s) (decrypt_buffer s).
Definition set_buffer (b : option (list Z)) (s : seal_session) : seal_session :=
  SealSession (encrypt_ciper s) (encrypt_key s) (decrypt_key s) (nonce_high s) (nonce_low s) (smb311 s) (session_id s) b.

(** What is used of a request: its chain, those of the requests compounded to it, and the
    chain with the compressed message; a chain that is [] is NULL. *)
Record seal_rq := SealRq {
  er_compound : bool;         (* SMBR_COMPOUND_RQ *)
  er_is_compressed : bool;    (* SMBR_COMPRESSED *)
  er_command : Z;
  er_sessionid : Z;
  er_chain : chain;
  er_next : list chain;
  er_compressed : chain
}.
Definition set_chain (c : chain) (r : seal_rq) : seal_rq :=
  SealRq (er_compound r) (er_is_compressed r) (er_command r) (er_sessionid r) c (er_next r) (er_compressed r).
Definition set_next (n : list chain) (r : seal_rq) : seal_rq :=
  SealRq (er_compound r) (er_is_compressed r) (er_command r) (er_sessionid r) (er_chain r) n (er_compressed r).
Definition set_compressed (c : chain) (r : seal_rq) : seal_rq :=
  SealRq (er_compound r) (er_is_compressed r) (er_command r) (er_sessionid r) (er_chain r) (er_next r) c.

Section Seal.
Context `{Aead}.

(** ** The ciphers *)

Definition is_gcm (cipher : Z) : bool :=
  (cipher =? SMB2_ENCRYPTION_AES_128_GCM) || (cipher =? SMB2_ENCRYPTION_AES_256_GCM).
Definition is_ccm (cipher : Z) : bool :=
  (cipher =? SMB2_ENCRYPTION_AES_128_CCM) || (cipher =? SMB2_ENCRYPTION_AES_256_CCM).

(** "Unknown cipher, defaulting to SMB2_ENCRYPTION_AES_128_CCM" *)
Definition known_cipher (s : seal_session) : seal_session :=
  if is_gcm (encrypt_ciper s) || is_ccm (encrypt_ciper s) then s else set_ciper SMB2_ENCRYPTION_AES_128_CCM s.

(** The part of the nonce field that a cipher is given. *)
Definition iv_of (cipher : Z) (nonce : list Z) : list Z :=
  take (if is_gcm cipher then SMB3_GCM_NONCE_LEN else SMB3_CCM_NONCE_LEN) nonce.

Definition stream (cipher : Z) (k nonce : list Z) : nat -> Z :=
  if is_gcm cipher then gcm_stream k (iv_of cipher nonce) else ccm_stream k (iv_of cipher nonce).

Definition tag (cipher : Z) (k nonce auth : list Z) (msglen : Z) (data : list Z) : list Z :=
  if is_gcm cipher then gcm_tag k (iv_of cipher nonce) auth data else ccm_tag k (iv_of cipher nonce) auth msglen data.

(** [ccgcm_update] and [ccccm_update] of a piece, after [pos] bytes. *)
Definition crypt (ks : nat -> Z) (pos : nat) (data : list Z) : list Z :=
  imap (fun i b => Z.lxor b (ks (pos + i)%nat)) data.

(** In place, mbuf by mbuf. *)
Fixpoint crypt_chain (ks : nat -> Z) (pos : nat) (c : chain) : chain :=
  match c with
  | [] => []
  | mb :: c' => crypt ks pos mb :: crypt_chain ks (pos + length mb) c'
  end.

(** ** Nonces *)

Definition next_nonce (s : seal_session) : seal_session :=
  let l := u64 (nonce_low s + 1) in
  if l =? 0 then set_nonce (u64 (nonce_high s + 1)) 1 s else set_nonce (nonce_high s) l s.

(** The last bytes are zeroed, 4 for GCM and 5 for CCM. *)
Definition nonce_field (s : seal_session) : list Z :=
  let n := le_bytes 8 (nonce_high s) ++ le_bytes 8 (nonce_low s) in
  let k := if is_gcm (encrypt_ciper s) then SMB3_GCM_NONCE_LEN else SMB3_CCM_NONCE_LEN in
  take k n ++ replicate (16 - k) 0.

(** ** Encryption *)

(** The transform header; [SMB311_ENCRYPTED_FLAG] and [SMB2_ENCRYPTION_AES128_CCM] are both 1. *)
Definition tf_header (sig nonce : list Z) (msglen : Z) (sessid : Z) : list Z :=
  TF_PROTO ++ sig ++ nonce ++ le_bytes 4 msglen ++ [0; 0] ++ le_bytes 2 1 ++ le_bytes 8 sessid.

(** Nonce, size, flags and session ID. *)
Definition auth_data (hdr : list Z) : list Z := take SMB3_AES_AUTHDATA_LEN (drop SMB3_AES_AUTHDATA_OFF hdr).

(** The message to encrypt, the request after it has been detached, and whether it goes
    back to the compressed chain. *)
Definition detach (r : seal_rq) : chain * seal_rq * bool :=
  if er_compound r then (er_chain r ++ concat (er_next r), set_next (map (fun _ => []) (er_next r)) (set_chain [] r), false)
  else if er_is_compressed r && (er_command r =? SMB2_WRITE) && negb (bool_decide (er_compressed r = []))
  then (er_compressed r, set_compressed [] r, true)
  else (er_chain r, set_chain [] r, false).

(** The error, the session and the request; [gethdr] is the error of [mbuf_gethdr].  On an
    error the message has been freed. *)
Definition smb3_rq_encrypt (s : seal_session) (r : seal_rq) (gethdr : Z) : Z * seal_session * seal_rq :=
  let s := known_cipher s in
  let '(mb, r, compressed) := detach r in
  match encrypt_key s with
  | [] => (EINVAL, s, r)
  | k =>
      if negb (gethdr =? 0) then (ENOBUFS, s, r)
      else
        let s := next_nonce s in
        let nonce := nonce_field s in
        let len := Z.of_nat (length (concat mb)) in
        if 0xffffffff <? len then (EAUTH, s, r)
        else
          let auth := auth_data (tf_header (replicate SMB3_AES_TF_SIG_LEN 0) nonce len (er_sessionid r)) in
          let mb' := crypt_chain (stream (encrypt_ciper s) k nonce) 0 mb in
          let sig := take SMB3_AES_TF_SIG_LEN (tag (encrypt_ciper s) k nonce auth len (concat mb')) in
          let out := tf_header sig nonce len (er_sessionid r) :: mb' in
          (0, s, if compressed then set_compressed out r else set_chain out r)
  end.

(** ** Decryption *)

(** [mbuf_split]: the mbufs after the first [n] bytes, of which there are that many. *)
Fixpoint split_chain (n : nat) (c : chain) : chain :=
  match c with
  | [] => []
  | mb :: c' => if (n <=? length mb)%nat then drop n mb :: c' else split_chain (n - length mb) c'
  end.

(** Copies the mbufs into the buffer; [false] when one does not fit. *)
Fixpoint copy_in (ncopy : nat) (c : chain) (buf : list Z) : bool * list Z :=
  match c with
  | [] => (true, buf)
  | mb :: c' =>
      if (length mb =? 0)%nat then copy_in ncopy c' buf
      else if (ncopy + length mb <=? length buf)%nat then copy_in (ncopy + length mb) c' (splice ncopy mb buf)
      else (false, buf)
  end.

(** And back. *)
Fixpoint copy_out (ncopy : nat) (c : chain) (buf : list Z) : option chain :=
  match c with
  | [] => Some []
  | mb :: c' =>
      if (length mb =? 0)%nat then cons mb <$> copy_out ncopy c' buf
      else if (ncopy + length mb <=? length buf)%nat
      then cons (take (length mb) (drop ncopy buf)) <$> copy_out (ncopy + length mb) c' buf
      else None
  end.

(** A buffer that is too small is freed, and one is allocated when there is none;
    [malloc] is the memory that is got for a size, with what it happens to hold. *)
Definition get_buffer (malloc : nat -> option (list Z)) (msglen : nat) (b : option (list Z)) : option (list Z) :=
  let b := match b with Some buf => if (length buf <? msglen)%nat then None else Some buf | None => None end in
  match b with Some buf => Some buf | None => malloc msglen end.

Definition letoh (hdr : list Z) (off n : nat) : Z := le_value (take n (drop off hdr)).

(** The payload in the clear and the data that the tag is taken of, with the session. *)
Definition decrypt_payload (s : seal_session) (malloc : nat -> option (list Z)) (msglen : nat) (ks : nat -> Z)
    (payload : chain) : (Z + chain * list Z) * seal_session :=
  if 65536 <? Z.of_nat msglen then
    match get_buffer malloc msglen (decrypt_buffer s) with
    | None => (inl EAUTH, set_buffer None s)
    | Some buf =>
        match copy_in 0 payload buf with
        | (false, buf1) => (inl EAUTH, set_buffer (Some buf1) s)
        | (true, buf1) =>
            let buf2 := crypt ks 0 (take msglen buf1) ++ drop msglen buf1 in
            match copy_out 0 payload buf2 with
            | None => (inl EAUTH, set_buffer (Some buf2) s)
            | Some plain => (inr (plain, take msglen buf1), set_buffer (Some buf2) s)
            end
        end
    end
  else (inr (crypt_chain ks 0 payload, concat payload), s).

(** The message in the clear, or the error; [pullup] is the error of [mbuf_pullup]. *)
Definition smb3_msg_decrypt (s : seal_session) (mb : chain) (pullup : Z) (malloc : nat -> option (list Z))
  : (Z + chain) * seal_session :=
  let s := known_cipher s in
  match decrypt_key s with
  | [] => (inl EAUTH, s)
  | k =>
      if (length (concat mb) <? SMB3_AES_TF_HDR_LEN)%nat then (inl EBADRPC, s)
      else
        let hdr := take SMB3_AES_TF_HDR_LEN (concat mb) in
        let payload := split_chain SMB3_AES_TF_HDR_LEN mb in
        if negb (pullup =? 0) then (inl EBADRPC, s)
        else if negb (bool_decide (take 4 hdr = TF_PROTO)) then (inl EBADRPC, s)
        else if negb (letoh hdr 42 2 =? 1) then (inl EAUTH, s)
        else if negb (letoh hdr 44 8 =? session_id s) then (inl EAUTH, s)
        else
          let msglen := letoh hdr 36 4 in
          if kDefaultMaxIOSize <? msglen then (inl EIO, s)
          else
            let nonce := take 16 (drop SMB3_AES_TF_NONCE_OFF hdr) in
            let cipher := encrypt_ciper s in
            match decrypt_payload s malloc (Z.to_nat msglen) (stream cipher k nonce) payload with
            | (inl e, s') => (inl e, s')
            | (inr (plain, data), s') =>
                if cc_cmp_safe SMB3_AES_TF_SIG_LEN (tag cipher k nonce (auth_data hdr) msglen data)
                     (take SMB3_AES_TF_SIG_LEN (drop SMB3_AES_TF_SIG_OFF hdr)) =? 0
                then (inr plain, s') else (inl EAUTH, s')
            end
  end.
End Seal.
