(* ===== verification/SealTheorems.v ===== *)
(** * Encryption: theorems *)
From S2P Require Import Prelude Sign Seal.
Import Errno.
Local Open Scope Z_scope.

(** ** The key stream *)

Section Streams.
Context (ks : nat -> Z).

Lemma length_crypt pos data : length (crypt ks pos data) = length data.
Proof. apply length_imap. Qed.

Lemma crypt_app pos a b : crypt ks pos (a ++ b) = crypt ks pos a ++ crypt ks (pos + length a) b.
Proof.
  unfold crypt. rewrite imap_app. f_equal. apply imap_ext. intros i x _. cbn. do 2 f_equal. lia.
Qed.

Lemma crypt_twice pos data : crypt ks pos (crypt ks pos data) = data.
Proof.
  apply list_eq. intros i. unfold crypt. rewrite !list_lookup_imap. destruct (data !! i); cbn; [|done].
  by rewrite Z.lxor_assoc, Z.lxor_nilpotent, Z.lxor_0_r.
Qed.

Lemma crypt_chain_concat pos c : concat (crypt_chain ks pos c) = crypt ks pos (concat c).
Proof.
  revert pos. induction c as [|mb c IH]; intros pos; cbn [crypt_chain concat]; [done|]. by rewrite crypt_app, IH.
Qed.

(** Byte by byte, so that a prefix can be decrypted alone. *)
Lemma take_crypt n pos data : take n (crypt ks pos data) = crypt ks pos (take n data).
Proof.
  apply list_eq. intros i. unfold crypt. destruct (Nat.lt_ge_cases i n) as [Hi|Hi].
  - rewrite lookup_take_lt, !list_lookup_imap, lookup_take_lt by done. done.
  - rewrite list_lookup_imap, !lookup_take_ge by done. done.
Qed.
End Streams.

(** ** Chains *)

Lemma split_chain_concat n c : (n <= length (concat c))%nat -> concat (split_chain n c) = drop n (concat c).
Proof.
  revert n. induction c as [|mb c IH]; intros n Hn; cbn [split_chain concat] in *; [by rewrite drop_nil|].
  rewrite length_app in Hn. destruct (Nat.leb_spec n (length mb)) as [Hl|Hl]; cbn [concat].
  - by rewrite drop_app_le.
  - rewrite IH by lia. by rewrite drop_app_ge by lia.
Qed.

Lemma copy_in_spec n c buf : (n <= length buf)%nat ->
  if (n + length (concat c) <=? length buf)%nat then copy_in n c buf = (true, splice n (concat c) buf)
  else (copy_in n c buf).1 = false.
Proof.
  revert n buf. induction c as [|mb c IH]; intros n buf Hn; cbn [copy_in concat].
  { cbn [length]. rewrite (proj2 (Nat.leb_le _ _)) by lia. by rewrite splice_nil. }
  rewrite length_app. destruct (Nat.eqb_spec (length mb) 0) as [E|E].
  { destruct mb; [|done]. by apply IH. }
  destruct (Nat.leb_spec (n + length mb) (length buf)) as [Hl|Hl].
  - specialize (IH (n + length mb)%nat (splice n mb buf)). rewrite length_splice in IH by lia.
    specialize (IH Hl). rewrite <- Nat.add_assoc in IH. destruct (_ <=? _)%nat eqn:Ef; [|done].
    apply Nat.leb_le in Ef. rewrite IH. f_equal. apply splice_splice. lia.
  - by rewrite (proj2 (Nat.leb_gt _ _)) by lia.
Qed.

Lemma copy_out_spec n c buf : (n + length (concat c) <= length buf)%nat ->
  exists c', copy_out n c buf = Some c' /\ concat c' = take (length (concat c)) (drop n buf).
Proof.
  revert n. induction c as [|mb c IH]; intros n Hn; cbn [copy_out concat] in *; [by exists []|].
  rewrite length_app in *. destruct (Nat.eqb_spec (length mb) 0) as [E|E].
  { destruct mb; [|done]. destruct (IH n Hn) as (c' & -> & E'). by eexists. }
  rewrite (proj2 (Nat.leb_le _ _)) by lia. destruct (IH (n + length mb)%nat) as (c' & -> & E'); [lia|].
  eexists. split; [done|]. cbn [concat]. rewrite E'. rewrite <- drop_drop.
  rewrite <- (take_drop (length mb) (take (length mb + length (concat c)) (drop n buf))).
  rewrite take_take, Nat.min_l by lia. f_equal. rewrite skipn_firstn_comm. f_equal. lia.
Qed.

Lemma splice_0 {A} (xs l : list A) : splice 0 xs l = xs ++ drop (length xs) l.
Proof. done. Qed.

(** ** The transform header *)

Section Header.
Context (sig nonce : list Z) (msglen sessid : Z) (Hs : length sig = 16%nat) (Hn : length nonce = 16%nat).

Lemma length_header : length (tf_header sig nonce msglen sessid) = 52%nat.
Proof. unfold tf_header. rewrite !length_app, Hs, Hn, !length_le_bytes. done. Qed.

Lemma header_field (pre mid post : list Z) : tf_header sig nonce msglen sessid = pre ++ mid ++ post ->
  take (length mid) (drop (length pre) (tf_header sig nonce msglen sessid)) = mid.
Proof. intros ->. by rewrite drop_app_length, take_app_length. Qed.

Lemma header_fields : 0 <= msglen < 2 ^ 32 -> 0 <= sessid < 2 ^ 64 ->
  let h := tf_header sig nonce msglen sessid in
  take 4 h = TF_PROTO /\ letoh h 42 2 = 1 /\ letoh h 44 8 = sessid /\ letoh h 36 4 = msglen /\
  take 16 (drop SMB3_AES_TF_NONCE_OFF h) = nonce /\ take SMB3_AES_TF_SIG_LEN (drop SMB3_AES_TF_SIG_OFF h) = sig.
Proof.
  intros Hm Hid h. assert (Eh : h = tf_header sig nonce msglen sessid) by done. clearbody h.
  pose proof (header_field TF_PROTO sig (nonce ++ le_bytes 4 msglen ++ [0; 0] ++ le_bytes 2 1 ++ le_bytes 8 sessid) eq_refl) as Fs.
  pose proof (header_field (TF_PROTO ++ sig) nonce (le_bytes 4 msglen ++ [0; 0] ++ le_bytes 2 1 ++ le_bytes 8 sessid)) as Fn.
  pose proof (header_field (TF_PROTO ++ sig ++ nonce) (le_bytes 4 msglen) ([0; 0] ++ le_bytes 2 1 ++ le_bytes 8 sessid)) as Fm.
  pose proof (header_field (TF_PROTO ++ sig ++ nonce ++ le_bytes 4 msglen ++ [0; 0]) (le_bytes 2 1) (le_bytes 8 sessid)) as Fa.
  pose proof (header_field (TF_PROTO ++ sig ++ nonce ++ le_bytes 4 msglen ++ [0; 0] ++ le_bytes 2 1) (le_bytes 8 sessid) []) as Fi.
  rewrite ?length_app, ?length_le_bytes, ?Hs, ?Hn in *. unfold letoh, SMB3_AES_TF_NONCE_OFF, SMB3_AES_TF_SIG_LEN, SMB3_AES_TF_SIG_OFF. rewrite <- Eh in *.
  cbn [length TF_PROTO Nat.add] in *.
  rewrite Fm, Fa, Fi by (rewrite Eh; unfold tf_header; by rewrite <- ?app_assoc, ?app_nil_r).
  rewrite Fn by (rewrite Eh; unfold tf_header; by rewrite <- ?app_assoc).
  rewrite !le_value_bytes. split_and!; try done; [by rewrite Eh|apply Z.mod_small; lia..].
Qed.

(** The signature is not part of the authenticated data. *)
Lemma header_auth sig' : length sig' = 16%nat ->
  auth_data (tf_header sig nonce msglen sessid) = auth_data (tf_header sig' nonce msglen sessid).
Proof.
  intros Hs'. unfold auth_data, tf_header, SMB3_AES_AUTHDATA_OFF. f_equal.
  rewrite !(app_assoc TF_PROTO), !drop_app_length' by (rewrite length_app; cbn; lia). done.
Qed.
End Header.

Lemma length_nonce_field s : length (nonce_field s) = 16%nat.
Proof.
  unfold nonce_field. rewrite length_app, length_take, length_replicate, length_app, !length_le_bytes.
  destruct (is_gcm _); unfold SMB3_GCM_NONCE_LEN, SMB3_CCM_NONCE_LEN; lia.
Qed.

(** ** Decryption *)

Section Open.
Context `{Aead}.

(** Memory has the size that was asked for. *)
Definition malloc_sized (malloc : nat -> option (list Z)) : Prop := forall n b, malloc n = Some b -> length b = n.

Lemma get_buffer_len malloc n b buf : malloc_sized malloc -> get_buffer malloc n b = Some buf -> (n <= length buf)%nat.
Proof.
  intros Hm. unfold get_buffer. destruct b as [b|].
  - destruct (Nat.ltb_spec (length b) n); [intros E; apply Hm in E; lia|]. by intros [= <-].
  - intros E. apply Hm in E. lia.
Qed.

(** What the buffer holds after the payload has been copied. *)
Definition buffered (payload buf : list Z) : list Z := payload ++ drop (length payload) buf.

Lemma decrypt_large s malloc n ks payload buf :
  65536 < Z.of_nat n -> get_buffer malloc n (decrypt_buffer s) = Some buf -> (n <= length buf)%nat ->
  (length (concat payload) <= length buf)%nat ->
  exists plain s', decrypt_payload s malloc n ks payload = (inr (plain, take n (buffered (concat payload) buf)), s') /\
    concat plain = take (length (concat payload))
                     (crypt ks 0 (take n (buffered (concat payload) buf)) ++ drop n (buffered (concat payload) buf)).
Proof.
  intros Hn Hb Hl Hp. unfold decrypt_payload. rewrite (proj2 (Z.ltb_lt _ _)), Hb by done.
  pose proof (copy_in_spec 0 payload buf) as HC. rewrite (proj2 (Nat.leb_le _ _)) in HC by lia.
  rewrite HC, splice_0 by lia. fold (buffered (concat payload) buf).
  destruct (copy_out_spec 0 payload (crypt ks 0 (take n (buffered (concat payload) buf)) ++ drop n (buffered (concat payload) buf)))
    as (plain & -> & E).
  - rewrite length_app, length_crypt, length_take, length_drop. unfold buffered. rewrite length_app, length_drop. lia.
  - rewrite drop_0 in E. by eexists _, _.
Qed.

Lemma decrypt_large_short s malloc n ks payload :
  65536 < Z.of_nat n -> malloc_sized malloc ->
  match decrypt_payload s malloc n ks payload with
  | (inr (plain, data), _) => exists buf, get_buffer malloc n (decrypt_buffer s) = Some buf /\
      (n <= length buf)%nat /\ (length (concat payload) <= length buf)%nat /\ data = take n (buffered (concat payload) buf) /\
      concat plain = take (length (concat payload)) (crypt ks 0 data ++ drop n (buffered (concat payload) buf))
  | _ => True
  end.
Proof.
  intros Hn Hm. destruct (get_buffer malloc n (decrypt_buffer s)) as [buf|] eqn:Hb.
  - pose proof (get_buffer_len _ _ _ _ Hm Hb) as Hl.
    destruct (Nat.le_gt_cases (length (concat payload)) (length buf)) as [Hp|Hp].
    + destruct (decrypt_large s malloc n ks payload buf Hn Hb Hl Hp) as (plain & s' & -> & E). by exists buf.
    + unfold decrypt_payload. rewrite (proj2 (Z.ltb_lt _ _)), Hb by done.
      pose proof (copy_in_spec 0 payload buf) as HC. rewrite (proj2 (Nat.leb_gt _ _)) in HC by lia.
      destruct (copy_in 0 payload buf) as [[|] buf1]; [|done]. cbn in HC. specialize (HC ltac:(lia)). done.
  - unfold decrypt_payload. by rewrite (proj2 (Z.ltb_lt _ _)), Hb by done.
Qed.

(** A payload of the announced length is decrypted and authenticated as a whole. *)
Lemma decrypt_exact s malloc n ks payload : length (concat payload) = n -> malloc_sized malloc ->
  match decrypt_payload s malloc n ks payload with
  | (inr (plain, data), _) => data = concat payload /\ concat plain = crypt ks 0 (concat payload)
  | _ => True
  end.
Proof.
  intros Hp Hm. destruct (Z.ltb_spec 65536 (Z.of_nat n)) as [Hn|Hn].
  - pose proof (decrypt_large_short s malloc n ks payload Hn Hm) as HD.
    destruct (decrypt_payload s malloc n ks payload) as [[e|[plain data]] s']; [done|].
    destruct HD as (buf & _ & _ & _ & Hd & ->). unfold buffered in Hd. rewrite <- Hp, take_app_length in Hd.
    split; [done|]. rewrite Hd. apply take_app_length'. by rewrite length_crypt.
  - unfold decrypt_payload. rewrite (proj2 (Z.ltb_ge _ _)) by done. by rewrite crypt_chain_concat.
Qed.

(** The parts of a wire message. *)
Definition hdr_of (wire : chain) : list Z := take SMB3_AES_TF_HDR_LEN (concat wire).
Definition body_of (wire : chain) : list Z := drop SMB3_AES_TF_HDR_LEN (concat wire).
Definition nonce_of (wire : chain) : list Z := take 16 (drop SMB3_AES_TF_NONCE_OFF (hdr_of wire)).
Definition sig_of (wire : chain) : list Z := take SMB3_AES_TF_SIG_LEN (drop SMB3_AES_TF_SIG_OFF (hdr_of wire)).
Definition msglen_of (wire : chain) : Z := letoh (hdr_of wire) 36 4.

(** The checks before the payload is looked at. *)
Definition hdr_ok (s : seal_session) (wire : chain) : Prop :=
  decrypt_key s <> [] /\ (SMB3_AES_TF_HDR_LEN <= length (concat wire))%nat /\ take 4 (hdr_of wire) = TF_PROTO /\
  letoh (hdr_of wire) 42 2 = 1 /\ letoh (hdr_of wire) 44 8 = session_id s /\ msglen_of wire <= kDefaultMaxIOSize.

Definition cipher_of (s : seal_session) : Z := encrypt_ciper (known_cipher s).

Lemma known_cipher_keeps s :
  decrypt_key (known_cipher s) = decrypt_key s /\ session_id (known_cipher s) = session_id s /\
  decrypt_buffer (known_cipher s) = decrypt_buffer s /\ encrypt_key (known_cipher s) = encrypt_key s.
Proof. unfold known_cipher. by destruct (_ || _). Qed.

Lemma msg_decrypt_eq s wire malloc :
  hdr_ok s wire ->
  smb3_msg_decrypt s wire 0 malloc =
  match decrypt_payload (known_cipher s) malloc (Z.to_nat (msglen_of wire))
          (stream (cipher_of s) (decrypt_key s) (nonce_of wire)) (split_chain SMB3_AES_TF_HDR_LEN wire) with
  | (inl e, s') => (inl e, s')
  | (inr (plain, data), s') =>
      if cc_cmp_safe SMB3_AES_TF_SIG_LEN
           (tag (cipher_of s) (decrypt_key s) (nonce_of wire) (auth_data (hdr_of wire)) (msglen_of wire) data)
           (sig_of wire) =? 0
      then (inr plain, s') else (inl EAUTH, s')
  end.
Proof.
  intros (Hk & Hl & Hp & Ha & Hi & Hm). destruct (known_cipher_keeps s) as (K1 & K2 & _ & _).
  unfold smb3_msg_decrypt. rewrite K1, K2. destruct (decrypt_key s) as [|k0 kk]; [done|].
  rewrite (proj2 (Nat.ltb_ge _ _)) by done. fold (hdr_of wire). cbn [negb Z.eqb].
  rewrite Hp, Ha, Hi, bool_decide_eq_true_2, (Z.eqb_refl (session_id s)) by done. fold (msglen_of wire). cbn [negb Z.eqb Pos.eqb].
  by rewrite (proj2 (Z.ltb_ge _ _)) by done.
Qed.

Lemma msg_decrypt_hdr s wire malloc plain s' : smb3_msg_decrypt s wire 0 malloc = (inr plain, s') -> hdr_ok s wire.
Proof.
  destruct (known_cipher_keeps s) as (K1 & K2 & _ & _). unfold smb3_msg_decrypt, hdr_ok. rewrite K1, K2.
  destruct (decrypt_key s) as [|k0 kk]; [done|].
  destruct (Nat.ltb_spec (length (concat wire)) SMB3_AES_TF_HDR_LEN) as [|Hl]; [done|]. fold (hdr_of wire). cbn [negb Z.eqb].
  case_bool_decide as Hp; cbn [negb]; [|done].
  destruct (Z.eqb_spec (letoh (hdr_of wire) 42 2) 1); cbn [negb]; [|done].
  destruct (Z.eqb_spec (letoh (hdr_of wire) 44 8) (session_id s)); cbn [negb]; [|done]. fold (msglen_of wire).
  destruct (Z.ltb_spec kDefaultMaxIOSize (msglen_of wire)); [done|]. intros _. by split_and!.
Qed.

Lemma payload_bytes wire : (SMB3_AES_TF_HDR_LEN <= length (concat wire))%nat ->
  concat (split_chain SMB3_AES_TF_HDR_LEN wire) = body_of wire.
Proof. apply split_chain_concat. Qed.

(** What the tag of a message is taken of: a small message is authenticated as it is; a
    large one is copied over what the buffer of the session held, and the announced length
    of that is authenticated. *)
Definition tagged (wire : chain) (stale : list Z) : list Z :=
  if 65536 <? msglen_of wire then take (Z.to_nat (msglen_of wire)) (body_of wire ++ stale) else body_of wire.

(** What is handed on: bytes of a large message past the announced length as they came. *)
Definition opened (ks : nat -> Z) (wire : chain) : list Z :=
  if 65536 <? msglen_of wire
  then crypt ks 0 (take (Z.to_nat (msglen_of wire)) (body_of wire)) ++ drop (Z.to_nat (msglen_of wire)) (body_of wire)
  else crypt ks 0 (body_of wire).

Lemma opened_exact ks wire stale : 0 <= msglen_of wire -> Z.of_nat (length (body_of wire)) = msglen_of wire ->
  tagged wire stale = body_of wire /\ opened ks wire = crypt ks 0 (body_of wire).
Proof.
  intros H0 Hl. unfold tagged, opened. replace (Z.to_nat (msglen_of wire)) with (length (body_of wire)) by lia.
  rewrite take_app_length, firstn_all, drop_all, app_nil_r. by destruct (_ <? _).
Qed.

Lemma decrypt_any s malloc wire ks (n := msglen_of wire) :
  0 <= n -> (SMB3_AES_TF_HDR_LEN <= length (concat wire))%nat -> malloc_sized malloc ->
  match decrypt_payload s malloc (Z.to_nat n) ks (split_chain SMB3_AES_TF_HDR_LEN wire) with
  | (inr (plain, data), _) => exists stale, data = tagged wire stale /\ concat plain = opened ks wire /\
      (65536 < n -> (Z.to_nat n <= length (body_of wire ++ stale))%nat)
  | _ => True
  end.
Proof.
  intros H0 Hl Hm. unfold tagged, opened. fold n. pose proof (payload_bytes wire Hl) as Hpb. destruct (Z.ltb_spec 65536 n) as [Hn|Hn].
  - pose proof (decrypt_large_short s malloc (Z.to_nat n) ks (split_chain SMB3_AES_TF_HDR_LEN wire) ltac:(lia) Hm) as HD.
    destruct (decrypt_payload _ _ _ _ _) as [[e|[plain data]] s']; [done|]. rewrite Hpb in HD.
    destruct HD as (buf & _ & Hb1 & Hb2 & -> & ->). unfold buffered. exists (drop (length (body_of wire)) buf).
    split; [done|]. split; [|intros _; rewrite length_app, length_drop; lia].
    set (body := body_of wire) in *. set (k := Z.to_nat n) in *.
    assert (Hk : (k <= length (body ++ drop (length body) buf))%nat) by (rewrite length_app, length_drop; lia).
    destruct (Nat.le_gt_cases k (length body)) as [Hc|Hc].
    + rewrite (take_app_le body), (drop_app_le body) by lia.
      rewrite take_app_ge by (rewrite length_crypt, length_take; lia). f_equal.
      rewrite length_crypt, length_take, Nat.min_l by lia. rewrite take_app_le by (rewrite length_drop; lia).
      apply take_ge. rewrite length_drop. lia.
    + rewrite take_app_le by (rewrite length_crypt, length_take; lia).
      rewrite take_crypt, take_take, Nat.min_l, take_app_length by lia.
      by rewrite (take_ge body k), (drop_ge body k), app_nil_r by lia.
  - unfold decrypt_payload. rewrite (proj2 (Z.ltb_ge _ _)) by lia. exists []. rewrite crypt_chain_concat, Hpb.
    split_and!; [done|done|lia].
Qed.

Lemma open_parts s wire malloc plain s' (ks := stream (cipher_of s) (decrypt_key s) (nonce_of wire)) :
  smb3_msg_decrypt s wire 0 malloc = (inr plain, s') -> malloc_sized malloc -> Forall is_byte (concat wire) ->
  hdr_ok s wire /\ concat plain = opened ks wire /\
  exists stale, (65536 < msglen_of wire -> (Z.to_nat (msglen_of wire) <= length (body_of wire ++ stale))%nat) /\
   take SMB3_AES_TF_SIG_LEN (tag (cipher_of s) (decrypt_key s) (nonce_of wire) (auth_data (hdr_of wire))
     (msglen_of wire) (tagged wire stale)) = sig_of wire.
Proof.
  intros E Hm Hby. pose proof (msg_decrypt_hdr _ _ _ _ _ E) as Hok. split; [done|].
  rewrite (msg_decrypt_eq _ _ _ Hok) in E. fold ks in E.
  assert (H0 : 0 <= msglen_of wire).
  { apply le_value_bound. by apply list.Forall_take, list.Forall_drop, list.Forall_take. }
  pose proof (decrypt_any (known_cipher s) malloc wire ks H0 ltac:(by destruct Hok as (_ & ? & _)) Hm) as HD.
  destruct (decrypt_payload _ _ _ _ _) as [[e|[pl data]] s2]; [done|]. destruct HD as (stale & -> & HP & HL).
  destruct (Z.eqb_spec (cc_cmp_safe SMB3_AES_TF_SIG_LEN (tag (cipher_of s) (decrypt_key s) (nonce_of wire)
    (auth_data (hdr_of wire)) (msglen_of wire) (tagged wire stale)) (sig_of wire)) 0) as [EC|]; [|done].
  injection E as <- <-. split; [done|]. exists stale. split; [done|]. unfold cc_cmp_safe in EC. case_bool_decide as EB; [|done].
  rewrite EB. unfold sig_of. rewrite take_take. f_equal.
Qed.

(** C7: a message that is accepted has the ID of the session and the flag in its header.
    If its length is the announced one, its tag is that of the header and of all of the
    encrypted bytes, and what is handed on is their decryption, whatever the mbufs and
    whatever the buffer held before.  Otherwise a message of an announced length of at most
    64 KB is authenticated and decrypted whole, and of a longer one the announced number
    of bytes: bytes past it are handed on as they came, and where bytes are missing the tag
    is taken over what the buffer held. *)
Theorem opened_message_authentic s wire malloc plain s' (ks := stream (cipher_of s) (decrypt_key s) (nonce_of wire)) :
  smb3_msg_decrypt s wire 0 malloc = (inr plain, s') -> malloc_sized malloc -> Forall is_byte (concat wire) ->
  (decrypt_key s <> [] /\ take 4 (concat wire) = TF_PROTO /\ letoh (concat wire) 42 2 = 1 /\
   letoh (concat wire) 44 8 = session_id s /\ msglen_of wire <= kDefaultMaxIOSize) /\
  exists stale data out,
    take SMB3_AES_TF_SIG_LEN (tag (cipher_of s) (decrypt_key s) (nonce_of wire) (auth_data (hdr_of wire))
      (msglen_of wire) data) = sig_of wire /\ concat plain = out /\
    (Z.of_nat (length (body_of wire)) = msglen_of wire -> data = body_of wire /\ out = crypt ks 0 (body_of wire)) /\
    (msglen_of wire <= 65536 -> data = body_of wire /\ out = crypt ks 0 (body_of wire)) /\
    (65536 < msglen_of wire -> let n := Z.to_nat (msglen_of wire) in
       data = take n (body_of wire ++ stale) /\ length data = n /\
       out = crypt ks 0 (take n (body_of wire)) ++ drop n (body_of wire)).
Proof.
  intros E Hm Hby. destruct (open_parts s wire malloc plain s' E Hm Hby) as (Hok & HP & stale & HL & HT).
  assert (H0 : 0 <= msglen_of wire).
  { apply le_value_bound. by apply list.Forall_take, list.Forall_drop, list.Forall_take. }
  destruct Hok as (H1 & H2 & H3 & H4 & H5 & H6). unfold hdr_of, letoh in H3, H4, H5. split.
  { rewrite take_take, Nat.min_l in H3 by (unfold SMB3_AES_TF_HDR_LEN; lia).
    rewrite skipn_firstn_comm, take_take, Nat.min_l in H4, H5 by (unfold SMB3_AES_TF_HDR_LEN; lia). by split_and!. }
  exists stale, (tagged wire stale), (opened ks wire). split; [done|]. split; [done|].
  split; [intros Hx; by apply opened_exact|]. unfold tagged, opened. split; intros Hn.
  - by rewrite (proj2 (Z.ltb_ge _ _)) by done.
  - rewrite (proj2 (Z.ltb_lt _ _)) by done. split; [done|]. split; [|done]. rewrite length_take. specialize (HL Hn). lia.
Qed.

Lemma opened_message_aux s wire malloc plain s' :
  smb3_msg_decrypt s wire 0 malloc = (inr plain, s') -> malloc_sized malloc ->
  Z.of_nat (length (body_of wire)) = msglen_of wire ->
  take SMB3_AES_TF_SIG_LEN (tag (cipher_of s) (decrypt_key s) (nonce_of wire) (auth_data (hdr_of wire))
     (msglen_of wire) (body_of wire)) = sig_of wire /\
  concat plain = crypt (stream (cipher_of s) (decrypt_key s) (nonce_of wire)) 0 (body_of wire).
Proof.
  intros E Hm Hl. pose proof (msg_decrypt_hdr _ _ _ _ _ E) as Hok. rewrite (msg_decrypt_eq _ _ _ Hok) in E.
  set (ks := stream _ _ _) in *.
  pose proof (decrypt_any (known_cipher s) malloc wire ks ltac:(lia) ltac:(by destruct Hok as (_ & ? & _)) Hm) as HD.
  destruct (decrypt_payload _ _ _ _ _) as [[e|[pl data]] s2]; [done|]. destruct HD as (stale & -> & HP & _).
  destruct (opened_exact ks wire stale ltac:(lia) Hl) as [Et Eo]. rewrite Et in E. rewrite Eo in HP.
  destruct (Z.eqb_spec (cc_cmp_safe SMB3_AES_TF_SIG_LEN (tag (cipher_of s) (decrypt_key s) (nonce_of wire)
    (auth_data (hdr_of wire)) (msglen_of wire) (body_of wire)) (sig_of wire)) 0) as [EC|]; [|done].
  injection E as <- <-. split; [|done]. unfold cc_cmp_safe in EC. case_bool_decide as EB; [|done].
  rewrite EB. unfold sig_of. rewrite take_take. f_equal.
Qed.

(** Bytes that follow a message of more than 64 KB are neither decrypted nor
    authenticated, but handed on with it, as long as the session has a buffer for them from
    an earlier, longer message. *)
Theorem trailing_bytes_accepted s wire wire' xs malloc plain s' buf :
  smb3_msg_decrypt s wire 0 malloc = (inr plain, s') -> malloc_sized malloc ->
  65536 < msglen_of wire -> Z.of_nat (length (body_of wire)) = msglen_of wire ->
  decrypt_buffer s = Some buf -> msglen_of wire + Z.of_nat (length xs) <= Z.of_nat (length buf) ->
  concat wire' = concat wire ++ xs ->
  exists plain' s2, smb3_msg_decrypt s wire' 0 malloc = (inr plain', s2) /\ concat plain' = concat plain ++ xs.
Proof.
  intros E Hm Hbig Hlen Hbuf Hfit Hw. pose proof (msg_decrypt_hdr _ _ _ _ _ E) as Hok.
  destruct (opened_message_aux s wire malloc plain s' E Hm Hlen) as [Htag Hplain].
  destruct Hok as (H1 & Hl & H3 & H4 & H5 & H6).
  assert (Eh : hdr_of wire' = hdr_of wire) by (unfold hdr_of; rewrite Hw; by apply take_app_le).
  assert (Eb : body_of wire' = body_of wire ++ xs) by (unfold body_of; rewrite Hw; by apply drop_app_le).
  assert (En : nonce_of wire' = nonce_of wire) by (unfold nonce_of; by rewrite Eh).
  assert (Em : msglen_of wire' = msglen_of wire) by (unfold msglen_of; by rewrite Eh).
  assert (Es : sig_of wire' = sig_of wire) by (unfold sig_of; by rewrite Eh).
  rewrite msg_decrypt_eq by (unfold hdr_ok; rewrite Eh, Em, Hw, length_app; split_and!; done || lia).
  rewrite Eh, En, Em, Es. set (ks := stream _ _ _) in *.
  assert (Hl' : (SMB3_AES_TF_HDR_LEN <= length (concat wire'))%nat) by (rewrite Hw, length_app; lia).
  destruct (known_cipher_keeps s) as (_ & _ & K3 & _).
  destruct (decrypt_large (known_cipher s) malloc (Z.to_nat (msglen_of wire)) ks (split_chain SMB3_AES_TF_HDR_LEN wire') buf)
    as (pl & s2 & -> & Epl).
  { lia. } { unfold get_buffer. rewrite K3, Hbuf. by rewrite (proj2 (Nat.ltb_ge _ _)) by lia. } { lia. }
  { rewrite payload_bytes, Eb, length_app by done. lia. }
  rewrite payload_bytes, Eb in * by done. unfold buffered in *. rewrite <- !app_assoc in *.
  replace (Z.to_nat (msglen_of wire)) with (length (body_of wire)) in * by lia.
  rewrite take_app_length, drop_app_length in *.
  assert (cc_cmp_safe SMB3_AES_TF_SIG_LEN (tag (cipher_of s) (decrypt_key s) (nonce_of wire) (auth_data (hdr_of wire))
    (msglen_of wire) (body_of wire)) (sig_of wire) = 0) as ->.
  { unfold cc_cmp_safe. rewrite Htag. unfold sig_of. rewrite take_take. by rewrite bool_decide_eq_true_2. }
  cbn [Z.eqb]. eexists _, _. split; [done|]. rewrite Epl, Hplain.
  rewrite length_app, take_app_ge by (rewrite length_crypt; lia). f_equal.
  rewrite length_crypt. replace (_ + _ - _)%nat with (length xs) by lia. apply take_app_length.
Qed.
End Open.

(** ** What is sealed can be opened *)

Section Round.
Context `{Aead}.

(** Tags have 16 bytes. *)
Class AeadLaws : Prop := {
  gcm_tag_length : forall k n a d, length (gcm_tag k n a d) = 16%nat;
  ccm_tag_length : forall k n a l d, length (ccm_tag k n a l d) = 16%nat
}.
Context `{!AeadLaws}.

Lemma tag_length c k n a l d : length (tag c k n a l d) = 16%nat.
Proof. unfold tag. destruct (is_gcm c); [apply gcm_tag_length|apply ccm_tag_length]. Qed.

(** The message of a request and the chain it goes out in. *)
Definition message_of (r : seal_rq) : list Z := concat (detach r).1.1.
Definition wire_of (r r' : seal_rq) : chain := if (detach r).2 then er_compressed r' else er_chain r'.

Lemma nonce_keeps s : encrypt_ciper (next_nonce s) = encrypt_ciper s /\ encrypt_key (next_nonce s) = encrypt_key s.
Proof. unfold next_nonce. by destruct (_ =? 0). Qed.

Lemma detach_sessionid r : er_sessionid (detach r).1.2 = er_sessionid r.
Proof. unfold detach. by repeat case_match. Qed.

Lemma encrypt_wire s r s' r' : smb3_rq_encrypt s r 0 = (0, s', r') ->
  encrypt_key s <> [] /\ Z.of_nat (length (message_of r)) < 2 ^ 32 /\
  exists nonce, length nonce = 16%nat /\
  let len := Z.of_nat (length (message_of r)) in
  let auth := auth_data (tf_header (replicate SMB3_AES_TF_SIG_LEN 0) nonce len (er_sessionid r)) in
  let data := crypt (stream (cipher_of s) (encrypt_key s) nonce) 0 (message_of r) in
  concat (wire_of r r') = tf_header (take SMB3_AES_TF_SIG_LEN (tag (cipher_of s) (encrypt_key s) nonce auth len data))
                            nonce len (er_sessionid r) ++ data.
Proof.
  unfold smb3_rq_encrypt, wire_of, message_of. pose proof (detach_sessionid r) as Hid.
  destruct (detach r) as [[mb r1] compressed]. cbn [fst snd] in *.
  destruct (known_cipher_keeps s) as (_ & _ & _ & K4). rewrite K4.
  destruct (encrypt_key s) as [|k0 kk]; [done|]. cbn [negb Z.eqb].
  destruct (nonce_keeps (known_cipher s)) as [N1 _]. rewrite N1. fold (cipher_of s).
  destruct (Z.ltb_spec 0xffffffff (Z.of_nat (length (concat mb)))) as [|Hl]; [done|].
  intros [= <- <-]. split; [done|]. split; [lia|].
  exists (nonce_field (next_nonce (known_cipher s))). split; [apply length_nonce_field|]. cbn zeta.
  rewrite Hid. rewrite <- crypt_chain_concat. by destruct compressed.
Qed.

Lemma sealed_opens s r s' r' p wire malloc :
  smb3_rq_encrypt s r 0 = (0, s', r') ->
  decrypt_key p = encrypt_key s -> cipher_of p = cipher_of s -> session_id p = er_sessionid r ->
  0 <= er_sessionid r < 2 ^ 64 -> Z.of_nat (length (message_of r)) <= kDefaultMaxIOSize ->
  malloc_sized malloc -> (forall n, malloc n <> None) -> concat wire = concat (wire_of r r') ->
  exists plain p', smb3_msg_decrypt p wire 0 malloc = (inr plain, p') /\ concat plain = message_of r.
Proof.
  intros E Hk Hc Hi Hid Hmax Hm Hmn Hw.
  destruct (encrypt_wire s r s' r' E) as (Hkey & Hlen & nonce & Hn & HB). cbn zeta in HB. rewrite <- Hw in HB.
  set (len := Z.of_nat (length (message_of r))) in *. set (ks := stream (cipher_of s) (encrypt_key s) nonce) in *.
  set (data := crypt ks 0 (message_of r)) in *. set (sg := take _ _) in HB.
  assert (Hs : length sg = 16%nat) by (unfold sg; by rewrite length_take, tag_length).
  destruct (header_fields sg nonce len (er_sessionid r) Hs Hn) as (F1 & F2 & F3 & F4 & F5 & F6); [lia|done|].
  pose proof (length_header sg nonce len (er_sessionid r) Hs Hn) as HL.
  assert (Eh : hdr_of wire = tf_header sg nonce len (er_sessionid r)).
  { unfold hdr_of. rewrite HB. apply take_app_length'. by rewrite HL. }
  assert (Eb : body_of wire = data) by (unfold body_of; rewrite HB; apply drop_app_length'; by rewrite HL).
  assert (En : nonce_of wire = nonce) by (unfold nonce_of; by rewrite Eh).
  assert (Em : msglen_of wire = len) by (unfold msglen_of; by rewrite Eh).
  assert (Es : sig_of wire = sg) by (unfold sig_of; by rewrite Eh).
  assert (Hl : (SMB3_AES_TF_HDR_LEN <= length (concat wire))%nat).
  { rewrite HB, length_app, HL. unfold SMB3_AES_TF_HDR_LEN. lia. }
  rewrite msg_decrypt_eq by (unfold hdr_ok; rewrite Eh, Em, Hi, Hk; split_and!; done).
  rewrite Eh, En, Em, Es, Hk, Hc. fold ks.
  assert (Hbl : length (concat (split_chain SMB3_AES_TF_HDR_LEN wire)) = Z.to_nat len).
  { rewrite payload_bytes, Eb by done. unfold data. rewrite length_crypt. lia. }
  pose proof (decrypt_exact (known_cipher p) malloc (Z.to_nat len) ks _ Hbl Hm) as HD.
  assert (exists plain d p', decrypt_payload (known_cipher p) malloc (Z.to_nat len) ks
            (split_chain SMB3_AES_TF_HDR_LEN wire) = (inr (plain, d), p')) as (plain & d & p' & Ed).
  { destruct (Z.ltb_spec 65536 (Z.of_nat (Z.to_nat len))) as [Hbig|Hsmall].
    - destruct (get_buffer malloc (Z.to_nat len) (decrypt_buffer (known_cipher p))) as [buf|] eqn:Hb.
      + pose proof (get_buffer_len _ _ _ _ Hm Hb).
        destruct (decrypt_large _ _ _ ks (split_chain SMB3_AES_TF_HDR_LEN wire) buf Hbig Hb) as (pl & p2 & -> & _); [lia..|].
        by eexists _, _, _.
      + exfalso. unfold get_buffer in Hb. specialize (Hmn (Z.to_nat len)). by repeat case_match.
    - unfold decrypt_payload. rewrite (proj2 (Z.ltb_ge _ _)) by done. by eexists _, _, _. }
  rewrite Ed in HD |- *. rewrite payload_bytes, Eb in HD by done. destruct HD as [-> HP].
  assert (cc_cmp_safe SMB3_AES_TF_SIG_LEN (tag (cipher_of s) (encrypt_key s) nonce
    (auth_data (tf_header sg nonce len (er_sessionid r))) len data) sg = 0) as ->.
  { unfold cc_cmp_safe. rewrite (header_auth sg nonce len (er_sessionid r) Hs Hn (replicate SMB3_AES_TF_SIG_LEN 0)) by done.
    rewrite bool_decide_eq_true_2; [done|]. unfold sg. by rewrite take_take. }
  eexists _, _. split; [done|]. rewrite HP. unfold data. apply crypt_twice.
Qed.

(** What a client encrypts, a peer with the same key, cipher and session ID decrypts to
    the same message, however it is cut into mbufs on the way and whatever its buffer holds. *)
Theorem sealed_message_opens s r s' r' p wire malloc :
  smb3_rq_encrypt s r 0 = (0, s', r') ->
  decrypt_key p = encrypt_key s -> cipher_of p = cipher_of s -> session_id p = er_sessionid r ->
  0 <= er_sessionid r < 2 ^ 64 -> Z.of_nat (length (message_of r)) <= kDefaultMaxIOSize ->
  malloc_sized malloc -> (forall n, malloc n <> None) -> concat wire = concat (wire_of r r') ->
  exists plain p', smb3_msg_decrypt p wire 0 malloc = (inr plain, p') /\ concat plain = message_of r.
Proof. apply sealed_opens. Qed.
End Round.

(** ** Nonces *)

Section Nonces.

Lemma take_le_bytes m k x : take m (le_bytes (m + k) x) = le_bytes m x.
Proof. revert x. induction m as [|m IH]; intros x; cbn; [done|]. by rewrite IH. Qed.

Lemma le_bytes_eq n x y : le_bytes n x = le_bytes n y <-> x `mod` 256 ^ Z.of_nat n = y `mod` 256 ^ Z.of_nat n.
Proof.
  split; [intros E; rewrite <- !le_value_bytes; by rewrite E|].
  revert x y. induction n as [|n IH]; intros x y E; cbn [le_bytes]; [done|].
  rewrite Nat2Z.inj_succ, Z.pow_succ_r in E by lia.
  rewrite !(Z.rem_mul_r _ 256) in E by lia.
  pose proof (Z.mod_pos_bound x 256 ltac:(lia)). pose proof (Z.mod_pos_bound y 256 ltac:(lia)).
  set (a := (x / 256) mod 256 ^ Z.of_nat n) in *. set (b := (y / 256) mod 256 ^ Z.of_nat n) in *.
  assert (x mod 256 = y mod 256) as -> by lia. f_equal. apply IH. fold a b. lia.
Qed.

(** The bytes of the counter that the nonce has room for, after 8 of the high half. *)
Definition counter_bytes (cipher : Z) : nat := if is_gcm cipher then 4 else 3.

(** What the cipher is given for the nonce of the session. *)
Definition current_iv (s : seal_session) : list Z := iv_of (encrypt_ciper s) (nonce_field s).

Lemma current_iv_eq s :
  current_iv s = le_bytes 8 (nonce_high s) ++ le_bytes (counter_bytes (encrypt_ciper s)) (nonce_low s).
Proof.
  unfold current_iv, iv_of, nonce_field, counter_bytes. set (k := if is_gcm (encrypt_ciper s) then SMB3_GCM_NONCE_LEN else _).
  assert (k = 8 + (if is_gcm (encrypt_ciper s) then 4 else 3))%nat as -> by (unfold k; by destruct (is_gcm _)).
  set (m := if is_gcm _ then 4%nat else 3%nat).
  assert (m <= 8)%nat by (unfold m; destruct (is_gcm _); lia). clearbody m.
  rewrite take_app_le by (rewrite length_take, length_app, !length_le_bytes; lia). rewrite take_take, Nat.min_id.
  rewrite take_app_ge by (rewrite length_le_bytes; lia). f_equal. rewrite length_le_bytes.
  replace (8 + m - 8)%nat with m by lia. replace (le_bytes 8 (nonce_low s)) with (le_bytes (m + (8 - m)) (nonce_low s)) by (f_equal; lia).
  apply take_le_bytes.
Qed.

(** The session after [n] messages. *)
Definition after (n : nat) (s : seal_session) : seal_session := Nat.iter n next_nonce s.

Lemma after_nonce n s : 0 <= nonce_low s -> nonce_low s + Z.of_nat n < 2 ^ 64 ->
  nonce_high (after n s) = nonce_high s /\ nonce_low (after n s) = nonce_low s + Z.of_nat n /\
  encrypt_ciper (after n s) = encrypt_ciper s.
Proof.
  intros H0. induction n as [|n IH]; intros Hn; [cbn; split_and!; [done|lia|done]|].
  destruct IH as (E1 & E2 & E3); [lia|]. change (after (S n) s) with (next_nonce (after n s)).
  unfold next_nonce. rewrite E2.
  rewrite u64_small by lia. rewrite (proj2 (Z.eqb_neq _ 0)) by lia. cbn. split_and!; [done|lia|done].
Qed.

Lemma iv_after n s : 0 <= nonce_low s -> nonce_low s + Z.of_nat n < 2 ^ 64 ->
  current_iv (after n s) = le_bytes 8 (nonce_high s) ++ le_bytes (counter_bytes (encrypt_ciper s)) (nonce_low s + Z.of_nat n).
Proof.
  intros H0 Hn. rewrite current_iv_eq. destruct (after_nonce n s H0 Hn) as (-> & -> & ->). done.
Qed.

(** The nonces of two messages of a session differ as long as fewer than 2^24 (CCM) or
    2^32 (GCM) messages lie between them; at exactly that distance they are the same. *)
Theorem nonces_repeat_at_period s i j :
  0 <= nonce_low s -> nonce_low s + Z.of_nat j < 2 ^ 64 -> (i < j)%nat ->
  (Z.of_nat (j - i) < 256 ^ Z.of_nat (counter_bytes (encrypt_ciper s)) ->
     current_iv (after i s) <> current_iv (after j s)) /\
  (Z.of_nat (j - i) = 256 ^ Z.of_nat (counter_bytes (encrypt_ciper s)) ->
     current_iv (after i s) = current_iv (after j s)).
Proof.
  intros H0 Hj Hij. rewrite !iv_after by lia. set (m := counter_bytes _).
  assert (0 < 256 ^ Z.of_nat m) by (apply Z.pow_pos_nonneg; lia). split; intros Hd.
  - intros E. apply app_inv_head in E. apply le_bytes_eq in E.
    set (a := nonce_low s + Z.of_nat i) in *. set (p := 256 ^ Z.of_nat m) in *.
    assert (nonce_low s + Z.of_nat j = a + Z.of_nat (j - i)) as E2 by lia. rewrite E2 in E.
    assert ((Z.of_nat (j - i)) mod p = 0) as E3.
    { replace (Z.of_nat (j - i)) with (a + Z.of_nat (j - i) - a) by lia. rewrite Zminus_mod, <- E, Z.sub_diag. done. }
    rewrite Z.mod_small in E3 by lia. lia.
  - f_equal. apply le_bytes_eq.
    replace (nonce_low s + Z.of_nat j) with (nonce_low s + Z.of_nat i + 1 * 256 ^ Z.of_nat m) by lia.
    by rewrite Z.mod_add by lia.
Qed.

(** Two channels of a session encrypt at the same time: the counter is advanced under the
    lock, but the nonce is read after it has been released. *)
Inductive nonce_step := Advance | ReadNonce.

Fixpoint run_steps (l : list nonce_step) (s : seal_session) : list (list Z) :=
  match l with
  | [] => []
  | Advance :: l' => run_steps l' (next_nonce s)
  | ReadNonce :: l' => current_iv s :: run_steps l' s
  end.

Theorem concurrent_nonces_collide s :
  exists iv, run_steps [Advance; Advance; ReadNonce; ReadNonce] s = [iv; iv].
Proof. by eexists. Qed.
End Nonces.

(** ** Witnesses *)

(** Ciphers of no strength, for the examples. *)
#[export] Instance demo_aead : Aead := {|
  gcm_stream := fun k n i => Z.of_nat i `mod` 251;
  gcm_tag := fun k n a d => le_bytes 16 (fold_left (fun x b => 31 * x + b + 1) (k ++ n ++ a ++ d) 7);
  ccm_stream := fun k n i => Z.of_nat (i + 3) `mod` 251;
  ccm_tag := fun k n a l d => le_bytes 16 (fold_left (fun x b => 31 * x + b + 1) (k ++ n ++ a ++ [l] ++ d) 5)
|}.

#[export] Instance demo_aead_laws : AeadLaws.
Proof. split; intros; apply length_le_bytes. Qed.

Definition demo_client : seal_session := SealSession SMB2_ENCRYPTION_AES_128_GCM [1; 2] [3] 5 6 true 77 None.
Definition demo_server : seal_session := SealSession SMB2_ENCRYPTION_AES_128_GCM [9] [1; 2] 5 6 true 77 None.
Definition demo_request : seal_rq := SealRq false false 8 77 [[10; 20; 30]; []; [40]] [] [].
Definition demo_sent : Z * seal_session * seal_rq := smb3_rq_encrypt demo_client demo_request 0.
Definition demo_wire : chain := [take 30 (concat (er_chain demo_sent.2)); drop 30 (concat (er_chain demo_sent.2))].
Definition demo_malloc (n : nat) : option (list Z) := Some (replicate n 0).

Lemma demo_malloc_sized : malloc_sized demo_malloc.
Proof. intros n b [= <-]. apply length_replicate. Qed.

Lemma sealed_message_opens_witness :
  exists plain p', smb3_msg_decrypt demo_server demo_wire 0 demo_malloc = (inr plain, p') /\
    concat plain = [10; 20; 30; 40].
Proof.
  apply (sealed_message_opens demo_client demo_request demo_sent.1.2 demo_sent.2 demo_server demo_wire demo_malloc).
  - vm_compute. reflexivity.
  - reflexivity.
  - reflexivity.
  - reflexivity.
  - vm_compute. split; congruence.
  - vm_compute. congruence.
  - exact demo_malloc_sized.
  - discriminate.
  - vm_compute. reflexivity.
Defined.

Lemma opened_message_authentic_witness :
  letoh (concat demo_wire) 44 8 = 77 /\
  take SMB3_AES_TF_SIG_LEN (tag (cipher_of demo_server) (decrypt_key demo_server) (nonce_of demo_wire)
     (auth_data (hdr_of demo_wire)) (msglen_of demo_wire) (body_of demo_wire)) = sig_of demo_wire.
Proof.
  destruct (opened_message_authentic demo_server demo_wire demo_malloc [[10; 20; 30; 40]] demo_server)
    as ((_ & _ & _ & Hi & _) & stale & data & out & HT & _ & HX & _).
  - vm_compute. reflexivity.
  - exact demo_malloc_sized.
  - apply (bool_decide_unpack _). by vm_compute.
  - destruct HX as [Ed _]; [by vm_compute|]. rewrite Ed in HT. split; [exact Hi|exact HT].
Defined.

Lemma nonces_repeat_at_period_witness : current_iv (after 0 demo_client) <> current_iv (after 5 demo_client).
Proof. apply (nonces_repeat_at_period demo_client 0 5); vm_compute; congruence || lia || reflexivity. Defined.
