(* ===== verification/Compress.v ===== *)
(** * Compression of writes and read replies: [kernel/netsmb/smb_crypt.c]

    [smb2_rq_compress_write] makes a compressed message of a write request,
    [smb2_rq_decompress_read] turns a compressed reply back.  A chained message is a list
    of payloads, each of which is plain, a repeated byte, or compressed; an unchained one
    compresses all that follows an offset.  The compressors of [libcompression] are the
    class [Codec].  The counters of the session and the log messages are left out; the
    debug log, which reads the SMB header apart, reads the same bytes. *)
From S2P Require Import Prelude Chain Parser.
Import Errno.
Local Open Scope Z_scope.

Definition SMB2_COMPRESSION_NONE := 0.
Definition SMB2_COMPRESSION_LZNT1 := 1.
Definition SMB2_COMPRESSION_LZ77 := 2.
Definition SMB2_COMPRESSION_LZ77_HUFFMAN := 3.
Definition SMB2_COMPRESSION_PATTERN_V1 := 4.
Definition SMB2_COMPRESSION_FLAG_NONE := 0.
Definition SMB2_COMPRESSION_FLAG_CHAINED := 1.
Definition SMB2_SIGNATURE_COMPRESSION : list Z := [0xfc; 0x53; 0x4d; 0x42].
Definition kDefaultMaxIOSize := 8388608.
Definition HDR_WRITE : nat := 112.  (* sizeof(hdr_write) *)
Definition SMB2_WRITE := 0x9.

(** [encode a data cap] and [decode a data cap] are what [compression_encode_buffer] and
    [compression_decode_buffer] leave in a buffer of [cap] bytes; nothing is a failure.
    [scratch_ok]: the scratch buffer can be had. *)
Class Codec := {
  encode : Z -> list Z -> nat -> list Z;
  decode : Z -> list Z -> nat -> list Z;
  scratch_ok : Z -> bool;
  malloc_ok : Z -> bool
}.

Section Compress.
Context `{Codec}.

Definition is_lz (algorithm : Z) : bool :=
  (algorithm =? SMB2_COMPRESSION_LZNT1) || (algorithm =? SMB2_COMPRESSION_LZ77)
  || (algorithm =? SMB2_COMPRESSION_LZ77_HUFFMAN).

(** Failing to compress is no error, failing to decompress is one. *)
Definition smb2_compress_data (algorithm : Z) (encoding : bool) (data : list Z) (cap : nat) : Z + list Z :=
  if negb (is_lz algorithm) then inl EINVAL
  else if negb (scratch_ok algorithm) then inl ENOMEM
  else
    let out := if encoding then encode algorithm data cap else decode algorithm data cap in
    if (length out =? 0)%nat && negb encoding then inl EINVAL else inr out.

(** ** A chunk of a write *)

(** How many of the first elements of a list of bytes are equal to [c].  The source keeps
    the byte that it looks for in a [char], which is signed on the platforms of the client,
    and compares it with bytes: [c] is negative for a byte of [0x80] and above, and no byte
    is equal to it. *)
Fixpoint run_of (c : Z) (l : list Z) : nat :=
  match l with x :: r => if x =? c then S (run_of c r) else 0 | [] => 0 end.

(** The result of [smb2_rq_compress_chunk]: the repetitions at both ends with their [char],
    the data between them and its compressed form. *)
Record chunk := Chunk {
  fwd : nat;
  fwd_char : Z;
  bwd : nat;
  bwd_char : Z;
  mid : list Z;
  actual : list Z
}.

Definition smb2_rq_compress_chunk (algorithm : Z) (buf : list Z) : Z + chunk :=
  let n := length buf in
  let c := i8 (nth 0 buf 0) in
  let f := S (run_of c (tail buf)) in
  let remaining := if (1 <? f)%nat then (n - f)%nat else n in
  let d := i8 (nth (n - 1) buf 0) in
  let stop := if (1 <? f)%nat then (f - 1)%nat else 1%nat in
  let b := if (0 <? remaining)%nat && (2 <=? n)%nat
           then S (run_of d (take (n - 2 - stop) (tail (rev buf)))) else 1%nat in
  let remaining := if (1 <? b)%nat then (remaining - b)%nat else remaining in
  if (0 <? remaining)%nat then
    let start := if (1 <? f)%nat then f else 0%nat in
    let len := (n - start - (if (1 <? b)%nat then b else 0))%nat in
    let m := take len (drop start buf) in
    match smb2_compress_data algorithm true m len with
    | inl e => inl e
    | inr a => inr (Chunk f c b d m a)
    end
  else inr (Chunk f c b d [] []).

(** ** The payloads of a chained message *)

Definition put_none (flags : Z) (data : list Z) : list Z :=
  le_bytes 2 SMB2_COMPRESSION_NONE ++ le_bytes 2 flags ++ le_bytes 4 (Z.of_nat (length data)) ++ data.
Definition put_pattern (c : Z) (n : nat) : list Z :=
  le_bytes 2 SMB2_COMPRESSION_PATTERN_V1 ++ le_bytes 2 SMB2_COMPRESSION_FLAG_NONE ++ le_bytes 4 8
  ++ [u8 c; 0] ++ le_bytes 2 0 ++ le_bytes 4 (Z.of_nat n).
Definition put_lz (algorithm : Z) (a : list Z) (data_len : nat) : list Z :=
  le_bytes 2 algorithm ++ le_bytes 2 SMB2_COMPRESSION_FLAG_NONE ++ le_bytes 4 (Z.of_nat (length a) + 4)
  ++ le_bytes 4 (Z.of_nat data_len) ++ a.

Definition put_chunk (algorithm : Z) (k : chunk) : list Z :=
  (if (1 <? fwd k)%nat then put_pattern (fwd_char k) (fwd k) else [])
  ++ (if negb (length (actual k) =? 0)%nat then put_lz algorithm (actual k) (length (mid k))
      else if negb (length (mid k) =? 0)%nat then put_none SMB2_COMPRESSION_FLAG_NONE (mid k) else [])
  ++ (if (1 <? bwd k)%nat then put_pattern (bwd_char k) (bwd k) else []).

(** Has the chunk saved any space? *)
Definition saved (k : chunk) : bool := negb (length (actual k) =? 0)%nat || (1 <? fwd k)%nat || (1 <? bwd k)%nat.

(** The loop over the chunks: the payloads and whether one of them saved space.  The chunk
    length of the mount may be 0; the fuel bounds the number of rounds. *)
Fixpoint compress_chunks (fuel : nat) (algorithm : Z) (chunk_len : nat) (data : list Z) : option (Z + list Z * bool) :=
  if (length data =? 0)%nat then Some (inr ([], false))
  else match fuel with
       | O => None
       | S k =>
           let n := if (chunk_len <? length data)%nat then chunk_len else length data in
           match smb2_rq_compress_chunk algorithm (take n data) with
           | inl e => Some (inl e)
           | inr c =>
               match compress_chunks k algorithm chunk_len (drop n data) with
               | Some (inr (out, s)) => Some (inr (put_chunk algorithm c ++ out, saved c || s))
               | r => r
               end
           end
       end.

(** ** Compressing a write *)

(** What is used of the session and of the request. *)
Record comp_env := CompEnv {
  smb3_or_later : bool;
  algorithms_map : Z;          (* server_compression_algorithms_map *)
  chaining : bool;             (* not SMBV_COMPRESSION_CHAINING_OFF *)
  io_threshold : Z;
  chunk_len : nat
}.
Record comp_rq := CompRq { cq_compound : bool; cq_command : Z; cq_no_compress : bool }.

(** The bits of the map, from the best algorithm on. *)
Definition LZNT1_ENABLED := 0x1.
Definition LZ77_ENABLED := 0x2.
Definition LZ77_HUFFMAN_ENABLED := 0x4.

Definition pick_algorithm (map : Z) : option Z :=
  if negb (Z.land map LZ77_HUFFMAN_ENABLED =? 0) then Some SMB2_COMPRESSION_LZ77_HUFFMAN
  else if negb (Z.land map LZ77_ENABLED =? 0) then Some SMB2_COMPRESSION_LZ77
  else if negb (Z.land map LZNT1_ENABLED =? 0) then Some SMB2_COMPRESSION_LZNT1
  else None.

(** Sent as it is (and whether it is marked as not compressible), or compressed. *)
Inductive outcome := Plain (failed_compress : bool) | Compressed (bytes : list Z).

(** [msg] are the bytes of the request; [None]: the loop does not end. *)
Definition smb2_rq_compress_write (fuel : nat) (e : comp_env) (r : comp_rq) (msg : list Z) : option (Z + outcome) :=
  if negb (smb3_or_later e) || (algorithms_map e =? 0) || cq_compound r || negb (cq_command r =? SMB2_WRITE)
     || cq_no_compress r then Some (inr (Plain false))
  else
    match pick_algorithm (algorithms_map e) with
    | None => Some (inr (Plain false))
    | Some algorithm =>
        if (length msg <? HDR_WRITE)%nat then Some (inl EBADRPC)
        else
          let hdr := take HDR_WRITE msg in
          let len := le_value (take 4 (drop 68 hdr)) in
          if len =? 0 then Some (inl EINVAL)
          else if kDefaultMaxIOSize <? len then Some (inl E2BIG)
          else if (len <? 2) || (len <? io_threshold e) then Some (inr (Plain false))
          else if negb (malloc_ok (2 * len)) then Some (inl ENOMEM)
          else if (length msg <? HDR_WRITE + Z.to_nat len)%nat then Some (inl EBADRPC)
          else
            let data := take (Z.to_nat len) (drop HDR_WRITE msg) in
            if chaining e then
              match compress_chunks fuel algorithm (chunk_len e) data with
              | None => None
              | Some (inl err) => Some (inl err)
              | Some (inr (out, any)) =>
                  if any
                  then Some (inr (Compressed (SMB2_SIGNATURE_COMPRESSION
                         ++ le_bytes 4 (Z.of_nat HDR_WRITE + len)
                         ++ put_none SMB2_COMPRESSION_FLAG_CHAINED hdr ++ out)))
                  else Some (inr (Plain true))
              end
            else
              match smb2_compress_data algorithm true data (Z.to_nat len) with
              | inl err => Some (inl err)
              | inr a =>
                  if (length a =? 0)%nat then Some (inr (Plain true))
                  else Some (inr (Compressed (SMB2_SIGNATURE_COMPRESSION ++ le_bytes 4 len ++ le_bytes 2 algorithm
                              ++ le_bytes 2 SMB2_COMPRESSION_FLAG_NONE ++ le_bytes 4 (Z.of_nat HDR_WRITE) ++ hdr ++ a)))
              end
    end.

(** ** Decompressing a reply *)

(** What is put into [decompressed_mbp]. *)
Definition append (xs : list Z) : parser (list Z) unit := change (fun out => out ++ xs).

(** [CompressedDataLength], which is compared with what is left of the reply. *)
Definition chained_len : parser (list Z) Z :=
  compress_len ← get_le 4;
  r ← attempt (shadow (skip compress_len));
  match r with inl _ => fail E2BIG | inr _ => mret compress_len end.

(** [Offset], with the plain bytes up to it. *)
Definition unchained_offset (togo : Z) : parser (list Z) Z :=
  offset ← get_le 4;
  if togo <? offset then fail EINVAL
  else
    (if 0 <? offset then xs ← get_mem (Z.to_nat offset); append xs else mret tt);;
    mret offset.

(** A repeated byte. *)
Definition get_pattern (togo : Z) : parser (list Z) Z :=
  c ← get_le 1;
  _ ← get_le 1;
  _ ← get_le 2;
  repetitions ← get_le 4;
  if togo <? repetitions then fail EINVAL
  else append (replicate (Z.to_nat repetitions) c);; mret repetitions.

(** The compressed data goes to a buffer of [2 * orig] bytes, whose second half takes the
    data it is decompressed to: more than [orig] bytes overlap with that, and more than
    twice as many lie outside of it. *)
Definition get_lz (chained : bool) (orig togo total algorithm len : Z) : parser (list Z) Z :=
  '(payload_size, compress_len) ←
    (if chained then
       payload_size ← get_le 4;
       if togo <? payload_size then fail EINVAL
       else if len <=? 4 then fail EINVAL
       else mret (payload_size, len - 4)
     else
       let compress_len := u32 total in
       if compress_len <? len then fail EINVAL
       else if compress_len - len <? 16 then fail EINVAL
       else mret (orig, compress_len - len - 16));
  if orig <? compress_len then Undef
  else
    xs ← get_mem (Z.to_nat compress_len);
    match smb2_compress_data algorithm false xs (Z.to_nat payload_size) with
    | inl e => fail e
    | inr data => if negb (Z.of_nat (length data) =? payload_size) then fail EINVAL else append data;; mret payload_size
    end.

(** One round; the result is what is added to [CurrentDecompressedDataSize]. *)
Definition one_payload (chained : bool) (orig total current : Z) : parser (list Z) Z :=
  algorithm ← get_le 2;
  _ ← get_le 2;
  len ← (if chained then chained_len else unchained_offset (orig - current));
  if algorithm =? SMB2_COMPRESSION_NONE then
    if orig - current <? len then fail EINVAL
    else xs ← get_mem (Z.to_nat len); append xs;; mret len
  else if algorithm =? SMB2_COMPRESSION_PATTERN_V1 then get_pattern (orig - current)
  else if is_lz algorithm then get_lz chained orig (orig - current) total algorithm len
  else fail EINVAL.

Fixpoint decompress_loop (fuel : nat) (chained : bool) (orig total current : Z) : parser (list Z) Z :=
  if current <? orig then
    match fuel with
    | O => Undef
    | S k => n ← one_payload chained orig total current; decompress_loop k chained orig total (current + n)
    end
  else mret current.

(** The reply after it has been decompressed is what was appended; [total] is its length
    before. *)
Definition decompress (fuel : nat) (chained : bool) (total : Z) : parser (list Z) unit :=
  change (fun _ => []);;
  _ ← get_le 4;
  orig ← get_le 4;
  if kDefaultMaxIOSize <? orig then fail E2BIG
  else if negb (malloc_ok (2 * orig)) then fail ENOMEM
  else
    current ← decompress_loop fuel chained orig total 0;
    if negb (current =? orig) then fail EINVAL else mret tt.

(** A session without compression leaves the reply as it is: [None]. *)
Definition smb2_rq_decompress_read (fuel : nat) (e : comp_env) (total : Z) : option (parser (list Z) unit) :=
  if negb (smb3_or_later e) || (algorithms_map e =? 0) then None else Some (decompress fuel (chaining e) total).
End Compress.
