(* ===== verification/CompressTheorems.v ===== *)
(** * Compression: theorems *)
From S2P Require Import Prelude Chain Parser Compress.
Import Errno.
Local Open Scope Z_scope.

(** ** Chunks *)

Lemma run_of_le c l : (run_of c l <= length l)%nat.
Proof. induction l as [|x r IH]; cbn; [done|]. destruct (x =? c); lia. Qed.

Lemma run_of_take c l : take (run_of c l) l = replicate (run_of c l) c.
Proof.
  induction l as [|x r IH]; cbn [run_of take]; [done|]. destruct (Z.eqb_spec x c) as [->|]; [|done].
  cbn [take replicate]. by rewrite IH.
Qed.

Lemma take_rev_replicate {A} n c (l : list A) : (n <= length l)%nat -> take n (rev l) = replicate n c ->
  drop (length l - n) l = replicate n c.
Proof.
  intros Hn E. rewrite firstn_rev in E. apply (f_equal (@rev A)) in E. rewrite rev_involutive in E.
  rewrite E. clear. induction n as [|n IH]; [done|]. cbn [replicate rev]. rewrite IH.
  rewrite <- replicate_cons_app. done.
Qed.

Section Chunks.
Context `{Codec}.

(** Where a [char] is repeated it is the byte that was stored in it. *)
Lemma run_of_char b l : is_byte b -> Forall is_byte l -> (0 < run_of (i8 b) l)%nat -> i8 b = b.
Proof.
  intros Hb Hl. rewrite i8_byte by done. destruct (b <? 0x80); [done|].
  destruct Hl as [|x l Hx _]; cbn; [lia|]. destruct (Z.eqb_spec x (b - 256)); unfold is_byte in *; lia.
Qed.

(** A chunk is its repetitions at both ends and the data between them. *)
Lemma compress_chunk_spec algorithm buf k :
  smb2_rq_compress_chunk algorithm buf = inr k -> buf <> [] -> Forall is_byte buf ->
  buf = (if (1 <? fwd k)%nat then replicate (fwd k) (fwd_char k) else []) ++ mid k
        ++ (if (1 <? bwd k)%nat then replicate (bwd k) (bwd_char k) else []) /\
  (actual k = [] \/ (is_lz algorithm = true /\ scratch_ok algorithm = true /\
                     actual k = encode algorithm (mid k) (length (mid k)))).
Proof.
  intros E Hne Hby. unfold smb2_rq_compress_chunk in E.
  destruct buf as [|c0 tl]; [done|]. assert (Hc0 : is_byte c0 /\ Forall is_byte tl) by (by inversion Hby).
  set (buf := c0 :: tl) in *. set (c := i8 c0).
  change (nth 0 buf 0) with c0 in E. change (tail buf) with tl in E. fold c in E.
  set (n := length buf) in *. assert (Hn : n = S (length tl)) by done.
  pose proof (run_of_le c tl) as Hf. pose proof (run_of_take c tl) as Tf.
  set (f := S (run_of c tl)) in *.
  assert (Hfb : (1 < f)%nat -> take f buf = replicate f c).
  { intros Hf1. cbn. rewrite Tf. f_equal. symmetry. apply (run_of_char c0 tl); [apply Hc0|apply Hc0|]. fold c. lia. }
  set (d0 := nth (n - 1) buf 0) in *. set (d := i8 d0) in *.
  set (stop := if (1 <? f)%nat then (f - 1)%nat else 1%nat) in *.
  set (rem1 := if (1 <? f)%nat then (n - f)%nat else n) in *.
  set (rb := run_of d (take (n - 2 - stop) (tail (rev buf)))) in *.
  set (b := if (0 <? rem1)%nat && (2 <=? n)%nat then S rb else 1%nat) in *.
  set (start := if (1 <? f)%nat then f else 0%nat) in *.
  set (back := if (1 <? b)%nat then b else 0%nat) in *.
  (* the repetitions at the end *)
  assert (Hb : (1 < b)%nat -> (start + b <= n)%nat /\ drop (n - b) buf = replicate b d).
  { intros H1. unfold b in *. destruct ((0 <? rem1)%nat && (2 <=? n)%nat) eqn:EG; [|lia].
    apply andb_true_iff in EG as [G1%Nat.ltb_lt G2%Nat.leb_le].
    pose proof (run_of_le d (take (n - 2 - stop) (tail (rev buf)))) as Hr. fold rb in Hr. rewrite length_take in Hr.
    assert (start + S rb <= n)%nat.
    { unfold start, stop in *. destruct (Nat.ltb_spec 1 f); lia. }
    split; [done|]. apply take_rev_replicate; [lia|].
    pose proof (run_of_take d (take (n - 2 - stop) (tail (rev buf)))) as Tb. fold rb in Tb.
    rewrite take_take, Nat.min_l in Tb by lia.
    assert (rev buf = d0 :: tail (rev buf)) as Er.
    { unfold d0. replace (nth (n - 1) buf 0) with (nth 0 (rev buf) 0).
      - destruct (rev buf) eqn:Ev; [|done]. apply (f_equal (@length Z)) in Ev. rewrite length_rev in Ev. done.
      - rewrite rev_nth by (fold n; lia). by fold n. }
    assert (Forall is_byte (d0 :: tail (rev buf))) as Hrb by (rewrite <- Er; by apply Forall_rev).
    apply list.Forall_cons in Hrb as [Hd0 Hrb].
    assert (d = d0) as Ed.
    { apply (run_of_char d0 (take (n - 2 - stop) (tail (rev buf)))); [done|by apply list.Forall_take|]. fold d rb. lia. }
    rewrite Er. cbn [take replicate]. by rewrite Tb, Ed. }
  assert (Hs : (1 <? f)%nat = true -> start = f) by (unfold start; by intros ->).
  assert (Hst : (start <= n)%nat) by (unfold start; destruct (1 <? f)%nat; lia).
  assert (Hsb : (start + back <= n)%nat).
  { unfold back. destruct (Nat.ltb_spec 1 b) as [H1|]; [by apply Hb|lia]. }
  assert (Hbuf : buf = (if (1 <? f)%nat then replicate f c else []) ++ take (n - start - back) (drop start buf)
                       ++ (if (1 <? b)%nat then replicate b d else [])).
  { rewrite <- (take_drop start buf) at 1. f_equal.
    - unfold start. destruct (Nat.ltb_spec 1 f); [by apply Hfb|done].
    - rewrite <- (take_drop (n - start - back) (drop start buf)) at 1. f_equal. rewrite drop_drop.
      unfold back. destruct (Nat.ltb_spec 1 b) as [H1|].
      + destruct (Hb H1) as [Hle Hd]. rewrite <- Hd. f_equal. lia.
      + rewrite drop_ge; [done|]. change (length buf) with n. lia. }
  set (rem2 := if (1 <? b)%nat then (rem1 - b)%nat else rem1) in E.
  assert (Hrem : rem2 = (n - start - back)%nat).
  { unfold rem2, rem1, start, back. destruct (1 <? b)%nat, (1 <? f)%nat; lia. }
  destruct (Nat.ltb_spec 0 rem2) as [Hr|Hr].
  - fold back in E. unfold smb2_compress_data in E. rewrite Hrem in *.
    destruct (is_lz algorithm) eqn:El; cbn [negb] in E; [|done].
    destruct (scratch_ok algorithm) eqn:Ek; cbn [negb andb] in E; [|done]. rewrite andb_false_r in E. injection E as <-. cbn [fwd fwd_char bwd bwd_char mid actual].
    split; [exact Hbuf|]. right. split_and!; [done..|]. f_equal. rewrite length_take, length_drop. fold n. lia.
  - injection E as <-. cbn [fwd fwd_char bwd bwd_char mid actual]. split; [|by left].
    rewrite Hbuf at 1. replace (n - start - back)%nat with 0%nat by lia. done.
Qed.

(** Bytes of [0x80] and above are never found to be repeated, however often they are: the
    whole chunk is left to the compressor. *)
Theorem high_bytes_not_packed algorithm b n k :
  0x80 <= b < 256 -> (0 < n)%nat -> smb2_rq_compress_chunk algorithm (replicate n b) = inr k ->
  fwd k = 1%nat /\ bwd k = 1%nat /\ mid k = replicate n b.
Proof.
  intros Hb Hn E. assert (HR : forall m, run_of (i8 b) (replicate m b) = 0%nat).
  { intros [|m]; cbn; [done|]. rewrite i8_byte by (unfold is_byte; lia).
    destruct (Z.ltb_spec b 0x80); [lia|]. destruct (Z.eqb_spec b (b - 256)); [lia|done]. }
  unfold smb2_rq_compress_chunk in E. rewrite length_replicate in E.
  assert (Hnth : forall j, (j < n)%nat -> nth j (replicate n b) 0 = b).
  { intros j Hj. by rewrite (nth_lookup_Some (replicate n b) j 0 b) by (by apply lookup_replicate). }
  rewrite !Hnth in E by lia. destruct n as [|n]; [lia|]. cbn [replicate tail] in E.
  assert (Hrev : tail (rev (b :: replicate n b)) = replicate n b).
  { change (b :: replicate n b) with (replicate (S n) b).
    assert (rev (replicate (S n) b) = replicate (S n) b) as ->; [|done].
    rewrite rev_alt. apply reverse_replicate. }
  rewrite Hrev, HR, take_replicate, HR in E. cbn [Nat.ltb Nat.leb] in E. rewrite Tauto.if_same in E. cbn [Nat.ltb Nat.leb] in E.
  rewrite Nat.sub_0_r, Nat.sub_0_r, drop_0, take_ge in E by (cbn; rewrite length_replicate; lia).
  destruct (smb2_compress_data _ _ _ _); [done|]. by injection E as <-.
Qed.
End Chunks.

(** ** Payloads *)

Section Payloads.
Context `{Codec} (orig total : Z).

Lemma fits_len n (l : list Z) : Z.of_nat (length l) < 256 ^ Z.of_nat n -> fits n (Z.of_nat (length l)).
Proof. unfold fits. lia. Qed.

Lemma eval_chained_len n bs x : fits 4 n -> n <= Z.of_nat (length bs) ->
  eval chained_len (le_bytes 4 n ++ bs) x = Some (inr n, bs, x).
Proof.
  intros Hn Hl. unfold chained_len. rewrite eval_bind, eval_get_le by done. cbv beta iota.
  rewrite eval_bind, eval_attempt. unfold shadow, skip. cbn [eval].
  by rewrite (proj2 (Z.leb_le _ _)) by done.
Qed.

(** The bytes [bs] are [p] payloads that decompress to [data]. *)
Definition feeds (bs data : list Z) (p : nat) : Prop :=
  (8 * p <= length bs)%nat /\ ((p = 0%nat -> data = []) /\
  forall k cur rest x, cur + Z.of_nat (length data) <= orig ->
    eval (decompress_loop (p + k) true orig total cur) (bs ++ rest) x
    = eval (decompress_loop k true orig total (cur + Z.of_nat (length data))) rest (x ++ data)).

Lemma feeds_nil : feeds [] [] 0.
Proof.
  split; [done|]. split; [done|]. intros k cur rest x _. cbn [app length Nat.add Z.of_nat].
  by rewrite Z.add_0_r, app_nil_r.
Qed.

Lemma feeds_app b1 d1 p1 b2 d2 p2 : feeds b1 d1 p1 -> feeds b2 d2 p2 -> feeds (b1 ++ b2) (d1 ++ d2) (p1 + p2).
Proof.
  intros (L1 & Z1 & F1) (L2 & Z2 & F2). split; [rewrite length_app; lia|].
  split; [intros E; rewrite Z1, Z2 by lia; done|]. intros k cur rest x Hc.
  rewrite length_app, Nat2Z.inj_add in Hc.
  rewrite <- app_assoc, <- Nat.add_assoc, F1, F2 by lia.
  rewrite length_app, Nat2Z.inj_add, Z.add_assoc, app_assoc. done.
Qed.

(** One payload. *)
Lemma feeds_one bs data : (8 <= length bs)%nat -> data <> [] ->
  (forall cur rest x, cur + Z.of_nat (length data) <= orig ->
     eval (one_payload true orig total cur) (bs ++ rest) x = Some (inr (Z.of_nat (length data)), rest, x ++ data)) ->
  feeds bs data 1.
Proof.
  intros Hl Hd HP. split; [lia|]. split; [done|]. intros k cur rest x Hc. cbn [Nat.add decompress_loop].
  assert (0 < length data)%nat by (destruct data; [done|cbn; lia]).
  rewrite (proj2 (Z.ltb_lt _ _)) by lia. by rewrite eval_bind, HP.
Qed.

Lemma fits_small n v : 0 <= v < 256 ^ Z.of_nat n -> fits n v.
Proof. done. Qed.

Create HintDb fits.
Hint Extern 1 (fits _ _) => (apply fits_small; unfold SMB2_COMPRESSION_NONE, SMB2_COMPRESSION_PATTERN_V1,
  SMB2_COMPRESSION_FLAG_NONE, SMB2_COMPRESSION_FLAG_CHAINED; cbn; lia) : fits.

Lemma feeds_none flags data : fits 2 flags -> data <> [] -> Z.of_nat (length data) < 2 ^ 32 ->
  feeds (put_none flags data) data 1.
Proof.
  intros Hf Hd Hl. apply feeds_one; [unfold put_none; rewrite !length_app, !length_le_bytes; lia|done|].
  intros cur rest x Hc. unfold put_none, one_payload. rewrite <- !app_assoc.
  assert (fits 2 SMB2_COMPRESSION_NONE) by auto with fits.
  assert (fits 4 (Z.of_nat (length data))) by (apply fits_len; exact Hl).
  do 2 eval_step. rewrite eval_bind, eval_chained_len; [|done|rewrite length_app; lia]. cbv beta iota.
  cbn [Z.eqb SMB2_COMPRESSION_NONE]. rewrite (proj2 (Z.ltb_ge _ _)) by lia.
  rewrite eval_bind, Nat2Z.id, eval_get_mem by done. done.
Qed.

Lemma feeds_pattern c n : is_byte c -> (0 < n)%nat -> Z.of_nat n < 2 ^ 32 -> feeds (put_pattern c n) (replicate n c) 1.
Proof.
  intros Hb Hn Hl. apply feeds_one; [unfold put_pattern; rewrite !length_app, !length_le_bytes; cbn; lia|destruct n; [lia|done]|].
  rewrite length_replicate. intros cur rest x Hc. unfold put_pattern, one_payload.
  assert (fits 2 SMB2_COMPRESSION_PATTERN_V1 /\ fits 2 SMB2_COMPRESSION_FLAG_NONE /\ fits 4 8 /\ fits 1 0 /\ fits 2 0)
    as (? & ? & ? & ? & ?) by (split_and!; auto with fits).
  assert (fits 4 (Z.of_nat n)) by (unfold fits; change (256 ^ Z.of_nat 4) with (2 ^ 32); lia).
  assert (fits 1 c) by exact Hb.
  replace [u8 c; 0] with (le_bytes 1 c ++ le_bytes 1 0) by done.
  rewrite <- !app_assoc. do 2 eval_step.
  rewrite eval_bind, eval_chained_len by (done || (rewrite !length_app, !length_le_bytes; lia)). cbv beta iota.
  cbn [Z.eqb SMB2_COMPRESSION_PATTERN_V1 SMB2_COMPRESSION_NONE Pos.eqb]. unfold get_pattern. do 4 eval_step.
  rewrite (proj2 (Z.ltb_ge _ _)) by lia. by rewrite Nat2Z.id.
Qed.

(** What the compressors promise: the output fits, and decompressing gives the data back. *)
Class CodecLaws : Prop := {
  encode_fits : forall a d n, (length (encode a d n) <= n)%nat;
  decode_encode : forall a d n, encode a d n <> [] -> decode a (encode a d n) (length d) = d
}.
Context `{!CodecLaws}.

Lemma feeds_lz algorithm data n :
  is_lz algorithm = true -> scratch_ok algorithm = true -> encode algorithm data n <> [] -> n = length data -> data <> [] ->
  Z.of_nat (length data) <= orig -> orig < 2 ^ 31 ->
  feeds (put_lz algorithm (encode algorithm data n) (length data)) data 1.
Proof.
  intros Ha Hk He -> Hd Ho Hmax. set (a := encode algorithm data (length data)) in *.
  pose proof (encode_fits algorithm data (length data)) as Hf. fold a in Hf.
  assert (0 < length a)%nat by (destruct a; [done|cbn; lia]).
  apply feeds_one; [unfold put_lz; rewrite !length_app, !length_le_bytes; lia|done|].
  intros cur rest x Hc. unfold put_lz, one_payload. rewrite <- !app_assoc.
  assert (fits 2 algorithm).
  { unfold is_lz, SMB2_COMPRESSION_LZNT1, SMB2_COMPRESSION_LZ77, SMB2_COMPRESSION_LZ77_HUFFMAN in Ha.
    unfold fits. change (256 ^ Z.of_nat 2) with 65536. lia. }
  assert (fits 2 SMB2_COMPRESSION_FLAG_NONE) by auto with fits.
  assert (fits 4 (Z.of_nat (length data)) /\ fits 4 (Z.of_nat (length a) + 4)) as [? ?]
    by (unfold fits; change (256 ^ Z.of_nat 4) with (2 ^ 32); lia).
  do 2 eval_step. rewrite eval_bind, eval_chained_len by (done || (rewrite !length_app, length_le_bytes; lia)). cbv beta iota.
  assert ((algorithm =? SMB2_COMPRESSION_NONE) = false /\ (algorithm =? SMB2_COMPRESSION_PATTERN_V1) = false) as [-> ->].
  { unfold is_lz, SMB2_COMPRESSION_LZNT1, SMB2_COMPRESSION_LZ77, SMB2_COMPRESSION_LZ77_HUFFMAN,
      SMB2_COMPRESSION_NONE, SMB2_COMPRESSION_PATTERN_V1 in *. lia. }
  rewrite Ha. unfold get_lz. rewrite eval_bind. eval_step.
  rewrite (proj2 (Z.ltb_ge _ _)), (proj2 (Z.leb_gt _ _)) by lia. cbn [eval mret parser_ret].
  rewrite (proj2 (Z.ltb_ge _ _)) by lia. replace (Z.of_nat (length a) + 4 - 4) with (Z.of_nat (length a)) by lia.
  rewrite eval_bind, Nat2Z.id, eval_get_mem by done. cbv beta iota. unfold smb2_compress_data.
  rewrite Ha, Hk, Nat2Z.id. cbn [negb]. unfold a. rewrite decode_encode by done.
  destruct data as [|d0 dd]; [done|]. cbn [length Nat.eqb andb negb]. rewrite Z.eqb_refl. done.
Qed.

Lemma feeds_chunk algorithm buf k :
  smb2_rq_compress_chunk algorithm buf = inr k -> buf <> [] -> Forall is_byte buf ->
  Z.of_nat (length buf) <= orig -> orig < 2 ^ 31 -> exists p, feeds (put_chunk algorithm k) buf p.
Proof.
  intros E Hne Hby Ho Hmax. destruct (compress_chunk_spec _ _ _ E Hne Hby) as [Hbuf Hact].
  rewrite Hbuf in Ho, Hby. rewrite Hbuf. clear E Hne Hbuf. unfold put_chunk.
  rewrite !length_app, !Nat2Z.inj_add in Ho. apply Forall_app in Hby as [B1 B2]. apply Forall_app in B2 as [_ B3].
  assert (HR : forall n c, Forall is_byte (if (1 <? n)%nat then replicate n c else []) ->
    Z.of_nat (length (if (1 <? n)%nat then replicate n c else [])) <= orig ->
    exists p, feeds (if (1 <? n)%nat then put_pattern c n else []) (if (1 <? n)%nat then replicate n c else []) p).
  { intros n c Hb Hl. destruct (Nat.ltb_spec 1 n); [|exists 0%nat; apply feeds_nil].
    exists 1%nat. rewrite length_replicate in Hl. apply feeds_pattern; [|lia..].
    destruct n; [lia|]. by apply list.Forall_cons in Hb as [? _]. }
  assert (exists p, feeds (if negb (length (actual k) =? 0)%nat then put_lz algorithm (actual k) (length (mid k))
      else if negb (length (mid k) =? 0)%nat then put_none SMB2_COMPRESSION_FLAG_NONE (mid k) else []) (mid k) p) as [p2 F2].
  { destruct (Nat.eqb_spec (length (actual k)) 0) as [E0|E0]; cbn [negb].
    - destruct (Nat.eqb_spec (length (mid k)) 0) as [E1|E1]; cbn [negb].
      + apply nil_length_inv in E1. rewrite E1. exists 0%nat. apply feeds_nil.
      + exists 1%nat. apply feeds_none; [auto with fits|intros Hn; by rewrite Hn in E1|lia].
    - destruct Hact as [Hact|(Ha & Hk & Hact)]; [by rewrite Hact in E0|]. rewrite Hact in E0 |- *. exists 1%nat.
      pose proof (encode_fits algorithm (mid k) (length (mid k))).
      apply feeds_lz; [done|done|by intros Hn; rewrite Hn in E0|done|intros Hn; apply (f_equal length) in Hn; cbn in Hn; lia|lia|done]. }
  destruct (HR _ _ B1) as [p1 F1]; [lia|]. destruct (HR _ _ B3) as [p3 F3]; [lia|].
  eexists. apply feeds_app; [exact F1|]. apply feeds_app; [exact F2|exact F3].
Qed.

Lemma feeds_chunks fuel algorithm cl data out s :
  compress_chunks fuel algorithm cl data = Some (inr (out, s)) -> (0 < cl)%nat -> Forall is_byte data ->
  Z.of_nat (length data) <= orig -> orig < 2 ^ 31 -> exists p, feeds out data p.
Proof.
  revert data out s. induction fuel as [|fuel IH]; intros data out s E Hcl Hby Ho Hmax; cbn [compress_chunks] in E;
    (destruct (Nat.eqb_spec (length data) 0) as [E0|E0];
     [injection E as <- _; apply nil_length_inv in E0; rewrite E0; exists 0%nat; apply feeds_nil|]); [done|].
  set (n := if (cl <? length data)%nat then cl else length data) in E.
  assert (0 < n <= length data)%nat as Hn by (unfold n; destruct (Nat.ltb_spec cl (length data)); lia).
  destruct (smb2_rq_compress_chunk algorithm (take n data)) as [?|c] eqn:Ec; [done|].
  destruct (compress_chunks fuel algorithm cl (drop n data)) as [[?|[out' s']]|] eqn:Er; [done| |done].
  injection E as <- _. rewrite <- (take_drop n data).
  destruct (feeds_chunk _ _ _ Ec) as [p1 F1]; [|by apply list.Forall_take|rewrite length_take; lia|done|].
  { intros Hnil. apply (f_equal length) in Hnil. rewrite length_take in Hnil. cbn in Hnil. lia. }
  destruct (IH _ _ _ Er Hcl) as [p2 F2]; [by apply list.Forall_drop|rewrite length_drop; lia|done|].
  eexists. by apply feeds_app.
Qed.
End Payloads.


(** ** Whole messages *)

Section Messages.
Context `{Codec}.

(** The rounds of the loop: every one takes a byte at least. *)
Lemma compress_chunks_ends fuel algorithm cl data :
  (0 < cl)%nat -> (length data <= fuel)%nat -> is_Some (compress_chunks fuel algorithm cl data).
Proof.
  intros Hcl. revert data. induction fuel as [|fuel IH]; intros data Hl; cbn [compress_chunks];
    (destruct (Nat.eqb_spec (length data) 0) as [|E0]; [by eexists|]); [lia|].
  set (n := if (cl <? length data)%nat then cl else length data).
  assert (0 < n <= length data)%nat as Hn by (unfold n; destruct (Nat.ltb_spec cl (length data)); lia).
  destruct (smb2_rq_compress_chunk algorithm (take n data)) as [?|c]; [by eexists|].
  destruct (IH (drop n data)) as [[?|[out s]] ->]; [rewrite length_drop; lia|by eexists..].
Qed.

(** Compressing a write ends if the chunk length of the mount is positive; a round is
    needed for every chunk, so that the length of the message is enough fuel. *)
Theorem compress_write_ends e r msg :
  (0 < chunk_len e)%nat -> is_Some (smb2_rq_compress_write (length msg) e r msg).
Proof.
  intros Hcl. unfold smb2_rq_compress_write.
  destruct (_ || cq_no_compress r); [by eexists|]. destruct (pick_algorithm _); [|by eexists].
  repeat (lazymatch goal with |- is_Some (if ?b then _ else _) => destruct b; try (by eexists) end).
  - destruct (compress_chunks_ends (length msg) z (chunk_len e)
      (take (Z.to_nat (le_value (take 4 (drop 68 (take HDR_WRITE msg))))) (drop HDR_WRITE msg))) as [[?|[out any]] ->];
      [done|rewrite length_take, length_drop; lia|by eexists|]. destruct any; by eexists.
  - destruct (smb2_compress_data _ _ _ _); [by eexists|]. destruct (_ =? _)%nat; by eexists.
Qed.

(** With a chunk length of 0 no fuel is enough: the loop takes no byte of the data. *)
Theorem zero_chunk_len_diverges fuel algorithm data :
  data <> [] -> compress_chunks fuel algorithm 0 data = None.
Proof.
  revert data. induction fuel as [|fuel IH]; intros data Hd; cbn [compress_chunks];
    (rewrite (proj2 (Nat.eqb_neq (length data) 0)) by (by destruct data)); [done|].
  rewrite (proj2 (Nat.ltb_lt 0 _)) by (destruct data; [done|cbn; lia]).
  rewrite take_0, drop_0. cbn. by rewrite IH.
Qed.

(** A request that is compressed is a write of two bytes at least. *)
Lemma compressed_inv fuel e r msg bs :
  smb2_rq_compress_write fuel e r msg = Some (inr (Compressed bs)) ->
  exists algorithm (len := le_value (take 4 (drop 68 (take HDR_WRITE msg))))
    (data := take (Z.to_nat len) (drop HDR_WRITE msg)),
  2 <= len <= kDefaultMaxIOSize /\ (HDR_WRITE + Z.to_nat len <= length msg)%nat /\ malloc_ok (2 * len) = true /\
  if chaining e
  then exists out, compress_chunks fuel algorithm (chunk_len e) data = Some (inr (out, true)) /\
    bs = SMB2_SIGNATURE_COMPRESSION ++ le_bytes 4 (Z.of_nat HDR_WRITE + len)
         ++ put_none SMB2_COMPRESSION_FLAG_CHAINED (take HDR_WRITE msg) ++ out
  else exists a, smb2_compress_data algorithm true data (Z.to_nat len) = inr a /\ a <> [] /\
    bs = SMB2_SIGNATURE_COMPRESSION ++ le_bytes 4 len ++ le_bytes 2 algorithm
         ++ le_bytes 2 SMB2_COMPRESSION_FLAG_NONE ++ le_bytes 4 (Z.of_nat HDR_WRITE) ++ take HDR_WRITE msg ++ a.
Proof.
  unfold smb2_rq_compress_write. destruct (_ || cq_no_compress r); [done|].
  destruct (pick_algorithm _) as [algorithm|]; [|done]. intros E. exists algorithm. cbv zeta in *.
  set (len := le_value _) in *.
  destruct (length msg <? HDR_WRITE)%nat eqn:E1; [done|]. destruct (len =? 0) eqn:E2; [done|].
  destruct (kDefaultMaxIOSize <? len) eqn:E3; [done|]. destruct ((len <? 2) || (len <? io_threshold e)) eqn:E4; [done|].
  destruct (malloc_ok (2 * len)) eqn:E5; [|done]. cbn [negb] in E.
  destruct (length msg <? HDR_WRITE + Z.to_nat len)%nat eqn:E6; [done|].
  apply orb_false_iff in E4 as [E4 _]. apply Z.ltb_ge in E3, E4. apply Nat.ltb_ge in E6. split_and!; [lia..|done|].
  destruct (chaining e).
  - destruct (compress_chunks _ _ _ _) as [[?|[out [|]]]|]; [done| |done|done]. injection E as <-. by eexists.
  - destruct (smb2_compress_data _ _ _ _) as [?|a]; [done|]. destruct (Nat.eqb_spec (length a) 0); [done|].
    injection E as <-. exists a. split_and!; [done|by intros ->|done].
Qed.

Context `{!CodecLaws}.

Lemma eval_header bs orig fuel chained total x : fits 4 orig -> orig <= kDefaultMaxIOSize -> malloc_ok (2 * orig) = true ->
  eval (decompress fuel chained total) (SMB2_SIGNATURE_COMPRESSION ++ le_bytes 4 orig ++ bs) x =
  match eval (decompress_loop fuel chained orig total 0) bs [] with
  | Some (inr current, bs', x') => if negb (current =? orig) then Some (inl EINVAL, bs', x') else Some (inr tt, bs', x')
  | Some (inl err, bs', x') => Some (inl err, bs', x')
  | None => None
  end.
Proof.
  intros Hf Ho Hm. unfold decompress. rewrite eval_bind, eval_change. cbv beta iota.
  change SMB2_SIGNATURE_COMPRESSION with (le_bytes 4 0x424d53fc).
  assert (fits 4 0x424d53fc) by (unfold fits; cbn; lia). do 2 eval_step.
  rewrite (proj2 (Z.ltb_ge _ _)) by lia. rewrite Hm. cbn [negb]. rewrite eval_bind.
  destruct (eval _ bs []) as [[[[?|current] bs'] x']|]; [done| |done]. by destruct (negb (current =? orig)).
Qed.

Lemma decompress_chained algorithm fuel cl msg len out s x :
  compress_chunks fuel algorithm cl (drop HDR_WRITE msg) = Some (inr (out, s)) -> (0 < cl)%nat -> Forall is_byte msg ->
  length msg = (HDR_WRITE + Z.to_nat len)%nat -> 0 <= len -> Z.of_nat HDR_WRITE + len <= kDefaultMaxIOSize ->
  malloc_ok (2 * (Z.of_nat HDR_WRITE + len)) = true ->
  let bs := SMB2_SIGNATURE_COMPRESSION ++ le_bytes 4 (Z.of_nat HDR_WRITE + len)
            ++ put_none SMB2_COMPRESSION_FLAG_CHAINED (take HDR_WRITE msg) ++ out in
  eval (decompress (length bs) true (Z.of_nat (length bs))) bs x = Some (inr tt, [], msg).
Proof.
  intros E Hcl Hby Hlen Hl Hmax Hm bs. unfold kDefaultMaxIOSize in *. pose proof (length_drop msg HDR_WRITE) as Hd.
  assert (Hh : length (take HDR_WRITE msg) = HDR_WRITE) by (rewrite length_take; lia).
  set (orig := Z.of_nat HDR_WRITE + len) in *. set (total := Z.of_nat (length bs)).
  assert (Ho : Z.of_nat (length msg) = orig) by (unfold orig; lia).
  destruct (feeds_chunks orig total _ _ _ _ _ _ E Hcl) as [p F]; [by apply list.Forall_drop|lia|lia|].
  destruct (feeds_app orig total _ _ 1 _ _ _ (feeds_none orig total SMB2_COMPRESSION_FLAG_CHAINED (take HDR_WRITE msg)
    ltac:(by split) ltac:(intros Hn; by rewrite Hn in Hh) ltac:(rewrite Hh; cbn; lia)) F) as (HL & _ & HF).
  rewrite take_drop, Ho in HF. subst bs. rewrite eval_header; [|unfold fits, orig in *; lia|unfold kDefaultMaxIOSize; lia|done].
  rewrite !length_app in *. set (fuel' := (_ + (_ + _))%nat).
  assert (1 + p <= fuel')%nat by (unfold fuel'; lia).
  replace fuel' with (1 + p + (fuel' - (1 + p)))%nat by lia.
  set (pl := put_none SMB2_COMPRESSION_FLAG_CHAINED (take HDR_WRITE msg) ++ out) in *.
  rewrite <- (app_nil_r pl). rewrite HF by lia.
  replace (decompress_loop _ _ _ _ _) with (mret orig : parser (list Z) Z).
  - cbn [eval mret parser_ret]. by rewrite Z.eqb_refl.
  - destruct (fuel' - (1 + p))%nat; cbn [decompress_loop]; rewrite Z.add_0_l, Z.ltb_irrefl; done.
Qed.

Lemma one_unchained algorithm hdr data n len total :
  is_lz algorithm = true -> scratch_ok algorithm = true -> let a := encode algorithm data n in
  a <> [] -> (n <= Z.to_nat len)%nat -> Z.of_nat (length data) = len -> length hdr = HDR_WRITE ->
  Z.of_nat HDR_WRITE <= len <= kDefaultMaxIOSize ->
  total = 16 + Z.of_nat HDR_WRITE + Z.of_nat (length a) ->
  eval (one_payload false len total 0) (le_bytes 2 algorithm ++ le_bytes 2 SMB2_COMPRESSION_FLAG_NONE
    ++ le_bytes 4 (Z.of_nat HDR_WRITE) ++ hdr ++ a) [] = Some (inr len, [], hdr ++ data).
Proof.
  intros Ha Hk a Hne Hn Hd Hh Hl Ht. unfold kDefaultMaxIOSize in *. assert (Hw : Z.of_nat HDR_WRITE = 112) by done.
  pose proof (encode_fits algorithm data n) as Hf. fold a in Hf.
  assert (1 <= algorithm <= 3) as Hal.
  { unfold is_lz, SMB2_COMPRESSION_LZNT1, SMB2_COMPRESSION_LZ77, SMB2_COMPRESSION_LZ77_HUFFMAN in Ha. lia. }
  assert (fits 2 algorithm /\ fits 2 SMB2_COMPRESSION_FLAG_NONE /\ fits 4 (Z.of_nat HDR_WRITE)) as (? & ? & ?)
    by (split_and!; [unfold fits; cbn; lia|by split..]).
  unfold one_payload. do 2 eval_step. unfold unchained_offset. rewrite eval_bind. eval_step. rewrite Z.sub_0_r.
  rewrite (proj2 (Z.ltb_ge len _)) by lia. rewrite eval_bind, (proj2 (Z.ltb_lt 0 (Z.of_nat HDR_WRITE))) by lia.
  rewrite eval_bind, Nat2Z.id, eval_get_mem by done. cbv beta iota. unfold append. rewrite eval_change. cbv beta iota.
  cbn [app]. cbn [eval mret parser_ret].
  rewrite (proj2 (Z.eqb_neq algorithm SMB2_COMPRESSION_NONE)) by (unfold SMB2_COMPRESSION_NONE; lia).
  rewrite (proj2 (Z.eqb_neq algorithm SMB2_COMPRESSION_PATTERN_V1)) by (unfold SMB2_COMPRESSION_PATTERN_V1; lia).
  rewrite Ha. unfold get_lz. cbv zeta.
  assert (Hu : u32 total = total) by (apply Z.mod_small; cbn in *; lia). rewrite Hu.
  rewrite eval_bind, (proj2 (Z.ltb_ge total _)), (proj2 (Z.ltb_ge _ 16)) by lia. cbn [eval mret parser_ret].
  replace (total - Z.of_nat HDR_WRITE - 16) with (Z.of_nat (length a)) by lia. rewrite (proj2 (Z.ltb_ge len _)) by lia.
  assert (Eg : forall y : list Z, eval (get_mem (length a)) a y = Some (inr a, [], y)).
  { intros y. rewrite <- (app_nil_r a) at 2. by rewrite eval_get_mem. }
  rewrite eval_bind, Nat2Z.id, Eg. cbv beta iota. unfold smb2_compress_data. rewrite Ha, Hk. cbn [negb].
  replace (Z.to_nat len) with (length data) by lia. unfold a. rewrite decode_encode by done.
  rewrite (proj2 (Nat.eqb_neq _ _)) by lia. cbn [andb negb]. rewrite Hd, Z.eqb_refl. done.
Qed.

Lemma decompress_unchained algorithm msg len a x :
  smb2_compress_data algorithm true (drop HDR_WRITE msg) (Z.to_nat len) = inr a -> a <> [] ->
  length msg = (HDR_WRITE + Z.to_nat len)%nat -> Z.of_nat HDR_WRITE <= len <= kDefaultMaxIOSize ->
  malloc_ok (2 * len) = true ->
  let bs := SMB2_SIGNATURE_COMPRESSION ++ le_bytes 4 len ++ le_bytes 2 algorithm ++ le_bytes 2 SMB2_COMPRESSION_FLAG_NONE
            ++ le_bytes 4 (Z.of_nat HDR_WRITE) ++ take HDR_WRITE msg ++ a in
  eval (decompress (length bs) false (Z.of_nat (length bs))) bs x = Some (inr tt, [], msg).
Proof.
  intros E Hne Hlen Hl Hm bs. unfold kDefaultMaxIOSize in *.
  assert (Hw : Z.of_nat HDR_WRITE = 112) by done.
  assert (Hh : length (take HDR_WRITE msg) = HDR_WRITE) by (rewrite length_take; lia).
  assert (Hd : length (drop HDR_WRITE msg) = Z.to_nat len) by (rewrite length_drop; lia).
  unfold smb2_compress_data in E. destruct (is_lz algorithm) eqn:Ha; [|done]. destruct (scratch_ok algorithm) eqn:Hk; [|done].
  cbn [negb andb] in E. rewrite andb_false_r in E. injection E as <-.
  set (a := encode algorithm (drop HDR_WRITE msg) (Z.to_nat len)) in *.
  assert (Ht : length bs = (16 + HDR_WRITE + length a)%nat).
  { unfold bs. rewrite !length_app, !length_le_bytes, Hh. unfold SMB2_SIGNATURE_COMPRESSION. cbn [length]. lia. }
  assert (exists k total, length bs = S k /\ Z.of_nat (length bs) = total /\ total = 16 + Z.of_nat HDR_WRITE + Z.of_nat (length a))
    as (k & total & -> & -> & Htot) by (exists (length bs - 1)%nat; eexists; split_and!; [lia|done|lia]).
  clear Ht. subst bs. rewrite eval_header; [|unfold fits; cbn in *; lia|unfold kDefaultMaxIOSize; lia|done].
  cbn [decompress_loop]. rewrite (proj2 (Z.ltb_lt 0 len)) by lia.
  rewrite eval_bind. unfold a. rewrite one_unchained; [|done|done|exact Hne|done|lia|done|unfold kDefaultMaxIOSize; lia|done].
  rewrite Z.add_0_l.
  replace (decompress_loop k false len total len) with (mret len : parser (list Z) Z)
    by (destruct k; cbn [decompress_loop]; by rewrite Z.ltb_irrefl).
  cbn [eval mret parser_ret]. rewrite Z.eqb_refl. cbn [negb]. by rewrite take_drop.
Qed.

Lemma compressed_back fuel e r msg bs x (len := le_value (take 4 (drop 68 (take HDR_WRITE msg)))) :
  smb2_rq_compress_write fuel e r msg = Some (inr (Compressed bs)) ->
  (0 < chunk_len e)%nat -> Forall is_byte msg -> length msg = (HDR_WRITE + Z.to_nat len)%nat ->
  (if chaining e then Z.of_nat HDR_WRITE + len <= kDefaultMaxIOSize /\ malloc_ok (2 * (Z.of_nat HDR_WRITE + len)) = true
   else Z.of_nat HDR_WRITE <= len) ->
  eval (decompress (length bs) (chaining e) (Z.of_nat (length bs))) bs x = Some (inr tt, [], msg).
Proof.
  intros E Hcl Hby Hlen Hch. destruct (compressed_inv _ _ _ _ _ E) as (algorithm & Hl & _ & Hm & HC).
  fold len in Hl, Hm, HC. cbv zeta in HC. fold len in HC.
  rewrite (take_ge (drop HDR_WRITE msg)) in HC by (rewrite length_drop; lia).
  destruct (chaining e).
  - destruct HC as (out & Ec & ->). destruct Hch. eapply decompress_chained; eauto; lia.
  - destruct HC as (a & Ea & Hne & ->). eapply decompress_unchained; eauto; lia.
Qed.

(** C30: with compressors that decompress what they compressed, decompressing what a write
    was compressed to gives the request back, all of it: the header of the write and the
    data, whatever repetitions the chunks begin and end with and whichever chunks could be
    compressed.  The chunk length of the mount is positive and the message is the header and
    as much data as it says.  A chained message is at most as large as the decompressor
    takes, and has the memory for it; an unchained one must hold as much data as the header,
    which the decompressor takes as a part of the original size. *)
Theorem compressed_write_roundtrip fuel e r msg bs x (len := le_value (take 4 (drop 68 (take HDR_WRITE msg)))) :
  smb2_rq_compress_write fuel e r msg = Some (inr (Compressed bs)) ->
  (0 < chunk_len e)%nat -> Forall is_byte msg -> length msg = (HDR_WRITE + Z.to_nat len)%nat ->
  (if chaining e then Z.of_nat HDR_WRITE + len <= kDefaultMaxIOSize /\ malloc_ok (2 * (Z.of_nat HDR_WRITE + len)) = true
   else Z.of_nat HDR_WRITE <= len) ->
  eval (decompress (length bs) (chaining e) (Z.of_nat (length bs))) bs x = Some (inr tt, [], msg).
Proof. apply compressed_back. Qed.
End Messages.

(** ** Replies that are decompressed *)

Section Replies.
Context `{Codec}.

Lemma le_value_field n bs : Forall is_byte bs -> 0 <= le_value (take n bs).
Proof. intros Hb. apply le_value_bound. by apply list.Forall_take. Qed.

(** What is left of [bs] after [k] bytes at least; in a chained message what is appended
    to [x] is counted. *)
Definition progress_of (chained : bool) (orig cur : Z) (k : nat) (bs x : list Z) (r : Z + Z) (bs' x' : list Z) : Prop :=
  exists xs, x' = x ++ xs /\
  match r with
  | inr n => (length bs' + k <= length bs)%nat /\ Forall is_byte bs' /\ 0 <= n /\
             (chained = true -> Z.of_nat (length xs) = n /\ cur + n <= orig)
  | inl _ => chained = true -> xs = []
  end.

Lemma progress_fail chained orig cur k bs x e bs' : progress_of chained orig cur k bs x (inl e) bs' x.
Proof. exists []. by rewrite app_nil_r. Qed.

Ltac bytes := solve [assumption | repeat apply list.Forall_drop; assumption | constructor].

Lemma get_pattern_progress chained orig cur bs x :
  Forall is_byte bs -> wp (get_pattern (orig - cur)) (progress_of chained orig cur 0 bs x) bs x.
Proof.
  intros Hb. unfold get_pattern, append. repeat wp_step; try apply progress_fail. apply Z.ltb_ge in E.
  rewrite !length_drop in *. pose proof (le_value_field 4 (drop 2 (drop 1 (drop 1 bs))) ltac:(bytes)).
  eexists. split; [done|]. rewrite length_replicate, !length_drop. split_and!; [lia|bytes|lia..].
Qed.

(** Nothing is copied past the buffer as long as the compressed bytes are not more than the
    original ones. *)
Lemma get_lz_progress chained orig cur total algorithm len bs x :
  Forall is_byte bs -> 0 <= orig -> 0 <= total < 2 ^ 32 -> total - 16 <= orig -> 0 <= len ->
  (chained = true -> len - 4 <= orig) ->
  wp (get_lz chained orig (orig - cur) total algorithm len) (progress_of chained orig cur 0 bs x) bs x.
Proof.
  intros Hb Hc Ht Hto Hlen Hch. unfold get_lz. apply wp_bind.
  apply (wp_mono _ (fun r bs' x' => x' = x /\ (length bs' <= length bs)%nat /\ Forall is_byte bs' /\
    match r with inl _ => True | inr (ps, cl) => 0 <= ps /\ (chained = true -> cur + ps <= orig) /\ cl <= orig end)).
  2: { destruct chained.
    - repeat wp_step; (split; [done|]; split; [rewrite ?length_drop; cbn; lia|]; split; [bytes|try done]).
      apply Z.ltb_ge in E. pose proof (le_value_field 4 bs Hb). specialize (Hch eq_refl). lia.
    - repeat wp_step; (split; [done|]; split; [lia|]; split; [done|try done]).
      apply Z.ltb_ge in E, E0. unfold u32 in *. rewrite Z.mod_small in * by lia. split_and!; [lia|done|lia]. }
  intros [e|[ps cl]] bs1 x1 (-> & Hl1 & Hb1 & HP); cbn [on_value]; [apply progress_fail|]. destruct HP as (Hp1 & Hp2 & Hp3).
  rewrite (proj2 (Z.ltb_ge orig cl)) by lia. repeat wp_step; try apply progress_fail.
  destruct (smb2_compress_data _ _ _ _) as [e|d]; [apply progress_fail|].
  destruct (Z.eqb_spec (Z.of_nat (length d)) ps) as [Ed|]; cbn [negb]; [|apply progress_fail].
  unfold append. repeat wp_step. exists d. split_and!; [done|rewrite length_drop; lia|bytes|lia|auto].
Qed.

Lemma one_payload_progress chained orig cur total bs x :
  Forall is_byte bs -> 0 <= orig -> 0 <= total < 2 ^ 32 -> total - 16 <= orig -> Z.of_nat (length bs) <= orig + 8 ->
  wp (one_payload chained orig total cur) (progress_of chained orig cur 8 bs x) bs x.
Proof.
  intros Hb Ho Ht Hto Hl. unfold one_payload.
  do 2 (apply wp_bind, wp_get_le; intros ?; cbn [on_value]; [|apply progress_fail]). apply wp_bind. set (algorithm := le_value (take 2 bs)).
  apply (wp_mono _ (fun r bs' x' => exists xs, x' = x ++ xs /\ (chained = true -> xs = []) /\
    match r with inl _ => True | inr len => (length bs' + 8 <= length bs)%nat /\ Forall is_byte bs' /\ 0 <= len /\
      (chained = true -> len - 4 <= orig) end)).
  2: { pose proof (le_value_field 4 (drop 2 (drop 2 bs)) ltac:(bytes)) as Hv. destruct chained.
    - unfold chained_len. repeat wp_step; (exists []; rewrite app_nil_r; split; [done|]; split; [done|]; try done).
      rewrite !length_drop in *. split_and!; [lia|bytes|done|lia].
    - unfold unchained_offset, append.
      repeat wp_step; first [eexists; split; [reflexivity|split; done] | exists []; rewrite app_nil_r; split; [done|]; split; [done|]; try done | idtac].
      all: rewrite ?length_drop in *.
      + eexists. split; [reflexivity|]. split; [done|]. split_and!; [lia|bytes|lia|done].
      + split_and!; [lia|bytes|lia|done]. }
  intros [e|len] bs1 x1 (xs & -> & Hxs & HP); cbn [on_value].
  { by exists xs. }
  destruct HP as (Hl1 & Hb1 & Hlen & Hch).
  assert (HA : forall p, wp p (progress_of chained orig cur 0 bs1 (x ++ xs)) bs1 (x ++ xs) ->
    wp p (progress_of chained orig cur 8 bs x) bs1 (x ++ xs)).
  { intros p. apply wp_mono. intros r bs2 x2 (ys & -> & HR). exists (xs ++ ys). split; [by rewrite app_assoc|].
    destruct r as [e|n]; [intros Hc; by rewrite (Hxs Hc), (HR Hc)|]. destruct HR as (R1 & R2 & R3 & R4).
    split_and!; [lia|done|done|]. intros Hc. rewrite (Hxs Hc). by apply R4. }
  destruct (algorithm =? SMB2_COMPRESSION_NONE).
  - apply HA. unfold append. repeat wp_step; try apply progress_fail. apply Z.ltb_ge in E.
    eexists. split; [done|]. rewrite length_drop, length_take. split_and!; [lia|bytes|lia|lia].
  - destruct (algorithm =? SMB2_COMPRESSION_PATTERN_V1); [by apply HA, get_pattern_progress|].
    destruct (is_lz algorithm); [by apply HA, get_lz_progress|]. apply HA. wp_step. apply progress_fail.
Qed.

Lemma loop_progress fuel chained orig total cur bs x :
  Forall is_byte bs -> 0 <= orig -> 0 <= total < 2 ^ 32 -> total - 16 <= orig -> Z.of_nat (length bs) <= orig + 8 ->
  (length bs < fuel)%nat -> (chained = true -> Z.of_nat (length x) = cur /\ cur <= orig) ->
  wp (decompress_loop fuel chained orig total cur)
    (fun r _ x' => chained = true ->
       Z.of_nat (length x') <= orig /\ match r with inr n => Z.of_nat (length x') = n | inl _ => True end) bs x.
Proof.
  revert cur bs x. induction fuel as [|fuel IH]; intros cur bs x Hb Ho Ht Hto Hl Hf Hx; [lia|].
  cbn [decompress_loop]. destruct (Z.ltb_spec cur orig).
  - apply wp_bind. eapply wp_mono; [|by apply one_payload_progress].
    intros [e|n] bs1 x1 (xs & -> & HP); cbn [on_value].
    + intros Hc. rewrite (HP Hc), app_nil_r. destruct (Hx Hc). lia.
    + destruct HP as (P1 & P2 & P3 & P4). apply IH; [done|done|done|done|lia|lia|].
      intros Hc. destruct (Hx Hc), (P4 Hc). rewrite length_app. lia.
  - wp_step. intros Hc. destruct (Hx Hc). lia.
Qed.

(** Whatever a server sends as a compressed reply that is not longer than the reply it
    is said to stand for, decompressing it ends, and copies nothing outside its buffers.  A
    chained message that is accepted gives exactly as many bytes as it announces, and one
    that is not gives no more than these. *)
Theorem decompress_bounded chained bs x (orig := le_value (take 4 (drop 4 bs))) :
  Forall is_byte bs -> Z.of_nat (length bs) < 2 ^ 32 -> Z.of_nat (length bs) - 16 <= orig ->
  exists r rest out, eval (decompress (S (length bs)) chained (Z.of_nat (length bs))) bs x = Some (r, rest, out) /\
    (chained = true -> Z.of_nat (length out) <= orig /\ (r = inr tt -> Z.of_nat (length out) = orig)).
Proof.
  intros Hb Hl Ho. pose proof (le_value_field 4 (drop 4 bs) ltac:(bytes)) as Hv. fold orig in Hv.
  assert (HW : wp (decompress (S (length bs)) chained (Z.of_nat (length bs))) (fun r _ out =>
    chained = true -> Z.of_nat (length out) <= orig /\ (r = inr tt -> Z.of_nat (length out) = orig)) bs x).
  { unfold decompress. repeat wp_step; try (intros; cbn [length]; split; [lia|done]). fold orig.
    eapply wp_mono; [|apply (loop_progress _ _ orig)];
      [|bytes|done|lia|lia|rewrite !length_drop; lia|rewrite !length_drop; lia|by intros; cbn].
    intros [e|n] bs1 x1 HR; cbn [on_value]; [intros Hc; split; [by apply HR|done]|].
    destruct (Z.eqb_spec n orig) as [->|]; cbn [negb]; wp_step; intros Hc; (split; [by apply HR|]); [|done].
    intros _. by apply HR. }
  unfold wp in HW. destruct (eval _ bs x) as [[[r rest] out]|]; [|done]. by exists r, rest, out.
Qed.

(** The size of a compressed payload is compared with what is left of the reply only; a reply
    that announces less than it holds makes [md_get_mem] copy past the end of the buffer. *)
Theorem decompress_overflows orig algorithm xs psize x (total : Z) :
  0 < orig < 2 ^ 16 -> is_lz algorithm = true -> malloc_ok (2 * orig) = true -> 0 <= psize <= orig ->
  2 * orig < Z.of_nat (length xs) < 2 ^ 31 ->
  eval (decompress 1 true total)
    (SMB2_SIGNATURE_COMPRESSION ++ le_bytes 4 orig ++ le_bytes 2 algorithm ++ le_bytes 2 0
     ++ le_bytes 4 (Z.of_nat (length xs) + 4) ++ le_bytes 4 psize ++ xs) x = None.
Proof.
  intros Ho Ha Hm Hp Hl. rewrite eval_header; [|unfold fits; cbn; lia|unfold kDefaultMaxIOSize; lia|done].
  cbn [decompress_loop]. rewrite (proj2 (Z.ltb_lt 0 orig)) by lia. rewrite eval_bind. unfold one_payload.
  assert (1 <= algorithm <= 3) as Hal.
  { unfold is_lz, SMB2_COMPRESSION_LZNT1, SMB2_COMPRESSION_LZ77, SMB2_COMPRESSION_LZ77_HUFFMAN in Ha. lia. }
  assert (fits 2 algorithm /\ fits 2 0 /\ fits 4 (Z.of_nat (length xs) + 4) /\ fits 4 psize) as (? & ? & ? & ?)
    by (split_and!; unfold fits; cbn; lia).
  do 2 eval_step. rewrite eval_bind, eval_chained_len by (done || (rewrite length_app, length_le_bytes; lia)).
  cbv beta iota.
  rewrite (proj2 (Z.eqb_neq algorithm SMB2_COMPRESSION_NONE)) by (unfold SMB2_COMPRESSION_NONE; lia).
  rewrite (proj2 (Z.eqb_neq algorithm SMB2_COMPRESSION_PATTERN_V1)) by (unfold SMB2_COMPRESSION_PATTERN_V1; lia).
  rewrite Ha. unfold get_lz. rewrite eval_bind. eval_step. rewrite Z.sub_0_r.
  rewrite (proj2 (Z.ltb_ge orig psize)), (proj2 (Z.leb_gt _ 4)) by lia. cbn [eval mret parser_ret].
  by rewrite (proj2 (Z.ltb_lt orig _)) by lia.
Qed.
End Replies.

(** ** A compressor to try it with

    A pair of bytes over and over again is compressed to the pair and its number. *)
Definition pairs (a b : Z) (n : nat) : list Z := mjoin (replicate n [a; b]).
Definition demo_encode (_ : Z) (data : list Z) (cap : nat) : list Z :=
  let n := (length data / 2)%nat in
  let a := nth 0 data 0 in let b := nth 1 data 0 in
  if (3 <=? cap)%nat && bool_decide (pairs a b n = data) then [a; b; Z.of_nat n] else [].
Definition demo_decode (_ : Z) (xs : list Z) (_ : nat) : list Z :=
  match xs with [a; b; n] => pairs a b (Z.to_nat n) | _ => [] end.
#[local] Instance demo_codec : Codec :=
  {| encode := demo_encode; decode := demo_decode; scratch_ok := fun _ => true; malloc_ok := fun _ => true |}.

#[local] Instance demo_laws : CodecLaws.
Proof.
  split; cbn [encode decode demo_codec]; unfold demo_encode, demo_decode; intros a d n.
  - destruct (Nat.leb_spec 3 n); cbn [andb]; [|cbn; lia]. destruct (bool_decide _); cbn; lia.
  - destruct (3 <=? n)%nat; cbn [andb]; [|done]. destruct (bool_decide _) eqn:E; [|done].
    apply bool_decide_eq_true in E. intros _. by rewrite Nat2Z.id.
Qed.

(** A write of 32 bytes: a repetition, pairs, a few bytes and another repetition, in chunks
    of 18. *)
Definition demo_data : list Z := replicate 6 7 ++ pairs 1 2 6 ++ [9] ++ [3; 4; 5; 6] ++ replicate 9 8.
Definition demo_msg : list Z := replicate 68 0 ++ le_bytes 4 32 ++ replicate 40 1 ++ demo_data.
Definition demo_env (chained : bool) : comp_env := CompEnv true LZ77_ENABLED chained 2 18.
Definition demo_rq : comp_rq := CompRq false SMB2_WRITE false.
Definition demo_out : list Z :=
  match smb2_rq_compress_write 200 (demo_env true) demo_rq demo_msg with Some (inr (Compressed bs)) => bs | _ => [] end.

Lemma compress_write_ends_witness : is_Some (smb2_rq_compress_write (length demo_msg) (demo_env true) demo_rq demo_msg).
Proof. apply compress_write_ends. cbn. lia. Defined.

Lemma compressed_write_roundtrip_witness :
  eval (decompress (length demo_out) true (Z.of_nat (length demo_out))) demo_out [] = Some (inr tt, [], demo_msg) /\
  drop 128 demo_out = put_pattern 7 6 ++ put_lz SMB2_COMPRESSION_LZ77 [1; 2; 6] 12 ++ put_none 0 [9; 3; 4; 5; 6] ++ put_pattern 8 9.
Proof.
  split; [|by vm_compute].
  apply (compressed_write_roundtrip 200 (demo_env true) demo_rq demo_msg demo_out []).
  - by vm_compute.
  - cbn. lia.
  - apply (bool_decide_unpack _). by vm_compute.
  - by vm_compute.
  - by vm_compute.
Defined.

Definition demo_reply : list Z := SMB2_SIGNATURE_COMPRESSION ++ le_bytes 4 20 ++ put_pattern 5 20.

Lemma decompress_bounded_witness : exists r rest out,
  eval (decompress (S (length demo_reply)) true (Z.of_nat (length demo_reply))) demo_reply [] = Some (r, rest, out) /\
  (true = true -> Z.of_nat (length out) <= le_value (take 4 (drop 4 demo_reply)) /\
                  (r = inr tt -> Z.of_nat (length out) = le_value (take 4 (drop 4 demo_reply)))).
Proof.
  apply (decompress_bounded true demo_reply []); [|by vm_compute..].
  apply (bool_decide_unpack _). by vm_compute.
Defined.

(** A reply that says it stands for one byte, and holds three. *)
Lemma decompress_overflows_witness : eval (decompress 1 true 27)
  (SMB2_SIGNATURE_COMPRESSION ++ le_bytes 4 1 ++ le_bytes 2 SMB2_COMPRESSION_LZ77 ++ le_bytes 2 0
   ++ le_bytes 4 7 ++ le_bytes 4 1 ++ [1; 2; 3]) [] = None.
Proof. apply (decompress_overflows 1 SMB2_COMPRESSION_LZ77 [1; 2; 3] 1 [] 27); cbn; lia || done. Defined.
