(* ===== verification/Setup.v ===== *)
(** * Session setup: integrity of the exchange and the keys

    [smb_crypt.c] hashes the messages of the negotiation and of the session setup
    ([smb311_pre_auth_integrity_hash_*]) and derives the keys of the session from this hash
    and from the key of the authentication.  [smb_iod.c] decides which messages are hashed,
    and keeps the last reply of the server; [smb_gss.c] checks its signature once there is a
    key.  The hash functions and the key derivation of corecrypto are the class [Kdf]. *)
From Stdlib Require Import Ascii String.
From S2P Require Import Prelude Sign Seal.
Import Errno.
Local Open Scope Z_scope.

Definition SHA512_DIGEST_LENGTH : nat := 64.
Definition SMB3_256BIT_KEY_LEN := 32.
Definition SMB2_KRB5_SESSION_KEYLEN : nat := 16.
Definition STATUS_SUCCESS := 0.
Definition STATUS_MORE_PROCESSING_REQUIRED := 0xc0000016.

(** [kdf key label context len] is [ccnistkdf_ctr_hmac] with SHA-256: an error or a key. *)
Class Kdf := {
  kdf : list Z -> list Z -> list Z -> Z -> Z + list Z;
  sha512 : list Z -> list Z;
  md5 : list Z -> list Z
}.

(** A string with the 0 at its end. *)
Fixpoint chars (s : string) : list Z :=
  match s with
  | EmptyString => [0]
  | String c r => Z.of_nat (nat_of_ascii c) :: chars r
  end.

(** What is used of a session. *)
Record auth_session := AuthSession {
  au_sign : session;
  au_seal : seal_session;
  full_session_mackey : list Z;
  guest_access : bool;              (* SMBV_GUEST_ACCESS *)
  sfs_access : bool;                (* SMBV_SFS_ACCESS *)
  neg_smb3_enabled : bool           (* SMBV_NEG_SMB3_ENABLED *)
}.
Definition set_sign (x : session) (s : auth_session) : auth_session :=
  AuthSession x (au_seal s) (full_session_mackey s) (guest_access s) (sfs_access s) (neg_smb3_enabled s).
Definition set_seal (x : seal_session) (s : auth_session) : auth_session :=
  AuthSession (au_sign s) x (full_session_mackey s) (guest_access s) (sfs_access s) (neg_smb3_enabled s).
Definition set_full (x : list Z) (s : auth_session) : auth_session :=
  AuthSession (au_sign s) (au_seal s) x (guest_access s) (sfs_access s) (neg_smb3_enabled s).

Definition set_mackey (x : option (list Z)) (s : session) : session :=
  Session (smb3_or_later s) (signing_on s) (anonymous s) x (session_smb3_signing_key s) (session_smb3_signing_algorithm s).
Definition set_signing_key (x : key) (s : session) : session :=
  Session (smb3_or_later s) (signing_on s) (anonymous s) (session_mackey s) x (session_smb3_signing_algorithm s).
Definition set_signing_on (x : bool) (s : session) : session :=
  Session (smb3_or_later s) x (anonymous s) (session_mackey s) (session_smb3_signing_key s) (session_smb3_signing_algorithm s).
Definition set_keys (e d : list Z) (s : seal_session) : seal_session :=
  SealSession (encrypt_ciper s) e d (nonce_high s) (nonce_low s) (smb311 s) (session_id s) (decrypt_buffer s).

(** What is used of a channel. *)
Record auth_iod := AuthIod {
  alternate_channel : bool;
  au_channel : channel;
  iod_mackey : option (list Z);
  iod_pre_auth_int_hash : list Z;
  iod_pre_auth_int_hash_neg : list Z;
  iod_sess_setup_reply : option (list Z);
  iod_sess_setup_message_id : Z
}.
Definition set_channel (x : channel) (i : auth_iod) : auth_iod :=
  AuthIod (alternate_channel i) x (iod_mackey i) (iod_pre_auth_int_hash i) (iod_pre_auth_int_hash_neg i)
    (iod_sess_setup_reply i) (iod_sess_setup_message_id i).
Definition set_hash (x : list Z) (i : auth_iod) : auth_iod :=
  AuthIod (alternate_channel i) (au_channel i) (iod_mackey i) x (iod_pre_auth_int_hash_neg i)
    (iod_sess_setup_reply i) (iod_sess_setup_message_id i).
Definition set_hash_neg (x : list Z) (i : auth_iod) : auth_iod :=
  AuthIod (alternate_channel i) (au_channel i) (iod_mackey i) (iod_pre_auth_int_hash i) x
    (iod_sess_setup_reply i) (iod_sess_setup_message_id i).
Definition set_reply (x : option (list Z)) (i : auth_iod) : auth_iod :=
  AuthIod (alternate_channel i) (au_channel i) (iod_mackey i) (iod_pre_auth_int_hash i) (iod_pre_auth_int_hash_neg i)
    x (iod_sess_setup_message_id i).
Definition set_reply_mid (x : Z) (i : auth_iod) : auth_iod :=
  AuthIod (alternate_channel i) (au_channel i) (iod_mackey i) (iod_pre_auth_int_hash i) (iod_pre_auth_int_hash_neg i)
    (iod_sess_setup_reply i) x.

Section Setup.
Context `{Mac} `{Kdf}.

(** ** The hash of the exchange *)

(** The hash is fed the mbufs of the message one after the other. *)
Definition smb311_pre_auth_integrity_hash_init (command : Z) (m : chain) (i : auth_iod) : auth_iod :=
  set_hash (sha512 ((if command =? SMB2_NEGOTIATE then replicate 64 0 else iod_pre_auth_int_hash_neg i) ++ concat m)) i.

Definition smb311_pre_auth_integrity_hash_update (m : chain) (i : auth_iod) : auth_iod :=
  set_hash (sha512 (iod_pre_auth_int_hash i ++ concat m)) i.

(** A request is sent; [rqsessionid] is the session ID in it. *)
Definition hash_sent (s : auth_session) (command rqsessionid : Z) (m : chain) (i : auth_iod) : auth_iod :=
  let i := if (command =? SMB2_NEGOTIATE) && neg_smb3_enabled s
           then smb311_pre_auth_integrity_hash_init SMB2_NEGOTIATE m i else i in
  if (command =? SMB2_SESSION_SETUP) && smb311 (au_seal s) then
    if rqsessionid =? 0 then smb311_pre_auth_integrity_hash_init SMB2_SESSION_SETUP m i
    else smb311_pre_auth_integrity_hash_update m i
  else i.

(** The reply is saved, up to 64 KB of it, if there is memory for it. *)
Definition save_reply (m : chain) (mem : bool) (i : auth_iod) : auth_iod :=
  set_reply (if mem then Some (take (64 * 1024) (concat m)) else None) i.

(** Is the reply to a request of this command hashed? *)
Definition hash_reply (s : auth_session) (command nt_status : Z) (i : auth_iod) : bool :=
  if command =? SMB2_NEGOTIATE then negb (bool_decide (iod_pre_auth_int_hash i = replicate SHA512_DIGEST_LENGTH 0))
  else (command =? SMB2_SESSION_SETUP) && smb311 (au_seal s) && (nt_status =? STATUS_MORE_PROCESSING_REQUIRED).

(** The last reply of a session setup. *)
Definition last_reply (s : auth_session) (message_id : Z) (m : chain) (mem : bool) (i : auth_iod) : auth_iod :=
  let i := save_reply m mem i in
  let i := if alternate_channel i then set_channel (Channel true (iod_smb3_signing_key (au_channel i))) i else i in
  set_reply_mid message_id i.

(** The reply to a request [command] with [message_id] comes in. *)
Definition hash_received (s : auth_session) (command message_id nt_status flags : Z) (m : chain) (mem : bool)
    (i : auth_iod) : auth_iod :=
  let hashed := hash_reply s command nt_status i in
  let i := if (command =? SMB2_SESSION_SETUP) && negb hashed && smb3_or_later (au_sign s)
              && (nt_status =? STATUS_SUCCESS) && negb (Z.land flags SMB2_FLAGS_SIGNED =? 0)
           then last_reply s message_id m mem i else i in
  if hashed then
    let i := smb311_pre_auth_integrity_hash_update m i in
    if command =? SMB2_NEGOTIATE then set_hash_neg (iod_pre_auth_int_hash i) i else i
  else i.

(** ** Keys *)

Definition smb_reset_sig (s : auth_session) : auth_session :=
  let g := au_sign s in
  set_full [] (set_sign (set_signing_key (Key (key_bytes (session_smb3_signing_key g)) 0) (set_mackey None g)) s).

(** A key has come from the authentication; [session_mackeylen] is the length that is used of the key of the authentication. *)
Definition smb_gss_session_key (okey : list Z) (s : auth_session) : auth_session :=
  let s := smb_reset_sig s in
  set_full okey (set_sign (set_mackey (Some (take SMB2_KRB5_SESSION_KEYLEN okey)) (au_sign s)) s).

(** [uptime] are the seconds since the start. *)
Definition smb3_init_nonce (uptime : Z) (s : auth_session) : auth_session :=
  let digest := md5 (default [] (session_mackey (au_sign s)) ++ le_bytes 8 uptime ++ le_bytes 8 (session_id (au_seal s))) in
  set_seal (set_nonce (le_value (take 8 digest)) (le_value (take 8 (drop 8 digest))) (au_seal s)) s.

Definition aes_256 (cipher : Z) : bool :=
  (cipher =? SMB2_ENCRYPTION_AES_256_CCM) || (cipher =? SMB2_ENCRYPTION_AES_256_GCM).

(** [session_smb3_signing_key] or that of a channel. *)
Definition derive_signing (is311 : bool) (mackey hash : list Z) : Z + list Z :=
  if is311 then kdf mackey (chars "SMBSigningKey") hash SMB3_KEY_LEN
  else kdf mackey (chars "SMB2AESCMAC") (chars "SmbSign") SMB3_KEY_LEN.

(** One of the two keys of the ciphers. *)
Definition derive_cipher (s : auth_session) (mackey hash label311 context : list Z) : Z + list Z :=
  if smb311 (au_seal s) then
    if aes_256 (encrypt_ciper (au_seal s)) then kdf (full_session_mackey s) label311 hash SMB3_256BIT_KEY_LEN
    else kdf mackey label311 hash SMB3_KEY_LEN
  else kdf mackey (chars "SMB2AESCCM") context SMB3_KEY_LEN.

Definition error_of (r : Z + list Z) : Z := match r with inl e => e | inr _ => 0 end.
Definition key_of (r : Z + list Z) : list Z := match r with inl _ => [] | inr k => k end.

(** The error is that of the last of the three keys. *)
Definition smb3_derive_keys (uptime : Z) (i : auth_iod) (s : auth_session) : Z * auth_session :=
  let old := session_smb3_signing_key (au_sign s) in
  let s := set_sign (set_signing_key (Key (key_bytes old) 0) (au_sign s)) s in
  let s := set_seal (set_keys [] [] (au_seal s)) s in
  let s := smb3_init_nonce uptime s in
  match session_mackey (au_sign s) with
  | None => (EINVAL, s)
  | Some mackey =>
      let hash := iod_pre_auth_int_hash i in
      let sg := derive_signing (smb311 (au_seal s)) mackey hash in
      let s := match sg with
               | inr k => set_sign (set_signing_key (Key k SMB3_KEY_LEN) (au_sign s)) s
               | inl _ => s
               end in
      let e := derive_cipher s mackey hash (chars "SMBC2SCipherKey") (chars "ServerIn ") in
      let d := derive_cipher s mackey hash (chars "SMBS2CCipherKey") (chars "ServerOut") in
      (error_of d, set_seal (set_keys (key_of e) (key_of d) (au_seal s)) s)
  end.

Definition smb3_derive_channel_keys (i : auth_iod) (s : auth_session) : Z * auth_iod :=
  match iod_mackey i with
  | None => (EINVAL, i)
  | Some mackey =>
      let ch := au_channel i in
      match derive_signing (smb311 (au_seal s)) mackey (iod_pre_auth_int_hash i) with
      | inl e => (e, set_channel (Channel (use_channel_keys ch) (Key (key_bytes (iod_smb3_signing_key ch)) 0)) i)
      | inr k => (0, set_channel (Channel (use_channel_keys ch) (Key k SMB3_KEY_LEN)) i)
      end
  end.

(** ** The end of a session setup *)

Definition has_guest_access (s : auth_session) : bool := guest_access s || sfs_access s.
Definition has_anonymous_access (s : auth_session) : bool := anonymous (au_sign s) || sfs_access s.

(** The saved reply, if there is one, is checked and freed. *)
Definition check_setup_reply (i : auth_iod) (s : auth_session) : Z * auth_iod :=
  match iod_sess_setup_reply i with
  | None => (0, i)
  | Some reply =>
      (smb3_verify_session_setup (au_sign s) (au_channel i) (iod_sess_setup_message_id i) reply, set_reply None i)
  end.

(** [smb_gss_ssnsetup] after the exchange, whose error is [error]; [act_guest] is
    [SMB_ACT_GUEST] of the last reply.  The log off of the session is left out. *)
Definition smb_gss_ssnsetup_end (uptime error : Z) (act_guest : bool) (i : auth_iod) (s : auth_session)
  : Z * auth_iod * auth_session :=
  let error := if (error =? 0) && negb (has_guest_access s) && negb (has_anonymous_access s) && act_guest
               then EAUTH else error in
  let s := if (error =? 0) && act_guest then smb_reset_sig (set_sign (set_signing_on false (au_sign s)) s) else s in
  let s := if negb (error =? 0) then smb_reset_sig s else s in
  let on3 := (error =? 0) && smb3_or_later (au_sign s) in
  let derive_key :=
    on3 && (if smb311 (au_seal s) then negb act_guest
            else negb (has_guest_access s) && negb (has_anonymous_access s)) in
  let i := if on3 && smb311 (au_seal s) && act_guest then set_reply None i else i in
  if derive_key then
    let '(err, s) := smb3_derive_keys uptime i s in
    if negb (err =? 0) then (EAUTH, i, smb_reset_sig s)
    else
      let '(err, i) := check_setup_reply i s in
      if negb (err =? 0) then (EAUTH, i, smb_reset_sig s) else (0, i, s)
  else (error, i, s).

(** The same for an alternate channel. *)
Definition smb_gss_alt_ch_session_setup_end (error : Z) (act_guest : bool) (i : auth_iod) (s : auth_session)
  : Z * auth_iod :=
  let error := if (error =? 0) && negb (has_guest_access s) && negb (has_anonymous_access s) && act_guest
               then EAUTH else error in
  let derive_key :=
    (error =? 0) && smb3_or_later (au_sign s)
    && (smb311 (au_seal s) || (negb (has_guest_access s) && negb (has_anonymous_access s))) in
  if derive_key then
    let '(err, i) := smb3_derive_channel_keys i s in
    if negb (err =? 0) then (EAUTH, i)
    else
      let '(err, i) := check_setup_reply i s in
      if negb (err =? 0) then (EAUTH, i) else (0, i)
  else (error, i).
End Setup.
