(* ===== verification/SetupTheorems.v ===== *)
(** * Session setup: theorems *)
From Stdlib Require Import String.
From S2P Require Import Prelude Sign SignTheorems Seal Setup.
Import Errno.
Local Open Scope Z_scope.

(** ** The exchange as the messages that were hashed *)

Inductive event :=
  | Sent (command rqsessionid : Z) (m : chain)
  | Received (command message_id nt_status flags : Z) (m : chain) (mem : bool).

Section Transcript.
Context `{Mac} `{Kdf}.

Definition step (s : auth_session) (i : auth_iod) (ev : event) : auth_iod :=
  match ev with
  | Sent command sid m => hash_sent s command sid m i
  | Received command mid st flags m mem => hash_received s command mid st flags m mem i
  end.
Definition run (s : auth_session) (evs : list event) (i : auth_iod) : auth_iod := fold_left (step s) evs i.

(** The hash of a list of messages. *)
Definition hash_of (ms : list (list Z)) : list Z :=
  fold_left (fun h m => sha512 (h ++ m)) ms (replicate SHA512_DIGEST_LENGTH 0).

(** The messages of the negotiation, and those that count at the moment. *)
Record transcript := Transcript { t_neg : list (list Z); t_cur : list (list Z) }.

Definition t_step (s : auth_session) (t : transcript) (ev : event) : transcript :=
  match ev with
  | Sent command sid m =>
      if command =? SMB2_NEGOTIATE then if neg_smb3_enabled s then Transcript (t_neg t) [concat m] else t
      else if (command =? SMB2_SESSION_SETUP) && smb311 (au_seal s) then
        Transcript (t_neg t) ((if sid =? 0 then t_neg t else t_cur t) ++ [concat m])
      else t
  | Received command _ st _ m _ =>
      if command =? SMB2_NEGOTIATE then
        if bool_decide (hash_of (t_cur t) = replicate SHA512_DIGEST_LENGTH 0) then t
        else Transcript (t_cur t ++ [concat m]) (t_cur t ++ [concat m])
      else if (command =? SMB2_SESSION_SETUP) && smb311 (au_seal s) && (st =? STATUS_MORE_PROCESSING_REQUIRED)
      then Transcript (t_neg t) (t_cur t ++ [concat m]) else t
  end.
Definition t_run (s : auth_session) (evs : list event) : transcript := fold_left (t_step s) evs (Transcript [] []).

Definition hashes (i : auth_iod) (t : transcript) : Prop :=
  iod_pre_auth_int_hash i = hash_of (t_cur t) /\ iod_pre_auth_int_hash_neg i = hash_of (t_neg t).

Arguments hash_of : simpl never.

Lemma hash_of_snoc ms m : hash_of (ms ++ [m]) = sha512 (hash_of ms ++ m).
Proof. unfold hash_of. by rewrite fold_left_app. Qed.

Lemma step_hashes s i t ev : hashes i t -> hashes (step s i ev) (t_step s t ev).
Proof.
  intros [E1 E2]. destruct ev as [command sid m|command mid st flags m mem]; cbn [step t_step].
  - unfold hash_sent, smb311_pre_auth_integrity_hash_init, smb311_pre_auth_integrity_hash_update.
    destruct (Z.eqb_spec command SMB2_NEGOTIATE) as [->|]; cbn [andb Z.eqb SMB2_NEGOTIATE SMB2_SESSION_SETUP].
    + by destruct (neg_smb3_enabled s).
    + destruct ((command =? SMB2_SESSION_SETUP) && smb311 (au_seal s)); [|done].
      change (SMB2_SESSION_SETUP =? SMB2_NEGOTIATE) with false. cbv iota.
      destruct (sid =? 0); split; cbn; rewrite ?hash_of_snoc; congruence.
  - unfold hash_received, hash_reply, smb311_pre_auth_integrity_hash_update, last_reply, save_reply.
    destruct (Z.eqb_spec command SMB2_NEGOTIATE) as [->|]; cbn [andb Z.eqb SMB2_NEGOTIATE SMB2_SESSION_SETUP].
    + rewrite E1. destruct (bool_decide _); [done|]. cbn [negb]. split; cbn; rewrite hash_of_snoc; congruence.
    + destruct ((command =? SMB2_SESSION_SETUP) && smb311 (au_seal s) && (st =? STATUS_MORE_PROCESSING_REQUIRED)) eqn:Eh;
        cbn [negb andb].
      * rewrite andb_false_r. cbn [andb]. split; cbn; rewrite ?hash_of_snoc; congruence.
      * rewrite andb_true_r. destruct (_ && negb (Z.land flags SMB2_FLAGS_SIGNED =? 0)); [|done]. by destruct (alternate_channel _).
Qed.

Lemma run_hashes s evs i : hashes i (Transcript [] []) -> hashes (run s evs i) (t_run s evs).
Proof.
  unfold t_run, run. generalize (Transcript [] []). revert i.
  induction evs as [|ev evs IH]; intros i t Hi; [done|]. apply IH. by apply step_hashes.
Qed.

(** The hash that the keys are derived from is that of a list of messages: the last
    negotiation, and after it the requests and replies of the last attempt to set the
    session up, in order; what went before, and the last reply, do not count. *)
Theorem hash_is_of_transcript s evs i :
  iod_pre_auth_int_hash i = replicate SHA512_DIGEST_LENGTH 0 ->
  iod_pre_auth_int_hash_neg i = replicate SHA512_DIGEST_LENGTH 0 ->
  iod_pre_auth_int_hash (run s evs i) = hash_of (t_cur (t_run s evs)) /\
  iod_pre_auth_int_hash_neg (run s evs i) = hash_of (t_neg (t_run s evs)).
Proof.
  intros E1 E2. by apply run_hashes.
Qed.

(** What is known of the hash: its length. *)
Class KdfLaws : Prop := { sha512_length : forall x, length (sha512 x) = SHA512_DIGEST_LENGTH }.
Context `{!KdfLaws}.

Lemma length_hash_of ms : length (hash_of ms) = SHA512_DIGEST_LENGTH.
Proof.
  destruct ms as [|m ms _] using rev_ind; [apply length_replicate|]. rewrite hash_of_snoc. apply sha512_length.
Qed.

(** A collision, or an input of the hash that gives zeros. *)
Definition broken_hash : Prop :=
  (exists x y, x <> y /\ sha512 x = sha512 y) \/ exists x, sha512 x = replicate SHA512_DIGEST_LENGTH 0.

Lemma hash_of_inj ms ms' : hash_of ms = hash_of ms' -> ms = ms' \/ broken_hash.
Proof.
  revert ms'. induction ms as [|m ms IH] using rev_ind; intros ms'; destruct ms' as [|m' ms' _] using rev_ind;
    rewrite ?hash_of_snoc; intros E.
  - by left.
  - right. right. by exists (hash_of ms' ++ m').
  - right. right. by exists (hash_of ms ++ m).
  - destruct (decide (hash_of ms ++ m = hash_of ms' ++ m')) as [Ea|Hne].
    + apply app_inj_1 in Ea as [Eh ->]; [|by rewrite !length_hash_of].
      destruct (IH _ Eh) as [->|Hb]; [by left|by right].
    + right. left. by exists (hash_of ms ++ m), (hash_of ms' ++ m').
Qed.

(** Two exchanges that end with the same hash are the same exchange, message by message:
    who changes a message of one side, of the negotiation or of the session setup, has broken
    SHA-512, or the keys of both sides differ. *)
Theorem same_hash_same_messages s s' evs evs' i i' :
  hashes i (Transcript [] []) -> hashes i' (Transcript [] []) ->
  iod_pre_auth_int_hash (run s evs i) = iod_pre_auth_int_hash (run s' evs' i') ->
  t_cur (t_run s evs) = t_cur (t_run s' evs') \/ broken_hash.
Proof.
  intros Hi Hi' E. destruct (run_hashes s evs i Hi) as [E1 _]. destruct (run_hashes s' evs' i' Hi') as [E2 _].
  rewrite E1, E2 in E. by apply hash_of_inj.
Qed.
End Transcript.

(** ** The last reply and the keys *)

Section Ends.
Context `{Mac} `{Kdf}.

(** The reply with zeros in place of its signature. *)
Definition setup_blank (reply : list Z) : list Z :=
  take SMB2SIGOFF reply ++ replicate SMB2SIGLEN 0 ++ drop (SMB2SIGOFF + SMB2SIGLEN) reply.

(** The signature of [reply] under [k]. *)
Definition setup_signed (algorithm : Z) (k reply : list Z) (mid : Z) : Prop :=
  exists mac, smb3_get_signature_one_shot algorithm k (setup_blank reply) mid SMB2_SESSION_SETUP true = inr mac /\
    take SMB2SIGLEN (drop SMB2SIGOFF reply) = take SMB2SIGLEN mac.

Lemma verify_setup_spec s ch mid reply :
  smb3_verify_session_setup s ch mid reply = 0 ->
  let k := if use_channel_keys ch then iod_smb3_signing_key ch else session_smb3_signing_key s in
  SMB3_KEY_LEN <= key_len k /\ setup_signed (session_smb3_signing_algorithm s) (key_bytes k) reply mid.
Proof.
  unfold smb3_verify_session_setup. destruct (_ <? _)%nat; [done|]. cbn zeta.
  set (k := if use_channel_keys ch then _ else _). destruct (Z.ltb_spec (key_len k) SMB3_KEY_LEN); [done|].
  destruct (smb3_get_signature_one_shot _ _ _ _ _ _) as [|mac] eqn:E; [done|]. intros Hc. split; [done|].
  exists mac. split; [exact E|]. unfold cc_cmp_safe in Hc. case_bool_decide as Eb; [|done].
  by rewrite take_take, Nat.min_id in Eb.
Qed.

(** The keys that [smb3_derive_keys] leaves. *)
Lemma derive_keys_spec uptime i s err s' : smb3_derive_keys uptime i s = (err, s') ->
  session_smb3_signing_algorithm (au_sign s') = session_smb3_signing_algorithm (au_sign s) /\
  match session_mackey (au_sign s) with
  | None => err = EINVAL /\ key_len (session_smb3_signing_key (au_sign s')) = 0
  | Some mackey =>
      err = error_of (derive_cipher s mackey (iod_pre_auth_int_hash i) (chars "SMBS2CCipherKey") (chars "ServerOut")) /\
      match derive_signing (smb311 (au_seal s)) mackey (iod_pre_auth_int_hash i) with
      | inr k => session_smb3_signing_key (au_sign s') = Key k SMB3_KEY_LEN
      | inl _ => key_len (session_smb3_signing_key (au_sign s')) = 0
      end
  end.
Proof.
  unfold smb3_derive_keys. cbn. destruct (session_mackey (au_sign s)) as [mackey|]; [|by intros [= <- <-]].
  destruct (derive_signing _ _ _) as [e|k]; intros [= <- <-]; cbn; done.
Qed.

(** C4: on SMB 3.1.1 a session setup whose last reply was signed ends well only if this
    signature is right under the key that is derived from the key of the authentication and
    from the hash of the exchange; the key is the session's from then on. *)
Theorem setup_reply_authentic uptime i s reply i' s' :
  smb_gss_ssnsetup_end uptime 0 false i s = (0, i', s') ->
  smb3_or_later (au_sign s) = true -> smb311 (au_seal s) = true ->
  iod_sess_setup_reply i = Some reply -> use_channel_keys (au_channel i) = false ->
  exists mackey k, session_mackey (au_sign s) = Some mackey /\
    kdf mackey (chars "SMBSigningKey") (iod_pre_auth_int_hash i) SMB3_KEY_LEN = inr k /\
    setup_signed (session_smb3_signing_algorithm (au_sign s)) k reply (iod_sess_setup_message_id i) /\
    session_smb3_signing_key (au_sign s') = Key k SMB3_KEY_LEN /\ iod_sess_setup_reply i' = None.
Proof.
  intros E H3 H311 Hr Hu. unfold smb_gss_ssnsetup_end in E. rewrite !andb_false_r in E.
  cbn [Z.eqb andb negb] in E. rewrite H3, H311 in E. cbn [andb negb] in E.
  destruct (smb3_derive_keys uptime i s) as [err s1] eqn:Ed. pose proof (derive_keys_spec _ _ _ _ _ Ed) as [Ha Hk].
  destruct (Z.eqb_spec err 0) as [->|]; cbn [negb] in E; [|done].
  unfold check_setup_reply in E. rewrite Hr in E.
  destruct (Z.eqb_spec (smb3_verify_session_setup (au_sign s1) (au_channel i) (iod_sess_setup_message_id i) reply) 0) as [Ev|];
    cbn [negb] in E; [|done]. injection E as <- <-.
  apply verify_setup_spec in Ev. rewrite Hu in Ev. cbn zeta in Ev. destruct Ev as [Hl Hs].
  destruct (session_mackey (au_sign s)) as [mackey|]; [|by destruct Hk as [_ Hk]; rewrite Hk in Hl].
  destruct Hk as [_ Hk]. rewrite H311 in Hk. unfold derive_signing in Hk.
  destruct (kdf mackey _ _ _) as [e|k] eqn:Ek; [by rewrite Hk in Hl|]. rewrite Hk, Ha in Hs.
  exists mackey, k. by split_and!.
Qed.

(** A last reply without the flag for signed messages is not saved, and with nothing saved
    nothing is checked: on SMB 3.1.1 too the setup ends well. *)
Theorem unsigned_setup_accepted uptime i s mackey k kd mid flags m mem :
  smb3_or_later (au_sign s) = true -> smb311 (au_seal s) = true -> session_mackey (au_sign s) = Some mackey ->
  iod_sess_setup_reply i = None -> Z.land flags SMB2_FLAGS_SIGNED = 0 ->
  kdf mackey (chars "SMBSigningKey") (iod_pre_auth_int_hash i) SMB3_KEY_LEN = inr k ->
  derive_cipher s mackey (iod_pre_auth_int_hash i) (chars "SMBS2CCipherKey") (chars "ServerOut") = inr kd ->
  (smb_gss_ssnsetup_end uptime 0 false
     (hash_received s SMB2_SESSION_SETUP mid STATUS_SUCCESS flags m mem i) s).1.1 = 0.
Proof.
  intros H3 H311 Hm Hr Hf Hk Hd.
  assert (Ei : hash_received s SMB2_SESSION_SETUP mid STATUS_SUCCESS flags m mem i = i).
  { unfold hash_received, hash_reply. cbn [Z.eqb SMB2_SESSION_SETUP SMB2_NEGOTIATE].
    change (STATUS_SUCCESS =? STATUS_MORE_PROCESSING_REQUIRED) with false. rewrite !andb_false_r, Hf. cbn [negb andb].
    by rewrite !andb_false_r. }
  rewrite Ei. unfold smb_gss_ssnsetup_end. rewrite !andb_false_r. cbn [Z.eqb andb negb]. rewrite H3, H311. cbn [andb negb].
  rewrite ?andb_false_r. destruct (smb3_derive_keys uptime i s) as [err s1] eqn:Ed.
  apply derive_keys_spec in Ed as [_ HK]. rewrite Hm in HK. destruct HK as [-> _]. rewrite Hd. cbn [error_of Z.eqb negb].
  unfold check_setup_reply. by rewrite Hr.
Qed.

(** The derivation reports only the error of its last key: without a key to sign with, and
    without one to encrypt with, it has succeeded. *)
Theorem signing_key_error_masked uptime i s mackey e kd :
  session_mackey (au_sign s) = Some mackey ->
  derive_signing (smb311 (au_seal s)) mackey (iod_pre_auth_int_hash i) = inl e ->
  derive_cipher s mackey (iod_pre_auth_int_hash i) (chars "SMBS2CCipherKey") (chars "ServerOut") = inr kd ->
  (smb3_derive_keys uptime i s).1 = 0 /\
  key_len (session_smb3_signing_key (au_sign (smb3_derive_keys uptime i s).2)) = 0.
Proof.
  intros Hm He Hd. destruct (smb3_derive_keys uptime i s) as [err s1] eqn:Ed. apply derive_keys_spec in Ed as [_ HK].
  rewrite Hm, He, Hd in HK. cbn [error_of fst snd] in *. done.
Qed.

(** The event after which a channel uses its own key: the last reply, successful and signed. *)
Definition switches (s : auth_session) (ev : event) : bool :=
  match ev with
  | Received command _ st flags _ _ =>
      (command =? SMB2_SESSION_SETUP) && smb3_or_later (au_sign s) && (st =? STATUS_SUCCESS)
      && negb (Z.land flags SMB2_FLAGS_SIGNED =? 0)
  | Sent _ _ _ => false
  end.

Lemma step_channel s i ev :
  alternate_channel (step s i ev) = alternate_channel i /\
  use_channel_keys (au_channel (step s i ev)) = use_channel_keys (au_channel i) || (alternate_channel i && switches s ev).
Proof.
  destruct ev as [command sid m|command mid st flags m mem]; cbn [step switches].
  - rewrite andb_false_r, orb_false_r. unfold hash_sent, smb311_pre_auth_integrity_hash_init,
      smb311_pre_auth_integrity_hash_update. by repeat case_match.
  - unfold hash_received, hash_reply, last_reply, save_reply, smb311_pre_auth_integrity_hash_update.
    destruct (Z.eqb_spec command SMB2_NEGOTIATE) as [->|].
    { cbn [andb Z.eqb SMB2_NEGOTIATE SMB2_SESSION_SETUP]. rewrite andb_false_r, orb_false_r. by case_match. }
    destruct (command =? SMB2_SESSION_SETUP); cbn [andb negb]; [|by rewrite andb_false_r, orb_false_r].
    destruct (Z.eqb_spec st STATUS_SUCCESS) as [->|].
    + change (STATUS_SUCCESS =? STATUS_MORE_PROCESSING_REQUIRED) with false. rewrite ?andb_false_r.
      destruct (smb3_or_later (au_sign s)), (Z.land flags SMB2_FLAGS_SIGNED =? 0), (alternate_channel i) eqn:Ea;
        cbn [negb andb alternate_channel au_channel use_channel_keys set_channel set_reply_mid set_reply]; rewrite ?Ea;
        cbn [negb andb alternate_channel au_channel use_channel_keys set_channel set_reply_mid set_reply]; by rewrite ?orb_true_r, ?orb_false_r.
    + rewrite ?andb_false_r. cbn [andb]. rewrite ?andb_false_r, ?orb_false_r. by repeat case_match.
Qed.

(** Whatever is sent and received, a channel signs with its own key exactly when it
    is an alternate channel and its last session setup reply, successful and signed, has
    come in. *)
Theorem channel_key_after_last_reply s evs i :
  use_channel_keys (au_channel (run s evs i)) =
  use_channel_keys (au_channel i) || (alternate_channel i && existsb (switches s) evs).
Proof.
  unfold run. revert i. induction evs as [|ev evs IH]; intros i; cbn [fold_left existsb].
  { by rewrite andb_false_r, orb_false_r. }
  destruct (step_channel s i ev) as [Ea Eu]. rewrite IH, Ea, Eu.
  by destruct (use_channel_keys (au_channel i)), (alternate_channel i), (switches s ev).
Qed.
End Ends.

(** ** Examples *)

(** A toy digest: the last [n] bytes, the last one first. *)
Definition demo_digest (n : nat) (x : list Z) : list Z := take n (rev x ++ replicate n 0).

Lemma length_demo_digest n x : length (demo_digest n x) = n.
Proof. unfold demo_digest. rewrite length_take, length_app, length_replicate. lia. Qed.

#[local] Instance demo_kdf : Kdf := {|
  kdf := fun k label context n => inr (demo_digest (Z.to_nat n) (k ++ label ++ context));
  sha512 := demo_digest 64;
  md5 := demo_digest 16
|}.
#[local] Instance demo_kdf_laws : KdfLaws.
Proof. split. intros x. apply length_demo_digest. Qed.

Definition demo_auth : auth_session :=
  AuthSession (Session true true false (Some (replicate 16 3)) (Key [] 0) SMB2_SIGNING_AES_CMAC)
    (SealSession SMB2_ENCRYPTION_AES_128_GCM [] [] 0 0 true 77 None) (replicate 16 3) false false true.
Definition demo_iod : auth_iod := AuthIod false (Channel false (Key [] 0)) None (replicate 64 0) (replicate 64 0) None 0.

(** A negotiation, a first try, and a second one. *)
Definition demo_exchange : list event :=
  [Sent SMB2_NEGOTIATE 0 [[1; 2]; [3]]; Received SMB2_NEGOTIATE 1 0 0 [[4; 5]] true;
   Sent SMB2_SESSION_SETUP 0 [[6]]; Received SMB2_SESSION_SETUP 2 STATUS_MORE_PROCESSING_REQUIRED 0 [[7]] true;
   Sent SMB2_SESSION_SETUP 0 [[8]]; Received SMB2_SESSION_SETUP 3 STATUS_MORE_PROCESSING_REQUIRED 0 [[9]] true;
   Sent SMB2_SESSION_SETUP 77 [[10; 11]]].

Lemma hash_is_of_transcript_witness :
  iod_pre_auth_int_hash (run demo_auth demo_exchange demo_iod) = hash_of [[1; 2; 3]; [4; 5]; [8]; [9]; [10; 11]].
Proof.
  destruct (hash_is_of_transcript demo_auth demo_exchange demo_iod) as [E _]; [reflexivity..|].
  rewrite E. apply (f_equal hash_of). reflexivity.
Defined.

Lemma same_hash_same_messages_witness :
  t_cur (t_run demo_auth demo_exchange) = t_cur (t_run demo_auth demo_exchange) \/ broken_hash.
Proof. apply (same_hash_same_messages demo_auth demo_auth demo_exchange demo_exchange demo_iod demo_iod); done. Defined.

(** The last reply, signed with the key that the client derives. *)
Definition demo_reply0 : list Z := replicate 16 1 ++ le_bytes 4 SMB2_FLAGS_SIGNED ++ replicate 28 2 ++ replicate 16 0 ++ [5; 6; 7].
Definition demo_end : auth_iod := run demo_auth demo_exchange demo_iod.
Definition demo_key : list Z := key_of (kdf (replicate 16 3) (chars "SMBSigningKey") (iod_pre_auth_int_hash demo_end) SMB3_KEY_LEN).
Definition demo_reply : list Z := splice SMB2SIGOFF (aes_cmac demo_key demo_reply0) demo_reply0.
Definition demo_done : auth_iod :=
  hash_received demo_auth SMB2_SESSION_SETUP 4 STATUS_SUCCESS SMB2_FLAGS_SIGNED [demo_reply] true demo_end.

Lemma setup_reply_authentic_witness : exists mackey k, session_mackey (au_sign demo_auth) = Some mackey /\
  kdf mackey (chars "SMBSigningKey") (iod_pre_auth_int_hash demo_done) SMB3_KEY_LEN = inr k /\
  setup_signed SMB2_SIGNING_AES_CMAC k demo_reply 4.
Proof.
  destruct (setup_reply_authentic 9 demo_done demo_auth demo_reply
    (smb_gss_ssnsetup_end 9 0 false demo_done demo_auth).1.2 (smb_gss_ssnsetup_end 9 0 false demo_done demo_auth).2)
    as (mackey & k & E1 & E2 & E3 & _); [vm_compute; reflexivity..|].
  exists mackey, k. split_and!; [exact E1|exact E2|exact E3].
Defined.
