(* ===== verification/Iod.v ===== *)
(** * The request queue of a channel: [kernel/netsmb/smb_iod.c]

    Threads put requests into the queue of a channel and sleep; the thread of the channel
    sends them, its read thread matches replies with requests and wakes the sleepers up.  A
    compound request is a chain of requests of which only the first is in the queue.

    Calls that leave the queue (wake-ups, callbacks, a lease break that is handed on, the
    start of a reconnect) are put down in a log, in order.  Times are nanoseconds since the
    start of the system.  The integrity hash and the saved reply of a session setup are those
    of [Setup], the credits those of [Credits]. *)
From S2P Require Import Prelude.
From S2P Require Credits Sign Setup.
Import Errno.
Local Open Scope Z_scope.

Definition SMB_HDRLEN : nat := 32.
Definition SMB2_HDRLEN : nat := 64.
Definition STATUS_PENDING := 0x103.
Definition SMBR_ASYNC := 0x2.               (* also the flag of asynchronous replies *)
Definition SMB2_NEGOTIATE := 0x0.
Definition SMB2_SESSION_SETUP := 0x1.
Definition SMB2_CREATE := 0x5.
Definition SMB2_CLOSE := 0x6.
Definition SMB2_LOCK := 0xa.
Definition SMB2_IOCTL := 0xb.
Definition SMB2_ECHO := 0xd.
Definition SMB2_SET_INFO := 0x11.
Definition SMB2_OPLOCK_BREAK := 0x12.
Definition SMB_COM_ECHO := 0x2b.
Definition MAX_SR_RECONNECT_CNT := 5.
Definition SMB_SEND_WAIT_TIMO := 120.
Definition SMB_FAST_SEND_WAIT_TIMO := 1.
Definition SMBUETIMEOUT := 10.
Definition sec (n : Z) : Z := n * 1000000000.

(** ** Data *)

Inductive rq_state := SMBRQ_NOTSENT | SMBRQ_SENT | SMBRQ_NOTIFIED | SMBRQ_RECONNECT.
Inductive iod_state := ST_NOTCONN | ST_CONNECT | ST_TRANACTIVE | ST_NEGOACTIVE | ST_SSNSETUP | ST_SESSION_ACTIVE
  | ST_DEAD | ST_RECONNECT_AGAIN | ST_RECONNECT.
#[export] Instance rq_state_eq_dec : EqDecision rq_state.
Proof. solve_decision. Defined.
#[export] Instance iod_state_eq_dec : EqDecision iod_state.
Proof. solve_decision. Defined.

(** What is used of a share; [ss_id] stands for its address. *)
Record share := Share { ss_id : nat; ss_going_away : bool; ss_soft_timer : Z; ss_mount_down : bool }.

(** The fields of a request that each request of a compound chain has of its own. *)
Record part := Part {
  sr_command : Z;
  sr_messageid : Z;
  sr_rqsessionid : Z;
  sr_smb1 : Z * Z * Z * Z;            (* sr_mid, sr_cmd, sr_pidHigh, sr_pidLow *)
  smb2_request : bool;                (* SMB2_REQUEST *)
  smb2_response : bool;               (* SMB2_RESPONSE *)
  req_sent : bool;                    (* SMB2_REQ_SENT *)
  non_idempotent : bool;              (* SMB2_NON_IDEMPOTENT *)
  multipacket : bool;                 (* SMBR_MULTIPACKET *)
  part_reconnected : bool;            (* SMBR_RECONNECTED *)
  sr_share : option share;
  sr_rp : list (list Z);              (* the replies; none: NULL *)
  sr_rspasyncid : Z;
  sr_rspcreditsgranted : Z;
  sr_timesent : Z
}.

(** An element of the queue; [sr_id] stands for its address, [callbacks] counts the calls of
    [sr_callback]. *)
Record rq := Rq {
  sr_id : nat;
  sr_head : part;
  sr_next : list part;
  compound : bool;                    (* SMBR_COMPOUND_RQ *)
  async : bool;                       (* SMBR_ASYNC *)
  internal : bool;                    (* SMBR_INTERNAL *)
  rexmit : bool;                      (* SMBR_REXMIT *)
  no_timeout : bool;                  (* SMBR_NO_TIMEOUT *)
  dead : bool;                        (* SMBR_DEAD *)
  iod_context : bool;                 (* sr_context == iod->iod_context *)
  sr_state : rq_state;
  sr_lerror : Z;
  sr_rpgen : Z;
  sr_rplast : Z;
  sr_reconnect_cnt : Z;
  sr_credit_timesent : Z;
  callbacks : nat
}.

Inductive effect :=
  | Wakeup (id : nat)                 (* wakeup(&rqp->sr_state) *)
  | Callback (id : nat)
  | Preprocess (id k : nat)           (* smb2_rq_credit_preprocess_reply *)
  | ShareUp (sh : nat)
  | ShareDead (sh : nat)
  | LeaseBreak (m : list Z)
  | Freed (m : list Z)
  | Lost (m : list Z)                 (* neither freed nor kept *)
  | StartReconnect
  | Echo
  | WakeCredits.

(** A channel with what is used of its session. *)
Record iod := Iod {
  st : iod_state;
  in_reconnect : bool;                (* SMBIOD_RECONNECT *)
  start_reconnect : bool;             (* SMBIOD_START_RECONNECT *)
  shutdown : bool;                    (* SMBIOD_SHUTDOWN *)
  read_error : bool;                  (* SMBIOD_READ_THREAD_ERROR *)
  workflag : bool;
  rqlist : list rq;
  muxcnt : Z;
  asynccnt : Z;
  lastrecv : Z;
  lastrqsent : Z;
  reconnectStartTime : Z;
  auth : Setup.auth_iod;
  credits : Credits.smbiod;
  non_compound_replies : bool;        (* SMBV_NON_COMPOUND_REPLIES *)
  session_session_id : Z;
  session_smb2 : bool;                (* SMBV_SMB2 *)
  session_maxmux : Z;
  session_resp_wait_timeout : Z;
  log : list effect
}.

Definition set_response (b : bool) (p : part) : part :=
  Part (sr_command p) (sr_messageid p) (sr_rqsessionid p) (sr_smb1 p) (smb2_request p) b (req_sent p) (non_idempotent p)
    (multipacket p) (part_reconnected p) (sr_share p) (sr_rp p) (sr_rspasyncid p) (sr_rspcreditsgranted p) (sr_timesent p).
Definition set_sent (b : bool) (p : part) : part :=
  Part (sr_command p) (sr_messageid p) (sr_rqsessionid p) (sr_smb1 p) (smb2_request p) (smb2_response p) b (non_idempotent p)
    (multipacket p) (part_reconnected p) (sr_share p) (sr_rp p) (sr_rspasyncid p) (sr_rspcreditsgranted p) (sr_timesent p).
Definition set_part_reconnected (b : bool) (p : part) : part :=
  Part (sr_command p) (sr_messageid p) (sr_rqsessionid p) (sr_smb1 p) (smb2_request p) (smb2_response p) (req_sent p)
    (non_idempotent p) (multipacket p) b (sr_share p) (sr_rp p) (sr_rspasyncid p) (sr_rspcreditsgranted p) (sr_timesent p).
Definition set_rp (l : list (list Z)) (p : part) : part :=
  Part (sr_command p) (sr_messageid p) (sr_rqsessionid p) (sr_smb1 p) (smb2_request p) (smb2_response p) (req_sent p)
    (non_idempotent p) (multipacket p) (part_reconnected p) (sr_share p) l (sr_rspasyncid p) (sr_rspcreditsgranted p) (sr_timesent p).
Definition set_pending (asyncid granted now : Z) (p : part) : part :=
  Part (sr_command p) (sr_messageid p) (sr_rqsessionid p) (sr_smb1 p) (smb2_request p) (smb2_response p) (req_sent p)
    (non_idempotent p) (multipacket p) (part_reconnected p) (sr_share p) (sr_rp p) asyncid granted now.
Definition set_timesent (now : Z) (p : part) : part := set_pending (sr_rspasyncid p) (sr_rspcreditsgranted p) now p.

Definition set_parts (h : part) (n : list part) (q : rq) : rq :=
  Rq (sr_id q) h n (compound q) (async q) (internal q) (rexmit q) (no_timeout q) (dead q) (iod_context q) (sr_state q)
    (sr_lerror q) (sr_rpgen q) (sr_rplast q) (sr_reconnect_cnt q) (sr_credit_timesent q) (callbacks q).
Definition set_head (f : part -> part) (q : rq) : rq := set_parts (f (sr_head q)) (sr_next q) q.
Definition set_state (x : rq_state) (q : rq) : rq :=
  Rq (sr_id q) (sr_head q) (sr_next q) (compound q) (async q) (internal q) (rexmit q) (no_timeout q) (dead q) (iod_context q) x
    (sr_lerror q) (sr_rpgen q) (sr_rplast q) (sr_reconnect_cnt q) (sr_credit_timesent q) (callbacks q).
Definition set_lerror (e : Z) (q : rq) : rq :=
  Rq (sr_id q) (sr_head q) (sr_next q) (compound q) (async q) (internal q) (rexmit q) (no_timeout q) (dead q) (iod_context q)
    (sr_state q) e (sr_rpgen q) (sr_rplast q) (sr_reconnect_cnt q) (sr_credit_timesent q) (callbacks q).
Definition set_rexmit (b : bool) (q : rq) : rq :=
  Rq (sr_id q) (sr_head q) (sr_next q) (compound q) (async q) (internal q) b (no_timeout q) (dead q) (iod_context q)
    (sr_state q) (sr_lerror q) (sr_rpgen q) (sr_rplast q) (sr_reconnect_cnt q) (sr_credit_timesent q) (callbacks q).
Definition set_internal (b : bool) (q : rq) : rq :=
  Rq (sr_id q) (sr_head q) (sr_next q) (compound q) (async q) b (rexmit q) (no_timeout q) (dead q) (iod_context q)
    (sr_state q) (sr_lerror q) (sr_rpgen q) (sr_rplast q) (sr_reconnect_cnt q) (sr_credit_timesent q) (callbacks q).
Definition set_rplast (n : Z) (q : rq) : rq :=
  Rq (sr_id q) (sr_head q) (sr_next q) (compound q) (async q) (internal q) (rexmit q) (no_timeout q) (dead q) (iod_context q)
    (sr_state q) (sr_lerror q) (sr_rpgen q) n (sr_reconnect_cnt q) (sr_credit_timesent q) (callbacks q).
Definition set_reconnect_cnt (n : Z) (q : rq) : rq :=
  Rq (sr_id q) (sr_head q) (sr_next q) (compound q) (async q) (internal q) (rexmit q) (no_timeout q) (dead q) (iod_context q)
    (sr_state q) (sr_lerror q) (sr_rpgen q) (sr_rplast q) n (sr_credit_timesent q) (callbacks q).
Definition set_credit_timesent (n : Z) (q : rq) : rq :=
  Rq (sr_id q) (sr_head q) (sr_next q) (compound q) (async q) (internal q) (rexmit q) (no_timeout q) (dead q) (iod_context q)
    (sr_state q) (sr_lerror q) (sr_rpgen q) (sr_rplast q) (sr_reconnect_cnt q) n (callbacks q).

Definition set_queue (l : list rq) (i : iod) : iod :=
  Iod (st i) (in_reconnect i) (start_reconnect i) (shutdown i) (read_error i) (workflag i) l (muxcnt i) (asynccnt i) (lastrecv i)
    (lastrqsent i) (reconnectStartTime i) (auth i) (credits i) (non_compound_replies i) (session_session_id i) (session_smb2 i)
    (session_maxmux i) (session_resp_wait_timeout i) (log i).
Definition add_log (l : list effect) (i : iod) : iod :=
  Iod (st i) (in_reconnect i) (start_reconnect i) (shutdown i) (read_error i) (workflag i) (rqlist i) (muxcnt i) (asynccnt i)
    (lastrecv i) (lastrqsent i) (reconnectStartTime i) (auth i) (credits i) (non_compound_replies i) (session_session_id i)
    (session_smb2 i) (session_maxmux i) (session_resp_wait_timeout i) (log i ++ l).
Definition set_st (x : iod_state) (i : iod) : iod :=
  Iod x (in_reconnect i) (start_reconnect i) (shutdown i) (read_error i) (workflag i) (rqlist i) (muxcnt i) (asynccnt i)
    (lastrecv i) (lastrqsent i) (reconnectStartTime i) (auth i) (credits i) (non_compound_replies i) (session_session_id i)
    (session_smb2 i) (session_maxmux i) (session_resp_wait_timeout i) (log i).
Definition set_flags (reconnecting starting : bool) (start : Z) (i : iod) : iod :=
  Iod (st i) reconnecting starting (shutdown i) (read_error i) (workflag i) (rqlist i) (muxcnt i) (asynccnt i)
    (lastrecv i) (lastrqsent i) start (auth i) (credits i) (non_compound_replies i) (session_session_id i)
    (session_smb2 i) (session_maxmux i) (session_resp_wait_timeout i) (log i).
Definition set_counts (mux asy : Z) (i : iod) : iod :=
  Iod (st i) (in_reconnect i) (start_reconnect i) (shutdown i) (read_error i) (workflag i) (rqlist i) mux asy
    (lastrecv i) (lastrqsent i) (reconnectStartTime i) (auth i) (credits i) (non_compound_replies i) (session_session_id i)
    (session_smb2 i) (session_maxmux i) (session_resp_wait_timeout i) (log i).
Definition set_times (recv sent : Z) (i : iod) : iod :=
  Iod (st i) (in_reconnect i) (start_reconnect i) (shutdown i) (read_error i) (workflag i) (rqlist i) (muxcnt i) (asynccnt i)
    recv sent (reconnectStartTime i) (auth i) (credits i) (non_compound_replies i) (session_session_id i)
    (session_smb2 i) (session_maxmux i) (session_resp_wait_timeout i) (log i).
Definition set_work (i : iod) : iod :=
  Iod (st i) (in_reconnect i) (start_reconnect i) (shutdown i) (read_error i) true (rqlist i) (muxcnt i) (asynccnt i)
    (lastrecv i) (lastrqsent i) (reconnectStartTime i) (auth i) (credits i) (non_compound_replies i) (session_session_id i)
    (session_smb2 i) (session_maxmux i) (session_resp_wait_timeout i) (log i).
Definition set_auth (a : Setup.auth_iod) (i : iod) : iod :=
  Iod (st i) (in_reconnect i) (start_reconnect i) (shutdown i) (read_error i) (workflag i) (rqlist i) (muxcnt i) (asynccnt i)
    (lastrecv i) (lastrqsent i) (reconnectStartTime i) a (credits i) (non_compound_replies i) (session_session_id i)
    (session_smb2 i) (session_maxmux i) (session_resp_wait_timeout i) (log i).
Definition set_credits (c : Credits.smbiod) (i : iod) : iod :=
  Iod (st i) (in_reconnect i) (start_reconnect i) (shutdown i) (read_error i) (workflag i) (rqlist i) (muxcnt i) (asynccnt i)
    (lastrecv i) (lastrqsent i) (reconnectStartTime i) (auth i) c (non_compound_replies i) (session_session_id i)
    (session_smb2 i) (session_maxmux i) (session_resp_wait_timeout i) (log i).
Definition set_non_compound (b : bool) (i : iod) : iod :=
  Iod (st i) (in_reconnect i) (start_reconnect i) (shutdown i) (read_error i) (workflag i) (rqlist i) (muxcnt i) (asynccnt i)
    (lastrecv i) (lastrqsent i) (reconnectStartTime i) (auth i) (credits i) b (session_session_id i)
    (session_smb2 i) (session_maxmux i) (session_resp_wait_timeout i) (log i).

(** ** A request is done *)

(** [flags] is [SMBR_DEAD] or nothing. *)
Definition smb_iod_rqprocessed (error : Z) (flags : bool) (q : rq) : rq * list effect :=
  (Rq (sr_id q) (sr_head q) (sr_next q) (compound q) (async q) (internal q) (rexmit q) (no_timeout q) (dead q || flags)
     (iod_context q) SMBRQ_NOTIFIED error (i32 (sr_rpgen q + 1)) (sr_rplast q) (sr_reconnect_cnt q) (sr_credit_timesent q)
     (if async q then S (callbacks q) else callbacks q),
   [if async q then Callback (sr_id q) else Wakeup (sr_id q)]).

(** [TAILQ_FOREACH_SAFE], with the log. *)
Fixpoint foreach (f : rq -> rq * list effect) (l : list rq) : list rq * list effect :=
  match l with
  | [] => ([], [])
  | q :: r => let '(q', e) := f q in let '(r', e') := foreach f r in (q' :: r', e ++ e')
  end.
Definition over_queue (f : rq -> rq * list effect) (i : iod) : iod :=
  let '(l, e) := foreach f (rqlist i) in add_log e (set_queue l i).

Definition smb_iod_invrq (i : iod) : iod := over_queue (smb_iod_rqprocessed ENOTCONN true) i.

(** The transport is closed in between. *)
Definition smb_iod_dead (i : iod) : iod :=
  let i := smb_iod_invrq (set_st ST_DEAD i) in
  over_queue (fun q => (q, match sr_share (sr_head q) with Some sh => [ShareDead (ss_id sh)] | None => [] end)) i.

Definition smb_iod_errorout_share_request (sh : nat) (error : Z) (i : iod) : iod :=
  over_queue (fun q =>
    match sr_share (sr_head q) with
    | Some s => if (ss_id s =? sh)%nat && negb (bool_decide (sr_state q = SMBRQ_NOTIFIED))
                then smb_iod_rqprocessed error false q else (q, [])
    | None => (q, [])
    end) i.

(** ** Requests that cannot be repeated *)

(** The commands of a compound chain up to the first that cannot be repeated: was there
    one, a create, a close? *)
Fixpoint chain_commands (l : list part) (create close : bool) : bool * bool * bool :=
  match l with
  | [] => (false, create, close)
  | p :: r =>
      let c := sr_command p in
      let create := create || (c =? SMB2_CREATE) in
      let close := close || (c =? SMB2_CLOSE) in
      if (c =? SMB2_LOCK) || (c =? SMB2_IOCTL) || (c =? SMB2_SET_INFO) then (true, create, close)
      else chain_commands r create close
  end.

Definition rq_non_idempotent (q : rq) : bool :=
  if negb (compound q) then non_idempotent (sr_head q)
  else let '(found, create, close) := chain_commands (sr_head q :: sr_next q) false false in
       found || negb (Bool.eqb create close).

Definition smb_iod_check_non_idempotent (i : iod) : Z :=
  if existsb rq_non_idempotent (rqlist i) then ENETDOWN else 0.

(** ** Waiting and leaving *)

Definition remove (id : nat) (l : list rq) : list rq := filter (fun q => sr_id q <> id) l.

Definition smb_iod_removerq (q : rq) (i : iod) : iod :=
  let i := set_queue (remove (sr_id q) (rqlist i)) i in
  if internal q then i
  else
    set_counts (if part_reconnected (sr_head q) then muxcnt i else i32 (muxcnt i - 1))
      (if async q then i32 (asynccnt i - 1) else asynccnt i) i.

(** [smb_iod_waitrq]: does the sleeper go on, and what it does then.  A reconnect in the
    middle of a transaction with several replies is a time-out. *)
Definition waitrq_check (q : rq) : rq :=
  if negb (sr_rplast q =? 0) && (sr_rpgen q =? sr_rplast q) && multipacket (sr_head q) && part_reconnected (sr_head q)
     && negb (rexmit q) then set_lerror ETIMEDOUT q else q.
Definition waitrq_ready (q : rq) : bool :=
  if internal q then negb (sr_rpgen q =? sr_rplast q)
  else negb (sr_lerror (waitrq_check q) =? 0) || negb (sr_rpgen q =? sr_rplast q).
Definition waitrq_done (q : rq) (i : iod) : Z * iod :=
  if internal q then (sr_lerror q, smb_iod_removerq q i)
  else
    let q := set_rplast (i32 (sr_rplast q + 1)) (waitrq_check q) in
    if multipacket (sr_head q) then (sr_lerror q, set_queue (remove (sr_id q) (rqlist i) ++ [q]) i)
    else (sr_lerror q, smb_iod_removerq q i).

(** ** The start of a reconnect *)

Definition smb_iod_check_timeout (start seconds now : Z) : bool := start + sec seconds <? now.

Definition soft_timed_out (i : iod) (now : Z) (q : rq) : bool :=
  match sr_share (sr_head q) with
  | Some sh => smb2_request (sr_head q) && negb (ss_soft_timer sh =? 0)
               && smb_iod_check_timeout (reconnectStartTime i) (ss_soft_timer sh) now
  | None => false
  end.

(** One request at the start of a reconnect. *)
Definition reconnect_rq (i : iod) (now : Z) (q : rq) : rq * list effect :=
  if internal q || async q then
    let q := set_head (set_sent false) q in
    if async q then smb_iod_rqprocessed ETIMEDOUT false q else smb_iod_rqprocessed ENOTCONN true q
  else if soft_timed_out i now q then smb_iod_rqprocessed ETIMEDOUT false (set_head (set_sent false) q)
  else
    let q := set_head (set_part_reconnected true) q in
    if bool_decide (sr_state q = SMBRQ_NOTIFIED) then (q, [])
    else (set_lerror 0 (set_rexmit true (set_state SMBRQ_RECONNECT (set_head (set_sent false) q))), []).

(** May a reconnect not be started: the connection is still being made. *)
Definition not_reconnectable (i : iod) : bool :=
  match st i with ST_SESSION_ACTIVE | ST_RECONNECT_AGAIN | ST_RECONNECT => false | _ => negb (in_reconnect i) end.

(** The requests are prepared for the reconnect; the leases that wait and the flags of the
    shares are left out. *)
Definition begin_reconnect (start now : Z) (i : iod) : iod :=
  let i := over_queue (reconnect_rq i now) i in
  set_st ST_RECONNECT (set_flags true false start i).

(** In a session without multichannel, where another channel cannot take over.
    [nanouptime] is read twice: [start] and [now]. *)
Definition smb_iod_start_reconnect (start now : Z) (i : iod) : iod :=
  if start_reconnect i then i
  else
    let i := set_flags (in_reconnect i) (start_reconnect i) start i in
    if not_reconnectable i then smb_iod_dead i else begin_reconnect start now i.

(** ** Sending *)

(** [SMB_TRAN_SEND]: its error, and whether [SMB_TRAN_FATAL] says that it is fatal. *)
Record tran := Tran { tran_send : Z; tran_fatal : bool }.

(** The result, the request, the channel.  [m] is the message that is detached from the
    request, [s] the session. *)
Section Send.
Context `{Setup.Kdf}.

Definition smb_iod_sendrq (s : Setup.auth_session) (now : Z) (t : tran) (m : Sign.chain) (i : iod) (q : rq)
  : Z * rq * iod :=
  let processed e := let '(q, ef) := smb_iod_rqprocessed e false q in (0, q, add_log ef i) in
  match st i with
  | ST_NOTCONN | ST_DEAD => processed ENOTCONN
  | ST_CONNECT => (0, q, i)
  | _ =>
      let i := if smb2_request (sr_head q) && negb (compound q)
               then set_auth (Setup.hash_sent s (sr_command (sr_head q)) (sr_rqsessionid (sr_head q)) m (auth i)) i else i in
      let q := set_lerror (tran_send t) q in
      if tran_send t =? 0 then
        let q := set_credit_timesent now (set_head (set_timesent now) q) in
        let q := set_parts (set_sent true (sr_head q)) (if compound q then map (set_sent true) (sr_next q) else sr_next q) q in
        (0, set_state SMBRQ_SENT q, set_times (lastrecv i) now i)
      else if tran_fatal t then (ENOTCONN, q, i)
      else
        let '(q, ef) := smb_iod_rqprocessed EIO false q in
        (if smb2_request (sr_head q) then ENOTCONN else EIO, q, add_log ef i)
  end.

(** ** The round of the thread *)

Record acc := Acc { a_iod : iod; a_echo : bool; a_oldest : option (Z * Z) }.

(** What surrounds a round: the time, whether the system shuts down, the transport and the
    message for each request. *)
Record round := Round { now : Z; going_down : bool; tran_of : rq -> tran; msg_of : rq -> Sign.chain }.

(** The oldest message that waits for its reply, with the time it was sent. *)
Definition older (o : option (Z * Z)) (q : rq) : option (Z * Z) :=
  let this := (sr_messageid (sr_head q), sr_credit_timesent q) in
  match o with
  | None => Some this
  | Some (_, t) => if sr_credit_timesent q <? t then Some this else o
  end.

(** A request that has been sent: time-outs. *)
Definition sent_rq (w : round) (a : acc) (q : rq) : Z * rq * acc :=
  let i := a_iod a in
  let p := sr_head q in
  let a := Acc i (a_echo a) (if session_smb2 i && negb (async q) then older (a_oldest a) q else a_oldest a) in
  if async q || no_timeout q then (0, q, a)
  else
    let ts := now w - sec (session_resp_wait_timeout i) in
    if match sr_share p with Some _ => true | None => false end && (lastrecv i <? ts) && (sr_timesent p <? ts) then (ENOTCONN, q, a)
    else
      let limit := sec (if going_down w then SMB_FAST_SEND_WAIT_TIMO else SMB_SEND_WAIT_TIMO) + sr_timesent p in
      if limit <? now w then
        let q := if smb2_request p then set_head (set_sent false) q else q in
        let '(q, ef) := smb_iod_rqprocessed ETIMEDOUT false q in
        (0, q, Acc (add_log ef i) (a_echo a) (a_oldest a))
      else if negb ((sr_smb1 p).1.1.2 =? SMB_COM_ECHO) && (sr_timesent p <? now w - sec SMBUETIMEOUT)
      then (0, q, Acc i true (a_oldest a)) else (0, q, a).

Definition do_send (s : Setup.auth_session) (w : round) (a : acc) (q : rq) : Z * rq * acc :=
  let '(herror, q, i) := smb_iod_sendrq s (now w) (tran_of w q) (msg_of w q) (a_iod a) q in
  (herror, q, Acc i (a_echo a) (a_oldest a)).

(** [smb_iod_rqprocessed] and [continue]. *)
Definition giveup (error : Z) (a : acc) (q : rq) : Z * rq * acc :=
  let '(q, ef) := smb_iod_rqprocessed error false q in
  (0, q, Acc (add_log ef (a_iod a)) (a_echo a) (a_oldest a)).

(** The [switch] on the state of the request. *)
Definition switch_rq (s : Setup.auth_session) (w : round) (a : acc) (q : rq) : Z * rq * acc :=
  match sr_state q with
  | SMBRQ_RECONNECT =>
      if in_reconnect (a_iod a) then (0, q, a)
      else
        let q := set_reconnect_cnt (sr_reconnect_cnt q + 1) (set_state SMBRQ_NOTSENT q) in
        if MAX_SR_RECONNECT_CNT <? sr_reconnect_cnt q then
          giveup ETIMEDOUT (Acc (set_st ST_DEAD (a_iod a)) (a_echo a) (a_oldest a)) q
        else if smb2_request (sr_head q) then giveup EAGAIN a q
        else do_send s w a q
  | SMBRQ_NOTSENT => do_send s w a q
  | SMBRQ_SENT => sent_rq w a q
  | SMBRQ_NOTIFIED => (0, q, a)
  end.

Definition send_one (s : Setup.auth_session) (w : round) (a : acc) (q : rq) : Z * rq * acc :=
  let i := a_iod a in
  if bool_decide (st i = ST_DEAD) then giveup ETIMEDOUT a q
  else if match sr_share (sr_head q) with Some sh => ss_going_away sh | None => false end then giveup ETIMEDOUT a q
  else if in_reconnect i && negb (internal q) then
    if soft_timed_out i (now w) q && negb (iod_context q) then giveup ETIMEDOUT a (set_head (set_sent false) q)
    else if async q then giveup ETIMEDOUT a q
    else
      let q := if bool_decide (sr_state q = SMBRQ_NOTSENT)
               then set_state SMBRQ_RECONNECT (set_head (set_sent false) q) else q in
      switch_rq s w a (set_head (set_part_reconnected true) q)
  else switch_rq s w a q.

(** The loop, which ends at the first error. *)
Fixpoint send_loop (s : Setup.auth_session) (w : round) (a : acc) (l : list rq) : Z * list rq * acc :=
  match l with
  | [] => (0, [], a)
  | q :: r =>
      let '(herror, q, a) := send_one s w a q in
      if negb (herror =? 0) then (herror, q :: r, a)
      else let '(herror, r, a) := send_loop s w a r in (herror, q :: r, a)
  end.

(** The oldest message is made known to the crediting. *)
Definition update_oldest (o : option (Z * Z)) (c : Credits.smbiod) : Credits.smbiod :=
  let set pending oldest :=
    Credits.mk_iod (Credits.iod_shutdown c) (Credits.iod_message_id c) (Credits.iod_credits_granted c)
      (Credits.iod_credits_ss_granted c) (Credits.iod_credits_max c) (Credits.iod_credits_wait c) pending oldest
      (Credits.iod_woken c) in
  let mid := match o with Some (mid, _) => mid | None => 0 end in
  let c' := set (match o with Some _ => 1 | None => 0 end) mid in
  if negb (mid =? Credits.iod_oldest_message_id c) then Credits.wake_waiter c' else c'.

Definition smb_iod_sendall (s : Setup.auth_session) (w : round) (i : iod) : iod :=
  let i := if read_error i then smb_iod_start_reconnect (now w) (now w) i else i in
  let '(herror, l, a) := send_loop s w (Acc i false None) (rqlist i) in
  let i := set_queue l (a_iod a) in
  let i := if herror =? ENOTCONN then smb_iod_start_reconnect (now w) (now w) i
           else if a_echo a && negb (in_reconnect i)
                   && (lastrecv i <? now w - sec SMBUETIMEOUT) && (lastrqsent i <? now w - sec SMBUETIMEOUT)
           then add_log [Echo] i else i in
  if session_smb2 i then set_credits (update_oldest (a_oldest a) (credits i)) i else i.

(** ** Entering the queue *)

(** [None]: the caller is still asleep, in a loop.  [sign] is [smb_iod_rq_sign], its error
    and the request with its message IDs. *)

(** A request of the channel itself is sent at once; one round of the loop. *)
Definition enqueue_internal (s : Setup.auth_session) (w : round) (sign : rq -> Z * rq) (q : rq) (i : iod)
  : option (Z * rq * iod) :=
  let q := set_internal true q in
  let '(error, q) := if smb2_request (sr_head q) then sign q else (0, q) in
  if negb (error =? 0) then Some (error, q, i)
  else
    let '(sent, q, i) := smb_iod_sendrq s (now w) (tran_of w q) (msg_of w q) i q in
    let i := set_queue (q :: rqlist i) i in
    let leave (q : rq) (i : iod) :=
      (sr_lerror q, q, if negb (sr_lerror q =? 0) then smb_iod_removerq q i else i) in
    if negb (sent =? 0) then
      let i := smb_iod_start_reconnect (now w) (now w) i in
      match find (fun q' => sr_id q' =? sr_id q)%nat (rqlist i) with
      | Some q => Some (leave q i)
      | None => None
      end
    else if bool_decide (sr_state q = SMBRQ_NOTSENT) then None
    else Some (leave q i).

(** In a reconnect a soft mount times out, or waits for the end of it. *)
Definition soft_mount (w : round) (q : rq) (i : iod) : option rq :=
  match sr_share (sr_head q) with
  | Some sh =>
      if negb (internal q) && in_reconnect i && negb (ss_soft_timer sh =? 0) then
        if smb2_request (sr_head q) && iod_context q then Some q
        else if smb_iod_check_timeout (reconnectStartTime i) (ss_soft_timer sh) (now w) then None
        else if smb2_request (sr_head q)
        then Some (set_rexmit true (set_state SMBRQ_RECONNECT (set_head (set_part_reconnected true) q))) else Some q
      else Some q
  | None => Some q
  end.

(** The requests that were built for an older session are marked. *)
Definition mark_old (sid : Z) (p : part) : part :=
  if sr_rqsessionid p =? sid then p else set_part_reconnected true p.

Definition smb_iod_rq_enqueue (s : Setup.auth_session) (w : round) (sign : rq -> Z * rq) (q : rq) (i : iod)
  : option (Z * rq * iod) :=
  if iod_context q then enqueue_internal s w sign q i
  else
    match st i with
    | ST_DEAD => Some (ENOTCONN, q, match sr_share (sr_head q) with Some sh => add_log [ShareDead (ss_id sh)] i | None => i end)
    | ST_NOTCONN => Some (ENOTCONN, q, i)
    | _ =>
        match soft_mount w q i with
        | None => Some (ETIMEDOUT, q, i)
        | Some q =>
            let smb2 := smb2_request (sr_head q) in
            let sid := session_session_id i in
            let parts := sr_head q :: sr_next q in
            if negb smb2 && session_smb2 i then Some (ERPCMISMATCH, q, i)
            else if negb smb2 && (session_maxmux i <=? muxcnt i) then None
            else if smb2 && negb (forallb (fun p => sr_rqsessionid p =? sid) parts)
            then Some (EAGAIN, set_parts (mark_old sid (sr_head q)) (map (mark_old sid) (sr_next q)) q, i)
            else if async q && negb smb2 && (session_maxmux i / 3 * 2 <=? asynccnt i) then Some (EWOULDBLOCK, q, i)
            else
              let i := set_counts (i32 (muxcnt i + 1)) (if async q then i32 (asynccnt i + 1) else asynccnt i) i in
              if shutdown i then Some (EAGAIN, q, i)
              else
                let '(error, q) := if smb2 then sign q else (0, q) in
                if negb (error =? 0) then Some (error, q, i)
                else Some (0, q, set_work (set_queue (rqlist i ++ [q]) i))
        end
    end.
End Send.

(** ** Receiving *)

Definition field (m : list Z) (off n : nat) : Z := le_value (take n (drop off m)).

(** The fields of an SMB 2 header that are used. *)
Record hdr := Hdr {
  h_command : Z; h_status : Z; h_flags : Z; h_next : Z; h_messageid : Z; h_credits : Z; h_asyncid : Z; h_treeid : Z
}.
Definition smb2_hdr (m : list Z) : hdr :=
  Hdr (field m 12 2) (field m 8 4) (field m 16 4) (field m 20 4) (field m 24 8) (field m 14 2) (field m 32 8) (field m 36 4).

(** An asynchronous reply that only says that there will be one. *)
Definition pending (h : hdr) : bool := negb (Z.land (h_flags h) SMBR_ASYNC =? 0) && (h_status h =? STATUS_PENDING).

(** [sr_mid], [sr_cmd], [sr_pidHigh] and [sr_pidLow] of an SMB 1 header. *)
Definition smb1_key (m : list Z) : Z * Z * Z * Z := (field m 30 2, field m 4 1, field m 12 2, field m 26 2).

Inductive packet := Smb1 (key : Z * Z * Z * Z) | Smb2 (h : hdr).

(** The place of the first element that satisfies a test. *)
Fixpoint index_of {A} (f : A -> bool) (l : list A) : option nat :=
  match l with
  | [] => None
  | x :: r => if f x then Some O else S <$> index_of f r
  end.

(** Does a request match?  Which of the chain, and is it one of several replies to a
    compound request ([cmpd_rqp] is not NULL)? *)
Definition match_rq (noncompound : bool) (p : packet) (q : rq) : option (nat * bool) :=
  match p with
  | Smb1 k => if bool_decide (sr_smb1 (sr_head q) = k) then Some (0%nat, false) else None
  | Smb2 h =>
      if sr_messageid (sr_head q) =? h_messageid h
      then Some (0%nat, compound q && (h_next h =? 0) && negb (pending h))
      else if (negb (compound q) || negb noncompound) && negb (pending h) then None
      else (fun k => (S k, true)) <$> index_of (fun x => sr_messageid x =? h_messageid h) (sr_next q)
  end.

(** The requests before the first that matches, this one, and those after it. *)
Fixpoint find_rq (noncompound : bool) (p : packet) (l : list rq) : option (list rq * (rq * nat * bool) * list rq) :=
  match l with
  | [] => None
  | q :: r =>
      match match_rq noncompound p q with
      | Some (k, cmpd) => Some ([], (q, k, cmpd), r)
      | None =>
          match find_rq noncompound p r with
          | Some (before, x, after) => Some (q :: before, x, after)
          | None => None
          end
      end
  end.

Definition the_part (k : nat) (q : rq) : part := nth k (sr_head q :: sr_next q) (sr_head q).
Definition set_part (k : nat) (p : part) (q : rq) : rq :=
  match k with
  | O => set_parts p (sr_next q) q
  | S k => set_parts (sr_head q) (<[k := p]> (sr_next q)) q
  end.

Section Receive.
Context `{Setup.Kdf} (s : Setup.auth_session).

(** [smb2_rq_credit_increment] for the request. *)
Definition granted (p : part) (q : rq) (c : Credits.smbiod) : Credits.smbiod :=
  (Credits.smb2_rq_credit_increment
     (Credits.mk_rq (sr_command p) 0 0 (sr_rspcreditsgranted p) true true (iod_context q) false (sr_messageid p)) c).2.

(** No request matched, or the reply is not kept.  The command has been stored in a [uint8_t]. *)
Definition no_request (p : packet) (m : list Z) : effect :=
  match p with
  | Smb2 h => if (u8 (h_command h) =? SMB2_OPLOCK_BREAK) && (h_messageid h =? 0xffffffffffffffff) && (h_treeid h =? 0)
              then LeaseBreak m else Freed m
  | Smb1 _ => Freed m
  end.

(** The reply is kept with the request; its owner is woken up, unless replies to other
    requests of the chain are missing. *)
Definition deliver (m : list Z) (noncompound cmpd : bool) (k : nat) (q : rq) : rq * list effect :=
  let p := the_part k q in
  if negb (bool_decide (sr_rp p = [])) && negb (multipacket p) then (q, [Lost m])
  else
    let q := set_part k (set_rp (sr_rp p ++ [m]) p) q in
    let wait := noncompound && cmpd && negb (forallb smb2_response (sr_head q :: sr_next q)) in
    let '(q, ef) := if wait then (q, []) else smb_iod_rqprocessed 0 false q in
    (q, Preprocess (sr_id q) k :: ef).

(** The share of the request is up again. *)
Definition share_up (p : part) : list effect :=
  match sr_share p with Some sh => if ss_mount_down sh then [ShareUp (ss_id sh)] else [] | None => [] end.

(** A request matches. *)
Definition matched (m : list Z) (mem : bool) (now : Z) (p : packet) (q : rq) (k : nat) (cmpd : bool) (i : iod)
  : rq * list effect * iod :=
  let up := share_up (the_part k q) in
  match p with
  | Smb1 _ =>
      let '(q, ef) := deliver m (non_compound_replies i) cmpd k q in (q, up ++ ef, set_work i)
  | Smb2 h =>
      let i := if cmpd && (k =? 0)%nat then set_non_compound true i else i in
      let x := the_part k q in
      let x := if pending h then x else set_response true x in
      let i := set_auth (Setup.hash_received s (sr_command x) (sr_messageid x) (h_status h) (h_flags h) [m] mem (auth i)) i in
      let i := set_work i in
      if pending h then
        let x := set_pending (h_asyncid h) (h_credits h) now x in
        (set_part k x q, up ++ [no_request p m], set_credits (granted x q (credits i)) i)
      else
        let '(q, ef) := deliver m (non_compound_replies i) cmpd k (set_part k x q) in (q, up ++ ef, i)
  end.

(** A message that has been told apart. *)
Definition receive (m : list Z) (mem : bool) (now : Z) (p : packet) (i : iod) : iod :=
  let i := set_times now (lastrqsent i) i in
  match find_rq (non_compound_replies i) p (rqlist i) with
  | None => add_log [no_request p m] i
  | Some (before, (q, k, cmpd), after) =>
      let '(q, ef, i) := matched m mem now p q k cmpd i in
      add_log ef (set_queue (before ++ q :: after) i)
  end.

(** One round of [smb_iod_recvall]: a message [m]; [decompress] is [smb2_rq_decompress_read]
    where the session compresses.  Is SMB 1 still allowed? *)
Definition smb_iod_recv_one (decompress : option (list Z -> Z + list Z)) (m : list Z) (mem : bool) (now : Z)
    (smb1_allowed : bool) (i : iod) : bool * iod :=
  if (length m <? SMB_HDRLEN)%nat then (smb1_allowed, add_log [Freed m] i)
  else if (nth 0 m 0 =? 0xfe) || (nth 0 m 0 =? 0xfc) then
    if (length m <? SMB2_HDRLEN)%nat then (smb1_allowed, add_log [Freed m] i)
    else
      let compressed := bool_decide (take 4 m = [0xfc; 0x53; 0x4d; 0x42]) in
      if negb (bool_decide (take 4 m = [0xfe; 0x53; 0x4d; 0x42])) && negb compressed
      then (smb1_allowed, add_log [Freed m] i)
      else
        match (if compressed then decompress else None) with
        | Some f =>
            match f m with
            | inl _ => (false, add_log [Freed m] i)
            | inr m' => (false, receive m' mem now (Smb2 (smb2_hdr m')) i)
            end
        | None => (false, receive m mem now (Smb2 (smb2_hdr m)) i)
        end
  else if negb (bool_decide (take 4 m = [0xff; 0x53; 0x4d; 0x42])) then (smb1_allowed, add_log [Freed m] i)
  else if negb smb1_allowed then (smb1_allowed, add_log [Freed m] i)
  else (smb1_allowed, receive m mem now (Smb1 (smb1_key m)) i).

(** The messages that have come in, until [SMB_TRAN_RECV] has no more. *)
Fixpoint smb_iod_recvall (decompress : option (list Z -> Z + list Z)) (mem : bool) (now : Z) (smb1_allowed : bool)
    (ms : list (list Z)) (i : iod) : iod :=
  match ms with
  | [] => i
  | m :: r =>
      let '(allowed, i) := smb_iod_recv_one decompress m mem now smb1_allowed i in
      smb_iod_recvall decompress mem now allowed r i
  end.
End Receive.
