(* ===== verification/IodTheorems.v ===== *)
(** * The request queue: theorems *)
From S2P Require Import Prelude Iod.
From S2P Require Credits Sign Setup Seal SetupTheorems.
Import Errno.
Local Open Scope Z_scope.

Definition parts (q : rq) : list part := sr_head q :: sr_next q.

(** The message IDs that replies are waited for with. *)
Definition mids (l : list rq) : list Z := concat (map (fun q => map sr_messageid (parts q)) l).

Lemma mids_app l1 l2 : mids (l1 ++ l2) = mids l1 ++ mids l2.
Proof. unfold mids. by rewrite map_app, concat_app. Qed.

(** ** Matching *)

Lemma index_of_spec {A} (f : A -> bool) l k :
  index_of f l = Some k -> exists x, l !! k = Some x /\ f x = true.
Proof.
  revert k. induction l as [|y l IH]; intros k; cbn [index_of]; [done|].
  destruct (f y) eqn:Ef; [intros [= <-]; by exists y|].
  destruct (index_of f l) as [k'|]; [|done]. intros [= <-]. by apply IH.
Qed.

Lemma index_of_at {A} (f : A -> bool) l k x :
  l !! k = Some x -> f x = true -> (forall j y, l !! j = Some y -> f y = true -> j = k) -> index_of f l = Some k.
Proof.
  revert k. induction l as [|y l IH]; intros k Hk Hf Hu; [done|]. cbn [index_of].
  destruct (f y) eqn:Ey.
  - by rewrite (Hu 0%nat y eq_refl Ey).
  - destruct k as [|k]; [cbn in Hk; congruence|]. rewrite (IH k); [done|done|done|].
    intros j z Hj Hz. by specialize (Hu (S j) z Hj Hz) as [= ->].
Qed.

(** A request that matches has the message ID of the reply. *)
Lemma match_rq_mid nc h q k c :
  match_rq nc (Smb2 h) q = Some (k, c) -> exists x, parts q !! k = Some x /\ sr_messageid x = h_messageid h.
Proof.
  cbn [match_rq]. destruct (Z.eqb_spec (sr_messageid (sr_head q)) (h_messageid h)) as [E|].
  { intros [= <- _]. by exists (sr_head q). }
  destruct (_ && _); [done|]. destruct (index_of _ _) as [j|] eqn:Ej; [|done]. intros [= <- _].
  apply index_of_spec in Ej as (x & Hx & Hm%Z.eqb_eq). by exists x.
Qed.

Lemma mid_in_parts q k x : parts q !! k = Some x -> sr_messageid x ∈ map sr_messageid (parts q).
Proof. intros Hx. apply list_elem_of_fmap. exists x. split; [done|]. by eapply list_elem_of_lookup_2. Qed.

Lemma find_rq_at nc h l1 q l2 k c :
  match_rq nc (Smb2 h) q = Some (k, c) -> NoDup (mids (l1 ++ q :: l2)) ->
  find_rq nc (Smb2 h) (l1 ++ q :: l2) = Some (l1, (q, k, c), l2).
Proof.
  intros Hm. induction l1 as [|q0 l1 IH]; intros Hnd; cbn [app find_rq]; [by rewrite Hm|].
  assert (E0 : match_rq nc (Smb2 h) q0 = None).
  { destruct (match_rq nc (Smb2 h) q0) as [[k0 c0]|] eqn:E; [|done]. exfalso.
    apply match_rq_mid in E as (x & Hx & Ex). apply match_rq_mid in Hm as (y & Hy & Ey).
    unfold mids in Hnd. cbn [app map concat] in Hnd. apply list.NoDup_app in Hnd as (_ & Hd & _).
    apply (Hd (h_messageid h)).
    - rewrite <- Ex. by eapply mid_in_parts.
    - fold (mids (l1 ++ q :: l2)). rewrite mids_app. apply elem_of_app. right.
      change (mids (q :: l2)) with (map sr_messageid (parts q) ++ mids l2). apply elem_of_app. left.
      rewrite <- Ey. by eapply mid_in_parts. }
  rewrite E0, IH; [done|]. unfold mids in Hnd. cbn [app map concat] in Hnd. by apply list.NoDup_app in Hnd as (_ & _ & ?).
Qed.

(** ** Replies *)

Section Receive.
Context `{Setup.Kdf} (s : Setup.auth_session).

Lemma receive_at m mem now h i l1 q l2 k c :
  rqlist i = l1 ++ q :: l2 -> NoDup (mids (rqlist i)) -> match_rq (non_compound_replies i) (Smb2 h) q = Some (k, c) ->
  let '(q', ef, i') := matched s m mem now (Smb2 h) q k c (set_times now (lastrqsent i) i) in
  receive s m mem now (Smb2 h) i = add_log ef (set_queue (l1 ++ q' :: l2) i').
Proof.
  intros El Hnd Hm. unfold receive. cbn [rqlist non_compound_replies set_times]. rewrite El in Hnd |- *.
  rewrite (find_rq_at _ _ _ _ _ _ _ Hm Hnd). by destruct (matched _ _ _ _ _ _ _ _ _) as [[q' ef] i'].
Qed.

(** The request after a reply has been delivered to it: kept, and done. *)
Definition answered (m : list Z) (q q' : rq) : Prop :=
  sr_rp (sr_head q') = [m] /\ smb2_response (sr_head q') = true /\ sr_next q' = sr_next q /\
  sr_state q' = SMBRQ_NOTIFIED /\ sr_lerror q' = 0 /\ sr_rpgen q' = i32 (sr_rpgen q + 1) /\ sr_rplast q' = sr_rplast q /\
  sr_messageid (sr_head q') = sr_messageid (sr_head q).

(** C9: a reply reaches the request with its message ID and no other: the request gets the
    message and is done, and its owner is woken up; every other request of the queue stays
    as it is, and so do the counts. *)
Theorem reply_reaches_its_request m mem now h i l1 q l2 :
  rqlist i = l1 ++ q :: l2 -> NoDup (mids (rqlist i)) ->
  sr_messageid (sr_head q) = h_messageid h -> compound q = false -> pending h = false -> sr_rp (sr_head q) = [] ->
  exists q', rqlist (receive s m mem now (Smb2 h) i) = l1 ++ q' :: l2 /\ answered m q q' /\
    log (receive s m mem now (Smb2 h) i)
    = log i ++ share_up (sr_head q) ++ [Preprocess (sr_id q) 0; if async q then Callback (sr_id q) else Wakeup (sr_id q)] /\
    muxcnt (receive s m mem now (Smb2 h) i) = muxcnt i.
Proof.
  intros El Hnd Hmid Hc Hp Hrp.
  assert (Hm : match_rq (non_compound_replies i) (Smb2 h) q = Some (0%nat, false)).
  { cbn [match_rq]. by rewrite Hmid, Z.eqb_refl, Hc. }
  pose proof (receive_at m mem now h i l1 q l2 0 false El Hnd Hm) as HR.
  unfold matched in HR. rewrite Hp in HR. cbn [andb] in HR. unfold deliver in HR.
  cbn [the_part nth set_part set_parts sr_head sr_next sr_rp multipacket set_response] in HR.
  rewrite Hrp, bool_decide_eq_true_2 in HR by done. cbn [negb andb] in HR. rewrite andb_false_r in HR. cbn [andb] in HR.
  destruct (smb_iod_rqprocessed _ _ _) as [q' ef] eqn:Eq. unfold smb_iod_rqprocessed in Eq. cbn in Eq.
  injection Eq as <- <-. exists (Rq (sr_id q) (set_rp [m] (set_response true (sr_head q))) (sr_next q) (compound q) (async q)
    (internal q) (rexmit q) (no_timeout q) (dead q || false) (iod_context q) SMBRQ_NOTIFIED 0 (i32 (sr_rpgen q + 1))
    (sr_rplast q) (sr_reconnect_cnt q) (sr_credit_timesent q) (if async q then S (callbacks q) else callbacks q)).
  rewrite HR. by split_and!.
Qed.

(** *** Servers that answer a compound request with single replies *)

Definition with_reply (m : list Z) (x : part) : part := set_rp [m] (set_response true x).

Lemma the_part_at k q x : parts q !! k = Some x -> the_part k q = x.
Proof. intros Hx. unfold the_part. fold (parts q). by apply nth_lookup_Some. Qed.

Lemma parts_set_part k p q : parts (set_part k p q) = <[k := p]> (parts q).
Proof. by destruct k. Qed.

(** One of these replies. *)
Lemma receive_single m mem now h i l1 q l2 k x :
  rqlist i = l1 ++ q :: l2 -> NoDup (mids (rqlist i)) -> non_compound_replies i = true \/ k = 0%nat -> compound q = true ->
  parts q !! k = Some x -> sr_messageid x = h_messageid h -> sr_rp x = [] -> pending h = false -> h_next h = 0 ->
  let all := forallb smb2_response (<[k := with_reply m x]> (parts q)) in
  exists q', rqlist (receive s m mem now (Smb2 h) i) = l1 ++ q' :: l2 /\
    parts q' = <[k := with_reply m x]> (parts q) /\ compound q' = true /\
    non_compound_replies (receive s m mem now (Smb2 h) i) = true /\
    (if all then sr_state q' = SMBRQ_NOTIFIED /\ sr_lerror q' = 0 /\ sr_rpgen q' = i32 (sr_rpgen q + 1)
     else sr_state q' = sr_state q /\ sr_lerror q' = sr_lerror q /\ sr_rpgen q' = sr_rpgen q).
Proof.
  intros El Hnd Hn Hc Hx Hmid Hrp Hp Hz all.
  assert (Hu : forall j y, parts q !! j = Some y -> sr_messageid y = h_messageid h -> j = k).
  { intros j y Hj Ey. rewrite El, mids_app in Hnd. apply list.NoDup_app in Hnd as (_ & _ & Hnd).
    change (mids (q :: l2)) with (map sr_messageid (parts q) ++ mids l2) in Hnd. apply list.NoDup_app in Hnd as (Hnd & _).
    apply (NoDup_lookup _ _ _ (h_messageid h) Hnd); rewrite list_lookup_fmap.
    - by rewrite Hj; cbn; rewrite Ey.
    - by rewrite Hx; cbn; rewrite Hmid. }
  assert (Hm : match_rq (non_compound_replies i) (Smb2 h) q = Some (k, true)).
  { cbn [match_rq]. rewrite Hc, Hp, Hz. cbn [negb andb orb Z.eqb]. destruct k as [|k].
    - cbn in Hx. injection Hx as <-. by rewrite Hmid, Z.eqb_refl.
    - destruct Hn as [->|]; [|done]. destruct (Z.eqb_spec (sr_messageid (sr_head q)) (h_messageid h)) as [E|].
      { by specialize (Hu 0%nat (sr_head q) eq_refl E). }
      rewrite (index_of_at _ _ k x); [done|exact Hx|by apply Z.eqb_eq|].
      intros j y Hj Ey%Z.eqb_eq. by specialize (Hu (S j) y Hj Ey) as [= ->]. }
  pose proof (receive_at m mem now h i l1 q l2 k true El Hnd Hm) as HR.
  assert (Hk : (k < length (parts q))%nat) by (by eapply lookup_lt_Some).
  unfold matched in HR. rewrite Hp, (the_part_at _ _ _ Hx) in HR. cbn [andb] in HR. unfold deliver in HR.
  assert (Hpp : parts (set_part k (set_response true x) q) !! k = Some (set_response true x)).
  { rewrite parts_set_part. by apply list_lookup_insert_eq. }
  rewrite (the_part_at _ _ _ Hpp) in HR. cbn [sr_rp set_response] in HR. rewrite Hrp, bool_decide_eq_true_2 in HR by done.
  cbn [negb andb app] in HR. set (q1 := set_part k (set_rp [m] _) _) in HR.
  assert (E1 : parts q1 = <[k := with_reply m x]> (parts q)).
  { unfold q1. rewrite !parts_set_part. apply list_insert_insert_eq. }
  assert (Eid : sr_state q1 = sr_state q /\ sr_lerror q1 = sr_lerror q /\ sr_rpgen q1 = sr_rpgen q /\ compound q1 = true).
  { unfold q1. destruct k; cbn; by rewrite Hc. }
  change (sr_head q1 :: sr_next q1) with (parts q1) in HR. rewrite E1 in HR. fold all in HR.
  set (i1 := if (k =? 0)%nat then _ else _) in HR.
  assert (Hi1 : non_compound_replies i1 = true) by (unfold i1; by destruct Hn as [| ->]; [destruct (k =? 0)%nat|]).
  cbn [non_compound_replies set_work set_auth] in HR. rewrite Hi1 in HR. cbn [andb] in HR. destruct all; cbn [negb] in HR.
  - rewrite HR. eexists. split; [done|]. cbn [smb_iod_rqprocessed].
    split_and!; [exact E1|apply Eid|exact Hi1|done|done|cbn; by destruct Eid as (_ & _ & -> & _)].
  - rewrite HR. exists q1. split; [done|]. destruct Eid as (? & ? & ? & ?). by split_and!.
Qed.

(** Several replies, one after the other. *)
Definition receive_all (mem : bool) (now : Z) (rs : list (hdr * list Z)) (i : iod) : iod :=
  fold_left (fun i r => receive s r.2 mem now (Smb2 r.1) i) rs i.

Definition reply_ids (rs : list (hdr * list Z)) : list Z := map (fun r => h_messageid r.1) rs.
Definition single (r : hdr * list Z) : Prop := pending r.1 = false /\ h_next r.1 = 0.

(** The parts whose replies are still to come are those of [rs]; the others have theirs
    out of [rs0]. *)
Definition collecting (rs0 rs : list (hdr * list Z)) (x : part) : Prop :=
  (smb2_response x = false /\ sr_rp x = [] /\ (sr_messageid x ∈ reply_ids rs)) \/
  (smb2_response x = true /\ (sr_messageid x ∉ reply_ids rs) /\
   exists h m, (h, m) ∈ rs0 /\ h_messageid h = sr_messageid x /\ sr_rp x = [m]).

Lemma mids_parts l1 q q' l2 : map sr_messageid (parts q') = map sr_messageid (parts q) ->
  mids (l1 ++ q' :: l2) = mids (l1 ++ q :: l2).
Proof. intros E. rewrite !mids_app. unfold mids. cbn [map concat]. by rewrite E. Qed.

Lemma collecting_step rs0 r rs q k x :
  NoDup (reply_ids (r :: rs)) -> NoDup (map sr_messageid (parts q)) -> r ∈ rs0 ->
  Forall (collecting rs0 (r :: rs)) (parts q) -> parts q !! k = Some x -> sr_messageid x = h_messageid r.1 ->
  Forall (collecting rs0 rs) (<[k := with_reply r.2 x]> (parts q)).
Proof.
  intros Hnr Hnq Hr HF Hx Ex. apply list.NoDup_cons in Hnr as [Hni _]. apply Forall_lookup. intros j y Hy.
  destruct (decide (j = k)) as [->|Hjk].
  - rewrite list_lookup_insert_eq in Hy by (by eapply lookup_lt_Some). injection Hy as <-. right.
    split; [done|]. cbn. rewrite Ex. split; [exact Hni|]. destruct r as [h m]. by exists h, m.
  - rewrite list_lookup_insert_ne in Hy by done. pose proof (proj1 (Forall_lookup _ _) HF j y Hy) as HC.
    assert (sr_messageid y <> h_messageid r.1).
    { intros E. apply Hjk. apply (NoDup_lookup _ _ _ (h_messageid r.1) Hnq); rewrite list_lookup_fmap.
      - by rewrite Hy; cbn; rewrite E.
      - by rewrite Hx; cbn; rewrite Ex. }
    destruct HC as [(H1 & H2 & H3)|(H1 & H2 & H3)]; [left|right]; split_and!; try done.
    + by apply elem_of_cons in H3 as [?|?].
    + intros Hin. apply H2. by right.
Qed.

(** All have answered exactly when no reply is left. *)
Lemma collected_all rs0 rs q : Forall (collecting rs0 rs) (parts q) -> reply_ids rs ⊆ map sr_messageid (parts q) ->
  forallb smb2_response (parts q) = bool_decide (rs = []).
Proof.
  intros HF Hsub. case_bool_decide as E.
  - subst rs. apply forallb_forall. intros x Hx%list_elem_of_In.
    apply (proj1 (list.Forall_forall _ _) HF) in Hx as [(_ & _ & H3)|(H1 & _)]; [by apply not_elem_of_nil in H3|done].
  - apply not_true_is_false. intros HA. destruct rs as [|r rs]; [done|].
    assert (Hin : h_messageid r.1 ∈ map sr_messageid (parts q)) by (apply Hsub; left).
    apply list_elem_of_fmap in Hin as (x & Ex & Hx).
    pose proof (proj1 (forallb_forall _ _) HA x (proj1 (list_elem_of_In _ _) Hx)) as HT.
    apply (proj1 (list.Forall_forall _ _) HF) in Hx as [(H1 & _)|(_ & H2 & _)]; [congruence|].
    apply H2. rewrite <- Ex. left.
Qed.

Lemma queue_nodup i l1 q l2 : rqlist i = l1 ++ q :: l2 -> NoDup (mids (rqlist i)) -> NoDup (map sr_messageid (parts q)).
Proof.
  intros -> Hnd. rewrite mids_app in Hnd. apply list.NoDup_app in Hnd as (_ & _ & Hnd).
  change (mids (q :: l2)) with (map sr_messageid (parts q) ++ mids l2) in Hnd. by apply list.NoDup_app in Hnd as (? & _).
Qed.

(** The server is known to send single replies, or the first to come is that to the head of
    the chain. *)
Definition told_single (i : iod) (q : rq) (rs : list (hdr * list Z)) : Prop :=
  non_compound_replies i = true \/ exists r, head rs = Some r /\ h_messageid r.1 = sr_messageid (sr_head q).

(** Not woken up: as it was but for the replies. *)
Definition still_waiting (q q' : rq) : Prop :=
  sr_state q' = sr_state q /\ sr_lerror q' = sr_lerror q /\ sr_rpgen q' = sr_rpgen q.
Definition woken_once (q q' : rq) : Prop :=
  sr_state q' = SMBRQ_NOTIFIED /\ sr_lerror q' = 0 /\ sr_rpgen q' = i32 (sr_rpgen q + 1).

(** The replies [got] have come, [rs] are to come. *)
Lemma collect mem now rs0 got rs i l1 q l2 :
  got <> [] -> rqlist i = l1 ++ q :: l2 -> NoDup (mids (rqlist i)) -> told_single i q got -> compound q = true ->
  Forall single got -> (forall r, r ∈ got -> r ∈ rs0) -> NoDup (reply_ids (got ++ rs)) ->
  reply_ids (got ++ rs) ⊆ map sr_messageid (parts q) -> Forall (collecting rs0 (got ++ rs)) (parts q) ->
  exists q', rqlist (receive_all mem now got i) = l1 ++ q' :: l2 /\ Forall (collecting rs0 rs) (parts q') /\
    (if bool_decide (rs = []) then woken_once q q' else still_waiting q q').
Proof.
  revert i q. induction got as [|r got IH]; intros i q Hne El Hnd Hn Hc Hs Hin Hnr Hsub HF; [done|]. cbn [app] in *.
  apply list.Forall_cons in Hs as [[Hp Hz] Hs]. pose proof (queue_nodup i l1 q l2 El Hnd) as Hnq.
  assert (Hr : h_messageid r.1 ∈ map sr_messageid (parts q)) by (apply Hsub; left).
  apply list_elem_of_fmap in Hr as (x & Ex & Hx). apply list_elem_of_lookup in Hx as [k Hk].
  assert (Hrp : sr_rp x = []).
  { pose proof (proj1 (Forall_lookup _ _) HF k x Hk) as [(_ & ? & _)|(_ & Hno & _)]; [done|]. exfalso. apply Hno. rewrite <- Ex. left. }
  assert (Hn0 : non_compound_replies i = true \/ k = 0%nat).
  { destruct Hn as [|(r' & [= <-] & Er)]; [by left|right]. apply (NoDup_lookup _ _ _ (h_messageid r.1) Hnq); rewrite list_lookup_fmap.
    - by rewrite Hk; cbn; rewrite Ex.
    - by cbn; rewrite Er. }
  destruct (receive_single r.2 mem now r.1 i l1 q l2 k x El Hnd Hn0 Hc Hk (eq_sym Ex) Hrp Hp Hz)
    as (q1 & El1 & Ep1 & Hc1 & Hn1 & HA).
  assert (HF1 : Forall (collecting rs0 (got ++ rs)) (parts q1)).
  { rewrite Ep1. eapply collecting_step; eauto. apply Hin. left. }
  assert (Emid : map sr_messageid (parts q1) = map sr_messageid (parts q)).
  { rewrite Ep1. rewrite list_fmap_insert. apply list_insert_id. rewrite list_lookup_fmap, Hk. done. }
  assert (Hsub1 : reply_ids (got ++ rs) ⊆ map sr_messageid (parts q1)).
  { rewrite Emid. intros y Hy. apply Hsub. by right. }
  rewrite <- Ep1, (collected_all _ _ _ HF1 Hsub1) in HA. unfold receive_all. cbn [fold_left]. fold (receive_all mem now got).
  destruct got as [|r2 got].
  { exists q1. by split_and!. }
  rewrite bool_decide_eq_false_2 in HA by done. destruct HA as (E1 & E2 & E3).
  destruct (IH (receive s r.2 mem now (Smb2 r.1) i) q1) as (q' & El' & HF' & HW); try done.
  - rewrite El1. rewrite (mids_parts _ q q1) by done. by rewrite <- El.
  - by left.
  - intros y Hy. apply Hin. by right.
  - by apply list.NoDup_cons in Hnr as [_ ?].
  - exists q'. split_and!; [done..|]. unfold woken_once, still_waiting in *. by rewrite <- E1, <- E2, <- E3.
Qed.

(** C10: when a server answers a compound request with one reply for each request, every
    request of the chain gets its reply, and the owner is woken up once, with the last of
    them and not before.  The replies may come in any order if the server is already known to
    answer in this way, otherwise that to the first request has to come first. *)
Theorem single_replies_collected mem now rs i l1 q l2 :
  rqlist i = l1 ++ q :: l2 -> NoDup (mids (rqlist i)) -> told_single i q rs -> compound q = true ->
  Forall (fun x => smb2_response x = false /\ sr_rp x = []) (parts q) ->
  Forall single rs -> reply_ids rs ≡ₚ map sr_messageid (parts q) ->
  (forall got r rest, rs = got ++ r :: rest -> exists q',
    rqlist (receive_all mem now got i) = l1 ++ q' :: l2 /\ still_waiting q q') /\
  exists q', rqlist (receive_all mem now rs i) = l1 ++ q' :: l2 /\ woken_once q q' /\
    Forall (fun x => exists h m, (h, m) ∈ rs /\ h_messageid h = sr_messageid x /\ sr_rp x = [m]) (parts q').
Proof.
  intros El Hnd Hn Hc HF Hs Hperm. pose proof (queue_nodup i l1 q l2 El Hnd) as Hnq.
  assert (Hnr : NoDup (reply_ids rs)) by (by rewrite Hperm).
  assert (HF0 : Forall (collecting rs rs) (parts q)).
  { apply list.Forall_forall. intros x Hx. left. pose proof (proj1 (list.Forall_forall _ _) HF x Hx) as [? ?].
    split_and!; [done..|]. rewrite Hperm. apply list_elem_of_fmap. by exists x. }
  assert (Hsub : reply_ids rs ⊆ map sr_messageid (parts q)) by (by rewrite Hperm).
  split.
  - intros got r rest E. destruct (decide (got = [])) as [->|Hg]; [by exists q|].
    destruct (collect mem now rs got (r :: rest) i l1 q l2) as (q' & E1 & _ & E2); rewrite <- ?E; try done.
    + destruct Hn as [|(r' & Hr & ?)]; [by left|right]. exists r'. split; [|done]. subst rs. by destruct got.
    + subst rs. by apply list.Forall_app in Hs as [? _].
    + subst rs. intros y Hy. apply elem_of_app. by left.
    + by exists q'.
  - destruct (collect mem now rs rs [] i l1 q l2) as (q' & E1 & E5 & E2); rewrite ?app_nil_r; try done.
    { intros ->. by apply Permutation_nil_l in Hperm. }
    exists q'. split_and!; [done..|]. eapply list.Forall_impl; [exact E5|]. intros x [(_ & _ & Hno)|(_ & _ & HX)]; [|done].
    by apply not_elem_of_nil in Hno.
Qed.
End Receive.

(** ** Time-outs *)

Section Rounds.
Context `{Setup.Kdf} (s : Setup.auth_session) (w : round).

Lemma foreach_forall (f : rq -> rq * list effect) (P Q : rq -> Prop) l :
  (forall q, P q -> Q (f q).1) -> Forall P l -> Forall Q (foreach f l).1.
Proof.
  intros Hf. induction 1 as [|q l Hq _ IH]; cbn [foreach]; [constructor|].
  specialize (Hf q Hq). destruct (f q) as [q' e], (foreach f l) as [l' e']. by constructor.
Qed.

Lemma over_queue_forall f (P Q : rq -> Prop) i :
  (forall q, P q -> Q (f q).1) -> Forall P (rqlist i) -> Forall Q (rqlist (over_queue f i)).
Proof.
  intros Hf HP. pose proof (foreach_forall f P Q (rqlist i) Hf HP) as HQ. unfold over_queue.
  by destruct (foreach f (rqlist i)) as [l e].
Qed.

Lemma over_queue_flag f i : start_reconnect (over_queue f i) = start_reconnect i.
Proof. unfold over_queue. by destruct (foreach f (rqlist i)). Qed.

Definition is_smb2 (q : rq) : Prop := smb2_request (sr_head q) = true.

(** After the start of a reconnect nothing waits for a reply. *)
Lemma start_reconnect_none_sent t1 t2 i : start_reconnect i = false ->
  Forall (fun q => sr_state q <> SMBRQ_SENT) (rqlist (smb_iod_start_reconnect t1 t2 i)) /\
  start_reconnect (smb_iod_start_reconnect t1 t2 i) = false.
Proof.
  intros Hs. unfold smb_iod_start_reconnect. rewrite Hs.
  assert (HT : Forall (fun _ : rq => True) (rqlist i)) by (by apply list.Forall_forall).
  destruct (not_reconnectable _).
  - unfold smb_iod_dead, smb_iod_invrq. rewrite !over_queue_flag. split; [|done].
    apply (over_queue_forall _ (fun q => sr_state q <> SMBRQ_SENT)); [by intros q|].
    eapply over_queue_forall; [|exact HT]. by intros q.
  - split; [|done]. unfold begin_reconnect. cbn [rqlist set_st set_flags]. eapply over_queue_forall; [|exact HT]. intros q _. unfold reconnect_rq.
    destruct (internal q || async q); [by case_match|]. destruct (soft_timed_out _ _ _); [done|].
    case_bool_decide as E; cbn; [|done]. cbn in E. by rewrite E.
Qed.

Lemma start_reconnect_smb2 t1 t2 i : Forall is_smb2 (rqlist i) -> Forall is_smb2 (rqlist (smb_iod_start_reconnect t1 t2 i)).
Proof.
  intros HF. unfold smb_iod_start_reconnect. destruct (start_reconnect i); [done|].
  destruct (not_reconnectable _).
  - unfold smb_iod_dead, smb_iod_invrq. apply (over_queue_forall _ is_smb2); [by intros q|].
    eapply over_queue_forall; [|exact HF]. by intros q.
  - unfold begin_reconnect. cbn [rqlist set_st set_flags]. eapply over_queue_forall; [|exact HF]. intros q Hq. unfold reconnect_rq.
    by repeat case_match.
Qed.

(** When the time of a request is over. *)
Definition deadline (q : rq) : Z :=
  sec (if going_down w then SMB_FAST_SEND_WAIT_TIMO else SMB_SEND_WAIT_TIMO) + sr_timesent (sr_head q).
Definition on_time (q : rq) : Prop :=
  sr_state q = SMBRQ_SENT -> async q = false -> no_timeout q = false -> now w <= deadline q.

(** The outcome of a step of the loop. *)
Definition step_ok (a a' : acc) (herror : Z) (q' : rq) : Prop :=
  start_reconnect (a_iod a') = start_reconnect (a_iod a) /\ (herror = 0 /\ on_time q' \/ herror = ENOTCONN).

Lemma give_up_ok e a q : let '(herror, q', a') := giveup e a q in step_ok a a' herror q'.
Proof. cbn. split; [done|]. left. split; [done|]. by intros ?. Qed.

Lemma do_send_ok a q : is_smb2 q -> sr_state q <> SMBRQ_SENT ->
  let '(herror, q', a') := do_send s w a q in step_ok a a' herror q'.
Proof.
  intros H2 Hs. unfold do_send, smb_iod_sendrq. rewrite H2. cbn [andb].
  assert (HN : forall i, st (a_iod a) = i -> True) by done.
  destruct (st (a_iod a)); cbn; try (split; [done|left; split; [done|by intros ?]]).
  all: destruct (tran_send (tran_of w q) =? 0); [|destruct (tran_fatal (tran_of w q))]; cbn; rewrite ?H2.
  all: split; [by destruct (negb (compound q))|].
  all: try (right; done).
  all: left; split; [done|]; intros _ _ _; unfold deadline, sec; cbn; destruct (going_down w); unfold SMB_FAST_SEND_WAIT_TIMO, SMB_SEND_WAIT_TIMO; lia.
Qed.

Lemma sent_ok a q : is_smb2 q -> let '(herror, q', a') := sent_rq w a q in step_ok a a' herror q'.
Proof.
  intros H2. unfold sent_rq. destruct (async q || no_timeout q) eqn:E1.
  { split; [done|]. left. split; [done|]. intros _ Ha Hn. by rewrite Ha, Hn in E1. }
  destruct (_ && _ && _); [split; [done|by right]|].
  destruct (Z.ltb_spec (sec (if going_down w then SMB_FAST_SEND_WAIT_TIMO else SMB_SEND_WAIT_TIMO) + sr_timesent (sr_head q)) (now w)).
  - rewrite H2. cbn. split; [done|]. left. split; [done|]. by intros ?.
  - destruct (_ && _); (split; [done|]); left; (split; [done|]); intros _ _ _; unfold deadline; lia.
Qed.

Lemma switch_ok a q : is_smb2 q -> let '(herror, q', a') := switch_rq s w a q in step_ok a a' herror q'.
Proof.
  intros H2. unfold switch_rq. destruct (sr_state q) eqn:Es.
  - apply do_send_ok; [done|by rewrite Es].
  - by apply sent_ok.
  - split; [done|]. left. split; [done|]. intros E. congruence.
  - destruct (in_reconnect (a_iod a)); [split; [done|]; left; split; [done|]; intros E; congruence|].
    destruct (_ <? _).
    + apply (give_up_ok _ (Acc (set_st ST_DEAD (a_iod a)) (a_echo a) (a_oldest a))).
    + cbn [smb2_request sr_head set_reconnect_cnt set_state]. rewrite H2. apply give_up_ok.
Qed.

Lemma send_one_ok a q : is_smb2 q -> let '(herror, q', a') := send_one s w a q in step_ok a a' herror q'.
Proof.
  intros H2. unfold send_one. case_bool_decide; [apply give_up_ok|].
  destruct (match sr_share (sr_head q) with Some sh => ss_going_away sh | None => false end); [apply give_up_ok|].
  destruct (_ && negb (internal q)); [|by apply switch_ok].
  destruct (_ && negb (iod_context q)); [apply give_up_ok|]. destruct (async q); [apply give_up_ok|].
  apply switch_ok. unfold is_smb2. by case_bool_decide.
Qed.

Lemma send_loop_ok a l : Forall is_smb2 l ->
  let '(herror, l', a') := send_loop s w a l in
  start_reconnect (a_iod a') = start_reconnect (a_iod a) /\ (herror = 0 /\ Forall on_time l' \/ herror = ENOTCONN).
Proof.
  intros HF. revert a. induction HF as [|q l H2 _ IH]; intros a; cbn [send_loop].
  { split; [done|]. left. split; [done|constructor]. }
  pose proof (send_one_ok a q H2) as HO. destruct (send_one s w a q) as [[herror q'] a1].
  destruct HO as [E [[-> Ho]| ->]]; cbn [Z.eqb negb]; [|split; [done|by right]].
  specialize (IH a1). destruct (send_loop s w a1 l) as [[h2 l2] a2]. destruct IH as [E2 [[-> Hl]| ->]]; (split; [congruence|]).
  - left. split; [done|]. by constructor.
  - by right.
Qed.

(** C11: after a round of the thread no request of SMB 2 has waited for its reply longer than
    the time that is allowed, two minutes or a second when the system goes down: it has been
    told so, or the channel has started to reconnect. *)
Theorem no_overdue_requests i : Forall is_smb2 (rqlist i) -> start_reconnect i = false ->
  Forall on_time (rqlist (smb_iod_sendall s w i)).
Proof.
  intros HF Hs. unfold smb_iod_sendall. set (i1 := if read_error i then _ else i).
  assert (Forall is_smb2 (rqlist i1) /\ start_reconnect i1 = false) as [HF1 Hs1].
  { unfold i1. destruct (read_error i); [|done]. split; [by apply start_reconnect_smb2|by apply start_reconnect_none_sent]. }
  pose proof (send_loop_ok (Acc i1 false None) (rqlist i1) HF1) as HL.
  destruct (send_loop s w (Acc i1 false None) (rqlist i1)) as [[herror l] a]. destruct HL as [E HL]. cbn [a_iod] in E.
  set (i2 := if herror =? ENOTCONN then _ else _).
  assert (HO : Forall on_time (rqlist i2)).
  { unfold i2. destruct HL as [[-> Hl]| ->]; cbn [Z.eqb ENOTCONN].
    - by destruct (_ && _ && _ && _).
    - destruct (start_reconnect_none_sent (now w) (now w) (set_queue l (a_iod a))) as [HN _]; [cbn; congruence|].
      change (57 =? 57) with true. cbv iota. eapply list.Forall_impl; [exact HN|]. intros q Hq Hs2. done. }
  by destruct (session_smb2 i2).
Qed.
End Rounds.

(** ** Entering and leaving *)

Section Counts.
Context `{Setup.Kdf} (s : Setup.auth_session) (w : round).

Lemma remove_fresh id l : (forall q, q ∈ l -> sr_id q <> id) -> remove id l = l.
Proof.
  intros Hf. unfold remove. induction l as [|q l IH]; [done|]. rewrite filter_cons_True by (apply Hf; left).
  f_equal. apply IH. intros q' Hq'. apply Hf. by right.
Qed.

(** A request that is put into the queue is the last there, with its message IDs, and
    is counted; when it leaves, and no reconnect has come between, the queue and the counts
    are as before. *)
Theorem enqueue_and_leave sign q i q' i' :
  smb_iod_rq_enqueue s w sign q i = Some (0, q', i') -> iod_context q = false -> internal q = false -> in_reconnect i = false ->
  (forall r, sr_id (sign r).2 = sr_id r /\ async (sign r).2 = async r /\ internal (sign r).2 = internal r /\
             part_reconnected (sr_head (sign r).2) = part_reconnected (sr_head r)) ->
  part_reconnected (sr_head q) = false -> (forall r, r ∈ rqlist i -> sr_id r <> sr_id q) ->
  - 2 ^ 30 <= muxcnt i < 2 ^ 30 -> - 2 ^ 30 <= asynccnt i < 2 ^ 30 ->
  rqlist i' = rqlist i ++ [q'] /\ muxcnt i' = muxcnt i + 1 /\ workflag i' = true /\
  rqlist (smb_iod_removerq q' i') = rqlist i /\ muxcnt (smb_iod_removerq q' i') = muxcnt i /\
  asynccnt (smb_iod_removerq q' i') = asynccnt i.
Proof.
  intros E Hc Hi Hre Hsign Hp Hf Hm Ha. unfold smb_iod_rq_enqueue in E. rewrite Hc in E.
  assert (Es : soft_mount w q i = Some q).
  { unfold soft_mount. destruct (sr_share (sr_head q)); [|done]. by rewrite Hre, andb_false_r. }
  rewrite Es in E. cbv zeta in E.
  assert (exists r, (r = q \/ r = (sign q).2) /\ q' = r /\
    i' = set_work (set_queue (rqlist i ++ [r]) (set_counts (i32 (muxcnt i + 1)) (if async q then i32 (asynccnt i + 1) else asynccnt i) i)))
    as (r & Hr & -> & ->).
  { destruct (st i); try discriminate E.
    all: repeat (lazymatch type of E with (if ?b then _ else _) = _ => destruct b; try discriminate E end).
    all: destruct (smb2_request (sr_head q)); [destruct (sign q) as [e r] eqn:Er|].
    all: cbn [snd] in *.
    all: try (destruct (negb (e =? 0)) eqn:Ee; [injection E as -> _ _; discriminate Ee|injection E as <- <-; exists r; eauto]).
    all: cbn [Z.eqb negb] in E; injection E as <- <-; exists q; eauto. }
  assert (sr_id r = sr_id q /\ async r = async q /\ internal r = false /\ part_reconnected (sr_head r) = false)
    as (Eid & Eas & Ein & Epr).
  { destruct Hr as [-> | ->]; [done|]. destruct (Hsign q) as (? & ? & ? & ?). split_and!; congruence. }
  unfold smb_iod_removerq. rewrite Ein, Epr, Eas, Eid. cbn [rqlist muxcnt asynccnt workflag set_work set_queue set_counts].
  assert (Hq : remove (sr_id q) (rqlist i ++ [r]) = rqlist i).
  { unfold remove. rewrite list.filter_app, filter_cons_False, filter_nil, app_nil_r by (by rewrite Eid; intros Hn; apply Hn).
    by apply remove_fresh. }
  assert (Hx : forall x, - 2 ^ 30 <= x < 2 ^ 30 -> i32 (x + 1) = x + 1 /\ i32 (i32 (x + 1) - 1) = x).
  { intros x Hx. rewrite (i32_small (x + 1)) by lia. split; [done|]. rewrite i32_small by lia. lia. }
  split_and!; [done|by apply Hx|done|exact Hq|by apply Hx|]. destruct (async q); [by apply Hx|done].
Qed.

(** A request that is refused because the channel shuts down has been counted, and nobody
    counts it down. *)
Theorem refused_request_stays_counted sign q i :
  iod_context q = false -> st i = ST_SESSION_ACTIVE -> sr_share (sr_head q) = None -> smb2_request (sr_head q) = true ->
  sr_next q = [] -> sr_rqsessionid (sr_head q) = session_session_id i -> shutdown i = true -> - 2 ^ 30 <= muxcnt i < 2 ^ 30 ->
  exists i', smb_iod_rq_enqueue s w sign q i = Some (EAGAIN, q, i') /\ muxcnt i' = muxcnt i + 1 /\ rqlist i' = rqlist i.
Proof.
  intros Hc Hst Hsh H2 Hn Hsid Hdown Hm. unfold smb_iod_rq_enqueue, soft_mount. rewrite Hc, Hst, Hsh, H2, Hn.
  cbn [negb andb forallb]. rewrite Hsid, Z.eqb_refl. cbn [negb andb]. rewrite andb_false_r. cbn [andb]. cbv zeta.
  cbn [shutdown set_counts]. rewrite Hdown. eexists. split; [done|]. split; [|done]. cbn. apply i32_small. lia.
Qed.
End Counts.

(** ** What goes wrong *)

Section Flaws.
Context `{Setup.Kdf} (s : Setup.auth_session) (w : round).

(** A request that has been answered, but not yet left the queue, is told that it timed out
    when its share goes away or the channel is dead; the callback of an asynchronous request
    is called a second time. *)
Theorem answered_request_times_out a q :
  sr_state q = SMBRQ_NOTIFIED ->
  st (a_iod a) = ST_DEAD \/ (exists sh, sr_share (sr_head q) = Some sh /\ ss_going_away sh = true) ->
  let '(_, q', _) := send_one s w a q in
  sr_lerror q' = ETIMEDOUT /\ (async q = true -> callbacks q' = S (callbacks q)).
Proof.
  intros Hs Hw. unfold send_one, giveup. case_bool_decide as Ed; [cbn; split; [done|by intros ->]|].
  destruct Hw as [|(sh & -> & ->)]; [done|]. cbn. split; [done|by intros ->].
Qed.

(** The start of a reconnect sets the time that the time-out of a soft mount is counted from
    before it looks at it: no request times out there. *)
Theorem soft_mount_waits_anew start now i q :
  now <= start + sec 1 -> (forall sh, sr_share (sr_head q) = Some sh -> 0 <= ss_soft_timer sh) ->
  soft_timed_out (set_flags (in_reconnect i) (start_reconnect i) start i) now q = false.
Proof.
  intros Hn Hp. unfold soft_timed_out, smb_iod_check_timeout. destruct (sr_share (sr_head q)) as [sh|]; [|done].
  specialize (Hp sh eq_refl). destruct (Z.eqb_spec (ss_soft_timer sh) 0); [by rewrite andb_false_r|].
  cbn [reconnectStartTime set_flags]. rewrite (proj2 (Z.ltb_ge _ _)); [by rewrite andb_false_r|]. unfold sec in *. lia.
Qed.

(** Until a server is known to send single replies, the reply to a later request of a chain
    is dropped if it comes before that to the first. *)
Theorem early_single_reply_dropped m mem now h i q :
  rqlist i = [q] -> non_compound_replies i = false -> sr_messageid (sr_head q) <> h_messageid h -> pending h = false ->
  u8 (h_command h) <> SMB2_OPLOCK_BREAK ->
  rqlist (receive s m mem now (Smb2 h) i) = [q] /\ log (receive s m mem now (Smb2 h) i) = log i ++ [Freed m].
Proof.
  intros El Hn Hm Hp Hc. unfold receive. cbn [rqlist set_times non_compound_replies]. rewrite El, Hn. cbn [find_rq match_rq].
  rewrite (proj2 (Z.eqb_neq _ _)) by done. rewrite Hp, orb_true_r. cbn [negb andb no_request].
  rewrite (proj2 (Z.eqb_neq _ _)) by done. done.
Qed.

(** An interim reply to a later request of a chain restarts the clock of this request, which
    nobody looks at; the first, whose clock counts, goes on. *)
Theorem interim_reply_restarts_wrong_clock m mem now h q k i :
  pending h = true -> parts q !! S k <> None ->
  sr_timesent (sr_head (matched s m mem now (Smb2 h) q (S k) true i).1.1) = sr_timesent (sr_head q).
Proof. intros Hp _. cbn [matched]. by rewrite Hp. Qed.
End Flaws.

(** * The request queue: examples *)

#[local] Existing Instance SetupTheorems.demo_kdf.

Definition demo_part (command mid : Z) : part :=
  Part command mid 77 (0, 0, 0, 0) true false false false false false None [] 0 0 0.

(** A read, and a compound request of a create, a query and a close. *)
Definition demo_read : rq :=
  Rq 1 (demo_part 8 10) [] false false false false false false false SMBRQ_SENT 0 0 0 0 0 0.
Definition demo_compound : rq :=
  Rq 2 (demo_part SMB2_CREATE 11) [demo_part 16 12; demo_part SMB2_CLOSE 13] true false false false false false false
    SMBRQ_SENT 0 0 0 0 0 0.
Definition demo_iod (noncompound : bool) : iod :=
  Iod ST_SESSION_ACTIVE false false false false false [demo_read; demo_compound] 2 0 0 0 0 SetupTheorems.demo_iod
    (Credits.mk_iod false 14 100 0 100 0 1 10 0) noncompound 77 true 50 30 [].

Definition demo_hdr (mid : Z) : hdr := Hdr 8 0 1 0 mid 1 0 0.

Lemma reply_reaches_its_request_witness : exists q',
  rqlist (receive SetupTheorems.demo_auth [1; 2; 3] true 5 (Smb2 (demo_hdr 10)) (demo_iod false)) = [q'; demo_compound] /\
  answered [1; 2; 3] demo_read q'.
Proof.
  destruct (reply_reaches_its_request SetupTheorems.demo_auth [1; 2; 3] true 5 (demo_hdr 10) (demo_iod false) [] demo_read
    [demo_compound]) as (q' & E & HA & _); [reflexivity| |reflexivity..|].
  - apply (bool_decide_unpack _). by vm_compute.
  - exists q'. exact (conj E HA).
Defined.

(** The replies to the compound request, the last of the chain first. *)
Definition demo_replies : list (hdr * list Z) := [(demo_hdr 13, [3]); (demo_hdr 11, [1]); (demo_hdr 12, [2])].

Lemma single_replies_collected_witness :
  (exists q', rqlist (receive_all SetupTheorems.demo_auth true 5 (take 2 demo_replies) (demo_iod true)) = [demo_read; q'] /\
    still_waiting demo_compound q') /\
  exists q', rqlist (receive_all SetupTheorems.demo_auth true 5 demo_replies (demo_iod true)) = [demo_read; q'] /\
    woken_once demo_compound q'.
Proof.
  destruct (single_replies_collected SetupTheorems.demo_auth true 5 demo_replies (demo_iod true) [demo_read] demo_compound [])
    as (EW & q' & E1 & E2 & _); [reflexivity| |by left|reflexivity| | | |].
  - apply (bool_decide_unpack _). by vm_compute.
  - repeat constructor.
  - repeat constructor.
  - apply (bool_decide_unpack _). by vm_compute.
  - split; [exact (EW (take 2 demo_replies) _ _ eq_refl)|]. exists q'. exact (conj E1 E2).
Defined.

(** Two and a half minutes later. *)
Definition demo_round : round := Round (sec 150) false (fun _ => Tran 0 false) (fun _ => []).

Lemma no_overdue_requests_witness :
  Forall (on_time demo_round) (rqlist (smb_iod_sendall SetupTheorems.demo_auth demo_round (demo_iod false))) /\
  map sr_lerror (rqlist (smb_iod_sendall SetupTheorems.demo_auth demo_round (demo_iod false))) = [ETIMEDOUT; ETIMEDOUT].
Proof.
  split; [|by vm_compute]. apply (no_overdue_requests SetupTheorems.demo_auth demo_round (demo_iod false)); [|reflexivity].
  repeat constructor.
Defined.

(** A request with its message ID. *)
Definition demo_new : rq := Rq 3 (demo_part 8 0) [] false false false false false false false SMBRQ_NOTSENT 0 0 0 0 0 0.
Definition demo_sign (r : rq) : Z * rq :=
  (0, set_head (fun p => Part (sr_command p) 14 (sr_rqsessionid p) (sr_smb1 p) (smb2_request p) (smb2_response p) (req_sent p)
         (non_idempotent p) (multipacket p) (part_reconnected p) (sr_share p) (sr_rp p) (sr_rspasyncid p)
         (sr_rspcreditsgranted p) (sr_timesent p)) r).

Lemma enqueue_and_leave_witness : exists q' i',
  smb_iod_rq_enqueue SetupTheorems.demo_auth demo_round demo_sign demo_new (demo_iod false) = Some (0, q', i') /\
  muxcnt i' = 3 /\ muxcnt (smb_iod_removerq q' i') = 2 /\ rqlist (smb_iod_removerq q' i') = [demo_read; demo_compound].
Proof.
  eexists _, _. split; [vm_compute; reflexivity|].
  edestruct (enqueue_and_leave SetupTheorems.demo_auth demo_round demo_sign demo_new (demo_iod false))
    as (_ & E1 & _ & E2 & E3 & _); [vm_compute; reflexivity|reflexivity..| | | | | |exact (conj E1 (conj E3 E2))].
  - intros r. by split_and!.
  - reflexivity.
  - intros r. cbn. intros Hr. by repeat (apply elem_of_cons in Hr as [->|Hr]; [done|]); apply not_elem_of_nil in Hr.
  - cbn. lia.
  - cbn. lia.
Defined.
