(* ===== verification/Outgoing.v ===== *)
(** * A request on its way out: [smb_iod_rq_sign] of [kernel/netsmb/smb_iod.c]

    Before a request enters the queue it gets its message ID, is signed or will be encrypted,
    a write is compressed, and last it is encrypted.  This composes [Credits], [Sign],
    [Compress] and [Seal].  [wire] is what [smb_iod_sendrq] sends of it. *)
From S2P Require Import Prelude Sign Seal.
From S2P Require Credits Compress.
Import Errno.
Local Open Scope Z_scope.

Definition SMB2_TREE_CONNECT := 0x3.
Definition MESSAGEIDOFF : nat := 24.

(** A request of a compound chain, or the only one. *)
Record out_part := OutPart { op_credit : Credits.smb_rq; op_has_sig : bool; op_chain : chain }.

Record out_rq := OutRq {
  o_head : out_part;
  o_next : list out_part;
  o_compound : bool;              (* SMBR_COMPOUND_RQ *)
  o_signed : bool;                (* SMBR_SIGNED *)
  o_no_compress : bool;           (* SMB2_NO_COMPRESS_WRITE *)
  o_channel : option channel;
  o_alternate : bool;             (* the channel is SMBIOD_ALTERNATE_CHANNEL *)
  o_share_encrypts : bool;        (* SMB2_SHAREFLAG_ENCRYPT_DATA of its share *)
  o_sessionid : Z;
  o_is_compressed : bool;         (* SMBR_COMPRESSED *)
  o_compressed : chain;           (* sr_rq_compressed *)
  o_failed_compress : bool        (* SMB2_FAILED_COMPRESS_WRITE *)
}.
Definition set_out_parts (h : out_part) (n : list out_part) (q : out_rq) : out_rq :=
  OutRq h n (o_compound q) (o_signed q) (o_no_compress q) (o_channel q) (o_alternate q) (o_share_encrypts q) (o_sessionid q)
    (o_is_compressed q) (o_compressed q) (o_failed_compress q).
Definition set_out_compressed (packed : bool) (c : chain) (failed : bool) (q : out_rq) : out_rq :=
  OutRq (o_head q) (o_next q) (o_compound q) (o_signed q) (o_no_compress q) (o_channel q) (o_alternate q) (o_share_encrypts q)
    (o_sessionid q) packed c failed.

Record out_session := OutSession {
  os_sign : session;
  os_seal : seal_session;
  os_comp : Compress.comp_env;
  session_encrypts : bool         (* SMB2_SESSION_FLAG_ENCRYPT_DATA *)
}.
Definition set_os_seal (x : seal_session) (s : out_session) : out_session :=
  OutSession (os_sign s) x (os_comp s) (session_encrypts s).

Section Outgoing.
Context `{Mac} `{Aead} `{Compress.Codec}.

Definition op_command (p : out_part) : Z := Credits.sr_command (op_credit p).
Definition op_messageid (p : out_part) : Z := Credits.sr_messageid (op_credit p).

(** The ID goes into the header. *)
Definition put_messageid (p : out_part) (c : Credits.smb_rq) : out_part :=
  OutPart c (op_has_sig p) (patch MESSAGEIDOFF (le_bytes 8 (Credits.sr_messageid c)) (op_chain p)).

Definition give_ids (q : out_rq) (i : Credits.smbiod) : out_rq * Credits.smbiod :=
  let '(error, c, cs, i) :=
    Credits.smb2_rq_message_id_increment (op_credit (o_head q)) (map op_credit (o_next q)) (o_compound q) i in
  if negb (error =? 0) then (q, i)
  else (set_out_parts (put_messageid (o_head q) c)
          (if o_compound q && negb (op_command (o_head q) =? SMB2_NEGOTIATE)
           then zip_with put_messageid (o_next q) cs else o_next q) q, i).

Definition must_encrypt (s : out_session) (q : out_rq) : bool :=
  let c := op_command (o_head q) in
  let login := (c =? SMB2_NEGOTIATE) || (c =? SMB2_SESSION_SETUP) in
  smb3_or_later (os_sign s)
  && (if session_encrypts s then negb login else o_share_encrypts q && negb login && negb (c =? SMB2_TREE_CONNECT)).

Definition must_sign (s : out_session) (q : out_rq) : bool :=
  let c := op_command (o_head q) in
  negb (must_encrypt s q) && (signing_on (os_sign s) || o_signed q)
  && (o_alternate q || negb (c =? SMB2_SESSION_SETUP)) && negb (c =? SMB2_NEGOTIATE).

(** The error of [smb2_rq_sign] is not looked at; [mac_mem]: there is memory for the MAC. *)
Definition sign_parts (s : out_session) (mac_mem : bool) (q : out_rq) : out_rq :=
  let arg p := (Rq (op_command p) (op_messageid p) (o_signed q) 0 (o_channel q), op_has_sig p, op_chain p) in
  let put p c := OutPart (op_credit p) (op_has_sig p) c in
  match (smb2_rq_sign (os_sign s) mac_mem (arg (o_head q) :: map arg (o_next q))).2 with
  | c :: cs => set_out_parts (put (o_head q) c) (zip_with put (o_next q) cs) q
  | [] => q
  end.

(** A write is compressed, if the session compresses. *)
Definition compress_rq (s : out_session) (q : out_rq) : option (Z * out_rq) :=
  let c := op_command (o_head q) in
  if smb3_or_later (os_sign s) && negb (Compress.algorithms_map (os_comp s) =? 0) && negb (o_compound q)
     && (c =? Compress.SMB2_WRITE) && negb (o_no_compress q)
  then
    let msg := concat (op_chain (o_head q)) in
    match Compress.smb2_rq_compress_write (length msg) (os_comp s)
            (Compress.CompRq (o_compound q) c (o_no_compress q)) msg with
    | None => None
    | Some (inl e) => Some (e, q)
    | Some (inr (Compress.Plain failed)) =>
        Some (0, set_out_compressed (o_is_compressed q) (o_compressed q) (o_failed_compress q || failed) q)
    | Some (inr (Compress.Compressed bs)) => Some (0, set_out_compressed true [bs] (o_failed_compress q) q)
    end
  else Some (0, q).

Definition seal_of (q : out_rq) : seal_rq :=
  SealRq (o_compound q) (o_is_compressed q) (op_command (o_head q)) (o_sessionid q) (op_chain (o_head q))
    (map op_chain (o_next q)) (o_compressed q).
Definition unseal (q : out_rq) (r : seal_rq) : out_rq :=
  set_out_compressed (o_is_compressed q) (er_compressed r) (o_failed_compress q)
    (set_out_parts (OutPart (op_credit (o_head q)) (op_has_sig (o_head q)) (er_chain r))
       (zip_with (fun p c => OutPart (op_credit p) (op_has_sig p) c) (o_next q) (er_next r)) q).

(** The error, the request, the session and the credits; [None]: the compression does not
    end.  [gethdr] is the error of [mbuf_gethdr]. *)
Definition smb_iod_rq_sign (mac_mem : bool) (gethdr : Z) (s : out_session) (q : out_rq) (i : Credits.smbiod)
  : option (Z * out_rq * out_session * Credits.smbiod) :=
  let '(q, i) := give_ids q i in
  let q := if must_sign s q then sign_parts s mac_mem q else q in
  match compress_rq s q with
  | None => None
  | Some (error, q') =>
      if negb (error =? 0) then Some (error, q', s, i)
      else if must_encrypt s q' then
        let '(error, t, r) := smb3_rq_encrypt (os_seal s) (seal_of q') gethdr in
        Some (error, unseal q' r, set_os_seal t s, i)
      else Some (0, q', s, i)
  end.

(** What is detached from the request and sent. *)
Definition wire (q : out_rq) : chain :=
  if o_compound q then op_chain (o_head q) ++ concat (map op_chain (o_next q))
  else if o_is_compressed q && (op_command (o_head q) =? Compress.SMB2_WRITE) && negb (bool_decide (o_compressed q = []))
  then o_compressed q else op_chain (o_head q).
End Outgoing.
