(* ===== verification/OutgoingTheorems.v ===== *)
(** * A request on its way out: theorems *)
From S2P Require Import Prelude Parser Sign SignTheorems Seal SealTheorems Outgoing.
From S2P Require Credits Compress CompressTheorems.
Import Errno.
Local Open Scope Z_scope.

Section Survive.
Context `{MacLaws} `{AeadLaws} `{CompressTheorems.CodecLaws}.

(** The request once it has its ID and its signature. *)
Definition prepared (s : out_session) (mac_mem : bool) (q : out_rq) (i : Credits.smbiod) : out_rq :=
  let q := (give_ids q i).1 in if must_sign s q then sign_parts s mac_mem q else q.
Definition prepared_msg (s : out_session) (mac_mem : bool) (q : out_rq) (i : Credits.smbiod) : list Z :=
  concat (op_chain (o_head (prepared s mac_mem q i))).

(** A request of its own, not yet compressed. *)
Definition single (q : out_rq) : Prop :=
  o_compound q = false /\ o_next q = [] /\ o_is_compressed q = false /\ o_compressed q = [].

(** The limits of the decompressor. *)
Definition comp_ok (s : out_session) (m : list Z) : Prop :=
  let e := os_comp s in
  let len := le_value (take 4 (drop 68 (take Compress.HDR_WRITE m))) in
  (0 < Compress.chunk_len e)%nat /\ Forall is_byte m /\ length m = (Compress.HDR_WRITE + Z.to_nat len)%nat /\
  if Compress.chaining e then Z.of_nat Compress.HDR_WRITE + len <= Compress.kDefaultMaxIOSize /\
                              Compress.malloc_ok (2 * (Z.of_nat Compress.HDR_WRITE + len)) = true
  else Z.of_nat Compress.HDR_WRITE <= len.

(** [bs] is the message [m], or decompresses to it. *)
Definition carries (s : out_session) (bs m : list Z) : Prop :=
  bs = m \/
  eval (Compress.decompress (length bs) (Compress.chaining (os_comp s)) (Z.of_nat (length bs))) bs [] = Some (inr tt, [], m).

(** What the steps leave alone. *)
Definition same_rq (q q' : out_rq) : Prop :=
  op_command (o_head q') = op_command (o_head q) /\ o_compound q' = o_compound q /\ o_sessionid q' = o_sessionid q /\
  o_share_encrypts q' = o_share_encrypts q.

Lemma same_encrypt s q q' : same_rq q q' -> must_encrypt s q' = must_encrypt s q.
Proof. intros (E1 & _ & _ & E2). unfold must_encrypt. by rewrite E1, E2. Qed.

Lemma same_trans q1 q2 q3 : same_rq q1 q2 -> same_rq q2 q3 -> same_rq q1 q3.
Proof. unfold same_rq. intros (-> & -> & -> & ->) (-> & -> & -> & ->). done. Qed.

Lemma give_ids_keeps q i : single q -> single (give_ids q i).1 /\ same_rq q (give_ids q i).1.
Proof.
  intros (Hc & Hn & Hi & Hz). unfold give_ids, Credits.smb2_rq_message_id_increment. rewrite Hc.
  destruct (negb (Credits.sr_has_session _)); [done|].
  destruct (_ =? _); cbn; rewrite ?Hc, ?Hn; cbn; by split_and!.
Qed.

Lemma sign_parts_keeps s mm q : single q -> single (sign_parts s mm q) /\ same_rq q (sign_parts s mm q).
Proof.
  intros (Hc & Hn & Hi & Hz). unfold sign_parts, smb2_rq_sign. rewrite Hn. cbn [map].
  destruct (bool_decide _); cbn; by split_and!.
Qed.

Lemma prepared_keeps s mm q i : single q -> single (prepared s mm q i) /\ same_rq q (prepared s mm q i).
Proof.
  intros Hq. unfold prepared. destruct (give_ids_keeps q i Hq) as [K1 K2].
  destruct (must_sign s _); [|done]. destruct (sign_parts_keeps s mm _ K1) as [K3 K4]. split; [done|]. by eapply same_trans.
Qed.

Lemma compress_rq_carries s q q' :
  compress_rq s q = Some (0, q') -> single q ->
  (op_command (o_head q) = Compress.SMB2_WRITE -> comp_ok s (concat (op_chain (o_head q)))) ->
  carries s (concat (wire q')) (concat (op_chain (o_head q))) /\ same_rq q q' /\ o_next q' = [] /\
  (o_is_compressed q' = false -> o_compressed q' = []).
Proof.
  intros E (Hc & Hn & Hi & Hz) Hok. unfold compress_rq in E.
  assert (HP : carries s (concat (wire q)) (concat (op_chain (o_head q)))) by (left; unfold wire; by rewrite Hc, Hi).
  destruct (smb3_or_later (os_sign s) && _ && _ && _ && negb (o_no_compress q)) eqn:Eg.
  2: { injection E as <-. by split_and!. }
  destruct (Z.eqb_spec (op_command (o_head q)) Compress.SMB2_WRITE) as [Ew|]; [|by rewrite !andb_false_r in Eg].
  destruct (Compress.smb2_rq_compress_write _ _ _ _) as [[e|[failed|bs]]|] eqn:Ec; [| | |done].
  - injection E as -> <-. by split_and!.
  - injection E as <-. by split_and!.
  - injection E as <-. destruct (Hok Ew) as (Hk1 & Hk2 & Hk3 & Hk4).
    pose proof (CompressTheorems.compressed_back _ _ _ _ _ [] Ec Hk1 Hk2 Hk3 Hk4) as HD.
    split; [|by split_and!]. right. unfold wire. cbn. rewrite Hc, Ew. cbn. by rewrite app_nil_r.
Qed.

(** What is sent of an encrypted request is what [smb3_rq_encrypt] made. *)
Lemma wire_unseal t q err t' r : smb3_rq_encrypt t (seal_of q) 0 = (err, t', r) -> o_compound q = false -> o_next q = [] ->
  err = 0 -> message_of (seal_of q) = concat (wire q) /\ wire (unseal q r) = wire_of (seal_of q) r.
Proof.
  intros E Hc Hn ->. unfold message_of, wire_of, smb3_rq_encrypt, wire, unseal, detach, seal_of, op_command in *. cbn in *. rewrite Hc in *.
  destruct (o_is_compressed q && (Credits.sr_command (op_credit (o_head q)) =? SMB2_WRITE) && negb (bool_decide (o_compressed q = []))) eqn:Eg.
  - change Compress.SMB2_WRITE with SMB2_WRITE. rewrite Eg. cbn in E |- *.
    destruct (encrypt_key (known_cipher t)); [done|]. destruct (_ <? _); [done|]. injection E as _ <-.
    split; [done|]. cbn. apply andb_true_iff in Eg as [-> _]. done.
  - change Compress.SMB2_WRITE with SMB2_WRITE. rewrite Eg. cbn in E |- *.
    destruct (encrypt_key (known_cipher t)); [done|]. destruct (_ <? _); [done|]. injection E as _ <-.
    split; [done|]. cbn. by rewrite Eg.
Qed.

(** What is sent carries the prepared message. *)
Lemma prepared_carried mm s q i q' s' i' (m := prepared_msg s mm q i) :
  smb_iod_rq_sign mm 0 s q i = Some (0, q', s', i') -> single q ->
  (op_command (o_head q) = Compress.SMB2_WRITE -> comp_ok s m) ->
  if must_encrypt s q then
    forall p wr malloc,
      decrypt_key p = encrypt_key (os_seal s) -> cipher_of p = cipher_of (os_seal s) -> session_id p = o_sessionid q ->
      0 <= o_sessionid q < 2 ^ 64 -> Z.of_nat (length (concat wr)) <= kDefaultMaxIOSize ->
      malloc_sized malloc -> (forall n, malloc n <> None) -> concat wr = concat (wire q') ->
      exists plain p', smb3_msg_decrypt p wr 0 malloc = (inr plain, p') /\ carries s (concat plain) m
  else carries s (concat (wire q')) m.
Proof.
  intros E Hq Hok. unfold smb_iod_rq_sign in E. destruct (prepared_keeps s mm q i Hq) as [K1 K2].
  unfold m, prepared_msg, prepared in *. destruct (give_ids q i) as [q1 i1]. cbn [fst] in *.
  set (q2 := if must_sign s q1 then _ else q1) in *.
  destruct (compress_rq s q2) as [[e q3]|] eqn:Ec; [|done].
  destruct (Z.eqb_spec e 0) as [->|]; cbn [negb] in E; [|by injection E as -> _ _ _].
  destruct (compress_rq_carries s q2 q3 Ec K1) as (HC & K3 & Kn & _).
  { intros Ew. apply Hok. destruct K2 as (<- & _). done. }
  pose proof (same_trans _ _ _ K2 K3) as K4. rewrite (same_encrypt s q q3 K4) in E.
  destruct (must_encrypt s q); [|by injection E as <- _ _].
  destruct (smb3_rq_encrypt (os_seal s) (seal_of q3) 0) as [[err t] r] eqn:Ee. injection E as -> <- _ _.
  destruct K4 as (_ & Kc & Ks & _). destruct Hq as (Hqc & _). rewrite Hqc in Kc.
  destruct (wire_unseal _ _ _ _ _ Ee Kc Kn eq_refl) as [Em Ew]. intros p wr malloc Hk Hci Hsid Hid Hmax Hm Hmn Hw.
  rewrite Ew in Hw.
  destruct (sealed_opens (os_seal s) (seal_of q3) t r p wr malloc Ee Hk Hci) as (plain & p' & Ed & Ep);
    [cbn; congruence|cbn; congruence| |done|done|done|].
  - destruct (encrypt_wire _ _ _ _ Ee) as (_ & _ & nonce & Hnl & HB). cbn zeta in HB. rewrite <- Hw in HB.
    rewrite HB, length_app, length_crypt in Hmax. lia.
  - exists plain, p'. split; [done|]. by rewrite Ep, Em.
Qed.

(** The message a peer has to get: the bytes of the request with the message ID in its
    header and, if it has to be signed, with the flag and the signature. *)
Definition due (s : out_session) (q : out_rq) (id : Z) (bs : list Z) : list Z :=
  let numbered := splice 24 (le_bytes 8 id) bs in
  if must_sign s q
  then signed_bytes (os_sign s) (Rq (op_command (o_head q)) id (o_signed q) 0 (o_channel q)) numbered
  else numbered.

(** The keys that signing needs are there. *)
Definition can_sign (s : out_session) (q : out_rq) : Prop :=
  op_has_sig (o_head q) = true /\ session_mackey (os_sign s) <> None /\
  (smb3_or_later (os_sign s) = true -> SMB3_KEY_LEN <= key_len (session_smb3_signing_key (os_sign s))).

Lemma given_id q i mb c : single q -> op_chain (o_head q) = mb :: c -> Credits.sr_has_session (op_credit (o_head q)) = true ->
  let q1 := (give_ids q i).1 in
  op_chain (o_head q1) = splice 24 (le_bytes 8 (Credits.iod_message_id i)) mb :: c /\
  op_messageid (o_head q1) = Credits.iod_message_id i /\ op_command (o_head q1) = op_command (o_head q) /\
  op_has_sig (o_head q1) = op_has_sig (o_head q) /\ o_signed q1 = o_signed q /\ o_channel q1 = o_channel q /\
  o_next q1 = [] /\ forall s, must_sign s q1 = must_sign s q.
Proof.
  intros (Hc & Hn & _) Hch Hs. unfold give_ids, Credits.smb2_rq_message_id_increment. rewrite Hc, Hs. cbn [negb].
  destruct (_ =? _); cbn; rewrite ?Hc, ?Hn, ?Hch; cbn; by split_and!.
Qed.

Lemma prepared_due s q i mb c (bs := mb ++ concat c) :
  single q -> op_chain (o_head q) = mb :: c -> (SMB2_HDRLEN <= length mb)%nat ->
  Credits.sr_has_session (op_credit (o_head q)) = true -> (must_sign s q = true -> can_sign s q) ->
  prepared_msg s true q i = due s q (Credits.iod_message_id i) bs.
Proof.
  intros Hq Hch Hl Hs Hk. unfold prepared_msg, prepared, due.
  destruct (given_id q i mb c Hq Hch Hs) as (E1 & E2 & E3 & E4 & E5 & E6 & E7 & E8). set (q1 := (give_ids q i).1) in *. clearbody q1.
  rewrite E8. set (mb1 := splice 24 _ mb) in *.
  assert (Hx : (24 + length (le_bytes 8 (Credits.iod_message_id i)) <= length mb)%nat)
    by (rewrite length_le_bytes; unfold SMB2_HDRLEN in Hl; lia).
  assert (Eb : splice 24 (le_bytes 8 (Credits.iod_message_id i)) bs = mb1 ++ concat c) by (by apply splice_app_l).
  destruct (must_sign s q); [|by rewrite E1, Eb]. destruct (Hk eq_refl) as (Hsig & Hmk & Hkl).
  set (r := Rq _ _ _ _ _).
  destruct (sign_spec (os_sign s) r mb1 c Hmk) as (c' & Es & Ec); [unfold mb1; by rewrite length_splice|done|].
  unfold sign_parts. cbv zeta beta. rewrite E1, E2, E3, E4, E5, E6, E7, Hsig. cbn [map]. fold r.
  set (out := smb2_rq_sign _ _ _). assert (out = (0, [c'])) as -> by exact Es. rewrite Eb. exact Ec.
Qed.

(** C3: what is sent of a request that is not a compound carries all of it: its bytes with
    the next message ID in the header and, where it has to be signed and the keys are
    there, with the flag and the signature.  Sent in the clear it is this message, or
    decompresses to it if it is a write within the limits of the decompressor; encrypted,
    a peer with the key decrypts it to such bytes, however they are cut into mbufs on the
    way. *)
Theorem request_survives_the_wire s q i q' s' i' mb c (m := due s q (Credits.iod_message_id i) (mb ++ concat c)) :
  smb_iod_rq_sign true 0 s q i = Some (0, q', s', i') -> single q ->
  op_chain (o_head q) = mb :: c -> (SMB2_HDRLEN <= length mb)%nat ->
  Credits.sr_has_session (op_credit (o_head q)) = true -> (must_sign s q = true -> can_sign s q) ->
  (op_command (o_head q) = Compress.SMB2_WRITE -> comp_ok s m) ->
  if must_encrypt s q then
    forall p wr malloc,
      decrypt_key p = encrypt_key (os_seal s) -> cipher_of p = cipher_of (os_seal s) -> session_id p = o_sessionid q ->
      0 <= o_sessionid q < 2 ^ 64 -> Z.of_nat (length (concat wr)) <= kDefaultMaxIOSize ->
      malloc_sized malloc -> (forall n, malloc n <> None) -> concat wr = concat (wire q') ->
      exists plain p', smb3_msg_decrypt p wr 0 malloc = (inr plain, p') /\ carries s (concat plain) m
  else carries s (concat (wire q')) m.
Proof.
  intros E Hq Hch Hl Hs Hk. unfold m. rewrite <- (prepared_due s q i mb c) by done. by apply prepared_carried with s' i'.
Qed.

(** A request that has to be signed and is sent in the clear passes the check of a peer
    with the same keys. *)
Theorem signed_request_accepted mm s q i mb c c' cur rest (q1 := (give_ids q i).1)
    (r := Rq (op_command (o_head q1)) (op_messageid (o_head q1)) (o_signed q) 0 (o_channel q)) :
  single q -> must_sign s q1 = true -> op_chain (o_head q1) = mb :: c -> op_has_sig (o_head q1) = true -> mm = true ->
  op_chain (o_head (prepared s mm q i)) = c' ->
  not_checked (os_sign s) r = false -> (SMB2_HDRLEN <= length mb)%nat ->
  (smb3_or_later (os_sign s) = true -> SMB3_KEY_LEN <= key_len (session_smb3_signing_key (os_sign s))) ->
  session_smb3_signing_algorithm (os_sign s) <> SMB2_SIGNING_AES_GMAC ->
  cur ++ concat rest = concat c' ->
  (smb2_rq_verify (os_sign s) r cur rest (take SMB2SIGLEN (drop SMB2SIGOFF (concat c')))).1 = 0.
Proof.
  intros Hq Hs Hch Hsig -> Hc' Hn Hl Hk Hg Hcut. destruct (give_ids_keeps q i Hq) as [(K1 & K2 & K3) _]. fold q1 in K1, K2, K3.
  assert (Eo : o_signed q1 = o_signed q /\ o_channel q1 = o_channel q).
  { unfold q1, give_ids. repeat case_match; by cbn. }
  apply (signed_verifies (os_sign s) r mb c c' cur rest); [|done|done|done|done|done|done].
  unfold prepared in Hc'. fold q1 in Hc'. rewrite Hs in Hc'. unfold sign_parts in Hc'. rewrite K2, Hch, Hsig in Hc'. cbn [map] in Hc'.
  destruct Eo as [-> ->] in Hc'. fold r in Hc'.
  assert (Hmk : session_mackey (os_sign s) <> None).
  { intros Ex. unfold not_checked in Hn. rewrite Ex, bool_decide_eq_true_2 in Hn by done. by rewrite !orb_true_r in Hn. }
  unfold smb2_rq_sign in *. rewrite bool_decide_eq_false_2 in * by done. cbn in Hc' |- *. by rewrite Hc'.
Qed.

(** Without a key a request that has to be signed is sent all the same: the error of signing
    is not looked at. *)
Theorem unsigned_request_is_sent mm s q i :
  session_mackey (os_sign s) = None -> single q -> prepared s mm q i = (give_ids q i).1.
Proof.
  intros Hk Hq. destruct (give_ids_keeps q i Hq) as [(_ & Hn & _) _]. unfold prepared. destruct (must_sign s _); [|done].
  unfold sign_parts, smb2_rq_sign. rewrite Hk, bool_decide_eq_true_2 by done. cbn [map snd].
  destruct (give_ids q i) as [[h n] i1]. cbn in *. rewrite Hn. by destruct h.
Qed.
End Survive.

(** ** Examples *)

#[local] Existing Instance CompressTheorems.demo_codec.
#[local] Existing Instance CompressTheorems.demo_laws.

(** A write of 32 bytes, compressed and encrypted. *)
Definition demo_write : out_rq :=
  OutRq (OutPart (Credits.mk_rq 9 1 0 0 true true false false 0) true [take 100 CompressTheorems.demo_msg; drop 100 CompressTheorems.demo_msg])
    [] false true false None false false 77 false [] false.
Definition demo_out_session (encrypts : bool) : out_session :=
  OutSession demo_session demo_client (CompressTheorems.demo_env true) encrypts.
Definition demo_credits : Credits.smbiod := Credits.mk_iod false 5 10 0 10 0 0 0 0.
Definition demo_result (encrypts : bool) : option (Z * out_rq * out_session * Credits.smbiod) :=
  smb_iod_rq_sign true 0 (demo_out_session encrypts) demo_write demo_credits.
Definition demo_sent_rq : out_rq := match demo_result true with Some (_, q, _, _) => q | None => demo_write end.

Lemma demo_comp_ok : comp_ok (demo_out_session true) (due (demo_out_session true) demo_write (Credits.iod_message_id demo_credits)
  (take 100 CompressTheorems.demo_msg ++ concat [drop 100 CompressTheorems.demo_msg])).
Proof.
  split; [cbn; lia|]. split; [apply (bool_decide_unpack _); by vm_compute|]. by vm_compute.
Qed.

Definition demo_due : list Z := due (demo_out_session true) demo_write 5 CompressTheorems.demo_msg.

Lemma request_survives_the_wire_witness : exists plain p',
  smb3_msg_decrypt demo_server (wire demo_sent_rq) 0 demo_malloc = (inr plain, p') /\
  carries (demo_out_session true) (concat plain) demo_due /\
  demo_due = take 24 CompressTheorems.demo_msg ++ le_bytes 8 5 ++ drop 32 CompressTheorems.demo_msg.
Proof.
  destruct (request_survives_the_wire (demo_out_session true) demo_write demo_credits demo_sent_rq
    (match demo_result true with Some (_, _, s, _) => s | None => demo_out_session true end)
    (match demo_result true with Some (_, _, _, i) => i | None => demo_credits end)
    (take 100 CompressTheorems.demo_msg) [drop 100 CompressTheorems.demo_msg]
    ltac:(by vm_compute) ltac:(done) ltac:(done) ltac:(apply (bool_decide_unpack _); by vm_compute) ltac:(done) ltac:(by vm_compute)
    (fun _ => demo_comp_ok) demo_server (wire demo_sent_rq) demo_malloc) as (plain & p' & Ed & Ec).
  1-5: by vm_compute.
  - intros n b. cbn. intros [= <-]. apply length_replicate.
  - done.
  - done.
  - exists plain, p'. split; [exact Ed|]. split; [exact Ec|]. by vm_compute.
Defined.

(** A read, signed. *)
Definition demo_read : out_rq :=
  OutRq (OutPart (Credits.mk_rq 8 1 0 0 true true false false 0) true [demo_msg]) [] false true false None false false 77 false [] false.
Definition demo_read_sent : list Z := prepared_msg (demo_out_session false) true demo_read demo_credits.

Lemma signed_request_accepted_witness :
  (smb2_rq_verify demo_session (Rq 8 5 true 0 None) (take 50 demo_read_sent) [drop 50 demo_read_sent]
     (take SMB2SIGLEN (drop SMB2SIGOFF demo_read_sent))).1 = 0.
Proof.
  apply (signed_request_accepted true (demo_out_session false) demo_read demo_credits
    (concat (op_chain (o_head (give_ids demo_read demo_credits).1))) [] [demo_read_sent] (take 50 demo_read_sent)
    [drop 50 demo_read_sent]); vm_compute; reflexivity || (intros; discriminate) || (split_and!; reflexivity) || lia.
Defined.
