(* ===== verification/Acl.v ===== *)
(** * Security descriptors of the filesystem

    [kernel/smbfs/smbfs_security.c]: the owner, the group and the access control list
    of a node are read from the server as a security descriptor, kept for a short time
    with the node, translated to the identifiers of the local directory, and written
    back.  With it [smb2fs_smb_security_set] of [smbfs_smb_2.c], which sends the
    descriptor, and the part of [smb2_smb_set_info] of [smb_smb_2.c] that lays it out.

    The calls of the directory service ([kauth_cred_...]) are the class [Kauth].  What
    the server answers, the clocks and the outcome of allocations are inputs.  Buffers
    are lists of bytes; a read or a write outside of one is [None].  The host is
    little-endian, like every host the code is built for. *)

From S2P Require Import Prelude.
Import Errno.

(** ** Data *)

(** [ntsid_t] of the host, with room for 16 authorities. *)
Record ntsid := Ntsid {
  sid_kind : Z; sid_authcount : Z; sid_authority : list Z; sid_authorities : list Z }.

#[export] Instance ntsid_eq : EqDecision ntsid.
Proof. solve_decision. Defined.

Definition guid := list Z.
Definition kauth_null_guid : guid := replicate 16 0.

Record kauth_ace := Ace { ace_applicable : guid; ace_flags : Z; ace_rights : Z }.
Record kauth_acl := Acl { acl_entrycount : Z; acl_flags : Z; acl_ace : list kauth_ace }.

(** The directory service: the error or the identifier. *)
Class Kauth := {
  ntsid2guid : ntsid -> Z + guid;
  guid2ntsid : guid -> Z + ntsid;
  ntsid2uid : ntsid -> Z + Z;
  ntsid2gid : ntsid -> Z + Z;
  uid2guid : Z -> Z + guid;
  gid2guid : Z -> Z + guid }.

Definition KAUTH_NTSID_MAX_AUTHORITIES : Z := 16.
Definition KAUTH_ACL_MAX_ENTRIES : Z := 128.
Definition KAUTH_FILESEC_NOACL : Z := 0xffffffff.
Definition KAUTH_FILESEC_NO_INHERIT : Z := 0x20000.
Definition KAUTH_UID_NONE : Z := 0xffffff9c.
Definition KAUTH_GID_NONE : Z := 0xffffff9c.
Definition ACCESSPERMS : Z := 0x1ff.

Definition KAUTH_ACE_KINDMASK : Z := 0xf.
Definition KAUTH_ACE_PERMIT : Z := 1.
Definition KAUTH_ACE_DENY : Z := 2.
Definition KAUTH_ACE_AUDIT : Z := 3.
Definition KAUTH_ACE_ALARM : Z := 4.
Definition KAUTH_ACE_INHERITED : Z := 0x10.

Definition ACCESS_ALLOWED_ACE_TYPE : Z := 0.
Definition ACCESS_DENIED_ACE_TYPE : Z := 1.
Definition SYSTEM_AUDIT_ACE_TYPE : Z := 2.
Definition SYSTEM_ALARM_ACE_TYPE : Z := 3.

Definition OWNER_SECURITY_INFORMATION : Z := 1.
Definition GROUP_SECURITY_INFORMATION : Z := 2.
Definition DACL_SECURITY_INFORMATION : Z := 4.
Definition SACL_SECURITY_INFORMATION : Z := 8.
Definition UNPROTECTED_DACL_SECURITY_INFORMATION : Z := 0x20000000.
Definition PROTECTED_DACL_SECURITY_INFORMATION : Z := 0x80000000.

Definition SE_DACL_PRESENT : Z := 0x4.
Definition SE_SACL_PRESENT : Z := 0x10.
Definition SE_DACL_AUTO_INHERIT_REQ : Z := 0x100.
Definition SE_SACL_AUTO_INHERIT_REQ : Z := 0x200.
Definition SE_DACL_AUTO_INHERITED : Z := 0x400.
Definition SE_SACL_AUTO_INHERITED : Z := 0x800.
Definition SE_DACL_PROTECTED : Z := 0x1000.
Definition SE_SELF_RELATIVE : Z := 0x8000.

Definition SMB2_READ_CONTROL : Z := 0x20000.
Definition SMB2_WRITE_DAC : Z := 0x40000.
Definition SMB2_WRITE_OWNER : Z := 0x80000.
Definition SMB2_SYNCHRONIZE : Z := 0x100000.

(** The flags of an entry: those of [kauth] and those on the wire, in the order in which
    the entries of a list are translated when it is set. *)
Definition flag_table : list (Z * Z) :=
  [(0x10, 0x10) (* INHERITED *); (0x20, 0x01) (* FILE_INHERIT, OBJECT_INHERIT *);
   (0x40, 0x02) (* DIRECTORY_INHERIT, CONTAINER_INHERIT *);
   (0x80, 0x04) (* LIMIT_INHERIT, NO_PROPAGATE_INHERIT *); (0x100, 0x08) (* ONLY_INHERIT *);
   (0x200, 0x40) (* SUCCESS *); (0x400, 0x80) (* FAILURE *)].

(** The rights: [KAUTH_...] and [SMB2_...]. *)
Definition rights_table : list (Z * Z) :=
  [(0x1000000, 0x80000000) (* GENERIC_READ *); (0x800000, 0x40000000) (* GENERIC_WRITE *);
   (0x400000, 0x20000000) (* GENERIC_EXECUTE *); (0x200000, 0x10000000) (* GENERIC_ALL *);
   (0x100000, 0x100000) (* SYNCHRONIZE *); (0x2000, 0x80000) (* CHANGE_OWNER, WRITE_OWNER *);
   (0x1000, 0x40000) (* WRITE_SECURITY, WRITE_DAC *); (0x800, 0x20000) (* READ_SECURITY, READ_CONTROL *);
   (0x400, 0x10) (* WRITE_EXTATTRIBUTES *); (0x200, 0x08) (* READ_EXTATTRIBUTES *);
   (0x100, 0x100) (* WRITE_ATTRIBUTES *); (0x80, 0x80) (* READ_ATTRIBUTES *);
   (0x40, 0x40) (* DELETE_CHILD *); (0x20, 0x04) (* APPEND_DATA *); (0x10, 0x10000) (* DELETE *);
   (0x08, 0x20) (* EXECUTE *); (0x04, 0x02) (* WRITE_DATA *); (0x02, 0x01) (* READ_DATA *)].

(** One [if (x & from) y |= to;] after the other. *)
Definition translate (table : list (Z * Z)) (x : Z) : Z :=
  fold_left (fun y '(from, to) => if Z.land x from =? 0 then y else Z.lor y to) table 0.

Definition swap_table : list (Z * Z) -> list (Z * Z) := map (fun '(a, b) => (b, a)).

(** ** Buffers *)

(** A little-endian number of [n] bytes. *)
Definition rd (n off : nat) (buf : list Z) : option Z :=
  if (off + n <=? length buf)%nat then Some (le_value (take n (drop off buf))) else None.

Definition rd_bytes (n off : nat) (buf : list Z) : option (list Z) :=
  if (off + n <=? length buf)%nat then Some (take n (drop off buf)) else None.

Definition wr (off : nat) (bs buf : list Z) : option (list Z) :=
  if (off + length bs <=? length buf)%nat then Some (splice off bs buf) else None.

Definition NTSID_LEN : nat := 8.
Definition NTACE_LEN : nat := 8.
Definition NTACL_LEN : nat := 8.
Definition NTSECDESC_LEN : nat := 20.
Definition MAXSIDLEN : nat := 72.

(** The image of an [ntsid_t] in memory. *)
Definition sid_image (s : ntsid) : list Z :=
  sid_kind s :: sid_authcount s :: sid_authority s ++ concat (map (le_bytes 4) (sid_authorities s)).

Definition zero_sid : ntsid := Ntsid 0 0 (replicate 6 0) (replicate 16 0).

(** ** Identifiers *)

Definition tmpuuid1 : list Z := [255; 255; 238; 238; 221; 221; 204; 204; 187; 187; 170; 170].
Definition tmpuuid2 : list Z := [170; 170; 187; 187; 204; 204; 221; 221; 238; 238; 255; 255].

Definition is_memberd_tempuuid (g : guid) : bool :=
  bool_decide (take 12 g = tmpuuid1) || bool_decide (take 12 g = tmpuuid2).

Definition unix_users_domsid : ntsid := Ntsid 1 1 [0; 0; 0; 0; 0; 22] (1 :: replicate 15 0).
Definition unix_groups_domsid : ntsid := Ntsid 1 1 [0; 0; 0; 0; 0; 22] (2 :: replicate 15 0).

Definition smb_sid_is_equal (rhs lhs : ntsid) : bool :=
  (sid_kind rhs =? sid_kind lhs) && (sid_authcount rhs =? sid_authcount lhs)
  && bool_decide (sid_authority rhs = sid_authority lhs)
  && bool_decide (take (Z.to_nat (sid_authcount rhs)) (sid_authorities rhs)
                  = take (Z.to_nat (sid_authcount rhs)) (sid_authorities lhs)).

Definition smb_sid_in_domain (domain sid : ntsid) : bool :=
  if sid_authcount sid =? 0 then false
  else smb_sid_is_equal domain
         (Ntsid (sid_kind sid) (sid_authcount sid - 1) (sid_authority sid) (sid_authorities sid)).

(** The field of a descriptor that holds the offset of a part. *)
Definition sd_field (sd_type : Z) : nat :=
  if sd_type =? OWNER_SECURITY_INFORMATION then 4%nat
  else if sd_type =? GROUP_SECURITY_INFORMATION then 8%nat
  else if sd_type =? SACL_SECURITY_INFORMATION then 12%nat else 16%nat.

(** Where a part of a descriptor is; [Some None] is NULL. *)
Definition smb_sdoffset (sec : list Z) (sd_type : Z) : option (option nat) :=
  let sd_len := 8 in
  let w_seclen := Z.of_nat (length sec) in
  off ← rd 4 (sd_field sd_type) sec;
  let sd_off := i32 off in
  if i32 w_seclen <? 0 then Some None
  else if i32 w_seclen <? sd_len then Some None
  else if (sd_off <=? 0) || (i32 w_seclen <? sd_off) then Some None
  else
    let end_len := i32 (sd_off + sd_len) in
    if (end_len <? 0) || (i32 w_seclen <? end_len) then Some None
    else Some (Some (Z.to_nat sd_off)).

Fixpoint rd_words (count off : nat) (sec : list Z) : option (list Z) :=
  match count with
  | O => Some []
  | S count => w ← rd 4 off sec; ws ← rd_words count (off + 4) sec; Some (w :: ws)
  end.

(** The SID at [off] of the buffer [sec]; the buffer is what it must stay in. *)
Definition smb_sid2sid16 (sec : list Z) (off : nat) : option ntsid :=
  count ← rd 1 (off + 1) sec;
  if KAUTH_NTSID_MAX_AUTHORITIES <? count then Some zero_sid
  else if (length sec <? off + NTSID_LEN + 4 * Z.to_nat count)%nat then Some zero_sid
  else
    kind ← rd 1 off sec;
    auth ← rd_bytes 6 (off + 2) sec;
    subs ← rd_words (Z.to_nat count) (off + NTSID_LEN) sec;
    Some (Ntsid kind count auth (subs ++ replicate (16 - Z.to_nat count) 0)).

(** [letohl] of the words of a SID in a buffer. *)
Fixpoint endianize_words (count off : nat) (buf : list Z) : option (list Z) :=
  match count with
  | O => Some buf
  | S count =>
      w ← rd 4 off buf;
      buf ← wr off (le_bytes 4 w) buf;
      endianize_words count (off + 4) buf
  end.

Definition smb_sid_endianize (off : nat) (len : nat) (buf : list Z) : option (list Z) :=
  count ← rd 1 (off + 1) buf;
  if (len <? NTSID_LEN + 4 * Z.to_nat count)%nat then Some buf
  else endianize_words (Z.to_nat count) (off + NTSID_LEN) buf.

(** ** The node *)

(** What a node knows about its owner: local IDs, the IDs and the modes of the NFS entries
    ([NHAS_POSIXMODES] of [n_flag]). *)
Record ids := Ids {
  n_uid : Z; n_gid : Z; n_nfs_uid : Z; n_nfs_gid : Z; n_mode : Z; n_posixmodes : bool }.

Definition set_id (owner : bool) (x : Z) (n : ids) : ids :=
  if owner then Ids x (n_gid n) (n_nfs_uid n) (n_nfs_gid n) (n_mode n) (n_posixmodes n)
  else Ids (n_uid n) x (n_nfs_uid n) (n_nfs_gid n) (n_mode n) (n_posixmodes n).
Definition get_id (owner : bool) (n : ids) : Z := if owner then n_uid n else n_gid n.
Definition set_modes (posix : bool) (mode : Z) (n : ids) : ids :=
  Ids (n_uid n) (n_gid n) (n_nfs_uid n) (n_nfs_gid n) mode posix.

(** [np->n_mode &= ~ACCESSPERMS; np->n_mode |= mode & ACCESSPERMS] *)
Definition perms_of (mode old : Z) : Z := Z.lor (Z.ldiff old ACCESSPERMS) (Z.land mode ACCESSPERMS).

(** The cached descriptor; [acl_cache_len] is its length. *)
Record acl_cache := Cache { acl_cache_data : option (list Z); acl_cache_timer : Z; acl_error : Z }.

Record smbnode := Node {
  n_ids : ids; n_cache : acl_cache; n_mtime : Z;
  maxAccessRightChTime : Z * Z }.

Definition set_ids (i : ids) (n : smbnode) : smbnode := Node i (n_cache n) (n_mtime n) (maxAccessRightChTime n).
Definition set_cache (c : acl_cache) (n : smbnode) : smbnode := Node (n_ids n) c (n_mtime n) (maxAccessRightChTime n).
Definition set_chtime (t : Z * Z) (n : smbnode) : smbnode := Node (n_ids n) (n_cache n) (n_mtime n) t.

Record smbmount := Mount {
  sm_maps : bool (* MNT_MAPS_NETWORK_LOCAL_USER *); ntwrk_sid : ntsid;
  sm_uuid : guid; sm_uid : Z; sm_gid : Z }.

Definition smbfs_clear_acl_cache (n : smbnode) : smbnode := set_cache (Cache None 0 0) n.

(** [SMB_CACHE_TIME]: how long a descriptor is good, from the age of the file. *)
Definition attrtimeo (wall mtime : Z) : Z :=
  let t := Z.quot (wall - mtime) 10 in
  if t <? 2 then 2 else if 30 <? t then 30 else t.

(** What a look at the cache meets: the session, the clocks (the time of day and the time
    since the start) at the first look and with the lock, the answers of [smbfs_tmpopen] and of
    [smbfs_smb_getsec], and whether there is memory for the copy. *)
Record meet := Meet {
  mt_smb2 : bool; mt_reconnecting : bool;
  mt_wall : Z; mt_up : Z; mt_wall' : Z; mt_up' : Z;
  mt_tmpopen : Z; mt_getsec : Z * option (list Z); mt_mem : bool }.

Definition still_good (use_cached_data : bool) (wall up mtime : Z) (c : acl_cache) : bool :=
  (up - acl_cache_timer c <=? attrtimeo wall mtime) || use_cached_data.

(** From the label [done]: the error, the descriptor and the cache. *)
Definition acl_done (mem : bool) (c : acl_cache) : Z * option (list Z) * acl_cache :=
  match acl_cache_data c with
  | Some d =>
      if acl_error c =? 0 then
        if mem then (0, Some d, c) else (0, Some d, Cache None 0 (acl_error c))
      else (acl_error c, None, c)
  | None =>
      let e := if acl_error c =? 0 then EBADRPC else acl_error c in
      (e, None, Cache None (acl_cache_timer c) e)
  end.

(** The answer of the server: the error and the descriptor. *)
Definition fetch (t : meet) : Z * option (list Z) :=
  let error := if mt_smb2 t then 0 else mt_tmpopen t in
  if error =? 0 then
    let '(error, data) := mt_getsec t in
    (match data with None => if error =? 0 then EBADRPC else error | Some _ => error end, data)
  else (error, None).

Definition smbfs_update_acl_cache (t : meet) (n : smbnode) : Z * option (list Z) * smbnode :=
  let c := n_cache n in
  let use := negb (acl_cache_timer c =? 0) && mt_reconnecting t in
  let first := still_good use (mt_wall t) (mt_up t) (n_mtime n) c in
  let '(error, sec, c) :=
    if first && still_good use (mt_wall' t) (mt_up' t) (n_mtime n) c then acl_done (mt_mem t) c
    else
      let ts := if first then mt_up' t else mt_up t in
      let '(error, data) := fetch t in
      if (error =? ETIMEDOUT) && negb (acl_cache_timer c =? 0)
      then acl_done (mt_mem t) (Cache (acl_cache_data c) (acl_cache_timer c) 0)
      else acl_done (mt_mem t) (Cache data ts error) in
  (error, sec, set_cache c n).

Section Security.
Context `{Kauth}.
Context (m : smbmount).

(** *** Reading *)

Definition security_nt_authority : list Z := [0; 0; 0; 0; 0; 5].
Definition SECURITY_NFS_ID_BASE_RID : Z := 0x58.
Definition NfsSidTypeOwner : Z := 1.
Definition NfsSidTypeGroup : Z := 2.
Definition NfsSidTypeModes : Z := 3.

Definition sub (s : ntsid) (k : nat) : Z := default 0 (sid_authorities s !! k).

Definition is_nfs_sid (s : ntsid) : bool :=
  (sid_kind s =? 1) && (sid_authcount s =? 3) && bool_decide (sid_authority s = security_nt_authority)
  && (sub s 0 =? SECURITY_NFS_ID_BASE_RID).

Definition WindowsNfsSID (s : ntsid) (n : ids) : bool * ids :=
  if is_nfs_sid s then
    (true,
     if sub s 1 =? NfsSidTypeOwner then
       Ids (n_uid n) (n_gid n) (sub s 2) (n_nfs_gid n) (n_mode n) (n_posixmodes n)
     else if sub s 1 =? NfsSidTypeGroup then
       Ids (n_uid n) (n_gid n) (n_nfs_uid n) (sub s 2) (n_mode n) (n_posixmodes n)
     else if sub s 1 =? NfsSidTypeModes then set_modes true (perms_of (sub s 2) (n_mode n)) n
     else n)
  else (false, n).

(** The label [error_out] of [smbfs_set_node_identifier]. *)
Definition default_identifier (owner : bool) (g : guid) (n : ids) : guid * ids :=
  let n := if get_id owner n =? KAUTH_UID_NONE then set_id owner (if owner then sm_uid m else sm_gid m) n else n in
  if bool_decide (g = kauth_null_guid) then
    (match (if owner then uid2guid else gid2guid) (get_id owner n) with inr g => g | inl _ => g end, n)
  else (g, n).

Definition smbfs_set_node_identifier (sec : option (list Z)) (owner : bool) (g : guid) (n : ids) : option (guid * ids) :=
  match sec with
  | None => Some (default_identifier owner g n)
  | Some sec =>
      p ← smb_sdoffset sec (if owner then OWNER_SECURITY_INFORMATION else GROUP_SECURITY_INFORMATION);
      match p with
      | None => Some (default_identifier owner g n)
      | Some off =>
          sid ← smb_sid2sid16 sec off;
          if owner && sm_maps m && bool_decide (ntwrk_sid m = sid) then
            Some (sm_uuid m, set_id true (sm_uid m) n)
          else
            match ntsid2guid sid with
            | inl _ => Some (default_identifier owner g n)
            | inr g =>
                if is_memberd_tempuuid g && negb (get_id owner n =? KAUTH_UID_NONE) then Some (g, n)
                else
                  match (if owner then ntsid2uid else ntsid2gid) sid with
                  | inl _ => Some (default_identifier owner g n)
                  | inr x => Some (g, set_id owner x n)
                  end
            end
      end
  end.

(** The kind of an entry. *)
Definition kind_of_type (ty : Z) : option Z :=
  if ty =? ACCESS_ALLOWED_ACE_TYPE then Some KAUTH_ACE_PERMIT
  else if ty =? ACCESS_DENIED_ACE_TYPE then Some KAUTH_ACE_DENY
  else if ty =? SYSTEM_AUDIT_ACE_TYPE then Some KAUTH_ACE_AUDIT
  else if ty =? SYSTEM_ALARM_ACE_TYPE then Some KAUTH_ACE_ALARM
  else None.

(** Who an entry is about; [None]: nobody the directory knows. *)
Definition applicable (sid : ntsid) : option guid :=
  if sm_maps m && bool_decide (ntwrk_sid m = sid) then Some (sm_uuid m)
  else match ntsid2guid sid with inr g => Some g | inl _ => None end.

(** One entry at [off]: an error, or the entry if it is kept. *)
Definition get_ace (sec : list Z) (off : nat) (n : ids) : option (Z + option kauth_ace * ids) :=
  ty ← rd 1 off sec;
  match kind_of_type ty with
  | None => Some (inl EPROTO)
  | Some kind =>
      if (length sec <? off + NTACE_LEN + NTSID_LEN)%nat then Some (inl EPROTO)
      else
        sid ← smb_sid2sid16 sec (off + NTACE_LEN);
        let '(nfs, n) := WindowsNfsSID sid n in
        if nfs then Some (inr (None, n))
        else
          match applicable sid with
          | None => Some (inr (None, n))
          | Some g =>
              aceflags ← rd 1 (off + 1) sec;
              w_rights ← rd 4 (off + 4) sec;
              Some (inr (Some (Ace g (Z.lor kind (translate (swap_table flag_table) aceflags))
                                (translate (swap_table rights_table) w_rights)), n))
          end
  end.

(** The loop: the entries found, or an error, and the node. *)
Fixpoint get_aces (count : nat) (sec : list Z) (off : nat) (acc : list kauth_ace) (n : ids)
  : option ((Z + list kauth_ace) * ids) :=
  match count with
  | O => Some (inr acc, n)
  | S count =>
      if (off + NTACE_LEN <? length sec)%nat then
        r ← get_ace sec off n;
        match r with
        | inl e => Some (inl e, n)
        | inr (a, n) =>
            len ← rd 2 (off + 2) sec;
            get_aces count sec (off + Z.to_nat len)
              (match a with Some a => acc ++ [a] | None => acc end) n
        end
      else Some (inr acc, n)
  end.

(** The attributes that are asked for. *)
Record wanted := Wanted { va_acl_active : bool; va_guuid_active : bool; va_uuuid_active : bool }.

(** The attributes of [struct vnode_attr] that are filled in. *)
Record found := Found { va_acl : option kauth_acl; va_guuid : option guid; va_uuuid : option guid }.

(** [acl_alloc]: whether [kauth_acl_alloc] has memory; it refuses more than the largest number of
    entries. *)
Definition get_acl (acl_alloc : bool) (sec : option (list Z)) (error : Z) (n : ids)
  : option (Z * option kauth_acl * ids) :=
  match sec with
  | None => Some (error, None, n)
  | Some sec =>
      p ← smb_sdoffset sec DACL_SECURITY_INFORMATION;
      match p with
      | None => Some (error, None, n)
      | Some off =>
          acecount ← rd 2 (off + 4) sec;
          if negb acl_alloc || (KAUTH_ACL_MAX_ENTRIES <? acecount) then Some (ENOMEM, None, n)
          else
            flags ← rd 2 2 sec;
            let flags :=
              if Z.land flags SE_DACL_PROTECTED =? 0 then Z.ldiff flags KAUTH_FILESEC_NO_INHERIT
              else Z.lor flags KAUTH_FILESEC_NO_INHERIT in
            r ← get_aces (Z.to_nat acecount) sec (off + NTACL_LEN) [] n;
            match r with
            | (inl e, n) => Some (e, None, n)
            | (inr aces, n) =>
                Some (error,
                      match aces with [] => None | _ => Some (Acl (Z.of_nat (length aces)) flags aces) end, n)
            end
      end
  end.

Definition smbfs_getsecurity (named_stream acl_alloc : bool) (t : meet) (v : wanted) (n : smbnode)
  : option (Z * found * smbnode) :=
  if named_stream then Some (EINVAL, Found None None None, n)
  else
    let '(error, sec, n) := smbfs_update_acl_cache t n in
    let sec := if error =? 0 then sec else None in
    let error := if error =? EACCES then 0 else error in
    r ← (if va_guuid_active v then
            r ← smbfs_set_node_identifier sec false kauth_null_guid (n_ids n); Some (Some r.1, r.2)
          else Some (None, n_ids n));
    let '(guuid, i) := r : option guid * ids in
    r ← (if va_uuuid_active v then
            r ← smbfs_set_node_identifier sec true kauth_null_guid i; Some (Some r.1, r.2)
          else Some (None, i));
    let '(uuuid, i) := r : option guid * ids in
    r ← (if va_acl_active v then get_acl acl_alloc sec error i else Some (error, None, i));
    let '(error, acl, i) := r : Z * option kauth_acl * ids in
    Some (error, Found acl guuid uuuid, set_ids i n).

(** *** Writing *)

Definition sidlen (off : nat) (buf : list Z) : option nat :=
  count ← rd 1 (off + 1) buf; Some (NTSID_LEN + 4 * Z.to_nat count)%nat.

(** The stores of an entry at [off]: the type, the flags, the rights, the SID, which is put into the
    order of the wire, and the length; with the offset of the next entry. *)
Definition put_ace (off : nat) (ty flags rights : Z) (image : list Z) (needed : nat) (buf : list Z)
  : option (nat * list Z) :=
  buf ← wr off [u8 ty] buf;
  buf ← wr (off + 1) [u8 flags] buf;
  buf ← wr (off + 4) (le_bytes 4 rights) buf;
  buf ← wr (off + NTACE_LEN) image buf;
  buf ← smb_sid_endianize (off + NTACE_LEN) needed buf;
  len ← sidlen (off + NTACE_LEN) buf;
  buf ← wr (off + 2) (le_bytes 2 (Z.of_nat (NTACE_LEN + len))) buf;
  next ← rd 2 (off + 2) buf;
  Some (off + Z.to_nat next, buf)%nat.

Definition set_nfs_ace (off : nat) (nfs_sid : ntsid) (needed : nat) (buf : list Z) : option (nat * list Z) :=
  put_ace off ACCESS_DENIED_ACE_TYPE 0 0 (sid_image nfs_sid) needed buf.

(** [nfs_sid], a variable on the stack: [junk] is what its other authorities hold. *)
Definition nfs_sid (junk : list Z) (ty x : Z) : ntsid :=
  Ntsid 1 3 security_nt_authority (SECURITY_NFS_ID_BASE_RID :: ty :: u32 x :: junk).

Definition type_of_kind (flags : Z) : option Z :=
  let kind := Z.land flags KAUTH_ACE_KINDMASK in
  if kind =? KAUTH_ACE_PERMIT then Some ACCESS_ALLOWED_ACE_TYPE
  else if kind =? KAUTH_ACE_DENY then Some ACCESS_DENIED_ACE_TYPE
  else if kind =? KAUTH_ACE_AUDIT then Some SYSTEM_AUDIT_ACE_TYPE
  else if kind =? KAUTH_ACE_ALARM then Some SYSTEM_ALARM_ACE_TYPE
  else None.

(** The rights that are sent: everybody may synchronize, unless it is a denial. *)
Definition wire_rights (a : kauth_ace) : Z :=
  let arights := translate rights_table (ace_rights a) in
  if Z.land (ace_flags a) KAUTH_ACE_KINDMASK =? KAUTH_ACE_DENY then arights
  else Z.lor arights SMB2_SYNCHRONIZE.

(** The SID of somebody. *)
Definition sid_of (g : guid) : Z + ntsid :=
  if sm_maps m && bool_decide (sm_uuid m = g) then inr (ntwrk_sid m) else guid2ntsid g.

Definition set_ace (off : nat) (a : kauth_ace) (needed : nat) (buf : list Z) : option (Z + nat * list Z) :=
  match type_of_kind (ace_flags a) with
  | None => Some (inl EINVAL)
  | Some ty =>
      match sid_of (ace_applicable a) with
      | inl e => Some (inl e)
      | inr s =>
          r ← put_ace off ty (translate flag_table (ace_flags a)) (wire_rights a) (sid_image s) needed buf;
          Some (inr r)
      end
  end.

Fixpoint set_aces (off : nat) (count : nat) (aces : list kauth_ace) (needed : nat) (buf : list Z)
  : option (Z + nat * list Z) :=
  match count with
  | O => Some (inr (off, buf))
  | S count =>
      match aces with
      | [] => None
      | a :: aces =>
          r ← set_ace off a needed buf;
          match r with
          | inl e => Some (inl e)
          | inr (off, buf) => set_aces off count aces needed buf
          end
      end
  end.

(** The entries for NFS that go first: each with its presence, type and value. *)
Definition nfs_entries (n : ids) : list (Z * Z) :=
  (if n_nfs_uid n =? KAUTH_UID_NONE then [] else [(NfsSidTypeOwner, n_nfs_uid n)])
  ++ (if n_nfs_gid n =? KAUTH_GID_NONE then [] else [(NfsSidTypeGroup, n_nfs_gid n)])
  ++ (if n_posixmodes n then [(NfsSidTypeModes, n_mode n)] else []).

Fixpoint set_nfs_aces (junk : list Z) (l : list (Z * Z)) (off needed : nat) (buf : list Z) : option (nat * list Z) :=
  match l with
  | [] => Some (off, buf)
  | (ty, x) :: l => r ← set_nfs_ace off (nfs_sid junk ty x) needed buf; set_nfs_aces junk l r.1 needed r.2
  end.

(** The access control list on the wire, or an error. *)
Definition build_dacl (junk : list Z) (n : ids) (acl : kauth_acl) : option (Z + list Z) :=
  if KAUTH_ACL_MAX_ENTRIES <? acl_entrycount acl then Some (inl EINVAL)
  else
    let acecount := (length (nfs_entries n) + Z.to_nat (acl_entrycount acl))%nat in
    let needed := (NTACL_LEN + acecount * (NTACE_LEN + MAXSIDLEN))%nat in
    buf ← wr 0 [2] (replicate needed 0);
    buf ← wr 4 (le_bytes 2 (Z.of_nat acecount)) buf;
    r ← set_nfs_aces junk (nfs_entries n) NTACL_LEN needed buf;
    r ← set_aces r.1 (Z.to_nat (acl_entrycount acl)) (acl_ace acl) needed r.2;
    match r with
    | inl e => Some (inl e)
    | inr (off, buf) => buf ← wr 2 (le_bytes 2 (Z.of_nat off)) buf; Some (inr buf)
    end.

(** What is asked of the server. *)
Record set_request := SetRequest {
  rq_openrights : Z; rq_selector : Z; rq_control : Z;
  rq_owner : option (list Z); rq_group : option (list Z); rq_dacl : option (list Z) }.

(** The attributes to set: the inner [None] of [sv_acl] is a NULL list. *)
Record to_set := ToSet { sv_acl : option (option kauth_acl); sv_guuid : option guid; sv_uuuid : option guid }.

(** The SID of the group or the owner in a buffer of [MAXSIDLEN] bytes. *)
Definition put_sid (s : Z + ntsid) : option (Z + list Z) :=
  match s with
  | inl e => Some (inl e)
  | inr s =>
      buf ← wr 0 (sid_image s) (replicate MAXSIDLEN 0);
      buf ← smb_sid_endianize 0 MAXSIDLEN buf;
      Some (inr buf)
  end.

Definition add_group (v : to_set) (r : set_request) : option (Z + set_request) :=
  match sv_guuid v with
  | Some g =>
      if bool_decide (g = kauth_null_guid) then Some (inr r)
      else
        s ← put_sid (guid2ntsid g);
        match s with
        | inl e => Some (inl e)
        | inr b => Some (inr (SetRequest (Z.lor (rq_openrights r) SMB2_WRITE_OWNER)
                                (Z.lor (rq_selector r) GROUP_SECURITY_INFORMATION) (rq_control r)
                                (rq_owner r) (Some b) (rq_dacl r)))
        end
  | None => Some (inr r)
  end.

Definition add_owner (v : to_set) (r : set_request) : option (Z + set_request) :=
  match sv_uuuid v with
  | Some g =>
      if bool_decide (g = kauth_null_guid) then Some (inr r)
      else
        s ← put_sid (sid_of g);
        match s with
        | inl e => Some (inl e)
        | inr b => Some (inr (SetRequest (Z.lor (rq_openrights r) SMB2_WRITE_OWNER)
                                (Z.lor (rq_selector r) OWNER_SECURITY_INFORMATION) (rq_control r)
                                (Some b) (rq_group r) (rq_dacl r)))
        end
  | None => Some (inr r)
  end.

(** The request is changed before an error is found. *)
Definition add_acl (junk : list Z) (n : ids) (v : to_set) (r : set_request) : option (Z * set_request) :=
  match sv_acl v with
  | Some (Some acl) =>
      if acl_entrycount acl =? KAUTH_FILESEC_NOACL then Some (0, r)
      else
        let protected := negb (Z.land (acl_flags acl) KAUTH_FILESEC_NO_INHERIT =? 0) in
        let r := SetRequest (Z.lor (rq_openrights r) SMB2_WRITE_DAC)
                   (Z.lor (Z.lor (rq_selector r) DACL_SECURITY_INFORMATION)
                      (if protected then PROTECTED_DACL_SECURITY_INFORMATION
                       else UNPROTECTED_DACL_SECURITY_INFORMATION))
                   (if protected then Z.lor (rq_control r) SE_DACL_PROTECTED
                    else Z.ldiff (rq_control r) SE_DACL_PROTECTED)
                   (rq_owner r) (rq_group r) None in
        d ← build_dacl junk n acl;
        match d with
        | inl e => Some (e, r)
        | inr d => Some (0, SetRequest (rq_openrights r) (rq_selector r) (rq_control r) (rq_owner r) (rq_group r) (Some d))
        end
  | _ => Some (0, r)
  end.

(** What setting meets: the session, the FID of the caller, the answers of [smbfs_tmpopen],
    [smb1fs_setsec], [smb2fs_smb_cmpd_set_info] and [smb2fs_smb_cmpd_set_get_security] (the error,
    the status, and for the last the new descriptor), and the time of day. *)
Record answer := Answer {
  an_smb2 : bool; an_fid : option Z; an_tmpopen : Z; an_error : Z; an_ntstatus : Z;
  an_sec : option (list Z); an_wall : Z }.

Definition STATUS_INVALID_SID : Z := 0xc0000078.

(** The error and the node; with an open file the new descriptor is kept. *)
Definition smb2fs_smb_security_set (an : answer) (fid : Z) (n : smbnode) : Z * smbnode :=
  let n :=
    if fid =? 0 then n
    else match an_sec an with
         | Some d => match d with [] => n | _ => set_cache (Cache (Some d) (an_wall an) 0) n end
         | None => n
         end in
  (if negb (an_error an =? 0) && (an_ntstatus an =? STATUS_INVALID_SID) then 0 else an_error an, n).

Definition smbfs_smb_setsec (an : answer) (fid : Z) (n : smbnode) : Z * smbnode :=
  if an_smb2 an then smb2fs_smb_security_set an fid n else (an_error an, n).

(** Sending what was put together: the error, whether the cache stays, the request if it is sent. *)
Definition send_security (an : answer) (error : Z) (r : set_request) (n : smbnode)
  : Z * bool * option set_request * smbnode :=
  if rq_selector r =? 0 then (error, false, None, n)
  else
    let error := if an_smb2 an then error else an_tmpopen an in
    if error =? 0 then
      let '(error, n) := smbfs_smb_setsec an (if an_smb2 an then default 0 (an_fid an) else 0) n in
      (error, an_smb2 an && (error =? 0) && bool_decide (is_Some (an_fid an)), Some r, n)
    else (error, false, None, n).

(** The label [exit]. *)
Definition set_exit (selector : Z) (skip_clear_acl : bool) (n : smbnode) : smbnode :=
  if selector =? 0 then n
  else set_chtime (0, 0) (if skip_clear_acl then n else smbfs_clear_acl_cache n).

(** The error, the request that was sent, the node. *)
Definition smbfs_setsecurity (named_stream : bool) (junk : list Z) (an : answer) (v : to_set) (n : smbnode)
  : option (Z * option set_request * smbnode) :=
  if named_stream then Some (ENOTSUP, None, n)
  else
    let r0 := SetRequest (Z.lor SMB2_READ_CONTROL SMB2_SYNCHRONIZE) 0 0 None None None in
    g ← add_group v r0;
    match g with
    | inl e => Some (e, None, set_exit (rq_selector r0) false n)
    | inr r =>
        o ← add_owner v r;
        match o with
        | inl e => Some (e, None, set_exit (rq_selector r) false n)
        | inr r =>
            a ← add_acl junk (n_ids n) v r;
            let '(error, r) := a : Z * set_request in
            if error =? 0 then
              let '(error, skip, sent, n) := send_security an 0 r n in
              Some (error, sent, set_exit (rq_selector r) skip n)
            else Some (error, None, set_exit (rq_selector r) false n)
        end
    end.

(** The descriptor in a set info request ([smb2_smb_set_info]); there is never a SACL. *)
Definition security_descriptor (r : set_request) : option (list Z) :=
  let has (x : option (list Z)) := match x with Some _ => true | None => false end in
  ol ← match rq_owner r with Some b => sidlen 0 b | None => Some O end;
  gl ← match rq_group r with Some b => sidlen 0 b | None => Some O end;
  dl ← match rq_dacl r with Some b => l ← rd 2 2 b; Some (Z.to_nat l) | None => Some O end;
  let control := Z.lor (rq_control r) SE_SELF_RELATIVE in
  let control := if has (rq_dacl r)
                 then Z.lor control (Z.lor SE_DACL_PRESENT (Z.lor SE_DACL_AUTO_INHERITED SE_DACL_AUTO_INHERIT_REQ))
                 else control in
  let at_owner := NTSECDESC_LEN in
  let at_group := (at_owner + ol)%nat in
  let at_dacl := (at_group + gl)%nat in
  let off (b : bool) (k : nat) := le_bytes 4 (if b then Z.of_nat k else 0) in
  owner ← match rq_owner r with Some b => rd_bytes ol 0 b | None => Some [] end;
  group ← match rq_group r with Some b => rd_bytes gl 0 b | None => Some [] end;
  dacl ← match rq_dacl r with Some b => rd_bytes dl 0 b | None => Some [] end;
  Some ([1; 0] ++ le_bytes 2 control ++ off (has (rq_owner r)) at_owner ++ off (has (rq_group r)) at_group
        ++ le_bytes 4 0 ++ off (has (rq_dacl r)) at_dacl ++ owner ++ group ++ dacl).

(** A list with the entry for the modes only. *)
Definition modes_dacl (junk : list Z) (mode : Z) : option (list Z) :=
  let needed := (NTACL_LEN + 1 * (NTACE_LEN + MAXSIDLEN))%nat in
  buf ← wr 0 [2] (replicate needed 0);
  buf ← wr 4 (le_bytes 2 1) buf;
  r ← set_nfs_ace NTACL_LEN (nfs_sid junk NfsSidTypeModes mode) needed buf;
  wr 2 (le_bytes 2 (Z.of_nat r.1)) r.2.

Definition smbfs_set_default_nfs_ace (junk : list Z) (an : answer) (n : smbnode)
  : option (Z * option set_request * smbnode) :=
  if negb (an_smb2 an) && negb (an_tmpopen an =? 0) then Some (an_tmpopen an, None, n)
  else
    d ← modes_dacl junk (n_mode (n_ids n));
    let r := SetRequest (Z.lor SMB2_READ_CONTROL (Z.lor SMB2_WRITE_DAC SMB2_SYNCHRONIZE))
               DACL_SECURITY_INFORMATION 0 None None (Some d) in
    let '(error, n) := smbfs_smb_setsec an (if an_smb2 an then default 0 (an_fid an) else 0) n in
    let skip := an_smb2 an && (error =? 0) && bool_decide (is_Some (an_fid an)) in
    Some (error, Some r, set_chtime (0, 0) (if skip then n else smbfs_clear_acl_cache n)).

(** The error, the request that was sent, the node. *)
Definition smbfs_set_ace_modes (named_stream acl_alloc : bool) (junk : list Z) (t : meet) (an : answer) (vamode : Z)
    (n : smbnode) : option (Z * option set_request * smbnode) :=
  let save_mode := n_mode (n_ids n) in
  r ← smbfs_getsecurity named_stream acl_alloc t (Wanted true false false) n;
  let '(error, v, n) := r : Z * found * smbnode in
  if negb (error =? 0) then Some (error, None, n)
  else
    let n := set_ids (set_modes true (perms_of vamode (n_mode (n_ids n))) (n_ids n)) n in
    r ← match va_acl v with
         | None => smbfs_set_default_nfs_ace junk an n
         | Some acl => smbfs_setsecurity named_stream junk an (ToSet (Some (Some acl)) None None) n
         end;
    let '(error, sent, n) := r : Z * option set_request * smbnode in
    let n := if negb (error =? 0)
             then set_ids (set_modes (n_posixmodes (n_ids n)) (perms_of save_mode (n_mode (n_ids n))) (n_ids n)) n
             else n in
    Some (error, sent, n).

(** Does the directory know the SID? *)
Definition smbfs_is_sid_known (s : ntsid) : bool :=
  match ntsid2guid s with
  | inl _ => false
  | inr g =>
      if is_memberd_tempuuid g then false
      else match guid2ntsid g with inl _ => false | inr s' => bool_decide (s' = s) end
  end.

End Security.

(** ** The list of a new file *)

(** A loop over the entries of a list into a new one that has room for [allocated] entries; [None]
    reads or writes outside of a list (the check in the source comes after the store).  [direct]:
    inherited entries are skipped. *)
Fixpoint compose_loop (direct : bool) (count : nat) (aces : list kauth_ace) (allocated : Z) (new : list kauth_ace)
  : option (list kauth_ace) :=
  match count with
  | O => Some new
  | S count =>
      match aces with
      | [] => None
      | a :: aces =>
          if direct && negb (Z.land (ace_flags a) KAUTH_ACE_INHERITED =? 0)
          then compose_loop direct count aces allocated new
          else if allocated <=? Z.of_nat (length new) then None
          else compose_loop direct count aces allocated (new ++ [a])
      end
  end.

(** The composed list, or [ENOMEM] when [kauth_acl_alloc] fails. *)
Definition smbfs_compose_create_acl (acl_alloc : bool) (acl svracl : kauth_acl) : option (Z + kauth_acl) :=
  let allocated := i32 (u32 (acl_entrycount acl + acl_entrycount svracl)) in
  if negb acl_alloc || (allocated <? 0) || (KAUTH_ACL_MAX_ENTRIES <? allocated) then Some (inl ENOMEM)
  else
    new ← compose_loop true (Z.to_nat (acl_entrycount acl)) (acl_ace acl) allocated [];
    new ← compose_loop false (Z.to_nat (acl_entrycount svracl)) (acl_ace svracl) allocated new;
    Some (inr (Acl (Z.of_nat (length new)) (acl_flags svracl) new)).

(** ** The SIDs of the user *)

Fixpoint sid_list (count : nat) (buf : list Z) (off : nat) (acc : list ntsid) : option (list ntsid) :=
  match count with
  | O => Some acc
  | S count =>
      if (length buf <? off + NTSID_LEN)%nat then Some acc
      else
        subs ← rd 1 (off + 1) buf;
        s ← smb_sid2sid16 buf off;
        sid_list count buf (off + NTSID_LEN + 4 * Z.to_nat subs)
          (if smb_sid_in_domain unix_users_domsid s || smb_sid_in_domain unix_groups_domsid s then acc else acc ++ [s])
  end.

(** The new SIDs of the mount, [None]: they stay as they are.  [data] is what [md_get_mem] reads
    of the reply. *)
Definition smb_get_sid_list (txmax : Z) (data : option (list Z)) (ntwrk_sids_cnt ntwrk_sid_size : Z)
  : option (option (list ntsid)) :=
  if (ntwrk_sids_cnt =? 0) || (ntwrk_sid_size =? 0) || (txmax <? ntwrk_sid_size) then Some None
  else
    match data with
    | None => Some None
    | Some buf =>
        l ← sid_list (Z.to_nat (Z.min ntwrk_sids_cnt KAUTH_ACL_MAX_ENTRIES)) buf 0 [];
        Some (match l with [] => None | _ => Some l end)
    end.
