(* ===== verification/AclFacts.v ===== *)
(** * Facts about descriptors

    Bits through a table, reads and writes in a buffer that is split, and what the
    stores of an entry leave behind. *)

From S2P Require Import Prelude Acl.
Import Errno.

(** ** Tables of bits *)

(** A table of single bits: the places of the bits of each pair. *)
Definition bit_table (table : list (Z * Z)) : Prop :=
  Forall (fun '(a, b) => a = 2 ^ Z.log2 a /\ b = 2 ^ Z.log2 b /\ 0 < a /\ 0 < b) table.

Definition mask (table : list (Z * Z)) : Z := fold_right (fun p y => Z.lor p.1 y) 0 table.

Lemma land_bit_zero x a : 0 < a -> a = 2 ^ Z.log2 a -> (Z.land x a =? 0) = negb (Z.testbit x (Z.log2 a)).
Proof.
  intros Ha E. pose proof (Z.log2_nonneg a) as Hl. set (k := Z.log2 a) in *. rewrite E.
  destruct (Z.testbit x k) eqn:T; simpl.
  - apply Z.eqb_neq. intros Z0. apply (f_equal (fun z => Z.testbit z k)) in Z0.
    rewrite Z.land_spec, T, Z.pow2_bits_true, Z.bits_0 in Z0 by lia. done.
  - apply Z.eqb_eq. apply Z.bits_inj'. intros n Hn. rewrite Z.land_spec, Z.bits_0.
    destruct (decide (n = k)) as [->|Hne]; [by rewrite T|].
    rewrite Z.pow2_bits_false by lia. apply andb_false_r.
Qed.

Lemma translate_bits table x : bit_table table -> forall y n, 0 <= n ->
  Z.testbit (fold_left (fun y '(a, b) => if Z.land x a =? 0 then y else Z.lor y b) table y) n
  = Z.testbit y n || existsb (fun '(a, b) => Z.testbit x (Z.log2 a) && (Z.log2 b =? n)) table.
Proof.
  intros Ht. induction table as [|[a b] table IH]; intros y n Hn; simpl; [by rewrite orb_false_r|].
  apply Forall_cons_1 in Ht as [Hab Ht']. destruct Hab as (Ea & Eb & Ha & Hb).
  rewrite IH by done. rewrite land_bit_zero by done.
  destruct (Z.testbit x (Z.log2 a)); simpl; [|done].
  rewrite Z.lor_spec, <- orb_assoc. f_equal. f_equal.
  rewrite Eb at 1. rewrite Z.pow2_bits_eqb by apply Z.log2_nonneg. done.
Qed.

Lemma mask_bits table n : bit_table table -> 0 <= n ->
  Z.testbit (mask table) n = existsb (fun '(a, _) => Z.log2 a =? n) table.
Proof.
  intros Ht Hn. induction table as [|[a b] table IH]; simpl; [apply Z.bits_0|].
  apply Forall_cons_1 in Ht as [Hab Ht']. destruct Hab as (Ea & Eb & Ha & Hb).
  rewrite Z.lor_spec, IH by done. f_equal.
  rewrite Ea at 1. by rewrite Z.pow2_bits_eqb by apply Z.log2_nonneg.
Qed.

(** Distinct places on both sides. *)
Definition distinct (table : list (Z * Z)) : Prop :=
  NoDup (map (fun p => Z.log2 p.1) table) /\ NoDup (map (fun p => Z.log2 p.2) table).

Lemma elem_by_place (f : Z * Z -> Z) table p q :
  NoDup (map f table) -> In p table -> In q table -> f p = f q -> p = q.
Proof.
  intros Hnd Hp Hq E. apply list_elem_of_In, list_elem_of_lookup in Hp as [i Hi], Hq as [j Hj].
  assert (i = j) as ->; [|congruence].
  apply (NoDup_lookup _ i j (f p) Hnd); rewrite list_lookup_fmap; [by rewrite Hi|by rewrite Hj, E].
Qed.

Lemma translate_true table x n : bit_table table -> 0 <= n ->
  Z.testbit (translate table x) n = true <->
  exists a b, In (a, b) table /\ Z.testbit x (Z.log2 a) = true /\ Z.log2 b = n.
Proof.
  intros Ht Hn. unfold translate. rewrite translate_bits, Z.bits_0 by done. simpl.
  rewrite existsb_exists. split.
  - intros ([a b] & Hin & Hb). apply andb_true_iff in Hb as [Hx Eb]. apply Z.eqb_eq in Eb. eauto.
  - intros (a & b & Hin & Hx & Eb). exists (a, b). split; [done|]. rewrite Hx. by apply Z.eqb_eq.
Qed.

Lemma bit_table_swap table : bit_table table -> bit_table (swap_table table).
Proof. intros Ht. apply Forall_map. eapply Forall_impl; [|exact Ht]. intros [a b]; simpl. tauto. Qed.

(** What goes through a table and back is what the table knows. *)
Lemma translate_back table x : bit_table table -> distinct table ->
  translate (swap_table table) (translate table x) = Z.land x (mask table).
Proof.
  intros Ht [N1 N2]. apply Z.bits_inj'. intros n Hn. apply Bool.eq_iff_eq_true.
  rewrite translate_true by (done || by apply bit_table_swap).
  rewrite Z.land_spec, mask_bits, andb_true_iff, existsb_exists by done. split.
  - intros (b & a & Hin & Hb & E). apply in_map_iff in Hin as ([a' b'] & [= <- <-] & Hin).
    apply translate_true in Hb as (a2 & b2 & Hin2 & Hx & Eb); [|done|apply Z.log2_nonneg].
    assert ((a2, b2) = (a', b')) as [= -> ->] by (by apply (elem_by_place (fun p => Z.log2 p.2) table)).
    split; [by rewrite <- E|]. exists (a', b'). split; [done|]. by apply Z.eqb_eq.
  - intros (Hx & [a b] & Hin & E). apply Z.eqb_eq in E. exists b, a. split; [|split; [|done]].
    + apply in_map_iff. by exists (a, b).
    + apply translate_true; [done|apply Z.log2_nonneg|]. exists a, b. by rewrite E.
Qed.

Lemma translate_fold_nonneg table x : bit_table table -> forall y, 0 <= y ->
  0 <= fold_left (fun y '(a, b) => if Z.land x a =? 0 then y else Z.lor y b) table y.
Proof.
  intros Ht. induction table as [|[a b] table IH]; intros y Hy; simpl; [done|].
  apply Forall_cons_1 in Ht as [(? & ? & ? & ?) Ht']. apply IH; [done|].
  destruct (_ =? _); [done|]. apply Z.lor_nonneg. lia.
Qed.

Lemma translate_bound table x k : bit_table table -> 0 <= k ->
  Forall (fun p => Z.log2 p.2 < k) table -> 0 <= translate table x < 2 ^ k.
Proof.
  intros Ht Hk Hb. assert (0 <= translate table x) as H0 by (by apply translate_fold_nonneg).
  split; [done|]. destruct (decide (translate table x = 0)) as [->|Hne]; [apply Z.pow_pos_nonneg; lia|].
  apply Z.log2_lt_pow2; [lia|].
  assert (Z.testbit (translate table x) (Z.log2 (translate table x)) = true) as Hl by (apply Z.bit_log2; lia).
  apply translate_true in Hl as (a & b & Hin & _ & E); [|done|apply Z.log2_nonneg].
  rewrite <- E. rewrite List.Forall_forall in Hb. by apply (Hb (a, b)).
Qed.

Lemma rights_bits : bit_table rights_table.
Proof. unfold bit_table. repeat constructor; vm_compute; done. Qed.
Lemma flags_bits : bit_table flag_table.
Proof. unfold bit_table. repeat constructor; vm_compute; done. Qed.
Lemma rights_distinct : distinct rights_table.
Proof. split; apply (bool_decide_unpack _); by vm_compute. Qed.
Lemma flags_distinct : distinct flag_table.
Proof. split; apply (bool_decide_unpack _); by vm_compute. Qed.

(** ** Buffers in two parts *)

Lemma rd_app n k (a b : list Z) : rd n (length a + k) (a ++ b) = rd n k b.
Proof.
  unfold rd. rewrite length_app, drop_app_ge by lia. replace (length a + k - length a)%nat with k by lia.
  destruct (Nat.leb_spec (k + n) (length b)), (Nat.leb_spec (length a + k + n) (length a + length b)); (done || lia).
Qed.

Lemma rd_bytes_app n k (a b : list Z) : rd_bytes n (length a + k) (a ++ b) = rd_bytes n k b.
Proof.
  unfold rd_bytes. rewrite length_app, drop_app_ge by lia. replace (length a + k - length a)%nat with k by lia.
  destruct (Nat.leb_spec (k + n) (length b)), (Nat.leb_spec (length a + k + n) (length a + length b)); (done || lia).
Qed.

Lemma rd_some n k (b : list Z) : (k + n <= length b)%nat -> rd n k b = Some (le_value (take n (drop k b))).
Proof. intros Hl. unfold rd. destruct (Nat.leb_spec (k + n) (length b)); (done || lia). Qed.

Lemma rd_bytes_some n k (b : list Z) : (k + n <= length b)%nat -> rd_bytes n k b = Some (take n (drop k b)).
Proof. intros Hl. unfold rd_bytes. destruct (Nat.leb_spec (k + n) (length b)); (done || lia). Qed.

Lemma wr_some k bs (b : list Z) : (k + length bs <= length b)%nat -> wr k bs b = Some (splice k bs b).
Proof. intros Hl. unfold wr. destruct (Nat.leb_spec (k + length bs) (length b)); (done || lia). Qed.

Lemma wr_app k bs (a b : list Z) : wr (length a + k) bs (a ++ b) = app a <$> wr k bs b.
Proof.
  unfold wr. rewrite length_app.
  destruct (Nat.leb_spec (k + length bs) (length b)),
    (Nat.leb_spec (length a + k + length bs) (length a + length b)); try lia; [|done].
  simpl. f_equal. rewrite <- (app_nil_r b) at 1. rewrite splice_mid by lia. by rewrite app_nil_r.
Qed.

(** A number that was stored. *)
Lemma rd_le n (x : Z) (b : list Z) : 0 <= x < 256 ^ Z.of_nat n -> rd n 0 (le_bytes n x ++ b) = Some x.
Proof.
  intros Hx. rewrite rd_some by (rewrite length_app, length_le_bytes; lia). rewrite drop_0.
  rewrite take_app_length' by (by rewrite length_le_bytes). rewrite le_value_bytes, Z.mod_small; done.
Qed.

Lemma rd_words_app count k (a b : list Z) : rd_words count (length a + k) (a ++ b) = rd_words count k b.
Proof.
  revert k. induction count as [|count IH]; intros k; simpl; [done|].
  rewrite rd_app. destruct (rd 4 k b); simpl; [|done]. rewrite <- Nat.add_assoc, IH. done.
Qed.

Definition is_word (w : Z) : Prop := 0 <= w < 2 ^ 32.

Lemma rd_words_le ws (b : list Z) : Forall is_word ws ->
  rd_words (length ws) 0 (concat (map (le_bytes 4) ws) ++ b) = Some ws.
Proof.
  intros Hw. induction ws as [|w ws IH]; [done|]. apply Forall_cons_1 in Hw as [Hw Hws]. simpl length.
  change (concat (map (le_bytes 4) (w :: ws))) with (le_bytes 4 w ++ concat (map (le_bytes 4) ws)).
  cbn [rd_words]. rewrite <- app_assoc, (rd_le 4) by exact Hw. cbn [mbind option_bind].
  change (0 + 4)%nat with (length (le_bytes 4 w) + 0)%nat. rewrite rd_words_app, IH by done. done.
Qed.

(** Putting words into the order they have changes nothing. *)
Lemma endianize_words_same count k (b : list Z) :
  (k + 4 * count <= length b)%nat -> Forall is_byte b -> endianize_words count k b = Some b.
Proof.
  revert k. induction count as [|count IH]; intros k Hl Hb; cbn [endianize_words]; [done|].
  rewrite rd_some by lia. cbn [mbind option_bind].
  assert (length (take 4 (drop k b)) = 4%nat) as H4 by (rewrite length_take, length_drop; lia).
  rewrite <- H4 at 1. rewrite le_bytes_value by (apply Forall_take, Forall_drop; done).
  rewrite wr_some by lia. cbn [mbind option_bind].
  assert (splice k (take 4 (drop k b)) b = b) as ->; [|apply IH; (done || lia)].
  unfold splice. rewrite H4, <- drop_drop, take_drop. apply take_drop.
Qed.

(** ** SIDs and entries on the wire *)

Definition wf_sid (s : ntsid) : Prop :=
  is_byte (sid_kind s) /\ 0 <= sid_authcount s <= 16 /\
  length (sid_authority s) = 6%nat /\ Forall is_byte (sid_authority s) /\
  length (sid_authorities s) = 16%nat /\ Forall is_word (sid_authorities s).

Definition subs (s : ntsid) : nat := Z.to_nat (sid_authcount s).

(** [MS-DTYP] 2.4.2.2 *)
Definition sid_wire (s : ntsid) : list Z :=
  sid_kind s :: sid_authcount s :: sid_authority s ++ concat (map (le_bytes 4) (take (subs s) (sid_authorities s))).

(** The same SID with zeros after its authorities. *)
Definition canon (s : ntsid) : ntsid :=
  Ntsid (sid_kind s) (sid_authcount s) (sid_authority s)
    (take (subs s) (sid_authorities s) ++ replicate (16 - subs s) 0).

(** [MS-DTYP] 2.4.4.2 *)
Definition ace_image (ty flags rights : Z) (s : ntsid) : list Z :=
  [u8 ty; u8 flags] ++ le_bytes 2 (Z.of_nat (NTACE_LEN + (NTSID_LEN + 4 * subs s)))
  ++ le_bytes 4 rights ++ sid_wire s.

Lemma length_words ws : length (concat (map (le_bytes 4) ws)) = (4 * length ws)%nat.
Proof.
  induction ws as [|w ws IH]; [done|]. cbn [map concat]. rewrite length_app, IH, length_le_bytes.
  simpl length. lia.
Qed.

Lemma words_bytes ws : Forall is_byte (concat (map (le_bytes 4) ws)).
Proof. induction ws as [|w ws IH]; [constructor|]. cbn [map concat]. apply Forall_app; auto using le_bytes_byte. Qed.

Lemma subs_le s : wf_sid s -> (subs s <= 16)%nat.
Proof. unfold subs. intros (_ & ? & _). lia. Qed.

Lemma length_sid_image s : wf_sid s -> length (sid_image s) = MAXSIDLEN.
Proof. intros (_ & _ & H6 & _ & H16 & _). unfold sid_image. cbn [length]. rewrite length_app, length_words, H6, H16. done. Qed.

Lemma length_sid_wire s : wf_sid s -> length (sid_wire s) = (NTSID_LEN + 4 * subs s)%nat.
Proof.
  intros Hs. pose proof (subs_le s Hs). destruct Hs as (_ & _ & H6 & _ & H16 & _). unfold sid_wire. cbn [length].
  rewrite length_app, length_words, H6, length_take, H16. unfold NTSID_LEN. lia.
Qed.

Lemma sid_image_split s : wf_sid s ->
  sid_image s = sid_wire s ++ concat (map (le_bytes 4) (drop (subs s) (sid_authorities s))).
Proof.
  intros Hs. unfold sid_image, sid_wire. cbn [app]. do 2 f_equal. rewrite <- app_assoc. f_equal.
  rewrite <- concat_app, <- map_app, take_drop. done.
Qed.

Lemma sid_wire_bytes s : wf_sid s -> Forall is_byte (sid_wire s).
Proof.
  intros (Hk & Hc & _ & Ha & _). unfold sid_wire. repeat apply Forall_cons; [done|unfold is_byte; lia|].
  apply Forall_app. split; [done|apply words_bytes].
Qed.

Lemma sid_image_bytes s : wf_sid s -> Forall is_byte (sid_image s).
Proof. intros Hs. rewrite sid_image_split by done. apply Forall_app. split; [by apply sid_wire_bytes|apply words_bytes]. Qed.

Lemma u8_byte x : is_byte (u8 x).
Proof. apply Z.mod_pos_bound. lia. Qed.

Lemma ace_image_bytes ty fl r s : wf_sid s -> Forall is_byte (ace_image ty fl r s).
Proof.
  intros Hs. repeat (apply Forall_app; split); try apply le_bytes_byte; [|by apply sid_wire_bytes].
  do 2 (apply Forall_cons_2; [apply u8_byte|]). constructor.
Qed.

Lemma length_ace_image ty fl r s : wf_sid s -> length (ace_image ty fl r s) = (NTACE_LEN + NTSID_LEN + 4 * subs s)%nat.
Proof. intros Hs. unfold ace_image. rewrite !length_app, !length_le_bytes, length_sid_wire by done. unfold NTACE_LEN. simpl length. lia. Qed.

Lemma smb_sid_endianize_same (b : list Z) k len c : rd 1 (k + 1) b = Some c ->
  (k + 8 + 4 * Z.to_nat c <= length b)%nat -> Forall is_byte b -> smb_sid_endianize k len b = Some b.
Proof.
  intros Hr Hl Hb. unfold smb_sid_endianize. rewrite Hr. simpl. destruct (_ <? _)%nat; [done|].
  apply endianize_words_same; [unfold NTSID_LEN; lia|done].
Qed.

(** The count of a SID in a buffer. *)
Lemma rd_count (a b : list Z) s : wf_sid s -> rd 1 (length a + 1) (a ++ sid_wire s ++ b) = Some (sid_authcount s).
Proof.
  intros Hs. rewrite rd_app. unfold sid_wire. rewrite rd_some by (simpl; lia). simpl. f_equal. lia.
Qed.

Lemma rd_count_image (a b : list Z) s : wf_sid s -> rd 1 (length a + 1) (a ++ sid_image s ++ b) = Some (sid_authcount s).
Proof. intros Hs. rewrite sid_image_split, <- app_assoc by done. by apply rd_count. Qed.

Lemma splice_block (k : nat) (xs a u t : list Z) : k = length a -> length xs = length u ->
  splice k xs (a ++ u ++ t) = a ++ xs ++ t.
Proof.
  intros -> E. rewrite <- (Nat.add_0_r (length a)), splice_mid by lia. by rewrite splice_full.
Qed.

(** The stores of an entry. *)
Lemma put_ace_spec (a b : list Z) ty fl r s needed :
  wf_sid s -> (NTACE_LEN + MAXSIDLEN <= length b)%nat -> Forall is_byte a -> Forall is_byte b ->
  exists rest, put_ace (length a) ty fl r (sid_image s) needed (a ++ b)
    = Some ((length a + length (ace_image ty fl r s))%nat, a ++ ace_image ty fl r s ++ rest)
    /\ (length (ace_image ty fl r s) + length rest)%nat = length b /\ Forall is_byte rest.
Proof.
  intros Hs Hb Ba Bb. pose proof (length_sid_image s Hs) as Hi. pose proof (subs_le s Hs).
  assert (exists h u t, b = h ++ u ++ t /\ length h = 8%nat /\ length u = 72%nat) as (h & u & t & -> & Hh & Hu).
  { exists (take 8 b), (take 72 (drop 8 b)), (drop 80 b). unfold NTACE_LEN, MAXSIDLEN in Hb.
    rewrite !length_take, length_drop. split; [|lia].
    rewrite <- (take_drop 8 b) at 1. f_equal. rewrite <- (take_drop 72 (drop 8 b)) at 1. by rewrite drop_drop. }
  destruct h as [|h0 [|h1 [|h2 [|h3 [|h4 [|h5 [|h6 [|h7 [|]]]]]]]]]; try discriminate Hh. clear Hh Hb.
  apply Forall_app in Bb as [Bh [Bu Bt]%Forall_app].
  exists (concat (map (le_bytes 4) (drop (subs s) (sid_authorities s))) ++ t). split; [|split].
  - unfold put_ace. rewrite <- (Nat.add_0_r (length a)) at 1. rewrite wr_app, (wr_some 0) by (simpl; lia).
    cbn [fmap option_fmap option_map mbind option_bind].
    rewrite wr_app, (wr_some 1) by (simpl; lia). cbn [fmap option_fmap option_map mbind option_bind].
    rewrite wr_app, (wr_some 4) by (simpl; lia). cbn [fmap option_fmap option_map mbind option_bind].
    set (hd := [u8 ty; u8 fl; h2; h3] ++ le_bytes 4 r).
    assert (splice 4 (le_bytes 4 r) (splice 1 [u8 fl] (splice 0 [u8 ty] ([h0; h1; h2; h3; h4; h5; h6; h7] ++ u ++ t)))
            = hd ++ u ++ t) as -> by done.
    unfold NTACE_LEN. rewrite wr_app, (wr_some 8) by (rewrite Hi; simpl; rewrite length_app, Hu; unfold MAXSIDLEN; lia).
    cbn [fmap option_fmap option_map mbind option_bind].
    rewrite (splice_block 8 _ hd) by (rewrite ?Hi, ?Hu; done).
    assert (Forall is_byte hd) as Bhd.
    { inversion Bh as [|? ? _ Bh1]; subst. inversion Bh1 as [|? ? _ Bh2]; subst.
      inversion Bh2 as [|? ? B2 Bh3]; subst. inversion Bh3 as [|? ? B3 _]; subst.
      apply Forall_app. split; [|apply le_bytes_byte].
      do 4 (apply Forall_cons_2; [auto using u8_byte|]). constructor. }
    rewrite (smb_sid_endianize_same _ _ _ (sid_authcount s)); cycle 1.
    { replace (length a + 8 + 1)%nat with (length (a ++ hd) + 1)%nat by (rewrite length_app; simpl; lia).
      rewrite (app_assoc a hd). by apply rd_count_image. }
    { rewrite !length_app, Hi. unfold subs in *. simpl. unfold MAXSIDLEN. lia. }
    { apply Forall_app. split; [done|]. apply Forall_app. split; [done|].
      apply Forall_app. split; [by apply sid_image_bytes|done]. }
    cbn [mbind option_bind]. unfold sidlen.
    replace (length a + 8 + 1)%nat with (length (a ++ hd) + 1)%nat by (rewrite length_app; simpl; lia).
    rewrite (app_assoc a hd), rd_count_image by done. cbn [mbind option_bind]. rewrite <- app_assoc.
    rewrite wr_app, (wr_some 2) by (simpl; lia). cbn [fmap option_fmap option_map mbind option_bind].
    change hd with ([u8 ty; u8 fl] ++ [h2; h3] ++ le_bytes 4 r). rewrite <- !app_assoc.
    rewrite (splice_block 2 _ [u8 ty; u8 fl] [h2; h3]) by done.
    rewrite rd_app. rewrite (rd_app 2 0 [u8 ty; u8 fl] : forall b, rd 2 2 ([u8 ty; u8 fl] ++ b) = rd 2 0 b).
    rewrite rd_le by (unfold NTACE_LEN, NTSID_LEN, subs in *; simpl; lia).
    cbn [mbind option_bind]. rewrite Nat2Z.id, length_ace_image by done. unfold ace_image.
    rewrite sid_image_split by done. rewrite <- !app_assoc. unfold NTACE_LEN. f_equal.
  - rewrite length_ace_image, !length_app, length_words, length_drop by done.
    destruct Hs as (_ & _ & _ & _ & -> & _). unfold NTACE_LEN, NTSID_LEN. simpl length. lia.
  - apply Forall_app. split; [apply words_bytes|done].
Qed.
