(* ===== verification/AclLayout.v ===== *)
(** * Descriptors on the wire

    What the stores of [smbfs_security.c] lay out is the image of [MS-DTYP] of the
    list, and that image is read back entry by entry. *)

From S2P Require Import Prelude Acl AclFacts.
Import Errno.

(** ** Laying a list out *)

(** An entry with everything that goes on the wire. *)
Record entry := Entry { e_type : Z; e_flags : Z; e_rights : Z; e_sid : ntsid }.

Definition image (e : entry) : list Z := ace_image (e_type e) (e_flags e) (e_rights e) (e_sid e).
Definition images (l : list entry) : list Z := concat (map image l).

(** [MS-DTYP] 2.4.5 *)
Definition dacl_image (l : list entry) : list Z :=
  [2; 0] ++ le_bytes 2 (Z.of_nat (NTACL_LEN + length (images l))) ++ le_bytes 2 (Z.of_nat (length l))
  ++ [0; 0] ++ images l.

Definition wf_entry (e : entry) : Prop :=
  wf_sid (e_sid e) /\ 0 <= e_type e < 4 /\ 0 <= e_flags e < 256 /\ is_word (e_rights e).

Definition ROOM : nat := 80.

Lemma images_cons e l : images (e :: l) = image e ++ images l.
Proof. done. Qed.

Lemma length_image e : wf_entry e -> (16 <= length (image e) <= ROOM)%nat.
Proof.
  intros [Hs _]. unfold image. rewrite length_ace_image by done. pose proof (subs_le _ Hs).
  unfold NTACE_LEN, NTSID_LEN, ROOM. lia.
Qed.

Lemma length_images l : Forall wf_entry l -> (length (images l) <= length l * ROOM)%nat.
Proof.
  induction 1 as [|e l He _ IH]; [done|]. rewrite images_cons, length_app, length_cons.
  pose proof (length_image e He). unfold ROOM in *. lia.
Qed.

Lemma images_bytes l : Forall wf_entry l -> Forall is_byte (images l).
Proof.
  induction 1 as [|e l [Hs _] _ IH]; [constructor|]. rewrite images_cons. apply Forall_app.
  split; [by apply ace_image_bytes|done].
Qed.

Section Layout.
Context `{Kauth}.
Context (m : smbmount).

(** What an entry of a list becomes. *)
Definition resolve (a : kauth_ace) : option entry :=
  match type_of_kind (ace_flags a), sid_of m (ace_applicable a) with
  | Some ty, inr s => Some (Entry ty (translate flag_table (ace_flags a)) (wire_rights a) s)
  | _, _ => None
  end.

Definition nfs_entry (p : Z * Z) : entry := Entry ACCESS_DENIED_ACE_TYPE 0 0 (nfs_sid (replicate 13 0) p.1 p.2).

Lemma type_of_kind_range fl ty : type_of_kind fl = Some ty -> 0 <= ty < 4.
Proof. unfold type_of_kind. repeat case_match; intros [= <-]; vm_compute; split; congruence. Qed.

Lemma wire_rights_word a : is_word (wire_rights a).
Proof.
  assert (0 <= translate rights_table (ace_rights a) < 2 ^ 32) as Hr.
  { apply translate_bound; [apply rights_bits|lia|]. unfold rights_table. repeat constructor; vm_compute; done. }
  unfold wire_rights. destruct (_ =? _); [done|]. split; [apply Z.lor_nonneg; unfold SMB2_SYNCHRONIZE; lia|].
  destruct (decide (Z.lor (translate rights_table (ace_rights a)) SMB2_SYNCHRONIZE = 0)) as [->|]; [lia|].
  apply Z.log2_lt_pow2; [assert (0 <= Z.lor (translate rights_table (ace_rights a)) SMB2_SYNCHRONIZE)
    by (apply Z.lor_nonneg; unfold SMB2_SYNCHRONIZE; lia); lia|].
  rewrite Z.log2_lor by (unfold SMB2_SYNCHRONIZE; lia). apply Z.max_lub_lt; [|done].
  destruct (decide (translate rights_table (ace_rights a) = 0)) as [->|]; [done|]. apply Z.log2_lt_pow2; lia.
Qed.

Lemma flags_byte fl : 0 <= translate flag_table fl < 256.
Proof. apply (translate_bound _ _ 8); [apply flags_bits|lia|]. unfold flag_table. repeat constructor; vm_compute; done. Qed.

Lemma resolve_wf a e : resolve a = Some e -> (forall s, sid_of m (ace_applicable a) = inr s -> wf_sid s) -> wf_entry e.
Proof.
  unfold resolve. destruct (type_of_kind _) eqn:Et, (sid_of _ _) eqn:Es; try discriminate. intros [= <-] Hw.
  repeat split; simpl; auto; try (by apply type_of_kind_range in Et; lia); try apply flags_byte; try apply wire_rights_word;
    apply Hw; done.
Qed.

(** The loop over the entries. *)
Lemma set_aces_spec aces l : mapM resolve aces = Some l -> Forall wf_entry l ->
  forall (a b : list Z) needed more, (length aces * ROOM <= length b)%nat -> Forall is_byte a -> Forall is_byte b ->
  exists rest, set_aces m (length a) (length aces) (aces ++ more) needed (a ++ b)
    = Some (inr ((length a + length (images l))%nat, a ++ images l ++ rest))
    /\ (length (images l) + length rest)%nat = length b /\ Forall is_byte rest.
Proof.
  revert l. induction aces as [|ace aces IH]; intros l Hl Hwf a b needed more Hb Ba Bb.
  - injection Hl as <-. exists b. simpl. rewrite Nat.add_0_r. done.
  - apply mapM_Some in Hl. inversion Hl as [|? e ? l' He Hl']; subst. apply mapM_Some in Hl'.
    apply Forall_cons_1 in Hwf as [Hwe Hwf]. rewrite length_cons in Hb. cbn [length app set_aces].
    unfold set_ace, resolve in *. destruct (type_of_kind (ace_flags ace)) as [ty|]; [|done].
    destruct (sid_of m (ace_applicable ace)) as [|s]; [done|]. injection He as <-.
    destruct (put_ace_spec a b ty (translate flag_table (ace_flags ace)) (wire_rights ace) s needed) as (r1 & E1 & L1 & B1);
      [apply Hwe|unfold NTACE_LEN, MAXSIDLEN; unfold ROOM in Hb; lia|done|done|].
    rewrite E1. cbn [mbind option_bind]. rewrite <- length_app, app_assoc.
    pose proof (length_image _ Hwe) as Hi. unfold image in Hi. cbn [e_type e_flags e_rights e_sid] in Hi.
    destruct (IH l' Hl' Hwf (a ++ ace_image ty (translate flag_table (ace_flags ace)) (wire_rights ace) s) r1 needed more)
      as (r2 & E2 & L2 & B2); [unfold ROOM in *; lia| |done|].
    { apply Forall_app. split; [done|]. apply ace_image_bytes, Hwe. }
    exists r2. rewrite E2, images_cons. unfold image. cbn [e_type e_flags e_rights e_sid].
    split; [|split; [rewrite length_app; lia|done]].
    f_equal. f_equal. f_equal; [rewrite !length_app; lia|]. by rewrite <- !app_assoc.
Qed.

(** Whatever the entries are, the loop stays in the buffer. *)
Lemma set_aces_total aces : forall count (a b : list Z) needed,
  (count <= length aces)%nat -> (count * ROOM <= length b)%nat ->
  (forall g s, sid_of m g = inr s -> wf_sid s) -> Forall is_byte a -> Forall is_byte b ->
  exists r, set_aces m (length a) count aces needed (a ++ b) = Some r
    /\ (forall off buf, r = inr (off, buf) -> length buf = (length a + length b)%nat /\ (off <= length a + count * ROOM)%nat).
Proof.
  induction aces as [|ace aces IH]; intros [|count] a b needed Hc Hb Hw Ba Bb; simpl length in Hc; try lia;
    try (eexists; split; [reflexivity|]; intros ? ? [= <- <-]; rewrite length_app; lia).
  cbn [set_aces]. unfold set_ace. destruct (type_of_kind _) as [ty|]; [|by eexists].
  destruct (sid_of m _) as [|s] eqn:Es; [by eexists|]. apply Hw in Es.
  destruct (put_ace_spec a b ty (translate flag_table (ace_flags ace)) (wire_rights ace) s needed) as (r1 & E1 & L1 & B1);
    [done|unfold ROOM in Hb; unfold NTACE_LEN, MAXSIDLEN; lia|done|done|].
  rewrite E1. cbn [mbind option_bind]. rewrite <- length_app, app_assoc.
  pose proof (length_ace_image ty (translate flag_table (ace_flags ace)) (wire_rights ace) s Es) as Hl.
  pose proof (subs_le _ Es). unfold NTACE_LEN, NTSID_LEN in Hl.
  destruct (IH count (a ++ ace_image ty (translate flag_table (ace_flags ace)) (wire_rights ace) s) r1 needed)
    as (r & Er & Hr); [lia|unfold ROOM in *; lia|done| |done|].
  { apply Forall_app. split; [done|]. by apply ace_image_bytes. }
  exists r. split; [exact Er|]. intros off buf E. apply Hr in E as [E1' E2]. rewrite length_app in *. unfold ROOM in *. lia.
Qed.

(** *** The entries for NFS *)

Definition wf_junk (junk : list Z) : Prop := length junk = 13%nat /\ Forall is_word junk.

Lemma nfs_sid_wf junk ty x : wf_junk junk -> is_word ty -> wf_sid (nfs_sid junk ty x).
Proof.
  intros [Hl Hj] Hty. unfold wf_sid, nfs_sid. cbn [sid_kind sid_authcount sid_authority sid_authorities].
  split; [unfold is_byte; lia|]. split; [lia|]. split; [done|].
  split; [repeat constructor; unfold is_byte; lia|]. split; [cbn [length]; by rewrite Hl|].
  repeat (apply Forall_cons_2; [try done; try apply u32_range; unfold is_word, SECURITY_NFS_ID_BASE_RID; lia|]). done.
Qed.

(** Nothing of the stack is sent. *)
Lemma nfs_image_junk junk ty x : ace_image ACCESS_DENIED_ACE_TYPE 0 0 (nfs_sid junk ty x) = image (nfs_entry (ty, x)).
Proof. done. Qed.

Lemma zero_junk : wf_junk (replicate 13 0).
Proof. split; [done|]. apply Forall_replicate. unfold is_word. lia. Qed.

Lemma nfs_entry_wf p : is_word p.1 -> wf_entry (nfs_entry p).
Proof. intros Hp. split; [by apply nfs_sid_wf; [apply zero_junk|]|]. simpl. unfold ACCESS_DENIED_ACE_TYPE, is_word. lia. Qed.

Lemma set_nfs_aces_spec junk l : wf_junk junk -> Forall (fun p => is_word p.1) l ->
  forall (a b : list Z) needed, (length l * ROOM <= length b)%nat -> Forall is_byte a -> Forall is_byte b ->
  exists rest, set_nfs_aces junk l (length a) needed (a ++ b)
    = Some ((length a + length (images (map nfs_entry l)))%nat, a ++ images (map nfs_entry l) ++ rest)
    /\ (length (images (map nfs_entry l)) + length rest)%nat = length b /\ Forall is_byte rest.
Proof.
  intros Hj. induction l as [|[ty x] l IH]; intros Hl a b needed Hb Ba Bb.
  - exists b. simpl. rewrite Nat.add_0_r. done.
  - apply Forall_cons_1 in Hl as [Hty Hl]. rewrite length_cons in Hb. cbn [set_nfs_aces map]. rewrite images_cons.
    destruct (put_ace_spec a b ACCESS_DENIED_ACE_TYPE 0 0 (nfs_sid junk ty x) needed) as (r1 & E1 & L1 & B1);
      [by apply nfs_sid_wf|unfold ROOM in Hb; unfold NTACE_LEN, MAXSIDLEN; lia|done|done|].
    unfold set_nfs_ace. rewrite E1, nfs_image_junk in *. cbn [mbind option_bind fst snd]. rewrite <- length_app, app_assoc.
    pose proof (length_image _ (nfs_entry_wf (ty, x) Hty)) as Hi.
    destruct (IH Hl (a ++ image (nfs_entry (ty, x))) r1 needed) as (r2 & E2 & L2 & B2);
      [unfold ROOM in *; lia| |done|].
    { apply Forall_app. split; [done|]. apply ace_image_bytes, nfs_entry_wf, Hty. }
    exists r2. rewrite E2. split; [|split; [rewrite length_app; lia|done]].
    f_equal. f_equal; [rewrite !length_app; lia|]. by rewrite <- !app_assoc.
Qed.

Lemma nfs_entries_types n : Forall (fun p => is_word p.1) (nfs_entries n).
Proof.
  unfold nfs_entries. repeat (apply Forall_app; split); case_match; repeat constructor; simpl;
    unfold NfsSidTypeOwner, NfsSidTypeGroup, NfsSidTypeModes; lia.
Qed.

Lemma length_nfs_entries n : (length (nfs_entries n) <= 3)%nat.
Proof. unfold nfs_entries. repeat case_match; simpl; lia. Qed.

(** *** The whole list *)

Definition acl_head (count : nat) : list Z := [2; 0; 0; 0] ++ le_bytes 2 (Z.of_nat count) ++ [0; 0].

Lemma start_dacl count :
  (buf ← wr 0 [2] (replicate (NTACL_LEN + count * (NTACE_LEN + MAXSIDLEN)) 0);
   wr 4 (le_bytes 2 (Z.of_nat count)) buf) = Some (acl_head count ++ replicate (count * ROOM) 0).
Proof.
  change (NTACE_LEN + MAXSIDLEN)%nat with ROOM. unfold NTACL_LEN. rewrite replicate_add.
  rewrite wr_some by (simpl; lia). cbn [mbind option_bind].
  change (splice 0 [2] (replicate 8 0 ++ replicate (count * ROOM) 0))
    with ([2; 0; 0; 0] ++ [0; 0] ++ [0; 0] ++ replicate (count * ROOM) 0).
  rewrite wr_some by (rewrite !length_app, length_le_bytes; simpl; lia).
  rewrite (splice_block 4 _ [2; 0; 0; 0] [0; 0]) by (by rewrite ?length_le_bytes). done.
Qed.

Lemma images_app l1 l2 : images (l1 ++ l2) = images l1 ++ images l2.
Proof. unfold images. by rewrite map_app, concat_app. Qed.

(** The last store, of the length. *)
Lemma end_dacl l (rest : list Z) :
  wr 2 (le_bytes 2 (Z.of_nat (NTACL_LEN + length (images l)))) (acl_head (length l) ++ images l ++ rest)
  = Some (dacl_image l ++ rest).
Proof.
  rewrite wr_some by (unfold acl_head; rewrite !length_app, !length_le_bytes; simpl; lia).
  done.
Qed.

Lemma zeros_bytes n : Forall is_byte (replicate n 0).
Proof. apply Forall_replicate. unfold is_byte. lia. Qed.

Lemma acl_head_bytes count : Forall is_byte (acl_head count).
Proof. repeat (apply Forall_app; split); [|apply le_bytes_byte|]; repeat constructor; unfold is_byte; lia. Qed.

Lemma nfs_entries_wf n : Forall wf_entry (map nfs_entry (nfs_entries n)).
Proof. apply Forall_map. eapply Forall_impl; [|apply nfs_entries_types]. intros p Hp. by apply nfs_entry_wf. Qed.

(** The list up to the entries of the caller, of which there are [k]. *)
Lemma nfs_started junk n k : wf_junk junk ->
  let c := (length (nfs_entries n) + k)%nat in
  let pre := acl_head c ++ images (map nfs_entry (nfs_entries n)) in
  let needed := (NTACL_LEN + c * (NTACE_LEN + MAXSIDLEN))%nat in
  exists rest,
    (buf ← wr 0 [2] (replicate needed 0); buf ← wr 4 (le_bytes 2 (Z.of_nat c)) buf;
     set_nfs_aces junk (nfs_entries n) NTACL_LEN needed buf) = Some (length pre, pre ++ rest)
    /\ (k * ROOM <= length rest)%nat /\ Forall is_byte rest /\ Forall is_byte pre.
Proof.
  intros Hj c pre needed. pose proof (start_dacl c) as Es. fold needed in Es.
  destruct (wr 0 [2] _) as [b0|]; [|done]. cbn [mbind option_bind] in *.
  rewrite Es. cbn [mbind option_bind]. clear Es b0.
  destruct (set_nfs_aces_spec junk (nfs_entries n) Hj (nfs_entries_types n) (acl_head c) (replicate (c * ROOM) 0)
              needed) as (r1 & E1 & L1 & B1);
    [rewrite length_replicate; unfold c, ROOM; lia|apply acl_head_bytes|apply zeros_bytes|].
  exists r1. change (length (acl_head c)) with NTACL_LEN in E1. rewrite E1, app_assoc. fold pre.
  pose proof (length_images _ (nfs_entries_wf n)) as Hli. rewrite length_map in Hli.
  rewrite length_replicate in L1. split; [|split; [unfold c, ROOM in *; lia|split; [done|]]].
  - unfold pre. by rewrite length_app.
  - apply Forall_app. split; [apply acl_head_bytes|apply images_bytes, nfs_entries_wf].
Qed.

Lemma build_dacl_spec junk n acl l : wf_junk junk ->
  acl_entrycount acl = Z.of_nat (length (acl_ace acl)) -> acl_entrycount acl <= KAUTH_ACL_MAX_ENTRIES ->
  mapM resolve (acl_ace acl) = Some l -> Forall wf_entry l ->
  exists rest, build_dacl m junk n acl = Some (inr (dacl_image (map nfs_entry (nfs_entries n) ++ l) ++ rest)).
Proof.
  intros Hj Hc Hm Hl Hwf. unfold build_dacl. rewrite Hc in *. rewrite Nat2Z.id.
  destruct (Z.ltb_spec KAUTH_ACL_MAX_ENTRIES (Z.of_nat (length (acl_ace acl)))); [lia|].
  destruct (nfs_started junk n (length (acl_ace acl)) Hj) as (r1 & E1 & L1 & B1 & Bp).
  destruct (wr 0 [2] _) as [b0|]; [|done]. cbn [mbind option_bind] in *.
  destruct (wr 4 _ b0) as [b1|]; [|done]. cbn [mbind option_bind] in *. rewrite E1. cbn [mbind option_bind fst snd].
  destruct (set_aces_spec _ _ Hl Hwf _ r1 (NTACL_LEN + (length (nfs_entries n) + length (acl_ace acl)) * (NTACE_LEN + MAXSIDLEN))
              [] L1 Bp B1) as (r2 & E2 & _ & _).
  rewrite app_nil_r in E2. rewrite E2. cbn [mbind option_bind]. exists r2.
  assert (length (map nfs_entry (nfs_entries n) ++ l) = (length (nfs_entries n) + length (acl_ace acl))%nat) as Hlen.
  { rewrite length_app, length_map. apply mapM_Some, Forall2_length in Hl. lia. }
  rewrite <- Hlen, length_app, <- Nat.add_assoc, <- length_app, <- images_app, <- app_assoc, (app_assoc (images _)), <- images_app.
  change (length (acl_head (length (map nfs_entry (nfs_entries n) ++ l)))) with NTACL_LEN. by rewrite end_dacl.
Qed.

(** Whatever the list is, the stores stay in the buffer that was allocated for it. *)
Lemma build_dacl_total junk n acl : wf_junk junk ->
  0 <= acl_entrycount acl -> (Z.to_nat (acl_entrycount acl) <= length (acl_ace acl))%nat ->
  (forall g s, sid_of m g = inr s -> wf_sid s) ->
  exists r, build_dacl m junk n acl = Some r.
Proof.
  intros Hj H0 Hc Hw. unfold build_dacl. destruct (_ <? _); [by eexists|].
  destruct (nfs_started junk n (Z.to_nat (acl_entrycount acl)) Hj) as (r1 & E1 & L1 & B1 & Bp).
  destruct (wr 0 [2] _) as [b0|]; [|done]. cbn [mbind option_bind] in *.
  destruct (wr 4 _ b0) as [b1|]; [|done]. cbn [mbind option_bind] in *. rewrite E1. cbn [mbind option_bind fst snd].
  destruct (set_aces_total (acl_ace acl) _ _ r1
     (NTACL_LEN + (length (nfs_entries n) + Z.to_nat (acl_entrycount acl)) * (NTACE_LEN + MAXSIDLEN)) Hc L1 Hw Bp B1) as (r & Er & Hr).
  rewrite Er. cbn [mbind option_bind]. destruct r as [e|[off buf]]; [by eexists|].
  destruct (Hr off buf eq_refl) as [Hlen _]. rewrite wr_some; [by eexists|].
  rewrite Hlen, length_app, length_le_bytes. simpl. lia.
Qed.

(** ** Reading a list *)

Lemma rd0 n (a b : list Z) : rd n (length a) (a ++ b) = rd n 0 b.
Proof. rewrite <- (rd_app n 0 a b). by rewrite Nat.add_0_r. Qed.

Lemma rd_one x (b : list Z) : rd 1 0 (x :: b) = Some x.
Proof. unfold rd. simpl. f_equal. lia. Qed.

Lemma rd_two x y (b : list Z) : rd 1 1 (x :: y :: b) = Some y.
Proof. unfold rd. simpl. f_equal. lia. Qed.

Lemma rd_after2 n x y (b : list Z) : rd n 2 ([x; y] ++ b) = rd n 0 b.
Proof. exact (rd_app n 0 [x; y] b). Qed.

(** A SID on the wire is read as it is. *)
Lemma sid2sid16_wire (a b : list Z) s : wf_sid s ->
  smb_sid2sid16 (a ++ sid_wire s ++ b) (length a) = Some (canon s).
Proof.
  intros Hs. pose proof (length_sid_wire s Hs) as Hl. pose proof (subs_le s Hs).
  pose proof Hs as (Hk & Hc & H6 & Ha & H16 & Hw).
  unfold smb_sid2sid16. rewrite rd_count by done. cbn [mbind option_bind].
  unfold KAUTH_NTSID_MAX_AUTHORITIES. destruct (Z.ltb_spec 16 (sid_authcount s)); [lia|].
  fold (subs s). rewrite !length_app, Hl.
  destruct (Nat.ltb_spec (length a + (NTSID_LEN + 4 * subs s + length b)) (length a + NTSID_LEN + 4 * subs s)); [lia|].
  rewrite rd0, rd_some by (rewrite length_app, Hl; unfold NTSID_LEN; lia). assert (take 1 (drop 0 (sid_wire s ++ b)) = [sid_kind s]) as -> by done.
  cbn [mbind option_bind]. rewrite rd_bytes_app, rd_bytes_some by (rewrite length_app, Hl; unfold NTSID_LEN; lia). cbn [mbind option_bind].
  rewrite rd_words_app.
  set (h := [sid_kind s; sid_authcount s] ++ sid_authority s).
  assert (sid_wire s ++ b = h ++ concat (map (le_bytes 4) (take (subs s) (sid_authorities s))) ++ b) as E
    by (unfold h, sid_wire; cbn [app]; by rewrite <- app_assoc).
  assert (length h = NTSID_LEN) as Hh by (unfold h; rewrite length_app, H6; done).
  rewrite E. replace NTSID_LEN with (length h + 0)%nat by lia. rewrite rd_words_app.
  replace (subs s) with (length (take (subs s) (sid_authorities s))) at 1 by (rewrite length_take; lia).
  rewrite rd_words_le by (by apply Forall_take). cbn [mbind option_bind]. unfold canon.
  f_equal. f_equal.
  - simpl. lia.
  - unfold h. rewrite <- app_assoc. rewrite drop_app_length' by done. by apply take_app_length'.
Qed.

(** What an entry on the wire is read as. *)
Definition read_entry (e : entry) (n : ids) : option kauth_ace * ids :=
  let '(nfs, n) := WindowsNfsSID (canon (e_sid e)) n in
  if nfs then (None, n)
  else match applicable m (canon (e_sid e)) with
       | None => (None, n)
       | Some g => (Some (Ace g (Z.lor (default 0 (kind_of_type (e_type e))) (translate (swap_table flag_table) (e_flags e)))
                            (translate (swap_table rights_table) (e_rights e))), n)
       end.

Lemma kind_of_type_some ty : 0 <= ty < 4 -> exists k, kind_of_type ty = Some k.
Proof.
  intros Hty. assert (ty = 0 \/ ty = 1 \/ ty = 2 \/ ty = 3) as [->|[->|[->| ->]]] by lia; eexists; reflexivity.
Qed.

Lemma get_ace_image (a b : list Z) e n : wf_entry e ->
  get_ace m (a ++ image e ++ b) (length a) n = Some (inr (read_entry e n)).
Proof.
  intros (Hs & Hty & Hf & Hr). unfold get_ace, read_entry. destruct e as [ty fl r s]. cbn [e_type e_flags e_rights e_sid] in *.
  unfold image, ace_image. cbn [e_type e_flags e_rights e_sid].
  set (len := le_bytes 2 _). assert (length len = 2%nat) as Hlen by apply length_le_bytes. clearbody len.
  assert (u8 ty = ty /\ u8 fl = fl) as [-> ->] by (unfold u8; rewrite !Z.mod_small; lia).
  rewrite <- !app_assoc. rewrite rd0. cbn [app]. rewrite rd_one. cbn [mbind option_bind].
  change (ty :: fl :: len ++ le_bytes 4 r ++ sid_wire s ++ b) with ([ty; fl] ++ len ++ le_bytes 4 r ++ sid_wire s ++ b).
  destruct (kind_of_type_some ty Hty) as [k Ek]. rewrite Ek. cbn [default].
  destruct (Nat.ltb_spec (length (a ++ [ty; fl] ++ len ++ le_bytes 4 r ++ sid_wire s ++ b)) (length a + NTACE_LEN + NTSID_LEN)).
  { rewrite !length_app, Hlen, length_le_bytes, length_sid_wire in * by done. unfold NTACE_LEN, NTSID_LEN in *. simpl in *. lia. }
  set (h := a ++ [ty; fl] ++ len ++ le_bytes 4 r).
  assert (length h = (length a + NTACE_LEN)%nat) as Hh by (unfold h; rewrite !length_app, Hlen; done).
  replace (a ++ [ty; fl] ++ len ++ le_bytes 4 r ++ sid_wire s ++ b) with (h ++ sid_wire s ++ b)
    by (unfold h; rewrite <- !app_assoc; done).
  rewrite <- Hh, sid2sid16_wire by done. cbn [mbind option_bind].
  destruct (WindowsNfsSID (canon s) n) as [nfs n']. destruct nfs; [done|].
  destruct (applicable m (canon s)) as [g|]; [|done].
  unfold h. rewrite <- !app_assoc. rewrite rd_app, rd_app. cbn [app]. rewrite rd_two. cbn [mbind option_bind].
  change (ty :: fl :: len ++ le_bytes 4 r ++ sid_wire s ++ b) with ([ty; fl] ++ len ++ le_bytes 4 r ++ sid_wire s ++ b).
  replace 4%nat with (length ([ty; fl] ++ len) + 0)%nat at 2 by (rewrite length_app, Hlen; done).
  rewrite (app_assoc [ty; fl]), rd_app, rd_le by exact Hr. done.
Qed.

Fixpoint read_all (l : list entry) (acc : list kauth_ace) (n : ids) : list kauth_ace * ids :=
  match l with
  | [] => (acc, n)
  | e :: l => let '(a, n) := read_entry e n in read_all l (match a with Some a => acc ++ [a] | None => acc end) n
  end.

Lemma rd_len_image e (b : list Z) : wf_entry e -> rd 2 2 (image e ++ b) = Some (Z.of_nat (length (image e))).
Proof.
  intros [Hs _]. pose proof (subs_le _ Hs). unfold image. rewrite length_ace_image by done. unfold ace_image.
  rewrite <- !app_assoc, rd_after2, rd_le; unfold NTACE_LEN, NTSID_LEN; [done|simpl; lia].
Qed.

Lemma get_aces_images l : Forall wf_entry l -> forall (a b : list Z) acc n,
  get_aces m (length l) (a ++ images l ++ b) (length a) acc n
  = Some (inr (read_all l acc n).1, (read_all l acc n).2).
Proof.
  induction 1 as [|e l He _ IH]; intros a b acc n; [done|].
  cbn [length get_aces read_all]. rewrite images_cons, <- app_assoc.
  pose proof (length_image e He) as Hl.
  destruct (Nat.ltb_spec (length a + NTACE_LEN) (length (a ++ image e ++ images l ++ b)));
    [|rewrite !length_app in *; unfold NTACE_LEN in *; lia].
  rewrite get_ace_image by done. cbn [mbind option_bind]. destruct (read_entry e n) as [x n'].
  rewrite rd_app, rd_len_image by done. cbn [mbind option_bind]. rewrite Nat2Z.id, <- length_app, app_assoc. apply IH.
Qed.

(** ** Descriptors *)

Definition wire_of (s : option ntsid) : list Z := match s with Some s => sid_wire s | None => [] end.
Definition offset (b : bool) (k : nat) : list Z := le_bytes 4 (if b then Z.of_nat k else 0).

(** [MS-DTYP] 2.4.6, self-relative, with a list. *)
Definition descriptor (control : Z) (owner group : option ntsid) (l : list entry) : list Z :=
  [1; 0] ++ le_bytes 2 control
  ++ offset (bool_decide (is_Some owner)) NTSECDESC_LEN
  ++ offset (bool_decide (is_Some group)) (NTSECDESC_LEN + length (wire_of owner))
  ++ le_bytes 4 0 ++ le_bytes 4 (Z.of_nat (NTSECDESC_LEN + length (wire_of owner) + length (wire_of group)))
  ++ wire_of owner ++ wire_of group ++ dacl_image l.

Lemma length_dacl_image l : length (dacl_image l) = (NTACL_LEN + length (images l))%nat.
Proof. unfold dacl_image. rewrite !length_app, !length_le_bytes. simpl. lia. Qed.

Definition DACL_FLAGS : Z := Z.lor SE_DACL_PRESENT (Z.lor SE_DACL_AUTO_INHERITED SE_DACL_AUTO_INHERIT_REQ).

Lemma sidlen_image s : wf_sid s -> sidlen 0 (sid_image s) = Some (length (sid_wire s)).
Proof.
  intros Hs. unfold sidlen. pose proof (rd_count_image [] [] s Hs) as E. rewrite app_nil_r in E. simpl app in E. simpl Nat.add in *.
  rewrite E. cbn [mbind option_bind]. by rewrite length_sid_wire.
Qed.

Lemma wire_image s : wf_sid s -> rd_bytes (length (sid_wire s)) 0 (sid_image s) = Some (sid_wire s).
Proof.
  intros Hs. rewrite sid_image_split by done. rewrite rd_bytes_some by (rewrite length_app; lia).
  rewrite drop_0. by rewrite take_app_length.
Qed.

(** What is sent is a descriptor of [MS-DTYP], with the parts that were asked for. *)
Lemma security_descriptor_spec open sel control owner group l rest :
  (forall s, owner = Some s -> wf_sid s) -> (forall s, group = Some s -> wf_sid s) ->
  Forall wf_entry l -> (length l <= 131)%nat ->
  security_descriptor (SetRequest open sel control (sid_image <$> owner) (sid_image <$> group) (Some (dacl_image l ++ rest)))
  = Some (descriptor (Z.lor (Z.lor control SE_SELF_RELATIVE) DACL_FLAGS) owner group l).
Proof.
  intros Ho Hg Hl Hn. pose proof (length_images l Hl) as Hi. unfold security_descriptor. cbn [rq_owner rq_group rq_dacl rq_control].
  assert (match sid_image <$> owner with Some b => sidlen 0 b | None => Some O end = Some (length (wire_of owner))) as ->.
  { destruct owner; simpl; [|done]. by apply sidlen_image, Ho. }
  assert (match sid_image <$> group with Some b => sidlen 0 b | None => Some O end = Some (length (wire_of group))) as ->.
  { destruct group; simpl; [|done]. by apply sidlen_image, Hg. }
  cbn [mbind option_bind].
  assert (rd 2 2 (dacl_image l ++ rest) = Some (Z.of_nat (length (dacl_image l)))) as ->.
  { rewrite length_dacl_image. unfold dacl_image. rewrite <- !app_assoc.
    rewrite rd_after2, rd_le; [done|].
    unfold NTACL_LEN, ROOM in *. simpl. lia. }
  cbn [mbind option_bind]. rewrite Nat2Z.id.
  assert (match sid_image <$> owner with Some b => rd_bytes (length (wire_of owner)) 0 b | None => Some [] end = Some (wire_of owner)) as ->.
  { destruct owner; simpl; [|done]. by apply wire_image, Ho. }
  assert (match sid_image <$> group with Some b => rd_bytes (length (wire_of group)) 0 b | None => Some [] end = Some (wire_of group)) as ->.
  { destruct group; simpl; [|done]. by apply wire_image, Hg. }
  cbn [mbind option_bind]. rewrite rd_bytes_some by (rewrite length_app; lia). rewrite drop_0, take_app_length.
  cbn [mbind option_bind]. unfold descriptor, offset. f_equal. by destruct owner, group.
Qed.

(** *** Reading a descriptor *)

Lemma length_descriptor control owner group l :
  length (descriptor control owner group l)
  = (NTSECDESC_LEN + length (wire_of owner) + length (wire_of group) + (NTACL_LEN + length (images l)))%nat.
Proof.
  unfold descriptor, offset. rewrite !length_app, !length_le_bytes, length_dacl_image. simpl. unfold NTSECDESC_LEN. lia.
Qed.

Lemma sdoffset_at (d : list Z) ty k : Z.of_nat (length d) < 2 ^ 31 ->
  rd 4 (sd_field ty) d = Some (Z.of_nat k) -> (0 < k)%nat -> (k + 8 <= length d)%nat ->
  smb_sdoffset d ty = Some (Some k).
Proof.
  intros Hd Hr Hk Hl. unfold smb_sdoffset. rewrite Hr. cbn [mbind option_bind].
  rewrite !i32_small by lia.
  destruct (Z.ltb_spec (Z.of_nat (length d)) 0); [lia|].
  destruct (Z.ltb_spec (Z.of_nat (length d)) 8); [lia|].
  destruct (Z.leb_spec (Z.of_nat k) 0); [lia|]. destruct (Z.ltb_spec (Z.of_nat (length d)) (Z.of_nat k)); [lia|].
  cbn [orb]. destruct (Z.ltb_spec (Z.of_nat k + 8) 0); [lia|].
  destruct (Z.ltb_spec (Z.of_nat (length d)) (Z.of_nat k + 8)); [lia|]. cbn [orb]. by rewrite Nat2Z.id.
Qed.

Definition small (owner group : option ntsid) (l : list entry) : Prop :=
  (forall s, owner = Some s -> wf_sid s) /\ (forall s, group = Some s -> wf_sid s) /\
  Forall wf_entry l /\ (length l <= 131)%nat.

Lemma small_wire (o : option ntsid) : (forall s, o = Some s -> wf_sid s) -> (length (wire_of o) <= 72)%nat.
Proof.
  intros Ho. destruct o as [s|]; cbn [wire_of]; [|simpl; lia]. rewrite length_sid_wire by auto. pose proof (subs_le s (Ho s eq_refl)).
  unfold NTSID_LEN. lia.
Qed.

Lemma small_length control owner group l : small owner group l ->
  Z.of_nat (length (descriptor control owner group l)) <= 20000.
Proof.
  intros (Ho & Hg & Hl & Hn). rewrite length_descriptor. pose proof (length_images l Hl).
  pose proof (small_wire _ Ho). pose proof (small_wire _ Hg). unfold NTSECDESC_LEN, NTACL_LEN, ROOM in *. lia.
Qed.

(** A field of the header: [x] is its bytes, [pre] and [post] what is around. *)
Lemma rd_field (k : nat) (pre post : list Z) (x : Z) : k = length pre -> 0 <= x < 2 ^ 32 ->
  rd 4 k (pre ++ le_bytes 4 x ++ post) = Some x.
Proof. intros -> Hx. rewrite rd0. by apply rd_le. Qed.

Lemma sdowner_descriptor control s group l : small (Some s) group l ->
  smb_sdoffset (descriptor control (Some s) group l) OWNER_SECURITY_INFORMATION = Some (Some NTSECDESC_LEN).
Proof.
  intros Hsm. pose proof (small_length control _ _ _ Hsm). destruct Hsm as (Ho & _).
  apply sdoffset_at; [lia| |unfold NTSECDESC_LEN; lia|].
  - unfold descriptor, offset. rewrite (app_assoc [1; 0]). by apply rd_field.
  - rewrite length_descriptor. unfold NTSECDESC_LEN, NTACL_LEN. lia.
Qed.

Lemma sdgroup_descriptor control owner s l : small owner (Some s) l ->
  smb_sdoffset (descriptor control owner (Some s) l) GROUP_SECURITY_INFORMATION
  = Some (Some (NTSECDESC_LEN + length (wire_of owner))%nat).
Proof.
  intros Hsm. pose proof (small_length control _ _ _ Hsm). destruct Hsm as (Ho & _).
  pose proof (small_wire _ Ho). apply sdoffset_at; [lia| |unfold NTSECDESC_LEN; lia|].
  - unfold descriptor, offset. rewrite (app_assoc [1; 0]), (app_assoc ([1; 0] ++ _)). apply rd_field; [done|].
    unfold NTSECDESC_LEN. lia.
  - rewrite length_descriptor. unfold NTSECDESC_LEN, NTACL_LEN. lia.
Qed.

Lemma sddacl_descriptor control owner group l : small owner group l ->
  smb_sdoffset (descriptor control owner group l) DACL_SECURITY_INFORMATION
  = Some (Some (NTSECDESC_LEN + length (wire_of owner) + length (wire_of group))%nat).
Proof.
  intros Hsm. pose proof (small_length control _ _ _ Hsm). destruct Hsm as (Ho & Hg & _).
  pose proof (small_wire _ Ho). pose proof (small_wire _ Hg). apply sdoffset_at; [lia| |unfold NTSECDESC_LEN; lia|].
  - unfold descriptor, offset.
    rewrite (app_assoc [1; 0]), (app_assoc ([1; 0] ++ _)), (app_assoc (([1; 0] ++ _) ++ _)), (app_assoc ((([1; 0] ++ _) ++ _) ++ _)).
    apply rd_field; [done|]. unfold NTSECDESC_LEN. lia.
  - rewrite length_descriptor. unfold NTSECDESC_LEN, NTACL_LEN. lia.
Qed.

(** The descriptor up to its list. *)
Lemma descriptor_split control owner group l : exists pre, descriptor control owner group l = pre ++ dacl_image l /\
  length pre = (NTSECDESC_LEN + length (wire_of owner) + length (wire_of group))%nat.
Proof.
  eexists. split; [unfold descriptor; rewrite !app_assoc; reflexivity|].
  unfold offset. rewrite !length_app, !length_le_bytes. simpl. unfold NTSECDESC_LEN. lia.
Qed.

Lemma rd_count_dacl l : Z.of_nat (length l) < 65536 -> rd 2 4 (dacl_image l) = Some (Z.of_nat (length l)).
Proof.
  intros Hl. unfold dacl_image. rewrite (app_assoc [2; 0]).
  set (h := [2; 0] ++ _). change 4%nat with (length h). rewrite rd0. apply rd_le. simpl. lia.
Qed.

Definition read_flags (control : Z) : Z :=
  if Z.land control SE_DACL_PROTECTED =? 0 then Z.ldiff control KAUTH_FILESEC_NO_INHERIT
  else Z.lor control KAUTH_FILESEC_NO_INHERIT.

(** The list of a descriptor is read entry by entry. *)
Lemma get_acl_descriptor control owner group l error n : small owner group l ->
  (length l <= 128)%nat -> 0 <= control < 2 ^ 16 ->
  get_acl m true (Some (descriptor control owner group l)) error n
  = Some (error,
          match (read_all l [] n).1 with
          | [] => None
          | aces => Some (Acl (Z.of_nat (length aces)) (read_flags control) aces)
          end, (read_all l [] n).2).
Proof.
  intros Hsm Hn Hc. unfold get_acl. rewrite sddacl_descriptor by done. cbn [mbind option_bind].
  destruct (descriptor_split control owner group l) as (pre & E & Hp). rewrite <- Hp.
  assert (rd 2 2 (descriptor control owner group l) = Some control) as ->.
  { unfold descriptor. rewrite rd_after2. by apply rd_le. }
  rewrite E, rd_app, rd_count_dacl by lia. cbn [mbind option_bind negb orb]. unfold KAUTH_ACL_MAX_ENTRIES.
  destruct (Z.ltb_spec 128 (Z.of_nat (length l))); [lia|].
  rewrite Nat2Z.id. unfold dacl_image. rewrite !app_assoc.
  set (a := _ ++ [0; 0]). rewrite <- (app_nil_r (images l)).
  replace (length pre + NTACL_LEN)%nat with (length a)
    by (unfold a; rewrite !length_app, !length_le_bytes; unfold NTACL_LEN; simpl; lia).
  destruct Hsm as (_ & _ & Hl & _). rewrite get_aces_images by done. cbn [mbind option_bind].
  by destruct (read_all l [] n) as [[|] ?].
Qed.

(** ** What comes back *)

(** Somebody whose SID the directory translates back. *)
Definition known (g : guid) : Prop :=
  exists s, sid_of m g = inr s /\ wf_sid s /\ canon s = s /\ is_nfs_sid s = false /\ applicable m s = Some g.

Definition RIGHTS : Z := mask rights_table.

(** An entry with the flags and rights there are, and the right to synchronize. *)
Definition normal (a : kauth_ace) : kauth_ace :=
  Ace (ace_applicable a) (Z.land (ace_flags a) 0x7ff)
    (Z.land (if Z.land (ace_flags a) KAUTH_ACE_KINDMASK =? KAUTH_ACE_DENY then ace_rights a
             else Z.lor (ace_rights a) SMB2_SYNCHRONIZE) RIGHTS).

Lemma translate_lor table x a b : bit_table table -> distinct table -> In (a, b) table ->
  translate table (Z.lor x a) = Z.lor (translate table x) b.
Proof.
  intros Ht [N1 _] Hin.
  assert (a = 2 ^ Z.log2 a /\ b = 2 ^ Z.log2 b /\ 0 < a /\ 0 < b) as (Ea & Eb & _)
    by (unfold bit_table in Ht; rewrite List.Forall_forall in Ht; by apply (Ht (a, b))).
  apply Z.bits_inj'. intros n Hn. apply Bool.eq_iff_eq_true. rewrite Z.lor_spec, orb_true_iff, !translate_true by done.
  assert (Z.testbit b n = true <-> Z.log2 b = n) as Eb'.
  { rewrite Eb at 1. rewrite Z.pow2_bits_eqb by apply Z.log2_nonneg. apply Z.eqb_eq. }
  rewrite Eb'. split.
  - intros (a' & b' & Hin' & Hx & E). rewrite Z.lor_spec, orb_true_iff in Hx. destruct Hx as [Hx|Hx]; [left; eauto|].
    rewrite Ea, Z.pow2_bits_eqb, Z.eqb_eq in Hx by apply Z.log2_nonneg.
    right. assert ((a, b) = (a', b')) as [= -> ->]; [|done]. by apply (elem_by_place (fun p => Z.log2 p.1) table).
  - intros [(a' & b' & Hin' & Hx & E)|E].
    + exists a', b'. rewrite Z.lor_spec, Hx. done.
    + exists a, b. rewrite Z.lor_spec, Ea, Z.log2_pow2, Z.pow2_bits_true by apply Z.log2_nonneg.
      rewrite orb_true_r, <- Ea. done.
Qed.

Lemma rights_back a : translate (swap_table rights_table) (wire_rights a) = ace_rights (normal a).
Proof.
  unfold wire_rights, normal. cbn [ace_rights]. destruct (_ =? _).
  - apply translate_back; [apply rights_bits|apply rights_distinct].
  - rewrite <- (translate_lor rights_table _ SMB2_SYNCHRONIZE SMB2_SYNCHRONIZE);
      [|apply rights_bits|apply rights_distinct|simpl; tauto].
    apply translate_back; [apply rights_bits|apply rights_distinct].
Qed.

Lemma kind_back fl ty : type_of_kind fl = Some ty -> kind_of_type ty = Some (Z.land fl KAUTH_ACE_KINDMASK).
Proof.
  unfold type_of_kind.
  destruct (Z.eqb_spec (Z.land fl KAUTH_ACE_KINDMASK) KAUTH_ACE_PERMIT) as [->|_]; [by intros [= <-]|].
  destruct (Z.eqb_spec (Z.land fl KAUTH_ACE_KINDMASK) KAUTH_ACE_DENY) as [->|_]; [by intros [= <-]|].
  destruct (Z.eqb_spec (Z.land fl KAUTH_ACE_KINDMASK) KAUTH_ACE_AUDIT) as [->|_]; [by intros [= <-]|].
  destruct (Z.eqb_spec (Z.land fl KAUTH_ACE_KINDMASK) KAUTH_ACE_ALARM) as [->|_]; [by intros [= <-]|]. done.
Qed.

Lemma flags_back fl :
  Z.lor (Z.land fl KAUTH_ACE_KINDMASK) (translate (swap_table flag_table) (translate flag_table fl)) = Z.land fl 0x7ff.
Proof.
  rewrite translate_back by (apply flags_bits || apply flags_distinct).
  by rewrite <- Z.land_lor_distr_r.
Qed.

Lemma read_resolved a e n : known (ace_applicable a) -> resolve a = Some e -> read_entry e n = (Some (normal a), n).
Proof.
  intros (s & Es & _ & Hc & Hn & Ha) Hr. unfold resolve in Hr. rewrite Es in Hr.
  destruct (type_of_kind (ace_flags a)) as [ty|] eqn:Et; [|done]. injection Hr as <-.
  unfold read_entry, WindowsNfsSID. cbn [e_type e_flags e_rights e_sid]. rewrite Hc, Hn, Ha.
  rewrite (kind_back _ _ Et). unfold from_option, id. rewrite flags_back, rights_back. done.
Qed.

Lemma read_all_resolved aces l : Forall (fun a => known (ace_applicable a)) aces -> mapM resolve aces = Some l ->
  forall acc n, read_all l acc n = (acc ++ map normal aces, n).
Proof.
  revert l. induction aces as [|a aces IH]; intros l Hk Hl acc n.
  - injection Hl as <-. simpl. by rewrite app_nil_r.
  - apply mapM_Some in Hl. inversion Hl as [|? e ? l' He Hl']; subst. apply mapM_Some in Hl'.
    apply Forall_cons_1 in Hk as [Hk Hks]. cbn [read_all]. rewrite (read_resolved a e n Hk He), (IH l' Hks Hl').
    cbn [map]. by rewrite <- app_assoc.
Qed.

(** What a node learns from the entries for NFS of another one. *)
Definition learn (n0 n : ids) : ids :=
  Ids (n_uid n) (n_gid n)
    (if n_nfs_uid n0 =? KAUTH_UID_NONE then n_nfs_uid n else u32 (n_nfs_uid n0))
    (if n_nfs_gid n0 =? KAUTH_GID_NONE then n_nfs_gid n else u32 (n_nfs_gid n0))
    (if n_posixmodes n0 then perms_of (u32 (n_mode n0)) (n_mode n) else n_mode n)
    (n_posixmodes n0 || n_posixmodes n).

Lemma read_all_app l1 l2 acc n :
  read_all (l1 ++ l2) acc n = read_all l2 (read_all l1 acc n).1 (read_all l1 acc n).2.
Proof.
  revert acc n. induction l1 as [|e l1 IH]; intros acc n; simpl; [done|].
  destruct (read_entry e n) as [a n']. apply IH.
Qed.

Lemma read_nfs n0 acc n : read_all (map nfs_entry (nfs_entries n0)) acc n = (acc, learn n0 n).
Proof.
  destruct n as [u g nu ng md px]. unfold nfs_entries, learn. cbn [n_uid n_gid n_nfs_uid n_nfs_gid n_mode n_posixmodes].
  destruct (n_nfs_uid n0 =? KAUTH_UID_NONE), (n_nfs_gid n0 =? KAUTH_GID_NONE), (n_posixmodes n0); reflexivity.
Qed.

(** *** Owner and group *)

Lemma put_sid_spec s : wf_sid s -> put_sid (inr s) = Some (inr (sid_image s)).
Proof.
  intros Hs. pose proof (length_sid_image s Hs) as Hl. unfold put_sid.
  rewrite wr_some by (rewrite length_replicate, Hl; done). cbn [mbind option_bind].
  rewrite splice_full by (by rewrite length_replicate, Hl).
  pose proof (rd_count_image [] [] s Hs) as Hc. rewrite app_nil_r in Hc. cbn [app length Nat.add] in Hc.
  rewrite (smb_sid_endianize_same _ 0 _ (sid_authcount s)); [done|exact Hc| |by apply sid_image_bytes].
  rewrite Hl. pose proof (subs_le s Hs). unfold subs in *. unfold MAXSIDLEN. lia.
Qed.

Definition known_group (g : guid) : Prop :=
  g <> kauth_null_guid /\ exists s, guid2ntsid g = inr s /\ wf_sid s /\ canon s = s /\ ntsid2guid s = inr g.
Definition known_owner (g : guid) : Prop :=
  g <> kauth_null_guid /\ exists s, sid_of m g = inr s /\ wf_sid s /\ canon s = s /\ applicable m s = Some g.

Lemma keep_id owner n : set_id owner (get_id owner n) n = n.
Proof. destruct n, owner; done. Qed.

Lemma default_identifier_keeps owner g n : g <> kauth_null_guid ->
  exists x, default_identifier m owner g n = (g, set_id owner x n).
Proof.
  intros Hg. unfold default_identifier. rewrite bool_decide_false by done.
  destruct (get_id owner n =? KAUTH_UID_NONE); [by eexists|]. exists (get_id owner n). by rewrite keep_id.
Qed.

(** The identifier of the SID that is found at [off]. *)
Lemma identifier_at sec (owner : bool) off s g n :
  smb_sdoffset sec (if owner then OWNER_SECURITY_INFORMATION else GROUP_SECURITY_INFORMATION) = Some (Some off) ->
  smb_sid2sid16 sec off = Some s -> g <> kauth_null_guid ->
  (if owner then applicable m s = Some g else ntsid2guid s = inr g) ->
  exists x, smbfs_set_node_identifier m (Some sec) owner kauth_null_guid n = Some (g, set_id owner x n).
Proof.
  intros Hoff Hs Hg Hk. unfold smbfs_set_node_identifier. rewrite Hoff. cbn [mbind option_bind]. rewrite Hs. cbn [mbind option_bind].
  assert (ntsid2guid s = inr g -> exists x,
    match ntsid2guid s with
    | inl _ => Some (default_identifier m owner kauth_null_guid n)
    | inr g =>
        if is_memberd_tempuuid g && negb (get_id owner n =? KAUTH_UID_NONE) then Some (g, n)
        else match (if owner then ntsid2uid else ntsid2gid) s with
             | inl _ => Some (default_identifier m owner g n)
             | inr x => Some (g, set_id owner x n)
             end
    end = Some (g, set_id owner x n)) as Hgo.
  { intros ->. destruct (_ && _).
    - exists (get_id owner n). by rewrite keep_id.
    - destruct ((if owner then ntsid2uid else ntsid2gid) s); [|by eexists].
      destruct (default_identifier_keeps owner g n Hg) as [x ->]. by eexists. }
  destruct owner; cbn [andb]; [|by apply Hgo].
  unfold applicable in Hk. destruct (sm_maps m && bool_decide (ntwrk_sid m = s)).
  - injection Hk as ->. by eexists.
  - apply Hgo. destruct (ntsid2guid s); congruence.
Qed.

Lemma owner_found control s group l g n : small (Some s) group l -> canon s = s -> applicable m s = Some g ->
  g <> kauth_null_guid ->
  exists x, smbfs_set_node_identifier m (Some (descriptor control (Some s) group l)) true kauth_null_guid n
    = Some (g, set_id true x n).
Proof.
  intros Hsm Hc Ha Hg. apply (identifier_at _ true NTSECDESC_LEN s); [by apply sdowner_descriptor| |done|done].
  destruct Hsm as (Ho & _). unfold descriptor. cbn [wire_of].
  set (w := sid_wire s). rewrite !app_assoc, <- (app_assoc _ (wire_of group)), <- (app_assoc _ w). set (h := _ ++ le_bytes 4 _).
  change NTSECDESC_LEN with (length h). unfold w. rewrite sid2sid16_wire by auto. by rewrite Hc.
Qed.

Lemma group_found control owner s l g n : small owner (Some s) l -> canon s = s -> ntsid2guid s = inr g ->
  g <> kauth_null_guid ->
  exists x, smbfs_set_node_identifier m (Some (descriptor control owner (Some s) l)) false kauth_null_guid n
    = Some (g, set_id false x n).
Proof.
  intros Hsm Hc Ha Hg. apply (identifier_at _ false (NTSECDESC_LEN + length (wire_of owner)) s);
    [by apply sdgroup_descriptor| |done|done].
  destruct Hsm as (_ & Ho & _). unfold descriptor. cbn [wire_of].
  set (w := sid_wire s). rewrite !app_assoc, <- (app_assoc _ w). set (h := _ ++ wire_of owner).
  replace (NTSECDESC_LEN + length (wire_of owner))%nat with (length h)
    by (unfold h, offset; rewrite !length_app, !length_le_bytes; unfold NTSECDESC_LEN; simpl; lia).
  unfold w. rewrite sid2sid16_wire by auto. by rewrite Hc.
Qed.

(** *** The request *)

(** The SID of a descriptor, and who is looked for there, if anybody. *)
Definition is_group (g : option guid) (s : option ntsid) : Prop :=
  match g, s with
  | Some g, Some s => g <> kauth_null_guid /\ wf_sid s /\ canon s = s /\ ntsid2guid s = inr g
  | None, Some s => wf_sid s
  | None, None => True
  | Some _, None => False
  end.
Definition is_owner (g : option guid) (s : option ntsid) : Prop :=
  match g, s with
  | Some g, Some s => g <> kauth_null_guid /\ wf_sid s /\ canon s = s /\ applicable m s = Some g
  | None, Some s => wf_sid s
  | None, None => True
  | Some _, None => False
  end.

Lemma add_group_known v r : (forall g, sv_guuid v = Some g -> known_group g) -> rq_group r = None ->
  exists s open sel, is_group (sv_guuid v) s /\
    add_group v r = Some (inr (SetRequest open sel (rq_control r) (rq_owner r) (sid_image <$> s) (rq_dacl r))).
Proof.
  intros Hk Hr. unfold add_group. destruct (sv_guuid v) as [g|].
  - destruct (Hk g eq_refl) as (Hn & s & E & Hs & Hc & Hg). rewrite bool_decide_false, E, put_sid_spec by done.
    cbn [mbind option_bind]. exists (Some s). do 2 eexists. split; [done|reflexivity].
  - exists None. destruct r as [op sl ct ow gr dc]. cbn in Hr. subst gr. do 2 eexists. split; [done|reflexivity].
Qed.

Lemma add_owner_known v r : (forall g, sv_uuuid v = Some g -> known_owner g) -> rq_owner r = None ->
  exists s open sel, is_owner (sv_uuuid v) s /\
    add_owner m v r = Some (inr (SetRequest open sel (rq_control r) (sid_image <$> s) (rq_group r) (rq_dacl r))).
Proof.
  intros Hk Hr. unfold add_owner. destruct (sv_uuuid v) as [g|].
  - destruct (Hk g eq_refl) as (Hn & s & E & Hs & Hc & Hg). rewrite bool_decide_false, E, put_sid_spec by done.
    cbn [mbind option_bind]. exists (Some s). do 2 eexists. split; [done|reflexivity].
  - exists None. destruct r as [op sl ct ow gr dc]. cbn in Hr. subst ow. do 2 eexists. split; [done|reflexivity].
Qed.

Definition control_of (acl : kauth_acl) : Z :=
  if Z.land (acl_flags acl) KAUTH_FILESEC_NO_INHERIT =? 0 then 0 else SE_DACL_PROTECTED.

(** What setting a list, with an owner and a group or without, asks the server for. *)
Lemma setsecurity_request junk an acl l gg oo n e rq n1 :
  wf_junk junk -> acl_entrycount acl = Z.of_nat (length (acl_ace acl)) -> acl_entrycount acl <= KAUTH_ACL_MAX_ENTRIES ->
  mapM resolve (acl_ace acl) = Some l -> Forall wf_entry l ->
  (forall g, gg = Some g -> known_group g) -> (forall g, oo = Some g -> known_owner g) ->
  smbfs_setsecurity m false junk an (ToSet (Some (Some acl)) gg oo) n = Some (e, Some rq, n1) ->
  exists gs os open sel rest, is_group gg gs /\ is_owner oo os /\
    rq = SetRequest open sel (control_of acl) (sid_image <$> os) (sid_image <$> gs)
           (Some (dacl_image (map nfs_entry (nfs_entries (n_ids n)) ++ l) ++ rest)).
Proof.
  intros Hj Hc Hm Hl Hwf Hg Ho Hset. unfold smbfs_setsecurity in Hset.
  destruct (add_group_known (ToSet (Some (Some acl)) gg oo)
    (SetRequest (Z.lor SMB2_READ_CONTROL SMB2_SYNCHRONIZE) 0 0 None None None) Hg eq_refl) as (gs & op1 & sl1 & Gs & Eg).
  rewrite Eg in Hset. cbn [mbind option_bind] in Hset.
  destruct (add_owner_known (ToSet (Some (Some acl)) gg oo) (SetRequest op1 sl1 0 None (sid_image <$> gs) None) Ho eq_refl)
    as (os & op2 & sl2 & Os & Eo).
  cbn [rq_control rq_owner rq_dacl] in Hset. rewrite Eo in Hset. cbn [mbind option_bind rq_control rq_owner rq_dacl rq_group] in Hset.
  unfold add_acl in Hset. cbn [sv_acl] in Hset.
  destruct (Z.eqb_spec (acl_entrycount acl) KAUTH_FILESEC_NOACL) as [E|_];
    [unfold KAUTH_FILESEC_NOACL, KAUTH_ACL_MAX_ENTRIES in *; lia|].
  destruct (build_dacl_spec junk (n_ids n) acl l Hj Hc Hm Hl Hwf) as (rest & Ed). rewrite Ed in Hset.
  cbn [mbind option_bind rq_control rq_owner rq_dacl rq_group rq_openrights rq_selector] in Hset.
  rewrite Z.eqb_refl in Hset. unfold send_security in Hset. cbn [rq_selector] in Hset.
  destruct (_ =? 0) eqn:Es in Hset; [discriminate Hset|].
  destruct (_ =? 0) in Hset; [|discriminate Hset]. destruct (smbfs_smb_setsec _ _ _) in Hset.
  injection Hset as <- <- <-. do 5 eexists. split; [exact Gs|]. split; [exact Os|].
  f_equal. unfold control_of.
  by destruct (Z.land (acl_flags acl) KAUTH_FILESEC_NO_INHERIT =? 0).
Qed.

Lemma known_resolves aces : Forall (fun a => known (ace_applicable a) /\ is_Some (type_of_kind (ace_flags a))) aces ->
  exists l, mapM resolve aces = Some l /\ Forall wf_entry l.
Proof.
  induction 1 as [|a aces [(s & Es & Hs & _) [ty Et]] _ (l & El & Hl)]; [by exists []|].
  assert (exists e, resolve a = Some e) as [e Ee] by (unfold resolve; rewrite Et, Es; by eexists).
  exists (e :: l). simpl. rewrite Ee. simpl. rewrite El. split; [done|]. apply Forall_cons_2; [|done].
  apply (resolve_wf a); [done|]. intros s' E. congruence.
Qed.

Lemma is_group_wf g s : is_group g s -> forall s', s = Some s' -> wf_sid s'.
Proof. destruct g, s; simpl; try done; [intros (_ & ? & _) s' [= <-]|intros ? s' [= <-]]; done. Qed.
Lemma is_owner_wf g s : is_owner g s -> forall s', s = Some s' -> wf_sid s'.
Proof. destruct g, s; simpl; try done; [intros (_ & ? & _) s' [= <-]|intros ? s' [= <-]]; done. Qed.

Lemma group_step gg gs control os l i : small os gs l -> is_group gg gs ->
  exists x, (if bool_decide (is_Some gg) then
      r ← smbfs_set_node_identifier m (Some (descriptor control os gs l)) false kauth_null_guid i; Some (Some r.1, r.2)
    else Some (None, i)) = Some (gg, set_id false x i).
Proof.
  intros Hsm Hg. destruct gg as [g|], gs as [s|]; try done; simpl in Hg.
  - destruct Hg as (Hn & _ & Hc & Ha). destruct (group_found control os s l g i Hsm Hc Ha Hn) as [x Ex].
    exists x. rewrite bool_decide_true by done. by rewrite Ex.
  - exists (get_id false i). by rewrite keep_id.
  - exists (get_id false i). by rewrite keep_id.
Qed.

Lemma owner_step oo os control gs l i : small os gs l -> is_owner oo os ->
  exists x, (if bool_decide (is_Some oo) then
      r ← smbfs_set_node_identifier m (Some (descriptor control os gs l)) true kauth_null_guid i; Some (Some r.1, r.2)
    else Some (None, i)) = Some (oo, set_id true x i).
Proof.
  intros Hsm Hg. destruct oo as [g|], os as [s|]; try done; simpl in Hg.
  - destruct Hg as (Hn & _ & Hc & Ha). destruct (owner_found control s gs l g i Hsm Hc Ha Hn) as [x Ex].
    exists x. rewrite bool_decide_true by done. by rewrite Ex.
  - exists (get_id true i). by rewrite keep_id.
  - exists (get_id true i). by rewrite keep_id.
Qed.

(** A descriptor with known people is read back by whoever gets it. *)
Lemma getsecurity_descriptor acl l n0 gg gs oo os t n n' :
  is_group gg gs -> is_owner oo os -> acl_ace acl <> [] ->
  (length (nfs_entries n0) + length (acl_ace acl) <= 128)%nat ->
  Forall (fun a => known (ace_applicable a)) (acl_ace acl) ->
  mapM resolve (acl_ace acl) = Some l -> Forall wf_entry l ->
  smbfs_update_acl_cache t n
    = (0, Some (descriptor (Z.lor (Z.lor (control_of acl) SE_SELF_RELATIVE) DACL_FLAGS) os gs
                  (map nfs_entry (nfs_entries n0) ++ l)), n') ->
  exists u g, smbfs_getsecurity m false true t (Wanted true (bool_decide (is_Some gg)) (bool_decide (is_Some oo))) n
    = Some (0, Found (Some (Acl (Z.of_nat (length (acl_ace acl)))
                              (read_flags (Z.lor (Z.lor (control_of acl) SE_SELF_RELATIVE) DACL_FLAGS))
                              (map normal (acl_ace acl)))) gg oo,
            set_ids (learn n0 (set_id true u (set_id false g (n_ids n')))) n').
Proof.
  intros Hg Ho Hne Hn Hk Hl Hwf Ht. unfold smbfs_getsecurity. rewrite Ht.
  cbn [Z.eqb va_guuid_active va_uuuid_active va_acl_active]. change (0 =? EACCES) with false. cbn [mbind option_bind].
  set (c := Z.lor (Z.lor (control_of acl) SE_SELF_RELATIVE) DACL_FLAGS) in *.
  set (es := map nfs_entry (nfs_entries n0) ++ l) in *.
  assert (length (acl_ace acl) = length l) as Hlen by (apply mapM_Some in Hl; by eapply Forall2_length).
  assert (length es = (length (nfs_entries n0) + length (acl_ace acl))%nat) as Hes
    by (unfold es; rewrite length_app, length_map; lia).
  assert (small os gs es) as Hsm.
  { split; [by apply (is_owner_wf oo)|]. split; [by apply (is_group_wf gg)|]. split; [|lia].
    apply Forall_app. split; [apply nfs_entries_wf|done]. }
  destruct (group_step gg gs c os es (n_ids n') Hsm Hg) as [x Ex]. rewrite Ex. cbn [mbind option_bind].
  destruct (owner_step oo os c gs es (set_id false x (n_ids n')) Hsm Ho) as [y Ey]. rewrite Ey. cbn [mbind option_bind].
  exists y, x. rewrite get_acl_descriptor; [|done|lia|].
  2: { unfold c, control_of. destruct (_ =? 0); vm_compute; split; congruence. }
  unfold es. rewrite read_all_app, read_nfs. cbn [fst snd]. rewrite (read_all_resolved _ _ Hk Hl). cbn [fst snd app].
  cbn [mbind option_bind]. destruct (acl_ace acl) as [|a aces]; [done|]. cbn [map]. by rewrite length_cons, length_map.
Qed.

Lemma read_flags_protected acl :
  Z.land (read_flags (Z.lor (Z.lor (control_of acl) SE_SELF_RELATIVE) DACL_FLAGS)) KAUTH_FILESEC_NO_INHERIT
  = Z.land (acl_flags acl) KAUTH_FILESEC_NO_INHERIT.
Proof.
  unfold control_of. destruct (Z.eqb_spec (Z.land (acl_flags acl) KAUTH_FILESEC_NO_INHERIT) 0) as [->|Hne]; [done|].
  transitivity KAUTH_FILESEC_NO_INHERIT; [done|]. symmetry. apply Z.bits_inj'. intros k Hk.
  change KAUTH_FILESEC_NO_INHERIT with (2 ^ 17) in *. rewrite Z.land_spec.
  destruct (decide (k = 17)) as [->|Hk17]; [|rewrite Z.pow2_bits_false by lia; apply andb_false_r].
  rewrite Z.pow2_bits_true by lia. apply Bool.not_false_iff_true. intros E. apply Hne.
  apply Z.eqb_eq. rewrite (land_bit_zero _ (2 ^ 17)) by (done || lia).
  change (Z.log2 (2 ^ 17)) with 17. rewrite andb_true_r in E. by rewrite E.
Qed.

End Layout.
