(* ===== verification/AclTheorems.v ===== *)
(** * Theorems about security descriptors

    Setting and reading back, bounds of every buffer, what the cache gives, changing
    the modes; and where the code does not do what it means to. *)

From S2P Require Import Prelude Acl AclFacts AclLayout.
Import Errno.

Section Theorems.
Context `{Kauth}.
Context (m : smbmount).

(** ** Setting and reading back *)

Lemma set_then_get junk an acl gg oo n e rq n1 :
  wf_junk junk -> acl_entrycount acl = Z.of_nat (length (acl_ace acl)) -> acl_ace acl <> [] ->
  (length (nfs_entries (n_ids n)) + length (acl_ace acl) <= 128)%nat ->
  Forall (fun a => known m (ace_applicable a) /\ is_Some (type_of_kind (ace_flags a))) (acl_ace acl) ->
  (forall g, gg = Some g -> known_group g) -> (forall g, oo = Some g -> known_owner m g) ->
  smbfs_setsecurity m false junk an (ToSet (Some (Some acl)) gg oo) n = Some (e, Some rq, n1) ->
  exists d, security_descriptor rq = Some d /\
    forall t n2 n3, smbfs_update_acl_cache t n2 = (0, Some d, n3) ->
    exists flags u g,
      smbfs_getsecurity m false true t (Wanted true (bool_decide (is_Some gg)) (bool_decide (is_Some oo))) n2
      = Some (0, Found (Some (Acl (acl_entrycount acl) flags (map normal (acl_ace acl)))) gg oo,
              set_ids (learn (n_ids n) (set_id true u (set_id false g (n_ids n3)))) n3)
      /\ Z.land flags KAUTH_FILESEC_NO_INHERIT = Z.land (acl_flags acl) KAUTH_FILESEC_NO_INHERIT.
Proof.
  intros Hj Hc Hne Hn Hk Hg Ho Hset. destruct (known_resolves m _ Hk) as (l & El & Hl).
  destruct (setsecurity_request m junk an acl l gg oo n e rq n1) as (gs & os & open & sel & rest & Gs & Os & ->);
    try done; [unfold KAUTH_ACL_MAX_ENTRIES; lia|].
  eexists. split.
  - apply security_descriptor_spec; [by apply (is_owner_wf m oo)|by apply (is_group_wf gg)| |].
    + apply Forall_app. split; [apply nfs_entries_wf|done].
    + rewrite length_app, length_map. apply mapM_Some, Forall2_length in El. lia.
  - intros t n2 n3 Ht.
    assert (Forall (fun a => known m (ace_applicable a)) (acl_ace acl)) as Hk'
      by (eapply Forall_impl; [|exact Hk]; by intros a [? _]).
    destruct (getsecurity_descriptor m acl l (n_ids n) gg gs oo os t n2 n3) as (u & g & E); try done.
    do 3 eexists. rewrite Hc. split; [exact E|apply read_flags_protected].
Qed.

(** C18: an access control list of people the directory knows, with an owner and a group or without, is laid out
    in a descriptor that everybody who reads it from the server, with any node, finds as it was set: the entries
    in their order with their flags and rights, the right to synchronize added, the protection from inheritance,
    the owner, the group, and the IDs and modes of NFS. *)
Theorem security_roundtrip junk an acl gg oo n e rq n1 :
  wf_junk junk -> acl_entrycount acl = Z.of_nat (length (acl_ace acl)) -> acl_ace acl <> [] ->
  (length (nfs_entries (n_ids n)) + length (acl_ace acl) <= 128)%nat ->
  Forall (fun a => known m (ace_applicable a) /\ is_Some (type_of_kind (ace_flags a))) (acl_ace acl) ->
  (forall g, gg = Some g -> known_group g) -> (forall g, oo = Some g -> known_owner m g) ->
  smbfs_setsecurity m false junk an (ToSet (Some (Some acl)) gg oo) n = Some (e, Some rq, n1) ->
  exists d, security_descriptor rq = Some d /\
    forall t n2 n3, smbfs_update_acl_cache t n2 = (0, Some d, n3) ->
    exists flags u g,
      smbfs_getsecurity m false true t (Wanted true (bool_decide (is_Some gg)) (bool_decide (is_Some oo))) n2
      = Some (0, Found (Some (Acl (acl_entrycount acl) flags (map normal (acl_ace acl)))) gg oo,
              set_ids (learn (n_ids n) (set_id true u (set_id false g (n_ids n3)))) n3)
      /\ Z.land flags KAUTH_FILESEC_NO_INHERIT = Z.land (acl_flags acl) KAUTH_FILESEC_NO_INHERIT.
Proof. apply set_then_get. Qed.

(** Whatever list is set, no store leaves the buffer that was allocated for it: setting always has a result. *)
Theorem setsecurity_in_bounds named junk an v n :
  wf_junk junk ->
  (forall acl, sv_acl v = Some (Some acl) -> acl_entrycount acl = KAUTH_FILESEC_NOACL \/
     0 <= acl_entrycount acl /\ (Z.to_nat (acl_entrycount acl) <= length (acl_ace acl))%nat) ->
  (forall g s, guid2ntsid g = inr s -> wf_sid s) -> wf_sid (ntwrk_sid m) ->
  exists r, smbfs_setsecurity m named junk an v n = Some r.
Proof.
  intros Hj Hv Hg Hm. unfold smbfs_setsecurity. destruct named; [by eexists|].
  assert (forall g s, sid_of m g = inr s -> wf_sid s) as Hs.
  { unfold sid_of. intros g s. destruct (_ && _); [by intros [= <-]|apply Hg]. }
  assert (forall s, (forall x, s = inr x -> wf_sid x) -> exists r, put_sid s = Some r) as Hput.
  { intros [e|s] Hw; [by eexists|]. rewrite put_sid_spec by auto. by eexists. }
  assert (forall r, exists x, add_group v r = Some x) as Hgr.
  { intros r. unfold add_group. destruct (sv_guuid v) as [g|]; [|by eexists]. destruct (bool_decide _); [by eexists|].
    destruct (Hput (guid2ntsid g)) as [[|] ->]; [intros x E; by apply (Hg g)|..]; by eexists. }
  assert (forall r, exists x, add_owner m v r = Some x) as Hor.
  { intros r. unfold add_owner. destruct (sv_uuuid v) as [g|]; [|by eexists]. destruct (bool_decide _); [by eexists|].
    destruct (Hput (sid_of m g)) as [[|] ->]; [intros x E; by apply (Hs g)|..]; by eexists. }
  destruct (Hgr (SetRequest (Z.lor SMB2_READ_CONTROL SMB2_SYNCHRONIZE) 0 0 None None None)) as [[e|r1] ->]; [by eexists|].
  cbn [mbind option_bind]. destruct (Hor r1) as [[e|r2] ->]; [by eexists|]. cbn [mbind option_bind].
  assert (exists x, add_acl m junk (n_ids n) v r2 = Some x) as [[error r3] ->].
  { unfold add_acl. destruct (sv_acl v) as [[acl|]|]; [|by eexists..].
    destruct (Z.eqb_spec (acl_entrycount acl) KAUTH_FILESEC_NOACL) as [|Hne]; [by eexists|].
    destruct (Hv acl eq_refl) as [|[H0 H1]]; [done|].
    destruct (build_dacl_total m junk (n_ids n) acl Hj H0 H1 Hs) as [[|] ->]; by eexists. }
  cbn [mbind option_bind]. destruct (error =? 0); [|by eexists].
  destruct (send_security an 0 r3 n) as [[[? ?] ?] ?]. by eexists.
Qed.

(** ** Reading any bytes *)

Lemma rd_words_safe count off (b : list Z) : (off + 4 * count <= length b)%nat -> exists ws, rd_words count off b = Some ws.
Proof.
  revert off. induction count as [|count IH]; intros off Hl; [by eexists|]. cbn [rd_words].
  rewrite rd_some by lia. cbn [mbind option_bind]. destruct (IH (off + 4)%nat) as [ws ->]; [lia|]. by eexists.
Qed.

Lemma sid2sid16_safe (b : list Z) off : (off + 8 <= length b)%nat -> exists s, smb_sid2sid16 b off = Some s.
Proof.
  intros Hl. unfold smb_sid2sid16. rewrite (rd_some 1 (off + 1)) by lia. cbn [mbind option_bind].
  destruct (KAUTH_NTSID_MAX_AUTHORITIES <? _); [by eexists|]. destruct (Nat.ltb_spec (length b) (off + NTSID_LEN + 4 * Z.to_nat (le_value (take 1 (drop (off + 1) b)))));
    [by eexists|].
  rewrite rd_some, rd_bytes_some by lia. cbn [mbind option_bind].
  edestruct (rd_words_safe (Z.to_nat (le_value (take 1 (drop (off + 1) b)))) (off + NTSID_LEN) b) as [ws ->]; [lia|]. by eexists.
Qed.

Lemma get_ace_safe (b : list Z) off n : (off + 8 < length b)%nat -> exists r, get_ace m b off n = Some r.
Proof.
  intros Hl. unfold get_ace. rewrite (rd_some 1 off) by lia. cbn [mbind option_bind]. destruct (kind_of_type _); [|by eexists].
  destruct (Nat.ltb_spec (length b) (off + NTACE_LEN + NTSID_LEN)); [by eexists|]. unfold NTACE_LEN, NTSID_LEN in *.
  destruct (sid2sid16_safe b (off + 8)) as [s ->]; [lia|]. cbn [mbind option_bind].
  destruct (WindowsNfsSID s n) as [[|] n']; [by eexists|]. destruct (applicable m s); [|by eexists].
  rewrite !rd_some by lia. by eexists.
Qed.

Lemma get_aces_safe count (b : list Z) : forall off acc n, exists r, get_aces m count b off acc n = Some r.
Proof.
  induction count as [|count IH]; intros off acc n; [by eexists|]. cbn [get_aces].
  destruct (Nat.ltb_spec (off + NTACE_LEN) (length b)); [|by eexists].
  destruct (get_ace_safe b off n) as [[e|[a n']] ->]; [done|by eexists|]. cbn [mbind option_bind].
  unfold NTACE_LEN in *. rewrite rd_some by lia. cbn [mbind option_bind]. apply IH.
Qed.

Lemma i32_le x : 0 <= x -> i32 x <= x.
Proof. intros Hx. unfold i32, swrap. pose proof (Z.mod_le (x + 2 ^ (32 - 1)) (2 ^ 32)). lia. Qed.

Ltac none := exists None; split; [done|]; intros ? [=].

(** A part that is found lies in the descriptor. *)
Lemma sdoffset_safe (b : list Z) ty : (NTSECDESC_LEN <= length b)%nat ->
  exists p, smb_sdoffset b ty = Some p /\ forall k, p = Some k -> (k + 8 <= length b)%nat.
Proof.
  intros Hl. unfold smb_sdoffset, NTSECDESC_LEN in *.
  rewrite rd_some by (unfold sd_field; repeat case_match; lia). cbn [mbind option_bind].
  set (off := i32 (le_value _)). pose proof (i32_le (Z.of_nat (length b))). set (len := i32 (Z.of_nat (length b))) in *.
  destruct (Z.ltb_spec len 0); cbn [orb]; [none|]. destruct (Z.ltb_spec len 8); cbn [orb]; [none|].
  destruct (Z.leb_spec off 0); cbn [orb]; [none|]. destruct (Z.ltb_spec len off); cbn [orb]; [none|]. cbn [orb].
  destruct (Z.ltb_spec (i32 (off + 8)) 0); cbn [orb]; [none|]. destruct (Z.ltb_spec len (i32 (off + 8))); cbn [orb]; [none|].
  cbn [orb]. eexists. split; [reflexivity|]. intros k [= <-].
  assert (i32 (off + 8) = off + 8); [|lia].
  pose proof (i32_range (Z.of_nat (length b))) as Hr. fold len in Hr.
  destruct (decide (off + 8 < 2 ^ 31)); [apply i32_small; lia|].
  exfalso. assert (i32 (off + 8) = off + 8 - 2 ^ 32) as E; [|lia].
  unfold i32 at 1, swrap. rewrite (Z.mod_eq _ (2 ^ 32)) by lia.
  replace ((off + 8 + 2 ^ (32 - 1)) `div` 2 ^ 32) with 1; [lia|]. apply Z.div_unique with (off + 8 - 2 ^ 31); lia.
Qed.

Definition whole (d : option (list Z)) : Prop := forall x, d = Some x -> (NTSECDESC_LEN <= length x)%nat.

Lemma get_acl_safe alloc sec e n : whole sec -> exists r, get_acl m alloc sec e n = Some r.
Proof.
  intros Hw. unfold get_acl. destruct sec as [b|]; [|by eexists]. specialize (Hw b eq_refl).
  destruct (sdoffset_safe b DACL_SECURITY_INFORMATION Hw) as ([k|] & -> & Hk); cbn [mbind option_bind]; [|by eexists].
  specialize (Hk k eq_refl). rewrite (rd_some 2 (k + 4)) by lia. cbn [mbind option_bind].
  destruct (_ || _); [by eexists|]. unfold NTSECDESC_LEN in Hw. rewrite rd_some by lia. cbn [mbind option_bind].
  edestruct get_aces_safe as [[[e'|aces] n'] ->]; by eexists.
Qed.

Lemma set_node_identifier_safe sec owner g n : whole sec -> exists r, smbfs_set_node_identifier m sec owner g n = Some r.
Proof.
  intros Hw. unfold smbfs_set_node_identifier. destruct sec as [b|]; [|by eexists]. specialize (Hw b eq_refl).
  edestruct (sdoffset_safe b) as ([k|] & -> & Hk); [done|..]; cbn [mbind option_bind]; [|by eexists].
  destruct (sid2sid16_safe b k) as [s ->]; [by apply Hk|]. cbn [mbind option_bind].
  destruct (_ && _); [by eexists|]. destruct (ntsid2guid s); [by eexists|]. destruct (_ && _); [by eexists|].
  destruct ((if owner then ntsid2uid else ntsid2gid) s); by eexists.
Qed.

Lemma acl_done_whole mem c : whole (acl_cache_data c) ->
  whole (acl_done mem c).1.2 /\ whole (acl_cache_data (acl_done mem c).2).
Proof.
  intros Hw. unfold acl_done. destruct (acl_cache_data c) as [d|] eqn:E; [|done].
  destruct (acl_error c =? 0); [destruct mem|]; simpl; rewrite ?E; done.
Qed.

Lemma update_whole t n : whole (acl_cache_data (n_cache n)) -> whole (mt_getsec t).2 ->
  whole (smbfs_update_acl_cache t n).1.2 /\ whole (acl_cache_data (n_cache (smbfs_update_acl_cache t n).2)).
Proof.
  intros Hc Ht. unfold smbfs_update_acl_cache.
  match goal with |- context [if ?b then acl_done _ _ else ?x] => set (r := if b then acl_done (mt_mem t) (n_cache n) else x) end.
  assert (whole r.1.2 /\ whole (acl_cache_data r.2)) as Hr.
  { unfold r. destruct (_ && _); [by apply acl_done_whole|]. destruct (fetch t) as [e d] eqn:Ef.
    assert (whole d) as Hd.
    { unfold fetch in Ef. destruct (_ =? 0); [|by injection Ef as <- <-]. destruct (mt_getsec t). by injection Ef as <- <-. }
    destruct (_ && _); by apply acl_done_whole. }
  by destruct r as [[e d] c].
Qed.

(** C19: whatever bytes the server sends as a descriptor, if they are long enough for its header, which the parser
    of the reply checks, reading the owner, the group and the list stays inside of them: reading always has a result,
    and the cache is left with such a descriptor or none. *)
Theorem getsecurity_in_bounds named alloc t v n :
  whole (acl_cache_data (n_cache n)) -> whole (mt_getsec t).2 ->
  exists e f n', smbfs_getsecurity m named alloc t v n = Some (e, f, n') /\ whole (acl_cache_data (n_cache n')).
Proof.
  intros Hc Ht. unfold smbfs_getsecurity. destruct named; [by eexists _, _, _|].
  destruct (update_whole t n Hc Ht) as [Hs Hc']. destruct (smbfs_update_acl_cache t n) as [[e sec] n1].
  cbn [fst snd] in Hs, Hc'.
  assert (whole (if e =? 0 then sec else None)) as Hs' by (by destruct (e =? 0)).
  set (sec' := if e =? 0 then sec else None) in *.
  assert (forall owner i, exists r, (r ← smbfs_set_node_identifier m sec' owner kauth_null_guid i; Some (Some r.1, r.2)) = Some r) as Hid.
  { intros owner i. destruct (set_node_identifier_safe sec' owner kauth_null_guid i Hs') as [r ->]. by eexists. }
  assert (forall b owner i, exists r, (if b : bool then r ← smbfs_set_node_identifier m sec' owner kauth_null_guid i; Some (Some r.1, r.2)
                                     else Some (None, i)) = Some r) as Hif by (intros [|]; [done|by eexists]).
  destruct (Hif (va_guuid_active v) false (n_ids n1)) as [[gu i] ->]. cbn [mbind option_bind].
  destruct (Hif (va_uuuid_active v) true i) as [[uu i'] ->]. cbn [mbind option_bind].
  set (e' := if e =? EACCES then 0 else e).
  assert (exists r, (if va_acl_active v then get_acl m alloc sec' e' i' else Some (e', None, i')) = Some r) as [[[e2 acl] i2] ->].
  { destruct (va_acl_active v); [by apply get_acl_safe|by eexists]. }
  cbn [mbind option_bind]. by eexists _, _, _.
Qed.

(** ** Changing the modes *)

Lemma kindmask_kept fl : Z.land (Z.land fl 0x7ff) KAUTH_ACE_KINDMASK = Z.land fl KAUTH_ACE_KINDMASK.
Proof. by rewrite <- Z.land_assoc. Qed.

Lemma type_of_kind_kept fl : type_of_kind (Z.land fl 0x7ff) = type_of_kind fl.
Proof. unfold type_of_kind. by rewrite kindmask_kept. Qed.

Lemma normal_idem a : normal (normal a) = normal a.
Proof.
  unfold normal at 1. cbn [ace_applicable ace_flags ace_rights normal]. unfold normal. f_equal.
  - by rewrite <- Z.land_assoc.
  - cbn [ace_flags ace_rights]. rewrite kindmask_kept. destruct (_ =? _); [by rewrite <- Z.land_assoc|].
    apply Z.bits_inj'. intros k Hk. rewrite !Z.land_spec, !Z.lor_spec, !Z.land_spec, !Z.lor_spec.
    destruct (Z.testbit (ace_rights a) k), (Z.testbit SMB2_SYNCHRONIZE k), (Z.testbit RIGHTS k); done.
Qed.

Lemma perms_of_land x old : Z.land (perms_of x old) ACCESSPERMS = Z.land x ACCESSPERMS.
Proof.
  unfold perms_of. apply Z.bits_inj'. intros k Hk. rewrite !Z.land_spec, Z.lor_spec, Z.ldiff_spec, Z.land_spec.
  destruct (Z.testbit x k), (Z.testbit old k), (Z.testbit ACCESSPERMS k); done.
Qed.

Lemma u32_perms x : Z.land (u32 x) ACCESSPERMS = Z.land x ACCESSPERMS.
Proof.
  unfold u32. rewrite <- Z.land_ones by lia. rewrite <- Z.land_assoc. by f_equal.
Qed.

(** When the modes of a file are changed, the list that goes to the server holds the entries that were there,
    if the directory knows the people in them, and the new modes: who reads it finds these entries and these modes. *)
Theorem chmod_keeps_entries junk t an acl l n0 gs os vamode n nu rq n1 :
  wf_junk junk -> acl_ace acl <> [] -> (length (acl_ace acl) + 3 <= 128)%nat ->
  Forall (fun a => known m (ace_applicable a) /\ is_Some (type_of_kind (ace_flags a))) (acl_ace acl) ->
  is_group None gs -> is_owner m None os -> mapM (resolve m) (acl_ace acl) = Some l ->
  smbfs_update_acl_cache t n
    = (0, Some (descriptor (Z.lor (Z.lor (control_of acl) SE_SELF_RELATIVE) DACL_FLAGS) os gs
                  (map nfs_entry (nfs_entries n0) ++ l)), nu) ->
  smbfs_set_ace_modes m false true junk t an vamode n = Some (0, Some rq, n1) ->
  exists d, security_descriptor rq = Some d /\
    forall t2 n2 n3, smbfs_update_acl_cache t2 n2 = (0, Some d, n3) ->
    exists flags n4,
      smbfs_getsecurity m false true t2 (Wanted true false false) n2
      = Some (0, Found (Some (Acl (Z.of_nat (length (acl_ace acl))) flags (map normal (acl_ace acl)))) None None, n4)
      /\ n_posixmodes (n_ids n4) = true /\ Z.land (n_mode (n_ids n4)) ACCESSPERMS = Z.land vamode ACCESSPERMS.
Proof.
  intros Hj Hne Hn Hk Hg Ho El Hu Hset. pose proof (length_nfs_entries n0) as H3.
  destruct (known_resolves m _ Hk) as (l' & El' & Hl). rewrite El in El'. injection El' as <-.
  assert (Forall (fun a => known m (ace_applicable a)) (acl_ace acl)) as Hk'
    by (eapply Forall_impl; [|exact Hk]; by intros a [? _]).
  destruct (getsecurity_descriptor m acl l n0 None gs None os t n nu) as (u & g & E); try done; [lia|].
  unfold smbfs_set_ace_modes in Hset. rewrite !bool_decide_false in E by (by intros []). rewrite E in Hset.
  cbn [mbind option_bind va_acl negb] in Hset. change (0 =? 0) with true in Hset. cbn [negb] in Hset.
  destruct (smbfs_setsecurity _ _ _ _ _ _) as [[[e sent] nx]|] eqn:Es; [|done]. cbn [mbind option_bind] in Hset.
  injection Hset as -> -> <-. eapply set_then_get in Es as (d & Ed & Hd); cbn [acl_ace acl_entrycount acl_flags] in *.
  2: done. 2: by rewrite length_map. 2: by destruct (acl_ace acl).
  2: { rewrite length_map. match goal with |- context [nfs_entries ?x] => pose proof (length_nfs_entries x) end. lia. }
  2: { apply Forall_map. eapply Forall_impl; [|exact Hk]. intros a [Ha Ht]. cbn. by rewrite type_of_kind_kept. }
  2, 3: done.
  exists d. split; [done|]. intros t2 n2 n3 H2. destruct (Hd t2 n2 n3 H2) as (fl & u' & g' & E2 & _).
  rewrite !bool_decide_false, map_map, (map_ext _ normal) in E2 by (apply normal_idem || by intros []).
  exists fl. eexists. split; [exact E2|]. split; [done|]. cbn. rewrite perms_of_land, u32_perms. apply perms_of_land.
Qed.

End Theorems.

(** ** The cache *)

Lemma attrtimeo_max wall mtime : 2 <= attrtimeo wall mtime <= 30.
Proof. unfold attrtimeo. destruct (Z.ltb_spec (Z.quot (wall - mtime) 10) 2); [lia|]. destruct (Z.ltb_spec 30 (Z.quot (wall - mtime) 10)); lia. Qed.

Lemma acl_done_found mem c d c' : acl_done mem c = (0, Some d, c') -> acl_cache_data c = Some d /\ acl_error c = 0.
Proof.
  unfold acl_done. destruct (acl_cache_data c) as [d'|]; [|by intros [=]].
  destruct (Z.eqb_spec (acl_error c) 0) as [->|]; [|by intros [=]]. destruct mem; intros [= -> _]; done.
Qed.

(** A descriptor that is returned is the answer of the server to this call, or it was cached, and then it is
    no older than thirty seconds, or the share is being reconnected, or the server did not answer in time. *)
Theorem acl_cache_fresh t n d n' :
  smbfs_update_acl_cache t n = (0, Some d, n') ->
  mt_getsec t = (0, Some d) \/
  acl_cache_data (n_cache n) = Some d /\
    (mt_up' t - acl_cache_timer (n_cache n) <= 30
     \/ mt_reconnecting t = true \/ (fetch t).1 = ETIMEDOUT).
Proof.
  unfold smbfs_update_acl_cache. set (c := n_cache n).
  match goal with |- context [if ?b then acl_done _ _ else ?x] => set (r := if b then acl_done (mt_mem t) c else x) end.
  destruct r as [[e sec] c'] eqn:Er. intros [= -> -> <-]. unfold r in Er.
  destruct (_ && _) eqn:Eb in Er.
  - apply acl_done_found in Er as [Ed _]. right. split; [done|]. apply andb_true_iff in Eb as [_ Eb].
    unfold still_good in Eb. apply orb_true_iff in Eb as [Eb|Eb].
    + left. apply Z.leb_le in Eb. pose proof (attrtimeo_max (mt_wall' t) (n_mtime n)). lia.
    + right. left. by apply andb_true_iff in Eb as [_ ?].
  - destruct (fetch t) as [e d'] eqn:Ef. destruct (Z.eqb_spec e ETIMEDOUT) as [->|]; cbn [andb] in Er.
    + destruct (negb _); apply acl_done_found in Er as [Ed Ee]; [|done]. right. auto.
    + apply acl_done_found in Er as [Ed Ee]. cbn in Ed, Ee. subst. left. unfold fetch in Ef.
      destruct (mt_getsec t) as [e2 d2]. destruct (Z.eqb_spec (if mt_smb2 t then 0 else mt_tmpopen t) 0) as [|Hne]; [|congruence].
      injection Ef as Ef ->. by subst.
Qed.

(** ** The list of a new file *)

Definition direct_aces (direct : bool) (aces : list kauth_ace) : list kauth_ace :=
  if direct then filter (fun a => Z.land (ace_flags a) KAUTH_ACE_INHERITED = 0) aces else aces.

Lemma direct_aces_cons direct a aces :
  direct_aces direct (a :: aces)
  = if direct && negb (Z.land (ace_flags a) KAUTH_ACE_INHERITED =? 0) then direct_aces direct aces
    else a :: direct_aces direct aces.
Proof.
  unfold direct_aces. destruct direct; cbn [andb]; [|done]. rewrite filter_cons.
  destruct (Z.eqb_spec (Z.land (ace_flags a) KAUTH_ACE_INHERITED) 0); [by rewrite decide_True|by rewrite decide_False].
Qed.

Lemma length_direct_aces direct aces : (length (direct_aces direct aces) <= length aces)%nat.
Proof. destruct direct; simpl; [apply length_filter|done]. Qed.

Lemma compose_loop_spec direct aces : forall allocated new more,
  Z.of_nat (length new + length aces) <= allocated ->
  compose_loop direct (length aces) (aces ++ more) allocated new = Some (new ++ direct_aces direct aces).
Proof.
  induction aces as [|a aces IH]; intros allocated new more Hl; cbn [length app compose_loop].
  { destruct direct; simpl; by rewrite app_nil_r. }
  rewrite length_cons in Hl. rewrite direct_aces_cons. destruct (_ && _).
  - apply IH. lia.
  - destruct (Z.leb_spec allocated (Z.of_nat (length new))); [lia|].
    rewrite IH by (rewrite length_app; simpl; lia). by rewrite <- app_assoc.
Qed.

(** The list of a new file is the entries that were asked for, without those that claim to be inherited, followed
    by those the server gave it; it has the flags of the server; and more entries than a list may have are refused. *)
Theorem compose_create_acl_correct acl svr :
  acl_entrycount acl = Z.of_nat (length (acl_ace acl)) -> acl_entrycount svr = Z.of_nat (length (acl_ace svr)) ->
  Z.of_nat (length (acl_ace acl) + length (acl_ace svr)) < 2 ^ 31 ->
  smbfs_compose_create_acl true acl svr
  = Some (if decide (length (acl_ace acl) + length (acl_ace svr) <= 128)%nat then
            let new := filter (fun a => Z.land (ace_flags a) KAUTH_ACE_INHERITED = 0) (acl_ace acl) ++ acl_ace svr in
            inr (Acl (Z.of_nat (length new)) (acl_flags svr) new)
          else inl ENOMEM).
Proof.
  intros Ea Es Hl. unfold smbfs_compose_create_acl. rewrite Ea, Es, !Nat2Z.id, <- Nat2Z.inj_add.
  rewrite u32_small, i32_small by lia. cbn [negb orb].
  destruct (Z.ltb_spec (Z.of_nat (length (acl_ace acl) + length (acl_ace svr))) 0); [lia|]. cbn [orb]. unfold KAUTH_ACL_MAX_ENTRIES.
  destruct (Z.ltb_spec 128 (Z.of_nat (length (acl_ace acl) + length (acl_ace svr)))).
  { by rewrite decide_False by lia. }
  rewrite decide_True by lia. pose proof (length_direct_aces true (acl_ace acl)).
  pose proof (compose_loop_spec true (acl_ace acl) (Z.of_nat (length (acl_ace acl) + length (acl_ace svr))) [] []) as E1.
  rewrite app_nil_r in E1. rewrite E1 by (simpl; lia). cbn [mbind option_bind app].
  pose proof (compose_loop_spec false (acl_ace svr) (Z.of_nat (length (acl_ace acl) + length (acl_ace svr)))
                (direct_aces true (acl_ace acl)) []) as E2.
  rewrite app_nil_r in E2. rewrite E2 by lia. done.
Qed.
