(* ===== verification/AclDemo.v ===== *)
(** * Security descriptors at work

    A small directory, the theorems at concrete inputs, and inputs at which the code
    does not do what it means to. *)

From S2P Require Import Prelude Acl AclFacts AclLayout AclTheorems.
Import Errno.

(** ** A directory *)

Definition demo_sid (k : Z) : ntsid := Ntsid 1 2 [0; 0; 0; 0; 0; 5] (21 :: u8 k :: replicate 14 0).
Definition demo_guid (k : Z) : guid := k :: replicate 15 7.

(** People below 90 are known. *)
#[export] Instance demo_kauth : Kauth := {|
  ntsid2guid s := match sid_authorities s with 21 :: k :: _ => if k <? 90 then inr (demo_guid k) else inl ENOENT | _ => inl ENOENT end;
  guid2ntsid g := match g with k :: _ => if k <? 90 then inr (demo_sid k) else inl ENOENT | [] => inl ENOENT end;
  ntsid2uid s := match sid_authorities s with 21 :: k :: _ => inr (500 + k) | _ => inl ENOENT end;
  ntsid2gid s := match sid_authorities s with 21 :: k :: _ => inr (20 + k) | _ => inl ENOENT end;
  uid2guid u := inr (demo_guid 80);
  gid2guid g := inr (demo_guid 81) |}.

Definition demo_mount : smbmount := Mount true (demo_sid 7) (demo_guid 70) 501 20.

Definition demo_node : smbnode :=
  Node (Ids KAUTH_UID_NONE KAUTH_GID_NONE KAUTH_UID_NONE KAUTH_GID_NONE 0x1ed true) (Cache None 0 0) 1000 (1, 1).

Definition demo_junk : list Z := replicate 13 0xdeadbeef.

(** Read and write for somebody, and nothing for somebody else. *)
Definition demo_acl : kauth_acl := Acl 2 KAUTH_FILESEC_NO_INHERIT [Ace (demo_guid 1) 0x61 0x6; Ace (demo_guid 70) 0x12 0x2].

Definition demo_answer : answer := Answer true None 0 0 0 None 2000000000.

(** The server has the descriptor [d]; nothing is cached. *)
Definition demo_meet (d : list Z) : meet := Meet true false 2000000000 5000 2000000000 5000 0 (0, Some d) true.

Lemma demo_sid_wf k : wf_sid (demo_sid k).
Proof.
  assert (0 <= u8 k < 256) by apply u8_byte.
  unfold wf_sid, demo_sid, is_word, is_byte. cbn [sid_kind sid_authcount sid_authority sid_authorities].
  repeat (split; [first [lia | done | repeat constructor; lia]|]). repeat constructor; lia.
Qed.

Lemma demo_junk_wf : wf_junk demo_junk.
Proof. split; [done|]. apply Forall_replicate. unfold is_word. lia. Qed.

Lemma demo_known k : 0 <= k < 90 -> k <> 7 -> known demo_mount (demo_guid k) \/ k = 70.
Proof.
  intros Hk H7. destruct (decide (k = 70)); [auto|]. left. exists (demo_sid k).
  assert (u8 k = k) as E by (apply Z.mod_small; lia).
  split; [|split; [apply demo_sid_wf|split; [done|split; [done|]]]].
  - unfold sid_of. cbn [sm_maps demo_mount andb sm_uuid]. rewrite bool_decide_false by (unfold demo_guid; congruence).
    cbn [guid2ntsid demo_kauth demo_guid]. destruct (Z.ltb_spec k 90); [done|lia].
  - unfold applicable. cbn [sm_maps demo_mount andb ntwrk_sid]. rewrite bool_decide_false.
    + cbn [ntsid2guid demo_kauth demo_sid sid_authorities]. rewrite E. destruct (Z.ltb_spec k 90); [done|lia].
    + unfold demo_sid. rewrite E. injection 1. change (u8 7) with 7. lia.
Qed.

Lemma demo_known_70 : known demo_mount (demo_guid 70).
Proof. exists (demo_sid 7). split; [done|split; [apply demo_sid_wf|done]]. Qed.

Lemma demo_known_1 : known demo_mount (demo_guid 1).
Proof. destruct (demo_known 1); [lia|lia|done|lia]. Qed.

Lemma demo_acl_known :
  Forall (fun a => known demo_mount (ace_applicable a) /\ is_Some (type_of_kind (ace_flags a))) (acl_ace demo_acl).
Proof.
  apply Forall_cons_2; [split; [apply demo_known_1|by eexists]|].
  apply Forall_cons_2; [split; [apply demo_known_70|by eexists]|]. constructor.
Qed.

Lemma demo_group : known_group (demo_guid 2).
Proof. split; [done|]. exists (demo_sid 2). split; [done|split; [apply demo_sid_wf|done]]. Qed.

Lemma demo_owner : known_owner demo_mount (demo_guid 70).
Proof. split; [done|]. exists (demo_sid 7). split; [done|split; [apply demo_sid_wf|done]]. Qed.

(** What was asked of the server. *)
Definition demo_sent : option set_request :=
  '(_, rq, _) ← smbfs_setsecurity demo_mount false demo_junk demo_answer
                  (ToSet (Some (Some demo_acl)) (Some (demo_guid 2)) (Some (demo_guid 70))) demo_node; rq.

(** ** The theorems at these inputs *)

Lemma security_roundtrip_witness :
  exists e rq n1 d, demo_sent = Some rq /\ security_descriptor rq = Some d /\
    smbfs_setsecurity demo_mount false demo_junk demo_answer
      (ToSet (Some (Some demo_acl)) (Some (demo_guid 2)) (Some (demo_guid 70))) demo_node = Some (e, Some rq, n1) /\
    exists flags n4,
      smbfs_getsecurity demo_mount false true (demo_meet d) (Wanted true true true) demo_node
      = Some (0, Found (Some (Acl 2 flags (map normal (acl_ace demo_acl)))) (Some (demo_guid 2)) (Some (demo_guid 70)), n4).
Proof.
  destruct (smbfs_setsecurity demo_mount false demo_junk demo_answer
    (ToSet (Some (Some demo_acl)) (Some (demo_guid 2)) (Some (demo_guid 70))) demo_node) as [[[e [rq|]] n1]|] eqn:E;
    [|exfalso; vm_compute in E; discriminate E..].
  destruct (security_roundtrip demo_mount demo_junk demo_answer demo_acl (Some (demo_guid 2)) (Some (demo_guid 70))
              demo_node e rq n1) as (d & Ed & Hd);
    [exact demo_junk_wf|reflexivity|discriminate|apply Nat.leb_le; reflexivity|exact demo_acl_known
    |intros g [= <-]; exact demo_group|intros g [= <-]; exact demo_owner|exact E|].
  exists e, rq, n1, d. split; [unfold demo_sent; rewrite E; reflexivity|]. split; [exact Ed|]. split; [reflexivity|].
  destruct (Hd (demo_meet d) demo_node (set_cache (Cache (Some d) 5000 0) demo_node)) as (fl & u & g & E2 & _); [reflexivity|].
  exists fl. eexists. exact E2.
Defined.

Lemma setsecurity_in_bounds_witness :
  exists r, smbfs_setsecurity demo_mount false demo_junk demo_answer (ToSet (Some (Some demo_acl)) None None) demo_node = Some r.
Proof.
  apply setsecurity_in_bounds; [exact demo_junk_wf| | |exact (demo_sid_wf 7)].
  - intros acl [= <-]. right. split; [discriminate|]. apply Nat.leb_le. reflexivity.
  - intros [|k g] s; [discriminate|]. cbn [guid2ntsid demo_kauth]. destruct (k <? 90); [|discriminate].
    intros [= <-]. apply demo_sid_wf.
Defined.

Lemma getsecurity_in_bounds_witness :
  exists e f n', smbfs_getsecurity demo_mount false true (demo_meet (replicate 24 255)) (Wanted true true true) demo_node
                 = Some (e, f, n') /\ whole (acl_cache_data (n_cache n')).
Proof.
  apply getsecurity_in_bounds; [intros x; discriminate|]. intros x [= <-]. apply Nat.leb_le. reflexivity.
Defined.

Definition demo_entries : list entry := default [] (mapM (resolve demo_mount) (acl_ace demo_acl)).
Definition demo_descriptor : list Z :=
  descriptor (Z.lor (Z.lor (control_of demo_acl) SE_SELF_RELATIVE) DACL_FLAGS) (Some (demo_sid 1)) (Some (demo_sid 2))
    (map nfs_entry (nfs_entries (n_ids demo_node)) ++ demo_entries).

Lemma chmod_keeps_entries_witness :
  exists rq n1 d, smbfs_set_ace_modes demo_mount false true demo_junk (demo_meet demo_descriptor) demo_answer 0x1a0 demo_node
                  = Some (0, Some rq, n1) /\ security_descriptor rq = Some d /\
    exists flags n4, smbfs_getsecurity demo_mount false true (demo_meet d) (Wanted true false false) demo_node
      = Some (0, Found (Some (Acl 2 flags (map normal (acl_ace demo_acl)))) None None, n4)
      /\ Z.land (n_mode (n_ids n4)) ACCESSPERMS = 0x1a0.
Proof.
  destruct (smbfs_set_ace_modes demo_mount false true demo_junk (demo_meet demo_descriptor) demo_answer 0x1a0 demo_node)
    as [[[[|p|p] [rq|]] n1]|] eqn:E; [|exfalso; vm_compute in E; discriminate E..].
  destruct (chmod_keeps_entries demo_mount demo_junk (demo_meet demo_descriptor) demo_answer demo_acl demo_entries
              (n_ids demo_node) (Some (demo_sid 2)) (Some (demo_sid 1)) 0x1a0 demo_node
              (set_cache (Cache (Some demo_descriptor) 5000 0) demo_node) rq n1) as (d & Ed & Hd);
    [exact demo_junk_wf|discriminate|apply Nat.leb_le; reflexivity|exact demo_acl_known|apply demo_sid_wf|apply demo_sid_wf
    |reflexivity|reflexivity|exact E|].
  exists rq, n1, d. split; [reflexivity|]. split; [exact Ed|].
  destruct (Hd (demo_meet d) demo_node (set_cache (Cache (Some d) 5000 0) demo_node)) as (fl & n4 & E2 & _ & Em); [reflexivity|].
  exists fl, n4. split; [exact E2|exact Em].
Defined.

Lemma acl_cache_fresh_witness :
  mt_getsec (demo_meet demo_descriptor) = (0, Some demo_descriptor) \/
  acl_cache_data (n_cache demo_node) = Some demo_descriptor /\
    (mt_up' (demo_meet demo_descriptor) - acl_cache_timer (n_cache demo_node) <= 30
     \/ mt_reconnecting (demo_meet demo_descriptor) = true \/ (fetch (demo_meet demo_descriptor)).1 = ETIMEDOUT).
Proof.
  apply (acl_cache_fresh _ _ demo_descriptor (set_cache (Cache (Some demo_descriptor) 5000 0) demo_node)). reflexivity.
Defined.

Lemma compose_create_acl_correct_witness :
  smbfs_compose_create_acl true demo_acl demo_acl
  = Some (inr (Acl 3 KAUTH_FILESEC_NO_INHERIT (Ace (demo_guid 1) 0x61 0x6 :: acl_ace demo_acl))).
Proof. rewrite compose_create_acl_correct; [reflexivity|reflexivity|reflexivity|reflexivity]. Defined.

(** ** Where the code does not do what it means to *)

(** When a list is set on an open file, the new descriptor is stamped with the time of day, but its age is measured
    with the time since the start of the machine: it is never looked up again, whatever the server has. *)
Theorem cached_list_never_expires an fid n d t :
  fid <> 0 -> an_sec an = Some d -> d <> [] -> mt_mem t = true ->
  mt_up t <= an_wall an -> mt_up' t <= an_wall an ->
  let n1 := (smb2fs_smb_security_set an fid n).2 in smbfs_update_acl_cache t n1 = (0, Some d, n1).
Proof.
  intros Hf Hd Hne Hm H1 H2. unfold smb2fs_smb_security_set. destruct (Z.eqb_spec fid 0); [done|]. rewrite Hd.
  destruct d as [|b d]; [done|]. unfold smbfs_update_acl_cache. cbn [snd n_cache set_cache n_mtime acl_cache_timer].
  unfold still_good. cbn [acl_cache_timer].
  pose proof (attrtimeo_max (mt_wall t) (n_mtime n)). pose proof (attrtimeo_max (mt_wall' t) (n_mtime n)).
  destruct (Z.leb_spec (mt_up t - an_wall an) (attrtimeo (mt_wall t) (n_mtime n))); [|lia].
  destruct (Z.leb_spec (mt_up' t - an_wall an) (attrtimeo (mt_wall' t) (n_mtime n))); [|lia].
  cbn [orb andb acl_done acl_cache_data acl_error]. by rewrite Hm.
Qed.

Lemma cached_list_never_expires_witness :
  smbfs_update_acl_cache (Meet true false 2100000000 100005000 2100000000 100005000 0 (0, Some demo_descriptor) true)
    (smb2fs_smb_security_set (Answer true (Some 3) 0 0 0 (Some [1]) 2000000000) 3 demo_node).2
  = (0, Some [1], (smb2fs_smb_security_set (Answer true (Some 3) 0 0 0 (Some [1]) 2000000000) 3 demo_node).2).
Proof. apply cached_list_never_expires; (discriminate || reflexivity). Defined.

(** That the server refuses to show the list is cached.  If it then does not answer in time, the refusal, which
    callers ignore, becomes a bad reply, which they report. *)
Theorem refusal_becomes_bad_reply t n d :
  acl_cache_data (n_cache n) = None -> acl_error (n_cache n) = EACCES -> acl_cache_timer (n_cache n) <> 0 ->
  mt_reconnecting t = false -> mt_smb2 t = true -> mt_getsec t = (ETIMEDOUT, d) ->
  30 < mt_up t - acl_cache_timer (n_cache n) ->
  (smbfs_update_acl_cache t n).1 = (EBADRPC, None).
Proof.
  intros Hd He Ht Hr H2 Hg Hold. unfold smbfs_update_acl_cache, fetch, still_good. rewrite Hr, H2, Hg, andb_false_r.
  pose proof (attrtimeo_max (mt_wall t) (n_mtime n)).
  destruct (Z.leb_spec (mt_up t - acl_cache_timer (n_cache n)) (attrtimeo (mt_wall t) (n_mtime n))); [lia|].
  cbn [orb andb Z.eqb]. destruct (Z.eqb_spec (acl_cache_timer (n_cache n)) 0); [done|].
  destruct d; cbn [andb negb Z.eqb]; cbn -[acl_done]; unfold acl_done; cbn [acl_cache_data acl_error]; by rewrite Hd.
Qed.

Lemma refusal_becomes_bad_reply_witness :
  (smbfs_update_acl_cache (Meet true false 2000000000 5000 2000000000 5000 0 (ETIMEDOUT, None) true)
     (set_cache (Cache None 100 EACCES) demo_node)).1 = (EBADRPC, None).
Proof. apply (refusal_becomes_bad_reply _ _ None); (reflexivity || discriminate). Defined.

(** A list of 128 entries can be set, but with an entry for the modes it cannot be read any more. *)
Theorem full_list_unreadable `{Kauth} m control owner group l error n :
  small owner group l -> (128 < length l)%nat ->
  get_acl m true (Some (descriptor control owner group l)) error n = Some (ENOMEM, None, n).
Proof.
  intros Hsm Hl. pose proof Hsm as (_ & _ & _ & Hn). unfold get_acl. rewrite sddacl_descriptor by done. cbn [mbind option_bind].
  destruct (descriptor_split control owner group l) as (pre & -> & <-).
  rewrite rd_app, rd_count_dacl by lia. cbn [mbind option_bind negb orb]. unfold KAUTH_ACL_MAX_ENTRIES.
  destruct (Z.ltb_spec 128 (Z.of_nat (length l))); [done|lia].
Qed.

Lemma full_list_unreadable_witness :
  let l := replicate 128 (Entry 0 0 0 (demo_sid 1)) ++ map nfs_entry (nfs_entries (n_ids demo_node)) in
  get_acl demo_mount true (Some (descriptor 0 None None l)) 0 (n_ids demo_node) = Some (ENOMEM, None, n_ids demo_node).
Proof.
  intros l. apply full_list_unreadable; [|apply Nat.ltb_lt; reflexivity].
  split; [discriminate|]. split; [discriminate|]. split; [|apply Nat.leb_le; reflexivity].
  apply Forall_app. split; [|apply nfs_entries_wf]. apply Forall_replicate.
  split; [apply demo_sid_wf|]. repeat split; discriminate || reflexivity.
Defined.

(** A descriptor with an entry for somebody the directory does not know (95) and one it knows. *)
Definition partly_known : list Z :=
  descriptor (Z.lor SE_SELF_RELATIVE DACL_FLAGS) None None [Entry 1 0 0x1f01ff (demo_sid 95); Entry 0 0 0x1f01ff (demo_sid 1)].

(** Changing the modes takes entries for people the directory does not know away: here a denial is lost. *)
Theorem chmod_drops_unknown_entries :
  exists rq n1, smbfs_set_ace_modes demo_mount false true demo_junk (demo_meet partly_known) demo_answer 0x1a0 demo_node
                = Some (0, Some rq, n1) /\
    security_descriptor rq
    = Some (descriptor (Z.lor SE_SELF_RELATIVE DACL_FLAGS) None None
              [nfs_entry (NfsSidTypeModes, 0x1a0); Entry 0 0 0x1f01ff (demo_sid 1)]).
Proof.
  destruct (smbfs_set_ace_modes demo_mount false true demo_junk (demo_meet partly_known) demo_answer 0x1a0 demo_node)
    as [[[e [rq|]] n1]|] eqn:E; [|exfalso; vm_compute in E; discriminate E..].
  exists rq, n1. vm_compute in E. injection E as <- <- <-. split; reflexivity.
Qed.

(** When the server refuses new modes, the modes of the node are put back, but it is left with the claim that the
    server has modes for it. *)
Theorem failed_chmod_claims_modes :
  exists sent n1, smbfs_set_ace_modes demo_mount false true demo_junk (demo_meet partly_known)
                    (Answer true None 0 EACCES 0 None 2000000000) 0x1a0
                    (set_ids (set_modes false 0x1ed (n_ids demo_node)) demo_node)
                  = Some (EACCES, sent, n1)
    /\ n_posixmodes (n_ids n1) = true /\ n_mode (n_ids n1) = 0x1ed.
Proof. do 2 eexists. split; [vm_compute; reflexivity|]. split; reflexivity. Qed.
