(* ===== verification/Nbt.v ===== *)
(** * The transport: NetBIOS sessions over TCP

    [kernel/netsmb/smb_trantcp.c]: a message goes out with a header of four bytes, and
    a stream of bytes that comes in, in pieces of any size, is cut into messages again.
    With it the names of NetBIOS that open a session on port 139, which
    [lib/smb/nb_name.c] encodes.

    The socket is a stream of bytes and the outcomes of the reads to come: how many
    bytes there are at once, or an error.  That the peer closed the stream is its end. *)

From S2P Require Import Prelude.
Import Errno.

Inductive nbstate := NBST_CLOSED | NBST_RQSENT | NBST_SESSION | NBST_RETARGET | NBST_REFUSED.

(** The flags of [struct nbpcb] that matter here. *)
Record nbpcb := Nbpcb {
  nbf_connected : bool; nbf_netbios : bool; nbf_sock_opened : bool; nbp_state : nbstate; nbp_rcvchunk : nat }.

Definition set_state (st : nbstate) (p : nbpcb) : nbpcb :=
  Nbpcb (nbf_connected p) (nbf_netbios p) (nbf_sock_opened p) st (nbp_rcvchunk p).

(** The outcome of a read: it finds some bytes ([Got n]: at most [S n]), or an error; [late]: more than
    [SMB_SB_RCVTIMEO] seconds have passed since the first try. *)
Inductive io := Got (n : nat) | Fail (e : Z) (late : bool).

Record socket := Socket { so_in : list Z; so_io : list io; so_connected : bool }.

(** Up to [want] bytes; none at the end of the stream. *)
Definition sock_read (want : nat) (s : socket) : (Z * bool + list Z) * socket :=
  match so_io s with
  | Fail e late :: l => (inl (e, late), Socket (so_in s) l (so_connected s))
  | Got n :: l => (inr (take (Nat.min want (S n)) (so_in s)), Socket (drop (Nat.min want (S n)) (so_in s)) l (so_connected s))
  | [] => (inr (take want (so_in s)), Socket (drop want (so_in s)) [] (so_connected s))
  end.

Definition ERESTART : Z := -1.
Definition EINTR : Z := 4.
Definition EHOSTDOWN : Z := 64.
Definition EADDRNOTAVAIL : Z := 49.

Definition NB_SSN_MESSAGE : Z := 0.
Definition NB_SSN_REQUEST : Z := 0x81.
Definition NB_SSN_POSRESP : Z := 0x82.
Definition NB_SSN_NEGRESP : Z := 0x83.
Definition NB_SSN_RTGRESP : Z := 0x84.
Definition NB_SSN_KEEPALIVE : Z := 0x85.

Definition SMB_MAXPKTLEN : Z := 0x1ffff.
Definition SMB_LARGE_MAXPKTLEN : Z := 0xffffff.

Definition len_mask (p : nbpcb) : Z := if nbf_netbios p then SMB_MAXPKTLEN else SMB_LARGE_MAXPKTLEN.

(** ** Sending *)

Definition nb_sethdr (p : nbpcb) (type len : Z) : list Z :=
  be_bytes 4 (Z.lor (Z.land len (len_mask p)) (Z.shiftl type 24)).

(** What goes to the socket, or an error; [prepend]: there is an mbuf for the header. *)
Definition smb_nbst_send (prepend : bool) (p : option nbpcb) (m : list Z) : Z + list Z :=
  match p with
  | None => inl ENOTCONN
  | Some p =>
      match nbp_state p with
      | NBST_SESSION =>
          if negb prepend then inl ENOBUFS
          else inr (nb_sethdr p NB_SSN_MESSAGE (u32 (Z.of_nat (length m))) ++ m)
      | _ => inl ENOTCONN
      end
  end.

(** ** Receiving *)

(** The bytes of the header; [wait_time]: it is not NULL.  [None]: out of fuel. *)
Fixpoint recvhdr_loop (fuel : nat) (resid : nat) (acc : list Z) (wait_time : bool) (p : nbpcb) (s : socket)
  : option ((Z + list Z) * nbpcb * socket) :=
  match fuel with
  | O => None
  | S fuel =>
      match resid with
      | O => Some (inr acc, p, s)
      | _ =>
          match sock_read resid s with
          | (inr [], s) => Some (inl EPIPE, set_state NBST_CLOSED p, s)
          | (inr bs, s) =>
              if (resid <? length bs)%nat then Some (inl EPIPE, p, s)
              else recvhdr_loop fuel (resid - length bs) (acc ++ bs) wait_time p s
          | (inl (e, _), s) =>
              if (e =? EWOULDBLOCK) && wait_time then recvhdr_loop fuel resid acc false p s
              else if negb (nbf_sock_opened p) || negb (so_connected s)
              then Some (inl EPIPE, set_state NBST_CLOSED p, s)
              else Some (inl e, p, s)
          end
      end
  end.

Definition known_type (netbios : bool) (rpcode : Z) : bool :=
  (rpcode =? NB_SSN_MESSAGE) || (rpcode =? NB_SSN_KEEPALIVE)
  || netbios && ((rpcode =? NB_SSN_REQUEST) || (rpcode =? NB_SSN_POSRESP) || (rpcode =? NB_SSN_NEGRESP) || (rpcode =? NB_SSN_RTGRESP)).

(** The length and the type of a header. *)
Definition decode_hdr (netbios : bool) (hdr : list Z) : Z + Z * Z :=
  let len := be_value hdr in
  let rpcode := Z.land (Z.shiftr len 24) 0xff in
  if netbios && negb (Z.land (Z.shiftr len 16) 0xfe =? 0) then inl EPIPE
  else
    let len := Z.land len (if netbios then SMB_MAXPKTLEN else SMB_LARGE_MAXPKTLEN) in
    if known_type netbios rpcode then inr (len, rpcode) else inl EPIPE.

Definition nbssn_recvhdr (wait_time : bool) (p : nbpcb) (s : socket) : option ((Z + Z * Z) * nbpcb * socket) :=
  r ← recvhdr_loop (6 + length (so_io s)) 4 [] wait_time p s;
  match r with
  | (inl e, p, s) => Some (inl e, p, s)
  | (inr hdr, p, s) => Some (decode_hdr (nbf_netbios p) hdr, p, s)
  end.

(** The data of a message, read in chunks. *)
Fixpoint recv_body (fuel : nat) (resid : nat) (acc : list Z) (p : nbpcb) (s : socket) : option ((Z + list Z) * socket) :=
  match fuel with
  | O => None
  | S fuel =>
      match resid with
      | O => Some (inr acc, s)
      | _ =>
          match sock_read (Nat.min resid (nbp_rcvchunk p)) s with
          | (inl (e, late), s) =>
              if e =? EAGAIN then if late then Some (inl EPIPE, s) else recv_body fuel resid acc p s
              else if (e =? EINTR) || (e =? ERESTART) then recv_body fuel resid acc p s
              else Some (inl e, s)
          | (inr [], s) => Some (inl EPIPE, s)
          | (inr bs, s) =>
              if (resid <? length bs)%nat then Some (inl EPIPE, s)
              else recv_body fuel (resid - length bs) (acc ++ bs) p s
          end
      end
  end.

(** What is done with a packet of the type [rpcode]: it is returned, or the next one is read. *)
Definition is_session (p : nbpcb) : bool := match nbp_state p with NBST_SESSION => true | _ => false end.

Definition keep_packet (p : nbpcb) (rpcode : Z) (m : list Z) : bool :=
  if rpcode =? NB_SSN_KEEPALIVE then false
  else if negb (is_session p) then true
  else (rpcode =? NB_SSN_MESSAGE) && negb (match m with [] => true | _ => false end).

(** The message, its length and its type. *)
Fixpoint recv_loop (fuel : nat) (wait_time : bool) (p : nbpcb) (s : socket)
  : option ((Z + list Z * Z * Z) * nbpcb * socket) :=
  match fuel with
  | O => None
  | S fuel =>
      r ← nbssn_recvhdr wait_time p s;
      match r with
      | (inl e, p, s) => Some (inl e, p, s)
      | (inr (len, rpcode), p, s) =>
          b ← recv_body (S (Z.to_nat len + length (so_io s))) (Z.to_nat len) [] p s;
          match b with
          | (inl e, s) => Some (inl e, p, s)
          | (inr m, s) =>
              if keep_packet p rpcode m then Some (inr (m, len, rpcode), p, s)
              else recv_loop fuel wait_time p s
          end
      end
  end.

Definition nbssn_recv (wait_time : bool) (p : nbpcb) (s : socket) : option ((Z + list Z * Z * Z) * nbpcb * socket) :=
  if negb (nbf_connected p) then Some (inl ENOTCONN, p, s)
  else recv_loop (S (length (so_in s))) wait_time p s.

(** The message as it is handed to the I/O thread; [decrypt] is [smb3_msg_decrypt]. *)
Definition smb_nbst_recv (decrypt : list Z -> Z + list Z) (p : nbpcb) (s : socket)
  : option ((Z + list Z) * nbpcb * socket) :=
  r ← nbssn_recv false p s;
  match r with
  | (inl e, p, s) => Some (inl e, p, s)
  | (inr (m, _, _), p, s) =>
      match m with
      | [] => Some (inl ENOBUFS, p, s) (* mbuf_pullup *)
      | 0xfd :: _ => Some (decrypt m, p, s)
      | _ => Some (inr m, p, s)
      end
  end.

(** Errors that end a connection; [open]: the socket is there and connected. *)
Definition smb_nbst_fatal (open : bool) (error : Z) : bool :=
  (error =? EHOSTDOWN) || (error =? ENETUNREACH) || (error =? ENOTCONN) || (error =? ENETRESET)
  || (error =? ECONNABORTED) || (error =? EPIPE) || (error =? EADDRNOTAVAIL) || negb open.

(** ** Names *)

Definition SNB_NAME_LEN : nat := 34.

(** [snb_name] is an array of 34 bytes; [None] reads outside of it. *)
Fixpoint validate_loop (fuel : nat) (name : list Z) (cp : nat) (total_bytes : Z) : option Z :=
  match fuel with
  | O => None
  | S fuel =>
      c ← name !! cp;
      if c =? 0 then Some 0
      else
        let seglen := u8 (c + 1) in
        let total_bytes := u8 (total_bytes + seglen) in
        if (seglen =? 0) || (Z.of_nat SNB_NAME_LEN <? total_bytes) then Some EINVAL
        else validate_loop fuel name (cp + Z.to_nat seglen) total_bytes
  end.

Definition nb_validate_name (name : list Z) : option Z :=
  c ← name !! O;
  if c =? 0 then Some EINVAL else validate_loop (S SNB_NAME_LEN) name 0 0.

(** The bytes that are put into the request, [None]: bytes outside of the name. *)
Fixpoint put_name_loop (fuel : nat) (name : list Z) (cp : nat) (acc : list Z) : option (list Z) :=
  match fuel with
  | O => None
  | S fuel =>
      c ← name !! cp;
      let seglen := u8 (c + 1) in
      if (cp + Z.to_nat seglen <=? length name)%nat then
        let acc := acc ++ take (Z.to_nat seglen) (drop cp name) in
        if seglen =? 1 then Some acc else put_name_loop fuel name (cp + Z.to_nat seglen) acc
      else None
  end.

Definition nb_put_name (name : list Z) : option (Z + list Z) :=
  error ← nb_validate_name name;
  if negb (error =? 0) then Some (inl error)
  else bs ← put_name_loop (S SNB_NAME_LEN) name 0 []; Some (inr bs).

(** *** Encoding (in userland) *)

Definition NB_NAMELEN : nat := 16.

(** The two bytes of [NBENCODE]. *)
Definition nbencode (c : Z) : list Z := le_bytes 2 (Z.lor (Z.shiftr c 4) (Z.shiftl (Z.land c 0xf) 8) + 0x4141).

(** The characters of a C string in [nn_name]. *)
Fixpoint c_string (n : nat) (s : list Z) : list Z :=
  match n, s with
  | S n, c :: s => if c =? 0 then [] else c :: c_string n s
  | _, _ => []
  end.

Definition nb_name_encode (nn_name : list Z) (nn_type : Z) : list Z :=
  32 ::
  (if bool_decide (take 2 nn_name = [42; 0]) (* the star *)
   then nbencode 42 ++ concat (replicate (NB_NAMELEN - 1) (nbencode 0))
   else
     let s := c_string (NB_NAMELEN - 1) nn_name in
     concat (map nbencode s) ++ concat (replicate (NB_NAMELEN - 1 - length s) (nbencode 32)) ++ nbencode nn_type)
  ++ [0].

(** ** Opening a session *)

(** What is met on the way: the result of sending a request, and of [tcp_connect] to another address. *)
Record opening := Opening { op_send : Z; op_socket : socket; op_tcp : Z }.

Definition smb_nbst_disconnect (p : nbpcb) : nbpcb :=
  Nbpcb false (nbf_netbios p) false
    (match nbp_state p with NBST_RETARGET => NBST_RETARGET | _ => NBST_CLOSED end) (nbp_rcvchunk p).

(** [tcp_connect]: the socket is new; a failure disconnects. *)
Definition tcp_connect (e : Z) (p : nbpcb) : Z * nbpcb :=
  if e =? 0 then (0, Nbpcb (nbf_connected p) (nbf_netbios p) true (nbp_state p) (nbp_rcvchunk p))
  else (e, smb_nbst_disconnect p).

(** The request to the name [paddr] from [laddr]: the error, the connection and what was sent; one element
    of [l] for each address.  Running out of them is [None]. *)
Fixpoint nbssn_rq_request (l : list opening) (paddr laddr : list Z) (p : nbpcb) : option (Z * nbpcb * list (list Z)) :=
  match l with
  | [] => None
  | o :: l =>
      called ← nb_put_name paddr;
      match called with
      | inl e => Some (e, p, [])
      | inr called =>
          calling ← nb_put_name laddr;
          match calling with
          | inl e => Some (e, p, [])
          | inr calling =>
              let sent := nb_sethdr p NB_SSN_REQUEST (Z.of_nat (length (called ++ calling))) ++ called ++ calling in
              if negb (op_send o =? 0) then Some (op_send o, p, [sent])
              else
                r ← nbssn_recv true (set_state NBST_RQSENT p) (op_socket o);
                match r with
                | (inl e, p, _) => Some (if e =? EWOULDBLOCK then ETIMEDOUT else e, p, [sent])
                | (inr (_, rplen, rpcode), p, _) =>
                    if rpcode =? NB_SSN_POSRESP then
                      Some (0, Nbpcb true (nbf_netbios p) (nbf_sock_opened p) NBST_SESSION (nbp_rcvchunk p), [sent])
                    else if negb (rpcode =? NB_SSN_RTGRESP) || negb (rplen =? 6) then Some (ECONNABORTED, p, [sent])
                    else
                      let p := smb_nbst_disconnect (set_state NBST_RETARGET p) in
                      let '(error, p) := tcp_connect (op_tcp o) p in
                      if negb (error =? 0) then Some (error, smb_nbst_disconnect p, [sent])
                      else
                        r ← nbssn_rq_request l paddr laddr p;
                        let '(error, p, more) := r : Z * nbpcb * list (list Z) in
                        Some (error, if error =? 0 then p else smb_nbst_disconnect p, sent :: more)
                end
          end
      end
  end.
