(* ===== verification/NbtTheorems.v ===== *)
(** * Theorems about the transport

    Messages arrive whole and in order however the stream is cut; names are encoded so
    that they can be decoded; and where the code does not do what it means to. *)

From S2P Require Import Prelude Nbt.
Import Errno.

(** ** Reading a stream *)

Definition is_got (x : io) : Prop := match x with Got _ => True | Fail _ _ => False end.

(** Every read finds something until the end of the stream, as much as it likes. *)
Definition flows (s : socket) : Prop := Forall is_got (so_io s).

Lemma sock_read_flows want s : flows s -> (0 < want)%nat -> exists k s',
  sock_read want s = (inr (take k (so_in s)), s') /\ (0 < k <= want)%nat /\ so_in s' = drop k (so_in s) /\ flows s'.
Proof.
  intros Hf Hw. unfold sock_read, flows in *. destruct (so_io s) as [|[n|e late] l].
  - exists want. eexists. split; [reflexivity|]. split; [lia|]. split; [done|constructor].
  - apply Forall_cons_1 in Hf as [_ Hf]. exists (Nat.min want (S n)). eexists. split; [reflexivity|]. split; [lia|]. done.
  - by apply Forall_cons_1 in Hf as [[] _].
Qed.

Lemma take_cons_length {A} k (l : list A) x r : take k l = x :: r -> (S (length r) <= k)%nat /\ (length l >= S (length r))%nat.
Proof. intros E. apply (f_equal length) in E. rewrite length_take in E. simpl in E. lia. Qed.

Lemma recvhdr_flows p w fuel : forall resid acc s, flows s -> (resid < fuel)%nat -> (resid <= length (so_in s))%nat ->
  exists s', recvhdr_loop fuel resid acc w p s = Some (inr (acc ++ take resid (so_in s)), p, s')
    /\ so_in s' = drop resid (so_in s) /\ flows s'.
Proof.
  induction fuel as [|fuel IH]; intros resid acc s Hf Hfu Hl; [lia|]. cbn [recvhdr_loop].
  destruct resid as [|r]; [exists s; by rewrite take_0, app_nil_r|].
  destruct (sock_read_flows (S r) s Hf) as (k & s' & -> & Hk & Hin & Hf'); [lia|].
  assert (length (take k (so_in s)) = k) as Hlk by (rewrite length_take; lia).
  destruct (take k (so_in s)) as [|x bs] eqn:Et; [simpl in Hlk; lia|]. rewrite Hlk, <- Et.
  destruct (Nat.ltb_spec (S r) k); [lia|].
  destruct (IH (S r - k)%nat (acc ++ take k (so_in s)) s') as (s2 & E & Hin2 & Hf2); [done|lia|rewrite Hin, length_drop; lia|].
  exists s2. rewrite E. split; [|split; [rewrite Hin2, Hin, drop_drop; f_equal; lia|done]].
  rewrite <- app_assoc, Hin, take_take_drop. by replace (k + (S r - k))%nat with (S r) by lia.
Qed.

Lemma recv_body_flows p fuel : (0 < nbp_rcvchunk p)%nat -> forall resid acc s, flows s -> (resid < fuel)%nat ->
  (resid <= length (so_in s))%nat ->
  exists s', recv_body fuel resid acc p s = Some (inr (acc ++ take resid (so_in s)), s')
    /\ so_in s' = drop resid (so_in s) /\ flows s'.
Proof.
  intros Hc. induction fuel as [|fuel IH]; intros resid acc s Hf Hfu Hl; [lia|]. cbn [recv_body].
  destruct resid as [|r]; [exists s; by rewrite take_0, app_nil_r|].
  destruct (sock_read_flows (Nat.min (S r) (nbp_rcvchunk p)) s Hf) as (k & s' & -> & Hk & Hin & Hf'); [lia|].
  assert (length (take k (so_in s)) = k) as Hlk by (rewrite length_take; lia).
  destruct (take k (so_in s)) as [|x bs] eqn:Et; [simpl in Hlk; lia|]. rewrite Hlk, <- Et.
  destruct (Nat.ltb_spec (S r) k); [lia|].
  destruct (IH (S r - k)%nat (acc ++ take k (so_in s)) s') as (s2 & E & Hin2 & Hf2); [done|lia|rewrite Hin, length_drop; lia|].
  exists s2. rewrite E. split; [|split; [rewrite Hin2, Hin, drop_drop; f_equal; lia|done]].
  rewrite <- app_assoc, Hin, take_take_drop. by replace (k + (S r - k))%nat with (S r) by lia.
Qed.

(** ** Headers *)

Lemma land_ones_lor k a t : 0 <= k <= 24 -> 0 <= a < 2 ^ k ->
  Z.land (Z.lor a (Z.shiftl t 24)) (Z.ones k) = a.
Proof.
  intros Hk Ha. rewrite Z.land_lor_distr_l, !Z.land_ones by lia. rewrite Z.mod_small by done.
  rewrite Z.shiftl_mul_pow2 by lia. replace (t * 2 ^ 24) with (t * 2 ^ (24 - k) * 2 ^ k).
  - by rewrite Z_mod_mult, Z.lor_0_r.
  - rewrite <- Z.mul_assoc, <- Z.pow_add_r by lia. do 2 f_equal. lia.
Qed.

Lemma len_mask_ones p : len_mask p = Z.ones (if nbf_netbios p then 17 else 24).
Proof. unfold len_mask. by destruct (nbf_netbios p). Qed.

Lemma sethdr_range p t len : 0 <= t < 256 -> 0 <= Z.lor (Z.land len (len_mask p)) (Z.shiftl t 24) < 2 ^ 32.
Proof.
  intros Ht. assert (0 <= Z.land len (len_mask p) < 2 ^ 24) as Ha.
  { rewrite len_mask_ones, Z.land_ones by (destruct (nbf_netbios p); lia).
    pose proof (Z.mod_pos_bound len (2 ^ 24)). pose proof (Z.mod_pos_bound len (2 ^ 17)). destruct (nbf_netbios p); lia. }
  set (a := Z.land len (len_mask p)) in *. rewrite Z.shiftl_mul_pow2 by lia.
  assert (0 <= Z.lor a (t * 2 ^ 24)) by (apply Z.lor_nonneg; lia). split; [done|].
  destruct (decide (Z.lor a (t * 2 ^ 24) = 0)) as [->|]; [lia|]. apply Z.log2_lt_pow2; [lia|].
  rewrite Z.log2_lor by lia. apply Z.max_lub_lt.
  - destruct (decide (a = 0)) as [->|]; [done|]. apply Z.log2_lt_pow2; lia.
  - destruct (decide (t = 0)) as [->|]; [done|]. apply Z.log2_lt_pow2; lia.
Qed.

(** A header says what was put into it, as long as the length fits. *)
Lemma decode_sethdr p t len : 0 <= t < 256 -> known_type (nbf_netbios p) t = true -> 0 <= len <= len_mask p ->
  decode_hdr (nbf_netbios p) (nb_sethdr p t len) = inr (len, t).
Proof.
  intros Ht Hk Hl. unfold decode_hdr, nb_sethdr. rewrite be_value_bytes.
  change (256 ^ Z.of_nat 4) with (2 ^ 32). rewrite Z.mod_small by (by apply sethdr_range).
  set (k := if nbf_netbios p then 17 else 24). assert (17 <= k <= 24) as Hk17 by (unfold k; destruct (nbf_netbios p); lia).
  assert (len_mask p = Z.ones k) as Em by apply len_mask_ones.
  assert (0 <= len < 2 ^ k) as Hlen by (rewrite Em, Z.ones_equiv in Hl; lia).
  assert (Z.land len (len_mask p) = len) as -> by (rewrite Em, Z.land_ones, Z.mod_small by lia; done).
  assert (len < 2 ^ 24) by (pose proof (Z.pow_le_mono_r 2 k 24); lia).
  assert (Z.land (Z.shiftr (Z.lor len (Z.shiftl t 24)) 24) 0xff = t) as ->.
  { rewrite Z.shiftr_lor, Z.shiftr_shiftl_l, Z.sub_diag, Z.shiftl_0_r by lia.
    rewrite (Z.shiftr_div_pow2 len), Z.div_small, Z.lor_0_l by lia.
    change 0xff with (Z.ones 8). rewrite Z.land_ones, Z.mod_small by lia. done. }
  assert (nbf_netbios p && negb (Z.land (Z.shiftr (Z.lor len (Z.shiftl t 24)) 16) 0xfe =? 0) = false) as ->.
  { unfold k in *. destruct (nbf_netbios p); [|done]. cbn [andb].
    rewrite Z.shiftr_lor, Z.shiftr_shiftl_l by lia. rewrite Z.land_lor_distr_l.
    assert (Z.land (Z.shiftl t (24 - 16)) 0xfe = 0) as ->.
    { change 0xfe with (Z.land (Z.ones 8) 0xfe). rewrite Z.land_assoc, Z.land_ones, Z.shiftl_mul_pow2 by lia.
      change (24 - 16) with 8. by rewrite Z_mod_mult. }
    rewrite (Z.shiftr_div_pow2 len) by lia.
    assert (len `div` 2 ^ 16 = 0 \/ len `div` 2 ^ 16 = 1) as [->| ->]; [|done..].
    pose proof (Z.div_pos len (2 ^ 16)). pose proof (Z.div_lt_upper_bound len (2 ^ 16) 2). lia. }
  rewrite Hk. assert ((if nbf_netbios p then SMB_MAXPKTLEN else SMB_LARGE_MAXPKTLEN) = Z.ones k) as ->
    by (unfold k; by destruct (nbf_netbios p)).
  rewrite land_ones_lor by lia. done.
Qed.

Lemma length_sethdr p t len : length (nb_sethdr p t len) = 4%nat.
Proof. apply length_be_bytes. Qed.

(** ** Packets *)

Record pkt := Pkt { k_type : Z; k_data : list Z }.

Definition frame (p : nbpcb) (k : pkt) : list Z := nb_sethdr p (k_type k) (Z.of_nat (length (k_data k))) ++ k_data k.

Definition fits (p : nbpcb) (k : pkt) : Prop :=
  0 <= k_type k < 256 /\ known_type (nbf_netbios p) (k_type k) = true /\ Z.of_nat (length (k_data k)) <= len_mask p.

(** A packet that a session skips. *)
Definition noise (p : nbpcb) (k : pkt) : Prop := fits p k /\ keep_packet p (k_type k) (k_data k) = false.

Lemma recvhdr_frame w p k rest s : flows s -> fits p k -> so_in s = frame p k ++ rest ->
  exists s', nbssn_recvhdr w p s = Some (inr (Z.of_nat (length (k_data k)), k_type k), p, s')
    /\ so_in s' = k_data k ++ rest /\ flows s'.
Proof.
  intros Hf (Ht & Hk & Hl) Hs. unfold nbssn_recvhdr, frame in *. rewrite <- app_assoc in Hs.
  destruct (recvhdr_flows p w (6 + length (so_io s)) 4 [] s) as (s' & -> & Hin & Hf'); [done|lia| |].
  { rewrite Hs, length_app, length_sethdr. lia. }
  cbn [mbind option_bind]. rewrite Hs in *. cbn [app].
  rewrite take_app_length' by (by rewrite length_sethdr). rewrite drop_app_length' in Hin by (by rewrite length_sethdr).
  exists s'. rewrite decode_sethdr by (done || lia). done.
Qed.

Lemma recv_loop_frames w p m rest : (0 < nbp_rcvchunk p)%nat -> is_session p = true ->
  fits p (Pkt NB_SSN_MESSAGE m) -> m <> [] ->
  forall ks fuel s, flows s -> Forall (noise p) ks -> (length ks < fuel)%nat ->
  so_in s = concat (map (frame p) ks) ++ frame p (Pkt NB_SSN_MESSAGE m) ++ rest ->
  exists s', recv_loop fuel w p s = Some (inr (m, Z.of_nat (length m), NB_SSN_MESSAGE), p, s') /\ so_in s' = rest /\ flows s'.
Proof.
  intros Hc Hse Hm Hne. induction ks as [|k ks IH]; intros [|fuel] s Hf Hks Hfu Hs; simpl length in Hfu; try lia; cbn [recv_loop].
  - destruct (recvhdr_frame w p (Pkt NB_SSN_MESSAGE m) rest s Hf Hm Hs) as (s1 & -> & Hin & Hf1). cbn [mbind option_bind k_data k_type].
    rewrite Nat2Z.id. destruct (recv_body_flows p (S (length m + length (so_io s1))) Hc (length m) [] s1) as (s2 & -> & Hin2 & Hf2);
      [done|lia|rewrite Hin, length_app; simpl; lia|].
    cbn [mbind option_bind app k_data] in *. rewrite Hin, take_app_length. rewrite Hin, drop_app_length in Hin2.
    unfold keep_packet. rewrite Hse. destruct m; [done|]. exists s2. done.
  - apply Forall_cons_1 in Hks as [[Hk Hkeep] Hks]. cbn [map concat] in Hs. rewrite <- app_assoc in Hs.
    destruct (recvhdr_frame w p k _ s Hf Hk Hs) as (s1 & -> & Hin & Hf1). cbn [mbind option_bind].
    rewrite Nat2Z.id.
    destruct (recv_body_flows p (S (length (k_data k) + length (so_io s1))) Hc (length (k_data k)) [] s1) as (s2 & -> & Hin2 & Hf2);
      [done|lia|rewrite Hin, length_app; lia|].
    cbn [mbind option_bind app]. rewrite Hin, take_app_length, Hkeep. rewrite Hin, drop_app_length in Hin2.
    apply IH; [done|done|lia|done].
Qed.

(** Receiving as often as there are messages. *)
Fixpoint receive_all (count : nat) (decrypt : list Z -> Z + list Z) (p : nbpcb) (s : socket) : option (list (Z + list Z) * socket) :=
  match count with
  | O => Some ([], s)
  | S count =>
      r ← smb_nbst_recv decrypt p s;
      let '(x, p, s) := r : (Z + list Z) * nbpcb * socket in
      r ← receive_all count decrypt p s;
      Some (x :: r.1, r.2)
  end.

(** What is handed on of a message. *)
Definition handed (decrypt : list Z -> Z + list Z) (m : list Z) : Z + list Z :=
  match m with 0xfd :: _ => decrypt m | _ => inr m end.

(** A peer that sends [l]: before each message it may send packets that a session skips. *)
Fixpoint stream_of (p : nbpcb) (l : list (list pkt * list Z)) : list Z :=
  match l with
  | [] => []
  | (ks, m) :: l =>
      concat (map (frame p) ks)
      ++ match smb_nbst_send true (Some p) m with inr bs => bs | inl _ => [] end ++ stream_of p l
  end.

Definition sendable (p : nbpcb) (x : list pkt * list Z) : Prop :=
  Forall (noise p) x.1 /\ x.2 <> [] /\ Z.of_nat (length x.2) <= len_mask p.

Lemma send_frame p m : is_session p = true -> Z.of_nat (length m) <= len_mask p ->
  smb_nbst_send true (Some p) m = inr (frame p (Pkt NB_SSN_MESSAGE m)).
Proof.
  intros Hs Hl. unfold smb_nbst_send, is_session in *. destruct (nbp_state p); try discriminate Hs. cbn [negb].
  rewrite u32_small; [done|]. unfold len_mask, SMB_MAXPKTLEN, SMB_LARGE_MAXPKTLEN in Hl. destruct (nbf_netbios p); lia.
Qed.

Lemma frames_length p ks : (length ks <= length (concat (map (frame p) ks)))%nat.
Proof.
  induction ks as [|k ks IH]; [done|]. cbn [map concat]. unfold frame at 1.
  rewrite !length_app, length_sethdr, length_cons. lia.
Qed.

Lemma nbst_recv_one decrypt p ks m rest s : nbf_connected p = true -> is_session p = true -> (0 < nbp_rcvchunk p)%nat ->
  flows s -> sendable p (ks, m) -> so_in s = concat (map (frame p) ks) ++ frame p (Pkt NB_SSN_MESSAGE m) ++ rest ->
  exists s', smb_nbst_recv decrypt p s = Some (handed decrypt m, p, s') /\ so_in s' = rest /\ flows s'.
Proof.
  intros Hco Hse Hch Hf (Hks & Hne & Hl) Hs. unfold smb_nbst_recv, nbssn_recv. rewrite Hco. cbn [negb fst snd] in *.
  assert (fits p (Pkt NB_SSN_MESSAGE m)) as Hm by (split; [unfold NB_SSN_MESSAGE; simpl; lia|done]).
  destruct (recv_loop_frames false p m rest Hch Hse Hm Hne ks (S (length (so_in s))) s Hf Hks) as (s' & E & Hin & Hf');
    [rewrite Hs, length_app; pose proof (frames_length p ks); lia|done|].
  exists s'. rewrite E. cbn [mbind option_bind]. split; [|done]. unfold handed.
  destruct m as [|[|b|b] m]; [done|done| |done]. do 8 (destruct b as [b|b|]; try done).
Qed.

(** C17: a peer sends messages, and between them keep-alives and other packets that a session skips; the stream is cut
    into pieces of any size.  As many calls as there are messages hand them on, whole and in order, and leave the rest
    of the stream. *)
Theorem messages_arrive decrypt p l rest s :
  nbf_connected p = true -> is_session p = true -> (0 < nbp_rcvchunk p)%nat -> flows s -> Forall (sendable p) l ->
  so_in s = stream_of p l ++ rest ->
  exists s', receive_all (length l) decrypt p s = Some (map (fun x => handed decrypt x.2) l, s') /\ so_in s' = rest.
Proof.
  intros Hco Hse Hch. revert s. induction l as [|[ks m] l IH]; intros s Hf Hl Hs; [by exists s|].
  apply Forall_cons_1 in Hl as [Hx Hl]. cbn [stream_of] in Hs. rewrite send_frame in Hs by (done || apply Hx).
  rewrite <- !app_assoc in Hs. cbn [length receive_all].
  destruct (nbst_recv_one decrypt p ks m (stream_of p l ++ rest) s) as (s1 & -> & Hin & Hf1); try done.
  cbn [mbind option_bind]. destruct (IH s1 Hf1 Hl Hin) as (s2 & -> & Hin2). exists s2. done.
Qed.

Definition demo_nbpcb : nbpcb := Nbpcb true true true NBST_SESSION 3.

Lemma messages_arrive_witness :
  let l := [([], [0xfe; 83; 77; 66]); ([Pkt NB_SSN_KEEPALIVE []; Pkt NB_SSN_MESSAGE []], [1; 2; 3; 4; 5])] in
  exists s', receive_all 2 inr demo_nbpcb (Socket (stream_of demo_nbpcb l ++ [9]) [Got 0; Got 1; Got 0] true)
             = Some (map (fun x => handed inr x.2) l, s') /\ so_in s' = [9].
Proof.
  intros l. apply (messages_arrive inr demo_nbpcb l [9]); [reflexivity|reflexivity|apply Nat.ltb_lt; reflexivity| | |reflexivity].
  - repeat constructor.
  - apply Forall_cons_2; [|apply Forall_cons_2; [|constructor]]; (split; [|split; [discriminate|discriminate]]).
    + constructor.
    + repeat (apply Forall_cons_2; [split; [split; [split; [discriminate|reflexivity]|split; [reflexivity|discriminate]]|reflexivity]|]).
      constructor.
Defined.

(** ** Receiving ends *)

(** What a read leaves: an outcome less, or bytes less. *)
Lemma sock_read_left want s r s' : sock_read want s = (r, s') ->
  (length (so_io s') <= length (so_io s))%nat /\ (forall bs, r = inr bs -> so_in s = bs ++ so_in s' /\ (length bs <= want)%nat)
  /\ (forall e, r = inl e -> so_in s' = so_in s /\ (length (so_io s') < length (so_io s))%nat).
Proof.
  unfold sock_read. destruct (so_io s) as [|[n|e late] l] eqn:El; intros [= <- <-]; simpl; (split; [lia|]); split; try done.
  - intros bs [= <-]. rewrite take_drop, length_take. split; [done|lia].
  - intros bs [= <-]. rewrite take_drop, length_take. split; [done|lia].
  - intros _ [= <-]. split; [done|lia].
Qed.

Lemma recvhdr_ends fuel : forall resid acc w p s, (resid + length (so_io s) < fuel)%nat ->
  exists r p' s', recvhdr_loop fuel resid acc w p s = Some (r, p', s')
    /\ (length (so_io s') <= length (so_io s))%nat
    /\ (forall hdr, r = inr hdr -> (length (so_in s') + resid = length (so_in s))%nat).
Proof.
  induction fuel as [|fuel IH]; intros resid acc w0 p0 s Hfu; [lia|]. cbn [recvhdr_loop].
  destruct resid as [|r]; [exists (inr acc), p0, s; split; [done|]; split; [lia|]; intros; lia|].
  destruct (sock_read (S r) s) as [[[e late]|bs] s1] eqn:Er; apply sock_read_left in Er as (Hio & Hin & Herr).
  - destruct (Herr _ eq_refl) as [Ein Hlt].
    destruct (_ && _).
    + destruct (IH (S r) acc false p0 s1) as (x & p' & s' & -> & H1 & H2); [lia|]. exists x, p', s'. split; [done|]. split; [lia|].
      intros hdr E. specialize (H2 hdr E). rewrite Ein in H2. lia.
    + destruct (_ || _); eexists _, _, _; (split; [reflexivity|]; split; [lia|]; by intros).
  - destruct (Hin _ eq_refl) as [Ein Hle]. destruct bs as [|b bs]; [eexists _, _, _; split; [reflexivity|]; split; [lia|]; by intros|].
    destruct (_ <? _)%nat; [eexists _, _, _; split; [reflexivity|]; split; [lia|]; by intros|].
    destruct (IH (S r - length (b :: bs))%nat (acc ++ b :: bs) w0 p0 s1) as (x & p' & s' & -> & H1 & H2); [simpl in *; lia|].
    exists x, p', s'. split; [done|]. split; [lia|]. intros hdr E. specialize (H2 hdr E).
    rewrite Ein, length_app. simpl in *. lia.
Qed.

Lemma recv_body_ends p fuel : forall resid acc s, (resid + length (so_io s) < fuel)%nat ->
  exists r s', recv_body fuel resid acc p s = Some (r, s') /\ (length (so_in s') <= length (so_in s))%nat.
Proof.
  induction fuel as [|fuel IH]; intros resid acc s Hfu; [lia|]. cbn [recv_body].
  destruct resid as [|r]; [by eexists _, _|].
  destruct (sock_read _ s) as [[[e late]|bs] s1] eqn:Er; apply sock_read_left in Er as (Hio & Hin & Herr).
  - destruct (Herr _ eq_refl) as [Ein Hlt]. assert (length (so_in s1) <= length (so_in s))%nat by (by rewrite Ein).
    destruct (IH (S r) acc s1) as (x & s' & E & H1); [lia|].
    destruct (e =? EAGAIN); [destruct late|destruct (_ || _)]; (eexists _, _; split; [reflexivity || exact E|lia]).
  - destruct (Hin _ eq_refl) as [Ein Hle]. assert (length (so_in s1) <= length (so_in s))%nat by (rewrite Ein, length_app; lia).
    destruct bs as [|b bs]; [eexists _, _; split; [reflexivity|lia]|].
    destruct (_ <? _)%nat; [eexists _, _; split; [reflexivity|lia]|].
    destruct (IH (S r - length (b :: bs))%nat (acc ++ b :: bs) s1) as (x & s' & -> & H1); [simpl in *; lia|].
    eexists _, _. split; [reflexivity|lia].
Qed.

Lemma recv_loop_ends fuel : forall w p s, (length (so_in s) < fuel)%nat -> exists r, recv_loop fuel w p s = Some r.
Proof.
  induction fuel as [|fuel IH]; intros w p s Hfu; [lia|]. cbn [recv_loop]. unfold nbssn_recvhdr.
  destruct (recvhdr_ends (6 + length (so_io s)) 4 [] w p s) as (r & p' & s1 & -> & _ & Hin); [lia|].
  cbn [mbind option_bind]. destruct r as [e|hdr]; [by eexists|]. specialize (Hin hdr eq_refl).
  cbn [mbind option_bind]. destruct (decode_hdr _ hdr) as [e|[len rpcode]]; [by eexists|].
  destruct (recv_body_ends p' (S (Z.to_nat len + length (so_io s1))) (Z.to_nat len) [] s1) as (x & s2 & -> & Hle); [lia|].
  cbn [mbind option_bind]. destruct x as [e|m]; [by eexists|]. destruct (keep_packet _ _ _); [by eexists|]. apply IH. lia.
Qed.

(** Whatever bytes arrive and whatever the reads report, receiving ends with a message or an error. *)
Theorem recv_terminates decrypt p s : exists r, smb_nbst_recv decrypt p s = Some r.
Proof.
  unfold smb_nbst_recv, nbssn_recv. destruct (negb _); [by eexists|].
  destruct (recv_loop_ends (S (length (so_in s))) false p s) as [[[[e|[[m len] ty]] p'] s'] ->]; [lia|by eexists|].
  cbn [mbind option_bind]. destruct m as [|b m]; [by eexists|]. repeat (case_match; try by eexists).
Qed.

(** ** Names *)

(** First-level decoding of [RFC 1001] 14.1. *)
Fixpoint nb_decode (l : list Z) : list Z :=
  match l with
  | a :: b :: l => ((a - 0x41) * 16 + (b - 0x41)) :: nb_decode l
  | _ => []
  end.

Lemma nbencode_bytes c : is_byte c -> nbencode c = [c `div` 16 + 0x41; c `mod` 16 + 0x41].
Proof.
  intros Hc. unfold is_byte in Hc. unfold nbencode. rewrite Z.shiftr_div_pow2, Z.shiftl_mul_pow2 by lia.
  change 0xf with (Z.ones 4). rewrite Z.land_ones by lia. change (2 ^ 4) with 16.
  pose proof (Z.mod_pos_bound c 16). assert (0 <= c `div` 16 < 16) as Hd
    by (split; [apply Z.div_pos; lia|apply Z.div_lt_upper_bound; lia]).
  assert (Z.lor (c `div` 16) (c `mod` 16 * 2 ^ 8) = c `div` 16 + c `mod` 16 * 2 ^ 8) as ->.
  { rewrite <- Z.add_lor_land. replace (Z.land (c `div` 16) (c `mod` 16 * 2 ^ 8)) with 0; [lia|].
    symmetry. rewrite <- Z.shiftl_mul_pow2 by lia. apply Z.bits_inj'. intros k Hk. rewrite Z.land_spec, Z.bits_0.
    destruct (decide (k < 8)); [by rewrite Z.shiftl_spec_low, andb_false_r by lia|].
    rewrite (Z.bits_above_log2 (c `div` 16)); [done|lia|]. destruct (decide (c `div` 16 = 0)) as [->|]; [simpl; lia|].
    apply Z.log2_lt_pow2; [lia|]. pose proof (Z.pow_le_mono_r 2 8 k). lia. }
  unfold le_bytes. f_equal; [|f_equal].
  - replace (c `div` 16 + c `mod` 16 * 2 ^ 8 + 16705) with (c `div` 16 + 0x41 + (c `mod` 16 + 0x41) * 256) by lia.
    rewrite Z_mod_plus_full. apply Z.mod_small. lia.
  - replace (c `div` 16 + c `mod` 16 * 2 ^ 8 + 16705) with (c `div` 16 + 0x41 + (c `mod` 16 + 0x41) * 256) by lia.
    rewrite Z.div_add, (Z.div_small (c `div` 16 + 65)), Z.mod_small by lia. lia.
Qed.

Lemma nb_decode_encode l rest : Forall is_byte l -> nb_decode (concat (map nbencode l) ++ rest) = l ++ nb_decode rest.
Proof.
  induction 1 as [|c l Hc _ IH]; [done|]. cbn [map concat]. rewrite nbencode_bytes by done. cbn [app nb_decode]. rewrite IH.
  f_equal. pose proof (Z.div_mod c 16). lia.
Qed.

(** The sixteen characters of a name: its first fifteen, blanks, and its type. *)
Definition padded (nn_name : list Z) (nn_type : Z) : list Z :=
  let s := c_string 15 nn_name in s ++ replicate (15 - length s) 32 ++ [nn_type].

Lemma c_string_bytes n s : Forall is_byte s -> Forall is_byte (c_string n s).
Proof. revert s. induction n as [|n IH]; intros [|c s] Hs; simpl; try constructor. apply Forall_cons_1 in Hs as [Hc Hs]. destruct (c =? 0); constructor; auto. Qed.

Lemma c_string_length n s : (length (c_string n s) <= n)%nat.
Proof. revert s. induction n as [|n IH]; intros [|c s]; simpl; try lia. destruct (c =? 0); simpl; [lia|]. specialize (IH s). lia. Qed.

(** The encoding of a name that is not the star. *)
Lemma nb_name_encode_padded nn_name nn_type : take 2 nn_name <> [42; 0] ->
  nb_name_encode nn_name nn_type = 32 :: concat (map nbencode (padded nn_name nn_type)) ++ [0].
Proof.
  intros Hne. unfold nb_name_encode, padded, NB_NAMELEN. change (16 - 1)%nat with 15%nat.
  rewrite !map_app, !concat_app.
  assert (forall k, map nbencode (replicate k 32) = replicate k (nbencode 32)) as E by (induction k; simpl; congruence).
  rewrite E. cbn [map concat]. rewrite app_nil_r.
  rewrite bool_decide_false by done. by rewrite <- !app_assoc.
Qed.

Lemma padded_length nn_name nn_type : length (padded nn_name nn_type) = 16%nat.
Proof. unfold padded. rewrite !length_app, length_replicate. pose proof (c_string_length 15 nn_name).
  change (length [nn_type]) with 1%nat. lia. Qed.

Lemma padded_bytes nn_name nn_type : Forall is_byte nn_name -> is_byte nn_type -> Forall is_byte (padded nn_name nn_type).
Proof.
  intros Hn Ht. unfold padded. apply Forall_app. split; [by apply c_string_bytes|]. apply Forall_app.
  split; [apply Forall_replicate; unfold is_byte; lia|by constructor].
Qed.

Lemma length_encoded l : Forall is_byte l -> length (concat (map nbencode l)) = (2 * length l)%nat.
Proof.
  induction 1 as [|c l Hc _ IH]; [done|]. cbn [map concat]. rewrite length_app, IH, nbencode_bytes by done.
  simpl. lia.
Qed.

Lemma validate_step f name cp total c : name !! cp = Some c ->
  validate_loop (S f) name cp total
  = if c =? 0 then Some 0
    else if (u8 (c + 1) =? 0) || (Z.of_nat SNB_NAME_LEN <? u8 (total + u8 (c + 1))) then Some EINVAL
    else validate_loop f name (cp + Z.to_nat (u8 (c + 1))) (u8 (total + u8 (c + 1))).
Proof. intros E. cbn [validate_loop]. by rewrite E. Qed.

Lemma put_name_step f name cp acc c : name !! cp = Some c -> (cp + Z.to_nat (u8 (c + 1)) <= length name)%nat ->
  put_name_loop (S f) name cp acc
  = if u8 (c + 1) =? 1 then Some (acc ++ take (Z.to_nat (u8 (c + 1))) (drop cp name))
    else put_name_loop f name (cp + Z.to_nat (u8 (c + 1))) (acc ++ take (Z.to_nat (u8 (c + 1))) (drop cp name)).
Proof.
  intros E Hl. cbn [put_name_loop]. rewrite E. cbn [mbind option_bind].
  destruct (Nat.leb_spec (cp + Z.to_nat (u8 (c + 1))) (length name)); [done|lia].
Qed.

(** A name of one label of 32 bytes goes into a request as it is. *)
Lemma put_one_label body : length body = 32%nat -> nb_put_name (32 :: body ++ [0]) = Some (inr (32 :: body ++ [0])).
Proof.
  intros Hl. assert ((32 :: body ++ [0]) !! 33%nat = Some 0) as H33.
  { change (32 :: body ++ [0]) with ((32 :: body) ++ [0]). apply list_lookup_middle. simpl. lia. }
  assert ((32 :: body ++ [0]) !! 0%nat = Some 32) as H0 by done.
  assert (length (32 :: body ++ [0]) = 34%nat) as Hn by (simpl; rewrite length_app; simpl; lia).
  set (name := 32 :: body ++ [0]) in *. clearbody name.
  assert (nb_validate_name name = Some 0) as V.
  { unfold nb_validate_name. rewrite H0. transitivity (validate_loop 35 name 0 0); [reflexivity|].
    rewrite (validate_step 34 name 0 0 32 H0). transitivity (validate_loop 34 name 33 33); [reflexivity|].
    by rewrite (validate_step 33 name 33 33 0 H33). }
  assert (put_name_loop 35 name 0 [] = Some name) as P.
  { rewrite (put_name_step 34 name 0 [] 32 H0) by (rewrite Hn; vm_compute; lia).
    transitivity (put_name_loop 34 name 33 ([] ++ take 33 (drop 0 name))); [reflexivity|].
    rewrite (put_name_step 33 name 33 _ 0 H33) by (rewrite Hn; vm_compute; lia).
    transitivity (Some (([] ++ take 33 (drop 0 name)) ++ take 1 (drop 33 name))); [reflexivity|].
    rewrite drop_0, app_nil_l, take_take_drop. f_equal. apply take_ge. lia. }
  unfold nb_put_name. rewrite V. change (S SNB_NAME_LEN) with 35%nat. cbn [mbind option_bind]. change (0 =? 0) with true. cbn [negb].
  by rewrite P.
Qed.

(** The encoding of a name decodes to its first fifteen characters, blanks and its type, and is what the kernel puts
    into the request for a session. *)
Theorem name_roundtrip nn_name nn_type :
  Forall is_byte nn_name -> is_byte nn_type -> take 2 nn_name <> [42; 0] ->
  let name := nb_name_encode nn_name nn_type in
  length name = SNB_NAME_LEN /\ nb_decode (take 32 (drop 1 name)) = padded nn_name nn_type
  /\ nb_put_name name = Some (inr name).
Proof.
  intros Hn Ht Hs name. unfold name. rewrite nb_name_encode_padded by done.
  pose proof (padded_bytes _ _ Hn Ht) as Hb. pose proof (length_encoded _ Hb) as Hl. rewrite padded_length in Hl.
  split; [|split].
  - cbn [length]. rewrite length_app, Hl. done.
  - cbn [drop]. rewrite drop_0, take_app_length' by done. rewrite <- (app_nil_r (concat _)), nb_decode_encode by done.
    apply app_nil_r.
  - by apply put_one_label.
Qed.

Lemma name_roundtrip_witness :
  let name := nb_name_encode [83; 69; 82; 86; 69; 82; 0] 32 in
  length name = SNB_NAME_LEN /\ nb_decode (take 32 (drop 1 name)) = [83; 69; 82; 86; 69; 82] ++ replicate 9 32 ++ [32]
  /\ nb_put_name name = Some (inr name).
Proof.
  apply (name_roundtrip [83; 69; 82; 86; 69; 82; 0] 32); [|split; [discriminate|reflexivity]|discriminate].
  repeat (apply Forall_cons_2; [split; [discriminate|reflexivity]|]). constructor.
Defined.

(** ** Where the code does not do what it means to *)

(** The check of a name keeps the number of bytes in eight bits: a label of 254 bytes at the end makes it wrap, and the
    check goes on far behind the name. *)
Theorem name_check_wraps : nb_validate_name (32 :: replicate 32 65 ++ [254]) = None.
Proof. reflexivity. Qed.

(** A name that fills its array without a zero passes the comparison, and the byte behind it is read. *)
Theorem name_check_reads_past_end : nb_validate_name (33 :: replicate 33 65) = None.
Proof. reflexivity. Qed.

(** A server that sends the client to another address is never reached: the new connection is not marked as connected,
    so that the answer to the second request is not read. *)
Theorem retarget_never_connects o o2 l paddr laddr called calling p m p' s' :
  nb_put_name paddr = Some (inr called) -> nb_put_name laddr = Some (inr calling) ->
  op_send o = 0 -> op_tcp o = 0 -> op_send o2 = 0 ->
  nbssn_recv true (set_state NBST_RQSENT p) (op_socket o) = Some (inr (m, 6, NB_SSN_RTGRESP), p', s') ->
  exists p2 sent, nbssn_rq_request (o :: o2 :: l) paddr laddr p = Some (ENOTCONN, p2, sent) /\ nbf_connected p2 = false.
Proof.
  intros Hc Hl Hs Ht Hs2 Hr. cbn [nbssn_rq_request]. rewrite Hc, Hl. cbn [mbind option_bind]. rewrite Hs, Hr.
  change (negb (0 =? 0)) with false. cbn [mbind option_bind]. change (NB_SSN_RTGRESP =? NB_SSN_POSRESP) with false.
  change (negb (NB_SSN_RTGRESP =? NB_SSN_RTGRESP) || negb (6 =? 6)) with false. cbn iota.
  unfold tcp_connect. rewrite Ht. change (0 =? 0) with true. cbn [negb]. rewrite Hs2. change (negb (0 =? 0)) with false. cbn iota.
  unfold nbssn_recv. cbn [nbf_connected smb_nbst_disconnect set_state negb mbind option_bind].
  do 2 eexists. split; reflexivity.
Qed.

(** A message that is longer than the length field says is sent with a shorter length, and the rest of it is taken for
    the next packet. *)
Theorem long_message_cut p m : is_session p = true -> len_mask p < Z.of_nat (length m) < 2 ^ 32 ->
  exists len, smb_nbst_send true (Some p) m = inr (nb_sethdr p NB_SSN_MESSAGE len ++ m)
    /\ decode_hdr (nbf_netbios p) (nb_sethdr p NB_SSN_MESSAGE len) = inr (Z.land (Z.of_nat (length m)) (len_mask p), NB_SSN_MESSAGE).
Proof.
  intros Hs Hl. exists (Z.of_nat (length m)). unfold smb_nbst_send, is_session in *. destruct (nbp_state p); try discriminate Hs.
  cbn [negb]. rewrite u32_small by lia. split; [done|].
  set (a := Z.land (Z.of_nat (length m)) (len_mask p)).
  assert (nb_sethdr p NB_SSN_MESSAGE (Z.of_nat (length m)) = nb_sethdr p NB_SSN_MESSAGE a) as ->.
  { unfold nb_sethdr, a. by rewrite <- Z.land_assoc, Z.land_diag. }
  apply decode_sethdr; [unfold NB_SSN_MESSAGE; lia|done|]. unfold a. rewrite len_mask_ones.
  set (k := if nbf_netbios p then 17 else 24). assert (0 <= k) by (unfold k; destruct (nbf_netbios p); lia).
  rewrite Z.land_ones, Z.ones_equiv by done. pose proof (Z.mod_pos_bound (Z.of_nat (length m)) (2 ^ k)). lia.
Qed.
