(* ===== verification/Negot.v ===== *)
(** * Negotiation of the protocol

    [kernel/netsmb/smb_smb_2.c]: the client offers dialects and, for SMB 3.1.1, contexts
    with algorithms; the server picks.  The first channel of a session keeps what was
    picked, further channels and reconnects compare ([smb2_smb_negotiate],
    [smb2_smb_add_negotiate_contexts], [smb2_smb_parse_negotiate] and
    [smb2_smb_parse_negotiate_contexts]).

    The request is the list of the bytes that are put into the chain, its header apart.
    The salt, the name of the server as [smb_put_dmem] converts it, the outcome of
    allocations and what the server answers are inputs. *)
From S2P Require Import Prelude Chain Parser.
Import Errno.
Local Open Scope Z_scope.

(** ** Constants *)

Definition SMBV_USER_SECURITY := 0x01.
Definition SMBV_ENCRYPT_PASSWORD := 0x02.
Definition SMBV_SIGNING := 0x04.
Definition SMBV_SIGNING_REQUIRED := 0x08.
Definition SMBV_SMB30 := 0x800.
Definition SMBV_SMB2 := 0x1000.
Definition SMBV_SMB2002 := 0x2000.
Definition SMBV_SMB21 := 0x4000.
Definition SMBV_SMB302 := 0x8000.
Definition SMBV_SMB311 := 0x20000.
Definition SMBV_MULTICHANNEL_ON := 0x10000000.
Definition SMBV_DISABLE_311 := 0x40000000.

Definition SMBV_NEG_SMB1_ENABLED := 0x1.
Definition SMBV_NEG_SMB2_ENABLED := 0x2.
Definition SMBV_CLIENT_SIGNING_REQUIRED := 0x100.
Definition SMBV_NEG_SMB3_ENABLED := 0x1000.
Definition SMBV_SMB2_SIGNING_REQUIRED := 0x8000.
Definition SMBV_SMB3_SIGNING_REQUIRED := 0x10000.
Definition SMBV_ENABLE_AES_128_CCM := 0x01000000.
Definition SMBV_ENABLE_AES_128_GCM := 0x02000000.
Definition SMBV_ENABLE_AES_256_CCM := 0x04000000.
Definition SMBV_ENABLE_AES_256_GCM := 0x08000000.
Definition SMBV_ENABLE_AES_128_CMAC := 0x080000000.
Definition SMBV_ENABLE_AES_128_GMAC := 0x100000000.
Definition SMBV_COMPRESSION_CHAINING_OFF := 0x200000000.

Definition SMB_FLAGS_CASELESS := 0x08.
Definition SMB_FLAGS2_SECURITY_SIGNATURE := 0x0004.
Definition SMB_FLAGS2_ERR_STATUS := 0x4000.

Definition SMB2_DIALECT_0202 := 0x0202.
Definition SMB2_DIALECT_02ff := 0x02ff.
Definition SMB2_DIALECT_0210 := 0x0210.
Definition SMB2_DIALECT_0300 := 0x0300.
Definition SMB2_DIALECT_0302 := 0x0302.
Definition SMB2_DIALECT_0311 := 0x0311.

Definition SMB2_NEGOTIATE_SIGNING_ENABLED := 0x1.
Definition SMB2_NEGOTIATE_SIGNING_REQUIRED := 0x2.

Definition SMB2_GLOBAL_CAP_DFS := 0x01.
Definition SMB2_GLOBAL_CAP_LEASING := 0x02.
Definition SMB2_GLOBAL_CAP_LARGE_MTU := 0x04.
Definition SMB2_GLOBAL_CAP_MULTI_CHANNEL := 0x08.
Definition SMB2_GLOBAL_CAP_PERSISTENT_HANDLES := 0x10.
Definition SMB2_GLOBAL_CAP_DIRECTORY_LEASING := 0x20.
Definition SMB2_GLOBAL_CAP_ENCRYPTION := 0x40.

Definition SMB_CAP_DFS := 0x1000.
(** UNICODE, LARGE_FILES, RPC_REMOTE_APIS, STATUS32, LOCK_AND_READ, LARGE_READX, LARGE_WRITEX, EXT_SECURITY *)
Definition PRESET_CAPS := 0x8000c16c.
Definition SMB_RESP_TIMO_W_LEASING := 45.

Definition SMB2_PREAUTH_INTEGRITY_CAPABILITIES := 1.
Definition SMB2_ENCRYPTION_CAPABILITIES := 2.
Definition SMB2_COMPRESSION_CAPABILITIES := 3.
Definition SMB2_NETNAME_NEGOTIATE_CONTEXT_ID := 5.
Definition SMB2_SIGNING_CAPABILITIES := 8.
Definition SMB2_PREAUTH_INTEGRITY_SHA512 := 1.
Definition SMB2_ENCRYPTION_AES_128_CCM := 1.
Definition SMB2_ENCRYPTION_AES_128_GCM := 2.
Definition SMB2_ENCRYPTION_AES_256_CCM := 3.
Definition SMB2_ENCRYPTION_AES_256_GCM := 4.
Definition SMB2_COMPRESSION_CAPABILITIES_FLAG_NONE := 0.
Definition SMB2_COMPRESSION_CAPABILITIES_FLAG_CHAINED := 1.
Definition SMB2_COMPRESSION_NONE := 0.
Definition SMB2_COMPRESSION_LZNT1 := 1.
Definition SMB2_COMPRESSION_LZ77 := 2.
Definition SMB2_COMPRESSION_LZ77_HUFFMAN := 3.
Definition SMB2_COMPRESSION_PATTERN_V1 := 4.
Definition SMB2_COMPRESSION_LZNT1_ENABLED := 0x1.
Definition SMB2_COMPRESSION_LZ77_ENABLED := 0x2.
Definition SMB2_COMPRESSION_LZ77_HUFFMAN_ENABLED := 0x4.
Definition SMB2_COMPRESSION_PATTERN_V1_ENABLED := 0x8.
Definition SMB2_SIGNING_AES_CMAC := 1.
Definition SMB2_SIGNING_AES_GMAC := 2.

(** ** The session *)

(** What negotiation reads and writes of [struct smb_session], its [struct smb_sopt] and the [struct smbiod]. *)
Record nsession := NSession {
  session_flags : Z;
  session_misc_flags : Z;
  session_hflags : Z;
  session_hflags2 : Z;
  sv_caps : Z;
  sv_dialect : Z;
  sv_saved_capabilities : Z;
  sv_active_capabilities : Z;
  sv_maxtransact : Z;
  sv_maxread : Z;
  sv_maxwrite : Z;
  sv_guid : list Z;
  sv_security_mode : Z;
  neg_capabilities : Z;
  session_client_guid : list Z;
  neg_security_mode : Z;
  neg_dialect_count : Z;
  neg_dialects : list Z;  (* 8 elements *)
  session_ntwrk_sid : list Z;  (* the bytes that follow neg_dialects *)
  session_resp_wait_timeout : Z;
  session_smb3_encrypt_ciper : Z;
  session_smb3_signing_algorithm : Z;
  session_max_dialect : Z;
  client_compression_algorithms_map : Z;
  server_compression_algorithms_map : Z;
  negotiate_token : option (list Z)  (* of the iod *)
}.
Definition set_session_flags (x : Z) (r : nsession) : nsession :=
  NSession x (session_misc_flags r) (session_hflags r) (session_hflags2 r) (sv_caps r) (sv_dialect r)
    (sv_saved_capabilities r) (sv_active_capabilities r) (sv_maxtransact r) (sv_maxread r)
    (sv_maxwrite r) (sv_guid r) (sv_security_mode r) (neg_capabilities r) (session_client_guid r)
    (neg_security_mode r) (neg_dialect_count r) (neg_dialects r) (session_ntwrk_sid r)
    (session_resp_wait_timeout r) (session_smb3_encrypt_ciper r) (session_smb3_signing_algorithm r)
    (session_max_dialect r) (client_compression_algorithms_map r) (server_compression_algorithms_map
    r) (negotiate_token r).
Definition set_session_misc_flags (x : Z) (r : nsession) : nsession :=
  NSession (session_flags r) x (session_hflags r) (session_hflags2 r) (sv_caps r) (sv_dialect r)
    (sv_saved_capabilities r) (sv_active_capabilities r) (sv_maxtransact r) (sv_maxread r)
    (sv_maxwrite r) (sv_guid r) (sv_security_mode r) (neg_capabilities r) (session_client_guid r)
    (neg_security_mode r) (neg_dialect_count r) (neg_dialects r) (session_ntwrk_sid r)
    (session_resp_wait_timeout r) (session_smb3_encrypt_ciper r) (session_smb3_signing_algorithm r)
    (session_max_dialect r) (client_compression_algorithms_map r) (server_compression_algorithms_map
    r) (negotiate_token r).
Definition set_session_hflags (x : Z) (r : nsession) : nsession :=
  NSession (session_flags r) (session_misc_flags r) x (session_hflags2 r) (sv_caps r) (sv_dialect r)
    (sv_saved_capabilities r) (sv_active_capabilities r) (sv_maxtransact r) (sv_maxread r)
    (sv_maxwrite r) (sv_guid r) (sv_security_mode r) (neg_capabilities r) (session_client_guid r)
    (neg_security_mode r) (neg_dialect_count r) (neg_dialects r) (session_ntwrk_sid r)
    (session_resp_wait_timeout r) (session_smb3_encrypt_ciper r) (session_smb3_signing_algorithm r)
    (session_max_dialect r) (client_compression_algorithms_map r) (server_compression_algorithms_map
    r) (negotiate_token r).
Definition set_session_hflags2 (x : Z) (r : nsession) : nsession :=
  NSession (session_flags r) (session_misc_flags r) (session_hflags r) x (sv_caps r) (sv_dialect r)
    (sv_saved_capabilities r) (sv_active_capabilities r) (sv_maxtransact r) (sv_maxread r)
    (sv_maxwrite r) (sv_guid r) (sv_security_mode r) (neg_capabilities r) (session_client_guid r)
    (neg_security_mode r) (neg_dialect_count r) (neg_dialects r) (session_ntwrk_sid r)
    (session_resp_wait_timeout r) (session_smb3_encrypt_ciper r) (session_smb3_signing_algorithm r)
    (session_max_dialect r) (client_compression_algorithms_map r) (server_compression_algorithms_map
    r) (negotiate_token r).
Definition set_sv_caps (x : Z) (r : nsession) : nsession :=
  NSession (session_flags r) (session_misc_flags r) (session_hflags r) (session_hflags2 r) x
    (sv_dialect r) (sv_saved_capabilities r) (sv_active_capabilities r) (sv_maxtransact r)
    (sv_maxread r) (sv_maxwrite r) (sv_guid r) (sv_security_mode r) (neg_capabilities r)
    (session_client_guid r) (neg_security_mode r) (neg_dialect_count r) (neg_dialects r)
    (session_ntwrk_sid r) (session_resp_wait_timeout r) (session_smb3_encrypt_ciper r)
    (session_smb3_signing_algorithm r) (session_max_dialect r) (client_compression_algorithms_map r)
    (server_compression_algorithms_map r) (negotiate_token r).
Definition set_sv_dialect (x : Z) (r : nsession) : nsession :=
  NSession (session_flags r) (session_misc_flags r) (session_hflags r) (session_hflags2 r) (sv_caps r)
    x (sv_saved_capabilities r) (sv_active_capabilities r) (sv_maxtransact r) (sv_maxread r)
    (sv_maxwrite r) (sv_guid r) (sv_security_mode r) (neg_capabilities r) (session_client_guid r)
    (neg_security_mode r) (neg_dialect_count r) (neg_dialects r) (session_ntwrk_sid r)
    (session_resp_wait_timeout r) (session_smb3_encrypt_ciper r) (session_smb3_signing_algorithm r)
    (session_max_dialect r) (client_compression_algorithms_map r) (server_compression_algorithms_map
    r) (negotiate_token r).
Definition set_sv_saved_capabilities (x : Z) (r : nsession) : nsession :=
  NSession (session_flags r) (session_misc_flags r) (session_hflags r) (session_hflags2 r) (sv_caps r)
    (sv_dialect r) x (sv_active_capabilities r) (sv_maxtransact r) (sv_maxread r) (sv_maxwrite r)
    (sv_guid r) (sv_security_mode r) (neg_capabilities r) (session_client_guid r) (neg_security_mode
    r) (neg_dialect_count r) (neg_dialects r) (session_ntwrk_sid r) (session_resp_wait_timeout r)
    (session_smb3_encrypt_ciper r) (session_smb3_signing_algorithm r) (session_max_dialect r)
    (client_compression_algorithms_map r) (server_compression_algorithms_map r) (negotiate_token r).
Definition set_sv_active_capabilities (x : Z) (r : nsession) : nsession :=
  NSession (session_flags r) (session_misc_flags r) (session_hflags r) (session_hflags2 r) (sv_caps r)
    (sv_dialect r) (sv_saved_capabilities r) x (sv_maxtransact r) (sv_maxread r) (sv_maxwrite r)
    (sv_guid r) (sv_security_mode r) (neg_capabilities r) (session_client_guid r) (neg_security_mode
    r) (neg_dialect_count r) (neg_dialects r) (session_ntwrk_sid r) (session_resp_wait_timeout r)
    (session_smb3_encrypt_ciper r) (session_smb3_signing_algorithm r) (session_max_dialect r)
    (client_compression_algorithms_map r) (server_compression_algorithms_map r) (negotiate_token r).
Definition set_sv_maxtransact (x : Z) (r : nsession) : nsession :=
  NSession (session_flags r) (session_misc_flags r) (session_hflags r) (session_hflags2 r) (sv_caps r)
    (sv_dialect r) (sv_saved_capabilities r) (sv_active_capabilities r) x (sv_maxread r)
    (sv_maxwrite r) (sv_guid r) (sv_security_mode r) (neg_capabilities r) (session_client_guid r)
    (neg_security_mode r) (neg_dialect_count r) (neg_dialects r) (session_ntwrk_sid r)
    (session_resp_wait_timeout r) (session_smb3_encrypt_ciper r) (session_smb3_signing_algorithm r)
    (session_max_dialect r) (client_compression_algorithms_map r) (server_compression_algorithms_map
    r) (negotiate_token r).
Definition set_sv_maxread (x : Z) (r : nsession) : nsession :=
  NSession (session_flags r) (session_misc_flags r) (session_hflags r) (session_hflags2 r) (sv_caps r)
    (sv_dialect r) (sv_saved_capabilities r) (sv_active_capabilities r) (sv_maxtransact r) x
    (sv_maxwrite r) (sv_guid r) (sv_security_mode r) (neg_capabilities r) (session_client_guid r)
    (neg_security_mode r) (neg_dialect_count r) (neg_dialects r) (session_ntwrk_sid r)
    (session_resp_wait_timeout r) (session_smb3_encrypt_ciper r) (session_smb3_signing_algorithm r)
    (session_max_dialect r) (client_compression_algorithms_map r) (server_compression_algorithms_map
    r) (negotiate_token r).
Definition set_sv_maxwrite (x : Z) (r : nsession) : nsession :=
  NSession (session_flags r) (session_misc_flags r) (session_hflags r) (session_hflags2 r) (sv_caps r)
    (sv_dialect r) (sv_saved_capabilities r) (sv_active_capabilities r) (sv_maxtransact r)
    (sv_maxread r) x (sv_guid r) (sv_security_mode r) (neg_capabilities r) (session_client_guid r)
    (neg_security_mode r) (neg_dialect_count r) (neg_dialects r) (session_ntwrk_sid r)
    (session_resp_wait_timeout r) (session_smb3_encrypt_ciper r) (session_smb3_signing_algorithm r)
    (session_max_dialect r) (client_compression_algorithms_map r) (server_compression_algorithms_map
    r) (negotiate_token r).
Definition set_sv_guid (x : list Z) (r : nsession) : nsession :=
  NSession (session_flags r) (session_misc_flags r) (session_hflags r) (session_hflags2 r) (sv_caps r)
    (sv_dialect r) (sv_saved_capabilities r) (sv_active_capabilities r) (sv_maxtransact r)
    (sv_maxread r) (sv_maxwrite r) x (sv_security_mode r) (neg_capabilities r) (session_client_guid
    r) (neg_security_mode r) (neg_dialect_count r) (neg_dialects r) (session_ntwrk_sid r)
    (session_resp_wait_timeout r) (session_smb3_encrypt_ciper r) (session_smb3_signing_algorithm r)
    (session_max_dialect r) (client_compression_algorithms_map r) (server_compression_algorithms_map
    r) (negotiate_token r).
Definition set_sv_security_mode (x : Z) (r : nsession) : nsession :=
  NSession (session_flags r) (session_misc_flags r) (session_hflags r) (session_hflags2 r) (sv_caps r)
    (sv_dialect r) (sv_saved_capabilities r) (sv_active_capabilities r) (sv_maxtransact r)
    (sv_maxread r) (sv_maxwrite r) (sv_guid r) x (neg_capabilities r) (session_client_guid r)
    (neg_security_mode r) (neg_dialect_count r) (neg_dialects r) (session_ntwrk_sid r)
    (session_resp_wait_timeout r) (session_smb3_encrypt_ciper r) (session_smb3_signing_algorithm r)
    (session_max_dialect r) (client_compression_algorithms_map r) (server_compression_algorithms_map
    r) (negotiate_token r).
Definition set_neg_capabilities (x : Z) (r : nsession) : nsession :=
  NSession (session_flags r) (session_misc_flags r) (session_hflags r) (session_hflags2 r) (sv_caps r)
    (sv_dialect r) (sv_saved_capabilities r) (sv_active_capabilities r) (sv_maxtransact r)
    (sv_maxread r) (sv_maxwrite r) (sv_guid r) (sv_security_mode r) x (session_client_guid r)
    (neg_security_mode r) (neg_dialect_count r) (neg_dialects r) (session_ntwrk_sid r)
    (session_resp_wait_timeout r) (session_smb3_encrypt_ciper r) (session_smb3_signing_algorithm r)
    (session_max_dialect r) (client_compression_algorithms_map r) (server_compression_algorithms_map
    r) (negotiate_token r).
Definition set_session_client_guid (x : list Z) (r : nsession) : nsession :=
  NSession (session_flags r) (session_misc_flags r) (session_hflags r) (session_hflags2 r) (sv_caps r)
    (sv_dialect r) (sv_saved_capabilities r) (sv_active_capabilities r) (sv_maxtransact r)
    (sv_maxread r) (sv_maxwrite r) (sv_guid r) (sv_security_mode r) (neg_capabilities r) x
    (neg_security_mode r) (neg_dialect_count r) (neg_dialects r) (session_ntwrk_sid r)
    (session_resp_wait_timeout r) (session_smb3_encrypt_ciper r) (session_smb3_signing_algorithm r)
    (session_max_dialect r) (client_compression_algorithms_map r) (server_compression_algorithms_map
    r) (negotiate_token r).
Definition set_neg_security_mode (x : Z) (r : nsession) : nsession :=
  NSession (session_flags r) (session_misc_flags r) (session_hflags r) (session_hflags2 r) (sv_caps r)
    (sv_dialect r) (sv_saved_capabilities r) (sv_active_capabilities r) (sv_maxtransact r)
    (sv_maxread r) (sv_maxwrite r) (sv_guid r) (sv_security_mode r) (neg_capabilities r)
    (session_client_guid r) x (neg_dialect_count r) (neg_dialects r) (session_ntwrk_sid r)
    (session_resp_wait_timeout r) (session_smb3_encrypt_ciper r) (session_smb3_signing_algorithm r)
    (session_max_dialect r) (client_compression_algorithms_map r) (server_compression_algorithms_map
    r) (negotiate_token r).
Definition set_neg_dialect_count (x : Z) (r : nsession) : nsession :=
  NSession (session_flags r) (session_misc_flags r) (session_hflags r) (session_hflags2 r) (sv_caps r)
    (sv_dialect r) (sv_saved_capabilities r) (sv_active_capabilities r) (sv_maxtransact r)
    (sv_maxread r) (sv_maxwrite r) (sv_guid r) (sv_security_mode r) (neg_capabilities r)
    (session_client_guid r) (neg_security_mode r) x (neg_dialects r) (session_ntwrk_sid r)
    (session_resp_wait_timeout r) (session_smb3_encrypt_ciper r) (session_smb3_signing_algorithm r)
    (session_max_dialect r) (client_compression_algorithms_map r) (server_compression_algorithms_map
    r) (negotiate_token r).
Definition set_neg_dialects (x : list Z) (r : nsession) : nsession :=
  NSession (session_flags r) (session_misc_flags r) (session_hflags r) (session_hflags2 r) (sv_caps r)
    (sv_dialect r) (sv_saved_capabilities r) (sv_active_capabilities r) (sv_maxtransact r)
    (sv_maxread r) (sv_maxwrite r) (sv_guid r) (sv_security_mode r) (neg_capabilities r)
    (session_client_guid r) (neg_security_mode r) (neg_dialect_count r) x (session_ntwrk_sid r)
    (session_resp_wait_timeout r) (session_smb3_encrypt_ciper r) (session_smb3_signing_algorithm r)
    (session_max_dialect r) (client_compression_algorithms_map r) (server_compression_algorithms_map
    r) (negotiate_token r).
Definition set_session_ntwrk_sid (x : list Z) (r : nsession) : nsession :=
  NSession (session_flags r) (session_misc_flags r) (session_hflags r) (session_hflags2 r) (sv_caps r)
    (sv_dialect r) (sv_saved_capabilities r) (sv_active_capabilities r) (sv_maxtransact r)
    (sv_maxread r) (sv_maxwrite r) (sv_guid r) (sv_security_mode r) (neg_capabilities r)
    (session_client_guid r) (neg_security_mode r) (neg_dialect_count r) (neg_dialects r) x
    (session_resp_wait_timeout r) (session_smb3_encrypt_ciper r) (session_smb3_signing_algorithm r)
    (session_max_dialect r) (client_compression_algorithms_map r) (server_compression_algorithms_map
    r) (negotiate_token r).
Definition set_session_resp_wait_timeout (x : Z) (r : nsession) : nsession :=
  NSession (session_flags r) (session_misc_flags r) (session_hflags r) (session_hflags2 r) (sv_caps r)
    (sv_dialect r) (sv_saved_capabilities r) (sv_active_capabilities r) (sv_maxtransact r)
    (sv_maxread r) (sv_maxwrite r) (sv_guid r) (sv_security_mode r) (neg_capabilities r)
    (session_client_guid r) (neg_security_mode r) (neg_dialect_count r) (neg_dialects r)
    (session_ntwrk_sid r) x (session_smb3_encrypt_ciper r) (session_smb3_signing_algorithm r)
    (session_max_dialect r) (client_compression_algorithms_map r) (server_compression_algorithms_map
    r) (negotiate_token r).
Definition set_session_smb3_encrypt_ciper (x : Z) (r : nsession) : nsession :=
  NSession (session_flags r) (session_misc_flags r) (session_hflags r) (session_hflags2 r) (sv_caps r)
    (sv_dialect r) (sv_saved_capabilities r) (sv_active_capabilities r) (sv_maxtransact r)
    (sv_maxread r) (sv_maxwrite r) (sv_guid r) (sv_security_mode r) (neg_capabilities r)
    (session_client_guid r) (neg_security_mode r) (neg_dialect_count r) (neg_dialects r)
    (session_ntwrk_sid r) (session_resp_wait_timeout r) x (session_smb3_signing_algorithm r)
    (session_max_dialect r) (client_compression_algorithms_map r) (server_compression_algorithms_map
    r) (negotiate_token r).
Definition set_session_smb3_signing_algorithm (x : Z) (r : nsession) : nsession :=
  NSession (session_flags r) (session_misc_flags r) (session_hflags r) (session_hflags2 r) (sv_caps r)
    (sv_dialect r) (sv_saved_capabilities r) (sv_active_capabilities r) (sv_maxtransact r)
    (sv_maxread r) (sv_maxwrite r) (sv_guid r) (sv_security_mode r) (neg_capabilities r)
    (session_client_guid r) (neg_security_mode r) (neg_dialect_count r) (neg_dialects r)
    (session_ntwrk_sid r) (session_resp_wait_timeout r) (session_smb3_encrypt_ciper r) x
    (session_max_dialect r) (client_compression_algorithms_map r) (server_compression_algorithms_map
    r) (negotiate_token r).
Definition set_session_max_dialect (x : Z) (r : nsession) : nsession :=
  NSession (session_flags r) (session_misc_flags r) (session_hflags r) (session_hflags2 r) (sv_caps r)
    (sv_dialect r) (sv_saved_capabilities r) (sv_active_capabilities r) (sv_maxtransact r)
    (sv_maxread r) (sv_maxwrite r) (sv_guid r) (sv_security_mode r) (neg_capabilities r)
    (session_client_guid r) (neg_security_mode r) (neg_dialect_count r) (neg_dialects r)
    (session_ntwrk_sid r) (session_resp_wait_timeout r) (session_smb3_encrypt_ciper r)
    (session_smb3_signing_algorithm r) x (client_compression_algorithms_map r)
    (server_compression_algorithms_map r) (negotiate_token r).
Definition set_client_compression_algorithms_map (x : Z) (r : nsession) : nsession :=
  NSession (session_flags r) (session_misc_flags r) (session_hflags r) (session_hflags2 r) (sv_caps r)
    (sv_dialect r) (sv_saved_capabilities r) (sv_active_capabilities r) (sv_maxtransact r)
    (sv_maxread r) (sv_maxwrite r) (sv_guid r) (sv_security_mode r) (neg_capabilities r)
    (session_client_guid r) (neg_security_mode r) (neg_dialect_count r) (neg_dialects r)
    (session_ntwrk_sid r) (session_resp_wait_timeout r) (session_smb3_encrypt_ciper r)
    (session_smb3_signing_algorithm r) (session_max_dialect r) x (server_compression_algorithms_map
    r) (negotiate_token r).
Definition set_server_compression_algorithms_map (x : Z) (r : nsession) : nsession :=
  NSession (session_flags r) (session_misc_flags r) (session_hflags r) (session_hflags2 r) (sv_caps r)
    (sv_dialect r) (sv_saved_capabilities r) (sv_active_capabilities r) (sv_maxtransact r)
    (sv_maxread r) (sv_maxwrite r) (sv_guid r) (sv_security_mode r) (neg_capabilities r)
    (session_client_guid r) (neg_security_mode r) (neg_dialect_count r) (neg_dialects r)
    (session_ntwrk_sid r) (session_resp_wait_timeout r) (session_smb3_encrypt_ciper r)
    (session_smb3_signing_algorithm r) (session_max_dialect r) (client_compression_algorithms_map r)
    x (negotiate_token r).
Definition set_negotiate_token (x : option (list Z)) (r : nsession) : nsession :=
  NSession (session_flags r) (session_misc_flags r) (session_hflags r) (session_hflags2 r) (sv_caps r)
    (sv_dialect r) (sv_saved_capabilities r) (sv_active_capabilities r) (sv_maxtransact r)
    (sv_maxread r) (sv_maxwrite r) (sv_guid r) (sv_security_mode r) (neg_capabilities r)
    (session_client_guid r) (neg_security_mode r) (neg_dialect_count r) (neg_dialects r)
    (session_ntwrk_sid r) (session_resp_wait_timeout r) (session_smb3_encrypt_ciper r)
    (session_smb3_signing_algorithm r) (session_max_dialect r) (client_compression_algorithms_map r)
    (server_compression_algorithms_map r) x.

(** ** What the client offers *)

Definition smb2_smb_get_client_capabilities (s : nsession) : Z :=
  if has (session_misc_flags s) SMBV_NEG_SMB3_ENABLED then
    let caps := Z.lor SMB2_GLOBAL_CAP_DFS (Z.lor SMB2_GLOBAL_CAP_LEASING (Z.lor SMB2_GLOBAL_CAP_LARGE_MTU
      (Z.lor SMB2_GLOBAL_CAP_PERSISTENT_HANDLES (Z.lor SMB2_GLOBAL_CAP_DIRECTORY_LEASING SMB2_GLOBAL_CAP_ENCRYPTION)))) in
    if has (session_flags s) SMBV_MULTICHANNEL_ON then Z.lor caps SMB2_GLOBAL_CAP_MULTI_CHANNEL else caps
  else 0.

Definition smb2_smb_get_client_security_mode (s : nsession) : Z :=
  if has (session_misc_flags s) SMBV_CLIENT_SIGNING_REQUIRED then SMB2_NEGOTIATE_SIGNING_REQUIRED
  else SMB2_NEGOTIATE_SIGNING_ENABLED.

Definition all_dialects : list Z :=
  [SMB2_DIALECT_0202; SMB2_DIALECT_0210; SMB2_DIALECT_0300; SMB2_DIALECT_0302; SMB2_DIALECT_0311].

(** The first elements of [neg_dialects]. *)
Definition put_dialects (l : list Z) (s : nsession) : nsession := set_neg_dialects (splice 0 l (neg_dialects s)) s.

(** [*dialect_cnt] for [session_max_dialect]. *)
Definition max_dialect_cnt (d : Z) : Z :=
  if d =? SMB2_DIALECT_0202 then 1 else if d =? SMB2_DIALECT_0210 then 2 else if d =? SMB2_DIALECT_0300 then 3
  else if d =? SMB2_DIALECT_0302 then 4 else 5.

(** The [memset] behind the dialects: its length counts elements of two bytes but is computed from the size
    of the array in bytes, so that it also clears as many bytes as the array has behind the array. *)
Definition clear_rest (cnt : nat) (s : nsession) : nsession :=
  let size := (2 * length (neg_dialects s))%nat in
  let len := (2 * (size - cnt))%nat in
  let over := (2 * cnt + len - size)%nat in
  set_session_ntwrk_sid (splice 0 (replicate over 0) (session_ntwrk_sid s))
    (set_neg_dialects (splice cnt (replicate (length (neg_dialects s) - cnt) 0) (neg_dialects s)) s).

(** The one dialect of a reconnect. *)
Definition current_dialect (flags : Z) : option Z :=
  if has flags SMBV_SMB311 then Some SMB2_DIALECT_0311
  else if has flags SMBV_SMB302 then Some SMB2_DIALECT_0302
  else if has flags SMBV_SMB30 then Some SMB2_DIALECT_0300
  else if has flags SMBV_SMB21 then Some SMB2_DIALECT_0210
  else if has flags SMBV_SMB2002 then Some SMB2_DIALECT_0202
  else None.

(** Into [neg_dialect_count] and [neg_dialects]: the error and the session. *)
Definition smb2_smb_get_client_dialects (inReconnect : bool) (s : nsession) : Z * nsession :=
  let misc := session_misc_flags s in
  if negb inReconnect then
    (0, if has misc SMBV_NEG_SMB3_ENABLED && has misc SMBV_NEG_SMB2_ENABLED then
          put_dialects all_dialects
            (set_neg_dialect_count (if has (session_flags s) SMBV_DISABLE_311 then 4 else 5) s)
        else if has misc SMBV_NEG_SMB3_ENABLED then
          put_dialects [SMB2_DIALECT_0300; SMB2_DIALECT_0302; SMB2_DIALECT_0311] (set_neg_dialect_count 3 s)
        else if has misc SMBV_NEG_SMB2_ENABLED then
          put_dialects [SMB2_DIALECT_0202; SMB2_DIALECT_0210] (set_neg_dialect_count 2 s)
        else s)
  else
    let s := set_neg_dialect_count 1 s in
    if negb (session_max_dialect s =? 0) then
      let cnt := max_dialect_cnt (session_max_dialect s) in
      (0, set_session_max_dialect 0 (clear_rest (Z.to_nat cnt) (put_dialects all_dialects (set_neg_dialect_count cnt s))))
    else match current_dialect (session_flags s) with
         | Some d => (0, put_dialects [d] s)
         | None => (EINVAL, s)
         end.

(** ** Contexts of the request *)

Definition put16 : Z -> list Z := le_bytes 2.
Definition put32 : Z -> list Z := le_bytes 4.

(** Zeros up to the next boundary of 8 bytes. *)
Definition pad8 (len : Z) : list Z := if len mod 8 =? 0 then [] else replicate (Z.to_nat (8 - len mod 8)) 0.

(** The header of a context, its data and the zeros behind it; [context_len] is kept beside the bytes. *)
Definition put_context (ty datalen : Z) (data : list Z) : list Z :=
  put16 ty ++ put16 datalen ++ put32 0 ++ data ++ pad8 (8 + datalen).

Definition put_preauth (salt : list Z) : list Z :=
  put_context SMB2_PREAUTH_INTEGRITY_CAPABILITIES 38 (put16 1 ++ put16 32 ++ put16 SMB2_PREAUTH_INTEGRITY_SHA512 ++ salt).

(** The values of a table whose flag is set. *)
Fixpoint chosen (flags : Z) (table : list (Z * Z)) : list Z :=
  match table with
  | [] => []
  | (f, v) :: t => if has flags f then v :: chosen flags t else chosen flags t
  end.

(** How many of the flags are set. *)
Fixpoint count_set (flags : Z) (fs : list Z) : Z :=
  match fs with [] => 0 | f :: t => (if has flags f then 1 else 0) + count_set flags t end.

Definition cipher_table : list (Z * Z) :=
  [(SMBV_ENABLE_AES_256_GCM, SMB2_ENCRYPTION_AES_256_GCM); (SMBV_ENABLE_AES_256_CCM, SMB2_ENCRYPTION_AES_256_CCM);
   (SMBV_ENABLE_AES_128_GCM, SMB2_ENCRYPTION_AES_128_GCM); (SMBV_ENABLE_AES_128_CCM, SMB2_ENCRYPTION_AES_128_CCM)].

Definition put_ciphers (inReconnect : bool) (s : nsession) : list Z * nsession :=
  if inReconnect then
    (put_context SMB2_ENCRYPTION_CAPABILITIES 4 (put16 1 ++ put16 (session_smb3_encrypt_ciper s)), s)
  else
    let n := count_set (session_misc_flags s)
               [SMBV_ENABLE_AES_128_CCM; SMBV_ENABLE_AES_128_GCM; SMBV_ENABLE_AES_256_CCM; SMBV_ENABLE_AES_256_GCM] in
    let s := if n =? 0 then set_session_misc_flags (Z.lor (session_misc_flags s) SMBV_ENABLE_AES_128_CCM) s else s in
    let n := if n =? 0 then 1 else n in
    (put_context SMB2_ENCRYPTION_CAPABILITIES (2 + 2 * n)
       (put16 n ++ concat (map put16 (chosen (session_misc_flags s) cipher_table))), s).

Definition compression_table : list (Z * Z) :=
  [(SMB2_COMPRESSION_LZ77_HUFFMAN_ENABLED, SMB2_COMPRESSION_LZ77_HUFFMAN); (SMB2_COMPRESSION_LZ77_ENABLED, SMB2_COMPRESSION_LZ77);
   (SMB2_COMPRESSION_LZNT1_ENABLED, SMB2_COMPRESSION_LZNT1); (SMB2_COMPRESSION_PATTERN_V1_ENABLED, SMB2_COMPRESSION_PATTERN_V1)].

Definition put_compression (s : nsession) : list Z * nsession :=
  let off := has (session_misc_flags s) SMBV_COMPRESSION_CHAINING_OFF in
  let pattern := has (client_compression_algorithms_map s) SMB2_COMPRESSION_PATTERN_V1_ENABLED in
  let n := count_set (client_compression_algorithms_map s)
             [SMB2_COMPRESSION_LZNT1_ENABLED; SMB2_COMPRESSION_LZ77_ENABLED; SMB2_COMPRESSION_LZ77_HUFFMAN_ENABLED] in
  let s := if pattern && off
           then set_client_compression_algorithms_map
                  (clear_bits (client_compression_algorithms_map s) SMB2_COMPRESSION_PATTERN_V1_ENABLED) s
           else s in
  let n := if pattern && negb off then n + 1 else n in
  (if n =? 0 then
     put_context SMB2_COMPRESSION_CAPABILITIES 10
       (put16 1 ++ put16 0 ++ put32 SMB2_COMPRESSION_CAPABILITIES_FLAG_NONE ++ put16 SMB2_COMPRESSION_NONE)
   else
     put_context SMB2_COMPRESSION_CAPABILITIES (8 + 2 * n)
       (put16 n ++ put16 0
        ++ put32 (if off then SMB2_COMPRESSION_CAPABILITIES_FLAG_NONE else SMB2_COMPRESSION_CAPABILITIES_FLAG_CHAINED)
        ++ concat (map put16 (chosen (client_compression_algorithms_map s) compression_table))), s).

Definition signing_table : list (Z * Z) :=
  [(SMBV_ENABLE_AES_128_GMAC, SMB2_SIGNING_AES_GMAC); (SMBV_ENABLE_AES_128_CMAC, SMB2_SIGNING_AES_CMAC)].

Definition put_signing (inReconnect : bool) (s : nsession) : list Z * nsession :=
  if inReconnect then
    (put_context SMB2_SIGNING_CAPABILITIES 4 (put16 1 ++ put16 (session_smb3_signing_algorithm s)), s)
  else
    let n := count_set (session_misc_flags s) [SMBV_ENABLE_AES_128_CMAC; SMBV_ENABLE_AES_128_GMAC] in
    let s := if n =? 0 then set_session_misc_flags (Z.lor (session_misc_flags s) SMBV_ENABLE_AES_128_CMAC) s else s in
    let n := if n =? 0 then 1 else n in
    (put_context SMB2_SIGNING_CAPABILITIES (2 + 2 * n)
       (put16 n ++ concat (map put16 (chosen (session_misc_flags s) signing_table))), s).

(** The bytes and the number of contexts, or an error; [name] is the name of the server in the form of the network. *)
Definition smb2_smb_add_negotiate_contexts (inReconnect : bool) (salt : list Z) (name : Z + list Z) (s : nsession)
  : (Z + list Z * Z) * nsession :=
  let '(ciphers, s) := put_ciphers inReconnect s in
  let '(compression, s) := put_compression s in
  let '(signing, s) := put_signing inReconnect s in
  (match name with
   | inl e => inl e
   | inr name =>
       inr (put_preauth salt ++ ciphers ++ compression ++ signing
            ++ put16 SMB2_NETNAME_NEGOTIATE_CONTEXT_ID ++ put16 (Z.of_nat (length name)) ++ put32 0 ++ name, 5)
   end, s).

(** The body of the request, or an error. *)
Definition negotiate_request (alternate inReconnect : bool) (salt : list Z) (name : Z + list Z) (s : nsession)
  : (Z + list Z) * nsession :=
  let again := inReconnect || alternate in
  let '(error, s) := smb2_smb_get_client_dialects again s in
  if negb (error =? 0) then (inl error, s)
  else
    let s := set_neg_capabilities (smb2_smb_get_client_capabilities s)
               (set_neg_security_mode (smb2_smb_get_client_security_mode s) s) in
    let dialects := take (Z.to_nat (neg_dialect_count s)) (neg_dialects s) in
    let enabled := negb (has (session_flags s) SMBV_DISABLE_311) in
    let neg_len := 36 + 2 * neg_dialect_count s in
    let pad := if enabled then pad8 neg_len else [] in
    let add := enabled &&
      (if again then bool_decide (neg_dialects s !! O = Some SMB2_DIALECT_0311)
       else has (session_misc_flags s) SMBV_NEG_SMB3_ENABLED) in
    let body off cnt contexts :=
      put16 36 ++ put16 (neg_dialect_count s) ++ put16 (neg_security_mode s) ++ put16 0 ++ put32 (neg_capabilities s)
      ++ session_client_guid s ++ put32 off ++ put16 cnt ++ put16 0 ++ concat (map put16 dialects) ++ pad ++ contexts in
    if add then
      match smb2_smb_add_negotiate_contexts again salt name s with
      | (inl e, s) => (inl e, s)
      | (inr (contexts, cnt), s) => (inr (body (neg_len + Z.of_nat (length pad) + 64) cnt contexts), s)
      end
    else (inr (body 0 0 []), s).

(** ** The reply *)

Definition save (f : nsession -> nsession) : parser nsession unit := change f.

(** An alternate channel compares, the main channel keeps. *)
Definition agree (alternate : bool) (same : nsession -> bool) (keep : nsession -> nsession) : parser nsession unit :=
  if alternate then s ← look; if same s then mret tt else fail EINVAL else save keep.

Definition add_flags (f : Z) (s : nsession) : nsession := set_session_flags (Z.lor (session_flags s) f) s.

Definition keep_mode (mode : Z) (s : nsession) : nsession :=
  let s := set_sv_security_mode mode s in
  let s := if has mode SMB2_NEGOTIATE_SIGNING_ENABLED then add_flags SMBV_SIGNING s else s in
  let s := if has mode SMB2_NEGOTIATE_SIGNING_REQUIRED then add_flags SMBV_SIGNING_REQUIRED s else s in
  let s := if has mode SMB2_NEGOTIATE_SIGNING_REQUIRED || has (session_misc_flags s) SMBV_CLIENT_SIGNING_REQUIRED
           then set_session_hflags2 (Z.lor (session_hflags2 s) SMB_FLAGS2_SECURITY_SIGNATURE) s else s in
  add_flags (Z.lor SMBV_USER_SECURITY SMBV_ENCRYPT_PASSWORD) s.

(** The flags of a dialect. *)
Definition dialect_flags (d : Z) : option Z :=
  if d =? SMB2_DIALECT_0311 then Some (Z.lor SMBV_SMB2 SMBV_SMB311)
  else if d =? SMB2_DIALECT_0302 then Some (Z.lor SMBV_SMB2 SMBV_SMB302)
  else if d =? SMB2_DIALECT_0300 then Some (Z.lor SMBV_SMB2 SMBV_SMB30)
  else if d =? SMB2_DIALECT_0210 then Some (Z.lor SMBV_SMB2 SMBV_SMB21)
  else if d =? SMB2_DIALECT_02ff then Some SMBV_SMB2
  else if d =? SMB2_DIALECT_0202 then Some (Z.lor SMBV_SMB2 SMBV_SMB2002)
  else None.

(** Is this all that is read of the reply?  [smb1_req]: it answers a negotiation of SMB 1. *)
Definition parse_dialect (alternate smb1_req : bool) : parser nsession bool :=
  d ← get_le 2;
  if alternate then
    agree true (fun s => d =? sv_dialect s) id;; mret false
  else
    save (set_sv_dialect d);;
    match dialect_flags d with
    | None => fail ENOTSUP
    | Some f => save (add_flags f);; mret (negb (d =? SMB2_DIALECT_0202) && negb (d =? SMB2_DIALECT_0210) && smb1_req)
    end.

Definition smb3_or_later (s : nsession) : bool := has (session_flags s) (Z.lor SMBV_SMB30 (Z.lor SMBV_SMB302 SMBV_SMB311)).
Definition smb21_or_later (s : nsession) : bool :=
  has (session_flags s) (Z.lor SMBV_SMB21 (Z.lor SMBV_SMB30 (Z.lor SMBV_SMB302 SMBV_SMB311))).

Definition keep_caps (caps : Z) (s : nsession) : nsession :=
  let s := set_sv_saved_capabilities caps s in
  let caps := if has caps SMB2_GLOBAL_CAP_LEASING then caps else clear_bits caps SMB2_GLOBAL_CAP_DIRECTORY_LEASING in
  let s := set_sv_active_capabilities caps s in
  let s := set_sv_caps (if has caps SMB2_GLOBAL_CAP_DFS then Z.lor PRESET_CAPS SMB_CAP_DFS else PRESET_CAPS) s in
  let s := if smb3_or_later s && has caps SMB2_GLOBAL_CAP_MULTI_CHANNEL && has (neg_capabilities s) SMB2_GLOBAL_CAP_MULTI_CHANNEL
           then add_flags SMBV_MULTICHANNEL_ON s
           else set_session_flags (clear_bits (session_flags s) SMBV_MULTICHANNEL_ON) s in
  if smb21_or_later s && has caps SMB2_GLOBAL_CAP_LEASING && (session_resp_wait_timeout s <? SMB_RESP_TIMO_W_LEASING)
  then set_session_resp_wait_timeout SMB_RESP_TIMO_W_LEASING s else s.

(** *** Contexts *)

Fixpoint skip_algorithms (n : nat) : parser nsession unit :=
  match n with O => mret tt | S n => _ ← get_le 2; skip_algorithms n end.

Definition compression_flag (a : Z) : Z :=
  if a =? SMB2_COMPRESSION_LZ77_HUFFMAN then SMB2_COMPRESSION_LZ77_HUFFMAN_ENABLED
  else if a =? SMB2_COMPRESSION_LZ77 then SMB2_COMPRESSION_LZ77_ENABLED
  else if a =? SMB2_COMPRESSION_LZNT1 then SMB2_COMPRESSION_LZNT1_ENABLED
  else if a =? SMB2_COMPRESSION_PATTERN_V1 then SMB2_COMPRESSION_PATTERN_V1_ENABLED
  else 0.

Fixpoint keep_compression (n : nat) : parser nsession unit :=
  match n with
  | O => mret tt
  | S n =>
      a ← get_le 2;
      save (fun s => set_server_compression_algorithms_map
                       (Z.lor (server_compression_algorithms_map s) (compression_flag a)) s);;
      keep_compression n
  end.

Definition ctx_preauth : parser nsession unit :=
  hash_algorithm_cnt ← get_le 2;
  salt_len ← get_le 2;
  skip_algorithms (Z.to_nat hash_algorithm_cnt);;
  skip salt_len.

Definition ctx_encryption (alternate : bool) : parser nsession unit :=
  cipher_cnt ← get_le 2;
  if negb (cipher_cnt =? 1) then fail EBADRPC
  else
    c ← get_le 2;
    agree alternate (fun s => c =? session_smb3_encrypt_ciper s) (set_session_smb3_encrypt_ciper c).

Definition ctx_compression : parser nsession unit :=
  cnt ← get_le 2;
  _ ← get_le 2;
  flags ← get_le 4;
  save (fun s => if negb (has (session_misc_flags s) SMBV_COMPRESSION_CHAINING_OFF)
                    && (flags =? SMB2_COMPRESSION_CAPABILITIES_FLAG_NONE)
                 then set_session_misc_flags (Z.lor (session_misc_flags s) SMBV_COMPRESSION_CHAINING_OFF) s else s);;
  keep_compression (Z.to_nat cnt).

Definition ctx_signing : parser nsession unit :=
  signing_cnt ← get_le 2;
  if negb (signing_cnt =? 1) then fail EBADRPC
  else
    a ← get_le 2;
    if negb (a =? SMB2_SIGNING_AES_CMAC) && negb (a =? SMB2_SIGNING_AES_GMAC) then fail EINVAL
    else save (set_session_smb3_signing_algorithm a).

(** One context, on a copy of the chain; the length of its data. *)
Definition parse_context (alternate : bool) : parser nsession Z :=
  shadow (
    context_type ← get_le 2;
    context_data_len ← get_le 2;
    _ ← get_le 4;
    (if context_type =? SMB2_PREAUTH_INTEGRITY_CAPABILITIES then ctx_preauth
     else if context_type =? SMB2_ENCRYPTION_CAPABILITIES then ctx_encryption alternate
     else if context_type =? SMB2_COMPRESSION_CAPABILITIES then ctx_compression
     else if context_type =? SMB2_SIGNING_CAPABILITIES then ctx_signing
     else mret tt);;
    mret context_data_len).

(** The length of a context with the bytes behind it, in 16 bits. *)
Definition context_step (context_data_len : Z) : Z :=
  let l := u16 (context_data_len + 8) in if l mod 8 =? 0 then l else u16 (l + (8 - l mod 8)).

(** The loop is run at least once, and [neg_context_count] is decremented before it is compared with 0. *)
Fixpoint contexts_loop (rounds : nat) (alternate : bool) : parser nsession unit :=
  match rounds with
  | O => mret tt
  | S rounds =>
      l ← parse_context alternate;
      match rounds with
      | O => mret tt
      | S _ => skip (context_step l);; contexts_loop rounds alternate
      end
  end.

Definition rounds_of (neg_context_count : Z) : nat :=
  if neg_context_count =? 0 then Z.to_nat (2 ^ 16) else Z.to_nat neg_context_count.

Definition smb2_smb_parse_negotiate_contexts (alternate : bool) (neg_bytes_parsed neg_context_offset neg_context_count : Z)
  : parser nsession unit :=
  (if 0 <? neg_context_offset then skip (u32 (u32 (neg_context_offset - 64) - neg_bytes_parsed)) else mret tt);;
  contexts_loop (rounds_of neg_context_count) alternate.

(** The token, [mem]: it could be allocated; its error goes on to the contexts.  Until it is read it is zero. *)
Definition parse_token (mem : bool) (sec_buf_len : Z) : parser nsession Z :=
  if negb (0 <? sec_buf_len) then mret 0
  else if mem then
    save (set_negotiate_token (Some (replicate (Z.to_nat sec_buf_len) 0)));;
    bs ← get_mem (Z.to_nat sec_buf_len);
    save (set_negotiate_token (Some bs));;
    mret 0
  else save (set_negotiate_token None);; mret ENOMEM.

(** The fields from the number of contexts on. *)
Definition parse_rest (alternate mem : bool) : parser nsession unit :=
  neg_context_count ← get_le 2;
  guid ← get_mem 16;
  agree alternate (fun s => bool_decide (guid = sv_guid s)) (set_sv_guid guid);;
  caps ← get_le 4;
  agree alternate (fun s => caps =? sv_saved_capabilities s) (keep_caps caps);;
  n ← get_le 4; agree alternate (fun s => n =? sv_maxtransact s) (set_sv_maxtransact n);;
  n ← get_le 4; agree alternate (fun s => n =? sv_maxread s) (set_sv_maxread n);;
  n ← get_le 4; agree alternate (fun s => n =? sv_maxwrite s) (set_sv_maxwrite n);;
  _ ← get_mem 8;
  _ ← get_mem 8;
  sec_buf_offset ← get_le 2;
  sec_buf_len ← get_le 2;
  neg_context_offset ← get_le 4;
  let gap := if 0 <? sec_buf_offset then u16 (u16 (sec_buf_offset - 64) - 64) else 0 in
  (if 0 <? sec_buf_offset then skip gap else mret tt);;
  error ← parse_token mem sec_buf_len;
  s ← look;
  if has (session_flags s) SMBV_SMB311 then
    smb2_smb_parse_negotiate_contexts alternate
      (64 + gap + (if (0 <? sec_buf_len) && mem then sec_buf_len else 0)) neg_context_offset neg_context_count
  else if negb (error =? 0) then fail error else mret tt.

Definition smb2_smb_parse_negotiate (alternate smb1_req mem : bool) : parser nsession unit :=
  check_size 65;;
  mode ← get_le 2;
  agree alternate (fun s => mode =? sv_security_mode s) (keep_mode mode);;
  done ← parse_dialect alternate smb1_req;
  if done : bool then mret tt else parse_rest alternate mem.

(** ** The exchange *)

(** The outcome of sending a request: the error, whether the channel was reconnected, and the body of the reply. *)
Record sent := Sent { st_error : Z; st_reconnected : bool; st_reply : list Z }.

Definition parse_reply (alternate smb1_req mem : bool) (bs : list Z) (s : nsession) : option (Z * nsession) :=
  match eval (smb2_smb_parse_negotiate alternate smb1_req mem) bs s with
  | Some (inr _, _, s) => Some (0, s)
  | Some (inl e, _, s) => Some (e, s)
  | None => None
  end.

(** From the label [do_session_setup]; [gss] is the result of [smb_gss_negotiate].  The sizes of reads and
    writes are set there as well. *)
Definition do_session_setup (alternate : bool) (gss : Z) (s : nsession) : Z * nsession :=
  let misc := session_misc_flags s in
  let disabled := negb (has (sv_security_mode s) SMB2_NEGOTIATE_SIGNING_ENABLED) in
  if has misc SMBV_CLIENT_SIGNING_REQUIRED && has misc SMBV_SMB2_SIGNING_REQUIRED
     && has (session_flags s) (Z.lor SMBV_SMB21 SMBV_SMB2002) && disabled then (EAUTH, s)
  else if has misc SMBV_CLIENT_SIGNING_REQUIRED && has misc SMBV_SMB3_SIGNING_REQUIRED && smb3_or_later s && disabled
  then (EAUTH, s)
  else if alternate then (0, s) else (gss, s).

(** The label [resend]: one element of [l] for each request that is sent; [None]: there are not enough.
    The error, the requests and the session. *)
Fixpoint resend (alternate inReconnect : bool) (salt : list Z) (name : Z + list Z) (mem : bool) (gss : Z)
    (l : list sent) (s : nsession) : option (Z * list (list Z) * nsession) :=
  match negotiate_request alternate inReconnect salt name s with
  | (inl e, s) => Some (e, [], s)
  | (inr rq, s) =>
      match l with
      | [] => None
      | Sent error reconnected bs :: l =>
          if negb (error =? 0) then
            if reconnected then
              r ← resend alternate inReconnect salt name mem gss l s;
              let '(e, rqs, s) := r : Z * list (list Z) * nsession in
              Some (e, rq :: rqs, s)
            else Some (error, [rq], s)
          else
            r ← parse_reply alternate false mem bs s;
            let '(e, s) := r : Z * nsession in
            if negb (e =? 0) then Some (e, [rq], s)
            else let '(e, s) := do_session_setup alternate gss s in Some (e, [rq], s)
      end
  end.

(** [in_rqp]: the reply to a negotiation of SMB 1 that switched to SMB 2. *)
Definition smb2_smb_negotiate (alternate inReconnect : bool) (in_rqp : option (list Z)) (salt : list Z)
    (name : Z + list Z) (mem : bool) (gss : Z) (l : list sent) (s : nsession) : option (Z * list (list Z) * nsession) :=
  let s := if alternate then s
           else set_session_hflags2 (Z.lor (session_hflags2 s) SMB_FLAGS2_ERR_STATUS)
                  (set_session_hflags SMB_FLAGS_CASELESS s) in
  match in_rqp with
  | Some bs =>
      if alternate then resend alternate inReconnect salt name mem gss l s
      else
        r ← parse_reply alternate true mem bs s;
        let '(e, s) := r : Z * nsession in
        if negb (e =? 0) then Some (e, [], s)
        else if (sv_dialect s =? SMB2_DIALECT_0202) || (sv_dialect s =? SMB2_DIALECT_0210) then
          let s := add_flags (if sv_dialect s =? SMB2_DIALECT_0202 then SMBV_SMB2002 else SMBV_SMB21) s in
          let '(e, s) := do_session_setup alternate gss s in Some (e, [], s)
        else resend alternate inReconnect salt name mem gss l s
  | None => resend alternate inReconnect salt name mem gss l s
  end.

(** ** Validation of the negotiation on SMB 3.0 and 3.0.2: [smbfs_smb_2.c] *)

(** The reply of FSCTL_VALIDATE_NEGOTIATE_INFO. *)
Record secure_neg := SecureNeg { sn_capabilities : Z; sn_guid : list Z; sn_security_mode : Z; sn_dialect : Z }.

Definition dialect_matches (d flags : Z) : bool :=
  if d =? SMB2_DIALECT_0302 then has flags (Z.lor SMBV_SMB2 SMBV_SMB302)
  else if d =? SMB2_DIALECT_0300 then has flags (Z.lor SMBV_SMB2 SMBV_SMB30)
  else if d =? SMB2_DIALECT_0210 then has flags (Z.lor SMBV_SMB2 SMBV_SMB21)
  else if d =? SMB2_DIALECT_0202 then has flags (Z.lor SMBV_SMB2 SMBV_SMB2002)
  else false.

(** What is done with the outcome of the ioctl: an error or the reply of the server. *)
Definition check_neg_info (r : Z + secure_neg) (s : nsession) : Z :=
  match r with
  | inl e => if (e =? EINVAL) || (e =? ENOTSUP) then 0 else e
  | inr r =>
      if negb (sn_capabilities r =? sv_saved_capabilities s) then EAUTH
      else if negb (bool_decide (sn_guid r = sv_guid s)) then EAUTH
      else if negb (sn_security_mode r =? sv_security_mode s) then EAUTH
      else if dialect_matches (sn_dialect r) (session_flags s) then 0 else EAUTH
  end.

Definition SMBV_GUEST_ACCESS := 0x00400000.
Definition SMBV_ANONYMOUS_ACCESS := 0x00800000.
Definition SMB3_MAX_DIALECTS := 5.
Definition ESTALE := 70.

(** The request: capabilities, GUID, security mode and dialects. *)
Record neg_info := NegInfo { ni_capabilities : Z; ni_guid : list Z; ni_security_mode : Z; ni_dialects : list Z }.

(** The main channel may have been an alternate channel before; then the request is put together anew, with an array
    of five dialects on the stack, which the [memset] leaves if there is a [session_max_dialect] ([None]). *)
Definition neg_request (alternate : bool) (s : nsession) : option (Z + neg_info) :=
  if alternate then
    if negb (session_max_dialect s =? 0) then None
    else
      let '(error, s') := smb2_smb_get_client_dialects true s in
      Some (if negb (error =? 0) then inl error
            else inr (NegInfo (smb2_smb_get_client_capabilities s) (session_client_guid s)
                        (smb2_smb_get_client_security_mode s)
                        (take (Z.to_nat (neg_dialect_count s')) (neg_dialects s'))))
  else if SMB3_MAX_DIALECTS <? neg_dialect_count s then Some (inl ENOMEM)
  else Some (inr (NegInfo (neg_capabilities s) (session_client_guid s) (neg_security_mode s)
                    (take (Z.to_nat (neg_dialect_count s)) (neg_dialects s)))).

(** What a try meets: no channel, or a channel, the session as it is then, and the outcome of the ioctl. *)
Inductive try := NoChannel (e : Z) | Attempt (alternate : bool) (s : nsession) (r : Z + secure_neg).

(** The label [try_again]: the error, the requests that were sent. *)
Fixpoint try_again (try_count : nat) (l : list try) : option (Z * list neg_info) :=
  match l with
  | [] => None
  | NoChannel e :: _ => Some (e, [])
  | Attempt alternate s r :: l =>
      if (10 <? S try_count)%nat then Some (EAUTH, [])
      else
        q ← neg_request alternate s;
        match q with
        | inl e => Some (e, [])
        | inr q =>
            match r with
            | inl e =>
                if e =? ESTALE then
                  t ← try_again (S try_count) l; Some (t.1, q :: t.2)
                else Some (check_neg_info r s, [q])
            | inr _ => Some (check_neg_info r s, [q])
            end
        end
  end.

Definition smb2fs_smb_validate_neg_info (l : list try) (s : nsession) : option (Z * list neg_info) :=
  if negb (has (session_flags s) SMBV_SMB2) || has (session_flags s) (Z.lor SMBV_SMB2002 SMBV_SMB21)
     || has (session_flags s) SMBV_ANONYMOUS_ACCESS || has (session_flags s) SMBV_GUEST_ACCESS
  then Some (0, [])
  else try_again 0 l.

(** ** A cluster that asks for an older dialect *)

Definition smb2_smb_tree_connect_bad_cluster_dialect : parser nsession unit :=
  check_size 9;;
  error_context_count ← get_le 1;
  if negb (error_context_count =? 1) then fail EBADRPC
  else
    _ ← get_le 1;
    byte_count ← get_le 4;
    if byte_count <? 2 then fail EINVAL
    else
      skip (byte_count - 2);;
      d ← get_le 2;
      if (d =? SMB2_DIALECT_0202) || (d =? SMB2_DIALECT_0210) then
        save (fun s => set_session_max_dialect d
                (set_session_flags (clear_bits (session_flags s) (Z.lor SMBV_SMB30 (Z.lor SMBV_SMB302 SMBV_SMB311))) s))
      else if (d =? SMB2_DIALECT_0300) || (d =? SMB2_DIALECT_0302) || (d =? SMB2_DIALECT_0311) then
        save (set_session_max_dialect d)
      else fail EINVAL.
