(* ===== verification/NegotTheorems.v ===== *)
(** * Theorems on the negotiation

    A further channel is accepted only if the server answers as it did on the first; what
    the client requires of signing is enforced. *)
From S2P Require Import Prelude Chain Parser Negot.
Import Errno.
Local Open Scope Z_scope.

(** ** Any reply *)

Lemma wp_agree alternate same keep Q bs s :
  (alternate = true -> same s = false -> Q (inl EINVAL) bs s) ->
  (alternate = true -> same s = true -> Q (inr tt) bs s) ->
  (alternate = false -> Q (inr tt) bs (keep s)) -> wp (agree alternate same keep) Q bs s.
Proof.
  intros H1 H2 H3. unfold agree, save. destruct alternate; repeat wp_step; auto.
Qed.

Lemma defined_agree alternate same keep : safe (agree alternate same keep).
Proof. unfold agree. repeat defined_step. Qed.
Lemma defined_skip_algorithms n : safe (skip_algorithms n).
Proof. induction n; cbn [skip_algorithms]; repeat defined_step. Qed.
Lemma defined_keep_compression n : safe (keep_compression n).
Proof. induction n; cbn [keep_compression]; repeat defined_step. Qed.

Lemma defined_contexts n alternate : safe (contexts_loop n alternate).
Proof.
  induction n as [|n IH]; [done|]. cbn [contexts_loop].
  unfold parse_context, ctx_preauth, ctx_encryption, ctx_compression, ctx_signing.
  repeat first [defined_step | apply defined_agree | apply defined_skip_algorithms | apply defined_keep_compression].
Qed.

Lemma defined_negotiate alternate smb1 mem : safe (smb2_smb_parse_negotiate alternate smb1 mem).
Proof.
  unfold smb2_smb_parse_negotiate, check_size, parse_dialect, parse_rest, parse_token, smb2_smb_parse_negotiate_contexts.
  repeat first [defined_step | apply defined_agree | apply defined_contexts].
Qed.

(** ** A further channel *)

(** A field of the reply. *)
Definition field (off n : nat) (bs : list Z) : Z := le_value (take n (drop off bs)).

(** What a further channel may change: the token, and what contexts say of compression and signing. *)
Definition core (s : nsession) : nsession :=
  set_negotiate_token None (set_session_smb3_signing_algorithm 0 (set_server_compression_algorithms_map 0
    (set_session_misc_flags (clear_bits (session_misc_flags s) SMBV_COMPRESSION_CHAINING_OFF) s))).

Lemma wp_skip_algorithms n (Q : Z + unit -> list Z -> nsession -> Prop) s :
  (forall r bs, Q r bs s) -> forall bs, wp (skip_algorithms n) Q bs s.
Proof. intros HQ. induction n as [|n IH]; intros bs; cbn [skip_algorithms]; repeat wp_step; auto. Qed.

Lemma wp_keep_compression_core n c : forall bs s, core s = c ->
  wp (keep_compression n) (fun r _ s' => core s' = c) bs s.
Proof. induction n as [|n IH]; intros bs s Hs; cbn [keep_compression]; unfold save; repeat wp_step; auto. Qed.

Lemma wp_context_core c bs s : core s = c -> wp (parse_context true) (fun r _ s' => core s' = c) bs s.
Proof.
  intros Hs. unfold parse_context, ctx_preauth, ctx_encryption, ctx_compression, ctx_signing, save. repeat wp_step; try done.
  - apply wp_skip_algorithms. intros [e|[]] ?; repeat wp_step; done.
  - apply wp_agree; intros; by repeat wp_step.
  - eapply wp_mono; [|apply wp_keep_compression_core].
    + intros [e|[]] bs' s' Hc; by repeat wp_step.
    + rewrite <- Hs. destruct (_ && _); [|done]. unfold core. cbn. by rewrite clear_lor.
Qed.

Lemma wp_contexts_core n c : forall bs s, core s = c -> wp (contexts_loop n true) (fun r _ s' => core s' = c) bs s.
Proof.
  induction n as [|n IH]; intros bs s Hs; cbn [contexts_loop]; repeat wp_step; [done|].
  eapply wp_mono; [|by apply wp_context_core]. intros [e|l] bs' s' Hc; repeat wp_step; auto.
Qed.

(** C20: a further channel of a session is accepted only if the server answers with the security mode, dialect, GUID,
    capabilities and sizes of the session; and the session stays as it was but for the token and what the contexts say of
    compression and signing.  The cipher does not change. *)
Theorem alternate_channel_agrees smb1 mem bs s bs' s' :
  eval (smb2_smb_parse_negotiate true smb1 mem) bs s = Some (inr tt, bs', s') ->
  core s' = core s
  /\ field 2 2 bs = sv_security_mode s /\ field 4 2 bs = sv_dialect s /\ take 16 (drop 8 bs) = sv_guid s
  /\ field 24 4 bs = sv_saved_capabilities s /\ field 28 4 bs = sv_maxtransact s /\ field 32 4 bs = sv_maxread s
  /\ field 36 4 bs = sv_maxwrite s.
Proof.
  apply (wp_eval (smb2_smb_parse_negotiate true smb1 mem) (fun r _ s' => match r with
    | inl _ => True
    | inr _ => core s' = core s
      /\ field 2 2 bs = sv_security_mode s /\ field 4 2 bs = sv_dialect s /\ take 16 (drop 8 bs) = sv_guid s
      /\ field 24 4 bs = sv_saved_capabilities s /\ field 28 4 bs = sv_maxtransact s /\ field 32 4 bs = sv_maxread s
      /\ field 36 4 bs = sv_maxwrite s end)).
  unfold smb2_smb_parse_negotiate, check_size, parse_dialect, parse_rest, parse_token, smb2_smb_parse_negotiate_contexts, save, field.
  repeat first [wp_step | done
    | apply wp_agree; [intros _ ?; exact I|intros _ ?|intros [=]] ].
  all: rewrite ?drop_drop in *; cbn [Nat.add] in *.
  all: repeat match goal with
    | H : (_ =? _) = true |- _ => apply Z.eqb_eq in H
    | H : bool_decide _ = true |- _ => apply bool_decide_eq_true in H end.
  all: try (eapply wp_mono; [|by apply (wp_contexts_core _ (core s))]; intros [e|[]] _ s1 Hs1; [exact I|]).
  all: split_and!; done.
Qed.

(** ** Signing *)

Definition dialect_mask : Z := Z.lor (Z.lor SMBV_SMB21 SMBV_SMB2002) (Z.lor SMBV_SMB30 (Z.lor SMBV_SMB302 SMBV_SMB311)).

(** Options are only added. *)
Definition grows (s s' : nsession) : Prop :=
  forall m, has (session_misc_flags s) m = true -> has (session_misc_flags s') m = true.

(** What was decided on signing and the dialect stays. *)
Definition decided (s s' : nsession) : Prop :=
  grows s s' /\ session_hflags2 s' = session_hflags2 s /\ sv_dialect s' = sv_dialect s
  /\ sv_security_mode s' = sv_security_mode s /\ has (session_flags s') dialect_mask = has (session_flags s) dialect_mask.

Lemma grows_refl s : grows s s.
Proof. by intros m. Qed.
Lemma grows_trans a b c : grows a b -> grows b c -> grows a c.
Proof. intros H1 H2 m Hm. auto. Qed.
Lemma decided_refl s : decided s s.
Proof. split; [apply grows_refl|done]. Qed.
Lemma decided_trans a b c : decided a b -> decided b c -> decided a c.
Proof. intros (? & ? & ? & ? & ?) (? & ? & ? & ? & ?). split_and!; try congruence. by eapply grows_trans. Qed.

Lemma grows_lor f s : grows s (set_session_misc_flags (Z.lor (session_misc_flags s) f) s).
Proof. intros m Hm. cbn. by rewrite has_lor, Hm. Qed.

(** Other fields do not matter. *)
Lemma decided_same s s' :
  session_misc_flags s' = session_misc_flags s -> session_hflags2 s' = session_hflags2 s -> sv_dialect s' = sv_dialect s ->
  sv_security_mode s' = sv_security_mode s -> session_flags s' = session_flags s -> decided s s'.
Proof. intros E1 E2 E3 E4 E5. split; [intros m; by rewrite E1|]. rewrite E5. done. Qed.

Lemma decided_caps caps s : decided s (keep_caps caps s).
Proof.
  unfold keep_caps. set (c := if has caps _ then caps else _). cbn zeta.
  match goal with |- decided s (if _ then set_session_resp_wait_timeout _ ?t else _) => assert (decided s t) as H end.
  { destruct (_ && _ && _); (split; [by intros m|split_and!; [done..|]]); cbn.
    - rewrite has_lor. by rewrite orb_false_r.
    - by rewrite has_clear. }
  destruct (smb21_or_later _ && _ && _); [|exact H]. eapply decided_trans; [exact H|by apply decided_same].
Qed.

Lemma wp_agree_decided s0 same keep bs s (Q : Z + unit -> list Z -> nsession -> Prop) :
  (forall s, decided s (keep s)) -> decided s0 s ->
  (forall s', decided s0 s' -> Q (inr tt) bs s') -> wp (agree false same keep) Q bs s.
Proof. intros Hk Hs HQ. apply wp_agree; [done..|]. intros _. apply HQ. eapply decided_trans; eauto. Qed.

Lemma wp_keep_compression_decided n s0 : forall bs s, decided s0 s ->
  wp (keep_compression n) (fun r _ s' => decided s0 s') bs s.
Proof. induction n as [|n IH]; intros bs s Hs; cbn [keep_compression]; unfold save; repeat wp_step; auto. Qed.

Lemma wp_context_decided s0 bs s : decided s0 s -> wp (parse_context false) (fun r _ s' => decided s0 s') bs s.
Proof.
  intros Hs. unfold parse_context, ctx_preauth, ctx_encryption, ctx_compression, ctx_signing, save. repeat wp_step; try done.
  - apply wp_skip_algorithms. intros [e|[]] ?; repeat wp_step; done.
  - eapply wp_mono; [|apply wp_keep_compression_decided].
    + intros [e|[]] bs' s' Hc; by repeat wp_step.
    + eapply decided_trans; [exact Hs|]. destruct (_ && _); [|apply decided_refl]. split; [apply grows_lor|done].
Qed.

Lemma wp_contexts_decided n s0 : forall bs s, decided s0 s -> wp (contexts_loop n false) (fun r _ s' => decided s0 s') bs s.
Proof.
  induction n as [|n IH]; intros bs s Hs; cbn [contexts_loop]; repeat wp_step; [done|].
  eapply wp_mono; [|by apply wp_context_decided]. intros [e|l] bs' s' Hc; repeat wp_step; auto.
Qed.

Lemma wp_rest_decided mem s0 bs s : decided s0 s -> wp (parse_rest false mem) (fun r _ s' => decided s0 s') bs s.
Proof.
  intros Hs. unfold parse_rest, parse_token, smb2_smb_parse_negotiate_contexts, save.
  repeat first [wp_step | done | apply wp_contexts_decided
    | eapply wp_agree_decided; [by intros; first [apply decided_caps | apply decided_same]|eassumption|intros ? ?] ].
Qed.

(** After a successful reply on the main channel: the flags of the dialect, unless it is the wildcard, and signatures
    if the client required them before. *)
Definition picked (s s' : nsession) : Prop :=
  grows s s'
  /\ (has (session_misc_flags s) SMBV_CLIENT_SIGNING_REQUIRED = true -> has (session_hflags2 s') SMB_FLAGS2_SECURITY_SIGNATURE = true)
  /\ (sv_dialect s' = SMB2_DIALECT_02ff \/ has (session_flags s') dialect_mask = true).

Lemma picked_decided s s1 s2 : picked s s1 -> decided s1 s2 -> picked s s2.
Proof.
  intros (H1 & H2 & H3) (G & E1 & E2 & E3 & E4). unfold picked. rewrite E1, E2, E4. split_and!; try done.
  by eapply grows_trans.
Qed.

Lemma dialect_flags_mask d f : dialect_flags d = Some f -> d = SMB2_DIALECT_02ff \/ has f dialect_mask = true.
Proof.
  unfold dialect_flags. intros H.
  repeat match type of H with (if ?b then _ else _) = _ => destruct b eqn:? end; try discriminate;
    injection H as <-; first [left; lia | right; reflexivity].
Qed.

Lemma keep_mode_spec mode s :
  session_misc_flags (keep_mode mode s) = session_misc_flags s
  /\ (has (session_misc_flags s) SMBV_CLIENT_SIGNING_REQUIRED = true ->
      has (session_hflags2 (keep_mode mode s)) SMB_FLAGS2_SECURITY_SIGNATURE = true).
Proof.
  unfold keep_mode. destruct (has mode SMB2_NEGOTIATE_SIGNING_ENABLED), (has mode SMB2_NEGOTIATE_SIGNING_REQUIRED);
    cbn [orb]; (split; [by repeat case_match|]); intros Hm; cbn; rewrite ?Hm; cbn; rewrite has_lor; apply orb_true_r.
Qed.

Lemma wp_negotiate_picked smb1 mem bs s :
  wp (smb2_smb_parse_negotiate false smb1 mem) (fun r _ s' => grows s s' /\ (r = inr tt -> picked s s')) bs s.
Proof.
  unfold smb2_smb_parse_negotiate, check_size, parse_dialect, save. repeat wp_step; try (split; [apply grows_refl|done]).
  apply wp_agree; [done..|]. intros _. destruct (keep_mode_spec (le_value (take 2 (drop 2 bs))) s) as [Em Es].
  set (s1 := keep_mode _ s) in *. assert (grows s s1) as G1 by (intros m; by rewrite Em).
  repeat wp_step; try done. set (d := le_value _). destruct (dialect_flags d) as [f|] eqn:Ef; [|done].
  repeat wp_step.
  all: assert (picked s (add_flags f (set_sv_dialect d s1))) as Hp
    by (split_and!; [exact G1|exact Es|]; destruct (dialect_flags_mask d f Ef) as [|Hf]; [by left|right];
        cbn; rewrite has_lor, Hf; apply orb_true_r).
  - split; [apply Hp|done].
  - eapply wp_mono; [|by apply wp_rest_decided, decided_refl]. intros r bs2 s2 Hd. pose proof (picked_decided _ _ _ Hp Hd) as Hp2.
    split; [apply Hp2|done].
Qed.

Lemma parse_reply_picked smb1 mem bs s e s' : parse_reply false smb1 mem bs s = Some (e, s') ->
  grows s s' /\ (e = 0 -> picked s s').
Proof.
  unfold parse_reply. pose proof (wp_negotiate_picked smb1 mem bs s) as Hwp. unfold wp in Hwp.
  destruct (safe_eval _ bs s (defined_negotiate false smb1 mem)) as (r & bs' & s1 & E & Hr). rewrite E in *.
  destruct Hwp as [Hg Hp]. destruct r as [e1|[]]; intros [= <- <-]; split; try done; [intros ->; done|auto].
Qed.

(** *** Requests do not take options away *)

Lemma get_client_dialects_misc b s : session_misc_flags (smb2_smb_get_client_dialects b s).2 = session_misc_flags s.
Proof.
  unfold smb2_smb_get_client_dialects. destruct b; cbn [negb snd].
  - destruct (negb _); [done|]. by destruct (current_dialect _).
  - by repeat case_match.
Qed.

Lemma add_contexts_grows b salt name s : grows s (smb2_smb_add_negotiate_contexts b salt name s).2.
Proof.
  unfold smb2_smb_add_negotiate_contexts, put_ciphers, put_compression, put_signing.
  destruct b; cbn [negb]; destruct name as [e|name]; cbn [snd];
  repeat match goal with |- context [if ?b then _ else _] => destruct b end; intros m Hm; cbn; rewrite ?has_lor, ?Hm; done.
Qed.

Lemma request_grows alternate inReconnect salt name s : grows s (negotiate_request alternate inReconnect salt name s).2.
Proof.
  unfold negotiate_request. pose proof (get_client_dialects_misc (inReconnect || alternate) s) as Em.
  destruct (smb2_smb_get_client_dialects _ s) as [error s1]. cbn [snd] in Em.
  assert (grows s s1) as G by (intros m; by rewrite Em).
  destruct (negb _); [done|]. destruct (_ && _); [|done].
  match goal with |- context [smb2_smb_add_negotiate_contexts ?b ?x ?y ?t] => pose proof (add_contexts_grows b x y t) as G2;
    destruct (smb2_smb_add_negotiate_contexts b x y t) as [[e|[c n]] s2] end; cbn [snd] in *; (eapply grows_trans; [exact G|exact G2]).
Qed.

(** The client requires signing, of SMB 2 and of SMB 3. *)
Definition requires_signing (s : nsession) : Prop :=
  has (session_misc_flags s) SMBV_CLIENT_SIGNING_REQUIRED = true
  /\ has (session_misc_flags s) SMBV_SMB2_SIGNING_REQUIRED = true
  /\ has (session_misc_flags s) SMBV_SMB3_SIGNING_REQUIRED = true.

Lemma requires_grows s s' : grows s s' -> requires_signing s -> requires_signing s'.
Proof. intros G (H1 & H2 & H3). split_and!; by apply G. Qed.

(** What is known after a successful negotiation. *)
Definition signs (s : nsession) : Prop :=
  has (session_hflags2 s) SMB_FLAGS2_SECURITY_SIGNATURE = true
  /\ (has (sv_security_mode s) SMB2_NEGOTIATE_SIGNING_ENABLED = true \/ sv_dialect s = SMB2_DIALECT_02ff).

Lemma session_setup_signs s0 s gss s' : requires_signing s0 -> picked s0 s -> do_session_setup false gss s = (0, s') -> signs s'.
Proof.
  intros Hr (G & Hs & Hd) E. destruct (requires_grows _ _ G Hr) as (R1 & R2 & R3). destruct Hr as [R _].
  unfold do_session_setup, smb3_or_later in E. rewrite R1, R2, R3 in E. cbn [andb] in E.
  unfold dialect_mask in Hd. rewrite has_lor_r in Hd.
  destruct (has (sv_security_mode s) SMB2_NEGOTIATE_SIGNING_ENABLED) eqn:Em; cbn [negb] in E.
  - rewrite !andb_false_r in E. injection E as _ <-. split; [by apply Hs|by left].
  - rewrite !andb_true_r in E. destruct (has _ (Z.lor SMBV_SMB21 _)); [discriminate|].
    destruct (has _ (Z.lor SMBV_SMB30 _)); [discriminate|]. injection E as _ <-. destruct Hd; [|done]. split; [by apply Hs|by right].
Qed.

Lemma request_error alternate inReconnect salt name s : name <> inl 0 ->
  (negotiate_request alternate inReconnect salt name s).1 <> inl 0.
Proof.
  intros Hn. unfold negotiate_request. destruct (smb2_smb_get_client_dialects _ s) as [error s1].
  destruct (Z.eqb_spec error 0); cbn [negb]; [|cbn; congruence]. destruct (_ && _); [|done].
  unfold smb2_smb_add_negotiate_contexts. by destruct (put_ciphers _ _), (put_compression _), (put_signing _ _), name.
Qed.

Lemma resend_signs inReconnect salt name mem gss l : name <> inl 0 -> forall s rqs s', requires_signing s ->
  resend false inReconnect salt name mem gss l s = Some (0, rqs, s') -> signs s'.
Proof.
  intros Hname. induction l as [|x l IH]; intros s rqs s' Hr E; cbn [resend] in E;
    pose proof (request_grows false inReconnect salt name s) as G;
    pose proof (request_error false inReconnect salt name s Hname) as Hne;
    destruct (negotiate_request false inReconnect salt name s) as [[e|rq] s1]; cbn [fst snd] in G, Hne; try (by simplify_eq);
    apply (requires_grows _ _ G) in Hr.
  destruct x as [error [] bs]; destruct (Z.eqb_spec error 0); cbn [negb] in E; try (by simplify_eq).
  2: { destruct (resend _ _ _ _ _ _ l s1) as [[[e1 q1] s2]|] eqn:E1; [|discriminate]. cbn in E. simplify_eq. by eapply IH. }
  all: destruct (parse_reply false false mem bs s1) as [[e1 s2]|] eqn:E1; [|discriminate]; cbn in E;
    destruct (Z.eqb_spec e1 0) as [->|]; cbn [negb] in E; [|by simplify_eq];
    apply parse_reply_picked in E1 as [_ Hp]; destruct (do_session_setup false gss s2) as [e2 s3] eqn:E2; simplify_eq;
    by eapply session_setup_signs; eauto.
Qed.

(** C12: when the client requires signing, of SMB 2 as of SMB 3 (both flags), the negotiation of the main channel succeeds
    only with signatures switched on, however often it is tried and whether it started with SMB 1, and with a server that
    says that it can sign, unless the server picked the wildcard dialect 0x02ff. *)
Theorem negotiation_enforces_signing inReconnect in_rqp salt name mem gss l s rqs s' :
  requires_signing s -> name <> inl 0 ->
  smb2_smb_negotiate false inReconnect in_rqp salt name mem gss l s = Some (0, rqs, s') ->
  has (session_hflags2 s') SMB_FLAGS2_SECURITY_SIGNATURE = true
  /\ (has (sv_security_mode s') SMB2_NEGOTIATE_SIGNING_ENABLED = true \/ sv_dialect s' = SMB2_DIALECT_02ff).
Proof.
  intros Hr Hn. unfold smb2_smb_negotiate. cbv zeta. set (s0 := set_session_hflags2 _ _).
  assert (requires_signing s0) as Hr0 by done. destruct in_rqp as [bs|]; [|by apply resend_signs].
  destruct (parse_reply false true mem bs s0) as [[e1 s1]|] eqn:E1; [|discriminate]. cbn [mbind option_bind].
  apply parse_reply_picked in E1 as [G Hp]. destruct (Z.eqb_spec e1 0) as [->|]; cbn [negb]; [|by intros [= -> _ _]].
  specialize (Hp eq_refl). destruct (_ || _); [|apply resend_signs; [done|]; by eapply requires_grows].
  set (s2 := add_flags _ s1). assert (picked s0 s2) as Hp2.
  { destruct Hp as (? & ? & Hd). split_and!; [done..|]. destruct Hd as [Hd|Hd]; [by left|right]. cbn. by rewrite has_lor, Hd. }
  destruct (do_session_setup false gss s2) as [e2 s3] eqn:E2. intros [= -> _ <-]. by eapply session_setup_signs.
Qed.
