(* ===== verification/NegotRequest.v ===== *)
(** * What a server finds in the request of a negotiation

    A reader of negotiate contexts as [MS-SMB2] describes them, and the proof that it
    finds in the request, where the request says they are, exactly what the client
    offers. *)
From S2P Require Import Prelude Chain Parser Negot NegotTheorems.
Import Errno.
Local Open Scope Z_scope.

(** ** The reader of a server *)

(** [n] contexts: the type and the data of each.  Each starts at a multiple of 8. *)
Fixpoint read_contexts (n : nat) (bs : list Z) : option (list (Z * list Z)) :=
  match n with
  | O => Some []
  | S n =>
      let len := Z.to_nat (field 2 2 bs) in
      if (length bs <? 8 + len)%nat then None
      else
        rest ← read_contexts n (drop (8 * ((len + 15) `div` 8)) bs);
        Some ((field 0 2 bs, take len (drop 8 bs)) :: rest)
  end.

(** A list of algorithms with its length before it. *)
Definition algorithms (l : list Z) : list Z := put16 (Z.of_nat (length l)) ++ concat (map put16 l).

(** ** Layout *)

Lemma length_put16s l : length (concat (map put16 l)) = (2 * length l)%nat.
Proof. induction l as [|x l IH]; [done|]. cbn [map concat]. rewrite length_app, IH. unfold put16. rewrite length_le_bytes. cbn. lia. Qed.

Lemma length_algorithms l : length (algorithms l) = (2 + 2 * length l)%nat.
Proof. unfold algorithms. rewrite length_app, length_put16s. unfold put16. by rewrite length_le_bytes. Qed.

Lemma length_pad8 len : 0 <= len -> Z.of_nat (length (pad8 len)) = (8 - len mod 8) mod 8.
Proof.
  intros Hl. unfold pad8. pose proof (Z.mod_pos_bound len 8 ltac:(lia)).
  destruct (Z.eqb_spec (len mod 8) 0) as [->|Hn]; [done|].
  rewrite length_replicate, Z2Nat.id by lia. by rewrite (Z.mod_small (8 - len mod 8)) by lia.
Qed.

Lemma pad8_to_8 n : (n + length (pad8 (Z.of_nat n)) = 8 * ((n + 7) `div` 8))%nat.
Proof.
  pose proof (length_pad8 (Z.of_nat n)). pose proof (Nat.div_mod_eq (n + 7) 8). pose proof (Nat.mod_upper_bound (n + 7) 8).
  pose proof (Z.div_mod (Z.of_nat n) 8). pose proof (Z.mod_pos_bound (Z.of_nat n) 8).
  pose proof (Z.div_mod (8 - Z.of_nat n mod 8) 8). pose proof (Z.mod_pos_bound (8 - Z.of_nat n mod 8) 8). lia.
Qed.

Lemma field_app_l off n a b : (off + n <= length a)%nat -> field off n (a ++ b) = field off n a.
Proof. intros H. unfold field. rewrite drop_app_le by lia. by rewrite take_app_le by (rewrite length_drop; lia). Qed.

(** A laid out context is read, and the next one is looked for behind its zeros. *)
Lemma read_contexts_put n ty data rest :
  fits 2 ty -> Z.of_nat (length data) < 2 ^ 16 ->
  read_contexts (S n) (put_context ty (Z.of_nat (length data)) data ++ rest)
  = (l ← read_contexts n rest; Some ((ty, data) :: l)).
Proof.
  intros Ht Hd. unfold put_context. rewrite <- !app_assoc. set (pad := pad8 _).
  assert (length (put16 ty) = 2 /\ length (put16 (Z.of_nat (length data))) = 2 /\ length (put32 0) = 4)%nat as (L1 & L2 & L3).
  { unfold put16, put32. by rewrite !length_le_bytes. }
  set (bs := put16 ty ++ _). assert (field 0 2 bs = ty) as E0.
  { unfold bs, field. rewrite drop_0, take_app_length' by done. by apply le_value_fits. }
  assert (field 2 2 bs = Z.of_nat (length data)) as E2.
  { unfold bs, field. rewrite drop_app_length' by done. rewrite take_app_length' by done. apply le_value_fits. unfold fits. lia. }
  assert (drop 8 bs = data ++ pad ++ rest) as E8.
  { unfold bs. rewrite (app_assoc (put16 ty)), (app_assoc _ (put32 0)). apply drop_app_length'. rewrite !length_app. lia. }
  assert (length bs = 8 + length (data ++ pad ++ rest))%nat as El.
  { unfold bs. rewrite !length_app. lia. }
  cbn [read_contexts]. rewrite E0, E2, Nat2Z.id. rewrite (proj2 (Nat.ltb_ge _ _)) by (rewrite El, length_app; lia).
  rewrite E8, take_app_length. replace (drop _ bs) with rest; [done|].
  pose proof (pad8_to_8 (8 + length data)) as Hp. replace (8 + length data + 7)%nat with (length data + 15)%nat in Hp by lia.
  rewrite <- Hp. replace (Z.of_nat (8 + length data)) with (8 + Z.of_nat (length data)) by lia. fold pad.
  rewrite <- Nat.add_assoc, <- drop_drop, E8, app_assoc. symmetry. apply drop_app_length'. by rewrite length_app.
Qed.

Lemma read_contexts_last ty data :
  fits 2 ty -> Z.of_nat (length data) < 2 ^ 16 ->
  read_contexts 1 (put16 ty ++ put16 (Z.of_nat (length data)) ++ put32 0 ++ data) = Some [(ty, data)].
Proof.
  intros Ht Hd. assert (length (put16 ty) = 2 /\ length (put16 (Z.of_nat (length data))) = 2 /\ length (put32 0) = 4)%nat as (L1 & L2 & L3).
  { unfold put16, put32. by rewrite !length_le_bytes. }
  set (bs := put16 ty ++ _). assert (field 0 2 bs = ty) as E0.
  { unfold bs, field. rewrite drop_0, take_app_length' by done. by apply le_value_fits. }
  assert (field 2 2 bs = Z.of_nat (length data)) as E2.
  { unfold bs, field. rewrite drop_app_length' by done. rewrite take_app_length' by done. apply le_value_fits. unfold fits. lia. }
  assert (drop 8 bs = data) as E8.
  { unfold bs. rewrite (app_assoc (put16 ty)), (app_assoc _ (put32 0)). apply drop_app_length'. rewrite !length_app. lia. }
  assert (length bs = 8 + length data)%nat as El by (unfold bs; rewrite !length_app; lia).
  cbn [read_contexts]. rewrite E0, E2, Nat2Z.id, (proj2 (Nat.ltb_ge _ _)) by lia. by rewrite E8, firstn_all.
Qed.

(** ** What is offered *)

Definition offered_ciphers (again : bool) (s : nsession) : list Z :=
  if again then [session_smb3_encrypt_ciper s]
  else match chosen (session_misc_flags s) cipher_table with [] => [SMB2_ENCRYPTION_AES_128_CCM] | l => l end.

Definition offered_signing (again : bool) (s : nsession) : list Z :=
  if again then [session_smb3_signing_algorithm s]
  else match chosen (session_misc_flags s) signing_table with [] => [SMB2_SIGNING_AES_CMAC] | l => l end.

(** Patterns need chained compression. *)
Definition offered_compression (s : nsession) : list Z :=
  let map := client_compression_algorithms_map s in
  let map := if has (session_misc_flags s) SMBV_COMPRESSION_CHAINING_OFF
             then clear_bits map SMB2_COMPRESSION_PATTERN_V1_ENABLED else map in
  match chosen map compression_table with [] => [SMB2_COMPRESSION_NONE] | l => l end.

Definition offered_chaining (s : nsession) : Z :=
  if has (session_misc_flags s) SMBV_COMPRESSION_CHAINING_OFF || bool_decide (offered_compression s = [SMB2_COMPRESSION_NONE])
  then 0 else 1.

(** *** Counting what is chosen *)

Lemma count_set_perm flags fs gs : fs ≡ₚ gs -> count_set flags fs = count_set flags gs.
Proof. induction 1; cbn [count_set]; lia. Qed.

Lemma count_set_chosen flags table : count_set flags (map fst table) = Z.of_nat (length (chosen flags table)).
Proof.
  induction table as [|[f v] t IH]; [done|]. cbn [map fst count_set chosen]. rewrite IH. destruct (has flags f); cbn [length]; lia.
Qed.

Lemma chosen_lor_nil a b table : chosen a table = [] -> chosen (Z.lor a b) table = chosen b table.
Proof.
  induction table as [|[f v] t IH]; [done|]. cbn [chosen]. rewrite has_lor. destruct (has a f); [discriminate|].
  intros H. by rewrite (IH H).
Qed.

Lemma chosen_ext a b table : Forall (fun p => has a p.1 = has b p.1) table -> chosen a table = chosen b table.
Proof. induction 1 as [|[f v] t Hf _ IH]; [done|]. cbn [chosen fst] in *. by rewrite Hf, IH. Qed.

(** If no algorithm is enabled, one is. *)
Lemma offer_default flags table fs f v : fs ≡ₚ map fst table -> chosen f table = [v] ->
  let n := count_set flags fs in
  let flags' := if n =? 0 then Z.lor flags f else flags in
  let l := match chosen flags table with [] => [v] | l => l end in
  (if n =? 0 then 1 else n) = Z.of_nat (length l) /\ chosen flags' table = l.
Proof.
  intros Hp Hf. cbn zeta. rewrite (count_set_perm _ _ _ Hp), count_set_chosen.
  destruct (chosen flags table) as [|x l] eqn:E; cbn [length].
  - change (Z.of_nat 0 =? 0) with true. cbv iota. by rewrite chosen_lor_nil.
  - destruct (Z.eqb_spec (Z.of_nat (S (length l))) 0); [lia|done].
Qed.

Lemma put_ciphers_offer again s : exists s',
  put_ciphers again s = (put_context SMB2_ENCRYPTION_CAPABILITIES (Z.of_nat (length (algorithms (offered_ciphers again s))))
                           (algorithms (offered_ciphers again s)), s')
  /\ session_smb3_signing_algorithm s' = session_smb3_signing_algorithm s
  /\ client_compression_algorithms_map s' = client_compression_algorithms_map s
  /\ chosen (session_misc_flags s') signing_table = chosen (session_misc_flags s) signing_table
  /\ has (session_misc_flags s') SMBV_COMPRESSION_CHAINING_OFF = has (session_misc_flags s) SMBV_COMPRESSION_CHAINING_OFF.
Proof.
  unfold put_ciphers, offered_ciphers. destruct again; [by eexists|].
  destruct (offer_default (session_misc_flags s) cipher_table
    [SMBV_ENABLE_AES_128_CCM; SMBV_ENABLE_AES_128_GCM; SMBV_ENABLE_AES_256_CCM; SMBV_ENABLE_AES_256_GCM]
    SMBV_ENABLE_AES_128_CCM SMB2_ENCRYPTION_AES_128_CCM) as [En Ec]; [by apply (bool_decide_unpack _)|done|].
  cbv zeta in En, Ec |- *. set (n := count_set _ _) in *. set (l := match _ with [] => _ | l => l end) in *.
  rewrite length_algorithms. replace (Z.of_nat (2 + 2 * length l)) with (2 + 2 * (if n =? 0 then 1 else n)) by lia.
  unfold algorithms. rewrite <- En.
  destruct (n =? 0); eexists; (split; [cbn [session_misc_flags set_session_misc_flags]; rewrite Ec; reflexivity|]); try done.
  cbn [session_misc_flags set_session_misc_flags]. split_and!; [done..| |by rewrite has_lor, orb_false_r].
  apply chosen_ext. repeat constructor; cbn [fst]; by rewrite has_lor, orb_false_r.
Qed.

Lemma put_signing_offer again s :
  (put_signing again s).1 = put_context SMB2_SIGNING_CAPABILITIES (Z.of_nat (length (algorithms (offered_signing again s))))
                              (algorithms (offered_signing again s)).
Proof.
  unfold put_signing, offered_signing. destruct again; [done|].
  destruct (offer_default (session_misc_flags s) signing_table [SMBV_ENABLE_AES_128_CMAC; SMBV_ENABLE_AES_128_GMAC]
    SMBV_ENABLE_AES_128_CMAC SMB2_SIGNING_AES_CMAC) as [En Ec]; [by apply (bool_decide_unpack _)|done|].
  cbv zeta in En, Ec |- *. set (n := count_set _ _) in *. set (l := match _ with [] => _ | l => l end) in *.
  rewrite length_algorithms. replace (Z.of_nat (2 + 2 * length l)) with (2 + 2 * (if n =? 0 then 1 else n)) by lia.
  unfold algorithms. rewrite <- En. destruct (n =? 0); cbn [fst session_misc_flags set_session_misc_flags]; by rewrite Ec.
Qed.

(** The data of the compression context. *)
Definition compression_data (s : nsession) : list Z :=
  put16 (Z.of_nat (length (offered_compression s))) ++ put16 0 ++ put32 (offered_chaining s)
  ++ concat (map put16 (offered_compression s)).

Lemma put_compression_offer s : exists s',
  put_compression s = (put_context SMB2_COMPRESSION_CAPABILITIES (Z.of_nat (length (compression_data s))) (compression_data s), s')
  /\ session_smb3_signing_algorithm s' = session_smb3_signing_algorithm s /\ session_misc_flags s' = session_misc_flags s.
Proof.
  unfold put_compression, compression_data, offered_chaining, offered_compression, compression_table. cbn [chosen count_set].
  set (map := client_compression_algorithms_map s).
  destruct (has (session_misc_flags s) SMBV_COMPRESSION_CHAINING_OFF), (has map SMB2_COMPRESSION_PATTERN_V1_ENABLED) eqn:E4,
    (has map SMB2_COMPRESSION_LZNT1_ENABLED) eqn:E1, (has map SMB2_COMPRESSION_LZ77_ENABLED) eqn:E2,
    (has map SMB2_COMPRESSION_LZ77_HUFFMAN_ENABLED) eqn:E3; cbn [andb negb client_compression_algorithms_map set_client_compression_algorithms_map];
    fold map; rewrite ?has_clear_self, ?has_clear by done; rewrite ?E1, ?E2, ?E3, ?E4; by eexists.
Qed.

(** ** The request *)

(** The contexts that the client offers. *)
Definition offered (again : bool) (salt name : list Z) (s : nsession) : list (Z * list Z) :=
  [(SMB2_PREAUTH_INTEGRITY_CAPABILITIES, put16 1 ++ put16 32 ++ put16 SMB2_PREAUTH_INTEGRITY_SHA512 ++ salt);
   (SMB2_ENCRYPTION_CAPABILITIES, algorithms (offered_ciphers again s));
   (SMB2_COMPRESSION_CAPABILITIES, compression_data s);
   (SMB2_SIGNING_CAPABILITIES, algorithms (offered_signing again s));
   (SMB2_NETNAME_NEGOTIATE_CONTEXT_ID, name)].

Lemma length_chosen flags table : (length (chosen flags table) <= length table)%nat.
Proof. induction table as [|[f v] t IH]; [done|]. cbn [chosen]. destruct (has flags f); cbn [length]; lia. Qed.

Lemma length_offered again s :
  (length (offered_ciphers again s) <= 4 /\ length (offered_signing again s) <= 4 /\ length (offered_compression s) <= 4)%nat.
Proof.
  unfold offered_ciphers, offered_signing, offered_compression.
  set (map := if has _ _ then _ else _).
  pose proof (length_chosen (session_misc_flags s) cipher_table) as H1. pose proof (length_chosen (session_misc_flags s) signing_table) as H2.
  pose proof (length_chosen map compression_table) as H3.
  destruct again, (chosen (session_misc_flags s) cipher_table), (chosen (session_misc_flags s) signing_table), (chosen map compression_table);
    cbn [length cipher_table signing_table compression_table] in *; lia.
Qed.

(** What the offer depends on. *)
Lemma offered_ext again salt name s s' :
  session_smb3_encrypt_ciper s' = session_smb3_encrypt_ciper s -> session_smb3_signing_algorithm s' = session_smb3_signing_algorithm s ->
  client_compression_algorithms_map s' = client_compression_algorithms_map s -> session_misc_flags s' = session_misc_flags s ->
  offered again salt name s' = offered again salt name s.
Proof.
  intros E1 E2 E3 E4. unfold offered, offered_ciphers, offered_signing, compression_data, offered_chaining, offered_compression.
  by rewrite E1, E2, E3, E4.
Qed.

Lemma add_contexts_read again salt name s : length salt = 32%nat -> Z.of_nat (length name) < 2 ^ 16 ->
  exists bs s', smb2_smb_add_negotiate_contexts again salt (inr name) s = (inr (bs, 5), s')
    /\ read_contexts 5 bs = Some (offered again salt name s).
Proof.
  intros Hs Hn. unfold smb2_smb_add_negotiate_contexts.
  destruct (put_ciphers_offer again s) as (s1 & E1 & Ea & Eb & Ec & Ed). rewrite E1.
  destruct (put_compression_offer s1) as (s2 & E2 & Ee & Ef). rewrite E2.
  pose proof (put_signing_offer again s2) as E3. destruct (put_signing again s2) as [sg s3]. cbn [fst] in E3. subst sg.
  eexists _, _. split; [reflexivity|].
  assert (compression_data s1 = compression_data s) as G1.
  { unfold compression_data, offered_chaining, offered_compression. by rewrite Eb, Ed. }
  assert (offered_signing again s2 = offered_signing again s) as G2.
  { unfold offered_signing. by rewrite Ef, Ee, Ea, Ec. }
  rewrite G1, G2. destruct (length_offered again s) as (L1 & L2 & L3).
  assert (length (compression_data s) < 100)%nat.
  { unfold compression_data. rewrite !length_app, length_put16s. unfold put16, put32. rewrite !length_le_bytes. lia. }
  unfold put_preauth. set (pre := put16 1 ++ _ ++ _ ++ salt).
  assert (length pre = 38%nat) as Lp by (unfold pre; rewrite !length_app, Hs; unfold put16; by rewrite !length_le_bytes).
  replace 38 with (Z.of_nat (length pre)) by lia.
  do 4 (rewrite read_contexts_put; [|by split; [discriminate|reflexivity]|rewrite ?length_algorithms; lia]).
  rewrite read_contexts_last; [done|by split; [discriminate|reflexivity]|done].
Qed.

(** The request has eight dialects at most. *)
Lemma length_put_dialects l s : (length l <= length (neg_dialects s))%nat ->
  length (neg_dialects (put_dialects l s)) = length (neg_dialects s).
Proof. intros H. unfold put_dialects. cbn [neg_dialects set_neg_dialects]. by rewrite length_splice. Qed.

Lemma length_clear_rest cnt s : (cnt <= length (neg_dialects s))%nat ->
  length (neg_dialects (clear_rest cnt s)) = length (neg_dialects s).
Proof.
  intros H. unfold clear_rest. cbn [neg_dialects set_neg_dialects set_session_ntwrk_sid].
  rewrite length_splice; [done|]. rewrite length_replicate. lia.
Qed.

Lemma max_dialect_cnt_range d : 1 <= max_dialect_cnt d <= 5.
Proof. unfold max_dialect_cnt. repeat case_match; lia. Qed.

Lemma get_client_dialects_wf b s : length (neg_dialects s) = 8%nat -> 0 <= neg_dialect_count s <= 8 ->
  let s' := (smb2_smb_get_client_dialects b s).2 in
  length (neg_dialects s') = 8%nat /\ 0 <= neg_dialect_count s' <= 8 /\ session_client_guid s' = session_client_guid s
  /\ forall again salt name, offered again salt name s' = offered again salt name s.
Proof.
  intros Hl Hc. assert (forall l t, (length l <= 8)%nat -> length (neg_dialects t) = 8%nat -> length (neg_dialects (put_dialects l t)) = 8%nat) as Hp.
  { intros l t H1 H2. rewrite length_put_dialects; lia. }
  unfold smb2_smb_get_client_dialects. cbv zeta. destruct b; cbn [negb].
  - destruct (negb _).
    + pose proof (max_dialect_cnt_range (session_max_dialect (set_neg_dialect_count 1 s))). set (c := max_dialect_cnt _) in *.
      cbn [snd]. split; [|split; [cbn; lia|split; [done|intros; by apply offered_ext]]].
      change (length (neg_dialects (clear_rest (Z.to_nat c) (put_dialects all_dialects (set_neg_dialect_count c (set_neg_dialect_count 1 s))))) = 8%nat).
      assert (length (neg_dialects (put_dialects all_dialects (set_neg_dialect_count c (set_neg_dialect_count 1 s)))) = 8%nat) as H8
        by (apply Hp; [cbn; lia|done]).
      rewrite length_clear_rest; [exact H8|rewrite H8; lia].
    + destruct (current_dialect _); cbn [snd]; (split; [first [apply Hp; [cbn; lia|done] | done]|]); (split; [cbn; lia|split; [done|intros; by apply offered_ext]]).
  - repeat match goal with |- context [if ?b then _ else _] => destruct b end; cbn [snd];
      (split; [first [apply Hp; [cbn; lia|done] | done]|]); (split; [cbn; lia|split; [done|intros; by apply offered_ext]]).
Qed.

Lemma field_at a n x b off : length a = off -> fits n x -> field off n (a ++ le_bytes n x ++ b) = x.
Proof.
  intros <- Hx. unfold field. rewrite drop_app_length, take_app_length' by (by rewrite length_le_bytes). by apply le_value_fits.
Qed.

(** The body of a request. *)
Definition layout (cnt mode caps : Z) (guid : list Z) (off n : Z) (dialects pad contexts : list Z) : list Z :=
  put16 36 ++ put16 cnt ++ put16 mode ++ put16 0 ++ put32 caps ++ guid ++ put32 off ++ put16 n ++ put16 0
  ++ concat (map put16 dialects) ++ pad ++ contexts.

Lemma layout_fields cnt mode caps guid off n dialects pad contexts :
  length guid = 16%nat -> fits 2 cnt -> fits 4 off -> fits 2 n ->
  let rq := layout cnt mode caps guid off n dialects pad contexts in
  field 2 2 rq = cnt /\ field 28 4 rq = off /\ field 32 2 rq = n
  /\ drop 36 rq = concat (map put16 dialects) ++ pad ++ contexts.
Proof.
  intros Hg Hc Ho Hn rq.
  assert (forall x, length (put16 x) = 2%nat) as L2 by (intros; apply length_le_bytes).
  assert (forall x, length (put32 x) = 4%nat) as L4 by (intros; apply length_le_bytes).
  split_and!.
  - unfold rq, layout. by apply field_at.
  - replace rq with ((put16 36 ++ put16 cnt ++ put16 mode ++ put16 0 ++ put32 caps ++ guid) ++ le_bytes 4 off
      ++ put16 n ++ put16 0 ++ concat (map put16 dialects) ++ pad ++ contexts) by (by rewrite <- !app_assoc).
    apply field_at; [|done]. rewrite !length_app, !L2, L4, Hg. done.
  - replace rq with ((put16 36 ++ put16 cnt ++ put16 mode ++ put16 0 ++ put32 caps ++ guid ++ put32 off) ++ le_bytes 2 n
      ++ put16 0 ++ concat (map put16 dialects) ++ pad ++ contexts) by (by rewrite <- !app_assoc).
    apply field_at; [|done]. rewrite !length_app, !L2, !L4, Hg. done.
  - replace rq with ((put16 36 ++ put16 cnt ++ put16 mode ++ put16 0 ++ put32 caps ++ guid ++ put32 off ++ put16 n ++ put16 0)
      ++ concat (map put16 dialects) ++ pad ++ contexts) by (by rewrite <- !app_assoc).
    apply drop_app_length'. rewrite !length_app, !L2, !L4, Hg. done.
Qed.

(** ** When contexts are added *)

(** SMB 3.1.1 is either usable or not among the dialects.  The code offers it without
    contexts where it is the largest dialect of a cluster, and where it and SMB 2 are disabled. *)
Definition dialects_usable (again : bool) (s : nsession) : Prop :=
  if again then
    if session_max_dialect s =? 0
    then has (session_flags s) SMBV_DISABLE_311 = false \/ current_dialect (session_flags s) <> Some SMB2_DIALECT_0311
    else max_dialect_cnt (session_max_dialect s) < 5
  else has (session_misc_flags s) SMBV_NEG_SMB2_ENABLED = true
       \/ has (session_misc_flags s) SMBV_NEG_SMB3_ENABLED = true /\ has (session_flags s) SMBV_DISABLE_311 = false.

(** The dialects of the request. *)
Definition sent_dialects (s : nsession) : list Z := take (Z.to_nat (neg_dialect_count s)) (neg_dialects s).

Definition adds_contexts (again : bool) (s : nsession) : bool :=
  negb (has (session_flags s) SMBV_DISABLE_311) &&
  (if again then bool_decide (neg_dialects s !! O = Some SMB2_DIALECT_0311)
   else has (session_misc_flags s) SMBV_NEG_SMB3_ENABLED).

Lemma take_put_dialects n l s : (n <= length l)%nat -> take n (neg_dialects (put_dialects l s)) = take n l.
Proof. intros H. unfold put_dialects, splice. cbn [neg_dialects set_neg_dialects]. rewrite take_0, app_nil_l. by apply take_app_le. Qed.

Lemma take_clear_rest n s : (n <= length (neg_dialects s))%nat -> take n (neg_dialects (clear_rest n s)) = take n (neg_dialects s).
Proof. intros H. unfold clear_rest. cbn [neg_dialects set_neg_dialects set_session_ntwrk_sid]. by apply take_splice_prefix. Qed.

Lemma first_adds_contexts s : dialects_usable false s ->
  let s' := (smb2_smb_get_client_dialects false s).2 in
  adds_contexts false s' = bool_decide (SMB2_DIALECT_0311 ∈ sent_dialects s').
Proof.
  intros Hu. unfold dialects_usable in Hu. unfold smb2_smb_get_client_dialects, adds_contexts, sent_dialects. cbn [negb].
  destruct (has (session_misc_flags s) SMBV_NEG_SMB3_ENABLED) eqn:E3, (has (session_misc_flags s) SMBV_NEG_SMB2_ENABLED) eqn:E2,
    (has (session_flags s) SMBV_DISABLE_311) eqn:ED; cbn [andb snd]; try (by destruct Hu as [|[]]);
    rewrite take_put_dialects by (cbn; lia);
    cbn [session_flags session_misc_flags put_dialects set_neg_dialects set_neg_dialect_count]; by rewrite ?E3, ?ED.
Qed.

Lemma again_adds_contexts s : length (neg_dialects s) = 8%nat -> dialects_usable true s ->
  let r := smb2_smb_get_client_dialects true s in
  r.1 = 0 -> adds_contexts true r.2 = bool_decide (SMB2_DIALECT_0311 ∈ sent_dialects r.2).
Proof.
  intros Hl Hu. unfold dialects_usable in Hu. unfold smb2_smb_get_client_dialects, adds_contexts, sent_dialects. cbn [negb].
  cbn [session_max_dialect set_neg_dialect_count session_flags]. destruct (session_max_dialect s =? 0) eqn:EM; cbn [negb].
  - destruct (current_dialect (session_flags s)) as [d|]; cbn [fst snd]; [intros _|discriminate].
    rewrite take_put_dialects by (cbn; lia). change (take _ [d]) with [d].
    change (neg_dialects (put_dialects [d] (set_neg_dialect_count 1 s)) !! O) with (Some d).
    change (session_flags (put_dialects [d] _)) with (session_flags s).
    rewrite (bool_decide_ext (SMB2_DIALECT_0311 ∈ [d]) (Some d = Some SMB2_DIALECT_0311))
      by (rewrite list_elem_of_singleton; naive_solver).
    destruct Hu as [->|Hd]; [done|]. by rewrite bool_decide_eq_false_2, andb_false_r.
  - intros _. cbn [fst snd]. pose proof (max_dialect_cnt_range (session_max_dialect s)) as Hr. set (c := max_dialect_cnt _) in *.
    set (t := put_dialects _ _). assert (Ht : length (neg_dialects t) = 8%nat).
    { unfold t. rewrite length_put_dialects by (cbn; lia). done. }
    change (neg_dialects (set_session_max_dialect 0 ?x)) with (neg_dialects x).
    change (neg_dialect_count (set_session_max_dialect 0 _)) with c.
    change (neg_dialects (set_session_max_dialect 0 (clear_rest (Z.to_nat c) t))) with (neg_dialects (clear_rest (Z.to_nat c) t)).
    assert (ET : take (Z.to_nat c) (neg_dialects (clear_rest (Z.to_nat c) t)) = take (Z.to_nat c) all_dialects).
    { rewrite take_clear_rest by lia. apply take_put_dialects. cbn. lia. }
    rewrite ET, <- (lookup_take_lt _ (Z.to_nat c)) by lia. rewrite ET.
    assert (c = 1 \/ c = 2 \/ c = 3 \/ c = 4) as Hc by lia. clearbody c t.
    by destruct Hc as [->|[->|[->| ->]]]; rewrite andb_false_r.
Qed.

(** A request with contexts behind the dialects. *)
Lemma layout_contexts mode caps guid d bs l :
  length guid = 16%nat -> (length d <= 8)%nat -> read_contexts 5 bs = Some l ->
  let len := 36 + 2 * Z.of_nat (length d) in
  let rq := layout (Z.of_nat (length d)) mode caps guid (len + Z.of_nat (length (pad8 len)) + 64) 5 d (pad8 len) bs in
  field 2 2 rq = Z.of_nat (length d) /\ take (2 * length d) (drop 36 rq) = concat (map put16 d) /\
  field 28 4 rq mod 8 = 0 /\ field 32 2 rq = 5 /\ read_contexts 5 (drop (Z.to_nat (field 28 4 rq - 64)) rq) = Some l.
Proof.
  intros Hg Hd Hr len rq. set (pad := pad8 len) in *. pose proof (length_pad8 len ltac:(lia)) as Hp. fold pad in Hp.
  pose proof (Z.mod_pos_bound (8 - len mod 8) 8 ltac:(lia)).
  destruct (layout_fields (Z.of_nat (length d)) mode caps guid (len + Z.of_nat (length pad) + 64) 5 d pad bs)
    as (F1 & F2 & F3 & F4); [done|unfold fits; lia..|].
  unfold rq. clear rq. set (rq := layout _ _ _ _ _ _ _ _ _) in *. cbv zeta in F1, F2, F3, F4. rewrite F1, F2, F3, F4.
  split; [done|]. split; [apply take_app_length'; by rewrite length_put16s|].
  pose proof (pad8_to_8 (36 + 2 * length d)) as H8. replace (Z.of_nat (36 + 2 * length d)) with len in H8 by lia. fold pad in H8.
  split; [|split; [done|]].
  - replace (len + Z.of_nat (length pad) + 64) with (Z.of_nat ((36 + 2 * length d + 7) `div` 8) * 8 + 8 * 8) by lia.
    rewrite Z.mod_add by lia. by apply Z.mod_mul.
  - replace (Z.to_nat (len + Z.of_nat (length pad) + 64 - 64)) with (36 + (length (concat (map put16 d)) + length pad))%nat
      by (rewrite length_put16s; lia).
    by rewrite <- drop_drop, F4, app_assoc, drop_app_length' by (by rewrite length_app).
Qed.

(** A request without contexts. *)
Lemma layout_plain mode caps guid d pad : length guid = 16%nat -> (length d <= 8)%nat ->
  let rq := layout (Z.of_nat (length d)) mode caps guid 0 0 d pad [] in
  field 2 2 rq = Z.of_nat (length d) /\ take (2 * length d) (drop 36 rq) = concat (map put16 d) /\
  field 28 4 rq = 0 /\ field 32 2 rq = 0.
Proof.
  intros Hg Hd rq. destruct (layout_fields (Z.of_nat (length d)) mode caps guid 0 0 d pad [])
    as (F1 & F2 & F3 & F4); [done|unfold fits; lia..|].
  unfold rq. rewrite F1, F2, F3, F4. split_and!; [done| |done..]. apply take_app_length'. by rewrite length_put16s.
Qed.

(** C13: a server that reads the request of a negotiation finds the dialects of the client, and contexts exactly if SMB 3.1.1
    is among them: where the request says they are, at a multiple of eight bytes and as many as it says, the salt, the ciphers,
    the compression and the signing algorithms that are enabled, most preferred first, and the name of the server.  Two
    settings are left out, in which the code offers SMB 3.1.1 and adds no contexts. *)
Theorem request_read_by_server alternate inReconnect salt name s rq s' :
  length salt = 32%nat -> Z.of_nat (length name) < 2 ^ 16 -> length (session_client_guid s) = 16%nat ->
  length (neg_dialects s) = 8%nat -> 0 <= neg_dialect_count s <= 8 -> dialects_usable (inReconnect || alternate) s ->
  negotiate_request alternate inReconnect salt (inr name) s = (inr rq, s') ->
  let dialects := sent_dialects (smb2_smb_get_client_dialects (inReconnect || alternate) s).2 in
  field 2 2 rq = Z.of_nat (length dialects)
  /\ take (2 * length dialects) (drop 36 rq) = concat (map put16 dialects)
  /\ if bool_decide (SMB2_DIALECT_0311 ∈ dialects)
     then field 28 4 rq mod 8 = 0 /\ field 32 2 rq = 5
          /\ read_contexts 5 (drop (Z.to_nat (field 28 4 rq - 64)) rq) = Some (offered (inReconnect || alternate) salt name s)
     else field 28 4 rq = 0 /\ field 32 2 rq = 0.
Proof.
  intros Hs Hn Hg Hl Hc Hu. unfold negotiate_request.
  pose proof (get_client_dialects_wf (inReconnect || alternate) s Hl Hc) as Hwf.
  assert ((smb2_smb_get_client_dialects (inReconnect || alternate) s).1 = 0 ->
    adds_contexts (inReconnect || alternate) (smb2_smb_get_client_dialects (inReconnect || alternate) s).2
    = bool_decide (SMB2_DIALECT_0311 ∈ sent_dialects (smb2_smb_get_client_dialects (inReconnect || alternate) s).2)) as Hadd.
  { destruct (inReconnect || alternate); [by apply again_adds_contexts|by intros _; apply first_adds_contexts]. }
  cbv zeta in Hwf |- *.
  destruct (smb2_smb_get_client_dialects (inReconnect || alternate) s) as [error s1]. cbn [fst snd] in *.
  destruct Hwf as (Hl1 & Hc1 & Hg1 & Ho). destruct (Z.eqb_spec error 0) as [He|]; cbn [negb]; [|discriminate].
  rewrite <- (Hadd He).
  set (s2 := set_neg_capabilities _ _). fold (sent_dialects s2). change (sent_dialects s2) with (sent_dialects s1).
  set (d := sent_dialects s1).
  change (neg_dialect_count s2) with (neg_dialect_count s1). change (neg_dialects s2) with (neg_dialects s1).
  change (session_client_guid s2) with (session_client_guid s1).
  assert (Z.of_nat (length d) = neg_dialect_count s1) as Ld by (unfold d, sent_dialects; rewrite length_take; lia).
  rewrite <- Ld. change (negb (has (session_flags s2) SMBV_DISABLE_311) && _) with (adds_contexts (inReconnect || alternate) s1).
  destruct (adds_contexts _ _) eqn:Eadd.
  - apply andb_true_iff in Eadd as [Een _]. change (session_flags s2) with (session_flags s1). rewrite Een.
    destruct (add_contexts_read (inReconnect || alternate) salt name s2 Hs Hn) as (bs & s3 & -> & Hr). intros E.
    injection E as <- _. rewrite <- (Ho (inReconnect || alternate) salt name).
    apply (layout_contexts (neg_security_mode s2) (neg_capabilities s2)); [congruence|lia|exact Hr].
  - intros E. injection E as <- _. apply (layout_plain (neg_security_mode s2) (neg_capabilities s2)); [congruence|lia].
Qed.
