(* ===== verification/NegotReply.v ===== *)
(** * Replies of a negotiation that are laid out as [MS-SMB2] prescribes *)
From S2P Require Import Prelude Chain Parser Negot NegotTheorems NegotRequest.
Import Errno.
Local Open Scope Z_scope.

(** ** The layout of a reply *)

Inductive context :=
  | CPreauth (hashes salt : list Z)
  | CCipher (c : Z)
  | CCompression (flags : Z) (algs : list Z)
  | CSigning (a : Z)
  | COther (ty : Z) (data : list Z).

Definition context_type (c : context) : Z :=
  match c with
  | CPreauth _ _ => SMB2_PREAUTH_INTEGRITY_CAPABILITIES
  | CCipher _ => SMB2_ENCRYPTION_CAPABILITIES
  | CCompression _ _ => SMB2_COMPRESSION_CAPABILITIES
  | CSigning _ => SMB2_SIGNING_CAPABILITIES
  | COther ty _ => ty
  end.

Definition context_data (c : context) : list Z :=
  match c with
  | CPreauth hashes salt =>
      le_bytes 2 (Z.of_nat (length hashes)) ++ le_bytes 2 (Z.of_nat (length salt)) ++ concat (map (le_bytes 2) hashes) ++ salt
  | CCipher c => le_bytes 2 1 ++ le_bytes 2 c
  | CCompression flags algs =>
      le_bytes 2 (Z.of_nat (length algs)) ++ le_bytes 2 0 ++ le_bytes 4 flags ++ concat (map (le_bytes 2) algs)
  | CSigning a => le_bytes 2 1 ++ le_bytes 2 a
  | COther _ data => data
  end.

(** A context with the bytes up to the next one. *)
Definition context_bytes (c : context) : list Z :=
  let n := length (context_data c) in
  le_bytes 2 (context_type c) ++ le_bytes 2 (Z.of_nat n) ++ le_bytes 4 0 ++ context_data c
  ++ replicate (8 * ((n + 7) `div` 8) - n) 0.

Definition known_types : list Z :=
  [SMB2_PREAUTH_INTEGRITY_CAPABILITIES; SMB2_ENCRYPTION_CAPABILITIES; SMB2_COMPRESSION_CAPABILITIES; SMB2_SIGNING_CAPABILITIES].

Definition context_wf (c : context) : Prop :=
  Z.of_nat (length (context_data c)) < 2 ^ 16 - 16 /\
  match c with
  | CPreauth _ _ => True
  | CCipher c => fits 2 c
  | CCompression flags algs => fits 4 flags /\ Forall (fits 2) algs
  | CSigning a => a = SMB2_SIGNING_AES_CMAC \/ a = SMB2_SIGNING_AES_GMAC
  | COther ty _ => fits 2 ty /\ ty ∉ known_types
  end.

(** What a context says of the session. *)
Definition context_says (s : nsession) (c : context) : nsession :=
  match c with
  | CCipher c => set_session_smb3_encrypt_ciper c s
  | CCompression flags algs =>
      let s := if negb (has (session_misc_flags s) SMBV_COMPRESSION_CHAINING_OFF) && (flags =? 0)
               then set_session_misc_flags (Z.lor (session_misc_flags s) SMBV_COMPRESSION_CHAINING_OFF) s else s in
      fold_left (fun s a => set_server_compression_algorithms_map (Z.lor (server_compression_algorithms_map s) (compression_flag a)) s)
        algs s
  | CSigning a => set_session_smb3_signing_algorithm a s
  | _ => s
  end.

(** ** Reading it *)

Lemma eval_skip_algorithms l rest (s : nsession) :
  eval (skip_algorithms (length l)) (concat (map (le_bytes 2) l) ++ rest) s = Some (inr tt, rest, s).
Proof.
  revert s. induction l as [|x l IH]; intros s; [done|]. cbn [length skip_algorithms map concat]. rewrite eval_bind, <- app_assoc.
  unfold get_le at 1. cbn [eval]. rewrite (proj2 (Nat.leb_le _ _)) by (rewrite length_app, length_le_bytes; lia).
  rewrite drop_app_length' by (by rewrite length_le_bytes). apply IH.
Qed.

Lemma eval_keep_compression l rest : Forall (fits 2) l -> forall s,
  eval (keep_compression (length l)) (concat (map (le_bytes 2) l) ++ rest) s
  = Some (inr tt, rest, fold_left (fun s a => set_server_compression_algorithms_map
      (Z.lor (server_compression_algorithms_map s) (compression_flag a)) s) l s).
Proof.
  induction 1 as [|x l Hx _ IH]; intros s; [done|]. cbn [length keep_compression map concat fold_left]. rewrite <- app_assoc.
  rewrite eval_bind, eval_get_le by done. rewrite eval_bind. unfold save. rewrite eval_change. apply IH.
Qed.

Lemma context_known c : context_wf c -> match c with COther ty _ =>
    ty <> SMB2_PREAUTH_INTEGRITY_CAPABILITIES /\ ty <> SMB2_ENCRYPTION_CAPABILITIES
    /\ ty <> SMB2_COMPRESSION_CAPABILITIES /\ ty <> SMB2_SIGNING_CAPABILITIES | _ => True end.
Proof.
  destruct c as [| | | |ty data]; try done. intros (_ & _ & Hn). unfold known_types in Hn.
  rewrite !not_elem_of_cons in Hn. by destruct Hn as (? & ? & ? & ? & ?).
Qed.

(** The type picks the parser. *)
Ltac picks p := lazymatch goal with |- eval _ ?bs ?s = ?r => change (eval p bs s = r) end.

Lemma eval_context c rest s : context_wf c ->
  eval (parse_context false) (context_bytes c ++ rest) s
  = Some (inr (Z.of_nat (length (context_data c))), context_bytes c ++ rest, context_says s c).
Proof.
  intros Hwf. pose proof (context_known c Hwf) as Hk. destruct Hwf as [Hl Hc]. unfold parse_context, shadow. cbn [eval].
  unfold context_bytes at 1. cbv zeta. rewrite <- !app_assoc. set (pad := replicate _ 0). set (n := Z.of_nat (length (context_data c))) in *.
  assert (fits 2 n) as Hn by (unfold fits; lia).
  assert (fits 2 (context_type c)) as Ht.
  { destruct c; cbn; try (by split); by destruct Hc. }
  rewrite eval_bind, eval_get_le by done. rewrite eval_bind, eval_get_le by done. rewrite eval_bind, eval_get_le by (by split).
  rewrite eval_bind.
  assert (exists rest', eval (if context_type c =? SMB2_PREAUTH_INTEGRITY_CAPABILITIES then ctx_preauth
     else if context_type c =? SMB2_ENCRYPTION_CAPABILITIES then ctx_encryption false
     else if context_type c =? SMB2_COMPRESSION_CAPABILITIES then ctx_compression
     else if context_type c =? SMB2_SIGNING_CAPABILITIES then ctx_signing else mret tt) (context_data c ++ pad ++ rest) s
    = Some (inr tt, rest', context_says s c)) as [rest' ->]; [|reflexivity].
  assert (forall x, 0 <= x -> x <= n -> fits 2 x) as Hx by (unfold fits; lia).
  destruct c as [hashes salt|c|flags algs|a|ty data]; cbn [context_type context_data context_says] in *.
  - exists (pad ++ rest). picks ctx_preauth. unfold ctx_preauth. rewrite <- !app_assoc.
    unfold n in Hx. rewrite !length_app, !length_le_bytes in Hx.
    change (le_bytes 2) with put16 in Hx. rewrite length_put16s in Hx.
    rewrite eval_bind, eval_get_le by (apply Hx; lia). rewrite eval_bind, eval_get_le by (apply Hx; lia).
    rewrite Nat2Z.id, eval_bind, eval_skip_algorithms. by apply eval_skip.
  - exists (pad ++ rest). picks (ctx_encryption false). unfold ctx_encryption. rewrite <- !app_assoc. rewrite eval_bind, eval_get_le by (by split). change (negb (1 =? 1)) with false; cbv iota.
    rewrite eval_bind, eval_get_le by done. reflexivity.
  - exists (pad ++ rest). picks ctx_compression. unfold ctx_compression. rewrite <- !app_assoc. destruct Hc as [Hf Ha].
    unfold n in Hx. rewrite !length_app, !length_le_bytes in Hx. change (le_bytes 2) with put16 in Hx. rewrite length_put16s in Hx.
    rewrite eval_bind, eval_get_le by (apply Hx; lia). rewrite eval_bind, eval_get_le by (by split).
    rewrite eval_bind, eval_get_le by done. rewrite eval_bind. unfold save. rewrite eval_change, Nat2Z.id. by apply eval_keep_compression.
  - exists (pad ++ rest). picks ctx_signing. unfold ctx_signing. rewrite <- !app_assoc. rewrite eval_bind, eval_get_le by (by split). change (negb (1 =? 1)) with false; cbv iota.
    rewrite eval_bind, eval_get_le by (by destruct Hc; subst a; split). by destruct Hc; subst a.
  - exists (data ++ pad ++ rest). destruct Hk as (K1 & K2 & K3 & K4).
    rewrite (proj2 (Z.eqb_neq _ _) K1), (proj2 (Z.eqb_neq _ _) K2), (proj2 (Z.eqb_neq _ _) K3), (proj2 (Z.eqb_neq _ _) K4). done.
Qed.

Lemma length_context_bytes c :
  length (context_bytes c) = (8 + 8 * ((length (context_data c) + 7) `div` 8))%nat.
Proof.
  unfold context_bytes. cbv zeta. rewrite !length_app, !length_le_bytes, length_replicate.
  pose proof (Nat.div_mod_eq (length (context_data c) + 7) 8). pose proof (Nat.mod_upper_bound (length (context_data c) + 7) 8). lia.
Qed.

Lemma context_step_length c : context_wf c ->
  context_step (Z.of_nat (length (context_data c))) = Z.of_nat (length (context_bytes c)).
Proof.
  intros [Hl _]. rewrite length_context_bytes. unfold context_step. set (n := length (context_data c)) in *.
  rewrite (u16_small (Z.of_nat n + 8)) by lia.
  pose proof (Nat.div_mod_eq (n + 7) 8). pose proof (Nat.mod_upper_bound (n + 7) 8).
  pose proof (Z.div_mod (Z.of_nat n + 8) 8). pose proof (Z.mod_pos_bound (Z.of_nat n + 8) 8).
  destruct (Z.eqb_spec ((Z.of_nat n + 8) mod 8) 0); [|rewrite u16_small by lia]; lia.
Qed.

(** At least one context: all are read, each on the copy of the chain. *)
Lemma eval_contexts l : l <> [] -> Forall context_wf l -> forall rest s, exists bs',
  eval (contexts_loop (length l) false) (concat (map context_bytes l) ++ rest) s = Some (inr tt, bs', fold_left context_says l s).
Proof.
  induction l as [|c l IH]; [done|]. intros _ Hf rest s. inversion Hf as [|? ? Hc Hf2]; subst.
  cbn [length contexts_loop map concat fold_left]. rewrite <- app_assoc, eval_bind, eval_context by done.
  destruct l as [|c2 l]; [by eexists|]. cbn [length]. rewrite eval_bind, context_step_length by done.
  rewrite eval_skip by done. apply IH; done.
Qed.

(** ** The whole reply of SMB 3.1.1 *)

Record neg_reply := NegReply {
  nr_mode : Z; nr_guid : list Z; nr_caps : Z; nr_maxtransact : Z; nr_maxread : Z; nr_maxwrite : Z;
  nr_times : list Z; nr_token : list Z; nr_contexts : list context }.

(** The token follows the 64 bytes of the header and the 64 bytes of the reply, the contexts the token. *)
Definition reply_bytes (r : neg_reply) : list Z :=
  let t := length (nr_token r) in
  le_bytes 2 65 ++ le_bytes 2 (nr_mode r) ++ le_bytes 2 SMB2_DIALECT_0311 ++ le_bytes 2 (Z.of_nat (length (nr_contexts r)))
  ++ nr_guid r ++ le_bytes 4 (nr_caps r) ++ le_bytes 4 (nr_maxtransact r) ++ le_bytes 4 (nr_maxread r) ++ le_bytes 4 (nr_maxwrite r)
  ++ nr_times r ++ le_bytes 2 128 ++ le_bytes 2 (Z.of_nat t) ++ le_bytes 4 (Z.of_nat (128 + 8 * ((t + 7) `div` 8)))
  ++ nr_token r ++ replicate (8 * ((t + 7) `div` 8) - t) 0 ++ concat (map context_bytes (nr_contexts r)).

Definition reply_wf (r : neg_reply) : Prop :=
  fits 2 (nr_mode r) /\ length (nr_guid r) = 16%nat /\ fits 4 (nr_caps r) /\ fits 4 (nr_maxtransact r) /\ fits 4 (nr_maxread r)
  /\ fits 4 (nr_maxwrite r) /\ length (nr_times r) = 16%nat /\ Z.of_nat (length (nr_token r)) < 2 ^ 16
  /\ nr_contexts r <> [] /\ Z.of_nat (length (nr_contexts r)) < 2 ^ 16 /\ Forall context_wf (nr_contexts r).

(** The session after the reply. *)
Definition reply_says (r : neg_reply) (s : nsession) : nsession :=
  let s := add_flags (Z.lor SMBV_SMB2 SMBV_SMB311) (set_sv_dialect SMB2_DIALECT_0311 (keep_mode (nr_mode r) s)) in
  let s := keep_caps (nr_caps r) (set_sv_guid (nr_guid r) s) in
  let s := set_sv_maxwrite (nr_maxwrite r) (set_sv_maxread (nr_maxread r) (set_sv_maxtransact (nr_maxtransact r) s)) in
  let s := match nr_token r with [] => s | t => set_negotiate_token (Some t) s end in
  fold_left context_says (nr_contexts r) s.

Lemma keep_caps_flags caps s m : Z.land SMBV_MULTICHANNEL_ON m = 0 ->
  has (session_flags (keep_caps caps s)) m = has (session_flags s) m.
Proof.
  intros Hm. assert (has SMBV_MULTICHANNEL_ON m = false) as Hf by (unfold has; by rewrite Hm).
  unfold keep_caps. cbv zeta.
  repeat match goal with |- context [if ?b then _ else _] => destruct b end; cbn; rewrite ?has_lor, ?Hf, ?orb_false_r, ?has_clear by done; done.
Qed.

(** The token, if there is one. *)
Lemma eval_token tok rest s :
  eval (parse_token true (Z.of_nat (length tok))) (tok ++ rest) s
  = Some (inr 0, rest, match tok with [] => s | t => set_negotiate_token (Some t) s end).
Proof.
  unfold parse_token. destruct tok as [|b tok]; [done|]. rewrite (proj2 (Z.ltb_lt _ _)) by (cbn [length]; lia). cbn [negb].
  unfold save. rewrite eval_bind, eval_change, Nat2Z.id, eval_bind, eval_get_mem by done. rewrite eval_bind, eval_change. done.
Qed.

(** C14: a reply of SMB 3.1.1 with the layout of [MS-SMB2] and at least one context is read to exactly its fields: the session
    keeps the mode, the GUID, the capabilities, the sizes, the token, and what the contexts say of ciphers, compression and
    signing. *)
Theorem negotiate_reply_roundtrip r s rest :
  reply_wf r ->
  exists bs', eval (smb2_smb_parse_negotiate false false true) (reply_bytes r ++ rest) s = Some (inr tt, bs', reply_says r s).
Proof.
  intros (Hm & Hg & Hc & H1 & H2 & H3 & Ht & Hk & Hn & Hl & Hf). unfold reply_bytes, smb2_smb_parse_negotiate. cbv zeta.
  set (t := length (nr_token r)) in *. rewrite <- !app_assoc.
  rewrite eval_bind, eval_check_size by (by split). rewrite eval_bind, eval_get_le by done. rewrite eval_bind.
  unfold agree at 1, save. rewrite eval_change. unfold parse_dialect. rewrite eval_bind, eval_bind, eval_get_le by (by split).
  unfold save. rewrite eval_bind, eval_change. change (dialect_flags SMB2_DIALECT_0311) with (Some (Z.lor SMBV_SMB2 SMBV_SMB311)).
  cbv iota. rewrite eval_bind, eval_change. cbn [eval mret parser_ret andb negb Z.eqb SMB2_DIALECT_0311 SMB2_DIALECT_0202 SMB2_DIALECT_0210 Pos.eqb].
  unfold parse_rest, agree, save.
  rewrite eval_bind, eval_get_le by (unfold fits; lia). rewrite eval_bind, eval_get_mem by done. rewrite eval_bind, eval_change.
  do 4 (rewrite eval_bind, eval_get_le by done; rewrite eval_bind, eval_change).
  rewrite <- (take_drop 8 (nr_times r)), <- app_assoc.
  rewrite eval_bind, eval_get_mem by (rewrite length_take; lia). rewrite eval_bind, eval_get_mem by (rewrite length_drop; lia).
  pose proof (Nat.div_mod_eq (t + 7) 8). pose proof (Nat.mod_upper_bound (t + 7) 8).
  rewrite eval_bind, eval_get_le by (by split). rewrite eval_bind, eval_get_le by (unfold fits; lia).
  rewrite eval_bind, eval_get_le by (unfold fits; lia).
  change (0 <? 128) with true. change (u16 (u16 (128 - 64) - 64)) with 0. cbv iota zeta.
  rewrite eval_bind. change (skip 0) with (Skip 0 (Ret tt) : parser nsession unit). cbn [eval].
  rewrite (proj2 (Z.leb_le 0 _)) by lia. change (Z.to_nat 0) with 0%nat. rewrite drop_0, eval_bind. unfold t. rewrite eval_token. fold t.
  rewrite eval_bind. cbn [look eval]. unfold id.
  set (s1 := keep_caps _ _). set (s2 := match nr_token r with [] => _ | _ => _ end).
  assert (has (session_flags s2) SMBV_SMB311 = true) as Hb.
  { assert (session_flags s2 = session_flags s1) as -> by (unfold s2; by destruct (nr_token r)).
    unfold s1. rewrite keep_caps_flags by done. cbn. rewrite has_lor. apply orb_true_r. }
  rewrite Hb. unfold smb2_smb_parse_negotiate_contexts. rewrite eval_bind.
  rewrite (proj2 (Z.ltb_lt 0 (Z.of_nat (128 + _)))) by lia. set (pad := (8 * ((t + 7) `div` 8) - t)%nat) in *.
  replace (u32 _) with (Z.of_nat pad).
  2: { rewrite (u32_small (_ - 64)) by lia. rewrite u32_small; destruct (Z.ltb_spec 0 (Z.of_nat t)); cbn [andb]; lia. }
  rewrite eval_skip by (by rewrite length_replicate).
  assert (rounds_of (Z.of_nat (length (nr_contexts r))) = length (nr_contexts r)) as ->.
  { unfold rounds_of. destruct (Z.eqb_spec (Z.of_nat (length (nr_contexts r))) 0); [|by rewrite Nat2Z.id].
    destruct (nr_contexts r); [done|cbn in *; lia]. }
  destruct (eval_contexts (nr_contexts r) Hn Hf rest s2) as [bs' ->]. exists bs'. unfold reply_says, s2, s1. destruct (nr_token r); reflexivity.
Qed.
