(* ===== verification/NegotDemo.v ===== *)
(** * Negotiations: examples, and where the code does not do what it means to *)
From S2P Require Import Prelude Chain Parser Negot NegotTheorems NegotRequest NegotReply.
Import Errno.
Local Open Scope Z_scope.

Definition demo_misc : Z :=
  Z.lor SMBV_NEG_SMB2_ENABLED (Z.lor SMBV_NEG_SMB3_ENABLED (Z.lor SMBV_CLIENT_SIGNING_REQUIRED (Z.lor SMBV_SMB2_SIGNING_REQUIRED
    (Z.lor SMBV_SMB3_SIGNING_REQUIRED (Z.lor SMBV_ENABLE_AES_256_GCM (Z.lor SMBV_ENABLE_AES_128_CCM SMBV_ENABLE_AES_128_CMAC)))))).

(** A new session. *)
Definition demo_ns : nsession :=
  NSession 0 demo_misc 0 0 0 0 0 0 0 0 0 (replicate 16 0) 0 0 (replicate 16 9) 0 0 (replicate 8 0) (replicate 72 7) 30 0 0 0
    (Z.lor SMB2_COMPRESSION_LZ77_ENABLED SMB2_COMPRESSION_PATTERN_V1_ENABLED) 0 None.

Definition demo_salt : list Z := replicate 32 5.
Definition demo_name : list Z := [115; 0; 114; 0; 118; 0].

(** A server that picks AES-256-GCM and GMAC. *)
Definition demo_neg_reply : neg_reply :=
  NegReply 1 (replicate 16 4) 0x47 1048576 8388608 8388608 (replicate 16 0) [96; 1; 2]
    [CPreauth [1] (replicate 32 6); CCipher SMB2_ENCRYPTION_AES_256_GCM; CSigning SMB2_SIGNING_AES_GMAC;
     CCompression 1 [SMB2_COMPRESSION_LZ77]; COther 6 [1; 0; 0; 0]].

Lemma demo_reply_wf : reply_wf demo_neg_reply.
Proof.
  split_and!; try (by split); try done.
  apply Forall_cons; [by split|]. apply Forall_cons; [by split; [|split]|]. apply Forall_cons; [split; [done|by right]|].
  apply Forall_cons; [split; [done|split; [by split|]]; apply Forall_cons; [by split|apply Forall_nil]|].
  apply Forall_cons; [|apply Forall_nil]. split; [done|]. split; [by split|]. by apply (bool_decide_unpack (6 ∉ known_types)).
Qed.

Lemma negotiate_reply_roundtrip_witness : exists bs',
  eval (smb2_smb_parse_negotiate false false true) (reply_bytes demo_neg_reply ++ []) demo_ns = Some (inr tt, bs', reply_says demo_neg_reply demo_ns).
Proof. apply negotiate_reply_roundtrip. exact demo_reply_wf. Defined.

(** The session that negotiated with this server, and its second channel. *)
Definition demo_ns1 : nsession := reply_says demo_neg_reply demo_ns.

Lemma alternate_channel_agrees_witness : exists bs' s',
  eval (smb2_smb_parse_negotiate true false true) (reply_bytes demo_neg_reply) demo_ns1 = Some (inr tt, bs', s')
  /\ core s' = core demo_ns1.
Proof.
  destruct (eval (smb2_smb_parse_negotiate true false true) (reply_bytes demo_neg_reply) demo_ns1) as [[[[e|[]] bs'] s']|] eqn:E;
    [vm_compute in E; discriminate| |vm_compute in E; discriminate].
  exists bs', s'. split; [reflexivity|]. by destruct (alternate_channel_agrees false true (reply_bytes demo_neg_reply) demo_ns1 bs' s' E).
Defined.

Lemma negotiation_enforces_signing_witness : exists rqs s',
  smb2_smb_negotiate false false None demo_salt (inr demo_name) true 0 [Sent 54 true []; Sent 0 false (reply_bytes demo_neg_reply)] demo_ns
  = Some (0, rqs, s') /\ has (session_hflags2 s') SMB_FLAGS2_SECURITY_SIGNATURE = true.
Proof.
  destruct (smb2_smb_negotiate false false None demo_salt (inr demo_name) true 0
    [Sent 54 true []; Sent 0 false (reply_bytes demo_neg_reply)] demo_ns) as [[[e rqs] s']|] eqn:E; [|vm_compute in E; discriminate].
  assert (e = 0) as -> by (vm_compute in E; congruence).
  exists rqs, s'. split; [reflexivity|].
  by destruct (negotiation_enforces_signing false None demo_salt (inr demo_name) true 0 _ demo_ns rqs s' ltac:(by split_and!) ltac:(done) E).
Defined.

Lemma request_read_by_server_witness : exists rq s',
  negotiate_request false false demo_salt (inr demo_name) demo_ns = (inr rq, s')
  /\ read_contexts 5 (drop (Z.to_nat (field 28 4 rq - 64)) rq) = Some (offered false demo_salt demo_name demo_ns).
Proof.
  destruct (negotiate_request false false demo_salt (inr demo_name) demo_ns) as [[e|rq] s'] eqn:E; [vm_compute in E; discriminate|].
  exists rq, s'. split; [reflexivity|].
  destruct (request_read_by_server false false demo_salt demo_name demo_ns rq s' eq_refl eq_refl eq_refl eq_refl ltac:(cbn; lia)
    ltac:(by left) E) as (_ & _ & _ & _ & Hr). exact Hr.
Defined.

(** ** Defects *)

(** A reconnect after STATUS_SMB_BAD_CLUSTER_DIALECT clears sixteen bytes behind the dialects: the kind, the number of
    authorities, the authority and the first two authorities of the SID of the user. *)
Theorem max_dialect_clears_sid s :
  length (neg_dialects s) = 8%nat -> (16 <= length (session_ntwrk_sid s))%nat -> session_max_dialect s <> 0 ->
  session_ntwrk_sid (smb2_smb_get_client_dialects true s).2 = replicate 16 0 ++ drop 16 (session_ntwrk_sid s).
Proof.
  intros Hl Hs Hm. unfold smb2_smb_get_client_dialects. cbv zeta. cbn [negb].
  change (session_max_dialect (set_neg_dialect_count 1 s)) with (session_max_dialect s). rewrite (proj2 (Z.eqb_neq _ _) Hm). cbn [negb snd].
  set (c := max_dialect_cnt _). pose proof (max_dialect_cnt_range (session_max_dialect s)). fold c in H.
  set (s1 := put_dialects _ _). assert (length (neg_dialects s1) = 8%nat) as Hl1 
    by (unfold s1; rewrite length_put_dialects; [exact Hl|]; cbn [neg_dialects set_neg_dialect_count]; rewrite Hl; cbn; lia).
  unfold clear_rest. rewrite Hl1. cbn [session_ntwrk_sid set_session_max_dialect set_session_ntwrk_sid].
  change (session_ntwrk_sid s1) with (session_ntwrk_sid s).
  replace (2 * Z.to_nat c + 2 * (2 * 8 - Z.to_nat c) - 2 * 8)%nat with 16%nat by lia. done.
Qed.

Lemma max_dialect_clears_sid_witness :
  session_ntwrk_sid (smb2_smb_get_client_dialects true (set_session_max_dialect SMB2_DIALECT_0300 demo_ns)).2
  = replicate 16 0 ++ replicate 56 7.
Proof. exact (max_dialect_clears_sid (set_session_max_dialect SMB2_DIALECT_0300 demo_ns) eq_refl ltac:(cbn; lia) ltac:(done)). Defined.

(** The dialect of the reply is not compared with the dialects that were offered: a client that has SMB 2 disabled
    accepts SMB 2.002. *)
Definition demo_old_reply : list Z :=
  le_bytes 2 65 ++ le_bytes 2 1 ++ le_bytes 2 SMB2_DIALECT_0202 ++ le_bytes 2 0 ++ replicate 16 4 ++ le_bytes 4 1
  ++ le_bytes 4 65536 ++ le_bytes 4 65536 ++ le_bytes 4 65536 ++ replicate 16 0 ++ le_bytes 2 128 ++ le_bytes 2 0 ++ le_bytes 4 0.

Definition demo_smb3_only : nsession := set_session_misc_flags SMBV_NEG_SMB3_ENABLED demo_ns.

Theorem unoffered_dialect_accepted : exists rqs s',
  smb2_smb_negotiate false false None demo_salt (inr demo_name) true 0 [Sent 0 false demo_old_reply] demo_smb3_only = Some (0, rqs, s')
  /\ sv_dialect s' = SMB2_DIALECT_0202 /\ SMB2_DIALECT_0202 ∉ take (Z.to_nat (neg_dialect_count s')) (neg_dialects s').
Proof.
  eexists _, _. split; [vm_compute; reflexivity|]. split; [reflexivity|].
  by apply (bool_decide_unpack (SMB2_DIALECT_0202 ∉ [SMB2_DIALECT_0300; SMB2_DIALECT_0302; SMB2_DIALECT_0311])).
Qed.

(** Nor is the cipher: the client offers AES-256-GCM and AES-128-CCM and keeps whatever number the server answers with. *)
Theorem unoffered_cipher_accepted c : fits 2 c ->
  exists bs', eval (parse_context false) (context_bytes (CCipher c)) demo_ns = Some (inr 4, bs', set_session_smb3_encrypt_ciper c demo_ns).
Proof.
  intros Hc. rewrite <- (app_nil_r (context_bytes _)). rewrite eval_context by (by split). by eexists.
Qed.

Lemma unoffered_cipher_accepted_witness :
  exists bs', eval (parse_context false) (context_bytes (CCipher 999)) demo_ns = Some (inr 4, bs', set_session_smb3_encrypt_ciper 999 demo_ns).
Proof. apply unoffered_cipher_accepted. by split. Defined.

(** A further channel changes the signing algorithm of the session, and with it of the other channels. *)
Theorem alternate_channel_changes_signing : exists bs' s',
  eval (smb2_smb_parse_negotiate true false true)
    (reply_bytes (NegReply 1 (replicate 16 4) 0x47 1048576 8388608 8388608 (replicate 16 0) [] [CSigning SMB2_SIGNING_AES_CMAC])) demo_ns1
  = Some (inr tt, bs', s')
  /\ session_smb3_signing_algorithm demo_ns1 = SMB2_SIGNING_AES_GMAC /\ session_smb3_signing_algorithm s' = SMB2_SIGNING_AES_CMAC.
Proof. eexists _, _. split; [vm_compute; reflexivity|]. by vm_compute. Qed.

(** A cluster that asks for at most SMB 3.1.1 is offered SMB 3.1.1 without contexts, which servers have to refuse: contexts
    are added in a reconnect only if the first dialect is SMB 3.1.1. *)
Theorem max_dialect_without_contexts : exists rq s',
  negotiate_request false true demo_salt (inr demo_name) (set_session_max_dialect SMB2_DIALECT_0311 demo_ns1) = (inr rq, s')
  /\ take (Z.to_nat (neg_dialect_count s')) (neg_dialects s') = all_dialects /\ field 28 4 rq = 0 /\ field 32 2 rq = 0.
Proof. eexists _, _. split; [vm_compute; reflexivity|]. by vm_compute. Qed.

(** SMB 3.1.1 that is disabled is offered nevertheless, without contexts, when SMB 2 is disabled as well. *)
Theorem disabled_dialect_offered : exists rq s',
  negotiate_request false false demo_salt (inr demo_name) (set_session_flags SMBV_DISABLE_311 demo_smb3_only) = (inr rq, s')
  /\ SMB2_DIALECT_0311 ∈ take (Z.to_nat (neg_dialect_count s')) (neg_dialects s') /\ field 28 4 rq = 0.
Proof.
  eexists _, _. split; [vm_compute; reflexivity|]. split; [|by vm_compute].
  by apply (bool_decide_unpack (SMB2_DIALECT_0311 ∈ [SMB2_DIALECT_0300; SMB2_DIALECT_0302; SMB2_DIALECT_0311])).
Qed.

(** The flag of SMB 3.1.1 stays when a cluster asks for SMB 3.0 or 3.0.2: contexts are looked for in a reply that has
    none, and the reconnect fails. *)
Definition demo_0300_reply : list Z :=
  le_bytes 2 65 ++ le_bytes 2 1 ++ le_bytes 2 SMB2_DIALECT_0300 ++ le_bytes 2 0 ++ replicate 16 4 ++ le_bytes 4 0x47
  ++ le_bytes 4 65536 ++ le_bytes 4 65536 ++ le_bytes 4 65536 ++ replicate 16 0 ++ le_bytes 2 128 ++ le_bytes 2 0 ++ le_bytes 4 0.

Definition demo_bad_cluster (d : Z) : list Z := le_bytes 2 9 ++ [1; 0] ++ le_bytes 4 10 ++ replicate 8 0 ++ le_bytes 2 d.

Theorem older_dialect_reply_refused : exists bs1 s1,
  eval smb2_smb_tree_connect_bad_cluster_dialect (demo_bad_cluster SMB2_DIALECT_0300) demo_ns1 = Some (inr tt, bs1, s1)
  /\ exists rqs s2, smb2_smb_negotiate false true None demo_salt (inr demo_name) true 0 [Sent 0 false demo_0300_reply] s1
     = Some (EBADRPC, rqs, s2).
Proof. eexists _, _. split; [vm_compute; reflexivity|]. eexists _, _. vm_compute. reflexivity. Qed.

(** The validation of the negotiation does not compare the dialect: whatever dialect the server picked in truth, a signed
    answer with the right capabilities, GUID and mode is accepted.  (It tests the flag of the dialect together with the
    flag that all dialects of SMB 2 and 3 have.) *)
Theorem validation_ignores_dialect s d :
  has (session_flags s) SMBV_SMB2 = true -> d ∈ [SMB2_DIALECT_0202; SMB2_DIALECT_0210; SMB2_DIALECT_0300; SMB2_DIALECT_0302] ->
  check_neg_info (inr (SecureNeg (sv_saved_capabilities s) (sv_guid s) (sv_security_mode s) d)) s = 0.
Proof.
  intros Hf Hd. cbn [check_neg_info sn_capabilities sn_guid sn_security_mode sn_dialect]. rewrite !Z.eqb_refl, bool_decide_eq_true_2 by done.
  cbn [negb]. assert (dialect_matches d (session_flags s) = true) as ->; [|done].
  unfold dialect_matches. rewrite !has_lor_r, Hf. cbn [orb].
  repeat (apply elem_of_cons in Hd as [->|Hd]; [done|]). by apply elem_of_nil in Hd.
Qed.

(** A session that was brought down to SMB 3.0 although both sides speak SMB 3.0.2. *)
Lemma validation_ignores_dialect_witness :
  let s := reply_says demo_neg_reply demo_ns in
  let s := set_session_flags (Z.lor SMBV_SMB2 SMBV_SMB30) s in
  smb2fs_smb_validate_neg_info [Attempt false s (inr (SecureNeg (sv_saved_capabilities s) (sv_guid s) (sv_security_mode s) SMB2_DIALECT_0302))] s
  = Some (0, [NegInfo 0 (replicate 16 9) 0 []])
  /\ check_neg_info (inr (SecureNeg (sv_saved_capabilities s) (sv_guid s) (sv_security_mode s) SMB2_DIALECT_0302)) s = 0.
Proof.
  split; [by vm_compute|]. apply validation_ignores_dialect; [done|].
  by apply (bool_decide_unpack (SMB2_DIALECT_0302 ∈ [SMB2_DIALECT_0202; SMB2_DIALECT_0210; SMB2_DIALECT_0300; SMB2_DIALECT_0302])).
Defined.

(** SMB 2.002 and 2.1 are not validated at all, although a client of SMB 3 can be brought down to them. *)
Theorem downgrade_to_smb2_not_validated l s :
  has (session_flags s) (Z.lor SMBV_SMB2002 SMBV_SMB21) = true -> smb2fs_smb_validate_neg_info l s = Some (0, []).
Proof. intros H. unfold smb2fs_smb_validate_neg_info. rewrite H. by rewrite orb_true_r. Qed.

Lemma downgrade_to_smb2_not_validated_witness :
  smb2fs_smb_validate_neg_info [] (set_session_flags (Z.lor SMBV_SMB2 SMBV_SMB21) demo_ns) = Some (0, []).
Proof. by apply downgrade_to_smb2_not_validated. Defined.

(** Without memory for the token the negotiation of SMB 3.1.1 succeeds without it: the result of the contexts replaces the error. *)
Theorem token_error_lost : exists bs' s',
  eval (smb2_smb_parse_negotiate false false false)
    (reply_bytes (NegReply 1 (replicate 16 4) 0x47 1048576 8388608 8388608 (replicate 16 0) [1; 2; 3; 4; 5; 6; 7; 8]
       [COther 6 (replicate 6 0); CSigning SMB2_SIGNING_AES_CMAC])) demo_ns = Some (inr tt, bs', s')
  /\ negotiate_token s' = None.
Proof. eexists _, _. split; [vm_compute; reflexivity|]. by vm_compute. Qed.
