(* ===== verification/Dirlist.v ===== *)
(** * Listing of directories

    [kernel/netsmb/smb_smb_2.c]: an entry of a reply to a query of a directory
    ([smb2_smb_parse_query_dir_both_dir_info]); [kernel/smbfs/smbfs_smb_2.c]: the queries,
    which are sent ahead, saved and parsed later ([smb2fs_smb_findnext]);
    [kernel/smbfs/smbfs_smb.c]: what is given to the filesystem ([smbfs_findnext]).

    A saved query is the bytes of its reply that have not been parsed yet.  The outcome of
    sending a query is an input: see [answer]. *)
From S2P Require Import Prelude Chain Parser Create.
From S2P Require Replies.
Import Errno.
Local Open Scope Z_scope.

Abbreviation timespec := Replies.timespec.
Abbreviation smb_time_NT2local := Replies.smb_time_NT2local.
Abbreviation smb2_smb_get_alloc_size := Replies.smb2_smb_get_alloc_size.

(** ** Constants *)

Definition SMB_EFA_DIRECTORY := 0x10.
Definition SMB_EFA_REPARSE_POINT := 0x400.
Definition IO_REPARSE_TAG_RESERVED_ZERO := 0.
Definition IO_REPARSE_TAG_SYMLINK := 0xA000000C.
Definition FA_VTYPE_VALID := 0x01.
Definition FA_REPARSE_TAG_VALID := 0x02.
Definition FA_FSTATUS_VALID := 0x04.
Definition FA_UNIX_MODES_VALID := 0x08.
Definition FA_RSRC_FORK_VALID := 0x10.
Definition FA_FINDERINFO_VALID := 0x20.
Definition FA_MAX_ACCESS_VALID := 0x40.
Definition kNO_SUBSTREAMS := 0x2.
Definition kAAPL_SUPPORTS_READ_DIR_ATTR := 0x01.
Definition kAAPL_UNIX_BASED := 0x04.
Definition kAAPL_SUPPORTS_READ_DIR_ATTR_V2 := 0x10.
Definition kAAPL_READ_DIR_NO_XATTR := 0x01.
Definition SA_RIGHT_FILE_ALL_ACCESS := 0x1ff.
Definition STD_RIGHT_ALL_ACCESS := 0x1f0000.
Definition SMBV_64K_QUERY_DIR := 0x04.
Definition SMBV_HAS_FILEIDS := 0x10.
Definition SMBV_OSX_SERVER := 0x40.
Definition KAUTH_UID_NONE := 0xffffff9b.
Definition KAUTH_GID_NONE := 0xffffff9b.
Definition SMB_FIND_FULL_DIRECTORY_INFO := 0x102.
Definition SMB_FIND_BOTH_DIRECTORY_INFO := 0x104.
Definition SMBFS_RDD_FINDFIRST := 0x01.
Definition SMBFS_RDD_EOF := 0x02.
Definition SMBFS_RDD_FINDSINGLE := 0x04.
Definition SMBFS_RDD_GOTRNAME := 0x1000.
Definition STATUS_INVALID_PARAMETER := 0xc000000d.
Definition SMBFS_ROOT_INO := 2.
Definition k_entry_struct_size := 600.

(** ** Attributes of an entry *)

Inductive vtype := VREG | VDIR | VLNK.

Record smbfattr := Fattr {
  fa_crtime : timespec;
  fa_atime : timespec;
  fa_mtime : timespec;
  fa_chtime : timespec;
  fa_size : Z;
  fa_data_alloc : Z;
  fa_attr : Z;
  fa_valid_mask : Z;
  fa_vtype : vtype;
  fa_uid : Z;
  fa_gid : Z;
  fa_reparse_tag : Z;
  fa_fstatus : Z;
  fa_max_access : Z;
  fa_rsrc_size : Z;
  fa_rsrc_alloc : Z;
  fa_finder_info : list Z;
  fa_permissions : Z;
  fa_ino : Z;
  fa_reqtime : timespec
}.
Definition set_fa_crtime (x : timespec) (r : smbfattr) : smbfattr :=
  Fattr x (fa_atime r) (fa_mtime r) (fa_chtime r) (fa_size r) (fa_data_alloc r) (fa_attr r)
    (fa_valid_mask r) (fa_vtype r) (fa_uid r) (fa_gid r) (fa_reparse_tag r) (fa_fstatus r)
    (fa_max_access r) (fa_rsrc_size r) (fa_rsrc_alloc r) (fa_finder_info r) (fa_permissions r)
    (fa_ino r) (fa_reqtime r).
Definition set_fa_atime (x : timespec) (r : smbfattr) : smbfattr :=
  Fattr (fa_crtime r) x (fa_mtime r) (fa_chtime r) (fa_size r) (fa_data_alloc r) (fa_attr r)
    (fa_valid_mask r) (fa_vtype r) (fa_uid r) (fa_gid r) (fa_reparse_tag r) (fa_fstatus r)
    (fa_max_access r) (fa_rsrc_size r) (fa_rsrc_alloc r) (fa_finder_info r) (fa_permissions r)
    (fa_ino r) (fa_reqtime r).
Definition set_fa_mtime (x : timespec) (r : smbfattr) : smbfattr :=
  Fattr (fa_crtime r) (fa_atime r) x (fa_chtime r) (fa_size r) (fa_data_alloc r) (fa_attr r)
    (fa_valid_mask r) (fa_vtype r) (fa_uid r) (fa_gid r) (fa_reparse_tag r) (fa_fstatus r)
    (fa_max_access r) (fa_rsrc_size r) (fa_rsrc_alloc r) (fa_finder_info r) (fa_permissions r)
    (fa_ino r) (fa_reqtime r).
Definition set_fa_chtime (x : timespec) (r : smbfattr) : smbfattr :=
  Fattr (fa_crtime r) (fa_atime r) (fa_mtime r) x (fa_size r) (fa_data_alloc r) (fa_attr r)
    (fa_valid_mask r) (fa_vtype r) (fa_uid r) (fa_gid r) (fa_reparse_tag r) (fa_fstatus r)
    (fa_max_access r) (fa_rsrc_size r) (fa_rsrc_alloc r) (fa_finder_info r) (fa_permissions r)
    (fa_ino r) (fa_reqtime r).
Definition set_fa_size (x : Z) (r : smbfattr) : smbfattr :=
  Fattr (fa_crtime r) (fa_atime r) (fa_mtime r) (fa_chtime r) x (fa_data_alloc r) (fa_attr r)
    (fa_valid_mask r) (fa_vtype r) (fa_uid r) (fa_gid r) (fa_reparse_tag r) (fa_fstatus r)
    (fa_max_access r) (fa_rsrc_size r) (fa_rsrc_alloc r) (fa_finder_info r) (fa_permissions r)
    (fa_ino r) (fa_reqtime r).
Definition set_fa_data_alloc (x : Z) (r : smbfattr) : smbfattr :=
  Fattr (fa_crtime r) (fa_atime r) (fa_mtime r) (fa_chtime r) (fa_size r) x (fa_attr r) (fa_valid_mask
    r) (fa_vtype r) (fa_uid r) (fa_gid r) (fa_reparse_tag r) (fa_fstatus r) (fa_max_access r)
    (fa_rsrc_size r) (fa_rsrc_alloc r) (fa_finder_info r) (fa_permissions r) (fa_ino r) (fa_reqtime
    r).
Definition set_fa_attr (x : Z) (r : smbfattr) : smbfattr :=
  Fattr (fa_crtime r) (fa_atime r) (fa_mtime r) (fa_chtime r) (fa_size r) (fa_data_alloc r) x
    (fa_valid_mask r) (fa_vtype r) (fa_uid r) (fa_gid r) (fa_reparse_tag r) (fa_fstatus r)
    (fa_max_access r) (fa_rsrc_size r) (fa_rsrc_alloc r) (fa_finder_info r) (fa_permissions r)
    (fa_ino r) (fa_reqtime r).
Definition set_fa_valid_mask (x : Z) (r : smbfattr) : smbfattr :=
  Fattr (fa_crtime r) (fa_atime r) (fa_mtime r) (fa_chtime r) (fa_size r) (fa_data_alloc r) (fa_attr
    r) x (fa_vtype r) (fa_uid r) (fa_gid r) (fa_reparse_tag r) (fa_fstatus r) (fa_max_access r)
    (fa_rsrc_size r) (fa_rsrc_alloc r) (fa_finder_info r) (fa_permissions r) (fa_ino r) (fa_reqtime
    r).
Definition set_fa_vtype (x : vtype) (r : smbfattr) : smbfattr :=
  Fattr (fa_crtime r) (fa_atime r) (fa_mtime r) (fa_chtime r) (fa_size r) (fa_data_alloc r) (fa_attr
    r) (fa_valid_mask r) x (fa_uid r) (fa_gid r) (fa_reparse_tag r) (fa_fstatus r) (fa_max_access r)
    (fa_rsrc_size r) (fa_rsrc_alloc r) (fa_finder_info r) (fa_permissions r) (fa_ino r) (fa_reqtime
    r).
Definition set_fa_uid (x : Z) (r : smbfattr) : smbfattr :=
  Fattr (fa_crtime r) (fa_atime r) (fa_mtime r) (fa_chtime r) (fa_size r) (fa_data_alloc r) (fa_attr
    r) (fa_valid_mask r) (fa_vtype r) x (fa_gid r) (fa_reparse_tag r) (fa_fstatus r) (fa_max_access
    r) (fa_rsrc_size r) (fa_rsrc_alloc r) (fa_finder_info r) (fa_permissions r) (fa_ino r)
    (fa_reqtime r).
Definition set_fa_gid (x : Z) (r : smbfattr) : smbfattr :=
  Fattr (fa_crtime r) (fa_atime r) (fa_mtime r) (fa_chtime r) (fa_size r) (fa_data_alloc r) (fa_attr
    r) (fa_valid_mask r) (fa_vtype r) (fa_uid r) x (fa_reparse_tag r) (fa_fstatus r) (fa_max_access
    r) (fa_rsrc_size r) (fa_rsrc_alloc r) (fa_finder_info r) (fa_permissions r) (fa_ino r)
    (fa_reqtime r).
Definition set_fa_reparse_tag (x : Z) (r : smbfattr) : smbfattr :=
  Fattr (fa_crtime r) (fa_atime r) (fa_mtime r) (fa_chtime r) (fa_size r) (fa_data_alloc r) (fa_attr
    r) (fa_valid_mask r) (fa_vtype r) (fa_uid r) (fa_gid r) x (fa_fstatus r) (fa_max_access r)
    (fa_rsrc_size r) (fa_rsrc_alloc r) (fa_finder_info r) (fa_permissions r) (fa_ino r) (fa_reqtime
    r).
Definition set_fa_fstatus (x : Z) (r : smbfattr) : smbfattr :=
  Fattr (fa_crtime r) (fa_atime r) (fa_mtime r) (fa_chtime r) (fa_size r) (fa_data_alloc r) (fa_attr
    r) (fa_valid_mask r) (fa_vtype r) (fa_uid r) (fa_gid r) (fa_reparse_tag r) x (fa_max_access r)
    (fa_rsrc_size r) (fa_rsrc_alloc r) (fa_finder_info r) (fa_permissions r) (fa_ino r) (fa_reqtime
    r).
Definition set_fa_max_access (x : Z) (r : smbfattr) : smbfattr :=
  Fattr (fa_crtime r) (fa_atime r) (fa_mtime r) (fa_chtime r) (fa_size r) (fa_data_alloc r) (fa_attr
    r) (fa_valid_mask r) (fa_vtype r) (fa_uid r) (fa_gid r) (fa_reparse_tag r) (fa_fstatus r) x
    (fa_rsrc_size r) (fa_rsrc_alloc r) (fa_finder_info r) (fa_permissions r) (fa_ino r) (fa_reqtime
    r).
Definition set_fa_rsrc_size (x : Z) (r : smbfattr) : smbfattr :=
  Fattr (fa_crtime r) (fa_atime r) (fa_mtime r) (fa_chtime r) (fa_size r) (fa_data_alloc r) (fa_attr
    r) (fa_valid_mask r) (fa_vtype r) (fa_uid r) (fa_gid r) (fa_reparse_tag r) (fa_fstatus r)
    (fa_max_access r) x (fa_rsrc_alloc r) (fa_finder_info r) (fa_permissions r) (fa_ino r)
    (fa_reqtime r).
Definition set_fa_rsrc_alloc (x : Z) (r : smbfattr) : smbfattr :=
  Fattr (fa_crtime r) (fa_atime r) (fa_mtime r) (fa_chtime r) (fa_size r) (fa_data_alloc r) (fa_attr
    r) (fa_valid_mask r) (fa_vtype r) (fa_uid r) (fa_gid r) (fa_reparse_tag r) (fa_fstatus r)
    (fa_max_access r) (fa_rsrc_size r) x (fa_finder_info r) (fa_permissions r) (fa_ino r)
    (fa_reqtime r).
Definition set_fa_finder_info (x : list Z) (r : smbfattr) : smbfattr :=
  Fattr (fa_crtime r) (fa_atime r) (fa_mtime r) (fa_chtime r) (fa_size r) (fa_data_alloc r) (fa_attr
    r) (fa_valid_mask r) (fa_vtype r) (fa_uid r) (fa_gid r) (fa_reparse_tag r) (fa_fstatus r)
    (fa_max_access r) (fa_rsrc_size r) (fa_rsrc_alloc r) x (fa_permissions r) (fa_ino r) (fa_reqtime
    r).
Definition set_fa_permissions (x : Z) (r : smbfattr) : smbfattr :=
  Fattr (fa_crtime r) (fa_atime r) (fa_mtime r) (fa_chtime r) (fa_size r) (fa_data_alloc r) (fa_attr
    r) (fa_valid_mask r) (fa_vtype r) (fa_uid r) (fa_gid r) (fa_reparse_tag r) (fa_fstatus r)
    (fa_max_access r) (fa_rsrc_size r) (fa_rsrc_alloc r) (fa_finder_info r) x (fa_ino r) (fa_reqtime
    r).
Definition set_fa_ino (x : Z) (r : smbfattr) : smbfattr :=
  Fattr (fa_crtime r) (fa_atime r) (fa_mtime r) (fa_chtime r) (fa_size r) (fa_data_alloc r) (fa_attr
    r) (fa_valid_mask r) (fa_vtype r) (fa_uid r) (fa_gid r) (fa_reparse_tag r) (fa_fstatus r)
    (fa_max_access r) (fa_rsrc_size r) (fa_rsrc_alloc r) (fa_finder_info r) (fa_permissions r) x
    (fa_reqtime r).
Definition set_fa_reqtime (x : timespec) (r : smbfattr) : smbfattr :=
  Fattr (fa_crtime r) (fa_atime r) (fa_mtime r) (fa_chtime r) (fa_size r) (fa_data_alloc r) (fa_attr
    r) (fa_valid_mask r) (fa_vtype r) (fa_uid r) (fa_gid r) (fa_reparse_tag r) (fa_fstatus r)
    (fa_max_access r) (fa_rsrc_size r) (fa_rsrc_alloc r) (fa_finder_info r) (fa_permissions r)
    (fa_ino r) x.

(** [bzero] of the attributes. *)
Definition no_time : timespec := Replies.Ts 0 0.
Definition zero_attr (reqtime : timespec) : smbfattr :=
  Fattr no_time no_time no_time no_time 0 0 0 0 VREG 0 0 0 0 0 0 0 (replicate 32 0) 0 0 reqtime.

(** The attributes that are filled in, and the flags of the session. *)
Record pstate := PState { p_attr : smbfattr; p_misc_flags : Z }.
Definition on_attr (f : smbfattr -> smbfattr) (x : pstate) : pstate := PState (f (p_attr x)) (p_misc_flags x).
Definition add_valid (v : Z) (f : smbfattr) : smbfattr := set_fa_valid_mask (Z.lor (fa_valid_mask f) v) f.

(** What else is known of the session: [UNIX_SERVER], [session_server_caps], the size of a block of the mount. *)
Record dir_env := DirEnv { unix_server : bool; server_caps : Z; f_bsize : option Z }.

(** "readdir_attr shortcuts" *)
Definition readdir_attr (env : dir_env) (misc_flags : Z) : bool :=
  has misc_flags SMBV_OSX_SERVER
  && (has (server_caps env) kAAPL_SUPPORTS_READ_DIR_ATTR || has (server_caps env) kAAPL_SUPPORTS_READ_DIR_ATTR_V2).

(** "." and ".." in UTF-16. *)
Definition dots (name : list Z) : bool :=
  bool_decide (name = [0x2e; 0]) || bool_decide (name = [0x2e; 0; 0x2e; 0]).

Definition smb2fs_smb_file_id_check (ino : Z) (network_name : list Z) (misc_flags : Z) : Z :=
  if has misc_flags SMBV_HAS_FILEIDS && (ino =? 0) && negb (dots network_name)
  then clear_bits misc_flags SMBV_HAS_FILEIDS else misc_flags.

(** ** An entry *)

Definition nt_time (set : timespec -> smbfattr -> smbfattr) : parser pstate unit :=
  llint ← get_le 8;
  change (fun x => if llint =? 0 then x else on_attr (set (smb_time_NT2local llint)) x).

Definition vtype_fields (env : dir_env) (dattr : Z) (f : smbfattr) : smbfattr :=
  let f := set_fa_attr dattr f in
  let f := if unix_server env || has dattr SMB_EFA_DIRECTORY then add_valid FA_VTYPE_VALID f else f in
  let f := set_fa_vtype (if has dattr SMB_EFA_DIRECTORY then VDIR else VREG) f in
  set_fa_gid KAUTH_GID_NONE (set_fa_uid KAUTH_UID_NONE f).

Definition reparse_fields (ea_size : Z) (f : smbfattr) : smbfattr :=
  let f := add_valid FA_REPARSE_TAG_VALID f in
  if has (fa_attr f) SMB_EFA_REPARSE_POINT then
    let f := set_fa_reparse_tag ea_size f in
    if ea_size =? IO_REPARSE_TAG_SYMLINK then set_fa_vtype VLNK (add_valid FA_VTYPE_VALID f) else f
  else set_fa_reparse_tag IO_REPARSE_TAG_RESERVED_ZERO f.

(** The flags of version 2 and the access. *)
Definition osx_fields (env : dir_env) (flags ea_size : Z) (f : smbfattr) : smbfattr :=
  let f := set_fa_fstatus (clear_bits (fa_fstatus f) kNO_SUBSTREAMS) f in
  let f := set_fa_valid_mask (clear_bits (fa_valid_mask f) FA_FSTATUS_VALID) f in
  let f :=
    if has (server_caps env) kAAPL_SUPPORTS_READ_DIR_ATTR_V2 then
      add_valid FA_FSTATUS_VALID
        (if has flags kAAPL_READ_DIR_NO_XATTR then set_fa_fstatus (Z.lor (fa_fstatus f) kNO_SUBSTREAMS) f else f)
    else f in
  add_valid FA_MAX_ACCESS_VALID
    (set_fa_max_access (if has (fa_attr f) SMB_EFA_REPARSE_POINT then Z.lor SA_RIGHT_FILE_ALL_ACCESS STD_RIGHT_ALL_ACCESS
                        else ea_size) f).

(** The first 32 bytes of a [struct finder_file_info] or [struct finder_folder_info], which are not packed: the fields
    have the alignment of their types. *)
Definition finder_bytes (first8 : list Z) (flags ext_flags date_added : Z) : list Z :=
  first8 ++ le_bytes 2 flags ++ replicate 14 0 ++ le_bytes 4 date_added ++ le_bytes 2 ext_flags ++ replicate 2 0.

(** 26 bytes in place of the short name. *)
Definition osx_part (env : dir_env) : parser pstate unit :=
  v ← get_le 8;
  change (on_attr (fun f => add_valid FA_RSRC_FORK_VALID
    (set_fa_rsrc_alloc (smb2_smb_get_alloc_size (f_bsize env) v) (set_fa_rsrc_size v f))));;
  x ← look;
  first8 ← (match fa_vtype (p_attr x) with
            | VDIR => v ← get_le 8; mret (le_bytes 8 v)
            | _ => t ← get_le 4; c ← get_le 4; mret (le_bytes 4 t ++ le_bytes 4 c)
            end);
  flags ← get_le 2;
  ext_flags ← get_le 2;
  date_added ← get_le 4;
  change (on_attr (fun f => add_valid FA_FINDERINFO_VALID (set_fa_finder_info (finder_bytes first8 flags ext_flags date_added) f)));;
  unix_mode ← get_le 2;
  change (on_attr (fun f => if has (server_caps env) kAAPL_UNIX_BASED && negb (unix_mode =? 0)
                            then add_valid FA_UNIX_MODES_VALID (set_fa_permissions unix_mode f) else f)).

(** Between the size of extended attributes and the ID; [fxsz], the size of what comes before the name. *)
Definition level_part (env : dir_env) (info_level ea_size : Z) : parser pstate Z :=
  if info_level =? SMB_FIND_FULL_DIRECTORY_INFO then _ ← get_le 4; mret 72
  else
    flags ← get_le 2;
    x ← look;
    if readdir_attr env (p_misc_flags x) then
      change (on_attr (osx_fields env flags ea_size));; osx_part env;; mret 96
    else _ ← get_mem 24; _ ← get_le 2; mret 96.

(** "Don't count any trailing null in the name." *)
Definition trim (name : list Z) : list Z := take (Z.to_nat (Replies.name_len name)) name.

(** What the caller keeps of an entry: its index, its name, the bytes up to the next one, whether there is none. *)
Record found := Found { fd_index : Z; fd_name : list Z; fd_recsz : Z; fd_last : bool }.

Definition smb2_smb_parse_query_dir_both_dir_info (env : dir_env) (info_level max_network_name_buffer_size : Z)
  : parser pstate found :=
  next ← get_le 4;
  file_index ← get_le 4;
  nt_time set_fa_crtime;;
  nt_time set_fa_atime;;
  nt_time set_fa_mtime;;
  nt_time set_fa_chtime;;
  v ← get_le 8; change (on_attr (set_fa_size v));;
  v ← get_le 8; change (on_attr (set_fa_data_alloc v));;
  dattr ← get_le 4; change (on_attr (vtype_fields env dattr));;
  network_name_len ← get_le 4;
  ea_size ← get_le 4; change (on_attr (reparse_fields ea_size));;
  fxsz ← level_part env info_level ea_size;
  v ← get_le 8; change (on_attr (set_fa_ino v));;
  let fxsz := fxsz + 8 in
  let recsz := if next =? 0 then u32 (fxsz + network_name_len) else next in
  let network_name_len := if max_network_name_buffer_size <? network_name_len then u32 max_network_name_buffer_size
                          else network_name_len in
  network_name ← get_mem (Z.to_nat network_name_len);
  change (fun x => PState (p_attr x) (smb2fs_smb_file_id_check v network_name (p_misc_flags x)));;
  let cnt := i32 (u32 (next - network_name_len - fxsz)) in
  (if next =? 0 then mret tt
   else if 0 <? cnt then skip cnt
   else if cnt <? 0 then fail EBADRPC
   else mret tt);;
  let network_name := trim network_name in
  if (length network_name =? 0)%nat then fail EBADRPC
  else mret (Found file_index network_name recsz (next =? 0)).

(** ** The reply to a query *)

(** The length of the entries; the chain is left at their start. *)
Definition smb2_smb_parse_query_dir {X} : parser X Z :=
  check_size 9;;
  output_buf_offset ← get_le 2;
  ret_buffer_len ← get_le 4;
  (if 0 <? output_buf_offset then skip (u16 (u16 (output_buf_offset - 64) - 8)) else mret tt);;
  mret ret_buffer_len.

(** ** Searches *)

(** [struct smbfs_fctx_query_t]: the bytes its chain still holds, and how many of them have not been parsed. *)
Record query := Query { q_bytes : list Z; output_buf_len : Z }.

Record smbfs_fctx := Fctx {
  f_flags : Z;
  f_attr : smbfattr;
  f_LocalName : option (list Z);
  f_NetworkName : list Z;  (* the first f_NetworkNameLen bytes of f_NetworkNameBuffer *)
  f_infolevel : Z;
  f_eofs : Z;
  f_queries : list query;
  f_queries_total_memory : Z;
  f_need_close : bool;
  f_create_fid : Z;
  f_resume_file_index : Z;
  f_parsed_cnt : Z;
  f_misc_flags : Z  (* session_misc_flags of the session *)
}.
Definition set_f_flags (x : Z) (r : smbfs_fctx) : smbfs_fctx :=
  Fctx x (f_attr r) (f_LocalName r) (f_NetworkName r) (f_infolevel r) (f_eofs r) (f_queries r)
    (f_queries_total_memory r) (f_need_close r) (f_create_fid r) (f_resume_file_index r)
    (f_parsed_cnt r) (f_misc_flags r).
Definition set_f_attr (x : smbfattr) (r : smbfs_fctx) : smbfs_fctx :=
  Fctx (f_flags r) x (f_LocalName r) (f_NetworkName r) (f_infolevel r) (f_eofs r) (f_queries r)
    (f_queries_total_memory r) (f_need_close r) (f_create_fid r) (f_resume_file_index r)
    (f_parsed_cnt r) (f_misc_flags r).
Definition set_f_LocalName (x : option (list Z)) (r : smbfs_fctx) : smbfs_fctx :=
  Fctx (f_flags r) (f_attr r) x (f_NetworkName r) (f_infolevel r) (f_eofs r) (f_queries r)
    (f_queries_total_memory r) (f_need_close r) (f_create_fid r) (f_resume_file_index r)
    (f_parsed_cnt r) (f_misc_flags r).
Definition set_f_NetworkName (x : list Z) (r : smbfs_fctx) : smbfs_fctx :=
  Fctx (f_flags r) (f_attr r) (f_LocalName r) x (f_infolevel r) (f_eofs r) (f_queries r)
    (f_queries_total_memory r) (f_need_close r) (f_create_fid r) (f_resume_file_index r)
    (f_parsed_cnt r) (f_misc_flags r).
Definition set_f_infolevel (x : Z) (r : smbfs_fctx) : smbfs_fctx :=
  Fctx (f_flags r) (f_attr r) (f_LocalName r) (f_NetworkName r) x (f_eofs r) (f_queries r)
    (f_queries_total_memory r) (f_need_close r) (f_create_fid r) (f_resume_file_index r)
    (f_parsed_cnt r) (f_misc_flags r).
Definition set_f_eofs (x : Z) (r : smbfs_fctx) : smbfs_fctx :=
  Fctx (f_flags r) (f_attr r) (f_LocalName r) (f_NetworkName r) (f_infolevel r) x (f_queries r)
    (f_queries_total_memory r) (f_need_close r) (f_create_fid r) (f_resume_file_index r)
    (f_parsed_cnt r) (f_misc_flags r).
Definition set_f_queries (x : list query) (r : smbfs_fctx) : smbfs_fctx :=
  Fctx (f_flags r) (f_attr r) (f_LocalName r) (f_NetworkName r) (f_infolevel r) (f_eofs r) x
    (f_queries_total_memory r) (f_need_close r) (f_create_fid r) (f_resume_file_index r)
    (f_parsed_cnt r) (f_misc_flags r).
Definition set_f_queries_total_memory (x : Z) (r : smbfs_fctx) : smbfs_fctx :=
  Fctx (f_flags r) (f_attr r) (f_LocalName r) (f_NetworkName r) (f_infolevel r) (f_eofs r) (f_queries
    r) x (f_need_close r) (f_create_fid r) (f_resume_file_index r) (f_parsed_cnt r) (f_misc_flags
    r).
Definition set_f_need_close (x : bool) (r : smbfs_fctx) : smbfs_fctx :=
  Fctx (f_flags r) (f_attr r) (f_LocalName r) (f_NetworkName r) (f_infolevel r) (f_eofs r) (f_queries
    r) (f_queries_total_memory r) x (f_create_fid r) (f_resume_file_index r) (f_parsed_cnt r)
    (f_misc_flags r).
Definition set_f_create_fid (x : Z) (r : smbfs_fctx) : smbfs_fctx :=
  Fctx (f_flags r) (f_attr r) (f_LocalName r) (f_NetworkName r) (f_infolevel r) (f_eofs r) (f_queries
    r) (f_queries_total_memory r) (f_need_close r) x (f_resume_file_index r) (f_parsed_cnt r)
    (f_misc_flags r).
Definition set_f_resume_file_index (x : Z) (r : smbfs_fctx) : smbfs_fctx :=
  Fctx (f_flags r) (f_attr r) (f_LocalName r) (f_NetworkName r) (f_infolevel r) (f_eofs r) (f_queries
    r) (f_queries_total_memory r) (f_need_close r) (f_create_fid r) x (f_parsed_cnt r) (f_misc_flags
    r).
Definition set_f_parsed_cnt (x : Z) (r : smbfs_fctx) : smbfs_fctx :=
  Fctx (f_flags r) (f_attr r) (f_LocalName r) (f_NetworkName r) (f_infolevel r) (f_eofs r) (f_queries
    r) (f_queries_total_memory r) (f_need_close r) (f_create_fid r) (f_resume_file_index r) x
    (f_misc_flags r).
Definition set_f_misc_flags (x : Z) (r : smbfs_fctx) : smbfs_fctx :=
  Fctx (f_flags r) (f_attr r) (f_LocalName r) (f_NetworkName r) (f_infolevel r) (f_eofs r) (f_queries
    r) (f_queries_total_memory r) (f_need_close r) (f_create_fid r) (f_resume_file_index r)
    (f_parsed_cnt r) x.

Section Search.
Context `{Kernel} (env : dir_env).
(** The number of entries that may be cached and those that are; the inode of the directory; the size of the buffer
    for names; Unicode. *)
Context (g_max_dir_entries_cached overflow_count n_ino f_MaxNetworkNameBufferSize : Z) (unicode : bool).

Definition has_flag (x : smbfs_fctx) (f : Z) : bool := has (f_flags x) f.

(** What comes of one query that is sent: whether the query could be allocated, the time, the error of building or
    sending it, what the open of the directory in the same compound yields (error or handle), the errors of finding and
    parsing the header of the reply to the query, its status, and the body of the reply. *)
Record answer := Answer {
  an_mem : bool; an_time : timespec; an_error : Z; an_create : Z + Z; an_next : Z; an_header : Z; an_ntstatus : Z;
  an_body : list Z
}.

(** The body of a reply to a query: error, length of the entries, rest of the chain. *)
Definition query_reply (bs : list Z) : Z * Z * list Z :=
  match eval (X := unit) smb2_smb_parse_query_dir bs tt with
  | Some (inr n, bs, _) => (0, n, bs)
  | Some (inl e, bs, _) => (e, 0, bs)
  | None => (EBADRPC, 0, bs)
  end.

Definition or_error (error tmp_error : Z) : Z := if error =? 0 then tmp_error else error.

(** The directory is opened with the first query; what is done with the replies. *)
Definition smb2fs_smb_cmpd_query_dir (a : answer) (x : smbfs_fctx) : Z * Z * list Z * smbfs_fctx :=
  let x := set_f_create_fid (2 ^ 64 - 1) x in
  if negb (an_error a =? 0) then (an_error a, 0, [], x)
  else
    let '(error, x) := match an_create a with
                       | inl e => (e, x)
                       | inr fid => (0, set_f_create_fid fid (set_f_need_close true x))
                       end in
    if negb (an_next a =? 0) then (or_error error (an_next a), 0, [], x)
    else if negb (an_header a =? 0) then (or_error error (an_header a), 0, [], x)
    else let '(e, n, bs) := query_reply (an_body a) in (or_error error e, n, bs, x).

(** A query on a directory that is open. *)
Definition smb2_smb_query_dir (a : answer) : Z * Z * list Z :=
  if negb (an_error a =? 0) then (an_error a, 0, [])
  else if negb (an_header a =? 0) then (an_header a, 0, [])
  else query_reply (an_body a).

Definition send_query (a : answer) (x : smbfs_fctx) : Z * Z * list Z * smbfs_fctx :=
  if f_need_close x then let '(e, n, bs) := smb2_smb_query_dir a in (e, n, bs, x) else smb2fs_smb_cmpd_query_dir a x.

(** From [do_query] to [again]. *)
Definition begin_query (again : option timespec) (x : smbfs_fctx) : smbfs_fctx :=
  match again with
  | Some _ => x
  | None => let x := set_f_flags (clear_bits (f_flags x) SMBFS_RDD_GOTRNAME) x in
            if f_need_close x then x else set_f_create_fid (2 ^ 64 - 1) x
  end.

(** A reply is saved. *)
Definition keep_query (ts : timespec) (ret_buffer_len : Z) (bs : list Z) (x : smbfs_fctx) : smbfs_fctx :=
  let x := set_f_queries (Query bs ret_buffer_len :: f_queries x) x in
  let x := set_f_queries_total_memory (u32 (f_queries_total_memory x + ret_buffer_len)) x in
  let x := set_f_flags (clear_bits (f_flags x) SMBFS_RDD_FINDFIRST) x in
  set_f_attr (set_fa_reqtime ts (f_attr x)) (set_f_eofs 0 x).

Definition room (x : smbfs_fctx) : bool :=
  overflow_count + f_queries_total_memory x / k_entry_struct_size <? g_max_dir_entries_cached.

(** The labels [do_query] and [again] ([Some ts]): queries are sent until as many entries are saved as may be cached, or
    the end is reached.  0: go on to [parse_query]; [None]: there is no answer yet. *)
Fixpoint do_query (again : option timespec) (attempts : nat) (l : list answer) (x : smbfs_fctx)
  : option (Z * list answer * smbfs_fctx) :=
  if bool_decide (again = None) && has_flag x SMBFS_RDD_EOF then Some (ENOENT, l, x)
  else
    let x := begin_query again x in
    if negb ((f_infolevel x =? SMB_FIND_FULL_DIRECTORY_INFO) || (f_infolevel x =? SMB_FIND_BOTH_DIRECTORY_INFO))
    then Some (EINVAL, l, x)
    else
      match l with
      | [] => None
      | a :: l =>
          let ts := default (an_time a) again in
          if negb (an_mem a) then Some (ENOMEM, l, x)
          else
            let '(error, ret_buffer_len, bs, x) := send_query a x in
            if error =? ENOENT then
              let x := set_f_flags (Z.lor (f_flags x) SMBFS_RDD_EOF) x in
              Some (match f_queries x with [] => ENOENT | _ => 0 end, l, x)
            else if negb (error =? 0) then
              if (error =? EINVAL) && (an_ntstatus a =? STATUS_INVALID_PARAMETER)
                 && negb (has (f_misc_flags x) SMBV_64K_QUERY_DIR) && (attempts =? 0)%nat
              then do_query (Some ts) (S attempts) l (set_f_misc_flags (Z.lor (f_misc_flags x) SMBV_64K_QUERY_DIR) x)
              else Some (error, l, x)
            else
              let x := keep_query ts ret_buffer_len bs x in
              if room x && negb (has_flag x SMBFS_RDD_FINDSINGLE) then do_query None attempts l x else Some (0, l, x)
      end.

(** The counters after an entry; the query that is done is freed.  The memory of a query that ends is reduced after its
    length was cleared. *)
Definition entry_done (r : found) (bs : list Z) (q : query) (qs : list query) (x : smbfs_fctx) : smbfs_fctx :=
  let x := set_f_resume_file_index (fd_index r) x in
  let x := set_f_eofs (u32 (f_eofs x + fd_recsz r)) x in
  let x := set_f_queries_total_memory (u32 (f_queries_total_memory x - fd_recsz r)) x in
  let len := if fd_last r then 0 else u32 (output_buf_len q - fd_recsz r) in
  let x := set_f_NetworkName (fd_name r) x in
  set_f_queries (if len =? 0 then qs else Query bs len :: qs) x.

(** The label [parse_query]; after an error the name is not looked at. *)
Definition parse_query (x : smbfs_fctx) : option (Z * smbfs_fctx) :=
  match f_queries x with
  | [] => None
  | q :: qs =>
      match eval (smb2_smb_parse_query_dir_both_dir_info env (f_infolevel x) f_MaxNetworkNameBufferSize)
              (q_bytes q) (PState (f_attr x) (f_misc_flags x)) with
      | None => None
      | Some (r, bs, s) =>
          let x := set_f_NetworkName [] (set_f_misc_flags (p_misc_flags s) (set_f_attr (p_attr s) x)) in
          Some match r with
               | inl e => (e, set_f_queries (Query bs (output_buf_len q) :: qs) x)
               | inr r => (0, entry_done r bs q qs x)
               end
      end
  end.

Definition smb2fs_smb_findnext (l : list answer) (x : smbfs_fctx) : option (Z * list answer * smbfs_fctx) :=
  let x := match f_queries x with
           | q :: qs => if output_buf_len q =? 0 then set_f_queries qs x else x
           | [] => x
           end in
  r ← (match f_queries x with [] => do_query None 0 l x | _ => Some (0, l, x) end);
  let '(error, l, x) := r : Z * list answer * smbfs_fctx in
  if negb (error =? 0) then Some (error, l, x)
  else '(error, x) ← parse_query x; Some (error, l, x).

Definition clear_attr (x : smbfs_fctx) : smbfs_fctx := set_f_attr (zero_attr (fa_reqtime (f_attr x))) x.

(** "." and "..", of the network. *)
Definition ignored (name : list Z) : bool :=
  if unicode then dots name else bool_decide (name = [0x2e]) || bool_decide (name = [0x2e; 0x2e]).

(** [smbfs_hash] of a name, and the inode that is made of it. *)
Definition tolower (c : Z) : Z := if (0x41 <=? c) && (c <=? 0x5a) then c + 0x20 else c.
Definition smbfs_hash (name : list Z) : Z :=
  foldl (fun v c => Z.lxor (u64 (v * 0x01000193)) (tolower c)) 0x811c9dc5 name.
Definition smbfs_getino (name : list Z) : Z :=
  let ino := u64 (n_ino + smbfs_hash name) in if ino <=? SMBFS_ROOT_INO then ino + 3 else ino.

(** An entry is found: its name in the form of the system and its inode. *)
Definition give (x : smbfs_fctx) : smbfs_fctx :=
  let x := set_f_parsed_cnt (u32 (f_parsed_cnt x + 1)) x in
  let x := set_f_LocalName (smbfs_ntwrkname_tolocal (f_NetworkName x)) x in
  if has (f_misc_flags x) SMBV_HAS_FILEIDS then x
  else set_f_attr (set_fa_ino (smbfs_getino (default [] (f_LocalName x))) (f_attr x)) x.

(** What a search comes to: an error or 0 with the answers that are left; [Waiting]: no answer. *)
Inductive outcome := Done (error : Z) (l : list answer) (x : smbfs_fctx) | Waiting | NoFuel.

(** One call of [smbfs_smb_findnext], repeated once after EAGAIN. *)
Definition find_retry (l : list answer) (x : smbfs_fctx) : option (Z * list answer * smbfs_fctx) :=
  r ← smb2fs_smb_findnext l (clear_attr x);
  let '(error, l, x) := r : Z * list answer * smbfs_fctx in
  if error =? EAGAIN then smb2fs_smb_findnext l (clear_attr x) else Some (error, l, x).

Fixpoint smbfs_findnext (fuel : nat) (l : list answer) (x : smbfs_fctx) : outcome :=
  match fuel with
  | O => NoFuel
  | S fuel =>
      match find_retry l x with
      | None => Waiting
      | Some (error, l, x) =>
          if negb (error =? 0) then Done error l x
          else if ignored (f_NetworkName x) then smbfs_findnext fuel l x
          else Done 0 l (give x)
      end
  end.

(** [smbfs_smb_findopen]: without Unix extensions the level is the same for all servers. *)
Definition smbfs_smb_findopen (wildCardLookup : bool) (misc_flags : Z) : smbfs_fctx :=
  Fctx (Z.lor SMBFS_RDD_FINDFIRST (if wildCardLookup then 0 else SMBFS_RDD_FINDSINGLE)) (zero_attr no_time) None []
    SMB_FIND_BOTH_DIRECTORY_INFO 0 [] 0 false 0 0 0 misc_flags.

(** [smbfs_smb_findclose]: whether the handle is closed; the saved queries are freed. *)
Definition smbfs_smb_findclose (x : smbfs_fctx) : bool * smbfs_fctx :=
  (f_need_close x, set_f_need_close false (set_f_queries [] x)).
End Search.
