(* ===== verification/DirTheorems.v ===== *)
(** * Theorems on the listing of directories

    Whatever a server sends is parsed inside of its bytes, and names fit the buffer they
    are copied to; a search ends. *)
From S2P Require Import Prelude Chain Parser Create Dirlist.
From S2P Require Replies.
Import Errno.
Local Open Scope Z_scope.

(** ** An entry *)

Section Entry.
Context (env : dir_env) (level max : Z).

Lemma sized_entry : sized (smb2_smb_parse_query_dir_both_dir_info env level max).
Proof.
  unfold smb2_smb_parse_query_dir_both_dir_info, nt_time, level_part, osx_part.
  repeat first [sized_step | progress cbv zeta].
  all: try match goal with |- context [i32 ?x] => pose proof (i32_range x) end.
  all: try (split; [|intros; exact I]); try lia.
  case_match; [pose proof (u32_range max)|]; lia.
Qed.

Lemma safe_entry : safe (smb2_smb_parse_query_dir_both_dir_info env level max).
Proof.
  unfold smb2_smb_parse_query_dir_both_dir_info, nt_time, level_part, osx_part.
  repeat first [defined_step | progress cbv zeta].
Qed.

(** [p] leaves at least [n] bytes fewer than it found, and does not fail with 0. *)
Definition eats {X A} (p : parser X A) (n : nat) (P : A -> Prop) : Prop := forall bs x,
  wp p (fun r bs' _ => match r with inr a => (length bs' + n <= length bs)%nat /\ P a | inl e => e <> 0 end) bs x.

Lemma eats_bind {X A B} (p : parser X A) (f : A -> parser X B) n m P Q :
  eats p n P -> (forall a, P a -> eats (f a) m Q) -> eats (p ≫= f) (n + m) Q.
Proof.
  intros Hp Hf bs x. apply wp_bind. eapply wp_mono; [|apply (Hp bs x)].
  intros [e|a] bs1 x1; [done|]. intros [Hl Ha]. cbn [on_value]. eapply wp_mono; [|apply (Hf a Ha)].
  intros [e|b] bs2 x2; [done|]. cbv beta. intros [? ?]. split; [lia|done].
Qed.

Lemma eats_weaken {X A} (p : parser X A) n m (P Q : A -> Prop) :
  eats p n P -> (m <= n)%nat -> (forall a, P a -> Q a) -> eats p m Q.
Proof.
  intros Hp Hm HQ bs x. eapply wp_mono; [|apply (Hp bs x)]. intros [e|a] bs1 x1; [done|]. intros [? ?].
  split; [lia|auto].
Qed.

Lemma eats_get {X} n : eats (get_le n : parser X Z) n (fun _ => True).
Proof. intros bs x. apply wp_get_le; intros ?; [rewrite length_drop; split; [lia|done]|done]. Qed.

Lemma eats_mem {X} n : eats (get_mem n : parser X (list Z)) n (fun l => length l = n).
Proof.
  intros bs x. apply wp_get_mem; intros ?; [rewrite length_drop, length_take; split; lia|done].
Qed.

Lemma eats_any {X} n : eats (get_mem n : parser X (list Z)) n (fun _ => True).
Proof. by eapply eats_weaken; [apply eats_mem|..]. Qed.

Lemma eats_ret {X A} (a : A) (P : A -> Prop) : P a -> eats (mret a : parser X A) 0 P.
Proof. intros Ha bs x. apply wp_ret. split; [lia|done]. Qed.

Lemma eats_ret_any {X A} (a : A) : eats (mret a : parser X A) 0 (fun _ => True).
Proof. by apply eats_ret. Qed.
Lemma eats_change {X} (f : X -> X) : eats (change f) 0 (fun _ => True).
Proof. intros bs x. apply wp_change. split; [lia|done]. Qed.

Lemma eats_look {X} : eats (look : parser X X) 0 (fun _ => True).
Proof. intros bs x. apply wp_look. split; [lia|done]. Qed.

Lemma eats_skip {X} n : eats (skip n : parser X unit) 0 (fun _ => True).
Proof. intros bs x. apply wp_skip; intros ?; [rewrite length_drop; split; [lia|done]|done]. Qed.

Lemma eats_fail {X A} e n (P : A -> Prop) : e <> 0 -> eats (fail e : parser X A) n P.
Proof. intros He bs x. by apply wp_fail. Qed.

Lemma eats_time set : eats (nt_time set) 8 (fun _ => True).
Proof. apply (eats_bind _ _ 8 0 (fun _ => True)); [apply eats_get|intros; apply eats_change]. Qed.

Create HintDb eats.
#[local] Hint Resolve eats_get eats_any eats_ret_any eats_change eats_look eats_skip eats_time : eats.

(** Follows the binds; how much is eaten is found on the way. *)
Ltac eats_step :=
  match goal with
  | |- eats (_ ≫= _) _ _ => eapply eats_bind; [eauto with eats|intros ? ?]
  | |- eats (fail _) _ _ => by apply eats_fail
  | _ => solve [eauto with eats]
  end.
Ltac eats := eapply eats_weaken; [repeat eats_step|cbn; lia|by auto].

Lemma eats_osx : eats (osx_part env) 26 (fun _ => True).
Proof.
  unfold osx_part. eapply (eats_bind _ _ 8 18); [auto with eats|intros ? _].
  eapply (eats_bind _ _ 0 18); [auto with eats|intros ? _].
  eapply (eats_bind _ _ 0 18); [auto with eats|intros x _].
  eapply (eats_bind _ _ 8 10 (fun _ => True)); [destruct (fa_vtype (p_attr x)); eats|intros ? _]. eats.
Qed.

Lemma eats_level ea : eats (level_part env level ea) 4 (fun _ => True).
Proof.
  unfold level_part. destruct (_ =? _); [eats|].
  eapply (eats_bind _ _ 2 2); [auto with eats|intros flags _].
  eapply (eats_bind _ _ 0 2); [auto with eats|intros x _].
  destruct (readdir_attr _ _); [|eats].
  eapply (eats_bind _ _ 0 2); [auto with eats|intros ? _].
  eapply eats_weaken; [eapply (eats_bind _ _ 26 0); [apply eats_osx|intros; apply eats_ret_any]|lia|done].
Qed.

(** Passes a call that eats as much as the lemma says. *)
Ltac eat H := let x := fresh "x" in let E := fresh "E" in eapply (eats_bind _ _ _ _ _ _ H); intros x E.

(** A name that fits the buffer. *)
Definition name_ok (r : found) : Prop := fd_name r <> [] /\ Z.of_nat (length (fd_name r)) <= max.

Lemma length_trim name : (length (trim name) <= length name)%nat.
Proof. unfold trim. rewrite length_take. lia. Qed.

Lemma eats_entry : 0 <= max < 2 ^ 32 ->
  eats (smb2_smb_parse_query_dir_both_dir_info env level max) 80 name_ok.
Proof.
  intros Hmax. unfold smb2_smb_parse_query_dir_both_dir_info.
  do 2 eat uconstr:(eats_get 4). do 4 eat uconstr:(eats_time _).
  do 2 (eat uconstr:(eats_get 8); eat uconstr:(eats_change _)).
  eat uconstr:(eats_get 4). eat uconstr:(eats_change _). eat uconstr:(eats_get 4). 
  eat uconstr:(eats_get 4). eat uconstr:(eats_change _). eat uconstr:(eats_level _). eat uconstr:(eats_get 8).
  eat uconstr:(eats_change _). cbv zeta.
  eapply (eats_weaken _ _ 0); [|lia|exact (fun _ H => H)]. eapply eats_bind; [apply eats_mem|intros name Hn].
  eapply (eats_bind _ _ 0 0); [apply eats_change|intros _ _].
  eapply (eats_bind _ _ 0 0 (fun _ => True)); [repeat case_match; first [apply eats_ret_any|apply eats_skip|by apply eats_fail]|intros _ _].
  pose proof (length_trim name) as Hl.
  destruct (Nat.eqb_spec (length (trim name)) 0) as [|Hz]; [by apply eats_fail|]. apply eats_ret. split; cbn [fd_name].
  - by destruct (trim name).
  - revert Hn. destruct (Z.ltb_spec max x11); unfold u32; [rewrite Z.mod_small by lia|]; lia.
Qed.
End Entry.

(** Whatever bytes a server sends as an entry of a directory, parsing ends with an error or a name that is not empty
    and fits the buffer it is copied to, and reads nothing outside of the reply. *)
Theorem entry_in_bounds `{Reader St D, !ReaderLaws St D} env level max (st : St) (d : D) bs x :
  0 <= max < 2 ^ 32 -> Forall is_byte bs -> r_holds st d bs ->
  exists r d' bs' x', run (smb2_smb_parse_query_dir_both_dir_info env level max) st d x = Some (r, st, d', x') /\
    r_holds st d' bs' /\
    match r with
    | inr f => fd_name f <> [] /\ Z.of_nat (length (fd_name f)) <= max /\ (length bs' + 80 <= length bs)%nat
    | inl e => e <> 0
    end.
Proof.
  intros Hmax Hb Hh. pose proof (run_eval _ st d bs x (sized_entry env level max) Hb Hh) as Hr.
  destruct (safe_eval _ bs x (safe_entry env level max)) as (r & bs' & x' & E & _). rewrite E in Hr.
  destruct Hr as (d' & Hr & Hh'). exists r, d', bs', x'. split; [done|]. split; [done|].
  pose proof (wp_eval _ _ _ _ _ _ _ (eats_entry env level max Hmax bs x) E) as Hp. destruct r as [e|f]; [done|].
  destruct Hp as [? [? ?]]. done.
Qed.

(** ** A search ends *)

Section Ends.
Context `{Kernel} (env : dir_env) (g_max overflow n_ino max : Z) (unicode : bool).
Hypothesis Hmax : 0 <= max < 2 ^ 32.

Definition saved (x : smbfs_fctx) : nat := sum_list (map (fun q => length (q_bytes q)) (f_queries x)).
Definition coming (l : list answer) : nat := sum_list (map (fun a => length (an_body a)) l).
(** The bytes that are still to be parsed. *)
Definition bytes_left (l : list answer) (x : smbfs_fctx) : nat := saved x + coming l.

(** The server says that there are no more entries. *)
Definition no_more (a : answer) : Prop := an_mem a = true /\ an_error a = ENOENT.

(** An answer of this kind is to come, or the end was reached. *)
Definition bounded (l : list answer) (x : smbfs_fctx) : Prop :=
  (exists l0 a, l = l0 ++ [a] /\ no_more a) \/ has_flag x SMBFS_RDD_EOF = true.

Lemma query_reply_shorter bs e n bs' : query_reply bs = (e, n, bs') -> (length bs' <= length bs)%nat.
Proof.
  unfold query_reply. destruct (eval _ bs tt) as [[[r bs1] []]|] eqn:E; [|intros [= <- <- <-]; done].
  enough (length bs1 <= length bs)%nat as Hl by (destruct r; intros [= <- <- <-]; done).
  exact (eval_shorter _ _ _ _ _ _ E).
Qed.

Lemma send_query_spec a x e n bs x' : send_query a x = (e, n, bs, x') ->
  (length bs <= length (an_body a))%nat /\ f_queries x' = f_queries x /\ f_flags x' = f_flags x /\
  f_infolevel x' = f_infolevel x /\ f_misc_flags x' = f_misc_flags x /\ (no_more a -> e = ENOENT).
Proof.
  unfold send_query, smb2fs_smb_cmpd_query_dir, smb2_smb_query_dir, no_more.
  destruct (query_reply (an_body a)) as [[e1 n1] bs1] eqn:E. apply query_reply_shorter in E.
  repeat case_match; simplify_eq; cbn [length] in *; intros; simplify_eq; repeat split; try done; try lia;
    try (intros [_ He]; rewrite He in *; cbn in *; congruence); apply Nat.le_0_l.
Qed.

Lemma begin_query_spec again x :
  f_queries (begin_query again x) = f_queries x /\
  has_flag (begin_query again x) SMBFS_RDD_EOF = has_flag x SMBFS_RDD_EOF.
Proof.
  unfold begin_query. destruct again; [done|]. unfold has_flag.
  case_match; cbn; split; try done; by apply has_clear.
Qed.

Lemma bounded_tail a l x : bounded (a :: l) x -> ~ no_more a -> bounded l x.
Proof.
  intros [([|b l0] & c & [= -> ->] & Hc)|?] Ha; [done| |by right]. left. eauto.
Qed.

Lemma coming_cons a l : coming (a :: l) = (length (an_body a) + coming l)%nat.
Proof. done. Qed.

Lemma bounded_flags l x x' : f_flags x' = f_flags x -> bounded l x -> bounded l x'.
Proof. unfold bounded, has_flag. by intros ->. Qed.

Lemma do_query_spec again att l x e l' x' :
  do_query g_max overflow again att l x = Some (e, l', x') ->
  (bytes_left l' x' <= bytes_left l x)%nat /\ (e = 0 -> f_queries x' <> []) /\ (bounded l x -> bounded l' x').
Proof.
  revert again att x. induction l as [|a l IH]; intros again att x; cbn [do_query];
    destruct (begin_query_spec again x) as [Hq Hf].
  - unfold bytes_left, saved, bounded. repeat case_match; intros [= <- <- <-]; rewrite ?Hq, ?Hf; done.
  - destruct (_ && _); [intros [= <- <- <-]; done|].
    destruct (negb _); [intros [= <- <- <-]; unfold bytes_left, saved, bounded; rewrite ?Hq, ?Hf; done|].
    assert (bounded (a :: l) x -> ~ no_more a -> bounded l (begin_query again x)) as Hb.
    { intros Hb Ha. apply bounded_tail in Hb; [|done]. unfold bounded in *. by rewrite Hf. }
    unfold bytes_left, saved in *. rewrite coming_cons, <- Hq. clear Hq Hf.
    destruct (an_mem a) eqn:Hm; cbn [negb].
    2: { intros [= <- <- <-]. split; [lia|]. split; [done|].
         intros ?. apply Hb; [done|by intros []; congruence]. }
    destruct (send_query a _) as [[[e1 n1] bs1] x1] eqn:Es. apply send_query_spec in Es as (Hl & Hq1 & Hf1 & _ & _ & Hn).
    rewrite <- Hq1. destruct (Z.eqb_spec e1 ENOENT) as [->|Hne].
    { intros [= <- <- <-]. split; [cbn [f_queries set_f_flags]; lia|]. split; [cbn [f_queries set_f_flags]; by destruct (f_queries x1)|].
      intros _. right. unfold has_flag. cbn [f_flags set_f_flags]. rewrite has_lor. by rewrite orb_true_r. }
    specialize (fun H => Hb H (fun Hm => Hne (Hn Hm))).
    destruct (Z.eqb_spec e1 0) as [->|He]; cbn [negb].
    + case_match.
      * intros (H1 & H2 & H3)%IH. split; [cbn in H1; lia|]. split; [done|]. intros H4%Hb. apply H3.
        unfold bounded, has_flag in *. cbn. rewrite has_clear by done. by rewrite Hf1.
      * intros [= <- <- <-]. split; [cbn; lia|]. split; [done|]. intros H4%Hb. 
        unfold bounded, has_flag in *. cbn. rewrite has_clear by done. by rewrite Hf1.
    + case_match.
      * intros (H1 & H2 & H3)%IH. split; [cbn in H1; lia|]. split; [done|]. intros H4%Hb. apply H3.
        by apply (bounded_flags _ (begin_query again x)).
      * intros [= <- <- <-]. split; [lia|]. split; [done|]. intros H4%Hb. by apply (bounded_flags _ (begin_query again x)).
Qed.

(** With an end to come, queries return. *)
Lemma do_query_returns again att l x :
  (again = None \/ exists l0 a, l = l0 ++ [a] /\ no_more a) -> bounded l x ->
  is_Some (do_query g_max overflow again att l x).
Proof.
  revert again att x. induction l as [|a l IH]; intros again att x Ha Hb; cbn [do_query].
  - destruct Ha as [->|(l0 & a & E & _)]; [|by destruct l0].
    destruct Hb as [(l0 & a & E & _)| ->]; [by destruct l0|]. by eexists.
  - destruct (_ && _) eqn:Ee; [by eexists|]. destruct (negb _); [by eexists|].
    destruct (an_mem a) eqn:Hm; [cbn [negb]|by eexists].
    destruct (send_query a _) as [[[e1 n1] bs1] x1] eqn:Es. apply send_query_spec in Es as (_ & _ & _ & _ & _ & Hn).
    destruct (Z.eqb_spec e1 ENOENT) as [->|Hne]; [by eexists|].
    assert (exists l0 b, l = l0 ++ [b] /\ no_more b) as Hl.
    { assert (exists l0 b, a :: l = l0 ++ [b] /\ no_more b) as ([|c l0] & b & [= -> ->] & Hc).
      { destruct Ha as [->|?]; [|done]. destruct Hb as [?|Hb]; [done|]. by rewrite Hb in Ee. }
      - by destruct (Hne (Hn Hc)).
      - eauto. }
    repeat case_match; try (by eexists); apply IH; try (by left); try (by right).
Qed.

Lemma parse_query_spec x : f_queries x <> [] ->
  exists e x', parse_query env max x = Some (e, x') /\ f_flags x' = f_flags x /\
    (saved x' <= saved x)%nat /\ (e = 0 -> (saved x' < saved x)%nat).
Proof.
  unfold parse_query. destruct (f_queries x) as [|q qs] eqn:Eq; [done|]. intros _.
  destruct (safe_eval _ (q_bytes q) (PState (f_attr x) (f_misc_flags x)) (safe_entry env (f_infolevel x) max))
    as (r & bs' & s & E & _). rewrite E.
  pose proof (wp_eval _ _ _ _ _ _ _ (eats_entry env (f_infolevel x) max Hmax _ _) E) as Hp.
  apply eval_shorter in E. unfold saved. rewrite Eq.
  destruct r as [e|f]; eexists _, _; (split; [reflexivity|]); (split; [done|]); [cbn; split; [lia|done]|]. destruct Hp as [Hp _]. unfold entry_done. cbn. case_match; cbn; lia.
Qed.

(** One call of the search of SMB 2. *)
Lemma findnext_spec l x : bounded l x ->
  exists e l' x', smb2fs_smb_findnext env g_max overflow max l x = Some (e, l', x') /\ bounded l' x' /\
    (bytes_left l' x' <= bytes_left l x)%nat /\ (e = 0 -> (bytes_left l' x' < bytes_left l x)%nat).
Proof.
  intros Hb. unfold smb2fs_smb_findnext.
  set (x0 := match f_queries x with [] => x | q :: qs => if output_buf_len q =? 0 then set_f_queries qs x else x end).
  assert (f_flags x0 = f_flags x /\ (saved x0 <= saved x)%nat) as [Hf Hs].
  { subst x0. unfold saved. destruct (f_queries x) as [|q qs] eqn:E; [by rewrite E|]. 
    case_match; [|by rewrite E]. split; [done|cbn; lia]. }
  apply (bounded_flags _ _ x0) in Hb; [|done]. clearbody x0. 
  assert (exists e1 l1 x1, match f_queries x0 with [] => do_query g_max overflow None 0 l x0 | _ => Some (0, l, x0) end
            = Some (e1, l1, x1) /\ bounded l1 x1 /\ (bytes_left l1 x1 <= bytes_left l x0)%nat /\
            (e1 = 0 -> f_queries x1 <> [])) as (e1 & l1 & x1 & -> & Hb1 & Hl1 & Hq1).
  { destruct (f_queries x0) eqn:E; [|eexists _, _, _; rewrite E; done].
    destruct (do_query_returns None 0 l x0) as [[[e1 l1] x1] E1]; [by left|done|].
    rewrite E1. apply do_query_spec in E1 as (? & ? & ?). eexists _, _, _; eauto. }
  cbn [mbind option_bind]. unfold bytes_left in *.
  destruct (Z.eqb_spec e1 0) as [->|He]; cbn [negb]; [|eexists _, _, _; split; [done|]; split; [done|]; split; [lia|done]].
  destruct (parse_query_spec x1) as (e2 & x2 & -> & Hf2 & Hs2 & Hs3); [auto|].
  eexists _, _, _. split; [reflexivity|]. split; [by apply (bounded_flags _ x1)|]. split; [lia|]. intros Hs4%Hs3. lia.
Qed.

Lemma find_retry_spec l x : bounded l x ->
  exists e l' x', find_retry env g_max overflow max l x = Some (e, l', x') /\ bounded l' x' /\
    (e = 0 -> (bytes_left l' x' < bytes_left l x)%nat).
Proof.
  intros Hb. unfold find_retry.
  destruct (findnext_spec l (clear_attr x)) as (e1 & l1 & x1 & -> & Hb1 & Hl1 & Hz1); [done|]. cbn [mbind option_bind].
  change (bytes_left l (clear_attr x)) with (bytes_left l x) in *.
  destruct (e1 =? EAGAIN); [|eexists _, _, _; done].
  destruct (findnext_spec l1 (clear_attr x1)) as (e2 & l2 & x2 & -> & Hb2 & Hl2 & Hz2); [done|].
  change (bytes_left l1 (clear_attr x1)) with (bytes_left l1 x1) in *.
  eexists _, _, _. split; [done|]. split; [done|]. intros He%Hz2. lia.
Qed.

Lemma search_returns fuel l x : bounded l x -> (bytes_left l x < fuel)%nat ->
  exists e l' x', smbfs_findnext env g_max overflow n_ino max unicode fuel l x = Done e l' x'.
Proof.
  revert l x. induction fuel as [|fuel IH]; intros l x Hb Hl; [lia|]. cbn [smbfs_findnext].
  destruct (find_retry_spec l x Hb) as (e & l1 & x1 & -> & Hb1 & Hz).
  destruct (Z.eqb_spec e 0) as [->|]; cbn [negb]; [|by eexists _, _, _].
  destruct (ignored unicode _); [|by eexists _, _, _]. apply IH; [done|]. specialize (Hz eq_refl). lia.
Qed.
End Ends.

(** C32: whatever a server answers, as long as it says at some time that there are no more entries (or did), a call for
    the next entry returns: an entry or an error.  More steps than there are bytes are not needed. *)
Theorem search_ends `{Kernel} env g_max overflow n_ino max unicode fuel l a x :
  0 <= max < 2 ^ 32 -> an_mem a = true -> an_error a = ENOENT -> (bytes_left (l ++ [a]) x < fuel)%nat ->
  exists e l' x', smbfs_findnext env g_max overflow n_ino max unicode fuel (l ++ [a]) x = Done e l' x'.
Proof.
  intros Hmax Hm He. apply search_returns; [done|]. left. by exists l, a.
Qed.
