(* ===== verification/DirListing.v ===== *)
(** * Listings of directories are complete

    A server that sends the entries of a directory in replies laid out as [MS-FSCC]
    prescribes, and then that there are no more: the filesystem gets every entry but the
    dots exactly once, with its name, sizes, attributes and ID. *)
From S2P Require Import Prelude Chain Parser Create Dirlist DirTheorems.
From S2P Require Replies.
Import Errno.
Local Open Scope Z_scope.

(** ** The layout *)

(** An entry of FileIdBothDirectoryInformation; [e_mid]: the short name, or what macOS puts into its place. *)
Record entry := Entry {
  e_index : Z; e_crtime : Z; e_atime : Z; e_mtime : Z; e_chtime : Z; e_eof : Z; e_alloc : Z; e_attr : Z; e_ea : Z;
  e_mid : list Z; e_id : Z; e_name : list Z
}.

Definition entry_bytes (next : Z) (e : entry) : list Z :=
  le_bytes 4 next ++ le_bytes 4 (e_index e) ++ le_bytes 8 (e_crtime e) ++ le_bytes 8 (e_atime e) ++ le_bytes 8 (e_mtime e)
  ++ le_bytes 8 (e_chtime e) ++ le_bytes 8 (e_eof e) ++ le_bytes 8 (e_alloc e) ++ le_bytes 4 (e_attr e)
  ++ le_bytes 4 (Z.of_nat (length (e_name e))) ++ le_bytes 4 (e_ea e) ++ e_mid e ++ le_bytes 8 (e_id e) ++ e_name e.

(** The size of an entry and of the zeros up to the next one. *)
Definition entry_size (e : entry) : nat := 8 * ((104 + length (e_name e) + 7) / 8).
Definition entry_pad (e : entry) : list Z := replicate (entry_size e - (104 + length (e_name e))) 0.

Fixpoint entries_bytes (es : list entry) : list Z :=
  match es with
  | [] => []
  | [e] => entry_bytes 0 e
  | e :: es => entry_bytes (Z.of_nat (entry_size e)) e ++ entry_pad e ++ entries_bytes es
  end.

(** Values fit their fields; the name is not empty, fits the buffer and does not end with a null. *)
Definition entry_wf (max : Z) (e : entry) : Prop :=
  fits 4 (e_index e) /\ fits 8 (e_crtime e) /\ fits 8 (e_atime e) /\ fits 8 (e_mtime e) /\ fits 8 (e_chtime e) /\
  fits 8 (e_eof e) /\ fits 8 (e_alloc e) /\ fits 4 (e_attr e) /\ fits 4 (e_ea e) /\ fits 8 (e_id e) /\
  length (e_mid e) = 28%nat /\ e_name e <> [] /\ Z.of_nat (length (e_name e)) <= max /\
  Replies.name_len (e_name e) = Z.of_nat (length (e_name e)).

(** ** Reading an entry *)

(** On any [n] bytes [p] succeeds, leaves what follows, and changes the state within [R]. *)
Definition takes {X A} (p : parser X A) (n : nat) (P : A -> Prop) (R : X -> X -> Prop) : Prop :=
  forall xs rest x, length xs = n ->
  exists a x', eval p (xs ++ rest) x = Some (inr a, rest, x') /\ P a /\ R x x'.

Section Reads.
Context {X : Type} (R : X -> X -> Prop) `{!PreOrder R}.

Lemma takes_bind {A B} (p : parser X A) (f : A -> parser X B) n m P Q :
  takes p n P R -> (forall a, P a -> takes (f a) m Q R) -> takes (p ≫= f) (n + m) Q R.
Proof.
  intros Hp Hf xs rest x Hl. rewrite eval_bind, <- (take_drop n xs), <- app_assoc.
  destruct (Hp (take n xs) (drop n xs ++ rest) x) as (a & x1 & -> & Ha & H1); [rewrite length_take; lia|].
  destruct (Hf a Ha (drop n xs) rest x1) as (b & x2 & -> & Hb & H2); [rewrite length_drop; lia|].
  exists b, x2. split; [done|]. split; [done|]. by transitivity x1.
Qed.

Lemma takes_get n : takes (get_le n) n (fun _ => True) R.
Proof.
  intros xs rest x Hl. unfold get_le. cbn [eval]. rewrite (proj2 (Nat.leb_le _ _)) by (rewrite length_app; lia).
  eexists _, x. split; [by rewrite drop_app_length' by done|]. done.
Qed.

Lemma takes_mem n : takes (get_mem n) n (fun _ => True) R.
Proof. intros xs rest x Hl. eexists _, x. split; [by apply eval_get_mem|]. done. Qed.

Lemma takes_ret {A} (a : A) (P : A -> Prop) : P a -> takes (mret a) 0 P R.
Proof. intros Ha [|] rest x Hl; [|done]. by exists a, x. Qed.

Lemma takes_look : takes look 0 (fun _ => True) R.
Proof. intros [|] rest x Hl; [|done]. by exists x, x. Qed.

Lemma takes_change f : (forall x, R x (f x)) -> takes (change f) 0 (fun _ => True) R.
Proof. intros Hf [|] rest x Hl; [|done]. eexists tt, (f x). eauto. Qed.
End Reads.

(** The fields that come after the sizes and attributes leave these alone. *)
Definition basics (f : smbfattr) : Z * Z * Z := (fa_size f, fa_data_alloc f, fa_attr f).
Definition same_basics (x y : pstate) : Prop :=
  basics (p_attr x) = basics (p_attr y) /\ p_misc_flags x = p_misc_flags y.
#[local] Instance same_basics_preorder : PreOrder same_basics.
Proof. split; [done|]. intros x y z [H1 H2] [H3 H4]. split; congruence. Qed.

Lemma takes_on_attr f : (forall y, basics (f y) = basics y) -> takes (change (on_attr f)) 0 (fun _ => True) same_basics.
Proof. intros Hf. apply takes_change. intros x. split; [symmetry; apply Hf|done]. Qed.

(** Passes the next call, of [n] bytes. *)
Ltac takes_step n :=
  (eapply (takes_bind _ _ _ n _ (fun _ => True));
   [first [eapply (takes_get _)|eapply (takes_mem _)|eapply (takes_look _)|apply takes_on_attr]|intros ? _]).

Lemma takes_osx env : takes (osx_part env) 26 (fun _ => True) same_basics.
Proof.
  unfold osx_part. takes_step 8%nat. takes_step 0%nat; [done|]. takes_step 0%nat.
  apply (takes_bind _ _ _ 8 10 (fun _ => True)); [|intros first8 _].
  - match goal with |- context [fa_vtype ?f] => destruct (fa_vtype f) end; [do 2 takes_step 4%nat|takes_step 8%nat|do 2 takes_step 4%nat];
      by apply (takes_ret _).
  - do 2 takes_step 2%nat. takes_step 4%nat. takes_step 0%nat; [done|]. takes_step 2%nat.
    apply takes_on_attr. intros z. by destruct (_ && _).
Qed.

Lemma takes_level env ea : takes (level_part env SMB_FIND_BOTH_DIRECTORY_INFO ea) 28 (fun n => n = 96) same_basics.
Proof.
  unfold level_part. cbn [Z.eqb SMB_FIND_BOTH_DIRECTORY_INFO SMB_FIND_FULL_DIRECTORY_INFO Pos.eqb].
  takes_step 2%nat. takes_step 0%nat. destruct (readdir_attr _ _).
  - takes_step 0%nat; [intros y; unfold osx_fields, add_valid; by repeat case_match|].
    apply (takes_bind _ _ _ 26 0 (fun _ => True)); [apply takes_osx|intros _ _; by apply (takes_ret _)].
  - takes_step 24%nat. takes_step 2%nat. by apply (takes_ret _).
Qed.

Lemma eval_time set v bs x : fits 8 v -> exists x',
  eval (nt_time set) (le_bytes 8 v ++ bs) x = Some (inr tt, bs, x') /\ p_misc_flags x' = p_misc_flags x.
Proof. intros Hv. unfold nt_time. eval_step. eexists. split; [done|]. by case_match. Qed.

Lemma trim_name name : Replies.name_len name = Z.of_nat (length name) -> trim name = name.
Proof. unfold trim. intros ->. rewrite Nat2Z.id. by apply take_ge. Qed.

(** The bytes up to the next entry. *)
Lemma eval_pad next len (pad rest : list Z) (y : pstate) :
  (next = 0 /\ pad = [] \/ next = Z.of_nat (104 + len + length pad) /\ next < 2 ^ 31) ->
  eval (if next =? 0 then mret tt
        else if 0 <? i32 (u32 (next - Z.of_nat len - (96 + 8))) then skip (i32 (u32 (next - Z.of_nat len - (96 + 8))))
        else if i32 (u32 (next - Z.of_nat len - (96 + 8))) <? 0 then fail EBADRPC else mret tt)
    (pad ++ rest) y = Some (inr tt, rest, y).
Proof.
  intros Hnext. destruct (Z.eqb_spec next 0) as [E0|E0]; [destruct Hnext as [[_ ->]|[? _]]; [done|lia]|].
  destruct Hnext as [[? _]|[-> Hn]]; [done|].
  replace (Z.of_nat (104 + len + length pad) - Z.of_nat len - (96 + 8)) with (Z.of_nat (length pad)) by lia.
  unfold u32. rewrite Z.mod_small by lia. rewrite i32_small by lia.
  destruct (Z.ltb_spec 0 (Z.of_nat (length pad))); [by apply eval_skip|].
  destruct (Z.ltb_spec (Z.of_nat (length pad)) 0); [lia|]. by destruct pad.
Qed.

Lemma eval_entry env max next e pad rest x :
  0 <= max < 2 ^ 31 - 200 -> entry_wf max e ->
  (next = 0 /\ pad = [] \/
   next = Z.of_nat (104 + length (e_name e) + length pad) /\ next < 2 ^ 31) ->
  exists x',
    eval (smb2_smb_parse_query_dir_both_dir_info env SMB_FIND_BOTH_DIRECTORY_INFO max) (entry_bytes next e ++ pad ++ rest) x =
    Some (inr (Found (e_index e) (e_name e) (if next =? 0 then Z.of_nat (104 + length (e_name e)) else next) (next =? 0)),
          rest, x') /\
    basics (p_attr x') = (e_eof e, e_alloc e, e_attr e) /\ fa_ino (p_attr x') = e_id e /\
    p_misc_flags x' = smb2fs_smb_file_id_check (e_id e) (e_name e) (p_misc_flags x).
Proof.
  intros Hmax (Hi & Hc & Ha & Hm & Hh & Hf & Hl & Hat & Hea & Hid & Hmid & Hne & Hlen & Htr) Hnext.
  assert (fits 4 next) as Hn by (unfold fits; destruct Hnext as [[-> _]|[-> ?]]; lia).
  assert (fits 4 (Z.of_nat (length (e_name e)))) as Hn2 by (unfold fits; lia).
  unfold smb2_smb_parse_query_dir_both_dir_info, entry_bytes. rewrite <- !app_assoc.
  do 2 eval_step.
  do 4 (rewrite eval_bind; match goal with |- context [eval (nt_time ?f) (le_bytes 8 ?v ++ ?bs) ?y] =>
          let E := fresh "Et" in edestruct (eval_time f v bs y) as (? & -> & E); [done|] end; cbv beta iota).
  do 2 (eval_step; rewrite eval_bind, eval_change; cbv beta iota).
  eval_step. rewrite eval_bind, eval_change. cbv beta iota. do 2 eval_step. rewrite eval_bind, eval_change. cbv beta iota.
  rewrite eval_bind. 
  match goal with |- context [eval (level_part _ _ ?ea) (_ ++ ?bs) ?y] =>
    destruct (takes_level env ea (e_mid e) bs y Hmid) as (fx & y1 & -> & -> & Hy1 & Hy2) end.
  cbv beta iota. eval_step. rewrite eval_bind, eval_change. cbv beta iota zeta.
  destruct (Z.ltb_spec max (Z.of_nat (length (e_name e)))) as [|_]; [lia|].
  rewrite Nat2Z.id, eval_bind, eval_get_mem by done. cbv beta iota. rewrite eval_bind, eval_change. cbv beta iota.
  rewrite eval_bind, eval_pad by done.
  cbv beta iota. rewrite trim_name by done.
  destruct (Nat.eqb_spec (length (e_name e)) 0) as [E0|_]; [by destruct (e_name e)|].
  eexists. split.
  { replace (u32 (96 + 8 + Z.of_nat (length (e_name e)))) with (Z.of_nat (104 + length (e_name e))); [done|].
    unfold u32. rewrite Z.mod_small; lia. }
  cbn [p_attr p_misc_flags on_attr fa_ino set_fa_ino]. split; [|split; [done|]].
  - change (basics (p_attr y1) = (e_eof e, e_alloc e, e_attr e)). rewrite <- Hy1.
    unfold on_attr, vtype_fields, reparse_fields, add_valid. cbn [p_attr]. by repeat case_match.
  - cbn [p_misc_flags on_attr] in Hy2. f_equal. congruence.
Qed.

(** ** Replies and searches *)

(** The answer with a batch of entries; the directory is opened by the first. *)
Definition batch_answer (t : Replies.timespec) (fid : Z) (es : list entry) : answer :=
  Answer true t 0 (inr fid) 0 0 0
    (le_bytes 2 9 ++ le_bytes 2 72 ++ le_bytes 4 (Z.of_nat (length (entries_bytes es))) ++ entries_bytes es).

Definition batch_wf (max : Z) (es : list entry) : Prop :=
  es <> [] /\ Forall (entry_wf max) es /\ Z.of_nat (length (entries_bytes es)) < 2 ^ 31.

(** A saved query holds the entries [es]. *)
Definition holds (max : Z) (q : query) (es : list entry) : Prop :=
  batch_wf max es /\ q_bytes q = entries_bytes es /\ output_buf_len q = Z.of_nat (length (entries_bytes es)).

Lemma length_entry_bytes next max e : entry_wf max e -> length (entry_bytes next e) = (104 + length (e_name e))%nat.
Proof.
  intros Hw. assert (length (e_mid e) = 28%nat) as Hm by apply Hw.
  unfold entry_bytes. rewrite !length_app, !length_le_bytes. lia.
Qed.

Lemma entry_size_ge e : (104 + length (e_name e) <= entry_size e)%nat.
Proof.
  unfold entry_size. pose proof (Nat.div_mod_eq (104 + length (e_name e) + 7) 8).
  pose proof (Nat.mod_upper_bound (104 + length (e_name e) + 7) 8). lia.
Qed.

Lemma entries_cons e es : es <> [] ->
  entries_bytes (e :: es) = entry_bytes (Z.of_nat (entry_size e)) e ++ entry_pad e ++ entries_bytes es.
Proof. by destruct es. Qed.

Lemma length_entries max e es : es <> [] -> entry_wf max e ->
  length (entries_bytes (e :: es)) = (entry_size e + length (entries_bytes es))%nat.
Proof.
  intros He Hw. rewrite entries_cons, !length_app, (length_entry_bytes _ max) by done. unfold entry_pad.
  rewrite length_replicate. pose proof (entry_size_ge e). lia.
Qed.

Lemma query_reply_batch t fid es max : batch_wf max es ->
  query_reply (an_body (batch_answer t fid es)) = (0, Z.of_nat (length (entries_bytes es)), entries_bytes es).
Proof.
  intros (_ & _ & Hl). unfold query_reply, batch_answer, smb2_smb_parse_query_dir. cbn [an_body].
  rewrite eval_bind, eval_check_size by done. cbv beta iota. rewrite eval_bind, eval_get_le by done. cbv beta iota.
  rewrite eval_bind, eval_get_le by (unfold fits; lia). cbv beta iota. rewrite eval_bind.
  pose proof (eval_skip (X := unit) 0 [] (entries_bytes es) tt eq_refl) as Hs.
  change (if 0 <? 72 then _ else _) with (skip 0 : parser unit unit). change ([] ++ ?l) with l in Hs. by rewrite Hs.
Qed.

Section Listing.
Context `{Kernel} (env : dir_env) (g_max overflow n_ino max : Z).
Hypothesis Hmax : 0 <= max < 2 ^ 31 - 200.

Abbreviation parse_query := (parse_query env max).
Abbreviation do_query := (do_query g_max overflow).
Abbreviation smb2fs_smb_findnext := (smb2fs_smb_findnext env g_max overflow max).

(** What is kept of an entry before its name is converted. *)
Definition taken (x : smbfs_fctx) (e : entry) : Prop :=
  f_NetworkName x = e_name e /\ basics (f_attr x) = (e_eof e, e_alloc e, e_attr e) /\ fa_ino (f_attr x) = e_id e.

Definition same_search (x y : smbfs_fctx) : Prop :=
  f_flags x = f_flags y /\ f_infolevel x = f_infolevel y.

Lemma parse_query_entry x q qs e es : f_infolevel x = SMB_FIND_BOTH_DIRECTORY_INFO ->
  f_queries x = q :: qs -> holds max q (e :: es) ->
  exists x', parse_query x = Some (0, x') /\ taken x' e /\ same_search x' x /\
    f_misc_flags x' = smb2fs_smb_file_id_check (e_id e) (e_name e) (f_misc_flags x) /\
    match es with
    | [] => f_queries x' = qs
    | _ => exists q', f_queries x' = q' :: qs /\ holds max q' es
    end.
Proof.
  intros Hi Hq ((_ & Hes & Hl) & Hb & Ho). apply list.Forall_cons in Hes as [Hw Hes].
  unfold Dirlist.parse_query. rewrite Hq, Hi, Hb. destruct es as [|e2 es].
  - destruct (eval_entry env max 0 e [] [] (PState (f_attr x) (f_misc_flags x)) Hmax Hw) as (s & E & H1 & H2 & H3); [by left|].
    rewrite !app_nil_r in E. cbn [entries_bytes]. rewrite E. eexists. split; [reflexivity|].
    split; [done|]. split; [done|]. done.
  - rewrite (length_entries max) in Hl, Ho by done. pose proof (entry_size_ge e) as Hsz.
    destruct (eval_entry env max (Z.of_nat (entry_size e)) e (entry_pad e) (entries_bytes (e2 :: es))
      (PState (f_attr x) (f_misc_flags x)) Hmax Hw) as (s & E & H1 & H2 & H3).
    { right. unfold entry_pad. rewrite length_replicate. split; lia. }
    rewrite entries_cons, E by done. eexists. split; [reflexivity|].
    destruct (Z.eqb_spec (Z.of_nat (entry_size e)) 0) as [|_]; [lia|].
    assert (0 < length (entries_bytes (e2 :: es)))%nat as Hpos.
    { destruct es; [cbn [entries_bytes]|rewrite entries_cons, length_app by done];
        rewrite (length_entry_bytes _ max) by (by inversion Hes); lia. }
    unfold entry_done. cbn [fd_last fd_recsz]. rewrite Ho. unfold u32. rewrite (Z.mod_small (_ - _)) by lia.
    destruct (Z.eqb_spec (Z.of_nat (entry_size e + length (entries_bytes (e2 :: es))) - Z.of_nat (entry_size e)) 0); [lia|].
    split; [done|]. split; [done|]. split; [done|]. eexists. split; [reflexivity|].
    split; [|split; [done|cbn [output_buf_len]; lia]]. split; [done|]. split; [done|lia].
Qed.

(** The batches that the server sends, and the answer that there are no more. *)
Context (t : Replies.timespec) (fid : Z) (fin : answer).
Hypothesis Hfin : no_more fin.
Definition answers (bats : list (list entry)) : list answer := map (batch_answer t fid) bats ++ [fin].

Lemma send_batch x es : batch_wf max es -> exists x',
  send_query (batch_answer t fid es) x = (0, Z.of_nat (length (entries_bytes es)), entries_bytes es, x') /\
  same_search x' x /\ f_queries x' = f_queries x /\ f_misc_flags x' = f_misc_flags x.
Proof.
  intros Hw. unfold send_query, smb2fs_smb_cmpd_query_dir, smb2_smb_query_dir.
  rewrite (query_reply_batch t fid _ _ Hw). destruct (f_need_close x); by eexists.
Qed.

Lemma begin_none x : exists x', begin_query None x = x' /\ f_infolevel x' = f_infolevel x /\ f_queries x' = f_queries x /\
  f_misc_flags x' = f_misc_flags x /\ has_flag x' SMBFS_RDD_EOF = has_flag x SMBFS_RDD_EOF.
Proof.
  eexists. split; [done|]. destruct (begin_query_spec None x) as [-> ->]. unfold begin_query. case_match; done.
Qed.

Definition search_ok (x : smbfs_fctx) (l : list answer) (ess bats : list (list entry)) : Prop :=
  f_infolevel x = SMB_FIND_BOTH_DIRECTORY_INFO /\ Forall2 (holds max) (f_queries x) ess /\ Forall (batch_wf max) bats /\
  ((has_flag x SMBFS_RDD_EOF = false /\ l = answers bats) \/ (has_flag x SMBFS_RDD_EOF = true /\ l = [] /\ bats = [])).

Lemma do_query_batches bats att x ess :
  f_infolevel x = SMB_FIND_BOTH_DIRECTORY_INFO -> has_flag x SMBFS_RDD_EOF = false ->
  Forall2 (holds max) (f_queries x) ess -> Forall (batch_wf max) bats ->
  exists e b1 b2 l' x', bats = b1 ++ b2 /\ do_query None att (answers bats) x = Some (e, l', x') /\
    search_ok x' l' (rev b1 ++ ess) b2 /\ f_misc_flags x' = f_misc_flags x /\
    e = (if decide (rev b1 ++ ess = []) then ENOENT else 0) /\ (rev b1 ++ ess = [] -> bats = []).
Proof.
  revert att x ess. induction bats as [|es bats IH]; intros att x ess Hi Hf Hq Hw; cbn [answers map app Dirlist.do_query];
    rewrite Hf, andb_false_r; destruct (begin_none x) as (x0 & -> & Hi0 & Hq0 & Hm0 & Hf0); rewrite Hi0, Hi; cbn [negb orb];
    rewrite ?orb_true_r; cbn [negb].
  - destruct Hfin as [-> _]. cbn [negb]. destruct (send_query fin x0) as [[[e n] bs] x1] eqn:Es.
    apply send_query_spec in Es as (_ & Hq1 & Hf1 & Hi1 & Hm1 & He). rewrite (He Hfin). cbn [Z.eqb ENOENT Pos.eqb].
    eexists _, [], [], _, _. split; [done|]. split; [reflexivity|]. cbn [rev app].
    assert (f_queries x1 = f_queries x) as Hqx by congruence.
    split; [|split; [by cbn; congruence|split; [|done]]].
    + split; [by cbn; congruence|]. split; [by cbn; rewrite Hqx|]. split; [done|]. right.
      unfold has_flag. cbn [f_flags set_f_flags]. by rewrite has_lor, orb_true_r.
    + cbn [f_queries set_f_flags]. rewrite Hqx. destruct Hq; case_decide; done.
  - apply list.Forall_cons in Hw as [Hw Hws]. destruct (send_batch x0 es Hw) as (x1 & -> & [Hf1 Hi1] & Hq1 & Hm1).
    cbn [an_mem batch_answer negb Z.eqb ENOENT]. set (x2 := keep_query _ _ _ _).
    assert (f_infolevel x2 = SMB_FIND_BOTH_DIRECTORY_INFO /\ has_flag x2 SMBFS_RDD_EOF = false /\
      f_misc_flags x2 = f_misc_flags x /\ Forall2 (holds max) (f_queries x2) (es :: ess)) as (Hi2 & Hf2 & Hm2 & Hq2).
    { unfold x2, keep_query, has_flag. cbn. rewrite has_clear by done. split; [congruence|].
      split; [unfold has_flag in *; congruence|]. split; [congruence|]. rewrite Hq1, Hq0. by constructor. }
    clearbody x2. destruct (_ && _).
    + destruct (IH att x2 (es :: ess)) as (e & b1 & b2 & l' & x' & -> & E & Hs & Hm & He & _); [done..|].
      exists e, (es :: b1), b2, l', x'. split; [done|]. split; [exact E|]. cbn [rev]. rewrite <- app_assoc. cbn [app].
      split; [done|]. split; [congruence|]. split; [done|]. by destruct (rev b1).
    + exists 0, [es], bats, (answers bats), x2. split; [done|]. split; [done|]. cbn [rev app].
      split; [split; [done|]; split; [done|]; split; [done|by left]|]. split; [done|]. by case_decide.
Qed.

Lemma concat_perm {A} (l k : list (list A)) : l ≡ₚ k -> concat l ≡ₚ concat k.
Proof. induction 1; cbn; [done|by f_equiv|by rewrite !app_assoc, (Permutation_app_comm y)|by etransitivity]. Qed.

Lemma batch_positive es : batch_wf max es -> (0 < length (entries_bytes es))%nat.
Proof.
  intros (Hne & Hw & _). destruct es as [|e es]; [done|]. apply list.Forall_cons in Hw as [Hw _].
  destruct es; [cbn [entries_bytes]|rewrite entries_cons, length_app by done]; rewrite (length_entry_bytes _ max) by done; lia.
Qed.

(** The entries that are still to be given. *)
Definition pending (ess bats : list (list entry)) : list entry := concat ess ++ concat bats.

Lemma findnext_parse x l q es ess bats : search_ok x l (es :: ess) bats -> f_queries x = q :: tail (f_queries x) ->
  exists x' en ess', parse_query x = Some (0, x') /\ search_ok x' l ess' bats /\ taken x' en /\
    f_misc_flags x' = smb2fs_smb_file_id_check (e_id en) (e_name en) (f_misc_flags x) /\
    en :: pending ess' bats = pending (es :: ess) bats.
Proof.
  intros (Hi & Hq & Hw & Hl) Eq. rewrite Eq in Hq. apply list.Forall2_cons in Hq as [Hq Hqs].
  destruct es as [|en es]; [by destruct Hq as [[? _] _]|].
  destruct (parse_query_entry x q _ en es Hi Eq Hq) as (x' & E & Ht & [Hf Hi'] & Hm & Hr).
  exists x', en, (match es with [] => ess | _ => es :: ess end). split; [done|].
  split; [|split; [done|]; split; [done|]; by destruct es].
  split; [congruence|]. split; [|split; [done|unfold has_flag in *; by rewrite Hf]].
  destruct es; [by rewrite Hr|]. destruct Hr as (q' & -> & Hq'). by constructor.
Qed.

Lemma findnext_step x l ess bats : search_ok x l ess bats ->
  exists e l' x', smb2fs_smb_findnext l x = Some (e, l', x') /\
    (pending ess bats = [] /\ e = ENOENT \/
     e = 0 /\ exists en ess' bats', search_ok x' l' ess' bats' /\ taken x' en /\
       f_misc_flags x' = smb2fs_smb_file_id_check (e_id en) (e_name en) (f_misc_flags x) /\
       en :: pending ess' bats' ≡ₚ pending ess bats).
Proof.
  intros Hs. unfold Dirlist.smb2fs_smb_findnext. destruct Hs as (Hi & Hq & Hw & Hl). destruct (f_queries x) as [|q qs] eqn:Eq.
  - apply list.Forall2_nil_inv_l in Hq as ->. rewrite Eq. destruct Hl as [[Hf ->]|(Hf & -> & ->)].
    + destruct (do_query_batches bats 0 x []) as (e & b1 & b2 & l' & x' & -> & E & Hs & Hm & -> & Hz); [done..|by rewrite Eq|done|].
      rewrite E. cbn [mbind option_bind]. rewrite app_nil_r in *. case_decide as Hd; cbn [negb Z.eqb ENOENT].
      { eexists _, _, _. split; [done|]. left. specialize (Hz Hd). apply app_eq_nil in Hz as [-> ->]. done. }
      destruct (rev b1) as [|es b1'] eqn:Er; [done|]. pose proof Hs as (_ & Hq & _). inversion Hq as [|q ? qs ? Hq1 Hqs Eqx]; subst.
      destruct (findnext_parse x' l' q es b1' b2 Hs) as (x2 & en & ess' & -> & Hs2 & Ht & Hm2 & Hp); [by rewrite <- Eqx|].
      eexists _, _, _. split; [done|]. right. split; [done|]. exists en, ess', b2. split; [done|]. split; [done|].
      split; [congruence|]. rewrite Hp, <- Er. unfold pending. change (concat [] ++ ?l) with l. rewrite concat_app.
      apply Permutation_app_tail, concat_perm, Permutation_sym, Permutation_rev.
    + cbn [Dirlist.do_query]. rewrite Hf. cbn. eexists _, _, _. split; [done|]. by left.
  - inversion Hq as [|? es ? ess' Hq1 Hqs]; subst. pose proof (batch_positive es (proj1 Hq1)) as Hpos.
    destruct Hq1 as (Hb & Hby & Ho). rewrite Ho. destruct (Z.eqb_spec (Z.of_nat (length (entries_bytes es))) 0); [lia|].
    rewrite Eq. cbn [mbind option_bind negb Z.eqb].
    destruct (findnext_parse x l q es ess' bats) as (x2 & en & ess2 & -> & Hs2 & Ht & Hm2 & Hp); [|by rewrite Eq|].
    { split; [done|]. split; [by rewrite Eq|]. done. }
    eexists _, _, _. split; [done|]. right. split; [done|]. exists en, ess2, bats. by rewrite Hp.
Qed.

(** *** What the filesystem gets *)

(** The server has file IDs, or it is one of the dots. *)
Definition has_id (e : entry) : Prop := e_id e <> 0 \/ dots (e_name e) = true.
Definition shown (e : entry) : Prop := dots (e_name e) = false.
#[local] Instance shown_dec e : Decision (shown e) := decide_rel eq _ _.

(** Name, sizes, attributes and ID. *)
Definition listed (e : entry) : option (list Z) * (Z * Z * Z) * Z :=
  (smbfs_ntwrkname_tolocal (e_name e), (e_eof e, e_alloc e, e_attr e), e_id e).
Definition seen (x : smbfs_fctx) : option (list Z) * (Z * Z * Z) * Z :=
  (f_LocalName x, basics (f_attr x), fa_ino (f_attr x)).

Abbreviation smbfs_findnext := (smbfs_findnext env g_max overflow n_ino max true).

Definition good (x : smbfs_fctx) (l : list answer) (ess bats : list (list entry)) : Prop :=
  search_ok x l ess bats /\ has (f_misc_flags x) SMBV_HAS_FILEIDS = true /\ Forall has_id (pending ess bats).

Lemma file_id_kept e misc : has_id e -> smb2fs_smb_file_id_check (e_id e) (e_name e) misc = misc.
Proof.
  intros [He|He]; unfold smb2fs_smb_file_id_check; [|by rewrite He, andb_false_r].
  by rewrite (proj2 (Z.eqb_neq _ _) He), andb_false_r.
Qed.

Lemma find_retry_step x l ess bats : good x l ess bats ->
  exists e l' x', find_retry env g_max overflow max l x = Some (e, l', x') /\
    (pending ess bats = [] /\ e = ENOENT \/
     e = 0 /\ exists en ess' bats', good x' l' ess' bats' /\ taken x' en /\ en :: pending ess' bats' ≡ₚ pending ess bats).
Proof.
  intros (Hs & Hm & Hid). unfold find_retry.
  destruct (findnext_step (clear_attr x) l ess bats Hs) as (e & l' & x' & -> & He). cbn [mbind option_bind].
  assert ((e =? EAGAIN) = false) as -> by (destruct He as [[_ ->]|[-> _]]; done).
  eexists _, _, _. split; [done|]. destruct He as [?|(-> & en & ess' & bats' & Hs' & Ht & Hm' & Hp)]; [by left|right].
  split; [done|]. exists en, ess', bats'. rewrite <- Hp in Hid. apply list.Forall_cons in Hid as [Hi1 Hi2].
  rewrite file_id_kept in Hm' by done. split; [|done]. split; [done|]. split; [by rewrite Hm'|done].
Qed.

Lemma call_step fuel x l ess bats : good x l ess bats -> (length (pending ess bats) < fuel)%nat ->
  exists e l' x', smbfs_findnext fuel l x = Done e l' x' /\
    (filter shown (pending ess bats) = [] /\ e = ENOENT \/
     e = 0 /\ exists en ess' bats', good x' l' ess' bats' /\ seen x' = listed en /\
       (length (pending ess' bats') < length (pending ess bats))%nat /\
       en :: filter shown (pending ess' bats') ≡ₚ filter shown (pending ess bats)).
Proof.
  revert x l ess bats. induction fuel as [|fuel IH]; intros x l ess bats Hg Hl; [lia|]. cbn [Dirlist.smbfs_findnext].
  destruct (find_retry_step x l ess bats Hg) as (e & l1 & x1 & -> & [[Hp ->]|(-> & en & ess1 & bats1 & Hg1 & Ht & Hp)]).
  { cbn [negb Z.eqb ENOENT]. eexists _, _, _. split; [done|]. left. by rewrite Hp. }
  cbn [negb Z.eqb]. pose proof (Permutation_length Hp) as Hlp. cbn in Hlp.
  assert (filter shown (en :: pending ess1 bats1) ≡ₚ filter shown (pending ess bats)) as Hfp by (by rewrite Hp).
  rewrite filter_cons in Hfp. destruct Ht as (Hn & Hb & Hino). unfold ignored. rewrite Hn.
  destruct (dots (e_name en)) eqn:Ed.
  - rewrite decide_False in Hfp by (unfold shown; congruence).
    destruct (IH x1 l1 ess1 bats1 Hg1) as (e & l2 & x2 & E & Hr); [lia|]. eexists e, l2, x2. split; [done|].
    destruct Hr as [[Hz ->]|(-> & en2 & ess2 & bats2 & Hg2 & Hs2 & Hl2 & Hp2)]; [left|right].
    + rewrite Hz in Hfp. by apply Permutation_nil in Hfp.
    + split; [done|]. exists en2, ess2, bats2. split; [done|]. split; [done|]. split; [lia|]. by rewrite Hp2.
  - rewrite decide_True in Hfp by done. eexists _, _, _. split; [done|]. right. split; [done|]. exists en, ess1, bats1.
    destruct Hg1 as (Hs1 & Hm1 & Hid1). unfold give. cbn [f_misc_flags set_f_LocalName set_f_parsed_cnt]. rewrite Hm1.
    split; [done|]. split; [|split; [lia|done]]. unfold seen, listed. cbn. by rewrite Hn, Hb, Hino.
Qed.

(** Calls until there is an error: what they give, and the error. *)
Fixpoint enumerate (n fuel : nat) (l : list answer) (x : smbfs_fctx) : list (option (list Z) * (Z * Z * Z) * Z) * option Z :=
  match n with
  | O => ([], None)
  | S n =>
      match smbfs_findnext fuel l x with
      | Done e l x => if e =? 0 then let r := enumerate n fuel l x in (seen x :: r.1, r.2) else ([], Some e)
      | _ => ([], None)
      end
  end.

Lemma enumerate_all n fuel x l ess bats : good x l ess bats ->
  (length (pending ess bats) < n)%nat -> (length (pending ess bats) < fuel)%nat ->
  exists r, enumerate n fuel l x = (r, Some ENOENT) /\ r ≡ₚ map listed (filter shown (pending ess bats)).
Proof.
  revert x l ess bats. induction n as [|n IH]; intros x l ess bats Hg Hn Hl; [lia|]. cbn [enumerate].
  destruct (call_step fuel x l ess bats Hg Hl) as (e & l1 & x1 & -> & [[Hz ->]|(-> & en & ess1 & bats1 & Hg1 & Hs & Hp & Hf)]).
  { eexists. split; [done|]. by rewrite Hz. }
  cbn [Z.eqb]. destruct (IH x1 l1 ess1 bats1 Hg1) as (r & -> & Hr); [lia..|]. cbn [fst snd].
  eexists. split; [done|]. rewrite <- Hf, Hs. cbn [map]. by rewrite Hr.
Qed.
End Listing.

(** C15: the listing of a directory is complete.  A server sends the entries of a directory in batches, laid out as
    prescribed, and then that there are no more; however many batches are fetched ahead, the calls for the next entry
    give each entry but the dots exactly once, with its name, sizes, attributes and ID, and then ENOENT. *)
Theorem listing_complete `{Kernel} env g_max overflow n_ino max t fid fin bats misc n fuel :
  0 <= max < 2 ^ 31 - 200 -> an_mem fin = true -> an_error fin = ENOENT ->
  Forall (batch_wf max) bats -> Forall has_id (concat bats) -> has misc SMBV_HAS_FILEIDS = true ->
  (length (concat bats) < n)%nat -> (length (concat bats) < fuel)%nat ->
  exists r,
    enumerate env g_max overflow n_ino max n fuel (answers t fid fin bats) (smbfs_smb_findopen true misc) = (r, Some ENOENT) /\
    r ≡ₚ map listed (filter shown (concat bats)).
Proof.
  intros Hmax Hm He Hw Hid Hmisc Hn Hf.
  apply (enumerate_all env g_max overflow n_ino max Hmax t fid fin (conj Hm He) n fuel _ _ [] bats); [|done..].
  split; [|done]. split; [done|]. split; [constructor|]. split; [done|by left].
Qed.

(** * Listings of directories: examples, and where the code differs from what it means *)

(** ** Examples *)

Definition demo_kernel : Kernel := {|
  smbfs_ntwrkname_tolocal := Some; smb_convert_network_to_path := inr; malloc_ok := fun _ => true; malloc_fid_node := true
|}.
#[local] Existing Instance demo_kernel.

Definition demo_env : dir_env := DirEnv false 0 (Some 4096).
Definition demo_entry (name : list Z) (id : Z) : entry := Entry 0 0 0 0 0 5 4096 0x20 0 (replicate 28 0) id name.
Definition dot : entry := demo_entry [0x2e; 0] 0.
Definition file_a : entry := demo_entry [0x61; 0] 7.
Definition file_b : entry := demo_entry [0x62; 0] 8.
Definition last_answer : answer := Answer true no_time ENOENT (inl ENOENT) 0 0 0 [].

Lemma demo_entry_wf name id : fits 8 id -> name <> [] -> Z.of_nat (length name) <= 1020 ->
  Replies.name_len name = Z.of_nat (length name) -> entry_wf 1020 (demo_entry name id).
Proof. intros. unfold entry_wf, demo_entry. cbn [e_index e_crtime e_atime e_mtime e_chtime e_eof e_alloc e_attr e_ea e_id e_mid e_name]. by split_and!. Qed.

Lemma listing_complete_witness : exists r,
  enumerate demo_env 1000 0 2 1020 5 5 (answers no_time 9 last_answer [[dot; file_a]; [file_b]])
    (smbfs_smb_findopen true SMBV_HAS_FILEIDS) = (r, Some ENOENT) /\
  r ≡ₚ map listed [file_a; file_b].
Proof.
  assert (Forall (batch_wf 1020) [[dot; file_a]; [file_b]]) as Hw.
  { repeat constructor; try done; apply demo_entry_wf; done. }
  assert (Forall has_id (concat [[dot; file_a]; [file_b]])) as Hid.
  { cbn [concat app]. rewrite !list.Forall_cons. split_and!; [by right|by left|by left|constructor]. }
  apply (listing_complete demo_env 1000 0 2 1020 no_time 9 last_answer [[dot; file_a]; [file_b]] SMBV_HAS_FILEIDS 5 5);
    try done; cbn; lia.
Defined.

Lemma entry_in_bounds_witness : exists r d' bs' x',
  @run unit (Z * list Z) list_reader _ _ (smb2_smb_parse_query_dir_both_dir_info demo_env SMB_FIND_BOTH_DIRECTORY_INFO 1020)
    tt (0, [1; 2; 3]) (PState (zero_attr no_time) 0) = Some (r, tt, d', x') /\
  r_holds (Reader := list_reader) tt d' bs' /\
  match r with
  | inr f => fd_name f <> [] /\ Z.of_nat (length (fd_name f)) <= 1020 /\ (length bs' + 80 <= 3)%nat
  | inl e => e <> 0
  end.
Proof.
  apply (@entry_in_bounds unit (Z * list Z) list_reader list_reader_laws demo_env SMB_FIND_BOTH_DIRECTORY_INFO 1020 tt
    (0, [1; 2; 3]) [1; 2; 3] (PState (zero_attr no_time) 0)); [lia|repeat constructor; lia|done].
Defined.

Lemma search_ends_witness : exists e l' x',
  smbfs_findnext demo_env 1000 0 2 1020 true 300 ([batch_answer no_time 9 [dot]] ++ [last_answer])
    (smbfs_smb_findopen true SMBV_HAS_FILEIDS) = Done e l' x'.
Proof.
  apply (search_ends demo_env 1000 0 2 1020 true 300 [batch_answer no_time 9 [dot]] last_answer
    (smbfs_smb_findopen true SMBV_HAS_FILEIDS)); [lia|done|done|vm_compute; lia].
Defined.

(** ** Where the code differs from what it means *)

(** The order of a listing depends on how many replies are fetched ahead, since they are put at the head of the list that
    is parsed: after a restart, when another number of entries is cached, the entries that are skipped to get back to an
    offset are not those that were given before. *)
Theorem restart_changes_order :
  let listing overflow := enumerate demo_env 1000 overflow 2 1020 5 5 (answers no_time 9 last_answer [[file_a]; [file_b]])
                            (smbfs_smb_findopen true SMBV_HAS_FILEIDS) in
  listing 0 = (map listed [file_b; file_a], Some ENOENT) /\ listing 1000 = (map listed [file_a; file_b], Some ENOENT).
Proof. split; vm_compute; reflexivity. Qed.

(** The structs of Finder information are not packed: the date is put at byte 24, where the layout in [smb_2.h] has the
    flags of the extended information, and bytes 20 to 23, where the date belongs, stay zero. *)
Theorem finder_date_misplaced first8 flags ext date : length first8 = 8%nat ->
  let info := finder_bytes first8 flags ext date in
  length info = 32%nat /\ take 4 (drop 20 info) = [0; 0; 0; 0] /\ take 4 (drop 24 info) = le_bytes 4 date.
Proof.
  intros Hl. unfold finder_bytes. rewrite !length_app, !length_le_bytes, Hl. split; [done|].
  do 8 (destruct first8 as [|? first8]; [done|]). destruct first8; [|done].
  by split.
Qed.

Lemma finder_date_misplaced_witness :
  let info := finder_bytes [1; 2; 3; 4; 5; 6; 7; 8] 0 0 1 in
  length info = 32%nat /\ take 4 (drop 20 info) = [0; 0; 0; 0] /\ take 4 (drop 24 info) = le_bytes 4 1.
Proof. apply (finder_date_misplaced [1; 2; 3; 4; 5; 6; 7; 8] 0 0 1). reflexivity. Defined.

(** When the last entry of a reply is followed by padding, its length is cleared before it is subtracted: the memory of
    the padding stays counted, although the reply is freed. *)
Theorem padding_stays_counted :
  let x := keep_query no_time 200 [] (smbfs_smb_findopen true 0) in
  let x' := entry_done (Found 0 [0x61; 0] 106 true) [] (Query [] 200) [] x in
  f_queries x' = [] /\ f_queries_total_memory x' = 94.
Proof. done. Qed.
