(* ===== verification/CreateReq.v ===== *)
(** * The request of a create: [smb2_smb_create] and its contexts, [kernel/netsmb/smb_smb_2.c]

    The contexts are put behind each other; when one is added, the pointer to the next one
    in the context before it is filled in, in place.  The conversion of the path
    ([smb2fs_fullpath]), what the server answers, and the outcome of closing are inputs. *)
From S2P Require Import Prelude Chain Parser Brl Lease Create.
From S2P Require Fid Replies.
Import Errno.
Local Open Scope Z_scope.

(** ** Constants *)

Definition SMB2_CREATE_GET_MAX_ACCESS := 0x0004.
Definition SMB2_CREATE_NAME_IS_PATH := 0x0008.
Definition SMB2_CREATE_AAPL_RESOLVE_ID := 0x0020.
Definition SMB2_CREATE_DUR_HANDLE := 0x0040.
Definition SMB2_CREATE_DIR_LEASE := 0x0400.
Definition SMB2_CREATE_SET_DFS_FLAG := 0x0800.
Definition SMB2_CREATE_ADD_TIME_WARP := 0x2000.
Definition SMB2_CREATE_QUERY_DISK_ID := 0x4000.
Definition SMB2_CREATE_FILE_LEASE := 0x8000.
Definition SMB2_MC_REPLAY_FLAG := 0x1000.
Definition SMB2_CMD_NO_BLOCK := 0x80000000.
Definition SMB2_CREATE_TIMEWARP_TOKEN := 0x54577270.   (* Twrp *)
Definition SMB2_DURABLE_HANDLE_V2_CHECK := 0x80.
Definition SMBV_MNT_TIME_MACHINE := 0x00020000.
Definition SMBV_HAS_DUR_HNDL_V2 := 0x00040000.
Definition SMBV_MNT_SNAPSHOT := 0x00800000.
Definition SMB2_FILE_DELETE_CHILD := 0x40.
Definition SMB2_GLOBAL_CAP_LEASING := 0x02.
Definition SMB2_GLOBAL_CAP_PERSISTENT_HANDLES := 0x10.
Definition SMB2_SHARE_CAP_CONTINUOUS_AVAILABILITY := 0x10.
Definition SMB2_OPLOCK_LEVEL_NONE := 0x00.
Definition SMB2_OPLOCK_LEVEL_LEASE := 0xff.
Definition SMB2_FLAGS_DFS_OPERATIONS := 0x10000000.
Definition SMB2_FLAGS_REPLAY_OPERATIONS := 0x20000000.
(** SERVER_CAPS, VOLUME_CAPS, MODEL_INFO *)
Definition aapl_req_bitmap := 0x07.
(** READ_DIR_ATTR, OSX_COPYFILE, UNIX_BASED, NFS_ACE, READ_DIR_ATTR_V2, HIFI *)
Definition aapl_client_caps := 0x3f.

Definition put16 : Z -> list Z := le_bytes 2.
Definition put32 : Z -> list Z := le_bytes 4.
Definition put64 : Z -> list Z := le_bytes 8.

(** ** Contexts *)

(** The bytes put so far, [next_context_ptr] as an offset, [prev_content_size] and [context_len]. *)
Record contexts := Contexts { c_bytes : list Z; c_next : option nat; c_prev : Z; c_len : Z }.
Definition no_contexts : contexts := Contexts [] None 0 0.

(** "Set prev context next ptr" *)
Definition link (b : contexts) : contexts :=
  match c_next b with
  | Some o => Contexts (splice o (put32 (c_prev b)) (c_bytes b)) (Some o) (c_prev b) (c_len b)
  | None => b
  end.

(** A context of [size] bytes, whose data have [data_len] bytes and [data] the zeros behind them as well. *)
Definition put_context (name data_offset data_len : Z) (data : list Z) (size : Z) (b : contexts) : contexts :=
  Contexts
    (c_bytes b ++ put32 0 ++ put16 16 ++ put16 4 ++ put16 0 ++ put16 data_offset ++ put32 data_len
     ++ be_bytes 4 name ++ put32 0 ++ data)
    (Some (length (c_bytes b))) size (u32 (c_len b + size)).

(** What the contexts are made of beside the request: flags of the session, [session_dur_hndl_v2_desired_timeout],
    [snapshot_local_time], whether the share is FAT, the ID to be resolved, and the share with its handles. *)
Record ctx_env := CtxEnv {
  e_session_flags : Z; e_misc_flags : Z; e_desired_timeout : Z; e_snapshot : Z; e_fat : bool; e_file_id : Z;
  e_share : Fid.smb_share
}.

(** SMB 3.0, 3.0.2 or 3.1.1 *)
Definition smb3_or_later (flags : Z) : bool := has flags 0x28800.

(** A step adds to the contexts and to what [create_contextp] points to, or fails with an error; [None]: the pointer
    is used as the struct that it is not. *)
Definition step : Type := contexts -> create_ctx -> option ((Z + contexts) * create_ctx).

Definition seq (p q : step) : step := fun b c =>
  match p b c with
  | Some (inr b, c) => q b c
  | r => r
  end.
Definition done : step := fun b c => Some (inr b, c).
Definition error (e : Z) : step := fun b c => Some (inl e, c).
Definition when (f : bool) (p : step) : step := if f then p else done.
Definition add (name data_offset data_len : Z) (data : list Z) (size : Z) : step := fun b c =>
  Some (inr (put_context name data_offset data_len data size (link b)), c).

Definition add_aapl_query : step :=
  add SMB2_CREATE_AAPL 24 24 (put32 kAAPL_SERVER_QUERY ++ put32 0 ++ put64 aapl_req_bitmap ++ put64 aapl_client_caps) 48.

Definition add_resolve_id (file_id : Z) : step := fun b c =>
  match c with
  | CtxNull => error EINVAL b c
  | CtxDur _ _ => None
  | CtxResolve _ _ =>
      add SMB2_CREATE_AAPL 24 16 (put32 kAAPL_RESOLVE_ID ++ put32 0 ++ put64 file_id) 40 b (CtxResolve ENOENT None)
  end.

Definition add_time_warp (env : ctx_env) : step :=
  add SMB2_CREATE_TIMEWARP_TOKEN 24 8 (put64 (Replies.smb_time_local2NT (Replies.Ts (e_snapshot env) 0) (e_fat env))) 32.

Definition add_disk_id : step := add SMB2_CREATE_QUERY_ON_DISK_ID 0 0 [] 24.
Definition add_max_access : step := add SMB2_CREATE_QUERY_MAXIMAL_ACCESS 0 0 [] 24.

(** [dur_hndl_leasep] with a durable handle. *)
Definition with_dur (f : smb2_durable_handle -> step) : step := fun b c =>
  match c with
  | CtxNull => error EBADRPC b c
  | CtxResolve _ _ => None
  | CtxDur _ None => error EBADRPC b c
  | CtxDur _ (Some d) => f d b c
  end.

Definition on_handle (f : smb2_durable_handle -> smb2_durable_handle) (c : create_ctx) : create_ctx :=
  match c with CtxDur l d => CtxDur l (f <$> d) | _ => c end.
Definition on_leasep (f : smb2_lease -> smb2_lease) (c : create_ctx) : create_ctx :=
  match c with CtxDur l d => CtxDur (f <$> l) d | _ => c end.

(** Time Machine asks for a time, in milliseconds. *)
Definition dur_handle_timeout (env : ctx_env) : Z :=
  if has (e_misc_flags env) SMBV_MNT_TIME_MACHINE && negb (e_desired_timeout env =? 0)
  then u32 (e_desired_timeout env * 1000) else 0.

Definition add_dur_handle (env : ctx_env) : step := with_dur (fun d =>
  if has (e_misc_flags env) SMBV_HAS_DUR_HNDL_V2 || has (dur_flags d) SMB2_DURABLE_HANDLE_V2_CHECK then
    fun b c =>
      let d' := set_dur_timeout (dur_handle_timeout env) d in
      add SMB2_CREATE_DURABLE_HANDLE_REQUEST_V2 24 32
        (put32 (dur_handle_timeout env)
         ++ put32 (if has (dur_flags d) SMB2_PERSISTENT_HANDLE_REQUEST then SMB2_DHANDLE_FLAG_PERSISTENT else 0)
         ++ put64 0 ++ dur_create_guid d) 56 b
        (on_handle (fun _ => dur_flags_to SMB2_DURABLE_HANDLE_V2 0 d') c)
  else add SMB2_CREATE_DURABLE_HANDLE_REQUEST 24 16 (put64 0 ++ put64 0) 40).

Definition add_dur_reconnect (env : ctx_env) : step := with_dur (fun d =>
  match Fid.smb_fid_get_kernel_fid (Some (e_share env)) (dur_fid d) false with
  | (e, sf, _) =>
      match e =? 0, sf with
      | true, Some sf =>
          let fid := put64 (Fid.fid_persistent sf) ++ put64 (Fid.fid_volatile sf) in
          if has (e_misc_flags env) SMBV_HAS_DUR_HNDL_V2 then
            add SMB2_CREATE_DURABLE_HANDLE_RECONNECT_V2 24 36
              (fid ++ dur_create_guid d
               ++ put32 (if has (dur_flags d) SMB2_PERSISTENT_HANDLE_RECONNECT then SMB2_DHANDLE_FLAG_PERSISTENT else 0)
               ++ put32 0) 64
          else add SMB2_CREATE_DURABLE_HANDLE_RECONNECT 24 16 fid 40
      | _, _ => error e
      end
  end).

Definition lease_v1 (l : smb2_lease) (state : Z) : list Z :=
  put64 (lease_key_hi l) ++ put64 (lease_key_low l) ++ put32 state ++ put32 0 ++ put64 0.

(** Version 2 has the key of the parent; the last 4 bytes are padding. *)
Definition lease_v2 (l : smb2_lease) (state : Z) : list Z :=
  put64 (lease_key_hi l) ++ put64 (lease_key_low l) ++ put32 state
  ++ (if negb (par_lease_key_hi l =? 0) && negb (par_lease_key_low l =? 0)
      then put32 SMB2_LEASE_FLAG_PARENT_LEASE_KEY_SET ++ put64 0 ++ put64 (par_lease_key_hi l) ++ put64 (par_lease_key_low l)
      else put32 0 ++ put64 0 ++ put64 0 ++ put64 0)
  ++ put16 0 ++ put16 0 ++ put32 0.

Definition dur_has (d : option smb2_durable_handle) (f : Z) : bool :=
  match d with Some d => has (dur_flags d) f | None => false end.

Definition add_lease (env : ctx_env) (flags : Z) : step := fun b c =>
  match c with
  | CtxNull => error EBADRPC b c
  | CtxResolve _ _ => None
  | CtxDur None _ => error EBADRPC b c
  | CtxDur (Some l) d =>
      if smb3_or_later (e_session_flags env)
         && dur_has d (Z.lor SMB2_PERSISTENT_HANDLE_REQUEST SMB2_PERSISTENT_HANDLE_RECONNECT)
      then done b c
      else
        let state := if has flags SMB2_CREATE_DUR_HANDLE_RECONNECT then lease_state l else req_lease_state l in
        if has (e_misc_flags env) SMBV_HAS_DUR_HNDL_V2 || dur_has d SMB2_DURABLE_HANDLE_V2_CHECK
           || has flags SMB2_CREATE_DIR_LEASE
        then add SMB2_CREATE_REQUEST_LEASE 24 52 (lease_v2 l state) 80 b (on_leasep (lease_flags SMB2_LEASE_V2) c)
        else add SMB2_CREATE_REQUEST_LEASE 24 32 (lease_v1 l state) 56 b c
  end.

(** The flags that ask for a context. *)
Definition wants_contexts (flags : Z) : bool := has flags 0xe4f4.

Definition all_contexts (env : ctx_env) (flags : Z) : step :=
  seq (when (has flags SMB2_CREATE_AAPL_QUERY) add_aapl_query)
  (seq (when (has flags SMB2_CREATE_AAPL_RESOLVE_ID) (add_resolve_id (e_file_id env)))
  (seq (when (has flags SMB2_CREATE_ADD_TIME_WARP) (add_time_warp env))
  (seq (when (has flags SMB2_CREATE_QUERY_DISK_ID) add_disk_id)
  (seq (when (has flags SMB2_CREATE_GET_MAX_ACCESS) add_max_access)
  (seq (when (has flags SMB2_CREATE_DUR_HANDLE) (add_dur_handle env))
  (seq (when (has flags SMB2_CREATE_DUR_HANDLE_RECONNECT) (add_dur_reconnect env))
  (when (has flags 0x84c0) (add_lease env flags)))))))).

(** The bytes behind the name, the offset and the length of the contexts. *)
Definition smb2_smb_add_create_contexts (env : ctx_env) (flags name_offset name_len : Z) (c : create_ctx)
  : option ((Z + list Z * Z * Z) * create_ctx) :=
  if negb (wants_contexts flags) then Some (inr ([], 0, 0), c)
  else
    let off := name_offset + name_len + (if name_len =? 0 then 2 else 0) in
    let pad := if off mod 8 =? 0 then 0 else 8 - off mod 8 in
    match all_contexts env flags no_contexts c with
    | Some (inr b, c) => Some (inr (replicate (Z.to_nat pad) 0 ++ c_bytes b, u32 (off + pad), c_len b), c)
    | Some (inl e, c) => Some (inl e, c)
    | None => None
    end.

(** ** The request *)

(** What is opened: a path without a node, a node with the access to its parent if that is known, or a child of a
    directory with the access to it. *)
Inductive item := NoNode | Itself (parent : option Z) | ChildOf (maxAccessRights : Z).

(** "Assume delete access and let server control it", unless the parent denies it. *)
Definition assume_delete (it : item) (flags : Z) : Z :=
  if has flags SMB2_CREATE_GET_MAX_ACCESS then
    let flags := Z.lor flags SMB2_CREATE_ASSUME_DELETE in
    match it with
    | Itself (Some r) | ChildOf r => if has r SMB2_FILE_DELETE_CHILD then flags else clear_bits flags SMB2_CREATE_ASSUME_DELETE
    | _ => flags
    end
  else flags.

(** The fields of [struct smb2_create_rq] that the request is made of; [fullpath] is the outcome of
    [smb2fs_fullpath] and [namep] a path that is there already. *)
Record create_args := Args {
  impersonate_level : Z; desired_access : Z; file_attributes : Z; share_access : Z; disposition : Z; create_options : Z;
  has_name : bool; fullpath : Z + list Z; namep : list Z; the_item : item;
  desired_timeout : Z; snapshot_time : Z; fat : bool; resolve_file_id : Z; share_caps : Z; is_ipc : bool
}.

(** The state that a create changes. *)
Record create_state := CrState { k_c : cstate; k_oplock_level : Z; k_mc_flags : Z; k_active_capabilities : Z }.

Definition flags_of (x : create_state) : Z := cr_flags (c_rq (k_c x)).
Definition with_c (f : cstate -> cstate) (x : create_state) : create_state :=
  CrState (f (k_c x)) (k_oplock_level x) (k_mc_flags x) (k_active_capabilities x).

Definition env_of (a : create_args) (x : create_state) : ctx_env :=
  CtxEnv (session_flags (c_ses (k_c x))) (session_misc_flags (c_ses (k_c x))) (desired_timeout a) (snapshot_time a) (fat a)
    (resolve_file_id a) (c_share (k_c x)).

(** With persistent handles there are no oplocks. *)
Definition oplock_of (a : create_args) (x : create_state) : Z :=
  if has (flags_of x) (Z.lor SMB2_CREATE_DUR_HANDLE SMB2_CREATE_DUR_HANDLE_RECONNECT)
     && has (k_active_capabilities x) SMB2_GLOBAL_CAP_PERSISTENT_HANDLES
     && has (share_caps a) SMB2_SHARE_CAP_CONTINUOUS_AVAILABILITY
  then SMB2_OPLOCK_LEVEL_NONE else k_oplock_level x.

(** The name, its length in 16 bits, and the flags it adds to the header. *)
Definition put_name (a : create_args) (flags : Z) : Z + list Z * Z * Z :=
  if has_name a then
    if negb (has flags SMB2_CREATE_NAME_IS_PATH) then
      match fullpath a with
      | inl e => inl e
      | inr p => inr (p, u16 (Z.of_nat (length p)), 0)
      end
    else inr (namep a, u16 (Z.of_nat (length (namep a))),
              if has flags SMB2_CREATE_SET_DFS_FLAG then SMB2_FLAGS_DFS_OPERATIONS else 0)
  else inr ([], 0, 0).

Definition create_body (a : create_args) (oplock : Z) (name : list Z) (name_len off len : Z) (contexts : list Z) : list Z :=
  put16 57 ++ le_bytes 1 0 ++ le_bytes 1 oplock ++ put32 (impersonate_level a) ++ put64 0 ++ put64 0
  ++ put32 (desired_access a) ++ put32 (file_attributes a) ++ put32 (share_access a)
  ++ put32 (disposition a) ++ put32 (create_options a) ++ put16 120 ++ put16 name_len ++ put32 off ++ put32 len
  ++ name ++ (if name_len =? 0 then put16 0 else []) ++ contexts.

(** The body of the request and the flags of its header. *)
Definition create_request (a : create_args) (x : create_state) : option ((Z + list Z * Z) * create_state) :=
  let oplock := oplock_of a x in
  let x := with_c (on_rq (fun r => set_cr_flags (assume_delete (the_item a) (cr_flags r)) r)) x in
  match put_name a (flags_of x) with
  | inl e => Some (inl e, x)
  | inr (name, name_len, hdr) =>
      match smb2_smb_add_create_contexts (env_of a x) (flags_of x) 120 name_len (create_contextp (c_rq (k_c x))) with
      | None => None
      | Some (r, c) =>
          let x := with_c (on_rq (set_create_contextp c)) x in
          match r with
          | inl e => Some (inl e, x)
          | inr (contexts, off, len) =>
              Some (inr (create_body a oplock name name_len off len contexts,
                         Z.lor hdr (if has (k_mc_flags x) SMB2_MC_REPLAY_FLAG then SMB2_FLAGS_REPLAY_OPERATIONS else 0)), x)
          end
      end
  end.

(** ** The exchange *)

(** The outcome of a request that is sent, and of the close that may follow. *)
Record sent := Sent { st_error : Z; st_reconnected : bool; st_alt_discon : bool; st_reply : list Z; st_close : Z }.

Section Exchange.
Context `{Kernel} (a : create_args).

(** The label [resend]: one element of [l] for each request; [None]: there are not enough, or the behaviour is undefined. *)
Fixpoint resend (l : list sent) (x : create_state) : option (Z * list (list Z * Z) * create_state) :=
  match create_request a x with
  | None => None
  | Some (inl e, x) => Some (e, [], x)
  | Some (inr rq, x) =>
      match l with
      | [] => None
      | s :: l =>
          let again x := match resend l x with
                         | Some (e, rqs, x) => Some (e, rq :: rqs, x)
                         | None => None
                         end in
          if negb (st_error s =? 0) then
            if st_reconnected s then
              again (CrState (k_c x) (k_oplock_level x)
                       (if st_alt_discon s then Z.lor (k_mc_flags x) SMB2_MC_REPLAY_FLAG else k_mc_flags x)
                       (k_active_capabilities x))
            else Some (st_error s, [rq], x)
          else
            match eval (smb2_smb_parse_create (S (length (st_reply s)))) (st_reply s) (k_c x) with
            | None => None
            | Some (inl e, _, c) => Some (e, [rq], with_c (fun _ => c) x)
            | Some (inr _, _, c) =>
                let x := with_c (fun _ => c) x in
                let level := ret_oplock_level (c_rq c) in
                if has (k_active_capabilities x) SMB2_GLOBAL_CAP_LEASING
                   && negb (level =? SMB2_OPLOCK_LEVEL_LEASE) && negb (level =? SMB2_OPLOCK_LEVEL_NONE)
                then
                  let caps := clear_bits (k_active_capabilities x) SMB2_GLOBAL_CAP_LEASING in
                  if negb (st_close s =? 0) then Some (st_close s, [rq], CrState (k_c x) (k_oplock_level x) (k_mc_flags x) caps)
                  else again (CrState (k_c x) SMB2_OPLOCK_LEVEL_NONE (k_mc_flags x) caps)
                else Some (0, [rq], x)
            end
      end
  end.

(** "Snapshot mounts are always read only"; the flag for credits goes into the command. *)
Definition smb2_smb_create (l : list sent) (x : create_state) : option (Z * list (list Z * Z) * create_state) :=
  let x := with_c (on_rq (fun r => set_cr_flags (clear_bits (cr_flags r) SMB2_CMD_NO_BLOCK) r)) x in
  let x := if has (session_misc_flags (c_ses (k_c x))) SMBV_MNT_SNAPSHOT && negb (is_ipc a)
           then with_c (on_rq (fun r => set_cr_flags (Z.lor (cr_flags r) SMB2_CREATE_ADD_TIME_WARP) r)) x else x in
  resend l x.
End Exchange.
