(* ===== verification/CreateReqTheorems.v ===== *)
(** * Theorems on the request of a create

    A server that reads the request by the layout of [MS-SMB2] finds the fields, the name
    and exactly the contexts that the flags ask for. *)
From S2P Require Import Prelude Chain Brl Lease Parser Create CreateRound CreateReq.
From S2P Require Fid Replies.
Import Errno.
Local Open Scope Z_scope.

(** ** Chains of contexts *)

(** A context: name, offset and length of its data, the data with the zeros behind. *)
Record ctx := Ctx { x_name : Z; x_off : Z; x_len : Z; x_data : list Z }.
Definition x_size (c : ctx) : nat := 24 + length (x_data c).
Definition ctx_wf (c : ctx) : Prop :=
  fits 4 (x_name c) /\ (x_size c <= 80)%nat /\ Z.of_nat (x_size c) mod 8 = 0 /\ 0 <= x_len c <= Z.of_nat (length (x_data c)) /\
  (x_off c = 24 \/ x_off c = 0 /\ x_len c = 0).
(** What it says: its name and its data. *)
Definition said (c : ctx) : Z * list Z := (x_name c, take (Z.to_nat (x_len c)) (x_data c)).

Definition ctx_bytes (next : Z) (c : ctx) : list Z :=
  put32 next ++ put16 16 ++ put16 4 ++ put16 0 ++ put16 (x_off c) ++ put32 (x_len c) ++ be_bytes 4 (x_name c) ++ put32 0
  ++ x_data c.
Definition linked (cs : list ctx) : list Z := concat (map (fun c => ctx_bytes (Z.of_nat (x_size c)) c) cs).

(** The bytes hold the contexts [cs]. *)
Inductive repr : contexts -> list ctx -> Prop :=
  | repr_nil : repr no_contexts []
  | repr_snoc cs c : repr
      (Contexts (linked cs ++ ctx_bytes 0 c) (Some (length (linked cs))) (Z.of_nat (x_size c))
         (u32 (Z.of_nat (length (linked cs ++ ctx_bytes 0 c))))) (cs ++ [c]).

Lemma length_ctx_bytes next c : length (ctx_bytes next c) = x_size c.
Proof. unfold ctx_bytes, put16, put32. rewrite !length_app, !length_le_bytes, length_be_bytes. unfold x_size. lia. Qed.

Lemma linked_snoc cs c : linked (cs ++ [c]) = linked cs ++ ctx_bytes (Z.of_nat (x_size c)) c.
Proof. unfold linked. rewrite map_app, concat_app. cbn. by rewrite app_nil_r. Qed.

Lemma link_bytes b cs : repr b cs ->
  c_bytes (link b) = linked cs /\ c_len (link b) = u32 (Z.of_nat (length (linked cs))).
Proof.
  intros [|cs' c]; [done|]. cbn [link c_next c_bytes c_prev c_len]. rewrite linked_snoc, !length_app, !length_ctx_bytes.
  split; [|done]. unfold splice. rewrite take_app_length, drop_app, drop_ge by lia.
  f_equal. change (length (put32 _)) with 4%nat.
  by replace (length (linked cs') + 4 - length (linked cs'))%nat with 4%nat by lia.
Qed.

Lemma put_context_repr b cs c : repr b cs ->
  repr (put_context (x_name c) (x_off c) (x_len c) (x_data c) (Z.of_nat (x_size c)) (link b)) (cs ++ [c]).
Proof.
  intros Hr. destruct (link_bytes b cs Hr) as [Hb Hl]. unfold put_context. rewrite Hb, Hl.
  assert (u32 (u32 (Z.of_nat (length (linked cs))) + Z.of_nat (x_size c)) =
          u32 (Z.of_nat (length (linked cs ++ ctx_bytes 0 c)))) as ->.
  { rewrite length_app, length_ctx_bytes. unfold u32. rewrite Zplus_mod_idemp_l. f_equal. lia. }
  apply repr_snoc.
Qed.

(** ** What the flags ask for *)

Definition w_aapl_query : list (Z * list Z) :=
  [(SMB2_CREATE_AAPL, put32 kAAPL_SERVER_QUERY ++ put32 0 ++ put64 aapl_req_bitmap ++ put64 aapl_client_caps)].
Definition w_resolve_id (file_id : Z) : list (Z * list Z) :=
  [(SMB2_CREATE_AAPL, put32 kAAPL_RESOLVE_ID ++ put32 0 ++ put64 file_id)].
Definition w_time_warp (env : ctx_env) : list (Z * list Z) :=
  [(SMB2_CREATE_TIMEWARP_TOKEN, put64 (Replies.smb_time_local2NT (Replies.Ts (e_snapshot env) 0) (e_fat env)))].

Definition w_dur_handle (env : ctx_env) (d : smb2_durable_handle) : list (Z * list Z) :=
  if has (e_misc_flags env) SMBV_HAS_DUR_HNDL_V2 || has (dur_flags d) SMB2_DURABLE_HANDLE_V2_CHECK then
    [(SMB2_CREATE_DURABLE_HANDLE_REQUEST_V2,
      put32 (dur_handle_timeout env)
      ++ put32 (if has (dur_flags d) SMB2_PERSISTENT_HANDLE_REQUEST then SMB2_DHANDLE_FLAG_PERSISTENT else 0)
      ++ put64 0 ++ dur_create_guid d)]
  else [(SMB2_CREATE_DURABLE_HANDLE_REQUEST, replicate 16 0)].

Definition w_dur_reconnect (env : ctx_env) (d : smb2_durable_handle) : list (Z * list Z) :=
  match (Fid.smb_fid_get_kernel_fid (Some (e_share env)) (dur_fid d) false).1.2 with
  | Some sf =>
      let fid := put64 (Fid.fid_persistent sf) ++ put64 (Fid.fid_volatile sf) in
      if has (e_misc_flags env) SMBV_HAS_DUR_HNDL_V2 then
        [(SMB2_CREATE_DURABLE_HANDLE_RECONNECT_V2,
          fid ++ dur_create_guid d
          ++ put32 (if has (dur_flags d) SMB2_PERSISTENT_HANDLE_RECONNECT then SMB2_DHANDLE_FLAG_PERSISTENT else 0))]
      else [(SMB2_CREATE_DURABLE_HANDLE_RECONNECT, fid)]
  | None => []
  end.

(** A persistent handle needs no lease; a reconnect asks for the lease there was. *)
Definition w_lease (env : ctx_env) (flags : Z) (l : smb2_lease) (d : option smb2_durable_handle) : list (Z * list Z) :=
  if smb3_or_later (e_session_flags env)
     && dur_has d (Z.lor SMB2_PERSISTENT_HANDLE_REQUEST SMB2_PERSISTENT_HANDLE_RECONNECT)
  then []
  else
    let state := if has flags SMB2_CREATE_DUR_HANDLE_RECONNECT then lease_state l else req_lease_state l in
    if has (e_misc_flags env) SMBV_HAS_DUR_HNDL_V2 || dur_has d SMB2_DURABLE_HANDLE_V2_CHECK
       || has flags SMB2_CREATE_DIR_LEASE
    then [(SMB2_CREATE_REQUEST_LEASE, take 52 (lease_v2 l state))]
    else [(SMB2_CREATE_REQUEST_LEASE, lease_v1 l state)].

Definition of_dur (w : smb2_durable_handle -> list (Z * list Z)) (c : create_ctx) : list (Z * list Z) :=
  match c with CtxDur _ (Some d) => w d | _ => [] end.
Definition of_lease (w : smb2_lease -> option smb2_durable_handle -> list (Z * list Z)) (c : create_ctx) : list (Z * list Z) :=
  match c with CtxDur (Some l) d => w l d | _ => [] end.

Definition if_flag (flags m : Z) (l : list (Z * list Z)) : list (Z * list Z) := if has flags m then l else [].

(** The contexts that a request has, in order. *)
Definition wanted (env : ctx_env) (flags : Z) (c : create_ctx) : list (Z * list Z) :=
  if_flag flags SMB2_CREATE_AAPL_QUERY w_aapl_query
  ++ if_flag flags SMB2_CREATE_AAPL_RESOLVE_ID (w_resolve_id (e_file_id env))
  ++ if_flag flags SMB2_CREATE_ADD_TIME_WARP (w_time_warp env)
  ++ if_flag flags SMB2_CREATE_QUERY_DISK_ID [(SMB2_CREATE_QUERY_ON_DISK_ID, [])]
  ++ if_flag flags SMB2_CREATE_GET_MAX_ACCESS [(SMB2_CREATE_QUERY_MAXIMAL_ACCESS, [])]
  ++ if_flag flags SMB2_CREATE_DUR_HANDLE (of_dur (w_dur_handle env) c)
  ++ if_flag flags SMB2_CREATE_DUR_HANDLE_RECONNECT (of_dur (w_dur_reconnect env) c)
  ++ if_flag flags 0x84c0 (of_lease (w_lease env flags) c).

(** ** Steps *)

(** Alike: what the steps change does not matter to the contexts that follow. *)
Definition dur_view (d : smb2_durable_handle) : Z * Z * list Z :=
  (dur_fid d, clear_bits (dur_flags d) SMB2_DURABLE_HANDLE_V2, dur_create_guid d).
Definition ctx_view (c : create_ctx) :=
  match c with
  | CtxDur l d => Some ((fun l => (req_lease_state l, lease_state l, (lease_key_hi l, lease_key_low l),
                                   (par_lease_key_hi l, par_lease_key_low l))) <$> l, dur_view <$> d)
  | _ => None
  end.

Definition guid_ok (c : create_ctx) : Prop :=
  match c with CtxDur _ (Some d) => length (dur_create_guid d) = 16%nat | _ => True end.

(** A step that succeeds adds contexts that say [w]. *)
Definition sound (p : step) (w : create_ctx -> list (Z * list Z)) (n : nat) : Prop := forall b c b' c' cs,
  repr b cs -> guid_ok c -> p b c = Some (inr b', c') ->
  exists new, repr b' (cs ++ new) /\ Forall ctx_wf new /\ map said new = w c /\ (length new <= n)%nat /\
    ctx_view c' = ctx_view c /\ guid_ok c'.

Lemma sound_done : sound done (fun _ => []) 0.
Proof. intros b c b' c' cs Hr Hg [= <- <-]. exists []. rewrite app_nil_r. by split_and!. Qed.

Lemma sound_error e w n : sound (error e) w n.
Proof. by intros b c b' c' cs Hr Hg [=]. Qed.

Lemma sound_seq p q w v n m : sound p w n -> sound q v m -> (forall c c', ctx_view c' = ctx_view c -> v c' = v c) ->
  sound (seq p q) (fun c => w c ++ v c) (n + m).
Proof.
  intros Hp Hq Hv b c b' c' cs Hr Hg. unfold seq. destruct (p b c) as [[[e|b1] c1]|] eqn:E; [done| |done].
  destruct (Hp _ _ _ _ _ Hr Hg E) as (n1 & Hr1 & Hf1 & Hs1 & Hl1 & Hc1 & Hg1). intros E2.
  destruct (Hq _ _ _ _ _ Hr1 Hg1 E2) as (n2 & Hr2 & Hf2 & Hs2 & Hl2 & Hc2 & Hg2). exists (n1 ++ n2).
  rewrite app_assoc, map_app, Hs1, Hs2, length_app, (Hv c c1 Hc1).
  split_and!; [done|by apply list.Forall_app|done|lia|congruence|done].
Qed.

Lemma sound_when flags m p w n : sound p w n -> sound (when (has flags m) p) (fun c => if_flag flags m (w c)) n.
Proof.
  intros Hp. unfold when, if_flag. destruct (has flags m); [done|].
  intros b c b' c' cs Hr Hg [= <- <-]. exists []. rewrite app_nil_r. split_and!; try done. cbn. lia.
Qed.

(** Adding one context, with a change of what the pointer points to. *)
Lemma add_one x b c b' c' cs (w : list (Z * list Z)) c0 :
  repr b cs -> ctx_wf x -> w = [said x] -> ctx_view c = ctx_view c0 -> guid_ok c ->
  add (x_name x) (x_off x) (x_len x) (x_data x) (Z.of_nat (x_size x)) b c = Some (inr b', c') ->
  exists new, repr b' (cs ++ new) /\ Forall ctx_wf new /\ map said new = w /\ (length new <= 1)%nat /\
    ctx_view c' = ctx_view c0 /\ guid_ok c'.
Proof.
  intros Hr Hx -> Hc Hg [= <- <-]. exists [x]. split_and!; [by apply put_context_repr|by constructor|done|done|done|done].
Qed.

Ltac ctx_wf := unfold ctx_wf, x_size, fits; cbn [x_name x_off x_len x_data]; split_and!; cbn; try lia; try done.

Lemma sound_plain name off len data size w :
  ctx_wf (Ctx name off len data) -> size = Z.of_nat (x_size (Ctx name off len data)) ->
  w = [said (Ctx name off len data)] -> sound (add name off len data size) (fun _ => w) 1.
Proof. intros Hx -> Hw b c b' c' cs Hr Hg. by apply (add_one (Ctx name off len data)). Qed.

Lemma sound_resolve_id id : sound (add_resolve_id id) (fun _ => w_resolve_id id) 1.
Proof.
  intros b c b' c' cs Hr Hg. unfold add_resolve_id. destruct c as [|l d|e p]; [done|done|].
  apply (add_one (Ctx SMB2_CREATE_AAPL 24 16 (put32 kAAPL_RESOLVE_ID ++ put32 0 ++ put64 id))); try done. ctx_wf.
Qed.

Lemma ctx_wf_of name len (data : list Z) n : length data = n -> fits 4 name -> (n <= 56)%nat -> Z.of_nat n mod 8 = 0 ->
  0 <= len <= Z.of_nat n -> ctx_wf (Ctx name 24 len data).
Proof.
  intros <- Hn Hl Hm Hr. unfold ctx_wf, x_size. cbn [x_name x_off x_len x_data]. split_and!; try done; try lia; try (by left).
  rewrite Nat2Z.inj_add. change (Z.of_nat 24) with (3 * 8). by rewrite Z.add_comm, Z.mod_add.
Qed.

Lemma has_clear_v2 f m : Z.land SMB2_DURABLE_HANDLE_V2 m = 0 -> has f m = has (clear_bits f SMB2_DURABLE_HANDLE_V2) m.
Proof. intros Hm. symmetry. by apply has_clear. Qed.

(** The goal is a context that is added, with [n] bytes of data. *)
Ltac add_ctx n :=
  match goal with |- add ?nm ?o ?l ?dt ?sz _ _ = _ -> _ =>
    let x := fresh "x" in let Hl := fresh "Hl" in let E := fresh "E" in
    set (x := Ctx nm o l dt);
    assert (length (x_data x) = n) as Hl by
      (subst x; cbn [x_data]; unfold put16, put32, put64; rewrite ?length_app, ?length_le_bytes; lia);
    intros E; eapply (add_one x);
      [eassumption|apply (ctx_wf_of _ _ _ n Hl); [by split|lia|done|lia]| | | |
       etransitivity; [|exact E]; unfold x_size; rewrite Hl; reflexivity]; [| |eassumption];
      [unfold said; cbn [x_name x_len x]; do 2 f_equal|try done]
  end.

Lemma sound_dur_handle env : sound (add_dur_handle env) (of_dur (w_dur_handle env)) 1.
Proof.
  intros b c b' c' cs Hr Hg. unfold add_dur_handle, with_dur. destruct c as [|l [d|]|]; try done.
  cbn [of_dur guid_ok] in *. unfold w_dur_handle. destruct (_ || _).
  - add_ctx 32%nat; [by rewrite take_ge by (rewrite Hl; lia)|].
    cbn. do 3 f_equal. unfold dur_view. cbn. do 2 f_equal. unfold clear_bits at 2. rewrite Z.lnot_0, Z.land_m1_r.
    apply clear_lor.
  - apply (add_one (Ctx SMB2_CREATE_DURABLE_HANDLE_REQUEST 24 16 (put64 0 ++ put64 0))); try done. ctx_wf.
Qed.

Lemma sound_dur_reconnect env : sound (add_dur_reconnect env) (of_dur (w_dur_reconnect env)) 1.
Proof.
  intros b c b' c' cs Hr Hg. unfold add_dur_reconnect, with_dur. destruct c as [|l [d|]|]; try done.
  cbn [of_dur guid_ok] in *. unfold w_dur_reconnect.
  destruct (Fid.smb_fid_get_kernel_fid _ _ _) as [[e sf] s]. cbn [fst snd].
  destruct (e =? 0), sf as [sf|]; try done. destruct (has (e_misc_flags env) _).
  - add_ctx 40%nat. subst x. cbn [x_data]. rewrite !app_assoc. rewrite take_app_length'; [done|].
    unfold put32, put64. rewrite !length_app, !length_le_bytes. lia.
  - by add_ctx 16%nat.
Qed.

Lemma sound_lease env flags : sound (add_lease env flags) (of_lease (w_lease env flags)) 1.
Proof.
  intros b c b' c' cs Hr Hg. unfold add_lease. destruct c as [|[l|] d|]; try done.
  cbn [of_lease]. unfold w_lease. destruct (_ && _).
  { intros [= <- <-]. exists []. rewrite app_nil_r. split_and!; try done. cbn. lia. }
  destruct (_ || _).
  - unfold lease_v2. destruct (negb _ && negb _); by add_ctx 56%nat.
  - unfold lease_v1. by add_ctx 32%nat.
Qed.

(** What is said depends on what is alike only. *)
Lemma has_view d d' m : Z.land SMB2_DURABLE_HANDLE_V2 m = 0 -> dur_view d' = dur_view d ->
  has (dur_flags d') m = has (dur_flags d) m.
Proof.
  intros Hm [= _ Hf _]. by rewrite (has_clear_v2 (dur_flags d')), (has_clear_v2 (dur_flags d)), Hf.
Qed.

Lemma dur_handle_alike env c c' : ctx_view c' = ctx_view c -> of_dur (w_dur_handle env) c' = of_dur (w_dur_handle env) c.
Proof.
  destruct c as [|l [d|]|], c' as [|l' [d'|]|]; try done. intros [= _ Hf Hv Hg].
  assert (dur_view d' = dur_view d) as Hd by (unfold dur_view; congruence).
  cbn [of_dur]. unfold w_dur_handle. by rewrite !(fun m Hm => has_view d d' m Hm Hd), Hg by done.
Qed.

Lemma dur_reconnect_alike env c c' :
  ctx_view c' = ctx_view c -> of_dur (w_dur_reconnect env) c' = of_dur (w_dur_reconnect env) c.
Proof.
  destruct c as [|l [d|]|], c' as [|l' [d'|]|]; try done. intros [= _ Hf Hv Hg].
  assert (dur_view d' = dur_view d) as Hd by (unfold dur_view; congruence).
  cbn [of_dur]. unfold w_dur_reconnect. by rewrite !(fun m Hm => has_view d d' m Hm Hd), Hg, Hf by done.
Qed.

Lemma lease_alike env flags c c' : ctx_view c' = ctx_view c -> of_lease (w_lease env flags) c' = of_lease (w_lease env flags) c.
Proof.
  destruct c as [|[l|] d|], c' as [|[l'|] d'|]; try done. intros [= H1 H2 H3 H4 H5 H6 Hd].
  assert (forall m, Z.land SMB2_DURABLE_HANDLE_V2 m = 0 -> dur_has d' m = dur_has d m) as Hh.
  { intros m Hm. destruct d, d'; try done. cbn. injection Hd as Hf Hv Hg. apply has_view; [done|].
    unfold dur_view. congruence. }
  cbn [of_lease]. unfold w_lease. rewrite !Hh by done. unfold lease_v1, lease_v2. by rewrite H1, H2, H3, H4, H5, H6.
Qed.

Lemma sound_weaken p w v n m : sound p w n -> (n <= m)%nat -> (forall c, w c = v c) -> sound p v m.
Proof.
  intros Hp Hn Hw b c b' c' cs Hr Hg E. destruct (Hp _ _ _ _ _ Hr Hg E) as (new & ? & ? & ? & ? & ? & ?).
  exists new. rewrite <- Hw. split_and!; try done. lia.
Qed.

Lemma sound_all env flags : sound (all_contexts env flags) (wanted env flags) 8.
Proof.
  eapply sound_weaken; [|reflexivity|intros c; reflexivity]. unfold all_contexts, wanted.
  repeat (apply (sound_seq _ _ _ _ 1); [apply sound_when| |]).
  all: try (intros c c' Hc; cbv beta; unfold if_flag; rewrite ?(dur_handle_alike _ _ _ Hc), ?(dur_reconnect_alike _ _ _ Hc), ?(lease_alike _ _ _ _ Hc); done).
  - apply sound_plain; [ctx_wf|done|done].
  - apply sound_resolve_id.
  - unfold add_time_warp, w_time_warp. generalize (Replies.smb_time_local2NT (Replies.Ts (e_snapshot env) 0) (e_fat env)).
    intros v. apply sound_plain; [apply (ctx_wf_of _ _ _ 8); [done|by split|lia|done|lia]|done|done].
  - apply sound_plain; [ctx_wf|done|done].
  - apply sound_plain; [ctx_wf|done|done].
  - apply sound_dur_handle.
  - apply sound_dur_reconnect.
  - apply (sound_when _ _ _ (of_lease _)), sound_lease.
Qed.

(** ** What a server reads *)

(** One context of a chain: the offset of the next one, its name and its data. *)
Definition read_context : parser unit (Z * (Z * list Z)) :=
  next ← get_le 4;
  name_offset ← get_le 2;
  name_len ← get_le 2;
  _ ← get_le 2;
  data_offset ← get_le 2;
  data_len ← get_le 4;
  if negb (name_offset =? 16) || negb (name_len =? 4) then fail EINVAL
  else
    name ← get_be 4;
    if data_len =? 0 then mret (next, (name, []))
    else
      skip (data_offset - 20);;
      data ← get_mem (Z.to_nat data_len);
      mret (next, (name, data)).

Fixpoint read_contexts (fuel : nat) : parser unit (list (Z * list Z)) :=
  match fuel with
  | O => fail EINVAL
  | S fuel =>
      '(next, c) ← shadow read_context;
      if next =? 0 then mret [c]
      else if negb (next mod 8 =? 0) then fail EINVAL
      else skip next;; cs ← read_contexts fuel; mret (c :: cs)
  end.

Lemma eval_read_context next c rest : fits 4 next -> ctx_wf c ->
  exists bs, eval read_context (ctx_bytes next c ++ rest) tt = Some (inr (next, said c), bs, tt).
Proof.
  intros Hn (Hnm & Hsz & _ & Hl & Ho). unfold read_context, ctx_bytes, put16, put32. rewrite <- !app_assoc.
  assert (fits 2 (x_off c)) by (unfold fits; destruct Ho as [->|[-> _]]; lia).
  assert (fits 4 (x_len c)) by (unfold fits, x_size in *; lia).
  do 6 (rewrite eval_bind, eval_get_le by done; cbv beta iota). cbn [Z.eqb Pos.eqb negb orb].
  rewrite eval_bind, eval_get_be by done. cbv beta iota. unfold said.
  destruct (Z.eqb_spec (x_len c) 0) as [->|Hz]; [by eexists|].
  destruct Ho as [->|[_ ?]]; [|done]. rewrite eval_bind, (eval_skip _ (le_bytes 4 0)) by done. cbv beta iota.
  rewrite eval_bind. unfold get_mem. cbn [eval]. rewrite (proj2 (Nat.leb_le _ _)) by (rewrite length_app; lia).
  rewrite take_app_le by lia. by eexists.
Qed.

Lemma eval_read_contexts fuel cs c rest : Forall ctx_wf (cs ++ [c]) -> (length cs < fuel)%nat ->
  exists bs, eval (read_contexts fuel) (linked cs ++ ctx_bytes 0 c ++ rest) tt = Some (inr (map said (cs ++ [c])), bs, tt).
Proof.
  revert fuel. induction cs as [|x cs IH]; intros [|fuel] Hw Hf; try (cbn in Hf; lia); cbn [read_contexts]; rewrite eval_bind.
  - destruct (eval_read_context 0 c rest) as [bs E]; [done|by inversion Hw|]. 
    change (linked [] ++ ctx_bytes 0 c ++ rest) with (ctx_bytes 0 c ++ rest).
    unfold shadow. cbn [eval]. rewrite E. by eexists.
  - apply list.Forall_cons in Hw as [Hx Hw]. 
    change (linked (x :: cs)) with (ctx_bytes (Z.of_nat (x_size x)) x ++ linked cs). rewrite <- app_assoc.
    destruct (eval_read_context (Z.of_nat (x_size x)) x (linked cs ++ ctx_bytes 0 c ++ rest)) as [bs E];
      [unfold fits; destruct Hx as (_ & ? & _); lia|done|].
    unfold shadow. cbn [eval]. rewrite E. cbn [eval].
    destruct (Z.eqb_spec (Z.of_nat (x_size x)) 0); [unfold x_size in *; lia|].
    destruct Hx as (_ & _ & -> & _). cbn [Z.eqb negb].
    rewrite eval_bind, eval_skip by (by rewrite length_ctx_bytes). cbv beta iota. rewrite eval_bind.
    destruct (IH fuel Hw) as [bs' ->]; [cbn in Hf; lia|]. by eexists.
Qed.

Record create_view := View {
  v_oplock : Z; v_impersonate : Z; v_access : Z; v_attributes : Z; v_share : Z; v_disposition : Z; v_options : Z;
  v_name : list Z; v_contexts : list (Z * list Z)
}.

(** The contexts have to start at a boundary of 8 bytes and to lie in the announced length. *)
Definition read_tail (coff clen : Z) : parser unit (list (Z * list Z)) :=
  if clen =? 0 then mret []
  else if negb (coff mod 8 =? 0) then fail EINVAL
  else shadow (
    skip (coff - 120);;
    bs ← get_mem (Z.to_nat clen);
    match eval (read_contexts (length bs)) bs tt with
    | Some (inr cs, _, _) => mret cs
    | _ => fail EINVAL
    end).

Definition read_create : parser unit create_view :=
  check_size 57;;
  _ ← get_le 1;
  oplock ← get_le 1;
  impersonate ← get_le 4;
  _ ← get_le 8;
  _ ← get_le 8;
  access ← get_le 4;
  attributes ← get_le 4;
  share ← get_le 4;
  disp ← get_le 4;
  options ← get_le 4;
  noff ← get_le 2;
  nlen ← get_le 2;
  coff ← get_le 4;
  clen ← get_le 4;
  name ← shadow (skip (noff - 120);; get_mem (Z.to_nat nlen));
  contexts ← read_tail coff clen;
  mret (View oplock impersonate access attributes share disp options name contexts).

Lemma has_part x m k : Z.lor m k = m -> has x m = false -> has x k = false.
Proof. intros <-. rewrite has_lor_r. by intros [_ ?]%orb_false_elim. Qed.

Lemma wanted_none env flags c : wants_contexts flags = false -> wanted env flags c = [].
Proof.
  intros Hf. unfold wanted, if_flag. unfold wants_contexts in Hf. by rewrite !(fun k Hk => has_part flags _ k Hk Hf) by done.
Qed.

Lemma length_linked cs : Forall ctx_wf cs -> (length (linked cs) <= 80 * length cs)%nat.
Proof.
  induction 1 as [|c cs (_ & Hs & _) _ IH]; [done|].
  change (linked (c :: cs)) with (ctx_bytes (Z.of_nat (x_size c)) c ++ linked cs).
  rewrite length_app, length_ctx_bytes. cbn [length]. lia.
Qed.

(** The contexts of a request as the server reads them, behind a name of [n] bytes ([before]: name and what stands for an
    empty one). *)
Lemma read_tail_contexts env flags n c bytes off len c' (before : list Z) :
  0 <= n < 2 ^ 16 -> guid_ok c -> Z.of_nat (length before) = n + (if n =? 0 then 2 else 0) ->
  smb2_smb_add_create_contexts env flags 120 n c = Some (inr (bytes, off, len), c') ->
  fits 4 off /\ fits 4 len /\
  eval (read_tail off len) (before ++ bytes) tt = Some (inr (wanted env flags c), before ++ bytes, tt).
Proof.
  intros Hn Hg Hb. unfold smb2_smb_add_create_contexts.
  destruct (wants_contexts flags) eqn:Ew; cbn [negb]; [|intros [= <- <- <- <-]; by rewrite wanted_none].
  set (o := 120 + n + (if n =? 0 then 2 else 0)). set (pad := if o mod 8 =? 0 then 0 else 8 - o mod 8).
  assert (120 <= o < 2 ^ 17) as Ho by (subst o; case_match; lia).
  assert (0 <= pad < 8 /\ (o + pad) mod 8 = 0) as [Hp Ha].
  { pose proof (Z.mod_pos_bound o 8). subst pad. destruct (Z.eqb_spec (o mod 8) 0) as [E|E]; [by rewrite Z.add_0_r|].
    split; [lia|]. rewrite <- Zplus_mod_idemp_l. replace (o mod 8 + (8 - o mod 8)) with 8 by lia. done. }
  assert (Z.of_nat (length before) = o - 120) as Hbo by (subst o; lia). clearbody o pad.
  destruct (all_contexts env flags no_contexts c) as [[[e|b] c1]|] eqn:E; [done| |done]. intros [= <- <- <- <-].
  destruct (sound_all env flags _ _ _ _ [] repr_nil Hg E) as (new & Hr & Hw & Hs & Hl & _). cbn [app] in Hr.
  unfold u32 at 1 2. rewrite !Z.mod_small by lia. rewrite <- Hs. split; [unfold fits; lia|].
  inversion Hr as [|cs c2]; subst; [done|]. cbn [c_bytes c_len].
  pose proof (proj1 (list.Forall_app _ _ _) Hw) as [Hw1 Hw2].
  assert (0 < length (linked cs ++ ctx_bytes 0 c2) < 1000)%nat as Hlen.
  { rewrite length_app, length_ctx_bytes. pose proof (length_linked cs Hw1). rewrite length_app in Hl. cbn in Hl.
    destruct (proj1 (list.Forall_singleton _ _) Hw2) as (_ & ? & _). unfold x_size in *. lia. }
  set (bytes := linked cs ++ ctx_bytes 0 c2) in *. unfold u32. rewrite !Z.mod_small by lia. split; [unfold fits; lia|].
  unfold read_tail. destruct (Z.eqb_spec (Z.of_nat (length bytes)) 0) as [|_]; [lia|]. rewrite Ha. cbn [Z.eqb negb].
  unfold shadow. cbn [eval]. rewrite eval_bind, app_assoc, eval_skip by (rewrite length_app, length_replicate; lia).
  cbv beta iota. rewrite eval_bind, Nat2Z.id, <- (app_nil_r bytes), eval_get_mem by (by rewrite app_nil_r). cbv beta iota.
  rewrite app_nil_r. destruct (eval_read_contexts (length bytes) cs c2 []) as [bs Ee].
  { done. }
  { subst bytes. rewrite length_app, length_ctx_bytes. unfold x_size.
    rewrite length_app in Hl. cbn in Hl. lia. }
  rewrite app_nil_r in Ee. fold bytes in Ee. by rewrite Ee.
Qed.

Lemma eval_skip0 {X} bs (x : X) : eval (skip 0) bs x = Some (inr tt, bs, x).
Proof. exact (eval_skip 0 [] bs x eq_refl). Qed.

(** The name that is sent. *)
Definition name_of (a : create_args) (flags : Z) : list Z :=
  match put_name a flags with inr (name, _, _) => name | inl _ => [] end.

Definition args_wf (a : create_args) : Prop :=
  fits 4 (impersonate_level a) /\ fits 4 (desired_access a) /\ fits 4 (file_attributes a) /\ fits 4 (share_access a) /\
  fits 4 (disposition a) /\ fits 4 (create_options a).

Lemma put_name_spec a flags name n hdr : put_name a flags = inr (name, n, hdr) ->
  Z.of_nat (length name) < 2 ^ 16 -> n = Z.of_nat (length name).
Proof.
  unfold put_name, u16. repeat case_match; intros [= <- <- <-] Hl; try done; rewrite Z.mod_small; lia.
Qed.

Lemma oplock_of_fits a x : fits 1 (k_oplock_level x) -> fits 1 (oplock_of a x).
Proof. unfold oplock_of. by case_match. Qed.

(** C16: a server that reads the request of a create by the layout of the protocol finds its fields, its name, and exactly
    the contexts that the flags ask for, in order, in a chain that starts at a boundary of 8 bytes, has its parts at
    such boundaries and lies in the announced length. *)
Theorem create_request_read a x body hdr x' :
  create_request a x = Some (inr (body, hdr), x') -> args_wf a -> fits 1 (k_oplock_level x) ->
  guid_ok (create_contextp (c_rq (k_c x))) -> Z.of_nat (length (name_of a (flags_of x'))) < 2 ^ 16 ->
  exists rest,
  eval read_create body tt =
  Some (inr (View (oplock_of a x) (impersonate_level a) (desired_access a) (file_attributes a) (share_access a)
               (disposition a) (create_options a) (name_of a (flags_of x'))
               (wanted (env_of a x) (flags_of x') (create_contextp (c_rq (k_c x))))), rest, tt).
Proof.
  unfold create_request. set (x1 := with_c _ x). intros E (H1 & H2 & H3 & H4 & H5 & H6) Hop%(oplock_of_fits a) Hg.
  destruct (put_name a (flags_of x1)) as [e|[[name n] h]] eqn:En; [done|].
  destruct (smb2_smb_add_create_contexts _ _ _ _ _) as [[[e|[[cs off] len]] c]|] eqn:Ec; [done| |done].
  injection E as <- <- <-. change (flags_of (with_c _ x1)) with (flags_of x1). unfold name_of. rewrite En. intros Hl.
  pose proof (put_name_spec _ _ _ _ _ En Hl) as ->.
  set (before := name ++ (if Z.of_nat (length name) =? 0 then put16 0 else [])).
  edestruct (read_tail_contexts (env_of a x1)) as (Hoff & Hlen & Hr); [|exact Hg| |exact Ec|]; [lia|instantiate (1 := before)|].
  { subst before. rewrite length_app. case_match; [change (length (put16 0)) with 2%nat|cbn [length]]; lia. }
  unfold read_create, create_body, put16, put32, put64. rewrite eval_bind, eval_check_size by done. cbv beta iota.
  do 14 (rewrite eval_bind, eval_get_le by (first [done|unfold fits; lia]); cbv beta iota).
  rewrite eval_bind. unfold shadow at 1. cbn [eval]. rewrite eval_bind, (eval_skip0 (X := unit)). cbv beta iota.
  rewrite Nat2Z.id, eval_get_mem by done. cbv beta iota. rewrite eval_bind.
  rewrite (app_assoc name). fold (put16 0). fold before. rewrite Hr. by eexists.
Qed.

(** ** The exchange *)

Definition leasing (x : create_state) : bool := has (k_active_capabilities x) SMB2_GLOBAL_CAP_LEASING.
Definition reconnects (l : list sent) : nat := length (filter (fun s => st_reconnected s = true) l).

Lemma create_request_leasing a x r x' : create_request a x = Some (r, x') -> leasing x' = leasing x.
Proof. unfold create_request. repeat case_match; intros; simplify_eq; done. Qed.

Lemma reconnects_cons s l : reconnects (s :: l) = ((if st_reconnected s then 1 else 0) + reconnects l)%nat.
Proof. unfold reconnects. rewrite filter_cons. destruct (st_reconnected s); by repeat case_decide. Qed.

(** A create is sent again only after a reconnect, and once more when leases are in use and the server answers with
    an oplock that is neither a lease nor none; leases are not turned on by it. *)
Theorem create_retries_bounded `{Kernel} a l x e rqs x' :
  resend a l x = Some (e, rqs, x') ->
  (length rqs + (if leasing x' then 1 else 0) <= reconnects l + (if leasing x then 2 else 1))%nat.
Proof.
  revert x e rqs x'. induction l as [|s l IH]; intros x e rqs x'; cbn [resend];
    destruct (create_request a x) as [[[e1|rq] x1]|] eqn:Er; try done;
    apply create_request_leasing in Er; rewrite <- Er; clear Er x.
  1, 2: intros [= <- <- <-]; cbn; case_match; lia.
  rewrite reconnects_cons.
  assert (forall y e2 rqs2 x2, match resend a l y with Some (e, rqs, x) => Some (e, rq :: rqs, x) | None => None end
            = Some (e2, rqs2, x2) ->
          (length rqs2 + (if leasing x2 then 1 else 0) <= 1 + (reconnects l + (if leasing y then 2 else 1)))%nat) as Hagain.
  { intros y e2 rqs2 x2. destruct (resend a l y) as [[[e3 rqs3] x3]|] eqn:E3; [|done]. intros [= <- <- <-].
    apply IH in E3. cbn. lia. }
  destruct (Z.eqb_spec (st_error s) 0) as [He|He]; cbn [negb].
  - destruct (eval _ _ _) as [[[[e2|u] bs] c]|]; [intros [= <- <- <-]| |done].
    { change (leasing (with_c _ x1)) with (leasing x1). cbn. repeat case_match; lia. }
    cbn zeta. change (has (k_active_capabilities (with_c (fun _ => c) x1)) SMB2_GLOBAL_CAP_LEASING) with (leasing x1).
    destruct (leasing x1 && _ && _) eqn:Ec.
    + apply andb_prop in Ec as [[-> _]%andb_prop _]. case_match.
      * intros [= <- <- <-]. unfold leasing. cbn. rewrite has_clear_self. lia.
      * intros E%Hagain. unfold leasing at 2 in E. cbn [k_active_capabilities] in E. rewrite has_clear_self in E. lia.
    + intros [= <- <- <-]. change (leasing (with_c _ x1)) with (leasing x1). cbn. repeat case_match; lia.
  - destruct (st_reconnected s); [intros E%Hagain; revert E; change (leasing (CrState _ _ _ _)) with (leasing x1); lia|].
    intros [= <- <- <-]. cbn. repeat case_match; lia.
Qed.

(** * The request of a create: examples, and where the code differs from what it means *)

Definition open_kernel : Kernel := {|
  smbfs_ntwrkname_tolocal := Some; smb_convert_network_to_path := inr; malloc_ok := fun _ => true; malloc_fid_node := true
|}.

(** A file that is opened with a durable handle, a lease and the query of the access. *)
Definition open_args : create_args :=
  Args 2 0x120089 0 7 1 0x40 true (inr [0x61; 0; 0x62; 0]) [] (ChildOf 0x1f01ff) 0 0 false 0 0 false.
Definition open_ctx : create_ctx :=
  CtxDur (Some (Lease 0 7 0 1 2 0 0 0 0 0 0)) (Some (Dur SMB2_DURABLE_HANDLE_REQUEST 0 0 (replicate 16 9))).
Definition open_state : create_state :=
  CrState (CState Fid.empty_share
             (CreateRq (Z.lor SMB2_CREATE_DUR_HANDLE SMB2_CREATE_GET_MAX_ACCESS) open_ctx 0 0 0 0 0 0 0 0 0 0 0 0 0)
             (Ses 0x1800 0 0 0 0 [])) SMB2_OPLOCK_LEVEL_LEASE 0 SMB2_GLOBAL_CAP_LEASING.

Definition open_request : list Z := match create_request open_args open_state with Some (inr (b, _), _) => b | _ => [] end.
Definition open_after : create_state := match create_request open_args open_state with Some (_, x) => x | _ => open_state end.

Lemma open_request_eq : create_request open_args open_state = Some (inr (open_request, 0), open_after).
Proof. vm_compute. reflexivity. Qed.

Lemma create_request_read_witness : exists rest,
  eval read_create open_request tt =
  Some (inr (View 0xff 2 0x120089 0 7 1 0x40 [0x61; 0; 0x62; 0]
    [(SMB2_CREATE_QUERY_MAXIMAL_ACCESS, []); (SMB2_CREATE_DURABLE_HANDLE_REQUEST, replicate 16 0);
     (SMB2_CREATE_REQUEST_LEASE, lease_v1 (Lease 0 7 0 1 2 0 0 0 0 0 0) 7)]), rest, tt).
Proof.
  apply (create_request_read open_args open_state open_request 0 open_after).
  - exact open_request_eq.
  - repeat split; discriminate.
  - split; [discriminate|reflexivity].
  - reflexivity.
  - vm_compute. reflexivity.
Defined.

(** A reply with an exclusive oplock, and one without. *)
Definition reply_with (level : Z) : list Z := reply_bytes (Fields level 1 10 20 30 40 4096 100 0x80 0x1234 0x5678) [].

Definition open_answers : list sent := [Sent 0 false false (reply_with 8) 0; Sent 0 false false (reply_with 0) 0].
Definition exchange := @resend open_kernel open_args open_answers open_state.

Lemma exchange_ends : exists e rqs x', @resend open_kernel open_args open_answers open_state = Some (e, rqs, x').
Proof.
  assert (is_Some (@resend open_kernel open_args open_answers open_state)) as [[[e rqs] x'] E].
  { apply not_eq_None_Some. intros E. apply (f_equal (fun r => match r with None => true | _ => false end)) in E.
    revert E. vm_compute. discriminate. }
  by exists e, rqs, x'.
Qed.

Lemma create_retries_bounded_witness : exists e rqs x', @resend open_kernel open_args open_answers open_state = Some (e, rqs, x') /\
  (length rqs + (if leasing x' then 1 else 0) <= reconnects open_answers + (if leasing open_state then 2 else 1))%nat.
Proof.
  destruct exchange_ends as (e & rqs & x' & E). exists e, rqs, x'. split; [exact E|].
  exact (@create_retries_bounded open_kernel open_args open_answers open_state e rqs x' E).
Defined.

(** Leasing is turned off and the file opened again without an oplock, but the request still has the context that asks
    for a lease, and the one for a durable handle, which needs it. *)
Theorem reopened_with_lease_context :
  match exchange with
  | Some (e, [_; (rq, _)], x') =>
      e = 0 /\ leasing x' = false /\
      match eval read_create rq tt with
      | Some (inr v, _, _) => v_oplock v = SMB2_OPLOCK_LEVEL_NONE /\
          (v_contexts v).*1 = [SMB2_CREATE_QUERY_MAXIMAL_ACCESS; SMB2_CREATE_DURABLE_HANDLE_REQUEST; SMB2_CREATE_REQUEST_LEASE]
      | _ => False
      end
  | _ => False
  end.
Proof. vm_compute. repeat split. Qed.
