(* ===== verification/Convert.v ===== *)
(** * Conversion of names

    [kernel/netsmb/smb_converter.c]: names and paths between UTF-8, which the filesystem has,
    and UTF-16 or code page 437, which servers have.

    A buffer is the list of its bytes.  The conversions between UTF-8 and UTF-16 of the kernel
    are the class [Utf]; BYTE_ORDER is little endian. *)
From S2P Require Import Prelude.
From Stdlib Require Sorted.
Import Errno.
Local Open Scope Z_scope.

Definition UTF_REVERSE_ENDIAN := 0x01.
Definition UTF_NO_NULL_TERM := 0x02.
Definition UTF_DECOMPOSED := 0x04.
Definition UTF_PRECOMPOSED := 0x08.
Definition UTF_SFM_CONVERSIONS := 0x20.
Definition SMB_UTF_SFM_CONVERSIONS := 0x20.
Definition SMB_FULLPATH_CONVERSIONS := 0x100.
Definition SMB_MAXFNAMELEN := 255.

(** ** Code page 437 *)

Definition cp437_to_ucs2 : list Z :=
  [0x00c7; 0x00fc; 0x00e9; 0x00e2; 0x00e4; 0x00e0; 0x00e5; 0x00e7; 0x00ea; 0x00eb; 0x00e8; 0x00ef;
   0x00ee; 0x00ec; 0x00c4; 0x00c5; 0x00c9; 0x00e6; 0x00c6; 0x00f4; 0x00f6; 0x00f2; 0x00fb; 0x00f9;
   0x00ff; 0x00d6; 0x00dc; 0x00a2; 0x00a3; 0x00a5; 0x20a7; 0x0192; 0x00e1; 0x00ed; 0x00f3; 0x00fa;
   0x00f1; 0x00d1; 0x00aa; 0x00ba; 0x00bf; 0x2310; 0x00ac; 0x00bd; 0x00bc; 0x00a1; 0x00ab; 0x00bb;
   0x2591; 0x2592; 0x2593; 0x2502; 0x2524; 0x2561; 0x2562; 0x2556; 0x2555; 0x2563; 0x2551; 0x2557;
   0x255d; 0x255c; 0x255b; 0x2510; 0x2514; 0x2534; 0x252c; 0x251c; 0x2500; 0x253c; 0x255e; 0x255f;
   0x255a; 0x2554; 0x2569; 0x2566; 0x2560; 0x2550; 0x256c; 0x2567; 0x2568; 0x2564; 0x2565; 0x2559;
   0x2558; 0x2552; 0x2553; 0x256b; 0x256a; 0x2518; 0x250c; 0x2588; 0x2584; 0x258c; 0x2590; 0x2580;
   0x03b1; 0x00df; 0x0393; 0x03c0; 0x03a3; 0x03c3; 0x00b5; 0x03c4; 0x03a6; 0x0398; 0x03a9; 0x03b4;
   0x221e; 0x03c6; 0x03b5; 0x2229; 0x2261; 0x00b1; 0x2265; 0x2264; 0x2320; 0x2321; 0x00f7; 0x2248;
   0x00b0; 0x2219; 0x00b7; 0x221a; 0x207f; 0x00b2; 0x25a0; 0x00a0].

Definition cp437_from_ucs2 : list (Z * Z) :=
  [(0x00a0, 0xff); (0x00a1, 0xad); (0x00a2, 0x9b); (0x00a3, 0x9c); (0x00a5, 0x9d); (0x00aa, 0xa6); (0x00ab, 0xae); (0x00ac, 0xaa);
   (0x00b0, 0xf8); (0x00b1, 0xf1); (0x00b2, 0xfd); (0x00b5, 0xe6); (0x00b7, 0xfa); (0x00ba, 0xa7); (0x00bb, 0xaf); (0x00bc, 0xac);
   (0x00bd, 0xab); (0x00bf, 0xa8); (0x00c4, 0x8e); (0x00c5, 0x8f); (0x00c6, 0x92); (0x00c7, 0x80); (0x00c9, 0x90); (0x00d1, 0xa5);
   (0x00d6, 0x99); (0x00dc, 0x9a); (0x00df, 0xe1); (0x00e0, 0x85); (0x00e1, 0xa0); (0x00e2, 0x83); (0x00e4, 0x84); (0x00e5, 0x86);
   (0x00e6, 0x91); (0x00e7, 0x87); (0x00e8, 0x8a); (0x00e9, 0x82); (0x00ea, 0x88); (0x00eb, 0x89); (0x00ec, 0x8d); (0x00ed, 0xa1);
   (0x00ee, 0x8c); (0x00ef, 0x8b); (0x00f1, 0xa4); (0x00f2, 0x95); (0x00f3, 0xa2); (0x00f4, 0x93); (0x00f6, 0x94); (0x00f7, 0xf6);
   (0x00f9, 0x97); (0x00fa, 0xa3); (0x00fb, 0x96); (0x00fc, 0x81); (0x00ff, 0x98); (0x0192, 0x9f); (0x0393, 0xe2); (0x0398, 0xe9);
   (0x03a3, 0xe4); (0x03a6, 0xe8); (0x03a9, 0xea); (0x03b1, 0xe0); (0x03b4, 0xeb); (0x03b5, 0xee); (0x03c0, 0xe3); (0x03c3, 0xe5);
   (0x03c4, 0xe7); (0x03c6, 0xed); (0x207f, 0xfc); (0x20a7, 0x9e); (0x2219, 0xf9); (0x221a, 0xfb); (0x221e, 0xec); (0x2229, 0xef);
   (0x2248, 0xf7); (0x2261, 0xf0); (0x2264, 0xf3); (0x2265, 0xf2); (0x2310, 0xa9); (0x2320, 0xf4); (0x2321, 0xf5); (0x2500, 0xc4);
   (0x2502, 0xb3); (0x250c, 0xda); (0x2510, 0xbf); (0x2514, 0xc0); (0x2518, 0xd9); (0x251c, 0xc3); (0x2524, 0xb4); (0x252c, 0xc2);
   (0x2534, 0xc1); (0x253c, 0xc5); (0x2550, 0xcd); (0x2551, 0xba); (0x2552, 0xd5); (0x2553, 0xd6); (0x2554, 0xc9); (0x2555, 0xb8);
   (0x2556, 0xb7); (0x2557, 0xbb); (0x2558, 0xd4); (0x2559, 0xd3); (0x255a, 0xc8); (0x255b, 0xbe); (0x255c, 0xbd); (0x255d, 0xbc);
   (0x255e, 0xc6); (0x255f, 0xc7); (0x2560, 0xcc); (0x2561, 0xb5); (0x2562, 0xb6); (0x2563, 0xb9); (0x2564, 0xd1); (0x2565, 0xd2);
   (0x2566, 0xcb); (0x2567, 0xcf); (0x2568, 0xd0); (0x2569, 0xca); (0x256a, 0xd8); (0x256b, 0xd7); (0x256c, 0xce); (0x2580, 0xdf);
   (0x2584, 0xdc); (0x2588, 0xdb); (0x258c, 0xdd); (0x2590, 0xde); (0x2591, 0xb0); (0x2592, 0xb1); (0x2593, 0xb2); (0x25a0, 0xfe)].

(** A little-endian UTF-16 string as its units. *)
Fixpoint units (bs : list Z) : list Z :=
  match bs with a :: b :: r => le_value [a; b] :: units r | _ => [] end.
Definition utf16 (us : list Z) : list Z := concat (map (le_bytes 2) us).

Definition codepage_to_ucs2 (convtbl : list Z) (src : list Z) (bufsize : Z) : list Z :=
  let n := Z.to_nat (Z.min (Z.of_nat (length src)) (bufsize / 2)) in
  utf16 (map (fun byte => if byte <? 0x80 then byte else default 0 (convtbl !! Z.to_nat (byte - 0x80))) (take n src)).

(** The loop of [UCSTo8BitEncoding]: [p] and [q] as positions. *)
Fixpoint encoding_loop (fuel : nat) (theTable : list (Z * Z)) (p q character : Z) : option Z :=
  match fuel with
  | O => None
  | S k =>
      if q <? p then None else
      let divider := p + Z.shiftr (q - p) 1 in
      match theTable !! Z.to_nat divider with
      | None => None
      | Some (u, c) =>
          if character <? u then encoding_loop k theTable p (divider - 1) character
          else if u <? character then encoding_loop k theTable (divider + 1) q character
          else Some c
      end
  end.

Definition UCSTo8BitEncoding (theTable : list (Z * Z)) (numElem : nat) (character : Z) : option Z :=
  match theTable !! 0%nat, theTable !! (numElem - 1)%nat with
  | Some (lo, _), Some (hi, _) =>
      if (character <? lo) || (hi <? character) then None
      else encoding_loop (S numElem) theTable 0 (Z.of_nat numElem - 1) character
  | _, _ => None
  end.

Definition to_codepage (convtbl : list (Z * Z)) (character : Z) : Z :=
  if character <? 0x80 then character else default 0x5f (UCSTo8BitEncoding convtbl 128 character).

Definition ucs2_to_codepage (convtbl : list (Z * Z)) (src : list Z) (bufsize : Z) : list Z :=
  let n := Z.to_nat (Z.min (Z.of_nat (length src) / 2) bufsize) in
  map (to_codepage convtbl) (take n (units src)).

(** ** Names *)

(** [utf8_decodestr] and [utf8_encodestr] of the kernel: flags, the string, the size of the
    buffer; the error and what has been written to the buffer. *)
Class Utf := {
  utf8_decodestr : Z -> list Z -> Z -> Z * list Z;
  utf8_encodestr : Z -> list Z -> Z -> Z * list Z
}.

Section Names.
Context `{Utf}.

(** The error, or what is written to the buffer; the whole of [inbuf] is consumed. *)
Definition smb_convert_to_network (inbuf : list Z) (outbytesleft flags : Z) (usingUnicode : bool) : Z + list Z :=
  let outLeft := Z.land outbytesleft (Z.lnot 1) in
  let flags := Z.lor flags UTF_PRECOMPOSED in
  if usingUnicode then
    let '(error, out) := utf8_decodestr flags inbuf outLeft in
    if outLeft <? Z.of_nat (length out) then inl EINVAL
    else if negb (error =? 0) then inl error else inr out
  else
    let '(error, buf) := utf8_decodestr flags inbuf 512 in
    if negb (error =? 0) then inl error else
    let out := ucs2_to_codepage cp437_from_ucs2 buf outLeft in
    if outLeft <? Z.of_nat (length out) then inl EINVAL else inr out.

Definition smb_convert_from_network (inbuf : list Z) (outbytesleft flags : Z) (usingUnicode : bool) : Z + list Z :=
  let flags := Z.lor flags (Z.lor UTF_DECOMPOSED UTF_NO_NULL_TERM) in
  let '(error, out) :=
    if usingUnicode then utf8_encodestr flags inbuf outbytesleft
    else utf8_encodestr flags (codepage_to_ucs2 cp437_to_ucs2 inbuf (SMB_MAXFNAMELEN * 2 * 2)) outbytesleft in
  if negb (error =? 0) then inl error else inr out.

Definition smb_strtouni (src : list Z) (flags : Z) : list Z :=
  let '(error, out) := utf8_decodestr flags src (Z.of_nat (length src) * 2) in
  if negb (error =? 0) then [] else out.

Definition smb_unitostr (src : list Z) (maxlen flags : Z) : list Z :=
  let '(error, out) := utf8_encodestr flags src maxlen in
  if negb (error =? 0) then [] else out.

(** ** Strings in buffers *)

(** The bytes before the first NUL. *)
Fixpoint strnlen (s : list Z) (max : nat) {struct max} : nat :=
  match max, s with S m, x :: r => if x =? 0 then 0 else S (strnlen r m) | _, _ => 0 end.

Definition smb_utf16_strnsize (s : list Z) (n_bytes : nat) : nat := 2 * strnlen (units s) (n_bytes / 2).

(** The place of the first [ch]; [None] is NULL. *)
Fixpoint smb_strlchr (s : list Z) (ch : Z) (max : nat) {struct max} : option nat :=
  match max, s with
  | S m, x :: r => if x =? 0 then None else if x =? ch then Some 0%nat else S <$> smb_strlchr r ch m
  | _, _ => None
  end.
Definition smb_utf16_strlchr (s : list Z) (ch : Z) (max : nat) : option nat :=
  (fun k => 2 * k)%nat <$> smb_strlchr (units s) ch (max / 2).

(** ** Paths *)

(** What is written for a delimiter, and how much room is left. *)
Definition set_network_delimiter (ntwrk_delimiter delimiter_size resid : Z) : option (list Z * Z) :=
  if resid <? delimiter_size then None
  else Some (if delimiter_size =? 2 then le_bytes 2 ntwrk_delimiter else [ntwrk_delimiter], resid - delimiter_size).

(** The loop of [smb_convert_path_to_network] has ended: what was written, the room that is left,
    the rest of the path and the bytes of it. *)
Record walked := Walked { w_out : list Z; w_resid : Z; w_path : option (list Z); w_max : nat }.

Definition is_dots (c : list Z) : bool :=
  match c with [a] => a =? 0x2e | [a; b] => (a =? 0x2e) && (b =? 0x2e) | _ => false end.

Section ToNetwork.
Context (ntwrk_len_total ntwrk_delimiter flags : Z) (usingUnicode : bool).
Definition delimiter_size : Z := if usingUnicode then 2 else 1.

(** With what the buffer of the path holds afterwards. *)
Fixpoint path_to_network_loop (fuel : nat) (path : list Z) (max_path_len : nat) (resid : Z) (out : list Z) :
    option ((Z + walked) * list Z) :=
  match fuel with
  | O => None
  | S k =>
      if (resid =? 0) || Nat.eqb max_path_len 0 then Some (inr (Walked out resid (Some path) max_path_len), path) else
      let delimiter := smb_strlchr path 0x2f max_path_len in
      let cut := match delimiter with Some d => <[d := 0]> path | None => path end in
      let max1 := match delimiter with Some _ => (max_path_len - 1)%nat | None => max_path_len end in
      let component := take (strnlen cut max1) cut in
      match smb_convert_to_network component resid (if is_dots component then 0 else flags) usingUnicode with
      | inl error => Some (inl error, cut)
      | inr u =>
          let resid1 := resid - Z.of_nat (length u) in
          let max2 := (max1 - length component)%nat in
          match delimiter with
          | None => Some (inr (Walked (out ++ u) resid1 None max2), path)
          | Some d =>
              if ntwrk_len_total <? Z.of_nat (length (out ++ u)) + delimiter_size then Some (inl E2BIG, path) else
              match set_network_delimiter ntwrk_delimiter delimiter_size resid1 with
              | None => Some (inl E2BIG, path)
              | Some (ds, resid2) =>
                  '(r, rest) ← path_to_network_loop k (drop (S d) path) max2 resid2 (out ++ u ++ ds);
                  Some (r, take (S d) path ++ rest)
              end
          end
      end
  end.
End ToNetwork.

(** The error or the network path, and the buffer of the path.  The source reads [*path] before it looks at [max_path_len],
    in the test of the first delimiter and in the one after the loop: behind the last byte it finds a byte that is not part of
    the path, for which 0 stands here.  After the loop it has no influence, since [max_path_len] is 0 then. *)
Definition smb_convert_path_to_network (path : list Z) (ntwrk_len ntwrk_delimiter inflags : Z) (usingUnicode : bool) :
    option ((Z + list Z) * list Z) :=
  let flags := if has inflags SMB_UTF_SFM_CONVERSIONS then UTF_SFM_CONVERSIONS else 0 in
  let start :=
    if has inflags SMB_FULLPATH_CONVERSIONS && negb (default 0 (head path) =? 0x2f)
    then set_network_delimiter ntwrk_delimiter (delimiter_size usingUnicode) ntwrk_len
    else Some ([], ntwrk_len) in
  match start with
  | None => Some (inl E2BIG, path)
  | Some (out, resid) =>
      '(r, path') ← path_to_network_loop ntwrk_len ntwrk_delimiter flags usingUnicode (S (length path)) path
                      (length path) resid out;
      Some (match r with
            | inl error => inl error
            | inr w =>
                if match w_path w with
                   | Some p => negb (default 0 (head p) =? 0) && negb (Nat.eqb (w_max w) 0)
                   | None => false
                   end then inl E2BIG
                else if ntwrk_len <? w_resid w then inl E2BIG
                else inr (w_out w)
            end, path')
  end.

Section ToPath.
Context (ntwrk_delimiter flags : Z) (usingUnicode : bool).

(** The error or the path. *)
Fixpoint network_to_path_loop (fuel : nat) (network : list Z) (max_ntwrk_len : nat) (resid : Z) (out : list Z) :
    option ((Z + list Z) * list Z) :=
  match fuel with
  | O => None
  | S k =>
      if (resid =? 0) || Nat.eqb max_ntwrk_len 0 then Some (inr out, network) else
      let size := Z.to_nat (delimiter_size usingUnicode) in
      let delimiter := if usingUnicode then smb_utf16_strlchr network ntwrk_delimiter max_ntwrk_len
                       else smb_strlchr network ntwrk_delimiter max_ntwrk_len in
      let cut := match delimiter with Some d => splice d (replicate size 0) network | None => network end in
      let max1 := match delimiter with Some _ => (max_ntwrk_len - size)%nat | None => max_ntwrk_len end in
      let component_len := if usingUnicode then smb_utf16_strnsize cut max1 else strnlen cut max1 in
      match smb_convert_from_network (take component_len cut) resid flags usingUnicode with
      | inl error => Some (inl error, cut)
      | inr u =>
          let resid1 := resid - Z.of_nat (length u) in
          match delimiter with
          | None => Some (inr (out ++ u), network)
          | Some d =>
              if resid1 =? 0 then Some (inl E2BIG, network) else
              '(r, rest) ← network_to_path_loop k (drop (d + size) network) (max1 - component_len) (resid1 - 1)
                             (out ++ u ++ [0x2f]);
              Some (r, take (d + size) network ++ rest)
          end
      end
  end.
End ToPath.

Definition smb_convert_network_to_path (network : list Z) (path_len ntwrk_delimiter flags : Z) (usingUnicode : bool) :
    option ((Z + list Z) * list Z) :=
  network_to_path_loop ntwrk_delimiter flags usingUnicode (S (length network)) network (length network) path_len [].

(** [smb_put_dmem] ([smb_subr.c]) without the chain: the bytes of a name, converted in a buffer on
    the stack or in one of its own. *)
Definition dmem_bytes (malloc_ok : Z -> bool) (src : list Z) (flags : Z) (usingUnicode : bool) : Z + list Z :=
  let utf16InLen := Z.of_nat (length src) * 2 + 2 in
  if (512 <? utf16InLen) && negb (malloc_ok utf16InLen) then inl ENOMEM
  else smb_convert_to_network src (Z.max utf16InLen 512) flags usingUnicode.
End Names.

(** * Theorems *)

(** ** The search of the code page *)

(** What the table says of a character. *)
Definition table_lookup (t : list (Z * Z)) (character : Z) : option Z :=
  snd <$> List.find (fun e => fst e =? character) t.

Lemma table_lookup_spec t ch c : NoDup t.*1 -> table_lookup t ch = Some c <-> (ch, c) ∈ t.
Proof.
  unfold table_lookup. induction t as [|[u d] t IH]; cbn; intros Hnd.
  - split; [done|by intros ?%elem_of_nil].
  - apply list.NoDup_cons in Hnd as [Hu Hnd]. rewrite elem_of_cons. destruct (Z.eqb_spec u ch) as [->|Hne]; cbn.
    + split; [intros [= ->]; by left|]. intros [[= ->]|Hin]; [done|]. destruct Hu. apply list_elem_of_fmap. by exists (ch, c).
    + rewrite IH by done. split; [by right|]. intros [[= -> _]|]; [done|done].
Qed.

Section Search.
Context (t : list (Z * Z)) (Hs : Sorted.StronglySorted Z.lt t.*1).

Lemma sorted_keys i j u v c d : t !! i = Some (u, c) -> t !! j = Some (v, d) -> (i < j)%nat -> u < v.
Proof using Hs.
  clear -Hs. revert Hs i j. induction t as [|e l IH]; intros Hs i j Hi Hj Hij; [done|].
  cbn in Hs. apply Sorted.StronglySorted_inv in Hs as [Hs Hall]. destruct j as [|j]; [lia|]. change (l !! j = Some (v, d)) in Hj.
  destruct i as [|i]; [|by apply (IH Hs i j); [..|lia]].
  injection Hi as ->. cbn in Hall. apply (Forall_lookup_1 _ _ j v Hall).
  rewrite list_lookup_fmap, Hj. done.
Qed.

Lemma encoding_loop_spec fuel p q ch : 0 <= p -> q < Z.of_nat (length t) -> (Z.to_nat (q - p + 1) < fuel)%nat ->
  match encoding_loop fuel t p q ch with
  | Some c => exists i, t !! i = Some (ch, c)
  | None => forall i c, p <= Z.of_nat i <= q -> t !! i <> Some (ch, c)
  end.
Proof using Hs.
  revert p q. induction fuel as [|k IH]; intros p q Hp Hq Hf; [lia|]. cbn [encoding_loop].
  destruct (Z.ltb_spec q p) as [Hlt|Hle]; [intros i c ?; lia|].
  pose proof (Z.shiftr_div_pow2 (q - p) 1 ltac:(lia)) as Ed. change (2 ^ 1) with 2 in Ed. rewrite Ed.
  set (d := p + (q - p) / 2). assert (p <= d <= q) as Hd.
  { subst d. pose proof (Z.div_pos (q - p) 2). pose proof (Z.div_le_upper_bound (q - p) 2 (q - p)). lia. }
  destruct (lookup_lt_is_Some_2 t (Z.to_nat d)) as [[u c] Hu]; [lia|]. rewrite Hu.
  destruct (Z.ltb_spec ch u) as [Hlo|]; [|destruct (Z.ltb_spec u ch) as [Hhi|]].
  - specialize (IH p (d - 1) Hp ltac:(lia) ltac:(lia)). destruct (encoding_loop _ _ _ _ _); [done|].
    intros i c' Hi Hl. destruct (Z.lt_ge_cases (Z.of_nat i) d) as [|Hge]; [apply (IH i c'); [lia|done]|].
    destruct (Nat.eq_dec i (Z.to_nat d)) as [->|]; [rewrite Hu in Hl; injection Hl; lia|].
    pose proof (sorted_keys _ _ _ _ _ _ Hu Hl ltac:(lia)). lia.
  - specialize (IH (d + 1) q ltac:(lia) Hq ltac:(lia)). destruct (encoding_loop _ _ _ _ _); [done|].
    intros i c' Hi Hl. destruct (Z.lt_ge_cases d (Z.of_nat i)) as [|Hge]; [apply (IH i c'); [lia|done]|].
    destruct (Nat.eq_dec i (Z.to_nat d)) as [->|]; [rewrite Hu in Hl; injection Hl; lia|].
    pose proof (sorted_keys _ _ _ _ _ _ Hl Hu ltac:(lia)). lia.
  - exists (Z.to_nat d). rewrite Hu. do 2 f_equal. lia.
Qed.

Lemma sorted_nodup : NoDup t.*1.
Proof using Hs.
  apply list.NoDup_alt. intros i j x Hi Hj. rewrite list_lookup_fmap in Hi, Hj.
  destruct (t !! i) as [[u c]|] eqn:Ei; [|done]. destruct (t !! j) as [[v d]|] eqn:Ej; [|done].
  cbn in Hi, Hj. injection Hi as ->. injection Hj as ->.
  destruct (Nat.lt_trichotomy i j) as [Hlt|[Heq|Hlt]]; [|done|].
  - pose proof (sorted_keys _ _ _ _ _ _ Ei Ej Hlt). lia.
  - pose proof (sorted_keys _ _ _ _ _ _ Ej Ei Hlt). lia.
Qed.

Lemma encoding_is_lookup ch : t <> [] -> UCSTo8BitEncoding t (length t) ch = table_lookup t ch.
Proof using Hs.
  intros Hne. assert (0 < length t)%nat as Hl by (destruct t; [done|cbn; lia]). unfold UCSTo8BitEncoding.
  destruct (lookup_lt_is_Some_2 t 0 Hl) as [[lo c0] H0]. destruct (lookup_lt_is_Some_2 t (length t - 1)) as [[hi c1] H1]; [lia|].
  rewrite H0, H1.
  assert (forall i c, t !! i = Some (ch, c) -> lo <= ch <= hi) as Hrange.
  { intros i c Hi. pose proof (lookup_lt_Some _ _ _ Hi). split.
    - destruct i; [rewrite H0 in Hi; injection Hi; lia|]. pose proof (sorted_keys _ _ _ _ _ _ H0 Hi ltac:(lia)). lia.
    - destruct (Nat.eq_dec i (length t - 1)%nat) as [->|]; [rewrite H1 in Hi; injection Hi; lia|].
      pose proof (sorted_keys _ _ _ _ _ _ Hi H1 ltac:(lia)). lia. }
  assert (forall r, match r with Some c => exists i, t !! i = Some (ch, c) | None => forall i c, t !! i <> Some (ch, c) end ->
    r = table_lookup t ch) as Hr.
  { intros [c|] E; symmetry.
    - apply table_lookup_spec; [apply sorted_nodup|]. destruct E as [i Hi]. by eapply list_elem_of_lookup_2.
    - destruct (table_lookup t ch) as [c|] eqn:El; [|done]. apply table_lookup_spec in El; [|apply sorted_nodup].
      apply list_elem_of_lookup_1 in El as [i Hi]. by destruct (E i c). }
  apply Hr. destruct (Z.ltb_spec ch lo); [intros i c Hi; specialize (Hrange i c Hi); lia|].
  destruct (Z.ltb_spec hi ch); [intros i c Hi; specialize (Hrange i c Hi); lia|]. cbn [orb].
  pose proof (encoding_loop_spec (S (length t)) 0 (Z.of_nat (length t) - 1) ch ltac:(lia) ltac:(lia) ltac:(lia)) as E.
  destruct (encoding_loop _ _ _ _ _); [done|]. intros i c Hi. pose proof (lookup_lt_Some _ _ _ Hi).
  apply (E i c); [lia|done].
Qed.
End Search.

Fixpoint ascending (l : list Z) : bool :=
  match l with x :: (y :: _) as r => (x <? y) && ascending r | _ => true end.

Lemma ascending_sorted l : ascending l = true -> Sorted.StronglySorted Z.lt l.
Proof.
  intros Ha. apply Sorted.Sorted_StronglySorted; [exact Z.lt_trans|]. induction l as [|x [|y r] IH]; [by constructor..|].
  cbn in Ha. apply andb_prop in Ha as [Hx Hr]. constructor; [by apply IH|]. constructor. lia.
Qed.

(** C34: the binary search of the code page finds a character exactly if it is in the table, and then its byte. *)
Theorem codepage_search character :
  UCSTo8BitEncoding cp437_from_ucs2 128 character = table_lookup cp437_from_ucs2 character.
Proof. apply (encoding_is_lookup cp437_from_ucs2); [|done]. by apply ascending_sorted. Qed.

Lemma units_utf16 us : Forall (fun u => 0 <= u < 65536) us -> units (utf16 us) = us.
Proof.
  induction 1 as [|u us Hu _ IH]; [done|]. change (utf16 (u :: us)) with (le_bytes 2 u ++ utf16 us).
  change (le_bytes 2 u ++ utf16 us) with (u `mod` 256 :: (u / 256) `mod` 256 :: utf16 us). cbn [units]. f_equal; [|exact IH].
  change [u `mod` 256; (u / 256) `mod` 256] with (le_bytes 2 u). rewrite le_value_bytes. apply Z.mod_small. lia.
Qed.

Lemma length_utf16 us : length (utf16 us) = (2 * length us)%nat.
Proof. induction us as [|u us IH]; [done|]. unfold utf16 in *. cbn [map concat]. rewrite length_app, length_le_bytes, IH. cbn [length]. lia. Qed.

Definition from_codepage (byte : Z) : Z :=
  if byte <? 0x80 then byte else default 0 (cp437_to_ucs2 !! Z.to_nat (byte - 0x80)).

Lemma codepage_byte byte : is_byte byte -> 0 <= from_codepage byte < 65536 /\ to_codepage cp437_from_ucs2 (from_codepage byte) = byte.
Proof.
  intros Hb. assert (forallb (fun i => let b := Z.of_nat i in let u := from_codepage b in
      (0 <=? u) && (u <? 65536) && (to_codepage cp437_from_ucs2 u =? b)) (seq 0 256) = true) as E by (vm_compute; reflexivity).
  rewrite forallb_forall in E. specialize (E (Z.to_nat byte)). rewrite in_seq in E. unfold is_byte in Hb.
  specialize (E ltac:(lia)). cbn beta zeta in E. rewrite Z2Nat.id in E by lia. lia.
Qed.

(** Names in code page 437 that come from a server are written as they were when they go back, as long as they fit
    the buffers. *)
Theorem codepage_roundtrip bs size1 size2 : Forall is_byte bs -> 2 * Z.of_nat (length bs) <= size1 -> Z.of_nat (length bs) <= size2 ->
  ucs2_to_codepage cp437_from_ucs2 (codepage_to_ucs2 cp437_to_ucs2 bs size1) size2 = bs.
Proof.
  intros Hb H1 H2. unfold codepage_to_ucs2. rewrite Z.min_l by (apply Z.div_le_lower_bound; lia).
  rewrite Nat2Z.id, firstn_all. fold from_codepage.
  change (fun byte => if byte <? 0x80 then byte else default 0 (cp437_to_ucs2 !! Z.to_nat (byte - 0x80))) with from_codepage.
  unfold ucs2_to_codepage. rewrite units_utf16.
  2: { apply Forall_map. apply (list.Forall_impl _ _ _ Hb). intros b Hb1. by apply codepage_byte. }
  rewrite length_utf16, length_map, Nat2Z.inj_mul, Z.mul_comm, Z.div_mul, Z.min_l, Nat2Z.id by lia.
  rewrite take_ge by (rewrite length_map; lia). clear H1 H2. induction Hb as [|b bs Hb _ IH]; [done|]. cbn [map].
  rewrite IH. f_equal. by apply codepage_byte.
Qed.

(** ** Paths *)

Lemma strlchr_none s ch max : Forall (fun x => x <> 0 /\ x <> ch) s -> smb_strlchr s ch max = None.
Proof.
  intros Hs. revert max. induction Hs as [|x s [H0 H1] _ IH]; intros [|m]; cbn; try done.
  rewrite (proj2 (Z.eqb_neq _ _) H0), (proj2 (Z.eqb_neq _ _) H1), IH. done.
Qed.

Lemma strlchr_found s ch r max : Forall (fun x => x <> 0 /\ x <> ch) s -> ch <> 0 -> (length s < max)%nat ->
  smb_strlchr (s ++ ch :: r) ch max = Some (length s).
Proof.
  intros Hs Hc. revert max. induction Hs as [|x s [H0 H1] _ IH]; intros [|m] Hm; try (exfalso; cbn in Hm; lia); cbn [smb_strlchr app length] in *.
  - by rewrite (proj2 (Z.eqb_neq _ _) Hc), Z.eqb_refl.
  - rewrite (proj2 (Z.eqb_neq _ _) H0), (proj2 (Z.eqb_neq _ _) H1), IH by lia. done.
Qed.

Lemma strnlen_stop s r max : Forall (fun x => x <> 0) s -> (length s <= max)%nat ->
  (r = [] \/ head r = Some 0 \/ max = length s) -> strnlen (s ++ r) max = length s.
Proof.
  intros Hs. revert max. induction Hs as [|x s H0 _ IH]; intros [|m] Hm Hr; try (exfalso; cbn in Hm; lia); try done; cbn [strnlen app length] in *.
  - destruct r as [|y r]; [done|]. destruct Hr as [?|[[= ->]|Hr]]; [done|done|]. cbn in Hr. lia.
  - rewrite (proj2 (Z.eqb_neq _ _) H0), IH; [done|lia|]. destruct Hr as [?|[?|?]]; [by left|by right; left|right; right; cbn in *; lia].
Qed.

Lemma units_utf16_app us r : Forall (fun u => 0 <= u < 65536) us -> units (utf16 us ++ r) = us ++ units r.
Proof.
  induction 1 as [|u us Hu _ IH]; [done|]. change (utf16 (u :: us)) with (le_bytes 2 u ++ utf16 us). rewrite <- app_assoc.
  change (le_bytes 2 u ++ utf16 us ++ r) with (u `mod` 256 :: (u / 256) `mod` 256 :: utf16 us ++ r). cbn [units app].
  f_equal; [|exact IH].
  change [u `mod` 256; (u / 256) `mod` 256] with (le_bytes 2 u). rewrite le_value_bytes. apply Z.mod_small. lia.
Qed.

Lemma even_part x : Z.land x (Z.lnot 1) = 2 * (x / 2).
Proof.
  rewrite <- Z.ldiff_land. change 1 with (Z.ones 1). rewrite Z.ldiff_ones_r by lia.
  rewrite Z.shiftl_mul_pow2, Z.shiftr_div_pow2 by lia. change (2 ^ 1) with 2. lia.
Qed.

Lemma drop_sep {A} (c : list A) x r : drop (S (length c)) (c ++ x :: r) = r.
Proof. induction c as [|y c IH]; [done|exact IH]. Qed.
Lemma take_sep {A} (c : list A) x r : take (S (length c)) (c ++ x :: r) = c ++ [x].
Proof. induction c as [|y c IH]; [done|]. cbn [app length]. by rewrite firstn_cons, IH. Qed.

(** Names with a delimiter between them. *)
Fixpoint joined (sep : list Z) (l : list (list Z)) : list Z :=
  match l with [] => [] | [c] => c | c :: r => c ++ sep ++ joined sep r end.

Section Roundtrip.
Context `{Utf} (sep sflags bflags : Z) (Hsep : 0 < sep < 65536).

(** A name that the kernel converts there and back: in UTF-8 it is [c], in UTF-16 [u]. *)
Record name_ok (c u : list Z) : Prop := {
  no_slash : Forall (fun x => x <> 0 /\ x <> 0x2f) c;
  no_sep : Forall (fun x => 0 < x < 65536 /\ x <> sep) u;
  both_empty : c = [] <-> u = [];
  decodes : forall room, 2 * Z.of_nat (length u) <= room ->
    utf8_decodestr (Z.lor (if is_dots c then 0 else sflags) UTF_PRECOMPOSED) c room = (0, utf16 u);
  encodes : forall room, Z.of_nat (length c) <= room ->
    utf8_encodestr (Z.lor bflags (Z.lor UTF_DECOMPOSED UTF_NO_NULL_TERM)) (utf16 u) room = (0, c)
}.

Definition path_of (l : list (list Z * list Z)) : list Z := joined [0x2f] (map fst l).
Definition network_of (l : list (list Z * list Z)) : list Z := joined (le_bytes 2 sep) (map (fun e => utf16 (snd e)) l).

Lemma to_network_name c u room : name_ok c u -> 2 * Z.of_nat (length u) <= room ->
  smb_convert_to_network c room (if is_dots c then 0 else sflags) true = inr (utf16 u).
Proof using Type.
  intros Hn Hr. unfold smb_convert_to_network. rewrite even_part.
  rewrite (decodes _ _ Hn) by (pose proof (Z.div_le_lower_bound room 2 (Z.of_nat (length u))); lia).
  rewrite length_utf16, (proj2 (Z.ltb_ge _ _)); [done|]. pose proof (Z.div_le_lower_bound room 2 (Z.of_nat (length u))). lia.
Qed.

Lemma from_network_name c u room : name_ok c u -> Z.of_nat (length c) <= room ->
  smb_convert_from_network (utf16 u) room bflags true = inr c.
Proof using Type. intros Hn Hr. unfold smb_convert_from_network. by rewrite (encodes _ _ Hn). Qed.

Lemma count_names l : (length l <= S (length (path_of l)))%nat.
Proof using Type.
  unfold path_of. induction l as [|[c u] [|e l] IH]; [cbn; lia..|]. cbn [map joined fst] in *. rewrite !length_app. cbn [length] in *. lia.
Qed.
Lemma count_network l : (length l <= S (length (network_of l)))%nat.
Proof using Type.
  unfold network_of. induction l as [|[c u] [|e l] IH]; [cbn; lia..|]. cbn [map joined snd] in *.
  rewrite !length_app, length_le_bytes. cbn [length] in *. lia.
Qed.

Lemma path_nil l : Forall (uncurry name_ok) l -> path_of l = [] <-> network_of l = [].
Proof using Type.
  intros Hl. unfold path_of, network_of. destruct Hl as [|[c u] [|[c' u'] l] Hn _]; [done| |].
  - cbn [map joined fst snd]. rewrite (both_empty _ _ Hn). split; [by intros ->|]. intros E%(f_equal length). rewrite length_utf16 in E. by destruct u.
  - cbn [map joined fst snd]. split; intros E; apply app_eq_nil in E as [_ [E _]%app_eq_nil]; done.
Qed.

Lemma path_cons c u e l : path_of ((c, u) :: e :: l) = c ++ 0x2f :: path_of (e :: l).
Proof using Type. done. Qed.
Lemma network_cons c u e l : network_of ((c, u) :: e :: l) = utf16 u ++ le_bytes 2 sep ++ network_of (e :: l).
Proof using Type. done. Qed.

Lemma path_ended l : Forall (uncurry name_ok) l -> length (network_of l) = 0%nat \/ length (path_of l) = 0%nat ->
  path_of l = [] /\ network_of l = [].
Proof using Type. intros Hl Hz. pose proof (path_nil l Hl) as Hp. destruct Hz as [E|E]; apply nil_length_inv in E; clear -Hp E; tauto. Qed.

Lemma to_network_loop l fuel total resid out :
  Forall (uncurry name_ok) l -> l <> [] -> (length l <= fuel)%nat ->
  Z.of_nat (length (network_of l)) <= resid -> Z.of_nat (length out) + resid <= total ->
  exists w, path_to_network_loop total sep sflags true fuel (path_of l) (length (path_of l)) resid out
      = Some (inr w, path_of l) /\
    w_out w = out ++ network_of l /\ w_resid w <= resid /\
    (w_path w = None \/ w_path w = Some []).
Proof using Hsep.
  intros Hl Hne. revert fuel resid out. induction Hl as [|[c u] l Hn Hl IH]; [done|]. clear Hne.
  intros [|k] resid out Hk Hr Ht; [cbn in Hk; lia|]. cbn [path_to_network_loop].
  assert (Forall (fun x => x <> 0) c) as Hc0 by (apply (list.Forall_impl _ _ _ (no_slash _ _ Hn)); by intros ? []).
  destruct ((resid =? 0) || Nat.eqb (length (path_of ((c, u) :: l))) 0) eqn:E0.
  { destruct (path_ended ((c, u) :: l)) as [-> ->]; [by constructor|destruct (resid =? 0) eqn:E; [left; lia|by right; apply Nat.eqb_eq]|].
    eexists. split; [reflexivity|]. cbn. rewrite app_nil_r. split_and!; [done|lia|by right]. }
  cbn [uncurry] in Hn. destruct l as [|e l].
  - change (path_of [(c, u)]) with c. change (network_of [(c, u)]) with (utf16 u) in *.
    rewrite strlchr_none by apply (no_slash _ _ Hn).
    replace (strnlen c (length c)) with (length c).
    2: { pose proof (strnlen_stop c [] (length c) Hc0) as E. rewrite app_nil_r in E. symmetry. apply E; [lia|by left]. }
    rewrite firstn_all. rewrite (to_network_name _ _ _ Hn) by (rewrite length_utf16 in Hr; lia).
    eexists. split; [reflexivity|]. cbn [w_out w_resid w_path]. split_and!; [done|lia|by left].
  - rewrite path_cons. rewrite network_cons in *. rewrite !length_app, length_le_bytes, length_utf16 in Hr.
    rewrite (strlchr_found c 0x2f) by (try apply (no_slash _ _ Hn); rewrite ?length_app; cbn; lia).
    rewrite insert_app_r_alt, Nat.sub_diag by lia. cbn [list_insert insert].
    replace (length (c ++ 0x2f%Z :: path_of (e :: l)) - 1)%nat with (length c + length (path_of (e :: l)))%nat
      by (rewrite length_app; cbn [length]; lia).
    change (<[0%nat:=0]> (47 :: path_of (e :: l))) with (0 :: path_of (e :: l)).
    rewrite (strnlen_stop c) by first [done|lia|by right; left]. rewrite take_app_length.
    rewrite (to_network_name _ _ _ Hn) by lia. unfold delimiter_size.
    rewrite !length_app, length_utf16, (proj2 (Z.ltb_ge _ _)) by lia.
    unfold set_network_delimiter. rewrite (proj2 (Z.ltb_ge _ _)) by lia. cbn [Z.eqb Pos.eqb].
    replace (length c + length (path_of (e :: l)) - length c)%nat with (length (path_of (e :: l))) by lia.
    rewrite drop_sep, take_sep.
    destruct (IH ltac:(done) k (resid - Z.of_nat (2 * length u) - 2) (out ++ utf16 u ++ le_bytes 2 sep)) as (w & -> & Ew & Hw & Hp).
    { cbn in Hk |- *. lia. }
    { lia. }
    { rewrite !length_app, length_le_bytes, length_utf16. lia. }
    exists w. cbn [mbind option_bind]. rewrite <- app_assoc. split; [done|]. rewrite Ew, <- !app_assoc. split_and!; [done|lia|done].
Qed.

Lemma strlchr16_none u : Forall (fun x => 0 < x < 65536 /\ x <> sep) u ->
  smb_utf16_strlchr (utf16 u) sep (length (utf16 u)) = None.
Proof using Type.
  intros Hu. unfold smb_utf16_strlchr. rewrite units_utf16 by (apply (list.Forall_impl _ _ _ Hu); lia).
  rewrite strlchr_none; [done|]. apply (list.Forall_impl _ _ _ Hu). lia.
Qed.

Lemma strlchr16_found u r : Forall (fun x => 0 < x < 65536 /\ x <> sep) u ->
  smb_utf16_strlchr (utf16 u ++ le_bytes 2 sep ++ r) sep (length (utf16 u ++ le_bytes 2 sep ++ r)) = Some (length (utf16 u)).
Proof using Hsep.
  intros Hu. unfold smb_utf16_strlchr. change (le_bytes 2 sep ++ r) with (utf16 [sep] ++ r).
  rewrite !units_utf16_app by (repeat constructor; try apply (list.Forall_impl _ _ _ Hu); lia). cbn [app].
  rewrite strlchr_found; [cbn; by rewrite length_utf16|apply (list.Forall_impl _ _ _ Hu); lia|lia|].
  rewrite !length_app, !length_utf16. cbn [length]. apply Nat.div_le_lower_bound; lia.
Qed.

Lemma strnsize_stop u r max : Forall (fun x => 0 < x < 65536 /\ x <> sep) u -> (length (utf16 u) <= max)%nat ->
  (r = [] \/ exists r', r = 0 :: 0 :: r') -> smb_utf16_strnsize (utf16 u ++ r) max = length (utf16 u).
Proof using Type.
  intros Hu Hm Hr. unfold smb_utf16_strnsize. rewrite units_utf16_app by (apply (list.Forall_impl _ _ _ Hu); lia).
  rewrite length_utf16 in *. rewrite strnlen_stop; [done|apply (list.Forall_impl _ _ _ Hu); lia|apply Nat.div_le_lower_bound; lia|].
  destruct Hr as [->|[r' ->]]; [by left|by right; left].
Qed.

Lemma to_path_loop l fuel resid out :
  Forall (uncurry name_ok) l -> l <> [] -> (length l <= fuel)%nat -> Z.of_nat (length (path_of l)) <= resid ->
  network_to_path_loop sep bflags true fuel (network_of l) (length (network_of l)) resid out
    = Some (inr (out ++ path_of l), network_of l).
Proof using Hsep.
  intros Hl Hne. revert fuel resid out. induction Hl as [|[c u] l Hn Hl IH]; [done|]. clear Hne.
  intros [|k] resid out Hk Hr; [cbn in Hk; lia|]. cbn [network_to_path_loop].
  destruct ((resid =? 0) || Nat.eqb (length (network_of ((c, u) :: l))) 0) eqn:E0.
  { destruct (path_ended ((c, u) :: l)) as [-> ->]; [by constructor|destruct (resid =? 0) eqn:E; [right; lia|by left; apply Nat.eqb_eq]|].
    by rewrite app_nil_r. }
  cbn [uncurry] in Hn. pose proof (no_sep _ _ Hn) as Hu. destruct l as [|e l].
  - change (path_of [(c, u)]) with c in *. change (network_of [(c, u)]) with (utf16 u) in *.
    rewrite strlchr16_none by done. pose proof (strnsize_stop u [] (length (utf16 u)) Hu ltac:(lia) ltac:(by left)) as E.
    rewrite app_nil_r in E. rewrite E, firstn_all, (from_network_name _ _ _ Hn) by lia. done.
  - rewrite network_cons. rewrite path_cons in *. rewrite length_app in Hr. cbn [length] in Hr. rewrite strlchr16_found by done.
    change (Z.to_nat (delimiter_size true)) with 2%nat. change (replicate 2 0) with [0; 0].
    replace (splice (length (utf16 u)) [0; 0] (utf16 u ++ le_bytes 2 sep ++ network_of (e :: l)))
      with (utf16 u ++ [0; 0] ++ network_of (e :: l)).
    2: { pose proof (splice_mid (utf16 u) (le_bytes 2 sep) (network_of (e :: l)) [0; 0] 0 ltac:(cbn; lia)) as E.
         rewrite Nat.add_0_r in E. rewrite E. by rewrite splice_full. }
    replace (length (utf16 u ++ le_bytes 2 sep ++ network_of (e :: l)) - 2)%nat
      with (length (utf16 u) + length (network_of (e :: l)))%nat by (rewrite !length_app, length_le_bytes; lia).
    rewrite strnsize_stop by first [done|lia|by right; eexists]. rewrite take_app_length, (from_network_name _ _ _ Hn) by lia.
    rewrite (proj2 (Z.eqb_neq _ _)) by lia.
    replace (length (utf16 u) + length (network_of (e :: l)) - length (utf16 u))%nat with (length (network_of (e :: l))) by lia.
    assert (length (utf16 u ++ le_bytes 2 sep) = length (utf16 u) + 2)%nat as E2 by (by rewrite length_app, length_le_bytes).
    rewrite app_assoc, <- E2, drop_app_length, take_app_length.
    cbn [length] in Hk. rewrite IH by first [done|lia|cbn [length]; lia]. cbn [mbind option_bind]. by rewrite <- !app_assoc.
Qed.

(** C24: a path goes to a server and comes back as it was: its names are converted one by one and the delimiters
    exchanged; the buffers may be just as large as the results. *)
Theorem path_network_roundtrip l ntwrk_len path_len inflags :
  Forall (uncurry name_ok) l -> l <> [] -> has inflags SMB_FULLPATH_CONVERSIONS = false ->
  sflags = (if has inflags SMB_UTF_SFM_CONVERSIONS then UTF_SFM_CONVERSIONS else 0) ->
  Z.of_nat (length (network_of l)) <= ntwrk_len -> Z.of_nat (length (path_of l)) <= path_len ->
  smb_convert_path_to_network (path_of l) ntwrk_len sep inflags true = Some (inr (network_of l), path_of l) /\
  smb_convert_network_to_path (network_of l) path_len sep bflags true = Some (inr (path_of l), network_of l).
Proof using Hsep.
  intros Hl Hne Hfull Hs H1 H2. split.
  - unfold smb_convert_path_to_network. rewrite Hfull, <- Hs. cbn [andb].
    destruct (to_network_loop l (S (length (path_of l))) ntwrk_len ntwrk_len []) as (w & -> & Eo & Er & Ep); [done..| |done|cbn; lia|].
    { apply count_names. }
    cbn [mbind option_bind]. rewrite (proj2 (Z.ltb_ge _ _)) by done. rewrite Eo. destruct Ep as [->| ->]; done.
  - unfold smb_convert_network_to_path. rewrite to_path_loop; [done..| |done]. apply count_network.
Qed.
End Roundtrip.

(** ** Any path *)

Lemma strlchr_lt s ch max d : smb_strlchr s ch max = Some d -> (d < length s)%nat.
Proof.
  revert s d. induction max as [|m IH]; intros [|x s] d; cbn; try done. destruct (x =? 0); [done|].
  destruct (x =? ch); [intros [= <-]; lia|]. destruct (smb_strlchr s ch m) as [e|] eqn:E; [|done].
  intros [= <-]. specialize (IH _ _ E). lia.
Qed.

Section Bounds.
Context `{Utf}.

Lemma to_network_fits c room flags b u : 0 <= room -> smb_convert_to_network c room flags b = inr u -> Z.of_nat (length u) <= room.
Proof using Type.
  intros Hr. unfold smb_convert_to_network. rewrite even_part.
  pose proof (Z.div_mod room 2 ltac:(lia)). pose proof (Z.mod_pos_bound room 2 ltac:(lia)).
  destruct b.
  - destruct (utf8_decodestr _ _ _) as [e out]. destruct (Z.ltb_spec (2 * (room / 2)) (Z.of_nat (length out))); [done|].
    destruct (negb _); [done|]. intros [= <-]. lia.
  - destruct (utf8_decodestr _ _ _) as [e out]. destruct (negb _); [done|]. destruct (2 * (room / 2) <? _) eqn:E; [done|].
    intros [= <-]. lia.
Qed.

Lemma path_loop_fits total sep flags b fuel path max resid out :
  (length path < fuel)%nat -> 0 <= resid -> Z.of_nat (length out) + resid = total ->
  exists r path', path_to_network_loop total sep flags b fuel path max resid out = Some (r, path') /\
    length path' = length path /\
    match r with inl _ => True | inr w => Z.of_nat (length (w_out w)) + w_resid w = total /\ 0 <= w_resid w end.
Proof using Type.
  revert path max resid out. induction fuel as [|k IH]; intros path max resid out Hf Hr Ht; [lia|]. cbn [path_to_network_loop].
  destruct (_ || _); [by eexists _, _|].
  set (cut := match smb_strlchr path 0x2f max with Some d => <[d := 0]> path | None => path end).
  assert (length cut = length path) as Hcut by (subst cut; destruct (smb_strlchr _ _ _); [apply length_insert|done]).
  destruct (smb_convert_to_network _ _ _ _) as [e|u] eqn:Eu; [by eexists _, _|]. apply to_network_fits in Eu; [|done].
  destruct (smb_strlchr path 0x2f max) as [d|] eqn:Ed.
  2: { eexists _, _. split; [reflexivity|]. cbn [w_out w_resid]. rewrite length_app. split_and!; [done|lia..]. }
  apply strlchr_lt in Ed. destruct (_ <? _); [by eexists _, _|]. unfold set_network_delimiter.
  destruct (Z.ltb_spec (resid - Z.of_nat (length u)) (delimiter_size b)) as [|Hd]; [by eexists _, _|].
  edestruct IH as (r & rest & -> & Hl & Hr'); [..|cbn [mbind option_bind]; eexists _, _; split; [reflexivity|split; [|exact Hr']]].
  - rewrite length_drop. lia.
  - lia.
  - rewrite !length_app. destruct b; cbn in *; lia.
  - rewrite length_app, Hl, length_take, length_drop. lia.
Qed.

(** The conversion of any path ends, never writes more than the buffer holds, whatever the kernel's conversion
    gives, and keeps the length of the path. *)
Theorem network_path_fits path ntwrk_len sep inflags b : 0 <= ntwrk_len ->
  exists r path', smb_convert_path_to_network path ntwrk_len sep inflags b = Some (r, path') /\
    length path' = length path /\ match r with inl _ => True | inr out => Z.of_nat (length out) <= ntwrk_len end.
Proof using Type.
  intros Hn. unfold smb_convert_path_to_network.
  destruct (if has inflags SMB_FULLPATH_CONVERSIONS && negb (default 0 (head path) =? 0x2f)
            then set_network_delimiter sep (delimiter_size b) ntwrk_len else Some ([], ntwrk_len)) as [[out resid]|] eqn:Es;
    [|by eexists _, _].
  assert (0 <= resid /\ Z.of_nat (length out) + resid = ntwrk_len) as [H1 H2].
  { revert Es. unfold set_network_delimiter. destruct (_ && _); [|intros [= <- <-]; cbn; lia].
    destruct (Z.ltb_spec ntwrk_len (delimiter_size b)); [done|]. intros [= <- <-]. destruct b; cbn in *; lia. }
  destruct (path_loop_fits ntwrk_len sep (if has inflags SMB_UTF_SFM_CONVERSIONS then UTF_SFM_CONVERSIONS else 0) b
    (S (length path)) path (length path) resid out ltac:(lia) H1 H2) as (r & path' & -> & Hl & Hr).
  cbn [mbind option_bind]. eexists _, _. split; [reflexivity|]. split; [done|].
  destruct r as [e|w]; [done|]. destruct (match w_path w with Some _ => _ | None => _ end); [done|].
  destruct (ntwrk_len <? w_resid w); [done|]. lia.
Qed.
End Bounds.

(** ** Instances *)

(** The conversion of ASCII. *)
Definition ascii : Utf := {|
  utf8_decodestr _ s room := if room <? 2 * Z.of_nat (length s) then (ENAMETOOLONG, []) else (0, utf16 s);
  utf8_encodestr _ s room := if room <? Z.of_nat (length (units s)) then (ENAMETOOLONG, []) else (0, units s)
|}.

Lemma ascii_name sep sflags bflags c : Forall (fun x => 0 < x < 128 /\ x <> sep /\ x <> 0x2f) c ->
  name_ok (H := ascii) sep sflags bflags c c.
Proof.
  intros Hc. constructor; try done; try (apply (list.Forall_impl _ _ _ Hc); lia).
  - intros room Hr. cbn. by rewrite (proj2 (Z.ltb_ge _ _)) by lia.
  - intros room Hr. cbn [utf8_encodestr ascii]. rewrite units_utf16 by (apply (list.Forall_impl _ _ _ Hc); lia).
    by rewrite (proj2 (Z.ltb_ge _ _)) by lia.
Qed.

Definition demo_names : list (list Z) := [[0x75; 0x73; 0x72]; [0x2e; 0x2e]; [0x61]].

Lemma path_network_roundtrip_witness :
  smb_convert_path_to_network (H := ascii) [0x75; 0x73; 0x72; 0x2f; 0x2e; 0x2e; 0x2f; 0x61] 16 0x5c 0x20 true
    = Some (inr (utf16 [0x75; 0x73; 0x72; 0x5c; 0x2e; 0x2e; 0x5c; 0x61]), [0x75; 0x73; 0x72; 0x2f; 0x2e; 0x2e; 0x2f; 0x61]).
Proof.
  apply (path_network_roundtrip (H := ascii) 0x5c 0x20 0 ltac:(lia) (map (fun c => (c, c)) demo_names) 16 8 0x20); try done.
  apply Forall_map. repeat (apply Forall_cons_2; [apply ascii_name; repeat constructor; lia|]). apply Forall_nil_2.
Defined.

Lemma network_path_fits_witness : exists r path',
  smb_convert_path_to_network (H := ascii) [0x61; 0x2f; 0x62] 4 0x5c 0x20 true = Some (r, path') /\ length path' = 3%nat /\
  match r with inl _ => True | inr out => Z.of_nat (length out) <= 4 end.
Proof. exact (network_path_fits (H := ascii) [0x61; 0x2f; 0x62] 4 0x5c 0x20 true ltac:(lia)). Defined.

Lemma codepage_roundtrip_witness : ucs2_to_codepage cp437_from_ucs2 (codepage_to_ucs2 cp437_to_ucs2 [0x41; 0x9c; 0xff] 6) 3 = [0x41; 0x9c; 0xff].
Proof. apply codepage_roundtrip; [repeat constructor; unfold is_byte; lia|done|done]. Defined.

(** A path from the network that fills the buffer up to a delimiter loses the rest of its names, and no error
    tells. *)
Theorem path_cut_silently :
  smb_convert_network_to_path (H := ascii) (utf16 [0x61; 0x5c; 0x62]) 2 0x5c 0 true
    = Some (inr [0x61; 0x2f], utf16 [0x61; 0x5c; 0x62]).
Proof. reflexivity. Qed.

(** A name in the code page that is too long for the buffer is cut without an error. *)
Theorem codepage_name_cut : smb_convert_to_network (H := ascii) [0x61; 0x62; 0x63] 2 0 false = inr [0x61; 0x62].
Proof. reflexivity. Qed.

(** When a name cannot be converted, the caller's path stays cut behind it. *)
Theorem path_left_cut :
  smb_convert_path_to_network (H := ascii) [0x61; 0x62; 0x2f; 0x63] 3 0x5c 0x20 true
    = Some (inl ENAMETOOLONG, [0x61; 0x62; 0; 0x63]).
Proof. reflexivity. Qed.
