(* ===== verification/Paths.v ===== *)
(** * Paths of nodes

    [kernel/smbfs/smbfs_subr.c] ([smb_fphelp], [smbfs_fullpath], [smbfs_fullpath_stream],
    [smbfs_create_start_path]), [smbfs_subr_2.c] ([smb2fs_fullpath], [smbfs_smb_get_parent]) and
    [smbfs_node.c] ([smbfs_build_path]): the path of a node is put together from the names of its
    ancestors, whose locks and vnodes are held meanwhile.

    A node is known by its vnode, a number.  What is taken and given back goes into a log.  The
    chain is the list of its bytes; how putting bytes ends, and whether the chain ends at an odd
    address, is up to the class [PathIo]. *)
From S2P Require Import Prelude Convert.
Import Errno.
Local Open Scope Z_scope.

Definition SMBFS_MAXPATHCOMP : nat := 1024.
Definition MAXPATHLEN := 1024.
Definition N_ISSTREAM := 0x2.

Record pnode := PNode {
  n_name : list Z;
  n_flag : Z;
  n_ino : Z;
  n_parent_vid : Z;
  n_parent_vnode : option positive;
  n_vnode : bool                           (* n_vnode != NULL *)
}.

(** [smp->sm_args] and what else of the mount is looked at. *)
Record mount := Mount { network_path : option (list Z); sm_smb2 : bool; sm_root_ino : Z }.

(** What other parts do: the node of a vnode, [vnode_getwithvid], putting bytes on a chain (the error and the
    chain afterwards), the parity of the address where it ends, memory, and the conversions of names.

    [mb_put_mem] is modelled mbuf by mbuf in [Mchain]; what is seen of it here is the list of the bytes of the
    chain, to which it appends ([MchainFacts.mb_put_mem_run]), or an error.  Which error it is, how much of the
    bytes is on the chain then, and at which address the last mbuf lies depends on the allocator of the kernel:
    they are left to the class, so that the theorems on locks hold for every outcome; those on the bytes of the
    path assume memory ([chain_laws]). *)
Class PathIo := {
  VTOSMB : positive -> option pnode;
  vnode_getwithvid : positive -> Z -> Z;
  mb_put_mem : list Z -> list Z -> Z * list Z;
  ends_odd : list Z -> bool;
  malloc_ok : Z -> bool;
  #[global] path_utf :: Utf
}.

Inductive event := Lock (p : positive) | Unlock (p : positive) | Get (p : positive) | Put (p : positive).

Record pstate := PState {
  chain : list Z;
  lenp : option Z;
  lock_stack : list positive;              (* in the order they were locked *)
  events : list event
}.
Definition set_chain (x : list Z) (s : pstate) : pstate := PState x (lenp s) (lock_stack s) (events s).
Definition set_lenp (x : option Z) (s : pstate) : pstate := PState (chain s) x (lock_stack s) (events s).
Definition set_stack (x : list positive) (s : pstate) : pstate := PState (chain s) (lenp s) x (events s).
Definition note (e : event) (s : pstate) : pstate := PState (chain s) (lenp s) (lock_stack s) (events s ++ [e]).

Section Paths.
Context `{PathIo}.

Definition upd (f : pstate -> pstate) : M pstate unit := fun s => Some (tt, f s).
Definition node (p : positive) : M pstate pnode := fun s => n ← VTOSMB p; Some (n, s).

(** ** The chain *)

Definition put (bs : list Z) : M pstate Z := fun s => let '(e, c) := mb_put_mem (chain s) bs in Some (e, set_chain c s).
Definition mb_put_padbyte : M pstate Z := s ← getS; if ends_odd (chain s) then put [0] else mret 0.
Definition put_char (usingUnicode : bool) (c : Z) : M pstate Z := put (if usingUnicode then le_bytes 2 c else [c]).
(** [if (!error && lenp) *lenp += n] *)
Definition count (error n : Z) : M pstate Z :=
  (if error =? 0 then upd (fun s => set_lenp ((fun l => u64 (l + n)) <$> lenp s) s) else mret tt);; mret error.
Definition char_size (usingUnicode : bool) : Z := if usingUnicode then 2 else 1.
Definition put_sep (usingUnicode : bool) (c : Z) : M pstate Z :=
  error ← put_char usingUnicode c; count error (char_size usingUnicode).

(** [counted]: there is a [lenp]. *)
Definition smb_put_dmem (src : list Z) (flags : Z) (usingUnicode counted : bool) : M pstate Z :=
  match src with
  | [] => mret 0
  | _ =>
      match dmem_bytes malloc_ok src flags usingUnicode with
      | inl error => mret error
      | inr u =>
          (if usingUnicode then mb_put_padbyte else mret 0);;
          error ← put u;
          if counted then count error (Z.of_nat (length u)) else mret error
      end
  end.

(** ** Ancestors *)

(** The parent, with a reference on it. *)
Definition smbfs_smb_get_parent (np : positive) : M pstate (option positive) :=
  n ← node np;
  match n_parent_vnode n with
  | Some vp =>
      if negb (n_parent_vid n =? 0) && (vnode_getwithvid vp (n_parent_vid n) =? 0)
      then upd (note (Get vp));; mret (Some vp)
      else mret None
  | None => mret None
  end.

(** [lck_rw_lock_shared(&np->n_parent_rwlock); *locked_npp++ = np] on a stack of [size] entries. *)
Definition lock (size : nat) (np : positive) : M pstate unit :=
  s ← getS;
  if (length (lock_stack s) <? size)%nat then upd (fun s => set_stack (lock_stack s ++ [np]) (note (Lock np) s)) else undef.

(** There is no parent though there should be one: "Parent got recycled already?" *)
Definition recycled (np : positive) (par : option positive) : M pstate bool :=
  n ← node np; mret (match par with None => negb (n_parent_vid n =? 0) | Some _ => false end).

(** The loop up to the root; [room] is [SMBFS_MAXPATHCOMP - i] and [npp] the nodes saved, the last one first. *)
Fixpoint climb (size room : nat) (np : positive) (par_vp : option positive) (npp : list positive) :
    M pstate (Z + list positive) :=
  match par_vp with
  | None => mret (inr npp)
  | Some vp =>
      match room with
      | O => upd (note (Put vp));; mret (inl ENAMETOOLONG)
      | S k =>
          lock size vp;;
          par ← smbfs_smb_get_parent vp;
          gone ← recycled vp par;
          if gone : bool then mret (inl ENOENT) else climb size k vp par (np :: npp)
      end
  end.

Definition climb_from (size : nat) (np : positive) : M pstate (Z + list positive) :=
  par ← smbfs_smb_get_parent np;
  gone ← recycled np par;
  if gone : bool then mret (inl ENOENT) else climb size SMBFS_MAXPATHCOMP np par [].

(** "Unlock all the nodes": [i] is 0 for the first one. *)
Fixpoint unlock_all (first : bool) (l : list positive) : M pstate unit :=
  match l with
  | [] => mret tt
  | np :: r =>
      n ← node np;
      upd (note (Unlock np));;
      (if negb first && n_vnode n then upd (note (Put np)) else mret tt);;
      unlock_all false r
  end.
Definition unlock_stack : M pstate unit := s ← getS; unlock_all true (lock_stack s);; upd (set_stack []).

(** ** Network paths *)

(** [while (i--)]: [error] is what an earlier call left. *)
Fixpoint put_names (usingUnicode add_slash : bool) (error : Z) (npp : list positive) : M pstate Z :=
  match npp with
  | [] => mret error
  | np :: r =>
      error ← (if add_slash then put_sep usingUnicode 0x5c else mret error);
      if negb (error =? 0) then mret error else
      n ← node np;
      error ← smb_put_dmem (n_name n) UTF_SFM_CONVERSIONS usingUnicode true;
      if negb (error =? 0) then mret error else put_names usingUnicode true error r
  end.

(** The path that the mount starts at. *)
Definition put_start (smp : mount) (usingUnicode : bool) : M pstate Z :=
  match network_path smp with
  | None => mret 0
  | Some p =>
      error ← (if sm_smb2 smp then mret 0 else put_sep usingUnicode 0x5c);
      if negb (error =? 0) then mret error else
      error ← put p; count error (Z.of_nat (length p))
  end.

(** The node whose path it is: that of the file if it is a stream. *)
Definition skip_stream (size : nat) (np : positive) : M pstate (Z + positive) :=
  n ← node np;
  if has (n_flag n) N_ISSTREAM then
    par ← smbfs_smb_get_parent np;
    match par with
    | Some vp => lock size vp;; mret (inr vp)
    | None => mret (if negb (n_parent_vid n =? 0) then inl ENOENT else inr np)
    end
  else mret (inr np).

Definition smb_fphelp (smp : mount) (np : positive) (usingUnicode : bool) : M pstate Z :=
  let size := S SMBFS_MAXPATHCOMP in
  error ← put_start smp usingUnicode;
  let add_slash := match network_path smp with Some _ => true | None => negb (sm_smb2 smp) end in
  lock size np;;
  r ← skip_stream size np;
  error ← match r with
          | inl error => mret error
          | inr np =>
              r ← climb_from size np;
              match r with
              | inl error => mret error
              | inr npp => put_names usingUnicode add_slash error npp
              end
          end;
  unlock_stack;;
  mret error.

(** [len] bytes of the string at [name], which is read up to its NUL at most. *)
Definition name_bytes (name : list Z) (len : Z) : M pstate (list Z) :=
  if len <=? Z.of_nat (length name) + 1 then mret (take (Z.to_nat len) (name ++ [0])) else undef.

Definition put_name (usingUnicode : bool) (sep : Z) (name : list Z) (len flags : Z) : M pstate Z :=
  error ← put_sep usingUnicode sep;
  if negb (error =? 0) then mret error else
  bs ← name_bytes name len;
  smb_put_dmem bs flags usingUnicode true.

(** "the null bytes" *)
Definition put_end (usingUnicode : bool) : M pstate Z :=
  error ← put [0]; if usingUnicode && (error =? 0) then put [0] else mret error.

(** [smbfs_fullpath_stream]; with no stream it is [smbfs_fullpath]. *)
Definition smbfs_fullpath_stream (dnp : option (positive * mount)) (name : option (list Z))
    (strm_name : option (list Z * Z)) (name_flags : Z) (usingUnicode : bool) (sep : Z) : M pstate Z :=
  s ← getS;
  let len := default 0 (lenp s) in
  upd (fun s => set_lenp ((fun _ => 0) <$> lenp s) s);;
  error ← (if usingUnicode then mb_put_padbyte else mret 0);
  if negb (error =? 0) then mret error else
  r ← match dnp with
      | None => mret (0, name)
      | Some (dnp, smp) =>
          error ← smb_fphelp smp dnp usingUnicode;
          n ← node dnp;
          mret (error, match network_path smp, name with
                       | None, None => if n_ino n =? sm_root_ino smp then Some [] else None
                       | _, _ => name
                       end)
      end;
  if negb (fst r =? 0) then mret (fst r) else
  error ← match snd r with Some nm => put_name usingUnicode sep nm len name_flags | None => mret 0 end;
  if negb (error =? 0) then mret error else
  error ← match strm_name with
          | Some (nm, strm_name_len) => put_name usingUnicode 0x3a nm strm_name_len name_flags
          | None => mret 0
          end;
  if negb (error =? 0) then mret error else put_end usingUnicode.

Definition smbfs_fullpath (dnp : option (positive * mount)) (name : option (list Z)) (name_flags : Z)
    (usingUnicode : bool) (sep : Z) : M pstate Z :=
  smbfs_fullpath_stream dnp name None name_flags usingUnicode sep.

(** [put_char] and a name that is not counted. *)
Definition put_part (c : option Z) (name : list Z) (flags : Z) : M pstate Z :=
  error ← match c with Some c => put_char true c | None => mret 0 end;
  if negb (error =? 0) then mret error else smb_put_dmem name flags true false.

Definition smb2fs_fullpath (dnp : option (positive * mount)) (name strm_name : option (list Z))
    (name_flags sep_char : Z) : M pstate Z :=
  upd (set_lenp (Some 0));;
  error ← match dnp with Some (dnp, smp) => smb_fphelp smp dnp true | None => mret 0 end;
  if negb (error =? 0) then mret error else
  s ← getS;
  error ← match name with
          | Some nm => put_part (if 0 <? default 0 (lenp s) then Some sep_char else None) nm name_flags
          | None => mret error
          end;
  if negb (error =? 0) then mret error else
  match strm_name with Some nm => put_part (Some 0x3a) nm name_flags | None => mret error end.

(** ** Local paths *)

(** The length it would have, and the string. *)
Definition strlcat (dst src : list Z) (size : Z) : Z * list Z :=
  (Z.min (Z.of_nat (length dst)) size + Z.of_nat (length src),
   if Z.of_nat (length dst) <? size then take (Z.to_nat (size - 1)) (dst ++ src) else dst).

Fixpoint cat_names (maxlen : Z) (path : list Z) (npp : list positive) : M pstate (Z * list Z) :=
  match npp with
  | [] => mret (0, path)
  | np :: r =>
      let '(l1, path1) := strlcat path [0x2f] MAXPATHLEN in
      if maxlen <=? l1 then mret (ENAMETOOLONG, path1) else
      n ← node np;
      let '(l2, path2) := strlcat path1 (n_name n) maxlen in
      if maxlen <=? l2 then mret (ENAMETOOLONG, path2) else cat_names maxlen path2 r
  end.

Definition smbfs_build_path (path : list Z) (np : positive) (maxlen : Z) : M pstate (Z * list Z) :=
  lock SMBFS_MAXPATHCOMP np;;
  r ← climb_from SMBFS_MAXPATHCOMP np;
  r ← match r with
      | inl error => mret (error, path)
      | inr npp => cat_names maxlen path npp
      end;
  unlock_stack;;
  mret r.

(** [smbfs_create_start_path]: the buffer [path] of the arguments and its length, which is not 0; the local and
    the network path of the mount, if any. *)
Definition smbfs_create_start_path (path : list Z) (path_len : Z) (usingUnicode : bool) :
    option (option (list Z) * option (list Z)) :=
  let path := <[Z.to_nat (MAXPATHLEN - 1) := 0]> path in
  let path_len := if path_len <? MAXPATHLEN then path_len else MAXPATHLEN - 1 in
  let last := default 0 (path !! Z.to_nat (path_len - 1)) in
  let '(path, path_len) :=
    if last =? 0x2f then (<[Z.to_nat (path_len - 1) := 0]> path, path_len - 1) else (path, path_len) in
  if negb (malloc_ok (path_len + 1)) then Some (None, None) else
  let local_path := take (Z.to_nat path_len) path in
  let network_path_len := path_len * 2 + 2 in
  if negb (malloc_ok network_path_len) then Some (None, None) else
  '(r, _) ← smb_convert_path_to_network path network_path_len 0x5c SMB_UTF_SFM_CONVERSIONS usingUnicode;
  Some (match r with
        | inr (b :: p) => (Some local_path, Some (b :: p))
        | _ => (None, None)
        end).
End Paths.

(** * Theorems *)

(** ** What is taken is given back *)

Definition one (p q : positive) : Z := if decide (p = q) then 1 else 0.
#[local] Arguments one : simpl never.
Fixpoint occ (p : positive) (l : list positive) : Z := match l with [] => 0 | q :: r => one p q + occ p r end.

Lemma occ_app p l1 l2 : occ p (l1 ++ l2) = occ p l1 + occ p l2.
Proof. induction l1 as [|q l1 IH]; cbn; lia. Qed.
Lemma occ_cons p q l : occ p (q :: l) = one p q + occ p l.
Proof. done. Qed.

(** Locks on [p] and references to it that are held. *)
Definition lock_delta (p : positive) (e : event) : Z := match e with Lock q => one p q | Unlock q => - one p q | _ => 0 end.
Definition ref_delta (p : positive) (e : event) : Z := match e with Get q => one p q | Put q => - one p q | _ => 0 end.
Fixpoint total (d : event -> Z) (es : list event) : Z := match es with [] => 0 | e :: r => d e + total d r end.
Definition locks (p : positive) (s : pstate) : Z := total (lock_delta p) (events s).
Definition refs (p : positive) (s : pstate) : Z := total (ref_delta p) (events s).

Lemma total_snoc d es e : total d (es ++ [e]) = total d es + d e.
Proof. induction es as [|x es IH]; cbn; lia. Qed.
Lemma locks_note p e s : locks p (note e s) = locks p s + lock_delta p e.
Proof. apply total_snoc. Qed.
Lemma refs_note p e s : refs p (note e s) = refs p s + ref_delta p e.
Proof. apply total_snoc. Qed.

(** Neither locks nor references change, and there is a result. *)
Definition calm {A} (m : M pstate A) : Prop :=
  forall s, exists a s', m s = Some (a, s') /\ lock_stack s' = lock_stack s /\ events s' = events s.

Lemma calm_ret {A} (a : A) : calm (mret a).
Proof. intros s. by eexists _, _. Qed.
Lemma calm_bind {A B} (m : M pstate A) (f : A -> M pstate B) : calm m -> (forall a, calm (f a)) -> calm (m ≫= f).
Proof.
  intros Hm Hf s. destruct (Hm s) as (a & s1 & E1 & H1 & H2). destruct (Hf a s1) as (b & s2 & E2 & H3 & H4).
  exists b, s2. unfold mbind, M_bind. rewrite E1, E2. split_and!; [done|congruence..].
Qed.
Lemma calm_getS : calm getS.
Proof. intros s. by eexists _, _. Qed.
Lemma calm_upd f : (forall s, lock_stack (f s) = lock_stack s /\ events (f s) = events s) -> calm (upd f).
Proof. intros Hf s. destruct (Hf s). by eexists _, _. Qed.

Create HintDb calm discriminated.
#[export] Hint Resolve calm_ret calm_getS : calm.
Ltac calm_step :=
  first [ solve [eauto with calm] | apply calm_bind; [|intros ?] | apply calm_upd; done
        | match goal with |- calm (if ?b then _ else _) => destruct b end
        | match goal with |- calm (match ?x with _ => _ end) => destruct x end ].

Section Held.
Context `{PathIo} (Hnodes : forall p, exists n, VTOSMB p = Some n).

Lemma calm_node p : calm (node p).
Proof using Hnodes. intros s. destruct (Hnodes p) as (n & E). unfold node. rewrite E. by eexists _, _. Qed.
Lemma calm_put bs : calm (put bs).
Proof using Type. intros s. unfold put. destruct (mb_put_mem _ _). by eexists _, _. Qed.
#[local] Hint Resolve calm_node calm_put : calm.
Lemma calm_padbyte : calm mb_put_padbyte.
Proof using Type. unfold mb_put_padbyte. repeat calm_step. Qed.
Lemma calm_count e n : calm (count e n).
Proof using Type. unfold count. repeat calm_step. Qed.
#[local] Hint Resolve calm_padbyte calm_count : calm.
Lemma calm_sep b c : calm (put_sep b c).
Proof using Type. unfold put_sep, put_char. repeat calm_step. Qed.
#[local] Hint Resolve calm_sep : calm.
Lemma calm_dmem src flags b c : calm (smb_put_dmem src flags b c).
Proof using Type. unfold smb_put_dmem. repeat calm_step. Qed.
#[local] Hint Resolve calm_dmem : calm.
Lemma calm_start smp b : calm (put_start smp b).
Proof using Type. unfold put_start. repeat calm_step. Qed.
Lemma calm_names b add e l : calm (put_names b add e l).
Proof using Hnodes. revert add e. induction l as [|p l IH]; intros add e; cbn [put_names]; repeat calm_step; apply IH. Qed.

(** The stack holds what is locked; all of it but the first, and what is pending, is referenced. *)
Record held (s0 : pstate) (s : pstate) (pending : list positive) : Prop := {
  held_some : lock_stack s <> [];
  held_locks : forall p, locks p s = locks p s0 + occ p (lock_stack s);
  held_refs : forall p, refs p s = refs p s0 + occ p (tail (lock_stack s)) + occ p pending
}.

Lemma held_calm {A} (m : M pstate A) s0 s pending : calm m -> held s0 s pending ->
  exists a s', m s = Some (a, s') /\ held s0 s' pending.
Proof using Type.
  intros Hm [H1 H2 H3]. destruct (Hm s) as (a & s' & E & Es & Ee). exists a, s'. split; [done|].
  unfold locks, refs in *. split; [by rewrite Es|intros p; unfold locks; rewrite Es, Ee; apply H2|intros p; unfold refs; rewrite Es, Ee; apply H3].
Qed.

(** The parent, if it can be had. *)
Definition parent_of (p : positive) : option positive :=
  n ← VTOSMB p; vp ← n_parent_vnode n;
  if negb (n_parent_vid n =? 0) && (vnode_getwithvid vp (n_parent_vid n) =? 0) then Some vp else None.

(** There are [k] ancestors at least. *)
Fixpoint above (k : nat) (p : positive) : bool :=
  match k with O => true | S k => match parent_of p with Some q => above k q | None => false end end.

Lemma get_parent_held np s0 s : held s0 s [] ->
  exists s', smbfs_smb_get_parent np s = Some (parent_of np, s') /\ held s0 s' (option_list (parent_of np)) /\
    lock_stack s' = lock_stack s.
Proof using Hnodes.
  intros Hh. pose proof Hh as [H1 H2 H3]. unfold smbfs_smb_get_parent, parent_of. destruct (Hnodes np) as (n & E).
  unfold mbind, M_bind, node. rewrite E. cbn [mbind option_bind].
  destruct (n_parent_vnode n) as [vp|]; cbn [mbind option_bind]; [|by eexists]. destruct (_ && _); [|by eexists].
  eexists. split; [reflexivity|]. split; [|done]. split; [done| |]; intros p.
  - rewrite locks_note. cbn [lock_delta lock_stack note]. rewrite H2. lia.
  - rewrite refs_note. cbn. rewrite H3. cbn. lia.
Qed.

Lemma lock_held size vp s0 s : (length (lock_stack s) < size)%nat -> held s0 s [vp] ->
  exists s', lock size vp s = Some (tt, s') /\ held s0 s' [] /\ length (lock_stack s') = S (length (lock_stack s)).
Proof using Type.
  intros Hl [H1 H2 H3]. unfold lock, mbind, M_bind, getS. rewrite (proj2 (Nat.ltb_lt _ _) Hl).
  eexists. split; [reflexivity|]. cbn [lock_stack set_stack note]. split; [|rewrite length_app; cbn; lia].
  split; cbn [lock_stack set_stack note].
  - by destruct (lock_stack s).
  - intros p. change (locks p (note (Lock vp) s) = locks p s0 + occ p (lock_stack s ++ [vp])).
    rewrite locks_note, H2, occ_app, occ_cons. cbn. lia.
  - intros p. change (refs p (note (Lock vp) s) = refs p s0 + occ p (tail (lock_stack s ++ [vp])) + occ p []).
    rewrite refs_note, H3. destruct (lock_stack s) as [|q l]; [done|]. cbn [tail app]. rewrite occ_app. cbn. lia.
Qed.

Lemma recycled_held np par s0 s pending : held s0 s pending ->
  exists b s', recycled np par s = Some (b, s') /\ held s0 s' pending /\ lock_stack s' = lock_stack s /\
    (b = true -> par = None).
Proof using Hnodes.
  intros Hh. unfold recycled. destruct (Hnodes np) as (n & E). unfold mbind, M_bind, node. rewrite E. cbn [mbind option_bind].
  eexists _, _. split; [reflexivity|]. split_and!; [done..|]. by destruct par.
Qed.

(** The locks of the ancestors fit the stack: it is large enough for all that are allowed, or
    there are not so many. *)
Lemma climb_held size room np par npp s0 s : held s0 s (option_list par) ->
  (length (lock_stack s) + room <= size)%nat \/ (forall vp, par = Some vp -> above (size - length (lock_stack s)) vp = false) ->
  exists r s', climb size room np par npp s = Some (r, s') /\ held s0 s' [].
Proof using Hnodes.
  revert np par npp s. induction room as [|k IH]; intros np [vp|] npp s Hh Hs; cbn [climb]; try (by eexists _, _).
  - eexists _, _. split; [reflexivity|]. destruct Hh as [H1 H2 H3]. split; [done| |]; intros p.
    + rewrite locks_note. cbn. rewrite H2. lia.
    + rewrite refs_note. cbn. rewrite H3. cbn. lia.
  - assert (Hlt : (length (lock_stack s) < size)%nat).
    { destruct Hs as [|Hs]; [lia|]. specialize (Hs vp eq_refl). destruct (size - length (lock_stack s))%nat eqn:E; [done|lia]. }
    destruct (lock_held size vp s0 s Hlt Hh) as (s1 & E1 & Hh1 & L1).
    destruct (get_parent_held vp s0 s1 Hh1) as (s2 & E2 & Hh2 & L2).
    destruct (recycled_held vp (parent_of vp) s0 s2 _ Hh2) as (b & s3 & E3 & Hh3 & L3 & Hb).
    unfold mbind, M_bind. rewrite E1, E2, E3. destruct b.
    + rewrite Hb in Hh3 by done. by eexists _, _.
    + apply IH; [done|]. rewrite L3, L2, L1. destruct Hs as [|Hs]; [left; lia|right]. intros q Eq. specialize (Hs vp eq_refl).
      replace (size - length (lock_stack s))%nat with (S (size - S (length (lock_stack s)))) in Hs by lia. cbn [above] in Hs.
      by rewrite Eq in Hs.
Qed.

Lemma climb_from_held size np s0 s : held s0 s [] ->
  (length (lock_stack s) + SMBFS_MAXPATHCOMP <= size)%nat \/ above (S (size - length (lock_stack s))) np = false ->
  exists r s', climb_from size np s = Some (r, s') /\ held s0 s' [].
Proof using Hnodes.
  intros Hh Hs. destruct (get_parent_held np s0 s Hh) as (s2 & E2 & Hh2 & L2).
  destruct (recycled_held np (parent_of np) s0 s2 _ Hh2) as (b & s3 & E3 & Hh3 & L3 & Hb).
  unfold climb_from, mbind, M_bind. rewrite E2, E3. destruct b.
  - rewrite Hb in Hh3 by done. by eexists _, _.
  - apply climb_held; [done|]. rewrite L3, L2. destruct Hs as [|Hs]; [by left|right]. intros vp Ev. cbn [above] in Hs. by rewrite Ev in Hs.
Qed.

(** The node has its vnode. *)
Definition has_vnode (p : positive) : bool := match VTOSMB p with Some n => n_vnode n | None => false end.

Lemma unlock_all_held first l s : exists s', unlock_all first l s = Some (tt, s') /\
  (forall p, locks p s' = locks p s - occ p l) /\
  (forall p, refs p s' = refs p s - if has_vnode p then occ p (if first then tail l else l) else 0).
Proof using Hnodes.
  revert first s. induction l as [|q l IH]; intros first s; cbn [unlock_all].
  { eexists. split; [reflexivity|]. destruct first; cbn; split; intros p; destruct (has_vnode p); lia. }
  destruct (Hnodes q) as (n & E). assert (Ev : n_vnode n = has_vnode q) by (unfold has_vnode; by rewrite E).
  unfold mbind, M_bind, node. rewrite E. cbn [mbind option_bind upd]. rewrite Ev.
  destruct (negb first && has_vnode q) eqn:Eb.
  - destruct (IH false (note (Put q) (note (Unlock q) s))) as (s' & E1 & H1 & H2). unfold upd. rewrite E1. exists s'. split; [done|].
    apply andb_true_iff in Eb as [Ef Eq]. destruct first; [done|].
    split; intros p; [rewrite H1, !locks_note, occ_cons; cbn; lia|rewrite H2, !refs_note, occ_cons; cbn].
    destruct (decide (p = q)) as [->|Hne]; [rewrite Eq; lia|]. unfold one. rewrite decide_False by done. destruct (has_vnode p); lia.
  - destruct (IH false (note (Unlock q) s)) as (s' & E1 & H1 & H2). unfold mret, M_ret. rewrite E1. exists s'. split; [done|].
    split; intros p; [rewrite H1, locks_note, occ_cons; cbn; lia|rewrite H2, refs_note; cbn]. destruct first; cbn; [lia|].
    destruct (has_vnode p) eqn:Ep; [|lia]. unfold one. rewrite decide_False; [lia|]. intros ->. by rewrite Ep in Eb.
Qed.

Lemma occ_nonneg p l : 0 <= occ p l.
Proof using Type. induction l as [|q l IH]; cbn [occ]; [lia|]. unfold one. destruct (decide _); lia. Qed.

(** All locks have been given back, and the references to all nodes that still have their vnode. *)
Definition given_back (s s' : pstate) : Prop :=
  lock_stack s' = [] /\ forall p, locks p s' = locks p s /\ refs p s <= refs p s' /\ (has_vnode p = true -> refs p s' = refs p s).

Lemma unlock_stack_held s0 s : held s0 s [] -> exists s', unlock_stack s = Some (tt, s') /\ given_back s0 s'.
Proof using Hnodes.
  intros [_ H2 H3]. destruct (unlock_all_held true (lock_stack s) s) as (s' & E & Hl & Hr).
  unfold unlock_stack, mbind, M_bind, getS. rewrite E. eexists. split; [reflexivity|]. split; [done|]. intros p.
  change (locks p s' = locks p s0 /\ refs p s0 <= refs p s' /\ (has_vnode p = true -> refs p s' = refs p s0)).
  rewrite Hl, Hr, H2, H3. pose proof (occ_nonneg p (tail (lock_stack s))). cbn [occ]. destruct (has_vnode p); split_and!; lia.
Qed.

Lemma lock_first size np s0 s : (0 < size)%nat -> lock_stack s = [] -> events s = events s0 ->
  exists s', lock size np s = Some (tt, s') /\ held s0 s' [] /\ length (lock_stack s') = 1%nat.
Proof using Type.
  intros Hz Hs He. unfold lock, mbind, M_bind, getS. rewrite Hs, (proj2 (Nat.ltb_lt _ _)) by done.
  eexists. split; [reflexivity|]. cbn [lock_stack set_stack note app]. split; [|by rewrite Hs].
  split; cbn [lock_stack set_stack note]; rewrite Hs; [done| |]; intros p; unfold locks, refs; cbn [events set_stack note];
    rewrite total_snoc, He; cbn; lia.
Qed.

(** The file of a stream is locked as well. *)
Lemma skip_stream_held np n s0 s : VTOSMB np = Some n -> held s0 s [] -> length (lock_stack s) = 1%nat ->
  exists r s', skip_stream (S SMBFS_MAXPATHCOMP) np s = Some (r, s') /\ held s0 s' [] /\
    (r = inr np /\ length (lock_stack s') = 1%nat \/ (exists e, r = inl e) \/
     exists f, r = inr f /\ length (lock_stack s') = 2%nat /\ has (n_flag n) N_ISSTREAM = true /\ parent_of np = Some f).
Proof using Hnodes.
  intros En Hh L. unfold skip_stream. rewrite (bind_some (node np) _ s s n) by (unfold node; by rewrite En).
  destruct (has (n_flag n) N_ISSTREAM); [|eexists _, _; split; [reflexivity|]; split; [done|by left]].
  destruct (get_parent_held np s0 s Hh) as (s1 & E1 & Hh1 & L1). rewrite (bind_some _ _ _ _ _ E1).
  destruct (parent_of np) as [f|].
  - destruct (lock_held (S SMBFS_MAXPATHCOMP) f s0 s1) as (s2 & E2 & Hh2 & L2); [rewrite L1, L; unfold SMBFS_MAXPATHCOMP; lia|done|].
    rewrite (bind_some _ _ _ _ _ E2). eexists _, _. split; [reflexivity|]. split; [done|]. right. right. exists f.
    split_and!; [done|by rewrite L2, L1, L|done..].
  - eexists _, _. split; [reflexivity|]. split; [done|]. destruct (negb _); [by right; left; eexists|left]. by rewrite L1.
Qed.

(** C22: whatever the ancestors of a file or a stream are, whether one is gone, memory runs out or there are too many of them:
    its path is put together, or an error is returned, and every lock has been given back, and every reference to a node
    that still has its vnode.  The file of a stream has less than 1024 ancestors; with as many, [smb_fphelp] writes
    behind its stack. *)
Theorem path_gives_back smp np b s : lock_stack s = [] ->
  (forall n f, VTOSMB np = Some n -> has (n_flag n) N_ISSTREAM = true -> parent_of np = Some f -> above SMBFS_MAXPATHCOMP f = false) ->
  exists e s', smb_fphelp smp np b s = Some (e, s') /\ given_back s s'.
Proof using Hnodes.
  intros Hs Hstream. unfold smb_fphelp.
  destruct (calm_start smp b s) as (e0 & s1 & E1 & L1 & V1). rewrite (bind_some _ _ _ _ _ E1). rewrite Hs in L1.
  destruct (lock_first (S SMBFS_MAXPATHCOMP) np s s1) as (s2 & E2 & Hh & L2); [unfold SMBFS_MAXPATHCOMP; lia|done|done|].
  rewrite (bind_some _ _ _ _ _ E2). destruct (Hnodes np) as (n & En).
  destruct (skip_stream_held np n s s2 En Hh L2) as (r & s3 & E3 & Hh3 & Hr). rewrite (bind_some _ _ _ _ _ E3).
  set (m := match r with inl _ => _ | inr _ => _ end). assert (exists e s4, m s3 = Some (e, s4) /\ held s s4 []) as (e & s4 & E4 & Hh4).
  { destruct r as [e|f]; [by eexists _, _|]. subst m.
    destruct (climb_from_held (S SMBFS_MAXPATHCOMP) f s s3 Hh3) as (r' & s4 & E4 & Hh4).
    { destruct Hr as [([= ->] & ->)|[[? ?]|(f' & [= <-] & -> & Hst & Hf)]]; [left; lia|done|right].
      replace (S (S SMBFS_MAXPATHCOMP - 2))%nat with SMBFS_MAXPATHCOMP by (unfold SMBFS_MAXPATHCOMP; lia). by eapply Hstream. }
    rewrite (bind_some _ _ _ _ _ E4). apply held_calm; [|done]. destruct r'; [apply calm_ret|apply calm_names]. }
  rewrite (bind_some _ _ _ _ _ E4). destruct (unlock_stack_held s s4 Hh4) as (s5 & E5 & Hb). rewrite (bind_some _ _ _ _ _ E5).
  by exists e, s5.
Qed.
End Held.

(** ** The path is that of the ancestors *)

Lemma bind_undef {S A B} (m : M S A) (f : A -> M S B) s : m s = None -> (m ≫= f) s = None.
Proof. intros E. unfold mbind, M_bind. by rewrite E. Qed.

Section Spec.
Context `{PathIo}.

(** The ancestors of a node, its parent first and the root last. *)
Inductive up : positive -> list positive -> Prop :=
  | up_root p n : VTOSMB p = Some n -> n_parent_vid n = 0 -> up p []
  | up_parent p n q l : VTOSMB p = Some n -> n_parent_vid n <> 0 -> n_parent_vnode n = Some q ->
      vnode_getwithvid q (n_parent_vid n) = 0 -> up q l -> up p (q :: l).

(** Apart from the log the states are the same. *)
Definition alike (s s' : pstate) : Prop := chain s' = chain s /\ lenp s' = lenp s /\ lock_stack s' = lock_stack s.

Lemma get_parent_up np l s : up np l -> exists s', smbfs_smb_get_parent np s = Some (head l, s') /\ alike s s'.
Proof using Type.
  intros Hu. unfold smbfs_smb_get_parent, mbind, M_bind, node.
  destruct Hu as [p n E Hv|p n q l E Hv Eq Eg Hu]; rewrite E; cbn [mbind option_bind].
  - rewrite Hv. destruct (n_parent_vnode n); by eexists.
  - rewrite Eq, Eg, (proj2 (Z.eqb_neq _ _) Hv). by eexists.
Qed.

Lemma recycled_up np l s : up np l -> recycled np (head l) s = Some (false, s).
Proof using Type.
  intros Hu. unfold recycled, mbind, M_bind, node. destruct Hu as [p n E Hv|p n q l E ? ? ? ?]; rewrite E; [|done].
  cbn. by rewrite Hv.
Qed.

Lemma lock_run size p s : (length (lock_stack s) < size)%nat ->
  lock size p s = Some (tt, set_stack (lock_stack s ++ [p]) (note (Lock p) s)).
Proof using Type. intros Hl. unfold lock, mbind, M_bind, getS. by rewrite (proj2 (Nat.ltb_lt _ _) Hl). Qed.

Lemma lock_overrun size p s : (size <= length (lock_stack s))%nat -> lock size p s = None.
Proof using Type. intros Hl. unfold lock, mbind, M_bind, getS. by rewrite (proj2 (Nat.ltb_ge _ _) Hl). Qed.

Lemma unlock_all_alike first l s : (forall p, is_Some (VTOSMB p)) ->
  exists s', unlock_all first l s = Some (tt, s') /\ chain s' = chain s /\ lenp s' = lenp s.
Proof using Type.
  intros Hn. revert first s. induction l as [|q l IH]; intros first s; cbn [unlock_all]; [by eexists|].
  destruct (Hn q) as [n En]. rewrite (bind_some (node q) _ s s n) by (unfold node; by rewrite En).
  rewrite (bind_some _ _ _ (note (Unlock q) s) tt) by done. destruct (negb first && n_vnode n).
  - rewrite (bind_some _ _ _ (note (Put q) (note (Unlock q) s)) tt) by done.
    destruct (IH false (note (Put q) (note (Unlock q) s))) as (s' & -> & ? & ?). by exists s'.
  - rewrite (bind_some _ _ _ (note (Unlock q) s) tt) by done. destruct (IH false (note (Unlock q) s)) as (s' & -> & ? & ?). by exists s'.
Qed.
Lemma unlock_stack_alike s : (forall p, is_Some (VTOSMB p)) ->
  exists s', unlock_stack s = Some (tt, s') /\ chain s' = chain s /\ lenp s' = lenp s /\ lock_stack s' = [].
Proof using Type.
  intros Hn. unfold unlock_stack. rewrite (bind_some _ _ s s s) by done.
  destruct (unlock_all_alike true (lock_stack s) s Hn) as (s' & E & C & N). rewrite (bind_some _ _ _ _ _ E). by eexists.
Qed.

Lemma many_components : (2 < SMBFS_MAXPATHCOMP)%nat.
Proof using Type. unfold SMBFS_MAXPATHCOMP. lia. Qed.

Lemma climb_up size room np l npp s : up np l -> (length l <= room)%nat -> (length (lock_stack s) + length l <= size)%nat ->
  exists s', climb size room np (head l) npp s = Some (inr (rev (take (length l) (np :: l)) ++ npp), s') /\
    chain s' = chain s /\ lenp s' = lenp s.
Proof using Type.
  revert room np npp s. induction l as [|q l IH]; intros room np npp s Hu Hr Hs; [destruct room; by eexists|].
  inversion_clear Hu. destruct room as [|k]; [cbn in Hr; lia|]. cbn [climb head length] in *. unfold mbind at 1, M_bind at 1.
  rewrite lock_run by lia. set (s1 := set_stack _ _).
  destruct (get_parent_up q l s1) as (s2 & E2 & C2 & N2 & L2); [done|]. unfold mbind, M_bind. rewrite E2, recycled_up by done.
  destruct (IH k q (np :: npp) s2) as (s3 & E3 & C3 & N3); [done|lia| |].
  { rewrite L2. subst s1. cbn. rewrite length_app. cbn. lia. }
  exists s3. rewrite E3. split; [|subst s1; cbn in *; split; congruence]. cbn [take rev]. by rewrite <- app_assoc.
Qed.

Lemma climb_overrun size room np l npp s : up np l -> (length (lock_stack s) <= size)%nat ->
  (size < length (lock_stack s) + room)%nat -> (size < length (lock_stack s) + length l)%nat ->
  climb size room np (head l) npp s = None.
Proof using Type.
  revert room np npp s. induction l as [|q l IH]; intros room np npp s Hu H0 H1 H2; [cbn in H2; lia|].
  inversion_clear Hu. destruct room as [|k]; [lia|]. cbn [climb head length] in *. unfold mbind at 1, M_bind at 1.
  destruct (Nat.eq_dec (length (lock_stack s)) size) as [Heq|Hne]; [by rewrite lock_overrun by lia|].
  rewrite lock_run by lia. set (s1 := set_stack _ _).
  destruct (get_parent_up q l s1) as (s2 & E2 & C2 & N2 & L2); [done|]. unfold mbind, M_bind. rewrite E2, recycled_up by done.
  assert (length (lock_stack s2) = S (length (lock_stack s))) by (rewrite L2; subst s1; cbn; rewrite length_app; cbn; lia).
  apply IH; [done|lia..].
Qed.

(** The stack of locks of [smbfs_build_path] has no room for the root of a path with as many components as are
    allowed. *)
Theorem build_path_overruns np l path maxlen s : up np l -> (SMBFS_MAXPATHCOMP <= length l)%nat -> lock_stack s = [] ->
  smbfs_build_path path np maxlen s = None.
Proof using Type.
  intros Hu Hl Hs. pose proof many_components. unfold smbfs_build_path.
  rewrite (bind_some _ _ _ _ _ (lock_run SMBFS_MAXPATHCOMP np s ltac:(rewrite Hs; cbn [length]; lia))). set (s1 := set_stack _ _).
  destruct (get_parent_up np l s1 Hu) as (s2 & E2 & C2 & N2 & L2).
  assert (length (lock_stack s2) = 1%nat) as E1 by (rewrite L2; subst s1; cbn; by rewrite Hs).
  assert (climb_from SMBFS_MAXPATHCOMP np s1 = None) as E3.
  { unfold climb_from. rewrite (bind_some _ _ _ _ _ E2), (bind_some _ _ _ _ _ (recycled_up np l s2 Hu)).
    apply climb_overrun; [done|rewrite E1; lia..]. }
  by apply bind_undef.
Qed.

(** And that of [smb_fphelp], which has one entry more for the stream, has none for the root of the file's path. *)
Theorem stream_path_overruns smp np n f l b s : VTOSMB np = Some n -> has (n_flag n) N_ISSTREAM = true -> up np (f :: l) ->
  (SMBFS_MAXPATHCOMP <= length l)%nat -> lock_stack s = [] -> network_path smp = None ->
  smb_fphelp smp np b s = None.
Proof using Type.
  intros En Hst Hu Hl Hs Hp. pose proof many_components. unfold smb_fphelp. rewrite (bind_some _ _ s s 0) by (unfold put_start; by rewrite Hp).
  rewrite (bind_some _ _ _ _ _ (lock_run (S SMBFS_MAXPATHCOMP) np s ltac:(rewrite Hs; cbn [length]; lia))). set (s1 := set_stack _ _).
  destruct (get_parent_up np (f :: l) s1 Hu) as (s2 & E2 & C2 & N2 & L2).
  assert (length (lock_stack s2) = 1%nat) as E1 by (rewrite L2; subst s1; cbn; by rewrite Hs).
  assert (exists s3, skip_stream (S SMBFS_MAXPATHCOMP) np s1 = Some (inr f, s3) /\ length (lock_stack s3) = 2%nat) as (s3 & E3 & L3).
  { unfold skip_stream. rewrite (bind_some (node np) _ s1 s1 n) by (unfold node; by rewrite En). rewrite Hst.
    rewrite (bind_some _ _ _ _ _ E2). cbn [head].
    rewrite (bind_some _ _ _ _ _ (lock_run (S SMBFS_MAXPATHCOMP) f s2 ltac:(lia))).
    eexists. split; [reflexivity|]. cbn. rewrite length_app. cbn. lia. }
  rewrite (bind_some _ _ _ _ _ E3). inversion_clear Hu as [|? ? ? ? ? ? ? ? Hf].
  destruct (get_parent_up f l s3 Hf) as (s4 & E4 & C4 & N4 & L4).
  assert (climb_from (S SMBFS_MAXPATHCOMP) f s3 = None) as E5.
  { unfold climb_from. rewrite (bind_some _ _ _ _ _ E4), (bind_some _ _ _ _ _ (recycled_up f l s4 Hf)).
    apply climb_overrun; [done|rewrite L4, L3; lia..]. }
  by do 2 apply bind_undef.
Qed.

(** *** What is put on the chain *)

(** There is memory, and the chain starts at an even address in mbufs of even size. *)
Record chain_laws : Prop := {
  put_law : forall c bs, mb_put_mem c bs = (0, c ++ bs);
  odd_law : forall c, ends_odd c = Z.odd (Z.of_nat (length c))
}.

Definition evenly (bs : list Z) : Prop := Z.even (Z.of_nat (length bs)) = true.
Lemma evenly_app a b : evenly a -> evenly b -> evenly (a ++ b).
Proof using Type. unfold evenly. rewrite length_app, Nat2Z.inj_add, Z.even_add. by intros -> ->. Qed.

(** [bs] has been put and counted. *)
Definition add (bs : list Z) (s : pstate) : pstate :=
  PState (chain s ++ bs) ((fun l => u64 (l + Z.of_nat (length bs))) <$> lenp s) (lock_stack s) (events s).
Lemma add_add a b s : add b (add a s) = add (a ++ b) s.
Proof using Type.
  unfold add. cbn. rewrite <- app_assoc. f_equal. destruct (lenp s) as [x|]; [|done]. cbn. f_equal.
  rewrite u64_add_l, length_app. f_equal. lia.
Qed.

Definition good_len (s : pstate) : Prop := match lenp s with Some x => 0 <= x < 2 ^ 64 | None => True end.
Lemma add_nil s : good_len s -> add [] s = s.
Proof using Type.
  destruct s as [c [x|] k e]; unfold good_len, add; cbn; rewrite app_nil_r; [|done]. intros Hx. by rewrite Z.add_0_r, u64_small.
Qed.
Lemma good_add bs s : good_len s -> good_len (add bs s).
Proof using Type. unfold good_len, add. cbn. destruct (lenp s); [|done]. cbn. intros _. apply Z.mod_pos_bound. lia. Qed.

Section Put.
Context (Hc : chain_laws).

Lemma put_bytes_run bs s : put bs s = Some (0, set_chain (chain s ++ bs) s).
Proof using Hc. unfold put. by rewrite (put_law Hc). Qed.

Lemma put_sep_run b c s : put_sep b c s = Some (0, add (if b then le_bytes 2 c else [c]) s).
Proof using Hc. unfold put_sep, put_char. rewrite (bind_some _ _ _ _ _ (put_bytes_run _ s)). by destruct b. Qed.

(** A name in UTF-16. *)
Definition converts (flags : Z) (name u : list Z) : Prop :=
  name <> [] /\ dmem_bytes malloc_ok name flags true = inr u /\ u <> [] /\ evenly u.

Lemma dmem_run name flags u counted s : converts flags name u -> evenly (chain s) ->
  smb_put_dmem name flags true counted s = Some (0, if counted then add u s else set_chain (chain s ++ u) s).
Proof using Hc.
  intros (Hn & E & _ & _) Hev. unfold smb_put_dmem. destruct name as [|x name]; [done|]. rewrite E.
  assert (mb_put_padbyte s = Some (0, s)) as Hpad.
  { unfold mb_put_padbyte. rewrite (bind_some _ _ s s s) by done. rewrite (odd_law Hc), <- Z.negb_even. unfold evenly in Hev. by rewrite Hev. }
  rewrite (bind_some _ _ _ _ _ Hpad), (bind_some _ _ _ _ _ (put_bytes_run u s)). by destruct counted.
Qed.

Definition slash : list Z := le_bytes 2 0x5c.
Definition node_name (p : positive) (u : list Z) : Prop :=
  exists n, VTOSMB p = Some n /\ converts UTF_SFM_CONVERSIONS (n_name n) u.

Fixpoint components (add_slash : bool) (us : list (list Z)) : list Z :=
  match us with [] => [] | u :: r => (if add_slash then slash else []) ++ u ++ components true r end.

Lemma put_names_run add_slash l us s : Forall2 node_name l us -> evenly (chain s) -> good_len s ->
  put_names true add_slash 0 l s = Some (0, add (components add_slash us) s).
Proof using Hc.
  intros Hl. revert add_slash s. induction Hl as [|p u l us (n & En & Hu) _ IH]; intros add_slash s Hev Hg; cbn [put_names components].
  { by rewrite add_nil. }
  set (pre := if add_slash then slash else []).
  assert ((if add_slash then put_sep true 0x5c else mret 0) s = Some (0, add pre s)) as E1.
  { subst pre. destruct add_slash; [apply put_sep_run|by rewrite add_nil]. }
  assert (evenly pre) by (by destruct add_slash). assert (evenly u) by apply Hu.
  rewrite (bind_some _ _ _ _ _ E1). cbn [Z.eqb negb]. rewrite (bind_some (node p) _ (add pre s) (add pre s) n) by (unfold node; by rewrite En).
  rewrite (bind_some _ _ _ _ _ (dmem_run _ _ u true (add pre s) Hu ltac:(by apply evenly_app))). cbn [Z.eqb negb].
  rewrite IH; [by rewrite !add_add|by repeat apply evenly_app|by repeat apply good_add].
Qed.

Lemma put_start_run smp s : sm_smb2 smp = true -> good_len s ->
  put_start smp true s = Some (0, add (default [] (network_path smp)) s).
Proof using Hc.
  intros Hsmb2 Hg. unfold put_start. destruct (network_path smp) as [p|]; cbn [default]; [|by rewrite add_nil]. rewrite Hsmb2.
  rewrite (bind_some _ _ s s 0) by done. cbn [Z.eqb negb]. by rewrite (bind_some _ _ _ _ _ (put_bytes_run p s)).
Qed.

Lemma components_joined u us : components false (u :: us) = joined slash (u :: us).
Proof using Type.
  change (u ++ components true us = joined slash (u :: us)). revert u. induction us as [|v us IH]; intros u; cbn [components]; [by rewrite app_nil_r|].
  rewrite IH. done.
Qed.

(** The names of a path: of the start of the mount and of the nodes below its root. *)
Definition parts (smp : mount) (us : list (list Z)) : list (list Z) := option_list (network_path smp) ++ us.

Lemma parts_put smp us : default [] (network_path smp) ++ components (match network_path smp with Some _ => true | None => false end) us
  = joined slash (parts smp us).
Proof using Type.
  unfold parts. destruct (network_path smp) as [p|]; cbn [default option_list app].
  - change (components false (p :: us) = joined slash (p :: us)). apply components_joined.
  - destruct us; [done|apply components_joined].
Qed.

Lemma fphelp_run smp np l us s : sm_smb2 smp = true -> up np l -> (length l <= SMBFS_MAXPATHCOMP)%nat ->
  (forall n, VTOSMB np = Some n -> has (n_flag n) N_ISSTREAM = false) ->
  Forall2 node_name (rev (take (length l) (np :: l))) us -> evenly (default [] (network_path smp)) ->
  evenly (chain s) -> good_len s -> lock_stack s = [] -> (forall p, is_Some (VTOSMB p)) ->
  exists s', smb_fphelp smp np true s = Some (0, s') /\ alike (add (joined slash (parts smp us)) s) s'.
Proof using Hc.
  intros Hsmb2 Hu Hl Hst Hus Hp Hev Hg Hs Hn. pose proof many_components. unfold smb_fphelp.
  rewrite (bind_some _ _ _ _ _ (put_start_run smp s Hsmb2 Hg)). set (s1 := add _ s).
  rewrite (bind_some _ _ _ _ _ (lock_run (S SMBFS_MAXPATHCOMP) np s1 ltac:(cbn; rewrite Hs; cbn; lia))). set (s2 := set_stack _ _).
  assert (skip_stream (S SMBFS_MAXPATHCOMP) np s2 = Some (inr np, s2)) as E3.
  { unfold skip_stream. destruct (Hn np) as [n En]. rewrite (bind_some (node np) _ s2 s2 n) by (unfold node; by rewrite En).
    by rewrite (Hst n En). }
  rewrite (bind_some _ _ _ _ _ E3). destruct (get_parent_up np l s2 Hu) as (s4 & E4 & C4 & N4 & L4).
  assert (length (lock_stack s4) = 1%nat) as L1 by (rewrite L4; subst s2 s1; cbn; by rewrite Hs).
  assert (exists s5, climb_from (S SMBFS_MAXPATHCOMP) np s2 = Some (inr (rev (take (length l) (np :: l))), s5) /\
    chain s5 = chain s4 /\ lenp s5 = lenp s4) as (s5 & E5 & C5 & N5).
  { unfold climb_from. rewrite (bind_some _ _ _ _ _ E4), (bind_some _ _ _ _ _ (recycled_up np l s4 Hu)).
    destruct (climb_up (S SMBFS_MAXPATHCOMP) SMBFS_MAXPATHCOMP np l [] s4 Hu) as (s5 & E5 & C5 & N5); [lia..|].
    rewrite app_nil_r in E5. by exists s5. }
  assert (chain s5 = chain s1 /\ lenp s5 = lenp s1) as [C6 N6] by (rewrite C5, C4, N5, N4; done).
  set (add_slash := match network_path smp with Some _ => true | None => negb (sm_smb2 smp) end).
  rewrite (bind_some _ _ s2 (add (components add_slash us) s5) 0).
  2: { rewrite (bind_some _ _ _ _ _ E5). apply put_names_run; [done|rewrite C6; by apply evenly_app|].
       unfold good_len. rewrite N6. by apply (good_add _ s). }
  destruct (unlock_stack_alike (add (components add_slash us) s5) Hn) as (s7 & E7 & C7 & N7 & L7).
  rewrite (bind_some _ _ _ _ _ E7). exists s7. split; [done|].
  assert (add_slash = match network_path smp with Some _ => true | None => false end) as -> by (subst add_slash; by rewrite Hsmb2).
  rewrite <- parts_put, <- add_add. fold s1. unfold alike. rewrite C7, N7, L7. cbn. by rewrite C6, N6, Hs.
Qed.

Lemma joined_snoc l u : joined slash (l ++ [u]) = match l with [] => u | _ => joined slash l ++ slash ++ u end.
Proof using Type.
  induction l as [|a [|b l] IH]; [done..|]. cbn [app joined] in *. rewrite IH. by rewrite <- !app_assoc.
Qed.

Lemma put_part_run c name flags u s : converts flags name u -> evenly (chain s) ->
  exists s', put_part c name flags s = Some (0, s') /\
    chain s' = chain s ++ match c with Some c => le_bytes 2 c | None => [] end ++ u.
Proof using Hc.
  intros Hu Hev. unfold put_part. set (pre := match c with Some c => le_bytes 2 c | None => [] end).
  assert (match c with Some c => put_char true c | None => mret 0 end s = Some (0, set_chain (chain s ++ pre) s)) as E.
  { subst pre. destruct c; [apply put_bytes_run|]. rewrite app_nil_r. by destruct s. }
  rewrite (bind_some _ _ _ _ _ E). cbn [Z.eqb negb]. rewrite (dmem_run _ _ u) by first [done|apply evenly_app; [done|by destruct c]].
  eexists. split; [reflexivity|]. cbn. by rewrite app_assoc.
Qed.

(** Both are absent, or the name becomes [u]. *)
Definition converts_opt (flags : Z) (name u : option (list Z)) : Prop :=
  match name, u with Some n, Some u => converts flags n u | None, None => True | _, _ => False end.

Lemma parts_empty smp us l : network_path smp <> Some [] -> Forall2 node_name l us ->
  joined slash (parts smp us) = [] -> parts smp us = [].
Proof using Type.
  intros Hp Hus. unfold parts. destruct (network_path smp) as [p|]; cbn [option_list app].
  - destruct us; cbn; [by intros ->|by intros [-> _]%app_eq_nil].
  - destruct Hus as [|? u ? us (n & _ & Hu)]; [done|]. destruct Hu as (_ & _ & Hu & _). destruct us; cbn; [done|by intros [? _]%app_eq_nil].
Qed.

Lemma evenly_joined l : Forall evenly l -> evenly (joined slash l).
Proof using Type.
  induction 1 as [|x [|y l] Hx _ IH]; [done..|]. apply evenly_app; [done|]. by apply evenly_app.
Qed.

Lemma evenly_parts smp us l : evenly (default [] (network_path smp)) -> Forall2 node_name l us -> Forall evenly (parts smp us).
Proof using Type.
  intros Hp Hus. apply Forall_app. split.
  - destruct (network_path smp); [|done]. by repeat constructor.
  - induction Hus as [|? ? ? ? (? & ? & Hu)]; constructor; [apply Hu|done].
Qed.

(** C21: the path that a request has for a file is the one of the mount, the names of the ancestors from the root down,
    the name and the stream, with a delimiter between each two. *)
Theorem path_is_of_ancestors smp np l us name u strm v flags s :
  sm_smb2 smp = true -> up np l -> (length l <= SMBFS_MAXPATHCOMP)%nat ->
  (forall n, VTOSMB np = Some n -> has (n_flag n) N_ISSTREAM = false) -> (forall p, is_Some (VTOSMB p)) ->
  Forall2 node_name (rev (take (length l) (np :: l))) us ->
  evenly (default [] (network_path smp)) -> network_path smp <> Some [] ->
  converts_opt flags name u -> converts_opt flags strm v ->
  evenly (chain s) -> lock_stack s = [] -> Z.of_nat (length (joined slash (parts smp us))) < 2 ^ 64 ->
  exists s', smb2fs_fullpath (Some (np, smp)) name strm flags 0x5c s = Some (0, s') /\
    chain s' = chain s ++ joined slash (parts smp us ++ option_list u) ++
      match v with Some v => le_bytes 2 0x3a ++ v | None => [] end.
Proof using Hc.
  intros Hsmb2 Hu Hl Hst Hn Hus Hpe Hp Hname Hstrm Hev Hs Hlen. unfold smb2fs_fullpath.
  rewrite (bind_some _ _ _ (set_lenp (Some 0) s) tt) by done.
  destruct (fphelp_run smp np l us (set_lenp (Some 0) s)) as (s1 & E1 & C1 & N1 & _); try done.
  rewrite (bind_some _ _ _ _ _ E1). cbn [Z.eqb negb]. rewrite (bind_some _ _ s1 s1 s1) by done.
  change (chain s1 = chain s ++ joined slash (parts smp us)) in C1.
  change (lenp s1 = Some (u64 (0 + Z.of_nat (length (joined slash (parts smp us)))))) in N1.
  rewrite Z.add_0_l, u64_small in N1 by lia. rewrite N1. cbn [default].
  set (c := if 0 <? Z.of_nat (length (joined slash (parts smp us))) then Some 0x5c else None).
  assert (evenly (chain s1)) as Hev1.
  { rewrite C1. apply evenly_app; [done|]. by eapply evenly_joined, evenly_parts. }
  assert (exists s2, (match name with Some nm => put_part c nm flags | None => mret 0 end) s1 = Some (0, s2) /\
    chain s2 = chain s ++ joined slash (parts smp us ++ option_list u)) as (s2 & E2 & C2).
  { unfold converts_opt in Hname. destruct name as [nm|], u as [u|]; try done.
    - destruct (put_part_run c nm flags u s1 Hname Hev1) as (s2 & E2 & C2). exists s2. split; [done|]. rewrite C2, C1.
      change (option_list (Some u)) with [u]. rewrite joined_snoc, <- app_assoc. f_equal. subst c. destruct (Z.ltb_spec 0 (Z.of_nat (length (joined slash (parts smp us))))) as [Hpos|Hz].
      + destruct (parts smp us); [cbn in Hpos; lia|done].
      + assert (joined slash (parts smp us) = []) as E0 by (apply nil_length_inv; lia). rewrite E0.
        by rewrite (parts_empty _ _ _ Hp Hus E0).
    - exists s1. split; [done|]. change (option_list (@None (list Z))) with (@nil (list Z)). by rewrite app_nil_r. }
  rewrite (bind_some _ _ _ _ _ E2). cbn [Z.eqb negb]. unfold converts_opt in Hstrm. destruct strm as [nm|], v as [v|]; try done.
  - destruct (put_part_run (Some 0x3a) nm flags v s2 Hstrm) as (s3 & E3 & C3).
    { rewrite C2. apply evenly_app; [done|]. apply evenly_joined. apply Forall_app. split.
      - by eapply evenly_parts.
      - destruct u as [u|], name; try done. repeat constructor. apply Hname. }
    exists s3. split; [done|]. by rewrite C3, C2, <- app_assoc.
  - exists s2. split; [done|]. by rewrite C2, app_nil_r.
Qed.
End Put.
End Spec.

(** ** Instances *)

(** A mount with a directory [d] in its root, a file [f] in it and a stream of the file, and memory. *)
Definition demo_node (p : positive) : pnode :=
  match p with
  | 2%positive => PNode [0x64] 0 102 7 (Some 1%positive) true
  | 3%positive => PNode [0x66] 0 103 7 (Some 2%positive) true
  | 4%positive => PNode [0x73] N_ISSTREAM 104 7 (Some 3%positive) true
  | _ => PNode [] 0 101 0 None true
  end.
#[local] Instance demo : PathIo := {|
  VTOSMB p := Some (demo_node p); vnode_getwithvid _ _ := 0; mb_put_mem c bs := (0, c ++ bs);
  ends_odd c := Z.odd (Z.of_nat (length c)); malloc_ok _ := true; path_utf := ascii
|}.
Definition demo_mount : mount := Mount (Some (utf16 [0x70; 0x71])) true 101.
Definition fresh : pstate := PState [] None [] [].

Lemma demo_up : up 3 [2; 1]%positive.
Proof. eapply up_parent; [done..|]. eapply up_parent; [done..|]. by eapply up_root. Qed.

Lemma path_is_of_ancestors_witness : exists s',
  smb2fs_fullpath (Some (3%positive, demo_mount)) (Some [0x78]) (Some [0x79]) 0x20 0x5c fresh = Some (0, s') /\
  chain s' = utf16 [0x70; 0x71; 0x5c; 0x64; 0x5c; 0x66; 0x5c; 0x78; 0x3a; 0x79].
Proof.
  assert (forall x, converts 0x20 [x] (le_bytes 2 x)) as Hc by done.
  apply (path_is_of_ancestors ltac:(done) demo_mount 3 [2; 1]%positive [le_bytes 2 0x64; le_bytes 2 0x66] (Some [0x78])
    (Some (le_bytes 2 0x78)) (Some [0x79]) (Some (le_bytes 2 0x79)) 0x20 fresh); try done.
  - apply demo_up.
  - unfold SMBFS_MAXPATHCOMP. cbn. lia.
  - by intros n [= <-].
  - constructor; [by eexists|]. constructor; [by eexists|constructor].
Defined.

Lemma path_gives_back_witness : exists e s', smb_fphelp demo_mount 4 true fresh = Some (e, s') /\ given_back fresh s'.
Proof.
  apply path_gives_back; [|done|intros n f [= <-] _ [= <-]; by vm_compute]. intros p. by exists (demo_node p).
Defined.

(** A directory under as many others as are allowed. *)
Definition deep_node (p : positive) : pnode :=
  PNode [0x64] 0 1 (if Pos.ltb p 1025 then 1 else 0) (Some (Pos.succ p)) true.
Definition deep : PathIo := {|
  VTOSMB p := Some (deep_node p); vnode_getwithvid _ _ := 0; mb_put_mem c bs := (0, c ++ bs);
  ends_odd _ := false; malloc_ok _ := true; path_utf := ascii
|}.

Lemma deep_up (k : nat) p : Z.pos p + Z.of_nat k = 1025 -> exists l, up (H := deep) p l /\ length l = k.
Proof.
  revert p. induction k as [|k IH]; intros p E.
  - exists []. split; [|done]. eapply (up_root (H := deep)); [done|]. cbn. by rewrite (proj2 (Pos.ltb_ge _ _)) by lia.
  - destruct (IH (Pos.succ p)) as (l & Hu & Hl); [lia|]. exists (Pos.succ p :: l). split; [|cbn; lia].
    eapply (up_parent (H := deep)); [done|cbn; by rewrite (proj2 (Pos.ltb_lt _ _)) by lia|done|done|done].
Qed.

Theorem deep_path_overruns maxlen : smbfs_build_path (H := deep) [] 1 maxlen fresh = None.
Proof.
  destruct (deep_up 1024 1 eq_refl) as (l & Hu & Hl). apply (build_path_overruns (H := deep) 1 l); [done|by rewrite Hl|done].
Qed.

(** Memory runs out when the path of the mount is put, and is there again afterwards. *)
Definition scarce : PathIo := {|
  VTOSMB p := Some (demo_node p); vnode_getwithvid _ _ := 0;
  mb_put_mem c bs := if Nat.eqb (length bs) 4 then (ENOBUFS, c) else (0, c ++ bs);
  ends_odd c := Z.odd (Z.of_nat (length c)); malloc_ok _ := true; path_utf := ascii
|}.

(** The error of putting the path of the mount is overwritten by the next call: the request has the path without
    it. *)
Theorem start_error_overwritten :
  (fun r => (fst r, chain (snd r))) <$> smb_fphelp (H := scarce) demo_mount 3 true fresh
    = Some (0, utf16 [0x5c; 0x64; 0x5c; 0x66]).
Proof. reflexivity. Qed.
