(* ===== verification/Streams.v ===== *)
(** * Named streams

    The list of the streams of a file: the reply to a query of FileStreamInformation
    ([smb2_smb_parse_file_stream_info] of [kernel/netsmb/smb_smb_2.c]), the query
    ([smb2fs_smb_qstreaminfo] and [smbfs_smb_qstreaminfo] of [kernel/smbfs/smbfs_smb_2.c]), and both for SMB 1
    ([smb1fs_smb_qstreaminfo] of [kernel/smbfs/smbfs_smb.c]).  The streams are the extended attributes of the
    file; they are listed, or one of them is looked for.

    The struct FILE_STREAM_INFORMATION, with what its pointers point to, the node and the local variables of
    the loop are one state; a pointer that is NULL is [None].  The clock is read once per reply. *)
From Stdlib Require Import Ascii String.
From S2P Require Import Prelude Chain Parser Convert.
From S2P Require Replies.
Import Errno.
Local Open Scope Z_scope.

Abbreviation smb2_smb_get_alloc_size := Replies.smb2_smb_get_alloc_size.

Definition kResourceFrk := 1.
Definition kFinderInfo := 2.
Definition SMB_NO_RESOURCE_FORK := 0x0001.
Definition SMB_NO_FINDER_INFO := 0x0002.
Definition SMB_NO_TRANSLATE_NAMES := 0x0010.
Definition SMB_NO_SUBSTREAMS := 0x0020.
Definition kNO_SUBSTREAMS := 0x2.
Definition SMB_EFA_REPARSE_POINT := 0x400.
Definition XATTR_MAXNAMELEN := 127.
Definition SMB_MAXPKTLEN := 0x1FFFF.

Definition bytes_of (s : string) : list Z := map (fun c => Z.of_N (Ascii.N_of_ascii c)) (String.list_ascii_of_string s).
(** A constant of C with its NUL. *)
Definition cstr (s : string) : list Z := bytes_of s ++ [0].
Definition SFM_RESOURCEFORK_NAME := cstr "AFP_Resource"%string.
Definition SFM_FINDERINFO_NAME := cstr "AFP_AfpInfo"%string.
Definition SFM_DESKTOP_NAME := cstr "AFP_DeskTop"%string.
Definition SFM_IDINDEX_NAME := cstr "AFP_IdIndex"%string.
Definition XATTR_RESOURCEFORK_NAME := cstr "com.apple.ResourceFork"%string.
Definition XATTR_FINDERINFO_NAME := cstr "com.apple.FinderInfo"%string.
Definition SMB_DATASTREAM := bytes_of ":$DATA"%string.

(** ** State *)

(** The fields of the node that are caches of its streams. *)
Record snode := SNode {
  rfrk_size : Z; rfrk_alloc_size : Z; rfrk_cache_timer : Z;
  finfo : list Z; finfo_cache_timer : Z;
  n_fstatus : Z
}.

Record sstate := SState {
  uio : option (Z * list Z);               (* uio_resid and what has been moved *)
  stream_buf_sizep : option Z;
  stream_sizep : option Z;
  stream_alloc_sizep : option Z;
  stream_flagsp : Z;
  np : snode;
  stream_type : Z;
  found_stream : bool;
  stream_count : Z;
  found_data_stream : bool
}.
Definition set_uio (v : option (Z * list Z)) (x : sstate) : sstate :=
  SState v (stream_buf_sizep x) (stream_sizep x) (stream_alloc_sizep x) (stream_flagsp x) (np x) (stream_type x)
    (found_stream x) (stream_count x) (found_data_stream x).
Definition set_buf_size (v : option Z) (x : sstate) : sstate :=
  SState (uio x) v (stream_sizep x) (stream_alloc_sizep x) (stream_flagsp x) (np x) (stream_type x)
    (found_stream x) (stream_count x) (found_data_stream x).
Definition set_sizes (v w : option Z) (x : sstate) : sstate :=
  SState (uio x) (stream_buf_sizep x) v w (stream_flagsp x) (np x) (stream_type x)
    (found_stream x) (stream_count x) (found_data_stream x).
Definition set_flags (v : Z) (x : sstate) : sstate :=
  SState (uio x) (stream_buf_sizep x) (stream_sizep x) (stream_alloc_sizep x) v (np x) (stream_type x)
    (found_stream x) (stream_count x) (found_data_stream x).
Definition set_np (v : snode) (x : sstate) : sstate :=
  SState (uio x) (stream_buf_sizep x) (stream_sizep x) (stream_alloc_sizep x) (stream_flagsp x) v (stream_type x)
    (found_stream x) (stream_count x) (found_data_stream x).
Definition add_type (v : Z) (x : sstate) : sstate :=
  SState (uio x) (stream_buf_sizep x) (stream_sizep x) (stream_alloc_sizep x) (stream_flagsp x) (np x)
    (Z.lor (stream_type x) v) (found_stream x) (stream_count x) (found_data_stream x).
Definition set_found (v : bool) (x : sstate) : sstate :=
  SState (uio x) (stream_buf_sizep x) (stream_sizep x) (stream_alloc_sizep x) (stream_flagsp x) (np x) (stream_type x)
    v (stream_count x) (found_data_stream x).
Definition count_stream (x : sstate) : sstate :=
  SState (uio x) (stream_buf_sizep x) (stream_sizep x) (stream_alloc_sizep x) (stream_flagsp x) (np x) (stream_type x)
    (found_stream x) (u32 (stream_count x + 1)) (found_data_stream x).
Definition set_found_data (x : sstate) : sstate :=
  SState (uio x) (stream_buf_sizep x) (stream_sizep x) (stream_alloc_sizep x) (stream_flagsp x) (np x) (stream_type x)
    (found_stream x) (stream_count x) true.

Definition set_rfrk (size alloc now : Z) (n : snode) : snode := SNode size alloc now (finfo n) (finfo_cache_timer n) (n_fstatus n).
Definition clear_finfo (now : Z) (n : snode) : snode :=
  SNode (rfrk_size n) (rfrk_alloc_size n) (rfrk_cache_timer n) (replicate 32 0) now (n_fstatus n).
Definition set_fstatus (v : Z) (n : snode) : snode :=
  SNode (rfrk_size n) (rfrk_alloc_size n) (rfrk_cache_timer n) (finfo n) (finfo_cache_timer n) v.

(** What does not change: the limits of session and share, the file, and the stream that is looked for. *)
Record senv := SEnv {
  session_txmax : Z;
  ss_maxfilenamelen : Z;
  f_bsize : option Z;
  unicode : bool;                          (* SMB_UNICODE_STRINGS *)
  namep_null : bool;                       (* namep == NULL: the streams are those of np itself *)
  is_dir : bool;
  now : Z;
  stream_namep : option (list Z)           (* a string without its NUL *)
}.

(** The kernel: the conversions, memory, and what names are reserved ([name] up to its NUL). *)
Class StreamKernel := {
  xattr_protected : list Z -> bool;
  malloc_ok : Z -> bool;
  #[global] stream_utf :: Utf
}.

Section Streams.
Context `{StreamKernel}.

(** ** Names *)

(** [smbfs_ntwrkname_tolocal] of [smbfs_subr.c]. *)
Definition smbfs_ntwrkname_tolocal (ntwrk_name : list Z) (usingUnicode : bool) : option (list Z) :=
  match ntwrk_name with
  | [] => None
  | _ =>
      let length := Z.min (Z.of_nat (length ntwrk_name) * (if usingUnicode then 9 else 3)) SMB_MAXPKTLEN in
      Some (match smb_convert_from_network ntwrk_name length UTF_SFM_CONVERSIONS usingUnicode with
            | inl _ => []
            | inr s => s
            end)
  end.

(** The name of the stream with the NUL behind it, without the colon; and whether it was the data. *)
Definition smbfs_smb_undollardata (name : option (list Z)) : option (list Z) * bool :=
  match name with
  | None => (None, false)
  | Some name =>
      let nmlen := length name in
      if (nmlen <? 7)%nat then (None, false)
      else if negb (default 0 (head name) =? 0x3a) then (None, false)
      else if negb (bool_decide (drop (nmlen - 6) name = SMB_DATASTREAM)) then (None, false)
      else if Nat.eqb nmlen 7 then (None, true)
      else if XATTR_MAXNAMELEN + 1 <? Z.of_nat (nmlen - 6) then (None, false)
      else
        let stream := drop 1 (take (nmlen - 6) name) ++ [0] in
        if (17 <=? nmlen - 6)%nat && xattr_protected stream then (None, false) else (Some stream, false)
  end.

Definition to_lower (c : Z) : Z := if (0x41 <=? c) && (c <=? 0x5a) then c + 32 else c.

(** [!strncasecmp(a, b, n)]; a list ends with a NUL. *)
Fixpoint same_name (a b : list Z) (n : nat) : bool :=
  match n with
  | O => true
  | S k =>
      let x := default 0 (head a) in
      let y := default 0 (head b) in
      if negb (to_lower x =? to_lower y) then false else if x =? 0 then true else same_name (tail a) (tail b) k
  end.
(** [len >= sizeof(c) && !strncasecmp(s, c, sizeof(c))] *)
Definition is_name (s c : list Z) : bool := (length c <=? length s)%nat && same_name s c (length c).

(** As much as there is room for. *)
Definition uiomove (bs : list Z) (u : Z * list Z) : Z * list Z :=
  let n := Z.min (Z.of_nat (length bs)) (fst u) in (fst u - n, snd u ++ take (Z.to_nat n) bs).

(** ** One stream *)

Section Stream.
Context (env : senv).

(** They are looking for a specific stream, and not listing them. *)
Definition specific (x : sstate) : bool :=
  match uio x, stream_buf_sizep x, stream_namep env with None, None, Some _ => true | _, _, _ => false end.

(** A listing gets the name; or it is compared with the one that is looked for.  [None]: a NULL pointer is followed. *)
Definition deliver (stream_name : list Z) (stream_size alloc_size : Z) (x : sstate) : option sstate :=
  match uio x with
  | Some u => Some (set_uio (Some (uiomove stream_name u)) x)
  | None =>
      match found_stream x, stream_namep env, stream_sizep x with
      | false, Some n, Some _ =>
          let nlen := strnlen n (Z.to_nat (ss_maxfilenamelen env + 1)) in
          if (nlen <=? length stream_name)%nat && same_name stream_name n nlen then
            match stream_alloc_sizep x with
            | Some _ => Some (set_found true (set_sizes (Some stream_size) (Some alloc_size) x))
            | None => None
            end
          else Some x
      | _, _, _ => Some x
      end
  end.

Definition use_stream (stream_name : list Z) (stream_size alloc_size : Z) (x : sstate) : option sstate :=
  if is_name stream_name SFM_DESKTOP_NAME || is_name stream_name SFM_IDINDEX_NAME then
    Some (match stream_namep env with
          | Some n => if same_name SFM_DESKTOP_NAME n (length SFM_DESKTOP_NAME) then set_found true x else x
          | None => x
          end)
  else
    x1 ← deliver stream_name stream_size alloc_size x;
    Some (set_buf_size ((fun n => u64 (n + Z.of_nat (length stream_name))) <$> stream_buf_sizep x1) x1).

(** The size of the resource fork is cached. *)
Definition cache_rfrk (size alloc : Z) (x : sstate) : sstate :=
  if namep_null env && negb (is_dir env) then set_np (set_rfrk size alloc (now env) (np x)) x else x.

(** SMB 2: [translate_names] is the negation of a flag of the caller. *)
Definition stream_2 (translate_names : bool) (name : option (list Z)) (stream_size : Z) (x : sstate) : option sstate :=
  let alloc_size := smb2_smb_get_alloc_size (f_bsize env) stream_size in
  let x := count_stream x in
  match smbfs_smb_undollardata name with
  | (None, is_data_stream) => Some (if is_data_stream then set_found_data x else x)
  | (Some stream_name, _) =>
      if is_name stream_name SFM_RESOURCEFORK_NAME then
        let x := cache_rfrk stream_size alloc_size (add_type kResourceFrk x) in
        let nm := if specific x || negb translate_names then SFM_RESOURCEFORK_NAME else XATTR_RESOURCEFORK_NAME in
        if bool_decide (is_Some (uio x)) && (stream_size =? 0) then Some x else use_stream nm stream_size alloc_size x
      else if is_name stream_name SFM_FINDERINFO_NAME then
        let x := add_type kFinderInfo x in
        let nm := if specific x || negb translate_names then SFM_FINDERINFO_NAME else XATTR_FINDERINFO_NAME in
        if stream_size =? 0 then Some x else use_stream nm stream_size alloc_size x
      else use_stream stream_name stream_size alloc_size x
  end.

(** SMB 1: the allocation is what the server says. *)
Definition stream_1 (name : option (list Z)) (stream_size stream_alloc_size : Z) (x : sstate) : option sstate :=
  match smbfs_smb_undollardata name with
  | (None, _) => Some x
  | (Some s, _) =>
      if is_name s SFM_RESOURCEFORK_NAME then
        let x := cache_rfrk stream_size stream_alloc_size (add_type kResourceFrk x) in
        let nm := if specific x then SFM_RESOURCEFORK_NAME else XATTR_RESOURCEFORK_NAME in
        if bool_decide (is_Some (uio x)) && (stream_size =? 0) then Some x else use_stream nm stream_size stream_alloc_size x
      else if is_name s SFM_FINDERINFO_NAME then
        if stream_size =? 0 then Some x else
        let x := add_type kFinderInfo x in
        let nm := if specific x then SFM_FINDERINFO_NAME else XATTR_FINDERINFO_NAME in
        use_stream nm stream_size stream_alloc_size x
      else use_stream s stream_size stream_alloc_size x
  end.

(** ** The list *)

(** "Ignore a trailing null". *)
Definition trim_null (name : list Z) : list Z :=
  let n := length name in
  if (1 <? n)%nat && (default 0 (name !! (n - 1)%nat) =? 0) && (default 0 (name !! (n - 2)%nat) =? 0)
  then take (n - 2) name else name.

Definition apply_state (f : sstate -> option sstate) : parser sstate unit :=
  x ← look; match f x with Some x' => change (fun _ => x') | None => Undef end.

(** An entry; what is left of the offset of the next one.  [checked]: whether the buffer for the name is compared
    with NULL. *)
Definition stream_entry (checked : bool) (use : option (list Z) -> Z -> Z -> sstate -> option sstate) : parser sstate Z :=
  next_entry_offset ← get_le 4;
  network_name_len ← get_le 4;
  stream_size ← get_le 8;
  alloc_size ← get_le 8;
  if session_txmax env <? network_name_len then fail EBADRPC else
  if negb (malloc_ok network_name_len) then (if checked then fail ENOMEM else Undef) else
  network_name ← get_mem (Z.to_nat network_name_len);
  let parsed := u32 (24 + network_name_len) in
  apply_state (use (smbfs_ntwrkname_tolocal (trim_null network_name) (unicode env)) stream_size alloc_size);;
  if parsed <? next_entry_offset then
    let rest := next_entry_offset - parsed in
    if session_txmax env <? rest then fail EBADRPC else
    attempt (skip rest);;
    mret rest
  else mret next_entry_offset.

Fixpoint stream_loop (checked : bool) (fuel : nat) (use : option (list Z) -> Z -> Z -> sstate -> option sstate) : parser sstate unit :=
  match fuel with
  | O => Undef
  | S k => next_entry_offset ← stream_entry checked use; if next_entry_offset =? 0 then mret tt else stream_loop checked k use
  end.

(** From [done:] on; the error and the state. *)
Definition no_finder_info (x : sstate) : sstate :=
  if has (stream_type x) kFinderInfo then x
  else
    let x := set_flags (Z.lor (stream_flagsp x) SMB_NO_FINDER_INFO) x in
    if namep_null env then set_np (clear_finfo (now env) (np x)) x else x.
Definition no_resource_fork (x : sstate) : sstate :=
  if has (stream_type x) kResourceFrk then x
  else cache_rfrk 0 0 (set_flags (Z.lor (stream_flagsp x) SMB_NO_RESOURCE_FORK) x).
Definition streams_done (error : Z) (x : sstate) : Z * sstate :=
  let x := no_resource_fork (no_finder_info x) in
  (if negb (found_stream x) || (error =? ENOENT) then ENOATTR else error, x).

Definition only_data (x : sstate) : sstate :=
  if (stream_count x =? 1) && found_data_stream x then set_flags (Z.lor (stream_flagsp x) SMB_NO_SUBSTREAMS) x else x.

(** The locals of a call: [found_stream = (stream_namep) ? FALSE : TRUE]. *)
Definition fresh_locals (x : sstate) : sstate :=
  SState (uio x) (stream_buf_sizep x) (stream_sizep x) (stream_alloc_sizep x) (stream_flagsp x) (np x) 0
    (match stream_namep env with Some _ => false | None => true end) 0 false.

Definition result_of (r : Z + unit) : Z := match r with inl e => e | inr _ => 0 end.

Definition smb2_smb_parse_file_stream_info (fuel : nat) (buffer_len : Z) : parser sstate Z :=
  x0 ← look;
  let translate_names := negb (has (stream_flagsp x0) SMB_NO_TRANSLATE_NAMES) in
  change (fun x => set_flags 0 (fresh_locals x));;
  r ← (if buffer_len =? 0 then change (set_flags SMB_NO_SUBSTREAMS);; mret (inl ENOATTR)
       else attempt (stream_loop true fuel (fun name size _ => stream_2 translate_names name size)));
  x ← look;
  let '(error, x') := streams_done (result_of r) (only_data x) in
  change (fun _ => x');;
  mret error.

(** ** The queries *)

(** [answer]: the error of the compound request, or the length of the output and the bytes of the reply. *)
Definition smb2fs_smb_qstreaminfo (answer : Z + Z * list Z) (x : sstate) : option (Z * sstate) :=
  if namep_null env && has (n_fstatus (np x)) kNO_SUBSTREAMS then Some (ENOATTR, x) else
  let x := set_buf_size ((fun _ => 0) <$> stream_buf_sizep x) x in
  match answer with
  | inl error => Some (error, x)
  | inr (buffer_len, bs) =>
      match eval (smb2_smb_parse_file_stream_info (S (length bs)) buffer_len) bs x with
      | Some (inr error, _, x') =>
          Some (error, if (error =? 0) && namep_null env && has (stream_flagsp x') SMB_NO_SUBSTREAMS
                       then set_np (set_fstatus (Z.lor (n_fstatus (np x')) kNO_SUBSTREAMS) (np x')) x' else x')
      | Some (inl error, _, x') => Some (error, x')
      | None => None
      end
  end.

(** [answer]: allocating the request fails; an error of building and sending it; the bytes of the reply, [None] if
    there are none. *)
Inductive t2_answer := NoRequest (error : Z) | NoReply (error : Z) | Reply (bs : option (list Z)).

Definition smb1fs_smb_qstreaminfo (n_dosattr : Z) (answer : t2_answer) (x : sstate) : option (Z * sstate) :=
  let x := fresh_locals x in
  if namep_null env && (has (n_fstatus (np x)) kNO_SUBSTREAMS || has n_dosattr SMB_EFA_REPARSE_POINT)
  then Some (streams_done ENOATTR (set_found false x)) else
  let x := set_buf_size ((fun _ => 0) <$> stream_buf_sizep x) x in
  match answer with
  | NoRequest error => Some (error, x)
  | NoReply error => Some (streams_done error x)
  | Reply bs =>
      if negb (unicode env) then Some (streams_done ENOTSUP x) else
      match bs with
      | None => Some (streams_done 0 x)
      | Some bs =>
          match eval (attempt (stream_loop false (S (length bs)) stream_1)) bs x with
          | Some (inr r, _, x') => Some (streams_done (result_of r) x')
          | _ => None
          end
      end
  end.

Definition smbfs_smb_qstreaminfo (smb2 : bool) (n_dosattr : Z) (answer2 : Z + Z * list Z) (answer1 : t2_answer)
    (x : sstate) : option (Z * sstate) :=
  if smb2 then smb2fs_smb_qstreaminfo answer2 x else smb1fs_smb_qstreaminfo n_dosattr answer1 x.
End Stream.
End Streams.
