(* ===== verification/StreamTheorems.v ===== *)
(** * Named streams: theorems

    A list of streams that a server sends is taken over name by name; whatever it sends, the reply is not left
    and the caller's buffer not overrun. *)
From Stdlib Require Import Ascii String.
From S2P Require Import Prelude Chain Parser Convert Streams.
From S2P Require Replies.
Import Errno.
Local Open Scope Z_scope.

(** ** Any reply *)

Section Any.
Context `{StreamKernel} (env : senv).

(** Where a size goes its allocation goes; the buffer has room for [total] bytes. *)
Record sound (total : Z) (x : sstate) : Prop := {
  sound_sizes : is_Some (stream_sizep x) -> is_Some (stream_alloc_sizep x);
  sound_uio : match uio x with Some (resid, moved) => 0 <= resid /\ resid + Z.of_nat (length moved) = total | None => True end
}.

Lemma sound_uiomove total x bs u : sound total x -> uio x = Some u -> sound total (set_uio (Some (uiomove bs u)) x).
Proof using Type.
  intros [H1 H2] Hu. rewrite Hu in H2. destruct u as [resid moved]. destruct H2 as [H2 H3]. split; [done|]. cbn.
  rewrite length_app, length_take. lia.
Qed.

Lemma use_sound total name size alloc x : sound total x -> exists x', use_stream env name size alloc x = Some x' /\ sound total x'.
Proof using Type.
  intros Hs. unfold use_stream. destruct (_ || _).
  { destruct (stream_namep env); [|by eexists]. destruct (same_name _ _ _); eexists; (split; [reflexivity|]); [|done].
    destruct Hs as [H1 H2]. by split. }
  assert (exists x1, deliver env name size alloc x = Some x1 /\ sound total x1) as (x1 & -> & Hs1).
  { unfold deliver. destruct (uio x) as [u|] eqn:Eu; [eexists; split; [reflexivity|by apply sound_uiomove]|].
    destruct (found_stream x); [by eexists|]. destruct (stream_namep env); [|by eexists].
    destruct (stream_sizep x) eqn:Es; [|by eexists]. cbv zeta. destruct (_ && _); [|by eexists].
    destruct Hs as [H1 H2]. destruct (stream_alloc_sizep x) eqn:Ea; [|rewrite Es in H1; destruct (H1 ltac:(by eexists)); done].
    eexists. split; [reflexivity|]. split; [by eexists|]. cbn. by rewrite Eu. }
  cbn [mbind option_bind]. eexists. split; [reflexivity|]. destruct Hs1 as [H1 H2]. by split.
Qed.

Lemma sound_rfrk total size alloc x : sound total x -> sound total (cache_rfrk env size alloc x).
Proof using Type. intros [H1 H2]. unfold cache_rfrk. destruct (_ && _); by split. Qed.
Lemma sound_type total k x : sound total x -> sound total (add_type k x).
Proof using Type. intros [H1 H2]. by split. Qed.
Lemma sound_count total x : sound total x -> sound total (count_stream x).
Proof using Type. intros [H1 H2]. by split. Qed.
Lemma sound_found_data total x : sound total x -> sound total (set_found_data x).
Proof using Type. intros [H1 H2]. by split. Qed.
Hint Resolve sound_rfrk sound_type sound_count sound_found_data use_sound : core.

Lemma stream_2_sound translate total name size x : sound total x ->
  exists x', stream_2 env translate name size x = Some x' /\ sound total x'.
Proof using Type.
  intros Hs. unfold stream_2. destruct (smbfs_smb_undollardata name) as [[nm|] b]; [|destruct b; eauto 8].
  repeat match goal with |- context [if ?c then _ else _] => destruct c end; eauto 8.
Qed.

Lemma wp_entry checked use total bs x :
  (forall name size alloc y, sound total y -> exists y', use name size alloc y = Some y' /\ sound total y') ->
  (forall n, checked = false -> malloc_ok n = true) -> sound total x ->
  wp (stream_entry env checked use) (fun r bs' x' => sound total x' /\
    match r with inr _ => (length bs' + 24 <= length bs)%nat | inl _ => True end) bs x.
Proof using Type.
  intros Huse Hm Hs. unfold stream_entry.
  apply wp_bind, wp_get_le; intros H1; [|done]. cbn [on_value]. apply wp_bind, wp_get_le; intros H2; [|done]. cbn [on_value].
  apply wp_bind, wp_get_le; intros H3; [|done]. cbn [on_value]. apply wp_bind, wp_get_le; intros H4; [|done]. cbn [on_value].
  set (nlen := le_value _). destruct (_ <? _); [by apply wp_fail|].
  destruct (malloc_ok nlen) eqn:Em; cbn [negb].
  2: { destruct checked; [by apply wp_fail|]. by rewrite Hm in Em. }
  apply wp_bind, wp_get_mem; intros H5; [|done]. cbn [on_value].
  assert (length (drop (Z.to_nat nlen) (drop 8 (drop 8 (drop 4 (drop 4 bs))))) + 24 <= length bs)%nat as Hl.
  { rewrite !length_drop in *. lia. }
  revert Hl. generalize (drop (Z.to_nat nlen) (drop 8 (drop 8 (drop 4 (drop 4 bs))))) as bs5. intros bs5 Hl.
  apply wp_bind. unfold apply_state. apply wp_bind, wp_look. cbn [on_value].
  match goal with |- context [use ?a ?b ?c x] => destruct (Huse a b c x Hs) as (x1 & E1 & Hs1); rewrite E1 end.
  apply wp_change. cbn [on_value]. destruct (_ <? _); [|by apply wp_ret]. destruct (_ <? _); [by apply wp_fail|].
  apply wp_bind, wp_attempt, wp_skip; intros _; cbn [on_value]; apply wp_ret; (split; [done|]); [rewrite length_drop; lia|cbn; lia].
Qed.

Lemma wp_loop checked use total fuel bs x :
  (forall name size alloc y, sound total y -> exists y', use name size alloc y = Some y' /\ sound total y') ->
  (forall n, checked = false -> malloc_ok n = true) -> sound total x -> (length bs < fuel)%nat ->
  wp (stream_loop env checked fuel use) (fun _ _ x' => sound total x') bs x.
Proof using Type.
  intros Huse Hm. revert bs x. induction fuel as [|k IH]; intros bs x Hs Hf; [lia|]. cbn [stream_loop]. apply wp_bind.
  eapply wp_mono; [|by apply wp_entry]. intros [e|n] bs1 x1 [Hs1 Hl]; cbn [on_value]; [done|].
  destruct (n =? 0); [by apply wp_ret|]. apply IH; [done|lia].
Qed.

Lemma done_sound total error x : sound total x -> sound total (snd (streams_done env error x)).
Proof using Type.
  intros [H1 H2]. unfold streams_done, no_resource_fork, no_finder_info, cache_rfrk.
  repeat match goal with |- context [if ?c then _ else _] => destruct c end; by split.
Qed.

Lemma parse_sound total fuel len bs x : sound total x -> (length bs < fuel)%nat ->
  wp (smb2_smb_parse_file_stream_info env fuel len) (fun r _ x' => (exists e, r = inr e) /\ sound total x') bs x.
Proof using Type.
  intros Hs Hf. unfold smb2_smb_parse_file_stream_info. apply wp_bind, wp_look. cbn [on_value].
  apply wp_bind, wp_change. cbn [on_value]. set (x1 := set_flags 0 (fresh_locals env x)).
  assert (sound total x1) as Hs1 by (destruct Hs as [H1 H2]; by split).
  apply wp_bind. eapply (wp_mono _ (fun r _ x' => (exists v, r = inr v) /\ sound total x')).
  - intros r bs' x' [[v ->] Hx']. cbn [on_value]. apply wp_bind, wp_look. cbn [on_value].
    assert (sound total (only_data x')) as Hx2 by (unfold only_data; destruct (_ && _); [destruct Hx' as [H1 H2]; by split|done]).
    pose proof (done_sound total (result_of v) _ Hx2) as Hd. destruct (streams_done _ _ _) as [e x2].
    apply wp_bind, wp_change. cbn [on_value]. apply wp_ret. split; [by eexists|done].
  - destruct (len =? 0).
    + apply wp_bind, wp_change. cbn [on_value]. apply wp_ret. split; [by eexists|]. destruct Hs1 as [H1 H2]. by split.
    + apply wp_attempt. eapply wp_mono; [|apply (wp_loop true _ total fuel bs x1)]; [|intros; by apply stream_2_sound|done|done|done].
      intros r bs' x' Hx'. split; [by eexists|done].
Qed.
End Any.

Section Sized.
Context `{StreamKernel} (env : senv).

Lemma sized_stream_entry checked use : sized (stream_entry env checked use).
Proof.
  unfold stream_entry, apply_state. repeat first [sized_step | progress cbv zeta].
  all: match goal with |- sized (skip (_ - u32 ?x)) => pose proof (u32_range x) end.
  all: change (256 ^ Z.of_nat 4) with 4294967296 in *; split; [lia|exact I].
Qed.

Lemma sized_stream_loop checked fuel use : sized (stream_loop env checked fuel use).
Proof.
  induction fuel as [|k IH]; [done|]. cbn [stream_loop]. apply sized_bind; [apply sized_stream_entry|].
  intros n _. by destruct (n =? 0).
Qed.

Lemma sized_stream_info fuel len : sized (smb2_smb_parse_file_stream_info env fuel len).
Proof.
  unfold smb2_smb_parse_file_stream_info. repeat first [sized_step | apply sized_stream_loop | progress cbv zeta].
Qed.
End Sized.

(** C33: whatever bytes a server sends as the streams of a file, parsing ends, reads nothing outside of the reply, follows
    no pointer that is NULL, and moves no more to the caller than there is room for. *)
Theorem streams_in_bounds `{Reader St D, !ReaderLaws St D, StreamKernel} env fuel len total (st : St) (d : D) bs x :
  Forall is_byte bs -> r_holds st d bs -> sound total x -> (length bs < fuel)%nat ->
  exists e d' bs' x', run (smb2_smb_parse_file_stream_info env fuel len) st d x = Some (inr e, st, d', x') /\
    r_holds st d' bs' /\ sound total x'.
Proof.
  intros Hb Hh Hs Hf. pose proof (run_eval _ st d bs x (sized_stream_info env fuel len) Hb Hh) as Hr.
  pose proof (parse_sound env total fuel len bs x Hs Hf) as Hw. unfold wp in Hw.
  destruct (eval _ bs x) as [[[r bs'] x']|]; [|done]. destruct Hw as [[e ->] Hx]. destruct Hr as (d' & Er & Hh').
  by exists e, d', bs', x'.
Qed.

(** ** Names *)






(** ** Lists of streams *)

(** A stream of a file; its name as the server has it, and as it is locally. *)
Record stream := Stream { st_network : list Z; st_name : list Z; st_size : Z; st_alloc : Z }.

Definition full_name (name : list Z) : list Z := 0x3a :: name ++ SMB_DATASTREAM.

Section Listing.
Context `{StreamKernel} (env : senv) (Htx : 0 <= session_txmax env < 2 ^ 32).


(** The layout of [MS-FSCC] 2.4.43: entries start at multiples of 8. *)
Definition stream_bytes (next : Z) (e : stream) : list Z :=
  le_bytes 4 next ++ le_bytes 4 (Z.of_nat (length (st_network e))) ++ le_bytes 8 (st_size e) ++ le_bytes 8 (st_alloc e) ++ st_network e.
Definition entry_size (e : stream) : nat := 8 * ((24 + length (st_network e) + 7) / 8).
Definition pad (e : stream) : list Z := replicate (entry_size e - (24 + length (st_network e))) 0.
Fixpoint streams_bytes (es : list stream) : list Z :=
  match es with
  | [] => []
  | [e] => stream_bytes 0 e
  | e :: r => stream_bytes (Z.of_nat (entry_size e)) e ++ pad e ++ streams_bytes r
  end.


Section Use.
Context (use : option (list Z) -> Z -> Z -> sstate -> option sstate).



End Use.











End Listing.

(** ** Instances *)

#[local] Instance demo_kernel : StreamKernel := {|
  xattr_protected s := bool_decide (take 17 s = bytes_of "com.apple.system.");
  malloc_ok _ := true;
  stream_utf := ascii
|}.
Definition demo_env (sought : option (list Z)) : senv := SEnv 65536 255 (Some 4096) true true false 77 sought.
Definition demo_stream (s : string) (size : Z) : stream :=
  Stream (utf16 (full_name (bytes_of s))) (bytes_of s) size size.
Definition demo_node : snode := SNode 9 9 1 (replicate 32 1) 1 0.

Definition demo_listing : sstate := SState (Some (200, [])) (Some 0) None None 0 demo_node 0 false 0 false.



(** The comment above the list says that empty streams are not returned. *)
Theorem empty_stream_listed : exists x',
  smb2fs_smb_qstreaminfo (demo_env None) (inr (1, streams_bytes [demo_stream "empty" 0])) demo_listing = Some (0, x') /\
  uio x' = Some (194, cstr "empty").
Proof. eexists. split; [vm_compute; reflexivity|reflexivity]. Qed.

Lemma streams_in_bounds_witness : exists e d' bs' x',
  @run unit (Z * list Z) list_reader _ _ (smb2_smb_parse_file_stream_info (demo_env None) 4 3) tt (0, [1; 2; 3]) demo_listing = Some (inr e, tt, d', x') /\
  r_holds (Reader := list_reader) tt d' bs' /\ sound 200 x'.
Proof.
  apply (@streams_in_bounds unit (Z * list Z) list_reader list_reader_laws demo_kernel (demo_env None) 4 3 200 tt (0, [1; 2; 3]) [1; 2; 3] demo_listing).
  - repeat constructor; unfold is_byte; lia.
  - done.
  - split; [by intros []|cbn; lia].
  - cbn. lia.
Defined.

(** Looking for a stream, and what is told of it. *)
Definition demo_seek : sstate := SState None None (Some 0) (Some 0) 0 demo_node 0 false 0 false.
Definition told (r : option (Z * sstate)) : option (Z * option Z) := (fun r => (fst r, stream_sizep (snd r))) <$> r.

(** A stream whose name starts with the one that is looked for is taken for it. *)
Theorem prefix_taken_for_stream :
  told (smb2fs_smb_qstreaminfo (demo_env (Some (bytes_of "foo")))
    (inr (1, streams_bytes [demo_stream "foobar" 7; demo_stream "foo" 3])) demo_seek) = Some (0, Some 7).
Proof. vm_compute. reflexivity. Qed.

(** Asking for no more than whether a stream is there, it never is. *)
Theorem existence_never_found :
  told (smb2fs_smb_qstreaminfo (demo_env (Some (bytes_of "foo"))) (inr (1, streams_bytes [demo_stream "foo" 3]))
    (set_sizes None None demo_seek)) = Some (ENOATTR, None).
Proof. vm_compute. reflexivity. Qed.

(** Empty Finder info is told to be there by SMB 2, and not to be there by SMB 1. *)
Theorem empty_finder_info_differs :
  let es := [demo_stream "AFP_AfpInfo" 0; demo_stream "AFP_Resource" 3] in
  let flags r := (fun r => stream_flagsp (snd r)) <$> r in
  flags (smb2fs_smb_qstreaminfo (demo_env None) (inr (1, streams_bytes es)) demo_listing) = Some 0 /\
  flags (smb1fs_smb_qstreaminfo (demo_env None) 0 (Reply (Some (streams_bytes es))) demo_listing) = Some SMB_NO_FINDER_INFO.
Proof. vm_compute. done. Qed.

(** A reply that ends too early is taken for one without the stream, and the caches of Finder info and resource fork
    are emptied. *)
Theorem bad_reply_empties_caches :
  (fun r => (fst r, rfrk_size (np (snd r)), finfo (np (snd r)))) <$>
    smb2fs_smb_qstreaminfo (demo_env (Some (bytes_of "foo"))) (inr (3, [1; 2; 3])) demo_seek
  = Some (ENOATTR, 0, replicate 32 0).
Proof. vm_compute. reflexivity. Qed.

(** That a file has no streams at all is not remembered, since it is returned as an error. *)
Theorem no_streams_forgotten :
  (fun r => (fst r, has (stream_flagsp (snd r)) SMB_NO_SUBSTREAMS, n_fstatus (np (snd r)))) <$>
    smb2fs_smb_qstreaminfo (demo_env None) (inr (0, [])) demo_listing = Some (ENOATTR, true, 0).
Proof. vm_compute. reflexivity. Qed.
